(* ===== verification/_CoqProject ===== *)
-Q . S2P
Prelude.v
MdbTree.v
Hamlet.v
MdbInv.v
MdbInsert.v
MdbRemove.v
MdbQuery.v
MdbRange.v
MdbRel.v
MdbCorrect.v
Slab.v
Net.v
NetSum.v
NetCorrect.v
Mm.v
MmCorrect.v
SlotAlloc.v
SlotCorrect.v
Sched.v
SchedCorrect.v
Rpc.v
RpcCorrect.v
NsCodec.v
Nameserver.v
NsCorrect.v
Mmu.v
Paging.v
PagingTables.v
PagingCorrect.v
Caps.v
CapDelete.v
Monitor.v
Lmp.v
CapsCorrect.v
CapDeleteCorrect.v
MonitorCorrect.v
LmpCorrect.v
Urpc.v
UrpcCorrect.v
Ring.v
Chain.v
Threads.v
ThreadSync.v
ThreadsCorrect.v
ThreadSyncCorrect.v
Waitset.v
WaitsetQueues.v
WaitsetCorrect.v
WaitsetEvents.v
WaitsetFire.v
WaitsetChan.v
EventQueue.v
EventQueueCorrect.v
EventMutexCorrect.v
LmpPoll.v
LmpPollCorrect.v
Deferred.v
DeferredCorrect.v
LmpChan.v
LmpChanCorrect.v
Dispatch.v
DispatchCorrect.v
Procman.v
ProcmanCorrect.v
Terminal.v
TerminalCorrect.v
AosRpc.v
AosRpcCorrect.v
InitRpc.v
InitRpcCorrect.v
Ramfs.v
RamfsTree.v
RamfsCorrect.v
Fopen.v
FopenCorrect.v
