(* ===== verification/Prelude.v ===== *)
(** Verification of the AOS Barrelfish system.

    AOS Barrelfish is a multikernel operating system for ARMv7: a small
    kernel (kernel/), a library that every domain links (lib/aos), services
    such as the memory server, the nameserver and the network stack (usr/),
    and supporting libraries.  This development models the parts that keep
    the system's resources and move its data, and proves them correct.

    * How the code is modelled

    Pure C functions are Rocq functions; stateful ones take and return the
    state they change, one record per component.  Machine integers are [Z]
    with the wrap-around of their width written out ([u8] .. [u64]).  A
    function that can stop the domain or the kernel returns an [outcome]:
    [Done] with its results or [Fault] with the reason (failed assertion,
    failed CHECK, panic, null dereference, access out of bounds).  Error
    values are lists of codes, as [err_push] builds them.  Code outside of
    the modelled parts that an operation calls (system calls on
    capabilities, frame allocation, mapping) is an argument or a field of a
    class.  Linked lists whose nodes are private to a component are Rocq
    lists; the free lists of the slab allocator, which live inside of the
    blocks they manage, and the queues of threads and channels, whose links
    several queues share, are kept in an explicit memory.

    * The parts

    - Mapping database, lib/mdb (used by the kernel for every capability
      operation).  [MdbTree]: the data, the AA tree of mdb_tree.c with its
      cached ends, insertion, removal, ordered and range queries, traversal
      and the invariant checker, over the class [CapPredicates] of the
      accessors and the comparison generated from capabilities/caps.hl, with
      the laws the code relies on in [CapLaws]; [Hamlet] implements the
      class for the capability types of caps.hl and proves the laws.  [MdbInv]: the
      invariant and the rotations; [MdbInsert], [MdbRemove]: both
      operations keep it; [MdbQuery]: ordered queries; [MdbRange]: the
      range query; [MdbRel]: the operations of mdb.c (relation bits,
      descendants, ancestors, copies) with their lemmas; [MdbCorrect]: the
      theorems and a sample database.
    - Slab allocator, lib/aos/slab.c.  [Slab]: slabs with their linked free
      lists in memory, the invariant that every block is either in use or on
      exactly one free list, and the pool interface ([pool_holds],
      [pool_alloc], [pool_free]) against which its clients are verified.
    - Physical memory manager, lib/mm.  [Mm]: the node list of mm.c, the
      slot preallocator of slot_alloc.c and their mutual refills, with the
      kernel's operations in the class [MmSys]; [MmCorrect]: nodes tile the
      managed memory, allocation and freeing.
    - Capability slot allocators, lib/aos/slot_alloc.  [SlotAlloc]: single,
      range and two-level allocators; [SlotCorrect]: the free ranges
      represent a set of slots.
    - Scheduler, kernel/schedule_rbed.c and kernel/wakeup.c.  [Sched]: the
      rate-based earliest deadline scheduler with its accounting and the
      wakeup queue; dispatchers are named by addresses and live in a memory
      that the queues share; [SchedCorrect]: accounting, selection,
      deadlines, round robin and wakeups.
    - Network stack, usr/networking and lib/netutil.  [Net]: byte order,
      checksum, SLIP, IP, ICMP, UDP with its port list, the receive buffer
      and the message handler; [NetSum]: byte order and checksum;
      [NetCorrect]: serial line, ports, end-to-end delivery, echo, buffer.
    - RPC messages, lib/aos/aos_rpc_shared.c.  [Rpc]: the send queue of each
      channel, fragmentation, identifiers, reassembly and responses; the
      kernel's answers to sends and the choice of events are arguments;
      [RpcCorrect]: an abstract channel on which messages are appended, and
      the simulation that shows in-order delivery.
    - Nameserver, usr/nameserver/main.c, lib/aos/nameserver_internal.c and
      nameserver_client.c.  [NsCodec]: the messages as bytes; [Nameserver]:
      the registry, the query language, the handlers and the client's
      side; [NsCorrect]: the registry as a list of services, and the way of
      a request from the client and back.
    - Page tables and paging, kernel/arch/armv7/paging.c and
      lib/aos/paging.c.  [Mmu]: the kernel's operations on tables and the
      translation of the hardware; [Paging]: virtual addresses, mapping,
      unmapping, page faults and regions, with capability slots and memory
      from a supply; [PagingTables]: the invariant of the tables and the
      mapping loop; [PagingCorrect]: the theorems.
    - Capabilities, kernel/capabilities.c, kernel/cap_delete.c,
      kernel/monitor.c and their part of kernel/syscall.c, on top of the
      mapping database.  [Caps]: slots, lookup in the two-level capability
      space, retype, creation, copy and mint; [CapDelete]: deletion,
      revocation, the lists of what is still to be deleted and cleared, and
      the removal of mappings; [Monitor]: the calls of the monitor, the
      locks and the owners; [CapsCorrect], [CapDeleteCorrect],
      [MonitorCorrect]: the theorems, each with sample states.
    - Local messages, kernel/dispatch.c and lib/aos/lmp_endpoints.c.  [Lmp]:
      endpoint buffers, delivery by the kernel with the transfer of a
      capability, and reception; [LmpCorrect]: the buffer as a queue of
      messages, hostile receivers, and delivery as a whole or not at all.
    - Messages between cores, usr/init/lib_urpc2.c and the messages of
      usr/init/lib_urpc.c.  [Urpc]: the two ring buffers in shared memory,
      the thread of each core and its send queue; [UrpcCorrect]: all
      interleavings of the rounds of two cores.
    - Threads, lib/aos/threads.c and lib/aos/thread_sync.c.  [Ring]: circular
      doubly linked lists with the links in the elements, and the list that
      a queue stands for; [Threads]: running, blocking, waking, yielding and
      pausing; [ThreadSync]: mutexes, condition variables and semaphores;
      [ThreadsCorrect]: the queues of threads as lists; [ThreadSyncCorrect]:
      the steps of all threads of a dispatcher.
    - Waitsets, lib/aos/waitset.c.  [Waitset]: channels, events and the
      threads that wait for them; [WaitsetQueues], [WaitsetCorrect]: the
      queues as lists and what each operation does to them; [WaitsetEvents]:
      the loop that waits for an event, and the steps of threads, channels
      and dispatcher; [WaitsetFire]: what firing a series of channels does;
      [WaitsetChan]: what an operation on one channel leaves alone.
    - Event queues, lib/aos/event_queue.c and lib/aos/event_mutex.c.
      [EventQueue]: queues of closures that one channel runs, and the mutex
      whose waiters are such a queue; [EventQueueCorrect],
      [EventMutexCorrect]: the order of the events and of the grants.
    - Sources of events, on top of the waitsets.  [Chain]: null-terminated
      doubly linked lists with the links in the elements.  [LmpPoll]: the
      list of endpoints that a dispatcher polls, lib/aos/lmp_endpoints.c;
      [Deferred]: timers, lib/aos/deferred.c; [LmpChan]: the channels that
      wait to send again, lib/aos/lmp_chan.c; [LmpPollCorrect],
      [DeferredCorrect], [LmpChanCorrect]: the lists, and which channels
      each of them fires.
    - Upcalls of a dispatcher, lib/aos/dispatch.c.  [Dispatch]: the run and
      the LRPC upcall, which poll endpoints, retry sends, fire timers and
      continue a thread; [DispatchCorrect]: the steps of upcalls, threads,
      kernel and time, and the theorem about the upcall.
    - Processes and terminal of init, usr/init/lib_procman.c and
      lib_terminal.c.  [Procman]: the table of processes as a linked list;
      [ProcmanCorrect]: the table as a finite map from identifiers.
      [Terminal]: the ring of keys and the line that is edited;
      [TerminalCorrect]: what is read is what was typed.
    - Calls of init, lib/aos/aos_rpc.c and usr/init/lib_rpc.c.  [AosRpc]: the
      requests of a domain and the calls that wait for their answer;
      [InitRpc]: the handlers of init, over the class [InitSys] of what lies
      below; [AosRpcCorrect], [InitRpcCorrect]: the way of a call to init and
      back.
    - File system, lib/fs.  [Ramfs]: the entries of ramfs.c with their lists,
      handles, paths, data and directories; [RamfsTree]: the entries in
      memory as a tree of names; [RamfsCorrect]: the operations on a finite
      map from paths, and data.  [Fopen]: the table of descriptors of fopen.c
      and the calls of the C library; [FopenCorrect]: the table as a finite
      map from descriptors.

    The memory manager and the slot allocators allocate their list nodes
    from slab allocators; the two-level slot allocator grows by single slot
    allocators; the wakeup queue makes dispatchers runnable in the
    scheduler; the network stack passes datagrams between the serial line
    and other domains; the nameserver sends and receives its messages
    through the RPC layer, whose conversion of strings its proofs use; the
    paging library keeps its list nodes in a slab allocator and calls the
    kernel's page tables; every operation on capabilities keeps the mapping
    database, and its theorems use those of the database; a message that
    carries a capability copies it with them; mutexes and waitsets block and
    wake threads, on whose queues their theorems rest; what the kernel
    delivers to an endpoint is found by the polling of its dispatcher, which
    like timers and sends fires channels of waitsets; the requests to init
    use the process table, the terminal, the RPC layer and the channel between
    the cores; the calls on descriptors use the file system, and their theorem
    its lemmas.

    * What the theorems show

    The conditions of a theorem are in the comment in front of it, with the
    names of the examples that show what happens without them.

    - Mapping database: insertion and removal keep order, AA balance, cached
      ends and distinct addresses and change exactly one entry; errors leave
      the database alone; the height is logarithmic; the code's own checker
      accepts every reachable database and no assertion fails; every query
      agrees with its definition on the sorted list of entries.
    - Slab allocator: allocation and freeing move exactly one block between
      use and the free list; blocks never overlap; growing adds as many
      blocks as fit.
    - Memory manager: allocations are aligned, sized and disjoint from all
      other nodes, and are retyped at their offset in the managed
      capability; freeing coalesces, both keep the nodes tiling the memory
      and are inverse to each other on the memory map.
    - Slot allocators: exactly the returned slot stops being free, freeing
      is its inverse and never runs out of nodes, growth adds a CNode.
    - Scheduler: the counters are those of the queue; [schedule] terminates,
      fails no assertion while no hard deadline is missed and selects the
      first released dispatcher, or the one that runs on its behalf, the one
      with the earliest deadline when all are hard real-time; best-effort
      dispatchers take turns; wakeups happen in the order of time.
    - Network: packets cross the serial line unchanged and a receiver
      resynchronises after one packet; stored checksums verify; a UDP
      message sent on one host is delivered with its ports, addresses and
      payload on the other, through the receive buffer, as long as the
      interrupts bring no more bytes than it has room for; echo requests are answered; the port list is a
      finite map and the receive buffer a queue.
    - RPC: what arrives on a channel are the messages sent on it, whole and
      in order, under every schedule of sends and transient errors; a queue
      is empty once the kernel accepted its pieces; the identifiers in use
      are a window modulo 256.
    - Nameserver: every request keeps the registry well-formed, but for the
      first registration, which links memory that is not initialised; a
      service that is registered later is found again, with its capability and properties, through
      both directions of the wire format; lookup is first fit and
      enumeration complete.
    - Paging: mapping and unmapping of whole pages change the translation of
      exactly the addresses of the range and keep tables, capabilities, list nodes and
      free addresses consistent; they are inverse to each other; page faults
      are served; handed out addresses do not overlap.
    - Capabilities: lookup finds exactly the slot that an address resolves
      to; a retype with an object size that fits the type creates exactly the
      requested objects, inside of the source and apart from everything else, and keeps capabilities nested
      or disjoint; a copy adds one entry; a deletion empties exactly the
      slot and its mappings, and what it gives back to the monitor is not
      covered by any other capability; a revocation leaves one copy and no
      child that is not waiting for its deletion; a lock holds on all copies.
    - Messages: an endpoint buffer is a bounded queue of whole messages; the
      kernel writes only inside of the buffer, whatever the receiver stored
      in it; a message with the copy of a capability is delivered whole, the
      copy in the slot that the receiver named, or changes nothing.  Between
      cores, what arrives is what was queued, in order and complete, and
      everything that was queued arrives, if the upper half of a variable
      that the code does not initialise is zero.
    - Threads: no call on a mutex, condition variable or semaphore fails an
      assertion, when mutexes are unlocked by their holders; every thread is in exactly
      one queue; a mutex has one holder and is granted in the order of the
      requests; semaphores count.
    - Waitsets: waiting for an event ends, with an event that is for the
      caller or with the caller blocked; no event is lost: when all threads
      are blocked, no event is left for them.  This is for runs without
      polled channels and without migration.
    - Sources of events: polling an endpoint with a message that was not
      received yet fires its channel, and no other; in the runs that the
      theorems name, after the upcall of a dispatcher, no timer that is due,
      no endpoint with a message and no channel that waits to send is left
      without its event, and a thread runs if one can.
    - Event queues: under every order of additions, cancellations and events
      that does not cancel the last event while it is about to run,
      each queued event runs once and in order, and as long as one is left
      the channel of the queue is pending; an event mutex is granted to its
      waiters in the order of their requests.
    - Processes: every operation on the table does to the list of entries
      what it should do to a finite map, and fails no assertion on registered
      processes.
    - Terminal: single keys are a bounded queue and arrow keys one key each;
      an edited line is read back as it was edited.
    - Calls of init: a call that prints, or that starts, names, kills or
      registers a process, is one message to init, which does what was asked
      and answers with one message, and this answer completes exactly this
      call; the transport in between is that of the RPC layer.
    - File system: opening, creating, removing and closing by path does to
      the linked lists and counts in memory what it should do to a finite map
      from paths, with the errors that are documented, and what it does
      instead when a directory is made without a parent or a file is removed
      as a directory; a directory lists its
      names, each once; what is appended to a file is read back from any
      place; descriptors are given out from the smallest on and map to the
      paths they were opened for.
    - Some theorems state what the code does where it does not do what it
      means to: an endpoint hides a RAM capability from the address query,
      the slot refill re-enters a running allocation, an exhausted manager
      aborts, the free count of a range allocator chain, removal of UDP
      ports, a burst that empties the receive buffer, removing a sleeper
      twice, waking a late real-time dispatcher, identifiers of messages
      that finish out of order, deregistration of names that the requester
      does not own, names registered twice, the query operator contains,
      virtual addresses after a request that is no multiple of the page
      size, giving away a locked capability, a thread that pauses itself,
      the migration of a pending event, deregistering an endpoint whose
      event is pending, a channel that is taken off the list of sends twice,
      cancelling a timer whose event was set aside, cancelling an event in
      flight, identifiers of processes that are given out again, killing a
      process that init did not register, a line that is full and can no
      longer be ended, names that are sent without their terminating zero,
      calls that one core forwards to the other, counts of handles that the
      file system never gives back, a file that is overwritten, the removal
      of the root, a seek in a directory, the check of O_EXCL.

    * Fuel and bounds

    [mdb_set_relations] has as fuel the number of entries, which its
    termination theorem shows to be enough.  [mm_alloc_aligned] and
    [two_level_alloc] call themselves through their refills; their theorems
    need fuel 1 when no refill is due.  [schedule] jumps back at most once
    per dispatcher of the queue, its fuel is one more.  The mapping loop has
    as fuel the number of pages and one; it needs one round per
    second-level table.  The loops of deletion and revocation have as fuel
    the number of entries of the database and one; their theorems show that
    this is enough.  Queues of threads have at most [MAX_THREADS] elements,
    the bound that the code checks; loops over channels have as fuel the
    number of channels and one, and waiting for an event as many rounds as
    there are channels and threads, and one.  A search in a directory needs
    more fuel than it has entries, and the walk along a path as much as the
    path has bytes, and one.  All other recursion is structural.
    Theorems about allocators assume that addresses and sizes do not wrap
    (less than 2^32 for pointers and sizes, 2^64 for physical addresses);
    packets have at most 65535 bytes, the size of the buffer.

    * Not modelled

    The mutexes of the other parts (each operation runs under its mutex,
    except where the re-entrancy of refills is modelled), output and
    debugging; registers, the context switch and architecture code other
    than page tables, and the round-robin scheduler, which the configuration
    does not select; the starting of domains and the shell; drivers and vendored
    libraries.  Memory that two cores share is sequentially consistent.  Of
    the modelled parts: creation, exit and joining of threads, the handlers
    that events call, the page fault and trap upcalls, threads that span
    several dispatchers, the set-up of the second core,
    mdb_init and dumps, the base-CNode slot allocator of lib/mm,
    two_level_slot_alloc_init, the parsing of the network address, the
    opening of RPC channels and the handshake of the nameserver, the
    kernel's own address space, caches and the TLB with the address that
    unmap_capability computes for its flush, the contents of the
    objects that capabilities stand for, and the paging
    library when its slabs are empty and the slab allocator calls it again.

    The components that are left are listed with the reason in the
    description of the project; those of the system's own code are the
    loading of programs, the shell, the drivers and the standard library. *)
From stdpp Require Export functions base tactics list numbers option sets gmap sorting.
From Stdlib Require Export ZArith Lia.

#[global] Open Scope Z_scope.

(** * Machine integers

    Every machine integer is a [Z]; a definition that the C code computes
    at a fixed unsigned width wraps it explicitly with one of these. *)

Definition wrap (w x : Z) : Z := x `mod` 2 ^ w.
Definition u8 (x : Z) : Z := wrap 8 x.
Definition u16 (x : Z) : Z := wrap 16 x.
Definition u32 (x : Z) : Z := wrap 32 x.
Definition u64 (x : Z) : Z := wrap 64 x.

(** The values a [w]-bit unsigned variable can hold. *)
Definition in_width (w x : Z) : Prop := 0 <= x < 2 ^ w.

(** * Control flow

    A C function either returns ([Done]) or stops the domain or the kernel
    ([Fault]): a failed [assert], a failed [CHECK] (whose debug build calls
    [abort()]), a [panic], the dereference of a null pointer, an access
    outside of a buffer, or a division by zero.  Two more
    faults mark the limits of a model, so that a theorem that excludes
    faults also says that the limit is not reached: the fuel of a recursion
    ran out, or the code takes a path that is not modelled. *)

Inductive fault :=
| AssertionFailed | CheckAborted | Panicked | NullDereference | OutOfBounds | DivisionByZero
| OutOfFuel | Unmodelled.

Inductive outcome (A : Type) : Type :=
| Done (a : A)
| Fault (f : fault).
Arguments Done {A} a.
Arguments Fault {A} f.

#[global] Instance outcome_ret : MRet outcome := fun A a => Done a.
#[global] Instance outcome_bind : MBind outcome :=
  fun A B k m => match m with Done a => k a | Fault f => Fault f end.

Definition assert (b : bool) : outcome unit :=
  if b then Done tt else Fault AssertionFailed.

(** [ASSERT b; k] continues with [k] if the C assertion [b] holds. *)
Declare Scope outcome_scope.
Delimit Scope outcome_scope with outcome.
#[global] Open Scope outcome_scope.
Notation "'ASSERT' b ; k" := (mbind (fun _ : unit => k) (assert b))
  (at level 20, b at level 100, k at level 200, only parsing) : outcome_scope.

Definition is_done {A} (m : outcome A) : bool :=
  match m with Done _ => true | Fault _ => false end.

(** * Error values

    [errval_t] is a stack of codes, the most recent one first; the empty
    stack is [SYS_ERR_OK].  The codes are those of [errors/errno.fugu]. *)

Inductive err_code :=
| CAPS_ERR_MDB_DUPLICATE_ENTRY
| CAPS_ERR_MDB_ENTRY_NOTFOUND
| CAPS_ERR_INVALID_ARGS
| SYS_ERR_CAP_NOT_FOUND
| SYS_ERR_NO_LOCAL_COPIES
| SYS_ERR_REVOKE_FIRST
| MM_ERR_ALREADY_ALLOCATED
| MM_ERR_NOT_FOUND
| MM_ERR_MM_FREE
| MM_ERR_SLOT_NOSLOTS
| MM_ERR_SLOT_MM_ALLOC
| LIB_ERR_ROOTSA_RESIZE
| LIB_ERR_SLOT_ALLOC
| LIB_ERR_CNODE_CREATE
| LIB_ERR_RAM_ALLOC
| LIB_ERR_MALLOC_FAIL
| LIB_ERR_SINGLE_SLOT_ALLOC
| LIB_ERR_SINGLE_SLOT_ALLOC_INIT
| LIB_ERR_SINGLE_SLOT_ALLOC_INIT_RAW
| LIB_ERR_SLAB_REFILL
| LIB_ERR_SLOT_ALLOC_NO_SPACE
| LIB_ERR_SLOT_UNALLOCATED
| LIB_ERR_SLOT_ALLOC_WRONG_CNODE
| LIB_ERR_SLOT_ALLOC_INIT
| LIB_ERR_RANGE_ALLOC_NOT_HEAD
| LIB_ERR_SLAB_ALLOC_FAIL
| AOS_NET_ERR_UDP_PORT_EXISTS
| AOS_NET_ERR_UDP_NO_SUCH_PORT
| SYS_ERR_LMP_NO_TARGET
| SYS_ERR_LMP_TARGET_DISABLED
| SYS_ERR_LMP_BUF_OVERFLOW
| SYS_ERR_LMP_CAPTRANSFER_DST_CNODE_LOOKUP
| SYS_ERR_LMP_CAPTRANSFER_DST_CNODE_INVALID
| SYS_ERR_LMP_CAPTRANSFER_DST_SLOT_OCCUPIED
| SYS_ERR_LMP_CAPTRANSFER_SRC_LOOKUP
| SYS_ERR_LMP_EP_STATE_INVALID
| LIB_ERR_NO_LMP_MSG
| LIB_ERR_LMP_RECV_BUF_OVERFLOW
| LIB_ERR_LMP_BUFLEN_INVALID
| LIB_ERR_NO_ENDPOINT_SPACE
| LIB_ERR_CHAN_ALREADY_REGISTERED
| LIB_ERR_CHAN_NOT_REGISTERED
| LIB_ERR_EVENT_ALREADY_RUN
| LIB_ERR_EVENT_QUEUE_EMPTY
| FS_ERR_NOTDIR
| FS_ERR_NOTFILE
| FS_ERR_INDEX_BOUNDS
| FS_ERR_NOTFOUND
| FS_ERR_EXISTS
| FS_ERR_NOTEMPTY
| FS_ERR_BUSY
| PROCMAN_ERR_PID_NOT_FOUND
| SPAWN_ERR_FIND_MODULE
| PROCMAN_ERR_PROCESS_NOT_YET_STARTED
| PROCMAN_ERR_PROCESS_ON_OTHER_CORE
| LIB_ERR_WAITSET_IN_USE
| LIB_ERR_NO_EVENT
| LIB_ERR_OUT_OF_VIRTUAL_ADDR
| LIB_ERR_VSPACE_MMU_AWARE_NO_SPACE
| LIB_ERR_RAM_ALLOC_WRONG_SIZE
| LIB_ERR_RAM_ALLOC_MS_CONSTRAINTS
| LIB_ERR_CAP_RETYPE
| LIB_ERR_CAP_DESTROY
| SYS_ERR_VNODE_SLOT_INVALID
| SYS_ERR_VNODE_SLOT_RESERVED
| SYS_ERR_FRAME_OFFSET_INVALID
| SYS_ERR_VM_MAP_SIZE
| SYS_ERR_SLOT_IN_USE
| SYS_ERR_INVALID_RETYPE
| SYS_ERR_RETYPE_INVALID_OFFSET
| SYS_ERR_INVALID_SIZE
| SYS_ERR_RETYPE_MAPPING_EXPLICIT
| SYS_ERR_RETRY_THROUGH_MONITOR
| SYS_ERR_RETYPE_INVALID_COUNT
| SYS_ERR_SLOTS_INVALID
| SYS_ERR_SLOTS_IN_USE
| SYS_ERR_RETYPE_CREATE
| SYS_ERR_ID_SPACE_EXHAUSTED
| SYS_ERR_CAP_LOOKUP_DEPTH
| SYS_ERR_CNODE_TYPE
| SYS_ERR_L1_CNODE_INDEX
| SYS_ERR_CNODE_RIGHTS
| SYS_ERR_CNODE_NOT_FOUND
| SYS_ERR_ILLEGAL_DEST_TYPE
| SYS_ERR_SOURCE_ROOTCN_LOOKUP
| SYS_ERR_SOURCE_CAP_LOOKUP
| SYS_ERR_DEST_ROOTCN_LOOKUP
| SYS_ERR_DEST_CNODE_LOOKUP
| SYS_ERR_DEST_CNODE_INVALID
| SYS_ERR_TYPE_NOT_CREATABLE
| SYS_ERR_SLOT_LOOKUP_FAIL
| SYS_ERR_DELETE_REMOTE_LOCAL
| SYS_ERR_ROOT_CAP_LOOKUP
| SYS_ERR_IDENTIFY_LOOKUP
| SYS_ERR_RESIZE_NOT_L1
| SYS_ERR_DEST_TYPE_INVALID
| SYS_ERR_INVALID_EPLEN
| SYS_ERR_INVALID_SOURCE_TYPE
| SYS_ERR_CNODE_NOT_ROOT
| SYS_ERR_CAP_LOCKED
| SYS_ERR_DELETE_LAST_OWNED.

#[global] Instance err_code_eq_dec : EqDecision err_code.
Proof. solve_decision. Defined.

Definition errval := list err_code.
Definition SYS_ERR_OK : errval := [].
Definition err (c : err_code) : errval := [c].
Definition err_is_fail (e : errval) : bool := match e with [] => false | _ => true end.
Definition err_is_ok (e : errval) : bool := negb (err_is_fail e).
Definition err_push (e : errval) (c : err_code) : errval := c :: e.
Definition err_no (e : errval) : option err_code := head e.

(** [CHECK(e)] of include/aos/debug.h in the debug build. *)
Definition CHECK (e : errval) : outcome unit :=
  if err_is_fail e then Fault CheckAborted else Done tt.

(** * Tactics *)

(** Case split on every boolean comparison of integers in the goal. *)
Ltac zcases :=
  repeat match goal with
  | |- context [Z.ltb ?a ?b] => destruct (Z.ltb_spec a b)
  | |- context [Z.leb ?a ?b] => destruct (Z.leb_spec a b)
  | |- context [Z.eqb ?a ?b] => destruct (Z.eqb_spec a b)
  end.

(** Same in a hypothesis. *)
Ltac zcases_in H :=
  repeat match type of H with
  | context [Z.ltb ?a ?b] => destruct (Z.ltb_spec a b)
  | context [Z.leb ?a ?b] => destruct (Z.leb_spec a b)
  | context [Z.eqb ?a ?b] => destruct (Z.eqb_spec a b)
  end.

(** Evaluate the comparisons of the goal that the context decides. *)
Ltac zdecide :=
  repeat match goal with
  | |- context [Z.ltb ?a ?b] =>
    first [rewrite (proj2 (Z.ltb_lt a b)) by lia | rewrite (proj2 (Z.ltb_ge a b)) by lia]
  | |- context [Z.leb ?a ?b] =>
    first [rewrite (proj2 (Z.leb_le a b)) by lia | rewrite (proj2 (Z.leb_gt a b)) by lia]
  | |- context [Z.eqb ?a ?b] =>
    first [rewrite (proj2 (Z.eqb_eq a b)) by lia | rewrite (proj2 (Z.eqb_neq a b)) by lia]
  end.

(** Run the first statement of a sequence whose outcome is known. *)
Ltac step := cbn [mbind outcome_bind].

(** Break conjunctions and existentials in the context. *)
Ltac break := repeat match goal with
  | H : _ /\ _ |- _ => destruct H
  | H : exists _, _ |- _ => destruct H
  end.

(** Split a conjunction of arithmetic facts and hypotheses. *)
Ltac solve_split := break; repeat split; auto; lia.

(** An equation between closed terms, by evaluation in the kernel. *)
Ltac vm_eq := match goal with |- ?x = ?y => vm_cast_no_check (@eq_refl _ y) end.

(** A decidable proposition without variables, by evaluation. *)
Ltac vm_decide := refine (bool_decide_unpack _ _); by vm_compute.

(** Case analysis on the membership in an explicit list. *)
Ltac case_list H :=
  repeat first [apply elem_of_nil in H; destruct H | apply elem_of_cons in H as [->|H]].

(** * Generic lemmas *)

Lemma wrap_small w x : in_width w x -> wrap w x = x.
Proof. intros [??]. unfold wrap. by apply Z.mod_small. Qed.

Lemma wrap_range w x : 0 <= w -> in_width w (wrap w x).
Proof. intros ?. apply Z.mod_pos_bound. lia. Qed.

Lemma u8_small x : 0 <= x < 256 -> u8 x = x.
Proof. intros. by apply wrap_small. Qed.
Lemma u16_small x : 0 <= x < 65536 -> u16 x = x.
Proof. intros. by apply wrap_small. Qed.
Lemma u32_small x : 0 <= x < 4294967296 -> u32 x = x.
Proof. intros. by apply wrap_small. Qed.
Lemma u64_small x : 0 <= x < 18446744073709551616 -> u64 x = x.
Proof. intros. by apply wrap_small. Qed.

Lemma u8_range x : 0 <= u8 x < 256.
Proof. by apply wrap_range. Qed.
Lemma u16_range x : 0 <= u16 x < 65536.
Proof. by apply wrap_range. Qed.
Lemma u32_range x : 0 <= u32 x < 4294967296.
Proof. by apply wrap_range. Qed.
Lemma u64_range x : 0 <= u64 x < 18446744073709551616.
Proof. by apply wrap_range. Qed.

(** Machine widths: wrapped values are in range, and wrapping a value that
    the context puts in range does nothing ([unwrap]). *)
Create HintDb width.
#[export] Hint Resolve u8_range u16_range u32_range u64_range wrap_range : width.
#[export] Hint Extern 2 (_ <= _) => lia : width.
#[export] Hint Extern 2 (_ <= _ < _) => lia : width.
Create Rewrite HintDb width_small.
#[export] Hint Rewrite u8_small u16_small u32_small u64_small using lia : width_small.
Ltac unwrap := autorewrite with width_small.

Lemma assert_true b : b = true -> assert b = Done tt.
Proof. by intros ->. Qed.

Lemma assert_true_neq x y : x <> y -> assert (negb (x =? y)) = Done tt.
Proof. intros. apply assert_true. by zcases. Qed.

Lemma elem_of_concat {A} (x : A) ls : x ∈ concat ls <-> exists l, x ∈ l /\ l ∈ ls.
Proof.
  induction ls as [|l ls IH]; simpl.
  - split; [by intros ?%elem_of_nil|]. by intros (l & _ & ?%elem_of_nil).
  - rewrite elem_of_app, IH. split.
    + intros [Hx|(l' & Hx & Hl)]; [exists l; split; [done|by left]|exists l'; split; [done|by right]].
    + intros (l' & Hx & [->|Hl]%elem_of_cons); eauto.
Qed.

(** Two members of a list related pairwise. *)
Lemma StronglySorted_pair {A} (R : A -> A -> Prop) l x y :
  StronglySorted R l -> x ∈ l -> y ∈ l -> x = y \/ R x y \/ R y x.
Proof.
  induction 1 as [|z l _ IH Hz]; intros Hx Hy; [by apply elem_of_nil in Hx|].
  rewrite Forall_forall in Hz.
  apply elem_of_cons in Hx as [->|Hx], Hy as [->|Hy]; auto.
Qed.
