(* ===== verification/MdbTree.v ===== *)
(** The mapping database: data model and operations of lib/mdb/mdb_tree.c.

    The kernel keeps every capability table entry (CTE) of a core in one
    AA tree ordered by [compare_caps].  A CTE embeds its tree node, so the
    tree is modelled as an inductive type whose nodes carry the CTE (with
    its address, which the ordering uses as tie break) and the fields of
    [struct mdbnode] that the tree maintains: [level], [end_root], [end].

    [compare_caps], [get_type_root], [get_address], [get_size] and
    [is_copy] are generated at build time by Hamlet: here they are the
    operations of the class [CapPredicates], and what the tree relies on is
    the class [CapLaws]. *)
From S2P Require Import Prelude.

(** * Interface to the generated capability predicates *)

Class CapPredicates := {
  capability : Type;
  cap_type : capability -> Z;
  get_type_root : Z -> Z;
  get_address : capability -> Z;
  get_size : capability -> Z;
  (** [compare_caps left right tiebreak]; a capability pointer is its
      address paired with what it points to. *)
  compare_caps : Z * capability -> Z * capability -> bool -> Z;
  is_copy : capability -> capability -> bool
}.

(** The root of the type forest a capability belongs to. *)
Definition cap_root `{CapPredicates} (c : capability) : Z := get_type_root (cap_type c).

(** The documented contract of the generated predicates (the section
    Compare of tools/hamlet/HamletBackend.lhs): [compare_caps] is the
    three-way result of a total preorder that looks at the type root, the
    address and the descending size first; the tie break makes it a total
    order on distinct locations; [is_copy] refines equality under it. *)
Class CapLaws `{CapPredicates} : Prop := {
  compare_range : forall l r tb,
    compare_caps l r tb = -1 \/ compare_caps l r tb = 0 \/ compare_caps l r tb = 1;
  compare_antisym : forall l r tb, compare_caps r l tb = - compare_caps l r tb;
  compare_trans : forall l m r tb,
    compare_caps l m tb <= 0 -> compare_caps m r tb <= 0 -> compare_caps l r tb <= 0;
  compare_tiebreak_zero : forall l r,
    compare_caps l r true = 0 <-> compare_caps l r false = 0 /\ l.1 = r.1;
  compare_tiebreak : forall l r,
    compare_caps l r false <> 0 -> compare_caps l r true = compare_caps l r false;
  compare_key : forall l r tb, compare_caps l r tb < 0 ->
    cap_root l.2 < cap_root r.2 \/
    (cap_root l.2 = cap_root r.2 /\
     (get_address l.2 < get_address r.2 \/
      (get_address l.2 = get_address r.2 /\ get_size r.2 <= get_size l.2)));
  compare_eq_key : forall l r, compare_caps l r false = 0 ->
    cap_type l.2 = cap_type r.2 /\ get_address l.2 = get_address r.2 /\
    get_size l.2 = get_size r.2;
  is_copy_compare : forall a l b r, is_copy l r = true -> compare_caps (a, l) (b, r) false = 0;
  is_copy_nonnull : forall a l b r, cap_type l <> 0 ->
    compare_caps (a, l) (b, r) false = 0 -> is_copy l r = true;
  root_width : forall t, in_width 8 (get_type_root t);
  address_width : forall c, in_width 64 (get_address c);
  size_width : forall c, in_width 64 (get_size c)
}.

Section Mdb.
Context `{CapPredicates}.

(** * Data *)

(** [struct cte]: its location, the capability, and the relation bits of
    the embedded node, which stay with the entry when it moves. *)
Record cte := Cte {
  cte_addr : Z;
  cte_cap : capability;
  remote_copies : bool;
  remote_ancs : bool;
  remote_descs : bool
}.

(** The macro [C(cte)]: a pointer to the capability of an entry. *)
Definition C (c : cte) : Z * capability := (cte_addr c, cte_cap c).

(** [struct mdbnode] as part of the tree it roots. *)
Inductive tree :=
| Nil
| Node (left : tree) (entry : cte) (level end_root end_ : Z) (right : tree).

Inductive mdb_invariant :=
| MDB_INVARIANT_OK
| MDB_INVARIANT_BOTHCHILDREN
| MDB_INVARIANT_LEFT_LEVEL_LESS
| MDB_INVARIANT_RIGHT_LEVEL_LEQ
| MDB_INVARIANT_RIGHTRIGHT_LEVEL_LESS
| MDB_INVARIANT_RIGHTLEFT_LEVEL_LESS
| MDB_INVARIANT_END_IS_MAX
| MDB_INVARIANT_LEFT_SMALLER
| MDB_INVARIANT_RIGHT_GREATER.

Definition is_nil (t : tree) : bool := match t with Nil => true | _ => false end.

Definition right_of (t : tree) : tree :=
  match t with Nil => Nil | Node _ _ _ _ _ r => r end.
Definition left_of (t : tree) : tree :=
  match t with Nil => Nil | Node l _ _ _ _ _ => l end.

(** [N(t)->level < k] under the guard that [t] is not null. *)
Definition level_lt (t : tree) (k : Z) : bool :=
  match t with Nil => true | Node _ _ lv _ _ _ => lv <? k end.
Definition level_le (t : tree) (k : Z) : bool :=
  match t with Nil => true | Node _ _ lv _ _ _ => lv <=? k end.

(** [end_root = MAX(end_root, N(child)->end_root)] if the child exists. *)
Definition max_end_root (acc : Z) (child : tree) : Z :=
  match child with Nil => acc | Node _ _ _ er _ _ => Z.max acc er end.

(** [end = MAX(end, N(child)->end)] if the child exists and shares the root. *)
Definition max_end (er acc : Z) (child : tree) : Z :=
  match child with
  | Nil => acc
  | Node _ _ _ er' e _ => if er' =? er then Z.max acc e else acc
  end.

(** [get_address(C(cte)) + get_size(C(cte))], a [genpaddr_t]. *)
Definition cap_end (c : cte) : Z := u64 (get_address (cte_cap c) + get_size (cte_cap c)).

Definition node_end_root (l : tree) (c : cte) (r : tree) : Z :=
  max_end_root (max_end_root (cap_root (cte_cap c)) l) r.

Definition node_end (er : Z) (l : tree) (c : cte) (r : tree) : Z :=
  let e := if cap_root (cte_cap c) =? er then cap_end c else 0 in
  max_end er (max_end er e l) r.

(** ** mdb_check_subtree_invariants *)

Definition guard_inv (b : bool) (v : mdb_invariant) (k : outcome mdb_invariant)
  : outcome mdb_invariant := if b then Done v else k.

Fixpoint mdb_check_subtree_invariants (t : tree) : outcome mdb_invariant :=
  match t with
  | Nil => Done MDB_INVARIANT_OK
  | Node l c lv er e r =>
    ASSERT (negb (cap_type (cte_cap c) =? 0));
    guard_inv ((0 <? lv) && (is_nil l || is_nil r)) MDB_INVARIANT_BOTHCHILDREN (
    guard_inv (negb (level_lt l lv)) MDB_INVARIANT_LEFT_LEVEL_LESS (
    guard_inv (negb (level_le r lv)) MDB_INVARIANT_RIGHT_LEVEL_LEQ (
    guard_inv (negb (level_lt (right_of r) lv)) MDB_INVARIANT_RIGHTRIGHT_LEVEL_LESS (
    guard_inv (negb (level_lt (left_of r) lv)) MDB_INVARIANT_RIGHTLEFT_LEVEL_LESS (
    guard_inv (negb (er =? node_end_root l c r)) MDB_INVARIANT_END_IS_MAX (
    guard_inv (negb (e =? node_end er l c r)) MDB_INVARIANT_END_IS_MAX (
      match l with
      | Nil => Done MDB_INVARIANT_OK
      | Node _ lc _ _ _ _ =>
        guard_inv (0 <=? compare_caps (C lc) (C c) true) MDB_INVARIANT_LEFT_SMALLER
          (mdb_check_subtree_invariants l)
      end ≫= fun res =>
      match res with
      | MDB_INVARIANT_OK =>
        match r with
        | Nil => Done MDB_INVARIANT_OK
        | Node _ rc _ _ _ _ =>
          guard_inv (compare_caps (C rc) (C c) true <=? 0) MDB_INVARIANT_RIGHT_GREATER
            (mdb_check_subtree_invariants r)
        end
      | res => Done res
      end)))))))
  end.

(** ** mdb_is_reachable *)

Fixpoint mdb_is_reachable (t : tree) (addr : Z) : bool :=
  match t with
  | Nil => false
  | Node l c _ _ _ r =>
    (cte_addr c =? addr) || mdb_is_reachable l addr || mdb_is_reachable r addr
  end.

(** ** Balancing helpers *)

Definition mdb_update_end (t : tree) : tree :=
  match t with
  | Nil => Nil
  | Node l c lv _ _ r =>
    let er := node_end_root l c r in
    Node l c lv er (node_end er l c r) r
  end.

Definition mdb_skew (t : tree) : tree :=
  match t with
  | Node (Node a lc llv ler le b) c lv er e r =>
    if lv =? llv then
      mdb_update_end (Node a lc llv ler le (mdb_update_end (Node b c lv er e r)))
    else t
  | _ => t
  end.

Definition mdb_split (t : tree) : tree :=
  match t with
  | Node a c lv er e (Node b rc rlv rer re (Node xl xc xlv xer xe xr)) =>
    if lv =? xlv then
      mdb_update_end (Node (mdb_update_end (Node a c lv er e b)) rc (u8 (rlv + 1)) rer re
                           (Node xl xc xlv xer xe xr))
    else t
  | _ => t
  end.

(** [N(t)->level = lv] *)
Definition set_level (t : tree) (lv : Z) : tree :=
  match t with Nil => Nil | Node l c _ er e r => Node l c lv er e r end.
(** [N(t)->left = l] and [N(t)->right = r] *)
Definition set_left (t l : tree) : tree :=
  match t with Nil => Nil | Node _ c lv er e r => Node l c lv er e r end.
Definition set_right (t r : tree) : tree :=
  match t with Nil => Nil | Node l c lv er e _ => Node l c lv er e r end.

Definition mdb_decrease_level (t : tree) : tree :=
  match t with
  | Nil => Nil
  | Node l c lv er e r =>
    let expected :=
      match l, r with
      | Node _ _ llv _ _ _, Node _ _ rlv _ _ _ => u8 (Z.min llv rlv + 1)
      | _, _ => 0
      end in
    if expected <? lv then
      Node l c expected er e
        (match r with
         | Node _ _ rlv _ _ _ => if expected <? rlv then set_level r expected else r
         | Nil => Nil
         end)
    else t
  end.

Definition mdb_rebalance (t : tree) : outcome tree :=
  ASSERT (negb (is_nil t));
  let t := mdb_decrease_level (mdb_update_end t) in
  let t := mdb_skew t in
  let t := set_right t (mdb_skew (right_of t)) in
  let t := set_right t (set_right (right_of t) (mdb_skew (right_of (right_of t)))) in
  let t := mdb_split t in
  Done (set_right t (mdb_split (right_of t))).

Definition mdb_is_inside (outer_begin outer_end inner_begin inner_end : Z) : outcome bool :=
  ASSERT (outer_begin <=? outer_end);
  ASSERT (inner_begin <=? inner_end);
  Done (((outer_begin <=? inner_begin) && (inner_end <? outer_end)) ||
        ((outer_begin <? inner_begin) && (inner_end <=? outer_end))).

(** ** Insertion

    The callers pass an entry whose node is zeroed (no children, level 0). *)

Fixpoint mdb_sub_insert (new_node : cte) (current : tree) : tree * errval :=
  match current with
  | Nil => (mdb_update_end (Node Nil new_node 0 0 0 Nil), SYS_ERR_OK)
  | Node l c lv er e r =>
    let compare := compare_caps (C new_node) (C c) true in
    if compare <? 0 then
      let '(l', ev) := mdb_sub_insert new_node l in
      if err_is_fail ev then (Node l' c lv er e r, ev)
      else (mdb_split (mdb_skew (mdb_update_end (Node l' c lv er e r))), SYS_ERR_OK)
    else if 0 <? compare then
      let '(r', ev) := mdb_sub_insert new_node r in
      if err_is_fail ev then (Node l c lv er e r', ev)
      else (mdb_split (mdb_skew (mdb_update_end (Node l c lv er e r'))), SYS_ERR_OK)
    else (current, err CAPS_ERR_MDB_DUPLICATE_ENTRY)
  end.

Definition mdb_insert (new_node : cte) (mdb_root : tree) : tree * errval :=
  mdb_sub_insert new_node mdb_root.

(** ** Removal

    [mdb_exchange_remove] walks from a child of the target to its in-order
    neighbour, exchanges that entry with the target and drops the target.
    The result is the child's new subtree and the entry that takes the
    target's place ([*ret_target]). *)

Fixpoint mdb_exchange_remove (target : cte) (dir : Z) (current : tree) : outcome (tree * cte) :=
  match current with
  | Nil => Fault AssertionFailed
  | Node l c lv er e r =>
    ASSERT (negb (cap_type (cte_cap target) =? 0));
    ASSERT (negb (cap_type (cte_cap c) =? 0));
    ASSERT (negb (dir =? 0));
    ASSERT (negb (compare_caps (C target) (C c) true =? 0));
    let found_leaf :=
      ASSERT (is_nil r && is_nil l);
      Done (Nil, c) in
    if 0 <? dir then
      match r with
      | Node _ _ _ _ _ _ =>
        '(r', ret_target) ← mdb_exchange_remove target dir r;
        t ← mdb_rebalance (Node l c lv er e r');
        Done (t, ret_target)
      | Nil => found_leaf
      end
    else
      match l, r with
      | Node _ _ _ _ _ _, _ =>
        '(l', ret_target) ← mdb_exchange_remove target dir l;
        t ← mdb_rebalance (Node l' c lv er e r);
        Done (t, ret_target)
      | Nil, Node rl rc rlv rer re rr =>
        (* exchange current with its right child, then the target with
           current; the right child keeps the end it had with current
           below it *)
        ASSERT (lv =? 0);
        let new_current :=
          mdb_update_end (Node Nil rc lv rer re (mdb_update_end (Node rl c rlv er e rr))) in
        Done (set_right new_current Nil, c)
      | Nil, Nil => found_leaf
      end
  end.

Fixpoint mdb_subtree_remove (target : cte) (current : tree) : outcome (tree * errval) :=
  match current with
  | Nil => Done (Nil, err CAPS_ERR_MDB_ENTRY_NOTFOUND)
  | Node l c lv er e r =>
    let compare := compare_caps (C target) (C c) true in
    if 0 <? compare then
      '(r', ev) ← mdb_subtree_remove target r;
      if err_is_fail ev then Done (Node l c lv er e r', ev)
      else t ← mdb_rebalance (Node l c lv er e r'); Done (t, SYS_ERR_OK)
    else if compare <? 0 then
      '(l', ev) ← mdb_subtree_remove target l;
      if err_is_fail ev then Done (Node l' c lv er e r, ev)
      else t ← mdb_rebalance (Node l' c lv er e r); Done (t, SYS_ERR_OK)
    else
      ASSERT (cte_addr c =? cte_addr target);
      match l, r with
      | Nil, Nil => Done (Nil, SYS_ERR_OK)
      | Nil, _ =>
        '(new_right, c') ← mdb_exchange_remove target (-1) r;
        t ← mdb_rebalance (Node Nil c' lv er e new_right);
        Done (t, SYS_ERR_OK)
      | _, _ =>
        '(new_left, c') ← mdb_exchange_remove target 1 l;
        t ← mdb_rebalance (Node new_left c' lv er e r);
        Done (t, SYS_ERR_OK)
      end
  end.

Definition mdb_remove (target : cte) (mdb_root : tree) : outcome (tree * errval) :=
  mdb_subtree_remove target mdb_root.

(** ** Queries on the ordering *)

Fixpoint mdb_sub_find_equal (cap : Z * capability) (t : tree) : option cte :=
  match t with
  | Nil => None
  | Node l c _ _ _ r =>
    let compare := compare_caps cap (C c) false in
    if compare <? 0 then mdb_sub_find_equal cap l
    else if 0 <? compare then mdb_sub_find_equal cap r
    else Some c
  end.

Definition mdb_find_equal (cap : Z * capability) (mdb_root : tree) : option cte :=
  mdb_sub_find_equal cap mdb_root.

Fixpoint mdb_sub_find_less (cap : Z * capability) (t : tree) (equal_ok tiebreak : bool)
  : option cte :=
  match t with
  | Nil => None
  | Node l c _ _ _ r =>
    let compare := compare_caps cap (C c) tiebreak in
    if compare <? 0 then mdb_sub_find_less cap l equal_ok tiebreak
    else if 0 <? compare then
      match mdb_sub_find_less cap r equal_ok tiebreak with
      | Some res => Some res
      | None => Some c
      end
    else if equal_ok then Some c
    else mdb_sub_find_less cap l equal_ok tiebreak
  end.

Definition mdb_find_less (cap : Z * capability) (equal_ok : bool) (mdb_root : tree) : option cte :=
  mdb_sub_find_less cap mdb_root equal_ok false.

Fixpoint mdb_sub_find_greater (cap : Z * capability) (t : tree) (equal_ok tiebreak : bool)
  : option cte :=
  match t with
  | Nil => None
  | Node l c _ _ _ r =>
    let compare := compare_caps cap (C c) tiebreak in
    if compare <? 0 then
      match mdb_sub_find_greater cap l equal_ok tiebreak with
      | Some res => Some res
      | None => Some c
      end
    else if 0 <? compare then mdb_sub_find_greater cap r equal_ok tiebreak
    else if equal_ok then Some c
    else mdb_sub_find_greater cap r equal_ok tiebreak
  end.

Definition mdb_find_greater (cap : Z * capability) (equal_ok : bool) (mdb_root : tree)
  : option cte := mdb_sub_find_greater cap mdb_root equal_ok false.

(** [N(current)]: the node of the entry at an address. *)
Fixpoint node_at (t : tree) (addr : Z) : option tree :=
  match t with
  | Nil => None
  | Node l c _ _ _ r =>
    if cte_addr c =? addr then Some t
    else match node_at l addr with Some s => Some s | None => node_at r addr end
  end.

(** [while ((node = N(current))->right) current = node->right] *)
Fixpoint rightmost (t : tree) (dflt : cte) : cte :=
  match t with Nil => dflt | Node _ c _ _ _ r => rightmost r c end.
Fixpoint leftmost (t : tree) (dflt : cte) : cte :=
  match t with Nil => dflt | Node l c _ _ _ _ => leftmost l c end.

Definition mdb_predecessor (current : cte) (mdb_root : tree) : option cte :=
  match node_at mdb_root (cte_addr current) with
  | Some (Node (Node _ c _ _ _ r) _ _ _ _ _) => Some (rightmost r c)
  | _ => mdb_sub_find_less (C current) mdb_root false true
  end.

Definition mdb_successor (current : cte) (mdb_root : tree) : option cte :=
  match node_at mdb_root (cte_addr current) with
  | Some (Node _ _ _ _ _ (Node l c _ _ _ _)) => Some (leftmost l c)
  | _ => mdb_sub_find_greater (C current) mdb_root false true
  end.

(** ** The range query *)

Definition MDB_RANGE_NOT_FOUND : Z := 0.
Definition MDB_RANGE_FOUND_SURROUNDING : Z := 1.
Definition MDB_RANGE_FOUND_INNER : Z := 2.
Definition MDB_RANGE_FOUND_PARTIAL : Z := 3.

Definition same_root (first second : cte) : bool :=
  cap_root (cte_cap first) =? cap_root (cte_cap second).

Definition mdb_choose_surrounding (address size : Z) (first second : cte) : outcome cte :=
  ASSERT (same_root first second);
  let beg := address in
  let end_ := u64 (address + size) in
  ASSERT ((get_address (cte_cap first) <=? beg) && (end_ <=? cap_end first));
  ASSERT ((get_address (cte_cap second) <=? beg) && (end_ <=? cap_end second));
  Done (if 0 <=? compare_caps (C first) (C second) true then first else second).

Definition mdb_choose_inner (address size : Z) (first second : cte) : outcome cte :=
  ASSERT (same_root first second);
  let end_ := u64 (address + size) in
  i1 ← mdb_is_inside address end_ (get_address (cte_cap first)) (cap_end first);
  ASSERT i1;
  i2 ← mdb_is_inside address end_ (get_address (cte_cap second)) (cap_end second);
  ASSERT i2;
  Done (if compare_caps (C first) (C second) true <=? 0 then first else second).

Definition mdb_choose_partial (address size : Z) (first second : cte) : outcome cte :=
  ASSERT (same_root first second);
  let beg := address in
  let fst_beg := get_address (cte_cap first) in
  let snd_beg := get_address (cte_cap second) in
  let end_ := u64 (address + size) in
  let fst_end := cap_end first in
  let snd_end := cap_end second in
  ASSERT (fst_beg <? end_);
  ASSERT (snd_beg <? end_);
  ASSERT (beg <? fst_end);
  ASSERT (beg <? snd_end);
  ASSERT (negb (fst_beg =? beg));
  ASSERT (negb (snd_beg =? beg));
  ASSERT (negb (fst_end =? end_));
  ASSERT (negb (snd_end =? end_));
  ASSERT (Bool.eqb (fst_beg <? beg) (fst_end <? end_));
  ASSERT (Bool.eqb (snd_beg <? beg) (snd_end <? end_));
  Done (if (fst_beg <? beg) && (beg <? snd_beg) then first
        else if (snd_beg <? beg) && (beg <? fst_beg) then second
        else if 0 <=? compare_caps (C first) (C second) true then first else second).

(** The result of a (sub)query: the class found and, if any, the entry. *)
Abbreviation range_result := (Z * option cte)%type.

(** [sub] is the recursive query of the child. *)
Definition mdb_sub_find_range_merge (address size max_precision : Z)
    (sub : outcome range_result) (acc : range_result) : outcome range_result :=
  let '(ret, result) := acc in
  ASSERT (0 <=? max_precision);
  ASSERT (ret <=? max_precision);
  '(sub_ret, sub_result) ← sub;
  if max_precision <? sub_ret then Done (sub_ret, sub_result)
  else if ret <? sub_ret then Done (sub_ret, sub_result)
  else if sub_ret =? ret then
    if sub_ret =? MDB_RANGE_NOT_FOUND then Done acc
    else match result, sub_result with
    | Some first, Some second =>
      c ← (if sub_ret =? MDB_RANGE_FOUND_SURROUNDING then
             mdb_choose_surrounding address size first second
           else if sub_ret =? MDB_RANGE_FOUND_INNER then
             mdb_choose_inner address size first second
           else if sub_ret =? MDB_RANGE_FOUND_PARTIAL then
             mdb_choose_partial address size first second
           else Fault AssertionFailed);
      Done (ret, Some c)
    | _, _ => Fault AssertionFailed
    end
  else Done acc.

(** The four tests on the current entry, in the order of the code. *)
Definition range_classify (address search_end : Z) (c : cte) : outcome range_result :=
  let a := get_address (cte_cap c) in
  let e := cap_end c in
  let partial :=
    ((address <? a) && (a <? search_end) && (search_end <? e)) ||
    ((address <? e) && (e <? search_end) && (a <? address)) in
  if partial then Done (MDB_RANGE_FOUND_PARTIAL, Some c)
  else
    inside ← mdb_is_inside address search_end a e;
    if (inside : bool) then Done (MDB_RANGE_FOUND_INNER, Some c)
    else if (a <=? address) && (a <? search_end) && (search_end <=? e) && (address <? e)
    then Done (MDB_RANGE_FOUND_SURROUNDING, Some c)
    else Done (MDB_RANGE_NOT_FOUND, None).

Fixpoint mdb_sub_find_range (root address size max_precision : Z) (t : tree)
  : outcome range_result :=
  ASSERT (0 <=? max_precision);
  match t with
  | Nil => Done (MDB_RANGE_NOT_FOUND, None)
  | Node l c _ er e r =>
    if er <? root then Done (MDB_RANGE_NOT_FOUND, None)
    else if (er =? root) && (e <=? address) then Done (MDB_RANGE_NOT_FOUND, None)
    else
      let current_root := cap_root (cte_cap c) in
      let current_address := get_address (cte_cap c) in
      let search_end := u64 (address + size) in
      acc ← (if current_root =? root then range_classify address search_end c
             else Done (MDB_RANGE_NOT_FOUND, None));
      if max_precision <? acc.1 then Done acc
      else
        acc ← (if is_nil l then Done acc
               else mdb_sub_find_range_merge address size max_precision
                      (mdb_sub_find_range root address size max_precision l) acc);
        if max_precision <? acc.1 then Done acc
        else if negb (is_nil r) && (current_root <=? root) &&
                ((current_address <? search_end) ||
                 ((search_end =? current_address) && (size =? 0))) then
          mdb_sub_find_range_merge address size max_precision
            (mdb_sub_find_range root address size max_precision r) acc
        else Done acc
  end.

(** [mdb_find_range]: [has_node] and [has_result] say whether the caller
    passed the output pointers.  The 64-bit [size] is converted to the
    [size_t] (32 bits on ARMv7) of [mdb_sub_find_range]. *)
Definition mdb_find_range (root address size max_result : Z) (has_node has_result : bool)
    (mdb_root : tree) : outcome (errval * range_result) :=
  if (max_result <? MDB_RANGE_NOT_FOUND) || (MDB_RANGE_FOUND_PARTIAL <? max_result) then
    Done (err CAPS_ERR_INVALID_ARGS, (MDB_RANGE_NOT_FOUND, None))
  else if (MDB_RANGE_NOT_FOUND <? max_result) && negb has_node then
    Done (err CAPS_ERR_INVALID_ARGS, (MDB_RANGE_NOT_FOUND, None))
  else if negb has_result then
    Done (err CAPS_ERR_INVALID_ARGS, (MDB_RANGE_NOT_FOUND, None))
  else
    res ← mdb_sub_find_range root address (u32 size) max_result mdb_root;
    Done (SYS_ERR_OK, res).

(** [ObjType_RAM] is the third type of capabilities/caps.hl. *)
Definition ObjType_RAM : Z := 2.

Definition mdb_find_cap_for_address (address : Z) (mdb_root : tree)
  : outcome (errval * option cte) :=
  '(ev, (result, node)) ← mdb_find_range (get_type_root ObjType_RAM) address 1
                            MDB_RANGE_FOUND_SURROUNDING true true mdb_root;
  if err_is_fail ev then Done (ev, node)
  else if negb (result =? MDB_RANGE_FOUND_SURROUNDING) then
    Done (err SYS_ERR_CAP_NOT_FOUND, node)
  else Done (SYS_ERR_OK, node).

(** ** Traversal *)

Inductive mdb_tree_traversal_order :=
| MDB_TRAVERSAL_ORDER_ASCENDING
| MDB_TRAVERSAL_ORDER_DESCENDING.

(** The callback threads the caller's data [D].  The recursion is only
    entered for subtrees that exist. *)
Fixpoint mdb_traverse_subtree {D : Type} (order : mdb_tree_traversal_order)
    (cb : cte -> D -> D * errval) (t : tree) (data : D) : D * errval :=
  match t with
  | Nil => (data, SYS_ERR_OK)
  | Node l c _ _ _ r =>
    let '(data, ev) :=
      match order with
      | MDB_TRAVERSAL_ORDER_ASCENDING => mdb_traverse_subtree order cb l data
      | MDB_TRAVERSAL_ORDER_DESCENDING => mdb_traverse_subtree order cb r data
      end in
    if err_is_fail ev then (data, ev) else
    let '(data, ev) := cb c data in
    if err_is_fail ev then (data, ev) else
    match order with
    | MDB_TRAVERSAL_ORDER_ASCENDING => mdb_traverse_subtree order cb r data
    | MDB_TRAVERSAL_ORDER_DESCENDING => mdb_traverse_subtree order cb l data
    end
  end.

(** [mdb_traverse] does not test for the empty database: [N(NULL)->left]
    is read. *)
Definition mdb_traverse {D : Type} (order : mdb_tree_traversal_order)
    (cb : cte -> D -> D * errval) (data : D) (mdb_root : tree) : outcome (D * errval) :=
  match mdb_root with
  | Nil => Fault NullDereference
  | t => Done (mdb_traverse_subtree order cb t data)
  end.

End Mdb.
