(* ===== verification/Hamlet.v ===== *)
(** An implementation of the interface [CapPredicates]: the predicates that
    tools/hamlet/HamletBackend.lhs generates from capabilities/caps.hl, on
    the fields they look at.  It discharges [CapLaws], so that the theorems
    about the mapping database apply to it. *)
From S2P Require Import Prelude MdbTree.

(** The parts of [struct capability] the predicates read: the type, the
    address and size of memory-backed types, up to three [eq] fields. *)
Record hcap := HCap {
  h_type : Z; h_address : Z; h_size : Z; h_eq0 : Z; h_eq1 : Z; h_eq2 : Z
}.

(** Types without any attribute that can differ (Kernel, IRQTable, PerfMon,
    IPI), which [is_always_copy] marks. *)
Definition h_always_copy (ty : Z) : bool :=
  (ty =? 12) || (ty =? 39) || (ty =? 43) || (ty =? 45).

(** The index of the root among the types that come from no other type. *)
Definition h_type_root (ty : Z) : Z :=
  if ty =? 0 then 0 else if ty =? 5 then 2 else if ty =? 12 then 3
  else if ty <? 39 then 1 else if ty =? 39 then 4 else if ty =? 40 then 5
  else if ty =? 41 then 6 else if ty =? 42 then 7 else if ty =? 43 then 8
  else if ty =? 44 then 1 else 9.

Definition h_get_address (c : hcap) : Z := if h_always_copy (h_type c) then 0 else u64 (h_address c).
Definition h_get_size (c : hcap) : Z := if h_always_copy (h_type c) then 0 else u64 (h_size c).

Definition h_eq (c : hcap) : list Z :=
  if h_always_copy (h_type c) then [0; 0; 0] else [h_eq0 c; h_eq1 c; h_eq2 c].

(** The sequence of [mkCmp] tests: the first difference decides. *)
Fixpoint lexcmp (xs ys : list Z) : Z :=
  match xs, ys with
  | x :: xs, y :: ys => if x =? y then lexcmp xs ys else if x <? y then -1 else 1
  | _, _ => 0
  end.

(** The size is compared in descending order. *)
Definition h_keys (tiebreak : bool) (p : Z * hcap) : list Z :=
  let c := p.2 in
  [h_type_root (h_type c); h_get_address c; - h_get_size c; h_type c] ++ h_eq c ++
  (if tiebreak then [p.1] else []).

Definition h_compare (l r : Z * hcap) (tiebreak : bool) : Z :=
  lexcmp (h_keys tiebreak l) (h_keys tiebreak r).

Definition h_is_copy (l r : hcap) : bool :=
  if negb (h_type l =? h_type r) then false
  else if h_type l =? 0 then false
  else if h_always_copy (h_type l) then true
  else h_compare (0, l) (0, r) false =? 0.

#[global] Instance hamlet : CapPredicates := {|
  capability := hcap; cap_type := h_type; get_type_root := h_type_root;
  get_address := h_get_address; get_size := h_get_size; compare_caps := h_compare;
  is_copy := h_is_copy
|}.

(** * The laws *)

Lemma lexcmp_range xs ys : lexcmp xs ys = -1 \/ lexcmp xs ys = 0 \/ lexcmp xs ys = 1.
Proof. revert ys. induction xs as [|x xs IH]; intros [|y ys]; simpl; auto. zcases; auto. Qed.

Lemma lexcmp_antisym xs ys : lexcmp ys xs = - lexcmp xs ys.
Proof.
  revert ys. induction xs as [|x xs IH]; intros [|y ys]; simpl; auto. rewrite IH. zcases; lia.
Qed.

Lemma lexcmp_trans xs ys zs : length xs = length ys -> length ys = length zs ->
  lexcmp xs ys <= 0 -> lexcmp ys zs <= 0 -> lexcmp xs zs <= 0.
Proof.
  revert ys zs. induction xs as [|x xs IH]; intros [|y ys] [|z zs]; simpl; try done.
  intros [=] [=]. zcases; try lia; eauto.
Qed.

Lemma lexcmp_zero xs ys : length xs = length ys -> lexcmp xs ys = 0 <-> xs = ys.
Proof.
  revert ys. induction xs as [|x xs IH]; intros [|y ys]; simpl; try done. intros [= Hlen].
  specialize (IH ys Hlen). destruct (Z.eqb_spec x y) as [->|Hne]; [rewrite IH; split; congruence|].
  split; [case_match; lia|congruence].
Qed.

Lemma lexcmp_app xs ys xs' ys' : length xs = length ys ->
  lexcmp (xs ++ xs') (ys ++ ys') = if lexcmp xs ys =? 0 then lexcmp xs' ys' else lexcmp xs ys.
Proof.
  revert ys. induction xs as [|x xs IH]; intros [|y ys]; simpl; try done. intros [= Hlen].
  rewrite IH by done. destruct (x =? y); [done|]. by destruct (x <? y).
Qed.

Lemma h_keys_length tb l r : length (h_keys tb l) = length (h_keys tb r).
Proof. unfold h_keys, h_eq. by destruct tb; repeat case_match. Qed.

Lemma h_keys_true p : h_keys true p = h_keys false p ++ [p.1].
Proof. unfold h_keys, h_eq. by case_match. Qed.

(** What equality without tie break fixes. *)
Lemma h_compare_zero l r : h_compare l r false = 0 <-> h_keys false l = h_keys false r.
Proof. apply lexcmp_zero, h_keys_length. Qed.

Lemma h_compare_true l r :
  h_compare l r true = if h_compare l r false =? 0 then lexcmp [l.1] [r.1] else h_compare l r false.
Proof. unfold h_compare. rewrite !h_keys_true. apply lexcmp_app, h_keys_length. Qed.

Lemma h_compare_address a b l r : h_compare (a, l) (b, r) false = h_compare (0, l) (0, r) false.
Proof. done. Qed.

Lemma h_type_root_width ty : in_width 8 (h_type_root ty).
Proof. unfold in_width, h_type_root. repeat case_match; lia. Qed.

#[global] Instance hamlet_laws : CapLaws.
Proof.
  split; simpl.
  - intros. apply lexcmp_range.
  - intros. apply lexcmp_antisym.
  - intros. eapply lexcmp_trans; eauto using h_keys_length.
  - intros l r. rewrite h_compare_true. destruct (Z.eqb_spec (h_compare l r false) 0) as [->|];
      [|lia]. simpl. zcases; lia.
  - intros l r Hne. rewrite h_compare_true. by zcases.
  - intros l r tb Hlt. unfold cap_root. simpl in *. unfold h_compare, h_keys in Hlt.
    cbn [app lexcmp] in Hlt. zcases_in Hlt; lia.
  - intros l r Hz%h_compare_zero. unfold h_keys in Hz. simpl in Hz. injection Hz as ? ? ? ? ?. lia.
  - intros a l b r. unfold h_is_copy. rewrite (h_compare_address a b).
    destruct (Z.eqb_spec (h_type l) (h_type r)) as [Ht|]; simpl; [|done].
    destruct (Z.eqb_spec (h_type l) 0); [done|].
    destruct (h_always_copy (h_type l)) eqn:Ha; [|by intros ?%Z.eqb_eq].
    intros _. apply h_compare_zero. unfold h_keys, h_get_address, h_get_size, h_eq. simpl.
    by rewrite <- Ht, Ha.
  - intros a l b r Hnn Hz. unfold h_is_copy. rewrite (h_compare_address a b) in Hz. rewrite Hz.
    apply h_compare_zero in Hz. unfold h_keys in Hz. simpl in Hz. injection Hz as _ _ _ Ht _.
    rewrite Ht, Z.eqb_refl. simpl. zdecide. by destruct (h_always_copy _).
  - apply h_type_root_width.
  - intros c. unfold h_get_address. case_match; [split; lia|]. by apply wrap_range.
  - intros c. unfold h_get_size. case_match; [split; lia|]. by apply wrap_range.
Qed.
