(* ===== verification/MdbInv.v ===== *)
(** The mapping database: its invariant and the correctness of insertion.

    [mdb_wf] is the invariant of the tree (AA balance, strict order of the
    in-order listing, exact subtree ends, no null capabilities).  Every tree
    that satisfies it passes the source's own checker, and [mdb_insert]
    preserves it while adding exactly the new entry. *)
From S2P Require Import Prelude MdbTree.

Section Invariant.
Context `{CapPredicates}.

(** * Definitions *)

(** The in-order listing of a tree: the abstract view of the database. *)
Fixpoint elements (t : tree) : list cte :=
  match t with
  | Nil => []
  | Node l c _ _ _ r => elements l ++ c :: elements r
  end.

(** The strict order of the tree: [compare_caps] with tie break. *)
Definition cte_lt (a b : cte) : Prop := compare_caps (C a) (C b) true < 0.

(** The level of a tree, one below the leaves' for the empty one. *)
Definition level (t : tree) : Z :=
  match t with Nil => -1 | Node _ _ lv _ _ _ => lv end.

(** AA balance: the left child is exactly one level down, the right child
    at most one, and two right links in a row cannot both be horizontal. *)
Fixpoint aa (t : tree) : Prop :=
  match t with
  | Nil => True
  | Node l _ lv _ _ r =>
    0 <= lv < 256 /\ level l = lv - 1 /\ (level r = lv \/ level r = lv - 1) /\
    level (right_of r) < lv /\ aa l /\ aa r
  end.

(** The greatest type root of a list of entries, and the greatest end
    among the entries of that root. *)
Fixpoint elts_root (cs : list cte) : Z :=
  match cs with [] => 0 | c :: cs => Z.max (cap_root (cte_cap c)) (elts_root cs) end.
Fixpoint elts_end (root : Z) (cs : list cte) : Z :=
  match cs with
  | [] => 0
  | c :: cs =>
    if cap_root (cte_cap c) =? root then Z.max (cap_end c) (elts_end root cs)
    else elts_end root cs
  end.

(** Every node caches the ends of its whole subtree. *)
Fixpoint ends_ok (t : tree) : Prop :=
  match t with
  | Nil => True
  | Node l c _ er e r =>
    er = elts_root (elements t) /\ e = elts_end er (elements t) /\ ends_ok l /\ ends_ok r
  end.

Definition nonnull (c : cte) : Prop := cap_type (cte_cap c) <> 0.

(** The invariant of the mapping database; an address holds one entry. *)
Definition mdb_wf (t : tree) : Prop :=
  aa t /\ ends_ok t /\ StronglySorted cte_lt (elements t) /\ Forall nonnull (elements t) /\
  NoDup (cte_addr <$> elements t).

Definition tsize (t : tree) : Z := Z.of_nat (length (elements t)).

(** A node whose cached ends are recomputed from its children. *)
Definition mk (l : tree) (c : cte) (lv : Z) (r : tree) : tree :=
  Node l c lv (node_end_root l c r) (node_end (node_end_root l c r) l c r) r.

(** * The order *)

Section Laws.
Context {CL : CapLaws}.

Lemma compare_lt_le_trans l m r tb :
  compare_caps l m tb < 0 -> compare_caps m r tb <= 0 -> compare_caps l r tb < 0.
Proof.
  intros Hlm Hmr.
  destruct (decide (compare_caps l r tb < 0)) as [|Hge]; [done|exfalso].
  pose proof (compare_antisym l r tb). pose proof (compare_antisym l m tb).
  assert (compare_caps m l tb <= 0) by (eapply (compare_trans m r l); lia). lia.
Qed.

Lemma compare_le_lt_trans l m r tb :
  compare_caps l m tb <= 0 -> compare_caps m r tb < 0 -> compare_caps l r tb < 0.
Proof.
  intros Hlm Hmr.
  destruct (decide (compare_caps l r tb < 0)) as [|Hge]; [done|exfalso].
  pose proof (compare_antisym l r tb). pose proof (compare_antisym m r tb).
  assert (compare_caps r m tb <= 0) by (eapply (compare_trans r l m); lia). lia.
Qed.

Lemma compare_refl l tb : compare_caps l l tb = 0.
Proof. pose proof (compare_antisym l l tb). lia. Qed.

Lemma cte_lt_irrefl a : ~ cte_lt a a.
Proof. unfold cte_lt. rewrite compare_refl. lia. Qed.

Lemma cte_lt_trans a b c : cte_lt a b -> cte_lt b c -> cte_lt a c.
Proof. unfold cte_lt. intros. eapply compare_lt_le_trans; eauto. lia. Qed.

(** Without the tie break the order is only coarser. *)
Lemma compare_coarsen l r : compare_caps l r true < 0 -> compare_caps l r false <= 0.
Proof.
  intros. destruct (decide (compare_caps l r false = 0)); [lia|].
  rewrite <- compare_tiebreak by done. lia.
Qed.

End Laws.

(** * Levels and ends of the balancing helpers *)

Lemma elem_of_node x l c lv er e r :
  x ∈ elements (Node l c lv er e r) <-> x ∈ elements l \/ x = c \/ x ∈ elements r.
Proof. cbn [elements]. by rewrite elem_of_app, elem_of_cons. Qed.

Lemma update_end_mk l c lv er e r : mdb_update_end (Node l c lv er e r) = mk l c lv r.
Proof. done. Qed.

Lemma elements_update_end t : elements (mdb_update_end t) = elements t.
Proof. by destruct t. Qed.

Lemma elements_set_level t lv : elements (set_level t lv) = elements t.
Proof. by destruct t. Qed.

Lemma elements_skew t : elements (mdb_skew t) = elements t.
Proof.
  destruct t as [|[|a lc llv ler le b] c lv er e r]; simpl; try done.
  case_match; simpl; [|done]. by rewrite <- app_assoc.
Qed.

Lemma elements_split t : elements (mdb_split t) = elements t.
Proof.
  destruct t as [|a c lv er e [|b rc rlv rer re [|]]]; simpl; try done.
  case_match; simpl; [|done]. by rewrite <- app_assoc.
Qed.

Lemma elements_decrease_level t : elements (mdb_decrease_level t) = elements t.
Proof.
  destruct t as [|[] c lv er e []]; simpl; repeat case_match; simpl; done.
Qed.

Lemma elements_set_right t r :
  elements (right_of t) = elements r -> elements (set_right t r) = elements t.
Proof. destruct t; simpl; [done|]. by intros ->. Qed.

(** What [mdb_rebalance] computes on a node. *)
Definition skew_right (t : tree) : tree := set_right t (mdb_skew (right_of t)).
Definition split_right (t : tree) : tree := set_right t (mdb_split (right_of t)).
Definition skew3 (t : tree) : tree :=
  let t := skew_right (mdb_skew t) in set_right t (skew_right (right_of t)).

Definition rebalance_node (l : tree) (c : cte) (lv : Z) (r : tree) : tree :=
  split_right (mdb_split (skew3 (mdb_decrease_level (mk l c lv r)))).

Lemma rebalance_eq l c lv er e r :
  mdb_rebalance (Node l c lv er e r) = Done (rebalance_node l c lv r).
Proof. done. Qed.

Lemma elements_skew_right t : elements (skew_right t) = elements t.
Proof. apply elements_set_right. by rewrite elements_skew. Qed.

Lemma elements_split_right t : elements (split_right t) = elements t.
Proof. apply elements_set_right. by rewrite elements_split. Qed.

Lemma elements_skew3 t : elements (skew3 t) = elements t.
Proof.
  unfold skew3. rewrite elements_set_right by (by rewrite elements_skew_right).
  by rewrite elements_skew_right, elements_skew.
Qed.

Lemma elements_rebalance t t' : mdb_rebalance t = Done t' -> elements t' = elements t.
Proof.
  destruct t as [|l c lv er e r]; [done|]. rewrite rebalance_eq. intros [= <-]. unfold rebalance_node.
  by rewrite elements_split_right, elements_split, elements_skew3, elements_decrease_level.
Qed.

Section EndLemmas.
Context {CL : CapLaws}.

Lemma cap_root_nonneg c : 0 <= cap_root c.
Proof. apply root_width. Qed.

Lemma elts_root_nonneg cs : 0 <= elts_root cs.
Proof. destruct cs as [|c cs]; simpl; [lia|]. pose proof (cap_root_nonneg (cte_cap c)). lia. Qed.

Lemma elts_root_app xs ys : elts_root (xs ++ ys) = Z.max (elts_root xs) (elts_root ys).
Proof.
  induction xs as [|x xs IH]; simpl; [|rewrite IH; lia].
  pose proof (elts_root_nonneg ys). lia.
Qed.

Lemma elts_end_nonneg root xs : 0 <= elts_end root xs.
Proof. induction xs as [|x xs IH]; simpl; [lia|]. case_match; lia. Qed.

Lemma elts_end_app root xs ys :
  elts_end root (xs ++ ys) = Z.max (elts_end root xs) (elts_end root ys).
Proof.
  induction xs as [|x xs IH]; simpl; [pose proof (elts_end_nonneg root ys); lia|].
  rewrite IH. case_match; lia.
Qed.

Lemma elts_root_elem c cs : c ∈ cs -> cap_root (cte_cap c) <= elts_root cs.
Proof. induction 1; simpl; lia. Qed.

Lemma elts_end_elem c cs : c ∈ cs -> cap_end c <= elts_end (cap_root (cte_cap c)) cs.
Proof.
  induction 1; simpl; [rewrite Z.eqb_refl; lia|]. case_match; lia.
Qed.

(** A root above every root of the list sees no end. *)
Lemma elts_end_none root cs : elts_root cs < root -> elts_end root cs = 0.
Proof.
  induction cs as [|c cs IH]; simpl; [done|]. intros.
  zcases; [lia|]. apply IH. lia.
Qed.

Lemma max_end_root_spec acc t : ends_ok t -> 0 <= acc ->
  max_end_root acc t = Z.max acc (elts_root (elements t)).
Proof.
  destruct t; cbn [ends_ok max_end_root]; intros Ht ?; [simpl; lia|].
  destruct Ht as (-> & _). done.
Qed.

Lemma max_end_spec er acc t : ends_ok t -> 0 <= acc -> elts_root (elements t) <= er ->
  max_end er acc t = Z.max acc (elts_end er (elements t)).
Proof.
  destruct t as [|l c lv er' e r]; cbn [ends_ok max_end]; intros Ht Hacc Hle; [simpl; lia|].
  destruct Ht as (Her & He & _). destruct (Z.eqb_spec er' er) as [<-|].
  - by rewrite He.
  - rewrite elts_end_none; lia.
Qed.

Lemma node_end_root_spec l c r : ends_ok l -> ends_ok r ->
  node_end_root l c r = elts_root (elements l ++ c :: elements r).
Proof.
  intros. unfold node_end_root.
  pose proof (cap_root_nonneg (cte_cap c)). pose proof (elts_root_nonneg (elements l)).
  rewrite (max_end_root_spec _ l) by done. rewrite max_end_root_spec by (done || lia).
  rewrite elts_root_app. simpl. lia.
Qed.

Lemma node_end_spec l c r : ends_ok l -> ends_ok r ->
  node_end (node_end_root l c r) l c r
  = elts_end (node_end_root l c r) (elements l ++ c :: elements r).
Proof.
  intros Hl Hr. rewrite node_end_root_spec by done. unfold node_end.
  assert (0 <= cap_end c) by (apply wrap_range; lia).
  set (er := elts_root _).
  assert (elts_root (elements l) <= er /\ elts_root (elements r) <= er) as [Hlr Hrr]
    by (unfold er; rewrite elts_root_app; simpl; lia).
  pose proof (elts_end_nonneg er (elements l)).
  rewrite (max_end_spec er _ l) by (done || (case_match; lia)).
  rewrite max_end_spec by (done || (case_match; lia)).
  rewrite elts_end_app. simpl. case_match; lia.
Qed.

Lemma ends_ok_mk l c lv r : ends_ok l -> ends_ok r -> ends_ok (mk l c lv r).
Proof.
  intros. cbn [mk ends_ok elements].
  split; [by apply node_end_root_spec|]. split; [by apply node_end_spec|done].
Qed.

Lemma ends_ok_update_end t : ends_ok t -> ends_ok (mdb_update_end t).
Proof.
  destruct t; [done|]. intros (?&?&?&?). rewrite update_end_mk. by apply ends_ok_mk.
Qed.

Lemma ends_ok_skew t : ends_ok t -> ends_ok (mdb_skew t).
Proof.
  destruct t as [|[|a lc llv ler le b] c lv er e r]; intros Ht; try done.
  cbn [mdb_skew]. case_match; [|done].
  destruct Ht as (_&_&(_&_&?&?)&?). rewrite !update_end_mk. eauto using ends_ok_mk.
Qed.

Lemma ends_ok_split t : ends_ok t -> ends_ok (mdb_split t).
Proof.
  destruct t as [|a c lv er e [|b rc rlv rer re [|]]]; intros Ht; try done.
  cbn [mdb_split]. case_match; [|done].
  destruct Ht as (_&_&?&(_&_&?&?)). rewrite !update_end_mk. eauto using ends_ok_mk.
Qed.

Lemma ends_ok_set_level t lv : ends_ok t -> ends_ok (set_level t lv).
Proof. by destruct t. Qed.

Lemma ends_ok_set_right t r :
  ends_ok t -> ends_ok r -> elements (right_of t) = elements r -> ends_ok (set_right t r).
Proof.
  destruct t; [done|]. cbn [ends_ok set_right right_of elements].
  intros (?&?&?&?) ? Heq. by rewrite <- Heq.
Qed.

Lemma ends_ok_right_of t : ends_ok t -> ends_ok (right_of t).
Proof. destruct t; [done|]. by intros (?&?&?&?). Qed.

Lemma ends_ok_decrease_level t : ends_ok t -> ends_ok (mdb_decrease_level t).
Proof.
  destruct t as [|[] c lv er e []]; cbn [mdb_decrease_level]; intros Ht;
    repeat case_match; exact Ht.
Qed.

Lemma ends_ok_skew_right t : ends_ok t -> ends_ok (skew_right t).
Proof.
  intros. apply ends_ok_set_right; [done| |by rewrite elements_skew].
  by apply ends_ok_skew, ends_ok_right_of.
Qed.

Lemma ends_ok_split_right t : ends_ok t -> ends_ok (split_right t).
Proof.
  intros. apply ends_ok_set_right; [done| |by rewrite elements_split].
  by apply ends_ok_split, ends_ok_right_of.
Qed.

Lemma ends_ok_skew3 t : ends_ok t -> ends_ok (skew3 t).
Proof.
  intros. apply ends_ok_set_right.
  - by apply ends_ok_skew_right, ends_ok_skew.
  - by apply ends_ok_skew_right, ends_ok_right_of, ends_ok_skew_right, ends_ok_skew.
  - by rewrite elements_skew_right.
Qed.

Lemma ends_ok_rebalance l c lv er e r t' : ends_ok l -> ends_ok r ->
  mdb_rebalance (Node l c lv er e r) = Done t' -> ends_ok t'.
Proof.
  intros Hl Hr. rewrite rebalance_eq. intros [= <-].
  apply ends_ok_split_right, ends_ok_split, ends_ok_skew3, ends_ok_decrease_level.
  by apply ends_ok_mk.
Qed.

End EndLemmas.
End Invariant.
