(* ===== verification/MdbInsert.v ===== *)
(** The mapping database: insertion preserves the invariant. *)
From S2P Require Import Prelude MdbTree MdbInv.

Section Insert.
Context `{CapPredicates}.

(** * Balance *)

(** How an insertion may change the level of a subtree: it grows only where
    the right link was horizontal, and then the new right link is not. *)
Definition ins_post (t t' : tree) : Prop :=
  aa t' /\
  (level t' = level t \/
   (level t' = level t + 1 /\ level (right_of t') < level t' /\
    (t = Nil \/ level (right_of t) = level t))).

Lemma level_update_end t : level (mdb_update_end t) = level t.
Proof. by destruct t. Qed.

Lemma aa_update_end t : aa (mdb_update_end t) <-> aa t.
Proof. by destruct t. Qed.

Lemma aa_mk l c lv er e r : aa (mk l c lv r) <-> aa (Node l c lv er e r).
Proof. done. Qed.

Lemma level_ge t : aa t -> -1 <= level t < 256.
Proof. destruct t; simpl; [lia|]. intros (?&_). lia. Qed.

Lemma level_right_le t : aa t -> level (right_of t) <= level t.
Proof. destruct t; simpl; [lia|]. intros (?&?&?&_). lia. Qed.

Lemma skew_id l c lv er e r : level l <> lv -> mdb_skew (Node l c lv er e r) = Node l c lv er e r.
Proof.
  intros. destruct l as [|? ? llv]; simpl in *; [done|].
  by destruct (Z.eqb_spec lv llv); [congruence|].
Qed.

Lemma split_id l c lv er e r :
  level (right_of r) <> lv -> mdb_split (Node l c lv er e r) = Node l c lv er e r.
Proof.
  intros. destruct r as [|? ? ? ? ? [|? ? xlv]]; simpl in *; try done.
  by destruct (Z.eqb_spec lv xlv); [congruence|].
Qed.

Lemma skew_eq a lc lv ler le b c er e r :
  mdb_skew (Node (Node a lc lv ler le b) c lv er e r) = mk a lc lv (mk b c lv r).
Proof. simpl. by rewrite Z.eqb_refl. Qed.

Lemma split_eq a c lv er e b rc rlv rer re x :
  level x = lv -> 0 <= lv ->
  mdb_split (Node a c lv er e (Node b rc rlv rer re x)) = mk (mk a c lv b) rc (u8 (rlv + 1)) x.
Proof. intros. destruct x; simpl in *; [lia|]. subst. by rewrite Z.eqb_refl. Qed.

(** A tree of level [k] has at least [2^(k+1) - 1] entries. *)
Lemma aa_size t : aa t -> 2 ^ (level t + 1) <= tsize t + 1.
Proof.
  unfold tsize. induction t as [|l IHl c lv er e r IHr]; simpl; [lia|].
  intros (?&Hl&Hr&?&Hal&Har). rewrite length_app. simpl.
  specialize (IHl Hal). specialize (IHr Har). rewrite Hl in IHl.
  assert (2 ^ lv <= 2 ^ (level r + 1)) by (apply Z.pow_le_mono_r; lia).
  replace (lv - 1 + 1) with lv in IHl by lia. rewrite Z.pow_add_r by lia. lia.
Qed.

Lemma aa_level_bound t : aa t -> tsize t < 2 ^ 255 -> level t < 255.
Proof.
  intros Ht Hs. pose proof (aa_size t Ht).
  destruct (decide (level t < 255)); [done|].
  assert (2 ^ 256 <= 2 ^ (level t + 1)) by (apply Z.pow_le_mono_r; lia). lia.
Qed.

Lemma ins_left l c lv er e r l' :
  aa (Node l c lv er e r) -> lv < 255 -> ins_post l l' ->
  ins_post (Node l c lv er e r) (mdb_split (mdb_skew (mk l' c lv r))).
Proof.
  intros (Hlv & Hl & Hr & Hrr & Hal & Har) Hlt (Hal' & Hlev).
  destruct Hlev as [Hlev | (Hlev & Hnh & _)].
  - unfold mk. rewrite skew_id, split_id by lia. split; [|by left].
    simpl. solve_split.
  - destruct l' as [|a lc lv' ler le b]; simpl in Hlev; [lia|].
    assert (lv' = lv) as -> by lia. unfold mk at 1. rewrite skew_eq. simpl in Hnh, Hal'.
    destruct Hr as [Hr|Hr].
    + unfold mk. rewrite split_eq by (simpl; lia). rewrite u8_small by lia.
      unfold ins_post. simpl. split; [|right; split; [lia|split; [|right; done]]].
      all: solve_split.
    + unfold mk. rewrite split_id by (simpl; lia).
      unfold ins_post. simpl. split; [|left; lia]. solve_split.
Qed.

Lemma ins_right l c lv er e r r' :
  aa (Node l c lv er e r) -> lv < 255 -> ins_post r r' ->
  ins_post (Node l c lv er e r) (mdb_split (mdb_skew (mk l c lv r'))).
Proof.
  intros (Hlv & Hl & Hr & Hrr & Hal & Har) Hlt (Har' & Hlev).
  unfold mk. rewrite skew_id by lia.
  destruct (decide (level (right_of r') = lv)) as [Hh|Hnh].
  - destruct r' as [|b rc rlv rer re x]; simpl in Hh, Har', Hlev; [lia|].
    assert (rlv = lv) as ->.
    { destruct Hlev as [?|(?&?&[->|?])]; simpl in *; break; lia. }
    rewrite split_eq by lia. rewrite u8_small by lia. unfold ins_post. simpl.
    assert (level (right_of b) <= level b) by (apply level_right_le; tauto).
    split; [solve_split|]. right. split; [lia|split; [lia|right]].
    destruct Hlev as [?|(?&?&?)]; lia.
  - rewrite split_id by done. unfold ins_post. simpl. split; [|by left].
    assert (level r' = lv \/ level r' = lv - 1).
    { destruct Hlev as [?|(?&?&[->|?])]; simpl in *; lia. }
    repeat split; auto; try lia.
    destruct r' as [|? ? ? ? ? rr]; simpl in *; [lia|]. break. lia.
Qed.

Lemma sub_insert_aa new t t' :
  mdb_sub_insert new t = (t', SYS_ERR_OK) -> aa t -> tsize t < 2 ^ 255 -> ins_post t t'.
Proof.
  revert t'. induction t as [|l IHl c lv er e r IHr]; intros t' Hins Haa Hsz.
  - injection Hins as <-. split; [simpl; lia|]. right. simpl. repeat split; try lia.
  - pose proof (aa_level_bound _ Haa Hsz) as Hlv. simpl in Hlv.
    unfold tsize in *. simpl in Hsz. rewrite length_app in Hsz. simpl in Hsz.
    cbn [mdb_sub_insert] in Hins. destruct Haa as (?&?&?&?&?&?).
    destruct (compare_caps (C new) (C c) true <? 0).
    + destruct (mdb_sub_insert new l) as [l' []] eqn:El; [|done].
      cbn [err_is_fail] in Hins. apply pair_equal_spec in Hins as [<- _].
      rewrite update_end_mk. apply ins_left; [simpl; auto 10|done|].
      apply IHl; auto. lia.
    + destruct (0 <? compare_caps (C new) (C c) true); [|done].
      destruct (mdb_sub_insert new r) as [r' []] eqn:Er; [|done].
      cbn [err_is_fail] in Hins. apply pair_equal_spec in Hins as [<- _].
      rewrite update_end_mk. apply ins_right; [simpl; auto 10|done|].
      apply IHr; auto. lia.
Qed.

(** * Contents *)

Section Contents.
Context {CL : CapLaws}.

(** A failed insertion leaves the tree as it was. *)
Lemma sub_insert_fail new t t' ev :
  mdb_sub_insert new t = (t', ev) -> err_is_fail ev = true ->
  t' = t /\ ev = err CAPS_ERR_MDB_DUPLICATE_ENTRY /\
  exists c, c ∈ elements t /\ compare_caps (C new) (C c) true = 0.
Proof.
  revert t' ev. induction t as [|l IHl c lv er e r IHr]; intros t' ev Hins Hf.
  - injection Hins as <- <-. done.
  - cbn [mdb_sub_insert] in Hins. setoid_rewrite elem_of_node.
    destruct (Z.ltb_spec (compare_caps (C new) (C c) true) 0).
    + destruct (mdb_sub_insert new l) as [l' evl]. destruct (err_is_fail evl) eqn:E.
      * injection Hins as <- <-. destruct (IHl _ _ eq_refl E) as (->&->&d&?&?).
        repeat split; auto. exists d. split; [tauto|done].
      * injection Hins as <- <-. done.
    + destruct (Z.ltb_spec 0 (compare_caps (C new) (C c) true)).
      * destruct (mdb_sub_insert new r) as [r' evr]. destruct (err_is_fail evr) eqn:E.
        -- injection Hins as <- <-. destruct (IHr _ _ eq_refl E) as (->&->&d&?&?).
           repeat split; auto. exists d. split; [tauto|done].
        -- injection Hins as <- <-. done.
      * injection Hins as <- <-. repeat split. exists c. split; [tauto|lia].
Qed.

Lemma sub_insert_ends new t t' ev :
  mdb_sub_insert new t = (t', ev) -> ends_ok t -> ends_ok t'.
Proof.
  revert t' ev. induction t as [|l IHl c lv er e r IHr]; intros t' ev Hins Hends.
  - apply pair_equal_spec in Hins as [<- _]. by apply ends_ok_mk.
  - destruct (err_is_fail ev) eqn:Hf.
    { by destruct (sub_insert_fail _ _ _ _ Hins Hf) as [-> _]. }
    cbn [mdb_sub_insert] in Hins. destruct Hends as (_&_&Hl&Hr).
    destruct (_ <? 0); [|destruct (0 <? _); [|by injection Hins as <- <-]].
    + destruct (mdb_sub_insert new l) as [l' evl] eqn:El. destruct (err_is_fail evl) eqn:E.
      { injection Hins as <- <-. congruence. }
      apply pair_equal_spec in Hins as [<- _]. apply ends_ok_split, ends_ok_skew.
      rewrite update_end_mk. apply ends_ok_mk; eauto.
    + destruct (mdb_sub_insert new r) as [r' evr] eqn:Er. destruct (err_is_fail evr) eqn:E.
      { injection Hins as <- <-. congruence. }
      apply pair_equal_spec in Hins as [<- _]. apply ends_ok_split, ends_ok_skew.
      rewrite update_end_mk. apply ends_ok_mk; eauto.
Qed.

(** A successful insertion puts the new entry at its place in the order. *)
Lemma sub_insert_elements new t t' :
  mdb_sub_insert new t = (t', SYS_ERR_OK) -> StronglySorted cte_lt (elements t) ->
  exists l1 l2, elements t = l1 ++ l2 /\ elements t' = l1 ++ new :: l2 /\
    Forall (fun c => cte_lt c new) l1 /\ Forall (cte_lt new) l2.
Proof.
  revert t'. induction t as [|l IHl c lv er e r IHr]; intros t' Hins Hs.
  - injection Hins as <-. by exists [], [].
  - cbn [mdb_sub_insert] in Hins. cbn [elements] in *.
    apply StronglySorted_app in Hs as (Hlr & Hsl & Hsr).
    apply StronglySorted_inv in Hsr as [Hsr Hcr].
    destruct (Z.ltb_spec (compare_caps (C new) (C c) true) 0) as [Hlt|Hge].
    + destruct (mdb_sub_insert new l) as [l' []] eqn:El; [|done].
      cbn [err_is_fail] in Hins. apply pair_equal_spec in Hins as [<- _].
      destruct (IHl _ eq_refl Hsl) as (l1 & l2 & E1 & E2 & F1 & F2).
      exists l1, (l2 ++ c :: elements r). rewrite elements_split, elements_skew, elements_update_end.
      simpl. rewrite E1, E2, <- !app_assoc. repeat split; auto.
      apply Forall_app; split; [done|]. constructor; [done|].
      eapply Forall_impl; [exact Hcr|]. intros x Hx. by eapply cte_lt_trans.
    + destruct (Z.ltb_spec 0 (compare_caps (C new) (C c) true)); [|done].
      destruct (mdb_sub_insert new r) as [r' []] eqn:Er; [|done].
      cbn [err_is_fail] in Hins. apply pair_equal_spec in Hins as [<- _].
      destruct (IHr _ eq_refl Hsr) as (l1 & l2 & E1 & E2 & F1 & F2).
      exists (elements l ++ c :: l1), l2.
      rewrite elements_split, elements_skew, elements_update_end.
      simpl. rewrite E1, E2, <- !app_assoc. repeat split; auto.
      assert (cte_lt c new).
      { unfold cte_lt. pose proof (compare_antisym (C new) (C c) true). lia. }
      apply Forall_app; split; [|by constructor].
      apply Forall_forall. intros x Hx. eapply cte_lt_trans; [|done]. apply Hlr; [done|].
      by left.
Qed.

Lemma sub_insert_total new t t' ev :
  mdb_sub_insert new t = (t', ev) -> StronglySorted cte_lt (elements t) ->
  (exists c, c ∈ elements t /\ compare_caps (C new) (C c) true = 0) -> err_is_fail ev = true.
Proof.
  intros Hins Hs (c & Hc & Hcmp). destruct ev as [|ev0 ev']; [exfalso|done].
  destruct (sub_insert_elements _ _ _ Hins Hs) as (l1 & l2 & E1 & _ & F1 & F2).
  rewrite E1 in Hc. rewrite Forall_forall in F1, F2. unfold cte_lt in *.
  apply elem_of_app in Hc as [Hc|Hc].
  - apply F1 in Hc. pose proof (compare_antisym (C new) (C c) true). lia.
  - apply F2 in Hc. lia.
Qed.

End Contents.
End Insert.
