(* ===== verification/MdbRemove.v ===== *)
(** The mapping database: removal preserves the invariant.

    The core is [rebalance_spec]: after a subtree lost one level,
    [mdb_rebalance] restores the AA balance. *)
From S2P Require Import Prelude MdbTree MdbInv MdbInsert.

Section Remove.
Context `{CapPredicates}.

(** * Rebalancing *)

(** How a removal may change the level of a subtree: it shrinks by at most
    one, and where it does not, a right link does not become horizontal. *)
Definition rem_post (t t' : tree) : Prop :=
  aa t' /\
  (level t' = level t \/ level t' = level t - 1) /\
  (level t' = level t -> level (right_of t) < level t -> level (right_of t') < level t').

Lemma rem_post_refl t : aa t -> rem_post t t.
Proof. intros. repeat split; auto. Qed.

(** ** The four shapes that [mdb_decrease_level] leaves *)

Lemma decrease_level_id l c lv er e r :
  0 <= lv < 256 -> level l = lv - 1 -> lv - 1 <= level r ->
  mdb_decrease_level (Node l c lv er e r) = Node l c lv er e r.
Proof.
  intros Hlv Hl Hr. destruct l as [|? ? llv], r as [|? ? rlv]; simpl in *.
  1-3: by destruct (Z.ltb_spec 0 lv); [lia|].
  rewrite u8_small by lia. by destruct (Z.ltb_spec (Z.min llv rlv + 1) lv); [lia|].
Qed.

(** One child is two levels down: the node, and a right child above it, drop. *)
Lemma decrease_level_low l c lv er e r :
  aa l -> aa r -> 1 <= lv < 256 ->
  level l <= lv - 1 -> Z.min (level l) (level r) = lv - 2 ->
  mdb_decrease_level (Node l c lv er e r) =
  Node l c (lv - 1) er e (if lv - 1 <? level r then set_level r (lv - 1) else r).
Proof.
  intros Hl Hr Hlv Hle Hmin.
  pose proof (level_ge _ Hl). pose proof (level_ge _ Hr).
  destruct l as [|? ? llv], r as [|? ? rlv]; cbn [level] in *.
  - assert (lv = 1) as -> by lia. done.
  - assert (lv = 1) as -> by lia. done.
  - assert (lv = 1) as -> by lia. done.
  - cbn [mdb_decrease_level]. rewrite u8_small by lia.
    replace (Z.min llv rlv + 1) with (lv - 1) by lia.
    by destruct (Z.ltb_spec (lv - 1) lv); [|lia].
Qed.

(** ** Computing the skews and splits *)

(** Forget what the cached ends of a recomputed node are. *)
Lemma mk_ends l c lv r : exists er e, mk l c lv r = Node l c lv er e r.
Proof. by eexists _, _. Qed.

Ltac open_mk := repeat
  match goal with
  | |- context [mk ?l ?c ?lv ?r] =>
    let er := fresh "er" in let e := fresh "e" in
    destruct (mk_ends l c lv r) as (er & e & ->)
  end.


Lemma skew_aa t : aa t -> mdb_skew t = t.
Proof. destruct t; [done|]. intros (?&?&_). apply skew_id. lia. Qed.

Lemma split_aa t : aa t -> mdb_split t = t.
Proof. destruct t; [done|]. intros (?&?&?&?&_). apply split_id. lia. Qed.

Lemma skew3_node l c lv er e r : level l <> lv ->
  skew3 (Node l c lv er e r) = Node l c lv er e (skew_right (mdb_skew r)).
Proof. intros. unfold skew3, skew_right. by rewrite skew_id. Qed.

(** Left subtree low, right child on the node's old level minus one. *)
Lemma rebalance_left_low l c k r :
  aa l -> aa r -> 0 <= k < 255 -> level l = k - 1 -> level r = k ->
  rem_post (Node l c (k + 1) 0 0 r) (rebalance_node l c (k + 1) r).
Proof.
  intros Hl Hr Hk Hll Hlr. unfold rebalance_node, mk.
  rewrite decrease_level_low by (auto; lia). replace (k + 1 - 1) with k by lia.
  destruct (Z.ltb_spec k (level r)); [lia|].
  rewrite skew3_node by lia. rewrite (skew_aa r) by done.
  destruct r as [|rl rc rlv rer re rr]; simpl in Hlr; [lia|]. subst rlv.
  assert (Hrr : aa rr) by (simpl in Hr; tauto).
  unfold skew_right. cbn [right_of set_right]. rewrite skew_aa by done.
  destruct (decide (level rr = k)).
  - rewrite split_eq by lia. unfold split_right, mk. cbn [right_of set_right].
    rewrite split_aa by done. rewrite u8_small by lia.
    assert (level (right_of rl) <= level rl) by (apply level_right_le; simpl in Hr; tauto).
    pose proof (level_right_le rr Hrr).
    simpl in Hr. unfold rem_post. simpl. solve_split.
  - rewrite split_id by (simpl; lia). unfold split_right. cbn [right_of set_right].
    rewrite split_aa by done. unfold rem_post. simpl in *. solve_split.
Qed.

(** Left subtree low, horizontal right child: up to five nodes of one level
    are redistributed. *)
Lemma rebalance_left_low_horizontal l c k r :
  aa l -> aa r -> 0 <= k < 255 -> level l = k - 1 -> level r = k + 1 ->
  level (right_of r) < k + 1 ->
  rem_post (Node l c (k + 1) 0 0 r) (rebalance_node l c (k + 1) r).
Proof.
  intros Hl Hr Hk Hll Hlr Hnh. unfold rebalance_node. open_mk.
  rewrite decrease_level_low by (auto; lia). replace (k + 1 - 1) with k by lia.
  destruct (Z.ltb_spec k (level r)); [|lia].
  destruct r as [|rl rc rlv rer re rr]; simpl in Hlr; [lia|]. subst rlv.
  cbn [set_level]. rewrite skew3_node by lia.
  destruct Hr as (_ & Hrl & Hrr & _ & Harl & Harr). simpl in Hnh.
  destruct rl as [|a1 ac alv aer ae a2]; simpl in Hrl; [lia|].
  assert (alv = k) as -> by lia. rewrite skew_eq.
  destruct Harl as (_ & Ha1 & Ha2 & Ha22 & Haa1 & Haa2).
  unfold skew_right. open_mk. cbn [right_of set_right].
  assert (level (right_of a1) <= level a1) by (by apply level_right_le).
  pose proof (level_right_le rr Harr).
  destruct (decide (level a2 = k)) as [Hh2|Hh2].
  - destruct a2 as [|a21 a2c a2lv a2er a2e a22]; simpl in Hh2; [lia|].
    subst a2lv. open_mk. rewrite skew_eq. open_mk.
    rewrite split_eq by (simpl; lia). unfold split_right. open_mk.
    cbn [right_of set_right]. open_mk. rewrite split_eq by (simpl; lia).
    rewrite u8_small by lia. simpl in Haa2, Ha22.
    assert (level (right_of a22) <= level a22) by (apply level_right_le; tauto).
    open_mk. unfold rem_post. simpl. solve_split.
  - open_mk. rewrite skew_id by done. rewrite split_eq by (simpl; lia).
    unfold split_right. open_mk. cbn [right_of set_right].
    rewrite u8_small by lia.
    assert (level (right_of a2) <= level a2) by (by apply level_right_le).
    destruct rr as [|b1 bc blv ber be b2]; simpl in Hrr, Hnh; [lia|].
    assert (blv = k) as -> by lia. simpl in Harr.
    destruct (decide (level b2 = k)).
    + rewrite split_eq by lia. rewrite u8_small by lia.
      assert (level (right_of b1) <= level b1) by (apply level_right_le; tauto).
      assert (level (right_of b2) <= level b2) by (apply level_right_le; tauto).
      open_mk. unfold rem_post. simpl. solve_split.
    + rewrite split_id by done. open_mk. unfold rem_post. simpl. solve_split.
Qed.

(** Right subtree low. *)
Lemma rebalance_right_low l c k r :
  aa l -> aa r -> 0 <= k < 255 -> level l = k -> level r = k - 1 ->
  rem_post (Node l c (k + 1) 0 0 r) (rebalance_node l c (k + 1) r).
Proof.
  intros Hl Hr Hk Hll Hlr. unfold rebalance_node. open_mk.
  rewrite decrease_level_low by (auto; lia). replace (k + 1 - 1) with k by lia.
  destruct (Z.ltb_spec k (level r)); [lia|].
  destruct l as [|a lc llv ler le b]; simpl in Hll; [lia|]. subst llv.
  destruct Hl as (_ & Ha & Hb & Hbr & Haa & Hab).
  unfold skew3. rewrite skew_eq. unfold skew_right. open_mk.
  cbn [right_of set_right].
  assert (level (right_of a) <= level a) by (by apply level_right_le).
  pose proof (level_right_le r Hr).
  destruct (decide (level b = k)) as [Hh|Hh].
  - destruct b as [|b1 bc blv ber be b2]; simpl in Hh; [lia|]. subst blv.
    open_mk. rewrite skew_eq. simpl in Hab, Hbr.
    assert (level (right_of b1) <= level b1) by (apply level_right_le; tauto).
    assert (level (right_of b2) <= level b2) by (apply level_right_le; tauto).
    open_mk. cbn [right_of set_right]. open_mk. rewrite skew_id by lia.
    rewrite split_eq by (simpl; lia). unfold split_right. open_mk.
    cbn [right_of set_right]. rewrite split_id by lia. rewrite u8_small by lia.
    open_mk. unfold rem_post. simpl. solve_split.
  - assert (level (right_of b) <= level b) by (by apply level_right_le).
    open_mk. rewrite skew_id by lia. cbn [right_of set_right]. rewrite skew_aa by done.
    rewrite split_id by (simpl; lia). unfold split_right. cbn [right_of set_right].
    rewrite split_id by lia. unfold rem_post. simpl. solve_split.
Qed.

(** A node that is still balanced is left alone. *)
Lemma rebalance_balanced l c lv r : aa (Node l c lv 0 0 r) -> rebalance_node l c lv r = mk l c lv r.
Proof.
  intros (Hlv & Hl & Hr & Hrr & Hal & Har). unfold rebalance_node, mk.
  rewrite decrease_level_id by lia. rewrite skew3_node by lia. rewrite skew_aa by done.
  unfold skew_right. assert (Harr : aa (right_of r)) by (destruct r; [done|]; simpl in Har; tauto).
  rewrite skew_aa by done. replace (set_right r (right_of r)) with r by (by destruct r).
  rewrite split_id by lia. unfold split_right. cbn [right_of set_right]. by rewrite split_aa.
Qed.

(** ** Removing from either side of a balanced node *)

Lemma rebalance_left l c lv er e r l' :
  aa (Node l c lv er e r) -> rem_post l l' ->
  rem_post (Node l c lv er e r) (rebalance_node l' c lv r).
Proof.
  intros (Hlv & Hl & Hr & Hrr & Hal & Har) (Hal' & [Hlev|Hlev] & _).
  - rewrite rebalance_balanced by (simpl; solve_split).
    open_mk. unfold rem_post. simpl. solve_split.
  - pose proof (level_ge _ Hal').
    replace lv with ((lv - 1) + 1) by lia. destruct Hr as [Hr|Hr].
    + apply (rebalance_left_low_horizontal l' c (lv - 1) r); auto; lia.
    + apply (rebalance_left_low l' c (lv - 1) r); auto; lia.
Qed.

Lemma rebalance_right l c lv er e r r' :
  aa (Node l c lv er e r) -> rem_post r r' ->
  rem_post (Node l c lv er e r) (rebalance_node l c lv r').
Proof.
  intros (Hlv & Hl & Hr & Hrr & Hal & Har) (Har' & Hlev & Hnh).
  pose proof (level_ge _ Har'). pose proof (level_right_le _ Har').
  destruct (decide (level r' = lv - 2)).
  - replace lv with ((lv - 1) + 1) by lia.
    destruct (rebalance_right_low l c (lv - 1) r') as (?&?&Hh); auto; try lia.
    unfold rem_post. cbn [level right_of] in *.
    split; [done|]. split; [lia|]. intros. apply Hh; lia.
  - assert (level r' = lv \/ level r' = lv - 1) by lia.
    rewrite rebalance_balanced.
    + open_mk. unfold rem_post. simpl. solve_split.
    + simpl. solve_split.
Qed.

(** * Removal *)

Section Contents.
Context {CL : CapLaws}.

Lemma nonnull_assert c : nonnull c -> assert (negb (cap_type (cte_cap c) =? 0)) = Done tt.
Proof. intros. apply assert_true. unfold nonnull in *. by zcases. Qed.

Lemma compare_assert a b : compare_caps (C a) (C b) true <> 0 ->
  assert (negb (compare_caps (C a) (C b) true =? 0)) = Done tt.
Proof. intros. apply assert_true. by zcases. Qed.

(** The in-order predecessor of the target is cut out of the left subtree. *)
Lemma exchange_remove_spec target t :
  aa t -> t <> Nil -> ends_ok t -> nonnull target -> Forall nonnull (elements t) ->
  (forall c, c ∈ elements t -> compare_caps (C target) (C c) true <> 0) ->
  exists t' c', mdb_exchange_remove target 1 t = Done (t', c') /\
    elements t = elements t' ++ [c'] /\ rem_post t t' /\ ends_ok t'.
Proof.
  intros Haa Hnil Hends Hnt. induction t as [|l _ c lv er e r IHr]; [done|].
  intros Hnn Hcmp. rewrite Forall_forall in Hnn. setoid_rewrite elem_of_node in Hnn.
  setoid_rewrite elem_of_node in Hcmp.
  cbn [mdb_exchange_remove]. rewrite !nonnull_assert, compare_assert by auto.
  step. cbn -[mdb_rebalance mdb_exchange_remove elements].
  destruct r as [|rl rc rlv rer re rr].
  - exists Nil, c. destruct Haa as (?&?&[?|?]&_&Hal&_); simpl in *; [lia|].
    destruct l; [|simpl in *; break; lia]. repeat split; auto; simpl; lia.
  - assert (Haa' := Haa). destruct Haa' as (_&_&_&_&_&Har).
    destruct Hends as (_&_&Hel&Her).
    destruct IHr as (r' & c' & -> & Eel & Hpost & Hends'); auto.
    { apply Forall_forall. auto. }
    step. rewrite rebalance_eq. step.
    exists (rebalance_node l c lv r'), c'.
    split; [done|]. pose proof (rebalance_eq l c lv er e r') as Heq.
    split; [|split; [by eapply rebalance_right|by eapply ends_ok_rebalance; [| |exact Heq]]].
    rewrite (elements_rebalance _ _ Heq). cbn [elements] in *. rewrite Eel.
    by rewrite <- app_assoc.
Qed.

(** A target without left child has a single leaf to its right. *)
Lemma exchange_remove_leaf target c lv er e :
  nonnull target -> nonnull c -> compare_caps (C target) (C c) true <> 0 ->
  mdb_exchange_remove target (-1) (Node Nil c lv er e Nil) = Done (Nil, c).
Proof.
  intros. cbn [mdb_exchange_remove]. by rewrite !nonnull_assert, compare_assert.
Qed.

(** Two entries of a sorted listing that compare equal are the same. *)
Lemma sorted_compare_eq a b cs : StronglySorted cte_lt cs -> a ∈ cs -> b ∈ cs ->
  compare_caps (C a) (C b) true = 0 -> a = b.
Proof.
  intros Hs Ha Hb Hcmp. pose proof (compare_antisym (C a) (C b) true) as Hanti.
  induction Hs as [|c cs Hs IH Hall]; [by apply elem_of_nil in Ha|].
  rewrite Forall_forall in Hall. unfold cte_lt in Hall.
  apply elem_of_cons in Ha as [->|Ha], Hb as [->|Hb]; auto.
  - apply Hall in Hb. lia.
  - apply Hall in Ha. lia.
Qed.

Lemma subtree_remove_absent target t :
  (forall c, c ∈ elements t -> compare_caps (C target) (C c) true <> 0) ->
  mdb_subtree_remove target t = Done (t, err CAPS_ERR_MDB_ENTRY_NOTFOUND).
Proof.
  induction t as [|l IHl c lv er e r IHr]; intros Hcmp; [done|].
  setoid_rewrite elem_of_node in Hcmp. cbn [mdb_subtree_remove].
  assert (compare_caps (C target) (C c) true <> 0) by auto.
  zcases; first [lia|rewrite IHr by auto; done|rewrite IHl by auto; done].
Qed.

(** The node of the target itself: a leaf goes away, a node without left
    child takes over its right leaf, any other takes its predecessor. *)
Lemma subtree_remove_found c l lv er e r :
  aa (Node l c lv er e r) -> ends_ok l -> ends_ok r ->
  StronglySorted cte_lt (elements (Node l c lv er e r)) ->
  Forall nonnull (elements (Node l c lv er e r)) ->
  exists t', mdb_subtree_remove c (Node l c lv er e r) = Done (t', SYS_ERR_OK) /\
    rem_post (Node l c lv er e r) t' /\ ends_ok t' /\ elements t' = elements l ++ elements r.
Proof.
  intros Haa Hel Her Hs Hnn. assert (Hall := Haa).
  destruct Hall as (Hlv & Hll & Hlr & Hlrr & Hal & Har). cbn [elements] in Hs, Hnn.
  apply StronglySorted_app in Hs as (Hlc & Hsl & Hsr).
  apply StronglySorted_inv in Hsr as [Hsr Hcr]. rewrite Forall_forall in Hcr.
  apply Forall_app in Hnn as [Hnl Hnr]. apply Forall_cons in Hnr as [Hnc Hnr].
  cbn [mdb_subtree_remove]. rewrite compare_refl. cbn [Z.ltb Z.compare].
  rewrite assert_true by (apply Z.eqb_refl). step.
  destruct l as [|ll lc llv ler le lr].
  - assert (lv = 0) as -> by (simpl in Hll; lia).
    destruct r as [|rl rc rlv rer re rr].
    + exists Nil. split; [done|]. split; [split; simpl; [done|lia]|done].
    + assert (rl = Nil /\ rr = Nil) as [-> ->].
      { simpl in Hlr, Hlrr, Har. destruct rl, rr; simpl in *; break; try lia; done. }
      assert (nonnull rc) by (rewrite Forall_forall in Hnr; apply Hnr; simpl; by left).
      assert (cte_lt c rc) by (apply Hcr; simpl; by left).
      rewrite exchange_remove_leaf by (auto; unfold cte_lt in *; lia).
      step. rewrite rebalance_eq. step.
      pose proof (rebalance_eq Nil rc 0 er e Nil) as Heq.
      eexists. split; [done|]. split.
      { rewrite rebalance_balanced by (simpl; solve_split).
        unfold rem_post, mk. simpl. solve_split. }
      split; [by eapply ends_ok_rebalance; [| |exact Heq]|]. by rewrite (elements_rebalance _ _ Heq).
  - destruct (exchange_remove_spec c (Node ll lc llv ler le lr)) as (l' & c' & -> & E & Hp & He');
      auto.
    { intros x Hx. specialize (Hlc x c Hx ltac:(by left)). unfold cte_lt in Hlc.
      pose proof (compare_antisym (C x) (C c) true). lia. }
    step. rewrite rebalance_eq. step.
    pose proof (rebalance_eq l' c' lv er e r) as Heq.
    eexists. split; [done|]. split; [by apply (rebalance_left (Node ll lc llv ler le lr) c' lv er e)|].
    split; [by eapply ends_ok_rebalance; [| |exact Heq]|].
    rewrite (elements_rebalance _ _ Heq). cbn [elements] in *. rewrite E.
    by rewrite <- app_assoc.
Qed.

Lemma subtree_remove_present target t :
  aa t -> ends_ok t -> StronglySorted cte_lt (elements t) -> Forall nonnull (elements t) ->
  target ∈ elements t ->
  exists t', mdb_subtree_remove target t = Done (t', SYS_ERR_OK) /\ rem_post t t' /\
    ends_ok t' /\
    exists l1 l2, elements t = l1 ++ target :: l2 /\ elements t' = l1 ++ l2.
Proof.
  induction t as [|l IHl c lv er e r IHr]; intros Haa Hends Hs Hnn Hin.
  { by apply elem_of_nil in Hin. }
  assert (Hall := Haa). destruct Hall as (Hlv & Hll & Hlr & Hlrr & Hal & Har).
  assert (ends_ok l /\ ends_ok r) as [Hel Her] by (simpl in Hends; tauto).
  assert (Hs' := Hs). cbn [elements] in Hs'.
  apply StronglySorted_app in Hs' as (Hlc & Hsl & Hsr).
  apply StronglySorted_inv in Hsr as [Hsr Hcr].
  rewrite Forall_forall in Hcr. assert (Hnn' := Hnn). cbn [elements] in Hnn'.
  apply Forall_app in Hnn' as [Hnl Hnr]. apply Forall_cons in Hnr as [Hnc Hnr].
  destruct (decide (compare_caps (C target) (C c) true = 0)) as [Hz|Hnz].
  { assert (target = c) as ->.
    { eapply (sorted_compare_eq _ _ (elements (Node l c lv er e r))); eauto.
      rewrite elem_of_node. auto. }
    destruct (subtree_remove_found c l lv er e r) as (t' & -> & ? & ? & E); auto.
    eexists. do 3 (split; [done|]). by exists (elements l), (elements r). }
  cbn [mdb_subtree_remove].
  destruct (Z.ltb_spec 0 (compare_caps (C target) (C c) true)) as [Hgt|Hle].
  - assert (target ∈ elements r) as Hinr.
    { apply elem_of_node in Hin as [Hin|[->|]]; [|rewrite compare_refl in Hgt; lia|done].
      specialize (Hlc target c Hin ltac:(by left)). unfold cte_lt in Hlc. lia. }
    destruct (IHr Har Her Hsr Hnr Hinr) as (r' & -> & Hpost & Her' & l1 & l2 & E1 & E2).
    cbn [mbind outcome_bind err_is_fail SYS_ERR_OK]. rewrite rebalance_eq.
    pose proof (rebalance_eq l c lv er e r') as Heq.
    eexists. split; [done|]. split; [by eapply rebalance_right|].
    split; [by eapply ends_ok_rebalance; [| |exact Heq]|]. exists (elements l ++ c :: l1), l2.
    rewrite (elements_rebalance _ _ Heq). cbn [elements]. rewrite E1, E2.
    by rewrite <- !app_assoc.
  - destruct (Z.ltb_spec (compare_caps (C target) (C c) true) 0) as [Hlt|Hge]; [|lia].
    assert (target ∈ elements l) as Hinl.
    { apply elem_of_node in Hin as [Hin|[->|Hin]]; [done|rewrite compare_refl in Hlt; lia|].
      specialize (Hcr target Hin). unfold cte_lt in Hcr.
      pose proof (compare_antisym (C target) (C c) true). lia. }
    destruct (IHl Hal Hel Hsl Hnl Hinl) as (l' & -> & Hpost & Hel' & l1 & l2 & E1 & E2).
    cbn [mbind outcome_bind err_is_fail SYS_ERR_OK]. rewrite rebalance_eq.
    pose proof (rebalance_eq l' c lv er e r) as Heq.
    eexists. split; [done|]. split; [by eapply rebalance_left|].
    split; [by eapply ends_ok_rebalance; [| |exact Heq]|]. exists l1, (l2 ++ c :: elements r).
    rewrite (elements_rebalance _ _ Heq). cbn [elements]. rewrite E1, E2.
    by rewrite <- !app_assoc.
Qed.

End Contents.
End Remove.
