(* ===== verification/MdbQuery.v ===== *)
(** The mapping database: the queries on the ordering and the range query. *)
From S2P Require Import Prelude MdbTree MdbInv MdbInsert MdbRemove.

Section Query.
Context `{CapPredicates} {CL : CapLaws}.

(** * Specifications *)

(** [d] is below the key (or equal to it, when that is allowed). *)
Definition below (cap : Z * capability) (equal_ok tb : bool) (d : cte) : Prop :=
  if equal_ok then 0 <= compare_caps cap (C d) tb else 0 < compare_caps cap (C d) tb.
Definition above (cap : Z * capability) (equal_ok tb : bool) (d : cte) : Prop :=
  if equal_ok then compare_caps cap (C d) tb <= 0 else compare_caps cap (C d) tb < 0.

(** The answer is the greatest entry below the key. *)
Definition greatest_below cap equal_ok tb (cs : list cte) (res : option cte) : Prop :=
  match res with
  | None => forall d, d ∈ cs -> ~ below cap equal_ok tb d
  | Some c => c ∈ cs /\ below cap equal_ok tb c /\
              forall d, d ∈ cs -> below cap equal_ok tb d -> compare_caps (C d) (C c) tb <= 0
  end.
Definition least_above cap equal_ok tb (cs : list cte) (res : option cte) : Prop :=
  match res with
  | None => forall d, d ∈ cs -> ~ above cap equal_ok tb d
  | Some c => c ∈ cs /\ above cap equal_ok tb c /\
              forall d, d ∈ cs -> above cap equal_ok tb d -> compare_caps (C c) (C d) tb <= 0
  end.

(** ** The invariant checker accepts *)

Lemma guard_inv_false b v k : b = false -> guard_inv b v k = k.
Proof. by intros ->. Qed.

Lemma aa_checks l c lv er e r : aa (Node l c lv er e r) ->
  (0 <? lv) && (is_nil l || is_nil r) = false /\ negb (level_lt l lv) = false /\
  negb (level_le r lv) = false /\ negb (level_lt (right_of r) lv) = false /\
  negb (level_lt (left_of r) lv) = false.
Proof.
  intros (Hlv & Hl & Hr & Hrr & Hal & Har).
  destruct l as [|? ? llv], r as [|[|? ? rllv] ? rlv ? ? [|? ? rrlv]];
    simpl in *; repeat split; zcases; simpl; break; try done; lia.
Qed.

Lemma sorted_node l c lv er e r :
  StronglySorted cte_lt (elements (Node l c lv er e r)) <->
  (forall x, x ∈ elements l -> cte_lt x c) /\ (forall x, x ∈ elements r -> cte_lt c x) /\
  StronglySorted cte_lt (elements l) /\ StronglySorted cte_lt (elements r).
Proof.
  cbn [elements]. rewrite StronglySorted_app. split.
  - intros (Hx & Hl & Hr). apply StronglySorted_inv in Hr as [Hr Hc].
    rewrite Forall_forall in Hc. repeat split; auto. intros x Hxl. apply Hx; [done|by left].
  - intros (Hl & Hr & ? & ?). split.
    + intros x y Hxl Hy. apply elem_of_cons in Hy as [->|Hy]; [auto|].
      eapply cte_lt_trans; eauto.
    + split; [done|]. constructor; [done|]. by apply Forall_forall.
Qed.

Lemma check_ok t :
  aa t -> ends_ok t -> StronglySorted cte_lt (elements t) -> Forall nonnull (elements t) ->
  mdb_check_subtree_invariants t = Done MDB_INVARIANT_OK.
Proof.
  induction t as [|l IHl c lv er e r IHr]; intros Haa Hends Hs Hnn; [done|].
  apply sorted_node in Hs as (Hlc & Hrc & Hsl & Hsr).
  cbn [elements] in Hnn. apply Forall_app in Hnn as [Hnl Hnr].
  apply Forall_cons in Hnr as [Hnc Hnr].
  destruct (aa_checks _ _ _ _ _ _ Haa) as (E1 & E2 & E3 & E4 & E5).
  destruct Haa as (_&_&_&_&Hal&Har). destruct Hends as (Her & He & Hel & Hend).
  cbn [mdb_check_subtree_invariants]. rewrite nonnull_assert by done.
  step. rewrite !guard_inv_false; try done.
  - rewrite IHl, IHr by done.
    assert (Hl0 : match l with Nil => Done MDB_INVARIANT_OK | Node _ lc _ _ _ _ =>
      guard_inv (0 <=? compare_caps (C lc) (C c) true) MDB_INVARIANT_LEFT_SMALLER
        (Done MDB_INVARIANT_OK) end = Done MDB_INVARIANT_OK).
    { destruct l as [|? lc]; [done|]. apply guard_inv_false.
      assert (cte_lt lc c) by (apply Hlc, elem_of_node; auto).
      unfold cte_lt in *. zcases; [lia|done]. }
    rewrite Hl0. step.
    destruct r as [|? rc]; [done|]. apply guard_inv_false.
    assert (cte_lt c rc) by (apply Hrc, elem_of_node; auto).
    unfold cte_lt in *. pose proof (compare_antisym (C c) (C rc) true). zcases; [lia|done].
  - cbn [elements] in He, Her. rewrite He, Her, <- node_end_root_spec by done.
    rewrite <- node_end_spec by done. by rewrite Z.eqb_refl.
  - cbn [elements] in Her. rewrite Her, node_end_root_spec by done. by rewrite Z.eqb_refl.
Qed.

(** ** Finding neighbours of a key *)

Lemma below_mono cap eq tb d c : compare_caps (C d) (C c) tb <= 0 ->
  below cap eq tb c -> below cap eq tb d.
Proof.
  unfold below. intros Hdc Hc. pose proof (compare_antisym cap (C c) tb).
  pose proof (compare_antisym cap (C d) tb). destruct eq.
  - assert (compare_caps (C d) cap tb <= 0) by (eapply compare_trans; [exact Hdc|lia]). lia.
  - assert (compare_caps (C d) cap tb < 0) by (eapply compare_le_lt_trans; [exact Hdc|lia]). lia.
Qed.

Lemma above_mono cap eq tb d c : compare_caps (C c) (C d) tb <= 0 ->
  above cap eq tb c -> above cap eq tb d.
Proof.
  unfold above. intros Hcd Hc. destruct eq.
  - by eapply compare_trans.
  - by eapply compare_lt_le_trans.
Qed.

Lemma cte_lt_le a b tb : cte_lt a b -> compare_caps (C a) (C b) tb <= 0.
Proof. unfold cte_lt. destruct tb; [lia|]. apply compare_coarsen. Qed.

Lemma sub_find_less_spec cap t eq tb : StronglySorted cte_lt (elements t) ->
  greatest_below cap eq tb (elements t) (mdb_sub_find_less cap t eq tb).
Proof.
  induction t as [|l IHl c lv er e r IHr]; intros Hs.
  { intros d Hd. by apply elem_of_nil in Hd. }
  apply sorted_node in Hs as (Hlc & Hrc & Hsl & Hsr).
  specialize (IHl Hsl). specialize (IHr Hsr). cbn [mdb_sub_find_less].
  assert (Hleft : ~ below cap eq tb c ->
    greatest_below cap eq tb (elements (Node l c lv er e r)) (mdb_sub_find_less cap l eq tb)).
  { intros Hnc. assert (Hnr : forall d, d ∈ elements r -> ~ below cap eq tb d).
    { intros d Hd Hb. apply Hnc. eapply below_mono; [|exact Hb]. by apply cte_lt_le, Hrc. }
    unfold greatest_below in *.
    destruct (mdb_sub_find_less cap l eq tb) as [x|]; cbn iota; setoid_rewrite elem_of_node.
    - destruct IHl as (?&?&Hmax). split; [auto|]. split; [done|].
      intros d [Hd|[->|Hd]] Hb; [auto|done|]. by apply Hnr in Hb.
    - intros d [Hd|[->|Hd]]; auto. }
  destruct (Z.ltb_spec (compare_caps cap (C c) tb) 0).
  { apply Hleft. unfold below. destruct eq; lia. }
  destruct (Z.ltb_spec 0 (compare_caps cap (C c) tb)).
  - unfold greatest_below in *.
    destruct (mdb_sub_find_less cap r eq tb) as [x|]; cbn iota; setoid_rewrite elem_of_node.
    + destruct IHr as (Hx&?&Hmax). split; [auto|]. split; [done|].
      assert (Hcx : compare_caps (C c) (C x) tb <= 0) by (by apply cte_lt_le, Hrc).
      intros d [Hd|[->|Hd]] Hb; auto. eapply compare_trans; [|exact Hcx]. by apply cte_lt_le, Hlc.
    + split; [auto|]. split; [unfold below; destruct eq; lia|].
      intros d [Hd|[->|Hd]] Hb; [by apply cte_lt_le, Hlc|by rewrite compare_refl|].
      by apply IHr in Hb.
  - destruct eq; [|apply Hleft; unfold below; lia].
    unfold greatest_below. cbn iota. setoid_rewrite elem_of_node. split; [auto|].
    split; [unfold below; lia|]. unfold below. intros d Hd Hb.
    pose proof (compare_antisym cap (C d) tb).
    eapply (compare_trans _ cap); lia.
Qed.

Lemma sub_find_greater_spec cap t eq tb : StronglySorted cte_lt (elements t) ->
  least_above cap eq tb (elements t) (mdb_sub_find_greater cap t eq tb).
Proof.
  induction t as [|l IHl c lv er e r IHr]; intros Hs.
  { intros d Hd. by apply elem_of_nil in Hd. }
  apply sorted_node in Hs as (Hlc & Hrc & Hsl & Hsr).
  specialize (IHl Hsl). specialize (IHr Hsr). cbn [mdb_sub_find_greater].
  assert (Hright : ~ above cap eq tb c ->
    least_above cap eq tb (elements (Node l c lv er e r)) (mdb_sub_find_greater cap r eq tb)).
  { intros Hnc. assert (Hnl : forall d, d ∈ elements l -> ~ above cap eq tb d).
    { intros d Hd Hb. apply Hnc. eapply above_mono; [|exact Hb]. by apply cte_lt_le, Hlc. }
    unfold least_above in *.
    destruct (mdb_sub_find_greater cap r eq tb) as [x|]; cbn iota; setoid_rewrite elem_of_node.
    - destruct IHr as (?&?&Hmax). split; [auto|]. split; [done|].
      intros d [Hd|[->|Hd]] Hb; [by apply Hnl in Hb|done|auto].
    - intros d [Hd|[->|Hd]]; auto. }
  destruct (Z.ltb_spec (compare_caps cap (C c) tb) 0).
  - unfold least_above in *.
    destruct (mdb_sub_find_greater cap l eq tb) as [x|]; cbn iota; setoid_rewrite elem_of_node.
    + destruct IHl as (Hx&?&Hmax). split; [auto|]. split; [done|].
      assert (Hcx : compare_caps (C x) (C c) tb <= 0) by (by apply cte_lt_le, Hlc).
      intros d [Hd|[->|Hd]] Hb; auto. eapply compare_trans; [exact Hcx|]. by apply cte_lt_le, Hrc.
    + split; [auto|]. split; [unfold above; destruct eq; lia|].
      intros d [Hd|[->|Hd]] Hb; [by apply IHl in Hb|by rewrite compare_refl|].
      by apply cte_lt_le, Hrc.
  - destruct (Z.ltb_spec 0 (compare_caps cap (C c) tb)).
    { apply Hright. unfold above. destruct eq; lia. }
    destruct eq; [|apply Hright; unfold above; lia].
    unfold least_above. cbn iota. setoid_rewrite elem_of_node. split; [auto|].
    split; [unfold above; lia|]. unfold above. intros d Hd Hb.
    pose proof (compare_antisym cap (C c) tb).
    eapply (compare_trans _ cap); lia.
Qed.

Lemma sub_find_equal_spec cap t : StronglySorted cte_lt (elements t) ->
  match mdb_sub_find_equal cap t with
  | Some c => c ∈ elements t /\ compare_caps cap (C c) false = 0
  | None => forall d, d ∈ elements t -> compare_caps cap (C d) false <> 0
  end.
Proof.
  induction t as [|l IHl c lv er e r IHr]; intros Hs.
  { intros d Hd. by apply elem_of_nil in Hd. }
  apply sorted_node in Hs as (Hlc & Hrc & Hsl & Hsr).
  specialize (IHl Hsl). specialize (IHr Hsr). cbn [mdb_sub_find_equal].
  destruct (Z.ltb_spec (compare_caps cap (C c) false) 0).
  - destruct (mdb_sub_find_equal cap l); setoid_rewrite elem_of_node; [tauto|].
    intros d [Hd|[->|Hd]]; [auto|lia|].
    apply Hrc, (cte_lt_le _ _ false) in Hd.
    enough (compare_caps cap (C d) false < 0) by lia. by eapply compare_lt_le_trans.
  - destruct (Z.ltb_spec 0 (compare_caps cap (C c) false)); [|rewrite elem_of_node; split; [auto|lia]].
    destruct (mdb_sub_find_equal cap r); setoid_rewrite elem_of_node; [tauto|].
    intros d [Hd|[->|Hd]]; [|lia|auto].
    apply Hlc, (cte_lt_le _ _ false) in Hd. pose proof (compare_antisym cap (C d) false).
    pose proof (compare_antisym cap (C c) false).
    enough (compare_caps (C d) cap false < 0) by lia.
    eapply compare_le_lt_trans; [exact Hd|lia].
Qed.

(** ** Predecessor and successor *)

Lemma node_at_None t a : a ∉ cte_addr <$> elements t -> node_at t a = None.
Proof.
  induction t as [|l IHl c lv er e r IHr]; [done|]. cbn [elements node_at].
  rewrite fmap_app, fmap_cons, elem_of_app, elem_of_cons. intros Hni.
  destruct (Z.eqb_spec (cte_addr c) a) as [E|]; [exfalso; apply Hni; auto|].
  rewrite IHl by auto. apply IHr. auto.
Qed.

(** Following the pointer to an entry leads to its node, whose subtree is a
    contiguous part of the listing. *)
Lemma node_at_Some t c : NoDup (cte_addr <$> elements t) -> c ∈ elements t ->
  exists l lv er e r p q, node_at t (cte_addr c) = Some (Node l c lv er e r) /\
    elements t = p ++ (elements l ++ c :: elements r) ++ q.
Proof.
  induction t as [|l IHl d lv er e r IHr]; intros Hnd Hin; [by apply elem_of_nil in Hin|].
  cbn [elements node_at] in *. rewrite fmap_app, fmap_cons in Hnd.
  apply NoDup_app in Hnd as (Hndl & Hdisj & Hndr). apply NoDup_cons in Hndr as [Hnd Hndr].
  apply elem_of_app in Hin as [Hin|Hin]; [|apply elem_of_cons in Hin as [->|Hin]].
  - destruct (Z.eqb_spec (cte_addr d) (cte_addr c)) as [Heq|].
    { exfalso. eapply (Hdisj (cte_addr c)); [by apply list_elem_of_fmap_2|]. rewrite Heq. by left. }
    destruct (IHl Hndl Hin) as (l' & lv' & er' & e' & r' & p & q & -> & E).
    exists l', lv', er', e', r', p, (q ++ d :: elements r). split; [done|].
    rewrite E. by rewrite <- !app_assoc.
  - rewrite Z.eqb_refl. exists l, lv, er, e, r, [], []. by rewrite app_nil_r.
  - destruct (Z.eqb_spec (cte_addr d) (cte_addr c)) as [Heq|].
    { exfalso. apply Hnd. rewrite Heq. by apply list_elem_of_fmap_2. }
    rewrite node_at_None.
    + destruct (IHr Hndr Hin) as (l' & lv' & er' & e' & r' & p & q & -> & E).
      exists l', lv', er', e', r', (elements l ++ d :: p), q. split; [done|].
      rewrite E. by rewrite <- !app_assoc.
    + intros Hin'. eapply Hdisj; [done|]. right. by apply list_elem_of_fmap_2.
Qed.

Lemma rightmost_last r c : last (c :: elements r) = Some (rightmost r c).
Proof.
  revert c. induction r as [|l _ d lv er e r IHr]; intros c; [done|].
  cbn [elements rightmost]. rewrite <- IHr. by rewrite app_comm_cons, last_app_cons.
Qed.

Lemma leftmost_head l c : head (elements l ++ [c]) = Some (leftmost l c).
Proof.
  revert c. induction l as [|l IHl d lv er e r _]; intros c; [done|].
  cbn [elements leftmost]. rewrite <- IHl. by destruct (elements l).
Qed.

Lemma sorted_decompose_unique cs l1 c l2 m1 m2 : StronglySorted cte_lt cs ->
  cs = l1 ++ c :: l2 -> cs = m1 ++ c :: m2 -> l1 = m1 /\ l2 = m2.
Proof.
  revert cs m1. induction l1 as [|x l1 IH]; intros cs m1 Hs E1 E2; subst cs.
  - destruct m1 as [|y m1]; simpl in E2; [by injection E2|].
    injection E2 as -> ->. exfalso. simpl in Hs. apply StronglySorted_inv in Hs as [_ Hall].
    rewrite Forall_forall in Hall. apply (cte_lt_irrefl y), Hall.
    apply elem_of_app. right. by left.
  - destruct m1 as [|y m1]; simpl in E2.
    + injection E2 as -> <-. exfalso. simpl in Hs. apply StronglySorted_inv in Hs as [_ Hall].
      rewrite Forall_forall in Hall. apply (cte_lt_irrefl c), Hall.
      apply elem_of_app. right. by left.
    + injection E2 as -> E2. simpl in Hs. apply StronglySorted_inv in Hs as [Hs _].
      destruct (IH _ m1 Hs eq_refl E2) as [-> ->]. done.
Qed.

Lemma greatest_below_last l1 c l2 res : StronglySorted cte_lt (l1 ++ c :: l2) ->
  greatest_below (C c) false true (l1 ++ c :: l2) res -> res = last l1.
Proof.
  intros Hs Hg. apply StronglySorted_app in Hs as (Hlt & Hs1 & Hs2).
  apply StronglySorted_inv in Hs2 as [Hs2 Hgt]. rewrite Forall_forall in Hgt.
  destruct res as [x|]; cbn [greatest_below below] in Hg.
  - destruct Hg as (Hx & Hxc & Hmax). unfold cte_lt in *.
    apply elem_of_app in Hx as [Hx|Hx].
    2:{ apply elem_of_cons in Hx as [->|Hx]; [rewrite compare_refl in Hxc; lia|].
        apply Hgt in Hx. lia. }
    destruct l1 as [|y l1 _] using rev_ind; [by apply elem_of_nil in Hx|].
    rewrite last_snoc. f_equal. apply elem_of_app in Hx as [Hx|Hx]; [|by apply list_elem_of_singleton in Hx].
    exfalso. assert (Hyc : compare_caps (C y) (C c) true < 0).
    { apply Hlt; [apply elem_of_app; right; by left|by left]. }
    pose proof (compare_antisym (C y) (C c) true).
    assert (Hyx : compare_caps (C y) (C x) true <= 0).
    { apply Hmax; [|lia]. rewrite !elem_of_app. left. right. by left. }
    apply StronglySorted_app in Hs1 as (Hxy & _ & _). specialize (Hxy x y Hx ltac:(by left)).
    pose proof (compare_antisym (C y) (C x) true). unfold cte_lt in Hxy. lia.
  - destruct l1 as [|y l1 _] using rev_ind; [done|exfalso].
    assert (Hyc : cte_lt y c) by (apply Hlt; [apply elem_of_app; right; by left|by left]).
    apply (Hg y); [rewrite !elem_of_app; left; right; by left|].
    unfold cte_lt in Hyc. pose proof (compare_antisym (C y) (C c) true). lia.
Qed.

Lemma least_above_head l1 c l2 res : StronglySorted cte_lt (l1 ++ c :: l2) ->
  least_above (C c) false true (l1 ++ c :: l2) res -> res = head l2.
Proof.
  intros Hs Hg. apply StronglySorted_app in Hs as (Hlt & Hs1 & Hs2).
  apply StronglySorted_inv in Hs2 as [Hs2 Hgt]. rewrite Forall_forall in Hgt. unfold cte_lt in *.
  destruct res as [x|]; cbn [least_above above] in Hg.
  - destruct Hg as (Hx & Hxc & Hmin).
    apply elem_of_app in Hx as [Hx|Hx].
    { specialize (Hlt x c Hx ltac:(by left)). pose proof (compare_antisym (C x) (C c) true). lia. }
    apply elem_of_cons in Hx as [->|Hx]; [rewrite compare_refl in Hxc; lia|].
    destruct l2 as [|y l2]; [by apply elem_of_nil in Hx|]. simpl. f_equal.
    apply elem_of_cons in Hx as [->|Hx]; [done|exfalso].
    assert (compare_caps (C x) (C y) true <= 0).
    { apply Hmin; [apply elem_of_app; right; right; by left|apply Hgt; by left]. }
    apply StronglySorted_inv in Hs2 as [_ Hall]. rewrite Forall_forall in Hall.
    apply Hall in Hx. unfold cte_lt in Hx. pose proof (compare_antisym (C x) (C y) true). lia.
  - destruct l2 as [|y l2]; [done|exfalso].
    apply (Hg y); [apply elem_of_app; right; right; by left|]. apply Hgt. by left.
Qed.

Lemma predecessor_last t l1 c l2 : mdb_wf t -> elements t = l1 ++ c :: l2 ->
  mdb_predecessor c t = last l1.
Proof.
  intros (_ & _ & Hs & _ & Hnd) E. unfold mdb_predecessor.
  destruct (node_at_Some t c Hnd) as (l & lv & er & e & r & p & q & -> & E').
  { rewrite E. apply elem_of_app. right. by left. }
  assert (l1 = p ++ elements l) as ->.
  { eapply (sorted_decompose_unique _ l1 c l2 (p ++ elements l) (elements r ++ q)); [exact Hs|exact E|].
    rewrite E', <- !app_assoc. done. }
  destruct l as [|ll lc llv ler le lr].
  - rewrite app_nil_r in *. eapply greatest_below_last.
    + rewrite <- E. done.
    + rewrite <- E. by apply sub_find_less_spec.
  - cbn [elements]. rewrite app_assoc, last_app_cons. by rewrite rightmost_last.
Qed.

Lemma successor_head t l1 c l2 : mdb_wf t -> elements t = l1 ++ c :: l2 ->
  mdb_successor c t = head l2.
Proof.
  intros (_ & _ & Hs & _ & Hnd) E. unfold mdb_successor.
  destruct (node_at_Some t c Hnd) as (l & lv & er & e & r & p & q & -> & E').
  { rewrite E. apply elem_of_app. right. by left. }
  assert (l2 = elements r ++ q) as ->.
  { eapply (sorted_decompose_unique _ l1 c l2 (p ++ elements l) (elements r ++ q)); [exact Hs|exact E|].
    rewrite E', <- !app_assoc. done. }
  destruct r as [|rl rc rlv rer re rr].
  - cbn [elements app]. simpl in *. eapply least_above_head.
    + rewrite <- E. done.
    + rewrite <- E. by apply sub_find_greater_spec.
  - cbn [elements]. rewrite <- leftmost_head. by destruct (elements rl).
Qed.

(** ** Traversal *)

(** Run the callback over a list until it fails. *)
Fixpoint visit {D} (cb : cte -> D -> D * errval) (cs : list cte) (data : D) : D * errval :=
  match cs with
  | [] => (data, SYS_ERR_OK)
  | c :: cs =>
    let '(data, ev) := cb c data in
    if err_is_fail ev then (data, ev) else visit cb cs data
  end.

Definition in_order (order : mdb_tree_traversal_order) (t : tree) : list cte :=
  match order with
  | MDB_TRAVERSAL_ORDER_ASCENDING => elements t
  | MDB_TRAVERSAL_ORDER_DESCENDING => reverse (elements t)
  end.

Lemma visit_app {D} (cb : cte -> D -> D * errval) xs ys data :
  visit cb (xs ++ ys) data =
  let '(data, ev) := visit cb xs data in
  if err_is_fail ev then (data, ev) else visit cb ys data.
Proof.
  revert data. induction xs as [|x xs IH]; intros data; simpl; [done|].
  destruct (cb x data) as [data' ev]. destruct (err_is_fail ev) eqn:E; [by rewrite E|apply IH].
Qed.

Lemma traverse_visit {D} order (cb : cte -> D -> D * errval) t data :
  mdb_traverse_subtree order cb t data = visit cb (in_order order t) data.
Proof.
  revert data. induction t as [|l IHl c lv er e r IHr]; intros data; [by destruct order|].
  destruct order; cbn [mdb_traverse_subtree in_order elements].
  - rewrite visit_app, IHl. cbn [in_order].
    destruct (visit cb (elements l) data) as [d ev]. destruct (err_is_fail ev); [done|].
    simpl. destruct (cb c d) as [d' ev']. destruct (err_is_fail ev'); [done|]. apply IHr.
  - rewrite reverse_app, reverse_cons, <- app_assoc, visit_app, IHr. cbn [in_order].
    destruct (visit cb (reverse (elements r)) data) as [d ev]. destruct (err_is_fail ev); [done|].
    simpl. destruct (cb c d) as [d' ev']. destruct (err_is_fail ev'); [done|]. apply IHl.
Qed.

End Query.
