(* ===== verification/MdbRange.v ===== *)
(** The mapping database: correctness of the range query
    ([mdb_sub_find_range] and [mdb_find_range] of lib/mdb/mdb_tree.c).

    The query classifies every entry of a type root against an address
    range and returns the highest class, up to an early exit; the pruning
    uses the cached subtree ends. *)
From S2P Require Import Prelude MdbTree MdbInv MdbInsert MdbRemove MdbQuery.

Section Range.
Context `{CapPredicates} {CL : CapLaws}.

(** * Specification *)

(** The end of an entry when the sum does not wrap around. *)
Definition no_wrap (c : cte) : Prop :=
  get_address (cte_cap c) + get_size (cte_cap c) < 2 ^ 64.

(** The class of an entry against the range from [a] to [se]. *)
Definition range_class (a se : Z) (c : cte) : Z :=
  let b := get_address (cte_cap c) in
  let e := b + get_size (cte_cap c) in
  if ((a <? b) && (b <? se) && (se <? e)) || ((b <? a) && (a <? e) && (e <? se)) then
    MDB_RANGE_FOUND_PARTIAL
  else if ((a <=? b) && (e <? se)) || ((a <? b) && (e <=? se)) then MDB_RANGE_FOUND_INNER
  else if (b <=? a) && (b <? se) && (se <=? e) && (a <? e) then MDB_RANGE_FOUND_SURROUNDING
  else MDB_RANGE_NOT_FOUND.

(** An empty entry that lies on the border of the range. *)
Definition on_border (a se : Z) (c : cte) : Prop :=
  get_size (cte_cap c) = 0 /\ (get_address (cte_cap c) = a \/ get_address (cte_cap c) = se).

(** The entries the query has to account for. *)
Definition in_question (root a se : Z) (c : cte) : Prop :=
  cap_root (cte_cap c) = root /\ range_class a se c <> MDB_RANGE_NOT_FOUND /\ ~ on_border a se c.

(** Which of two entries of the same class [k] is the better answer: the
    innermost surrounding one, the first inner one, a partial overlap at
    the start of the range before one at its end. *)
Definition preferred (a k : Z) (c d : cte) : Prop :=
  if k =? MDB_RANGE_FOUND_SURROUNDING then compare_caps (C d) (C c) true <= 0
  else if k =? MDB_RANGE_FOUND_INNER then compare_caps (C c) (C d) true <= 0
  else (get_address (cte_cap c) < a /\ a < get_address (cte_cap d)) \/
       ((get_address (cte_cap c) < a <-> get_address (cte_cap d) < a) /\
        compare_caps (C d) (C c) true <= 0).

(** The contract of a query over the entries [cs]. *)
Definition range_post (root a se maxp : Z) (cs : list cte) (res : Z * option cte) : Prop :=
  (match res.2 with
   | None => res.1 = MDB_RANGE_NOT_FOUND
   | Some c => c ∈ cs /\ cap_root (cte_cap c) = root /\ range_class a se c = res.1 /\
               res.1 <> MDB_RANGE_NOT_FOUND
   end) /\
  (res.1 <= maxp -> forall d, d ∈ cs -> in_question root a se d ->
     range_class a se d < res.1 \/
     exists c, range_class a se d = res.1 /\ res.2 = Some c /\ preferred a res.1 c d).

(** * The choice between two candidates *)

Section Query.
Variables (root address size maxp : Z).
Hypothesis Hsize : 0 <= size.
Hypothesis Haddr : 0 <= address.
Hypothesis Hend : address + size < 2 ^ 64.
Hypothesis Hmax : 0 <= maxp.

Local Abbreviation se := (address + size).
Local Abbreviation class := (range_class address se).

Lemma se_u64 : u64 (address + size) = se.
Proof. apply u64_small. lia. Qed.

Lemma cap_end_eq c : no_wrap c ->
  cap_end c = get_address (cte_cap c) + get_size (cte_cap c) /\
  0 <= get_address (cte_cap c) /\ 0 <= get_size (cte_cap c).
Proof.
  unfold no_wrap, cap_end. intros.
  pose proof (address_width (cte_cap c)) as [? _]. pose proof (size_width (cte_cap c)) as [? _].
  rewrite u64_small by lia. done.
Qed.

Lemma class_cases c :
  class c = 0 \/ class c = 1 \/ class c = 2 \/ class c = 3.
Proof. unfold range_class. cbv zeta. repeat case_match; auto. Qed.

Lemma preferred_refl k c : preferred address k c c.
Proof. unfold preferred. rewrite !compare_refl. repeat case_match; lia. Qed.

(** What each class says about the borders of an entry. *)
Local Abbreviation beg c := (get_address (cte_cap c)).
Local Abbreviation fin c := (get_address (cte_cap c) + get_size (cte_cap c)).

Lemma class_surrounding c : class c = 1 ->
  beg c <= address /\ beg c < se /\ se <= fin c /\ address < fin c.
Proof. unfold range_class. cbv zeta. zcases; simpl; done || lia. Qed.

Lemma class_inner c : class c = 2 ->
  (address <= beg c /\ fin c < se) \/ (address < beg c /\ fin c <= se).
Proof. unfold range_class. cbv zeta. zcases; simpl; done || lia. Qed.

Lemma class_partial c : class c = 3 ->
  (address < beg c /\ beg c < se /\ se < fin c) \/ (beg c < address /\ address < fin c /\ fin c < se).
Proof. unfold range_class. cbv zeta. zcases; simpl; done || lia. Qed.

Lemma preferred_trans k c d f : class f = k -> k <> 0 ->
  preferred address k c d -> preferred address k d f -> preferred address k c f.
Proof.
  unfold preferred. intros Hf Hk. destruct (class_cases f) as [?|[?|[?|Hf3]]]; try lia;
    subst k; rewrite ?Hf3; simpl.
  - replace (class f) with 1. simpl. intros. eapply compare_trans; eauto.
  - replace (class f) with 2. simpl. intros. eapply compare_trans; eauto.
  - pose proof (class_partial f Hf3).
    intros [H1|[H1 H1']] [H2|[H2 H2']]; try lia.
    right. split; [lia|]. eapply compare_trans; eauto.
Qed.

(** The boolean tests of the code against the pure class. *)
Lemma classify_spec c : no_wrap c ->
  range_classify address (u64 (address + size)) c =
  Done (class c, if class c =? 0 then None else Some c).
Proof.
  intros Hnw. destruct (cap_end_eq c Hnw) as (He & Hb & Hs). rewrite se_u64.
  unfold range_classify, mdb_is_inside. rewrite He.
  set (b := get_address (cte_cap c)) in *. set (z := get_size (cte_cap c)) in *.
  unfold range_class. fold b z. cbv zeta.
  rewrite (proj2 (Z.leb_le address se)) by lia. rewrite (proj2 (Z.leb_le b (b + z))) by lia.
  cbn [assert mbind outcome_bind].
  destruct (Z.ltb_spec address b), (Z.ltb_spec b se), (Z.ltb_spec se (b + z)),
    (Z.ltb_spec address (b + z)); zdecide; simpl; try done; zcases; simpl; done || lia.
Qed.

Lemma choose_surrounding_spec c d : no_wrap c -> no_wrap d ->
  cap_root (cte_cap c) = cap_root (cte_cap d) -> class c = 1 -> class d = 1 ->
  exists x, mdb_choose_surrounding address size c d = Done x /\ (x = c \/ x = d) /\
    preferred address 1 x c /\ preferred address 1 x d.
Proof.
  intros Hc Hd Hr. unfold mdb_choose_surrounding, same_root.
  rewrite Hr, Z.eqb_refl, se_u64.
  destruct (cap_end_eq c Hc) as (-> & ? & ?), (cap_end_eq d Hd) as (-> & ? & ?).
  intros Hkc%class_surrounding Hkd%class_surrounding.
  pose proof (compare_antisym (C c) (C d) true) as Ha.
  pose proof (compare_refl (C c) true). pose proof (compare_refl (C d) true).
  rewrite !(proj2 (Z.leb_le (beg _) _)), !(proj2 (Z.leb_le se _)) by lia.
  simpl. zcases; eexists; split_and!; eauto; unfold preferred; simpl; lia.
Qed.

Lemma choose_inner_spec c d : no_wrap c -> no_wrap d ->
  cap_root (cte_cap c) = cap_root (cte_cap d) -> class c = 2 -> class d = 2 ->
  exists x, mdb_choose_inner address size c d = Done x /\ (x = c \/ x = d) /\
    preferred address 2 x c /\ preferred address 2 x d.
Proof.
  intros Hc Hd Hr. unfold mdb_choose_inner, mdb_is_inside, same_root.
  rewrite Hr, Z.eqb_refl, se_u64.
  destruct (cap_end_eq c Hc) as (-> & ? & ?), (cap_end_eq d Hd) as (-> & ? & ?).
  intros Hkc%class_inner Hkd%class_inner.
  pose proof (compare_antisym (C c) (C d) true) as Ha.
  pose proof (compare_refl (C c) true). pose proof (compare_refl (C d) true).
  assert (Hin : forall b e, (address <= b /\ e < se) \/ (address < b /\ e <= se) ->
    ((address <=? b) && (e <? se)) || ((address <? b) && (e <=? se)) = true)
    by (intros b e ?; zcases; simpl; done || lia).
  rewrite !Hin by done. rewrite !(proj2 (Z.leb_le address _)), !(proj2 (Z.leb_le (beg _) _)) by lia.
  simpl. zcases; eexists; split_and!; eauto; unfold preferred; simpl; lia.
Qed.

Lemma choose_partial_spec c d : no_wrap c -> no_wrap d ->
  cap_root (cte_cap c) = cap_root (cte_cap d) -> class c = 3 -> class d = 3 ->
  exists x, mdb_choose_partial address size c d = Done x /\ (x = c \/ x = d) /\
    preferred address 3 x c /\ preferred address 3 x d.
Proof.
  intros Hc Hd Hr. unfold mdb_choose_partial, same_root. cbv zeta.
  rewrite Hr, Z.eqb_refl, se_u64.
  destruct (cap_end_eq c Hc) as (-> & ? & ?), (cap_end_eq d Hd) as (-> & ? & ?).
  intros Hkc%class_partial Hkd%class_partial.
  pose proof (compare_antisym (C c) (C d) true) as Ha.
  pose proof (compare_refl (C c) true). pose proof (compare_refl (C d) true).
  unfold preferred. simpl.
  destruct Hkc as [Hkc|Hkc], Hkd as [Hkd|Hkd];
    zdecide; simpl; zcases; eexists; split_and!; eauto; lia.
Qed.

(** * Merging the answers of subtrees *)

Local Abbreviation post := (range_post root address se maxp).

Definition choose (k : Z) (c d : cte) : outcome cte :=
  if k =? MDB_RANGE_FOUND_SURROUNDING then mdb_choose_surrounding address size c d
  else if k =? MDB_RANGE_FOUND_INNER then mdb_choose_inner address size c d
  else if k =? MDB_RANGE_FOUND_PARTIAL then mdb_choose_partial address size c d
  else Fault AssertionFailed.

Lemma choose_spec k c d : no_wrap c -> no_wrap d ->
  cap_root (cte_cap c) = cap_root (cte_cap d) -> class c = k -> class d = k -> k <> 0 ->
  exists x, choose k c d = Done x /\ (x = c \/ x = d) /\
    preferred address k x c /\ preferred address k x d.
Proof.
  intros Hc Hd Hr Hkc Hkd Hk. destruct (class_cases c) as [?|[?|[?|?]]]; [lia|..];
    replace k with (class c); rewrite H0 in *; unfold choose; simpl.
  - apply choose_surrounding_spec; auto; lia.
  - apply choose_inner_spec; auto; lia.
  - apply choose_partial_spec; auto; lia.
Qed.

(** An answer above the wanted precision needs no completeness. *)
Lemma post_exceeds cs cs' acc : maxp < acc.1 -> cs ⊆ cs' -> post cs acc -> post cs' acc.
Proof.
  intros Hgt Hsub [Hs _]. split; [|lia]. destruct acc as [ret [c|]]; simpl in *; [|done].
  destruct Hs as (? & ? & ? & ?). auto.
Qed.

(** Entries out of the question can be skipped. *)
Lemma post_skip cs cs' acc : cs ⊆ cs' ->
  (forall d, d ∈ cs' -> in_question root address se d -> d ∈ cs) -> post cs acc -> post cs' acc.
Proof.
  intros Hsub Hskip [Hs Hc]. split; [|auto].
  destruct acc as [ret [c|]]; simpl in *; [|done]. destruct Hs as (? & ? & ? & ?). auto.
Qed.

Lemma post_nothing cs : (forall d, d ∈ cs -> ~ in_question root address se d) ->
  post cs (MDB_RANGE_NOT_FOUND, None).
Proof. intros Hno. split; [done|]. intros _ d Hd Hq. by destruct (Hno d Hd). Qed.

Lemma post_single c : no_wrap c -> exists acc,
  (if cap_root (cte_cap c) =? root then range_classify address (u64 (address + size)) c
   else Done (MDB_RANGE_NOT_FOUND, None)) = Done acc /\ post [c] acc.
Proof.
  intros Hnw. destruct (Z.eqb_spec (cap_root (cte_cap c)) root) as [Hr|Hr].
  - rewrite classify_spec by done. eexists. split; [done|]. destruct (Z.eqb_spec (class c) 0) as [E|E].
    + rewrite E. apply post_nothing. intros d ->%list_elem_of_singleton (_ & ? & _). done.
    + split; simpl; [split_and!; auto; by left|]. intros _ d ->%list_elem_of_singleton _.
      right. eexists. split_and!; auto. apply preferred_refl.
  - eexists. split; [done|]. apply post_nothing.
    intros d ->%list_elem_of_singleton (? & _). done.
Qed.

Lemma merge_eq sub_res acc : acc.1 <= maxp ->
  mdb_sub_find_range_merge address size maxp (Done sub_res) acc =
  if maxp <? sub_res.1 then Done sub_res
  else if acc.1 <? sub_res.1 then Done sub_res
  else if sub_res.1 =? acc.1 then
    if sub_res.1 =? MDB_RANGE_NOT_FOUND then Done acc
    else match acc.2, sub_res.2 with
         | Some c, Some d => x ← choose sub_res.1 c d; Done (acc.1, Some x)
         | _, _ => Fault AssertionFailed
         end
  else Done acc.
Proof.
  intros. destruct acc as [ret res], sub_res as [sret sres]. unfold mdb_sub_find_range_merge.
  simpl in *. by zdecide.
Qed.

Lemma post_app_l cs ds acc acc' : post cs acc -> post ds acc' -> acc.1 < acc'.1 ->
  post (cs ++ ds) acc'.
Proof.
  intros [Hs Hc] [Hs' Hc'] Hlt. split.
  - destruct acc' as [ret [c|]]; simpl in *; [|done]. rewrite elem_of_app. tauto.
  - intros Hle d [Hd|Hd]%elem_of_app Hq; [|auto].
    destruct (Hc ltac:(lia) d Hd Hq) as [?|(? & ? & _)]; left; lia.
Qed.

Lemma post_app_comm cs ds acc : post (cs ++ ds) acc -> post (ds ++ cs) acc.
Proof.
  apply post_skip; [intros x|intros x Hx _; revert Hx]; rewrite !elem_of_app; tauto.
Qed.

Lemma merge_spec cs ds acc acc' : Forall no_wrap cs -> Forall no_wrap ds ->
  post cs acc -> post ds acc' -> acc.1 <= maxp ->
  exists res, mdb_sub_find_range_merge address size maxp (Done acc') acc = Done res /\
    post (cs ++ ds) res.
Proof.
  intros Hwc Hwd Hp Hp' Hle. rewrite merge_eq by done.
  destruct (Z.ltb_spec maxp acc'.1).
  { eexists. split; [done|]. apply post_app_l with acc; auto. lia. }
  destruct (Z.ltb_spec acc.1 acc'.1).
  { eexists. split; [done|]. by apply post_app_l with acc. }
  destruct (Z.eqb_spec acc'.1 acc.1) as [Heq|].
  2:{ eexists. split; [done|]. apply post_app_comm, post_app_l with acc'; auto. lia. }
  rewrite Forall_forall in Hwc, Hwd. destruct Hp as [Hs Hc], Hp' as [Hs' Hc'].
  destruct (Z.eqb_spec acc'.1 MDB_RANGE_NOT_FOUND) as [Hz|Hz].
  - eexists. split; [done|]. split.
    + destruct acc as [ret [c|]]; simpl in *; [|done]. rewrite elem_of_app. tauto.
    + intros _ d [Hd|Hd]%elem_of_app Hq; [auto|].
      destruct (Hc' ltac:(lia) d Hd Hq) as [?|(? & ? & _)]; [left; lia|].
      destruct Hq as (_ & Hq & _). lia.
  - destruct acc as [ret [c|]], acc' as [ret' [d|]]; simpl in *; try lia. subst ret'.
    destruct Hs as (Hcin & Hcr & Hck & _), Hs' as (Hdin & Hdr & Hdk & _).
    destruct (choose_spec ret c d) as (x & -> & Hx & Hxc & Hxd); auto; [lia|].
    eexists. split; [done|]. split; simpl.
    + destruct Hx as [->| ->]; rewrite elem_of_app; tauto.
    + intros _ f [Hf|Hf]%elem_of_app Hq.
      * destruct (Hc ltac:(lia) f Hf Hq) as [?|(y & ? & [= <-] & ?)]; [auto|].
        right. exists x. split_and!; auto. by eapply preferred_trans; [| |exact Hxc|]; eauto.
      * destruct (Hc' ltac:(lia) f Hf Hq) as [?|(y & ? & [= <-] & ?)]; [auto|].
        right. exists x. split_and!; auto. by eapply preferred_trans; [| |exact Hxd|]; eauto.
Qed.

(** * The query over the tree *)

(** Entries of lower roots start below the end of the range: the pruning
    of right subtrees compares addresses whatever the root is. *)
Definition lower_roots_below (cs : list cte) : Prop :=
  forall c, c ∈ cs -> cap_root (cte_cap c) < root -> get_address (cte_cap c) < se.

Lemma pruned_by_end l c lv er e r : ends_ok (Node l c lv er e r) ->
  Forall no_wrap (elements (Node l c lv er e r)) -> er < root \/ (er = root /\ e <= address) ->
  forall d, d ∈ elements (Node l c lv er e r) -> ~ in_question root address se d.
Proof.
  intros (Her & He & _) Hnw Hpr d Hd (Hr & Hk & Hb). subst root.
  pose proof (elts_root_elem _ _ Hd). pose proof (elts_end_elem _ _ Hd) as Hde.
  destruct Hpr as [?|[Hpr Hle]]; [lia|]. rewrite <- Hpr, <- He in Hde.
  rewrite Forall_forall in Hnw. destruct (cap_end_eq d (Hnw d Hd)) as (Hce & ? & ?).
  rewrite Hce in Hde. unfold on_border in Hb.
  destruct (class_cases d) as [?|[Hd1%class_surrounding|[Hd2%class_inner|Hd3%class_partial]]]; try lia.
  done.
Qed.

Lemma pruned_right l c lv er e r :
  StronglySorted cte_lt (elements (Node l c lv er e r)) ->
  Forall no_wrap (elements (Node l c lv er e r)) ->
  lower_roots_below (elements (Node l c lv er e r)) ->
  root < cap_root (cte_cap c) \/
    se < get_address (cte_cap c) \/ (se = get_address (cte_cap c) /\ size <> 0) ->
  forall d, d ∈ elements r -> ~ in_question root address se d.
Proof.
  intros Hs Hnw Hlow Hpr d Hd (Hr & Hk & Hb). apply sorted_node in Hs as (_ & Hgt & _).
  pose proof (Hgt d Hd) as Hkey. apply compare_key in Hkey. simpl in Hkey. rewrite Forall_forall in Hnw.
  assert (Hnd : no_wrap d) by (apply Hnw, elem_of_node; auto).
  destruct (cap_end_eq d Hnd) as (_ & ? & ?). unfold on_border in Hb.
  specialize (Hlow c ltac:(apply elem_of_node; auto)).
  destruct (class_cases d) as [?|[Hd1%class_surrounding|[Hd2%class_inner|Hd3%class_partial]]];
    [done|lia..].
Qed.

Lemma sub_find_range_spec t :
  ends_ok t -> StronglySorted cte_lt (elements t) -> Forall no_wrap (elements t) ->
  lower_roots_below (elements t) ->
  exists res, mdb_sub_find_range root address size maxp t = Done res /\ post (elements t) res.
Proof.
  induction t as [|l IHl c lv er e r IHr]; intros He Hs Hnw Hlow;
    cbn [mdb_sub_find_range]; rewrite assert_true by (by apply Z.leb_le).
  { eexists. split; [done|]. apply post_nothing. by intros d ?%elem_of_nil. }
  step.
  pose proof (pruned_by_end _ _ _ _ _ _ He Hnw) as Hend_pr.
  pose proof (pruned_right _ _ _ _ _ _ Hs Hnw Hlow) as Hright_pr.
  destruct (Z.ltb_spec er root); [eexists; split; [done|]; apply post_nothing; auto|].
  destruct ((er =? root) && (e <=? address)) eqn:Hpr.
  { apply andb_true_iff in Hpr as [?%Z.eqb_eq ?%Z.leb_le]. eexists; split; [done|].
    apply post_nothing. auto. }
  clear Hend_pr Hpr.
  pose proof Hs as Hs'. apply sorted_node in Hs' as (_ & _ & Hsl & Hsr). destruct He as (_ & _ & Hel & Her).
  pose proof Hnw as Hnw'. cbn [elements] in Hnw'. apply Forall_app in Hnw' as [Hnwl Hnwr].
  apply Forall_cons in Hnwr as [Hnwc Hnwr].
  destruct IHl as (resl & El & Hpl); auto. { intros d Hd. apply Hlow, elem_of_node; auto. }
  destruct IHr as (resr & Er & Hpr); auto. { intros d Hd. apply Hlow, elem_of_node; auto. }
  destruct (post_single c Hnwc) as (acc & -> & Hacc). step.
  destruct (Z.ltb_spec maxp acc.1) as [|Hle].
  { eexists. split; [done|]. eapply post_exceeds; [done| |exact Hacc].
    intros d ->%list_elem_of_singleton. apply elem_of_node. auto. }
  assert (exists acc', (if is_nil l then Done acc else
      mdb_sub_find_range_merge address size maxp (mdb_sub_find_range root address size maxp l) acc)
      = Done acc' /\ post (c :: elements l) acc') as (acc' & -> & Hacc').
  { destruct l as [|ll lc llv ler le lr]; [eauto|]. cbn [is_nil]. rewrite El.
    by apply (merge_spec [c]); auto. }
  step. destruct (Z.ltb_spec maxp acc'.1) as [|Hle'].
  { eexists. split; [done|]. eapply post_exceeds; [done| |exact Hacc'].
    intros d [->|]%elem_of_cons; apply elem_of_node; auto. }
  rewrite Er, se_u64. case_match eqn:Hc.
  - destruct (merge_spec (c :: elements l) (elements r) acc' resr) as (res & -> & Hres); auto.
    eexists. split; [done|]. eapply post_skip; [| |exact Hres];
      [intros d|intros d Hd _; revert Hd]; rewrite elem_of_node, elem_of_app, elem_of_cons; tauto.
  - eexists. split; [done|]. eapply post_skip; [| |exact Hacc'].
    + intros d [->|]%elem_of_cons; apply elem_of_node; auto.
    + intros d [Hd|[->|Hd]]%elem_of_node Hq; [by right|by left|exfalso].
      destruct r as [|]; [by apply elem_of_nil in Hd|]. eapply Hright_pr; [|exact Hd|exact Hq].
      cbn [is_nil negb andb] in Hc. zcases_in Hc; simpl in Hc; done || lia.
Qed.
End Query.
End Range.
