(* ===== verification/MdbRel.v ===== *)
(** The mapping database: relations between capabilities, lib/mdb/mdb.c.

    The remote-relation bits of an entry, the tests for descendants,
    ancestors and copies, and the entry points the kernel calls. *)
From S2P Require Import Prelude MdbTree MdbInv MdbInsert MdbRemove MdbQuery MdbRange.

Section Rel.
Context `{CapPredicates}.

(** * Definitions *)

Definition RRELS_COPY_BIT : Z := Z.shiftl 1 0.
Definition RRELS_ANCS_BIT : Z := Z.shiftl 1 1.
Definition RRELS_DESC_BIT : Z := Z.shiftl 1 2.

(** [mask & bit] as a condition. *)
Definition has_bit (v bit : Z) : bool := negb (Z.land v bit =? 0).

Definition mdb_set_cte_relations (relations mask : Z) (c : cte) : cte :=
  Cte (cte_addr c) (cte_cap c)
    (if has_bit mask RRELS_COPY_BIT then has_bit relations RRELS_COPY_BIT else remote_copies c)
    (if has_bit mask RRELS_ANCS_BIT then has_bit relations RRELS_ANCS_BIT else remote_ancs c)
    (if has_bit mask RRELS_DESC_BIT then has_bit relations RRELS_DESC_BIT else remote_descs c).

(** Write through a pointer to an entry of the tree. *)
Fixpoint update_at (addr : Z) (f : cte -> cte) (t : tree) : tree :=
  match t with
  | Nil => Nil
  | Node l c lv er e r =>
    Node (update_at addr f l) (if cte_addr c =? addr then f c else c) lv er e (update_at addr f r)
  end.

Definition same_bits (c d : cte) : bool :=
  Bool.eqb (remote_copies c) (remote_copies d) && Bool.eqb (remote_ancs c) (remote_ancs d) &&
  Bool.eqb (remote_descs c) (remote_descs d).

(** The two loops of [mdb_set_relations]: from [next] on, follow [step]
    (the successor or the predecessor) while the entry is a copy of [cap].
    [None] when the fuel runs out. *)
Fixpoint set_copies (fuel : nat) (step : cte -> tree -> option cte) (cap : capability)
    (relations mask : Z) (next : option cte) (t : tree) : option tree :=
  match next with
  | None => Some t
  | Some n =>
    if is_copy (cte_cap n) cap then
      match fuel with
      | O => None
      | S fuel =>
        let t := update_at (cte_addr n) (mdb_set_cte_relations relations mask) t in
        set_copies fuel step cap relations mask (step n t) t
      end
    else Some t
  end.

Definition mdb_set_relations (fuel : nat) (c : cte) (relations mask : Z) (mdb_root : tree)
  : option tree :=
  let c' := mdb_set_cte_relations relations mask c in
  let t := update_at (cte_addr c) (mdb_set_cte_relations relations mask) mdb_root in
  if same_bits c' c then Some t
  else
    t ← set_copies fuel mdb_successor (cte_cap c) relations mask (mdb_successor c t) t;
    set_copies fuel mdb_predecessor (cte_cap c) relations mask (mdb_predecessor c t) t.

Definition has_descendants (c : cte) (mdb_root : tree) : bool :=
  match mdb_find_greater (C c) false mdb_root with
  | Some next =>
    (cap_root (cte_cap next) =? cap_root (cte_cap c)) &&
    (get_address (cte_cap next) <? cap_end c)
  | None => false
  end.

Definition mdb_find_ancestor (c : cte) (mdb_root : tree) : outcome (option cte) :=
  let by_range :=
    '(_, (find_result, result)) ←
      mdb_find_range (cap_root (cte_cap c)) (get_address (cte_cap c)) 0
        MDB_RANGE_FOUND_SURROUNDING true true mdb_root;
    if negb (find_result =? MDB_RANGE_NOT_FOUND) then
      ASSERT (find_result =? MDB_RANGE_FOUND_SURROUNDING);
      match result with
      | None => Fault AssertionFailed
      | Some res =>
        ASSERT (get_address (cte_cap res) <=? get_address (cte_cap c));
        ASSERT (cap_end c <=? cap_end res);
        Done result
      end
    else
      ASSERT (match result with None => true | Some _ => false end);
      Done result in
  match mdb_find_less (C c) false mdb_root with
  | Some result =>
    if (cap_root (cte_cap result) =? cap_root (cte_cap c)) && (cap_end c <=? cap_end result)
    then Done (Some result)
    else by_range
  | None => by_range
  end.

Definition has_ancestors (c : cte) (mdb_root : tree) : outcome bool :=
  r ← mdb_find_ancestor c mdb_root;
  Done (match r with Some _ => true | None => false end).

Definition has_copies (c : cte) (mdb_root : tree) : bool :=
  match mdb_successor c mdb_root with
  | Some next => is_copy (cte_cap next) (cte_cap c)
  | None => false
  end ||
  match mdb_predecessor c mdb_root with
  | Some prev => is_copy (cte_cap prev) (cte_cap c)
  | None => false
  end.

Definition mdb_get_copy (cap : Z * capability) (mdb_root : tree) : errval * option (Z * capability) :=
  match mdb_find_equal cap mdb_root with
  | Some c => (SYS_ERR_OK, Some (C c))
  | None => (err SYS_ERR_NO_LOCAL_COPIES, None)
  end.

Definition mdb_is_sane (mdb_root : tree) : outcome bool :=
  res ← mdb_check_subtree_invariants mdb_root;
  Done (match res with MDB_INVARIANT_OK => true | _ => false end).

(** The errors of [mdb_insert] and [mdb_remove] are dropped. *)
Definition set_init_mapping (dest : list cte) (mdb_root : tree) : tree :=
  fold_left (fun t c => (mdb_insert c t).1) dest mdb_root.

Definition remove_mapping (c : cte) (mdb_root : tree) : outcome tree :=
  '(t, _) ← mdb_remove c mdb_root; Done t.

(** * Writing the relation bits *)

(** [f] only touches the relation bits. *)
Definition keeps_cap (f : cte -> cte) : Prop :=
  forall c, cte_addr (f c) = cte_addr c /\ cte_cap (f c) = cte_cap c.

Definition at_addr (a : Z) (f : cte -> cte) (c : cte) : cte := if cte_addr c =? a then f c else c.

Lemma keeps_cap_C f c : keeps_cap f -> C (f c) = C c.
Proof. intros Hf. unfold C. by destruct (Hf c) as [-> ->]. Qed.

Lemma keeps_cap_at a f : keeps_cap f -> keeps_cap (at_addr a f).
Proof. intros Hf c. unfold at_addr. case_match; [apply Hf|done]. Qed.

Lemma keeps_cap_set relations mask : keeps_cap (mdb_set_cte_relations relations mask).
Proof. done. Qed.

Lemma elements_update_at a f t : elements (update_at a f t) = at_addr a f <$> elements t.
Proof.
  induction t as [|l IHl c lv er e r IHr]; [done|].
  cbn [update_at elements]. by rewrite IHl, IHr, fmap_app, fmap_cons.
Qed.

Section Keep.
Context (f : cte -> cte) (Hf : keeps_cap f).

Lemma keep_elts_root cs : elts_root (f <$> cs) = elts_root cs.
Proof.
  induction cs as [|c cs IH]; [done|]. rewrite fmap_cons. cbn [elts_root].
  destruct (Hf c) as [_ ->]. by rewrite IH.
Qed.

Lemma keep_elts_end root cs : elts_end root (f <$> cs) = elts_end root cs.
Proof.
  induction cs as [|c cs IH]; [done|]. rewrite fmap_cons. cbn [elts_end]. unfold cap_end.
  destruct (Hf c) as [_ ->]. by rewrite IH.
Qed.

Lemma keep_sorted cs : StronglySorted cte_lt cs -> StronglySorted cte_lt (f <$> cs).
Proof.
  induction 1 as [|c cs _ IH Hc]; [constructor|]. rewrite fmap_cons. constructor; [done|].
  apply Forall_fmap. eapply Forall_impl; [exact Hc|]. intros d. simpl. unfold cte_lt.
  by rewrite !keeps_cap_C.
Qed.

Lemma keep_addrs (cs : list cte) : cte_addr <$> (f <$> cs) = cte_addr <$> cs.
Proof.
  induction cs as [|c cs IH]; [done|]. rewrite !fmap_cons, IH. by destruct (Hf c) as [-> _].
Qed.

Lemma keep_nonnull cs : Forall nonnull cs -> Forall nonnull (f <$> cs).
Proof.
  intros Hc. apply Forall_fmap. eapply Forall_impl; [exact Hc|]. intros d. unfold nonnull. simpl.
  by destruct (Hf d) as [_ ->].
Qed.
End Keep.

Lemma update_at_wf a f t : keeps_cap f -> mdb_wf t -> mdb_wf (update_at a f t).
Proof.
  intros Hf (Haa & He & Hs & Hn & Hnd). pose proof (keeps_cap_at a f Hf) as Hk.
  split_and!.
  - clear -Haa. induction t as [|l IHl c lv er e r IHr]; [done|]. cbn [update_at aa] in *.
    assert (Hl : forall t, level (update_at a f t) = level t) by (by intros []).
    assert (Hr : forall t, right_of (update_at a f t) = update_at a f (right_of t)) by (by intros []).
    rewrite !Hr, !Hl. tauto.
  - clear -He Hk. induction t as [|l IHl c lv er e r IHr]; [done|].
    change (ends_ok (Node (update_at a f l) (at_addr a f c) lv er e (update_at a f r))).
    cbn [ends_ok elements] in *. rewrite !elements_update_at, <- fmap_cons, <- fmap_app.
    rewrite keep_elts_root, keep_elts_end by done. tauto.
  - rewrite elements_update_at. by apply keep_sorted.
  - rewrite elements_update_at. by apply keep_nonnull.
  - rewrite elements_update_at, keep_addrs; done.
Qed.

(** ** Setting the bits of a run of copies *)

(** [f] on the longest prefix that satisfies [p]. *)
Fixpoint map_while (p : cte -> bool) (f : cte -> cte) (cs : list cte) : list cte :=
  match cs with
  | [] => []
  | c :: cs => if p c then f c :: map_while p f cs else c :: cs
  end.

Definition copy_of (cap : capability) (c : cte) : bool := is_copy (cte_cap c) cap.

Lemma at_addr_app f l1 c l2 : NoDup (cte_addr <$> (l1 ++ c :: l2)) ->
  at_addr (cte_addr c) f <$> (l1 ++ c :: l2) = l1 ++ f c :: l2.
Proof.
  rewrite fmap_app, fmap_cons. intros Hnd. apply NoDup_app in Hnd as (_ & Hd & Hnd).
  apply NoDup_cons in Hnd as [Hc _].
  assert (Hid : forall l : list cte, cte_addr c ∉ cte_addr <$> l -> at_addr (cte_addr c) f <$> l = l).
  { induction l as [|d l IH]; [done|]. rewrite !fmap_cons, not_elem_of_cons. intros [? ?].
    rewrite IH by done. unfold at_addr. by zcases. }
  rewrite fmap_app, fmap_cons, !Hid; [|done|].
  - unfold at_addr. by rewrite Z.eqb_refl.
  - intros Hin. eapply Hd; [exact Hin|]. by left.
Qed.

Section Laws.
Context {CL : CapLaws}.
Variables (cap : capability) (relations mask : Z).
Local Abbreviation f := (mdb_set_cte_relations relations mask).

Lemma update_elements t l1 c l2 : mdb_wf t -> elements t = l1 ++ c :: l2 ->
  elements (update_at (cte_addr c) f t) = l1 ++ f c :: l2.
Proof.
  intros (_ & _ & _ & _ & Hnd) E. rewrite elements_update_at, E. apply at_addr_app. by rewrite <- E.
Qed.

Lemma set_copies_successor l2 : forall fuel l1 t, mdb_wf t -> elements t = l1 ++ l2 ->
  (length l2 <= fuel)%nat -> exists t',
  set_copies fuel mdb_successor cap relations mask (head l2) t = Some t' /\ mdb_wf t' /\
  elements t' = l1 ++ map_while (copy_of cap) f l2.
Proof.
  induction l2 as [|c l2 IH]; intros fuel l1 t Hwf E Hfuel; [by destruct fuel; eauto|].
  cbn [head map_while]. unfold copy_of at 1.
  destruct fuel as [|fuel]; [simpl in Hfuel; lia|]. cbn [set_copies].
  destruct (is_copy (cte_cap c) cap) eqn:Hc; [|eauto].
  pose proof (update_elements _ _ _ _ Hwf E) as E1.
  pose proof (update_at_wf (cte_addr c) f t (keeps_cap_set _ _) Hwf) as Hwf1.
  change (mdb_successor c (update_at (cte_addr c) f t)) with (mdb_successor (f c) (update_at (cte_addr c) f t)).
  rewrite (successor_head _ _ _ _ Hwf1 E1).
  destruct (IH fuel (l1 ++ [f c]) _ Hwf1) as (t' & -> & ? & E2).
  - by rewrite <- app_assoc.
  - simpl in Hfuel. lia.
  - exists t'. by rewrite E2, <- app_assoc.
Qed.

Lemma set_copies_predecessor l1 : forall fuel l2 t, mdb_wf t -> elements t = reverse l1 ++ l2 ->
  (length l1 <= fuel)%nat -> exists t',
  set_copies fuel mdb_predecessor cap relations mask (head l1) t = Some t' /\ mdb_wf t' /\
  elements t' = reverse (map_while (copy_of cap) f l1) ++ l2.
Proof.
  induction l1 as [|c l1 IH]; intros fuel l2 t Hwf E Hfuel; [by destruct fuel; eauto|].
  cbn [head map_while]. unfold copy_of at 1.
  destruct fuel as [|fuel]; [simpl in Hfuel; lia|]. cbn [set_copies].
  destruct (is_copy (cte_cap c) cap) eqn:Hc; [|eauto].
  rewrite reverse_cons, <- app_assoc in E.
  pose proof (update_elements _ _ _ _ Hwf E) as E1.
  pose proof (update_at_wf (cte_addr c) f t (keeps_cap_set _ _) Hwf) as Hwf1.
  change (mdb_predecessor c (update_at (cte_addr c) f t))
    with (mdb_predecessor (f c) (update_at (cte_addr c) f t)).
  rewrite (predecessor_last _ _ _ _ Hwf1 E1), last_reverse.
  destruct (IH fuel (f c :: l2) _ Hwf1) as (t' & -> & ? & E2).
  - done.
  - simpl in Hfuel. lia.
  - exists t'. by rewrite E2, reverse_cons, <- app_assoc.
Qed.

(** A run of copies is contiguous, so that the loops reach all of them. *)
Definition map_if (p : cte -> bool) (g : cte -> cte) (c : cte) : cte := if p c then g c else c.

Lemma map_while_all p g cs : StronglySorted (fun d y => p y = true -> p d = true) cs ->
  map_while p g cs = map_if p g <$> cs.
Proof.
  induction 1 as [|d cs _ IH Hd]; [done|]. rewrite fmap_cons. cbn [map_while]. unfold map_if at 1.
  destruct (p d) eqn:Hp; [by rewrite IH|]. f_equal.
  clear IH. induction Hd as [|y cs Hy _ IH']; [done|]. rewrite fmap_cons, <- IH'. unfold map_if.
  by destruct (p y) eqn:Hpy; [specialize (Hy eq_refl)|].
Qed.

Lemma copy_between c d y : nonnull c -> nonnull d -> nonnull y ->
  (cte_lt c d /\ cte_lt d y) \/ (cte_lt y d /\ cte_lt d c) ->
  copy_of (cte_cap c) y = true -> copy_of (cte_cap c) d = true.
Proof.
  unfold copy_of, cte_lt. intros Hnc Hnd Hny Hlt Hy.
  apply (is_copy_compare (cte_addr y) _ (cte_addr c)) in Hy.
  apply (is_copy_nonnull (cte_addr d) _ (cte_addr c)); [done|].
  fold (C y) in Hy. fold (C c) in Hy |- *. fold (C d).
  pose proof (compare_antisym (C d) (C c) false). pose proof (compare_antisym (C y) (C c) false).
  destruct Hlt as [[Hx%compare_coarsen Hy'%compare_coarsen]|[Hx%compare_coarsen Hy'%compare_coarsen]].
  - assert (compare_caps (C d) (C c) false <= 0) by (apply compare_trans with (C y); lia). lia.
  - assert (compare_caps (C c) (C d) false <= 0) by (apply compare_trans with (C y); lia). lia.
Qed.

Lemma copies_after c l2 : StronglySorted cte_lt (c :: l2) -> Forall nonnull (c :: l2) ->
  StronglySorted (fun d y => copy_of (cte_cap c) y = true -> copy_of (cte_cap c) d = true) l2.
Proof.
  intros Hs Hn. apply StronglySorted_inv in Hs as [Hs Hc]. apply Forall_cons in Hn as [Hnc Hn].
  induction Hs as [|d l2 _ IH Hd]; [constructor|].
  apply Forall_cons in Hc as [Hcd Hc]. apply Forall_cons in Hn as [Hnd Hn].
  constructor; [auto|]. rewrite Forall_forall in *. intros y Hy.
  apply copy_between; auto.
Qed.

Lemma copies_before c l1 : StronglySorted cte_lt (l1 ++ [c]) -> Forall nonnull (l1 ++ [c]) ->
  StronglySorted (fun d y => copy_of (cte_cap c) y = true -> copy_of (cte_cap c) d = true)
    (reverse l1).
Proof.
  induction l1 as [|d l1 IH] using rev_ind; intros Hs Hn; [constructor|].
  rewrite reverse_app. simpl. apply StronglySorted_app in Hs as (Hlt & Hs & _).
  apply StronglySorted_app in Hs as (Hlt' & Hs & _).
  rewrite !Forall_app, !Forall_singleton in Hn. destruct Hn as [[Hn Hnd] Hnc].
  assert (Hin : d ∈ l1 ++ [d]) by (apply elem_of_app; right; by left).
  constructor.
  - apply IH; [|by rewrite Forall_app, Forall_singleton]. apply StronglySorted_app. split; [|split; [done|]].
    + intros x y Hx ->%list_elem_of_singleton. apply Hlt; [apply elem_of_app; auto|by left].
    + repeat constructor.
  - apply Forall_forall. intros y Hy. rewrite elem_of_reverse in Hy. rewrite Forall_forall in Hn.
    apply copy_between; auto. right. split; [apply Hlt'|apply Hlt]; auto; apply list_elem_of_singleton; auto.
Qed.

Definition bits_of (c : cte) : bool * bool * bool :=
  (remote_copies c, remote_ancs c, remote_descs c).

Lemma unchanged_bits c d : same_bits (f c) c = true -> bits_of d = bits_of c -> f d = d.
Proof.
  destruct c as [a k b1 b2 b3], d as [a' k' b1' b2' b3']. unfold same_bits, bits_of. simpl.
  rewrite !andb_true_iff, !Bool.eqb_true_iff. intros [[H1 H2] H3] [= -> -> ->].
  unfold mdb_set_cte_relations. simpl. by rewrite H1, H2, H3.
Qed.
End Laws.

Lemma set_relations_spec {CL : CapLaws} fuel c relations mask t :
  mdb_wf t -> c ∈ elements t -> (length (elements t) <= fuel)%nat ->
  (forall d, d ∈ elements t -> copy_of (cte_cap c) d = true -> bits_of d = bits_of c) ->
  exists t', mdb_set_relations fuel c relations mask t = Some t' /\ mdb_wf t' /\
    elements t' =
      map_if (copy_of (cte_cap c)) (mdb_set_cte_relations relations mask) <$> elements t.
Proof.
  intros Hwf Hc Hfuel Hsync. apply list_elem_of_split in Hc as (l1 & l2 & E).
  set (f := mdb_set_cte_relations relations mask).
  pose proof (update_elements relations mask _ _ _ _ Hwf E) as E1. fold f in E1.
  pose proof (update_at_wf (cte_addr c) f t (keeps_cap_set _ _) Hwf) as Hwf1.
  unfold mdb_set_relations. fold f. destruct (same_bits (f c) c) eqn:Hb.
  - exists (update_at (cte_addr c) f t). split_and!; [done..|].
    pose proof (unchanged_bits relations mask c c Hb eq_refl) as Hid. fold f in Hid.
    rewrite E1, Hid, <- E.
    rewrite <- (list_fmap_id (elements t)) at 1. apply list_fmap_ext. intros i d Hd.
    apply list_elem_of_lookup_2 in Hd. unfold map_if. destruct (copy_of _ d) eqn:Hcd; [|done].
    symmetry. by eapply unchanged_bits; eauto.
  - change (mdb_successor c (update_at (cte_addr c) f t))
      with (mdb_successor (f c) (update_at (cte_addr c) f t)).
    rewrite (successor_head _ _ _ _ Hwf1 E1).
    assert (Hlen : (length l1 + length l2 < fuel)%nat)
      by (rewrite E, length_app in Hfuel; simpl in Hfuel; lia).
    destruct (set_copies_successor (cte_cap c) relations mask l2 fuel (l1 ++ [f c])
      (update_at (cte_addr c) f t)) as (t2 & -> & Hwf2 & E2);
      [done|by rewrite <- app_assoc|lia|]. fold f in E2. rewrite <- app_assoc in E2. simpl in E2.
    cbn [mbind option_bind]. change (mdb_predecessor c t2) with (mdb_predecessor (f c) t2).
    rewrite (predecessor_last _ _ _ _ Hwf2 E2).
    rewrite <- (reverse_involutive l1) in E2 |- *. rewrite last_reverse.
    destruct (set_copies_predecessor (cte_cap c) relations mask (reverse l1) fuel
      (f c :: map_while (copy_of (cte_cap c)) f l2) t2) as (t3 & -> & Hwf3 & E3);
      [done..|rewrite length_reverse; lia|]. fold f in E3.
    exists t3. split_and!; [done..|]. destruct Hwf as (_ & _ & Hs & Hn & _). rewrite E in Hs, Hn.
    rewrite E3, E, fmap_app, fmap_cons.
    assert (Hcc : copy_of (cte_cap c) c = true).
    { apply (is_copy_nonnull (cte_addr c) _ (cte_addr c)); [|apply compare_refl].
      rewrite Forall_forall in Hn. apply Hn, elem_of_app. right. by left. }
    assert (Hs' : StronglySorted cte_lt ((l1 ++ [c]) ++ l2)) by (by rewrite <- app_assoc).
    assert (Hn' : Forall nonnull ((l1 ++ [c]) ++ l2)) by (by rewrite <- app_assoc).
    rewrite !map_while_all.
    + rewrite fmap_reverse, reverse_involutive. f_equal. f_equal. unfold map_if. by rewrite Hcc.
    + apply StronglySorted_app in Hs as (_ & _ & Hs). apply Forall_app in Hn as [_ Hn].
      by apply copies_after.
    + apply StronglySorted_app in Hs' as (_ & Hs' & _). apply Forall_app in Hn' as [Hn' _].
      by apply copies_before.
Qed.

(** * Descendants, ancestors and copies *)

Section Family.
Context {CL : CapLaws}.

Local Abbreviation beg c := (get_address (cte_cap c)).
Local Abbreviation fin c := (get_address (cte_cap c) + get_size (cte_cap c)).

(** [d] comes after [c] in its type forest and starts inside of it. *)
Definition descendant (d c : cte) : Prop :=
  compare_caps (C c) (C d) false < 0 /\ cap_root (cte_cap d) = cap_root (cte_cap c) /\
  beg c <= beg d < fin c.

(** [d] comes before [c] in its type forest and covers it. *)
Definition ancestor (d c : cte) : Prop :=
  compare_caps (C d) (C c) false < 0 /\ cap_root (cte_cap d) = cap_root (cte_cap c) /\
  beg d <= beg c /\ fin c <= fin d.

(** Two capabilities of a type forest are disjoint or nested. *)
Definition laminar (c d : cte) : Prop :=
  cap_root (cte_cap c) = cap_root (cte_cap d) ->
  fin c <= beg d \/ fin d <= beg c \/
  (beg c <= beg d /\ fin d <= fin c) \/ (beg d <= beg c /\ fin c <= fin d).

Lemma compare_le_key c d : compare_caps (C c) (C d) false <= 0 ->
  cap_root (cte_cap c) < cap_root (cte_cap d) \/
  (cap_root (cte_cap c) = cap_root (cte_cap d) /\
   (beg c < beg d \/ (beg c = beg d /\ get_size (cte_cap d) <= get_size (cte_cap c)))).
Proof.
  intros Hle. destruct (decide (compare_caps (C c) (C d) false = 0)) as [Hz|].
  - apply compare_eq_key in Hz as (Ht & Ha & Hs). simpl in *. unfold cap_root. rewrite Ht. lia.
  - by apply (compare_key (C c) (C d) false); lia.
Qed.

Lemma has_descendants_spec c t : StronglySorted cte_lt (elements t) -> no_wrap c ->
  has_descendants c t = true <-> exists d, d ∈ elements t /\ descendant d c.
Proof.
  intros Hs Hnw. destruct (cap_end_eq c Hnw) as (He & _).
  pose proof (sub_find_greater_spec (C c) t false false Hs) as Hspec.
  unfold has_descendants, mdb_find_greater. rewrite He. unfold descendant.
  destruct (mdb_sub_find_greater (C c) t false false) as [n|]; cbn [least_above above] in Hspec.
  - destruct Hspec as (Hn & Hcn & Hmin). rewrite andb_true_iff, Z.eqb_eq, Z.ltb_lt.
    apply compare_key in Hcn as Hkey. simpl in Hkey. split.
    + intros [Hr Hb]. exists n. split_and!; auto. lia.
    + intros (d & Hd & Hcd & Hr & Hb). apply (Hmin d Hd), compare_le_key in Hcd. lia.
  - split; [done|]. intros (d & Hd & Hcd & _). by destruct (Hspec d Hd).
Qed.

Lemma class_zero_length a d : 0 <= get_size (cte_cap d) ->
  range_class a (a + 0) d = if (beg d <? a) && (a <? fin d) then 1 else 0.
Proof. intros. unfold range_class. cbv zeta. rewrite Z.add_0_r. zcases; simpl; done || lia. Qed.

(** The zero-length query at the start of [c] finds the innermost entry
    that properly spans that address. *)
Lemma find_range_zero t c : mdb_wf t -> Forall no_wrap (elements t) ->
  lower_roots_below (cap_root (cte_cap c)) (beg c) 0 (elements t) ->
  exists res, mdb_find_range (cap_root (cte_cap c)) (beg c) 0 MDB_RANGE_FOUND_SURROUNDING
                true true t = Done (SYS_ERR_OK, res) /\
    match res.2 with
    | None => res.1 = 0 /\ forall d, d ∈ elements t -> cap_root (cte_cap d) = cap_root (cte_cap c) ->
                ~ (beg d < beg c < fin d)
    | Some x => res.1 = 1 /\ x ∈ elements t /\ cap_root (cte_cap x) = cap_root (cte_cap c) /\
        beg x < beg c < fin x /\
        forall d, d ∈ elements t -> cap_root (cte_cap d) = cap_root (cte_cap c) ->
          beg d < beg c < fin d -> compare_caps (C d) (C x) true <= 0
    end.
Proof.
  intros (_ & He & Hs & _) Hnw Hlow. pose proof (address_width (cte_cap c)) as [Ha0 Ha1].
  destruct (sub_find_range_spec (cap_root (cte_cap c)) (beg c) 0 1 ltac:(lia) Ha0 ltac:(lia)
    ltac:(lia) t He Hs Hnw Hlow) as ([ret x] & E & Hpost).
  exists (ret, x). change (mdb_find_range (cap_root (cte_cap c)) (beg c) 0 MDB_RANGE_FOUND_SURROUNDING true true t)
    with (res ← mdb_sub_find_range (cap_root (cte_cap c)) (beg c) 0 1 t; Done (SYS_ERR_OK, res)).
  rewrite E. split; [done|].
  destruct Hpost as [Hsound Hcomp]. simpl in Hsound, Hcomp.
  rewrite Forall_forall in Hnw.
  assert (Hcl : forall d, d ∈ elements t -> range_class (beg c) (beg c + 0) d =
    if (beg d <? beg c) && (beg c <? fin d) then 1 else 0).
  { intros d Hd. apply class_zero_length. apply (cap_end_eq d (Hnw d Hd)). }
  assert (Hq : forall d, d ∈ elements t -> cap_root (cte_cap d) = cap_root (cte_cap c) ->
    beg d < beg c < fin d -> in_question (cap_root (cte_cap c)) (beg c) (beg c + 0) d).
  { intros d Hd Hr Hb. split_and!; [done| |unfold on_border; lia]. rewrite Hcl by done. by zdecide. }
  simpl. destruct x as [x|].
  - destruct Hsound as (Hx & Hr & Hk & Hne). rewrite Hcl in Hk by done.
    destruct ((beg x <? beg c) && (beg c <? fin x)) eqn:Hb; [|done].
    apply andb_true_iff in Hb as [?%Z.ltb_lt ?%Z.ltb_lt]. split_and!; auto.
    intros d Hd Hrd Hbd. destruct (Hcomp ltac:(lia) d Hd (Hq d Hd Hrd Hbd)) as [Hlt|(y & _ & [= <-] & Hpr)].
    + rewrite Hcl in Hlt by done. revert Hlt. zdecide. simpl. lia.
    + subst ret. exact Hpr.
  - split; [done|]. intros d Hd Hrd Hbd.
    destruct (Hcomp ltac:(by rewrite Hsound) d Hd (Hq d Hd Hrd Hbd)) as [Hlt|(y & _ & ? & _)]; [|done].
    rewrite Hcl in Hlt by done. rewrite Hsound in Hlt. revert Hlt. zdecide. simpl. done.
Qed.

Definition nearest_ancestor (c : cte) (cs : list cte) (res : option cte) : Prop :=
  match res with
  | Some x => x ∈ cs /\ ancestor x c /\
              forall d, d ∈ cs -> ancestor d c -> compare_caps (C d) (C x) false <= 0
  | None => forall d, d ∈ cs -> ~ ancestor d c
  end.

Lemma compare_true_le l r : compare_caps l r true <= 0 -> compare_caps l r false <= 0.
Proof.
  intros Hle. destruct (decide (compare_caps l r false = 0)); [lia|].
  rewrite <- compare_tiebreak by done. done.
Qed.

(** When the closest entry before [c] is not an ancestor, every ancestor
    starts before [c]. *)
Lemma ancestor_starts_before c t : StronglySorted cte_lt (elements t) -> Forall no_wrap (elements t) ->
  (forall p, mdb_find_less (C c) false t = Some p -> ~ ancestor p c) ->
  forall d, d ∈ elements t -> ancestor d c -> beg d < beg c.
Proof.
  intros Hs Hnw Hp d Hd (Hlt & Hr & Hb & He).
  pose proof (sub_find_less_spec (C c) t false false Hs) as Hspec. unfold mdb_find_less in Hp.
  pose proof (compare_antisym (C d) (C c) false).
  destruct (mdb_sub_find_less (C c) t false false) as [p|]; cbn [greatest_below below] in Hspec.
  - destruct Hspec as (Hpin & Hpc & Hmax). pose proof (compare_antisym (C p) (C c) false).
    assert (Hdp : compare_caps (C d) (C p) false <= 0) by (apply Hmax; [done|lia]).
    apply compare_le_key in Hdp.
    assert (Hpk : compare_caps (C p) (C c) false < 0) by lia.
    apply compare_key in Hpk. simpl in Hpk.
    destruct (decide (beg d < beg c)); [done|]. exfalso. apply (Hp p eq_refl).
    split_and!; lia.
  - exfalso. apply (Hspec d Hd). lia.
Qed.

Lemma find_ancestor_spec c t : mdb_wf t -> Forall no_wrap (elements t) -> no_wrap c ->
  0 < get_size (cte_cap c) ->
  lower_roots_below (cap_root (cte_cap c)) (beg c) 0 (elements t) ->
  (forall d, d ∈ elements t -> laminar c d) ->
  exists res, mdb_find_ancestor c t = Done res /\ nearest_ancestor c (elements t) res.
Proof.
  intros Hwf Hnw Hnc Hpos Hlow Hlam. pose proof Hwf as (_ & _ & Hs & _).
  pose proof (sub_find_less_spec (C c) t false false Hs) as Hless.
  destruct (cap_end_eq c Hnc) as (Hec & Hbc & Hsc). rewrite Forall_forall in Hnw.
  unfold mdb_find_ancestor. destruct (find_range_zero t c Hwf) as ([ret x] & -> & Hx);
    [by apply Forall_forall|done|]. step. rewrite Hec.
  pose proof (ancestor_starts_before c t Hs (proj2 (Forall_forall _ _) Hnw)) as Hbefore.
  set (by_range := if negb (ret =? MDB_RANGE_NOT_FOUND) then _ else _).
  assert (Hrange : (forall p, mdb_find_less (C c) false t = Some p -> ~ ancestor p c) ->
    exists res, by_range = Done res /\ nearest_ancestor c (elements t) res).
  { intros Hna. specialize (Hbefore Hna). subst by_range.
    destruct x as [x|]; simpl in Hx; destruct Hx as [-> Hx].
    - destruct Hx as (Hxin & Hr & Hb & Hmax). destruct (cap_end_eq x (Hnw x Hxin)) as (-> & _).
      destruct (Hlam x Hxin (eq_sym Hr)) as [?|[?|[?|?]]]; try lia. simpl.
      rewrite !assert_true by (zdecide; done). simpl. eexists. split; [done|]. split_and!; auto.
      + split_and!; try lia. pose proof (compare_antisym (C x) (C c) false).
        destruct (decide (compare_caps (C x) (C c) false < 0)); [done|].
        assert (Hcx : compare_caps (C c) (C x) false <= 0) by lia. apply compare_le_key in Hcx. lia.
      + intros d Hd Ha. apply compare_true_le, Hmax; auto.
        * apply Ha.
        * pose proof (Hbefore d Hd Ha). destruct Ha as (_ & _ & _ & ?).
          lia.
    - eexists. split; [done|]. intros d Hd Ha. apply (Hx d Hd); [apply Ha|].
      pose proof (Hbefore d Hd Ha). destruct Ha as (_ & _ & _ & ?). lia. }
  destruct (mdb_find_less (C c) false t) as [p|] eqn:Ep; [|by apply Hrange].
  unfold mdb_find_less in Ep. rewrite Ep in Hless. cbn [greatest_below below] in Hless.
  destruct Hless as (Hp & Hpc & Hmax). destruct (cap_end_eq p (Hnw p Hp)) as (-> & _).
  pose proof (compare_antisym (C p) (C c) false) as Hanti.
  assert (Hkey : compare_caps (C p) (C c) false < 0) by lia. pose proof Hkey as Hkey'.
  apply compare_key in Hkey. simpl in Hkey.
  destruct ((cap_root (cte_cap p) =? cap_root (cte_cap c)) && (fin c <=? fin p)) eqn:Htest.
  - apply andb_true_iff in Htest as [?%Z.eqb_eq ?%Z.leb_le]. eexists. split; [done|].
    split_and!; [done|split_and!; lia|]. intros d Hd (Hdc & _). apply Hmax; [done|].
    pose proof (compare_antisym (C d) (C c) false). lia.
  - apply Hrange. intros p' [= <-] (_ & ? & ? & ?). revert Htest. zdecide. done.
Qed.

Lemma has_copies_spec c t : mdb_wf t -> c ∈ elements t ->
  has_copies c t = true <->
  exists d, d ∈ elements t /\ cte_addr d <> cte_addr c /\ is_copy (cte_cap d) (cte_cap c) = true.
Proof.
  intros Hwf Hc. apply list_elem_of_split in Hc as (l1 & l2 & E).
  pose proof Hwf as (_ & _ & Hs & Hn & Hnd). rewrite E in Hs, Hn, Hnd.
  unfold has_copies. rewrite (successor_head _ _ _ _ Hwf E), (predecessor_last _ _ _ _ Hwf E), E.
  assert (Hs1 : StronglySorted cte_lt (l1 ++ [c]) /\ Forall nonnull (l1 ++ [c])).
  { change (c :: l2) with ([c] ++ l2) in Hs, Hn. rewrite app_assoc in Hs, Hn.
    apply StronglySorted_app in Hs as (_ & ? & _). by apply Forall_app in Hn as [? _]. }
  destruct Hs1 as [Hs1 Hn1]. apply StronglySorted_app in Hs as (_ & _ & Hs2).
  apply Forall_app in Hn as [_ Hn2].
  pose proof (copies_after c l2 Hs2 Hn2) as Ha. pose proof (copies_before c l1 Hs1 Hn1) as Hb.
  rewrite fmap_app, fmap_cons in Hnd. apply NoDup_app in Hnd as (_ & Hd1 & Hnd).
  apply NoDup_cons in Hnd as [Hd2 _]. rewrite orb_true_iff. split.
  - intros [Hcopy|Hcopy].
    + destruct l2 as [|d l2]; [done|]. simpl in Hcopy. exists d. split_and!; [|..|done].
      * apply elem_of_app. right. right. by left.
      * intros Heq. apply Hd2. rewrite <- Heq. by left.
    + destruct (last l1) as [d|] eqn:Hl; [|done]. apply last_Some_elem_of in Hl. exists d.
      split_and!; [apply elem_of_app; by left| |done]. intros Heq.
      eapply (Hd1 (cte_addr d)); [by apply list_elem_of_fmap_2|]. rewrite Heq. by left.
  - intros (d & Hd & Hne & Hcopy). apply elem_of_app in Hd as [Hd|Hd].
    + right. destruct l1 as [|x l1 _] using rev_ind; [by apply elem_of_nil in Hd|].
      rewrite last_snoc. rewrite reverse_app in Hb. simpl in Hb.
      apply elem_of_app in Hd as [Hd|Hd]; [|by apply list_elem_of_singleton in Hd as ->].
      apply StronglySorted_inv in Hb as [_ Hb]. rewrite Forall_forall in Hb.
      apply (Hb d); [by apply elem_of_reverse|done].
    + left. apply elem_of_cons in Hd as [->|Hd]; [done|].
      destruct l2 as [|x l2]; [by apply elem_of_nil in Hd|]. simpl.
      apply elem_of_cons in Hd as [->|Hd]; [done|].
      apply StronglySorted_inv in Ha as [_ Ha]. rewrite Forall_forall in Ha.
      by apply (Ha d).
Qed.
End Family.

End Rel.
