(* ===== verification/MdbCorrect.v ===== *)
(** The mapping database: what its operations guarantee.

    The lemmas of the other files combined into the contracts of the entry
    points, the reachable states, and concrete instances of the theorems on
    the generated predicates of Hamlet.v. *)
From S2P Require Import Prelude MdbTree Hamlet MdbInv MdbInsert MdbRemove MdbQuery MdbRange MdbRel.

Section Contracts.
Context `{CapPredicates} {CL : CapLaws}.

(** The number of entries fits the 8-bit level of a node. *)
Definition fits (t : tree) : Prop := tsize t < 2 ^ 255.

Lemma insert_wf new t : mdb_wf t -> fits t -> nonnull new ->
  cte_addr new ∉ cte_addr <$> elements t ->
  exists t' l1 l2, mdb_insert new t = (t', SYS_ERR_OK) /\ mdb_wf t' /\
    elements t = l1 ++ l2 /\ elements t' = l1 ++ new :: l2.
Proof.
  intros (Haa & He & Hs & Hn & Hnd) Hfit Hnn Hfresh. unfold mdb_insert.
  destruct (mdb_sub_insert new t) as [t' ev] eqn:Hins. destruct ev as [|code ev].
  - destruct (sub_insert_elements _ _ _ Hins Hs) as (l1 & l2 & E & E' & Hlt & Hgt).
    exists t', l1, l2. split_and!; [done| |done..].
    split_and!.
    + by apply (sub_insert_aa _ _ _ Hins Haa Hfit).
    + by eapply sub_insert_ends.
    + rewrite E in Hs. apply StronglySorted_app in Hs as (Hx & Hs1 & Hs2). rewrite E'.
      rewrite Forall_forall in Hlt. apply StronglySorted_app. split_and!; [|done|by constructor].
      intros x y Hx1 [->|Hy]%elem_of_cons; auto.
    + rewrite E in Hn. rewrite E'. apply Forall_app in Hn as [? ?]. apply Forall_app. by repeat constructor.
    + rewrite E in Hnd, Hfresh. rewrite E', <- Permutation_middle, fmap_cons. by constructor.
  - destruct (sub_insert_fail _ _ _ _ Hins eq_refl) as (_ & _ & c & Hc & Hz).
    exfalso. apply compare_tiebreak_zero in Hz as [_ Ha]. simpl in Ha.
    apply Hfresh. rewrite Ha. by apply list_elem_of_fmap_2.
Qed.

Lemma remove_wf c t : mdb_wf t -> c ∈ elements t ->
  exists t' l1 l2, mdb_remove c t = Done (t', SYS_ERR_OK) /\ mdb_wf t' /\
    elements t = l1 ++ c :: l2 /\ elements t' = l1 ++ l2.
Proof.
  intros (Haa & He & Hs & Hn & Hnd) Hc. unfold mdb_remove.
  destruct (subtree_remove_present c t Haa He Hs Hn Hc) as (t' & E & Hpost & He' & l1 & l2 & E1 & E2).
  exists t', l1, l2. split_and!; [done| |done..]. split_and!; [apply Hpost|done|..]; rewrite E2, E1 in *.
  - apply StronglySorted_app in Hs as (Hx & Hs1 & Hs2). apply StronglySorted_inv in Hs2 as [Hs2 _].
    apply StronglySorted_app. split_and!; [|done..]. intros x y ? ?. apply Hx; [done|by right].
  - apply Forall_app in Hn as [? Hn]. apply Forall_cons in Hn as [_ ?]. by apply Forall_app.
  - rewrite <- Permutation_middle, fmap_cons in Hnd. by apply NoDup_cons in Hnd as [_ ?].
Qed.

Lemma wf_sane t : mdb_wf t -> mdb_is_sane t = Done true.
Proof.
  intros (Haa & He & Hs & Hn & _). unfold mdb_is_sane. by rewrite check_ok.
Qed.

(** ** Reachable states

    The database starts empty and changes by insertion of entries at new
    addresses, removal, and writes of relation bits. *)
Inductive reachable : tree -> Prop :=
| reach_empty : reachable Nil
| reach_insert t c t' ev : reachable t -> fits t -> nonnull c ->
    cte_addr c ∉ cte_addr <$> elements t -> mdb_insert c t = (t', ev) -> reachable t'
| reach_remove t c t' ev : reachable t -> c ∈ elements t -> mdb_remove c t = Done (t', ev) -> reachable t'
| reach_relations t c relations mask fuel t' : reachable t -> c ∈ elements t ->
    (length (elements t) <= fuel)%nat ->
    (forall d, d ∈ elements t -> copy_of (cte_cap c) d = true -> bits_of d = bits_of c) ->
    mdb_set_relations fuel c relations mask t = Some t' -> reachable t'.

Lemma reachable_wf t : reachable t -> mdb_wf t.
Proof.
  induction 1 as [|t c t' ev _ IH Hfit Hnn Hfresh Hins|t c t' ev _ IH Hc Hrem
                 |t c relations mask fuel t' _ IH Hc Hfuel Hsync Hset].
  - repeat split; constructor.
  - destruct (insert_wf c t IH Hfit Hnn Hfresh) as (t2 & ? & ? & E & ? & _). congruence.
  - destruct (remove_wf c t IH Hc) as (t2 & ? & ? & E & ? & _). congruence.
  - destruct (set_relations_spec fuel c relations mask t IH Hc Hfuel Hsync) as (t2 & E & ? & _).
    congruence.
Qed.

(** ** Depth *)

Fixpoint height (t : tree) : Z :=
  match t with Nil => 0 | Node l _ _ _ _ r => 1 + Z.max (height l) (height r) end.

Lemma height_level t : aa t -> 0 <= height t <= 2 * level t + 2 /\
  (level (right_of t) < level t -> height t <= 2 * level t + 1 \/ t = Nil).
Proof.
  induction t as [|l IHl c lv er e r IHr]; intros Haa; [simpl; split; [lia|auto]|].
  cbn [aa] in Haa. destruct Haa as (Hlv & Hl & Hr & Hrr & Hal & Har).
  destruct (IHl Hal) as [Hl1 _], (IHr Har) as [Hr1 Hr2]. cbn [height level right_of] in *.
  split.
  - split; [lia|]. destruct Hr as [Hr|Hr]; [|lia].
    destruct (Hr2 ltac:(lia)) as [?|Hrn]; [lia|]. subst r. simpl in *. lia.
  - intros Hlt. left. lia.
Qed.

(** * Contracts *)

(** C1: [mdb_insert] of a capability at an address that is not in the
    database succeeds, keeps the invariant (AA balance, cached subtree ends,
    order, distinct addresses), and adds exactly the new entry at its place
    in the order. *)
Theorem mdb_insert_fresh new t : mdb_wf t -> fits t -> nonnull new ->
  cte_addr new ∉ cte_addr <$> elements t ->
  exists t' l1 l2, mdb_insert new t = (t', SYS_ERR_OK) /\ mdb_wf t' /\
    elements t = l1 ++ l2 /\ elements t' = l1 ++ new :: l2.
Proof. apply insert_wf. Qed.

(** C20: [mdb_remove] of an entry of the database succeeds, fails no
    assertion, keeps the invariant, and removes exactly that entry. *)
Theorem mdb_remove_present c t : mdb_wf t -> c ∈ elements t ->
  exists t' l1 l2, mdb_remove c t = Done (t', SYS_ERR_OK) /\ mdb_wf t' /\
    elements t = l1 ++ c :: l2 /\ elements t' = l1 ++ l2.
Proof. apply remove_wf. Qed.

(** Insertion reports a duplicate exactly when the database holds an
    entry at the same place of the order, and leaves the database as it
    is; removal reports a missing entry exactly when there is none, and
    leaves the database as it is. *)
Theorem mdb_insert_remove_errors c t : mdb_wf t ->
  ((exists d, d ∈ elements t /\ compare_caps (C c) (C d) true = 0) <->
   mdb_insert c t = (t, err CAPS_ERR_MDB_DUPLICATE_ENTRY)) /\
  ((forall d, d ∈ elements t -> compare_caps (C c) (C d) true <> 0) ->
   mdb_remove c t = Done (t, err CAPS_ERR_MDB_ENTRY_NOTFOUND)).
Proof.
  intros (_ & _ & Hs & _). split; [split|].
  - intros Hex. unfold mdb_insert. destruct (mdb_sub_insert c t) as [t' ev] eqn:Hins.
    pose proof (sub_insert_total _ _ _ _ Hins Hs Hex) as Hf.
    by destruct (sub_insert_fail _ _ _ _ Hins Hf) as (-> & -> & _).
  - intros Hins. by destruct (sub_insert_fail _ _ _ _ Hins eq_refl) as (_ & _ & ?).
  - intros Hno. by apply subtree_remove_absent.
Qed.

(** C32: in every state reachable from the empty database by insertions,
    removals and changes of relation bits, [mdb_is_sane] (the whole
    invariant check of the code) runs without failing an assertion and
    accepts. *)
Theorem mdb_always_sane t : reachable t -> mdb_is_sane t = Done true.
Proof. intros Hr. by apply wf_sane, reachable_wf. Qed.

(** Inserting an entry and removing it again leads back to the same
    listing of the database. *)
Theorem mdb_insert_remove_roundtrip new t : mdb_wf t -> fits t -> nonnull new ->
  cte_addr new ∉ cte_addr <$> elements t ->
  exists t' t'', mdb_insert new t = (t', SYS_ERR_OK) /\
    mdb_remove new t' = Done (t'', SYS_ERR_OK) /\ mdb_wf t'' /\ elements t'' = elements t.
Proof.
  intros Hwf Hfit Hnn Hfresh.
  destruct (insert_wf new t Hwf Hfit Hnn Hfresh) as (t' & l1 & l2 & Hins & Hwf' & E & E').
  destruct (remove_wf new t' Hwf') as (t'' & m1 & m2 & Hrem & Hwf'' & E1 & E2).
  { rewrite E'. apply elem_of_app. right. by left. }
  exists t', t''. split_and!; auto. destruct Hwf' as (_ & _ & Hs & _).
  destruct (sorted_decompose_unique _ _ _ _ _ _ Hs E' E1) as [-> ->]. congruence.
Qed.

(** The depth of the recursion of every operation is logarithmic: a
    database whose tree has height [h] has at least [2^(h/2) - 1] entries. *)
Theorem mdb_height_logarithmic t : mdb_wf t -> 2 ^ (height t / 2) <= tsize t + 1.
Proof.
  intros (Haa & _). destruct (height_level t Haa) as [Hh _].
  pose proof (aa_size t Haa) as Hsz.
  eapply Z.le_trans; [|exact Hsz]. apply Z.pow_le_mono_r; [lia|].
  apply Z.div_le_upper_bound; lia.
Qed.

(** [mdb_find_less] returns the greatest entry below the key (or equal
    to it when [equal_ok]), [mdb_find_greater] the least one above, and
    either returns nothing only when there is no such entry. *)
Theorem mdb_find_less_greater cap equal_ok t : mdb_wf t ->
  greatest_below cap equal_ok false (elements t) (mdb_find_less cap equal_ok t) /\
  least_above cap equal_ok false (elements t) (mdb_find_greater cap equal_ok t).
Proof.
  intros (_ & _ & Hs & _). split; [by apply sub_find_less_spec|by apply sub_find_greater_spec].
Qed.

(** [mdb_get_copy] finds a capability that compares equal to the key
    whenever the database holds one, and otherwise reports that there are
    no local copies. *)
Theorem mdb_get_copy_correct cap t : mdb_wf t ->
  (exists c, mdb_get_copy cap t = (SYS_ERR_OK, Some (C c)) /\ c ∈ elements t /\
     compare_caps cap (C c) false = 0) \/
  (mdb_get_copy cap t = (err SYS_ERR_NO_LOCAL_COPIES, None) /\
   forall d, d ∈ elements t -> compare_caps cap (C d) false <> 0).
Proof.
  intros (_ & _ & Hs & _). pose proof (sub_find_equal_spec cap t Hs) as Hspec.
  unfold mdb_get_copy, mdb_find_equal. destruct (mdb_sub_find_equal cap t) as [c|].
  - left. exists c. by destruct Hspec.
  - right. done.
Qed.

(** [mdb_successor] and [mdb_predecessor] step through the database in
    order: they return the neighbours of an entry in the sorted listing,
    and nothing at its ends. *)
Theorem mdb_neighbours t l1 c l2 : mdb_wf t -> elements t = l1 ++ c :: l2 ->
  mdb_predecessor c t = last l1 /\ mdb_successor c t = head l2.
Proof. intros. split; [by eapply predecessor_last|by eapply successor_head]. Qed.

(** [mdb_find_range] on valid arguments fails no assertion, and its
    answer is right: an entry of the queried root with the class it
    reports; and, unless the early exit above [max_result] was taken, no
    entry has a higher class and the answer is the preferred one of its
    class (the innermost surrounding, the first inner, a partial overlap
    from the left).  Empty capabilities on the border of the range are not
    accounted for. *)
Theorem mdb_find_range_correct root address size max_result has_node t : mdb_wf t ->
  0 <= max_result <= MDB_RANGE_FOUND_PARTIAL -> has_node = true \/ max_result = 0 ->
  0 <= address -> 0 <= size < 2 ^ 32 -> address + size < 2 ^ 64 ->
  Forall no_wrap (elements t) -> lower_roots_below root address size (elements t) ->
  exists res, mdb_find_range root address size max_result has_node true t =
                Done (SYS_ERR_OK, res) /\
    range_post root address (address + size) max_result (elements t) res.
Proof.
  intros (_ & He & Hs & _) Hmax Hnode Ha Hsz Hend Hnw Hlow. unfold mdb_find_range, MDB_RANGE_NOT_FOUND in *.
  destruct (sub_find_range_spec root address size max_result ltac:(lia) Ha Hend ltac:(lia) t He Hs Hnw Hlow)
    as (res & E & Hpost).
  exists res. rewrite u32_small, E by lia. split; [|done].
  destruct Hnode as [-> | ->]; zdecide; simpl; by rewrite ?andb_false_r.
Qed.

(** No empty capability of the RAM forest lies at the byte asked for or
    at its end. *)
Definition no_empty_cap_at (address : Z) (cs : list cte) : Prop :=
  forall c, c ∈ cs -> cap_root (cte_cap c) = get_type_root ObjType_RAM ->
    get_size (cte_cap c) = 0 -> get_address (cte_cap c) <> address /\ get_address (cte_cap c) <> address + 1.

(** [c] covers the byte at [address]. *)
Definition covers (address : Z) (c : cte) : Prop :=
  cap_root (cte_cap c) = get_type_root ObjType_RAM /\
  get_address (cte_cap c) <= address < get_address (cte_cap c) + get_size (cte_cap c).

Lemma class_one_byte a c : 0 <= get_size (cte_cap c) ->
  (get_size (cte_cap c) = 0 -> get_address (cte_cap c) <> a /\ get_address (cte_cap c) <> a + 1) ->
  range_class a (a + 1) c =
  if (get_address (cte_cap c) <=? a) && (a <? get_address (cte_cap c) + get_size (cte_cap c)) then 1 else 0.
Proof. intros ? Hz. unfold range_class. cbv zeta. zcases; simpl; done || lia. Qed.

(** [mdb_find_cap_for_address] returns the innermost capability that
    covers a byte of physical memory, and reports [SYS_ERR_CAP_NOT_FOUND]
    only when no capability covers it, provided no empty capability lies
    there. *)
Theorem mdb_find_cap_for_address_correct address t : mdb_wf t ->
  0 <= address < 2 ^ 64 - 1 -> Forall no_wrap (elements t) ->
  lower_roots_below (get_type_root ObjType_RAM) address 1 (elements t) ->
  no_empty_cap_at address (elements t) ->
  (exists c, mdb_find_cap_for_address address t = Done (SYS_ERR_OK, Some c) /\
     c ∈ elements t /\ covers address c /\
     forall d, d ∈ elements t -> covers address d -> compare_caps (C d) (C c) true <= 0) \/
  (mdb_find_cap_for_address address t = Done (err SYS_ERR_CAP_NOT_FOUND, None) /\
   forall d, d ∈ elements t -> ~ covers address d).
Proof.
  intros (_ & He & Hs & _) Ha Hnw Hlow Hemp. unfold mdb_find_cap_for_address, mdb_find_range.
  simpl (_ || _). simpl (_ && _). cbn [negb]. change (u32 1) with 1.
  destruct (sub_find_range_spec (get_type_root ObjType_RAM) address 1 MDB_RANGE_FOUND_SURROUNDING
    ltac:(lia) ltac:(lia) ltac:(lia) ltac:(done) t He Hs Hnw Hlow) as ([ret x] & -> & [Hsound Hcomp]).
  rewrite Forall_forall in Hnw.
  assert (Hcl : forall d, d ∈ elements t -> cap_root (cte_cap d) = get_type_root ObjType_RAM ->
    range_class address (address + 1) d = 1 /\ covers address d \/
    range_class address (address + 1) d = 0 /\ ~ covers address d).
  { intros d Hd Hr. rewrite class_one_byte; [|apply (cap_end_eq d (Hnw d Hd))|by apply Hemp].
    unfold covers. zcases; simpl; [left|right..]; (split; [done|]); try tauto; lia. }
  assert (Hq : forall d, d ∈ elements t -> covers address d ->
    in_question (get_type_root ObjType_RAM) address (address + 1) d).
  { intros d Hd Hcov. destruct (Hcl d Hd ltac:(apply Hcov)) as [[Hk _]|[_ ?]]; [|done].
    split_and!; [apply Hcov|by rewrite Hk|]. unfold on_border, covers in *. lia. }
  cbn [mbind outcome_bind fst snd] in *. destruct x as [x|].
  - destruct Hsound as (Hx & Hr & Hk & Hne). left. exists x.
    destruct (Hcl x Hx Hr) as [[Hk' Hcov]|[? _]]; [|unfold MDB_RANGE_NOT_FOUND in Hne; lia]. rewrite <- Hk, Hk'. split_and!; auto.
    intros d Hd Hcd. destruct (Hcomp ltac:(rewrite <- Hk, Hk'; done) d Hd (Hq d Hd Hcd))
      as [Hlt|(y & _ & [= <-] & Hpr)].
    + destruct (Hcl d Hd ltac:(apply Hcd)) as [[? _]|[_ ?]]; [lia|done].
    + by rewrite <- Hk, Hk' in Hpr.
  - right. subst ret. split; [done|]. intros d Hd Hcd.
    destruct (Hcomp ltac:(done) d Hd (Hq d Hd Hcd)) as [Hlt|(y & _ & ? & _)]; [|done].
    destruct (Hcl d Hd ltac:(apply Hcd)) as [[Hk _]|[_ ?]]; [|done].
    rewrite Hk in Hlt. done.
Qed.

(** [mdb_traverse] on a non-empty database calls the callback on every
    entry once, in ascending or descending order, threads the caller's
    data, and stops at the first error, which it returns. *)
Theorem mdb_traverse_in_order {D} order (cb : cte -> D -> D * errval) data t : t <> Nil ->
  mdb_traverse order cb data t = Done (visit cb (in_order order t) data).
Proof. intros Hne. destruct t as [|l c lv er e r]; [done|]. cbn [mdb_traverse]. by rewrite traverse_visit. Qed.

(** [has_descendants] is true exactly when an entry that is not a copy
    follows in the same type forest and starts inside the capability. *)
Theorem has_descendants_correct c t : mdb_wf t -> no_wrap c ->
  has_descendants c t = true <-> exists d, d ∈ elements t /\ descendant d c.
Proof. intros (_ & _ & Hs & _). by apply has_descendants_spec. Qed.

(** When capabilities of a type forest are nested or disjoint,
    [mdb_find_ancestor] fails no assertion and returns the nearest
    capability that covers the given one, or nothing exactly when it has
    no ancestor. *)
Theorem mdb_find_ancestor_correct c t : mdb_wf t -> Forall no_wrap (elements t) -> no_wrap c ->
  0 < get_size (cte_cap c) ->
  lower_roots_below (cap_root (cte_cap c)) (get_address (cte_cap c)) 0 (elements t) ->
  (forall d, d ∈ elements t -> laminar c d) ->
  exists res, mdb_find_ancestor c t = Done res /\ nearest_ancestor c (elements t) res.
Proof. apply find_ancestor_spec. Qed.

(** [has_copies] is true exactly when another entry of the database is
    a copy of the capability. *)
Theorem has_copies_correct c t : mdb_wf t -> c ∈ elements t ->
  has_copies c t = true <->
  exists d, d ∈ elements t /\ cte_addr d <> cte_addr c /\ is_copy (cte_cap d) (cte_cap c) = true.
Proof. apply has_copies_spec. Qed.

(** C31: when the copies of a capability agree on their relation bits before
    the call, mdb_set_relations terminates within one step per entry, keeps
    the database well-formed and sets the relation bits of all copies of the
    capability and of nothing else. When they do not agree, the early return
    for bits that are set already can leave a copy behind; this case is not
    covered. *)
Theorem mdb_set_relations_correct fuel c relations mask t :
  mdb_wf t -> c ∈ elements t -> (length (elements t) <= fuel)%nat ->
  (forall d, d ∈ elements t -> copy_of (cte_cap c) d = true -> bits_of d = bits_of c) ->
  exists t', mdb_set_relations fuel c relations mask t = Some t' /\ mdb_wf t' /\
    elements t' =
      map_if (copy_of (cte_cap c)) (mdb_set_cte_relations relations mask) <$> elements t.
Proof. apply set_relations_spec. Qed.
End Contracts.

(** * Concrete databases *)

Module Sample.
(** A 4 KiB RAM capability, a copy of it, a frame retyped from its first
    KiB, one from its second, and a device frame elsewhere. *)
Definition ram : cte := Cte 256 (HCap 2 4096 4096 0 0 0) false false false.
Definition ram_copy : cte := Cte 320 (HCap 2 4096 4096 0 0 0) false false false.
Definition frame : cte := Cte 384 (HCap 8 4096 1024 0 0 0) false false false.
Definition frame2 : cte := Cte 448 (HCap 8 5120 1024 0 0 0) false false false.
Definition dev : cte := Cte 512 (HCap 10 16384 4096 0 0 0) false true false.
(** The endpoint of a dispatcher at the start of the RAM: it has an
    address, but no size. *)
Definition endpoint : cte := Cte 576 (HCap 7 4096 0 0 0 0) false false false.

Definition db : tree := set_init_mapping [frame; dev; ram; frame2; ram_copy] Nil.

Lemma insert_fresh c t : mdb_wf t -> cte_addr c ∉ cte_addr <$> elements t -> nonnull c ->
  fits t -> mdb_wf (mdb_insert c t).1.
Proof.
  intros Hwf Hf Hn Ht. by destruct (insert_wf c t Hwf Ht Hn Hf) as (t' & _ & _ & -> & ? & _).
Qed.

Lemma nil_wf : mdb_wf Nil.
Proof. repeat split; constructor. Qed.

Ltac fresh_insert :=
  apply insert_fresh; [|vm_decide|by vm_compute|by vm_compute].

Lemma db_wf : mdb_wf db.
Proof. unfold db, set_init_mapping. cbn [fold_left]. do 5 fresh_insert. apply nil_wf. Qed.

Lemma db_elements : elements db = [ram; ram_copy; frame; frame2; dev].
Proof. vm_eq. Qed.

Lemma db_no_wrap : Forall no_wrap (elements db).
Proof. rewrite db_elements. repeat constructor. Qed.

(** No entry of the sample has a root below that of physical memory. *)
Lemma db_lower_roots address size : lower_roots_below 1 address size (elements db).
Proof.
  intros c Hc Hlt. exfalso. rewrite db_elements in Hc. revert Hlt. case_list Hc; by vm_compute.
Qed.

Lemma db_ram : ram ∈ elements db.
Proof. rewrite db_elements. by left. Qed.

Lemma mdb_insert_fresh_witness : exists t' l1 l2,
  mdb_insert endpoint db = (t', SYS_ERR_OK) /\ mdb_wf t' /\
  elements db = l1 ++ l2 /\ elements t' = l1 ++ endpoint :: l2.
Proof.
  apply (mdb_insert_fresh endpoint db); [apply db_wf|by vm_compute|by vm_compute|].
  vm_decide.
Defined.

Lemma mdb_remove_present_witness : exists t' l1 l2,
  mdb_remove ram db = Done (t', SYS_ERR_OK) /\ mdb_wf t' /\
  elements db = l1 ++ ram :: l2 /\ elements t' = l1 ++ l2.
Proof. apply (mdb_remove_present ram db); [apply db_wf|apply db_ram]. Defined.

Lemma mdb_insert_remove_errors_witness :
  mdb_insert ram db = (db, err CAPS_ERR_MDB_DUPLICATE_ENTRY) /\
  mdb_remove endpoint db = Done (db, err CAPS_ERR_MDB_ENTRY_NOTFOUND).
Proof.
  split.
  - apply (mdb_insert_remove_errors ram db db_wf). exists ram. split; [apply db_ram|by vm_compute].
  - apply (mdb_insert_remove_errors endpoint db db_wf). rewrite db_elements. intros d Hd. case_list Hd; by vm_compute.
Defined.

Lemma db_reachable : reachable db.
Proof.
  unfold db, set_init_mapping. cbn [fold_left].
  repeat (eapply reach_insert; [| | | |apply surjective_pairing];
    [|by vm_compute|by vm_compute|vm_decide]).
  apply reach_empty.
Qed.

Lemma mdb_always_sane_witness : mdb_is_sane db = Done true.
Proof. apply (mdb_always_sane db), db_reachable. Defined.

Lemma mdb_insert_remove_roundtrip_witness : exists t' t'',
  mdb_insert endpoint db = (t', SYS_ERR_OK) /\ mdb_remove endpoint t' = Done (t'', SYS_ERR_OK) /\
  mdb_wf t'' /\ elements t'' = elements db.
Proof.
  apply (mdb_insert_remove_roundtrip endpoint db); [apply db_wf|by vm_compute|by vm_compute|].
  vm_decide.
Defined.

Lemma mdb_height_logarithmic_witness : height db = 3 /\ 2 ^ (height db / 2) <= tsize db + 1.
Proof. split; [vm_eq|apply (mdb_height_logarithmic db), db_wf]. Defined.

Lemma mdb_find_less_greater_witness :
  mdb_find_less (C frame) false db = Some ram_copy /\
  greatest_below (C frame) false false (elements db) (mdb_find_less (C frame) false db).
Proof. split; [vm_eq|exact (proj1 (mdb_find_less_greater (C frame) false db db_wf))]. Defined.

Lemma mdb_get_copy_correct_witness :
  mdb_get_copy (0, cte_cap ram) db = (SYS_ERR_OK, Some (C ram)) /\
  ((exists c, mdb_get_copy (0, cte_cap ram) db = (SYS_ERR_OK, Some (C c)) /\ c ∈ elements db /\
     compare_caps (0, cte_cap ram) (C c) false = 0) \/
   (mdb_get_copy (0, cte_cap ram) db = (err SYS_ERR_NO_LOCAL_COPIES, None) /\
    forall d, d ∈ elements db -> compare_caps (0, cte_cap ram) (C d) false <> 0)).
Proof. split; [vm_eq|exact (mdb_get_copy_correct (0, cte_cap ram) db db_wf)]. Defined.

Lemma mdb_neighbours_witness :
  mdb_predecessor frame db = Some ram_copy /\ mdb_successor frame db = Some frame2.
Proof.
  apply (mdb_neighbours db [ram; ram_copy] frame [frame2; dev]); [apply db_wf|apply db_elements].
Defined.

Lemma mdb_find_range_correct_witness :
  exists res, mdb_find_range 1 4096 2048 MDB_RANGE_FOUND_PARTIAL true true db =
                Done (SYS_ERR_OK, res) /\
    range_post 1 4096 (4096 + 2048) MDB_RANGE_FOUND_PARTIAL (elements db) res.
Proof.
  apply (mdb_find_range_correct 1 4096 2048 MDB_RANGE_FOUND_PARTIAL true db);
    [apply db_wf|split; by vm_compute|by left|lia..|apply db_no_wrap|apply db_lower_roots].
Defined.

Lemma mdb_find_cap_for_address_correct_witness :
  (exists c, mdb_find_cap_for_address 5200 db = Done (SYS_ERR_OK, Some c) /\
     c ∈ elements db /\ covers 5200 c /\
     forall d, d ∈ elements db -> covers 5200 d -> compare_caps (C d) (C c) true <= 0) \/
  (mdb_find_cap_for_address 5200 db = Done (err SYS_ERR_CAP_NOT_FOUND, None) /\
   forall d, d ∈ elements db -> ~ covers 5200 d).
Proof.
  apply (mdb_find_cap_for_address_correct 5200 db);
    [apply db_wf|lia|apply db_no_wrap|apply db_lower_roots|].
  intros c Hc _ Hz. exfalso. rewrite db_elements in Hc. revert Hz. case_list Hc; by vm_compute.
Defined.

Lemma mdb_traverse_in_order_witness :
  mdb_traverse MDB_TRAVERSAL_ORDER_DESCENDING (fun c acc => (cte_addr c :: acc, SYS_ERR_OK)) [] db =
  Done ([256; 320; 384; 448; 512], SYS_ERR_OK).
Proof.
  rewrite (mdb_traverse_in_order MDB_TRAVERSAL_ORDER_DESCENDING _ [] db); [vm_eq|].
  intros E%(f_equal is_nil). revert E. by vm_compute.
Defined.

Lemma has_descendants_correct_witness : exists d, d ∈ elements db /\ descendant d ram.
Proof. apply (has_descendants_correct ram db); [apply db_wf|by vm_compute|by vm_compute]. Defined.

Lemma mdb_find_ancestor_correct_witness :
  exists res, mdb_find_ancestor frame2 db = Done res /\ nearest_ancestor frame2 (elements db) res.
Proof.
  apply (mdb_find_ancestor_correct frame2 db);
    [apply db_wf|apply db_no_wrap|by vm_compute|by vm_compute|apply db_lower_roots|].
  rewrite db_elements. intros d Hd. case_list Hd; unfold laminar; vm_compute; intuition congruence.
Defined.

Lemma has_copies_correct_witness :
  exists d, d ∈ elements db /\ cte_addr d <> cte_addr ram /\ is_copy (cte_cap d) (cte_cap ram) = true.
Proof. apply (has_copies_correct ram db); [apply db_wf|apply db_ram|by vm_compute]. Defined.

Lemma mdb_set_relations_correct_witness :
  exists t', mdb_set_relations 5 ram RRELS_DESC_BIT RRELS_DESC_BIT db = Some t' /\ mdb_wf t' /\
    elements t' = map_if (copy_of (cte_cap ram))
      (mdb_set_cte_relations RRELS_DESC_BIT RRELS_DESC_BIT) <$> elements db.
Proof.
  apply (mdb_set_relations_correct 5 ram RRELS_DESC_BIT RRELS_DESC_BIT db);
    [apply db_wf|apply db_ram|rewrite db_elements; simpl; lia|].
  rewrite db_elements. intros d Hd. case_list Hd; by vm_compute.
Defined.

(** the endpoint of a dispatcher has an address and no size, and hides
    the capability that covers its address: with a RAM capability, an
    endpoint at its first byte and a later device frame in the database,
    [mdb_find_cap_for_address] takes the early exit with the class of the
    endpoint and reports that no capability covers that byte. *)
Theorem find_cap_for_address_misses_endpoint : exists t,
  reachable t /\ elements t = [ram; endpoint; dev] /\ covers 4096 ram /\
  exists node, mdb_find_cap_for_address 4096 t = Done (err SYS_ERR_CAP_NOT_FOUND, node).
Proof.
  exists (set_init_mapping [endpoint; ram; dev] Nil). split_and!.
  - unfold set_init_mapping. cbn [fold_left].
    repeat (eapply reach_insert; [| | | |apply surjective_pairing];
      [|by vm_compute|by vm_compute|vm_decide]).
    apply reach_empty.
  - vm_eq.
  - by vm_compute.
  - exists (Some endpoint). vm_eq.
Qed.
End Sample.
