(* ===== verification/Slab.v ===== *)
(** The slab allocator, lib/aos/slab.c.

    A slab is a region of memory with a header and blocks of one size; the
    free blocks form a linked list through their first word.  The words the
    allocator writes are a finite map from addresses to pointers; pointers
    and sizes are those of ARMv7 (32 bits). *)
From S2P Require Import Prelude.

(** * Data *)

Definition UINT32_MAX : Z := 2 ^ 32 - 1.
Definition NULL : Z := 0.

(** [sizeof(void * )] and [sizeof(struct slab_head)] *)
Definition SLAB_BLOCK_HDRSIZE : Z := 4.
Definition sizeof_slab_head : Z := 16.

Definition SLAB_REAL_BLOCKSIZE (blocksize : Z) : Z :=
  if SLAB_BLOCK_HDRSIZE <? blocksize then blocksize else SLAB_BLOCK_HDRSIZE.

(** [struct slab_head], with its address. *)
Record slab_head := SlabHead { sh_addr : Z; total : Z; free : Z; blocks : Z }.

(** [struct slab_allocator]; the list of slabs, newest first, and the
    [next] words of the blocks.  The refill function is an argument of
    [slab_alloc]. *)
Record slab_allocator := SlabAllocator {
  slabs : list slab_head;
  blocksize : Z;
  next : gmap Z Z
}.

(** [bh->next] *)
Definition read_next (a : gmap Z Z) (bh : Z) : Z := a !!! bh.

(** * Operations *)

Definition slab_init (bs : Z) : slab_allocator := SlabAllocator [] (SLAB_REAL_BLOCKSIZE bs) ∅.

(** The loop that links the blocks, [n] more after [bh]. *)
Fixpoint slab_link (n : nat) (bs bh : Z) (nx : gmap Z Z) : gmap Z Z :=
  match n with
  | O => <[bh := NULL]> nx
  | S n => slab_link n bs (u32 (bh + bs)) (<[bh := u32 (bh + bs)]> nx)
  end.

Definition slab_grow (a : slab_allocator) (buf buflen : Z) : outcome slab_allocator :=
  ASSERT (sizeof_slab_head <? buflen);
  let len := u32 (buflen - sizeof_slab_head) in
  let first := u32 (buf + sizeof_slab_head) in
  let n := len `div` blocksize a in
  ASSERT (n <=? UINT32_MAX);
  ASSERT (0 <? n);
  let nx := slab_link (Z.to_nat (n - 1)) (blocksize a) first (next a) in
  Done (SlabAllocator (SlabHead buf n n first :: slabs a) (blocksize a) nx).

(** Dequeue a block from the first slab that has one: [None] when every
    slab is full. *)
Fixpoint slab_dequeue (nx : gmap Z Z) (shs : list slab_head)
  : outcome (option (Z * list slab_head)) :=
  match shs with
  | [] => Done None
  | sh :: shs =>
    if free sh =? 0 then
      r ← slab_dequeue nx shs;
      Done (match r with Some (b, shs') => Some (b, sh :: shs') | None => None end)
    else
      ASSERT (negb (blocks sh =? NULL));
      Done (Some (blocks sh,
        SlabHead (sh_addr sh) (total sh) (u32 (free sh - 1)) (read_next nx (blocks sh)) :: shs))
  end.

(** [refill] is [slabs->refill_func]; the result is the block or NULL. *)
Definition slab_alloc (refill : option (slab_allocator -> outcome (slab_allocator * errval)))
    (a : slab_allocator) : outcome (slab_allocator * Z) :=
  r ← slab_dequeue (next a) (slabs a);
  match r with
  | Some (b, shs) => Done (SlabAllocator shs (blocksize a) (next a), b)
  | None =>
    match refill with
    | None => Done (a, NULL)
    | Some f =>
      '(a, ev) ← f a;
      if err_is_fail ev then Done (a, NULL)
      else
        r ← slab_dequeue (next a) (slabs a);
        match r with
        | Some (b, shs) => Done (SlabAllocator shs (blocksize a) (next a), b)
        | None => Done (a, NULL)
        end
    end
  end.

(** Does the block fall inside the slab? *)
Definition in_slab (bs block : Z) (sh : slab_head) : bool :=
  let slab_limit := u32 (sh_addr sh + sizeof_slab_head + bs * total sh) in
  (sh_addr sh <? block) && (block <? slab_limit).

(** Enqueue the block in its slab; the second result is the head of that
    slab's list before, the new block's [next]. *)
Fixpoint slab_enqueue (bs block : Z) (shs : list slab_head) : outcome (list slab_head * Z) :=
  match shs with
  | [] => Fault AssertionFailed
  | sh :: shs =>
    if in_slab bs block sh then
      let sh' := SlabHead (sh_addr sh) (total sh) (u32 (free sh + 1)) block in
      ASSERT (free sh' <=? total sh');
      Done (sh' :: shs, blocks sh)
    else
      '(shs', nx) ← slab_enqueue bs block shs;
      Done (sh :: shs', nx)
  end.

Definition slab_free (a : slab_allocator) (block : Z) : outcome slab_allocator :=
  if block =? NULL then Done a
  else
    '(shs, nx) ← slab_enqueue (blocksize a) block (slabs a);
    Done (SlabAllocator shs (blocksize a) (<[block := nx]> (next a))).

Definition slab_freecount (a : slab_allocator) : Z :=
  fold_left (fun ret sh => u32 (ret + free sh)) (slabs a) 0.

(** [slab_refill_pages]: [frame_alloc] (the frame's error and size) and
    [map_frame] (the error and the address) are the memory and paging calls
    it makes. *)
Definition slab_refill_pages (frame_alloc map_frame : Z -> errval * Z) (a : slab_allocator)
    (bytes : Z) : outcome (slab_allocator * errval) :=
  let '(ev, frame_size) := frame_alloc bytes in
  _ ← CHECK ev;
  ASSERT (bytes =? frame_size);
  let '(ev, buf) := map_frame bytes in
  _ ← CHECK ev;
  a ← slab_grow a buf bytes;
  Done (a, SYS_ERR_OK).

Definition BASE_PAGE_SIZE : Z := 4096.

Definition slab_default_refill (frame_alloc map_frame : Z -> errval * Z) (a : slab_allocator)
  : outcome (slab_allocator * errval) :=
  slab_refill_pages frame_alloc map_frame a BASE_PAGE_SIZE.

(** * Invariant *)

(** The blocks of a slab, and the end of its memory. *)
Definition slab_blocks (bs : Z) (sh : slab_head) : list Z :=
  (fun i => sh_addr sh + sizeof_slab_head + bs * i) <$> seqZ 0 (total sh).
Definition slab_end (bs : Z) (sh : slab_head) : Z := sh_addr sh + sizeof_slab_head + bs * total sh.

(** [p] is the head of the linked list of the blocks [fl]. *)
Fixpoint chain (nx : gmap Z Z) (p : Z) (fl : list Z) : Prop :=
  match fl with
  | [] => p = NULL
  | b :: fl => p = b /\ exists q, nx !! b = Some q /\ chain nx q fl
  end.

(** A slab whose free blocks are [fl]. *)
Definition slab_ok (nx : gmap Z Z) (bs : Z) (sh : slab_head) (fl : list Z) : Prop :=
  0 < sh_addr sh /\ 0 < total sh /\ slab_end bs sh < 2 ^ 32 /\
  chain nx (blocks sh) fl /\ free sh = Z.of_nat (length fl) /\ NoDup fl /\
  (forall b, b ∈ fl -> b ∈ slab_blocks bs sh).

Definition slabs_disjoint (bs : Z) (x y : slab_head) : Prop :=
  slab_end bs x <= sh_addr y \/ slab_end bs y <= sh_addr x.

(** The allocator's invariant; [fls] are the free blocks, slab by slab. *)
Definition slab_inv (a : slab_allocator) (fls : list (list Z)) : Prop :=
  SLAB_BLOCK_HDRSIZE <= blocksize a /\
  Forall2 (slab_ok (next a) (blocksize a)) (slabs a) fls /\
  StronglySorted (slabs_disjoint (blocksize a)) (slabs a).

Definition all_blocks (a : slab_allocator) : list Z := slabs a ≫= slab_blocks (blocksize a).

Lemma elem_of_slab_blocks bs sh b :
  b ∈ slab_blocks bs sh <->
  exists i, 0 <= i < total sh /\ b = sh_addr sh + sizeof_slab_head + bs * i.
Proof.
  unfold slab_blocks. rewrite list_elem_of_fmap. setoid_rewrite elem_of_seqZ.
  split; intros (i & ? & ?); exists i; split; auto; lia.
Qed.

Lemma block_range bs sh b : 0 < bs -> b ∈ slab_blocks bs sh ->
  sh_addr sh + sizeof_slab_head <= b /\ b + bs <= slab_end bs sh.
Proof. rewrite elem_of_slab_blocks. unfold slab_end. intros ? (i & ? & ->). split; nia. Qed.

Lemma in_slab_true nx bs sh fl b : 0 < bs -> slab_ok nx bs sh fl -> b ∈ slab_blocks bs sh ->
  in_slab bs b sh = true.
Proof.
  intros Hbs (? & ? & Hend & _) Hb. apply block_range in Hb as [Hb1 Hb2]; [|done].
  unfold in_slab. unfold slab_end, sizeof_slab_head in *. rewrite u32_small by nia. by zdecide.
Qed.

Lemma in_slab_other nx bs sh sh' fl fl' b : 0 < bs -> slab_ok nx bs sh fl -> slab_ok nx bs sh' fl' ->
  slabs_disjoint bs sh sh' -> b ∈ slab_blocks bs sh' -> in_slab bs b sh = false.
Proof.
  intros Hbs (? & ? & Hend & _) (? & ? & ? & _) Hdisj Hb. apply block_range in Hb as [Hb1 Hb2]; [|done].
  unfold in_slab. rewrite u32_small by (unfold slab_end, sizeof_slab_head in *; nia).
  unfold slabs_disjoint, slab_end, sizeof_slab_head in *.
  destruct (Z.ltb_spec (sh_addr sh) b); [|done]. simpl. apply Z.ltb_ge. lia.
Qed.

(** Writes outside of a list leave the list alone. *)
Lemma chain_ext nx nx' p fl : (forall b, b ∈ fl -> nx' !! b = nx !! b) ->
  chain nx p fl -> chain nx' p fl.
Proof.
  revert p. induction fl as [|x fl IH]; intros p Hext Hch; [done|]. cbn [chain] in *.
  destruct Hch as (-> & q & Hq & Hch). split; [done|]. exists q. split.
  - rewrite Hext; [done|by left].
  - apply IH; [|done]. intros b Hb. apply Hext. by right.
Qed.

Lemma slab_ok_ext nx nx' bs sh fl : (forall b, b ∈ slab_blocks bs sh -> nx' !! b = nx !! b) ->
  slab_ok nx bs sh fl -> slab_ok nx' bs sh fl.
Proof.
  intros Hext (? & ? & ? & Hch & ? & ? & Hsub). unfold slab_ok. split_and!; auto.
  eapply chain_ext; [|exact Hch]. auto.
Qed.

Lemma chain_insert nx p fl b v : b ∉ fl -> chain nx p fl -> chain (<[b := v]> nx) p fl.
Proof. intros Hni. apply chain_ext. intros x Hx. apply lookup_insert_ne. by intros ->. Qed.

Lemma slab_ok_insert nx bs sh fl b v : b ∉ slab_blocks bs sh -> slab_ok nx bs sh fl ->
  slab_ok (<[b := v]> nx) bs sh fl.
Proof. intros Hni. apply slab_ok_ext. intros x Hx. apply lookup_insert_ne. by intros ->. Qed.

(** Blocks of disjoint slabs are different. *)
Lemma disjoint_blocks nx bs sh sh' fl fl' b : 0 < bs -> slab_ok nx bs sh fl -> slab_ok nx bs sh' fl' ->
  slabs_disjoint bs sh sh' -> b ∈ slab_blocks bs sh -> b ∉ slab_blocks bs sh'.
Proof.
  intros Hbs Hok Hok' Hd Hb Hb'. pose proof (in_slab_true _ _ _ _ _ Hbs Hok Hb) as Hin.
  by rewrite (in_slab_other nx bs sh sh' fl fl' b) in Hin.
Qed.

(** * The operations on the list of slabs *)

Definition same_extent (x y : slab_head) : Prop := sh_addr x = sh_addr y /\ total x = total y.

Lemma same_extent_disjoint bs xs ys : Forall2 same_extent xs ys ->
  StronglySorted (slabs_disjoint bs) xs -> StronglySorted (slabs_disjoint bs) ys.
Proof.
  induction 1 as [|x y xs ys [Ha Ht] Hxy IH]; intros Hs; [constructor|].
  apply StronglySorted_inv in Hs as [Hs Hx]. constructor; [auto|]. clear IH Hs.
  induction Hxy as [|x' y' xs ys [Ha' Ht'] _ IH]; [constructor|].
  apply Forall_cons in Hx as [Hx Hxs]. constructor; [|auto].
  unfold slabs_disjoint, slab_end in *. by rewrite <- Ha, <- Ht, <- Ha', <- Ht'.
Qed.

Lemma same_extent_blocks bs xs ys : Forall2 same_extent xs ys ->
  (xs ≫= slab_blocks bs) = (ys ≫= slab_blocks bs).
Proof.
  induction 1 as [|x y xs ys [Ha Ht] _ IH]; [done|]. cbn [mbind list_bind]. rewrite IH.
  unfold slab_blocks. by rewrite Ha, Ht.
Qed.

Lemma same_extent_refl xs : Forall2 same_extent xs xs.
Proof. induction xs; constructor; auto. by split. Qed.

Lemma dequeue_empty nx bs shs fls : Forall2 (slab_ok nx bs) shs fls -> concat fls = [] ->
  slab_dequeue nx shs = Done None.
Proof.
  induction 1 as [|sh fl shs fls Hok _ IH]; intros E; [done|]. simpl in E.
  apply app_eq_nil in E as [-> E]. destruct Hok as (_ & _ & _ & _ & Hf & _). cbn [slab_dequeue].
  rewrite Hf. simpl. by rewrite IH.
Qed.

Section Lists.
Variables (nx : gmap Z Z) (bs : Z).
Hypothesis Hbs : SLAB_BLOCK_HDRSIZE <= bs.

Lemma bs_pos : 0 < bs.
Proof. unfold SLAB_BLOCK_HDRSIZE in Hbs. lia. Qed.
Local Hint Resolve bs_pos : core.

Lemma slab_counts sh fl : slab_ok nx bs sh fl ->
  free sh <= total sh < 2 ^ 32 /\
  (forall b, b ∈ slab_blocks bs sh -> b ∉ fl -> free sh < total sh).
Proof.
  intros (Ha & Ht & He & _ & Hf & Hnd & Hsub). pose proof bs_pos.
  unfold slab_end, sizeof_slab_head in He.
  assert (Hlen : forall l, NoDup l -> (forall x, x ∈ l -> x ∈ slab_blocks bs sh) ->
    Z.of_nat (length l) <= total sh).
  { intros l Hl Hin. assert (Hle : (length l <= length (slab_blocks bs sh))%nat)
      by (by apply submseteq_length, NoDup_submseteq).
    unfold slab_blocks in Hle. rewrite length_fmap, length_seqZ in Hle. lia. }
  split.
  - rewrite Hf. specialize (Hlen fl Hnd Hsub). nia.
  - intros b Hb Hni. specialize (Hlen (b :: fl)). simpl in Hlen.
    assert (Z.of_nat (S (length fl)) <= total sh); [|lia].
    apply Hlen; [by constructor|]. intros x [->|Hx]%elem_of_cons; auto.
Qed.

Lemma slab_block_nonnull sh fl b : slab_ok nx bs sh fl -> b ∈ slab_blocks bs sh -> 0 < b < 2 ^ 32.
Proof.
  intros (? & ? & ? & _) Hb. apply block_range in Hb; [|auto]. unfold sizeof_slab_head in *.
  pose proof bs_pos. lia.
Qed.

Lemma slab_pop sh b fl : slab_ok nx bs sh (b :: fl) ->
  (free sh =? 0) = false /\ blocks sh = b /\ b <> NULL /\ nx !! b = Some (read_next nx b) /\
  slab_ok nx bs (SlabHead (sh_addr sh) (total sh) (u32 (free sh - 1)) (read_next nx (blocks sh))) fl.
Proof.
  intros Hok. pose proof (slab_counts _ _ Hok) as [Hc _].
  pose proof Hok as (Ha & Ht & He & Hch & Hf & Hnd & Hsub). cbn [chain] in Hch.
  destruct Hch as (Hb & q & Hq & Hch).
  assert (Hb0 : 0 < b < 2 ^ 32) by (eapply slab_block_nonnull; [exact Hok|apply Hsub; by left]).
  apply NoDup_cons in Hnd as [_ Hnd]. unfold read_next. rewrite Hb, lookup_total_alt, Hq. simpl in Hf |- *.
  split_and!; [zcases; lia|done|unfold NULL; lia|done|].
  split_and!; simpl; auto.
  - unwrap. lia.
  - intros x Hx. apply Hsub. by right.
Qed.

Lemma dequeue_some shs fls b rest : Forall2 (slab_ok nx bs) shs fls -> concat fls = b :: rest ->
  exists shs' fls', slab_dequeue nx shs = Done (Some (b, shs')) /\ concat fls' = rest /\
    Forall2 (slab_ok nx bs) shs' fls' /\ Forall2 same_extent shs shs' /\ b <> NULL.
Proof.
  intros Hok. revert b rest. induction Hok as [|sh fl shs fls Hsh Hok IH]; intros b rest E; [done|].
  cbn [slab_dequeue concat] in *. destruct fl as [|x fl].
  - destruct (IH _ _ E) as (shs' & fls' & -> & Hrest & Hok' & Hext & Hb).
    destruct Hsh as (? & ? & ? & ? & Hf & Hsh). rewrite Hf. simpl.
    exists (sh :: shs'), ([] :: fls'). split_and!; auto; constructor; auto; [|by split].
    by repeat split; try apply Hsh.
  - injection E as -> <-. destruct (slab_pop _ _ _ Hsh) as (-> & Hb & Hne & _ & Hsh').
    rewrite Hb in *. rewrite assert_true_neq by done. eexists _, (fl :: fls). split_and!; eauto.
    constructor; [by split|apply same_extent_refl].
Qed.

Lemma slab_push sh fl b : slab_ok nx bs sh fl -> b ∈ slab_blocks bs sh -> b ∉ fl ->
  u32 (free sh + 1) = free sh + 1 /\ (free sh + 1 <=? total sh) = true /\
  slab_ok (<[b := blocks sh]> nx) bs (SlabHead (sh_addr sh) (total sh) (free sh + 1) b) (b :: fl).
Proof.
  intros Hok Hb Hni. pose proof (slab_counts _ _ Hok) as [Hc Hlt]. specialize (Hlt b Hb Hni).
  destruct Hok as (Ha & Ht & He & Hch & Hf & Hnd & Hsub).
  split_and!; [apply u32_small; lia|zcases; lia|]. split_and!; simpl; auto.
  - split; [done|]. exists (blocks sh). split; [by rewrite lookup_insert_eq|]. by apply chain_insert.
  - lia.
  - by constructor.
  - intros x [->|Hx]%elem_of_cons; [done|]. by apply Hsub.
Qed.

Lemma enqueue_spec shs fls b : Forall2 (slab_ok nx bs) shs fls ->
  StronglySorted (slabs_disjoint bs) shs -> b ∈ (shs ≫= slab_blocks bs) -> b ∉ concat fls ->
  exists shs' fls' q, slab_enqueue bs b shs = Done (shs', q) /\ concat fls' ≡ₚ b :: concat fls /\
    Forall2 (slab_ok (<[b := q]> nx) bs) shs' fls' /\ Forall2 same_extent shs shs'.
Proof.
  induction 1 as [|sh fl shs fls Hsh Hok IH]; intros Hs Hb Hni; [by apply elem_of_nil in Hb|].
  apply StronglySorted_inv in Hs as [Hs Hd]. cbn [slab_enqueue concat mbind list_bind] in *.
  rewrite not_elem_of_app in Hni. destruct Hni as [Hni1 Hni2].
  apply elem_of_app in Hb as [Hb|Hb].
  - rewrite (in_slab_true _ _ _ _ _ bs_pos Hsh Hb).
    destruct (slab_push _ _ _ Hsh Hb Hni1) as (-> & Hle & Hsh'). cbn [free total]. rewrite Hle.
    eexists _, ((b :: fl) :: fls), _. split_and!; [done|done| |constructor; [by split|apply same_extent_refl]].
    constructor; [done|]. clear -Hok Hd Hb Hsh Hbs. revert Hd.
    induction Hok as [|sh' fl' shs fls Hsh2 _ IH]; intros Hd; [constructor|].
    apply Forall_cons in Hd as [Hd1 Hd]. constructor; [|auto]. apply slab_ok_insert; [|done].
    by eapply (disjoint_blocks nx bs sh sh'); [apply bs_pos|..].
  - assert (in_slab bs b sh = false /\ b ∉ slab_blocks bs sh) as [-> Hnb].
    { apply list_elem_of_bind in Hb as (sh' & Hb & Hsh').
      rewrite Forall_forall in Hd. specialize (Hd sh' Hsh').
      apply list_elem_of_lookup in Hsh' as [i Hi].
      destruct (Forall2_lookup_l _ _ _ _ _ Hok Hi) as (fl' & _ & Hok').
      split; [by eapply (in_slab_other nx bs sh sh'); [apply bs_pos|..]|].
      intros Hb'. by eapply (disjoint_blocks nx bs sh sh'); [apply bs_pos|..]. }
    destruct (IH Hs Hb Hni2) as (shs' & fls' & q & -> & Hp & Hok' & Hext). step.
    exists (sh :: shs'), (fl :: fls'), q. split_and!; [done|..].
    + simpl. rewrite Hp. by rewrite Permutation_middle.
    + constructor; [by apply slab_ok_insert|done].
    + constructor; [by split|done].
Qed.

(** Enqueueing the block that was just dequeued restores the slabs. *)
Lemma enqueue_dequeue shs fls b shs' : Forall2 (slab_ok nx bs) shs fls ->
  StronglySorted (slabs_disjoint bs) shs -> slab_dequeue nx shs = Done (Some (b, shs')) ->
  slab_enqueue bs b shs' = Done (shs, read_next nx b) /\ nx !! b = Some (read_next nx b).
Proof.
  intros Hok. revert shs'. induction Hok as [|sh fl shs fls Hsh Hok IH]; intros shs' Hs Hde; [done|].
  apply StronglySorted_inv in Hs as [Hs Hd]. cbn [slab_dequeue] in Hde. destruct fl as [|x fl].
  - destruct Hsh as (Ha & Ht & He & Hch & Hf & Hsh). rewrite Hf in Hde. simpl in Hde.
    destruct (slab_dequeue nx shs) as [[[b' shs'']|]|] eqn:E; try done. injection Hde as <- <-.
    destruct (IH _ Hs eq_refl) as [IH1 IH2]. split; [|done]. cbn [slab_enqueue].
    enough (in_slab bs b' sh = false) as -> by (by rewrite IH1).
    destruct (concat fls) as [|y rest] eqn:Efl; [by rewrite (dequeue_empty _ _ _ _ Hok Efl) in E|].
    destruct (dequeue_some _ _ _ _ Hok Efl) as (s2 & f2 & E2 & _). rewrite E in E2. injection E2 as -> ->.
    assert (Hy : y ∈ concat fls) by (rewrite Efl; by left).
    apply elem_of_concat in Hy as (fl' & Hy & Hfl'). apply list_elem_of_lookup in Hfl' as [i Hi].
    destruct (Forall2_lookup_r _ _ _ _ _ Hok Hi) as (sh' & Hsh' & Hok').
    rewrite Forall_forall in Hd. apply list_elem_of_lookup_2 in Hsh'.
    eapply (in_slab_other nx bs sh sh' [] fl'); [apply bs_pos| |done|by apply Hd|by apply Hok'].
    by repeat split; try apply Hsh.
  - destruct (slab_pop _ _ _ Hsh) as (Hz & Hb & Hne & Hq & Hsh'). rewrite Hz in Hde.
    rewrite Hb in *. rewrite assert_true_neq in Hde by done. injection Hde as <- <-. split; [|done].
    cbn [slab_enqueue]. pose proof (slab_counts _ _ Hsh) as [Hc _].
    assert (Hin : x ∈ slab_blocks bs sh) by (apply Hsh; by left).
    pose proof (in_slab_true _ _ _ _ _ bs_pos Hsh' Hin) as ->. cbn [free total sh_addr].
    destruct Hsh as (_ & _ & _ & _ & Hf & _). simpl in Hf.
    rewrite (u32_small (free sh - 1)), u32_small by lia.
    replace (free sh - 1 + 1) with (free sh) by lia. rewrite assert_true by (zcases; lia).
    destruct sh; simpl in *; by subst.
Qed.
End Lists.

(** * Growing *)

Section Grow.
Variables (bs : Z).
Hypothesis Hbs : 0 < bs.

Lemma slab_link_other n bh nx k : bh + bs * Z.of_nat n < 2 ^ 32 -> 0 <= bh ->
  k < bh \/ bh + bs * Z.of_nat n < k -> slab_link n bs bh nx !! k = nx !! k.
Proof.
  revert bh nx. induction n as [|n IH]; intros bh nx Hlt H0 Hk; cbn [slab_link].
  - apply lookup_insert_ne. lia.
  - rewrite u32_small by nia. rewrite IH by nia. apply lookup_insert_ne. nia.
Qed.

Lemma slab_link_chain n bh nx : bh + bs * Z.of_nat n < 2 ^ 32 -> 0 <= bh ->
  chain (slab_link n bs bh nx) bh ((fun i => bh + bs * i) <$> seqZ 0 (Z.of_nat n + 1)).
Proof.
  revert bh nx. induction n as [|n IH]; intros bh nx Hlt H0; cbn [slab_link].
  - change (Z.of_nat 0 + 1) with 1. simpl. rewrite Z.mul_0_r, Z.add_0_r. split; [done|].
    exists NULL. by rewrite lookup_insert_eq.
  - rewrite seqZ_cons by lia. rewrite fmap_cons. cbn [chain]. rewrite u32_small by nia.
    split; [lia|]. exists (bh + bs). split.
    + rewrite Z.mul_0_r, Z.add_0_r, slab_link_other, lookup_insert_eq by nia. done.
    + specialize (IH (bh + bs) (<[bh:=bh + bs]> nx) ltac:(nia) ltac:(lia)).
      replace (Z.pred (Z.of_nat (S n) + 1)) with (Z.of_nat n + 1) by lia.
      change (Z.succ 0) with (1 + 0). rewrite <- fmap_add_seqZ, <- list_fmap_compose.
      erewrite list_fmap_ext; [exact IH|]. intros i x _. simpl. lia.
Qed.
End Grow.

Lemma grow_spec a fls buf buflen : slab_inv a fls ->
  sizeof_slab_head + blocksize a <= buflen -> 0 < buf -> buf + buflen < 2 ^ 32 ->
  (forall sh, sh ∈ slabs a -> buf + buflen <= sh_addr sh \/ slab_end (blocksize a) sh <= buf) ->
  exists a' sh, slab_grow a buf buflen = Done a' /\ slabs a' = sh :: slabs a /\
    sh_addr sh = buf /\ total sh = (buflen - sizeof_slab_head) `div` blocksize a /\
    blocksize a' = blocksize a /\
    slab_inv a' (slab_blocks (blocksize a) sh :: fls).
Proof.
  intros (Hbs & Hok & Hs) Hlen Hbuf Hend Hdisj. unfold SLAB_BLOCK_HDRSIZE in Hbs.
  unfold slab_grow, sizeof_slab_head in *. rewrite (u32_small (buflen - 16)), (u32_small (buf + 16)) by lia.
  set (bs := blocksize a) in *. set (n := (buflen - 16) `div` bs).
  assert (Hn : 1 <= n) by (apply Z.div_le_lower_bound; lia).
  assert (Hnb : bs * n <= buflen - 16) by (apply Z.mul_div_le; lia).
  rewrite !assert_true by (unfold UINT32_MAX; zcases; nia). step.
  eexists _, (SlabHead buf n n (buf + 16)). split_and!; try done.
  set (nx := slab_link _ _ _ _).
  assert (Hother : forall k, k < buf + 16 \/ buf + buflen <= k -> nx !! k = next a !! k).
  { intros k Hk. apply slab_link_other; [lia|nia|lia|nia]. }
  split; [done|]. cbn [next blocksize slabs]. split.
  - constructor.
    + split_and!; cbn [sh_addr total free blocks]; [lia|lia|unfold slab_end, sizeof_slab_head; simpl; lia|..].
      * unfold nx, slab_blocks. cbn [sh_addr total].
        pose proof (slab_link_chain bs ltac:(lia) (Z.to_nat (n - 1)) (buf + 16) (next a)
          ltac:(nia) ltac:(lia)) as Hch.
        replace (Z.of_nat (Z.to_nat (n - 1)) + 1) with n in Hch by lia. exact Hch.
      * unfold slab_blocks. rewrite length_fmap, length_seqZ. simpl. lia.
      * apply NoDup_fmap; [|apply NoDup_seqZ]. intros x y. simpl. nia.
      * done.
    + clear Hs. induction Hok as [|sh fl shs fls Hsh _ IH]; [constructor|]. constructor.
      * apply (slab_ok_ext (next a)); [|done]. intros b Hb. apply Hother.
        apply block_range in Hb as [??]; [|lia]. specialize (Hdisj sh ltac:(by left)).
        unfold sizeof_slab_head in *. lia.
      * apply IH. intros sh' ?. apply Hdisj. by right.
  - constructor; [done|]. apply Forall_forall. intros sh Hsh. specialize (Hdisj sh Hsh).
    unfold slabs_disjoint, slab_end, sizeof_slab_head in *. simpl. lia.
Qed.

Lemma alloc_spec a fls refill b rest : slab_inv a fls -> concat fls = b :: rest ->
  exists a' fls', slab_alloc refill a = Done (a', b) /\ slab_inv a' fls' /\ concat fls' = rest /\
    all_blocks a' = all_blocks a /\ b <> NULL.
Proof.
  intros (Hbs & Hok & Hs) E. unfold slab_alloc.
  destruct (dequeue_some _ _ Hbs _ _ _ _ Hok E) as (shs' & fls' & -> & Hrest & Hok' & Hext & Hb).
  eexists _, fls'. split_and!; [done| |done| |done].
  - split_and!; auto. by eapply same_extent_disjoint.
  - symmetry. by apply same_extent_blocks.
Qed.

Lemma free_in_all a fls b : slab_inv a fls -> b ∈ concat fls -> b ∈ all_blocks a.
Proof.
  intros (_ & Hok & _) Hb. apply elem_of_concat in Hb as (fl & Hb & Hfl).
  apply list_elem_of_lookup in Hfl as [i Hi].
  destruct (Forall2_lookup_r _ _ _ _ _ Hok Hi) as (sh & Hsh & Hsok).
  apply list_elem_of_bind. exists sh. split; [by apply Hsok|by eapply list_elem_of_lookup_2].
Qed.

Lemma free_nodup a fls : slab_inv a fls -> NoDup (concat fls).
Proof.
  intros (Hbs & Hok & Hs). assert (Hbs0 : 0 < blocksize a) by (unfold SLAB_BLOCK_HDRSIZE in Hbs; lia).
  induction Hok as [|sh fl shs fls Hsh Hok IH]; simpl; [constructor|].
  apply StronglySorted_inv in Hs as [Hs Hd]. apply NoDup_app. split_and!; [by apply Hsh| |auto].
  intros b Hb (fl' & Hb' & Hfl')%elem_of_concat. apply list_elem_of_lookup in Hfl' as [i Hi].
  destruct (Forall2_lookup_r _ _ _ _ _ Hok Hi) as (sh' & Hsh' & Hsok).
  rewrite Forall_forall in Hd. apply list_elem_of_lookup_2 in Hsh'.
  by eapply (disjoint_blocks (next a) _ sh sh' fl fl' b); [| | |apply Hd|apply Hsh|apply Hsok].
Qed.

Lemma all_blocks_nonnull a fls b : slab_inv a fls -> b ∈ all_blocks a -> 0 < b.
Proof.
  intros (Hbs & Hok & Hs) Hb. apply list_elem_of_bind in Hb as (sh & Hb & Hsh).
  apply list_elem_of_lookup in Hsh as [i Hi].
  destruct (Forall2_lookup_l _ _ _ _ _ Hok Hi) as (fl & _ & Hsh).
  pose proof (slab_block_nonnull _ _ Hbs _ _ _ Hsh Hb). lia.
Qed.

Lemma free_spec a fls b : slab_inv a fls -> b ∈ all_blocks a -> b ∉ concat fls ->
  exists a' fls', slab_free a b = Done a' /\ slab_inv a' fls' /\ concat fls' ≡ₚ b :: concat fls /\
    all_blocks a' = all_blocks a.
Proof.
  intros Hinv Hb Hni. pose proof (all_blocks_nonnull _ _ _ Hinv Hb). destruct Hinv as (Hbs & Hok & Hs).
  unfold slab_free.
  destruct (enqueue_spec _ _ Hbs _ _ _ Hok Hs Hb Hni) as (shs' & fls' & q & E & Hp & Hok' & Hext).
  unfold NULL. zdecide. rewrite E. eexists _, fls'. split_and!; [done| |done|].
  - split_and!; auto. by eapply same_extent_disjoint.
  - symmetry. by apply same_extent_blocks.
Qed.

Lemma freecount_spec a fls : slab_inv a fls ->
  slab_freecount a = u32 (Z.of_nat (length (concat fls))).
Proof.
  intros (_ & Hok & _). unfold slab_freecount.
  enough (Hgen : forall acc, fold_left (fun ret sh => u32 (ret + free sh)) (slabs a) (u32 acc) =
    u32 (acc + Z.of_nat (length (concat fls)))) by (apply (Hgen 0)).
  induction Hok as [|sh fl shs fls Hsh _ IH]; intros acc; simpl; [by rewrite Z.add_0_r|].
  destruct Hsh as (_ & _ & _ & _ & -> & _). unfold u32, wrap in *. rewrite Zplus_mod_idemp_l, IH.
  f_equal. rewrite length_app. lia.
Qed.

(** * The allocator as a pool of blocks

    What a client that keeps its nodes in blocks needs to know: the blocks
    in use and the free ones are together all the blocks. *)

Definition pool_holds (a : slab_allocator) (used : list Z) : Prop :=
  exists fls, slab_inv a fls /\ used ++ concat fls ≡ₚ all_blocks a.

Definition capacity (a : slab_allocator) : nat := length (all_blocks a).

Lemma all_blocks_nodup a fls : slab_inv a fls -> NoDup (all_blocks a).
Proof.
  intros (Hbs & Hok & Hs). assert (Hbs0 : 0 < blocksize a) by (unfold SLAB_BLOCK_HDRSIZE in Hbs; lia).
  unfold all_blocks. induction Hok as [|sh fl shs fls Hsh Hok IH]; [constructor|].
  apply StronglySorted_inv in Hs as [Hs Hd]. cbn [mbind list_bind]. apply NoDup_app. split_and!.
  - apply NoDup_fmap; [|apply NoDup_seqZ]. intros x y. simpl. nia.
  - intros b Hb (sh' & Hb' & Hsh')%list_elem_of_bind. rewrite Forall_forall in Hd.
    apply list_elem_of_lookup in Hsh' as [i Hi].
    destruct (Forall2_lookup_l _ _ _ _ _ Hok Hi) as (fl' & _ & Hsok). apply list_elem_of_lookup_2 in Hi.
    by eapply (disjoint_blocks (next a) _ sh sh' fl fl' b); [| | |apply Hd| |].
  - auto.
Qed.

Lemma pool_nodup a used : pool_holds a used -> NoDup used.
Proof.
  intros (fls & Hinv & Hp). pose proof (all_blocks_nodup _ _ Hinv) as Hnd. rewrite <- Hp in Hnd.
  by apply NoDup_app in Hnd as [? _].
Qed.

Lemma pool_used a used : pool_holds a used -> (length used <= capacity a)%nat.
Proof. intros (fls & _ & Hp). unfold capacity. rewrite <- Hp, length_app. lia. Qed.

Lemma pool_perm a used used' : used ≡ₚ used' -> pool_holds a used -> pool_holds a used'.
Proof. intros Hp (fls & Hinv & Hall). exists fls. by rewrite <- Hp. Qed.

Lemma pool_alloc a used : pool_holds a used -> (length used < capacity a)%nat ->
  exists a' b, slab_alloc None a = Done (a', b) /\ b <> NULL /\ pool_holds a' (b :: used) /\
    capacity a' = capacity a.
Proof.
  intros (fls & Hinv & Hp) Hlen. unfold capacity in Hlen. rewrite <- Hp, length_app in Hlen.
  destruct (concat fls) as [|b rest] eqn:E; [simpl in Hlen; lia|].
  destruct (alloc_spec a fls None b rest Hinv E) as (a' & fls' & Ea & Hinv' & Hr & Hall & Hb).
  exists a', b. split_and!; auto; [|unfold capacity; by rewrite Hall]. exists fls'. split; [done|].
  rewrite Hr, Hall, <- Hp. simpl. by rewrite Permutation_middle.
Qed.

Lemma pool_free a b used : pool_holds a (b :: used) ->
  exists a', slab_free a b = Done a' /\ pool_holds a' used /\ capacity a' = capacity a.
Proof.
  intros Hpool. destruct Hpool as (fls & Hinv & Hp). pose proof (all_blocks_nodup _ _ Hinv) as Hnd.
  rewrite <- Hp in Hnd. simpl in Hnd. apply NoDup_cons in Hnd as [Hni _].
  rewrite not_elem_of_app in Hni. destruct Hni as [_ Hni].
  destruct (free_spec a fls b Hinv) as (a' & fls' & Ea & Hinv' & Hr & Hall); [|done|].
  { rewrite <- Hp. by left. }
  exists a'. split_and!; auto; [|unfold capacity; by rewrite Hall]. exists fls'. split; [done|].
  rewrite Hr, Hall, <- Hp. by rewrite <- Permutation_middle.
Qed.

(** A block in use lies in memory, with its full size. *)
Lemma pool_block_range a b used : pool_holds a (b :: used) -> 0 < b /\ b + blocksize a < 2 ^ 32.
Proof.
  intros (fls & Hinv & Hp). assert (Hb : b ∈ all_blocks a) by (rewrite <- Hp; by left).
  pose proof (all_blocks_nonnull _ _ _ Hinv Hb) as Hpos. split; [done|].
  destruct Hinv as (Hbs & Hok & _). unfold SLAB_BLOCK_HDRSIZE in Hbs.
  apply list_elem_of_bind in Hb as (sh & Hb & [i Hi]%list_elem_of_lookup).
  destruct (Forall2_lookup_l _ _ _ _ _ Hok Hi) as (fl & _ & (_ & _ & Hend & _)).
  apply block_range in Hb; lia.
Qed.

Lemma alloc_blocksize a a' b : slab_alloc None a = Done (a', b) -> blocksize a' = blocksize a.
Proof.
  unfold slab_alloc. destruct (slab_dequeue (next a) (slabs a)) as [[[b' shs]|]|f]; [| |done];
    step; by intros [= <- _].
Qed.

(** A pool made from one buffer. *)
Lemma pool_fresh bs buf buflen : let rbs := SLAB_REAL_BLOCKSIZE bs in
  sizeof_slab_head + rbs <= buflen -> 0 < buf -> buf + buflen < 2 ^ 32 ->
  exists a, slab_grow (slab_init bs) buf buflen = Done a /\ pool_holds a [] /\
    Z.of_nat (capacity a) = (buflen - sizeof_slab_head) `div` rbs.
Proof.
  intros rbs Hlen Hbuf Hend.
  assert (SLAB_BLOCK_HDRSIZE <= rbs) by (unfold rbs, SLAB_REAL_BLOCKSIZE; zcases; lia).
  destruct (grow_spec (slab_init bs) [] buf buflen) as (a & sh & Ha & Hsh & _ & Htot & Hbs & Hinv);
    try done.
  { split; [done|]. split; [constructor|constructor]. }
  { intros sh Hsh. by apply elem_of_nil in Hsh. }
  exists a. split; [done|]. cbn [slab_init slabs blocksize] in *. fold rbs in Htot, Hinv, Hbs.
  assert (all_blocks a = slab_blocks rbs sh) as Hall.
  { unfold all_blocks. rewrite Hsh, Hbs. cbn [mbind list_bind]. apply app_nil_r. }
  split.
  - exists [slab_blocks rbs sh]. split; [done|]. rewrite Hall. simpl. by rewrite app_nil_r.
  - unfold capacity. rewrite Hall. unfold slab_blocks.
    rewrite length_fmap, length_seqZ, Htot. apply Z2Nat.id.
    unfold SLAB_BLOCK_HDRSIZE in *. apply Z.div_pos; lia.
Qed.

(** * Contracts *)

(** While some block is free, [slab_alloc] hands out the first free
    block and keeps the invariant: the block leaves the free list, and
    every other free block stays free.  With no free block and no refill
    function it returns NULL and changes nothing. *)
Theorem slab_alloc_takes_free a fls refill : slab_inv a fls ->
  match concat fls with
  | b :: rest => exists a' fls', slab_alloc refill a = Done (a', b) /\ slab_inv a' fls' /\
      concat fls' = rest /\ all_blocks a' = all_blocks a /\ b <> NULL
  | [] => slab_alloc None a = Done (a, NULL)
  end.
Proof.
  intros Hinv. destruct (concat fls) as [|b rest] eqn:E; [|by eapply alloc_spec].
  destruct Hinv as (_ & Hok & _). unfold slab_alloc. by rewrite (dequeue_empty _ _ _ _ Hok E).
Qed.

(** [slab_free] of a block in use finds its slab, fails no assertion,
    keeps the invariant and makes exactly that block free again. *)
Theorem slab_free_returns a fls b : slab_inv a fls -> b ∈ all_blocks a -> b ∉ concat fls ->
  exists a' fls', slab_free a b = Done a' /\ slab_inv a' fls' /\ concat fls' ≡ₚ b :: concat fls /\
    all_blocks a' = all_blocks a.
Proof. apply free_spec. Qed.

(** freeing a block right after its allocation restores the
    allocator, lists and memory included. *)
Theorem slab_alloc_free_roundtrip a fls a' b refill : slab_inv a fls -> concat fls <> [] ->
  slab_alloc refill a = Done (a', b) -> slab_free a' b = Done a.
Proof.
  intros Hinv Hne Hal. destruct (concat fls) as [|x rest] eqn:E; [done|].
  destruct (alloc_spec _ _ refill _ _ Hinv E) as (a2 & fls' & E2 & _ & _ & _ & Hnn).
  rewrite Hal in E2. injection E2 as <- <-. destruct Hinv as (Hbs & Hok & Hs).
  destruct (dequeue_some _ _ Hbs _ _ _ _ Hok E) as (shs' & f2 & Hde & _).
  destruct (enqueue_dequeue _ _ Hbs _ _ _ _ Hok Hs Hde) as [Hen Hid].
  unfold slab_alloc in Hal. rewrite Hde in Hal. injection Hal as <-. unfold slab_free. zdecide.
  cbn [slabs next blocksize]. rewrite Hen. step. rewrite insert_id by done.
  by destruct a.
Qed.

(** [slab_grow] with memory that holds at least one block and that no
    slab uses adds as many blocks as fit behind the header, all free, and
    keeps the invariant. *)
Theorem slab_grow_adds a fls buf buflen : slab_inv a fls ->
  sizeof_slab_head + blocksize a <= buflen -> 0 < buf -> buf + buflen < 2 ^ 32 ->
  (forall sh, sh ∈ slabs a -> buf + buflen <= sh_addr sh \/ slab_end (blocksize a) sh <= buf) ->
  exists a' sh, slab_grow a buf buflen = Done a' /\ slabs a' = sh :: slabs a /\
    sh_addr sh = buf /\ total sh = (buflen - sizeof_slab_head) `div` blocksize a /\
    blocksize a' = blocksize a /\ slab_inv a' (slab_blocks (blocksize a) sh :: fls).
Proof. apply grow_spec. Qed.

(** The blocks of an allocator never overlap each other or a slab
    header. *)
Theorem slab_blocks_separate a fls b b' : slab_inv a fls ->
  b ∈ all_blocks a -> b' ∈ all_blocks a -> b <> b' ->
  (b + blocksize a <= b' \/ b' + blocksize a <= b) /\
  forall sh, sh ∈ slabs a -> b + blocksize a <= sh_addr sh \/ sh_addr sh + sizeof_slab_head <= b.
Proof.
  intros (Hbs & Hok & Hs) Hb Hb' Hne. assert (Hbs0 : 0 < blocksize a) by (unfold SLAB_BLOCK_HDRSIZE in Hbs; lia).
  apply list_elem_of_bind in Hb as (x & Hb & Hx). apply list_elem_of_bind in Hb' as (y & Hb' & Hy).
  assert (Hrel : forall sh sh', sh ∈ slabs a -> sh' ∈ slabs a ->
    sh = sh' \/ slab_end (blocksize a) sh <= sh_addr sh' \/ slab_end (blocksize a) sh' <= sh_addr sh).
  { intros sh sh' Hsh Hsh'. destruct (StronglySorted_pair _ _ _ _ Hs Hsh Hsh') as [?|[[?|?]|[?|?]]]; auto. }
  pose proof (block_range _ _ _ Hbs0 Hb) as Hr. pose proof (block_range _ _ _ Hbs0 Hb') as Hr'.
  unfold sizeof_slab_head in *. split.
  - destruct (Hrel x y Hx Hy) as [<-|[?|?]]; [|lia..].
    apply elem_of_slab_blocks in Hb as (i & ? & ->), Hb' as (j & ? & ->).
    assert (i < j \/ j < i) as [?|?] by (destruct (Z.lt_trichotomy i j) as [|[->|]]; auto; done); nia.
  - intros sh Hsh. destruct (Hrel x sh Hx Hsh) as [<-|[?|?]]; [lia|lia|].
    apply list_elem_of_lookup in Hsh as [k Hk].
    destruct (Forall2_lookup_l _ _ _ _ _ Hok Hk) as (fl & _ & _ & Ht & _).
    unfold slab_end, sizeof_slab_head in *. nia.
Qed.

(** * A concrete allocator *)

(** The invariant of a concrete allocator with one slab, by evaluation. *)
Ltac one_slab :=
  split_and!; [by vm_compute| |repeat constructor]; constructor; [|constructor];
  split_and!; [by vm_compute|by vm_compute|by vm_compute| |by vm_compute|vm_decide|];
  [cbn [chain]; repeat (split; [done|]; eexists; split; [vm_compute; reflexivity|]); done
  |let b := fresh "b" in let Hb := fresh "Hb" in intros b Hb; case_list Hb; vm_decide].

Module SlabSample.
(** Blocks of 40 bytes (a [struct mmnode]) in a buffer of 200 bytes. *)
Definition a0 : slab_allocator := slab_init 40.
Definition a1 : slab_allocator := match slab_grow a0 4096 200 with Done a => a | Fault _ => a0 end.

Lemma a0_inv : slab_inv a0 [].
Proof. split_and!; [by vm_compute|constructor|constructor]. Qed.

Lemma a1_inv : slab_inv a1 [[4112; 4152; 4192; 4232]].
Proof.
  destruct (grow_spec a0 [] 4096 200 a0_inv) as (a' & sh & E & Hs & Ha & Ht & _ & Hinv);
    [by vm_compute|lia|lia|by intros sh ?%elem_of_nil|].
  unfold a1. rewrite E. destruct sh as [ad t f b]. simpl in Ha, Ht. subst ad t. exact Hinv.
Qed.

Lemma slab_alloc_takes_free_witness : exists a' fls',
  slab_alloc None a1 = Done (a', 4112) /\ slab_inv a' fls' /\ concat fls' = [4152; 4192; 4232] /\
  all_blocks a' = all_blocks a1 /\ 4112 <> NULL.
Proof. exact (slab_alloc_takes_free a1 [[4112; 4152; 4192; 4232]] None a1_inv). Defined.

(** The state after one allocation. *)
Definition a2 : slab_allocator := match slab_alloc None a1 with Done (a, _) => a | Fault _ => a1 end.

Lemma a2_inv : slab_inv a2 [[4152; 4192; 4232]].
Proof. one_slab. Qed.

Lemma slab_free_returns_witness : exists a' fls',
  slab_free a2 4112 = Done a' /\ slab_inv a' fls' /\ concat fls' ≡ₚ 4112 :: [4152; 4192; 4232] /\
  all_blocks a' = all_blocks a2.
Proof. apply (slab_free_returns a2 [[4152; 4192; 4232]] 4112 a2_inv); vm_decide. Defined.

Lemma slab_alloc_free_roundtrip_witness : slab_free a2 4112 = Done a1.
Proof.
  apply (slab_alloc_free_roundtrip a1 [[4112; 4152; 4192; 4232]] a2 4112 None a1_inv); [done|].
  by vm_compute.
Defined.

Lemma slab_grow_adds_witness : exists a' sh,
  slab_grow a1 8192 4096 = Done a' /\ slabs a' = sh :: slabs a1 /\ sh_addr sh = 8192 /\
  total sh = (4096 - sizeof_slab_head) `div` blocksize a1 /\ blocksize a' = blocksize a1 /\
  slab_inv a' (slab_blocks (blocksize a1) sh :: [[4112; 4152; 4192; 4232]]).
Proof.
  apply (slab_grow_adds a1 _ 8192 4096 a1_inv); [by vm_compute|lia|lia|].
  intros sh Hsh. right. revert Hsh. intros Hsh. case_list Hsh; by vm_compute.
Defined.

Lemma slab_blocks_separate_witness : 4112 + blocksize a1 <= 4152 \/ 4152 + blocksize a1 <= 4112.
Proof. apply (slab_blocks_separate a1 _ 4112 4152 a1_inv); [vm_decide|vm_decide|done]. Defined.
End SlabSample.
