(* ===== verification/Net.v ===== *)
(** The network stack: usr/networking (serial line IP, IP, ICMP, UDP and the
    receive buffer) with lib/netutil (byte order and checksum).

    A packet in memory is a list of bytes; multi-byte fields are stored in
    the little-endian order of the processor, so that the conversions to
    network order matter. *)
From S2P Require Import Prelude.

(** * Byte order, lib/netutil/htons.c *)

Definition lwip_htons (n : Z) : Z :=
  u16 (Z.lor (Z.shiftl (Z.land n 255) 8) (Z.shiftr (Z.land n 65280) 8)).
Definition lwip_ntohs (n : Z) : Z := lwip_htons n.

Definition lwip_htonl (n : Z) : Z :=
  u32 (Z.lor (Z.lor (Z.lor (Z.shiftl (Z.land n 255) 24) (Z.shiftl (Z.land n 65280) 8))
                    (Z.shiftr (Z.land n 16711680) 8))
             (Z.shiftr (Z.land n 4278190080) 24)).
Definition lwip_ntohl (n : Z) : Z := lwip_htonl n.

(** Loads and stores of the processor. *)
Definition le16 (x : Z) : list Z := [u8 x; u8 (Z.shiftr x 8)].
Definition le32 (x : Z) : list Z := [u8 x; u8 (Z.shiftr x 8); u8 (Z.shiftr x 16); u8 (Z.shiftr x 24)].
Definition byte_at (p : list Z) (i : nat) : Z := default 0 (p !! i).
Definition get16 (p : list Z) (i : nat) : Z := byte_at p i + 256 * byte_at p (S i).
Definition get32 (p : list Z) (i : nat) : Z := get16 p i + 65536 * get16 p (S (S i)).

(** [size] bytes from [off] on; reading past the end of the buffer faults. *)
Definition slice (p : list Z) (off size : Z) : outcome (list Z) :=
  if off + size <=? Z.of_nat (length p) then Done (take (Z.to_nat size) (drop (Z.to_nat off) p))
  else Fault OutOfBounds.

(** * Checksum, lib/netutil/checksum.c *)

(** The sum of the 16-bit words, most significant byte first; a 32-bit
    accumulator. *)
Fixpoint sum_words (acc : Z) (l : list Z) : Z :=
  match l with
  | b0 :: b1 :: l => sum_words (u32 (acc + u16 (Z.lor (u16 (Z.shiftl b0 8)) b1))) l
  | [b0] => u32 (acc + u16 (Z.shiftl b0 8))
  | [] => acc
  end.

Definition fold_carry (acc : Z) : Z := u32 (Z.shiftr acc 16 + Z.land acc 65535).

Definition lwip_standard_chksum (l : list Z) : Z :=
  let acc := fold_carry (sum_words 0 l) in
  let acc := if negb (Z.land acc 4294901760 =? 0) then fold_carry acc else acc in
  lwip_htons (u16 acc).

Definition inet_checksum (l : list Z) : Z := u16 (Z.lnot (lwip_standard_chksum l)).

(** * SLIP, usr/networking/slip.c *)

Definition SLIP_END : Z := 192.
Definition SLIP_ESC : Z := 219.
Definition SLIP_ESC_END : Z := 220.
Definition SLIP_ESC_ESC : Z := 221.
Definition SLIP_ESC_NUL : Z := 222.

Definition IP_MAX_SIZE : Z := 65535.

(** The packet being received ([ipp] up to [fill_pointer]) and the flag of
    the receive loop. *)
Record slip_state := Slip { ipp : option (list Z); escape_next : bool }.

(** [ip_add_byte]; a packet that gets too large is dropped. *)
Definition ip_add_byte (b : Z) (p : option (list Z)) : option (list Z) :=
  let l := match p with Some l => l | None => [] end in
  if IP_MAX_SIZE <=? Z.of_nat (length l) then None else Some (l ++ [b]).

(** One turn of the loop of [slip_receive]: the new state and the packet
    that [finish_ip_packet] passes on. *)
Definition slip_receive_byte (b : Z) (st : slip_state) : slip_state * option (list Z) :=
  if escape_next st then
    let c := if b =? SLIP_ESC_END then SLIP_END
             else if b =? SLIP_ESC_ESC then SLIP_ESC
             else if b =? SLIP_ESC_NUL then 0
             else b in
    (Slip (ip_add_byte c (ipp st)) false, None)
  else if b =? SLIP_END then (Slip None false, ipp st)
  else if b =? SLIP_ESC then (Slip (ipp st) true, None)
  else (Slip (ip_add_byte b (ipp st)) false, None).

(** The packets received from a stream of bytes.  The loop of the code takes
    each byte from the receive buffer below; the composition of the two, with
    the interrupts that fill the buffer, is [line_step] in NetCorrect.v. *)
Fixpoint slip_receive (bs : list Z) (st : slip_state) : slip_state * list (list Z) :=
  match bs with
  | [] => (st, [])
  | b :: bs =>
    let '(st, p) := slip_receive_byte b st in
    let '(st, ps) := slip_receive bs st in
    (st, match p with Some p => p :: ps | None => ps end)
  end.

(** The bytes [slip_send] writes for one byte of the packet. *)
Definition slip_escape (b : Z) : list Z :=
  if b =? SLIP_END then [SLIP_ESC; SLIP_ESC_END]
  else if b =? SLIP_ESC then [SLIP_ESC; SLIP_ESC_ESC]
  else if b =? 0 then [SLIP_ESC; SLIP_ESC_NUL]
  else [b].

(** [slip_send] sends as many bytes as the length field of the header says. *)
Definition slip_send (packet : list Z) : list Z :=
  (take (Z.to_nat (lwip_ntohs (get16 packet 2))) packet ≫= slip_escape) ++ [SLIP_END].

(** * Ports, usr/networking/udp.c *)

Record udp_port := UdpPort { portnum : Z; pid : Z; core : Z }.

#[global] Instance udp_port_eq_dec : EqDecision udp_port.
Proof. solve_decision. Defined.

(** The search of [udp_port_insert_ordered], at [cur] with the nodes before
    it in [pre]; [None] when the port exists. *)
Fixpoint insert_walk (port : udp_port) (pre : list udp_port) (cur : udp_port) (rest : list udp_port)
  : outcome (option (list udp_port)) :=
  match rest with
  | next :: rest' =>
    if portnum next <? portnum port then insert_walk port (pre ++ [cur]) next rest'
    else if (portnum next =? portnum port) || (portnum cur =? portnum port) then Done None
    else if portnum port <? portnum cur then
      assert (bool_decide (pre = [])) ≫= fun _ => Done (Some (port :: pre ++ cur :: rest))
    else Done (Some (pre ++ cur :: port :: rest))
  | [] =>
    if portnum cur =? portnum port then Done None
    else if portnum port <? portnum cur then
      assert (bool_decide (pre = [])) ≫= fun _ => Done (Some (port :: pre ++ [cur]))
    else Done (Some (pre ++ [cur; port]))
  end.

Definition udp_port_insert_ordered (port : udp_port) (l : list udp_port)
  : outcome (list udp_port * errval) :=
  match l with
  | [] => Done ([port], SYS_ERR_OK)
  | cur :: rest =>
    insert_walk port [] cur rest ≫= fun r =>
    match r with
    | Some l' => Done (l', SYS_ERR_OK)
    | None => Done (l, err AOS_NET_ERR_UDP_PORT_EXISTS)
    end
  end.

(** [udp_port_remove]; the loop goes on while the next port is larger, and
    the last node is taken for the only one. *)
Fixpoint remove_walk (p : Z) (pre : list udp_port) (cur : udp_port) (rest : list udp_port)
  : option (list udp_port) :=
  match rest with
  | next :: rest' =>
    if p <? portnum next then remove_walk p (pre ++ [cur]) next rest'
    else if portnum next =? p then Some (pre ++ cur :: rest')
    else None
  | [] => if portnum cur =? p then Some [] else None
  end.

Definition udp_port_remove (p : Z) (l : list udp_port) : list udp_port * errval :=
  match l with
  | [] => (l, err AOS_NET_ERR_UDP_NO_SUCH_PORT)
  | cur :: rest =>
    match remove_walk p [] cur rest with
    | Some l' => (l', SYS_ERR_OK)
    | None => (l, err AOS_NET_ERR_UDP_NO_SUCH_PORT)
    end
  end.

Fixpoint search_walk (p : Z) (cur : udp_port) (rest : list udp_port) : option udp_port :=
  match rest with
  | next :: rest' =>
    if portnum cur <? p then search_walk p next rest'
    else if portnum cur =? p then Some cur else None
  | [] => if portnum cur =? p then Some cur else None
  end.

Definition search_udp_port (p : Z) (l : list udp_port) : option udp_port * errval :=
  match l with
  | [] => (None, err AOS_NET_ERR_UDP_NO_SUCH_PORT)
  | cur :: rest =>
    match search_walk p cur rest with
    | Some port => (Some port, SYS_ERR_OK)
    | None => (None, err AOS_NET_ERR_UDP_NO_SUCH_PORT)
    end
  end.

(** * The receive buffer, usr/networking/message_buffer.c *)

Definition NET_BUF_SIZE : Z := 200.

(** [start] is where the next byte is written, [rend] (the field [end])
    where the next one is read, both as offsets in [buf]. *)
Record net_msg_buf := NetMsgBuf { buf : list Z; start : Z; rend : Z }.

Definition net_msg_buf_init (mem : list Z) : net_msg_buf := NetMsgBuf mem 0 0.

Definition write_byte (b : Z) (q : net_msg_buf) : net_msg_buf :=
  if start q + 1 =? rend q then q
  else
    let m := <[Z.to_nat (start q) := b]> (buf q) in
    let s := start q + 1 in
    NetMsgBuf m (if NET_BUF_SIZE <=? s then 0 else s) (rend q).

Definition net_msg_buf_write (src : list Z) (q : net_msg_buf) : net_msg_buf * errval :=
  (fold_left (fun q b => write_byte b q) src q, SYS_ERR_OK).

Definition net_msg_buf_read_byte (q : net_msg_buf) : outcome (option Z * net_msg_buf) :=
  if start q =? rend q then Done (None, q)
  else
    let retval := byte_at (buf q) (Z.to_nat (rend q)) in
    let e := if rend q + 1 =? NET_BUF_SIZE then 0 else rend q + 1 in
    ASSERT e <=? NET_BUF_SIZE;
    Done (Some retval, NetMsgBuf (buf q) (start q) e).

(** The result is a 32-bit [size_t]. *)
Definition net_msg_buf_length (q : net_msg_buf) : Z :=
  if start q <? rend q then u32 (start q - rend q + NET_BUF_SIZE)
  else u32 (rend q - start q).

(** [serial_input] of main.c: the bytes of an interrupt go into the buffer. *)
Definition serial_input (bs : list Z) (q : net_msg_buf) : outcome net_msg_buf :=
  let '(q, e) := net_msg_buf_write bs q in CHECK e ≫= fun _ => Done q.

(** * Datagrams and packets *)

Definition PROTOCOL_ICMP : Z := 1.
Definition PROTOCOL_UDP : Z := 17.
Definition IP_HEADER_MIN_SIZE : Z := 5.
Definition ICMP_HEADER_SIZE : Z := 8.
Definition UDP_HEADER_SIZE : Z := 8.
Definition UDP_MAX_PAYLOAD_SIZE : Z := 1024.
Definition MAX_PACKET_PAYLOAD : Z := 6300.
Definition ECHO_REPLY : Z := 0.
Definition ECHO_REQUEST : Z := 8.

(** The static variables of ip.c and udp.c. *)
Record net_state := NetState { MY_IP : Z; port_list_head : list udp_port }.

(** What the stack does in answer to an event: put a packet on the serial
    line, or pass a datagram to the domain that registered its port. *)
Inductive action :=
| SendPacket (packet : list Z)
| Transfer (from_port to_port from to protocol : Z) (payload : list Z) (pid core : Z).

(** [ip_packet_send]; the bytes of the allocated packet behind the payload
    are not sent.  The buffer holds [IP_MAX_SIZE] bytes and the copy of the
    payload into it is not checked by the code. *)
Definition ip_header_bytes (my_ip payload_size dst protocol header_checksum : Z) : list Z :=
  [u8 (Z.shiftl 4 4 + IP_HEADER_MIN_SIZE); 0]
  ++ le16 (lwip_htons (u16 (IP_HEADER_MIN_SIZE * 4 + payload_size)))
  ++ le16 0 ++ le16 64 ++ [64; u8 protocol] ++ le16 header_checksum
  ++ le32 (lwip_htonl my_ip) ++ le32 (lwip_htonl dst).

Definition ip_packet_send (payload : list Z) (payload_size dst protocol : Z) (st : net_state)
  : outcome (list action) :=
  let header_checksum := inet_checksum (ip_header_bytes (MY_IP st) payload_size dst protocol 0) in
  slice payload 0 payload_size ≫= fun p =>
  if IP_HEADER_MIN_SIZE * 4 + payload_size <=? IP_MAX_SIZE then
    Done [SendPacket (ip_header_bytes (MY_IP st) payload_size dst protocol header_checksum ++ p)]
  else Fault OutOfBounds.

(** ICMP, usr/networking/icmp.c.  Sizes are 32-bit [size_t]; a list of bytes
    stands for the memory from a pointer to the end of its buffer. *)
Definition icmp_bytes (type code checksum rest_of_header : Z) (payload : list Z) : list Z :=
  [u8 type; u8 code] ++ le16 checksum ++ le32 rest_of_header ++ payload.

Definition icmp_send (type code : Z) (payload : list Z) (payload_size dst rest_of_header : Z)
    (st : net_state) : outcome (list action) :=
  slice payload 0 payload_size ≫= fun p =>
  let size := u32 (payload_size + ICMP_HEADER_SIZE) in
  if payload_size + ICMP_HEADER_SIZE <=? size then
    let checksum :=
      inet_checksum (take (Z.to_nat (u16 size)) (icmp_bytes type code 0 rest_of_header p)) in
    ip_packet_send (icmp_bytes type code checksum rest_of_header p) size dst PROTOCOL_ICMP st
  else Fault OutOfBounds.

Definition icmp_receive (payload : list Z) (size src : Z) (st : net_state) : outcome (list action) :=
  if byte_at payload 0 =? ECHO_REQUEST then
    icmp_send ECHO_REPLY 0 (drop 8 payload) (u32 (size - ICMP_HEADER_SIZE)) src (get32 payload 4) st
  else Done [].

(** [network_message_transfer] of lib/aos/domain_network_interface.c, up to
    the call that sends the message to the domain. *)
Definition network_message_transfer (from_port to_port from to protocol : Z) (payload : list Z)
    (size pid core : Z) : outcome (list action) :=
  slice payload 0 size ≫= fun p =>
  if size <=? MAX_PACKET_PAYLOAD then
    Done [Transfer from_port to_port from to protocol p pid core]
  else Fault OutOfBounds.

Definition udp_receive (payload : list Z) (size src dst : Z) (st : net_state)
  : outcome (list action) :=
  let source_port := lwip_ntohs (get16 payload 0) in
  let dest_port := lwip_ntohs (get16 payload 2) in
  match search_udp_port dest_port (port_list_head st) with
  | (Some port, _) =>
    network_message_transfer source_port dest_port src dst PROTOCOL_UDP (drop 8 payload)
      (u32 (size - UDP_HEADER_SIZE)) (pid port) (core port)
  | (None, _) => Done []
  end.

Definition udp_bytes (source_port dest_port payload_size : Z) (payload : list Z) : list Z :=
  le16 (lwip_htons source_port) ++ le16 (lwip_htons dest_port)
  ++ le16 (lwip_htons (u16 (payload_size + UDP_HEADER_SIZE))) ++ le16 0 ++ payload.

(** The datagram has room for [UDP_MAX_PAYLOAD_SIZE] bytes; the copy of the
    payload into it is not checked by the code. *)
Definition udp_send (source_port dest_port : Z) (payload : list Z) (payload_size dst : Z)
    (st : net_state) : outcome (list action) :=
  slice payload 0 payload_size ≫= fun p =>
  if payload_size <=? UDP_MAX_PAYLOAD_SIZE then
    ip_packet_send (udp_bytes source_port dest_port payload_size p)
      (payload_size + UDP_HEADER_SIZE) dst PROTOCOL_UDP st
  else Fault OutOfBounds.

Definition udp_register_port (port pid core : Z) (st : net_state) : outcome net_state :=
  udp_port_insert_ordered (UdpPort port pid core) (port_list_head st) ≫= fun '(l, _) =>
  Done (NetState (MY_IP st) l).

Definition udp_deregister_port (port : Z) (st : net_state) : net_state :=
  NetState (MY_IP st) (udp_port_remove port (port_list_head st)).1.

(** [ip_handle_packet]; [packet] is the memory of the packet, [IP_MAX_SIZE]
    bytes whatever the number of bytes received. *)
Definition ip_handle_packet (packet : list Z) (st : net_state) : outcome (list action) :=
  let version_ihl := byte_at packet 0 in
  let payload_header_length := Z.land version_ihl 15 * 4 in
  let len := lwip_ntohs (get16 packet 2) in
  let payload_size := u32 (len - payload_header_length) in
  let payload := drop (Z.to_nat payload_header_length) packet in
  let src := lwip_ntohl (get32 packet 12) in
  if negb (inet_checksum (take (Z.to_nat payload_header_length) packet) =? 0) then Done []
  else if negb (Z.land 240 version_ihl =? 64) then Done []
  else if len <? payload_header_length then Done []
  else if payload_header_length <? IP_HEADER_MIN_SIZE * 4 then Done []
  else if negb (Z.land (get16 packet 6) 191 =? 0) then Done []
  else if negb (get32 packet 16 =? lwip_ntohl (MY_IP st)) then Done []
  else if byte_at packet 9 =? PROTOCOL_ICMP then icmp_receive payload payload_size src st
  else if byte_at packet 9 =? PROTOCOL_UDP then udp_receive payload payload_size src (MY_IP st) st
  else Done [].

(** [finish_ip_packet]: the received bytes are at the front of a buffer of
    [IP_MAX_SIZE] bytes; [junk] is what the allocator left in the rest. *)
Definition finish_ip_packet (junk : list Z) (ip : option (list Z)) (st : net_state)
  : outcome (list action) :=
  match ip with
  | None => Done []
  | Some p => ip_handle_packet (take (Z.to_nat IP_MAX_SIZE) (p ++ junk)) st
  end.

(** The requests of other domains, include/aos/domain_network_interface.h,
    and their handler in main.c. *)
Inductive network_message :=
| RegisterPort (protocol pid core port : Z)
| DeregisterPort (protocol pid core port : Z)
| TransferMessage (protocol port_from port_to ip_from ip_to payload_size : Z) (payload : list Z)
| PrintMessage.

Definition message_handler (m : network_message) (st : net_state)
  : outcome (net_state * list action) :=
  match m with
  | RegisterPort protocol pid core port =>
    if protocol =? PROTOCOL_UDP then
      udp_register_port port pid core st ≫= fun st => Done (st, [])
    else Done (st, [])
  | DeregisterPort protocol pid core port =>
    Done (if protocol =? PROTOCOL_UDP then udp_deregister_port port st else st, [])
  | TransferMessage protocol port_from port_to ip_from ip_to payload_size payload =>
    if protocol =? PROTOCOL_UDP then
      udp_send port_from port_to payload payload_size ip_to st ≫= fun acts => Done (st, acts)
    else Done (st, [])
  | PrintMessage => Done (st, [])
  end.
