(* ===== verification/NetSum.v ===== *)
(** Byte order and the Internet checksum: lib/netutil computes the ones'
    complement sum of the 16-bit words of a buffer, and a buffer into which
    its checksum is stored sums to zero. *)
From S2P Require Import Prelude Net.

Section ByteOrder.

Definition bytes (l : list Z) : Prop := Forall (fun b => 0 <= b < 256) l.

(** Most significant byte first. *)
Definition be16 (x : Z) : list Z := [x / 256; x `mod` 256].

Lemma lor_disjoint a b k : 0 <= k -> 0 <= b < 2 ^ k -> Z.lor (a * 2 ^ k) b = a * 2 ^ k + b.
Proof.
  intros Hk Hb. symmetry. apply Z.add_nocarry_lor, Z.bits_inj'. intros n Hn.
  rewrite Z.land_spec, Z.bits_0. destruct (Z.ltb_spec n k).
  - by rewrite Z.mul_pow2_bits_low.
  - rewrite (proj2 (Z.testbit_false b n Hn)); [apply andb_false_r|].
    rewrite Z.div_small; [done|]. pose proof (Z.pow_le_mono_r 2 k n). lia.
Qed.

Lemma land_low8 n : Z.land n 255 = n `mod` 256.
Proof. change 255 with (Z.ones 8). by rewrite Z.land_ones. Qed.

Lemma land_field n k : 0 <= k -> Z.shiftr (Z.land n (Z.shiftl 255 k)) k = (n / 2 ^ k) `mod` 256.
Proof.
  intros. rewrite Z.shiftr_land, Z.shiftr_shiftl_l, Z.sub_diag, Z.shiftl_0_r, land_low8 by lia.
  by rewrite Z.shiftr_div_pow2.
Qed.

Lemma land_shifted n k : 0 <= k -> Z.land n (Z.shiftl 255 k) = (n / 2 ^ k) `mod` 256 * 2 ^ k.
Proof.
  intros. rewrite <- land_field, <- Z.shiftl_mul_pow2 by lia.
  apply Z.bits_inj'. intros i Hi. rewrite Z.shiftl_spec by lia.
  destruct (Z.ltb_spec i k).
  - rewrite Z.land_spec, Z.shiftl_spec_low, (Z.testbit_neg_r _ (i - k)) by lia. apply andb_false_r.
  - rewrite Z.shiftr_spec by lia. f_equal. lia.
Qed.

Lemma htons_val n : 0 <= n < 65536 -> lwip_htons n = n `mod` 256 * 256 + n / 256.
Proof.
  intros. unfold lwip_htons. change 65280 with (Z.shiftl 255 8).
  rewrite land_low8, land_field, Z.shiftl_mul_pow2 by lia. change (2 ^ 8) with 256.
  rewrite (Z.mod_small (n / 256)) by (split; [apply Z.div_pos|apply Z.div_lt_upper_bound]; lia).
  pose proof (Z.mod_pos_bound n 256).
  assert (0 <= n / 256 < 256) by (split; [apply Z.div_pos|apply Z.div_lt_upper_bound]; lia).
  change 256 with (2 ^ 8) at 2. rewrite (lor_disjoint _ _ 8) by lia.
  change (2 ^ 8) with 256. rewrite u16_small; lia.
Qed.

Lemma htonl_val n : 0 <= n < 4294967296 ->
  lwip_htonl n = n `mod` 256 * 16777216 + (n / 256) `mod` 256 * 65536
                 + (n / 65536) `mod` 256 * 256 + n / 16777216.
Proof.
  intros. unfold lwip_htonl.
  change 65280 with (Z.shiftl 255 8). change 16711680 with (Z.shiftl 255 16).
  change 4278190080 with (Z.shiftl 255 24).
  rewrite land_low8, !land_shifted by lia.
  set (b1 := (n / 2 ^ 8) `mod` 256). set (b2 := (n / 2 ^ 16) `mod` 256).
  set (b3 := (n / 2 ^ 24) `mod` 256). set (b0 := n `mod` 256).
  assert (0 <= b0 < 256) by (apply Z.mod_pos_bound; lia).
  assert (0 <= b1 < 256) by (apply Z.mod_pos_bound; lia).
  assert (0 <= b2 < 256) by (apply Z.mod_pos_bound; lia).
  assert (0 <= b3 < 256) by (apply Z.mod_pos_bound; lia).
  rewrite !Z.shiftl_mul_pow2, !Z.shiftr_div_pow2 by lia.
  replace (b1 * 2 ^ 8 * 2 ^ 8) with (b1 * 2 ^ 16) by lia.
  replace (b2 * 2 ^ 16 / 2 ^ 8) with (b2 * 2 ^ 8)
    by (change (2 ^ 16) with (2 ^ 8 * 2 ^ 8); rewrite Z.mul_assoc, Z.div_mul; lia).
  rewrite Z.div_mul by lia.
  rewrite <- Z.lor_assoc, <- Z.lor_assoc.
  rewrite (lor_disjoint b2 b3 8), (lor_disjoint b1 _ 16), (lor_disjoint b0 _ 24) by lia.
  assert (b3 = n / 16777216) as <-.
  { unfold b3. change (2 ^ 24) with 16777216. apply Z.mod_small.
    split; [apply Z.div_pos|apply Z.div_lt_upper_bound]; lia. }
  fold b1 b2. change (n / 256) with (n / 2 ^ 8). fold b1. change (n / 65536) with (n / 2 ^ 16). fold b2.
  change (2 ^ 24) with 16777216. change (2 ^ 16) with 65536. change (2 ^ 8) with 256.
  rewrite u32_small; lia.
Qed.

Definition be32 (x : Z) : list Z :=
  [x / 16777216; (x / 65536) `mod` 256; (x / 256) `mod` 256; x `mod` 256].

(** The bytes of an integer built from bytes. *)
Lemma byte_split a b : 0 <= b < 256 -> (a * 256 + b) `mod` 256 = b /\ (a * 256 + b) / 256 = a.
Proof.
  intros. rewrite Z.add_comm, Z.mod_add, Z.div_add, Z.mod_small, Z.div_small by lia. lia.
Qed.

Lemma div_bound x a b : 0 < a -> 0 <= x < a * b -> 0 <= x / a < b.
Proof. intros. split; [apply Z.div_pos|apply Z.div_lt_upper_bound]; lia. Qed.

Lemma store_htons x : 0 <= x < 65536 -> le16 (lwip_htons x) = be16 x.
Proof.
  intros. rewrite htons_val by done. unfold le16, be16.
  assert (0 <= x / 256 < 256) by (apply div_bound; lia).
  pose proof (Z.mod_pos_bound x 256).
  rewrite Z.shiftr_div_pow2 by lia. unfold u8, wrap. change (2 ^ 8) with 256.
  destruct (byte_split (x `mod` 256) (x / 256)) as [-> ->]; [lia|].
  by rewrite Z.mod_mod by lia.
Qed.

Lemma store_htonl x : 0 <= x < 4294967296 -> le32 (lwip_htonl x) = be32 x.
Proof.
  intros. rewrite htonl_val by done. unfold le32, be32.
  assert (0 <= x / 16777216 < 256) by (apply div_bound; lia).
  pose proof (Z.mod_pos_bound x 256). pose proof (Z.mod_pos_bound (x / 256) 256).
  pose proof (Z.mod_pos_bound (x / 65536) 256).
  set (b0 := x `mod` 256) in *. set (b1 := (x / 256) `mod` 256) in *.
  set (b2 := (x / 65536) `mod` 256) in *. set (b3 := x / 16777216) in *.
  rewrite !Z.shiftr_div_pow2 by lia. unfold u8, wrap.
  change (2 ^ 16) with (256 * 256). change (2 ^ 24) with (256 * 256 * 256). change (2 ^ 8) with 256.
  rewrite <- !Z.div_div by lia.
  replace (b0 * 16777216 + b1 * 65536 + b2 * 256 + b3)
    with (((b0 * 256 + b1) * 256 + b2) * 256 + b3) by lia.
  destruct (byte_split ((b0 * 256 + b1) * 256 + b2) b3) as [-> ->]; [lia|].
  destruct (byte_split (b0 * 256 + b1) b2) as [-> ->]; [lia|].
  destruct (byte_split b0 b1) as [-> ->]; [lia|].
  by rewrite Z.mod_small by lia.
Qed.

Lemma load_htons a b : 0 <= a < 256 -> 0 <= b < 256 -> lwip_ntohs (a + 256 * b) = a * 256 + b.
Proof.
  intros. unfold lwip_ntohs. rewrite htons_val by lia.
  replace (a + 256 * b) with (b * 256 + a) by lia.
  by destruct (byte_split b a) as [-> ->].
Qed.

Lemma be16_val x : 0 <= x < 65536 -> x / 256 * 256 + x `mod` 256 = x.
Proof. intros. pose proof (Z.div_mod x 256). lia. Qed.

Lemma be16_bytes x : 0 <= x < 65536 -> 0 <= x / 256 < 256 /\ 0 <= x `mod` 256 < 256.
Proof. intros. split; [apply div_bound|apply Z.mod_pos_bound]; lia. Qed.

(** A field written in network order is read back. *)
Lemma load_be16 x : 0 <= x < 65536 -> lwip_ntohs (x / 256 + 256 * (x `mod` 256)) = x.
Proof. intros. pose proof (be16_bytes x). rewrite load_htons by lia. by apply be16_val. Qed.

(** A 32-bit load of the bytes of an address in network order. *)
Definition load_be32 (x : Z) : Z :=
  x / 16777216 + 256 * ((x / 65536) `mod` 256)
  + 65536 * ((x / 256) `mod` 256 + 256 * (x `mod` 256)).

Lemma load_be32_htonl x : 0 <= x < 4294967296 -> load_be32 x = lwip_htonl x.
Proof. intros. rewrite htonl_val by done. unfold load_be32. lia. Qed.

Lemma htonl_range x : 0 <= lwip_htonl x < 4294967296.
Proof. apply wrap_range. lia. Qed.

Lemma htonl_involutive x : 0 <= x < 4294967296 -> lwip_htonl (lwip_htonl x) = x.
Proof.
  intros. rewrite (htonl_val (lwip_htonl x)) by apply htonl_range.
  rewrite htonl_val by done.
  assert (0 <= x / 16777216 < 256) by (apply div_bound; lia).
  pose proof (Z.mod_pos_bound x 256). pose proof (Z.mod_pos_bound (x / 256) 256).
  pose proof (Z.mod_pos_bound (x / 65536) 256).
  assert (x = x / 16777216 * 16777216 + (x / 65536) `mod` 256 * 65536
              + (x / 256) `mod` 256 * 256 + x `mod` 256) as Hx.
  { change 16777216 with (256 * 256 * 256). change 65536 with (256 * 256).
    rewrite <- !Z.div_div by lia.
    pose proof (Z.div_mod x 256). pose proof (Z.div_mod (x / 256) 256).
    pose proof (Z.div_mod (x / 256 / 256) 256). lia. }
  set (b0 := x `mod` 256) in *. set (b1 := (x / 256) `mod` 256) in *.
  set (b2 := (x / 65536) `mod` 256) in *. set (b3 := x / 16777216) in *.
  replace (b0 * 16777216 + b1 * 65536 + b2 * 256 + b3)
    with (((b0 * 256 + b1) * 256 + b2) * 256 + b3) by lia.
  change 16777216 with (256 * 256 * 256). change 65536 with (256 * 256).
  rewrite <- !Z.div_div by lia.
  destruct (byte_split ((b0 * 256 + b1) * 256 + b2) b3) as [-> ->]; [lia|].
  destruct (byte_split (b0 * 256 + b1) b2) as [-> ->]; [lia|].
  destruct (byte_split b0 b1) as [-> ->]; [lia|]. lia.
Qed.

End ByteOrder.

Section Checksum.

(** The sum of the big-endian words of a buffer, the last one padded. *)
Fixpoint word_sum (l : list Z) : Z :=
  match l with
  | b0 :: b1 :: l => b0 * 256 + b1 + word_sum l
  | [b0] => b0 * 256
  | [] => 0
  end.

Lemma list_pair_ind (P : list Z -> Prop) :
  P [] -> (forall a, P [a]) -> (forall a b l, P l -> P (a :: b :: l)) -> forall l, P l.
Proof.
  intros H0 H1 H2. assert (forall n l, (length l <= n)%nat -> P l) as H; [|eauto].
  induction n as [|n IH]; intros [|a [|b l]] Hl; simpl in Hl; try done; try lia.
  apply H2, IH. lia.
Qed.

Lemma word_sum_bound l : bytes l -> 0 <= word_sum l <= 65535 * Z.of_nat (length l).
Proof.
  induction l as [|a|a b l IH] using list_pair_ind; simpl; [lia| |].
  - intros (? & _)%Forall_cons. lia.
  - intros (? & (? & Hl)%Forall_cons)%Forall_cons. specialize (IH Hl). lia.
Qed.

Lemma word_val a b : 0 <= a < 256 -> 0 <= b < 256 ->
  u16 (Z.lor (u16 (Z.shiftl a 8)) b) = a * 256 + b.
Proof.
  intros. rewrite Z.shiftl_mul_pow2, (u16_small (_ * _)), (lor_disjoint a b 8) by lia.
  change (2 ^ 8) with 256. apply u16_small. lia.
Qed.

Lemma sum_words_val l : forall acc, bytes l -> 0 <= acc ->
  acc + 65535 * Z.of_nat (length l) < 4294967296 -> sum_words acc l = acc + word_sum l.
Proof.
  induction l as [|a|a b l IH] using list_pair_ind; intros acc Hl Hacc Hlen; simpl in *.
  - lia.
  - apply Forall_cons in Hl as [? _]. rewrite Z.shiftl_mul_pow2, u16_small by lia.
    rewrite u32_small; lia.
  - apply Forall_cons in Hl as [? [? Hl]%Forall_cons].
    rewrite word_val, u32_small by lia. rewrite IH by (done || lia). lia.
Qed.

(** Ones' complement sum: the representative of [s] modulo 65535, with zero
    only for zero. *)
Definition ones_sum (s : Z) : Z := if s =? 0 then 0 else 1 + (s - 1) `mod` 65535.

Lemma ones_sum_unique s r k : 0 <= s -> 0 <= r <= 65535 -> s = r + 65535 * k -> (r = 0 <-> s = 0) ->
  ones_sum s = r.
Proof.
  intros Hs Hr He H0. unfold ones_sum. destruct (Z.eqb_spec s 0); [|].
  - lia.
  - rewrite <- (Zmod_unique (s - 1) 65535 k (r - 1)); lia.
Qed.

Lemma fold_carry_val a : 0 <= a < 4294967296 -> fold_carry a = a / 65536 + a `mod` 65536.
Proof.
  intros. unfold fold_carry. change 65535 with (Z.ones 16).
  rewrite Z.land_ones, Z.shiftr_div_pow2 by lia. change (2 ^ 16) with 65536.
  assert (0 <= a / 65536 < 65536) by (apply div_bound; lia).
  pose proof (Z.mod_pos_bound a 65536). apply u32_small. lia.
Qed.

Lemma land_high a : 0 <= a < 4294967296 -> (Z.land a 4294901760 =? 0) = (a <? 65536).
Proof.
  intros. change 4294901760 with (Z.shiftl (Z.ones 16) 16).
  assert (Z.shiftr (Z.land a (Z.shiftl (Z.ones 16) 16)) 16 = a / 65536) as Hs.
  { rewrite Z.shiftr_land, Z.shiftr_shiftl_l, Z.shiftl_0_r, Z.land_ones, Z.shiftr_div_pow2 by lia.
    apply Z.mod_small. apply div_bound; lia. }
  destruct (Z.eqb_spec (Z.land a (Z.shiftl (Z.ones 16) 16)) 0) as [He|He]; symmetry.
  - rewrite He in Hs. apply Z.ltb_lt. pose proof (Z.div_mod a 65536).
    pose proof (Z.mod_pos_bound a 65536). change (Z.shiftr 0 16) with 0 in Hs. lia.
  - apply Z.ltb_ge. destruct (Z.le_gt_cases 65536 a) as [|Hlt]; [done|]. destruct He.
    apply Z.bits_inj'. intros n Hn. rewrite Z.land_spec, Z.bits_0, Z.shiftl_spec by lia.
    destruct (Z.ltb_spec n 16).
    + rewrite (Z.testbit_neg_r _ (n - 16)) by lia. apply andb_false_r.
    + rewrite (proj2 (Z.testbit_false a n Hn)); [done|].
      rewrite Z.div_small; [done|]. pose proof (Z.pow_le_mono_r 2 16 n). lia.
Qed.

(** Two folds reduce a 32-bit sum. *)
Lemma fold_twice a : 0 <= a < 4294967296 ->
  (let b := fold_carry a in
   if negb (Z.land b 4294901760 =? 0) then fold_carry b else b) = ones_sum a.
Proof.
  intros Ha. cbv zeta. rewrite fold_carry_val by done.
  assert (0 <= a / 65536 < 65536) by (apply div_bound; lia).
  pose proof (Z.mod_pos_bound a 65536). pose proof (Z.div_mod a 65536).
  set (b := a / 65536 + a `mod` 65536) in *.
  rewrite land_high by lia. destruct (Z.ltb_spec b 65536); simpl; symmetry.
  - apply (ones_sum_unique _ _ (a / 65536)); lia.
  - rewrite fold_carry_val by lia.
    assert (b / 65536 = 1) as Hb1 by (symmetry; apply (Z.div_unique_pos b 65536 1 (b - 65536)); lia).
    pose proof (Z.div_mod b 65536).
    apply (ones_sum_unique _ _ (a / 65536 + 1)); lia.
Qed.

Lemma ones_sum_range s : 0 <= s -> 0 <= ones_sum s <= 65535.
Proof. intros. unfold ones_sum. zcases; [lia|]. pose proof (Z.mod_pos_bound (s - 1) 65535). lia. Qed.

Definition fits_checksum (l : list Z) : Prop := bytes l /\ Z.of_nat (length l) <= 65535.

Lemma standard_chksum_val l : fits_checksum l ->
  lwip_standard_chksum l = lwip_htons (ones_sum (word_sum l)).
Proof.
  intros [Hb Hl]. pose proof (word_sum_bound l Hb).
  unfold lwip_standard_chksum. rewrite sum_words_val by (done || lia). rewrite Z.add_0_l.
  rewrite fold_twice by lia. pose proof (ones_sum_range (word_sum l)). by unwrap.
Qed.

Lemma htons_compl x : 0 <= x <= 65535 -> u16 (Z.lnot (lwip_htons x)) = lwip_htons (65535 - x).
Proof.
  intros. pose proof (be16_bytes x). pose proof (be16_val x).
  rewrite !htons_val by lia. unfold Z.lnot.
  replace (65535 - x) with ((255 - x / 256) * 256 + (255 - x `mod` 256)) by lia.
  destruct (byte_split (255 - x / 256) (255 - x `mod` 256)) as [-> ->]; [lia|].
  unfold u16, wrap. change (2 ^ 16) with 65536.
  symmetry. apply (Zmod_unique _ _ (-1)); lia.
Qed.

Lemma inet_checksum_val l : fits_checksum l ->
  inet_checksum l = lwip_htons (65535 - ones_sum (word_sum l)).
Proof.
  intros H. unfold inet_checksum. rewrite standard_chksum_val by done.
  pose proof (word_sum_bound l (proj1 H)). apply htons_compl, ones_sum_range. lia.
Qed.

Lemma htons_zero x : 0 <= x < 65536 -> lwip_htons x = 0 -> x = 0.
Proof. intros. pose proof (be16_bytes x). pose proof (be16_val x). rewrite htons_val in *; lia. Qed.

Lemma word_sum_app l1 l2 : Nat.Even (length l1) -> word_sum (l1 ++ l2) = word_sum l1 + word_sum l2.
Proof.
  induction l1 as [|a|a b l IH] using list_pair_ind; simpl; [lia| |].
  - intros [k Hk]. lia.
  - intros [k Hk]. rewrite IH; [lia|]. exists (k - 1)%nat. lia.
Qed.

Lemma bytes_app l1 l2 : bytes (l1 ++ l2) <-> bytes l1 /\ bytes l2.
Proof. apply Forall_app. Qed.

Lemma inet_checksum_zero l : fits_checksum l ->
  inet_checksum l = 0 <-> 0 < word_sum l /\ (65535 | word_sum l).
Proof.
  intros Hf. rewrite inet_checksum_val by done. pose proof (word_sum_bound l (proj1 Hf)).
  pose proof (ones_sum_range (word_sum l)). split.
  - intros Hz%htons_zero; [|lia]. unfold ones_sum in Hz. destruct (Z.eqb_spec (word_sum l) 0); [lia|].
    split; [lia|]. pose proof (Z.div_mod (word_sum l - 1) 65535). exists ((word_sum l - 1) / 65535 + 1).
    lia.
  - intros [Hp [k Hk]]. rewrite (ones_sum_unique _ 65535 (k - 1)) by lia. done.
Qed.

Lemma ones_sum_complement s : 0 <= s ->
  0 < s + 65535 - ones_sum s /\ (65535 | s + 65535 - ones_sum s).
Proof.
  intros. unfold ones_sum. destruct (Z.eqb_spec s 0) as [He|He].
  - split; [lia|]. exists 1. lia.
  - pose proof (Z.div_mod (s - 1) 65535). pose proof (Z.mod_pos_bound (s - 1) 65535).
    split; [lia|]. exists ((s - 1) / 65535 + 1). lia.
Qed.

Lemma checksum_stored l1 l2 :
  bytes (l1 ++ l2) -> Nat.Even (length l1) -> Z.of_nat (length (l1 ++ l2)) + 2 <= 65535 ->
  inet_checksum (l1 ++ le16 (inet_checksum (l1 ++ [0; 0] ++ l2)) ++ l2) = 0.
Proof.
  intros [Hb1 Hb2]%bytes_app Heven Hlen. rewrite length_app in Hlen.
  assert (fits_checksum (l1 ++ [0; 0] ++ l2)) as Hfit.
  { split; [apply bytes_app; split; [done|]; apply bytes_app; split; [repeat constructor; lia|done]|].
    rewrite !length_app. simpl. lia. }
  apply inet_checksum_zero.
  { split; [|rewrite !length_app; simpl; lia].
    apply bytes_app. split; [done|]. apply bytes_app. split; [|done].
    repeat (apply Forall_cons; split); auto with width. }
  pose proof (word_sum_bound _ (proj1 Hfit)) as [Hs _]. rewrite inet_checksum_val by done.
  assert (word_sum (l1 ++ [0; 0] ++ l2) = word_sum l1 + word_sum l2) as Hw
    by (rewrite word_sum_app by done; done).
  rewrite Hw in *. set (s := word_sum l1 + word_sum l2) in *.
  pose proof (ones_sum_range s Hs) as Hr.
  rewrite store_htons, word_sum_app by (done || lia). cbn [word_sum app be16].
  rewrite be16_val by lia.
  replace (word_sum l1 + _) with (s + 65535 - ones_sum s) by lia.
  by apply ones_sum_complement.
Qed.

(** [inet_checksum] is zero exactly for the buffers whose ones'
    complement sum is -0, and a buffer into which [inet_checksum] of the
    buffer with a zeroed, word-aligned checksum field is stored, as
    [ip_packet_send] and [icmp_send] do, has checksum zero: the receiver
    accepts it. *)
Theorem checksum_verifies l1 l2 :
  bytes (l1 ++ l2) -> Nat.Even (length l1) -> Z.of_nat (length (l1 ++ l2)) + 2 <= 65535 ->
  inet_checksum (l1 ++ le16 (inet_checksum (l1 ++ [0; 0] ++ l2)) ++ l2) = 0
  /\ (forall l, bytes l -> Z.of_nat (length l) <= 65535 ->
      inet_checksum l = 0 <-> 0 < word_sum l /\ (65535 | word_sum l)).
Proof.
  intros. split; [by apply checksum_stored|]. intros l ??. by apply inet_checksum_zero.
Qed.

End Checksum.

Module SumSample.

Lemma checksum_verifies_witness :
  inet_checksum ([69; 0; 0; 28] ++ le16 (inet_checksum ([69; 0; 0; 28] ++ [0; 0] ++ [7]))
                 ++ [7]) = 0.
Proof.
  refine (proj1 (checksum_verifies [69; 0; 0; 28] [7] _ _ _)).
  - unfold bytes. vm_decide.
  - by exists 2%nat.
  - simpl. lia.
Defined.

End SumSample.
