(* ===== verification/NetCorrect.v ===== *)
(** The network stack is correct: packets survive the serial line, a UDP
    message sent by one host reaches the domain that registered its port on
    the other one, echo requests are answered, the port list is an ordered
    finite map, and the receive buffer is a queue. *)
From S2P Require Import Prelude Net NetSum.

(** * The serial line *)

Section SlipLine.

Lemma slip_receive_app a b st :
  slip_receive (a ++ b) st =
  let '(st1, ps1) := slip_receive a st in
  let '(st2, ps2) := slip_receive b st1 in (st2, ps1 ++ ps2).
Proof.
  revert st. induction a as [|x a IH]; intros st; simpl.
  - by destruct (slip_receive b st).
  - destruct (slip_receive_byte x st) as [st1 p]. rewrite IH.
    destruct (slip_receive a st1) as [st2 ps2], (slip_receive b st2) as [st3 ps3].
    by destruct p.
Qed.

(** One byte of a packet, from a state that is not in an escape. *)
Lemma slip_receive_escape b acc :
  slip_receive (slip_escape b) (Slip acc false) = (Slip (ip_add_byte b acc) false, []).
Proof.
  unfold slip_escape. zcases; subst; try done. simpl. unfold slip_receive_byte. simpl.
  by rewrite (proj2 (Z.eqb_neq b SLIP_END)), (proj2 (Z.eqb_neq b SLIP_ESC)).
Qed.

Lemma ip_add_byte_fits b l :
  Z.of_nat (length l) < IP_MAX_SIZE -> ip_add_byte b (Some l) = Some (l ++ [b]).
Proof. intros. unfold ip_add_byte. by zdecide. Qed.

Lemma slip_receive_bytes l : forall acc, Z.of_nat (length acc + length l) <= IP_MAX_SIZE ->
  slip_receive (l ≫= slip_escape) (Slip (Some acc) false) = (Slip (Some (acc ++ l)) false, []).
Proof.
  induction l as [|b l IH]; intros acc Hl; [by rewrite app_nil_r|].
  rewrite bind_cons, slip_receive_app, slip_receive_escape. simpl in Hl.
  rewrite ip_add_byte_fits by lia. rewrite IH by (rewrite length_app; simpl; lia).
  by rewrite <- app_assoc.
Qed.

Lemma slip_receive_packet l : l <> [] -> Z.of_nat (length l) <= IP_MAX_SIZE ->
  slip_receive ((l ≫= slip_escape) ++ [SLIP_END]) (Slip None false) = (Slip None false, [l]).
Proof.
  intros Hne Hl. destruct l as [|b l]; [done|].
  rewrite bind_cons, <- app_assoc, slip_receive_app, slip_receive_escape.
  assert (ip_add_byte b None = Some [b]) as -> by (unfold ip_add_byte; by zdecide).
  by rewrite slip_receive_app, (slip_receive_bytes l [b]).
Qed.

(** Whatever came before it, a packet leaves the receiver at a boundary. *)
Lemma slip_receive_any l : forall st, l <> [] ->
  exists acc, slip_receive (l ≫= slip_escape) st = (Slip acc false, []).
Proof.
  assert (forall l acc, exists acc', slip_receive (l ≫= slip_escape) (Slip acc false)
    = (Slip acc' false, [])) as Hl.
  { clear l. induction l as [|b l IH]; intros acc; [eauto|].
    rewrite bind_cons, slip_receive_app, slip_receive_escape.
    by destruct (IH (ip_add_byte b acc)) as [acc' ->]; eauto. }
  intros [acc e] Hne. destruct l as [|b l]; [done|].
  rewrite bind_cons, slip_receive_app. destruct e.
  - assert (exists acc', slip_receive (slip_escape b) (Slip acc true) = (Slip acc' false, []))
      as [acc' ->].
    { unfold slip_escape. zcases; subst; eexists; simpl; unfold slip_receive_byte; simpl; try done. }
    by destruct (Hl l acc') as [acc'' ->]; eauto.
  - rewrite slip_receive_escape. by destruct (Hl l (ip_add_byte b acc)) as [acc'' ->]; eauto.
Qed.

(** A packet whose header states its length, as those [ip_packet_send]
    builds. *)
Definition sized (p : list Z) : Prop :=
  p <> [] /\ Z.of_nat (length p) <= IP_MAX_SIZE /\ lwip_ntohs (get16 p 2) = Z.of_nat (length p).

Lemma slip_send_sized p : sized p -> slip_send p = (p ≫= slip_escape) ++ [SLIP_END].
Proof. intros (_ & _ & Hl). unfold slip_send. by rewrite Hl, Nat2Z.id, firstn_all. Qed.

Lemma slip_receive_stream ps : Forall sized ps ->
  slip_receive (ps ≫= slip_send) (Slip None false) = (Slip None false, ps).
Proof.
  induction 1 as [|p ps Hp _ IH]; [done|].
  rewrite bind_cons, slip_receive_app, (slip_send_sized p Hp).
  destruct Hp as (? & ? & _). by rewrite slip_receive_packet, IH.
Qed.

(** The serial line delivers what is sent: from the idle state, the
    bytes [slip_send] writes for a sequence of packets make [slip_receive]
    hand on exactly these packets, in order, and return to idle, whatever
    bytes the packets contain; from any other state (noise on the line, the
    middle of a packet) all packets but the first arrive. *)
Theorem slip_roundtrip p ps : Forall sized (p :: ps) ->
  slip_receive ((p :: ps) ≫= slip_send) (Slip None false) = (Slip None false, p :: ps)
  /\ forall st, exists noise, (length noise <= 1)%nat
     /\ slip_receive ((p :: ps) ≫= slip_send) st = (Slip None false, noise ++ ps).
Proof.
  intros Hps. split; [by apply slip_receive_stream|]. intros st.
  apply Forall_cons in Hps as [Hp Hps].
  rewrite bind_cons, slip_receive_app, (slip_send_sized p Hp), slip_receive_app.
  destruct (slip_receive_any p st (proj1 Hp)) as [acc ->].
  simpl. rewrite (slip_receive_stream ps Hps).
  destruct acc as [q|]; [exists [q]|exists []]; simpl; split; (lia || done).
Qed.

End SlipLine.

(** * Registered ports *)

Section Ports.

Definition port_lt (a b : udp_port) : Prop := portnum a < portnum b.
Definition sorted_ports (l : list udp_port) : Prop := StronglySorted port_lt l.

(** The finite map a port list stands for. *)
Definition ports (l : list udp_port) : gmap Z udp_port :=
  list_to_map ((fun p => (portnum p, p)) <$> l).

Lemma ports_above p l : Forall (fun q => p < portnum q) l -> ports l !! p = None.
Proof.
  intros Hl. apply not_elem_of_list_to_map_1. intros Hin.
  rewrite <- list_fmap_compose, list_elem_of_fmap in Hin. destruct Hin as (q & -> & Hq).
  rewrite Forall_forall in Hl. specialize (Hl q Hq). simpl in Hl. lia.
Qed.

Lemma ports_insert_mid pre port post : ports pre !! portnum port = None ->
  ports (pre ++ port :: post) = <[portnum port := port]> (ports (pre ++ post)).
Proof.
  intros Hn. unfold ports in *. rewrite !fmap_app, fmap_cons, !list_to_map_app. simpl.
  by rewrite insert_union_r.
Qed.

Lemma search_walk_lookup p rest : forall cur, sorted_ports (cur :: rest) ->
  search_walk p cur rest = ports (cur :: rest) !! p.
Proof.
  induction rest as [|next rest IH]; intros cur Hs; simpl.
  - unfold ports. simpl. destruct (Z.eqb_spec (portnum cur) p) as [<-|Hne].
    + by rewrite lookup_insert_eq.
    + by rewrite lookup_insert_ne.
  - apply StronglySorted_inv in Hs as [Hs Hall].
    change (ports (cur :: next :: rest)) with (<[portnum cur := cur]> (ports (next :: rest))).
    destruct (Z.ltb_spec (portnum cur) p) as [Hlt|Hge].
    + rewrite lookup_insert_ne by lia. by apply IH.
    + destruct (Z.eqb_spec (portnum cur) p) as [<-|Hne].
      * by rewrite lookup_insert_eq.
      * rewrite lookup_insert_ne by done. symmetry. apply ports_above.
        eapply Forall_impl; [exact Hall|]. intros q Hq. unfold port_lt in Hq. lia.
Qed.

Lemma search_udp_port_lookup p l : sorted_ports l -> (search_udp_port p l).1 = ports l !! p.
Proof.
  destruct l as [|cur rest]; [done|]. intros Hs. simpl.
  rewrite <- search_walk_lookup by done. by destruct (search_walk p cur rest).
Qed.

Lemma sorted_app_iff (a b : list udp_port) :
  sorted_ports (a ++ b) <->
  sorted_ports a /\ sorted_ports b /\ (forall x y, x ∈ a -> y ∈ b -> port_lt x y).
Proof. unfold sorted_ports. rewrite StronglySorted_app. tauto. Qed.

Lemma ports_found q l : q ∈ l -> sorted_ports l -> ports l !! portnum q = Some q.
Proof.
  intros Hin Hs. apply elem_of_list_to_map_1.
  - rewrite <- list_fmap_compose. clear q Hin. induction Hs as [|x l Hs IH Hx]; [constructor|].
    constructor; [|done]. intros (y & Hy & Hin)%list_elem_of_fmap. rewrite Forall_forall in Hx.
    specialize (Hx y Hin). unfold port_lt in Hx. simpl in Hy. lia.
  - apply list_elem_of_fmap. by exists q.
Qed.

Lemma ports_taken p q l : portnum q = p -> q ∈ l -> sorted_ports l -> is_Some (ports l !! p).
Proof. intros <- Hq Hs. exists q. by apply ports_found. Qed.

Lemma above_all p x l : Forall (port_lt x) l -> p <= portnum x -> Forall (fun q => p < portnum q) l.
Proof. intros Hl Hx. eapply Forall_impl; [exact Hl|]. intros y Hy. unfold port_lt in Hy. lia. Qed.

Lemma below_snoc p x l : Forall (fun q => portnum q < p) l -> portnum x < p ->
  Forall (fun q => portnum q < p) (l ++ [x]).
Proof. intros. apply Forall_app. split; [done|]. by constructor. Qed.

(** The position found by the walk, for a sorted list cut at the walk. *)
Lemma insert_walk_correct port rest : forall pre cur,
  sorted_ports (pre ++ cur :: rest) -> Forall (fun q => portnum q < portnum port) pre ->
  (pre <> [] -> portnum cur < portnum port) ->
  (insert_walk port pre cur rest = Done None /\ is_Some (ports (pre ++ cur :: rest) !! portnum port))
  \/ exists a b, insert_walk port pre cur rest = Done (Some (a ++ port :: b))
     /\ pre ++ cur :: rest = a ++ b
     /\ Forall (fun q => portnum q < portnum port) a /\ Forall (fun q => portnum port < portnum q) b.
Proof.
  induction rest as [|next rest IH]; intros pre cur Hs Hpre Hcur; simpl.
  - destruct (Z.eqb_spec (portnum cur) (portnum port)) as [He|He].
    { left. split; [done|]. eapply ports_taken; [exact He| |done]. set_solver. }
    right. destruct (Z.ltb_spec (portnum port) (portnum cur)).
    + destruct pre as [|x pre]; [|specialize (Hcur ltac:(done)); lia].
      exists [], [cur]. split_and!; try done. constructor; [lia|constructor].
    + exists (pre ++ [cur]), []. rewrite <- app_assoc. split_and!; try done.
      * by rewrite app_nil_r.
      * apply below_snoc; [done|lia].
  - pose proof (proj1 (sorted_app_iff _ _) Hs) as (_ & Hs2 & _).
    apply StronglySorted_inv in Hs2 as [Hs3 Hall]. inversion Hall as [|?? Hcn _]; subst.
    unfold port_lt in Hcn. apply StronglySorted_inv in Hs3 as [_ Hnext].
    destruct (Z.ltb_spec (portnum next) (portnum port)) as [Hlt|Hge].
    { assert (pre ++ cur :: next :: rest = (pre ++ [cur]) ++ next :: rest) as Heq
        by by rewrite <- app_assoc.
      rewrite Heq in Hs |- *. apply IH; [done| |done].
      apply below_snoc; [done|lia]. }
    destruct (Z.eqb_spec (portnum next) (portnum port)) as [He|Hne]; simpl.
    { left. split; [done|]. eapply ports_taken; [exact He| |done]. set_solver. }
    destruct (Z.eqb_spec (portnum cur) (portnum port)) as [He|Hne']; simpl.
    { left. split; [done|]. eapply ports_taken; [exact He| |done]. set_solver. }
    right. destruct (Z.ltb_spec (portnum port) (portnum cur)).
    + destruct pre as [|x pre]; [|specialize (Hcur ltac:(done)); lia].
      exists [], (cur :: next :: rest). split_and!; try done.
      constructor; [lia|]. eapply above_all; [exact Hall|lia].
    + exists (pre ++ [cur]), (next :: rest). rewrite <- !app_assoc. split_and!; try done.
      * apply below_snoc; [done|lia].
      * constructor; [lia|]. eapply above_all; [exact Hnext|lia].
Qed.

Lemma insert_sorted a port b : sorted_ports (a ++ b) ->
  Forall (fun q => portnum q < portnum port) a -> Forall (fun q => portnum port < portnum q) b ->
  sorted_ports (a ++ port :: b).
Proof.
  intros (Ha & Hb & Hab)%sorted_app_iff Hlt Hgt. rewrite Forall_forall in Hlt.
  apply sorted_app_iff. split_and!; [done| |].
  - constructor; [done|]. exact Hgt.
  - intros x y Hx [->|Hy]%elem_of_cons; [by apply Hlt|by apply Hab].
Qed.

Lemma ports_below p l : Forall (fun q => portnum q < p) l -> ports l !! p = None.
Proof.
  intros Hl. apply not_elem_of_list_to_map_1. intros Hin.
  rewrite <- list_fmap_compose, list_elem_of_fmap in Hin. destruct Hin as (q & -> & Hq).
  rewrite Forall_forall in Hl. specialize (Hl q Hq). simpl in Hl. lia.
Qed.

(** The port list implements a finite map from port numbers: on a
    sorted list, [search_udp_port] is the lookup, [udp_port_insert_ordered]
    never fails its assertion, refuses a port that is registered and leaves
    the list as it is, and otherwise inserts the port and keeps the list
    sorted. *)
Theorem ports_refine_map port l : sorted_ports l ->
  (forall p, search_udp_port p l =
     match ports l !! p with
     | Some q => (Some q, SYS_ERR_OK)
     | None => (None, err AOS_NET_ERR_UDP_NO_SUCH_PORT)
     end)
  /\ exists l' e, udp_port_insert_ordered port l = Done (l', e) /\ sorted_ports l'
     /\ match ports l !! portnum port with
        | Some _ => e = err AOS_NET_ERR_UDP_PORT_EXISTS /\ l' = l
        | None => e = SYS_ERR_OK /\ ports l' = <[portnum port := port]> (ports l)
        end.
Proof.
  intros Hs. split.
  { intros p. rewrite <- search_udp_port_lookup by done.
    destruct l as [|cur rest]; [done|]. simpl. by destruct (search_walk p cur rest). }
  destruct l as [|cur rest].
  { exists [port], SYS_ERR_OK. split_and!; try done. repeat constructor. }
  unfold udp_port_insert_ordered.
  destruct (insert_walk_correct port rest [] cur) as [[-> [q Hq]]|(a & b & -> & Hl & Ha & Hb)];
    try done.
  - exists (cur :: rest), (err AOS_NET_ERR_UDP_PORT_EXISTS). simpl in Hq. by rewrite Hq.
  - simpl in Hl. rewrite Hl in *. exists (a ++ port :: b), SYS_ERR_OK.
    split_and!; [done|by apply insert_sorted|].
    assert (ports (a ++ b) !! portnum port = None) as ->.
    { unfold ports. rewrite fmap_app, list_to_map_app. apply lookup_union_None.
      split; [by apply ports_below|by apply ports_above]. }
    split; [done|]. by apply ports_insert_mid, ports_below.
Qed.

Lemma remove_walk_past p rest : forall pre cur, portnum cur <> p \/ rest <> [] ->
  Forall (fun q => p < portnum q) rest -> remove_walk p pre cur rest = None.
Proof.
  induction rest as [|next rest IH]; intros pre cur Hc Hall; simpl.
  - destruct Hc as [Hc|Hc]; [|done]. by zdecide.
  - apply Forall_cons in Hall as [Hn Hall]. zdecide. apply IH; [|done]. left. lia.
Qed.

(** [udp_port_remove] takes a port off the list only when it is the
    second one of the list (or the only one): its loop condition compares
    the wrong way round, so that with two or more registered ports any
    other port, although registered, is reported not to exist. *)
Theorem udp_port_remove_only_second p a b rest : sorted_ports (a :: b :: rest) ->
  udp_port_remove p (a :: b :: rest) =
    (if p =? portnum b then (a :: rest, SYS_ERR_OK)
     else (a :: b :: rest, err AOS_NET_ERR_UDP_NO_SUCH_PORT)).
Proof.
  intros [Hs Ha]%StronglySorted_inv. apply StronglySorted_inv in Hs as [_ Hb].
  unfold udp_port_remove. cbn [remove_walk].
  destruct (Z.ltb_spec p (portnum b)); zdecide.
  - rewrite remove_walk_past; [done|left; lia|]. apply (above_all p b); [done|lia].
  - destruct (Z.eqb_spec p (portnum b)); zdecide; done.
Qed.

End Ports.

(** * Packets *)

Section Packets.

Definition u8_ok (x : Z) : Prop := 0 <= x < 256.
Definition u16_ok (x : Z) : Prop := 0 <= x < 65536.
Definition u32_ok (x : Z) : Prop := 0 <= x < 4294967296.

(** The header [ip_packet_send] builds, as it is on the wire. *)
Definition wire_header (src dst n protocol ck : Z) : list Z :=
  ([69; 0] ++ be16 (20 + n) ++ [0; 0; 64; 0; 64; protocol]) ++ le16 ck ++ (be32 src ++ be32 dst).

Lemma ip_header_wire src dst n protocol ck :
  u32_ok src -> u32_ok dst -> 0 <= n -> 20 + n <= 65535 -> u8_ok protocol ->
  ip_header_bytes src n dst protocol ck = wire_header src dst n protocol ck.
Proof.
  intros ????[??]. unfold ip_header_bytes, wire_header.
  change (IP_HEADER_MIN_SIZE * 4) with 20. rewrite (u16_small (20 + n)) by lia.
  rewrite store_htons, !store_htonl by (done || lia). rewrite (u8_small protocol) by lia.
  by rewrite <- !app_assoc.
Qed.

Lemma be32_bytes x : u32_ok x -> bytes (be32 x).
Proof.
  intros [??]. repeat (apply Forall_cons; split); try (apply Z.mod_pos_bound; lia); [|done].
  apply div_bound; lia.
Qed.

Lemma be16_all_bytes x : u16_ok x -> bytes (be16 x).
Proof. intros H. destruct (be16_bytes x H). by repeat (apply Forall_cons; split). Qed.

Definition sent_packet (src dst protocol : Z) (p : list Z) : list Z :=
  let n := Z.of_nat (length p) in
  wire_header src dst n protocol (inet_checksum (wire_header src dst n protocol 0)) ++ p.

Lemma header_checksum_ok src dst n protocol :
  u32_ok src -> u32_ok dst -> 0 <= n -> 20 + n <= 65535 -> u8_ok protocol ->
  inet_checksum (wire_header src dst n protocol (inet_checksum (wire_header src dst n protocol 0))) = 0.
Proof.
  intros. unfold wire_header at 1.
  change (wire_header src dst n protocol 0)
    with (([69; 0] ++ be16 (20 + n) ++ [0; 0; 64; 0; 64; protocol]) ++ [0; 0] ++ (be32 src ++ be32 dst)).
  apply checksum_stored.
  - rewrite !bytes_app. split_and!; try by apply be32_bytes.
    + repeat constructor; lia.
    + apply be16_all_bytes. unfold u16_ok. lia.
    + repeat (apply Forall_cons; split); (done || lia).
  - by exists 5%nat.
  - simpl. lia.
Qed.

Lemma slice_all p : slice p 0 (Z.of_nat (length p)) = Done p.
Proof. unfold slice. zdecide. by rewrite Nat2Z.id, firstn_all. Qed.

Lemma ip_packet_send_ok p dst protocol st :
  u32_ok (MY_IP st) -> u32_ok dst -> 20 + Z.of_nat (length p) <= 65535 -> u8_ok protocol ->
  ip_packet_send p (Z.of_nat (length p)) dst protocol st
  = Done [SendPacket (sent_packet (MY_IP st) dst protocol p)].
Proof.
  intros. unfold ip_packet_send. rewrite slice_all. change (IP_HEADER_MIN_SIZE * 4) with 20.
  unfold IP_MAX_SIZE, mbind, outcome_bind. zdecide.
  by rewrite !ip_header_wire by (done || lia).
Qed.

Lemma wire_header_length src dst n protocol ck : length (wire_header src dst n protocol ck) = 20%nat.
Proof. done. Qed.

Lemma sent_packet_sized src dst protocol p :
  20 + Z.of_nat (length p) <= 65535 -> sized (sent_packet src dst protocol p).
Proof.
  intros. unfold sized, sent_packet.
  split; [done|]. rewrite length_app, wire_header_length. unfold IP_MAX_SIZE. split; [lia|].
  unfold get16, byte_at. cbn -[Z.of_nat Z.div Z.modulo Z.add Z.mul lwip_ntohs inet_checksum length].
  rewrite load_be16 by lia. lia.
Qed.

(** What [ip_handle_packet] does with a packet that passes its checks. *)
Definition ip_dispatch (protocol : Z) (payload : list Z) (n src : Z) (st : net_state) :=
  if protocol =? PROTOCOL_ICMP then icmp_receive payload n src st
  else if protocol =? PROTOCOL_UDP then udp_receive payload n src (MY_IP st) st
  else Done [].

Lemma ip_handle_sent src protocol p rest st :
  u32_ok src -> u32_ok (MY_IP st) -> 20 + Z.of_nat (length p) <= 65535 -> u8_ok protocol ->
  ip_handle_packet (sent_packet src (MY_IP st) protocol p ++ rest) st
  = ip_dispatch protocol (p ++ rest) (Z.of_nat (length p)) src st.
Proof.
  intros. unfold ip_handle_packet, sent_packet.
  set (n := Z.of_nat (length p)) in *.
  set (ck := inet_checksum (wire_header src (MY_IP st) n protocol 0)).
  set (mem := (wire_header src (MY_IP st) n protocol ck ++ p) ++ rest).
  assert (byte_at mem 0 = 69) as -> by done. assert (byte_at mem 9 = protocol) as -> by done.
  assert (get16 mem 6 = 64) as -> by done.
  assert (lwip_ntohs (get16 mem 2) = 20 + n) as -> by (apply (load_be16 (20 + n)); lia).
  assert (get32 mem 16 = lwip_ntohl (MY_IP st)) as -> by (by apply load_be32_htonl).
  assert (lwip_ntohl (get32 mem 12) = src) as ->.
  { transitivity (lwip_htonl (load_be32 src)); [done|].
    by rewrite load_be32_htonl, htonl_involutive. }
  change (Z.land 69 15 * 4) with 20. change (Z.to_nat 20) with 20%nat.
  assert (take 20 mem = wire_header src (MY_IP st) n protocol ck) as -> by done.
  assert (drop 20 mem = p ++ rest) as -> by done.
  unfold ck. rewrite header_checksum_ok by (done || lia).
  change (IP_HEADER_MIN_SIZE * 4) with 20. rewrite (u32_small (20 + n - 20)) by lia.
  rewrite Z.eqb_refl. zdecide. cbn. by replace (20 + n - 20) with n by lia.
Qed.

Lemma slice_prefix p rest : slice (p ++ rest) 0 (Z.of_nat (length p)) = Done p.
Proof. unfold slice. rewrite length_app. zdecide. by rewrite Nat2Z.id, drop_0, take_app_length. Qed.

(** The memory in which a packet is received starts with the packet. *)
Lemma finish_sent src protocol p junk st :
  u32_ok src -> u32_ok (MY_IP st) -> 20 + Z.of_nat (length p) <= 65535 -> u8_ok protocol ->
  exists rest, finish_ip_packet junk (Some (sent_packet src (MY_IP st) protocol p)) st
  = ip_dispatch protocol (p ++ rest) (Z.of_nat (length p)) src st.
Proof.
  intros. eexists. unfold finish_ip_packet.
  rewrite take_app_ge; [by rewrite ip_handle_sent|].
  unfold sent_packet. rewrite length_app, wire_header_length.
  unfold IP_MAX_SIZE. lia.
Qed.

Definition wire_udp (pf pt : Z) (data : list Z) : list Z :=
  be16 pf ++ be16 pt ++ be16 (Z.of_nat (length data) + 8) ++ [0; 0] ++ data.

Lemma udp_bytes_wire pf pt data : u16_ok pf -> u16_ok pt -> Z.of_nat (length data) <= 1024 ->
  udp_bytes pf pt (Z.of_nat (length data)) data = wire_udp pf pt data.
Proof.
  intros. unfold udp_bytes, wire_udp, UDP_HEADER_SIZE.
  rewrite (u16_small (_ + 8)), !store_htons by (done || lia). done.
Qed.

Lemma udp_receive_wire pf pt data rest src dst st : u16_ok pf -> u16_ok pt ->
  Z.of_nat (length data) <= 1024 -> sorted_ports (port_list_head st) ->
  udp_receive (wire_udp pf pt data ++ rest) (Z.of_nat (length (wire_udp pf pt data))) src dst st
  = Done match ports (port_list_head st) !! pt with
         | Some q => [Transfer pf pt src dst PROTOCOL_UDP data (pid q) (core q)]
         | None => []
         end.
Proof.
  intros Hpf Hpt Hlen Hs. unfold udp_receive.
  set (mem := wire_udp pf pt data ++ rest).
  assert (lwip_ntohs (get16 mem 0) = pf) as -> by by apply load_be16.
  assert (lwip_ntohs (get16 mem 2) = pt) as -> by by apply load_be16.
  rewrite <- search_udp_port_lookup by done.
  destruct (search_udp_port pt (port_list_head st)) as [[q|] e]; [|done]. cbn [fst].
  assert (drop 8 mem = data ++ rest) as -> by done.
  assert (length (wire_udp pf pt data) = (8 + length data)%nat) as -> by done.
  unfold UDP_HEADER_SIZE. unwrap.
  replace (Z.of_nat (8 + length data) - 8) with (Z.of_nat (length data)) by lia.
  unfold network_message_transfer. rewrite slice_prefix. unfold mbind, outcome_bind.
  unfold MAX_PACKET_PAYLOAD. by zdecide.
Qed.

Lemma le32_bytes x : bytes (le32 x).
Proof. repeat (apply Forall_cons; split); auto with width. Qed.

Lemma le32_load a b c d : u8_ok a -> u8_ok b -> u8_ok c -> u8_ok d ->
  le32 (a + 256 * b + 65536 * (c + 256 * d)) = [a; b; c; d].
Proof.
  unfold u8_ok. intros. unfold le32, u8, wrap. rewrite !Z.shiftr_div_pow2 by lia.
  change (2 ^ 16) with (256 * 256). change (2 ^ 24) with (256 * 256 * 256). change (2 ^ 8) with 256.
  rewrite <- !Z.div_div by lia.
  replace (a + 256 * b + 65536 * (c + 256 * d)) with (((d * 256 + c) * 256 + b) * 256 + a) by lia.
  destruct (byte_split ((d * 256 + c) * 256 + b) a) as [-> ->]; [done|].
  destruct (byte_split (d * 256 + c) b) as [-> ->]; [done|].
  destruct (byte_split d c) as [-> ->]; [done|]. by rewrite Z.mod_small.
Qed.

(** An echo request is answered: for every ICMP message of type
    ECHO_REQUEST addressed to this host, with any code, identifier and data,
    the stack sends one packet back to the sender that carries an ECHO_REPLY
    with the same identifier bytes and data and a checksum that verifies. *)
Theorem icmp_echo_answered code ck i0 i1 i2 i3 data src junk st :
  u32_ok src -> u32_ok (MY_IP st) -> bytes [i0; i1; i2; i3] -> bytes data ->
  28 + Z.of_nat (length data) <= 65535 ->
  exists ck', let reply := [0; 0] ++ le16 ck' ++ [i0; i1; i2; i3] ++ data in
    finish_ip_packet junk
      (Some (sent_packet src (MY_IP st) PROTOCOL_ICMP
               ([8; code] ++ le16 ck ++ [i0; i1; i2; i3] ++ data))) st
    = Done [SendPacket (sent_packet (MY_IP st) src PROTOCOL_ICMP reply)]
    /\ inet_checksum reply = 0.
Proof.
  intros Hsrc Hip Hid Hdata Hlen.
  set (request := [8; code] ++ le16 ck ++ [i0; i1; i2; i3] ++ data).
  assert (length request = (8 + length data)%nat) as Hrl by done.
  set (body := [i0; i1; i2; i3] ++ data).
  set (ck' := inet_checksum ([0; 0] ++ [0; 0] ++ body)).
  exists ck'. cbv zeta.
  destruct (finish_sent src PROTOCOL_ICMP request junk st) as [rest ->]; try (done || lia).
  split.
  - assert (forall c, icmp_bytes ECHO_REPLY 0 c (get32 (request ++ rest) 4) data
      = [0; 0] ++ le16 c ++ body) as Hbytes.
    { intros c. unfold icmp_bytes, body. do 2 f_equal. f_equal.
      apply Forall_cons in Hid as [? Hid]. apply Forall_cons in Hid as [? Hid].
      apply Forall_cons in Hid as [? Hid]. apply Forall_cons in Hid as [? _].
      by apply le32_load. }
    change (icmp_receive (request ++ rest) (Z.of_nat (length request)) src st
      = Done [SendPacket (sent_packet (MY_IP st) src PROTOCOL_ICMP ([0; 0] ++ le16 ck' ++ body))]).
    unfold icmp_receive. change (byte_at (request ++ rest) 0 =? ECHO_REQUEST) with true.
    cbv iota. unfold ICMP_HEADER_SIZE. rewrite Hrl, u32_small by lia.
    replace (Z.of_nat (8 + length data) - 8) with (Z.of_nat (length data)) by lia.
    change (drop 8 (request ++ rest)) with (data ++ rest).
    unfold icmp_send. rewrite slice_prefix. unfold mbind, outcome_bind, ICMP_HEADER_SIZE.
    rewrite (u32_small (_ + 8)), (u16_small (_ + 8)) by lia. zdecide.
    rewrite !Hbytes. change (le16 0) with [0; 0].
    rewrite take_ge by (unfold body; rewrite !length_app; simpl; lia). fold ck'.
    replace (Z.of_nat (length data) + 8) with (Z.of_nat (length ([0; 0] ++ le16 ck' ++ body)))
      by (unfold body; rewrite !length_app; simpl; lia).
    apply ip_packet_send_ok; try done. unfold body. rewrite !length_app. simpl. lia.
  - apply (checksum_stored [0; 0] body).
    + apply bytes_app. split; [unfold bytes; vm_decide|]. apply bytes_app. by split.
    + by exists 1%nat.
    + unfold body. rewrite !length_app. simpl. lia.
Qed.

End Packets.

(** * The receive buffer *)

Section Ring.

Definition ring_ok (q : net_msg_buf) : Prop :=
  length (buf q) = 200%nat /\ 0 <= start q < 200 /\ 0 <= rend q < 200.

(** The bytes in the buffer, oldest first. *)
Definition count (q : net_msg_buf) : nat := Z.to_nat ((start q - rend q) `mod` 200).
Definition cell (q : net_msg_buf) (i : nat) : Z :=
  byte_at (buf q) (Z.to_nat ((rend q + Z.of_nat i) `mod` 200)).
Definition queue (q : net_msg_buf) : list Z := cell q <$> seq 0 (count q).

(** Case split on whether an index or a distance wraps around. *)
Lemma mod_200_cases x : 0 <= x < 400 ->
  (x < 200 /\ x `mod` 200 = x) \/ (200 <= x /\ x `mod` 200 = x - 200).
Proof.
  intros. destruct (Z.lt_ge_cases x 200) as [Hlt|Hge]; [left|right]; (split; [done|]).
  - apply Z.mod_small. lia.
  - symmetry. apply (Zmod_unique _ _ 1); lia.
Qed.

Lemma count_cases q : ring_ok q ->
  (rend q <= start q /\ Z.of_nat (count q) = start q - rend q)
  \/ (start q < rend q /\ Z.of_nat (count q) = start q - rend q + 200).
Proof.
  intros (_ & ? & ?). unfold count.
  replace ((start q - rend q) `mod` 200) with ((start q - rend q + 200) `mod` 200)
    by (rewrite <- (Z.mod_add (start q - rend q) 1 200) by lia; f_equal; lia).
  destruct (mod_200_cases (start q - rend q + 200)) as [[? ->]|[? ->]]; lia.
Qed.

(** Writing at the end of the queue does not touch its cells. *)
Lemma cell_write q b i : ring_ok q -> (i <= count q)%nat -> (count q < 200)%nat ->
  byte_at (<[Z.to_nat (start q) := b]> (buf q)) (Z.to_nat ((rend q + Z.of_nat i) `mod` 200))
  = if decide (i = count q) then b else cell q i.
Proof.
  intros Hok Hi Hc. pose proof (count_cases q Hok) as Hcount. destruct Hok as (Hl & Hs & He).
  unfold cell, byte_at.
  destruct (mod_200_cases (rend q + Z.of_nat i)) as [[? Hm]|[? Hm]]; [lia| |]; rewrite Hm.
  all: case_decide as Hd.
  all: try (rewrite list_lookup_insert_ne by lia; done).
  all: match goal with |- context [<[?a:=_]> _ !! ?c] => replace c with a by lia end.
  all: rewrite list_lookup_insert_eq by lia; done.
Qed.

Lemma write_queue b q : ring_ok q -> ~ (start q = 199 /\ rend q = 0) ->
  ring_ok (write_byte b q)
  /\ queue (write_byte b q) = if (length (queue q) <? 199)%nat then queue q ++ [b] else queue q.
Proof.
  intros Hok Hcorner. pose proof (count_cases q Hok) as Hcount.
  assert (length (queue q) = count q) as -> by (unfold queue; by rewrite length_fmap, length_seq).
  unfold write_byte. destruct (Z.eqb_spec (start q + 1) (rend q)) as [Hfull|Hroom].
  { split; [done|]. by rewrite (proj2 (Nat.ltb_ge _ _)) by (destruct Hok as (? & ? & ?); lia). }
  pose proof Hok as (Hl & Hs & He).
  rewrite (proj2 (Nat.ltb_lt _ _)) by lia. set (q' := NetMsgBuf _ _ _).
  assert (ring_ok q') as Hok'.
  { unfold q', NET_BUF_SIZE. split_and!; simpl; [by rewrite length_insert| | |lia|lia]; zcases; lia. }
  split; [done|].
  assert (count q' = S (count q)) as Hc'.
  { pose proof (count_cases q' Hok') as Hcount'.
    assert (rend q' = rend q) as Hre by done.
    assert (start q' = if 200 <=? start q + 1 then 0 else start q + 1) as Hst by done.
    zcases_in Hst; lia. }
  unfold queue. rewrite Hc', seq_S, fmap_app. f_equal.
  - apply list_fmap_ext. intros j i Hi. apply lookup_seq in Hi as [-> Hi].
    unfold cell at 1, q'. simpl buf. simpl rend.
    rewrite cell_write by (done || lia). by rewrite decide_False by lia.
  - simpl. f_equal. unfold cell, q'. simpl buf. simpl rend.
    rewrite cell_write by (done || lia). by rewrite decide_True by lia.
Qed.

Lemma read_queue q : ring_ok q ->
  match queue q with
  | [] => net_msg_buf_read_byte q = Done (None, q)
  | b :: l => exists q', net_msg_buf_read_byte q = Done (Some b, q') /\ ring_ok q' /\ queue q' = l
  end.
Proof.
  intros Hok. pose proof (count_cases q Hok) as Hcount. pose proof Hok as (Hl & Hs & He).
  unfold queue, net_msg_buf_read_byte. destruct (count q) as [|c] eqn:Hc; simpl.
  { by zdecide. }
  rewrite (proj2 (Z.eqb_neq (start q) (rend q))) by lia. unfold NET_BUF_SIZE.
  set (e := if rend q + 1 =? 200 then 0 else rend q + 1).
  assert (0 <= e < 200 /\ (e = rend q + 1 \/ e = 0 /\ rend q = 199)) as [He1 He2]
    by (unfold e; destruct (Z.eqb_spec (rend q + 1) 200); lia).
  rewrite assert_true by (apply Z.leb_le; lia). simpl.
  exists (NetMsgBuf (buf q) (start q) e).
  assert (ring_ok (NetMsgBuf (buf q) (start q) e)) as Hok' by done.
  split_and!; try done.
  - do 2 f_equal. f_equal. unfold cell. by rewrite Z.add_0_r, Z.mod_small by lia.
  - assert (count (NetMsgBuf (buf q) (start q) e) = c) as ->
      by (pose proof (count_cases _ Hok') as Hcount'; simpl in Hcount'; lia).
    rewrite <- fmap_S_seq, <- list_fmap_compose. apply list_fmap_ext. intros j i Hi.
    unfold cell. simpl. do 2 f_equal. apply lookup_seq in Hi as [-> Hi].
    rewrite Nat.add_0_l.
    destruct (mod_200_cases (rend q + Z.of_nat (S j))) as [[? Hm]|[? Hm]]; [lia| |];
      destruct (mod_200_cases (e + Z.of_nat j)) as [[? Hm']|[? Hm']]; rewrite ?Hm, ?Hm'; lia.
Qed.

(** The receive buffer is a queue of at most 199 bytes:
    [net_msg_buf_read_byte] returns the oldest byte and removes it, or
    reports that there is none, and [write_byte] appends the byte or, when
    the queue is full, drops it; the state in which 199 bytes fill the
    buffer from its first cell is the exception. *)
Theorem ring_refines_queue b q : ring_ok q -> ~ (start q = 199 /\ rend q = 0) ->
  (ring_ok (write_byte b q)
   /\ queue (write_byte b q) = if (length (queue q) <? 199)%nat then queue q ++ [b] else queue q)
  /\ match queue q with
     | [] => net_msg_buf_read_byte q = Done (None, q)
     | c :: l => exists q', net_msg_buf_read_byte q = Done (Some c, q') /\ ring_ok q' /\ queue q' = l
     end.
Proof. intros. split; [by apply write_queue|by apply read_queue]. Qed.

(** ** The line into the buffer *)

(** Bytes on the line, the buffer, the receiver and the packets that it
    finished.  An interrupt puts some bytes from the line into the buffer, as
    many as there is room for; the thread of the receiver reads one byte. *)
Record line := Line { on_wire : list Z; rx : net_msg_buf; receiver : slip_state; finished : list (list Z) }.

Inductive line_step : line -> line -> Prop :=
| line_interrupt n w q q' st ps : (length (queue q) + n <= 199)%nat -> serial_input (take n w) q = Done q' -> line_step (Line w q st ps) (Line (drop n w) q' st ps)
| line_thread b w q q' st st' ps p : net_msg_buf_read_byte q = Done (Some b, q') -> slip_receive [b] st = (st', p) -> line_step (Line w q st ps) (Line w q' st' (ps ++ p)).

Lemma count_full q : ring_ok q -> start q = 199 /\ rend q = 0 -> length (queue q) = 199%nat.
Proof. intros Hok [Hs Hr]. unfold queue. rewrite length_fmap, length_seq. unfold count. by rewrite Hs, Hr. Qed.

(** A burst that fits is appended. *)
Lemma write_burst bs : forall q, ring_ok q -> (length (queue q) + length bs <= 199)%nat ->
  ring_ok (fold_left (fun q b => write_byte b q) bs q) /\ queue (fold_left (fun q b => write_byte b q) bs q) = queue q ++ bs.
Proof.
  induction bs as [|b bs IH]; intros q Hok Hl; cbn [fold_left]; [by rewrite app_nil_r|]. cbn [length] in Hl.
  destruct (write_queue b q Hok) as [Hok' Hq]; [intros Hc; pose proof (count_full q Hok Hc); lia|]. destruct (Nat.ltb_spec (length (queue q)) 199); [|lia].
  destruct (IH _ Hok') as [H1 H2]; [rewrite Hq, length_app; cbn; lia|]. split; [done|]. by rewrite H2, Hq, <- app_assoc.
Qed.

(** What is left to do gives what is left of the packets. *)
Definition line_inv (st : slip_state) (all : list (list Z)) (l : line) : Prop :=
  ring_ok (rx l) /\ exists rest, slip_receive (queue (rx l) ++ on_wire l) (receiver l) = (st, rest) /\ finished l ++ rest = all.

Lemma line_keeps st all l l' : line_inv st all l -> line_step l l' -> line_inv st all l'.
Proof.
  intros [Hok (rest & Hs & Ha)] Hstep. destruct Hstep as [n w q q' t ps Hn E|b w q q' t t' ps p E Hb]; cbn [rx on_wire receiver finished] in *.
  - unfold serial_input, net_msg_buf_write in E. injection E as <-. destruct (write_burst (take n w) q Hok) as [Hok' Hq]; [rewrite length_take; lia|]. split; [done|]. exists rest. cbn. by rewrite Hq, <- app_assoc, take_drop.
  - pose proof (read_queue q Hok) as Hr. destruct (queue q) as [|c l] eqn:Eq; [congruence|]. destruct Hr as (q2 & E2 & Hok2 & Hq2). rewrite E in E2. injection E2 as <- <-. split; [done|]. cbn [rx on_wire receiver finished]. rewrite Hq2.
    change ((b :: l) ++ w) with ([b] ++ (l ++ w)) in Hs. rewrite slip_receive_app, Hb in Hs. destruct (slip_receive (l ++ w) t') as [t2 ps2] eqn:E3. injection Hs as <- <-. exists ps2. split; [done|]. by rewrite <- app_assoc.
Qed.

Lemma line_drains st all l : line_inv st all l -> exists l', rtc line_step l l' /\ on_wire l' = [] /\ queue (rx l') = [].
Proof.
  remember (2 * length (on_wire l) + length (queue (rx l)))%nat as n eqn:En. revert l En. induction (lt_wf n) as [n _ IH]. intros l -> Hi. destruct l as [w q t ps]. pose proof Hi as [Hok _]. cbn [rx on_wire] in *. destruct (queue q) as [|b k] eqn:Eq.
  - destruct w as [|b w]; [exists (Line [] q t ps); by split_and!|]. destruct (write_burst [b] q Hok) as [Hok' Hq]; [rewrite Eq; cbn; lia|].
    assert (line_step (Line (b :: w) q t ps) (Line w (write_byte b q) t ps)) as Hs by (apply (line_interrupt 1); [rewrite Eq; cbn; lia|done]).
    destruct (IH (2 * length w + 1)%nat ltac:(cbn; lia) (Line w (write_byte b q) t ps)) as (l' & Hl & H1 & H2); [cbn [rx on_wire]; cbn in Hq; by rewrite Hq, Eq|by eapply line_keeps|]. exists l'. split; [by eapply rtc_l|done].
  - pose proof (read_queue q Hok) as Hr. rewrite Eq in Hr. destruct Hr as (q2 & E2 & Hok2 & Hq2). destruct (slip_receive [b] t) as [t' p] eqn:Et.
    assert (line_step (Line w q t ps) (Line w q2 t' (ps ++ p))) as Hs by (by eapply line_thread).
    destruct (IH (2 * length w + length k)%nat ltac:(cbn; lia) (Line w q2 t' (ps ++ p))) as (l' & Hl & H1 & H2); [cbn [rx on_wire]; by rewrite Hq2|by eapply line_keeps|]. exists l'. split; [by eapply rtc_l|done].
Qed.

Lemma line_delivers bytes st ps q l : ring_ok q -> queue q = [] -> slip_receive bytes (Slip None false) = (st, ps) -> rtc line_step (Line bytes q (Slip None false) []) l ->
  (on_wire l = [] -> queue (rx l) = [] -> receiver l = st /\ finished l = ps) /\ exists l', rtc line_step l l' /\ on_wire l' = [] /\ queue (rx l') = [].
Proof.
  intros Hok Hq Hs Hr. assert (line_inv st ps l) as Hi. { assert (line_inv st ps (Line bytes q (Slip None false) [])) as H0 by (split; [done|]; exists ps; cbn [rx on_wire receiver finished]; by rewrite Hq). clear - Hr H0. induction Hr as [|x y z Hxy Hyz IH]; [done|]. apply IH. by eapply line_keeps. }
  split; [|by eapply line_drains]. destruct Hi as [_ (rest & E & Ha)]. intros E1 E2. rewrite E1, E2 in E. cbn in E. injection E as -> <-. by rewrite app_nil_r in Ha.
Qed.

(** C22: a UDP message of at most UDP_MAX_PAYLOAD_SIZE bytes, handed to the
    stack of one host, makes one packet; in every interleaving of serial
    interrupts and of the reader with the 200-byte receive buffer between
    them, where each interrupt brings no more bytes than the buffer has room
    for, the packet is received unchanged once the line is drained, which is
    always possible; and it is transferred, with its ports, addresses and
    payload, to the domain that registered the port on the other host, or
    dropped if there is none. Ports and addresses have their widths, the
    port list is sorted, and the receiver is between packets with an empty
    buffer. A burst that does not fit loses bytes (ring_burst_lost). *)
Theorem udp_end_to_end pf pt data ip_from junk ring (a b : net_state) :
  u32_ok (MY_IP a) -> u32_ok (MY_IP b) -> u16_ok pf -> u16_ok pt ->
  Z.of_nat (length data) <= UDP_MAX_PAYLOAD_SIZE -> sorted_ports (port_list_head b) -> ring_ok ring -> queue ring = [] ->
  exists packet,
    message_handler
      (TransferMessage PROTOCOL_UDP pf pt ip_from (MY_IP b) (Z.of_nat (length data)) data) a
    = Done (a, [SendPacket packet])
    /\ (forall l, rtc line_step (Line (slip_send packet) ring (Slip None false) []) l ->
        (on_wire l = [] -> queue (rx l) = [] -> receiver l = Slip None false /\ finished l = [packet])
        /\ exists l', rtc line_step l l' /\ on_wire l' = [] /\ queue (rx l') = [])
    /\ finish_ip_packet junk (Some packet) b
       = Done match ports (port_list_head b) !! pt with
              | Some q => [Transfer pf pt (MY_IP a) (MY_IP b) PROTOCOL_UDP data (pid q) (core q)]
              | None => []
              end.
Proof.
  intros Ha Hb Hpf Hpt Hlen Hs Hring Hqueue. unfold UDP_MAX_PAYLOAD_SIZE in Hlen.
  assert (length (wire_udp pf pt data) = (8 + length data)%nat) as Hwl by done.
  exists (sent_packet (MY_IP a) (MY_IP b) PROTOCOL_UDP (wire_udp pf pt data)).
  split_and!.
  - unfold message_handler, udp_send. change (PROTOCOL_UDP =? PROTOCOL_UDP) with true.
    rewrite slice_all. unfold mbind, outcome_bind, UDP_MAX_PAYLOAD_SIZE. zdecide.
    rewrite udp_bytes_wire by done. unfold UDP_HEADER_SIZE.
    replace (Z.of_nat (length data) + 8) with (Z.of_nat (length (wire_udp pf pt data))) by lia.
    by rewrite ip_packet_send_ok by (done || lia).
  - pose proof (sent_packet_sized (MY_IP a) (MY_IP b) PROTOCOL_UDP (wire_udp pf pt data)) as Hsz.
    intros l Hl. eapply line_delivers; [exact Hring|exact Hqueue| |exact Hl].
    rewrite slip_send_sized by (apply Hsz; lia). destruct Hsz as (? & ? & _); [lia|].
    by apply slip_receive_packet.
  - destruct (finish_sent (MY_IP a) PROTOCOL_UDP (wire_udp pf pt data) junk b) as [rest ->];
      try (done || lia).
    by apply udp_receive_wire.
Qed.

(** Writes into an empty buffer that starts at its first cell. *)
Lemma write_fresh bs : forall q, start q + Z.of_nat (length bs) <= 199 -> 0 <= start q -> rend q = 0 ->
  exists m, fold_left (fun q b => write_byte b q) bs q
            = NetMsgBuf m (start q + Z.of_nat (length bs)) 0.
Proof.
  induction bs as [|b bs IH]; intros q Hlen Hs He; simpl in *.
  - exists (buf q). destruct q; simpl in *. subst. f_equal. lia.
  - unfold write_byte at 2. unfold NET_BUF_SIZE. rewrite He. zdecide.
    destruct (IH (NetMsgBuf (<[Z.to_nat (start q) := b]> (buf q)) (start q + 1) 0))
      as [m ->]; simpl; try lia. exists m. f_equal. lia.
Qed.

(** The test for a full buffer does not wrap around: a burst of
    [NET_BUF_SIZE] bytes into a fresh buffer is accepted, and afterwards the
    buffer reads as empty: all the bytes are lost, not the last one. *)
Theorem ring_burst_lost mem bs : length bs = Z.to_nat NET_BUF_SIZE ->
  exists q, net_msg_buf_write bs (net_msg_buf_init mem) = (q, SYS_ERR_OK)
            /\ net_msg_buf_read_byte q = Done (None, q).
Proof.
  intros Hlen. change (Z.to_nat NET_BUF_SIZE) with 200%nat in Hlen.
  destruct bs as [|b bs _] using rev_ind; [done|].
  rewrite length_app in Hlen. simpl in Hlen.
  unfold net_msg_buf_write. rewrite fold_left_app. simpl.
  destruct (write_fresh bs (net_msg_buf_init mem)) as [m ->]; try done; [simpl; lia|].
  replace (start (net_msg_buf_init mem) + Z.of_nat (length bs)) with 199 by (simpl; lia).
  eexists. split; [done|]. done.
Qed.

End Ring.

(** * Samples: two hosts with registered ports *)

Module NetSample.

Definition p1 := UdpPort 7 3 0.
Definition p2 := UdpPort 53 4 1.
Definition p3 := UdpPort 8080 5 0.
Definition hostA := NetState 167772929 [].
Definition hostB := NetState 167772930 [p1; p2; p3].

Lemma p_sorted : sorted_ports [p1; p2; p3].
Proof. repeat constructor. Qed.

Definition ping := sent_packet (MY_IP hostA) (MY_IP hostB) PROTOCOL_ICMP [8; 0; 0; 0; 1; 2; 3; 4; 192; 219].

Lemma slip_roundtrip_witness :
  slip_receive ([ping; ping] ≫= slip_send) (Slip None false) = (Slip None false, [ping; ping]).
Proof.
  refine (proj1 (slip_roundtrip ping [ping] _)).
  repeat constructor; try discriminate; try (vm_compute; discriminate).
Defined.

Lemma ports_refine_map_witness :
  search_udp_port 53 [p1; p2; p3]
  = match ports [p1; p2; p3] !! 53 with
    | Some q => (Some q, SYS_ERR_OK)
    | None => (None, err AOS_NET_ERR_UDP_NO_SUCH_PORT)
    end.
Proof. exact (proj1 (ports_refine_map (UdpPort 80 1 1) [p1; p2; p3] p_sorted) 53). Defined.

Lemma udp_port_remove_only_second_witness :
  udp_port_remove 8080 [p1; p2; p3] = ([p1; p2; p3], err AOS_NET_ERR_UDP_NO_SUCH_PORT).
Proof. exact (udp_port_remove_only_second 8080 p1 p2 [p3] p_sorted). Defined.

Lemma udp_end_to_end_witness : exists packet,
  message_handler
    (TransferMessage PROTOCOL_UDP 9000 8080 0 (MY_IP hostB) (Z.of_nat (length [1; 0; 192])) [1; 0; 192])
    hostA = Done (hostA, [SendPacket packet])
  /\ (forall l, rtc line_step (Line (slip_send packet) (net_msg_buf_init (replicate 200 0)) (Slip None false) []) l ->
      (on_wire l = [] -> queue (rx l) = [] -> receiver l = Slip None false /\ finished l = [packet])
      /\ exists l', rtc line_step l l' /\ on_wire l' = [] /\ queue (rx l') = [])
  /\ finish_ip_packet [] (Some packet) hostB
     = Done [Transfer 9000 8080 (MY_IP hostA) (MY_IP hostB) PROTOCOL_UDP [1; 0; 192] 5 0].
Proof.
  refine (udp_end_to_end 9000 8080 [1; 0; 192] 0 [] (net_msg_buf_init (replicate 200 0)) hostA hostB _ _ _ _ _ p_sorted _ _);
    by vm_compute.
Defined.

Lemma icmp_echo_answered_witness : exists ck', let reply := [0; 0] ++ le16 ck' ++ [1; 2; 3; 4] ++ [192; 219] in
  finish_ip_packet []
    (Some (sent_packet (MY_IP hostA) (MY_IP hostB) PROTOCOL_ICMP
             ([8; 0] ++ le16 0 ++ [1; 2; 3; 4] ++ [192; 219]))) hostB
  = Done [SendPacket (sent_packet (MY_IP hostB) (MY_IP hostA) PROTOCOL_ICMP reply)]
  /\ inet_checksum reply = 0.
Proof.
  refine (icmp_echo_answered 0 0 1 2 3 4 [192; 219] (MY_IP hostA) [] hostB _ _ _ _ _).
  - by vm_compute.
  - by vm_compute.
  - unfold bytes. vm_decide.
  - unfold bytes. vm_decide.
  - by vm_compute.
Defined.

Definition ring := NetMsgBuf (replicate 200 9) 1 198.

Lemma ring_refines_queue_witness :
  ring_ok (write_byte 5 ring)
  /\ queue (write_byte 5 ring) = if (length (queue ring) <? 199)%nat then queue ring ++ [5] else queue ring.
Proof.
  refine (proj1 (ring_refines_queue 5 ring _ _)).
  - by vm_compute.
  - by intros [? _].
Defined.

Lemma ring_burst_lost_witness : exists q,
  net_msg_buf_write (replicate 200 1) (net_msg_buf_init (replicate 200 0)) = (q, SYS_ERR_OK)
  /\ net_msg_buf_read_byte q = Done (None, q).
Proof. by apply (ring_burst_lost (replicate 200 0) (replicate 200 1)). Defined.

End NetSample.
