(* ===== verification/Mm.v ===== *)
(** The physical memory manager, lib/mm/mm.c, and the preallocating slot
    allocator it draws capability slots from, lib/mm/slot_alloc.c.

    The two call each other: the manager refills the slot allocator, whose
    refill allocates memory from the manager.  The manager keeps a doubly
    linked list of nodes in address order; here the list holds the nodes
    with the addresses of their slab blocks, and a pointer to a node is such
    an address. *)
From S2P Require Import Prelude Slab.

(** * Data *)

Inductive nodetype := NodeType_Free | NodeType_Allocated | NodeType_Wasted.

#[global] Instance nodetype_eq_dec : EqDecision nodetype.
Proof. solve_decision. Defined.

(** [struct capref]: a CNode (by its address in the capability space) and a
    slot. *)
Record capref := Capref { cnode : Z; slot : Z }.

#[global] Instance capref_eq_dec : EqDecision capref.
Proof. solve_decision. Defined.

(** [struct mmnode], with the address of its block and its [capinfo]. *)
Record mmnode := MmNode {
  n_addr : Z; n_type : nodetype; base : Z; size : Z;
  ncap : capref; cap_base : Z; cap_size : Z
}.

(** One entry of [meta] and [struct slot_prealloc]. *)
Record slot_meta := SlotMeta { meta_cap : capref; meta_free : Z }.
Record slot_prealloc := SlotPrealloc {
  meta0 : slot_meta; meta1 : slot_meta; current : bool; sa_is_refilling : bool
}.

(** The kernel and the libraries below: capability operations, the root
    slot allocator and the creation of CNodes, over a state of their own. *)
Class MmSys := {
  sys : Type;
  (** [cap_retype dest src offset size] *)
  sys_cap_retype : capref -> capref -> Z -> Z -> sys -> sys * errval;
  (** [cap_revoke] and [cap_destroy]; their errors are dropped *)
  sys_cap_drop : capref -> sys -> sys;
  sys_frame_identify : capref -> sys -> Z * Z;
  sys_slot_alloc_root : sys -> sys * errval * capref;
  (** [cnode_create_from_mem dest ram] *)
  sys_cnode_create : capref -> capref -> sys -> sys * errval * Z
}.

Section Mm.
Context `{MmSys}.

(** [struct mm], the slot allocator instance it points to, the static flag
    of [slot_prealloc_refill], and the system below. *)
Record world := World {
  mm_slabs : slab_allocator;
  head : list mmnode;
  refilling_slabs : bool;
  initial_base : Z;
  ram_cap : capref;
  sa : slot_prealloc;
  sa_static_refilling : bool;
  below : sys
}.

Definition set_slabs (a : slab_allocator) (w : world) : world :=
  World a (head w) (refilling_slabs w) (initial_base w) (ram_cap w) (sa w) (sa_static_refilling w) (below w).
Definition set_head (l : list mmnode) (w : world) : world :=
  World (mm_slabs w) l (refilling_slabs w) (initial_base w) (ram_cap w) (sa w) (sa_static_refilling w) (below w).
Definition set_refilling (b : bool) (w : world) : world :=
  World (mm_slabs w) (head w) b (initial_base w) (ram_cap w) (sa w) (sa_static_refilling w) (below w).
Definition set_region (b : Z) (cap : capref) (w : world) : world :=
  World (mm_slabs w) (head w) (refilling_slabs w) b cap (sa w) (sa_static_refilling w) (below w).
Definition set_sa (s : slot_prealloc) (w : world) : world :=
  World (mm_slabs w) (head w) (refilling_slabs w) (initial_base w) (ram_cap w) s (sa_static_refilling w) (below w).
Definition set_static (b : bool) (w : world) : world :=
  World (mm_slabs w) (head w) (refilling_slabs w) (initial_base w) (ram_cap w) (sa w) b (below w).
Definition set_below (s : sys) (w : world) : world :=
  World (mm_slabs w) (head w) (refilling_slabs w) (initial_base w) (ram_cap w) (sa w) (sa_static_refilling w) s.

(** Reading and writing through a pointer to a node. *)
Definition node_at (p : Z) (l : list mmnode) : option mmnode := find (fun n => n_addr n =? p) l.
Definition set_node (p : Z) (f : mmnode -> mmnode) (l : list mmnode) : list mmnode :=
  (fun n => if n_addr n =? p then f n else n) <$> l.

Definition with_type (t : nodetype) (n : mmnode) : mmnode :=
  MmNode (n_addr n) t (base n) (size n) (ncap n) (cap_base n) (cap_size n).
Definition with_extent (b s : Z) (n : mmnode) : mmnode :=
  MmNode (n_addr n) (n_type n) b s (ncap n) (cap_base n) (cap_size n).
Definition with_cap (c : capref) (n : mmnode) : mmnode :=
  MmNode (n_addr n) (n_type n) (base n) (size n) c (cap_base n) (cap_size n).
Definition with_capinfo (b s : Z) (n : mmnode) : mmnode :=
  MmNode (n_addr n) (n_type n) (base n) (size n) (ncap n) b s.

Definition null_cap : capref := Capref 0 0.

(** * The list of nodes *)

(** [mm_create_node].  The manager refills its slabs ahead of use, so that
    a block is free here; the refill from within [slab_alloc], which would
    come back to the manager, is not modelled. *)
Definition mm_create_node (type : nodetype) (b s : Z) (w : world) : outcome (world * mmnode) :=
  '(a, p) ← slab_alloc None (mm_slabs w);
  if p =? NULL then Fault Unmodelled
  else Done (set_slabs a w, MmNode p type b s null_cap 0 0).

(** The search of [mm_mmnode_add] for the place of a region: the nodes
    before and after it, or nothing if it overlaps a node. *)
Fixpoint mm_find_place (b s : Z) (l : list mmnode) : option (list mmnode * list mmnode) :=
  match l with
  | [] => Some ([], [])
  | n :: l' =>
    if b <? base n then
      if base n <? u64 (b + s) then None else Some ([], n :: l')
    else if b <? u64 (base n + size n) then None
    else
      match mm_find_place b s l' with
      | Some (before, after) => Some (n :: before, after)
      | None => None
      end
  end.

(** The result is the error and the address of the new node. *)
Definition mm_mmnode_add (b s : Z) (w : world) : outcome (world * errval * Z) :=
  match mm_find_place b s (head w) with
  | None => Done (w, err MM_ERR_ALREADY_ALLOCATED, NULL)
  | Some (before, after) =>
    '(w, n) ← mm_create_node NodeType_Free b s w;
    Done (set_head (before ++ n :: after) w, SYS_ERR_OK, n_addr n)
  end.

(** [mm_mmnode_remove] takes the node out of the list and frees its block. *)
Definition mm_mmnode_remove (p : Z) (w : world) : outcome (world * errval) :=
  a ← slab_free (mm_slabs w) p;
  Done (set_slabs a (set_head (List.filter (fun n => negb (n_addr n =? p)) (head w)) w), SYS_ERR_OK).

(** [mm_mmnode_merge first second] *)
Definition mm_mmnode_merge (first second : mmnode) (w : world) : outcome (world * errval) :=
  let w := set_head (set_node (n_addr first)
             (fun n => with_extent (base n) (u64 (size n + size second)) n) (head w)) w in
  '(w, ev) ← mm_mmnode_remove (n_addr second) w;
  _ ← CHECK ev;
  Done (w, SYS_ERR_OK).

(** The bytes to skip at the start of a node to reach the alignment; a
    [size_t]. *)
Definition align_dif (b alignment : Z) : Z :=
  let dif := u32 (b `mod` alignment) in
  if 0 <? dif then u32 (alignment - dif) else dif.

Definition mm_fits (s alignment : Z) (n : mmnode) : bool :=
  bool_decide (n_type n = NodeType_Free) && (u32 (s + align_dif (base n) alignment) <=? size n).

Definition mm_mmnode_find (s alignment : Z) (w : world) : errval * option mmnode :=
  match find (mm_fits s alignment) (head w) with
  | Some n => (SYS_ERR_OK, Some n)
  | None => (err MM_ERR_NOT_FOUND, None)
  end.

(** * Slots *)

Definition L2_CNODE_SLOTS : Z := Z.shiftl 1 8.
Definition OBJSIZE_L2CNODE : Z := 16384.

(** [meta[i]] *)
Definition meta (i : bool) (s : slot_prealloc) : slot_meta := if i then meta1 s else meta0 s.
Definition set_meta (i : bool) (m : slot_meta) (s : slot_prealloc) : slot_prealloc :=
  if i then SlotPrealloc (meta0 s) m (current s) (sa_is_refilling s)
  else SlotPrealloc m (meta1 s) (current s) (sa_is_refilling s).
Definition set_current (i : bool) (s : slot_prealloc) : slot_prealloc :=
  SlotPrealloc (meta0 s) (meta1 s) i (sa_is_refilling s).
Definition set_sa_refilling (b : bool) (s : slot_prealloc) : slot_prealloc :=
  SlotPrealloc (meta0 s) (meta1 s) (current s) b.

Definition slot_prealloc_init (initial_cnode : capref) (initial_space : Z)
  : outcome (slot_prealloc * errval) :=
  ASSERT (initial_space =? L2_CNODE_SLOTS);
  if negb (initial_space =? L2_CNODE_SLOTS) then
    Done (SlotPrealloc (SlotMeta null_cap 0) (SlotMeta null_cap 0) false false, err LIB_ERR_SLOT_ALLOC_INIT)
  else
    Done (SlotPrealloc (SlotMeta initial_cnode initial_space) (SlotMeta null_cap 0) false false, SYS_ERR_OK).

Definition slot_alloc_prealloc (nslots : Z) (s : slot_prealloc)
  : outcome (slot_prealloc * errval * capref) :=
  ASSERT (nslots <? L2_CNODE_SLOTS);
  let s := if meta_free (meta (current s) s) <? nslots then set_current (negb (current s)) s else s in
  let m := meta (current s) s in
  if meta_free m <? nslots then Done (s, err MM_ERR_SLOT_NOSLOTS, null_cap)
  else
    let m' := SlotMeta (Capref (cnode (meta_cap m)) (u32 (slot (meta_cap m) + nslots)))
                       (u64 (meta_free m - nslots)) in
    Done (set_meta (current s) m' s, SYS_ERR_OK, meta_cap m).

(** The refill, over the manager's allocation function and the refill of
    the root slot allocator, which allocates memory in turn. *)
Section SlotRefill.
Variable mm_alloc : Z -> world -> outcome (world * errval * capref).
Variable root_slot_allocator_refill : world -> outcome (world * errval).

(** The part after the memory was allocated, up to the label [out]. *)
Definition slot_prealloc_cnode (refill : bool) (ram : capref) (w : world) : outcome (world * errval) :=
  let '(b, ev, cnode_cap) := sys_slot_alloc_root (below w) in
  let w := set_below b w in
  '(w, ev, cnode_cap) ←
    (if bool_decide (err_no ev = Some LIB_ERR_SLOT_ALLOC_NO_SPACE) then
       '(w, ev) ← root_slot_allocator_refill w;
       if err_is_fail ev then Done (w, err_push ev LIB_ERR_ROOTSA_RESIZE, None)
       else
         let '(b, ev, cnode_cap) := sys_slot_alloc_root (below w) in
         Done (set_below b w, ev, Some cnode_cap)
     else Done (w, ev, Some cnode_cap));
  match cnode_cap with
  | None => Done (w, ev)
  | Some cnode_cap =>
    if err_is_fail ev then Done (w, err_push ev LIB_ERR_SLOT_ALLOC)
    else
      let '(b, ev, cn) := sys_cnode_create cnode_cap ram (below w) in
      let w := set_below b w in
      if err_is_fail ev then Done (w, err_push ev LIB_ERR_CNODE_CREATE)
      else Done (set_sa (set_meta refill (SlotMeta (Capref cn 0) L2_CNODE_SLOTS) (sa w)) w, SYS_ERR_OK)
  end.

Definition slot_prealloc_refill (w : world) : outcome (world * errval) :=
  let refill := negb (current (sa w)) in
  if sa_static_refilling w then Done (w, SYS_ERR_OK)
  else if meta_free (meta refill (sa w)) =? L2_CNODE_SLOTS then Done (w, SYS_ERR_OK)
  else
    let w := set_static true w in
    '(w, ev, ram) ← mm_alloc OBJSIZE_L2CNODE w;
    if err_is_fail ev then Done (set_static false w, err_push ev MM_ERR_SLOT_MM_ALLOC)
    else
      '(w, ev) ← slot_prealloc_cnode refill ram w;
      Done (set_static false w, ev).
End SlotRefill.

(** [mm_slot_alloc]; [slot_refill] is [mm->slot_refill]. *)
Definition mm_slot_alloc (slot_refill : world -> outcome (world * errval)) (slots : Z) (w : world)
  : outcome (world * capref) :=
  w ← (if (meta_free (meta0 (sa w)) <? 4) && (meta_free (meta1 (sa w)) <? 4) &&
          negb (sa_is_refilling (sa w)) then
         '(w, ev) ← slot_refill (set_sa (set_sa_refilling true (sa w)) w);
         _ ← CHECK ev;
         Done (set_sa (set_sa_refilling false (sa w)) w)
       else Done w);
  '(s, ev, cap) ← slot_alloc_prealloc slots (sa w);
  _ ← CHECK ev;
  Done (set_sa s w, cap).

(** * Allocation *)

Section Alloc.
(** [mm->slabs.refill_func] and the refill of the root slot allocator. *)
Variable slab_refill : world -> outcome (world * errval).
Variable root_slot_allocator_refill : world -> outcome (world * errval).

(** Round up to a multiple of the page size, a [size_t]. *)
Definition round_page (x : Z) : Z :=
  if negb (x `mod` BASE_PAGE_SIZE =? 0) then u32 (x + (BASE_PAGE_SIZE - x `mod` BASE_PAGE_SIZE)) else x.

(** The refill of the slabs ahead of the allocation. *)
Definition mm_refill_slabs (w : world) : outcome world :=
  if (slab_freecount (mm_slabs w) <? 4) && negb (refilling_slabs w) then
    '(w, ev) ← slab_refill (set_refilling true w);
    _ ← CHECK ev;
    Done (set_refilling false w)
  else Done w.

(** Cut the alignment gap off the start of the node. *)
Definition mm_align_node (p dif : Z) (n : mmnode) (w : world) : outcome world :=
  if negb (dif =? 0) then
    let b := u64 (base n + dif) in
    let w := set_head (set_node p (with_extent b (u64 (size n - dif))) (head w)) w in
    '(w, ev, _) ← mm_mmnode_add (u64 (b - dif)) dif w;
    _ ← CHECK ev;
    Done w
  else Done w.

(** Cut the allocated part off the start of the node, or take all of it;
    the result is the address of the node to hand out. *)
Definition mm_split_node (p s : Z) (n : mmnode) (w : world) : outcome (world * Z) :=
  if s <? size n then
    let w := set_head (set_node p (with_extent (u64 (base n + s)) (u64 (size n - s))) (head w)) w in
    '(w, ev, q) ← mm_mmnode_add (base n) s w;
    _ ← CHECK ev;
    let w := set_head (set_node q (with_capinfo (base n) s) (head w)) w in
    let w := set_head (set_node p (fun n => with_capinfo (u64 (cap_base n + s)) (u64 (cap_size n - s)) n)
                        (head w)) w in
    Done (w, q)
  else Done (w, p).

(** From the search for a node to the unlocking of the mutex. *)
Definition mm_carve (s alignment : Z) (w : world) : outcome (world * Z) :=
  let '(ev, found) := mm_mmnode_find s alignment w in
  _ ← CHECK ev;
  match found with
  | None => Fault AssertionFailed
  | Some n =>
    let dif := if negb (alignment =? 0) then align_dif (base n) alignment else 0 in
    ASSERT (u32 (s + dif) <=? size n);
    w ← mm_align_node (n_addr n) dif n w;
    match node_at (n_addr n) (head w) with
    | None => Fault Unmodelled
    | Some n => mm_split_node (n_addr n) s n w
    end
  end.

(** [mm_alloc_aligned]; the fuel bounds the retries after a failed retype
    and the allocations from within refills. *)
Fixpoint mm_alloc_aligned (fuel : nat) (orig_size orig_alignment : Z) (w : world)
  : outcome (world * errval * capref) :=
  match fuel with
  | O => Fault OutOfFuel
  | S fuel =>
    let alignment := if orig_alignment =? 0 then BASE_PAGE_SIZE else orig_alignment in
    let alignment := round_page alignment in
    let s := round_page orig_size in
    w ← mm_refill_slabs w;
    '(w, q) ← mm_carve s alignment w;
    '(w, cap) ← mm_slot_alloc
                  (slot_prealloc_refill (fun s => mm_alloc_aligned fuel s BASE_PAGE_SIZE)
                     root_slot_allocator_refill) 1 w;
    let w := set_head (set_node q (with_cap cap) (head w)) w in
    match node_at q (head w) with
    | None => Fault Unmodelled
    | Some new_node =>
      let '(b, ev) := sys_cap_retype cap (ram_cap w) (u64 (base new_node - initial_base w)) s (below w) in
      let w := set_below b w in
      if bool_decide (ev = err SYS_ERR_REVOKE_FIRST) then
        mm_alloc_aligned fuel orig_size orig_alignment
          (set_head (set_node q (with_type NodeType_Wasted) (head w)) w)
      else
        (* any other error is only printed *)
        Done (set_head (set_node q (with_type NodeType_Allocated) (head w)) w, SYS_ERR_OK, cap)
    end
  end.

Definition mm_alloc (fuel : nat) (s : Z) (w : world) : outcome (world * errval * capref) :=
  mm_alloc_aligned fuel s BASE_PAGE_SIZE w.

(** [mm_add] *)
Definition mm_add (fuel : nat) (cap : capref) (b s : Z) (w : world) : outcome (world * errval) :=
  '(w, ev, p) ← mm_mmnode_add b s w;
  _ ← CHECK ev;
  let w := set_head (set_node p (with_capinfo b s) (head w)) w in
  let w := set_region b (ram_cap w) w in
  '(w, c) ← mm_slot_alloc
              (slot_prealloc_refill (mm_alloc fuel) root_slot_allocator_refill) 1 w;
  let w := set_head (set_node p (with_cap c) (head w)) w in
  let w := set_region (initial_base w) cap w in
  let '(b', ev) := sys_cap_retype c cap 0 s (below w) in
  _ ← CHECK ev;
  Done (set_below b' w, SYS_ERR_OK).
End Alloc.

(** * Freeing *)

(** Free the node after [before] and merge it with free neighbours. *)
Definition mm_free_node (cap : capref) (before : list mmnode) (n : mmnode) (after : list mmnode)
    (w : world) : outcome (world * errval) :=
  let w := set_head (set_node (n_addr n) (with_type NodeType_Free) (head w)) w in
  let w := set_below (sys_cap_drop (ncap n) (sys_cap_drop cap (below w))) w in
  w ← match after with
      | next :: _ =>
        if bool_decide (n_type next = NodeType_Free) then
          '(w, ev) ← mm_mmnode_merge n next w; _ ← CHECK ev; Done w
        else Done w
      | [] => Done w
      end;
  w ← match last before with
      | Some prev =>
        if bool_decide (n_type prev = NodeType_Free) then
          match node_at (n_addr n) (head w) with
          | Some n => '(w, ev) ← mm_mmnode_merge prev n w; _ ← CHECK ev; Done w
          | None => Fault Unmodelled
          end
        else Done w
      | None => Done w
      end;
  Done (w, SYS_ERR_OK).

(** Walk the list up to the first node that satisfies [p]. *)
Fixpoint mm_walk (p : mmnode -> bool) (before l : list mmnode)
  : option (list mmnode * mmnode * list mmnode) :=
  match l with
  | [] => None
  | n :: l => if p n then Some (before, n, l) else mm_walk p (before ++ [n]) l
  end.

Definition re_search_free (cap : capref) (b s : Z) (w : world) : outcome (world * errval) :=
  let matches n :=
    let '(fb, bytes) := sys_frame_identify (ncap n) (below w) in
    (fb =? b) && (u64 (bytes - s) <=? BASE_PAGE_SIZE) in
  match mm_walk matches [] (head w) with
  | Some (before, n, after) => mm_free_node cap before n after w
  | None => Done (w, err MM_ERR_NOT_FOUND)
  end.

Definition mm_free_match (b s : Z) (n : mmnode) : bool :=
  (base n =? b) && (u64 (size n - s) <=? BASE_PAGE_SIZE).

Definition mm_free (cap : capref) (b s : Z) (w : world) : outcome (world * errval) :=
  match mm_walk (mm_free_match b s) [] (head w) with
  | Some (before, n, after) => mm_free_node cap before n after w
  | None =>
    '(w, ev) ← re_search_free cap b s w;
    if negb (err_is_fail ev) then Done (w, SYS_ERR_OK) else Done (w, err MM_ERR_MM_FREE)
  end.

(** [mm_init] for a manager over the slot allocator [s]. *)
Definition sizeof_mmnode : Z := 64.
Definition mm_init (s : slot_prealloc) (b : sys) : world :=
  World (slab_init sizeof_mmnode) [] false 0 null_cap s false b.

Fixpoint mm_destroy_nodes (l : list mmnode) (w : world) : outcome world :=
  match l with
  | [] => Done w
  | n :: l =>
    let w := set_below (sys_cap_drop (ncap n) (below w)) w in
    '(w, _) ← mm_mmnode_remove (n_addr n) w;
    mm_destroy_nodes l w
  end.

Definition mm_destroy (w : world) : outcome world :=
  w ← mm_destroy_nodes (head w) w;
  Done (set_below (sys_cap_drop (ram_cap w) (below w)) w).

End Mm.
