(* ===== verification/MmCorrect.v ===== *)
(** The physical memory manager: its nodes tile the managed region, and
    allocation and freeing keep it so. *)
From S2P Require Import Prelude Slab Mm.

(** * Invariant *)

(** What matters of a node for the memory map. *)
Definition shape (n : mmnode) : nodetype * Z * Z := (n_type n, base n, size n).

(** The nodes cover the addresses from [lo] to [hi] without gap or overlap. *)
Fixpoint tiles (lo : Z) (l : list (nodetype * Z * Z)) (hi : Z) : Prop :=
  match l with
  | [] => lo = hi
  | (_, b, s) :: l => b = lo /\ 0 < s /\ tiles (lo + s) l hi
  end.

(** No two free nodes are next to each other; [prev] says whether the node
    before the list is free. *)
Definition is_free (x : nodetype * Z * Z) : bool := bool_decide (x.1.1 = NodeType_Free).

Fixpoint separated (prev : bool) (l : list (nodetype * Z * Z)) : Prop :=
  match l with
  | [] => True
  | x :: l => prev && is_free x = false /\ separated (is_free x) l
  end.

Definition coalesced (l : list (nodetype * Z * Z)) : Prop := separated false l.

Fixpoint last_free (prev : bool) (l : list (nodetype * Z * Z)) : bool :=
  match l with [] => prev | x :: l => last_free (is_free x) l end.

Lemma separated_app prev l1 l2 :
  separated prev (l1 ++ l2) <-> separated prev l1 /\ separated (last_free prev l1) l2.
Proof. revert prev. induction l1 as [|x l1 IH]; intros prev; simpl; [tauto|]. rewrite IH. tauto. Qed.

Lemma last_free_snoc prev l x : last_free prev (l ++ [x]) = is_free x.
Proof. revert prev. induction l as [|y l IH]; intros prev; simpl; auto. Qed.

Lemma separated_weaken l : separated true l -> separated false l.
Proof. destruct l; simpl; tauto. Qed.

Lemma tiles_app lo l1 l2 hi : tiles lo (l1 ++ l2) hi <-> exists mid, tiles lo l1 mid /\ tiles mid l2 hi.
Proof.
  revert lo. induction l1 as [|[[t b] s] l1 IH]; intros lo; simpl.
  - split; [eauto|]. by intros (mid & -> & ?).
  - rewrite IH. split.
    + intros (? & ? & mid & ? & ?). eauto 10.
    + intros (mid & (? & ? & ?) & ?). eauto 10.
Qed.

(** The types do not matter. *)
Definition extent (x : nodetype * Z * Z) : Z * Z := (x.1.2, x.2).

Lemma tiles_extent lo l l' hi : extent <$> l = extent <$> l' -> tiles lo l hi -> tiles lo l' hi.
Proof.
  revert lo l'. induction l as [|[[t b] s] l IH]; intros lo [|[[t' b'] s'] l']; rewrite ?fmap_cons; try done.
  intros [= <- <- Heq]. simpl. intros (? & ? & ?). eauto.
Qed.

Lemma tiles_le lo l hi : tiles lo l hi -> lo <= hi.
Proof.
  revert lo. induction l as [|[[t b] s] l IH]; intros lo; simpl; [lia|].
  intros (_ & ? & ?%IH). lia.
Qed.

(** Every node lies in the region, and its start is where the nodes before
    it end. *)
Lemma tiles_elem lo l hi t b s : tiles lo l hi -> (t, b, s) ∈ l -> lo <= b /\ 0 < s /\ b + s <= hi.
Proof.
  intros Ht Hin. apply list_elem_of_split in Hin as (l1 & l2 & ->).
  apply tiles_app in Ht as (mid & H1 & H2). simpl in H2. destruct H2 as (-> & ? & H2).
  apply tiles_le in H1, H2. lia.
Qed.

Section Correct.
Context `{MmSys}.

Record mm_inv (w : world) (lo hi : Z) (fls : list (list Z)) : Prop := {
  inv_lo : 0 <= lo;
  inv_hi : hi < 2 ^ 64;
  inv_tiles : tiles lo (shape <$> head w) hi;
  inv_slabs : slab_inv (mm_slabs w) fls;
  inv_addrs : NoDup (n_addr <$> head w);
  inv_blocks : forall n, n ∈ head w -> n_addr n ∈ all_blocks (mm_slabs w) /\ n_addr n ∉ concat fls
}.

Lemma node_above w lo hi fls n : mm_inv w lo hi fls -> n ∈ head w -> lo <= base n.
Proof. intros [Hlo Hhi Ht _ _ _] Hn. destruct (tiles_elem _ _ _ (n_type n) (base n) (size n) Ht); [|lia]. by apply (list_elem_of_fmap_2 shape). Qed.

(** * Pointers into the list *)

Lemma set_node_id p f (l : list mmnode) : p ∉ n_addr <$> l -> set_node p f l = l.
Proof.
  induction l as [|n l IH]; [done|]. rewrite fmap_cons, not_elem_of_cons. intros [? ?].
  unfold set_node in *. rewrite fmap_cons, IH by done. by zcases.
Qed.

Lemma nodup_split (l1 : list mmnode) n l2 : NoDup (n_addr <$> (l1 ++ n :: l2)) ->
  (n_addr n ∉ (n_addr <$> l1)) /\ (n_addr n ∉ (n_addr <$> l2)).
Proof.
  rewrite fmap_app, fmap_cons. intros (_ & Hd & Hnd)%NoDup_app. apply NoDup_cons in Hnd as [? _].
  split; [|done]. intros Hin. eapply Hd; [exact Hin|by left].
Qed.

Lemma set_node_at f l1 n l2 : NoDup (n_addr <$> (l1 ++ n :: l2)) ->
  set_node (n_addr n) f (l1 ++ n :: l2) = l1 ++ f n :: l2.
Proof.
  intros [H1 H2]%nodup_split. unfold set_node. rewrite fmap_app, fmap_cons, Z.eqb_refl.
  fold (set_node (n_addr n) f l1). fold (set_node (n_addr n) f l2). by rewrite !set_node_id.
Qed.

Lemma node_at_app l1 n l2 : NoDup (n_addr <$> (l1 ++ n :: l2)) ->
  node_at (n_addr n) (l1 ++ n :: l2) = Some n.
Proof.
  intros [H1 _]%nodup_split. unfold node_at. induction l1 as [|m l1 IH]; simpl.
  - by rewrite Z.eqb_refl.
  - rewrite fmap_cons, not_elem_of_cons in H1. destruct H1. zdecide. auto.
Qed.

Lemma filter_at l1 n l2 : NoDup (n_addr <$> (l1 ++ n :: l2)) ->
  List.filter (fun m => negb (n_addr m =? n_addr n)) (l1 ++ n :: l2) = l1 ++ l2.
Proof.
  intros [H1 H2]%nodup_split. rewrite List.filter_app. simpl. rewrite Z.eqb_refl. simpl.
  assert (Hid : forall l : list mmnode, n_addr n ∉ n_addr <$> l ->
    List.filter (fun m => negb (n_addr m =? n_addr n)) l = l).
  { induction l as [|m l IH]; [done|]. rewrite fmap_cons, not_elem_of_cons. intros [? ?]. simpl.
    zdecide. simpl. by rewrite IH. }
  by rewrite !Hid.
Qed.

(** * Cutting a node in two *)

Lemma find_place_cut lo l1 n l2 hi d : 0 <= lo -> hi < 2 ^ 64 ->
  tiles lo (shape <$> (l1 ++ n :: l2)) hi -> 0 < d < size n ->
  mm_find_place (base n) d (l1 ++ with_extent (base n + d) (size n - d) n :: l2) =
  Some (l1, with_extent (base n + d) (size n - d) n :: l2).
Proof.
  intros Hlo Hhi. revert lo Hlo. induction l1 as [|m l1 IH]; intros lo Hlo Ht Hd.
  - simpl in Ht. destruct Ht as (Hb & Hs & Ht). apply tiles_le in Ht. simpl.
    rewrite u64_small by lia. by zdecide.
  - simpl in Ht. destruct Ht as (Hb & Hs & Ht). rewrite fmap_app in Ht.
    pose proof Ht as Ht'. apply tiles_app in Ht' as (mid & H1 & H2). simpl in H2.
    destruct H2 as (Hbn & _ & H2). apply tiles_le in H1, H2. cbn [app mm_find_place].
    rewrite (u64_small (base m + size m)) by lia. zdecide.
    rewrite (IH (lo + size m)); [done|lia|by rewrite fmap_app|done].
Qed.

(** A fresh node from the slabs. *)
Lemma create_spec w lo hi fls p rest t b s : mm_inv w lo hi fls -> concat fls = p :: rest ->
  exists a fls', mm_create_node t b s w = Done (set_slabs a w, MmNode p t b s null_cap 0 0) /\
    slab_inv a fls' /\ concat fls' = rest /\ all_blocks a = all_blocks (mm_slabs w) /\
    (p ∈ all_blocks a) /\ (p ∉ rest) /\ (p ∉ (n_addr <$> head w)).
Proof.
  intros Hinv E. destruct (alloc_spec _ _ None _ _ (inv_slabs _ _ _ _ Hinv) E)
    as (a & fls' & Ea & Ha & Hr & Hall & Hnn).
  exists a, fls'. unfold mm_create_node. rewrite Ea. step. zdecide.
  assert (Hp : p ∈ concat fls) by (rewrite E; by left).
  split_and!; auto.
  - rewrite Hall. by apply (free_in_all _ _ _ (inv_slabs _ _ _ _ Hinv)).
  - pose proof (free_nodup _ _ (inv_slabs _ _ _ _ Hinv)) as Hnd. rewrite E in Hnd.
    by apply NoDup_cons in Hnd as [? _].
  - intros (n & -> & Hn)%list_elem_of_fmap. by apply (inv_blocks _ _ _ _ Hinv) in Hn as [_ ?].
Qed.

(** Replacing a node by nodes that cover the same addresses. *)
Lemma mm_inv_replace w w' lo hi fls fls' l1 n l2 ns : mm_inv w lo hi fls ->
  head w = l1 ++ n :: l2 -> head w' = l1 ++ ns ++ l2 ->
  tiles (base n) (shape <$> ns) (base n + size n) ->
  slab_inv (mm_slabs w') fls' -> all_blocks (mm_slabs w') = all_blocks (mm_slabs w) ->
  NoDup (n_addr <$> (l1 ++ ns ++ l2)) ->
  (forall m, m ∈ ns -> n_addr m ∈ all_blocks (mm_slabs w) /\ n_addr m ∉ concat fls') ->
  (forall m, m ∈ l1 ++ l2 -> n_addr m ∉ concat fls') ->
  mm_inv w' lo hi fls'.
Proof.
  intros Hinv Hw Hw' Hns Hsl Hall Hnd Hnew Hold. destruct Hinv as [Hlo Hhi Ht _ _ Hbl].
  split; auto; rewrite ?Hw'; auto.
  - rewrite Hw, !fmap_app, fmap_cons in Ht. apply tiles_app in Ht as (mid & H1 & H2).
    simpl in H2. destruct H2 as (Hb & _ & H2). rewrite !fmap_app, tiles_app. exists mid. split; [done|].
    apply tiles_app. exists (mid + size n). by rewrite <- Hb in *.
  - rewrite Hall. intros m Hm. rewrite !elem_of_app in Hm.
    destruct Hm as [Hm|[Hm|Hm]]; [|by apply Hnew|];
      (split; [apply Hbl; rewrite Hw, elem_of_app, elem_of_cons; auto|apply Hold, elem_of_app; auto]).
Qed.

(** Cutting the first [d] bytes off a node. *)
Lemma cut_spec w lo hi fls l1 n l2 d p rest : mm_inv w lo hi fls -> head w = l1 ++ n :: l2 ->
  0 < d < size n -> concat fls = p :: rest ->
  exists a fls',
    mm_mmnode_add (base n) d
      (set_head (set_node (n_addr n) (with_extent (base n + d) (size n - d)) (head w)) w) =
    Done (set_head (l1 ++ MmNode p NodeType_Free (base n) d null_cap 0 0 ::
                          with_extent (base n + d) (size n - d) n :: l2) (set_slabs a w),
          SYS_ERR_OK, p) /\
    mm_inv (set_head (l1 ++ MmNode p NodeType_Free (base n) d null_cap 0 0 ::
                          with_extent (base n + d) (size n - d) n :: l2) (set_slabs a w)) lo hi fls' /\
    concat fls' = rest.
Proof.
  intros Hinv Hw Hd E. pose proof Hinv as [Hlo Hhi Ht Hsl Hnd Hbl]. rewrite Hw in Ht, Hnd, Hbl.
  destruct (create_spec w lo hi fls p rest NodeType_Free (base n) d Hinv E)
    as (a & fls' & Ec & Ha & Hr & Hall & Hpa & Hpr & Hph).
  exists a, fls'. rewrite Hw in Hph |- *. rewrite set_node_at by done. split_and!; [| |done].
  - unfold mm_mmnode_add. cbn [head set_head]. rewrite (find_place_cut lo l1 n l2 hi d) by done.
    unfold mm_create_node in *. cbn [mm_slabs set_head].
    destruct (slab_alloc None (mm_slabs w)) as [[a' p']|]; [|done]. cbn [mbind outcome_bind] in *.
    destruct (p' =? NULL); [done|]. injection Ec as -> ->. done.
  - eapply (mm_inv_replace w _ _ _ _ _ l1 n l2
      [MmNode p NodeType_Free (base n) d null_cap 0 0; with_extent (base n + d) (size n - d) n]); eauto.
    + simpl. lia.
    + cbn [app]. rewrite <- Permutation_middle, fmap_cons. constructor.
      * rewrite !fmap_app, fmap_cons in *. exact Hph.
      * rewrite !fmap_app, fmap_cons in *. exact Hnd.
    + intros m Hm. rewrite Hr. case_list Hm; simpl.
      * split; [by rewrite <- Hall|done].
      * destruct (Hbl n) as [? Hn]; [apply elem_of_app; right; by left|]. split; [done|].
        rewrite E in Hn. by apply not_elem_of_cons in Hn as [_ ?].
    + intros m Hm. rewrite Hr. destruct (Hbl m) as [_ Hn].
      { rewrite elem_of_app, elem_of_cons. apply elem_of_app in Hm. tauto. }
      rewrite E in Hn. by apply not_elem_of_cons in Hn as [_ ?].
Qed.

(** * Carving out an aligned piece *)

(** A free piece of [s] bytes at [b], if there is any. *)
Definition piece (b s : Z) : list (nodetype * Z * Z) :=
  if s =? 0 then [] else [(NodeType_Free, b, s)].

Lemma align_dif_spec b al : 0 <= b -> 0 < al < 2 ^ 32 ->
  0 <= align_dif b al < al /\ (b + align_dif b al) `mod` al = 0.
Proof.
  intros Hb Hal. unfold align_dif. pose proof (Z.mod_pos_bound b al ltac:(lia)).
  rewrite (u32_small (b `mod` al)) by lia.
  destruct (Z.ltb_spec 0 (b `mod` al)); [|].
  - unwrap. split; [lia|].
    replace (b + (al - b `mod` al)) with (al * (b / al + 1)) by (pose proof (Z.div_mod b al); lia).
    rewrite Z.mul_comm. apply Z.mod_mul. lia.
  - split; [lia|]. rewrite Zplus_mod, (Z.mod_small (b `mod` al)) by lia.
    replace (b `mod` al) with 0 by lia. by rewrite Z.mod_0_l by lia.
Qed.

Lemma node_extent w lo hi fls n : mm_inv w lo hi fls -> n ∈ head w ->
  0 <= base n /\ 0 < size n /\ base n + size n < 2 ^ 64.
Proof.
  intros [Hlo Hhi Ht _ _ _] Hn.
  destruct (tiles_elem _ _ _ (n_type n) (base n) (size n) Ht); [|lia].
  apply list_elem_of_fmap. by exists n.
Qed.

Lemma align_node_spec w lo hi fls l1 n l2 dif : mm_inv w lo hi fls -> head w = l1 ++ n :: l2 ->
  0 <= dif < size n -> (1 <= length (concat fls))%nat ->
  exists a gap fls', let n' := with_extent (base n + dif) (size n - dif) n in
    mm_align_node (n_addr n) dif n w = Done (set_head (l1 ++ gap ++ n' :: l2) (set_slabs a w)) /\
    mm_inv (set_head (l1 ++ gap ++ n' :: l2) (set_slabs a w)) lo hi fls' /\
    shape <$> gap = piece (base n) dif /\ (length (concat fls) <= length (concat fls') + 1)%nat.
Proof.
  intros Hinv Hw Hd Hlen. destruct (node_extent w lo hi fls n Hinv) as (Hb & Hs & Hbs).
  { rewrite Hw. apply elem_of_app. right. by left. }
  unfold mm_align_node, piece. destruct (Z.eqb_spec dif 0) as [->|Hne]; cbn [negb].
  - exists (mm_slabs w), [], fls. simpl. rewrite Z.add_0_r, Z.sub_0_r.
    replace (with_extent (base n) (size n) n) with n by (by destruct n).
    replace (set_head (l1 ++ n :: l2) (set_slabs (mm_slabs w) w)) with w
      by (rewrite <- Hw; by destruct w).
    split_and!; auto. lia.
  - destruct (concat fls) as [|p rest] eqn:E; [simpl in Hlen; lia|].
    rewrite (u64_small (base n + dif)), (u64_small (size n - dif)) by lia.
    replace (base n + dif - dif) with (base n) by lia. rewrite (u64_small (base n)) by lia.
    destruct (cut_spec w lo hi fls l1 n l2 dif p rest Hinv Hw ltac:(lia) E) as (a & fls' & -> & Hinv' & Hr).
    exists a, [MmNode p NodeType_Free (base n) dif null_cap 0 0], fls'. simpl.
    split_and!; auto. rewrite Hr. lia.
Qed.

(** Updates that keep the extent and the address of nodes keep the invariant. *)
Lemma mm_inv_change w w' lo hi fls : mm_inv w lo hi fls -> mm_slabs w' = mm_slabs w ->
  extent <$> (shape <$> head w') = extent <$> (shape <$> head w) ->
  n_addr <$> head w' = n_addr <$> head w -> mm_inv w' lo hi fls.
Proof.
  intros [Hlo Hhi Ht Hsl Hnd Hbl] Hs Hsh Had. split; auto; rewrite ?Hs, ?Had; auto.
  - by eapply tiles_extent.
  - intros n Hn. assert (Hin : n_addr n ∈ n_addr <$> head w).
    { rewrite <- Had. by apply list_elem_of_fmap_2. }
    apply list_elem_of_fmap in Hin as (m & -> & Hm). by apply Hbl.
Qed.

Lemma set_node_map {A} (g : mmnode -> A) p f (l : list mmnode) : (forall n, g (f n) = g n) ->
  g <$> set_node p f l = g <$> l.
Proof.
  intros Hg. unfold set_node. rewrite <- list_fmap_compose. apply list_fmap_ext. intros i n _. simpl.
  by destruct (n_addr n =? p).
Qed.

Lemma split_node_spec w lo hi fls l1 n l2 s : mm_inv w lo hi fls -> head w = l1 ++ n :: l2 ->
  0 < s <= size n -> n_type n = NodeType_Free -> (1 <= length (concat fls))%nat ->
  exists a q rest fls',
    mm_split_node (n_addr n) s n w = Done (set_head (l1 ++ q :: rest ++ l2) (set_slabs a w), n_addr q) /\
    mm_inv (set_head (l1 ++ q :: rest ++ l2) (set_slabs a w)) lo hi fls' /\
    shape q = (NodeType_Free, base n, s) /\ shape <$> rest = piece (base n + s) (size n - s).
Proof.
  intros Hinv Hw Hs Ht Hlen. destruct (node_extent w lo hi fls n Hinv) as (Hb & _ & Hbs).
  { rewrite Hw. apply elem_of_app. right. by left. }
  unfold mm_split_node, piece. destruct (Z.ltb_spec s (size n)) as [Hlt|Hge].
  - destruct (concat fls) as [|p rest] eqn:E; [simpl in Hlen; lia|].
    rewrite (u64_small (base n + s)), (u64_small (size n - s)) by lia.
    destruct (cut_spec w lo hi fls l1 n l2 s p rest Hinv Hw ltac:(lia) E) as (a & fls' & -> & Hinv' & Hr).
    cbn [mbind outcome_bind CHECK err_is_fail SYS_ERR_OK head set_head].
    set (q := MmNode p NodeType_Free (base n) s null_cap 0 0) in *.
    set (n' := with_extent (base n + s) (size n - s) n) in *.
    pose proof (inv_addrs _ _ _ _ Hinv') as Hnd. cbn [head set_head] in Hnd.
    change p with (n_addr q) at 1. rewrite set_node_at by done.
    change (n_addr n) with (n_addr n').
    set (q' := with_capinfo (base n) s q). set (g := fun m => with_capinfo _ _ m).
    assert (Hnd' : NoDup (n_addr <$> ((l1 ++ [q']) ++ n' :: l2))).
    { rewrite <- app_assoc. rewrite !fmap_app in *. exact Hnd. }
    replace (l1 ++ q' :: n' :: l2) with ((l1 ++ [q']) ++ n' :: l2) by (by rewrite <- app_assoc).
    rewrite set_node_at, <- app_assoc by done. exists a, q', [g n'], fls'.
    zdecide. split_and!; [done| |done|by rewrite <- Ht].
    eapply mm_inv_change; [exact Hinv'|done|..]; cbn [head set_head]; rewrite !fmap_app; done.
  - exists (mm_slabs w), n, [], fls. zdecide. replace (size n) with s by lia.
    replace (set_head (l1 ++ n :: [] ++ l2) (set_slabs (mm_slabs w) w)) with w
      by (simpl; rewrite <- Hw; by destruct w).
    split_and!; auto. unfold shape. rewrite Ht. do 2 f_equal. lia.
Qed.

Lemma fits_spec s al n : mm_fits s al n = true -> 0 <= base n -> 0 < s -> 0 < al -> s + al < 2 ^ 32 ->
  n_type n = NodeType_Free /\ s + align_dif (base n) al <= size n.
Proof.
  unfold mm_fits. intros [Ht%bool_decide_eq_true Hf%Z.leb_le]%andb_true_iff Hb Hs Hal Hw.
  destruct (align_dif_spec (base n) al Hb ltac:(lia)) as [Hd _]. rewrite u32_small in Hf by lia. done.
Qed.

Lemma carve_spec w lo hi fls s al n : mm_inv w lo hi fls -> (2 <= length (concat fls))%nat ->
  0 < s -> 0 < al -> s + al < 2 ^ 32 -> find (mm_fits s al) (head w) = Some n ->
  exists a l1 l2 gap q rest fls', let dif := align_dif (base n) al in
    mm_carve s al w = Done (set_head (l1 ++ gap ++ q :: rest ++ l2) (set_slabs a w), n_addr q) /\
    mm_inv (set_head (l1 ++ gap ++ q :: rest ++ l2) (set_slabs a w)) lo hi fls' /\
    head w = l1 ++ n :: l2 /\ n_type n = NodeType_Free /\
    shape q = (NodeType_Free, base n + dif, s) /\ shape <$> gap = piece (base n) dif /\
    shape <$> rest = piece (base n + dif + s) (size n - dif - s).
Proof.
  intros Hinv Hlen Hs Hal Hw Hfind. pose proof Hfind as Hf. apply find_some in Hf as [Hin Hf].
  apply list_elem_of_In in Hin. destruct (node_extent w lo hi fls n Hinv Hin) as (Hb & Hsz & Hbs).
  destruct (fits_spec _ _ _ Hf Hb Hs Hal Hw) as [Ht Hfit].
  destruct (align_dif_spec (base n) al Hb ltac:(lia)) as [Hd _].
  apply list_elem_of_split in Hin as (l1 & l2 & E).
  unfold mm_carve, mm_mmnode_find. rewrite Hfind. cbn [CHECK err_is_fail SYS_ERR_OK mbind outcome_bind].
  assert ((al =? 0) = false) as -> by (zcases; lia). cbn [negb].
  set (dif := align_dif (base n) al) in *. rewrite (u32_small (s + dif)), assert_true by (zcases; lia).
  step.
  destruct (align_node_spec w lo hi fls l1 n l2 dif Hinv E ltac:(lia) ltac:(lia))
    as (a & gap & fls1 & -> & Hinv1 & Hgap & Hlen1).
  set (n' := with_extent (base n + dif) (size n - dif) n) in *. cbn [mbind outcome_bind head set_head].
  pose proof (inv_addrs _ _ _ _ Hinv1) as Hnd. cbn [head set_head] in Hnd. rewrite app_assoc in Hnd.
  change (n_addr n) with (n_addr n'). rewrite (app_assoc l1 gap (n' :: l2)), node_at_app by done.
  rewrite (app_assoc l1 gap (n' :: l2)) in Hinv1.
  destruct (split_node_spec _ lo hi fls1 (l1 ++ gap) n' l2 s Hinv1 eq_refl) as
    (a2 & q & rest & fls2 & -> & Hinv2 & Hq & Hrest); [simpl; lia|done|lia|].
  exists a2, l1, l2, gap, q, rest, fls2. rewrite <- app_assoc in *. split_and!; auto.
Qed.

(** * Slots *)

(** The slot allocator has a slot and is not due for a refill. *)
Definition slots_ready (s : slot_prealloc) : Prop :=
  4 <= meta_free (meta0 s) <= L2_CNODE_SLOTS \/ 4 <= meta_free (meta1 s) <= L2_CNODE_SLOTS.

Lemma slot_alloc_spec refill w : slots_ready (sa w) ->
  0 <= meta_free (meta0 (sa w)) -> 0 <= meta_free (meta1 (sa w)) ->
  exists s cap, mm_slot_alloc refill 1 w = Done (set_sa s w, cap).
Proof.
  intros Hr H0 H1. unfold mm_slot_alloc.
  assert ((meta_free (meta0 (sa w)) <? 4) && (meta_free (meta1 (sa w)) <? 4) = false) as ->.
  { destruct Hr; zdecide; [done|]. by rewrite andb_false_r. }
  cbn [andb mbind outcome_bind]. unfold slot_alloc_prealloc. cbn [assert mbind outcome_bind].
  change (1 <? L2_CNODE_SLOTS) with true. cbn [mbind outcome_bind assert].
  destruct (sa w) as [m0 m1 c r]. unfold slots_ready in Hr. simpl in *.
  destruct c; simpl;
    [destruct (Z.ltb_spec (meta_free m1) 1)|destruct (Z.ltb_spec (meta_free m0) 1)];
    simpl; zdecide; simpl; eauto.
Qed.

(** * Allocation *)

Lemma coalesced_carve A b s B c g q r x : coalesced (A ++ (NodeType_Free, b, s) :: B) ->
  is_free q = false -> coalesced (A ++ piece c g ++ q :: piece r x ++ B).
Proof.
  unfold coalesced. rewrite !separated_app. cbn [separated]. intros (HA & Hn & HB) Hq.
  split; [done|]. change (is_free (NodeType_Free, b, s)) with true in *.
  rewrite andb_true_r in Hn. rewrite Hn. unfold piece. repeat case_match; cbn [app separated last_free];
    rewrite ?Hq; cbn; split_and!; auto using separated_weaken.
Qed.

Lemma round_page_spec x : 0 <= x -> x + BASE_PAGE_SIZE < 2 ^ 32 ->
  x <= round_page x < x + BASE_PAGE_SIZE /\ round_page x `mod` BASE_PAGE_SIZE = 0.
Proof.
  unfold round_page, BASE_PAGE_SIZE. intros Hx Hlt.
  pose proof (Z.mod_pos_bound x 4096 ltac:(lia)).
  destruct (Z.eqb_spec (x `mod` 4096) 0); cbn [negb]; [lia|].
  unwrap. split; [lia|].
  replace (x + (4096 - x `mod` 4096)) with ((x / 4096 + 1) * 4096) by (pose proof (Z.div_mod x 4096); lia).
  apply Z.mod_mul. lia.
Qed.

(** The alignment that [mm_alloc_aligned] works with. *)
Definition real_alignment (alignment : Z) : Z :=
  round_page (if alignment =? 0 then BASE_PAGE_SIZE else alignment).

Lemma real_alignment_spec al : 0 <= al -> al + BASE_PAGE_SIZE < 2 ^ 32 ->
  0 < real_alignment al < al + 2 * BASE_PAGE_SIZE.
Proof.
  intros. unfold real_alignment, BASE_PAGE_SIZE in *.
  assert (forall x, 0 < x -> x + 4096 < 2 ^ 32 -> 0 < round_page x < x + 4096) as Hr.
  { intros x ? ?. pose proof (round_page_spec x). unfold BASE_PAGE_SIZE in *. lia. }
  destruct (Z.eqb_spec al 0); [subst; by vm_compute|]. specialize (Hr al). lia.
Qed.

Section Alloc.
Variables slab_refill root_refill : world -> outcome (world * errval).

(** The allocation is ready: blocks for the nodes and slots are at hand. *)
Record mm_ready (w : world) (fls : list (list Z)) : Prop := {
  ready_blocks : 4 <= Z.of_nat (length (concat fls)) < 2 ^ 32;
  ready_slots : slots_ready (sa w);
  ready_meta0 : 0 <= meta_free (meta0 (sa w));
  ready_meta1 : 0 <= meta_free (meta1 (sa w))
}.

Lemma no_slab_refill w lo hi fls : mm_inv w lo hi fls -> mm_ready w fls ->
  mm_refill_slabs slab_refill w = Done w.
Proof.
  intros Hinv [Hb _ _ _]. unfold mm_refill_slabs.
  rewrite (freecount_spec _ _ (inv_slabs _ _ _ _ Hinv)), u32_small by lia. by zdecide.
Qed.

Lemma mm_alloc_spec w lo hi fls fuel sz al n : mm_inv w lo hi fls -> mm_ready w fls ->
  coalesced (shape <$> head w) -> 0 < sz -> 0 <= al -> sz + al + 4 * BASE_PAGE_SIZE < 2 ^ 32 ->
  let s := round_page sz in let a := real_alignment al in let start := base n + align_dif (base n) a in
  find (mm_fits s a) (head w) = Some n ->
  (forall dest, (sys_cap_retype dest (ram_cap w) (u64 (start - initial_base w)) s (below w)).2 = SYS_ERR_OK) ->
  exists w' cap l1 l2 m1 q m2 fls',
    mm_alloc_aligned slab_refill root_refill (S fuel) sz al w = Done (w', SYS_ERR_OK, cap) /\
    mm_inv w' lo hi fls' /\ coalesced (shape <$> head w') /\
    head w = l1 ++ n :: l2 /\ n_type n = NodeType_Free /\ head w' = m1 ++ q :: m2 /\
    (shape <$> m1) = (shape <$> l1) ++ piece (base n) (start - base n) /\
    (shape <$> m2) = piece (start + s) (base n + size n - (start + s)) ++ (shape <$> l2) /\
    shape q = (NodeType_Allocated, start, s) /\ ncap q = cap /\
    below w' = (sys_cap_retype cap (ram_cap w) (u64 (start - initial_base w)) s (below w)).1.
Proof.
  intros Hinv Hrdy Hco Hsz Hal Hw s a start Hfind Hret. unfold BASE_PAGE_SIZE in Hw.
  destruct (round_page_spec sz) as [Hs _]; [lia|unfold BASE_PAGE_SIZE; lia|]. fold s in Hs.
  pose proof (real_alignment_spec al ltac:(lia) ltac:(unfold BASE_PAGE_SIZE; lia)) as Ha. fold a in Ha.
  unfold BASE_PAGE_SIZE in Hs, Ha. destruct Hrdy as [Hbl Hsl Hm0 Hm1] eqn:Er.
  cbn [mm_alloc_aligned]. rewrite (no_slab_refill w lo hi fls) by done. step.
  fold (real_alignment al). fold a s.
  destruct (carve_spec w lo hi fls s a n) as
    (ab & l1 & l2 & gap & q & rest & fls' & -> & Hinv' & E & Ht & Hq & Hgap & Hrest); auto; [lia..|].
  step. fold start in Hq, Hrest.
  destruct (slot_alloc_spec (slot_prealloc_refill
      (fun s => mm_alloc_aligned slab_refill root_refill fuel s BASE_PAGE_SIZE) root_refill)
      (set_head (l1 ++ gap ++ q :: rest ++ l2) (set_slabs ab w)) Hsl Hm0 Hm1) as (sa' & cap & ->).
  cbn [mbind outcome_bind head set_head set_sa below ram_cap initial_base set_slabs].
  pose proof (inv_addrs _ _ _ _ Hinv') as Hnd. cbn [head set_head] in Hnd.
  rewrite (app_assoc l1 gap) in *. set (q' := with_cap cap q).
  rewrite (set_node_at (with_cap cap)) by done. fold q'. change (n_addr q) with (n_addr q').
  assert (Hnd' : NoDup (n_addr <$> ((l1 ++ gap) ++ q' :: rest ++ l2))) by (rewrite fmap_app in *; exact Hnd).
  rewrite node_at_app by done.
  assert (Hqb : base q' = start) by (by injection Hq). rewrite Hqb. specialize (Hret cap).
  destruct (sys_cap_retype cap (ram_cap w) (u64 (start - initial_base w)) s (below w)) as [b ev] eqn:Eret.
  simpl in Hret. subst ev. rewrite bool_decide_eq_false_2 by done.
  cbn [head set_head set_below]. rewrite set_node_at by done. set (q2 := with_type NodeType_Allocated q').
  eexists _, cap, l1, l2, (l1 ++ gap), q2, (rest ++ l2), fls'. split; [reflexivity|].
  assert (Hsh : shape q2 = (NodeType_Allocated, start, s))
    by (unfold shape, q2, q'; simpl; by injection Hq as _ -> ->).
  assert (H1 : shape <$> (l1 ++ gap) = (shape <$> l1) ++ piece (base n) (start - base n)).
  { rewrite fmap_app, Hgap. do 2 f_equal. unfold start. lia. }
  assert (H2 : shape <$> (rest ++ l2) =
    piece (start + s) (base n + size n - (start + s)) ++ (shape <$> l2)).
  { rewrite fmap_app, Hrest. do 2 f_equal. unfold start. lia. }
  cbn [head set_head]. split_and!; auto.
  - eapply mm_inv_change; [exact Hinv'|done|..]; cbn [head set_head]; rewrite !fmap_app; done.
  - rewrite fmap_app, fmap_cons, H1, H2, Hsh, <- app_assoc.
    eapply (coalesced_carve _ (base n) (size n)); [|done]. rewrite E, fmap_app, fmap_cons in Hco.
    unfold shape in Hco at 2. rewrite Ht in Hco. exact Hco.
  - by rewrite Eret.
Qed.
End Alloc.

(** * Freeing *)

(** Merging a node with the one after it. *)
Lemma mm_merge_spec w lo hi fls l1 x y l2 x0 : mm_inv w lo hi fls -> head w = l1 ++ x :: y :: l2 ->
  n_addr x0 = n_addr x ->
  exists a fls',
    mm_mmnode_merge x0 y w =
      Done (set_slabs a (set_head (l1 ++ with_extent (base x) (size x + size y) x :: l2) w), SYS_ERR_OK) /\
    mm_inv (set_slabs a (set_head (l1 ++ with_extent (base x) (size x + size y) x :: l2) w)) lo hi fls'.
Proof.
  intros Hinv Hw Hx0. pose proof Hinv as [Hlo Hhi Ht Hsl Hnd Hbl]. rewrite Hw in Ht, Hnd, Hbl.
  assert (Hyin : y ∈ l1 ++ x :: y :: l2) by (apply elem_of_app; right; right; by left).
  destruct (Hbl y Hyin) as [Hyb Hyf].
  destruct (free_spec _ _ _ Hsl Hyb Hyf) as (a & fls' & Ea & Ha & Hp & Hall).
  exists a, fls'. set (x' := with_extent (base x) (size x + size y) x).
  assert (Hxy : base y = base x + size x /\ base x + size x + size y < 2 ^ 64 /\
    0 <= base x /\ 0 < size x /\ 0 < size y).
  { rewrite !fmap_app, !fmap_cons in Ht. apply tiles_app in Ht as (mid & Ht1 & Ht2). simpl in Ht2.
    destruct Ht2 as (? & ? & ? & ? & Ht2). apply tiles_le in Ht1, Ht2. lia. }
  split.
  - unfold mm_mmnode_merge. rewrite Hx0, Hw, set_node_at by done.
    unfold mm_mmnode_remove. cbn [mm_slabs set_head head]. rewrite Ea. step.
    rewrite u64_small by lia. fold x'.
    replace (l1 ++ x' :: y :: l2) with ((l1 ++ [x']) ++ y :: l2) by (by rewrite <- app_assoc).
    rewrite filter_at, <- app_assoc; [done|]. rewrite <- app_assoc, !fmap_app in *. exact Hnd.
  - assert (Hperm : l1 ++ x :: y :: l2 ≡ₚ y :: (l1 ++ x :: l2)).
    { change (x :: y :: l2) with ([x] ++ y :: l2). rewrite app_assoc, <- Permutation_middle, <- app_assoc. done. }
    rewrite Hperm, fmap_cons in Hnd. apply NoDup_cons in Hnd as [Hyn Hnd].
    split; auto; cbn [head set_head set_slabs mm_slabs].
    + rewrite !fmap_app, !fmap_cons in *. apply tiles_app in Ht as (mid & Ht1 & Ht2). apply tiles_app.
      exists mid. split; [done|]. simpl in *. destruct Ht2 as (? & ? & ? & ? & Ht2). split_and!; [done|lia|].
      by rewrite Z.add_assoc.
    + rewrite fmap_app in *. exact Hnd.
    + intros m Hm. rewrite Hall, Hp, not_elem_of_cons.
      assert (Hma : n_addr m ∈ n_addr <$> (l1 ++ x :: l2)).
      { apply (list_elem_of_fmap_2 n_addr) in Hm. rewrite fmap_app in *. exact Hm. }
      apply list_elem_of_fmap in Hma as (m' & Hm' & Hin). rewrite Hm'.
      destruct (Hbl m') as [??]; [rewrite Hperm; by right|]. split_and!; auto.
      intros Heq. apply Hyn. rewrite <- Heq. by apply list_elem_of_fmap_2.
Qed.

(** The shape of the list after freeing [s] bytes at [b] between [l1] and [l2]. *)
Definition absorb_next (s : Z) (l2 : list (nodetype * Z * Z)) : Z * list (nodetype * Z * Z) :=
  match l2 with
  | (NodeType_Free, _, s2) :: l2 => (s + s2, l2)
  | _ => (s, l2)
  end.

Definition freed (l1 : list (nodetype * Z * Z)) (b s : Z) (l2 : list (nodetype * Z * Z))
  : list (nodetype * Z * Z) :=
  let '(s, l2) := absorb_next s l2 in
  match last l1 with
  | Some (NodeType_Free, b1, s1) => removelast l1 ++ (NodeType_Free, b1, s1 + s) :: l2
  | _ => l1 ++ (NodeType_Free, b, s) :: l2
  end.

Lemma free_next_spec w lo hi fls l1 n l2 : mm_inv w lo hi fls -> head w = l1 ++ n :: l2 ->
  n_type n = NodeType_Free -> forall n0, n_addr n0 = n_addr n ->
  exists w' n' l2' fls',
    match l2 with
    | next :: _ =>
      if bool_decide (n_type next = NodeType_Free) then
        '(w, ev) ← mm_mmnode_merge n0 next w; _ ← CHECK ev; Done w
      else Done w
    | [] => Done w
    end = Done w' /\ mm_inv w' lo hi fls' /\ head w' = l1 ++ n' :: l2' /\ n_addr n' = n_addr n /\
    n_type n' = NodeType_Free /\ base n' = base n /\
    (size n', shape <$> l2') = absorb_next (size n) (shape <$> l2).
Proof.
  intros Hinv Hw Ht n0 Hn0. destruct l2 as [|next l2]; [exists w, n, [], fls; split_and!; auto|].
  rewrite fmap_cons. unfold absorb_next, shape at 2.
  destruct (decide (n_type next = NodeType_Free)) as [Hf|Hf].
  - rewrite bool_decide_eq_true_2 by done.
    destruct (mm_merge_spec w lo hi fls l1 n next l2 n0 Hinv Hw Hn0) as (a & fls' & -> & Hinv').
    rewrite Hf. eexists _, _, l2, fls'. split_and!; [reflexivity|exact Hinv'|reflexivity|done..].
  - rewrite bool_decide_eq_false_2 by done. exists w, n, (next :: l2), fls. split_and!; auto.
    by destruct (n_type next).
Qed.

Lemma free_node_spec w lo hi fls l1 n l2 cap : mm_inv w lo hi fls -> head w = l1 ++ n :: l2 ->
  exists w' fls', mm_free_node cap l1 n l2 w = Done (w', SYS_ERR_OK) /\ mm_inv w' lo hi fls' /\
    (shape <$> head w') = freed (shape <$> l1) (base n) (size n) (shape <$> l2).
Proof.
  intros Hinv Hw. pose proof (inv_addrs _ _ _ _ Hinv) as Hnd. rewrite Hw in Hnd.
  unfold mm_free_node. rewrite Hw, set_node_at by done.
  set (w1 := set_below _ _). set (nf := with_type NodeType_Free n).
  assert (Hinv1 : mm_inv w1 lo hi fls).
  { eapply mm_inv_change; [exact Hinv|done|..]; rewrite Hw; cbn [head w1 set_head set_below];
      rewrite !fmap_app; done. }
  destruct (free_next_spec w1 lo hi fls l1 nf l2 Hinv1 eq_refl eq_refl n eq_refl)
    as (w2 & n2 & l2' & fls2 & -> & Hinv2 & Hw2 & Ha2 & Ht2 & Hb2 & Habs).
  step. unfold freed. change (size n) with (size nf). rewrite <- Habs, fmap_last.
  destruct l1 as [|prev l1 _] using rev_ind.
  - simpl. exists w2, fls2. split_and!; auto. rewrite Hw2. unfold shape. simpl. by rewrite Ht2, Hb2.
  - rewrite last_snoc. cbn [fmap option_fmap option_map]. unfold shape at 2.
    destruct (decide (n_type prev = NodeType_Free)) as [Hf|Hf].
    + rewrite bool_decide_eq_true_2, Hf by done.
      pose proof (inv_addrs _ _ _ _ Hinv2) as Hnd2. rewrite Hw2 in Hnd2.
      change (n_addr n) with (n_addr nf). rewrite <- Ha2, Hw2, node_at_app by done.
      rewrite <- app_assoc in Hw2. simpl in Hw2.
      destruct (mm_merge_spec w2 lo hi fls2 l1 prev n2 l2' prev Hinv2 Hw2 eq_refl) as (a & fls3 & -> & Hinv3).
      eexists _, fls3. split; [reflexivity|]. split; [exact Hinv3|]. cbn [head set_head set_slabs].
      rewrite !fmap_app, !fmap_cons, fmap_nil, removelast_last. unfold shape at 2. simpl. by rewrite Hf.
    + rewrite bool_decide_eq_false_2 by done. exists w2, fls2. split_and!; auto. rewrite Hw2, fmap_app, fmap_cons.
      unfold shape at 2. rewrite Ht2, Hb2. simpl. by destruct (n_type prev).
Qed.

Lemma coalesced_freed A b s B t : coalesced (A ++ (t, b, s) :: B) -> coalesced (freed A b s B).
Proof.
  unfold coalesced, freed. intros Hc. rewrite separated_app in Hc. destruct Hc as [HA [_ HB]].
  set (p := is_free (t, b, s)) in *.
  assert (Habs : let '(_, B') := absorb_next s B in separated true B').
  { destruct B as [|[[tb bb] sb] B]; [done|]. simpl in HB. destruct tb; simpl in *; tauto. }
  destruct (absorb_next s B) as [s' B'].
  destruct A as [|[[ta ba] sa'] A _] using rev_ind; [simpl; tauto|].
  rewrite last_snoc, removelast_last. rewrite separated_app in HA. simpl in HA. destruct HA as [HA [Hl _]].
  destruct ta; rewrite ?separated_app; simpl; change (is_free (NodeType_Free, _, _)) with true in *;
    rewrite ?last_free_snoc; split_and!; auto.
Qed.

(** Freeing the piece that was carved out of a free node restores it. *)
Lemma freed_piece A b s B start len : coalesced (A ++ (NodeType_Free, b, s) :: B) ->
  b <= start -> 0 < len -> start + len <= b + s ->
  freed (A ++ piece b (start - b)) start len (piece (start + len) (b + s - (start + len)) ++ B) =
  A ++ (NodeType_Free, b, s) :: B.
Proof.
  unfold coalesced. rewrite separated_app. simpl. change (is_free (NodeType_Free, b, s)) with true.
  rewrite andb_true_r. intros (_ & HA & HB) H1 H2 H3.
  assert (HlastA : forall ba sa', last A <> Some (NodeType_Free, ba, sa')).
  { intros ba sa' Hl. destruct A as [|x A _] using rev_ind; [done|]. rewrite last_snoc in Hl.
    injection Hl as ->. by rewrite last_free_snoc in HA. }
  assert (Habs : exists l, absorb_next len (piece (start + len) (b + s - (start + len)) ++ B) = (l, B) /\
    start + l = b + s).
  { unfold piece. destruct (Z.eqb_spec (b + s - (start + len)) 0); simpl; [|eexists; split; [done|lia]].
    exists len. split; [|lia]. destruct B as [|[[tb bb] sb] B]; [done|]. simpl in HB.
    destruct tb; [|done..]. by destruct HB as [? _]. }
  destruct Habs as (l & Habs & Hl). unfold freed. rewrite Habs. unfold piece.
  destruct (Z.eqb_spec (start - b) 0).
  - rewrite app_nil_r. replace start with b in * by lia. replace l with s by lia.
    destruct (last A) as [[[[] ba] sa']|] eqn:E; try done. by destruct (HlastA ba sa').
  - rewrite last_snoc, removelast_last. do 3 f_equal. lia.
Qed.

Lemma walk_at p pre l1 n l2 : (forall m, m ∈ l1 -> p m = false) -> p n = true ->
  mm_walk p pre (l1 ++ n :: l2) = Some (pre ++ l1, n, l2).
Proof.
  revert pre. induction l1 as [|m l1 IH]; intros pre Hl1 Hn; simpl.
  - by rewrite Hn, app_nil_r.
  - rewrite Hl1 by (by left). rewrite IH, <- app_assoc; auto. intros x Hx. apply Hl1. by right.
Qed.

(** Two nodes of the list never overlap. *)
Lemma nodes_disjoint w lo hi fls l1 n l2 m : mm_inv w lo hi fls -> head w = l1 ++ n :: l2 ->
  m ∈ l1 ++ l2 -> base m <> base n /\ (base m + size m <= base n \/ base n + size n <= base m).
Proof.
  intros [_ _ Ht _ _ _] Hw Hm. rewrite Hw, fmap_app, fmap_cons in Ht.
  apply tiles_app in Ht as (mid & H1 & H2). simpl in H2. destruct H2 as (Hb & Hs & H2).
  apply elem_of_app in Hm as [Hm|Hm]; apply (list_elem_of_fmap_2 shape) in Hm.
  - destruct (tiles_elem _ _ _ _ _ _ H1 Hm). lia.
  - destruct (tiles_elem _ _ _ _ _ _ H2 Hm). lia.
Qed.

Lemma free_find w lo hi fls l1 n l2 s : mm_inv w lo hi fls -> head w = l1 ++ n :: l2 ->
  0 <= size n - s <= BASE_PAGE_SIZE ->
  mm_walk (mm_free_match (base n) s) [] (head w) = Some (l1, n, l2).
Proof.
  intros Hinv Hw Hs. rewrite Hw. unfold BASE_PAGE_SIZE in Hs. apply walk_at; unfold mm_free_match.
  - intros m Hm. destruct (nodes_disjoint w lo hi fls l1 n l2 m Hinv Hw) as [? _].
    { apply elem_of_app. auto. } zdecide. done.
  - rewrite u64_small by lia. unfold BASE_PAGE_SIZE. by zdecide.
Qed.

Lemma free_spec' w lo hi fls l1 n l2 s cap : mm_inv w lo hi fls -> coalesced (shape <$> head w) ->
  head w = l1 ++ n :: l2 -> 0 <= size n - s <= BASE_PAGE_SIZE ->
  exists w' fls', mm_free cap (base n) s w = Done (w', SYS_ERR_OK) /\ mm_inv w' lo hi fls' /\
    coalesced (shape <$> head w') /\
    (shape <$> head w') = freed (shape <$> l1) (base n) (size n) (shape <$> l2).
Proof.
  intros Hinv Hco Hw Hs. unfold mm_free. rewrite (free_find w lo hi fls l1 n l2) by done.
  destruct (free_node_spec w lo hi fls l1 n l2 cap Hinv Hw) as (w' & fls' & E & Hinv' & Hsh).
  exists w', fls'. split_and!; auto. rewrite Hsh. apply (coalesced_freed _ _ _ _ (n_type n)).
  rewrite Hw, fmap_app, fmap_cons in Hco. exact Hco.
Qed.

(** * Contracts *)

(** C21: when a free node fits, four list nodes and the slots are at hand so
    that nothing is refilled, the managed memory does not start before the
    capability it comes from, and the kernel grants the retype,
    mm_alloc_aligned returns a capability for an aligned, page-rounded piece
    of that node which overlaps no other node: its one effect on the kernel
    is the retype of the managed capability into the returned slot, at the
    offset of the piece from the start of that capability and with the size
    of the piece; the nodes still tile the managed memory and stay
    coalesced. Size and alignment together are below 4 GB. What a refill in
    the middle of an allocation can do is shown by
    refill_reenters_allocation. *)
Theorem mm_alloc_aligned_correct slab_refill root_refill w lo hi fls fuel sz al n :
  mm_inv w lo hi fls -> mm_ready w fls -> coalesced (shape <$> head w) ->
  0 < sz -> 0 <= al -> sz + al + 4 * BASE_PAGE_SIZE < 2 ^ 32 ->
  find (mm_fits (round_page sz) (real_alignment al)) (head w) = Some n -> 0 <= initial_base w <= lo ->
  (forall dest off, (sys_cap_retype dest (ram_cap w) off (round_page sz) (below w)).2 = SYS_ERR_OK) ->
  exists w' cap l1 q l2 fls',
    mm_alloc_aligned slab_refill root_refill (S fuel) sz al w = Done (w', SYS_ERR_OK, cap) /\
    mm_inv w' lo hi fls' /\ coalesced (shape <$> head w') /\
    head w' = l1 ++ q :: l2 /\ ncap q = cap /\ n_type q = NodeType_Allocated /\
    base q `mod` real_alignment al = 0 /\ sz <= size q < sz + BASE_PAGE_SIZE /\
    base n <= base q /\ base q + size q <= base n + size n /\
    (forall m, m ∈ l1 ++ l2 -> base m + size m <= base q \/ base q + size q <= base m) /\
    below w' = (sys_cap_retype cap (ram_cap w) (base q - initial_base w) (size q) (below w)).1.
Proof.
  intros Hinv Hrdy Hco Hsz Hal Hw Hfind Hbase Hret. unfold BASE_PAGE_SIZE in Hw.
  destruct (mm_alloc_spec slab_refill root_refill w lo hi fls fuel sz al n) as
    (w' & cap & k1 & k2 & l1 & q & l2 & fls' & E & Hinv' & Hco' & Hhead & Hfree & Hw' & _ & _ & Hsh & Hcap & Hbel);
    auto.
  pose proof Hfind as Hf. apply find_some in Hf as [Hin Hf]. apply list_elem_of_In in Hin.
  destruct (node_extent w lo hi fls n Hinv Hin) as (Hb & Hsn & Hbs).
  destruct (round_page_spec sz) as [Hrp _]; [lia|unfold BASE_PAGE_SIZE; lia|].
  pose proof (real_alignment_spec al ltac:(lia) ltac:(unfold BASE_PAGE_SIZE; lia)) as Hra.
  unfold BASE_PAGE_SIZE in *.
  destruct (fits_spec _ _ _ Hf Hb ltac:(lia) ltac:(lia) ltac:(lia)) as [_ Hfit].
  destruct (align_dif_spec (base n) (real_alignment al) Hb ltac:(lia)) as [Hd Hmod].
  exists w', cap, l1, q, l2, fls'.
  injection Hsh as Ht Hbq Hsq. rewrite Hbq, Hsq. split_and!; auto; try lia.
  - intros m Hm. rewrite <- Hbq, <- Hsq. by apply (nodes_disjoint w' lo hi fls' l1 q l2 m).
  - rewrite Hbel. do 2 f_equal. apply u64_small. pose proof (node_above w lo hi fls n Hinv Hin). lia.
Qed.

(** C35: [mm_free] of a region with the address of a node and a size within
    a page of the node's succeeds: the node becomes free and merges with
    free neighbours, the nodes still tile the managed memory, and free
    nodes stay coalesced. *)
Theorem mm_free_correct w lo hi fls l1 n l2 s cap : mm_inv w lo hi fls ->
  coalesced (shape <$> head w) -> head w = l1 ++ n :: l2 -> 0 <= size n - s <= BASE_PAGE_SIZE ->
  exists w' fls', mm_free cap (base n) s w = Done (w', SYS_ERR_OK) /\ mm_inv w' lo hi fls' /\
    coalesced (shape <$> head w') /\
    (shape <$> head w') = freed (shape <$> l1) (base n) (size n) (shape <$> l2).
Proof. apply free_spec'. Qed.

(** Freeing a region right after its allocation restores the memory
    map: the same free and allocated regions as before. *)
Theorem mm_alloc_free_roundtrip slab_refill root_refill w lo hi fls fuel sz al n :
  mm_inv w lo hi fls -> mm_ready w fls -> coalesced (shape <$> head w) ->
  0 < sz -> 0 <= al -> sz + al + 4 * BASE_PAGE_SIZE < 2 ^ 32 ->
  find (mm_fits (round_page sz) (real_alignment al)) (head w) = Some n ->
  (forall dest off, (sys_cap_retype dest (ram_cap w) off (round_page sz) (below w)).2 = SYS_ERR_OK) ->
  exists w' cap q w'',
    mm_alloc_aligned slab_refill root_refill (S fuel) sz al w = Done (w', SYS_ERR_OK, cap) /\
    q ∈ head w' /\ ncap q = cap /\
    mm_free cap (base q) (size q) w' = Done (w'', SYS_ERR_OK) /\
    (shape <$> head w'') = (shape <$> head w).
Proof.
  intros Hinv Hrdy Hco Hsz Hal Hw Hfind Hret. unfold BASE_PAGE_SIZE in Hw.
  destruct (mm_alloc_spec slab_refill root_refill w lo hi fls fuel sz al n) as
    (w' & cap & k1 & k2 & l1 & q & l2 & fls' & E & Hinv' & Hco' & Hhead & Hfree & Hw' & H1 & H2 & Hsh & Hcap & _);
    auto.
  destruct (free_spec' w' lo hi fls' l1 q l2 (size q) cap Hinv' Hco' Hw') as (w'' & fls'' & E' & _ & _ & Hsh');
    [unfold BASE_PAGE_SIZE; lia|].
  exists w', cap, q, w''. split_and!; auto.
  { rewrite Hw'. apply elem_of_app. right. by left. }
  rewrite Hsh', Hhead, fmap_app, fmap_cons.
  pose proof Hfind as Hf. apply find_some in Hf as [Hin Hf]. apply list_elem_of_In in Hin.
  destruct (node_extent w lo hi fls n Hinv Hin) as (Hb & Hsn & Hbs).
  destruct (round_page_spec sz) as [Hrp _]; [lia|unfold BASE_PAGE_SIZE; lia|].
  pose proof (real_alignment_spec al ltac:(lia) ltac:(unfold BASE_PAGE_SIZE; lia)) as Hra.
  unfold BASE_PAGE_SIZE in *.
  destruct (fits_spec _ _ _ Hf Hb ltac:(lia) ltac:(lia) ltac:(lia)) as [_ Hfit].
  destruct (align_dif_spec (base n) (real_alignment al) Hb ltac:(lia)) as [Hd _].
  set (start := base n + align_dif (base n) (real_alignment al)) in *.
  injection Hsh as _ Hbq Hsq. rewrite Hbq, Hsq, H1, H2.
  assert (Hn : shape n = (NodeType_Free, base n, size n)) by (unfold shape; by rewrite Hfree).
  rewrite Hn. apply freed_piece; [|lia..]. by rewrite Hhead, fmap_app, fmap_cons, Hn in Hco.
Qed.

(** [mm_add] on a fresh manager, when the kernel grants the retype,
    establishes the invariant: one free node covers the region. *)
Theorem mm_add_establishes root_refill w fls fuel cap b s : head w = [] ->
  slab_inv (mm_slabs w) fls -> concat fls <> [] -> slots_ready (sa w) ->
  0 <= meta_free (meta0 (sa w)) -> 0 <= meta_free (meta1 (sa w)) ->
  0 <= b -> 0 < s -> b + s < 2 ^ 64 ->
  (forall dest, (sys_cap_retype dest cap 0 s (below w)).2 = SYS_ERR_OK) ->
  forall slab_refill, exists w' fls',
    mm_add slab_refill root_refill fuel cap b s w = Done (w', SYS_ERR_OK) /\
    mm_inv w' b (b + s) fls' /\ (shape <$> head w') = [(NodeType_Free, b, s)] /\
    initial_base w' = b /\ ram_cap w' = cap.
Proof.
  intros Hw Hsl Hne Hrdy Hm0 Hm1 Hb Hs Hbs Hret slab_refill.
  assert (Hinv : mm_inv w b b fls).
  { split; rewrite ?Hw; [lia|lia|done|done|constructor|by intros n ?%elem_of_nil]. }
  destruct (concat fls) as [|p rest] eqn:E; [done|].
  destruct (create_spec w b b fls p rest NodeType_Free b s Hinv E)
    as (a & fls' & Ec & Ha & Hr & Hall & Hpa & Hpr & _).
  unfold mm_add, mm_mmnode_add. rewrite Hw. cbn [mm_find_place]. rewrite Ec.
  cbn [mbind outcome_bind CHECK err_is_fail SYS_ERR_OK app n_addr head set_head].
  match goal with |- context [mm_slot_alloc ?r 1 ?w1] =>
    destruct (slot_alloc_spec r w1 Hrdy Hm0 Hm1) as (sa' & c & ->) end.
  cbn [mbind outcome_bind head set_head set_sa set_region set_slabs app below ram_cap initial_base].
  specialize (Hret c). destruct (sys_cap_retype c cap 0 s (below w)) as [b' ev]. simpl in Hret. subst ev.
  cbn [mbind outcome_bind CHECK err_is_fail SYS_ERR_OK]. eexists _, fls'. split; [reflexivity|].
  unfold set_node. simpl. rewrite !Z.eqb_refl. simpl.
  split_and!; auto. split; simpl; auto; try lia.
  - apply NoDup_singleton.
  - intros n ->%list_elem_of_singleton. simpl. by rewrite Hr.
Qed.

(** when no free node is large enough, [mm_alloc_aligned] does not
    return an error: the failed [CHECK] aborts the domain. *)
Theorem mm_alloc_exhausted slab_refill root_refill w lo hi fls fuel sz al :
  mm_inv w lo hi fls -> mm_ready w fls ->
  find (mm_fits (round_page sz) (real_alignment al)) (head w) = None ->
  mm_alloc_aligned slab_refill root_refill (S fuel) sz al w = Fault CheckAborted.
Proof.
  intros Hinv Hrdy Hnone. cbn [mm_alloc_aligned]. rewrite (no_slab_refill slab_refill w lo hi fls) by done.
  step. fold (real_alignment al). unfold mm_carve, mm_mmnode_find. by rewrite Hnone.
Qed.
End Correct.

(** * A concrete manager *)

Module MmSample.
(** A kernel that grants every retype and logs offset and size. *)
#[global] Instance log_sys : MmSys := {|
  sys := list (Z * Z);
  sys_cap_retype := fun _ _ off s log => (log ++ [(off, s)], SYS_ERR_OK);
  sys_cap_drop := fun _ log => log;
  sys_frame_identify := fun _ _ => (0, 0);
  sys_slot_alloc_root := fun log => (log, SYS_ERR_OK, Capref 1 7);
  sys_cnode_create := fun _ _ log => (log, SYS_ERR_OK, 99)
|}.

Definition no_refill (w : world) : outcome (world * errval) := Done (w, SYS_ERR_OK).

(** The manager with a slab of eight nodes and [slots] free slots. *)
Definition fresh (slots : Z) : world :=
  let w := mm_init (SlotPrealloc (SlotMeta (Capref 5 0) slots) (SlotMeta null_cap 0) false false) [] in
  match slab_grow (mm_slabs w) 65536 (16 + 8 * 64) with Done a => set_slabs a w | Fault _ => w end.

(** One MiB of memory at 2 GiB. *)
Definition region : Z := 2147483648.
Definition added (slots : Z) : world :=
  match mm_add no_refill no_refill 0 (Capref 3 0) region 1048576 (fresh slots) with
  | Done (w, _) => w
  | Fault _ => fresh slots
  end.

Definition all_free : list (list Z) :=
  [[65552; 65616; 65680; 65744; 65808; 65872; 65936; 66000]].

Lemma fresh_slabs slots : slab_inv (mm_slabs (fresh slots)) all_free.
Proof.
  destruct (grow_spec (slab_init 64) [] 65536 528) as (a' & sh & E & Hs & Ha & Ht & _ & Hinv);
    [split_and!; [by vm_compute|constructor..]|by vm_compute|lia|lia|by intros sh ?%elem_of_nil|].
  unfold fresh. cbn [mm_slabs mm_init]. change (slab_init sizeof_mmnode) with (slab_init 64).
  change (16 + 8 * 64) with 528. rewrite E. destruct sh as [ad t f b]. simpl in Ha, Ht. subst ad t. exact Hinv.
Qed.

Lemma mm_add_establishes_witness : exists w' fls',
  mm_add no_refill no_refill 0 (Capref 3 0) region 1048576 (fresh 256) = Done (w', SYS_ERR_OK) /\
  mm_inv w' region (region + 1048576) fls' /\
  (shape <$> head w') = [(NodeType_Free, region, 1048576)] /\
  initial_base w' = region /\ ram_cap w' = Capref 3 0.
Proof.
  apply (mm_add_establishes no_refill (fresh 256) all_free 0 (Capref 3 0) region 1048576);
    [by vm_compute|apply fresh_slabs|done|left; by vm_compute|by vm_compute..|done].
Defined.

(** The blocks left free in [added]. *)
Definition rest_free : list (list Z) := [[65616; 65680; 65744; 65808; 65872; 65936; 66000]].

Lemma added_inv : mm_inv (added 256) region (region + 1048576) rest_free.
Proof.
  split; [by vm_compute|by vm_compute|by vm_compute|one_slab|vm_decide|].
  intros n Hn. assert (Hh : n_addr <$> head (added 256) = [65552]) by (by vm_compute).
  apply (list_elem_of_fmap_2 n_addr) in Hn. rewrite Hh in Hn. apply list_elem_of_singleton in Hn as ->.
  split; vm_decide.
Qed.

Lemma added_ready : mm_ready (added 256) rest_free.
Proof. split; [by vm_compute|left; by vm_compute|by vm_compute|by vm_compute]. Qed.

Lemma added_coalesced : coalesced (shape <$> head (added 256)).
Proof. by vm_compute. Qed.

(** The free node of the sample. *)
Definition free_node : mmnode :=
  MmNode 65552 NodeType_Free region 1048576 (Capref 5 0) region 1048576.

Lemma mm_alloc_aligned_correct_witness : exists w' cap l1 q l2 fls',
  mm_alloc_aligned no_refill no_refill 1 5000 65536 (added 256) = Done (w', SYS_ERR_OK, cap) /\
  mm_inv w' region (region + 1048576) fls' /\ coalesced (shape <$> head w') /\
  head w' = l1 ++ q :: l2 /\ ncap q = cap /\ n_type q = NodeType_Allocated /\
  base q `mod` real_alignment 65536 = 0 /\ 5000 <= size q < 5000 + BASE_PAGE_SIZE /\
  base free_node <= base q /\ base q + size q <= base free_node + size free_node /\
  (forall m, m ∈ l1 ++ l2 -> base m + size m <= base q \/ base q + size q <= base m) /\
  below w' = (sys_cap_retype cap (ram_cap (added 256)) (base q - initial_base (added 256)) (size q) (below (added 256))).1.
Proof.
  apply (mm_alloc_aligned_correct no_refill no_refill (added 256) region (region + 1048576) rest_free 0
    5000 65536 free_node);
    [apply added_inv|apply added_ready|apply added_coalesced|lia|lia|by vm_compute|vm_eq|by vm_compute|done].
Defined.

Lemma mm_alloc_free_roundtrip_witness : exists w' cap q w'',
  mm_alloc_aligned no_refill no_refill 1 5000 65536 (added 256) = Done (w', SYS_ERR_OK, cap) /\
  q ∈ head w' /\ ncap q = cap /\ mm_free cap (base q) (size q) w' = Done (w'', SYS_ERR_OK) /\
  (shape <$> head w'') = (shape <$> head (added 256)).
Proof.
  apply (mm_alloc_free_roundtrip no_refill no_refill (added 256) region (region + 1048576) rest_free 0
    5000 65536 free_node);
    [apply added_inv|apply added_ready|apply added_coalesced|lia|lia|by vm_compute|vm_eq|done].
Defined.

Lemma mm_free_correct_witness : exists w' fls',
  mm_free (Capref 5 0) region 1048576 (added 256) = Done (w', SYS_ERR_OK) /\
  mm_inv w' region (region + 1048576) fls' /\ coalesced (shape <$> head w') /\
  (shape <$> head w') = freed [] region 1048576 [].
Proof.
  apply (mm_free_correct (added 256) region (region + 1048576) rest_free [] free_node [] 1048576 (Capref 5 0));
    [apply added_inv|apply added_coalesced|vm_eq|by vm_compute].
Defined.

Lemma mm_alloc_exhausted_witness :
  mm_alloc_aligned no_refill no_refill 1 2097152 0 (added 256) = Fault CheckAborted.
Proof.
  apply (mm_alloc_exhausted no_refill no_refill (added 256) region (region + 1048576) rest_free 0 2097152 0);
    [apply added_inv|apply added_ready|by vm_compute].
Defined.

(** An allocation that triggers a refill of the slots is carved up by
    it: its node is still marked free while the refill allocates 16 KiB
    from it.  Asked for 32 KiB, the manager then retypes 32 KiB that start
    16 KiB further, of which it still counts the last 16 KiB as free. *)
Theorem refill_reenters_allocation : exists w' cap,
  mm_alloc no_refill no_refill 2 32768 (added 4) = Done (w', SYS_ERR_OK, cap) /\
  below w' = [(0, 1048576); (0, 16384); (16384, 32768)] /\
  (shape <$> head w') =
    [(NodeType_Allocated, region, 16384); (NodeType_Allocated, region + 16384, 16384);
     (NodeType_Free, region + 32768, 1015808)].
Proof. eexists _, _. split_and!; [vm_compute; reflexivity|by vm_compute|by vm_compute]. Qed.
End MmSample.
