(* ===== verification/SlotAlloc.v ===== *)
(** Capability slot allocators: lib/aos/slot_alloc/single_slot_alloc.c,
    range_slot_alloc.c and twolevel_slot_alloc.c.

    An allocator tracks the free slots of a CNode as a list of ranges, whose
    nodes live in the blocks of a slab allocator without refill.  A slot is
    a [cslot_t], 32 bits. *)
From S2P Require Import Prelude Slab Mm.

(** * Data *)

(** [struct cnode_meta], with the address of its block. *)
Record cnode_meta := CnodeMeta { m_addr : Z; m_slot : Z; m_space : Z }.

Definition sizeof_cnode_meta : Z := 12.

(** The parts of [struct single_slot_allocator] that change. *)
Record single_slot_allocator := Single {
  s_space : Z; s_nslots : Z; s_cnode : Z; s_head : list cnode_meta; s_slab : slab_allocator
}.

Definition set_ranges (space : Z) (l : list cnode_meta) (slab : slab_allocator)
    (sca : single_slot_allocator) : single_slot_allocator :=
  Single space (s_nslots sca) (s_cnode sca) l slab.

Definition SINGLE_SLOT_ALLOC_BUFLEN (nslots : Z) : Z :=
  nslots / 2 * SLAB_REAL_BLOCKSIZE sizeof_cnode_meta + sizeof_slab_head.

(** * The single slot allocator *)

Definition salloc (sca : single_slot_allocator)
  : outcome (single_slot_allocator * errval * capref) :=
  if s_space sca =? 0 then Done (sca, err LIB_ERR_SLOT_ALLOC_NO_SPACE, null_cap)
  else
    match s_head sca with
    | [] => Fault NullDereference
    | h :: rest =>
      let ret := Capref (s_cnode sca) (m_slot h) in
      let h' := CnodeMeta (m_addr h) (u32 (m_slot h + 1)) (u32 (m_space h - 1)) in
      let space := u32 (s_space sca - 1) in
      if m_space h' =? 0 then
        slab ← slab_free (s_slab sca) (m_addr h);
        Done (set_ranges space rest slab sca, SYS_ERR_OK, ret)
      else Done (set_ranges space (h' :: rest) (s_slab sca) sca, SYS_ERR_OK, ret)
    end.

(** A new node [slot], [count] at the given place; writing to it faults
    when the slab is exhausted. *)
Definition new_meta (slot count : Z) (slab : slab_allocator) : outcome (slab_allocator * cnode_meta) :=
  '(slab, p) ← slab_alloc None slab;
  if p =? NULL then Fault NullDereference else Done (slab, CnodeMeta p slot count).

(** The loop of [free_slots] from [walk] on; [None] when the slot is free
    already. *)
Fixpoint free_walk (slot count : Z) (slab : slab_allocator) (walk : cnode_meta)
    (rest : list cnode_meta) : outcome (option (slab_allocator * list cnode_meta)) :=
  if slot =? u32 (m_slot walk + m_space walk) then
    let walk' := CnodeMeta (m_addr walk) (m_slot walk) (u32 (m_space walk + count)) in
    match rest with
    | next :: rest' =>
      if m_slot next =? u32 (m_slot walk' + m_space walk') then
        slab ← slab_free slab (m_addr next);
        Done (Some (slab, CnodeMeta (m_addr walk) (m_slot walk) (u32 (m_space walk' + m_space next)) :: rest'))
      else Done (Some (slab, walk' :: rest))
    | [] => Done (Some (slab, walk' :: rest))
    end
  else if slot <? u32 (m_slot walk + m_space walk) then Done None
  else
    match rest with
    | next :: rest' =>
      if u32 (slot + count) =? m_slot next then
        Done (Some (slab, walk :: CnodeMeta (m_addr next) slot (u32 (m_space next + count)) :: rest'))
      else if slot <? m_slot next then
        '(slab, m) ← new_meta slot count slab;
        Done (Some (slab, walk :: m :: next :: rest'))
      else
        r ← free_walk slot count slab next rest';
        Done (match r with Some (slab, l) => Some (slab, walk :: l) | None => None end)
    | [] =>
      '(slab, m) ← new_meta slot count slab;
      Done (Some (slab, [walk; m]))
    end.

Definition free_slots (sca : single_slot_allocator) (slot count : Z)
  : outcome (single_slot_allocator * errval) :=
  let finish l slab := Done (set_ranges (u32 (s_space sca + count)) l slab sca, SYS_ERR_OK) in
  match s_head sca with
  | [] =>
    '(slab, m) ← new_meta slot count (s_slab sca);
    finish [m] slab
  | h :: rest =>
    if u32 (slot + count) =? m_slot h then
      finish (CnodeMeta (m_addr h) slot (u32 (m_space h + count)) :: rest) (s_slab sca)
    else if slot <? m_slot h then
      '(slab, m) ← new_meta slot count (s_slab sca);
      finish (m :: h :: rest) slab
    else
      r ← free_walk slot count (s_slab sca) h rest;
      match r with
      | Some (slab, l) => finish l slab
      | None => Done (sca, err LIB_ERR_SLOT_UNALLOCATED)
      end
  end.

Definition sfree (sca : single_slot_allocator) (cap : capref) : outcome (single_slot_allocator * errval) :=
  if negb (cnode cap =? s_cnode sca) then Done (sca, err LIB_ERR_SLOT_ALLOC_WRONG_CNODE)
  else free_slots sca (slot cap) 1.

Definition single_slot_alloc_freecount (sca : single_slot_allocator) : Z :=
  fold_left (fun n m => u32 (n + m_space m)) (s_head sca) 0.

(** [frame_alloc] returns an error and the size of the frame,
    [map_frame] an error and the address of its mapping. *)
Definition single_slot_alloc_resize (frame_alloc map_frame : Z -> errval * Z)
    (sca : single_slot_allocator) (newslotcount : Z) : outcome (single_slot_allocator * errval) :=
  let grow := u32 (newslotcount - s_nslots sca) in
  let bufgrow := SINGLE_SLOT_ALLOC_BUFLEN grow in
  slab ← (if slab_freecount (s_slab sca) <? bufgrow then
            let '(ev, alloc_size) := frame_alloc (round_page bufgrow) in
            if err_is_fail ev || (alloc_size <? bufgrow) then Fault Panicked
            else
              let '(ev, buf) := map_frame bufgrow in
              if err_is_fail ev then Fault Panicked else slab_grow (s_slab sca) buf bufgrow
          else Done (s_slab sca));
  '(sca, ev) ← free_slots (set_ranges (s_space sca) (s_head sca) slab sca) (s_nslots sca) grow;
  if err_is_fail ev then Done (sca, ev)
  else Done (Single (s_space sca) newslotcount (s_cnode sca) (s_head sca) (s_slab sca), SYS_ERR_OK).

Definition single_slot_alloc_init_raw (cn nslots buf buflen : Z)
  : outcome (single_slot_allocator * errval) :=
  slab ← (if 0 <? buflen then slab_grow (slab_init sizeof_cnode_meta) buf buflen
          else Done (slab_init sizeof_cnode_meta));
  '(slab, p) ← slab_alloc None slab;
  ASSERT (negb (p =? NULL));
  Done (Single nslots nslots cn [CnodeMeta p 0 nslots] slab, SYS_ERR_OK).

(** [cnode_create] returns an error, the CNode and its number of slots;
    [malloc] an address or NULL. *)
Definition single_slot_alloc_init (cnode_create : Z -> errval * Z * Z) (malloc : Z -> Z) (nslots : Z)
  : outcome (option (single_slot_allocator * Z) * errval) :=
  let '(ev, cn, nslots) := cnode_create nslots in
  if err_is_fail ev then Done (None, err_push ev LIB_ERR_CNODE_CREATE)
  else
    let buflen := SINGLE_SLOT_ALLOC_BUFLEN nslots in
    let buf := malloc buflen in
    if buf =? NULL then Done (None, err LIB_ERR_MALLOC_FAIL)
    else
      '(sca, ev) ← single_slot_alloc_init_raw cn nslots buf buflen;
      if err_is_fail ev then Done (None, err_push ev LIB_ERR_SINGLE_SLOT_ALLOC_INIT_RAW)
      else Done (Some (sca, nslots), SYS_ERR_OK).

(** * The range slot allocator

    A chain of allocators, one per CNode; only the head may be used. *)

Record range_slot_allocator := Range { r_cnode : Z; r_meta : list cnode_meta; r_slab : slab_allocator }.

(** Take [nslots] slots from the first range that has them: the first of
    the slots, the ranges left, and the block of a range used up. *)
Fixpoint range_take (nslots : Z) (l : list cnode_meta) : option (Z * list cnode_meta * option Z) :=
  match l with
  | [] => None
  | walk :: rest =>
    if (nslots <=? m_space walk) && (u32 (m_slot walk + nslots) <=? L2_CNODE_SLOTS) then
      let walk' := CnodeMeta (m_addr walk) (u32 (m_slot walk + nslots)) (u32 (m_space walk - nslots)) in
      if m_space walk' =? 0 then Some (m_slot walk, rest, Some (m_addr walk))
      else Some (m_slot walk, walk' :: rest, None)
    else
      match range_take nslots rest with
      | Some (s, rest', b) => Some (s, walk :: rest', b)
      | None => None
      end
  end.

Fixpoint range_chain_alloc (nslots : Z) (chain : list range_slot_allocator)
  : outcome (list range_slot_allocator * errval * capref) :=
  match chain with
  | [] => Done ([], err LIB_ERR_SLOT_ALLOC_NO_SPACE, null_cap)
  | r :: chain' =>
    match range_take nslots (r_meta r) with
    | Some (s, l, b) =>
      slab ← match b with Some b => slab_free (r_slab r) b | None => Done (r_slab r) end;
      Done (Range (r_cnode r) l slab :: chain', SYS_ERR_OK, Capref (r_cnode r) s)
    | None =>
      '(chain', ev, cap) ← range_chain_alloc nslots chain';
      Done (r :: chain', ev, cap)
    end
  end.

Definition range_slot_alloc (is_head : bool) (nslots : Z) (chain : list range_slot_allocator)
  : outcome (list range_slot_allocator * errval * capref) :=
  if negb is_head then Done (chain, err LIB_ERR_RANGE_ALLOC_NOT_HEAD, null_cap)
  else range_chain_alloc nslots chain.

(** [insert_after] and [insert_before] return the nodes that replace
    [walk], respectively [prev] and [walk]. *)
Definition insert_after (slab : slab_allocator) (nslots s : Z) (walk : cnode_meta)
  : outcome (slab_allocator * list cnode_meta * errval) :=
  if s =? u32 (m_slot walk + m_space walk) then
    Done (slab, [CnodeMeta (m_addr walk) (m_slot walk) (u32 (m_space walk + nslots))], SYS_ERR_OK)
  else
    '(slab, p) ← slab_alloc None slab;
    if p =? NULL then Done (slab, [walk], err LIB_ERR_SLAB_ALLOC_FAIL)
    else Done (slab, [walk; CnodeMeta p s nslots], SYS_ERR_OK).

Definition insert_before (slab : slab_allocator) (nslots s : Z) (prev : option cnode_meta)
    (walk : cnode_meta) : outcome (slab_allocator * list cnode_meta * errval) :=
  let pre := match prev with Some p => [p] | None => [] end in
  let joins_prev := match prev with Some p => s =? u32 (m_slot p + m_space p) | None => false end in
  let joins_walk := u32 (s + nslots) =? m_slot walk in
  match prev with
  | Some p =>
    if joins_prev && joins_walk then
      slab ← slab_free slab (m_addr walk);
      Done (slab, [CnodeMeta (m_addr p) (m_slot p) (u32 (m_space p + nslots + m_space walk))], SYS_ERR_OK)
    else if joins_walk then
      Done (slab, [p; CnodeMeta (m_addr walk) s (u32 (m_space walk + nslots))], SYS_ERR_OK)
    else if joins_prev then
      Done (slab, [CnodeMeta (m_addr p) (m_slot p) (u32 (m_space p + nslots)); walk], SYS_ERR_OK)
    else
      '(slab, q) ← slab_alloc None slab;
      if q =? NULL then Done (slab, [p; walk], err LIB_ERR_SLAB_ALLOC_FAIL)
      else Done (slab, [p; CnodeMeta q s nslots; walk], SYS_ERR_OK)
  | None =>
    if joins_walk then
      Done (slab, [CnodeMeta (m_addr walk) s (u32 (m_space walk + nslots))], SYS_ERR_OK)
    else
      '(slab, q) ← slab_alloc None slab;
      if q =? NULL then Done (slab, [walk], err LIB_ERR_SLAB_ALLOC_FAIL)
      else Done (slab, [CnodeMeta q s nslots; walk], SYS_ERR_OK)
  end.

(** The loop of [range_slot_free]; [None] when it runs off the list.  The
    result replaces [prev] and the list. *)
Fixpoint range_free_walk (slab : slab_allocator) (nslots s : Z) (prev : option cnode_meta)
    (l : list cnode_meta) : outcome (option (slab_allocator * list cnode_meta * errval)) :=
  let pre := match prev with Some p => [p] | None => [] end in
  match l with
  | [] => Done None
  | walk :: rest =>
    if (m_slot walk <? s) && (match rest with [] => true | _ => false end) then
      '(slab, l, ev) ← insert_after slab nslots s walk;
      Done (Some (slab, pre ++ l, ev))
    else if s <? m_slot walk then
      '(slab, l, ev) ← insert_before slab nslots s prev walk;
      Done (Some (slab, l ++ rest, ev))
    else
      r ← range_free_walk slab nslots s (Some walk) rest;
      Done (match r with Some (slab, l, ev) => Some (slab, pre ++ l, ev) | None => None end)
  end.

(** Free in the allocator of the slot's CNode; running past the end of the
    chain dereferences NULL. *)
Fixpoint range_chain_free (nslots : Z) (cap : capref) (chain : list range_slot_allocator)
  : outcome (list range_slot_allocator * errval) :=
  match chain with
  | [] => Fault NullDereference
  | r :: chain' =>
    if cnode cap =? r_cnode r then
      res ← range_free_walk (r_slab r) nslots (slot cap) None (r_meta r);
      match res with
      | Some (slab, l, ev) => Done (Range (r_cnode r) l slab :: chain', ev)
      | None =>
        ASSERT (match r_meta r with [] => true | _ => false end);
        '(slab, p) ← slab_alloc None (r_slab r);
        if p =? NULL then Done (Range (r_cnode r) (r_meta r) slab :: chain', err LIB_ERR_SLAB_ALLOC_FAIL)
        else Done (Range (r_cnode r) [CnodeMeta p (slot cap) nslots] slab :: chain', SYS_ERR_OK)
      end
    else
      '(chain', ev) ← range_chain_free nslots cap chain';
      Done (r :: chain', ev)
  end.

Definition range_slot_free (is_head : bool) (nslots : Z) (cap : capref) (chain : list range_slot_allocator)
  : outcome (list range_slot_allocator * errval) :=
  if negb is_head then Done (chain, err LIB_ERR_RANGE_ALLOC_NOT_HEAD)
  else range_chain_free nslots cap chain.

(** [range_slot_alloc_freecount] of a head: the inner loop walks the ranges
    of the head for every element of the chain. *)
Definition range_slot_alloc_freecount (chain : list range_slot_allocator) : Z :=
  match chain with
  | [] => 0
  | r :: _ =>
    fold_left (fun count _ => fold_left (fun count m => u32 (count + m_space m)) (r_meta r) count) chain 0
  end.

(** [cnode_create_l2] returns an error and the CNode. *)
Definition range_slot_alloc_init (cnode_create_l2 : errval * Z) (malloc : Z -> Z)
  : outcome (option range_slot_allocator * errval) :=
  let nslots := L2_CNODE_SLOTS in
  let '(ev, cn) := cnode_create_l2 in
  if err_is_fail ev then Done (None, ev)
  else
    let buflen := sizeof_cnode_meta * nslots / 2 in
    let buf := malloc buflen in
    if buf =? NULL then Done (None, err LIB_ERR_MALLOC_FAIL)
    else
      slab ← slab_grow (slab_init sizeof_cnode_meta) buf buflen;
      '(slab, p) ← slab_alloc None slab;
      if p =? NULL then Done (None, err LIB_ERR_SLAB_ALLOC_FAIL)
      else Done (Some (Range cn [CnodeMeta p 0 nslots] slab), SYS_ERR_OK).

(** The new allocator, at the address [n_ptr] that [malloc] returned for it,
    is appended to the chain. *)
Definition range_slot_alloc_refill (cnode_create_l2 : errval * Z) (malloc : Z -> Z) (n_ptr : Z)
    (is_head : bool) (slots : Z) (chain : list range_slot_allocator)
  : outcome (list range_slot_allocator * errval) :=
  if negb is_head then Done (chain, err LIB_ERR_RANGE_ALLOC_NOT_HEAD)
  else
    ASSERT (negb (n_ptr =? NULL));
    '(n, ev) ← range_slot_alloc_init cnode_create_l2 malloc;
    ASSERT (err_is_ok ev);
    ASSERT (slots <=? L2_CNODE_SLOTS);
    match n with
    | Some n => Done (chain ++ [n], SYS_ERR_OK)
    | None => Fault AssertionFailed
    end.

(** * The two level slot allocator *)

(** [struct multi_slot_allocator]: the single allocators in use, and one in
    reserve. *)
Record multi_slot_allocator := Multi {
  mu_space : Z; mu_nslots : Z; mu_list : list single_slot_allocator;
  mu_reserve : single_slot_allocator; mu_slab : slab_allocator
}.

Definition set_mu (space : Z) (l : list single_slot_allocator) (res : single_slot_allocator)
    (slab : slab_allocator) (m : multi_slot_allocator) : multi_slot_allocator :=
  Multi space (mu_nslots m) l res slab.

(** Try the single allocators in turn. *)
Fixpoint two_level_walk (l : list single_slot_allocator)
  : outcome (list single_slot_allocator * errval * capref) :=
  match l with
  | [] => Done ([], SYS_ERR_OK, null_cap)
  | walk :: rest =>
    '(walk', ev, cap) ← salloc walk;
    if negb (bool_decide (err_no ev = Some LIB_ERR_SLOT_ALLOC_NO_SPACE)) then
      Done (walk' :: rest, ev, cap)
    else
      match rest with
      | [] => Done ([walk'], ev, cap)
      | _ =>
        '(rest', ev, cap) ← two_level_walk rest;
        Done (walk' :: rest', ev, cap)
      end
  end.

(** [two_level_free] *)
Fixpoint two_level_free_walk (cap : capref) (l : list single_slot_allocator)
  : outcome (list single_slot_allocator * errval) :=
  match l with
  | [] => Done ([], err LIB_ERR_SLOT_ALLOC_WRONG_CNODE)
  | walk :: rest =>
    '(walk', ev) ← sfree walk cap;
    if negb (bool_decide (err_no ev = Some LIB_ERR_SLOT_ALLOC_WRONG_CNODE)) then Done (walk' :: rest, ev)
    else
      '(rest', ev) ← two_level_free_walk cap rest;
      Done (walk' :: rest', ev)
  end.

Definition two_level_free (cap : capref) (m : multi_slot_allocator)
  : outcome (multi_slot_allocator * errval) :=
  '(l, ev) ← two_level_free_walk cap (mu_list m);
  let space := if err_is_ok ev then u32 (mu_space m + 1) else mu_space m in
  Done (set_mu space l (mu_reserve m) (mu_slab m) m, ev).

Section TwoLevelAlloc.
(** The calls below, which may come back to the allocator: the root slot
    allocator, the creation of an L2 CNode in a slot, the refill of the
    slab with a frame in a slot. *)
Variable slot_alloc_root : multi_slot_allocator -> outcome (multi_slot_allocator * errval * capref).
Variable root_slot_allocator_refill : multi_slot_allocator -> outcome (multi_slot_allocator * errval).
Variable cnode_create_raw : capref -> multi_slot_allocator -> outcome (multi_slot_allocator * errval * Z).
Variable slab_refill_no_pagefault : capref -> multi_slot_allocator -> outcome (multi_slot_allocator * errval).

(** [sizeof(struct slot_allocator_list)], which depends on the layout of the
    thread library's mutex. *)
Variable sizeof_slot_allocator_list : Z.

(** The slot and the CNode of the new reserve. *)
Definition two_level_new_cnode (m : multi_slot_allocator)
  : outcome (multi_slot_allocator * errval * Z) :=
  '(m, ev, cap) ← slot_alloc_root m;
  '(m, ev, cap) ←
    (if bool_decide (err_no ev = Some LIB_ERR_SLOT_ALLOC_NO_SPACE) then
       '(m, ev) ← root_slot_allocator_refill m;
       if err_is_fail ev then Done (m, err_push ev LIB_ERR_ROOTSA_RESIZE, None)
       else '(m, ev, cap) ← slot_alloc_root m; Done (m, ev, Some cap)
     else Done (m, ev, Some cap));
  match cap with
  | None => Done (m, ev, 0)
  | Some cap =>
    if err_is_fail ev then Done (m, err_push ev LIB_ERR_SLOT_ALLOC, 0)
    else
      '(m, ev, cn) ← cnode_create_raw cap m;
      '(m, ev, cn) ← (if err_is_fail ev then
                        '(m, _, cap) ← slot_alloc_root m; cnode_create_raw cap m
                      else Done (m, ev, cn));
      if err_is_fail ev then Done (m, err_push ev LIB_ERR_CNODE_CREATE, 0) else Done (m, SYS_ERR_OK, cn)
  end.

(** The memory of the new reserve. *)
Definition two_level_buffer
    (alloc : multi_slot_allocator -> outcome (multi_slot_allocator * errval * capref))
    (m : multi_slot_allocator) : outcome (multi_slot_allocator * errval * Z) :=
  '(slab, buf) ← slab_alloc None (mu_slab m);
  let m := set_mu (mu_space m) (mu_list m) (mu_reserve m) slab m in
  if negb (buf =? NULL) then Done (m, SYS_ERR_OK, buf)
  else
    let m := set_mu (u32 (mu_space m - 1)) (mu_list m) (mu_reserve m) (mu_slab m) m in
    '(m, ev, frame) ← alloc m;
    if err_is_fail ev then Done (m, err_push ev LIB_ERR_SLOT_ALLOC, NULL)
    else
      '(m, ev) ← slab_refill_no_pagefault frame m;
      if err_is_fail ev then Done (m, err_push ev LIB_ERR_SLAB_REFILL, NULL)
      else
        '(slab, buf) ← slab_alloc None (mu_slab m);
        let m := set_mu (mu_space m) (mu_list m) (mu_reserve m) slab m in
        if buf =? NULL then Done (m, err_push ev LIB_ERR_SLAB_ALLOC_FAIL, NULL) else Done (m, SYS_ERR_OK, buf).

Fixpoint two_level_alloc (fuel : nat) (m : multi_slot_allocator)
  : outcome (multi_slot_allocator * errval * capref) :=
  match fuel with
  | O => Fault OutOfFuel
  | S fuel =>
    ASSERT (negb (mu_space m =? 0));
    let space := u32 (mu_space m - 1) in
    '(l, ev, cap) ← two_level_walk (mu_list m);
    let m := set_mu space l (mu_reserve m) (mu_slab m) m in
    if err_is_fail ev then Done (m, err_push ev LIB_ERR_SINGLE_SLOT_ALLOC, cap)
    else if negb (mu_space m =? 0) then Done (m, SYS_ERR_OK, cap)
    else
      let m := set_mu (mu_nslots m) (mu_reserve m :: mu_list m) (mu_reserve m) (mu_slab m) m in
      '(m, ev, cn) ← two_level_new_cnode m;
      if err_is_fail ev then Done (m, ev, cap)
      else
        '(m, ev, buf) ← two_level_buffer (two_level_alloc fuel) m;
        if err_is_fail ev then Done (m, ev, cap)
        else
          '(res, ev) ← single_slot_alloc_init_raw cn (mu_nslots m) (u32 (buf + sizeof_slot_allocator_list))
                         (u32 (blocksize (mu_slab m) - sizeof_slot_allocator_list));
          let m := set_mu (mu_space m) (mu_list m) res (mu_slab m) m in
          if err_is_fail ev then Done (m, err_push ev LIB_ERR_SINGLE_SLOT_ALLOC_INIT_RAW, cap)
          else Done (m, SYS_ERR_OK, cap)
  end.
End TwoLevelAlloc.

(** [two_level_slot_alloc_init_raw] *)
Definition two_level_slot_alloc_init_raw (sizeof_slot_allocator_list initial_cnode reserve_cnode head_buf reserve_buf bufsize : Z)
  : outcome (option multi_slot_allocator * errval) :=
  '(h, ev) ← single_slot_alloc_init_raw initial_cnode L2_CNODE_SLOTS head_buf bufsize;
  if err_is_fail ev then Done (None, err_push ev LIB_ERR_SINGLE_SLOT_ALLOC_INIT)
  else
    '(r, ev) ← single_slot_alloc_init_raw reserve_cnode L2_CNODE_SLOTS reserve_buf bufsize;
    if err_is_fail ev then Done (None, err_push ev LIB_ERR_SINGLE_SLOT_ALLOC_INIT)
    else
      let allocation_unit := sizeof_slot_allocator_list + SINGLE_SLOT_ALLOC_BUFLEN L2_CNODE_SLOTS in
      Done (Some (Multi L2_CNODE_SLOTS L2_CNODE_SLOTS [h] r (slab_init allocation_unit)), SYS_ERR_OK).
