(* ===== verification/SlotCorrect.v ===== *)
(** Capability slot allocators: the free ranges represent a set of slots,
    from which [salloc] takes the smallest and to which [sfree] returns one. *)
From S2P Require Import Prelude Slab Mm SlotAlloc.

(** * Ranges *)

(** The slots of a list of ranges. *)
Fixpoint free_in (l : list cnode_meta) (x : Z) : Prop :=
  match l with
  | [] => False
  | m :: l => m_slot m <= x < m_slot m + m_space m \/ free_in l x
  end.

Fixpoint total_space (l : list cnode_meta) : Z :=
  match l with [] => 0 | m :: l => m_space m + total_space l end.

(** Ranges in order, not empty, not adjacent, from [lo] on and below [hi]. *)
Fixpoint ranges_ok (lo : Z) (l : list cnode_meta) (hi : Z) : Prop :=
  match l with
  | [] => True
  | m :: l => lo <= m_slot m /\ 0 < m_space m /\ m_slot m + m_space m <= hi /\
              ranges_ok (m_slot m + m_space m + 1) l hi
  end.

Lemma ranges_cons lo m l hi : ranges_ok lo (m :: l) hi <->
  lo <= m_slot m /\ 0 < m_space m /\ m_slot m + m_space m <= hi /\
  ranges_ok (m_slot m + m_space m + 1) l hi.
Proof. done. Qed.

Lemma ranges_weaken lo lo' l hi : lo' <= lo -> ranges_ok lo l hi -> ranges_ok lo' l hi.
Proof. destruct l as [|m l]; simpl; [done|]. intros ? (? & ? & ? & ?). split_and!; auto; lia. Qed.

Lemma free_in_bounds lo l hi x : ranges_ok lo l hi -> free_in l x -> lo <= x < hi.
Proof.
  revert lo. induction l as [|m l IH]; intros lo; simpl; [done|].
  intros (? & ? & ? & Hl) [Hx|Hx]; [lia|]. specialize (IH _ Hl Hx). lia.
Qed.

(** Non-adjacent ranges take at least every other slot. *)
Lemma ranges_count lo l hi : ranges_ok lo l hi -> lo <= hi + 1 ->
  2 * Z.of_nat (length l) <= hi - lo + 1.
Proof.
  revert lo. induction l as [|m l IH]; intros lo; cbn [ranges_ok length]; [lia|].
  intros (? & ? & ? & Hl) ?. specialize (IH _ Hl ltac:(lia)). lia.
Qed.

Lemma total_space_bounds lo l hi : ranges_ok lo l hi -> lo <= hi + 1 ->
  0 <= total_space l /\ (l = [] \/ 0 < total_space l <= hi - lo).
Proof.
  revert lo. induction l as [|m l IH]; intros lo; cbn [ranges_ok total_space]; [auto with lia|].
  intros (? & ? & ? & Hl) ?. destruct (IH _ Hl ltac:(lia)) as [? [->|?]]; simpl; split; try lia; right; lia.
Qed.

(** * Freeing *)

(** What freeing [count] slots from [slot] on must achieve. *)
Definition freed_to (lo hi slot count : Z) (l l' : list cnode_meta) : Prop :=
  ranges_ok lo l' hi /\ total_space l' = total_space l + count /\
  forall x, free_in l' x <-> free_in l x \/ slot <= x < slot + count.

(** Goals about concrete list prefixes. *)
Ltac ranges :=
  unfold freed_to; cbn [ranges_ok total_space free_in m_slot m_space] in *;
  split_and!; try done; try lia; intros; intuition lia.

Section Free.
Variables (hi slot count : Z).
Hypothesis Hhi : hi < 2 ^ 32.
Hypothesis Hcount : 0 < count.
Hypothesis Hend : slot + count <= hi.

(** The slots to free do not reach into the next range. *)
Lemma clear_of_next lo next rest : ranges_ok lo (next :: rest) hi -> slot < m_slot next ->
  (forall x, slot <= x < slot + count -> ~ free_in (next :: rest) x) -> slot + count <= m_slot next.
Proof.
  intros (? & ? & _) Hlt Hdisj. destruct (Z.le_gt_cases (slot + count) (m_slot next)); [done|].
  exfalso. apply (Hdisj (m_slot next)); [lia|]. simpl. left. lia.
Qed.

Lemma new_meta_spec slab used : pool_holds slab used -> (length used < capacity slab)%nat ->
  exists slab' p, new_meta slot count slab = Done (slab', CnodeMeta p slot count) /\
    pool_holds slab' (p :: used) /\ capacity slab' = capacity slab.
Proof.
  intros Hp Hc. destruct (pool_alloc slab used Hp Hc) as (slab' & b & E & Hb & Hp' & Hc').
  exists slab', b. unfold new_meta. rewrite E. step. zdecide. done.
Qed.

(** The room for another node, with [pre] nodes before the list. *)
Definition room (slab : slab_allocator) (pre : list Z) (lo : Z) : Prop :=
  2 * Z.of_nat (length pre) + (hi - lo) <= 2 * Z.of_nat (capacity slab).

Lemma room_for slab pre lo l : room slab pre lo -> ranges_ok lo l hi -> lo <= hi + 1 ->
  (length pre + length l <= capacity slab)%nat.
Proof. unfold room. intros Hr Hl Hlo. pose proof (ranges_count _ _ _ Hl Hlo). lia. Qed.

Lemma free_walk_free walk rest lo slab : 0 <= lo -> ranges_ok lo (walk :: rest) hi ->
  m_slot walk <= slot -> free_in (walk :: rest) slot ->
  free_walk slot count slab walk rest = Done None.
Proof.
  revert walk lo. induction rest as [|nxt rest IH]; intros walk lo Hlo Hok Hge Hin;
    cbn [free_walk]; pose proof Hok as Hok'; apply ranges_cons in Hok' as (? & ? & ? & Hrest); rewrite (u32_small (m_slot walk + m_space walk)) by lia;
    destruct Hin as [Hin|Hin]; try by zdecide.
  pose proof (free_in_bounds _ _ _ _ Hrest Hin). rewrite (u32_small (slot + count)) by lia.
  assert (Hge' : m_slot nxt <= slot).
  { apply ranges_cons in Hrest as (? & ? & ? & Hr). destruct Hin as [?|Hin]; [lia|].
    pose proof (free_in_bounds _ _ _ _ Hr Hin). lia. }
  zdecide. by rewrite (IH nxt (m_slot walk + m_space walk + 1)) by (done || lia).
Qed.

Lemma free_walk_used walk rest : forall lo slab pre, 0 <= lo -> ranges_ok lo (walk :: rest) hi ->
  m_slot walk <= slot -> (forall x, slot <= x < slot + count -> ~ free_in (walk :: rest) x) ->
  pool_holds slab (pre ++ (m_addr <$> walk :: rest)) -> room slab pre lo ->
  exists slab' l', free_walk slot count slab walk rest = Done (Some (slab', l')) /\
    freed_to lo hi slot count (walk :: rest) l' /\
    pool_holds slab' (pre ++ (m_addr <$> l')) /\ capacity slab' = capacity slab.
Proof.
  revert walk. induction rest as [|nxt rest IH]; intros walk lo slab pre Hlo Hok Hge Hdisj Hpool Hroom;
    cbn [free_walk]; pose proof Hok as Hok'; apply ranges_cons in Hok' as (Hw1 & Hw2 & Hw3 & Hrest);
    rewrite (u32_small (m_slot walk + m_space walk)) by lia.
  - destruct (Z.eqb_spec slot (m_slot walk + m_space walk)) as [Heq|Hne].
    + unwrap. eexists _, _. split_and!; [done| |done|done].
      ranges.
    + destruct (Z.ltb_spec slot (m_slot walk + m_space walk)); [exfalso; apply (Hdisj slot); simpl; lia|].
      set (l' := [walk; CnodeMeta 0 slot count]).
      assert (Hok2 : ranges_ok lo l' hi) by (simpl; lia).
      pose proof (room_for slab pre lo l' Hroom Hok2 ltac:(lia)) as Hlen. simpl in Hlen.
      destruct (new_meta_spec slab _ Hpool) as (slab' & p & -> & Hp' & Hc').
      { rewrite length_app. simpl. lia. }
      step. eexists _, _. split_and!; [done| | |done].
      * ranges.
      * eapply pool_perm; [|exact Hp']. simpl. solve_Permutation.
  - pose proof Hrest as Hn. apply ranges_cons in Hn as (Hn1 & Hn2 & Hn3 & Hn4).
    destruct (Z.eqb_spec slot (m_slot walk + m_space walk)) as [Heq|Hne].
    + assert (slot + count <= m_slot nxt).
      { apply (clear_of_next _ _ _ Hrest); [lia|]. intros x Hx Hf. apply (Hdisj x Hx). by right. }
      cbn [m_slot m_space]. rewrite (u32_small (m_space walk + count)) by lia.
      rewrite (u32_small (m_slot walk + (m_space walk + count))) by lia.
      destruct (Z.eqb_spec (m_slot nxt) (m_slot walk + (m_space walk + count))) as [Hj|Hj].
      * destruct (pool_free slab (m_addr nxt) (pre ++ m_addr walk :: (m_addr <$> rest))) as (slab' & -> & Hp' & Hc').
        { eapply pool_perm; [|exact Hpool]. rewrite !fmap_cons. solve_Permutation. }
        step. unwrap. eexists _, _. split_and!; [done| |done|done].
        eapply ranges_weaken in Hn4; [|reflexivity]. unfold freed_to. split_and!.
        -- apply ranges_cons. cbn [m_slot m_space]. split_and!; try lia.
           eapply ranges_weaken; [|exact Hn4]. lia.
        -- cbn [total_space m_space]. lia.
        -- intros x. cbn [free_in m_slot m_space]. intuition lia.
      * eexists _, _. split_and!; [done| |done|done]. ranges.
    + destruct (Z.ltb_spec slot (m_slot walk + m_space walk)); [exfalso; apply (Hdisj slot); simpl; lia|].
      rewrite (u32_small (slot + count)) by lia.
      destruct (Z.eqb_spec (slot + count) (m_slot nxt)) as [Hj|Hj].
      * unwrap. eexists _, _. split_and!; [done| |done|done]. unfold freed_to. split_and!.
        -- rewrite !ranges_cons. cbn [m_slot m_space]. split_and!; try lia.
           eapply ranges_weaken; [|exact Hn4]. lia.
        -- cbn [total_space m_space]. lia.
        -- intros x. cbn [free_in m_slot m_space]. intuition lia.
      * destruct (Z.ltb_spec slot (m_slot nxt)) as [Hlt|Hge'].
        -- assert (slot + count <= m_slot nxt).
           { apply (clear_of_next _ _ _ Hrest); [lia|]. intros x Hx Hf. apply (Hdisj x Hx). by right. }
           assert (Hok2 : ranges_ok lo (walk :: CnodeMeta 0 slot count :: nxt :: rest) hi) by ranges.
           pose proof (room_for slab pre lo _ Hroom Hok2 ltac:(lia)) as Hlen. simpl in Hlen.
           destruct (new_meta_spec slab _ Hpool) as (slab' & p & -> & Hp' & Hc').
           { rewrite length_app, length_fmap. simpl. lia. }
           step. eexists _, _. split_and!; [done| | |done].
           ++ ranges.
           ++ eapply pool_perm; [|exact Hp']. rewrite !fmap_cons. solve_Permutation.
        -- destruct (IH nxt (m_slot walk + m_space walk + 1) slab (pre ++ [m_addr walk]))
             as (slab' & l' & -> & (Hr & Ht & Hf) & Hp' & Hc'); auto; try lia.
           { intros x Hx Hfr. apply (Hdisj x Hx). by right. }
           { by rewrite <- app_assoc. }
           { unfold room in *. rewrite length_app. simpl. lia. }
           step. eexists _, _. split_and!; [done| | |done].
           ++ unfold freed_to. split_and!.
              ** by rewrite ranges_cons.
              ** cbn [total_space]. rewrite Ht. cbn [total_space]. lia.
              ** intros x. cbn [free_in]. rewrite Hf. cbn [free_in]. tauto.
           ++ by rewrite <- app_assoc in Hp'.
Qed.
End Free.

(** * The single slot allocator *)

Record single_inv (sca : single_slot_allocator) : Prop := {
  si_nslots : 0 <= s_nslots sca < 2 ^ 32;
  si_ranges : ranges_ok 0 (s_head sca) (s_nslots sca);
  si_space : s_space sca = total_space (s_head sca);
  si_pool : pool_holds (s_slab sca) (m_addr <$> s_head sca);
  si_capacity : s_nslots sca <= 2 * Z.of_nat (capacity (s_slab sca))
}.

(** Slot [x] of the CNode is free. *)
Definition slot_free_in (sca : single_slot_allocator) (x : Z) : Prop := free_in (s_head sca) x.

Lemma salloc_spec sca : single_inv sca -> s_space sca <> 0 ->
  exists sca' x, salloc sca = Done (sca', SYS_ERR_OK, Capref (s_cnode sca) x) /\ single_inv sca' /\
    slot_free_in sca x /\ (forall y, slot_free_in sca y -> x <= y) /\
    (forall y, slot_free_in sca' y <-> slot_free_in sca y /\ y <> x) /\
    s_nslots sca' = s_nslots sca /\ s_cnode sca' = s_cnode sca /\ s_space sca' = s_space sca - 1.
Proof.
  intros [Hn Hr Hs Hp Hc] Hne. unfold salloc, slot_free_in. zdecide.
  destruct (total_space_bounds _ _ _ Hr ltac:(lia)) as [Hts0 Hts]. rewrite <- Hs in Hts, Hts0.
  destruct (s_head sca) as [|h rest] eqn:Eh; [simpl in Hs; lia|]. destruct Hts as [?|Hts]; [done|].
  apply ranges_cons in Hr as (Hh1 & Hh2 & Hh3 & Hrest). cbn [m_space].
  rewrite (u32_small (m_space h - 1)), (u32_small (s_space sca - 1)), (u32_small (m_slot h + 1)) by lia.
  assert (Hmin : forall y, free_in (h :: rest) y -> m_slot h <= y).
  { intros y [?|Hy]; [lia|]. pose proof (free_in_bounds _ _ _ _ Hrest Hy). lia. }
  destruct (Z.eqb_spec (m_space h - 1) 0) as [Hz|Hz].
  - destruct (pool_free _ _ _ Hp) as (slab' & -> & Hp' & Hc'). step.
    eexists _, (m_slot h). split; [done|]. cbn [s_head s_nslots s_cnode set_ranges]. split_and!; auto.
    + split; cbn [s_head s_nslots s_space s_slab set_ranges]; auto.
      * eapply ranges_weaken; [|exact Hrest]. lia.
      * rewrite Hs. cbn [total_space]. lia.
      * by rewrite Hc'.
    + left. lia.
    + intros y. cbn [free_in]. split; [|intuition lia].
      intros Hy. pose proof (free_in_bounds _ _ _ _ Hrest Hy). split; [auto|lia].
  - eexists _, (m_slot h). split; [done|]. cbn [s_head s_nslots s_cnode set_ranges]. split_and!; auto.
    + split; cbn [s_head s_nslots s_space s_slab set_ranges]; auto.
      * apply ranges_cons. cbn [m_slot m_space]. split_and!; try lia.
        eapply ranges_weaken; [|exact Hrest]. lia.
      * rewrite Hs. cbn [total_space m_space]. lia.
    + left. lia.
    + intros y. cbn [free_in m_slot m_space]. split.
      * intros [Hy|Hy]; [split; [left|]; lia|]. pose proof (free_in_bounds _ _ _ _ Hrest Hy).
        split; [auto|lia].
      * intros [[Hy|Hy] ?]; [left; lia|auto].
Qed.

(** The result of [free_slots] when it succeeds. *)
Lemma finish_inv sca slot count l slab : single_inv sca -> 0 <= slot -> 0 < count ->
  slot + count <= s_nslots sca ->
  freed_to 0 (s_nslots sca) slot count (s_head sca) l ->
  pool_holds slab (m_addr <$> l) -> capacity slab = capacity (s_slab sca) ->
  single_inv (set_ranges (u32 (s_space sca + count)) l slab sca).
Proof.
  intros [Hn Hr Hs Hp Hc] Hsl Hct Hend (Hr' & Ht & _) Hp' Hc'.
  pose proof (total_space_bounds _ _ _ Hr' ltac:(lia)) as [_ Hb]. rewrite Ht in Hb.
  pose proof (total_space_bounds _ _ _ Hr ltac:(lia)) as [Hb0 _].
  split; cbn [s_head s_nslots s_space s_slab set_ranges]; auto; [|lia].
  rewrite Ht, Hs. apply u32_small. destruct Hb as [->|?]; [simpl in Ht|]; lia.
Qed.

Lemma free_slots_spec sca slot count : single_inv sca -> 0 <= slot -> 0 < count ->
  slot + count <= s_nslots sca ->
  (forall x, slot <= x < slot + count -> ~ slot_free_in sca x) ->
  exists sca', free_slots sca slot count = Done (sca', SYS_ERR_OK) /\ single_inv sca' /\
    (forall x, slot_free_in sca' x <-> slot_free_in sca x \/ slot <= x < slot + count) /\
    s_nslots sca' = s_nslots sca /\ s_cnode sca' = s_cnode sca.
Proof.
  intros Hinv Hsl Hct Hend Hdisj. pose proof Hinv as [Hn Hr Hs Hp Hc].
  pose proof (finish_inv sca slot count) as Hfin. unfold slot_free_in in *.
  set (hi := s_nslots sca) in *.
  enough (exists l slab, free_slots sca slot count =
      Done (set_ranges (u32 (s_space sca + count)) l slab sca, SYS_ERR_OK) /\
    freed_to 0 hi slot count (s_head sca) l /\ pool_holds slab (m_addr <$> l) /\
    capacity slab = capacity (s_slab sca)) as (l & slab & E & Hf & Hp' & Hc').
  { eexists. split; [exact E|]. split_and!; auto. by apply Hf. }
  unfold free_slots. destruct (s_head sca) as [|h rest] eqn:Eh.
  - destruct (new_meta_spec slot count _ _ Hp) as (slab' & p & -> & Hp' & Hc'); [simpl; lia|].
    eexists _, _. split_and!; [done| |done|done]. ranges.
  - pose proof Hr as Hr'. apply ranges_cons in Hr' as (Hh1 & Hh2 & Hh3 & Hrest).
    rewrite (u32_small (slot + count)) by lia.
    destruct (Z.eqb_spec (slot + count) (m_slot h)) as [Hj|Hj].
    + rewrite (u32_small (m_space h + count)) by lia.
      eexists _, _. split_and!; [done| |done|done]. unfold freed_to. split_and!.
      * apply ranges_cons. cbn [m_slot m_space]. split_and!; try lia. eapply ranges_weaken; [|exact Hrest]. lia.
      * cbn [total_space m_space]. lia.
      * intros x. cbn [free_in m_slot m_space]. intuition lia.
    + destruct (Z.ltb_spec slot (m_slot h)) as [Hlt|Hge].
      * assert (slot + count <= m_slot h) by (by eapply (clear_of_next hi)).
        assert (Hok2 : ranges_ok 0 (CnodeMeta 0 slot count :: h :: rest) hi) by ranges.
        pose proof (ranges_count _ _ _ Hok2 ltac:(lia)) as Hlen. cbn [length] in Hlen.
        destruct (new_meta_spec slot count _ _ Hp) as (slab' & p & -> & Hp' & Hc').
        { rewrite length_fmap. cbn [length]. lia. }
        eexists _, _. split_and!; [done| |done|done]. ranges.
      * destruct (free_walk_used hi slot count ltac:(lia) Hct Hend h rest 0 (s_slab sca) [])
          as (slab' & l' & -> & Hf & Hp' & Hc'); auto; [lia|unfold room; simpl; lia|].
        eexists _, _. split_and!; [done|done|done|done].
Qed.

Lemma free_slots_twice sca slot count : single_inv sca -> 0 <= slot -> 0 < count ->
  slot + count <= s_nslots sca -> slot_free_in sca slot -> count = 1 ->
  free_slots sca slot count = Done (sca, err LIB_ERR_SLOT_UNALLOCATED).
Proof.
  intros [Hn Hr Hs Hp Hc] Hsl Hct Hend Hfree ->. unfold free_slots, slot_free_in in *.
  destruct (s_head sca) as [|h rest] eqn:Eh; [done|].
  pose proof Hr as Hr'. apply ranges_cons in Hr' as (Hh1 & Hh2 & Hh3 & Hrest).
  rewrite (u32_small (slot + 1)) by lia.
  assert (m_slot h <= slot).
  { destruct Hfree as [?|Hf]; [lia|]. pose proof (free_in_bounds _ _ _ _ Hrest Hf). lia. }
  zdecide. by rewrite (free_walk_free (s_nslots sca) slot 1 ltac:(lia) ltac:(lia) Hend h rest 0).
Qed.

(** A new allocator, in a buffer of the size that the macro gives. *)
Lemma single_init_spec cn nslots buf buflen : 2 <= nslots < 2 ^ 32 -> Z.Even nslots ->
  SINGLE_SLOT_ALLOC_BUFLEN nslots <= buflen -> 0 < buf -> buf + buflen < 2 ^ 32 ->
  exists s, single_slot_alloc_init_raw cn nslots buf buflen = Done (s, SYS_ERR_OK) /\ single_inv s /\
    s_cnode s = cn /\ s_nslots s = nslots /\ s_space s = nslots /\
    forall x, slot_free_in s x <-> 0 <= x < nslots.
Proof.
  intros Hn [k ->] Hlen Hbuf Hend. unfold SINGLE_SLOT_ALLOC_BUFLEN in Hlen.
  rewrite (Z.mul_comm 2 k), Z.div_mul in Hlen by lia.
  change (SLAB_REAL_BLOCKSIZE sizeof_cnode_meta) with 12 in Hlen. unfold sizeof_slab_head in Hlen.
  destruct (pool_fresh sizeof_cnode_meta buf buflen) as (a & Ha & Hp & Hc); try done.
  { change (SLAB_REAL_BLOCKSIZE sizeof_cnode_meta) with 12. unfold sizeof_slab_head. lia. }
  change (SLAB_REAL_BLOCKSIZE sizeof_cnode_meta) with 12 in Hc. unfold sizeof_slab_head in Hc.
  assert (k <= Z.of_nat (capacity a)) as Hk by (rewrite Hc; apply Z.div_le_lower_bound; lia).
  destruct (pool_alloc a [] Hp) as (a' & p & Hal & Hnn & Hp' & Hc'); [simpl; lia|].
  unfold single_slot_alloc_init_raw. zdecide. rewrite Ha. step.
  rewrite Hal. step. rewrite assert_true_neq by done. step.
  eexists. split; [done|]. cbn [s_cnode s_nslots s_space]. split_and!; try done.
  - split; cbn [s_nslots s_head s_space s_slab]; [lia| | |done|lia].
    + apply ranges_cons. cbn [m_slot m_space ranges_ok]. split_and!; (done || lia).
    + simpl. lia.
  - intros x. unfold slot_free_in. cbn. lia.
Qed.

(** * The two level slot allocator *)

Definition total_free (l : list single_slot_allocator) : Z := foldr (fun s n => s_space s + n) 0 l.

Record multi_inv (m : multi_slot_allocator) : Prop := {
  mi_single : Forall single_inv (mu_list m);
  mi_cnodes : NoDup (s_cnode <$> mu_list m);
  mi_space : 0 <= mu_space m <= total_free (mu_list m);
  mi_width : total_free (mu_list m) < 2 ^ 32
}.

(** The slot is free in the allocator of its CNode. *)
Definition multi_free (l : list single_slot_allocator) (c : capref) : Prop :=
  Exists (fun s => s_cnode s = cnode c /\ slot_free_in s (slot c)) l.

Lemma multi_free_cons s l c : multi_free (s :: l) c <->
  (s_cnode s = cnode c /\ slot_free_in s (slot c)) \/ multi_free l c.
Proof. apply Exists_cons. Qed.

Lemma single_full s : single_inv s -> s_space s = 0 -> forall x, ~ slot_free_in s x.
Proof.
  intros [Hn Hr Hs _ _] Hz x Hx. unfold slot_free_in in Hx.
  destruct (total_space_bounds _ _ _ Hr ltac:(lia)) as [_ [Hnil|Hpos]]; [by rewrite Hnil in Hx|lia].
Qed.

Lemma total_free_nonneg l : Forall single_inv l -> 0 <= total_free l.
Proof.
  induction 1 as [|s l Hs _ IH]; simpl; [lia|]. destruct Hs as [? Hr -> _ _].
  pose proof (total_space_bounds _ _ _ Hr ltac:(lia)). lia.
Qed.

Lemma two_level_walk_spec l : Forall single_inv l -> NoDup (s_cnode <$> l) -> 0 < total_free l ->
  exists l' cap, two_level_walk l = Done (l', SYS_ERR_OK, cap) /\ Forall single_inv l' /\
    (s_cnode <$> l') = (s_cnode <$> l) /\ total_free l' = total_free l - 1 /\ multi_free l cap /\
    forall c, multi_free l' c <-> multi_free l c /\ c <> cap.
Proof.
  induction l as [|s l IH]; intros Hf Hnd Hpos; [simpl in Hpos; lia|].
  apply Forall_cons in Hf as [Hs Hf]. rewrite fmap_cons in Hnd. apply NoDup_cons in Hnd as [Hni Hnd].
  cbn [two_level_walk].
  assert (Hother : forall c, multi_free l c -> cnode c <> s_cnode s).
  { intros c (s0 & Hin & Hcn & _)%Exists_exists Heq. apply Hni. rewrite <- Heq, <- Hcn.
    by apply list_elem_of_fmap_2. }
  destruct (decide (s_space s = 0)) as [Hz|Hz].
  - unfold salloc. rewrite Hz. simpl (0 =? 0). step.
    rewrite bool_decide_eq_true_2 by done. cbn [negb]. simpl in Hpos.
    destruct l as [|s2 l]; [simpl in Hpos; lia|].
    destruct (IH Hf Hnd) as (l' & cap & -> & Hf' & Hc' & Ht' & Hfree & Hiff); [lia|].
    step. eexists _, cap. split; [done|].
    pose proof (single_full s Hs Hz) as Hfull. split_and!.
    + by constructor.
    + by rewrite !(fmap_cons s_cnode s), Hc'.
    + simpl in *. lia.
    + apply multi_free_cons. by right.
    + intros c. specialize (Hfull (slot c)). rewrite !(multi_free_cons s), Hiff. tauto.
  - destruct (salloc_spec s Hs Hz) as (s' & x & -> & Hs' & Hx & _ & Hiff & _ & Hcn & Hsp).
    step. rewrite bool_decide_eq_false_2 by done. cbn [negb].
    eexists _, (Capref (s_cnode s) x). split; [done|]. split_and!.
    + by constructor.
    + by rewrite !fmap_cons, Hcn.
    + simpl. lia.
    + apply multi_free_cons. by left.
    + intros c. rewrite !multi_free_cons, Hiff, Hcn. specialize (Hother c). destruct c as [cc cs]. simpl in *.
      split.
      * intros [(-> & ? & ?)|Hm]; [split; [auto|congruence]|].
        split; [auto|]. intros [= -> ->]. by apply Hother.
      * intros [[[-> ?]|?] Hne]; [left; split_and!; auto; congruence|auto].
Qed.

(** * Contracts *)

(** [salloc] hands out the smallest free slot of the CNode and only
    that one stops being free; it reports [LIB_ERR_SLOT_ALLOC_NO_SPACE],
    and changes nothing, exactly when no slot is free. *)
Theorem salloc_takes_smallest sca : single_inv sca ->
  (exists sca' x, salloc sca = Done (sca', SYS_ERR_OK, Capref (s_cnode sca) x) /\ single_inv sca' /\
     slot_free_in sca x /\ (forall y, slot_free_in sca y -> x <= y) /\
     forall y, slot_free_in sca' y <-> slot_free_in sca y /\ y <> x) \/
  (salloc sca = Done (sca, err LIB_ERR_SLOT_ALLOC_NO_SPACE, null_cap) /\
   forall x, ~ slot_free_in sca x).
Proof.
  intros Hinv. destruct (decide (s_space sca = 0)) as [Hz|Hz].
  - right. split; [unfold salloc; by rewrite Hz|by apply single_full].
  - left. destruct (salloc_spec sca Hinv Hz) as (sca' & x & ? & ? & ? & ? & ? & _). eauto 10.
Qed.

(** [sfree] of a slot in use makes exactly that slot free again and
    never runs out of memory for its ranges; a slot that is free already or
    belongs to another CNode is refused and nothing changes. *)
Theorem sfree_correct sca cap : single_inv sca -> 0 <= slot cap < s_nslots sca ->
  (cnode cap = s_cnode sca -> ~ slot_free_in sca (slot cap) ->
   exists sca', sfree sca cap = Done (sca', SYS_ERR_OK) /\ single_inv sca' /\
     forall x, slot_free_in sca' x <-> slot_free_in sca x \/ x = slot cap) /\
  (cnode cap = s_cnode sca -> slot_free_in sca (slot cap) ->
   sfree sca cap = Done (sca, err LIB_ERR_SLOT_UNALLOCATED)) /\
  (cnode cap <> s_cnode sca -> sfree sca cap = Done (sca, err LIB_ERR_SLOT_ALLOC_WRONG_CNODE)).
Proof.
  intros Hinv Hsl. unfold sfree. split_and!; intros Hcn; zdecide; cbn [negb].
  - intros Hni. destruct (free_slots_spec sca (slot cap) 1 Hinv) as (sca' & E & Hinv' & Hiff & _); [lia..| |].
    { intros x Hx. by replace x with (slot cap) by lia. }
    exists sca'. split_and!; auto. intros x. rewrite Hiff. intuition lia.
  - intros Hin. apply free_slots_twice; auto; lia.
  - done.
Qed.

(** C37: [two_level_alloc], while more than one slot is counted free, hands
    out a slot that was free in one of the CNodes, and only that slot stops
    being free. *)
Theorem two_level_alloc_correct root refill create slab_refill sz fuel m : multi_inv m -> 1 < mu_space m ->
  exists m' cap, two_level_alloc root refill create slab_refill sz (S fuel) m = Done (m', SYS_ERR_OK, cap) /\
    multi_inv m' /\ multi_free (mu_list m) cap /\
    forall c, multi_free (mu_list m') c <-> multi_free (mu_list m) c /\ c <> cap.
Proof.
  intros [Hs Hc Hsp Hw] Hgt. cbn [two_level_alloc]. rewrite assert_true_neq by lia. step.
  destruct (two_level_walk_spec _ Hs Hc ltac:(lia)) as (l' & cap & -> & Hs' & Hc' & Ht' & Hf & Hiff).
  cbn [mbind outcome_bind err_is_fail SYS_ERR_OK mu_space set_mu].
  unwrap. zdecide. cbn [negb]. eexists _, cap. split; [done|]. split_and!; auto.
  split; cbn [mu_list mu_space set_mu]; auto; [by rewrite Hc'|lia|lia].
Qed.

(** When [two_level_alloc] takes the last slot it counts, it grows: the
    slot is handed out as usual, all slots of the reserve become available,
    and a new reserve is set up for the CNode the kernel created, in a block
    of the allocator's own slab. *)
Theorem two_level_alloc_grows root refill create slab_refill sz fuel m used cn :
  multi_inv m -> mu_space m = 1 ->
  single_inv (mu_reserve m) -> s_cnode (mu_reserve m) ∉ s_cnode <$> mu_list m ->
  s_space (mu_reserve m) = mu_nslots m -> total_free (mu_list m) + mu_nslots m < 2 ^ 32 ->
  2 <= mu_nslots m -> Z.Even (mu_nslots m) ->
  (forall m, exists cap, root m = Done (m, SYS_ERR_OK, cap)) ->
  (forall cap m, create cap m = Done (m, SYS_ERR_OK, cn)) ->
  pool_holds (mu_slab m) used -> (length used < capacity (mu_slab m))%nat ->
  0 <= sz -> sz + SINGLE_SLOT_ALLOC_BUFLEN (mu_nslots m) <= blocksize (mu_slab m) ->
  exists m' cap, two_level_alloc root refill create slab_refill sz (S fuel) m = Done (m', SYS_ERR_OK, cap) /\
    multi_inv m' /\ mu_space m' = mu_nslots m /\ multi_free (mu_list m) cap /\
    (forall c, multi_free (mu_list m') c <->
       (multi_free (mu_list m) c /\ c <> cap) \/ multi_free [mu_reserve m] c) /\
    single_inv (mu_reserve m') /\ s_cnode (mu_reserve m') = cn /\ s_space (mu_reserve m') = mu_nslots m.
Proof.
  intros [Hs Hc Hsp Hw] H1 Hres Hfresh Hrsp Htot Hn2 Heven Hroot Hcreate Hpool Hcap Hsz Hbuf.
  cbn [two_level_alloc]. rewrite H1. cbn [mbind outcome_bind assert negb Z.eqb].
  destruct (two_level_walk_spec _ Hs Hc ltac:(lia)) as (l' & cap & -> & Hs' & Hc' & Ht' & Hf & Hiff).
  cbn [mbind outcome_bind err_is_fail SYS_ERR_OK mu_space set_mu].
  change (u32 (1 - 1)) with 0. cbn [Z.eqb negb]. cbn [mu_nslots mu_reserve mu_list mu_slab set_mu].
  set (m1 := set_mu _ (mu_reserve m :: l') _ _ _).
  unfold two_level_new_cnode. destruct (Hroot m1) as [rc ->]. step.
  rewrite bool_decide_eq_false_2 by done. cbn [mbind outcome_bind err_is_fail SYS_ERR_OK].
  rewrite Hcreate. cbn [mbind outcome_bind err_is_fail SYS_ERR_OK].
  destruct (pool_alloc _ _ Hpool Hcap) as (slab' & b & Hal & Hnn & Hpool' & _).
  pose proof (alloc_blocksize _ _ _ Hal) as Hbs.
  pose proof (pool_block_range _ _ _ Hpool') as [Hb0 Hb1]. rewrite Hbs in Hb1.
  assert (0 <= SINGLE_SLOT_ALLOC_BUFLEN (mu_nslots m)) as Hb2.
  { unfold SINGLE_SLOT_ALLOC_BUFLEN. change (SLAB_REAL_BLOCKSIZE sizeof_cnode_meta) with 12.
    pose proof (Z.div_pos (mu_nslots m) 2). unfold sizeof_slab_head. lia. }
  unfold two_level_buffer. change (mu_slab m1) with (mu_slab m). rewrite Hal. step.
  rewrite (proj2 (Z.eqb_neq b NULL) Hnn). cbn [negb mbind outcome_bind err_is_fail SYS_ERR_OK].
  cbn [mu_nslots mu_slab set_mu m1]. rewrite Hbs, (u32_small (b + sz)), (u32_small (blocksize _ - sz)) by lia.
  destruct (single_init_spec cn (mu_nslots m) (b + sz) (blocksize (mu_slab m) - sz))
    as (res & -> & Hres' & Hrc & _ & Hrs & _); try (done || lia).
  cbn [mbind outcome_bind err_is_fail SYS_ERR_OK]. eexists _, cap. split; [done|].
  cbn [mu_list mu_space mu_reserve set_mu m1]. split_and!; try done.
  - split; cbn [mu_list mu_space set_mu m1].
    + by constructor.
    + rewrite fmap_cons, Hc'. by constructor.
    + simpl. pose proof (total_free_nonneg _ Hs'). lia.
    + simpl. lia.
  - intros c. rewrite multi_free_cons, Hiff. unfold multi_free at 3. rewrite Exists_cons, Exists_nil. tauto.
Qed.

Lemma count_ranges l : forall n, 0 <= n -> Forall (fun m => 0 <= m_space m) l ->
  n + total_space l < 2 ^ 32 ->
  fold_left (fun count m => u32 (count + m_space m)) l n = n + total_space l /\ 0 <= total_space l.
Proof.
  induction l as [|m l IH]; intros n Hn Hl Hb; cbn [fold_left total_space] in *; [lia|].
  apply Forall_cons in Hl as [Hm Hl].
  assert (0 <= total_space l) by (clear -Hl; induction Hl; cbn [total_space]; lia).
  unwrap. destruct (IH (n + m_space m)) as [-> ?]; (done || lia).
Qed.

(** [range_slot_alloc_freecount] does not add up the free slots of a
    chain: it counts those of the head once for every element. *)
Theorem range_freecount_counts_head r rest : Forall (fun m => 0 <= m_space m) (r_meta r) ->
  Z.of_nat (length (r :: rest)) * total_space (r_meta r) < 2 ^ 32 ->
  range_slot_alloc_freecount (r :: rest) = Z.of_nat (length (r :: rest)) * total_space (r_meta r).
Proof.
  intros Hr Hb. unfold range_slot_alloc_freecount. set (chain := r :: rest) in *. clearbody chain.
  assert (0 <= total_space (r_meta r)) as Ht
    by (clear -Hr; induction Hr; cbn [total_space]; lia).
  cut (forall n, 0 <= n -> n + Z.of_nat (length chain) * total_space (r_meta r) < 2 ^ 32 ->
    fold_left (fun count _ => fold_left (fun count m => u32 (count + m_space m)) (r_meta r) count) chain n
    = n + Z.of_nat (length chain) * total_space (r_meta r)).
  { intros H. rewrite H; lia. }
  clear Hb. induction chain as [|c chain IH]; intros n Hn Hb; cbn [fold_left length] in *; [lia|].
  destruct (count_ranges (r_meta r) n) as [-> _]; [done|done|nia|]. rewrite IH; nia.
Qed.

(** * Concrete allocators *)

Module SlotSample.
(** A CNode of eight slots, of which the first is taken. *)
Definition s0 : single_slot_allocator :=
  match single_slot_alloc_init_raw 7 8 4096 (SINGLE_SLOT_ALLOC_BUFLEN 8) with
  | Done (s, _) => s
  | Fault _ => Single 0 0 0 [] (slab_init 0)
  end.
Definition s1 : single_slot_allocator :=
  match salloc s0 with Done (s, _, _) => s | Fault _ => s0 end.

Lemma s1_inv : single_inv s1.
Proof.
  split; [by vm_compute|by vm_compute|by vm_compute| |by vm_compute].
  exists [[4124; 4136; 4148]]. split; [one_slab|]. by vm_compute.
Qed.

Lemma salloc_takes_smallest_witness :
  (exists sca' x, salloc s1 = Done (sca', SYS_ERR_OK, Capref (s_cnode s1) x) /\ single_inv sca' /\
     slot_free_in s1 x /\ (forall y, slot_free_in s1 y -> x <= y) /\
     forall y, slot_free_in sca' y <-> slot_free_in s1 y /\ y <> x) \/
  (salloc s1 = Done (s1, err LIB_ERR_SLOT_ALLOC_NO_SPACE, null_cap) /\ forall x, ~ slot_free_in s1 x).
Proof. exact (salloc_takes_smallest s1 s1_inv). Defined.

Lemma sfree_correct_witness :
  exists sca', sfree s1 (Capref 7 0) = Done (sca', SYS_ERR_OK) /\ single_inv sca' /\
    forall x, slot_free_in sca' x <-> slot_free_in s1 x \/ x = 0.
Proof.
  refine (proj1 (sfree_correct s1 (Capref 7 0) s1_inv _) _ _); [by vm_compute|by vm_compute|].
  vm_compute. intros [[? ?]|?]; [congruence|done].
Defined.

Definition m1 : multi_slot_allocator := Multi 7 256 [s1] s0 (slab_init 1000).

Lemma m1_inv : multi_inv m1.
Proof.
  split; [constructor; [apply s1_inv|constructor]|apply NoDup_singleton|by vm_compute|by vm_compute].
Qed.

Definition no_call {A} (a : A) (m : multi_slot_allocator) : outcome (multi_slot_allocator * errval * A) :=
  Done (m, SYS_ERR_OK, a).

Lemma two_level_alloc_correct_witness : exists m' cap,
  two_level_alloc (no_call null_cap) (fun m => Done (m, SYS_ERR_OK)) (fun _ => no_call 0)
    (fun _ m => Done (m, SYS_ERR_OK)) 80 1 m1 = Done (m', SYS_ERR_OK, cap) /\
  multi_inv m' /\ multi_free (mu_list m1) cap /\
  forall c, multi_free (mu_list m') c <-> multi_free (mu_list m1) c /\ c <> cap.
Proof.
  apply (two_level_alloc_correct (no_call null_cap) (fun m => Done (m, SYS_ERR_OK)) (fun _ => no_call 0)
    (fun _ m => Done (m, SYS_ERR_OK)) 80 0 m1 m1_inv). by vm_compute.
Defined.

(** One slot counted, a reserve of eight slots, and room for more. *)
Definition s9 : single_slot_allocator :=
  match single_slot_alloc_init_raw 9 8 8192 (SINGLE_SLOT_ALLOC_BUFLEN 8) with
  | Done (s, _) => s
  | Fault _ => Single 0 0 0 [] (slab_init 0)
  end.
Definition pool : slab_allocator :=
  match slab_grow (slab_init 144) 16384 400 with Done a => a | Fault _ => slab_init 144 end.
Definition m2 : multi_slot_allocator := Multi 1 8 [s1] s9 pool.

Lemma s9_inv : single_inv s9.
Proof.
  split; [by vm_compute|by vm_compute|by vm_compute| |by vm_compute].
  exists [[8220; 8232; 8244]]. split; [one_slab|]. by vm_compute.
Qed.

Lemma m2_inv : multi_inv m2.
Proof.
  split; [constructor; [apply s1_inv|constructor]|apply NoDup_singleton|by vm_compute|by vm_compute].
Qed.

Lemma pool_ok : pool_holds pool [].
Proof. exists [[16400; 16544]]. split; [one_slab|]. by vm_compute. Qed.

Lemma two_level_alloc_grows_witness : exists m' cap,
  two_level_alloc (no_call null_cap) (fun m => Done (m, SYS_ERR_OK)) (fun _ => no_call 11)
    (fun _ m => Done (m, SYS_ERR_OK)) 80 1 m2 = Done (m', SYS_ERR_OK, cap) /\
  multi_inv m' /\ mu_space m' = 8 /\ multi_free (mu_list m2) cap /\
  (forall c, multi_free (mu_list m') c <->
     (multi_free (mu_list m2) c /\ c <> cap) \/ multi_free [s9] c) /\
  single_inv (mu_reserve m') /\ s_cnode (mu_reserve m') = 11 /\ s_space (mu_reserve m') = 8.
Proof.
  refine (two_level_alloc_grows (no_call null_cap) (fun m => Done (m, SYS_ERR_OK)) (fun _ => no_call 11)
    (fun _ m => Done (m, SYS_ERR_OK)) 80 0 m2 [] 11 m2_inv _ s9_inv _ _ _ _ _ _ _ pool_ok _ _ _).
  - done.
  - vm_decide.
  - by vm_compute.
  - by vm_compute.
  - by vm_compute.
  - by exists 4.
  - by exists null_cap.
  - done.
  - vm_compute. lia.
  - lia.
  - by vm_compute.
Defined.

Lemma range_freecount_counts_head_witness :
  range_slot_alloc_freecount
    [Range 1 [CnodeMeta 4096 0 10] (slab_init 12); Range 2 [CnodeMeta 8192 0 200] (slab_init 12)] = 20.
Proof.
  refine (range_freecount_counts_head (Range 1 [CnodeMeta 4096 0 10] (slab_init 12)) _ _ _).
  - repeat constructor. by vm_compute.
  - by vm_compute.
Defined.
End SlotSample.
