(* ===== verification/Sched.v ===== *)
(** The kernel's scheduler (kernel/schedule_rbed.c, rate-based earliest
    deadline) and its wakeup queue (kernel/wakeup.c).

    Dispatcher control blocks are named by their addresses; the memory that
    holds them is a function, so that the queues, which are lists of
    addresses, share it.  [next] and [wakeup_prev]/[wakeup_next] are the
    order of the lists. *)
From S2P Require Import Prelude.

(** * Data *)

Inductive task_type := TASK_TYPE_BEST_EFFORT | TASK_TYPE_SOFT_REALTIME | TASK_TYPE_HARD_REALTIME.

#[global] Instance task_type_eq_dec : EqDecision task_type.
Proof. solve_decision. Defined.

(** The fields of [struct dcb] that the scheduler uses.  Times are 64-bit
    system ticks, [weight] is an [unsigned short]. *)
Record dcb := Dcb {
  release_time : Z; etime : Z; last_dispatch : Z; wcet : Z; period : Z; rel_deadline : Z;
  weight : Z; type : task_type; wakeup_time : Z
}.

(** The fields of [struct kcb] for RBED and wakeups, with the dispatchers in
    memory and the static variables [lastdisp] and [dcb_current]. *)
Record kcb := Kcb {
  dcbs : Z -> dcb; queue : list Z; u_hrt : Z; u_srt : Z; w_be : Z; n_be : Z;
  wakeup_queue : list Z; lastdisp : option Z; dcb_current : option Z
}.

Definition set_dcbs (m : Z -> dcb) (k : kcb) : kcb :=
  Kcb m (queue k) (u_hrt k) (u_srt k) (w_be k) (n_be k) (wakeup_queue k) (lastdisp k) (dcb_current k).
Definition set_queue (q : list Z) (k : kcb) : kcb :=
  Kcb (dcbs k) q (u_hrt k) (u_srt k) (w_be k) (n_be k) (wakeup_queue k) (lastdisp k) (dcb_current k).
Definition set_u_hrt (u : Z) (k : kcb) : kcb :=
  Kcb (dcbs k) (queue k) u (u_srt k) (w_be k) (n_be k) (wakeup_queue k) (lastdisp k) (dcb_current k).
Definition set_be (w n : Z) (k : kcb) : kcb :=
  Kcb (dcbs k) (queue k) (u_hrt k) (u_srt k) w n (wakeup_queue k) (lastdisp k) (dcb_current k).
Definition set_wakeup_queue (q : list Z) (k : kcb) : kcb :=
  Kcb (dcbs k) (queue k) (u_hrt k) (u_srt k) (w_be k) (n_be k) q (lastdisp k) (dcb_current k).
Definition set_lastdisp (d : option Z) (k : kcb) : kcb :=
  Kcb (dcbs k) (queue k) (u_hrt k) (u_srt k) (w_be k) (n_be k) (wakeup_queue k) d (dcb_current k).

(** Update the dispatcher at an address. *)
Definition upd (d : Z) (f : dcb -> dcb) (k : kcb) : kcb :=
  set_dcbs (<[d := f (dcbs k d)]> (dcbs k)) k.

Definition with_release (t : Z) (b : dcb) : dcb :=
  Dcb t (etime b) (last_dispatch b) (wcet b) (period b) (rel_deadline b) (weight b) (type b) (wakeup_time b).
Definition with_etime (t : Z) (b : dcb) : dcb :=
  Dcb (release_time b) t (last_dispatch b) (wcet b) (period b) (rel_deadline b) (weight b) (type b) (wakeup_time b).
Definition with_last (t : Z) (b : dcb) : dcb :=
  Dcb (release_time b) (etime b) t (wcet b) (period b) (rel_deadline b) (weight b) (type b) (wakeup_time b).
Definition with_wcet (t : Z) (b : dcb) : dcb :=
  Dcb (release_time b) (etime b) (last_dispatch b) t (period b) (rel_deadline b) (weight b) (type b) (wakeup_time b).
Definition with_period (t : Z) (b : dcb) : dcb :=
  Dcb (release_time b) (etime b) (last_dispatch b) (wcet b) t (rel_deadline b) (weight b) (type b) (wakeup_time b).
Definition with_deadline (t : Z) (b : dcb) : dcb :=
  Dcb (release_time b) (etime b) (last_dispatch b) (wcet b) (period b) t (weight b) (type b) (wakeup_time b).
Definition with_weight (w : Z) (b : dcb) : dcb :=
  Dcb (release_time b) (etime b) (last_dispatch b) (wcet b) (period b) (rel_deadline b) w (type b) (wakeup_time b).
Definition with_task_type (t : task_type) (b : dcb) : dcb :=
  Dcb (release_time b) (etime b) (last_dispatch b) (wcet b) (period b) (rel_deadline b) (weight b) t (wakeup_time b).
Definition with_wakeup (t : Z) (b : dcb) : dcb :=
  Dcb (release_time b) (etime b) (last_dispatch b) (wcet b) (period b) (rel_deadline b) (weight b) (type b) t.

Definition SPECTRUM : Z := 1000000.
Definition BETA : Z := SPECTRUM / 10.
Definition UINT_MAX : Z := 2 ^ 32 - 1.

(** * The run queue *)

Section Rbed.
(** The length of a timeslice in ticks. *)
Variable kernel_timeslice : Z.

Definition in_queue (d : Z) (k : kcb) : bool := bool_decide (d ∈ queue k).

Definition is_type (t : task_type) (b : dcb) : bool :=
  match t, type b with
  | TASK_TYPE_BEST_EFFORT, TASK_TYPE_BEST_EFFORT
  | TASK_TYPE_SOFT_REALTIME, TASK_TYPE_SOFT_REALTIME
  | TASK_TYPE_HARD_REALTIME, TASK_TYPE_HARD_REALTIME => true
  | _, _ => false
  end.

Definition u_target (b : dcb) : outcome Z :=
  if period b =? 0 then Fault DivisionByZero else Done (u32 (u64 (wcet b * SPECTRUM) / period b)).

Definition u_actual_srt (b : dcb) (k : kcb) : outcome Z :=
  t ← u_target b;
  if negb (t =? 0) then
    if u_srt k / t =? 0 then Fault DivisionByZero
    else Done (Z.min t (u32 (u32 (1 - BETA - u_hrt k) / (u_srt k / t))))
  else Done 0.

Definition deadline (b : dcb) : Z := u64 (release_time b + rel_deadline b).

(** Insert into the queue, behind the dispatchers that [queue_insert] skips. *)
Fixpoint queue_place (m : Z -> dcb) (d : Z) (l : list Z) : list Z :=
  match l with
  | [] => [d]
  | i :: l' =>
    if is_type TASK_TYPE_BEST_EFFORT (m d) && (release_time (m i) <=? release_time (m d)) then
      i :: queue_place m d l'
    else if deadline (m i) <=? deadline (m d) then i :: queue_place m d l'
    else d :: i :: l'
  end.

Definition queue_insert (d : Z) (k : kcb) : kcb := set_queue (queue_place (dcbs k) d (queue k)) k.

Fixpoint queue_unlink (d : Z) (l : list Z) : list Z :=
  match l with
  | [] => []
  | i :: l' => if i =? d then l' else i :: queue_unlink d l'
  end.

Definition queue_remove (d : Z) (k : kcb) : kcb :=
  if negb (in_queue d k) then k else set_queue (queue_unlink d (queue k)) k.

(** [do_resource_allocation]: the share of the dispatcher; a best-effort
    dispatcher also gets its period and deadline. *)
Definition do_resource_allocation (d : Z) (k : kcb) : outcome (kcb * Z) :=
  let b := dcbs k d in
  match type b with
  | TASK_TYPE_HARD_REALTIME => u ← u_target b; Done (k, u)
  | TASK_TYPE_SOFT_REALTIME => u ← u_actual_srt b k; Done (k, u)
  | TASK_TYPE_BEST_EFFORT =>
    ASSERT (0 <? w_be k) && (0 <? n_be k);
    ASSERT weight b <? UINT_MAX / SPECTRUM;
    let u := u32 (Z.max BETA (u32 (SPECTRUM - u_hrt k - u_srt k)) * weight b) / w_be k in
    let t := u64 (n_be k * kernel_timeslice) in
    Done (upd d (fun b => with_deadline t (with_period t b)) k, u)
  end.

Definition set_best_effort_wcet (d : Z) (k : kcb) : outcome kcb :=
  '(k, u_actual) ← do_resource_allocation d k;
  let wcet_undiv := u64 (u64 (n_be k * kernel_timeslice) * u_actual) in
  ASSERT u32 (u_hrt k + u_srt k + u_actual) <=? SPECTRUM;
  Done (upd d (with_wcet (u64 (wcet_undiv + SPECTRUM / 2) / SPECTRUM)) k).

(** The first dispatcher of the queue that is released. *)
Definition first_released (now : Z) (k : kcb) : option Z :=
  find (fun i => negb (now <? release_time (dcbs k i))) (queue k).

(** Put a dispatcher that used up its budget back into the queue. *)
Definition requeue (now d : Z) (k : kcb) : kcb :=
  let k := queue_remove d k in
  let k := if negb (is_type TASK_TYPE_BEST_EFFORT (dcbs k d)) then
             if release_time (dcbs k d) <? now then
               upd d (fun b => with_release (u64 (release_time b + period b)) b) k
             else k
           else upd d (with_release now) k in
  let k := upd d (with_etime 0) k in
  set_lastdisp None (queue_insert d k).

(** The part of [schedule] after [start_over], with fuel for the jumps. *)
Fixpoint schedule_loop (fuel : nat) (now : Z) (k : kcb) : outcome (kcb * option Z) :=
  match fuel with
  | O => Fault OutOfFuel
  | S fuel =>
    match first_released now k with
    | None => Done (set_lastdisp None k, None)
    | Some d =>
      k ← (if is_type TASK_TYPE_BEST_EFFORT (dcbs k d) then
             k ← set_best_effort_wcet d k;
             Done (if deadline (dcbs k d) <? now then upd d (with_release now) k else k)
           else Done k);
      if is_type TASK_TYPE_HARD_REALTIME (dcbs k d) && (deadline (dcbs k d) <? now) then Fault Panicked
      else
        ASSERT now <=? deadline (dcbs k d);
        if etime (dcbs k d) <? wcet (dcbs k d) then
          let k := upd d (with_last now) k in
          match dcb_current k with
          | Some c =>
            if bool_decide (lastdisp k = Some d) && in_queue c k then Done (k, Some c)
            else Done (set_lastdisp (Some d) k, Some d)
          | None => Done (set_lastdisp (Some d) k, Some d)
          end
        else schedule_loop fuel now (requeue now d k)
    end
  end.

(** Account the time since the last dispatch. *)
Definition account (now : Z) (k : kcb) : outcome kcb :=
  match lastdisp k with
  | None => Done k
  | Some d =>
    ASSERT last_dispatch (dcbs k d) <=? now;
    Done (if release_time (dcbs k d) <=? now then
            upd d (fun b => with_etime (u64 (etime b + u64 (now - Z.max (last_dispatch b) (release_time b)))) b) k
          else k)
  end.

Definition schedule (fuel : nat) (now : Z) (k : kcb) : outcome (kcb * option Z) :=
  ASSERT u32 (u_hrt k + u_srt k + BETA) <=? SPECTRUM;
  k ← account now k;
  schedule_loop fuel now k.

Definition schedule_now (now d : Z) (k : kcb) : kcb :=
  let k := if now <=? release_time (dcbs k d) then upd d (with_release now) k else k in
  upd d (with_deadline 1) k.

Definition make_runnable (now d : Z) (k : kcb) : outcome kcb :=
  if in_queue d k then Done k
  else
    k ← match type (dcbs k d) with
        | TASK_TYPE_BEST_EFFORT =>
          let k := if weight (dcbs k d) =? 0 then upd d (with_weight 1) k else k in
          let k := set_be (u32 (w_be k + weight (dcbs k d))) (u32 (n_be k + 1)) k in
          let t := u64 (n_be k * kernel_timeslice) in
          Done (upd d (fun b => with_release now (with_deadline t (with_period t b))) k)
        | TASK_TYPE_SOFT_REALTIME => Fault Panicked
        | TASK_TYPE_HARD_REALTIME =>
          u ← u_target (dcbs k d); Done (set_u_hrt (u32 (u_hrt k + u)) k)
        end;
    if SPECTRUM <? u32 (u_hrt k + u_srt k + BETA) then Fault Panicked
    else if release_time (dcbs k d) <? now then Fault Panicked
    else Done (queue_insert d (upd d (with_etime 0) k)).

Definition scheduler_remove (d : Z) (k : kcb) : outcome kcb :=
  if negb (in_queue d k) then Done k
  else
    let k := queue_remove d k in
    match type (dcbs k d) with
    | TASK_TYPE_BEST_EFFORT => Done (set_be (u32 (w_be k - weight (dcbs k d))) (u32 (n_be k - 1)) k)
    | TASK_TYPE_SOFT_REALTIME => Fault Panicked
    | TASK_TYPE_HARD_REALTIME => u ← u_target (dcbs k d); Done (set_u_hrt (u32 (u_hrt k - u)) k)
    end.

Definition scheduler_yield (now d : Z) (k : kcb) : kcb :=
  if negb (in_queue d k) || (now <? release_time (dcbs k d)) then k
  else
    let k := queue_remove d k in
    let k := match type (dcbs k d) with
             | TASK_TYPE_BEST_EFFORT => upd d (with_release now) k
             | _ => upd d (fun b => with_release (u64 (release_time b + period b)) b) k
             end in
    let k := set_lastdisp None (upd d (with_etime 0) k) in
    queue_insert d k.

(** [scheduler_reset_time]; [ring] are the queues of the other kernel
    control blocks on this core. *)
Definition reset_times (l : list Z) (k : kcb) : kcb :=
  fold_left (fun k i => upd i (fun b => with_last 0 (with_etime 0 (with_release 0 b))) k) l k.

Definition scheduler_reset_time (ring : list (list Z)) (k : kcb) : kcb :=
  set_lastdisp None (fold_left (fun k l => reset_times l k) ring (reset_times (queue k) k)).

Definition scheduler_restore_state (ring : list (list Z)) (k : kcb) : kcb := scheduler_reset_time ring k.

Inductive sched_state := SCHED_RR | SCHED_RBED.

(** [scheduler_convert] to RBED; [ring] is the round-robin ring from
    [ring_current] on, which is not empty. *)
Fixpoint convert_ring (now : Z) (ring : list Z) (k : kcb) : outcome kcb :=
  match ring with
  | [] => Done k
  | i :: ring =>
    k ← make_runnable now i (upd i (with_task_type TASK_TYPE_BEST_EFFORT) k);
    convert_ring now ring k
  end.

Definition scheduler_convert (from : sched_state) (now : Z) (ring : list Z) (k : kcb) : outcome kcb :=
  match from with
  | SCHED_RBED => Done k
  | SCHED_RR => convert_ring now ring k
  end.

(** * The wakeup queue *)

(** [wakeup_remove]: [wakeup_prev] is NULL for the head of the queue and for
    a dispatcher that is not in it. *)
Definition wakeup_remove (d : Z) (k : kcb) : outcome kcb :=
  if negb (wakeup_time (dcbs k d) =? 0) then
    if bool_decide (d ∈ tail (wakeup_queue k)) then
      Done (set_wakeup_queue (queue_unlink d (wakeup_queue k)) k)
    else
      ASSERT bool_decide (head (wakeup_queue k) = Some d);
      Done (set_wakeup_queue (tail (wakeup_queue k)) k)
  else Done k.

Fixpoint wakeup_place (m : Z -> dcb) (d waketime : Z) (l : list Z) : list Z :=
  match l with
  | [] => [d]
  | i :: l' => if waketime <? wakeup_time (m i) then d :: i :: l' else i :: wakeup_place m d waketime l'
  end.

Definition wakeup_set (d waketime : Z) (k : kcb) : outcome kcb :=
  k ← wakeup_remove d k;
  let k := upd d (with_wakeup waketime) k in
  Done (set_wakeup_queue (wakeup_place (dcbs k) d waketime (wakeup_queue k)) k).

(** Wake the dispatchers at the front of the queue that are due. *)
Fixpoint wakeup_walk (now : Z) (l : list Z) (k : kcb) : outcome kcb :=
  match l with
  | [] => Done (set_wakeup_queue [] k)
  | d :: l' =>
    if wakeup_time (dcbs k d) <=? now then
      k ← make_runnable now d (upd d (with_wakeup 0) k);
      wakeup_walk now l' (schedule_now now d k)
    else Done (set_wakeup_queue (d :: l') k)
  end.

Definition wakeup_check (now : Z) (k : kcb) : outcome kcb := wakeup_walk now (wakeup_queue k) k.

Definition wakeup_is_pending (k : kcb) : bool := match wakeup_queue k with [] => false | _ => true end.

End Rbed.
