(* ===== verification/SchedCorrect.v ===== *)
(** The scheduler and the wakeup queue are correct: admission accounting,
    selection of the next dispatcher with its termination, earliest deadline
    first, round robin, and wakeups in order of time. *)
From S2P Require Import Prelude Sched.

(** * Queues as lists *)

Section Lists.

Lemma queue_place_split m d l : exists a b, queue_place m d l = a ++ d :: b /\ l = a ++ b /\
  (forall i b', b = i :: b' -> deadline (m d) < deadline (m i)
     /\ (type (m d) = TASK_TYPE_BEST_EFFORT -> release_time (m d) < release_time (m i))).
Proof.
  induction l as [|i l (a & b & IH & Hl & Hhd)]; [by exists [], []|]. cbn [queue_place].
  assert (exists a b, i :: queue_place m d l = a ++ d :: b /\ i :: l = a ++ b /\
    (forall i b', b = i :: b' -> deadline (m d) < deadline (m i)
     /\ (type (m d) = TASK_TYPE_BEST_EFFORT -> release_time (m d) < release_time (m i)))) as Hskip.
  { exists (i :: a), b. rewrite IH, Hl. split_and!; auto. }
  destruct (_ && _) eqn:Hbe; [done|]. destruct (Z.leb_spec (deadline (m i)) (deadline (m d))); [done|].
  exists [], (i :: l). split_and!; try done. intros j b' [= <- <-]. split; [done|]. intros Hty.
  unfold is_type in Hbe. rewrite Hty in Hbe. simpl in Hbe. by apply Z.leb_gt.
Qed.

Lemma queue_place_perm m d l : queue_place m d l ≡ₚ d :: l.
Proof. destruct (queue_place_split m d l) as (a & b & -> & -> & _). symmetry. apply Permutation_middle. Qed.

(** A best-effort dispatcher goes behind all that were released before. *)
Lemma queue_place_tail m d l : type (m d) = TASK_TYPE_BEST_EFFORT ->
  (forall i, i ∈ l -> release_time (m i) <= release_time (m d)) -> queue_place m d l = l ++ [d].
Proof.
  intros Hty. induction l as [|i l IH]; intros Hl; [done|]. cbn [queue_place app]. unfold is_type.
  rewrite Hty, (proj2 (Z.leb_le _ _) (Hl i ltac:(by left))). cbn [andb].
  f_equal. apply IH. intros j Hj. apply Hl. by right.
Qed.

Lemma queue_unlink_at d a b : d ∉ a -> queue_unlink d (a ++ d :: b) = a ++ b.
Proof.
  induction a as [|i a IH]; intros Hd; cbn [app queue_unlink]; [by rewrite Z.eqb_refl|].
  apply not_elem_of_cons in Hd as [Hne Hd]. rewrite (proj2 (Z.eqb_neq i d)) by done. by rewrite IH.
Qed.

Lemma queue_unlink_notin d l : d ∉ l -> queue_unlink d l = l.
Proof.
  induction l as [|i l IH]; [done|]. intros [Hne Hn]%not_elem_of_cons. cbn [queue_unlink].
  rewrite (proj2 (Z.eqb_neq i d)) by done. by rewrite IH.
Qed.

Lemma queue_unlink_perm d l : d ∈ l -> l ≡ₚ d :: queue_unlink d l.
Proof.
  induction l as [|i l IH]; [by intros ?%elem_of_nil|]. cbn [queue_unlink].
  destruct (Z.eqb_spec i d) as [->|Hne]; [done|]. intros [->|Hd]%elem_of_cons; [done|].
  rewrite (IH Hd) at 1. constructor.
Qed.

Lemma unlink_place m d l : d ∉ l -> queue_unlink d (queue_place m d l) = l.
Proof.
  intros Hd. destruct (queue_place_split m d l) as (a & b & -> & -> & _).
  apply queue_unlink_at. by apply not_elem_of_app in Hd as [? _].
Qed.

Lemma sorted_unlink (R : Z -> Z -> Prop) d l : StronglySorted R l -> StronglySorted R (queue_unlink d l).
Proof.
  induction 1 as [|i l Hs IH Hi]; cbn [queue_unlink]; [constructor|]. destruct (i =? d); [done|].
  constructor; [done|]. rewrite Forall_forall in *. intros j Hj. apply Hi. clear -Hj.
  induction l as [|x l IH]; [by apply elem_of_nil in Hj|]. cbn [queue_unlink] in Hj.
  destruct (x =? d); [by right|]. apply elem_of_cons in Hj as [->|Hj]; [by left|right; auto].
Qed.

(** The sum over a queue of a quantity of its dispatchers. *)
Definition qsum (f : dcb -> Z) (m : Z -> dcb) (l : list Z) : Z := foldr (fun i s => f (m i) + s) 0 l.

#[global] Instance qsum_proper f m : Proper ((≡ₚ) ==> eq) (qsum f m).
Proof. intros l l' Hp. induction Hp; cbn [qsum foldr] in *; unfold qsum in *; simpl; lia. Qed.

Lemma qsum_ext f m m' l : (forall i, i ∈ l -> f (m i) = f (m' i)) -> qsum f m l = qsum f m' l.
Proof.
  induction l as [|i l IH]; intros H; [done|]. unfold qsum in *. simpl.
  rewrite (H i), IH; [done| |by left]. intros. apply H. by right.
Qed.

Lemma qsum_nonneg f m l : (forall i, i ∈ l -> 0 <= f (m i)) -> 0 <= qsum f m l.
Proof.
  induction l as [|i l IH]; intros H; [done|]. unfold qsum in *. simpl.
  specialize (H i ltac:(by left)) as Hi. specialize (IH ltac:(intros; apply H; by right)). lia.
Qed.

Lemma qsum_elem f m l i : (forall i, i ∈ l -> 0 <= f (m i)) -> i ∈ l -> f (m i) <= qsum f m l.
Proof.
  intros Hnn Hi. rewrite (queue_unlink_perm i l Hi). unfold qsum. simpl.
  assert (0 <= qsum f m (queue_unlink i l)); [|unfold qsum in *; lia].
  apply qsum_nonneg. intros j Hj. apply Hnn. rewrite (queue_unlink_perm i l Hi). by right.
Qed.

End Lists.

(** * Accounting *)

Section Accounting.
Context (ts : Z).

Definition be_weight (b : dcb) : Z := if is_type TASK_TYPE_BEST_EFFORT b then weight b else 0.
Definition be_one (b : dcb) : Z := if is_type TASK_TYPE_BEST_EFFORT b then 1 else 0.
Definition share (b : dcb) : Z := u32 (u64 (wcet b * SPECTRUM) / period b).
Definition hrt_share (b : dcb) : Z := if is_type TASK_TYPE_HARD_REALTIME b then share b else 0.

(** A dispatcher that may be scheduled: no soft real-time, a weight that the
    resource allocation accepts, a period. *)
Definition task_ok (b : dcb) : Prop :=
  match type b with
  | TASK_TYPE_BEST_EFFORT => 0 < weight b < 4294
  | TASK_TYPE_SOFT_REALTIME => False
  | TASK_TYPE_HARD_REALTIME => period b <> 0
  end.

(** The counters of the kernel control block are those of its queue, and the
    processor is not overloaded. *)
Record sched_inv (k : kcb) : Prop := {
  sc_nodup : NoDup (queue k);
  sc_tasks : forall i, i ∈ queue k -> task_ok (dcbs k i);
  sc_w : w_be k = qsum be_weight (dcbs k) (queue k);
  sc_n : n_be k = qsum be_one (dcbs k) (queue k);
  sc_hrt : u_hrt k = qsum hrt_share (dcbs k) (queue k);
  sc_srt : u_srt k = 0;
  sc_width : w_be k < 2 ^ 32 /\ n_be k < 2 ^ 32;
  sc_load : u_hrt k + BETA <= SPECTRUM
}.

(** What the counters depend on. *)
Definition same_account (b b' : dcb) : Prop :=
  type b' = type b /\ weight b' = weight b /\
  (type b = TASK_TYPE_HARD_REALTIME -> wcet b' = wcet b /\ period b' = period b).

Lemma same_account_refl b : same_account b b.
Proof. done. Qed.

Lemma same_account_sums b b' : same_account b b' ->
  be_weight b' = be_weight b /\ be_one b' = be_one b /\ hrt_share b' = hrt_share b /\
  (task_ok b -> task_ok b').
Proof.
  intros (Ht & Hw & Hh). unfold be_weight, be_one, hrt_share, share, is_type, task_ok.
  rewrite Ht, Hw. destruct (type b) eqn:E; simpl; auto. by destruct Hh as [-> ->].
Qed.

Lemma share_range b : 0 <= share b.
Proof. apply u32_range. Qed.

Lemma sums_nonneg b : task_ok b -> 0 <= be_weight b /\ 0 <= be_one b /\ 0 <= hrt_share b.
Proof.
  unfold task_ok, be_weight, be_one, hrt_share, is_type. pose proof (share_range b).
  destruct (type b); simpl; lia.
Qed.

(** The invariant only reads the accounting part of the dispatchers, the
    queue up to order, and the counters. *)
Lemma sched_inv_same k k' : sched_inv k -> queue k' ≡ₚ queue k ->
  (forall i, same_account (dcbs k i) (dcbs k' i)) ->
  w_be k' = w_be k -> n_be k' = n_be k -> u_hrt k' = u_hrt k -> u_srt k' = u_srt k -> sched_inv k'.
Proof.
  intros [Hnd Hok Hw Hn Hh Hs Hwd Hl] Hq Hm Ew En Eh Es.
  assert (forall i, be_weight (dcbs k' i) = be_weight (dcbs k i) /\ be_one (dcbs k' i) = be_one (dcbs k i)
    /\ hrt_share (dcbs k' i) = hrt_share (dcbs k i) /\ (task_ok (dcbs k i) -> task_ok (dcbs k' i))) as Hsum
    by (intros i; apply same_account_sums, Hm).
  split.
  - by rewrite Hq.
  - intros i Hi. apply Hsum, Hok. by rewrite <- Hq.
  - rewrite Ew, Hw, Hq. apply qsum_ext. intros i _. by destruct (Hsum i) as (-> & _).
  - rewrite En, Hn, Hq. apply qsum_ext. intros i _. by destruct (Hsum i) as (_ & -> & _).
  - rewrite Eh, Hh, Hq. apply qsum_ext. intros i _. by destruct (Hsum i) as (_ & _ & -> & _).
  - by rewrite Es.
  - by rewrite Ew, En.
  - by rewrite Eh.
Qed.

Lemma upd_same d f k i : (forall b, same_account b (f b)) ->
  same_account (dcbs k i) (dcbs (upd d f k) i).
Proof.
  intros Hf. unfold upd. cbn [dcbs set_dcbs]. destruct (decide (d = i)) as [->|Hne].
  - rewrite fn_lookup_insert. apply Hf.
  - by rewrite fn_lookup_insert_ne.
Qed.

Lemma upd_inv d f k : (forall b, same_account b (f b)) -> sched_inv k -> sched_inv (upd d f k).
Proof. intros Hf Hk. apply (sched_inv_same k); try done. intros i. by apply upd_same. Qed.

Lemma upd_at d f k : dcbs (upd d f k) d = f (dcbs k d).
Proof. apply fn_lookup_insert. Qed.

Lemma upd_other d f k i : d <> i -> dcbs (upd d f k) i = dcbs k i.
Proof. apply fn_lookup_insert_ne. Qed.

Lemma u_target_share b : period b <> 0 -> u_target b = Done (share b).
Proof. intros. unfold u_target. by rewrite (proj2 (Z.eqb_neq _ _)). Qed.

End Accounting.

(** * Entering and leaving the queue *)

Section Admission.
Context (ts : Z).

Lemma sched_inv_add k k' d : sched_inv k -> d ∉ queue k -> queue k' ≡ₚ d :: queue k ->
  (forall i, i <> d -> dcbs k' i = dcbs k i) -> task_ok (dcbs k' d) ->
  w_be k' = w_be k + be_weight (dcbs k' d) -> n_be k' = n_be k + be_one (dcbs k' d) ->
  u_hrt k' = u_hrt k + hrt_share (dcbs k' d) -> u_srt k' = u_srt k ->
  w_be k' < 2 ^ 32 -> n_be k' < 2 ^ 32 -> u_hrt k' + BETA <= SPECTRUM -> sched_inv k'.
Proof.
  intros [Hnd Hok Hw Hn Hh Hs Hwd Hl] Hd Hq Hm Hdok Ew En Eh Es Hww Hwn Hload.
  assert (forall f, qsum f (dcbs k') (queue k') = f (dcbs k' d) + qsum f (dcbs k) (queue k)) as Hsum.
  { intros f. rewrite Hq. change (qsum f (dcbs k') (d :: queue k))
      with (f (dcbs k' d) + qsum f (dcbs k') (queue k)).
    f_equal. apply qsum_ext. intros i Hi. rewrite Hm; [done|]. intros ->. done. }
  split; rewrite ?Hsum; try (done || lia).
  - rewrite Hq. by constructor.
  - intros i. rewrite Hq. intros [->|Hi]%elem_of_cons; [done|].
    rewrite Hm by (intros ->; done). by apply Hok.
Qed.

(** The dispatcher leaves, the others stay as they are. *)
Lemma sched_inv_drop k k' d : sched_inv k -> d ∈ queue k -> queue k' = queue_unlink d (queue k) ->
  (forall i, i <> d -> dcbs k' i = dcbs k i) ->
  w_be k' = w_be k - be_weight (dcbs k d) -> n_be k' = n_be k - be_one (dcbs k d) ->
  u_hrt k' = u_hrt k - hrt_share (dcbs k d) -> u_srt k' = u_srt k -> sched_inv k'.
Proof.
  intros [Hnd Hok Hw Hn Hh Hs Hwd Hl] Hd Hq Hm Ew En Eh Es.
  pose proof (queue_unlink_perm d (queue k) Hd) as Hp. rewrite <- Hq in Hp.
  assert (d ∉ queue k') as Hni by (rewrite Hp in Hnd; by apply NoDup_cons in Hnd as [? _]).
  assert (forall f, qsum f (dcbs k) (queue k) = f (dcbs k d) + qsum f (dcbs k') (queue k')) as Hsum.
  { intros f. rewrite Hp. change (qsum f (dcbs k) (d :: queue k'))
      with (f (dcbs k d) + qsum f (dcbs k) (queue k')).
    f_equal. apply qsum_ext. intros i Hi. rewrite Hm; [done|]. intros ->. done. }
  rewrite Hsum in Hw, Hn, Hh. pose proof (sums_nonneg (dcbs k d) (Hok d Hd)).
  split; try (done || lia).
  - rewrite Hp in Hnd. by apply NoDup_cons in Hnd as [_ ?].
  - intros i Hi. rewrite Hm by (intros ->; done). apply Hok. rewrite Hp. by right.
Qed.

Lemma sched_load_small k : sched_inv k -> 0 <= u_hrt k <= 900000 /\ u_srt k = 0.
Proof.
  intros [_ Hok _ _ Hh Hs _ Hl]. split; [|done]. change (u_hrt k + 100000 <= 1000000) in Hl.
  rewrite Hh in *. assert (0 <= qsum hrt_share (dcbs k) (queue k)); [|lia].
  apply qsum_nonneg. intros i Hi. apply sums_nonneg, Hok, Hi.
Qed.

Lemma sched_counts_nonneg k : sched_inv k -> 0 <= w_be k /\ 0 <= n_be k.
Proof.
  intros [_ Hok Hw Hn _ _ _ _]. rewrite Hw, Hn.
  split; apply qsum_nonneg; intros i Hi; apply sums_nonneg, Hok, Hi.
Qed.

Definition counted_weight (b : dcb) : Z := if weight b =? 0 then 1 else weight b.

(** A best-effort dispatcher, with the weight it is counted with. *)
Lemma make_runnable_be now d k : sched_inv k -> d ∉ queue k ->
  type (dcbs k d) = TASK_TYPE_BEST_EFFORT -> 0 <= weight (dcbs k d) < 4294 ->
  w_be k + 4294 < 2 ^ 32 -> n_be k + 1 < 2 ^ 32 ->
  let t := u64 ((n_be k + 1) * ts) in
  let b := dcbs k d in
  let b' := Dcb now 0 (last_dispatch b) (wcet b) t t (counted_weight b) (type b) (wakeup_time b) in
  let m := <[d := b']> (dcbs k) in
  exists k', make_runnable ts now d k = Done k' /\ sched_inv k' /\
    (forall i, dcbs k' i = m i) /\ queue k' = queue_place (dcbs k') d (queue k) /\
    w_be k' = w_be k + counted_weight b /\ n_be k' = n_be k + 1 /\ u_hrt k' = u_hrt k /\
    wakeup_queue k' = wakeup_queue k /\ lastdisp k' = lastdisp k /\ dcb_current k' = dcb_current k.
Proof.
  intros Hinv Hd Hty Hwt Hw Hn t b b' m.
  destruct (sched_load_small k Hinv) as [Hu Hsrt]. pose proof (sched_counts_nonneg k Hinv) as [Hw0 Hn0].
  unfold make_runnable, in_queue. rewrite bool_decide_eq_false_2 by done. rewrite Hty.
  set (k1 := if weight (dcbs k d) =? 0 then upd d (with_weight 1) k else k).
  assert (weight (dcbs k1 d) = counted_weight b) as Hcw.
  { unfold k1, counted_weight. fold b. destruct (weight b =? 0); [by rewrite upd_at|done]. }
  assert (counted_weight b < 4294 /\ 0 < counted_weight b) as [Hc1 Hc2].
  { unfold counted_weight. fold b in Hwt. destruct (Z.eqb_spec (weight b) 0); lia. }
  assert (w_be k1 = w_be k /\ n_be k1 = n_be k /\ u_hrt k1 = u_hrt k /\ u_srt k1 = u_srt k
    /\ queue k1 = queue k) as (Ew & En & Eh & Es & Eq) by (unfold k1; by destruct (_ =? 0)).
  assert (wakeup_queue k1 = wakeup_queue k /\ lastdisp k1 = lastdisp k /\ dcb_current k1 = dcb_current k)
    as (Ewk & Eld & Edc) by (unfold k1; by destruct (_ =? 0)).
  step. rewrite Hcw, Ew, En, (u32_small (w_be k + _)), (u32_small (n_be k + 1)) by lia.
  set (k2 := set_be _ _ k1). cbn [n_be set_be k2]. fold t.
  set (k3 := upd d _ k2).
  assert (u_hrt k3 = u_hrt k) as -> by done || (unfold k3; cbn; done).
  assert (u_srt k3 = 0) as -> by (transitivity (u_srt k1); [done|by rewrite Es]).
  change BETA with 100000. change SPECTRUM with 1000000. rewrite u32_small by lia. zdecide.
  assert (release_time (dcbs k3 d) = now) as -> by (unfold k3; by rewrite upd_at).
  rewrite (proj2 (Z.ltb_ge now now)) by lia.
  set (k' := queue_insert d (upd d (with_etime 0) k3)). exists k'.
  assert (forall i, dcbs k' i = m i) as Hm.
  { intros i. change (dcbs k' i) with (dcbs (upd d (with_etime 0) k3) i).
    destruct (decide (d = i)) as [<-|Hne].
    - transitivity b'; [|symmetry; apply fn_lookup_insert]. unfold k3. rewrite !upd_at.
      change (dcbs k2) with (dcbs k1). unfold b', counted_weight, k1. fold b.
      destruct (weight b =? 0); [by rewrite upd_at|done].
    - transitivity (dcbs k i); [|symmetry; by apply fn_lookup_insert_ne].
      unfold k3. rewrite !upd_other by done. change (dcbs k2) with (dcbs k1). unfold k1.
      destruct (_ =? 0); [by rewrite upd_other|done]. }
  assert (queue k' = queue_place (dcbs k') d (queue k)) as Hqk.
  { change (queue k') with (queue_place (dcbs k') d (queue k3)). f_equal. by rewrite <- Eq. }
  assert (dcbs k' d = b') as Hdb by (rewrite Hm; apply fn_lookup_insert).
  assert (be_weight b' = counted_weight b /\ be_one b' = 1 /\ hrt_share b' = 0) as (Hb1 & Hb2 & Hb3).
  { unfold be_weight, be_one, hrt_share, is_type, b'. cbn. fold b in Hty. by rewrite Hty. }
  split_and!; auto.
  - apply (sched_inv_add k _ d); auto; rewrite ?Hdb, ?Hb1, ?Hb2, ?Hb3; try done.
    + rewrite Hqk. apply queue_place_perm.
    + intros i Hi. rewrite Hm. by apply fn_lookup_insert_ne.
    + unfold task_ok, b'. cbn. fold b in Hty. rewrite Hty. lia.
    + change (u_hrt k1 = u_hrt k + 0). lia.
    + change (w_be k + counted_weight b < 2 ^ 32). lia.
    + change (u_hrt k1 + BETA <= SPECTRUM). rewrite Eh. apply Hinv.
Qed.

(** A hard real-time dispatcher that fits. *)
Lemma make_runnable_hrt now d k : sched_inv k -> d ∉ queue k ->
  type (dcbs k d) = TASK_TYPE_HARD_REALTIME -> period (dcbs k d) <> 0 ->
  now <= release_time (dcbs k d) -> u_hrt k + share (dcbs k d) + BETA <= SPECTRUM ->
  exists k', make_runnable ts now d k = Done k' /\ sched_inv k' /\
    (forall i, i <> d -> dcbs k' i = dcbs k i) /\ dcbs k' d = with_etime 0 (dcbs k d) /\
    queue k' = queue_place (dcbs k') d (queue k) /\
    w_be k' = w_be k /\ n_be k' = n_be k /\ u_hrt k' = u_hrt k + share (dcbs k d).
Proof.
  intros Hinv Hd Hty Hp Hrel Hload.
  destruct (sched_load_small k Hinv) as [Hu Hsrt]. pose proof (share_range (dcbs k d)) as Hsh.
  change BETA with 100000 in *. change SPECTRUM with 1000000 in *.
  unfold make_runnable, in_queue. rewrite bool_decide_eq_false_2 by done. rewrite Hty.
  rewrite u_target_share by done. step. rewrite (u32_small (u_hrt k + _)) by lia.
  set (k1 := set_u_hrt _ k). cbn [u_hrt u_srt set_u_hrt k1]. rewrite Hsrt.
  change BETA with 100000. change SPECTRUM with 1000000. rewrite u32_small by lia. zdecide.
  change (dcbs k1) with (dcbs k). rewrite (proj2 (Z.ltb_ge _ _)) by lia.
  set (k' := queue_insert d (upd d (with_etime 0) k1)). exists k'.
  assert (forall i, i <> d -> dcbs k' i = dcbs k i) as Hm by (intros i Hi; by apply fn_lookup_insert_ne).
  assert (dcbs k' d = with_etime 0 (dcbs k d)) as Hdb by apply fn_lookup_insert.
  split_and!; auto.
  apply (sched_inv_add k _ d); auto; rewrite ?Hdb; try done.
  - apply queue_place_perm.
  - unfold task_ok. cbn. by rewrite Hty.
  - transitivity (w_be k); [done|]. unfold be_weight, is_type. cbn. rewrite Hty. cbn. lia.
  - transitivity (n_be k); [done|]. unfold be_one, is_type. cbn. rewrite Hty. cbn. lia.
  - unfold hrt_share, is_type. cbn. by rewrite Hty.
  - apply Hinv.
  - apply Hinv.
Qed.

Lemma scheduler_remove_spec d k : sched_inv k -> d ∈ queue k ->
  exists k', scheduler_remove d k = Done k' /\ sched_inv k' /\ queue k' = queue_unlink d (queue k) /\
    dcbs k' = dcbs k /\ w_be k' = w_be k - be_weight (dcbs k d) /\ n_be k' = n_be k - be_one (dcbs k d) /\
    u_hrt k' = u_hrt k - hrt_share (dcbs k d) /\ wakeup_queue k' = wakeup_queue k.
Proof.
  intros Hinv Hd. pose proof Hinv as [_ Hok Hw Hn Hh _ [Hww Hwn] _]. pose proof (Hok d Hd) as Hdok.
  assert (be_weight (dcbs k d) <= w_be k /\ be_one (dcbs k d) <= n_be k /\ hrt_share (dcbs k d) <= u_hrt k)
    as (Hle1 & Hle2 & Hle3).
  { rewrite Hw, Hn, Hh. split_and!; apply (qsum_elem _ (dcbs k)); auto; intros i Hi; apply sums_nonneg, Hok, Hi. }
  destruct (sched_load_small k Hinv) as [Hu _].
  unfold scheduler_remove, queue_remove, in_queue. rewrite bool_decide_eq_true_2 by done. cbn [negb].
  set (k1 := set_queue _ k). change (dcbs k1 d) with (dcbs k d).
  unfold be_weight, be_one, hrt_share, is_type in *. unfold task_ok in Hdok.
  destruct (type (dcbs k d)) eqn:Hty; [| done |]; cbn in Hle1, Hle2, Hle3 |- *.
  - rewrite !u32_small by lia.
    set (k' := set_be _ _ k1). exists k'.
    assert (sched_inv k'); [|split_and!; try (done || cbn; lia)].
    apply (sched_inv_drop k k' d); try done; unfold be_weight, be_one, hrt_share, is_type; rewrite Hty; cbn; lia.
  - rewrite u_target_share by done. step. pose proof (share_range (dcbs k d)). rewrite u32_small by lia.
    set (k' := set_u_hrt _ k1). exists k'.
    assert (sched_inv k'); [|split_and!; try (done || cbn; lia)].
    apply (sched_inv_drop k k' d); try done; unfold be_weight, be_one, hrt_share, is_type; rewrite Hty; cbn; lia.
Qed.

End Admission.

(** * Selection *)

Section Select.
Context (ts now : Z).

(** [k'] differs from [k] at most in the dispatcher [d]. *)
Definition frame (d : Z) (k k' : kcb) : Prop :=
  (forall i, d <> i -> dcbs k' i = dcbs k i) /\ queue k' = queue k /\
  w_be k' = w_be k /\ n_be k' = n_be k /\ u_hrt k' = u_hrt k /\ u_srt k' = u_srt k /\
  lastdisp k' = lastdisp k /\ dcb_current k' = dcb_current k /\ wakeup_queue k' = wakeup_queue k.

Lemma frame_refl d k : frame d k k.
Proof. done. Qed.

Lemma frame_trans d k1 k2 k3 : frame d k1 k2 -> frame d k2 k3 -> frame d k1 k3.
Proof.
  intros (Hm & ? & ? & ? & ? & ? & ? & ? & ?) (Hm' & ? & ? & ? & ? & ? & ? & ? & ?).
  split_and!; try congruence. intros i Hi. by rewrite Hm', Hm.
Qed.

Lemma frame_upd d f k : frame d k (upd d f k).
Proof. split_and!; try done. intros i Hi. by apply upd_other. Qed.

Lemma frame_inv d k k' : frame d k k' -> same_account (dcbs k d) (dcbs k' d) -> sched_inv k -> sched_inv k'.
Proof.
  intros (Hm & Hq & ? & ? & ? & ? & _) Hd Hinv. apply (sched_inv_same k); try done; [by rewrite Hq|].
  intros i. destruct (decide (d = i)) as [<-|Hi]; [done|]. by rewrite Hm.
Qed.

(** The share and the budget of a best-effort dispatcher. *)
Definition be_share (k : kcb) (b : dcb) : Z := (SPECTRUM - u_hrt k) * weight b / w_be k.
Definition be_budget (k : kcb) (b : dcb) : Z := (n_be k * ts * be_share k b + 500000) / SPECTRUM.

(** A hard real-time dispatcher with a budget, that has not missed its
    deadline and whose times do not overflow. *)
Definition hrt_ready (b : dcb) : Prop :=
  0 < wcet b /\ 0 <= period b /\ 0 <= rel_deadline b /\
  release_time b + rel_deadline b + (if etime b =? 0 then 0 else period b) < 2 ^ 64 /\
  (release_time b <= now -> now <= release_time b + rel_deadline b).

Record ready (k : kcb) : Prop := {
  rd_time : 0 <= now /\ 0 < ts /\ now + n_be k * ts < 2 ^ 64 /\ n_be k * ts * SPECTRUM + 500000 < 2 ^ 64;
  rd_task : forall i, i ∈ queue k -> 0 <= etime (dcbs k i) /\ 0 <= release_time (dcbs k i);
  rd_be : forall i, i ∈ queue k -> type (dcbs k i) = TASK_TYPE_BEST_EFFORT ->
            500000 <= n_be k * ts * be_share k (dcbs k i);
  rd_hrt : forall i, i ∈ queue k -> type (dcbs k i) = TASK_TYPE_HARD_REALTIME -> hrt_ready (dcbs k i)
}.

Lemma be_bounds k d : sched_inv k -> d ∈ queue k -> type (dcbs k d) = TASK_TYPE_BEST_EFFORT ->
  0 < weight (dcbs k d) <= w_be k /\ weight (dcbs k d) < 4294 /\ 1 <= n_be k /\
  0 <= be_share k (dcbs k d) <= SPECTRUM - u_hrt k.
Proof.
  intros Hinv Hd Hty. pose proof Hinv as [_ Hok Hw Hn _ _ _ _]. pose proof (Hok d Hd) as Hdok.
  unfold task_ok in Hdok. rewrite Hty in Hdok.
  assert (be_weight (dcbs k d) <= w_be k /\ be_one (dcbs k d) <= n_be k) as [Hle1 Hle2].
  { rewrite Hw, Hn. split; apply (qsum_elem _ (dcbs k)); auto; intros i Hi; apply sums_nonneg, Hok, Hi. }
  unfold be_weight, be_one, is_type in Hle1, Hle2. rewrite Hty in Hle1, Hle2.
  destruct (sched_load_small k Hinv) as [Hu _]. unfold be_share. change SPECTRUM with 1000000.
  split_and!; try lia.
  - apply Z.div_pos; nia.
  - apply Z.div_le_upper_bound; nia.
Qed.

Lemma best_effort_spec d k : sched_inv k -> ready k -> d ∈ queue k ->
  type (dcbs k d) = TASK_TYPE_BEST_EFFORT ->
  exists k', set_best_effort_wcet ts d k = Done k' /\ frame d k k' /\
    let b := dcbs k d in let t := n_be k * ts in
    dcbs k' d = Dcb (release_time b) (etime b) (last_dispatch b) (be_budget k b) t t (weight b) (type b)
                    (wakeup_time b).
Proof.
  intros Hinv [(Hnow & Hts & Hov1 & Hov2) _ _ _] Hd Hty.
  destruct (be_bounds k d Hinv Hd Hty) as (Hw1 & Hw2 & Hn & Hsh).
  destruct (sched_load_small k Hinv) as [Hu Hs].
  set (b := dcbs k d) in *. change SPECTRUM with 1000000 in *.
  assert (0 <= n_be k * ts) by nia.
  assert (n_be k * ts * be_share k b <= n_be k * ts * 1000000) by (apply Z.mul_le_mono_nonneg_l; lia).
  assert (0 <= n_be k * ts * be_share k b) by (apply Z.mul_nonneg_nonneg; lia).
  unfold set_best_effort_wcet, do_resource_allocation. fold b. rewrite Hty.
  rewrite (proj2 (Z.ltb_lt 0 (w_be k))), (proj2 (Z.ltb_lt 0 (n_be k))) by lia.
  rewrite (assert_true (true && true)) by done. step.
  rewrite assert_true by (apply Z.ltb_lt; change (UINT_MAX / SPECTRUM) with 4294; lia). step.
  change BETA with 100000. change SPECTRUM with 1000000. rewrite Hs, Z.sub_0_r.
  rewrite (u32_small (1000000 - u_hrt k)), Z.max_r by lia.
  rewrite (u32_small ((1000000 - u_hrt k) * weight b)) by nia.
  change ((1000000 - u_hrt k) * weight b / w_be k) with (be_share k b).
  rewrite (u64_small (n_be k * ts)) by nia.
  set (k1 := upd d _ k). cbn [n_be u_hrt u_srt upd set_dcbs k1].
  change (n_be k1) with (n_be k). change (u_hrt k1) with (u_hrt k). change (u_srt k1) with (u_srt k).
  rewrite Hs, (u64_small (n_be k * ts)), (u64_small (n_be k * ts * _)), (u32_small (u_hrt k + 0 + _)) by nia.
  rewrite assert_true by (apply Z.leb_le; lia). step.
  eexists. split; [done|]. split.
  { eapply frame_trans; [apply frame_upd|]. apply frame_upd. }
  cbv zeta. rewrite upd_at. unfold k1. rewrite upd_at. unfold with_wcet, be_budget. fold b. cbn.
  change (1000000 / 2) with 500000. change SPECTRUM with 1000000.
  rewrite (u64_small (_ + 500000)), Hty by lia. done.
Qed.

(** The statement of [schedule_loop] that allocates resources. *)
Definition allocate (d : Z) (k : kcb) : outcome kcb :=
  if is_type TASK_TYPE_BEST_EFFORT (dcbs k d) then
    k ← set_best_effort_wcet ts d k;
    Done (if deadline (dcbs k d) <? now then upd d (with_release now) k else k)
  else Done k.

Lemma frame_ready d k k' : frame d k k' -> same_account (dcbs k d) (dcbs k' d) -> ready k ->
  etime (dcbs k' d) = etime (dcbs k d) -> 0 <= release_time (dcbs k' d) ->
  (type (dcbs k d) = TASK_TYPE_HARD_REALTIME -> hrt_ready (dcbs k' d)) -> ready k'.
Proof.
  intros (Hm & Hq & Hw & Hn & Hu & _ & _) (Ht & Hwt & _) [Htm Htk Hbe Hh] He Hr Hhr.
  assert (forall i, be_share k' (dcbs k' i) = be_share k (dcbs k i)) as Hsh.
  { intros i. unfold be_share. rewrite Hu, Hw. destruct (decide (d = i)) as [<-|Hi]; [by rewrite Hwt|].
    by rewrite Hm. }
  split; rewrite ?Hn, ?Hq; try done; intros i Hi; destruct (decide (d = i)) as [<-|Hne];
    rewrite ?Hsh, ?(Hm i) by done; auto.
  - rewrite He. split; [|done]. by apply Htk.
  - rewrite Ht. auto.
  - rewrite Ht. auto.
Qed.

Lemma allocate_spec d k : sched_inv k -> ready k -> d ∈ queue k -> release_time (dcbs k d) <= now ->
  exists k', allocate d k = Done k' /\ frame d k k' /\ same_account (dcbs k d) (dcbs k' d) /\ ready k' /\
    etime (dcbs k' d) = etime (dcbs k d) /\ release_time (dcbs k' d) <= now /\
    now <= deadline (dcbs k' d) /\ 0 < wcet (dcbs k' d) /\
    (type (dcbs k d) = TASK_TYPE_HARD_REALTIME -> k' = k).
Proof.
  intros Hinv Hrd Hd Hrel. pose proof Hrd as [(Hnow & Hts & Hov1 & Hov2) Htk Hbe Hh].
  pose proof (Htk d Hd) as [Het Hr0]. pose proof Hinv as [_ Hok _ _ _ _ _ _]. pose proof (Hok d Hd) as Hdok.
  unfold allocate, is_type, task_ok in *. destruct (type (dcbs k d)) eqn:Hty; [|done|].
  - destruct (best_effort_spec d k Hinv Hrd Hd Hty) as (k1 & -> & Hf1 & Hb1). step. cbv zeta in Hb1.
    destruct (be_bounds k d Hinv Hd Hty) as (_ & _ & Hn & _). specialize (Hbe d Hd Hty).
    assert (0 < be_budget k (dcbs k d)) as Hbud.
    { unfold be_budget. change SPECTRUM with 1000000. apply Z.div_str_pos. lia. }
    assert (0 <= n_be k * ts) by nia.
    assert (deadline (dcbs k1 d) = release_time (dcbs k d) + n_be k * ts) as Hdl.
    { rewrite Hb1. unfold deadline. cbn. apply u64_small. lia. }
    set (k2 := if deadline (dcbs k1 d) <? now then upd d (with_release now) k1 else k1).
    assert (frame d k k2) as Hf2.
    { unfold k2. destruct (_ <? now); [|done]. eapply frame_trans; [done|apply frame_upd]. }
    assert (exists r, dcbs k2 d = with_release r (dcbs k1 d) /\ 0 <= r <= now /\ now <= r + n_be k * ts)
      as (r & Hb2 & Hr1 & Hr2).
    { unfold k2. destruct (Z.ltb_spec (deadline (dcbs k1 d)) now).
      - exists now. rewrite upd_at. split_and!; (done || lia).
      - exists (release_time (dcbs k d)). rewrite Hb1. split_and!; (done || lia). }
    assert (same_account (dcbs k d) (dcbs k2 d)) as Hacc.
    { rewrite Hb2, Hb1. split_and!; try done. intros Hc. congruence. }
    exists k2. rewrite Hb2, Hb1 in *. cbn [with_release etime release_time wcet] in *. split_and!; try (done || lia).
    + apply (frame_ready d k); rewrite ?Hb2; try (done || cbn; lia). intros Hc. congruence.
    + unfold deadline. cbn. rewrite u64_small by lia. lia.
  - exists k. destruct (Hh d Hd Hty) as (Hwc & Hp0 & Hd0 & Hov & Hmet).
    assert (0 <= (if etime (dcbs k d) =? 0 then 0 else period (dcbs k d))) by (by destruct (_ =? 0)).
    split_and!; try done. unfold deadline. rewrite u64_small by lia. by apply Hmet.
Qed.

(** The release time of a dispatcher that used up its budget. *)
Definition next_release (b : dcb) : Z :=
  if is_type TASK_TYPE_BEST_EFFORT b then now
  else if release_time b <? now then u64 (release_time b + period b) else release_time b.

Lemma requeue_effect d k : d ∈ queue k ->
  let k' := requeue now d k in
  queue k' = queue_place (dcbs k') d (queue_unlink d (queue k)) /\
  (forall i, d <> i -> dcbs k' i = dcbs k i) /\
  dcbs k' d = with_etime 0 (with_release (next_release (dcbs k d)) (dcbs k d)) /\
  w_be k' = w_be k /\ n_be k' = n_be k /\ u_hrt k' = u_hrt k /\ u_srt k' = u_srt k /\
  dcb_current k' = dcb_current k /\ lastdisp k' = None /\ wakeup_queue k' = wakeup_queue k.
Proof.
  intros Hd. unfold requeue, queue_remove, in_queue. rewrite bool_decide_eq_true_2 by done. cbn [negb].
  set (k1 := set_queue _ k). change (dcbs k1) with (dcbs k).
  set (k2 := if negb _ then _ else _).
  assert (frame d k1 k2) as (Hm & Hq & ? & ? & ? & ? & ? & ? & ?).
  { unfold k2. repeat case_match; (apply frame_upd || apply frame_refl). }
  assert (dcbs k2 d = with_release (next_release (dcbs k d)) (dcbs k d)) as Hd2.
  { unfold k2, next_release. destruct (is_type TASK_TYPE_BEST_EFFORT (dcbs k d)); cbn [negb]; [by rewrite upd_at|].
    destruct (release_time (dcbs k d) <? now); [by rewrite upd_at|]. change (dcbs k1 d) with (dcbs k d).
    by destruct (dcbs k d). }
  split_and!; try done.
  - transitivity (queue_place (dcbs (upd d (with_etime 0) k2)) d (queue k2)); [done|]. by rewrite Hq.
  - intros i Hi. cbn [dcbs set_lastdisp queue_insert set_queue]. rewrite upd_other by done. by rewrite Hm.
  - cbn [dcbs set_lastdisp queue_insert set_queue]. by rewrite upd_at, Hd2.
Qed.

Lemma requeue_perm d k : d ∈ queue k -> queue (requeue now d k) ≡ₚ queue k.
Proof.
  intros Hd. destruct (requeue_effect d k Hd) as (-> & _).
  rewrite queue_place_perm. symmetry. by apply queue_unlink_perm.
Qed.

(** The number of dispatchers that have used some of their budget. *)
Definition started (k : kcb) : Z := qsum (fun b => if etime b =? 0 then 0 else 1) (dcbs k) (queue k).

Lemma requeue_spec d k : sched_inv k -> ready k -> d ∈ queue k -> 0 < etime (dcbs k d) ->
  let k' := requeue now d k in
  sched_inv k' /\ ready k' /\ started k' = started k - 1.
Proof.
  intros Hinv Hrd Hd Het k'. pose proof Hrd as [(Hnow & Hts & Hov1 & Hov2) Htk Hbe Hh].
  pose proof (Htk d Hd) as [_ Hr0]. pose proof Hinv as [Hnd Hok _ _ _ _ _ _]. pose proof (Hok d Hd) as Hdok.
  destruct (requeue_effect d k Hd) as (_ & Hm & Hb & Hw & Hn & Hu & Hs & _). fold k' in Hm, Hb, Hw, Hn, Hu, Hs.
  pose proof (requeue_perm d k Hd) as Hq. fold k' in Hq.
  assert (same_account (dcbs k d) (dcbs k' d)) as Hacc by by rewrite Hb.
  assert (forall i, same_account (dcbs k i) (dcbs k' i)) as Hall.
  { intros i. destruct (decide (d = i)) as [<-|Hi]; [done|]. by rewrite Hm. }
  split_and!.
  - by apply (sched_inv_same k).
  - assert (forall i, be_share k' (dcbs k' i) = be_share k (dcbs k i)) as Hsh.
    { intros i. unfold be_share. by rewrite Hu, Hw, (proj1 (proj2 (Hall i))). }
    split; [by rewrite Hn| | |]; intros i Hi; rewrite Hq in Hi.
    + destruct (decide (d = i)) as [<-|Hne]; [|rewrite Hm by done; by apply Htk].
      rewrite Hb. cbn. split; [done|]. unfold next_release. repeat case_match; try done. apply u64_range.
    + intros Hty. rewrite Hn, Hsh. apply Hbe; [done|]. by rewrite <- (proj1 (Hall i)).
    + intros Hty. destruct (decide (d = i)) as [<-|Hne]; [|rewrite Hm in * by done; by apply Hh].
      assert (type (dcbs k d) = TASK_TYPE_HARD_REALTIME) as Hty' by by rewrite <- (proj1 (Hall d)).
      destruct (Hh d Hd Hty') as (Hwc & Hp0 & Hd0 & Hov & Hmet).
      rewrite (proj2 (Z.eqb_neq (etime _) 0)) in Hov by lia.
      rewrite Hb. unfold hrt_ready, next_release, is_type. rewrite Hty'. cbn.
      destruct (Z.ltb_spec (release_time (dcbs k d)) now).
      * rewrite u64_small by lia. split_and!; try (done || lia).
      * split_and!; try (done || lia).
  - unfold started. rewrite Hq, (queue_unlink_perm d (queue k) Hd). unfold qsum. cbn [foldr].
    rewrite Hb. cbn [etime with_etime]. rewrite (proj2 (Z.eqb_neq (etime _) 0)) by lia. cbn [Z.eqb].
    assert (d ∉ queue_unlink d (queue k)) as Hni.
    { rewrite (queue_unlink_perm d (queue k) Hd) in Hnd. by apply NoDup_cons in Hnd as [? _]. }
    pose proof (qsum_ext (fun b => if etime b =? 0 then 0 else 1) (dcbs k') (dcbs k) (queue_unlink d (queue k))) as He.
    unfold qsum in He. rewrite He; [lia|]. intros i Hi. rewrite Hm; [done|]. intros ->. done.
Qed.

Definition deadline_le (m : Z -> dcb) (i j : Z) : Prop := deadline (m i) <= deadline (m j).
Definition edf_sorted (m : Z -> dcb) (l : list Z) : Prop := StronglySorted (deadline_le m) l.

(** Queues of hard real-time dispatchers are sorted by deadline. *)
Definition edf (k : kcb) : Prop :=
  (forall i, i ∈ queue k -> type (dcbs k i) = TASK_TYPE_HARD_REALTIME) -> edf_sorted (dcbs k) (queue k).

Lemma edf_place m d l : type (m d) <> TASK_TYPE_BEST_EFFORT -> edf_sorted m l -> edf_sorted m (queue_place m d l).
Proof.
  intros Hty Hs. induction Hs as [|i l Hs IH Hi]; cbn [queue_place]; [repeat constructor|].
  unfold is_type. destruct (type (m d)) eqn:E; [done| |]; cbn [andb];
    (destruct (Z.leb_spec (deadline (m i)) (deadline (m d))) as [Hle|Hgt];
     [constructor; [done|]; rewrite queue_place_perm; by constructor|]);
    (constructor; [by constructor|]; constructor; [unfold deadline_le; lia|]);
    (eapply Forall_impl; [exact Hi|]; unfold deadline_le; intros; lia).
Qed.

Lemma edf_ext m m' l : (forall i, i ∈ l -> deadline (m' i) = deadline (m i)) -> edf_sorted m l -> edf_sorted m' l.
Proof.
  intros He Hs. induction Hs as [|i l Hs IH Hi]; [constructor|]. constructor.
  - apply IH. intros j Hj. apply He. by right.
  - rewrite Forall_forall in *. intros j Hj. unfold deadline_le.
    rewrite (He i), (He j) by (by constructor). by apply Hi.
Qed.

Lemma edf_requeue d k : NoDup (queue k) -> d ∈ queue k -> edf k -> edf (requeue now d k).
Proof.
  intros Hnd Hd Hedf Hall. pose proof (requeue_perm d k Hd) as Hp.
  destruct (requeue_effect d k Hd) as (Hq & Hm & Hb & _). set (k' := requeue now d k) in *.
  assert (forall i, type (dcbs k' i) = type (dcbs k i)) as Hty.
  { intros i. destruct (decide (d = i)) as [<-|Hi]; [by rewrite Hb|by rewrite Hm]. }
  rewrite Hq. apply edf_place.
  - rewrite Hall; [done|]. by rewrite Hp.
  - apply (edf_ext (dcbs k)).
    + intros i Hi. rewrite Hm; [done|]. intros ->.
      rewrite (queue_unlink_perm i (queue k) Hd) in Hnd. by apply NoDup_cons in Hnd as [? _].
    + apply sorted_unlink, Hedf. intros i Hi. rewrite <- Hty. apply Hall. by rewrite Hp.
Qed.

Lemma first_released_some k d : first_released now k = Some d ->
  d ∈ queue k /\ release_time (dcbs k d) <= now.
Proof.
  intros [Hin Hr]%find_some. apply list_elem_of_In in Hin. split; [done|].
  apply negb_true_iff, Z.ltb_ge in Hr. done.
Qed.

(** The first released dispatcher stays first when only its own fields
    change and it stays released. *)
Lemma first_released_frame d k k' : queue k' = queue k -> (forall i, d <> i -> dcbs k' i = dcbs k i) ->
  release_time (dcbs k' d) <= now -> first_released now k = Some d -> first_released now k' = Some d.
Proof.
  unfold first_released. intros -> Hm Hr. induction (queue k) as [|i l IH]; [done|]. cbn [find].
  destruct (decide (d = i)) as [<-|Hne].
  - intros _. by rewrite (proj2 (Z.ltb_ge _ _) Hr).
  - rewrite Hm by done. destruct (negb _); [done|apply IH].
Qed.

Definition same_types (k k' : kcb) : Prop := forall i, type (dcbs k' i) = type (dcbs k i).

Lemma frame_types d k k' : frame d k k' -> same_account (dcbs k d) (dcbs k' d) -> same_types k k'.
Proof.
  intros (Hm & _) (Ht & _) i. destruct (decide (d = i)) as [<-|Hi]; [done|]. by rewrite Hm.
Qed.

Lemma requeue_types d k : d ∈ queue k -> same_types k (requeue now d k).
Proof.
  intros Hd i. destruct (requeue_effect d k Hd) as (_ & Hm & Hb & _).
  destruct (decide (d = i)) as [<-|Hi]; [by rewrite Hb|by rewrite Hm].
Qed.

(** What [schedule] answers. *)
Definition answer_ok (k k' : kcb) (r : option Z) : Prop :=
  match first_released now k' with
  | None => r = None
  | Some d => etime (dcbs k' d) < wcet (dcbs k' d) /\
      (r = Some d \/ lastdisp k = Some d /\ exists c, dcb_current k = Some c /\ c ∈ queue k /\ r = Some c)
  end.

Lemma loop_unfold fuel k : schedule_loop ts (S fuel) now k =
  match first_released now k with
  | None => Done (set_lastdisp None k, None)
  | Some d =>
    k ← allocate d k;
    if is_type TASK_TYPE_HARD_REALTIME (dcbs k d) && (deadline (dcbs k d) <? now) then Fault Panicked
    else
      ASSERT now <=? deadline (dcbs k d);
      if etime (dcbs k d) <? wcet (dcbs k d) then
        let k := upd d (with_last now) k in
        match dcb_current k with
        | Some c =>
          if bool_decide (lastdisp k = Some d) && in_queue c k then Done (k, Some c)
          else Done (set_lastdisp (Some d) k, Some d)
        | None => Done (set_lastdisp (Some d) k, Some d)
        end
      else schedule_loop ts fuel now (requeue now d k)
  end.
Proof. done. Qed.

(** The dispatcher is chosen: what [schedule] returns for it. *)
Definition choose (d : Z) (k : kcb) : kcb * option Z :=
  let k := upd d (with_last now) k in
  match dcb_current k with
  | Some c => if bool_decide (lastdisp k = Some d) && in_queue c k then (k, Some c)
              else (set_lastdisp (Some d) k, Some d)
  | None => (set_lastdisp (Some d) k, Some d)
  end.

Lemma choose_dispatch_spec d k k1 : sched_inv k1 -> frame d k k1 -> first_released now k1 = Some d ->
  etime (dcbs k1 d) < wcet (dcbs k1 d) ->
  let '(k', r) := choose d k1 in
  sched_inv k' /\ queue k' = queue k1 /\ same_types k1 k' /\ (edf k1 -> edf k') /\ answer_ok k k' r.
Proof.
  intros Hinv (_ & Hq & _ & _ & _ & _ & Hld & Hdc & _) Hfr Hbud.
  set (k2 := upd d (with_last now) k1).
  assert (forall i, type (dcbs k2 i) = type (dcbs k1 i) /\ deadline (dcbs k2 i) = deadline (dcbs k1 i)) as Hsame.
  { intros i. unfold k2. destruct (decide (d = i)) as [<-|Hi]; [by rewrite upd_at|by rewrite upd_other]. }
  assert (same_types k1 k2) as Htypes by (intros i; apply Hsame).
  assert (sched_inv k2) as Hinv2 by by apply upd_inv.
  assert (forall x, sched_inv (set_lastdisp x k2)) as Hinv3 by (intros x; by apply (sched_inv_same k2)).
  assert (edf k1 -> edf k2) as Hedf2.
  { intros Hedf Hall. apply (edf_ext (dcbs k1)); [intros i _; apply Hsame|]. apply Hedf.
    intros i Hi. rewrite <- (proj1 (Hsame i)). by apply Hall. }
  assert (first_released now k2 = Some d) as Hfr2.
  { apply (first_released_frame d k1); [done| | |done].
    - intros i Hi. by apply upd_other.
    - unfold k2. rewrite upd_at. cbn. by apply first_released_some. }
  assert (etime (dcbs k2 d) < wcet (dcbs k2 d)) as Hbud2 by (unfold k2; by rewrite upd_at).
  unfold choose. fold k2. change (dcb_current k2) with (dcb_current k1). rewrite Hdc.
  unfold answer_ok. destruct (dcb_current k) as [c|] eqn:Ec.
  - destruct (_ && _) eqn:Ecur.
    + apply andb_prop in Ecur as [El%bool_decide_eq_true_1 Ein%bool_decide_eq_true_1].
      split_and!; try done. rewrite Hfr2. split; [done|]. right.
      split; [by rewrite <- Hld|]. exists c. split_and!; try done. by rewrite <- Hq.
    + split_and!; try done. change (first_released now (set_lastdisp (Some d) k2))
        with (first_released now k2). rewrite Hfr2. auto.
  - split_and!; try done. change (first_released now (set_lastdisp (Some d) k2))
      with (first_released now k2). rewrite Hfr2. auto.
Qed.

Lemma allocate_edf d k k' : frame d k k' -> same_account (dcbs k d) (dcbs k' d) -> d ∈ queue k ->
  (type (dcbs k d) = TASK_TYPE_HARD_REALTIME -> k' = k) -> edf k -> edf k'.
Proof.
  intros (_ & Hq & _) (Hty & _) Hd Heq Hedf Hall.
  assert (k' = k) as -> by (apply Heq; rewrite <- Hty; apply Hall; by rewrite Hq). by apply Hedf.
Qed.

Lemma loop_spec fuel : forall k, sched_inv k -> ready k -> started k < Z.of_nat fuel ->
  exists k' r, schedule_loop ts fuel now k = Done (k', r) /\ sched_inv k' /\ queue k' ≡ₚ queue k /\
    same_types k k' /\ (edf k -> edf k') /\ answer_ok k k' r.
Proof.
  induction fuel as [|fuel IH]; intros k Hinv Hrd Hfuel.
  { assert (0 <= started k); [|lia]. apply qsum_nonneg. intros i _. by destruct (_ =? 0). }
  rewrite loop_unfold. destruct (first_released now k) as [d|] eqn:Hfr.
  2:{ exists (set_lastdisp None k), None. split_and!; try done; [by apply (sched_inv_same k)|].
      unfold answer_ok. change (first_released now (set_lastdisp None k)) with (first_released now k).
      by rewrite Hfr. }
  destruct (first_released_some k d Hfr) as [Hd Hrel].
  destruct (allocate_spec d k Hinv Hrd Hd Hrel)
    as (k1 & -> & Hf & Hacc & Hrd1 & Het & Hrel1 & Hdl & Hwc & Hhrt). step.
  pose proof (frame_inv d k k1 Hf Hacc Hinv) as Hinv1. pose proof (frame_types d k k1 Hf Hacc) as Hty1.
  pose proof (allocate_edf d k k1 Hf Hacc Hd Hhrt) as Hedf1.
  pose proof Hf as (Hm1 & Hq1 & _).
  pose proof (first_released_frame d k k1 Hq1 Hm1 Hrel1 Hfr) as Hfr1.
  rewrite (proj2 (Z.ltb_ge _ _) Hdl), andb_false_r. rewrite assert_true by by apply Z.leb_le. step.
  destruct (Z.ltb_spec (etime (dcbs k1 d)) (wcet (dcbs k1 d))) as [Hlt|Hge].
  - pose proof (choose_dispatch_spec d k k1 Hinv1 Hf Hfr1 Hlt) as Hch.
    destruct (choose d k1) as [k' r] eqn:Ech. exists k', r. split.
    { unfold choose in Ech. destruct (dcb_current _); [destruct (_ && _)|]; congruence. }
    rewrite <- Hq1. destruct Hch as (? & -> & Hty' & ? & ?). split_and!; auto. intros i. by rewrite Hty', Hty1.
  - assert (d ∈ queue k1) as Hd1 by by rewrite Hq1.
    destruct (requeue_spec d k1 Hinv1 Hrd1 Hd1 ltac:(lia)) as (Hinv2 & Hrd2 & Hst).
    assert (started k1 = started k) as Hst1.
    { unfold started. rewrite Hq1. apply qsum_ext. intros i _.
      destruct (decide (d = i)) as [<-|Hi]; [by rewrite Het|by rewrite Hm1]. }
    destruct (IH (requeue now d k1)) as (k' & r & E & Hinv' & Hq' & Hty' & Hedf' & Hans); try done.
    { lia. }
    exists k', r. split_and!; try done.
    + by rewrite Hq', (requeue_perm d k1 Hd1), Hq1.
    + intros i. by rewrite Hty', (requeue_types d k1 Hd1), Hty1.
    + intros Hedf. apply Hedf', edf_requeue; [apply Hinv1|done|auto].
    + unfold answer_ok in *. destruct (requeue_effect d k1 Hd1) as (_ & _ & _ & _ & _ & _ & _ & _ & Hnone & _).
      rewrite Hnone in Hans. destruct (first_released now k'); [|done].
      destruct Hans as [? [?|[? _]]]; [auto|done].
Qed.

(** The conditions under which [schedule] is called: time and timeslices do
    not overflow, best-effort dispatchers get at least half a tick, hard
    real-time dispatchers have a budget and have not missed a deadline, and
    time does not run backwards. *)
Record schedulable (k : kcb) : Prop := {
  sb_time : 0 <= now /\ 0 < ts /\ now + n_be k * ts < 2 ^ 64 /\ n_be k * ts * SPECTRUM + 500000 < 2 ^ 64;
  sb_task : forall i, i ∈ queue k -> 0 <= etime (dcbs k i) /\ 0 <= release_time (dcbs k i);
  sb_be : forall i, i ∈ queue k -> type (dcbs k i) = TASK_TYPE_BEST_EFFORT ->
            500000 <= n_be k * ts * be_share k (dcbs k i);
  sb_hrt : forall i, i ∈ queue k -> type (dcbs k i) = TASK_TYPE_HARD_REALTIME ->
            let b := dcbs k i in
            0 < wcet b /\ 0 <= period b /\ 0 <= rel_deadline b /\
            release_time b + rel_deadline b + period b < 2 ^ 64 /\
            (release_time b <= now -> now <= release_time b + rel_deadline b);
  sb_last : forall d, lastdisp k = Some d -> last_dispatch (dcbs k d) <= now
}.

Lemma account_spec k : sched_inv k -> schedulable k ->
  exists k1, account now k = Done k1 /\ sched_inv k1 /\ ready k1 /\ same_types k k1 /\ (edf k -> edf k1) /\ queue k1 = queue k /\
    lastdisp k1 = lastdisp k /\ dcb_current k1 = dcb_current k.
Proof.
  intros Hinv [Htm Htk Hbe Hh Hla].
  assert (exists d k1, account now k = Done k1 /\ frame d k k1 /\
    exists e, dcbs k1 d = with_etime e (dcbs k d) /\ (0 <= etime (dcbs k d) -> 0 <= e))
    as (d & k1 & -> & Hf & e & Hb & He).
  { unfold account. destruct (lastdisp k) as [d|] eqn:El.
    - exists d. rewrite assert_true by (apply Z.leb_le; by apply Hla). step. eexists. split; [done|].
      destruct (_ <=? now).
      + split; [apply frame_upd|]. eexists. rewrite upd_at. split; [done|]. intros _. apply u64_range.
      + split; [done|]. exists (etime (dcbs k d)). by destruct (dcbs k d).
    - exists 0, k. split_and!; try done. exists (etime (dcbs k 0)). by destruct (dcbs k 0). }
  pose proof Hf as (Hm & Hq & Hw & Hn & Hu & Hs & Hl & Hc & _).
  assert (forall i, exists e, dcbs k1 i = with_etime e (dcbs k i) /\ (0 <= etime (dcbs k i) -> 0 <= e)) as Hall.
  { intros i. destruct (decide (d = i)) as [<-|Hi]; [eauto|]. rewrite Hm by done.
    exists (etime (dcbs k i)). by destruct (dcbs k i). }
  exists k1. split_and!; try done.
  - apply (frame_inv d k); [done| |done]. by rewrite Hb.
  - split; [by rewrite Hn| | |]; intros i Hi; rewrite Hq in Hi; destruct (Hall i) as (e' & -> & He').
    + cbn. destruct (Htk i Hi). auto.
    + intros Hty. rewrite Hn. unfold be_share. rewrite Hu, Hw. by apply Hbe.
    + intros Hty. destruct (Hh i Hi Hty) as (? & ? & ? & ? & ?). unfold hrt_ready. cbn.
      split_and!; try done. destruct (_ =? 0); lia.
  - intros i. by destruct (Hall i) as (e' & -> & _).
  - intros Hedf Hty. rewrite Hq. apply (edf_ext (dcbs k)).
    + intros i _. by destruct (Hall i) as (e' & -> & _).
    + apply Hedf. intros i Hi. rewrite <- (Hty i) by by rewrite Hq. by destruct (Hall i) as (e' & -> & _).
Qed.

Lemma started_length k : started k <= Z.of_nat (length (queue k)).
Proof.
  unfold started, qsum. induction (queue k) as [|i l IH]; cbn [foldr length]; [done|].
  destruct (etime _ =? 0); lia.
Qed.

Lemma schedule_spec fuel k : sched_inv k -> schedulable k -> (length (queue k) < fuel)%nat ->
  exists k' r, schedule ts fuel now k = Done (k', r) /\ sched_inv k' /\ queue k' ≡ₚ queue k /\
    same_types k k' /\ (edf k -> edf k') /\ answer_ok k k' r.
Proof.
  intros Hinv Hsb Hfuel. unfold schedule. destruct (sched_load_small k Hinv) as [Hu Hs].
  rewrite Hs. change BETA with 100000. change SPECTRUM with 1000000. rewrite u32_small by lia.
  rewrite assert_true by (apply Z.leb_le; lia). step.
  destruct (account_spec k Hinv Hsb) as (k1 & -> & Hinv1 & Hrd1 & Hty1 & Hedf1 & Hq1 & Hl1 & Hc1). step.
  destruct (loop_spec fuel k1) as (k' & r & E & Hinv' & Hq' & Hty' & Hedf' & Hans); try done.
  { pose proof (started_length k1). rewrite Hq1 in *. lia. }
  exists k', r. rewrite Hq1 in Hq'. split_and!; try done; [intros i; by rewrite Hty', Hty1|auto|].
  unfold answer_ok in *. by rewrite Hl1, Hc1, Hq1 in Hans.
Qed.

End Select.

(** * Wakeups *)

Section Wakeup.
Context (ts now : Z).

Definition wakes_before (m : Z -> dcb) (i j : Z) : Prop := wakeup_time (m i) <= wakeup_time (m j).

(** The wakeup queue is in the order of wakeup times. *)
Definition wake_inv (k : kcb) : Prop :=
  NoDup (wakeup_queue k) /\ StronglySorted (wakes_before (dcbs k)) (wakeup_queue k).

Lemma wake_sorted_ext m m' l : (forall i, i ∈ l -> wakeup_time (m' i) = wakeup_time (m i)) ->
  StronglySorted (wakes_before m) l -> StronglySorted (wakes_before m') l.
Proof.
  intros He Hs. induction Hs as [|i l Hs IH Hi]; [constructor|]. constructor.
  - apply IH. intros j Hj. apply He. by right.
  - rewrite Forall_forall in *. intros j Hj. unfold wakes_before.
    rewrite (He i), (He j) by (by constructor). by apply Hi.
Qed.

Lemma wakeup_place_split m d t l : StronglySorted (wakes_before m) l ->
  exists a b, wakeup_place m d t l = a ++ d :: b /\ l = a ++ b /\
    Forall (fun i => wakeup_time (m i) <= t) a /\ Forall (fun i => t < wakeup_time (m i)) b.
Proof.
  induction 1 as [|i l Hs (a & b & IH & Hl & Ha & Hb) Hi]; [by exists [], []|]. cbn [wakeup_place].
  destruct (Z.ltb_spec t (wakeup_time (m i))) as [Hlt|Hge].
  - exists [], (i :: l). split_and!; try done. constructor; [done|].
    eapply Forall_impl; [exact Hi|]. unfold wakes_before. intros. lia.
  - exists (i :: a), b. rewrite IH, Hl. split_and!; try done. by constructor.
Qed.

Lemma wakeup_remove_queued d k : NoDup (wakeup_queue k) -> d ∈ wakeup_queue k -> wakeup_time (dcbs k d) <> 0 ->
  wakeup_remove d k = Done (set_wakeup_queue (queue_unlink d (wakeup_queue k)) k).
Proof.
  intros Hnd Hd Ht. unfold wakeup_remove. rewrite (proj2 (Z.eqb_neq _ _) Ht). cbn [negb].
  destruct (wakeup_queue k) as [|h l]; [by apply elem_of_nil in Hd|]. cbn [tail head].
  apply NoDup_cons in Hnd as [Hni _]. destruct (decide (d ∈ l)) as [Hin|Hnin].
  - by rewrite bool_decide_eq_true_2.
  - apply elem_of_cons in Hd as [->|?]; [|done]. rewrite bool_decide_eq_false_2 by done.
    rewrite assert_true by by apply bool_decide_eq_true_2. step. cbn [queue_unlink]. by rewrite Z.eqb_refl.
Qed.

(** A dispatcher has a wakeup time exactly while it is queued. *)
Definition wake_status (d : Z) (k : kcb) : Prop := (wakeup_time (dcbs k d) <> 0) <-> (d ∈ wakeup_queue k).

Lemma wakeup_remove_any d k : wake_inv k -> wake_status d k ->
  exists k', wakeup_remove d k = Done k' /\ wakeup_queue k' = queue_unlink d (wakeup_queue k) /\
    dcbs k' = dcbs k /\ (d ∉ wakeup_queue k') /\ k' = set_wakeup_queue (wakeup_queue k') k.
Proof.
  intros [Hnd Hs] Hst. destruct (decide (d ∈ wakeup_queue k)) as [Hin|Hnin].
  - rewrite wakeup_remove_queued by (try done; by apply Hst). eexists. split; [done|]. split_and!; try done.
    cbn [wakeup_queue set_wakeup_queue]. rewrite (queue_unlink_perm d (wakeup_queue k) Hin) in Hnd.
    by apply NoDup_cons in Hnd as [? _].
  - exists k. rewrite (queue_unlink_notin d (wakeup_queue k) Hnin).
    unfold wakeup_remove. rewrite (proj2 (Z.eqb_eq (wakeup_time (dcbs k d)) 0)).
    + split_and!; try done. by destruct k.
    + destruct (decide (wakeup_time (dcbs k d) = 0)) as [|Hne]; [done|]. by apply Hst in Hne.
Qed.

Lemma filter_same (P Q : Z -> Prop) `{!forall i, Decision (P i), !forall i, Decision (Q i)} (l : list Z) :
  (forall i, i ∈ l -> P i <-> Q i) -> filter P l = filter Q l.
Proof.
  induction l as [|i l IH]; intros Hpq; [done|]. specialize (IH ltac:(intros j Hj; apply Hpq; by right)).
  specialize (Hpq i ltac:(by left)). destruct (decide (P i)).
  - rewrite !filter_cons_True by tauto. by rewrite IH.
  - rewrite !filter_cons_False by tauto. done.
Qed.

Lemma filter_whole (P : Z -> Prop) `{!forall i, Decision (P i)} (l : list Z) : Forall P l -> filter P l = l.
Proof. induction 1; [done|]. rewrite filter_cons_True by done. by f_equal. Qed.

Lemma schedule_now_effect d k : let k' := schedule_now now d k in
  frame d k k' /\ same_account (dcbs k d) (dcbs k' d) /\ wakeup_time (dcbs k' d) = wakeup_time (dcbs k d).
Proof.
  unfold schedule_now. destruct (now <=? release_time (dcbs k d)).
  - split_and!; [eapply frame_trans; apply frame_upd| |]; by rewrite !upd_at.
  - split_and!; [apply frame_upd| |]; by rewrite !upd_at.
Qed.

(** One dispatcher is woken. *)
Lemma wake_one d k : sched_inv k -> type (dcbs k d) = TASK_TYPE_BEST_EFFORT -> 0 <= weight (dcbs k d) < 4294 ->
  w_be k + 4294 < 2 ^ 32 -> n_be k + 1 < 2 ^ 32 ->
  exists k1, make_runnable ts now d (upd d (with_wakeup 0) k) = Done k1 /\
    let k' := schedule_now now d k1 in
    sched_inv k' /\ d ∈ queue k' /\ (forall i, i ∈ queue k -> i ∈ queue k') /\
    (forall i, d <> i -> dcbs k' i = dcbs k i) /\ wakeup_time (dcbs k' d) = 0 /\
    w_be k' <= w_be k + 4294 /\ n_be k' <= n_be k + 1.
Proof.
  intros Hinv Hty Hwt Hw Hn. set (k0 := upd d (with_wakeup 0) k).
  assert (sched_inv k0) as Hinv0 by (by apply upd_inv).
  assert (dcbs k0 d = with_wakeup 0 (dcbs k d)) as Hb0 by apply upd_at.
  assert (forall i, d <> i -> dcbs k0 i = dcbs k i) as Hm0 by (intros; by apply upd_other).
  assert (exists k1, make_runnable ts now d k0 = Done k1 /\ sched_inv k1 /\ d ∈ queue k1 /\
    (forall i, i ∈ queue k -> i ∈ queue k1) /\ (forall i, d <> i -> dcbs k1 i = dcbs k i) /\
    wakeup_time (dcbs k1 d) = 0 /\ w_be k1 <= w_be k + 4294 /\ n_be k1 <= n_be k + 1)
    as (k1 & Hrun & Hinv1 & Hd1 & Hq1 & Hm1 & Hb1 & Hw1 & Hn1).
  { destruct (decide (d ∈ queue k)) as [Hin|Hnin].
    - exists k0. split; [unfold make_runnable, in_queue; by rewrite bool_decide_eq_true_2|].
      rewrite Hb0. change (w_be k0) with (w_be k). change (n_be k0) with (n_be k). split_and!; try (done || lia).
    - destruct (make_runnable_be ts now d k0) as (k1 & ? & ? & Hm & Hq & Hw' & Hn' & _);
        rewrite ?Hb0; try done.
      exists k1. assert (counted_weight (dcbs k0 d) <= 4294) as Hcw.
      { unfold counted_weight. rewrite Hb0. cbn. destruct (_ =? 0); lia. }
      change (w_be k0) with (w_be k) in *. change (n_be k0) with (n_be k) in *.
      assert (queue k1 ≡ₚ d :: queue k) as Hp by (rewrite Hq; apply queue_place_perm).
      split_and!; try (done || lia).
      + rewrite Hp. by left.
      + intros i Hi. rewrite Hp. by right.
      + intros i Hi. rewrite Hm, fn_lookup_insert_ne by done. by apply Hm0.
      + rewrite Hm, fn_lookup_insert. transitivity (wakeup_time (dcbs k0 d)); [done|by rewrite Hb0]. }
  exists k1. split; [done|]. cbv zeta.
  destruct (schedule_now_effect d k1) as (Hf & Hacc & Hwk). pose proof Hf as (Hm & Hq & Hw2 & Hn2 & _).
  rewrite Hq, Hw2, Hn2. split_and!; try done.
  - by apply (frame_inv d k1).
  - intros i Hi. by rewrite Hm, Hm1.
  - by rewrite Hwk.
Qed.

(** Waking the dispatchers of a queue whose due ones are best-effort. *)
Lemma wakeup_walk_spec l : forall k, sched_inv k -> StronglySorted (wakes_before (dcbs k)) l -> NoDup l ->
  (forall i, i ∈ l -> wakeup_time (dcbs k i) <= now ->
     type (dcbs k i) = TASK_TYPE_BEST_EFFORT /\ 0 <= weight (dcbs k i) < 4294) ->
  w_be k + 4294 * Z.of_nat (length l) < 2 ^ 32 -> n_be k + Z.of_nat (length l) < 2 ^ 32 ->
  exists k', wakeup_walk ts now l k = Done k' /\ sched_inv k' /\
    wakeup_queue k' = filter (fun i => now < wakeup_time (dcbs k i)) l /\
    (forall i, i ∈ queue k -> i ∈ queue k') /\
    (forall i, i ∉ l \/ now < wakeup_time (dcbs k i) -> dcbs k' i = dcbs k i) /\
    forall i, i ∈ l -> wakeup_time (dcbs k i) <= now -> i ∈ queue k' /\ wakeup_time (dcbs k' i) = 0.
Proof.
  induction l as [|d l IH]; intros k Hinv Hs Hnd Hl Hw Hn; cbn [wakeup_walk].
  { eexists. split; [done|]. split_and!; try done; [by apply (sched_inv_same k)|]. by intros i ?%elem_of_nil. }
  apply StronglySorted_inv in Hs as [Hs Hd]. apply NoDup_cons in Hnd as [Hni Hnd]. cbn [length] in Hw, Hn.
  destruct (Z.leb_spec (wakeup_time (dcbs k d)) now) as [Hle|Hgt].
  - destruct (Hl d ltac:(by left) Hle) as [Hty Hwt].
    destruct (wake_one d k Hinv Hty Hwt ltac:(lia) ltac:(lia))
      as (k1 & -> & Hinv2 & Hd2 & Hq2 & Hm2 & Hb2 & Hw2 & Hn2). step.
    set (k2 := schedule_now now d k1) in *.
    assert (forall i, i ∈ l -> dcbs k2 i = dcbs k i) as Hsame by (intros i Hi; apply Hm2; by intros ->).
    destruct (IH k2) as (k' & E & Hinv' & Hwq & Hq' & Hm' & Hdue); try (done || lia).
    { apply (wake_sorted_ext (dcbs k)); [|done]. intros i Hi. by rewrite Hsame. }
    { intros i Hi. rewrite Hsame by done. apply Hl. by right. }
    exists k'. split_and!; try done.
    + rewrite filter_cons_False by lia. rewrite Hwq. apply filter_same. intros i Hi. by rewrite Hsame.
    + auto.
    + intros i Hi. destruct (decide (d = i)) as [<-|Hne]; [exfalso; destruct Hi as [Hi|?]; [apply Hi; by left|lia]|].
      rewrite Hm'; [by apply Hm2|]. rewrite Hm2 by done. destruct Hi as [Hi|?]; [left|by right].
      intros ?. apply Hi. by right.
    + intros i [->|Hi]%elem_of_cons Hdu.
      * split; [by apply Hq'|]. rewrite Hm'; [done|by left].
      * apply Hdue; [done|]. by rewrite Hsame.
  - eexists. split; [done|]. assert (Forall (fun i => now < wakeup_time (dcbs k i)) (d :: l)) as Hall.
    { constructor; [done|]. eapply Forall_impl; [exact Hd|]. unfold wakes_before. intros. lia. }
    split_and!; try done; [by apply (sched_inv_same k)| |].
    + cbn [wakeup_queue set_wakeup_queue]. symmetry. by apply filter_whole.
    + intros i Hi Hdu. rewrite Forall_forall in Hall. specialize (Hall i Hi). cbn in Hall. lia.
Qed.

End Wakeup.

(** * Contracts *)

(** C23: schedule terminates within one round more than there are
    dispatchers, fails no assertion, keeps the accounting invariant and the
    members of the queue, and selects the first released dispatcher, which
    has budget left, or, if that one was dispatched last, the current
    dispatcher, which runs on its behalf, or none if none is released. This
    is for states in which times and timeslices do not overflow, time does
    not run backwards, best-effort dispatchers get at least half a tick, and
    released hard real-time dispatchers have a budget and have not missed
    their deadline; on a missed deadline the code panics. *)
Theorem schedule_selects ts now fuel k :
  sched_inv k -> schedulable ts now k -> (length (queue k) < fuel)%nat ->
  exists k' r, schedule ts fuel now k = Done (k', r) /\ sched_inv k' /\ queue k' ≡ₚ queue k /\
    match r with
    | None => forall i, i ∈ queue k' -> now < release_time (dcbs k' i)
    | Some c => exists d, first_released now k' = Some d /\ d ∈ queue k' /\
        release_time (dcbs k' d) <= now /\ etime (dcbs k' d) < wcet (dcbs k' d) /\
        (c = d \/ lastdisp k = Some d /\ dcb_current k = Some c /\ c ∈ queue k')
    end.
Proof.
  intros Hinv Hsb Hfuel.
  destruct (schedule_spec ts now fuel k Hinv Hsb Hfuel) as (k' & r & E & Hinv' & Hq & _ & _ & Hans).
  exists k', r. split_and!; try done. unfold answer_ok in Hans.
  destruct (first_released now k') as [d|] eqn:Hfr.
  - destruct Hans as [Hb Hr]. destruct (first_released_some now k' d Hfr) as [Hd Hrel].
    destruct Hr as [->|(Hl & c & Hc & Hin & ->)].
    + exists d. auto 10.
    + exists d. split_and!; auto. right. split_and!; auto. by rewrite Hq.
  - rewrite Hans. intros i Hi. pose proof (find_none _ _ Hfr i (proj1 (list_elem_of_In _ _) Hi)) as Hn.
    by apply negb_false_iff, Z.ltb_lt in Hn.
Qed.

(** Earliest deadline first: when all dispatchers are hard real-time
    and the queue is in the order of deadlines, [schedule] keeps it so and
    the dispatcher it selects has the earliest deadline of all released
    ones. *)
Theorem schedule_edf ts now fuel k :
  sched_inv k -> schedulable ts now k -> (length (queue k) < fuel)%nat ->
  (forall i, i ∈ queue k -> type (dcbs k i) = TASK_TYPE_HARD_REALTIME) ->
  edf_sorted (dcbs k) (queue k) -> lastdisp k = None ->
  exists k' r, schedule ts fuel now k = Done (k', r) /\ edf_sorted (dcbs k') (queue k') /\
    forall d, r = Some d -> forall i, i ∈ queue k' ->
      release_time (dcbs k' i) <= now -> deadline (dcbs k' d) <= deadline (dcbs k' i).
Proof.
  intros Hinv Hsb Hfuel Hall Hsorted Hlast.
  destruct (schedule_spec ts now fuel k Hinv Hsb Hfuel) as (k' & r & E & Hinv' & Hq & Hty & Hedf & Hans).
  assert (edf_sorted (dcbs k') (queue k')) as Hedf'.
  { apply Hedf; [by intros _|]. intros i Hi. rewrite Hty. apply Hall. by rewrite <- Hq. }
  exists k', r. split_and!; try done. intros d -> i Hi Hrel.
  unfold answer_ok, first_released in Hans. rewrite Hlast in Hans.
  destruct (find _ (queue k')) as [d'|] eqn:Hfr; [|done]. destruct Hans as [_ [[= <-]|[? _]]]; [|done].
  clear -Hfr Hedf' Hi Hrel. induction Hedf' as [|j l Hs IH Hj]; [by apply elem_of_nil in Hi|].
  cbn [find] in Hfr. destruct (negb (now <? release_time (dcbs k' j))) eqn:Hr.
  - injection Hfr as ->. apply elem_of_cons in Hi as [->|Hi]; [done|]. rewrite Forall_forall in Hj. by apply Hj.
  - apply elem_of_cons in Hi as [->|Hi]; [|auto]. apply negb_false_iff, Z.ltb_lt in Hr. lia.
Qed.

(** A dispatcher that [make_runnable] may admit. *)
Definition admissible (now d : Z) (k : kcb) : Prop :=
  let b := dcbs k d in
  (type b = TASK_TYPE_BEST_EFFORT /\ 0 <= weight b < 4294 /\ w_be k + 4294 < 2 ^ 32 /\ n_be k + 1 < 2 ^ 32)
  \/ (type b = TASK_TYPE_HARD_REALTIME /\ period b <> 0 /\ now <= release_time b /\
      u_hrt k + share b + BETA <= SPECTRUM).

(** Admission: a dispatcher that is not queued and fits is entered into
    the queue with the accounting kept, and [scheduler_remove] takes it out
    again and restores queue and counters; a hard real-time dispatcher that
    would overload the processor is not admitted, the kernel panics. *)
Theorem make_runnable_admits ts now d k : sched_inv k -> d ∉ queue k ->
  (admissible now d k ->
   exists k' k'', make_runnable ts now d k = Done k' /\ sched_inv k' /\ queue k' ≡ₚ d :: queue k /\
     scheduler_remove d k' = Done k'' /\ sched_inv k'' /\ queue k'' = queue k /\
     w_be k'' = w_be k /\ n_be k'' = n_be k /\ u_hrt k'' = u_hrt k)
  /\ (type (dcbs k d) = TASK_TYPE_HARD_REALTIME -> period (dcbs k d) <> 0 ->
      SPECTRUM < u_hrt k + share (dcbs k d) + BETA < 2 ^ 32 -> make_runnable ts now d k = Fault Panicked).
Proof.
  intros Hinv Hd. split.
  - intros Hadm.
    assert (exists k', make_runnable ts now d k = Done k' /\ sched_inv k' /\
      queue k' = queue_place (dcbs k') d (queue k) /\ w_be k' = w_be k + be_weight (dcbs k' d) /\
      n_be k' = n_be k + be_one (dcbs k' d) /\ u_hrt k' = u_hrt k + hrt_share (dcbs k' d))
      as (k' & Hrun & Hinv' & Hq & Hw & Hn & Hu).
    { destruct Hadm as [(Hty & Hwt & Hw & Hn)|(Hty & Hp & Hrel & Hload)].
      - destruct (make_runnable_be ts now d k Hinv Hd Hty Hwt Hw Hn) as (k' & ? & ? & Hm & ? & ? & ? & ? & _).
        exists k'. unfold be_weight, be_one, hrt_share, is_type. rewrite Hm, fn_lookup_insert.
        cbn. rewrite Hty. split_and!; try (done || lia).
      - destruct (make_runnable_hrt ts now d k Hinv Hd Hty Hp Hrel Hload) as (k' & ? & ? & _ & Hb & ? & ? & ? & ?).
        exists k'. unfold be_weight, be_one, hrt_share, is_type. rewrite Hb. cbn. rewrite Hty.
        split_and!; try (done || lia). }
    assert (queue k' ≡ₚ d :: queue k) as Hp by (rewrite Hq; apply queue_place_perm).
    destruct (scheduler_remove_spec d k' Hinv') as (k'' & ? & ? & Hq'' & _ & ? & ? & ? & _).
    { rewrite Hp. by left. }
    exists k', k''. split_and!; try (done || lia). rewrite Hq'', Hq. by apply unlink_place.
  - intros Hty Hp Hover. destruct (sched_load_small k Hinv) as [Hu0 Hs0].
    pose proof (share_range (dcbs k d)). change BETA with 100000 in *. change SPECTRUM with 1000000 in *.
    unfold make_runnable, in_queue. rewrite bool_decide_eq_false_2 by done. rewrite Hty, u_target_share by done.
    step. cbn [u_hrt u_srt set_u_hrt]. rewrite Hs0, (u32_small (u_hrt k + _)) by lia.
    change BETA with 100000. change SPECTRUM with 1000000. rewrite u32_small by lia. by zdecide.
Qed.

(** Best-effort dispatchers take turns: when all dispatchers in the
    queue are released, one that yields goes to its end, behind all others,
    with its budget reset, and the accounting is kept. *)
Theorem scheduler_yield_round_robin now d k : sched_inv k -> d ∈ queue k ->
  type (dcbs k d) = TASK_TYPE_BEST_EFFORT ->
  (forall i, i ∈ queue k -> release_time (dcbs k i) <= now) ->
  let k' := scheduler_yield now d k in
  queue k' = queue_unlink d (queue k) ++ [d] /\ sched_inv k' /\
  release_time (dcbs k' d) = now /\ etime (dcbs k' d) = 0 /\ lastdisp k' = None.
Proof.
  intros Hinv Hd Hty Hrel. pose proof Hinv as [Hnd _ _ _ _ _ _ _].
  unfold scheduler_yield, queue_remove, in_queue. rewrite bool_decide_eq_true_2 by done.
  rewrite (proj2 (Z.ltb_ge _ _) (Hrel d Hd)). cbn [negb orb].
  set (k1 := set_queue _ k). change (dcbs k1) with (dcbs k). rewrite Hty.
  set (k3 := set_lastdisp None _).
  assert (dcbs k3 d = with_etime 0 (with_release now (dcbs k d))) as Hb.
  { unfold k3. cbn [dcbs set_lastdisp]. by rewrite !upd_at. }
  assert (forall i, d <> i -> dcbs k3 i = dcbs k i) as Hm.
  { intros i Hi. unfold k3. cbn [dcbs set_lastdisp]. by rewrite !upd_other. }
  assert (queue (queue_insert d k3) = queue_unlink d (queue k) ++ [d]) as Hq.
  { change (queue_place (dcbs k3) d (queue_unlink d (queue k)) = queue_unlink d (queue k) ++ [d]).
    assert (forall i, i ∈ queue_unlink d (queue k) -> i ∈ queue k /\ d <> i) as Hl.
    { intros i Hi. rewrite (queue_unlink_perm d (queue k) Hd) in Hnd |- *. apply NoDup_cons in Hnd as [Hni _].
      split; [by right|]. by intros ->. }
    apply queue_place_tail; [by rewrite Hb|]. intros i Hi. destruct (Hl i Hi) as [Hi' Hne].
    rewrite (Hm i Hne), Hb. by apply Hrel. }
  split_and!; try done.
  - apply (sched_inv_same k); try done.
    + rewrite Hq, Permutation_app_comm. symmetry. by apply queue_unlink_perm.
    + intros i. change (dcbs (queue_insert d k3)) with (dcbs k3). destruct (decide (d = i)) as [<-|Hi].
      * by rewrite Hb.
      * by rewrite Hm.
  - cbn [dcbs queue_insert set_queue]. by rewrite Hb.
  - cbn [dcbs queue_insert set_queue]. by rewrite Hb.
Qed.

(** [wakeup_set] keeps the wakeup queue in the order of times, with the
    dispatcher in it once, behind those that wake at the same time or
    earlier and before those that wake later; a dispatcher that was queued
    is moved. *)
Theorem wakeup_set_sorted d t k : wake_inv k -> wake_status d k ->
  exists k' a b, wakeup_set d t k = Done k' /\ wake_inv k' /\ wakeup_time (dcbs k' d) = t /\
    (forall i, d <> i -> dcbs k' i = dcbs k i) /\
    wakeup_queue k' = a ++ d :: b /\ a ++ b = queue_unlink d (wakeup_queue k) /\
    Forall (fun i => wakeup_time (dcbs k i) <= t) a /\ Forall (fun i => t < wakeup_time (dcbs k i)) b.
Proof.
  intros Hinv Hst. destruct (wakeup_remove_any d k Hinv Hst) as (k1 & E & Hq & Hm & Hni & _).
  destruct Hinv as [Hnd Hs]. unfold wakeup_set. rewrite E. step.
  set (k2 := upd d (with_wakeup t) k1).
  assert (forall i, d <> i -> dcbs k2 i = dcbs k i) as Hm2 by (intros i Hi; unfold k2; by rewrite upd_other, Hm).
  assert (forall i, i ∈ wakeup_queue k1 -> dcbs k2 i = dcbs k i) as Hsame.
  { intros i Hi. apply Hm2. by intros ->. }
  assert (StronglySorted (wakes_before (dcbs k2)) (wakeup_queue k1)) as Hs2.
  { apply (wake_sorted_ext (dcbs k)); [intros i Hi; by rewrite Hsame|]. rewrite Hq. by apply sorted_unlink. }
  destruct (wakeup_place_split (dcbs k2) d t (wakeup_queue k1) Hs2) as (a & b & Hp & Hab & Ha & Hb).
  assert (wakeup_time (dcbs k2 d) = t) as Hdt by (unfold k2; by rewrite upd_at).
  eexists _, a, b. split; [done|]. change (wakeup_queue k2) with (wakeup_queue k1).
  rewrite Forall_forall in Ha, Hb.
  assert (forall i, i ∈ a -> i ∈ wakeup_queue k1) as Hina by (intros i Hi; rewrite Hab; set_solver).
  assert (forall i, i ∈ b -> i ∈ wakeup_queue k1) as Hinb by (intros i Hi; rewrite Hab; set_solver).
  split_and!; try done.
  - assert (NoDup (wakeup_queue k1)) as Hnd1.
    { rewrite Hq. destruct (decide (d ∈ wakeup_queue k)) as [Hin|Hnin].
      - rewrite (queue_unlink_perm d (wakeup_queue k) Hin) in Hnd. by apply NoDup_cons in Hnd as [_ ?].
      - by rewrite (queue_unlink_notin d (wakeup_queue k) Hnin). }
    split; cbn [wakeup_queue set_wakeup_queue dcbs]; rewrite Hp.
    + rewrite <- Permutation_middle, <- Hab. by constructor.
    + rewrite Hab in Hs2. apply StronglySorted_app in Hs2 as (Hc & Hsa & Hsb).
      apply StronglySorted_app. split_and!; [|done|].
      * intros x y Hx [->|Hy]%elem_of_cons; [|by apply Hc].
        unfold wakes_before. rewrite Hdt. by apply Ha.
      * constructor; [done|]. apply Forall_forall. intros y Hy. unfold wakes_before. rewrite Hdt.
        apply Z.lt_le_incl. by apply Hb.
  - by rewrite <- Hab.
  - apply Forall_forall. intros i Hi. rewrite <- Hsame by auto. by apply Ha.
  - apply Forall_forall. intros i Hi. rewrite <- Hsame by auto. by apply Hb.
Qed.

(** [wakeup_check] wakes exactly the dispatchers that are due: they
    leave the wakeup queue, which keeps the others in their order, and are in
    the run queue afterwards with the accounting kept, and no dispatcher
    leaves the run queue. *)
Theorem wakeup_check_wakes ts now k : sched_inv k -> wake_inv k ->
  (forall i, i ∈ wakeup_queue k -> wakeup_time (dcbs k i) <= now ->
     type (dcbs k i) = TASK_TYPE_BEST_EFFORT /\ 0 <= weight (dcbs k i) < 4294) ->
  w_be k + 4294 * Z.of_nat (length (wakeup_queue k)) < 2 ^ 32 ->
  n_be k + Z.of_nat (length (wakeup_queue k)) < 2 ^ 32 ->
  exists k', wakeup_check ts now k = Done k' /\ sched_inv k' /\ wake_inv k' /\
    wakeup_queue k' = filter (fun i => now < wakeup_time (dcbs k i)) (wakeup_queue k) /\
    (forall i, i ∈ queue k -> i ∈ queue k') /\
    forall i, i ∈ wakeup_queue k -> wakeup_time (dcbs k i) <= now ->
      i ∈ queue k' /\ wakeup_time (dcbs k' i) = 0.
Proof.
  intros Hinv [Hnd Hs] Hbe Hw Hn. unfold wakeup_check.
  destruct (wakeup_walk_spec ts now (wakeup_queue k) k Hinv Hs Hnd Hbe Hw Hn)
    as (k' & E & Hinv' & Hq & Hrun & Hm & Hdue).
  exists k'. split_and!; try done. split; rewrite Hq.
  - by apply NoDup_filter.
  - apply (wake_sorted_ext (dcbs k)).
    + intros i Hi. apply list_elem_of_filter in Hi as [Hi _]. rewrite Hm by by right. done.
    + clear -Hs. induction Hs as [|i l Hs IH Hi]; [constructor|].
      destruct (decide (now < wakeup_time (dcbs k i))).
      * rewrite filter_cons_True by done. constructor; [done|]. rewrite Forall_forall in *.
        intros j Hj. apply Hi. by apply list_elem_of_filter in Hj as [_ ?].
      * by rewrite filter_cons_False by done.
Qed.

(** [wakeup_remove] leaves the wakeup time of the dispatcher set, so
    that a second call, which its comment says is a no-op, and a later
    [wakeup_set] fail an assertion of the kernel. *)
Theorem wakeup_remove_twice d t k : wake_inv k -> d ∈ wakeup_queue k -> wakeup_time (dcbs k d) <> 0 ->
  exists k', wakeup_remove d k = Done k' /\ (d ∉ wakeup_queue k') /\
    wakeup_remove d k' = Fault AssertionFailed /\ wakeup_set d t k' = Fault AssertionFailed.
Proof.
  intros [Hnd Hs] Hd Ht. rewrite wakeup_remove_queued by done. set (k' := set_wakeup_queue _ k).
  assert (d ∉ wakeup_queue k') as Hni.
  { cbn [wakeup_queue set_wakeup_queue k']. rewrite (queue_unlink_perm d (wakeup_queue k) Hd) in Hnd.
    by apply NoDup_cons in Hnd as [? _]. }
  assert (wakeup_remove d k' = Fault AssertionFailed) as Hf.
  { unfold wakeup_remove. change (dcbs k') with (dcbs k). rewrite (proj2 (Z.eqb_neq _ _) Ht). cbn [negb].
    destruct (wakeup_queue k') as [|h l]; [done|]. cbn [tail head].
    apply not_elem_of_cons in Hni as [Hne Hni]. rewrite bool_decide_eq_false_2 by done.
    rewrite (bool_decide_eq_false_2 (Some h = Some d)) by congruence. done. }
  exists k'. split_and!; try done. unfold wakeup_set. by rewrite Hf.
Qed.

(** A hard real-time dispatcher whose release time has passed while it
    slept brings the kernel down when it is woken: [make_runnable] panics
    before [schedule_now] could move its release time. *)
Theorem wakeup_of_late_task_panics ts now d l k : wakeup_queue k = d :: l ->
  wakeup_time (dcbs k d) <= now -> type (dcbs k d) = TASK_TYPE_HARD_REALTIME -> period (dcbs k d) <> 0 ->
  d ∉ queue k -> release_time (dcbs k d) < now -> wakeup_check ts now k = Fault Panicked.
Proof.
  intros Hq Ht Hty Hp Hd Hr. unfold wakeup_check. rewrite Hq. cbn [wakeup_walk].
  rewrite (proj2 (Z.leb_le _ _) Ht). unfold make_runnable, in_queue.
  rewrite bool_decide_eq_false_2 by done. rewrite upd_at. cbn [type with_wakeup]. rewrite Hty.
  rewrite u_target_share by done. step. destruct (SPECTRUM <? _); [done|].
  change (dcbs (set_u_hrt _ (upd d (with_wakeup 0) k)) d) with (dcbs (upd d (with_wakeup 0) k) d).
  rewrite upd_at. cbn [release_time with_wakeup]. by zdecide.
Qed.

(** * A sample kernel *)

Module SchedSample.

(** Two best-effort dispatchers, two hard real-time ones, and one that
    sleeps until tick 150. *)
Definition m0 (i : Z) : dcb :=
  if i =? 4096 then Dcb 0 0 0 0 0 0 1 TASK_TYPE_BEST_EFFORT 0
  else if i =? 8192 then Dcb 0 0 0 0 0 0 2 TASK_TYPE_BEST_EFFORT 0
  else if i =? 12288 then Dcb 100 0 0 10 1000 900 0 TASK_TYPE_HARD_REALTIME 0
  else if i =? 16384 then Dcb 100 0 0 20 1000 500 0 TASK_TYPE_HARD_REALTIME 0
  else Dcb 0 0 0 0 0 0 1 TASK_TYPE_BEST_EFFORT 150.

Definition k0 : kcb := Kcb m0 [] 0 0 0 0 [20480] None None.

Definition run (d : Z) (k : kcb) : kcb := match make_runnable 100 100 d k with Done k => k | Fault _ => k end.

(** Best-effort dispatchers only, real-time only, and all. *)
Definition k_be : kcb := run 8192 (run 4096 k0).
Definition k_rt : kcb := run 16384 (run 12288 k0).
Definition k_all : kcb := run 16384 (run 12288 k_be).

Ltac sample_task := let H := fresh in intros ? H; vm_compute in H; case_list H; by vm_compute.
Ltac sample_inv := split; [vm_decide|sample_task|by vm_compute..].

Lemma k_be_inv : sched_inv k_be.
Proof. sample_inv. Qed.
Lemma k_rt_inv : sched_inv k_rt.
Proof. sample_inv. Qed.
Lemma k_all_inv : sched_inv k_all.
Proof. sample_inv. Qed.

Lemma k_all_schedulable : schedulable 100 120 k_all.
Proof. split; [by vm_compute|sample_task|sample_task|sample_task|]. intros d Hd. vm_compute in Hd. exfalso. discriminate Hd. Qed.
Lemma k_rt_schedulable : schedulable 100 120 k_rt.
Proof. split; [by vm_compute|sample_task|sample_task|sample_task|]. intros d Hd. vm_compute in Hd. exfalso. discriminate Hd. Qed.

Lemma schedule_selects_witness :
  exists k' r, schedule 100 5 120 k_all = Done (k', r) /\ sched_inv k' /\ queue k' ≡ₚ queue k_all /\
    match r with
    | None => forall i, i ∈ queue k' -> 120 < release_time (dcbs k' i)
    | Some c => exists d, first_released 120 k' = Some d /\ d ∈ queue k' /\
        release_time (dcbs k' d) <= 120 /\ etime (dcbs k' d) < wcet (dcbs k' d) /\
        (c = d \/ lastdisp k_all = Some d /\ dcb_current k_all = Some c /\ c ∈ queue k')
    end.
Proof. refine (schedule_selects 100 120 5 k_all k_all_inv k_all_schedulable _). vm_compute. lia. Defined.

Lemma schedule_edf_witness :
  exists k' r, schedule 100 3 120 k_rt = Done (k', r) /\ edf_sorted (dcbs k') (queue k') /\
    forall d, r = Some d -> forall i, i ∈ queue k' ->
      release_time (dcbs k' i) <= 120 -> deadline (dcbs k' d) <= deadline (dcbs k' i).
Proof.
  refine (schedule_edf 100 120 3 k_rt k_rt_inv k_rt_schedulable _ _ _ _).
  - vm_compute. lia.
  - sample_task.
  - repeat constructor; by vm_compute.
  - by vm_compute.
Defined.

Lemma make_runnable_admits_witness : exists k' k'',
  make_runnable 100 100 12288 k_be = Done k' /\ sched_inv k' /\ queue k' ≡ₚ 12288 :: queue k_be /\
  scheduler_remove 12288 k' = Done k'' /\ sched_inv k'' /\ queue k'' = queue k_be /\
  w_be k'' = w_be k_be /\ n_be k'' = n_be k_be /\ u_hrt k'' = u_hrt k_be.
Proof.
  refine (proj1 (make_runnable_admits 100 100 12288 k_be k_be_inv _) _).
  - vm_decide.
  - right. by vm_compute.
Defined.

Lemma scheduler_yield_round_robin_witness : let k' := scheduler_yield 120 4096 k_be in
  queue k' = queue_unlink 4096 (queue k_be) ++ [4096] /\ sched_inv k' /\
  release_time (dcbs k' 4096) = 120 /\ etime (dcbs k' 4096) = 0 /\ lastdisp k' = None.
Proof.
  refine (scheduler_yield_round_robin 120 4096 k_be k_be_inv _ _ _); [vm_decide|by vm_compute|sample_task].
Defined.

Lemma k_be_wake : wake_inv k_be.
Proof. split; [vm_decide|repeat constructor]. Qed.

Lemma wakeup_set_sorted_witness : exists k' a b, wakeup_set 4096 130 k_be = Done k' /\ wake_inv k' /\
  wakeup_time (dcbs k' 4096) = 130 /\ (forall i, 4096 <> i -> dcbs k' i = dcbs k_be i) /\
  wakeup_queue k' = a ++ 4096 :: b /\ a ++ b = queue_unlink 4096 (wakeup_queue k_be) /\
  Forall (fun i => wakeup_time (dcbs k_be i) <= 130) a /\ Forall (fun i => 130 < wakeup_time (dcbs k_be i)) b.
Proof.
  refine (wakeup_set_sorted 4096 130 k_be k_be_wake _). split; [by vm_compute|].
  intros Hin. vm_compute in Hin. case_list Hin; discriminate.
Defined.

Lemma wakeup_check_wakes_witness : exists k', wakeup_check 100 200 k_be = Done k' /\ sched_inv k' /\
  wake_inv k' /\ wakeup_queue k' = filter (fun i => 200 < wakeup_time (dcbs k_be i)) (wakeup_queue k_be) /\
  (forall i, i ∈ queue k_be -> i ∈ queue k') /\
  forall i, i ∈ wakeup_queue k_be -> wakeup_time (dcbs k_be i) <= 200 ->
    i ∈ queue k' /\ wakeup_time (dcbs k' i) = 0.
Proof.
  refine (wakeup_check_wakes 100 200 k_be k_be_inv k_be_wake _ _ _); [sample_task|by vm_compute|by vm_compute].
Defined.

Lemma wakeup_remove_twice_witness : exists k', wakeup_remove 20480 k_be = Done k' /\
  (20480 ∉ wakeup_queue k') /\ wakeup_remove 20480 k' = Fault AssertionFailed /\
  wakeup_set 20480 300 k' = Fault AssertionFailed.
Proof. refine (wakeup_remove_twice 20480 300 k_be k_be_wake _ _); [vm_decide|by vm_compute]. Defined.

Definition k_late : kcb := set_wakeup_queue [12288] k_be.

Lemma wakeup_of_late_task_panics_witness : wakeup_check 100 200 k_late = Fault Panicked.
Proof.
  refine (wakeup_of_late_task_panics 100 200 12288 [] k_late _ _ _ _ _ _); try by vm_compute. vm_decide.
Defined.

End SchedSample.
