(* ===== verification/Rpc.v ===== *)
(** The message layer of the RPC library (lib/aos/aos_rpc_shared.c).

    A logical message has a type, an identifier and up to 65535 words; an LMP
    message carries nine words, so [send_loop] sends a message in pieces of
    eight words behind a header word and [recv_handling] puts them together
    again.  The kernel's message channel and the waitset are the environment:
    an event says which channel's send handler runs and what the kernel
    answers to the send.  Channels, capabilities and closures are named by
    integers; the blocks of the send queue have addresses, because the code
    compares them. *)
From S2P Require Import Prelude.

(** * Data *)

Definition NULL_CAP : Z := 0.

(** A message of the kernel's channel: the capability and the words. *)
Record lmp_msg := LmpMsg { lmp_cap : Z; lmp_words : list Z }.

(** [struct send_queue]; [callback_when_done] is [None] for
    [NULL_EVENT_CLOSURE]. *)
Record send_queue := SendQueue {
  sq_type : Z; sq_id : Z; sq_chan : Z; sq_cap : Z; sq_index : Z; sq_size : Z;
  sq_payload : list Z; sq_callback : option Z
}.

Definition sq_set_index (i : Z) (q : send_queue) : send_queue :=
  SendQueue (sq_type q) (sq_id q) (sq_chan q) (sq_cap q) i (sq_size q) (sq_payload q) (sq_callback q).

(** [struct chan_list]: the channel and its send queue, every element with
    its address. *)
Record chan_list := ChanList { cl_chan : Z; cl_queue : list (Z * send_queue) }.

(** The static state of the library, with what it does to its environment:
    the send handlers registered on the waitset (channel and argument), the
    messages the kernel accepted per channel, the closures called. *)
Record rpc := Rpc {
  chan_listing : list chan_list;
  rpc_type_min_id : Z -> Z; rpc_type_max_id : Z -> Z;
  next_block : Z;
  send_events : list (Z * Z);
  wire : Z -> list lmp_msg;
  called : list Z
}.

Definition set_listing (l : list chan_list) (s : rpc) : rpc :=
  Rpc l (rpc_type_min_id s) (rpc_type_max_id s) (next_block s) (send_events s) (wire s) (called s).
Definition set_min_id (m : Z -> Z) (s : rpc) : rpc :=
  Rpc (chan_listing s) m (rpc_type_max_id s) (next_block s) (send_events s) (wire s) (called s).
Definition set_max_id (m : Z -> Z) (s : rpc) : rpc :=
  Rpc (chan_listing s) (rpc_type_min_id s) m (next_block s) (send_events s) (wire s) (called s).
Definition set_block (a : Z) (s : rpc) : rpc :=
  Rpc (chan_listing s) (rpc_type_min_id s) (rpc_type_max_id s) a (send_events s) (wire s) (called s).
Definition set_events (l : list (Z * Z)) (s : rpc) : rpc :=
  Rpc (chan_listing s) (rpc_type_min_id s) (rpc_type_max_id s) (next_block s) l (wire s) (called s).
Definition set_wire (w : Z -> list lmp_msg) (s : rpc) : rpc :=
  Rpc (chan_listing s) (rpc_type_min_id s) (rpc_type_max_id s) (next_block s) (send_events s) w (called s).
Definition set_called (l : list Z) (s : rpc) : rpc :=
  Rpc (chan_listing s) (rpc_type_min_id s) (rpc_type_max_id s) (next_block s) (send_events s) (wire s) l.

Definition rpc_init : rpc := Rpc [] (fun _ => 0) (fun _ => 0) 1 [] (fun _ => []) [].

(** * Sending *)

Definition lmp_err_is_transient (e : errval) : bool :=
  match err_no e with
  | Some SYS_ERR_LMP_BUF_OVERFLOW
  | Some SYS_ERR_LMP_CAPTRANSFER_DST_CNODE_LOOKUP
  | Some SYS_ERR_LMP_CAPTRANSFER_DST_CNODE_INVALID
  | Some SYS_ERR_LMP_CAPTRANSFER_DST_SLOT_OCCUPIED
  | Some SYS_ERR_LMP_TARGET_DISABLED => true
  | _ => false
  end.

(** [lmp_chan_send1] .. [lmp_chan_send9] with the kernel's answer [r]: the
    message is in the channel exactly if there is no error.  Reading
    [payloadcount] words behind the end of the payload is a fault, the null
    channel and more than eight words are panics. *)
Definition actual_sending (chan cap first_byte payloadcount : Z) (payload : list Z)
  (r : errval) (s : rpc) : outcome (errval * rpc) :=
  if chan =? 0 then Fault Panicked else
  if (payloadcount <? 0) || (8 <? payloadcount) then Fault Panicked else
  if Z.of_nat (length payload) <? payloadcount then Fault OutOfBounds else
  if err_is_fail r then Done (r, s) else
  let m := LmpMsg cap (first_byte :: take (Z.to_nat payloadcount) payload) in
  Done (r, set_wire (<[chan := wire s chan ++ [m]]> (wire s)) s).

(** [lmp_chan_register_send] with its [CHECK]: a channel has at most one
    send handler. *)
Definition register_send (chan arg : Z) (s : rpc) : outcome rpc :=
  if bool_decide (chan ∈ (send_events s).*1) then Fault CheckAborted
  else Done (set_events ((chan, arg) :: send_events s) s).

Fixpoint entry_of (chan : Z) (l : list chan_list) : option chan_list :=
  match l with
  | [] => None
  | c :: l' => if cl_chan c =? chan then Some c else entry_of chan l'
  end.

(** Store a send queue in the channel's entry. *)
Definition store_queue (chan : Z) (q : list (Z * send_queue)) : list chan_list -> list chan_list :=
  map (fun c => if cl_chan c =? chan then ChanList chan q else c).

Fixpoint block_of (a : Z) (q : list (Z * send_queue)) : option send_queue :=
  match q with
  | [] => None
  | (b, x) :: q' => if b =? a then Some x else block_of a q'
  end.

Definition store_block (a : Z) (x : send_queue) : list (Z * send_queue) -> list (Z * send_queue) :=
  map (fun bx : Z * send_queue => if bx.1 =? a then (a, x) else bx).

(** The dequeue at the end of a message, and the release of its identifier.
    The code reads [sq->parent] again after it freed [sq]
    (aos_rpc_shared.c:147-160); the model takes the value from before, which
    is what the memory holds as long as nobody else gets it. *)
Definition finish_message (chan a : Z) (sq : send_queue) (s : rpc) : outcome rpc :=
  let s := match sq_callback sq with Some c => set_called (called s ++ [c]) s | None => s end in
  match entry_of chan (chan_listing s) with
  | None => Fault NullDereference
  | Some c =>
    match cl_queue c with
    | [] => Fault NullDereference
    | (fst, _) :: rest =>
      ASSERT fst =? a;
      let s := set_listing (store_queue chan rest (chan_listing s)) s in
      let min := rpc_type_min_id s (sq_type sq) in
      let s := if min =? sq_id sq
               then set_min_id (<[sq_type sq := (min + 1) `mod` 256]> (rpc_type_min_id s)) s
               else s in
      match rest with
      | [] => Done s
      | (next, x) :: _ => register_send (sq_chan x) next s
      end
    end
  end.

(** [send_loop]: the send handler of a channel with its argument, a block of
    the send queue. *)
Definition send_loop (chan a : Z) (r : errval) (s : rpc) : outcome rpc :=
  match entry_of chan (chan_listing s) ≫= (fun c => block_of a (cl_queue c)) with
  | None => Fault NullDereference
  | Some sq =>
    let remaining := u32 (sq_size sq - sq_index sq) in
    let first_byte := u32 (Z.shiftl (sq_type sq) 24 + Z.shiftl (sq_id sq) 16 + sq_size sq) in
    let cap := if sq_index sq =? 0 then sq_cap sq else NULL_CAP in
    '(e, s) ← actual_sending (sq_chan sq) cap first_byte (if 8 <? remaining then 8 else remaining)
                (drop (Z.to_nat (sq_index sq)) (sq_payload sq)) r s;
    if err_is_fail e then
      if lmp_err_is_transient e then register_send (sq_chan sq) a s
      else Fault AssertionFailed
    else if 8 <? remaining then
      match entry_of chan (chan_listing s) with
      | None => Fault NullDereference
      | Some c =>
        let q := store_block a (sq_set_index (u32 (sq_index sq + 8)) sq) (cl_queue c) in
        register_send (sq_chan sq) a (set_listing (store_queue chan q (chan_listing s)) s)
      end
    else finish_message chan a sq s
  end.

(** [event_dispatch]: the environment chooses the send handler of a channel
    and the kernel's answer, or an event that is not a send ([None]).
    Nothing happens if the channel has no handler. *)
Definition event_dispatch (ev : option (Z * errval)) (s : rpc) : outcome rpc :=
  match ev with
  | None => Done s
  | Some (chan, r) =>
    match list_find (fun p : Z * Z => p.1 = chan) (send_events s) with
    | None => Done s
    | Some (i, (_, a)) => send_loop chan a r (set_events (delete i (send_events s)) s)
    end
  end.

(** [request_fresh_id]. *)
Definition request_fresh_id (type : Z) (s : rpc) : outcome (Z * rpc) :=
  let min_id := u8 (rpc_type_min_id s type) in
  let max_id := u8 (rpc_type_max_id s type) in
  if (max_id + 1) `mod` 256 =? min_id then Fault Panicked
  else Done (max_id, set_max_id (<[type := (max_id + 1) `mod` 256]> (rpc_type_max_id s)) s).

(** [send]: the queue of the channel is started when it was empty; [ev] is
    the event that the dispatch at the end handles. *)
Definition send (chan cap type payloadsize : Z) (payload : list Z) (callback : option Z) (id : Z)
  (ev : option (Z * errval)) (s : rpc) : outcome rpc :=
  ASSERT payloadsize <? 65536;
  let s := match entry_of chan (chan_listing s) with
           | Some _ => s
           | None => set_listing (ChanList chan [] :: chan_listing s) s
           end in
  match entry_of chan (chan_listing s) with
  | None => Fault NullDereference
  | Some c =>
    let a := next_block s in
    let sq := SendQueue type id chan cap 0 payloadsize payload callback in
    let s := set_block (a + 1) (set_listing (store_queue chan (cl_queue c ++ [(a, sq)]) (chan_listing s)) s) in
    match cl_queue c with
    | [] => s ← register_send chan a s; event_dispatch ev s
    | _ => Done s
    end
  end.

(** * Receiving *)

(** [struct recv_list] without the link. *)
Record recv_list := RecvList {
  rl_type : Z; rl_id : Z; rl_cap : Z; rl_index : Z; rl_size : Z; rl_chan : Z; rl_payload : list Z
}.

(** [struct recv_chan]: the messages that are not complete yet, whether the
    receive handler is registered and whether the endpoint has a slot for
    the next capability. *)
Record recv_chan := RecvChan {
  rc_chan : Z; rpc_recv_list : list recv_list; rc_registered : bool; rc_slot : bool
}.

(** [struct lmp_recv_msg]: the length and the nine words of the buffer. *)
Record lmp_recv_msg := LmpRecvMsg { msglen : Z; words : list Z }.

(** [send_response]: the acknowledgement carries the identifier of the
    request in its first word. *)
Definition send_response (rl : recv_list) (chan cap payloadsize : Z) (payload : list Z) (scs : Z)
  (ev : option (Z * errval)) (s : rpc) : outcome rpc :=
  ASSERT Z.land (rl_type rl) 1 =? 0;
  if Z.of_nat (length payload) <? payloadsize then Fault OutOfBounds else
  let payload2 := rl_id rl :: take (Z.to_nat payloadsize) payload in
  '(id, s) ← request_fresh_id (u8 (rl_type rl + 1)) s;
  send chan cap (u8 (rl_type rl + 1)) (payloadsize + 1) payload2 (Some scs) id ev s.

(** [forward_message]. *)
Definition forward_message (rl : recv_list) (chan cap payloadsize : Z) (payload : list Z) (scs : Z)
  (ev : option (Z * errval)) (s : rpc) : outcome rpc :=
  if Z.of_nat (length payload) <? payloadsize then Fault OutOfBounds else
  let payload2 := rl_id rl :: take (Z.to_nat payloadsize) payload in
  '(id, s) ← request_fresh_id (rl_type rl) s;
  send chan cap (rl_type rl) (payloadsize + 1) payload2 (Some scs) id ev s.

(** [rpc_recv_lookup]: the position of the message in the list. *)
Fixpoint rpc_recv_lookup (head : list recv_list) (type id : Z) : option nat :=
  match head with
  | [] => None
  | rl :: head' =>
    if (rl_type rl =? type) && (rl_id rl =? id) then Some 0%nat
    else S <$> rpc_recv_lookup head' type id
  end.

(** [rpc_recv_list_remove] of the element at a position. *)
Fixpoint rpc_recv_list_remove (head : list recv_list) (i : nat) : outcome (list recv_list) :=
  match head, i with
  | [], _ => Fault NullDereference
  | _ :: head', O => Done head'
  | rl :: head', S i' => r ← rpc_recv_list_remove head' i'; Done (rl :: r)
  end.

(** The message as it arrives in the buffer, over the previous contents. *)
Definition lmp_chan_recv (stale : list Z) (m : lmp_msg) : lmp_recv_msg :=
  LmpRecvMsg (Z.of_nat (length (lmp_words m))) (lmp_words m ++ drop (length (lmp_words m)) stale).

Definition word (m : lmp_recv_msg) (i : nat) : Z := default 0 (words m !! i).

Section Receive.
(** The contents of freshly allocated memory, and whether a slot for the
    next capability can be allocated. *)
Variable junk : Z -> Z.
Variable slot_available : bool.

Definition malloc_words (n : Z) : list Z := map junk (seqZ 0 n).

(** [memcpy] of [count] words of the message to position [index]. *)
Definition copy_words (payload : list Z) (index count : Z) (m : lmp_recv_msg) : list Z :=
  let new := take (Z.to_nat count) (drop 1 (words m)) in
  take (Z.to_nat index) payload ++ new ++ drop (Z.to_nat index + length new) payload.

(** A piece of a long message, for the element at position [i] of the list:
    the element is removed and returned when it is complete. *)
Definition recv_long (m : lmp_recv_msg) (i : nat) (l : list recv_list)
  : outcome (option recv_list * list recv_list) :=
  match l !! i with
  | None => Fault NullDereference
  | Some rl =>
    let rem := u32 (rl_size rl - rl_index rl) in
    let count := if 8 <? rem then 8 else rem in
    let rl := RecvList (rl_type rl) (rl_id rl) (rl_cap rl) (u32 (rl_index rl + count)) (rl_size rl)
                       (rl_chan rl) (copy_words (rl_payload rl) (rl_index rl) count m) in
    ASSERT rl_index rl <=? rl_size rl;
    if rl_index rl =? rl_size rl then
      l ← rpc_recv_list_remove (<[i := rl]> l) i;
      Done (Some rl, l)
    else Done (None, <[i := rl]> l)
  end.

(** [recv_handling]: the message for which [recv_deal_with_msg] is called,
    if one is complete. *)
Definition recv_handling (m : lmp_recv_msg) (cap : Z) (rc : recv_chan)
  : outcome (option recv_list * recv_chan) :=
  let slot := if cap =? NULL_CAP then rc_slot rc else slot_available in
  if rc_registered rc then Fault CheckAborted else
  ASSERT 0 <? msglen m;
  let type := u8 (Z.shiftr (word m 0) 24) in
  let id := Z.land (Z.shiftr (word m 0) 16) 255 in
  let size := Z.land (word m 0) 65535 in
  if size <? 9 then
    let rl := RecvList type id cap size size (rc_chan rc) (take (Z.to_nat size) (drop 1 (words m))) in
    Done (Some rl, RecvChan (rc_chan rc) (rpc_recv_list rc) true slot)
  else
    let '(i, l) := match rpc_recv_lookup (rpc_recv_list rc) type id with
                   | Some i => (i, rpc_recv_list rc)
                   | None => (0%nat, RecvList type id cap 0 size (rc_chan rc) (malloc_words size)
                                     :: rpc_recv_list rc)
                   end in
    '(d, l) ← recv_long m i l;
    Done (d, RecvChan (rc_chan rc) l true slot).

(** The receive events of a channel one after the other, with the buffer
    contents each one finds; every event consumes the registration. *)
Fixpoint recv_all (stale : list Z) (ms : list lmp_msg) (rc : recv_chan)
  : outcome (list recv_list * recv_chan) :=
  match ms with
  | [] => Done ([], rc)
  | m :: ms' =>
    '(d, rc) ← recv_handling (lmp_chan_recv stale m) (lmp_cap m)
                 (RecvChan (rc_chan rc) (rpc_recv_list rc) false (rc_slot rc));
    '(ds, rc) ← recv_all stale ms' rc;
    Done (option_list d ++ ds, rc)
  end.
End Receive.

(** * Strings in words *)

(** The words that a little-endian machine reads from bytes; the last ones
    that do not fill a word are dropped. *)
Fixpoint words_of_bytes (l : list Z) : list Z :=
  match l with
  | a :: b :: c :: d :: l' => a + 256 * (b + 256 * (c + 256 * d)) :: words_of_bytes l'
  | _ => []
  end.

Definition bytes_of_word (w : Z) : list Z :=
  [w `mod` 256; (w / 256) `mod` 256; (w / 65536) `mod` 256; (w / 16777216) `mod` 256].
Definition bytes_of_words (l : list Z) : list Z := l ≫= bytes_of_word.

Definition trailing (charsize : Z) : Z :=
  if charsize `mod` 4 =? 0 then 0 else 4 - charsize `mod` 4.

(** [convert_charptr_to_uintptr_with_padding_and_copy]: the words and their
    number. *)
Definition convert_charptr_to_uintptr_with_padding_and_copy (input : list Z) (charsize : Z)
  : outcome (list Z * Z) :=
  if Z.of_nat (length input) <? charsize then Fault OutOfBounds else
  let outsize := (charsize + trailing charsize) / 4 in
  Done (words_of_bytes (take (Z.to_nat charsize) input ++ replicate (Z.to_nat (trailing charsize)) 0), outsize).

(** [persist_send_cleanup_wrapper]: the copy of the payload is allocated with
    the number of words as its number of bytes. *)
Definition persist_send_cleanup_wrapper (chan cap type payloadsize : Z) (payload : list Z) (scs id : Z)
  (ev : option (Z * errval)) (s : rpc) : outcome rpc :=
  let payloadsize2 := (payloadsize + trailing payloadsize) / 4 in
  if Z.of_nat (length payload) <? payloadsize then Fault OutOfBounds else
  if payloadsize2 <? payloadsize + trailing payloadsize then Fault OutOfBounds else
  let payload2 := words_of_bytes (take (Z.to_nat payloadsize) payload
                                  ++ replicate (Z.to_nat (trailing payloadsize)) 0) in
  send chan cap type payloadsize2 payload2 (Some scs) id ev s.
