(* ===== verification/RpcCorrect.v ===== *)
(** Correctness of the RPC message layer: messages are cut into pieces and
    put together again, every channel is a queue that loses nothing, and
    identifiers are not reused while they are in flight. *)
From S2P Require Import Prelude Rpc.

(** * The header word *)

Definition header (type id size : Z) : Z := type * 16777216 + id * 65536 + size.

Lemma header_send type id size : 0 <= type < 256 -> 0 <= id < 256 -> 0 <= size < 65536 ->
  u32 (Z.shiftl type 24 + Z.shiftl id 16 + size) = header type id size.
Proof.
  intros. rewrite !Z.shiftl_mul_pow2 by lia.
  change (2 ^ 24) with 16777216. change (2 ^ 16) with 65536. unfold header. apply u32_small. lia.
Qed.

Lemma header_recv type id size : 0 <= type < 256 -> 0 <= id < 256 -> 0 <= size < 65536 ->
  u8 (Z.shiftr (header type id size) 24) = type
  /\ Z.land (Z.shiftr (header type id size) 16) 255 = id
  /\ Z.land (header type id size) 65535 = size.
Proof.
  intros. rewrite !Z.shiftr_div_pow2 by lia. change (2 ^ 24) with 16777216. change (2 ^ 16) with 65536.
  change 255 with (Z.ones 8). change 65535 with (Z.ones 16). rewrite !Z.land_ones by lia.
  change (2 ^ 8) with 256. change (2 ^ 16) with 65536. unfold header. repeat split.
  - transitivity (u8 type); [f_equal|by apply u8_small]. symmetry. apply (Z.div_unique _ _ _ (id * 65536 + size)); lia.
  - rewrite <- (Z.div_unique _ 65536 (type * 256 + id) size) by lia.
    symmetry. apply (Z.mod_unique _ _ type); lia.
  - symmetry. apply (Z.mod_unique _ _ (type * 256 + id)); lia.
Qed.

(** * Messages and their pieces *)

Record message := Message {
  m_type : Z; m_id : Z; m_cap : Z; m_payload : list Z; m_callback : option Z
}.

Definition m_size (m : message) : Z := Z.of_nat (length (m_payload m)).
Definition m_header (m : message) : Z := header (m_type m) (m_id m) (m_size m).

Definition message_ok (m : message) : Prop :=
  0 <= m_type m < 256 /\ 0 <= m_id m < 256 /\ m_size m < 65536.

(** The LMP messages that carry a payload: eight words behind the header in
    each, the capability in the first. *)
Fixpoint pieces (fuel : nat) (hdr cap : Z) (p : list Z) : list lmp_msg :=
  match fuel with
  | O => []
  | S f => LmpMsg cap (hdr :: take 8 p)
           :: (if 8 <? Z.of_nat (length p) then pieces f hdr NULL_CAP (drop 8 p) else [])
  end.
Definition fragments_from (hdr cap : Z) (p : list Z) : list lmp_msg := pieces (S (length p)) hdr cap p.
Definition fragments (m : message) : list lmp_msg := fragments_from (m_header m) (m_cap m) (m_payload m).

Lemma pieces_fuel f g hdr cap p : (length p < f)%nat -> (length p < g)%nat ->
  pieces f hdr cap p = pieces g hdr cap p.
Proof.
  revert g cap p. induction f as [|f IH]; intros [|g] cap p Hf Hg; try lia; simpl.
  f_equal. zcases; [|done]. apply IH; rewrite length_drop; lia.
Qed.

Lemma fragments_small hdr cap p : Z.of_nat (length p) <= 8 ->
  fragments_from hdr cap p = [LmpMsg cap (hdr :: p)].
Proof. intros. unfold fragments_from. cbn. zdecide. by rewrite take_ge by lia. Qed.

Lemma fragments_large hdr cap p : 8 < Z.of_nat (length p) ->
  fragments_from hdr cap p = LmpMsg cap (hdr :: take 8 p) :: fragments_from hdr NULL_CAP (drop 8 p).
Proof.
  intros. unfold fragments_from at 1. cbn [pieces]. zdecide. f_equal.
  apply pieces_fuel; rewrite length_drop; lia.
Qed.

Lemma fragments_cons hdr cap p : exists rest, fragments_from hdr cap p = LmpMsg cap (hdr :: take 8 p) :: rest.
Proof. eexists. reflexivity. Qed.

(** * The state of the sender *)

Definition queue_of (ch : Z) (s : rpc) : list (Z * send_queue) :=
  match entry_of ch (chan_listing s) with Some c => cl_queue c | None => [] end.

Definition sq_ok (ch : Z) (q : send_queue) : Prop :=
  sq_chan q = ch /\ 0 <= sq_type q < 256 /\ 0 <= sq_id q < 256
  /\ sq_size q = Z.of_nat (length (sq_payload q)) /\ sq_size q < 65536
  /\ 0 <= sq_index q /\ (sq_index q = 0 \/ sq_index q < sq_size q).

(** The pieces of a queued message that are still to be sent. *)
Definition sq_rest (q : send_queue) : list lmp_msg :=
  fragments_from (header (sq_type q) (sq_id q) (sq_size q))
    (if sq_index q =? 0 then sq_cap q else NULL_CAP)
    (drop (Z.to_nat (sq_index q)) (sq_payload q)).

Definition queue_ok (ch next : Z) (q : list (Z * send_queue)) : Prop :=
  NoDup q.*1 /\ Forall (fun a => a < next) q.*1 /\ Forall (sq_ok ch) q.*2.

(** Every queue is well-formed and exactly the non-empty queues have a send
    handler, with their first block as its argument. *)
Definition rpc_inv (s : rpc) : Prop :=
  (forall ch, queue_ok ch (next_block s) (queue_of ch s))
  /\ queue_of 0 s = []
  /\ NoDup (send_events s).*1
  /\ (forall ch a, (ch, a) ∈ send_events s <-> head (queue_of ch s).*1 = Some a).

(** What is still to be sent on a channel, and all of its traffic. *)
Definition pending (ch : Z) (s : rpc) : list lmp_msg := concat (map sq_rest (queue_of ch s).*2).
Definition traffic (ch : Z) (s : rpc) : list lmp_msg := wire s ch ++ pending ch s.

Lemma rpc_init_inv : rpc_inv rpc_init.
Proof.
  repeat split; simpl; try constructor; try done.
  by intros ?%elem_of_nil.
Qed.

(** ** Reading back what was stored *)

Lemma entry_store_same ch q l c : entry_of ch l = Some c ->
  entry_of ch (store_queue ch q l) = Some (ChanList ch q).
Proof.
  induction l as [|d l IH]; simpl; [done|]. intros H.
  destruct (Z.eqb_spec (cl_chan d) ch) as [Hd|Hne]; simpl.
  - by rewrite Z.eqb_refl.
  - zdecide. auto.
Qed.

Lemma entry_store_other ch ch' q l : ch' <> ch -> entry_of ch' (store_queue ch q l) = entry_of ch' l.
Proof.
  intros Hne. induction l as [|d l IH]; simpl; [done|].
  destruct (Z.eqb_spec (cl_chan d) ch) as [Hd|Hd]; simpl.
  - zdecide. done.
  - by rewrite IH.
Qed.

Lemma queue_of_entry ch s x q : queue_of ch s = x :: q ->
  exists c, entry_of ch (chan_listing s) = Some c /\ cl_queue c = x :: q.
Proof. unfold queue_of. destruct (entry_of _ _) eqn:E; [|done]. eauto. Qed.

Lemma block_of_head a x q : block_of a ((a, x) :: q) = Some x.
Proof. simpl. by rewrite Z.eqb_refl. Qed.

Lemma store_block_head a x y q : a ∉ q.*1 -> store_block a y ((a, x) :: q) = (a, y) :: q.
Proof.
  intros Hn. unfold store_block. simpl. rewrite Z.eqb_refl. f_equal.
  induction q as [|[b z] q IH]; [done|]. simpl in *.
  apply not_elem_of_cons in Hn as [Hb Hn]. zdecide. f_equal. auto.
Qed.

(** ** One event *)

(** The kernel accepts a message or reports a transient error. *)
Definition answer_ok (r : errval) : bool := err_is_ok r || lmp_err_is_transient r.

Lemma answer_fail r : answer_ok r = true -> err_is_fail r = true -> lmp_err_is_transient r = true.
Proof. unfold answer_ok, err_is_ok. by destruct (err_is_fail r). Qed.

Lemma sq_first ch q : sq_ok ch q ->
  let rem := u32 (sq_size q - sq_index q) in
  rem = Z.of_nat (length (drop (Z.to_nat (sq_index q)) (sq_payload q)))
  /\ rem = sq_size q - sq_index q /\ 0 <= rem < 65536.
Proof.
  intros (_ & _ & _ & Hs & Hb & Hi & Hd). cbn zeta.
  rewrite u32_small by lia. rewrite length_drop. lia.
Qed.

(** The first piece of the queue's head is what [actual_sending] sends. *)
Lemma sends_first_piece ch q (s : rpc) r : sq_ok ch q -> ch <> 0 ->
  let rem := u32 (sq_size q - sq_index q) in
  actual_sending (sq_chan q) (if sq_index q =? 0 then sq_cap q else NULL_CAP)
    (u32 (Z.shiftl (sq_type q) 24 + Z.shiftl (sq_id q) 16 + sq_size q)) (if 8 <? rem then 8 else rem)
    (drop (Z.to_nat (sq_index q)) (sq_payload q)) r s
  = Done (r, if err_is_fail r then s
             else set_wire (<[ch := wire s ch ++ take 1 (sq_rest q)]> (wire s)) s).
Proof.
  intros Hq Hch rem. destruct (sq_first ch q Hq) as (Hlen & Hrem & Hbnd).
  fold rem in Hlen, Hrem, Hbnd. destruct Hq as (-> & Ht & Hid & Hs & Hb & Hi & Hd).
  rewrite header_send by lia. unfold actual_sending.
  rewrite (proj2 (Z.eqb_neq ch 0)) by done. rewrite <- Hlen.
  replace (_ || _) with false by (destruct (Z.ltb_spec 8 rem); symmetry; apply orb_false_iff; split; zcases; lia).
  replace (rem <? _) with false by (destruct (Z.ltb_spec 8 rem); zcases; lia).
  destruct (err_is_fail r); [done|]. unfold sq_rest, fragments_from. cbn [pieces take].
  do 6 f_equal. destruct (Z.ltb_spec 8 rem); [done|]. rewrite !take_ge; [done|lia|lia].
Qed.

Lemma rest_large ch q : sq_ok ch q -> 8 < sq_size q - sq_index q ->
  sq_rest q = take 1 (sq_rest q) ++ sq_rest (sq_set_index (u32 (sq_index q + 8)) q)
  /\ sq_ok ch (sq_set_index (u32 (sq_index q + 8)) q).
Proof.
  intros Hq Hl. destruct (sq_first ch q Hq) as (Hlen & Hrem & Hbnd).
  destruct Hq as (Hc & Ht & Hid & Hs & Hb & Hi & Hd). rewrite u32_small by lia. split.
  - unfold sq_rest at 1 2 3. cbn [sq_set_index sq_index sq_type sq_id sq_size sq_cap sq_payload].
    rewrite fragments_large by lia. cbn [take app]. f_equal. zdecide.
    rewrite drop_drop, take_0. cbn [app]. do 2 f_equal. lia.
  - repeat split; cbn; try done; lia.
Qed.

Lemma rest_small ch q : sq_ok ch q -> sq_size q - sq_index q <= 8 -> sq_rest q = take 1 (sq_rest q).
Proof.
  intros Hq Hl. destruct (sq_first ch q Hq) as (Hlen & Hrem & Hbnd).
  unfold sq_rest. by rewrite fragments_small by lia.
Qed.

(** A state that differs in the queue of one channel. *)
Lemma queue_of_store ch q s c : entry_of ch (chan_listing s) = Some c ->
  forall ch', queue_of ch' (set_listing (store_queue ch q (chan_listing s)) s)
              = if decide (ch' = ch) then q else queue_of ch' s.
Proof.
  intros He ch'. unfold queue_of. cbn. case_decide as Hd.
  - subst. by rewrite (entry_store_same _ _ _ _ He).
  - by rewrite entry_store_other.
Qed.

(** How a state [s'] arises from [s] by a change of one channel's queue: the
    invariant follows from the queue and the handlers. *)
Lemma rpc_inv_change ch s s' :
  rpc_inv s -> next_block s <= next_block s' -> ch <> 0 ->
  (forall ch', ch' <> ch -> queue_of ch' s' = queue_of ch' s) ->
  queue_ok ch (next_block s') (queue_of ch s') ->
  (exists ev, Permutation (send_events s) (match head (queue_of ch s).*1 with Some a => [(ch, a)] | None => [] end ++ ev)
              /\ Permutation (send_events s') (match head (queue_of ch s').*1 with Some a => [(ch, a)] | None => [] end ++ ev)) ->
  rpc_inv s'.
Proof.
  intros (Hq & H0 & Hnd & Hev) Hn Hch Hoth Hqc (ev & He & He').
  assert (Hno : ch ∉ ev.*1).
  { intros ((c & a) & Hc & Hin)%list_elem_of_fmap. cbn in Hc. subst c.
    assert (Hin' : (ch, a) ∈ send_events s) by (rewrite He, elem_of_app; right; done).
    apply Hev in Hin'. rewrite Hin' in He. rewrite He, fmap_app in Hnd. cbn in Hnd.
    apply NoDup_cons in Hnd as [Hnd _]. apply Hnd. apply list_elem_of_fmap. by exists (ch, a). }
  split; [|split; [|split]].
  - intros ch'. destruct (decide (ch' = ch)) as [->|Hne]; [done|].
    rewrite Hoth by done. destruct (Hq ch') as (? & Hb & ?). split; [done|]. split; [|done].
    eapply Forall_impl; [exact Hb|]. intros; cbn in *; lia.
  - by rewrite Hoth.
  - rewrite He', fmap_app. rewrite He, fmap_app in Hnd. apply NoDup_app in Hnd as (_ & _ & Hnd).
    destruct (head (queue_of ch s').*1); cbn; [|done]. by apply NoDup_cons.
  - intros ch' a. rewrite He', elem_of_app. destruct (decide (ch' = ch)) as [->|Hne].
    + split; [|intros ->; left; by left].
      intros [H|H].
      * destruct (head (queue_of ch s').*1) as [b|]; [|by apply elem_of_nil in H].
        apply list_elem_of_singleton in H. congruence.
      * destruct Hno. apply list_elem_of_fmap. by exists (ch, a).
    + rewrite (Hoth ch' Hne), <- Hev, He, elem_of_app.
      assert (Hx : forall o : option Z, (ch', a) ∈ (match o with Some b => [(ch, b)] | None => [] end) -> False).
      { intros [b|] H; [apply list_elem_of_singleton in H; congruence|by apply elem_of_nil in H]. }
      split; (intros [H|H]; [by apply Hx in H|by right]).
Qed.

(** The handler of a channel, taken from the list of handlers. *)
Lemma find_handler ch s x : rpc_inv s -> head (queue_of ch s).*1 = Some x ->
  exists i, list_find (fun p : Z * Z => p.1 = ch) (send_events s) = Some (i, (ch, x))
  /\ Permutation (send_events s) ((ch, x) :: delete i (send_events s))
  /\ (ch ∉ (delete i (send_events s)).*1).
Proof.
  intros (Hq & H0 & Hnd & Hev) Hh. apply Hev in Hh as Hin.
  destruct (list_find_elem_of (fun p : Z * Z => p.1 = ch) _ _ Hin eq_refl) as [[i [c y]] Hf].
  apply list_find_Some in Hf as Hf'. destruct Hf' as (Hi & Hc & _). cbn in Hc. subst c.
  assert (y = x) as ->.
  { apply list_elem_of_lookup_2 in Hi. apply Hev in Hi. congruence. }
  apply delete_Permutation in Hi as Hp. exists i. split; [done|]. split; [done|].
  rewrite Hp in Hnd. by apply NoDup_cons in Hnd as [? _].
Qed.

Lemma register_send_ok ch a s : ch ∉ (send_events s).*1 ->
  register_send ch a s = Done (set_events ((ch, a) :: send_events s) s).
Proof. intros. unfold register_send. by rewrite bool_decide_false. Qed.

(** What an event does on its channel: it changes nothing if nothing is
    queued, and keeps the queue if the kernel refuses the message; otherwise
    one piece moves from the queue to the wire. *)
Definition event_effect (ch : Z) (r : errval) (s s' : rpc) : Prop :=
  rpc_inv s' /\ next_block s' = next_block s
  /\ (forall ch', ch' <> ch -> queue_of ch' s' = queue_of ch' s)
  /\ (if err_is_fail r then queue_of ch s' = queue_of ch s /\ wire s' = wire s
      else exists p, pending ch s = p :: pending ch s' /\ wire s' = <[ch := wire s ch ++ [p]]> (wire s)).

Lemma queue_ok_head ch n a q rest : queue_ok ch n ((a, q) :: rest) ->
  sq_ok ch q /\ (a ∉ rest.*1) /\ a < n /\ queue_ok ch n rest.
Proof.
  intros (Hnd & Hb & Hf). cbn in *. apply NoDup_cons in Hnd as [? ?].
  apply Forall_cons in Hb as [? ?], Hf as [? ?]. done.
Qed.

Lemma pending_cons ch s a q rest : queue_of ch s = (a, q) :: rest ->
  pending ch s = sq_rest q ++ concat (map sq_rest rest.*2).
Proof. intros E. unfold pending. by rewrite E. Qed.

Lemma rest_take1 q : exists p, take 1 (sq_rest q) = [p].
Proof. destruct (fragments_cons (header (sq_type q) (sq_id q) (sq_size q))
    (if sq_index q =? 0 then sq_cap q else NULL_CAP) (drop (Z.to_nat (sq_index q)) (sq_payload q))) as [x Hx].
  unfold sq_rest. rewrite Hx. by eexists.
Qed.

Section Event.
Context (ch a : Z) (q : send_queue) (rest : list (Z * send_queue)) (r : errval) (s : rpc) (i : nat).
Hypothesis Hinv : rpc_inv s.
Hypothesis Hqueue : queue_of ch s = (a, q) :: rest.
Hypothesis Hans : answer_ok r = true.
Hypothesis Hperm : Permutation (send_events s) ((ch, a) :: delete i (send_events s)).
Hypothesis Hfree : ch ∉ (delete i (send_events s)).*1.

Let s1 : rpc := set_events (delete i (send_events s)) s.

Lemma event_chan : ch <> 0 /\ queue_ok ch (next_block s) ((a, q) :: rest).
Proof.
  destruct Hinv as (Hq & H0 & _). split.
  - intros ->. rewrite H0 in Hqueue. done.
  - rewrite <- Hqueue. apply Hq.
Qed.

Lemma event_refused : err_is_fail r = true ->
  exists s', send_loop ch a r s1 = Done s' /\ event_effect ch r s s'.
Proof.
  intros Hr. destruct event_chan as [Hch Hok]. apply queue_ok_head in Hok as (Hq & Hn & Hlt & Hrest).
  destruct (queue_of_entry _ _ _ _ Hqueue) as (c & Hc & Hcq). unfold send_loop. cbn [chan_listing s1 set_events].
  rewrite Hc. cbn [mbind option_bind]. rewrite Hcq, block_of_head, (sends_first_piece ch q s1 r Hq Hch), Hr.
  step. rewrite Hr, (answer_fail _ Hans Hr). destruct Hq as (-> & _). rewrite register_send_ok by done.
  eexists. split; [reflexivity|]. split; [|by rewrite Hr].
  apply (rpc_inv_change ch s); [done|done|done|done| |].
  - apply (proj1 Hinv ch).
  - exists (delete i (send_events s)). change (queue_of ch _) with (queue_of ch s) at 2.
    rewrite Hqueue. split; [exact Hperm|reflexivity].
Qed.

Lemma event_continues : err_is_fail r = false -> 8 < sq_size q - sq_index q ->
  exists s', send_loop ch a r s1 = Done s' /\ event_effect ch r s s'.
Proof.
  intros Hr Hl. destruct event_chan as [Hch Hok]. pose proof Hok as (Hnd & Hb & Hf).
  apply queue_ok_head in Hok as (Hq & Hn & Hlt & Hrest).
  destruct (rest_large ch q Hq Hl) as [Hsplit Hq']. destruct (rest_take1 q) as [p Hp].
  destruct (queue_of_entry _ _ _ _ Hqueue) as (c & Hc & Hcq). unfold send_loop. cbn [chan_listing s1 set_events].
  rewrite Hc. cbn [mbind option_bind]. rewrite Hcq, block_of_head, (sends_first_piece ch q s1 r Hq Hch), Hr.
  step. rewrite Hr. destruct (sq_first ch q Hq) as (_ & -> & _). zdecide.
  cbn [chan_listing set_wire set_events s1]. rewrite Hc, Hcq, store_block_head by done.
  destruct Hq as (-> & _). rewrite register_send_ok by done.
  eexists. split; [reflexivity|].
  pose proof (queue_of_store ch ((a, sq_set_index (u32 (sq_index q + 8)) q) :: rest) s c Hc) as Hst.
  assert (Hsame := Hst ch). rewrite decide_True in Hsame by done.
  match goal with |- event_effect _ _ _ ?s' => set (s2 := s') end.
  assert (Hq2 : forall ch', queue_of ch' s2 = queue_of ch' (set_listing (store_queue ch ((a, sq_set_index (u32 (sq_index q + 8)) q) :: rest) (chan_listing s)) s)) by reflexivity.
  assert (Hoth : forall ch', ch' <> ch -> queue_of ch' s2 = queue_of ch' s).
  { intros ch' Hne. rewrite Hq2, Hst. by rewrite decide_False. }
  split; [|split; [done|split; [done|]]].
  - apply (rpc_inv_change ch s); [done|done|done|done| |].
    + rewrite Hq2, Hsame. split; [done|]. split; [done|]. cbn. apply Forall_cons. split; [done|apply Hrest].
    + exists (delete i (send_events s)). rewrite Hq2, Hsame, Hqueue. split; [exact Hperm|reflexivity].
  - rewrite Hr. exists p. rewrite (pending_cons _ _ _ _ _ Hqueue), Hsplit, Hp.
    rewrite (pending_cons ch s2 a (sq_set_index (u32 (sq_index q + 8)) q) rest) by (rewrite Hq2; exact Hsame).
    split; [done|]. cbn [wire s2 set_events set_listing set_wire s1]. by rewrite Hp.
Qed.

(** The state after the last piece of a message left the queue, up to the
    handler of the next message. *)
Lemma finish_message_spec s2 : chan_listing s2 = chan_listing s -> send_events s2 = delete i (send_events s) ->
  exists s', finish_message ch a q s2 = Done s'
  /\ chan_listing s' = store_queue ch rest (chan_listing s) /\ wire s' = wire s2 /\ next_block s' = next_block s2
  /\ send_events s' = match head rest.*1 with Some b => [(ch, b)] | None => [] end ++ delete i (send_events s).
Proof.
  intros Hl He. destruct event_chan as [Hch Hok]. apply queue_ok_head in Hok as (_ & _ & _ & Hrest).
  destruct (queue_of_entry _ _ _ _ Hqueue) as (c & Hc & Hcq). unfold finish_message.
  set (s3 := match sq_callback q with Some cb => _ | None => s2 end).
  assert (H3 : chan_listing s3 = chan_listing s2 /\ wire s3 = wire s2 /\ next_block s3 = next_block s2
               /\ send_events s3 = send_events s2) by (unfold s3; by destruct (sq_callback q)).
  destruct H3 as (H31 & H32 & H33 & H34). rewrite H31, Hl, Hc, Hcq. rewrite Z.eqb_refl. step.
  match goal with |- context [if ?b then ?x else ?y] => set (s4 := if b then x else y) end.
  assert (H4 : chan_listing s4 = store_queue ch rest (chan_listing s) /\ wire s4 = wire s2
               /\ next_block s4 = next_block s2 /\ send_events s4 = delete i (send_events s)).
  { unfold s4. rewrite <- He, <- H32, <- H33, <- H34. by case_match. }
  destruct H4 as (H41 & H42 & H43 & H44). destruct rest as [|[b x] rest'].
  - exists s4. done.
  - destruct Hrest as (_ & _ & Hf). cbn in Hf. apply Forall_cons in Hf as [(-> & _) _].
    rewrite register_send_ok by (by rewrite H44). eexists. split; [reflexivity|].
    cbn. by rewrite H44.
Qed.

Lemma event_finishes : err_is_fail r = false -> sq_size q - sq_index q <= 8 ->
  exists s', send_loop ch a r s1 = Done s' /\ event_effect ch r s s'.
Proof.
  intros Hr Hl. destruct event_chan as [Hch Hok]. apply queue_ok_head in Hok as (Hq & Hn & Hlt & Hrest).
  pose proof (rest_small ch q Hq Hl) as Hsplit. destruct (rest_take1 q) as [p Hp].
  destruct (queue_of_entry _ _ _ _ Hqueue) as (c & Hc & Hcq). unfold send_loop. cbn [chan_listing s1 set_events].
  rewrite Hc. cbn [mbind option_bind]. rewrite Hcq, block_of_head, (sends_first_piece ch q s1 r Hq Hch), Hr.
  step. rewrite Hr. destruct (sq_first ch q Hq) as (_ & -> & _). zdecide.
  destruct (finish_message_spec (set_wire (<[ch:=wire s1 ch ++ take 1 (sq_rest q)]> (wire s1)) s1)) as
    (s' & -> & Hls & Hw & Hn' & He'); [done|done|]. exists s'. split; [done|].
  pose proof (queue_of_store ch rest s c Hc) as Hst.
  assert (Hq2 : forall ch', queue_of ch' s' = if decide (ch' = ch) then rest else queue_of ch' s).
  { intros ch'. rewrite <- Hst. unfold queue_of. by rewrite Hls. }
  assert (Hsame := Hq2 ch). rewrite decide_True in Hsame by done.
  assert (Hoth : forall ch', ch' <> ch -> queue_of ch' s' = queue_of ch' s).
  { intros ch' Hne. by rewrite Hq2, decide_False. }
  split; [|split; [done|split; [done|]]].
  - apply (rpc_inv_change ch s); [done|by rewrite Hn'|done|done|by rewrite Hsame, Hn'|].
    exists (delete i (send_events s)). rewrite Hsame, Hqueue, He'. split; [exact Hperm|reflexivity].
  - rewrite Hr. exists p. rewrite (pending_cons _ _ _ _ _ Hqueue), Hsplit, Hp. unfold pending.
    rewrite Hsame. split; [done|]. rewrite Hw. cbn [wire set_wire s1 set_events]. by rewrite Hp.
Qed.
End Event.

Lemma event_dispatch_idle ch r s : rpc_inv s -> queue_of ch s = [] -> event_dispatch (Some (ch, r)) s = Done s.
Proof.
  intros (Hq & H0 & Hnd & Hev) He. cbn. destruct (list_find _ _) as [[i [c a]]|] eqn:Hf; [|done].
  apply list_find_Some in Hf as (Hi & Hc & _). cbn in Hc. subst c. apply list_elem_of_lookup_2 in Hi.
  apply Hev in Hi. by rewrite He in Hi.
Qed.

Lemma event_dispatch_busy ch r s : rpc_inv s -> queue_of ch s <> [] -> answer_ok r = true ->
  exists s', event_dispatch (Some (ch, r)) s = Done s' /\ event_effect ch r s s'.
Proof.
  intros Hinv Hq Hr. destruct (queue_of ch s) as [|[a q] rest] eqn:E; [done|].
  destruct (find_handler ch s a Hinv) as (i & Hf & Hp & Hn); [by rewrite E|].
  cbn [event_dispatch]. rewrite Hf. destruct (err_is_fail r) eqn:Er; [by eapply event_refused|].
  destruct (Z.le_gt_cases (sq_size q - sq_index q) 8); [by eapply event_finishes|by eapply event_continues].
Qed.

(** An event moves pieces from the queue to the wire and loses none. *)
Lemma event_dispatch_spec ev s : rpc_inv s ->
  match ev with Some (_, r) => answer_ok r = true | None => True end ->
  exists s', event_dispatch ev s = Done s' /\ rpc_inv s' /\ forall ch, traffic ch s' = traffic ch s.
Proof.
  intros Hinv Hr. destruct ev as [[ch r]|]; [|by exists s].
  destruct (decide (queue_of ch s = [])) as [He|Hne].
  { exists s. split; [by apply event_dispatch_idle|done]. }
  destruct (event_dispatch_busy ch r s Hinv Hne Hr) as (s' & -> & Hi & _ & Hoth & Hx).
  exists s'. split; [done|]. split; [done|]. intros ch'. unfold traffic. destruct (err_is_fail r).
  - destruct Hx as [Hq Hw]. rewrite Hw. f_equal. unfold pending.
    destruct (decide (ch' = ch)) as [->|]; [by rewrite Hq|by rewrite Hoth].
  - destruct Hx as (p & Hp & Hw). rewrite Hw. destruct (decide (ch' = ch)) as [->|Hc].
    + rewrite fn_lookup_insert, Hp, <- app_assoc. done.
    + rewrite fn_lookup_insert_ne by done. unfold pending. by rewrite Hoth.
Qed.

(** ** Queueing a message *)

Definition send_message (ch : Z) (m : message) (ev : option (Z * errval)) : rpc -> outcome rpc :=
  send ch (m_cap m) (m_type m) (m_size m) (m_payload m) (m_callback m) (m_id m) ev.

Lemma queue_of_new ch s : entry_of ch (chan_listing s) = None ->
  forall ch', queue_of ch' (set_listing (ChanList ch [] :: chan_listing s) s) = queue_of ch' s.
Proof.
  intros He ch'. unfold queue_of. cbn. destruct (Z.eqb_spec ch ch') as [->|]; [by rewrite He|done].
Qed.

(** The state in which the channel has an entry. *)
Lemma send_entry ch s : exists s1 c,
  s1 = match entry_of ch (chan_listing s) with
       | Some _ => s
       | None => set_listing (ChanList ch [] :: chan_listing s) s
       end
  /\ entry_of ch (chan_listing s1) = Some c /\ cl_queue c = queue_of ch s
  /\ (forall ch', queue_of ch' s1 = queue_of ch' s)
  /\ next_block s1 = next_block s /\ send_events s1 = send_events s /\ wire s1 = wire s.
Proof.
  destruct (entry_of ch (chan_listing s)) as [c|] eqn:E.
  - exists s, c. repeat split; try done. unfold queue_of. by rewrite E.
  - exists (set_listing (ChanList ch [] :: chan_listing s) s), (ChanList ch []).
    split; [done|]. split; [cbn; by rewrite Z.eqb_refl|]. split; [unfold queue_of; by rewrite E|].
    split; [by apply queue_of_new|done].
Qed.

Lemma new_block_fresh ch s : rpc_inv s -> next_block s ∉ (queue_of ch s).*1.
Proof.
  intros (Hq & _) Hin. destruct (Hq ch) as (_ & Hb & _). rewrite Forall_forall in Hb.
  specialize (Hb _ Hin). lia.
Qed.

Lemma queue_ok_snoc ch n q x : queue_ok ch n q -> sq_ok ch x -> n ∉ q.*1 -> queue_ok ch (n + 1) (q ++ [(n, x)]).
Proof.
  intros (Hnd & Hb & Hf) Hx Hn. split; [|split].
  - rewrite fmap_app. apply NoDup_app. split; [done|]. split; [|apply NoDup_singleton].
    intros y Hy ->%list_elem_of_singleton. done.
  - rewrite fmap_app. apply Forall_app. split; [|apply Forall_singleton; cbn; lia].
    eapply Forall_impl; [exact Hb|]. intros; cbn in *; lia.
  - rewrite fmap_app. apply Forall_app. split; [done|]. by apply Forall_singleton.
Qed.

Lemma send_spec ch m ev s : rpc_inv s -> ch <> 0 -> message_ok m ->
  match ev with Some (_, r) => answer_ok r = true | None => True end ->
  exists s', send_message ch m ev s = Done s' /\ rpc_inv s'
  /\ forall ch', traffic ch' s' = traffic ch' s ++ (if decide (ch' = ch) then fragments m else []).
Proof.
  intros Hinv Hch (Ht & Hid & Hsz) Hev. unfold send_message, send.
  assert (Hpos : 0 <= m_size m) by (unfold m_size; lia).
  rewrite (assert_true (m_size m <? 65536)) by (by zdecide). step.
  destruct (send_entry ch s) as (s1 & c & <- & Hc & Hcq & Hqs & Hnb & Hse & Hw). rewrite Hc, Hcq.
  set (sq := SendQueue _ _ _ _ _ _ _ _). rewrite Hnb. set (n := next_block s).
  pose proof (queue_of_store ch (queue_of ch s ++ [(n, sq)]) s1 c Hc) as Hst.
  set (s2 := set_block (n + 1) _).
  assert (Hq2 : forall ch', queue_of ch' s2 = if decide (ch' = ch) then queue_of ch s ++ [(n, sq)] else queue_of ch' s).
  { intros ch'. rewrite <- (Hqs ch'). apply Hst. }
  assert (Hsame := Hq2 ch). rewrite decide_True in Hsame by done.
  assert (Hoth : forall ch', ch' <> ch -> queue_of ch' s2 = queue_of ch' s).
  { intros ch' Hne. by rewrite Hq2, decide_False. }
  assert (Hsq : sq_ok ch sq) by (repeat split; cbn; try done; lia).
  assert (Hqok : queue_ok ch (n + 1) (queue_of ch s ++ [(n, sq)])).
  { apply queue_ok_snoc; [apply (proj1 Hinv)|done|by apply new_block_fresh]. }
  assert (Htr : forall ch', traffic ch' s2 = traffic ch' s ++ (if decide (ch' = ch) then fragments m else [])).
  { intros ch'. unfold traffic. change (wire s2) with (wire s1). rewrite Hw, <- app_assoc. f_equal.
    unfold pending. rewrite Hq2. case_decide; subst; [|by rewrite app_nil_r].
    rewrite fmap_app, map_app, concat_app. f_equal. cbn. by rewrite app_nil_r. }
  destruct (queue_of ch s) as [|x0 q0] eqn:E.
  - assert (Hno : ch ∉ (send_events s2).*1).
    { change (send_events s2) with (send_events s1). rewrite Hse.
      intros ([c' a] & Hc' & Hin)%list_elem_of_fmap. cbn in Hc'. subst c'.
      apply Hinv in Hin. by rewrite E in Hin. }
    rewrite (register_send_ok ch n s2 Hno). step.
    assert (Hinv3 : rpc_inv (set_events ((ch, n) :: send_events s2) s2)).
    { apply (rpc_inv_change ch s); [done|cbn; fold n; lia|done|exact Hoth| |].
      - change (queue_of ch _) with (queue_of ch s2). rewrite Hsame. exact Hqok.
      - exists (send_events s). change (queue_of ch (set_events _ _)) with (queue_of ch s2).
        rewrite Hsame, E. cbn. by rewrite Hse. }
    destruct (event_dispatch_spec ev _ Hinv3 Hev) as (s' & -> & Hi & Htr').
    exists s'. split; [done|]. split; [done|]. intros ch'. by rewrite Htr', <- Htr.
  - exists s2. split; [done|]. split; [|done].
    apply (rpc_inv_change ch s); [done|cbn; fold n; lia|done|done|by rewrite Hsame|].
    destruct x0 as [a0 x0]. destruct (find_handler ch s a0 Hinv) as (i & _ & Hp & _); [by rewrite E|].
    exists (delete i (send_events s)). rewrite Hsame, E. cbn. rewrite Hse. split; exact Hp.
Qed.

(** * Runs *)

(** What the program and its environment do: queue a message, or handle an
    event. *)
Inductive action :=
| ActSend (ch : Z) (m : message) (ev : option (Z * errval))
| ActEvent (ev : option (Z * errval)).

Definition run_action (a : action) (s : rpc) : outcome rpc :=
  match a with
  | ActSend ch m ev => send_message ch m ev s
  | ActEvent ev => event_dispatch ev s
  end.

Fixpoint run_actions (l : list action) (s : rpc) : outcome rpc :=
  match l with
  | [] => Done s
  | a :: l' => s ← run_action a s; run_actions l' s
  end.

Definition event_ok (ev : option (Z * errval)) : Prop :=
  match ev with Some (_, r) => answer_ok r = true | None => True end.

Definition action_ok (a : action) : Prop :=
  match a with
  | ActSend ch m ev => ch <> 0 /\ message_ok m /\ event_ok ev
  | ActEvent ev => event_ok ev
  end.

(** The messages that a run sends on a channel, in order. *)
Definition sent_on (ch : Z) (a : action) : list message :=
  match a with
  | ActSend ch' m _ => if decide (ch' = ch) then [m] else []
  | ActEvent _ => []
  end.
Definition sent (ch : Z) (l : list action) : list message := l ≫= sent_on ch.

Lemma run_actions_spec l s : rpc_inv s -> Forall action_ok l ->
  exists s', run_actions l s = Done s' /\ rpc_inv s'
  /\ forall ch, traffic ch s' = traffic ch s ++ concat (map fragments (sent ch l)).
Proof.
  intros Hinv Hl. revert s Hinv. induction Hl as [|a l Ha Hl IH]; intros s Hinv.
  { exists s. split; [done|]. split; [done|]. intros. cbn. by rewrite app_nil_r. }
  assert (Hstep : exists s1, run_action a s = Done s1 /\ rpc_inv s1
    /\ forall ch, traffic ch s1 = traffic ch s ++ concat (map fragments (sent_on ch a))).
  { destruct a as [ch m ev|ev]; cbn [run_action sent_on action_ok] in *.
    - destruct Ha as (? & ? & ?). destruct (send_spec ch m ev s) as (s1 & ? & ? & Ht); try done.
      exists s1. split; [done|]. split; [done|]. intros ch'. rewrite Ht. f_equal.
      destruct (decide (ch' = ch)) as [->|]; [rewrite decide_True by done|rewrite decide_False by congruence];
        cbn; by rewrite ?app_nil_r.
    - destruct (event_dispatch_spec ev s Hinv Ha) as (s1 & ? & ? & Ht).
      exists s1. split; [done|]. split; [done|]. intros ch. by rewrite Ht, app_nil_r. }
  destruct Hstep as (s1 & Hr & Hi & Ht). cbn [run_actions]. rewrite Hr. step.
  destruct (IH s1 Hi) as (s' & -> & Hi' & Ht'). exists s'. split; [done|]. split; [done|].
  intros ch. rewrite Ht', Ht, <- app_assoc. f_equal. unfold sent. cbn [mbind list_bind].
  change (l ≫= sent_on ch) with (sent ch l). by rewrite map_app, concat_app.
Qed.

(** The successful sends of a channel in a sequence of events. *)
Definition accepted (ch : Z) (ev : option (Z * errval)) : bool :=
  match ev with Some (c, r) => (c =? ch) && err_is_ok r | None => false end.

Lemma events_drain ch evs s : rpc_inv s -> Forall event_ok evs ->
  exists s', run_actions (map ActEvent evs) s = Done s' /\ rpc_inv s'
  /\ length (pending ch s') = (length (pending ch s) - length (filter (fun e => accepted ch e = true) evs))%nat.
Proof.
  intros Hinv Hl. revert s Hinv. induction Hl as [|ev evs Ha Hl IH]; intros s Hinv.
  { exists s. split; [done|]. split; [done|]. cbn. lia. }
  assert (Hstep : exists s1, event_dispatch ev s = Done s1 /\ rpc_inv s1
    /\ length (pending ch s1) = (length (pending ch s) - (if accepted ch ev then 1 else 0))%nat).
  { destruct ev as [[c r]|]; [|exists s; cbn; split_and!; [done|done|lia]].
    destruct (decide (queue_of c s = [])) as [He|Hne].
    { exists s. split; [by apply event_dispatch_idle|]. split; [done|]. cbn.
      destruct (Z.eqb_spec c ch) as [->|]; cbn; [|lia]. unfold pending. rewrite He. cbn. by case_match. }
    destruct (event_dispatch_busy c r s Hinv Hne Ha) as (s1 & -> & Hi & _ & Hoth & Hx).
    exists s1. split; [done|]. split; [done|]. cbn. unfold err_is_ok.
    destruct (Z.eqb_spec c ch) as [->|Hcc]; cbn.
    - destruct (err_is_fail r); cbn.
      + destruct Hx as [Hq _]. unfold pending. rewrite Hq. lia.
      + destruct Hx as (p & Hp & _). rewrite Hp. cbn. lia.
    - unfold pending. rewrite Hoth by done. lia. }
  destruct Hstep as (s1 & Hr & Hi & Hlen). cbn [map run_actions run_action]. rewrite Hr. step.
  destruct (IH s1 Hi) as (s' & -> & Hi' & Hlen'). exists s'. split; [done|]. split; [done|].
  rewrite Hlen', Hlen, filter_cons. destruct (accepted ch ev); case_decide; try done; cbn; lia.
Qed.

(** * Receiving *)

Section Receiver.
Context (junk : Z -> Z) (slot_available : bool) (stale : list Z).

(** The message as it is handed to [recv_deal_with_msg] of a channel. *)
Definition received (ch : Z) (m : message) : recv_list :=
  RecvList (m_type m) (m_id m) (m_cap m) (m_size m) (m_size m) ch (m_payload m).

Definition closed (rc : recv_chan) : recv_chan := RecvChan (rc_chan rc) (rpc_recv_list rc) false (rc_slot rc).

Lemma take_piece (p : list Z) : take (Z.to_nat (if 8 <? Z.of_nat (length p) then 8 else Z.of_nat (length p)))
  (take 8 p ++ drop (S (length (take 8 p))) stale) = take 8 p.
Proof.
  destruct (Z.ltb_spec 8 (Z.of_nat (length p))).
  - rewrite take_app_le by (rewrite length_take; lia). rewrite take_take. f_equal.
  - rewrite (take_ge p 8) by lia. rewrite Nat2Z.id. apply take_app_length.
Qed.

Lemma remove_at l (i : nat) rl : (i < length l)%nat ->
  rpc_recv_list_remove (<[i := rl]> l) i = Done (delete i l).
Proof.
  revert i. induction l as [|x l IH]; intros [|i] Hi; cbn in *; try lia; [done|].
  rewrite IH by lia. done.
Qed.

(** The state of a message of which [k] words arrived. *)
Definition partial (ch : Z) (m : message) (k : nat) (rl : recv_list) : Prop :=
  rl_type rl = m_type m /\ rl_id rl = m_id m /\ rl_cap rl = m_cap m /\ rl_chan rl = ch
  /\ rl_size rl = m_size m /\ rl_index rl = Z.of_nat k /\ length (rl_payload rl) = length (m_payload m)
  /\ take k (rl_payload rl) = take k (m_payload m).

Lemma splice_take {A} (k : nat) (p old : list A) : (k <= length p)%nat -> length old = length p ->
  take k old = take k p ->
  let new := take 8 (drop k p) in
  let res := take k old ++ new ++ drop (k + length new) old in
  length res = length p /\ take (k + length new) res = take (k + length new) p.
Proof.
  intros Hk Hl Ht. cbn zeta. rewrite Ht. split.
  - rewrite !length_app, !length_take, !length_drop, Hl. lia.
  - rewrite app_assoc, take_app_length' by (by rewrite length_app, (length_take_le p k)).
    rewrite take_take_drop, length_take, length_drop.
    destruct (Nat.le_ge_cases 8 (length p - k)); [by rewrite Nat.min_l|].
    rewrite Nat.min_r by done. rewrite !take_ge by lia. done.
Qed.

(** One piece of a long message whose element is in the list. *)
Lemma recv_long_spec ch m k l i rl cap :
  message_ok m -> (k <= length (m_payload m))%nat -> l !! i = Some rl -> partial ch m k rl ->
  let k' := (k + length (take 8 (drop k (m_payload m))))%nat in
  exists rl', partial ch m k' rl'
    /\ recv_long (lmp_chan_recv stale (LmpMsg cap (m_header m :: take 8 (drop k (m_payload m))))) i l
    = if Z.of_nat k' =? m_size m then Done (Some rl', delete i l) else Done (None, <[i := rl']> l).
Proof.
  intros (Ht & Hid & Hsz) Hk Hi (E1 & E2 & E3 & E4 & E5 & E6 & E7 & E8) k'.
  unfold recv_long. rewrite Hi.
  assert (Hrem : u32 (rl_size rl - rl_index rl) = Z.of_nat (length (drop k (m_payload m)))).
  { rewrite E5, E6, length_drop. unfold m_size in *. rewrite u32_small; lia. }
  assert (Hlen : length (take 8 (drop k (m_payload m)))
                 = Z.to_nat (if 8 <? u32 (rl_size rl - rl_index rl) then 8 else u32 (rl_size rl - rl_index rl))).
  { rewrite Hrem, length_take. zcases; lia. }
  assert (Hcopy : copy_words (rl_payload rl) (rl_index rl)
            (if 8 <? u32 (rl_size rl - rl_index rl) then 8 else u32 (rl_size rl - rl_index rl))
            (lmp_chan_recv stale (LmpMsg cap (m_header m :: take 8 (drop k (m_payload m)))))
    = take k (rl_payload rl) ++ take 8 (drop k (m_payload m))
      ++ drop (k + length (take 8 (drop k (m_payload m)))) (rl_payload rl)).
  { unfold copy_words. cbn [words lmp_chan_recv lmp_words length app drop].
    rewrite Hrem, take_piece, E6, Nat2Z.id. done. }
  rewrite Hcopy. rewrite Hrem in Hlen |- *.
  assert (Hidx : u32 (rl_index rl + (if 8 <? Z.of_nat (length (drop k (m_payload m))) then 8
                    else Z.of_nat (length (drop k (m_payload m))))) = Z.of_nat k').
  { unfold k'. rewrite E6, length_take. rewrite length_drop in *. unfold m_size in *.
    rewrite u32_small; zcases; lia. }
  destruct (splice_take k (m_payload m) (rl_payload rl) Hk E7 E8) as [Hl Htk].
  exists (RecvList (rl_type rl) (rl_id rl) (rl_cap rl) (Z.of_nat k') (rl_size rl) (rl_chan rl)
    (take k (rl_payload rl) ++ take 8 (drop k (m_payload m)) ++ drop (k + length (take 8 (drop k (m_payload m)))) (rl_payload rl))).
  rewrite Hidx, E5. cbn [rl_index rl_size]. split; [by repeat split|].
  rewrite assert_true by (unfold k', m_size; rewrite length_take, length_drop; zcases; lia). step.
  zcases; [|done]. rewrite remove_at by (by apply lookup_lt_Some in Hi). done.
Qed.

Lemma lookup_keep l t d i rl : rpc_recv_lookup l t d = Some i -> rl_type rl = t -> rl_id rl = d ->
  rpc_recv_lookup (<[i := rl]> l) t d = Some i.
Proof.
  revert i. induction l as [|x l IH]; intros i H Ht Hd; cbn in *; [done|].
  destruct ((rl_type x =? t) && (rl_id x =? d)) eqn:E.
  - injection H as <-. cbn. by rewrite Ht, Hd, !Z.eqb_refl.
  - destruct (rpc_recv_lookup l t d) as [j|]; [|done]. injection H as <-. cbn. rewrite E.
    exact (f_equal (fmap S) (IH j eq_refl Ht Hd)).
Qed.

Lemma delete_insert_at {A} (l : list A) i x : delete i (<[i := x]> l) = delete i l.
Proof. revert i. induction l as [|y l IH]; intros [|i]; cbn; [done|done|done|]. f_equal. apply IH. Qed.

(** The header of a piece, as the receiver reads it. *)
Lemma recv_handling_long m w cap rc : message_ok m -> 9 <= m_size m ->
  recv_handling junk slot_available (lmp_chan_recv stale (LmpMsg cap (m_header m :: w))) cap (closed rc)
  = let '(i, l) := match rpc_recv_lookup (rpc_recv_list rc) (m_type m) (m_id m) with
                   | Some i => (i, rpc_recv_list rc)
                   | None => (0%nat, RecvList (m_type m) (m_id m) cap 0 (m_size m) (rc_chan rc)
                                       (malloc_words junk (m_size m)) :: rpc_recv_list rc)
                   end in
    '(d, l) ← recv_long (lmp_chan_recv stale (LmpMsg cap (m_header m :: w))) i l;
    Done (d, RecvChan (rc_chan rc) l true (if cap =? NULL_CAP then rc_slot rc else slot_available)).
Proof.
  intros (Ht & Hid & Hsz) H9. unfold recv_handling. cbn [rc_registered closed rc_chan rpc_recv_list rc_slot].
  rewrite assert_true by (cbn; zcases; lia). step.
  destruct (header_recv (m_type m) (m_id m) (m_size m)) as (E1 & E2 & E3); [lia|lia|lia|].
  change (word _ 0) with (m_header m). unfold m_header in *. rewrite E1, E2, E3. by zdecide.
Qed.

Lemma recv_handling_short m rc : message_ok m -> m_size m < 9 ->
  recv_handling junk slot_available (lmp_chan_recv stale (LmpMsg (m_cap m) (m_header m :: m_payload m))) (m_cap m) (closed rc)
  = Done (Some (received (rc_chan rc) m),
          RecvChan (rc_chan rc) (rpc_recv_list rc) true (if m_cap m =? NULL_CAP then rc_slot rc else slot_available)).
Proof.
  intros (Ht & Hid & Hsz) H9. unfold recv_handling. cbn [rc_registered closed rc_chan rpc_recv_list rc_slot].
  rewrite assert_true by (cbn; zcases; lia). step. assert (0 <= m_size m) by (unfold m_size; lia).
  destruct (header_recv (m_type m) (m_id m) (m_size m)) as (E1 & E2 & E3); [lia|lia|lia|].
  change (word _ 0) with (m_header m). unfold m_header in *. rewrite E1, E2, E3. zdecide.
  cbn [words lmp_chan_recv lmp_words drop app]. rewrite drop_0.
  replace (Z.to_nat (m_size m)) with (length (m_payload m)) by (unfold m_size; lia). by rewrite take_app_length.
Qed.

(** What a prefix [ws] of a message's pieces delivers: nothing before the
    last piece, then the message; the list of incomplete messages ends as [l]. *)
Definition delivers (ws rest : list lmp_msg) (rc : recv_chan) (m : message) (l : list recv_list) : Prop :=
  exists rc', recv_all junk slot_available stale ws rc
              = Done (match rest with [] => [received (rc_chan rc) m] | _ => [] end, rc')
  /\ rc_chan rc' = rc_chan rc /\ (rest = [] -> rpc_recv_list rc' = l).

Lemma partial_received ch m rl : partial ch m (length (m_payload m)) rl -> rl = received ch m.
Proof.
  intros (E1 & E2 & E3 & E4 & E5 & E6 & E7 & E8). rewrite take_ge in E8 by lia. rewrite take_ge in E8 by lia.
  destruct rl. cbn in *. subst. done.
Qed.

(** The remaining pieces of a long message after [k] words. *)
Lemma recv_rest m (n : nat) : message_ok m -> 9 <= m_size m ->
  forall k ws rest rc i rl, (length (m_payload m) - k < n)%nat -> (k < length (m_payload m))%nat ->
  ws ++ rest = fragments_from (m_header m) NULL_CAP (drop k (m_payload m)) ->
  rpc_recv_lookup (rpc_recv_list rc) (m_type m) (m_id m) = Some i ->
  rpc_recv_list rc !! i = Some rl -> partial (rc_chan rc) m k rl ->
  delivers ws rest rc m (delete i (rpc_recv_list rc)).
Proof.
  intros Hok H9. induction n as [|n IH]; intros k ws rest rc i rl Hn Hk Hws Hl Hi Hp; [lia|].
  destruct (fragments_cons (m_header m) NULL_CAP (drop k (m_payload m))) as [fs Hfs].
  destruct ws as [|w ws].
  { rewrite Hfs in Hws. cbn [app] in Hws. subst rest. exists rc. done. }
  assert (Hw : w = LmpMsg NULL_CAP (m_header m :: take 8 (drop k (m_payload m))) /\ ws ++ rest = fs).
  { rewrite Hfs in Hws. by injection Hws as Hw Hr. }
  destruct Hw as [-> Hrest]. unfold delivers. cbn [recv_all lmp_cap]. fold (closed rc).
  rewrite recv_handling_long by done. rewrite Hl.
  destruct (recv_long_spec (rc_chan rc) m k (rpc_recv_list rc) i rl NULL_CAP Hok) as (rl' & Hp' & ->); [lia|done|done|].
  set (k' := (k + length (take 8 (drop k (m_payload m))))%nat) in *.
  assert (Hk' : k' = (k + 8 `min` (length (m_payload m) - k))%nat) by (unfold k'; by rewrite length_take, length_drop).
  unfold m_size. destruct (Z.eqb_spec (Z.of_nat k') (Z.of_nat (length (m_payload m)))) as [He|He]; step.
  - assert (Hfs0 : fs = []).
    { rewrite fragments_small in Hfs by (rewrite length_drop; lia). by simplify_eq. }
    rewrite Hfs0 in Hrest. apply app_eq_nil in Hrest as [-> ->]. cbn [recv_all option_list]. step.
    apply Nat2Z.inj in He. rewrite He in Hp'. apply partial_received in Hp' as ->.
    eexists. split; [reflexivity|done].
  - assert (Hfs' : fs = fragments_from (m_header m) NULL_CAP (drop k' (m_payload m))).
    { rewrite fragments_large in Hfs by (rewrite length_drop; lia).
      injection Hfs as <-. rewrite drop_drop. do 2 f_equal. lia. }
    set (rc1 := RecvChan _ _ _ _).
    destruct (IH k' ws rest rc1 i rl') as (rc' & Hrc & Hch & Hres); try done.
    + lia.
    + lia.
    + by rewrite <- Hfs'.
    + destruct Hp' as (? & ? & _). by apply lookup_keep.
    + cbn. apply list_lookup_insert_eq. by apply lookup_lt_Some in Hi.
    + change (rc_chan rc1) with (rc_chan rc) in *. rewrite Hrc. step. exists rc'. split; [by destruct rest|].
      split; [done|]. intros Hr. rewrite Hres by done. apply delete_insert_at.
Qed.

Definition no_key (m : message) (l : list recv_list) : Prop := rpc_recv_lookup l (m_type m) (m_id m) = None.

(** The first piece of a long message makes its element. *)
Lemma new_partial ch m cap : m_cap m = cap -> partial ch m 0
  (RecvList (m_type m) (m_id m) cap 0 (m_size m) ch (malloc_words junk (m_size m))).
Proof.
  intros <-. repeat split; cbn; try done. unfold malloc_words. rewrite length_map, length_seqZ.
  unfold m_size. lia.
Qed.

(** A message from its first piece on. *)
Lemma recv_message m ws rest rc : message_ok m -> no_key m (rpc_recv_list rc) ->
  ws ++ rest = fragments m -> delivers ws rest rc m (rpc_recv_list rc).
Proof.
  intros Hok Hno Hws. unfold fragments in Hws.
  destruct (fragments_cons (m_header m) (m_cap m) (m_payload m)) as [fs Hfs].
  destruct ws as [|w ws].
  { rewrite Hfs in Hws. cbn [app] in Hws. subst rest. exists rc. done. }
  assert (Hw : w = LmpMsg (m_cap m) (m_header m :: take 8 (m_payload m)) /\ ws ++ rest = fs).
  { rewrite Hfs in Hws. by injection Hws as Hw Hr. }
  destruct Hw as [-> Hrest]. unfold delivers. cbn [recv_all lmp_cap]. fold (closed rc).
  destruct (Z.lt_ge_cases (m_size m) 9) as [Hs|Hs].
  - assert (fs = []) as ->.
    { rewrite fragments_small in Hfs by (unfold m_size in Hs; lia). by injection Hfs. }
    apply app_eq_nil in Hrest as [-> ->]. rewrite take_ge by (unfold m_size in Hs; lia).
    rewrite recv_handling_short by done. step. cbn [recv_all option_list]. step.
    eexists. split; [reflexivity|done].
  - rewrite recv_handling_long by done. unfold no_key in Hno. rewrite Hno.
    set (rl := RecvList _ _ _ _ _ _ _).
    destruct (recv_long_spec (rc_chan rc) m 0 (rl :: rpc_recv_list rc) 0 rl (m_cap m) Hok) as (rl' & Hp' & Heq);
      [lia|done|by apply new_partial|].
    rewrite drop_0 in Heq, Hp'. rewrite Heq. clear Heq. cbn [plus].
    assert (Hk' : length (take 8 (m_payload m)) = 8%nat) by (rewrite length_take; unfold m_size in Hs; lia).
    cbn [plus] in Hp'. rewrite Hk' in *. rewrite (proj2 (Z.eqb_neq (Z.of_nat 8) (m_size m))) by lia. step.
    set (rc1 := RecvChan _ _ _ _).
    rewrite fragments_large in Hfs by (unfold m_size in Hs; lia).
    injection Hfs as <-.
    destruct (recv_rest m (S (length (m_payload m))) Hok Hs 8 ws rest rc1 0 rl') as (rc' & Hrc & Hch & Hres); try done.
    + lia.
    + unfold m_size in Hs. lia.
    + cbn. destruct Hp' as (-> & -> & _). by rewrite !Z.eqb_refl.
    + change (rc_chan rc1) with (rc_chan rc) in *. rewrite Hrc. step. exists rc'.
      split; [by destruct rest|]. split; [done|]. intros Hr. by rewrite Hres.
Qed.

(** What a prefix of the pieces of a sequence of messages delivers. *)
Lemma recv_all_app ws ws' rc : recv_all junk slot_available stale (ws ++ ws') rc
  = '(d, rc1) ← recv_all junk slot_available stale ws rc;
    '(d', rc2) ← recv_all junk slot_available stale ws' rc1; Done (d ++ d', rc2).
Proof.
  revert rc. induction ws as [|w ws IH]; intros rc; cbn [app recv_all].
  { step. destruct (recv_all _ _ _ ws' rc) as [[d rc1]|f]; done. }
  destruct (recv_handling _ _ _ _ _) as [[d rc1]|f]; [|done]. step. rewrite IH.
  destruct (recv_all _ _ _ ws rc1) as [[d1 rc2]|f]; [|done]. step.
  destruct (recv_all _ _ _ ws' rc2) as [[d2 rc3]|f]; [|done]. step. by rewrite app_assoc.
Qed.

Lemma recv_messages ms ws rest rc : Forall message_ok ms -> Forall (fun m => no_key m (rpc_recv_list rc)) ms ->
  ws ++ rest = concat (map fragments ms) ->
  exists n rc', recv_all junk slot_available stale ws rc = Done (received (rc_chan rc) <$> take n ms, rc')
  /\ (rest = [] -> n = length ms /\ rpc_recv_list rc' = rpc_recv_list rc).
Proof.
  intros Hok. revert ws rc. induction Hok as [|m ms Hm Hms IH]; intros ws rc Hno Hws; cbn [map concat] in Hws.
  { apply app_eq_nil in Hws as [-> ->]. exists 0%nat, rc. done. }
  apply Forall_cons in Hno as [Hnm Hno]. symmetry in Hws. apply app_eq_inv in Hws as [(k & Hf & Hr)|(k & Hw & Hr)].
  - (* the prefix ends inside the first message *)
    destruct k as [|p k].
    + rewrite app_nil_r in Hf. subst ws. destruct (recv_message m (fragments m) [] rc Hm Hnm) as (rc' & Hrc & Hch & Hl);
        [by rewrite app_nil_r|].
      exists 1%nat, rc'. rewrite Hrc. split; [done|]. intros ->. specialize (Hl eq_refl).
      destruct ms as [|m' ms]; [done|]. exfalso. cbn [map concat] in Hr.
      destruct (fragments_cons (m_header m') (m_cap m') (m_payload m')) as [x Hx].
      unfold fragments in Hr at 1. rewrite Hx in Hr. discriminate.
    + destruct (recv_message m ws (p :: k) rc Hm Hnm) as (rc' & Hrc & Hch & Hl); [done|].
      exists 0%nat, rc'. rewrite Hrc. split; [done|]. intros ->. discriminate.
  - subst ws. destruct (recv_message m (fragments m) [] rc Hm Hnm) as (rc1 & Hrc & Hch & Hl);
      [by rewrite app_nil_r|]. specialize (Hl eq_refl).
    destruct (IH k rc1) as (n & rc' & Hk & Hfin); [by rewrite Hl|done|].
    exists (S n), rc'. rewrite recv_all_app, Hrc. step. rewrite Hk. step. rewrite Hch. split; [done|].
    intros Hrest. destruct (Hfin Hrest) as [-> ->]. by rewrite Hl.
Qed.
End Receiver.

(** * Identifiers *)

(** The identifiers of a type that are in use: a window of the integers
    modulo 256 from the minimum to the maximum. *)
Definition window (min : Z) (n : nat) : list Z := (fun k : nat => (min + Z.of_nat k) `mod` 256) <$> seq 0 n.

Definition id_window (s : rpc) (type : Z) (l : list Z) : Prop :=
  0 <= rpc_type_min_id s type < 256 /\ (length l <= 255)%nat
  /\ l = window (rpc_type_min_id s type) (length l)
  /\ rpc_type_max_id s type = (rpc_type_min_id s type + Z.of_nat (length l)) `mod` 256.

Lemma window_length min n : length (window min n) = n.
Proof. unfold window. by rewrite length_fmap, length_seq. Qed.

Lemma window_snoc min n : window min (S n) = window min n ++ [(min + Z.of_nat n) `mod` 256].
Proof. unfold window. by rewrite seq_S, fmap_app. Qed.

Lemma window_cons min n : 0 <= min < 256 -> window min (S n) = min :: window ((min + 1) `mod` 256) n.
Proof.
  intros. unfold window. cbn. f_equal; [rewrite Z.add_0_r; by apply Z.mod_small|].
  rewrite <- fmap_S_seq, <- list_fmap_compose. apply list_fmap_ext. intros i k _. cbn.
  rewrite Zplus_mod_idemp_l. f_equal. lia.
Qed.

Lemma mod256_neq min a b : 0 <= a < b -> b < 256 -> (min + a) `mod` 256 <> (min + b) `mod` 256.
Proof.
  intros Hab Hb He. assert (H : (b - a) `mod` 256 = 0).
  { replace (b - a) with ((min + b) - (min + a)) by lia. by rewrite Zminus_mod, He, Z.sub_diag. }
  rewrite Z.mod_small in H by lia. lia.
Qed.

Lemma window_fresh min n : (n < 256)%nat -> (min + Z.of_nat n) `mod` 256 ∉ window min n.
Proof.
  intros Hn (k & Hk & Hin)%list_elem_of_fmap. apply elem_of_seq in Hin.
  symmetry in Hk. revert Hk. apply mod256_neq; lia.
Qed.

Lemma mod256_range x : 0 <= x `mod` 256 < 256.
Proof. apply Z.mod_pos_bound. lia. Qed.

Lemma fresh_id_spec s t l : id_window s t l ->
  if (length l =? 255)%nat then request_fresh_id t s = Fault Panicked
  else exists id s', request_fresh_id t s = Done (id, s') /\ (id ∉ l) /\ id_window s' t (l ++ [id]).
Proof.
  intros (Hmin & Hlen & Hl & Hmax). unfold request_fresh_id.
  pose proof (mod256_range (rpc_type_min_id s t + Z.of_nat (length l))) as Hr.
  rewrite Hmax, !u8_small by lia. rewrite Zplus_mod_idemp_l, <- Z.add_assoc.
  destruct (Nat.eqb_spec (length l) 255) as [He|He].
  - rewrite He. change (Z.of_nat 255 + 1) with 256. rewrite Z.add_mod, Z_mod_same_full, Z.add_0_r, Z.mod_mod by lia.
    rewrite Z.mod_small by done. by rewrite Z.eqb_refl.
  - pose proof (mod256_neq (rpc_type_min_id s t) 0 (Z.of_nat (length l) + 1) ltac:(lia) ltac:(lia)) as Hne.
    rewrite Z.add_0_r, Z.mod_small in Hne by done.
    rewrite (proj2 (Z.eqb_neq _ _)) by (intros E; by apply Hne).
    eexists _, _. split; [reflexivity|]. split; [rewrite Hl at 2; apply window_fresh; lia|].
    unfold id_window. cbn. rewrite length_app, fn_lookup_insert. cbn. split; [done|]. split; [lia|]. split.
    + rewrite Nat.add_1_r, window_snoc. by rewrite <- Hl.
    + f_equal. lia.
Qed.

Lemma finish_message_ids ch a q s s' : finish_message ch a q s = Done s' ->
  rpc_type_max_id s' = rpc_type_max_id s
  /\ rpc_type_min_id s' = if rpc_type_min_id s (sq_type q) =? sq_id q
       then <[sq_type q := (rpc_type_min_id s (sq_type q) + 1) `mod` 256]> (rpc_type_min_id s)
       else rpc_type_min_id s.
Proof.
  unfold finish_message. set (s1 := match sq_callback q with Some _ => _ | None => s end).
  assert (H1 : rpc_type_min_id s1 = rpc_type_min_id s /\ rpc_type_max_id s1 = rpc_type_max_id s)
    by (unfold s1; by destruct (sq_callback q)). destruct H1 as [<- <-].
  destruct (entry_of _ _) as [c|]; [|done]. destruct (cl_queue c) as [|[b y] rest]; [done|].
  unfold assert. destruct (b =? a); [|done]. step. cbn [rpc_type_min_id set_listing].
  destruct (_ =? sq_id q); (destruct rest as [|[b' y'] rest']; [by intros [= <-]|]);
    unfold register_send; case_bool_decide; [done|by intros [= <-]|done|by intros [= <-]].
Qed.

Lemma release_spec ch a q s s' x l : id_window s (sq_type q) (x :: l) -> finish_message ch a q s = Done s' ->
  id_window s' (sq_type q) (if x =? sq_id q then l else x :: l).
Proof.
  intros (Hmin & Hlen & Hl & Hmax) Hf. apply finish_message_ids in Hf as [HM Hm].
  cbn [length] in *. rewrite window_cons in Hl by done. injection Hl as -> Hl.
  unfold id_window. rewrite HM, Hm. destruct (Z.eqb_spec (rpc_type_min_id s (sq_type q)) (sq_id q)) as [He|He].
  - rewrite fn_lookup_insert. split; [apply mod256_range|]. split; [lia|]. split; [done|].
    rewrite Hmax, Zplus_mod_idemp_l. f_equal. lia.
  - split; [done|]. split; [done|]. split; [|done]. cbn [length]. rewrite window_cons by done. by f_equal.
Qed.

(** * Padding *)

Lemma bytes_of_word_ok a b c d : Forall (fun x => 0 <= x < 256) [a; b; c; d] ->
  bytes_of_word (a + 256 * (b + 256 * (c + 256 * d))) = [a; b; c; d].
Proof.
  intros H. rewrite !Forall_cons in H. destruct H as (Ha & Hb & Hc & Hd & _). unfold bytes_of_word.
  f_equal; [|f_equal; [|f_equal; [|f_equal]]].
  - symmetry. apply (Z.mod_unique _ _ (b + 256 * (c + 256 * d))); lia.
  - rewrite <- (Z.div_unique _ 256 (b + 256 * (c + 256 * d)) a) by lia.
    symmetry. apply (Z.mod_unique _ _ (c + 256 * d)); lia.
  - rewrite <- (Z.div_unique _ 65536 (c + 256 * d) (a + 256 * b)) by lia.
    symmetry. apply (Z.mod_unique _ _ d); lia.
  - rewrite <- (Z.div_unique _ 16777216 d (a + 256 * b + 65536 * c)) by lia. by apply Z.mod_small.
Qed.

Lemma words_roundtrip n l : length l = (4 * n)%nat -> Forall (fun x => 0 <= x < 256) l ->
  bytes_of_words (words_of_bytes l) = l /\ length (words_of_bytes l) = n.
Proof.
  revert l. induction n as [|n IH]; intros l Hl Hb.
  { by destruct l. }
  destruct l as [|a [|b [|c [|d l]]]]; cbn in Hl; try lia.
  rewrite !Forall_cons in Hb. destruct Hb as (Ha & Hb & Hc & Hd & Hl').
  destruct (IH l) as [H1 H2]; [lia|done|]. cbn [words_of_bytes length]. split; [|by f_equal].
  unfold bytes_of_words in *. rewrite bind_cons, bytes_of_word_ok by (by rewrite !Forall_cons). by rewrite H1.
Qed.

Lemma trailing_spec n : 0 <= n -> 0 <= trailing n < 4 /\ (n + trailing n) `mod` 4 = 0.
Proof.
  intros. unfold trailing. pose proof (Z.mod_pos_bound n 4). zcases.
  - split; [lia|]. by rewrite Z.add_0_r.
  - split; [lia|]. rewrite Z.add_mod, (Z.mod_small (4 - _)) by lia.
    replace (n `mod` 4 + (4 - n `mod` 4)) with 4 by lia. done.
Qed.

Lemma convert_spec l : Forall (fun x => 0 <= x < 256) l ->
  exists ws n, convert_charptr_to_uintptr_with_padding_and_copy l (Z.of_nat (length l)) = Done (ws, n)
  /\ bytes_of_words ws = l ++ replicate (Z.to_nat (trailing (Z.of_nat (length l)))) 0
  /\ n = Z.of_nat (length ws) /\ Z.of_nat (length l) <= 4 * n < Z.of_nat (length l) + 4.
Proof.
  intros Hb. unfold convert_charptr_to_uintptr_with_padding_and_copy. zdecide. rewrite Nat2Z.id, take_ge by lia.
  destruct (trailing_spec (Z.of_nat (length l))) as [Ht Hm]; [lia|].
  set (tr := trailing _) in *. apply Z.mod_divide in Hm as [n Hn]; [|lia].
  destruct (words_roundtrip (Z.to_nat n) (l ++ replicate (Z.to_nat tr) 0)) as [Hr Hl].
  { rewrite length_app, length_replicate. lia. }
  { apply Forall_app. split; [done|]. apply Forall_replicate. lia. }
  eexists _, _. split; [reflexivity|]. split; [done|]. rewrite Hl, Hn, Z.div_mul by lia. lia.
Qed.

(** * Theorems *)

Lemma sent_ok ch l : Forall action_ok l -> Forall message_ok (sent ch l).
Proof.
  induction 1 as [|a l Ha Hl IH]; [constructor|]. unfold sent. rewrite bind_cons. apply Forall_app. split; [|done].
  destruct a as [c m ev|ev]; cbn in *; [|constructor]. destruct Ha as (_ & Hm & _).
  case_decide; [by apply Forall_singleton|constructor].
Qed.

Lemma pending_nil ch s : pending ch s = [] -> queue_of ch s = [].
Proof.
  unfold pending. destruct (queue_of ch s) as [|[a q] rest]; [done|]. by cbn.
Qed.

(** C18: Messages arrive whole and in order.  After any sequence of sends
    and events in which the kernel accepts LMP messages or fails
    transiently, no assertion, CHECK or panic stops the sender, and what the
    kernel accepted on a channel makes the receiver's handler be called with
    the messages sent on that channel, in the order of the sends, each with
    its type, identifier, capability and payload; with all of them once
    nothing is queued any more. *)
Theorem rpc_delivers_in_order junk slot_available stale acts ch :
  Forall action_ok acts ->
  exists s, run_actions acts rpc_init = Done s /\ rpc_inv s
  /\ exists n rc, recv_all junk slot_available stale (wire s ch) (RecvChan ch [] false true)
                  = Done (received ch <$> take n (sent ch acts), rc)
  /\ (queue_of ch s = [] -> n = length (sent ch acts) /\ rpc_recv_list rc = []).
Proof.
  intros Hok. destruct (run_actions_spec acts rpc_init rpc_init_inv Hok) as (s & Hrun & Hinv & Ht).
  exists s. split; [done|]. split; [done|].
  destruct (recv_messages junk slot_available stale (sent ch acts) (wire s ch) (pending ch s) (RecvChan ch [] false true))
    as (n & rc & Hrc & Hfin).
  - by apply sent_ok.
  - apply Forall_forall. intros m _. done.
  - apply (Ht ch).
  - exists n, rc. split; [done|]. intros Hq. apply Hfin. unfold pending. by rewrite Hq.
Qed.

(** Everything that is queued is sent.  In every reachable state, once
    the kernel accepted as many LMP messages on a channel as its queue still
    holds pieces, the queue is empty and the wire carries all pieces of all
    messages of the channel, whatever else happens between and however often
    the kernel refuses a message. *)
Theorem rpc_queue_drains acts evs ch s :
  Forall action_ok acts -> run_actions acts rpc_init = Done s -> Forall event_ok evs ->
  (length (pending ch s) <= length (filter (fun e => accepted ch e = true) evs))%nat ->
  exists s', run_actions (map ActEvent evs) s = Done s' /\ queue_of ch s' = []
  /\ wire s' ch = concat (map fragments (sent ch acts)).
Proof.
  intros Hok Hrun Hev Hlen. destruct (run_actions_spec acts rpc_init rpc_init_inv Hok) as (s0 & Hrun0 & Hinv & Ht).
  rewrite Hrun in Hrun0. injection Hrun0 as <-.
  destruct (events_drain ch evs s Hinv Hev) as (s' & Hrun' & Hinv' & Hl). exists s'. split; [done|].
  assert (Hp : pending ch s' = []) by (apply nil_length_inv; lia). split; [by apply pending_nil|].
  destruct (run_actions_spec (map ActEvent evs) s Hinv) as (s2 & Hrun2 & _ & Ht2).
  { apply Forall_map. eapply Forall_impl; [exact Hev|]. done. }
  rewrite Hrun' in Hrun2. injection Hrun2 as <-. specialize (Ht2 ch). specialize (Ht ch).
  unfold traffic in *. rewrite Hp, app_nil_r in Ht2. rewrite Ht2, Ht. cbn.
  replace (sent ch (map ActEvent evs)) with (@nil message) by (clear; induction evs; done).
  by rewrite app_nil_r.
Qed.

(** Identifiers are not reused while they are in flight.  The
    identifiers of a type that are in use are a window of the integers modulo
    256; a request returns one that is not in use and appends it, or panics
    when 255 are in use; finishing the message with the oldest identifier
    releases it, finishing any other message releases nothing. *)
Theorem rpc_ids_window s t l : id_window s t l ->
  (if (length l =? 255)%nat then request_fresh_id t s = Fault Panicked
   else exists id s', request_fresh_id t s = Done (id, s') /\ (id ∉ l) /\ id_window s' t (l ++ [id]))
  /\ (forall ch a q s' x l', sq_type q = t -> l = x :: l' -> finish_message ch a q s = Done s' ->
      id_window s' t (if x =? sq_id q then l' else l)).
Proof.
  intros Hw. split; [by apply fresh_id_spec|]. intros ch a q s' x l' <- -> Hf. by eapply release_spec.
Qed.

(** Strings survive the transport in words: the conversion pads with
    zeros to a whole number of words, and reading the words as bytes gives
    the string back. *)
Theorem convert_roundtrip l : Forall (fun x => 0 <= x < 256) l ->
  exists ws n, convert_charptr_to_uintptr_with_padding_and_copy l (Z.of_nat (length l)) = Done (ws, n)
  /\ take (length l) (bytes_of_words ws) = l /\ Forall (eq 0) (drop (length l) (bytes_of_words ws))
  /\ n = Z.of_nat (length ws) /\ Z.of_nat (length l) <= 4 * n < Z.of_nat (length l) + 4.
Proof.
  intros Hb. destruct (convert_spec l Hb) as (ws & n & He & Hw & Hn & Hl). exists ws, n.
  rewrite Hw, take_app_length, drop_app_length. split_and!; try done; [|lia|lia].
  by apply Forall_replicate.
Qed.

(** The wrapper that copies the payload overflows its buffer for every
    payload that is not empty. *)
Theorem persist_send_overflows chan cap type payload scs id ev s :
  payload <> [] ->
  persist_send_cleanup_wrapper chan cap type (Z.of_nat (length payload)) payload scs id ev s = Fault OutOfBounds.
Proof.
  intros Hp. unfold persist_send_cleanup_wrapper. zdecide.
  assert (0 < Z.of_nat (length payload)) by (destruct payload; cbn; [done|lia]).
  destruct (trailing_spec (Z.of_nat (length payload))) as [Ht Hm]; [lia|].
  rewrite (proj2 (Z.ltb_lt _ _)); [done|]. apply Z.div_lt; lia.
Qed.

(** * A sample: two channels, a long message and refusals *)

Module RpcSample.

Definition words_upto (n : Z) : list Z := seqZ 100 n.
Definition short : message := Message 12 0 7 (words_upto 3) None.
Definition long : message := Message 12 1 9 (words_upto 20) (Some 5).

Definition acts : list action :=
  [ActSend 1 short None; ActSend 1 long None; ActSend 2 long (Some (1, SYS_ERR_OK));
   ActEvent (Some (1, [SYS_ERR_LMP_BUF_OVERFLOW])); ActEvent (Some (1, SYS_ERR_OK))].
Definition evs : list (option (Z * errval)) :=
  [Some (1, SYS_ERR_OK); None; Some (1, [SYS_ERR_LMP_TARGET_DISABLED]); Some (2, SYS_ERR_OK); Some (1, SYS_ERR_OK)].

Lemma acts_ok : Forall action_ok acts.
Proof. repeat (apply Forall_cons; split); try done; repeat split; cbn; try done; lia. Qed.

Lemma evs_ok : Forall event_ok evs.
Proof. repeat (apply Forall_cons; split); done. Qed.

Definition reached : rpc := match run_actions acts rpc_init with Done s => s | Fault _ => rpc_init end.

Lemma reached_run : run_actions acts rpc_init = Done reached.
Proof.
  assert (H : is_done (run_actions acts rpc_init) = true) by (vm_compute; reflexivity).
  unfold reached. by destruct (run_actions acts rpc_init).
Qed.

Lemma rpc_delivers_in_order_witness :
  exists s, run_actions acts rpc_init = Done s /\ rpc_inv s
  /\ exists n rc, recv_all (fun _ => 0) true [] (wire s 1) (RecvChan 1 [] false true)
                  = Done (received 1 <$> take n (sent 1 acts), rc)
  /\ (queue_of 1 s = [] -> n = length (sent 1 acts) /\ rpc_recv_list rc = []).
Proof. apply rpc_delivers_in_order. exact acts_ok. Defined.

Lemma rpc_queue_drains_witness :
  exists s', run_actions (map ActEvent evs) reached = Done s' /\ queue_of 1 s' = []
  /\ wire s' 1 = concat (map fragments (sent 1 acts)).
Proof. apply (rpc_queue_drains acts evs 1 reached acts_ok); [exact reached_run|exact evs_ok|vm_compute; lia]. Defined.

(** Identifiers 0 and 1 are in use. *)
Definition two_ids : rpc := set_max_id (<[12 := 2]> (fun _ => 0)) rpc_init.

Lemma rpc_ids_window_witness : id_window two_ids 12 [0; 1] /\
  exists id s', request_fresh_id 12 two_ids = Done (id, s') /\ (id ∉ [0; 1]) /\ id_window s' 12 [0; 1; id].
Proof.
  assert (H : id_window two_ids 12 [0; 1]) by (repeat split; cbn; lia).
  split; [exact H|]. apply (rpc_ids_window two_ids 12 [0; 1] H).
Defined.

Lemma convert_roundtrip_witness :
  exists ws n, convert_charptr_to_uintptr_with_padding_and_copy [104; 101; 108; 108; 111] 5 = Done (ws, n)
  /\ take 5 (bytes_of_words ws) = [104; 101; 108; 108; 111] /\ Forall (eq 0) (drop 5 (bytes_of_words ws))
  /\ n = Z.of_nat (length ws) /\ 5 <= 4 * n < 5 + 4.
Proof. apply (convert_roundtrip [104; 101; 108; 108; 111]). repeat constructor; lia. Defined.

Lemma persist_send_overflows_witness :
  persist_send_cleanup_wrapper 1 0 12 5 [1; 2; 3; 4; 5] 3 0 None rpc_init = Fault OutOfBounds.
Proof. apply (persist_send_overflows 1 0 12 [1; 2; 3; 4; 5]). done. Defined.

(** Two requests whose messages finish in the opposite order, then requests
    that finish at once, one after the other. *)
Definition exchange (ch : Z) (s : rpc) : outcome rpc :=
  '(id, s) ← request_fresh_id 12 s; send_message ch (Message 12 id 0 [] None) (Some (ch, SYS_ERR_OK)) s.

Definition crossed : outcome rpc :=
  '(i, s) ← request_fresh_id 12 rpc_init; '(j, s) ← request_fresh_id 12 s;
  s ← send_message 1 (Message 12 i 0 [] None) None s;
  s ← send_message 2 (Message 12 j 0 [] None) (Some (2, SYS_ERR_OK)) s;
  event_dispatch (Some (1, SYS_ERR_OK)) s.

Fixpoint exchanges (n : nat) (s : rpc) : outcome rpc :=
  match n with O => Done s | S n' => s ← exchange 1 s; exchanges n' s end.

Definition idle (s : rpc) : bool :=
  match queue_of 1 s, queue_of 2 s with [], [] => true | _, _ => false end.
Definition panics {A} (m : outcome A) : bool := match m with Fault Panicked => true | _ => false end.

Lemma idle_spec s : idle s = true -> queue_of 1 s = [] /\ queue_of 2 s = [].
Proof. unfold idle. by destruct (queue_of 1 s), (queue_of 2 s). Qed.

(** The run of the theorem below, as a computation. *)
Lemma leaks_true :
  (s ← crossed; s' ← exchanges 254 s; Done (idle s && idle s' && panics (exchange 1 s'))) = Done true.
Proof. vm_eq. Qed.

Lemma leak_run (c : outcome rpc) (f g : rpc -> outcome rpc) :
  (s ← c; s' ← f s; Done (idle s && idle s' && panics (g s'))) = Done true ->
  exists s s', c = Done s /\ queue_of 1 s = [] /\ queue_of 2 s = []
  /\ f s = Done s' /\ queue_of 1 s' = [] /\ queue_of 2 s' = [] /\ g s' = Fault Panicked.
Proof.
  intros H. destruct c as [s|]; [|done]. cbn [mbind outcome_bind] in H.
  destruct (f s) as [s'|] eqn:E; [|done]. cbn [mbind outcome_bind] in H.
  injection H as H. apply andb_prop in H as [[Hs Hs']%andb_prop Hp]. exists s, s'.
  apply idle_spec in Hs as [? ?], Hs' as [? ?]. split_and!; try done.
  by destruct (g s') as [|[]].
Qed.

(** Identifiers leak.  After two messages of a type that finish in the
    opposite order of their identifiers the second identifier is never
    released: with at most one message in flight at any time the sender
    panics after 254 more messages. *)
Theorem rpc_ids_leak :
  exists s s', crossed = Done s /\ queue_of 1 s = [] /\ queue_of 2 s = []
  /\ exchanges 254 s = Done s' /\ queue_of 1 s' = [] /\ queue_of 2 s' = []
  /\ exchange 1 s' = Fault Panicked.
Proof. exact (leak_run crossed (exchanges 254) (exchange 1) leaks_true). Qed.

End RpcSample.
