(* ===== verification/NsCodec.v ===== *)
(** The wire format of the nameserver (lib/aos/nameserver_internal.c).

    A C string is the list of its characters, without the terminating zero;
    memory that a pointer runs through is the list of the bytes from the
    pointer to the end of its allocation, so that reading on behind it is a
    fault.  Integers and enumerations are four little-endian bytes. *)
From S2P Require Import Prelude Rpc.

(** * Data *)

Definition cstr := list Z.

(** Characters with a meaning in the format: { } : , *)
Definition chr_open : Z := 123.
Definition chr_close : Z := 125.
Definition chr_colon : Z := 58.
Definition chr_comma : Z := 44.

(** [struct nameserver_properties]. *)
Record nameserver_properties := NsProp { prop_name : cstr; prop_attr : cstr }.

(** [enum nameserver_queryprops_type] and [struct query_prop]. *)
Definition nsqp_is : Z := 0.
Definition nsq_beginswith : Z := 1.
Definition nsq_endswith : Z := 2.
Definition nsq_contains : Z := 3.
Record query_prop := QueryProp { nsqpt : Z; nsp : nameserver_properties }.

(** [struct nameserver_query]: the tag with the member of the union that it
    selects; a tag that the enumeration does not have selects none. *)
Inductive nameserver_query :=
| nsq_name (name : cstr)
| nsq_type (type : cstr)
| nsq_props (qps : list query_prop)
| nsq_other (tag : Z).

(** [struct nameserver_info]. *)
Record nameserver_info := NsInfo {
  ns_name : cstr; ns_type : cstr; coreid : Z; nsp_count : Z;
  ns_props : list nameserver_properties; chan_cap : Z
}.

#[global] Instance nameserver_properties_eq_dec : EqDecision nameserver_properties.
Proof. solve_decision. Defined.
#[global] Instance nameserver_info_eq_dec : EqDecision nameserver_info.
Proof. solve_decision. Defined.

(** * The C string functions *)

(** The string at the start of a memory region. *)
Fixpoint c_string (m : list Z) : outcome cstr :=
  match m with
  | [] => Fault OutOfBounds
  | c :: m' => if c =? 0 then Done [] else s ← c_string m'; Done (c :: s)
  end.

(** What [strncpy] of [len] bytes and a zero behind them leave in a buffer,
    as a string: the characters up to the first zero. *)
Fixpoint strncpy (m : list Z) : cstr :=
  match m with
  | [] => []
  | c :: m' => if c =? 0 then [] else c :: strncpy m'
  end.

(** [strchr]: the characters before the first [c] and the memory behind it;
    [None] if the string ends before. *)
Fixpoint strchr (m : list Z) (c : Z) : outcome (option (cstr * list Z)) :=
  match m with
  | [] => Fault OutOfBounds
  | d :: m' =>
    if d =? c then Done (Some ([], m')) else
    if d =? 0 then Done None else
    r ← strchr m' c;
    Done (match r with Some (s, rest) => Some (d :: s, rest) | None => None end)
  end.

Definition bytes_of_int (n : Z) : list Z := bytes_of_word (u32 n).

(** A four-byte integer at the start of a memory region. *)
Definition read_int (m : list Z) : outcome (Z * list Z) :=
  match m with
  | a :: b :: c :: d :: m' => Done (a + 256 * (b + 256 * (c + 256 * d)), m')
  | _ => Fault OutOfBounds
  end.

Definition signed32 (n : Z) : Z := if n <? 2 ^ 31 then n else n - 2 ^ 32.

(** * Properties *)

(** [serialize_nameserver_prop]: the allocated bytes, zero included. *)
Definition serialize_nameserver_prop (p : nameserver_properties) : list Z :=
  [chr_open] ++ prop_name p ++ [chr_colon] ++ prop_attr p ++ [chr_close; 0].

(** The loops over the name and over the attribute: the characters before
    the delimiter and the memory behind it.  The zero at the end of the
    string does not stop them. *)
Fixpoint scan_name (m : list Z) : outcome (list Z * list Z) :=
  match m with
  | [] => Fault OutOfBounds
  | c :: m' =>
    if c =? chr_colon then Done ([], m') else
    if (c =? chr_close) || (c =? chr_open) then Fault AssertionFailed else
    '(s, rest) ← scan_name m'; Done (c :: s, rest)
  end.

Fixpoint scan_attr (m : list Z) : outcome (list Z * list Z) :=
  match m with
  | [] => Fault OutOfBounds
  | c :: m' =>
    if c =? chr_close then Done ([], m') else
    '(s, rest) ← scan_attr m'; Done (c :: s, rest)
  end.

(** [deserialize_nameserver_prop]: the property and the memory behind the
    characters it consumed. *)
Definition deserialize_nameserver_prop (input : list Z) : outcome (nameserver_properties * list Z) :=
  match input with
  | [] => Fault OutOfBounds
  | c :: input =>
    ASSERT c =? chr_open;
    '(name, input) ← scan_name input;
    '(attr, input) ← scan_attr input;
    Done (NsProp (strncpy name) (strncpy attr), input)
  end.

(** * Queries *)

(** [strcpy] of a serialised property: the bytes without the zero, which the
    next write replaces. *)
Definition prop_chars (p : nameserver_properties) : list Z :=
  [chr_open] ++ prop_name p ++ [chr_colon] ++ prop_attr p ++ [chr_close].

(** [serialize_nameserver_query]: the allocated bytes, and [*serlen], which
    for a query of properties is added to the value it has. *)
Definition serialize_nameserver_query (q : nameserver_query) (serlen : Z) : outcome (list Z * Z) :=
  match q with
  | nsq_name s => Done (bytes_of_int 0 ++ s ++ [0], Z.of_nat (length s) + 1 + 4)
  | nsq_type s => Done (bytes_of_int 1 ++ s ++ [0], Z.of_nat (length s) + 1 + 4)
  | nsq_props qps =>
    let body := qps ≫= (fun x => bytes_of_int (nsqpt x) ++ prop_chars (nsp x)) in
    Done (bytes_of_int 2 ++ bytes_of_int (Z.of_nat (length qps)) ++ body ++ [0],
          u32 (serlen + 4 + 4 + Z.of_nat (length body) + 1))
  | nsq_other _ => Fault AssertionFailed
  end.

Fixpoint deserialize_qps (count : nat) (input : list Z) : outcome (list query_prop) :=
  match count with
  | O => Done []
  | S n =>
    '(t, input) ← read_int input;
    '(p, input) ← deserialize_nameserver_prop input;
    l ← deserialize_qps n input;
    Done (QueryProp t p :: l)
  end.

(** [deserialize_nsq_props]. *)
Definition deserialize_nsq_props (input : list Z) : outcome (list query_prop) :=
  '(count, input) ← read_int input;
  deserialize_qps (Z.to_nat count) input.

(** [deserialize_nameserver_query]: the string behind the tag is copied for
    every tag. *)
Definition deserialize_nameserver_query (input : list Z) : outcome nameserver_query :=
  '(tag, input) ← read_int input;
  str ← c_string input;
  if tag =? 0 then Done (nsq_name str) else
  if tag =? 1 then Done (nsq_type str) else
  if tag =? 2 then qps ← deserialize_nsq_props input; Done (nsq_props qps) else
  Done (nsq_other tag).

(** * Services *)

(** The first [count] serialised properties; reading behind the array is a
    fault. *)
Definition serialize_props (ps : list nameserver_properties) (count : Z) : outcome (list Z) :=
  if Z.of_nat (length ps) <? count then Fault OutOfBounds
  else Done (take (Z.to_nat count) ps ≫= prop_chars).

(** [serialize_nameserver_info]: the allocated bytes. *)
Definition serialize_nameserver_info (i : nameserver_info) : outcome (list Z) :=
  props ← serialize_props (ns_props i) (nsp_count i);
  Done (bytes_of_int (coreid i) ++ bytes_of_int (nsp_count i)
        ++ [chr_open] ++ ns_name i ++ [chr_comma] ++ ns_type i ++ [chr_comma; chr_open]
        ++ props ++ [chr_close; chr_close; 0]).

Fixpoint deserialize_props (count : nat) (input : list Z) : outcome (list nameserver_properties) :=
  match count with
  | O => Done []
  | S n =>
    '(p, input) ← deserialize_nameserver_prop input;
    l ← deserialize_props n input;
    Done (p :: l)
  end.

(** [deserialize_nameserver_info]; the capability is not part of the format
    and has whatever value [cap] the memory holds. *)
Definition deserialize_nameserver_info (input : list Z) (cap : Z) : outcome nameserver_info :=
  '(core, input) ← read_int input;
  '(count, input) ← read_int input;
  let count := signed32 count in
  let input := drop 1 input in
  d ← strchr input chr_comma;
  match d with
  | None => Fault AssertionFailed
  | Some (name, input) =>
    ASSERT Z.of_nat (length name) <=? 10000;
    d ← strchr input chr_comma;
    match d with
    | None => Fault NullDereference
    | Some (type, input) =>
      let input := drop 1 input in
      props ← deserialize_props (Z.to_nat count) input;
      Done (NsInfo (strncpy name) (strncpy type) core count props cap)
    end
  end.

(** * Round trips *)

(** Strings that the format can carry: characters that are not zero and
    none of the given delimiters. *)
Definition carries (delims : list Z) (s : cstr) : Prop := Forall (fun c => 0 < c < 256 /\ c ∉ delims) s.

Definition prop_ok (p : nameserver_properties) : Prop :=
  carries [chr_open; chr_close; chr_colon] (prop_name p) /\ carries [chr_close] (prop_attr p).

Definition query_ok (q : nameserver_query) : Prop :=
  match q with
  | nsq_name s | nsq_type s => carries [] s
  | nsq_props qps => Z.of_nat (length qps) < 2 ^ 31
                     /\ Forall (fun x => 0 <= nsqpt x < 2 ^ 32 /\ prop_ok (nsp x)) qps
  | nsq_other _ => False
  end.

Definition info_ok (i : nameserver_info) : Prop :=
  carries [chr_comma] (ns_name i) /\ Z.of_nat (length (ns_name i)) <= 10000
  /\ carries [chr_comma] (ns_type i) /\ 0 <= coreid i < 2 ^ 32
  /\ Z.max 0 (nsp_count i) = Z.of_nat (length (ns_props i)) /\ - 2 ^ 31 <= nsp_count i < 2 ^ 31
  /\ Forall prop_ok (ns_props i).

#[global] Instance carries_dec d s : Decision (carries d s).
Proof. unfold carries. apply _. Defined.
#[global] Instance prop_ok_dec p : Decision (prop_ok p).
Proof. unfold prop_ok. apply _. Defined.
#[global] Instance info_ok_dec i : Decision (info_ok i).
Proof. unfold info_ok. apply _. Defined.

Lemma carries_strncpy d s : carries d s -> strncpy s = s.
Proof.
  induction 1 as [|c s [Hc _] Hs IH]; [done|]. cbn. zdecide. by rewrite IH.
Qed.

Lemma carries_weaken d s : carries d s -> carries [] s.
Proof. intros H. eapply Forall_impl; [exact H|]. intros c [? _]. split; [done|by apply not_elem_of_nil]. Qed.

Lemma c_string_carries s rest : carries [] s -> c_string (s ++ 0 :: rest) = Done s.
Proof. induction 1 as [|c s [Hc _] Hs IH]; [done|]. cbn. zdecide. by rewrite IH. Qed.

Lemma strchr_carries d s c rest : carries d s -> c ∈ d -> strchr (s ++ c :: rest) c = Done (Some (s, rest)).
Proof.
  intros H Hc. induction H as [|x s [Hx Hd] Hs IH]; cbn; [by rewrite Z.eqb_refl|].
  assert (x <> c) by (intros ->; done). zdecide. by rewrite IH.
Qed.

Lemma scan_name_carries s rest : carries [chr_open; chr_close; chr_colon] s ->
  scan_name (s ++ chr_colon :: rest) = Done (s, rest).
Proof.
  induction 1 as [|x s [Hx Hd] Hs IH]; cbn; [done|].
  rewrite !not_elem_of_cons in Hd. destruct Hd as (? & ? & ? & _). zdecide. cbn [orb]. by rewrite IH.
Qed.

Lemma scan_attr_carries s rest : carries [chr_close] s -> scan_attr (s ++ chr_close :: rest) = Done (s, rest).
Proof.
  induction 1 as [|x s [Hx Hd] Hs IH]; cbn; [done|].
  rewrite !not_elem_of_cons in Hd. destruct Hd as (? & _). zdecide. by rewrite IH.
Qed.

Lemma prop_roundtrip p rest : prop_ok p -> deserialize_nameserver_prop (prop_chars p ++ rest) = Done (p, rest).
Proof.
  intros [Hn Ha]. unfold prop_chars, deserialize_nameserver_prop. rewrite <- !app_assoc. cbn [app].
  rewrite Z.eqb_refl. cbn [assert]. step. rewrite scan_name_carries by done. step.
  rewrite scan_attr_carries by done. step.
  rewrite (carries_strncpy _ _ Hn), (carries_strncpy _ _ Ha). by destruct p.
Qed.

Lemma read_int_bytes n rest : 0 <= n < 2 ^ 32 -> read_int (bytes_of_int n ++ rest) = Done (n, rest).
Proof.
  intros Hn. unfold bytes_of_int. rewrite u32_small by lia. cbn. do 2 f_equal.
  pose proof (Z.div_mod n 256). pose proof (Z.div_mod (n / 256) 256). pose proof (Z.div_mod (n / 65536) 256).
  rewrite Z.div_div in * by lia. change (256 * 256) with 65536 in *. change (65536 * 256) with 16777216 in *.
  rewrite (Z.mod_small (n / 16777216)); [lia|]. split; [apply Z.div_pos; lia|]. apply Z.div_lt_upper_bound; lia.
Qed.

Lemma props_roundtrip ps rest : Forall prop_ok ps ->
  deserialize_props (length ps) ((ps ≫= prop_chars) ++ rest) = Done ps.
Proof.
  induction 1 as [|p ps Hp Hps IH]; [done|]. rewrite bind_cons, <- app_assoc. cbn [length deserialize_props].
  rewrite prop_roundtrip by done. step. by rewrite IH.
Qed.

Lemma qps_roundtrip qps rest : Forall (fun x => 0 <= nsqpt x < 2 ^ 32 /\ prop_ok (nsp x)) qps ->
  deserialize_qps (length qps) ((qps ≫= (fun x => bytes_of_int (nsqpt x) ++ prop_chars (nsp x))) ++ rest) = Done qps.
Proof.
  induction 1 as [|x qps [Ht Hp] Hq IH]; [done|]. rewrite bind_cons, <- !app_assoc. cbn [length deserialize_qps].
  rewrite read_int_bytes by done. step. rewrite prop_roundtrip by done. step. rewrite IH. by destruct x.
Qed.

(** Every prefix that contains a zero byte has a string. *)
Lemma c_string_zero m : 0 ∈ m -> exists s, c_string m = Done s.
Proof.
  induction m as [|c m IH]; [by intros ?%elem_of_nil|]. intros H. cbn. destruct (Z.eqb_spec c 0) as [->|Hc]; [eauto|].
  apply elem_of_cons in H as [H|H]; [by destruct Hc|]. destruct (IH H) as [s ->]. eauto.
Qed.

Lemma query_roundtrip_at q serlen junk : query_ok q ->
  exists bytes n, serialize_nameserver_query q serlen = Done (bytes, n)
  /\ deserialize_nameserver_query (bytes ++ junk) = Done q.
Proof.
  destruct q as [s|s|qps|t]; intros Hq; cbn [serialize_nameserver_query]; [| | |done].
  - eexists _, _. split; [reflexivity|]. unfold deserialize_nameserver_query. rewrite <- !app_assoc.
    rewrite read_int_bytes by lia. step. cbn [app]. by rewrite c_string_carries.
  - eexists _, _. split; [reflexivity|]. unfold deserialize_nameserver_query. rewrite <- !app_assoc.
    rewrite read_int_bytes by lia. step. cbn [app]. by rewrite c_string_carries.
  - destruct Hq as [Hn Hq]. eexists _, _. split; [reflexivity|]. unfold deserialize_nameserver_query. rewrite <- !app_assoc.
    rewrite read_int_bytes by lia. step. match goal with |- context [c_string ?m] => destruct (c_string_zero m) as [s ->] end.
    { rewrite !elem_of_app. right. right. left. apply list_elem_of_singleton. done. }
    step. change (2 =? 0) with false. change (2 =? 1) with false. cbn [Z.eqb Pos.eqb]. unfold deserialize_nsq_props.
    rewrite read_int_bytes by lia. step. rewrite Nat2Z.id, qps_roundtrip by done. done.
Qed.

Lemma signed32_u32 n : - 2 ^ 31 <= n < 2 ^ 31 -> signed32 (u32 n) = n.
Proof.
  intros. unfold signed32, u32, wrap. destruct (Z.le_gt_cases 0 n).
  - rewrite Z.mod_small by lia. by zdecide.
  - rewrite <- (Z.mod_unique n (2 ^ 32) (-1) (n + 2 ^ 32)) by lia. zdecide. lia.
Qed.

Lemma read_count n rest : read_int (bytes_of_int n ++ rest) = Done (u32 n, rest).
Proof.
  pose proof (u32_range n). rewrite <- (read_int_bytes (u32 n) rest) by lia.
  unfold bytes_of_int. by rewrite (u32_small (u32 n)) by lia.
Qed.

Lemma info_roundtrip_at i junk cap : info_ok i ->
  exists bytes, serialize_nameserver_info i = Done bytes
  /\ deserialize_nameserver_info (bytes ++ junk) cap
     = Done (NsInfo (ns_name i) (ns_type i) (coreid i) (nsp_count i) (ns_props i) cap).
Proof.
  intros (Hn & Hnl & Ht & Hc & Hk & Hk' & Hp). unfold serialize_nameserver_info, serialize_props.
  zdecide. assert (Hc' : Z.to_nat (nsp_count i) = length (ns_props i)) by lia.
  rewrite Hc', take_ge by lia. step. eexists. split; [reflexivity|].
  unfold deserialize_nameserver_info. rewrite <- !app_assoc. rewrite read_int_bytes by lia. step.
  rewrite read_count. step. rewrite signed32_u32 by lia. cbn [app drop]. rewrite drop_0.
  rewrite (strchr_carries [chr_comma]) by (done || by left). step. rewrite assert_true by (by zdecide). step.
  rewrite (strchr_carries [chr_comma]) by (done || by left). step. cbn [drop]. rewrite drop_0.
  rewrite Hc', props_roundtrip by done. step.
  by rewrite (carries_strncpy _ _ Hn), (carries_strncpy _ _ Ht).
Qed.

(** ** What is read is well-formed *)

Definition byte (c : Z) : Prop := 0 <= c < 256.

Lemma bytes_of_word_range w : Forall byte (bytes_of_word w).
Proof. repeat (apply Forall_cons; split); try (apply Z.mod_pos_bound; lia). constructor. Qed.

Lemma bytes_of_words_range l : Forall byte (bytes_of_words l).
Proof.
  induction l as [|w l IH]; [constructor|]. unfold bytes_of_words. rewrite bind_cons.
  apply Forall_app. split; [apply bytes_of_word_range|done].
Qed.

Lemma carries_bytes d s : carries d s -> Forall byte s.
Proof. intros H. eapply Forall_impl; [exact H|]. intros c [? _]. unfold byte. lia. Qed.

Lemma strncpy_carries d m : Forall byte m -> Forall (fun c => c ∉ d) m -> carries d (strncpy m).
Proof.
  intros Hb. induction Hb as [|c m Hc Hm IH]; intros Hd; cbn; [constructor|]. apply Forall_cons in Hd as [Hcd Hd].
  unfold byte in Hc. zcases; [constructor|]. constructor; [|by apply IH]. split; [lia|done].
Qed.

Lemma strchr_reads m c s rest : Forall byte m -> strchr m c = Done (Some (s, rest)) ->
  Forall byte s /\ Forall (fun x => x ∉ [c]) s /\ Forall byte rest.
Proof.
  intros Hb. revert s rest. induction Hb as [|d m Hd Hm IH]; intros s rest; cbn; [done|].
  destruct (Z.eqb_spec d c) as [->|Hne]; [by intros [= <- <-]|]. destruct (d =? 0); [done|].
  destruct (strchr m c) as [[[s' r']|]|]; [|done|done]. step. intros [= <- <-].
  destruct (IH s' r' eq_refl) as (? & ? & ?). split; [by constructor|]. split; [|done].
  constructor; [|done]. intros ?%list_elem_of_singleton. done.
Qed.

Lemma scan_name_reads m s rest : Forall byte m -> scan_name m = Done (s, rest) ->
  Forall byte s /\ Forall (fun x => x ∉ [chr_open; chr_close; chr_colon]) s /\ Forall byte rest.
Proof.
  intros Hb. revert s rest. induction Hb as [|d m Hd Hm IH]; intros s rest; cbn; [done|].
  destruct (Z.eqb_spec d chr_colon) as [->|H1]; [by intros [= <- <-]|].
  destruct (Z.eqb_spec d chr_close) as [->|H2]; [done|]. destruct (Z.eqb_spec d chr_open) as [->|H3]; [done|].
  cbn [orb]. destruct (scan_name m) as [[s' r']|]; [|done]. step. intros [= <- <-].
  destruct (IH s' r' eq_refl) as (? & ? & ?). split; [by constructor|]. split; [|done].
  constructor; [|done]. rewrite !not_elem_of_cons. split_and!; try done. by apply not_elem_of_nil.
Qed.

Lemma scan_attr_reads m s rest : Forall byte m -> scan_attr m = Done (s, rest) ->
  Forall byte s /\ Forall (fun x => x ∉ [chr_close]) s /\ Forall byte rest.
Proof.
  intros Hb. revert s rest. induction Hb as [|d m Hd Hm IH]; intros s rest; cbn; [done|].
  destruct (Z.eqb_spec d chr_close) as [->|H1]; [by intros [= <- <-]|].
  destruct (scan_attr m) as [[s' r']|]; [|done]. step. intros [= <- <-].
  destruct (IH s' r' eq_refl) as (? & ? & ?). split; [by constructor|]. split; [|done].
  constructor; [|done]. intros ?%list_elem_of_singleton. done.
Qed.

Lemma prop_reads m p rest : Forall byte m -> deserialize_nameserver_prop m = Done (p, rest) ->
  prop_ok p /\ Forall byte rest.
Proof.
  intros Hb. destruct m as [|c m]; [done|]. cbn. apply Forall_cons in Hb as [_ Hb].
  unfold assert. destruct (c =? chr_open); [|done]. step.
  destruct (scan_name m) as [[n m1]|] eqn:E1; [|done]. step. destruct (scan_attr m1) as [[a m2]|] eqn:E2; [|done].
  step. intros [= <- <-]. destruct (scan_name_reads _ _ _ Hb E1) as (? & ? & Hb1).
  destruct (scan_attr_reads _ _ _ Hb1 E2) as (? & ? & ?). split; [|done]. by split; apply strncpy_carries.
Qed.

Lemma props_read n m ps : Forall byte m -> deserialize_props n m = Done ps -> Forall prop_ok ps /\ length ps = n.
Proof.
  revert m ps. induction n as [|n IH]; intros m ps Hb; cbn; [by intros [= <-]|].
  destruct (deserialize_nameserver_prop m) as [[p m1]|] eqn:E; [|done]. step.
  destruct (prop_reads _ _ _ Hb E) as [Hp Hb1]. destruct (deserialize_props n m1) as [l|] eqn:E2; [|done]. step.
  intros [= <-]. destruct (IH _ _ Hb1 E2) as [? <-]. split; [by constructor|done].
Qed.

Lemma read_int_reads m n rest : Forall byte m -> read_int m = Done (n, rest) -> 0 <= n < 2 ^ 32 /\ Forall byte rest.
Proof.
  intros Hb. destruct m as [|a [|b [|c [|d m]]]]; cbn; try done. intros [= <- <-].
  rewrite !Forall_cons in Hb. unfold byte in Hb. destruct Hb as (? & ? & ? & ? & ?). split; [lia|done].
Qed.

Lemma Forall_drop {A} (P : A -> Prop) n l : Forall P l -> Forall P (drop n l).
Proof. intros H. rewrite <- (take_drop n l) in H. by apply Forall_app in H as [_ ?]. Qed.

Lemma length_strncpy m : (length (strncpy m) <= length m)%nat.
Proof. induction m as [|c m IH]; cbn; [lia|]. destruct (c =? 0); cbn; lia. Qed.

Lemma info_reads m cap i : Forall byte m -> deserialize_nameserver_info m cap = Done i -> info_ok i.
Proof.
  intros Hb. unfold deserialize_nameserver_info.
  destruct (read_int m) as [[core m1]|] eqn:E1; [|done]. step. destruct (read_int_reads _ _ _ Hb E1) as [Hcore Hb1].
  destruct (read_int m1) as [[cnt m2]|] eqn:E2; [|done]. step. destruct (read_int_reads _ _ _ Hb1 E2) as [Hcnt Hb2].
  apply (Forall_drop _ 1) in Hb2.
  destruct (strchr (drop 1 m2) chr_comma) as [[[name m3]|]|] eqn:E3; step; [|done|done].
  destruct (strchr_reads _ _ _ _ Hb2 E3) as (Hn & Hnd & Hb3).
  unfold assert. destruct (Z.leb_spec (Z.of_nat (length name)) 10000); [|done]. step.
  destruct (strchr m3 chr_comma) as [[[type m4]|]|] eqn:E4; step; [|done|done].
  destruct (strchr_reads _ _ _ _ Hb3 E4) as (Ht & Htd & Hb4). apply (Forall_drop _ 1) in Hb4.
  destruct (deserialize_props _ _) as [ps|] eqn:E5; [|done]. step. intros [= <-].
  destruct (props_read _ _ _ Hb4 E5) as [Hps Hlen].
  assert (Hs : - 2 ^ 31 <= signed32 cnt < 2 ^ 31) by (unfold signed32; zcases; lia).
  repeat split; cbn; try done; try lia; try (by apply strncpy_carries).
  pose proof (length_strncpy name). lia.
Qed.
