(* ===== verification/Nameserver.v ===== *)
(** The nameserver (usr/nameserver/main.c) and its client library
    (lib/aos/nameserver_client.c).

    The registry is a list of processes, each with the channel that names it
    and its services.  Handlers take the request and return the registry and
    the response they send; requests and responses are the words of the RPC
    layer.  Two reads of the code are outside of the language and are
    parameters: the services of the null process, which [add_service] reads
    when the registry is empty, and the link of a fresh process, which it
    does not initialise then. *)
From S2P Require Import Prelude Rpc NsCodec.

(** * State *)

Record process := Process { connection_chan : Z; services : list nameserver_info }.

Abbreviation nameserver := (list process).

(** * Evaluation of queries *)

#[global] Instance cstr_eq_dec : EqDecision cstr := _.

(** The comparison of one attribute, [true] if the switch does not return:
    [strcmp], [strncmp], [strcmp] of the end and [strstr]. *)
Fixpoint strstr (haystack needle : cstr) : bool :=
  bool_decide (take (length needle) haystack = needle)
  || match haystack with [] => false | _ :: h => strstr h needle end.

Definition attr_cmp (t : Z) (qattr attr : cstr) : bool :=
  if t =? nsqp_is then bool_decide (qattr = attr) else
  if t =? nsq_beginswith then bool_decide (take (length qattr) qattr = take (length qattr) attr) else
  if t =? nsq_endswith then bool_decide (qattr = drop (length attr - length qattr) attr) else
  if t =? nsq_contains then strstr qattr attr else true.

(** The inner loop of [query_prop_cmp]: [None] if no property has the name,
    else whether the first one that has it passes. *)
Fixpoint prop_fulfilled (q : query_prop) (props : list nameserver_properties) : option bool :=
  match props with
  | [] => None
  | p :: props' =>
    if bool_decide (prop_name (nsp q) = prop_name p) then
      Some (negb (Z.of_nat (length (prop_attr p)) <? Z.of_nat (length (prop_attr (nsp q))))
            && attr_cmp (nsqpt q) (prop_attr (nsp q)) (prop_attr p))
    else prop_fulfilled q props'
  end.

(** [query_prop_cmp]: the array has [nsp_count] properties. *)
Fixpoint query_prop_cmp (qps : list query_prop) (nsi : nameserver_info) : bool :=
  match qps with
  | [] => true
  | q :: qps' =>
    match prop_fulfilled q (take (Z.to_nat (nsp_count nsi)) (ns_props nsi)) with
    | Some true => query_prop_cmp qps' nsi
    | _ => false
    end
  end.

(** [eval_query]. *)
Definition eval_query (q : nameserver_query) (nsi : nameserver_info) : bool :=
  match q with
  | nsq_name s => bool_decide (s = ns_name nsi)
  | nsq_type s => bool_decide (s = ns_type nsi)
  | nsq_props qps => query_prop_cmp qps nsi
  | nsq_other _ => false
  end.

(** * The registry *)

(** [kill_dead_services]: [connected] is the state of the channels. *)
Fixpoint kill_dead_services (connected : Z -> bool) (ns : nameserver) : nameserver :=
  match ns with
  | [] => []
  | p :: ns' => if connected (connection_chan p) then p :: kill_dead_services connected ns'
                else kill_dead_services connected ns'
  end.

(** The loop of [find_service] over the services of one process: the service
    and the list without it. *)
Fixpoint find_in (query : nameserver_query) (l : list nameserver_info)
  : option (nameserver_info * list nameserver_info) :=
  match l with
  | [] => None
  | i :: l' =>
    if eval_query query i then Some (i, l')
    else match find_in query l' with Some (j, rest) => Some (j, i :: rest) | None => None end
  end.

(** [find_service]: the error (0, 314 not found, 315 not the owner), the
    result and the registry.  A process whose last service is removed is
    removed with it. *)
Fixpoint find_service (requester_chan : Z) (query : nameserver_query) (remove : bool) (ns : nameserver)
  : Z * option nameserver_info * nameserver :=
  match ns with
  | [] => (314, None, [])
  | p :: ns' =>
    match find_in query (services p) with
    | Some (i, rest) =>
      if remove then
        if connection_chan p =? requester_chan then
          (0, Some i, match rest with [] => ns' | _ => Process (connection_chan p) rest :: ns' end)
        else (315, Some i, ns)
      else (0, Some i, ns)
    | None =>
      let '(e, r, ns'') := find_service requester_chan query remove ns' in (e, r, p :: ns'')
    end
  end.

Fixpoint has_name (name : cstr) (l : list nameserver_info) : bool :=
  match l with
  | [] => false
  | i :: l' => bool_decide (ns_name i = name) || has_name name l'
  end.

(** Push a service on the services of the process of a channel. *)
Fixpoint push_service (chan : Z) (entry : nameserver_info) (ns : nameserver) : option nameserver :=
  match ns with
  | [] => None
  | p :: ns' =>
    if connection_chan p =? chan then Some (Process chan (entry :: services p) :: ns')
    else cons p <$> push_service chan entry ns'
  end.

Section Registry.
(** What the read through the null process gives, and what the link of a
    fresh process holds. *)
Variable null_services : outcome (list nameserver_info).
Variable fresh_next : nameserver.

(** [add_service]: the cursor over the services is set once, so the loop
    looks at the services of the first process only. *)
Definition add_service (requester_chan : Z) (entry : nameserver_info) (ns : nameserver)
  : outcome (Z * nameserver) :=
  first ← match ns with [] => null_services | p :: _ => Done (services p) end;
  if match ns with [] => false | _ => has_name (ns_name entry) first end then Done (314, ns) else
  match push_service requester_chan entry ns with
  | Some ns' => Done (0, ns')
  | None =>
    let next := match ns with [] => fresh_next | _ => ns end in
    Done (0, Process requester_chan [entry] :: next)
  end.

(** [ns_remove_self_handler]. *)
Fixpoint ns_remove_self_handler (requester_chan : Z) (ns : nameserver) : bool * nameserver :=
  match ns with
  | [] => (false, [])
  | p :: ns' =>
    if connection_chan p =? requester_chan then (true, ns')
    else let '(b, ns'') := ns_remove_self_handler requester_chan ns' in (b, p :: ns'')
  end.

(** * Handlers *)

(** The arguments of [send_response]: capability, size and words. *)
Record response := Response { rsp_cap : Z; rsp_size : Z; rsp_payload : list Z }.

(** No string pointer is null in this model. *)
Definition validate_entry (entry : option nameserver_info) : bool :=
  match entry with None => false | Some _ => true end.

Definition set_cap (cap : Z) (i : nameserver_info) : nameserver_info :=
  NsInfo (ns_name i) (ns_type i) (coreid i) (nsp_count i) (ns_props i) cap.

Definition ns_register_service_handler (data : recv_list) (ns : nameserver) : outcome (nameserver * response) :=
  ns_info ← deserialize_nameserver_info (bytes_of_words (rl_payload data)) 0;
  let ns_info := set_cap (rl_cap data) ns_info in
  if negb (validate_entry (Some ns_info)) then Done (ns, Response NULL_CAP 1 [2 ^ 32 - 1]) else
  '(_, ns) ← add_service (rl_chan data) ns_info ns;
  Done (ns, Response NULL_CAP 0 []).

Definition ns_deregister_handler (data : recv_list) (ns : nameserver) : outcome (nameserver * response) :=
  name ← c_string (bytes_of_words (rl_payload data));
  let '(_, nsi, ns) := find_service (rl_chan data) (nsq_name name) true ns in
  match nsi with
  | Some i => Done (ns, Response (chan_cap i) 1 [1])
  | None => Fault NullDereference
  end.

(** The bytes of a serialised service up to the end of its string. *)
Definition info_message (ser : list Z) : outcome (list Z * Z) :=
  s ← c_string (drop 8 ser);
  convert_charptr_to_uintptr_with_padding_and_copy ser (Z.of_nat (length s) + 9).

Definition ns_lookup_handler (data : recv_list) (ns : nameserver) : outcome (nameserver * response) :=
  nsq ← deserialize_nameserver_query (bytes_of_words (rl_payload data));
  let '(_, nsi, ns) := find_service (rl_chan data) nsq false ns in
  match nsi with
  | Some i =>
    ser ← serialize_nameserver_info i;
    '(out, outsize) ← info_message ser;
    Done (ns, Response (chan_cap i) outsize out)
  | None => Done (ns, Response NULL_CAP 0 [])
  end.

(** The services that satisfy a query, in the order of the two loops. *)
Fixpoint matching (nsq : nameserver_query) (ns : nameserver) : list nameserver_info :=
  match ns with
  | [] => []
  | p :: ns' => filter (fun i => eval_query nsq i = true) (services p) ++ matching nsq ns'
  end.

(** The second pass: the names with a comma between, and a zero. *)
Fixpoint join (names : list cstr) : list Z :=
  match names with
  | [] => []
  | [s] => s ++ [0]
  | s :: names' => s ++ [chr_comma] ++ join names'
  end.

Definition ns_lookup_enumerate (data : recv_list) (ns : nameserver) : outcome (nameserver * response) :=
  nsq ← deserialize_nameserver_query (bytes_of_words (rl_payload data));
  let hits := matching nsq ns in
  let enum_count := Z.of_nat (length hits) in
  let strlength := foldr (fun i n => Z.of_nat (length (ns_name i)) + n) 0 hits in
  if enum_count =? 0 then Done (ns, Response NULL_CAP 0 []) else
  '(out, outsize) ← convert_charptr_to_uintptr_with_padding_and_copy
                      (join (ns_name <$> hits)) (strlength + enum_count);
  Done (ns, Response NULL_CAP outsize out).

Definition RPC_MESSAGE (message_type : Z) : Z := Z.shiftl message_type 1.
Definition RPC_ACK_MESSAGE (message_type : Z) : Z := Z.shiftl message_type 1 + 1.
Definition NS_RPC_TYPE_REMOVE_SELF : Z := 2.
Definition NS_RPC_TYPE_REGISTER_SERVICE : Z := 3.
Definition NS_RPC_TYPE_DEREGISTER_SERVICE : Z := 4.
Definition NS_RPC_TYPE_LOOKUP : Z := 5.
Definition NS_RPC_TYPE_ENUMERATE : Z := 6.
Definition NS_RPC_TYPE_DEBUG_DUMP : Z := 8.

(** [ns_active_chan_handler]: dead processes are removed before every
    request.  The answer to [NS_RPC_TYPE_REMOVE_SELF] is a word read from a
    [bool], whose other bytes are [stack]. *)
Definition ns_active_chan_handler (connected : Z -> bool) (stack : Z) (data : recv_list) (ns : nameserver)
  : outcome (nameserver * option response) :=
  let ns := kill_dead_services connected ns in
  let t := rl_type data in
  if t =? RPC_MESSAGE NS_RPC_TYPE_REMOVE_SELF then
    let '(b, ns) := ns_remove_self_handler (rl_chan data) ns in
    Done (ns, Some (Response NULL_CAP 1 [u32 ((if b then 0 else 1) + 256 * stack)]))
  else if t =? RPC_MESSAGE NS_RPC_TYPE_REGISTER_SERVICE then
    '(ns, r) ← ns_register_service_handler data ns; Done (ns, Some r)
  else if t =? RPC_MESSAGE NS_RPC_TYPE_DEREGISTER_SERVICE then
    '(ns, r) ← ns_deregister_handler data ns; Done (ns, Some r)
  else if t =? RPC_MESSAGE NS_RPC_TYPE_LOOKUP then
    '(ns, r) ← ns_lookup_handler data ns; Done (ns, Some r)
  else if t =? RPC_MESSAGE NS_RPC_TYPE_ENUMERATE then
    '(ns, r) ← ns_lookup_enumerate data ns; Done (ns, Some r)
  else if t =? RPC_MESSAGE NS_RPC_TYPE_DEBUG_DUMP then Done (ns, Some (Response NULL_CAP 0 []))
  else Done (ns, None).
End Registry.

(** * The client *)

(** [struct rpc_call] without the link: the handler of the reply is named by
    a number. *)
Record rpc_call := RpcCall { rc_id : Z; rc_type : Z; rc_handler : Z }.

(** [register_recv]. *)
Definition register_recv (call : rpc_call) (head : list rpc_call) : list rpc_call := call :: head.

(** [ns_rpc_recv_handler]: the call that the acknowledgement completes, and
    the calls that still wait.  A message that is no acknowledgement, or that
    nobody waits for, changes nothing; the first word of a message without
    payload is what the receive buffer holds, [stale]. *)
Fixpoint take_call (type id : Z) (head : list rpc_call) : option (rpc_call * list rpc_call) :=
  match head with
  | [] => None
  | c :: head' =>
    if (rc_type c =? type) && (rc_id c =? id) then Some (c, head')
    else match take_call type id head' with Some (d, l) => Some (d, c :: l) | None => None end
  end.

Definition ns_rpc_recv_handler (stale : Z) (data : recv_list) (head : list rpc_call)
  : option rpc_call * list rpc_call :=
  if Z.land (rl_type data) 1 =? 0 then (None, head) else
  match take_call (rl_type data) (default stale (rl_payload data !! 0%nat)) head with
  | Some (c, l) => (Some c, l)
  | None => (None, head)
  end.

(** The requests: the words that [register_service], [deregister], [lookup]
    and [enumerate] send.  The query is copied with one byte more than its
    serialisation has, [heap] is what the byte behind it holds. *)
Definition register_request (nsi : nameserver_info) : outcome (list Z * Z) :=
  ser ← serialize_nameserver_info nsi; info_message ser.

Definition deregister_request (name : cstr) : outcome (list Z * Z) :=
  convert_charptr_to_uintptr_with_padding_and_copy (name ++ [0]) (Z.of_nat (length name) + 1).

Definition query_request (heap : Z) (q : nameserver_query) : outcome (list Z * Z) :=
  '(ser, len) ← serialize_nameserver_query q 0;
  convert_charptr_to_uintptr_with_padding_and_copy (ser ++ [heap]) (len + 1).

(** [lookup_recv_handler]. *)
Definition lookup_recv_handler (data : recv_list) : outcome (option nameserver_info) :=
  if 1 <? rl_size data then
    i ← deserialize_nameserver_info (bytes_of_words (drop 1 (rl_payload data))) 0;
    Done (Some (NsInfo (ns_name i) (ns_type i) (coreid i) (nsp_count i) (ns_props i) (rl_cap data)))
  else Done None.

(** The loop of [enumerate_recv_handler] that cuts the string at commas. *)
Fixpoint split_commas (m : list Z) : outcome (list cstr) :=
  match m with
  | [] => Fault OutOfBounds
  | c :: m' =>
    if c =? 0 then Done [[]] else
    l ← split_commas m';
    if c =? chr_comma then Done ([] :: l) else
    match l with
    | [] => Done [[c]]
    | s :: l' => Done ((c :: s) :: l')
    end
  end.

Definition enumerate_recv_handler (data : recv_list) : outcome (option (list cstr)) :=
  if rl_size data <=? 1 then Done None else
  l ← split_commas (bytes_of_words (drop 1 (rl_payload data)));
  Done (Some l).
