(* ===== verification/NsCorrect.v ===== *)
(** Correctness of the nameserver: the registry implements a list of
    services with their owners, and a service that a client registers is the
    one that another client looks up, through both serialisations. *)
From S2P Require Import Prelude Rpc RpcCorrect NsCodec Nameserver.

(** * The registry as a list of owned services *)

Definition owned (p : process) : list (Z * nameserver_info) := pair (connection_chan p) <$> services p.
Definition flat (ns : nameserver) : list (Z * nameserver_info) := ns ≫= owned.

(** Every process has one entry and at least one service. *)
Definition ns_ok (ns : nameserver) : Prop :=
  NoDup (connection_chan <$> ns) /\ Forall (fun p => services p <> []) ns.

Lemma flat_cons p ns : flat (p :: ns) = owned p ++ flat ns.
Proof. done. Qed.

Lemma flat_chan c i ns : (c, i) ∈ flat ns -> c ∈ connection_chan <$> ns.
Proof.
  induction ns as [|p ns IH]; [by intros ?%elem_of_nil|]. rewrite flat_cons, elem_of_app, fmap_cons.
  intros [(j & Hj & _)%list_elem_of_fmap|H]; [injection Hj as -> ->; by left|right; auto].
Qed.

(** ** Looking up *)

Definition hits (q : nameserver_query) (x : Z * nameserver_info) : Prop := eval_query q x.2 = true.
#[global] Instance hits_dec q x : Decision (hits q x) := bool_eq_dec (eval_query q x.2) true.

Lemma find_in_spec q c l : match find_in q l with
  | Some (i, rest) => exists k, list_find (hits q) (pair c <$> l) = Some (k, (c, i))
                      /\ pair c <$> rest = delete k (pair c <$> l)
  | None => Forall (fun i => eval_query q i = false) l
  end.
Proof.
  induction l as [|i l IH]; cbn [find_in]; [constructor|]. destruct (eval_query q i) eqn:E.
  - exists 0%nat. cbn. rewrite decide_True by exact E. done.
  - destruct (find_in q l) as [[j rest]|].
    + destruct IH as (k & Hk & Hd). exists (S k). cbn. rewrite decide_False by (unfold hits; cbn; congruence).
      rewrite Hk. split; [done|]. by rewrite Hd.
    + by constructor.
Qed.

Lemma list_find_app_skip {A} (P : A -> Prop) `{!forall x, Decision (P x)} l1 l2 :
  Forall (fun x => ~ P x) l1 ->
  list_find P (l1 ++ l2) = prod_map (Nat.add (length l1)) id <$> list_find P l2.
Proof.
  induction 1 as [|x l1 Hx Hl IH]; cbn.
  - destruct (list_find P l2) as [[? ?]|]; done.
  - rewrite decide_False by done. rewrite IH. by destruct (list_find P l2) as [[? ?]|].
Qed.

Lemma list_find_app_hit {A} (P : A -> Prop) `{!forall x, Decision (P x)} l1 l2 k x :
  list_find P l1 = Some (k, x) -> list_find P (l1 ++ l2) = Some (k, x).
Proof.
  revert k. induction l1 as [|y l1 IH]; intros k; cbn; [done|]. case_decide; [done|].
  destruct (list_find P l1) as [[j z]|]; cbn; [|done]. intros [= <- <-]. by rewrite (IH j).
Qed.

Lemma owned_miss q p : Forall (fun i => eval_query q i = false) (services p) -> Forall (fun x => ~ hits q x) (owned p).
Proof.
  intros H. unfold owned. apply Forall_fmap. eapply Forall_impl; [exact H|]. unfold hits. cbn. congruence.
Qed.

Lemma delete_app_l {A} (l1 l2 : list A) k : (k < length l1)%nat -> delete k (l1 ++ l2) = delete k l1 ++ l2.
Proof. revert k. induction l1 as [|x l1 IH]; intros [|k] Hk; cbn in *; try lia; [done|]. f_equal. apply IH. lia. Qed.

Lemma delete_app_r {A} (l1 l2 : list A) (k : nat) : delete (length l1 + k)%nat (l1 ++ l2) = l1 ++ delete k l2.
Proof. induction l1 as [|x l1 IH]; cbn; [done|]. f_equal. apply IH. Qed.

(** What [find_service] does, in terms of the first service in the list that
    satisfies the query. *)
Definition find_spec (r : Z) (q : nameserver_query) (remove : bool) (ns : nameserver)
  (res : Z * option nameserver_info * nameserver) : Prop :=
  match list_find (hits q) (flat ns) with
  | None => res = (314, None, ns)
  | Some (k, (c, i)) =>
    if remove then
      if c =? r then exists ns', res = (0, Some i, ns') /\ flat ns' = delete k (flat ns)
                     /\ sublist (connection_chan <$> ns') (connection_chan <$> ns)
                     /\ (ns_ok ns -> Forall (fun p => services p <> []) ns')
      else res = (315, Some i, ns)
    else res = (0, Some i, ns)
  end.

Lemma find_service_spec r q remove ns : find_spec r q remove ns (find_service r q remove ns).
Proof.
  induction ns as [|p ns IH]; [done|]. unfold find_spec. rewrite flat_cons. cbn [find_service].
  pose proof (find_in_spec q (connection_chan p) (services p)) as Hin. fold (owned p) in Hin.
  destruct (find_in q (services p)) as [[i rest]|].
  - destruct Hin as (k & Hk & Hd). rewrite (list_find_app_hit _ _ _ _ _ Hk).
    destruct remove; [|done]. destruct (connection_chan p =? r); [|done].
    apply list_find_Some in Hk as (Hl & _). apply lookup_lt_Some in Hl.
    eexists. split; [reflexivity|]. rewrite delete_app_l by done. rewrite <- Hd.
    destruct rest as [|j rest]; (split; [done|]; split; [|]).
    + by apply sublist_cons.
    + by intros [_ [_ ?]%Forall_cons].
    + done.
    + intros [_ [_ ?]%Forall_cons]. by constructor.
  - apply owned_miss in Hin. rewrite list_find_app_skip by done. unfold find_spec in IH.
    destruct (list_find (hits q) (flat ns)) as [[k [c i]]|]; cbn [fmap option_fmap option_map prod_map].
    + cbn. destruct remove; [|by rewrite IH]. destruct (c =? r); [|by rewrite IH].
      destruct IH as (ns' & -> & Hf & Hs & Hne). eexists. split; [reflexivity|]. rewrite flat_cons, Hf.
      split; [|split].
      * by rewrite delete_app_r.
      * by apply sublist_skip.
      * intros [Hnd [Hp Hns]%Forall_cons]. constructor; [done|]. apply Hne. split; [|done].
        cbn in Hnd. by apply NoDup_cons in Hnd as [_ ?].
    + cbn. by rewrite IH.
Qed.

Lemma sublist_in {A} (l k : list A) x : sublist l k -> x ∈ l -> x ∈ k.
Proof.
  induction 1 as [|y l k Hs IH|y l k Hs IH]; intros Hx; [done| |by right; auto].
  apply elem_of_cons in Hx as [->|Hx]; [by left|right; auto].
Qed.

Lemma sublist_NoDup {A} (l k : list A) : sublist l k -> NoDup k -> NoDup l.
Proof.
  induction 1 as [|x l k Hs IH|x l k Hs IH]; intros Hk; [done| |].
  - apply NoDup_cons in Hk as [Hx Hk]. apply NoDup_cons. split; [|auto].
    intros Hin. apply Hx. by eapply sublist_in.
  - apply NoDup_cons in Hk as [_ Hk]. auto.
Qed.

Lemma find_service_ok r q remove ns : ns_ok ns -> ns_ok (find_service r q remove ns).2.
Proof.
  intros Hok. pose proof (find_service_spec r q remove ns) as H. unfold find_spec in H.
  destruct (list_find _ _) as [[k [c i]]|]; [|by rewrite H].
  destruct remove; [|by rewrite H]. destruct (c =? r); [|by rewrite H].
  destruct H as (ns' & -> & _ & Hs & Hne). cbn. split; [|by apply Hne].
  eapply sublist_NoDup; [exact Hs|apply Hok].
Qed.

(** ** Adding *)

Lemma has_name_spec n l : has_name n l = true <-> n ∈ ns_name <$> l.
Proof.
  induction l as [|i l IH]; cbn; [split; [done|by intros ?%elem_of_nil]|].
  rewrite orb_true_iff, bool_decide_eq_true, IH, elem_of_cons.
  split; (intros [H|H]; [by left|by right]).
Qed.

Lemma push_service_spec c i ns : NoDup (connection_chan <$> ns) ->
  match push_service c i ns with
  | Some ns' => c ∈ connection_chan <$> ns /\ connection_chan <$> ns' = connection_chan <$> ns
                /\ Permutation (flat ns') ((c, i) :: flat ns)
                /\ filter (fun x => x.1 = c) (flat ns') = (c, i) :: filter (fun x => x.1 = c) (flat ns)
                /\ (Forall (fun p => services p <> []) ns -> Forall (fun p => services p <> []) ns')
  | None => c ∉ connection_chan <$> ns
  end.
Proof.
  induction ns as [|p ns IH]; intros Hnd; [by apply not_elem_of_nil|]. cbn [push_service].
  rewrite fmap_cons in Hnd. apply NoDup_cons in Hnd as [Hp Hnd].
  destruct (Z.eqb_spec (connection_chan p) c) as [<-|Hc].
  - split; [by left|]. split; [done|]. rewrite !flat_cons. unfold owned. cbn [connection_chan services fmap list_fmap].
    split; [done|]. split; [cbn [app]; by rewrite filter_cons_True|].
    intros [_ ?]%Forall_cons. by constructor.
  - specialize (IH Hnd). destruct (push_service c i ns) as [ns'|]; cbn [fmap option_fmap option_map].
    + destruct IH as (Hin & Hch & Hp' & Hfi & Hne). split; [by right|]. split; [by rewrite !fmap_cons, Hch|].
      rewrite !flat_cons. split; [rewrite Hp'; symmetry; apply Permutation_middle|]. split.
      * rewrite !filter_app, Hfi.
        assert (Hnil : filter (fun x => x.1 = c) (owned p) = []).
        { unfold owned. clear -Hc. induction (services p); [done|].
          cbn [fmap list_fmap]. by rewrite filter_cons_False. }
        by rewrite Hnil.
      * intros [? ?]%Forall_cons. constructor; auto.
    + rewrite fmap_cons. apply not_elem_of_cons. split; [congruence|done].
Qed.

Section Add.
Context (null_services : outcome (list nameserver_info)) (fresh_next : nameserver).

(** The two reads outside of the language give nothing: the page at address
    zero and fresh memory hold zeros. *)
Definition zero_memory : Prop := null_services = Done [] /\ fresh_next = [].

Lemma add_service_spec c i ns : ns_ok ns -> (ns = [] -> zero_memory) ->
  exists e ns', add_service null_services fresh_next c i ns = Done (e, ns') /\ ns_ok ns'
  /\ if match ns with [] => false | p :: _ => has_name (ns_name i) (services p) end
     then e = 314 /\ ns' = ns
     else e = 0 /\ Permutation (flat ns') ((c, i) :: flat ns)
          /\ filter (fun x => x.1 = c) (flat ns') = (c, i) :: filter (fun x => x.1 = c) (flat ns).
Proof.
  intros [Hnd Hne] Hz. unfold add_service. destruct ns as [|p ns].
  - destruct (Hz eq_refl) as [-> ->]. step. cbn [push_service]. eexists _, _. split; [reflexivity|].
    split; [split; [apply NoDup_singleton|by repeat constructor]|].
    split; [done|]. split; [done|]. change (flat [Process c [i]]) with [(c, i)]. by rewrite filter_cons_True.
  - step. destruct (has_name (ns_name i) (services p)); [by eexists _, _|].
    pose proof (push_service_spec c i (p :: ns) Hnd) as Hp. destruct (push_service c i (p :: ns)) as [ns'|].
    + destruct Hp as (_ & Hch & Hper & Hf & Hne'). eexists _, _. split; [reflexivity|].
      split; [split; [by rewrite Hch|by apply Hne']|]. done.
    + eexists _, _. split; [reflexivity|]. split.
      * split; [cbn; apply NoDup_cons; by split|]. by constructor.
      * split; [done|]. split; [done|]. rewrite flat_cons. change (owned (Process c [i])) with [(c, i)].
        cbn [app]. by rewrite filter_cons_True.
Qed.
End Add.

(** ** Removing processes *)

Lemma kill_dead_spec conn ns : kill_dead_services conn ns = filter (fun p => conn (connection_chan p) = true) ns.
Proof.
  induction ns as [|p ns IH]; [done|]. cbn [kill_dead_services]. rewrite filter_cons, IH.
  destruct (conn (connection_chan p)); by case_decide.
Qed.

Lemma filter_owned (P : Z -> Prop) `{!forall c, Decision (P c)} p :
  filter (fun x : Z * nameserver_info => P x.1) (owned p) = if decide (P (connection_chan p)) then owned p else [].
Proof.
  unfold owned. induction (services p) as [|i l IH]; cbn [fmap list_fmap]; [by case_decide|].
  rewrite filter_cons. cbn. rewrite IH. by case_decide.
Qed.

Lemma flat_filter (P : Z -> Prop) `{!forall c, Decision (P c)} ns :
  flat (filter (fun p => P (connection_chan p)) ns) = filter (fun x => P x.1) (flat ns).
Proof.
  induction ns as [|p ns IH]; [done|]. rewrite flat_cons, filter_app, filter_owned, filter_cons.
  case_decide; [by rewrite flat_cons, IH|done].
Qed.

Lemma filter_ok (P : process -> Prop) `{!forall p, Decision (P p)} ns : ns_ok ns -> ns_ok (filter P ns).
Proof.
  intros [Hnd Hne]. split.
  - eapply sublist_NoDup; [|exact Hnd]. clear. induction ns as [|p ns IH]; [done|].
    rewrite filter_cons. case_decide; [by apply sublist_skip|by apply sublist_cons].
  - apply Forall_forall. intros p [_ Hp]%list_elem_of_filter. rewrite Forall_forall in Hne. auto.
Qed.

Lemma remove_self_spec r ns : NoDup (connection_chan <$> ns) ->
  ns_remove_self_handler r ns
  = (bool_decide (r ∈ connection_chan <$> ns), filter (fun p => connection_chan p <> r) ns).
Proof.
  induction ns as [|p ns IH]; intros Hnd; [done|]. rewrite fmap_cons in Hnd. apply NoDup_cons in Hnd as [Hp Hnd].
  cbn [ns_remove_self_handler]. rewrite filter_cons. destruct (Z.eqb_spec (connection_chan p) r) as [Hr|Hr].
  - subst r. rewrite decide_False by (intros H; by apply H). rewrite bool_decide_true by (rewrite fmap_cons; by left). f_equal.
    symmetry. clear -Hp. induction ns as [|q ns IH]; [done|]. rewrite fmap_cons in Hp.
    apply not_elem_of_cons in Hp as [Hq Hp]. rewrite filter_cons_True by congruence. by rewrite IH.
  - rewrite decide_True by done. rewrite IH by done. f_equal. apply bool_decide_ext.
    rewrite fmap_cons, elem_of_cons. split; [by right|by intros [->|?]].
Qed.

Lemma remove_self_flat r ns :
  flat (filter (fun p => connection_chan p <> r) ns) = filter (fun x => x.1 <> r) (flat ns).
Proof. exact (flat_filter (fun c => c <> r) ns). Qed.

(** * Requests and replies in words *)

Definition pad (n : nat) : list Z := replicate (Z.to_nat (trailing (Z.of_nat n))) 0.

Lemma convert_bytes l n : Forall byte l -> n = Z.of_nat (length l) ->
  exists ws, convert_charptr_to_uintptr_with_padding_and_copy l n = Done (ws, Z.of_nat (length ws))
  /\ bytes_of_words ws = l ++ pad (length l) /\ (l <> [] -> ws <> []).
Proof.
  intros Hl ->. destruct (convert_spec l Hl) as (ws & n & He & Hb & -> & Hn).
  exists ws. split; [done|]. split; [done|]. intros Hne ->. destruct l; [done|]. cbn in Hn. lia.
Qed.

Lemma prop_chars_carries p : prop_ok p -> carries [] (prop_chars p).
Proof.
  intros [Hn Ha]. unfold prop_chars. repeat (apply Forall_app; split);
    try (apply carries_weaken in Hn; exact Hn); try (apply carries_weaken in Ha; exact Ha);
    apply Forall_singleton; (split; [done|apply not_elem_of_nil]).
Qed.

Lemma props_carry ps : Forall prop_ok ps -> carries [] (ps ≫= prop_chars).
Proof.
  induction 1 as [|p ps Hp Hps IH]; [constructor|]. rewrite bind_cons. apply Forall_app.
  split; [by apply prop_chars_carries|done].
Qed.

Lemma bytes_of_int_range n : Forall byte (bytes_of_int n).
Proof. apply bytes_of_word_range. Qed.

(** The serialisation of a service: two integers and a string. *)
Lemma info_shape i : info_ok i ->
  exists body, carries [] body
  /\ serialize_nameserver_info i = Done (bytes_of_int (coreid i) ++ bytes_of_int (nsp_count i) ++ body ++ [0]).
Proof.
  intros (Hn & Hnl & Ht & Hc & Hk & Hk' & Hp). unfold serialize_nameserver_info, serialize_props. zdecide.
  assert (Hc' : Z.to_nat (nsp_count i) = length (ns_props i)) by lia. rewrite Hc', take_ge by lia. step.
  exists ([chr_open] ++ ns_name i ++ [chr_comma] ++ ns_type i ++ [chr_comma; chr_open]
          ++ (ns_props i ≫= prop_chars) ++ [chr_close; chr_close]).
  assert (Hone : forall c, 0 < c < 256 -> carries [] [c]).
  { intros c ?. apply Forall_singleton. split; [done|apply not_elem_of_nil]. }
  split.
  - apply carries_weaken in Hn, Ht. pose proof (props_carry _ Hp).
    repeat (apply Forall_app; split); try done; try (by apply Hone);
      (apply Forall_cons; split; [split; [done|apply not_elem_of_nil]|by apply Hone]).
  - f_equal. rewrite <- !app_assoc. done.
Qed.

Lemma info_message_spec i : info_ok i ->
  exists ser ws, serialize_nameserver_info i = Done ser /\ info_message ser = Done (ws, Z.of_nat (length ws))
  /\ ws <> [] /\ (forall cap, deserialize_nameserver_info (bytes_of_words ws) cap = Done (set_cap cap i)).
Proof.
  intros Hok. destruct (info_shape i Hok) as (body & Hb & Hser).
  set (ser := bytes_of_int (coreid i) ++ bytes_of_int (nsp_count i) ++ body ++ [0]) in *.
  assert (Hr : Forall byte ser).
  { unfold ser. repeat (apply Forall_app; split); try apply bytes_of_int_range; [by eapply carries_bytes|].
    by apply Forall_singleton. }
  assert (Hlen : length ser = (length body + 9)%nat) by (unfold ser; rewrite !length_app; cbn; lia).
  destruct (convert_bytes ser (Z.of_nat (length body) + 9) Hr) as (ws & Hcv & Hw & Hne); [lia|].
  exists ser, ws. split; [done|]. split; [|split].
  - unfold info_message. change (drop 8 ser) with (body ++ [0]). rewrite c_string_carries by done. step. exact Hcv.
  - apply Hne. unfold ser. done.
  - intros cap. rewrite Hw. destruct (info_roundtrip_at i (pad (length ser)) cap Hok) as (bytes & Hb2 & Hd).
    rewrite Hser in Hb2. injection Hb2 as <-. exact Hd.
Qed.

(** The query fits into 32 bits. *)
Definition query_small (q : nameserver_query) : Prop :=
  forall bytes n, serialize_nameserver_query q 0 = Done (bytes, n) -> Z.of_nat (length bytes) < 2 ^ 32.

Lemma qps_range (qps : list query_prop) : Forall (fun x => prop_ok (nsp x)) qps ->
  Forall byte (qps ≫= (fun x => bytes_of_int (nsqpt x) ++ prop_chars (nsp x))).
Proof.
  induction 1 as [|x qps Hx Hq IH]; [constructor|]. rewrite bind_cons. apply Forall_app. split; [|done].
  apply Forall_app. split; [apply bytes_of_int_range|]. eapply carries_bytes. by apply prop_chars_carries.
Qed.

Lemma query_request_spec heap q : byte heap -> query_ok q -> query_small q ->
  exists ws, query_request heap q = Done (ws, Z.of_nat (length ws))
  /\ deserialize_nameserver_query (bytes_of_words ws) = Done q.
Proof.
  intros Hh Hq Hsm. destruct (query_roundtrip_at q 0 [] Hq) as (bytes & n & Hser & _).
  specialize (Hsm _ _ Hser). unfold query_request. rewrite Hser. step.
  assert (Hb : Forall byte bytes /\ n = Z.of_nat (length bytes)).
  { destruct q as [s|s|qps|]; cbn [serialize_nameserver_query] in Hser; [| | |done]; injection Hser as <- <-.
    - split; [|cbn [length]; rewrite length_app; cbn; lia]. change (Forall byte (bytes_of_int 0 ++ s ++ [0])).
      repeat (apply Forall_app; split); [apply bytes_of_int_range|by eapply carries_bytes|by apply Forall_singleton].
    - split; [|cbn [length]; rewrite length_app; cbn; lia]. change (Forall byte (bytes_of_int 1 ++ s ++ [0])).
      repeat (apply Forall_app; split); [apply bytes_of_int_range|by eapply carries_bytes|by apply Forall_singleton].
    - destruct Hq as [_ Hq]. set (body := mbind _ qps) in *. split.
      + change (Forall byte (bytes_of_int 2 ++ bytes_of_int (Z.of_nat (length qps)) ++ body ++ [0])).
        repeat (apply Forall_app; split); try apply bytes_of_int_range; [|by apply Forall_singleton].
        apply qps_range. eapply Forall_impl; [exact Hq|]. by intros x [_ ?].
      + cbn [length app] in *. rewrite !length_app in *. cbn [length] in *. rewrite u32_small; lia. }
  destruct Hb as [Hb ->].
  destruct (convert_bytes (bytes ++ [heap]) (Z.of_nat (length bytes) + 1)) as (ws & -> & Hw & _).
  { apply Forall_app. split; [done|by apply Forall_singleton]. }
  { rewrite length_app. cbn. lia. }
  exists ws. split; [done|]. rewrite Hw, <- app_assoc.
  destruct (query_roundtrip_at q 0 ([heap] ++ pad (length (bytes ++ [heap]))) Hq) as (bytes' & n' & Hser' & Hd).
  rewrite Hser in Hser'. by injection Hser' as <- _.
Qed.

(** The acknowledgement of a response, as the client receives it: the first
    word is the identifier of the request. *)
Definition reply (id : Z) (r : response) : recv_list :=
  RecvList 0 0 (rsp_cap r) (1 + rsp_size r) (1 + rsp_size r) 0 (id :: rsp_payload r).

(** ** Lists of names *)

Lemma split_join s names : carries [chr_comma] s -> Forall (carries [chr_comma]) names ->
  forall rest, split_commas (join (s :: names) ++ rest) = Done (s :: names).
Proof.
  intros Hs Hn rest. revert s Hs. induction Hn as [|t names Ht Hn IH]; intros s Hs.
  - cbn [join]. induction Hs as [|c s [Hc Hd] Hs IHs]; [done|]. cbn [app split_commas].
    rewrite not_elem_of_cons in Hd. destruct Hd as [Hcc _]. zdecide. rewrite IHs. done.
  - change (join (s :: t :: names)) with (s ++ [chr_comma] ++ join (t :: names)).
    induction Hs as [|c s [Hc Hd] Hs IHs].
    + cbn [app split_commas]. change (chr_comma =? 0) with false. rewrite IH by done. done.
    + cbn [app split_commas] in *. rewrite not_elem_of_cons in Hd. destruct Hd as [Hcc _]. zdecide. rewrite IHs. done.
Qed.

Lemma join_shape names : names <> [] -> Forall (carries [chr_comma]) names ->
  Forall byte (join names)
  /\ Z.of_nat (length (join names)) = foldr (fun s n => Z.of_nat (length s) + n) 0 names + Z.of_nat (length names).
Proof.
  intros Hne Hn. induction Hn as [|s names Hs Hn IH]; [done|]. destruct names as [|t names].
  - cbn. rewrite length_app. split; [|cbn; lia]. apply Forall_app. split; [by eapply carries_bytes|by apply Forall_singleton].
  - destruct IH as [Hb Hl]; [done|]. change (join (s :: t :: names)) with (s ++ [chr_comma] ++ join (t :: names)).
    rewrite !length_app. split.
    + repeat (apply Forall_app; split); [by eapply carries_bytes|by apply Forall_singleton|done].
    + cbn [length foldr] in *. lia.
Qed.

Lemma matching_flat q ns : matching q ns = snd <$> filter (hits q) (flat ns).
Proof.
  induction ns as [|p ns IH]; [done|]. cbn [matching]. rewrite flat_cons, filter_app, fmap_app, IH. f_equal.
  unfold owned. clear. induction (services p) as [|i l IH]; [done|]. cbn [fmap list_fmap]. rewrite !filter_cons.
  unfold hits. cbn [snd]. case_decide; [rewrite decide_True by done|rewrite decide_False by done]; cbn; by rewrite IH.
Qed.

(** * The whole server *)

Definition registry_ok (ns : nameserver) : Prop := ns_ok ns /\ Forall (fun x => info_ok x.2) (flat ns).

(** A request of a client on a channel. *)
Definition request (chan cap type : Z) (ws : list Z) : recv_list :=
  RecvList (RPC_MESSAGE type) 0 cap (Z.of_nat (length ws)) (Z.of_nat (length ws)) chan ws.

(** The services of the processes that are still connected. *)
Definition live (connected : Z -> bool) (ns : nameserver) : list (Z * nameserver_info) :=
  filter (fun x => connected x.1 = true) (flat ns).

Lemma live_flat conn ns : flat (kill_dead_services conn ns) = live conn ns.
Proof. rewrite kill_dead_spec. exact (flat_filter (fun c => conn c = true) ns). Qed.

Lemma kill_dead_ok conn ns : registry_ok ns -> registry_ok (kill_dead_services conn ns).
Proof.
  intros [Hok Hi]. split; [rewrite kill_dead_spec; by apply filter_ok|]. rewrite live_flat. unfold live.
  apply Forall_forall. intros x [_ Hx]%list_elem_of_filter. rewrite Forall_forall in Hi. auto.
Qed.

Lemma set_cap_same i : set_cap (chan_cap i) i = i.
Proof. by destruct i. Qed.

Lemma set_cap_ok cap i : info_ok i -> info_ok (set_cap cap i).
Proof. done. Qed.

(** The first service that satisfies a query. *)
Definition first_hit (q : nameserver_query) (l : list (Z * nameserver_info)) : option nameserver_info :=
  match list_find (hits q) l with Some (_, (_, i)) => Some i | None => None end.

Lemma find_false r q ns : find_service r q false ns
  = (match first_hit q (flat ns) with Some _ => 0 | None => 314 end, first_hit q (flat ns), ns).
Proof.
  pose proof (find_service_spec r q false ns) as H. unfold find_spec in H. unfold first_hit.
  by destruct (list_find _ _) as [[k [c i]]|].
Qed.

Lemma first_hit_in q l i : first_hit q l = Some i -> exists c, (c, i) ∈ l.
Proof.
  unfold first_hit. destruct (list_find _ _) as [[k [c j]]|] eqn:E; [|done]. intros [= <-].
  apply list_find_Some in E as (Hl & _). exists c. by eapply list_elem_of_lookup_2.
Qed.

(** Evaluate the tests on the message type of a request. *)
Ltac pick_type := repeat match goal with
  | |- context [RPC_MESSAGE ?a =? RPC_MESSAGE ?b] =>
    let v := eval vm_compute in (RPC_MESSAGE a =? RPC_MESSAGE b) in
    change (RPC_MESSAGE a =? RPC_MESSAGE b) with v; cbv iota
  end.

Section Server.
Context (null_services : outcome (list nameserver_info)) (fresh_next : nameserver).
Context (connected : Z -> bool) (stack : Z).

Abbreviation handler := (ns_active_chan_handler null_services fresh_next connected stack).
Abbreviation zeros := (zero_memory null_services fresh_next).

Lemma lookup_handled heap chan cap q ns id : registry_ok ns -> query_ok q -> query_small q -> byte heap ->
  exists ws r, query_request heap q = Done (ws, Z.of_nat (length ws))
  /\ handler (request chan cap NS_RPC_TYPE_LOOKUP ws) ns = Done (kill_dead_services connected ns, Some r)
  /\ lookup_recv_handler (reply id r) = Done (first_hit q (live connected ns)).
Proof.
  intros Hok Hq Hsm Hh. destruct (query_request_spec heap q Hh Hq Hsm) as (ws & Hws & Hd). exists ws.
  pose proof (kill_dead_ok connected ns Hok) as [_ Hinfo]. rewrite live_flat in Hinfo.
  unfold ns_active_chan_handler. cbn [rl_type request]. pick_type.
  unfold ns_lookup_handler. cbn [rl_payload request]. rewrite Hd. step.
  rewrite find_false, live_flat. destruct (first_hit q (live connected ns)) as [i|] eqn:E.
  - destruct (first_hit_in _ _ _ E) as [c Hc]. rewrite Forall_forall in Hinfo. specialize (Hinfo _ Hc). cbn in Hinfo.
    destruct (info_message_spec i Hinfo) as (ser & out & -> & Hm & Hne & Hdes). step. rewrite Hm. step.
    eexists. split; [done|]. split; [reflexivity|]. unfold lookup_recv_handler, reply. cbn [rl_size rsp_size].
    assert (0 < Z.of_nat (length out)) by (destruct out; cbn; [done|lia]). zdecide. cbn [rl_payload drop]. rewrite drop_0.
    cbn [rsp_payload]. rewrite Hdes. step. by destruct i.
  - eexists. split; [done|]. split; [reflexivity|]. done.
Qed.

Lemma enumerate_handled heap chan cap q ns id : registry_ok ns -> query_ok q -> query_small q -> byte heap ->
  exists ws r, query_request heap q = Done (ws, Z.of_nat (length ws))
  /\ handler (request chan cap NS_RPC_TYPE_ENUMERATE ws) ns = Done (kill_dead_services connected ns, Some r)
  /\ enumerate_recv_handler (reply id r)
     = Done (match filter (hits q) (live connected ns) with
             | [] => None
             | l => Some ((fun x => ns_name x.2) <$> l)
             end).
Proof.
  intros Hok Hq Hsm Hh. destruct (query_request_spec heap q Hh Hq Hsm) as (ws & Hws & Hd). exists ws.
  pose proof (kill_dead_ok connected ns Hok) as [_ Hinfo]. rewrite live_flat in Hinfo.
  unfold ns_active_chan_handler. cbn [rl_type request]. pick_type.
  unfold ns_lookup_enumerate. cbn [rl_payload request]. rewrite Hd. step.
  rewrite matching_flat, live_flat. set (l := filter (hits q) (live connected ns)).
  assert (Hl : Forall (carries [chr_comma]) ((fun x : Z * nameserver_info => ns_name x.2) <$> l)).
  { apply Forall_fmap, Forall_forall. intros x [_ Hx]%list_elem_of_filter. rewrite Forall_forall in Hinfo.
    apply (Hinfo x Hx). }
  clearbody l. destruct l as [|x l].
  - eexists. split; [done|]. split; [reflexivity|]. done.
  - rewrite <- list_fmap_compose. change (ns_name ∘ snd) with (fun x : Z * nameserver_info => ns_name x.2).
    set (names := (fun x : Z * nameserver_info => ns_name x.2) <$> (x :: l)) in *.
    destruct (join_shape names) as [Hb Hlen]; [done|done|].
    destruct (convert_bytes (join names) (foldr (fun i n => Z.of_nat (length (ns_name i)) + n) 0 (snd <$> x :: l)
      + Z.of_nat (length (snd <$> x :: l))) Hb) as (out & Hcv & Hout & Hne).
    { rewrite Hlen. unfold names. rewrite !length_fmap, !foldr_fmap. done. }
    rewrite (proj2 (Z.eqb_neq _ 0)) by (rewrite length_fmap; cbn; lia). rewrite Hcv. step.
    eexists. split; [done|]. split; [reflexivity|]. unfold enumerate_recv_handler, reply. cbn [rl_size rsp_size].
    assert (0 < Z.of_nat (length out)).
    { destruct out; cbn; [|lia]. exfalso. apply Hne; [|done]. unfold names. cbn. destruct l; by destruct (ns_name x.2). }
    zdecide. cbn [rl_payload drop rsp_payload]. rewrite drop_0, Hout. unfold names in *. cbn [fmap list_fmap] in *.
    apply Forall_cons in Hl as [? ?]. by rewrite split_join.
Qed.

Lemma register_handled c i ns : registry_ok ns -> info_ok i ->
  (live connected ns = [] -> zeros) ->
  exists ws e ns1, register_request i = Done (ws, Z.of_nat (length ws))
  /\ add_service null_services fresh_next c i (kill_dead_services connected ns) = Done (e, ns1)
  /\ handler (request c (chan_cap i) NS_RPC_TYPE_REGISTER_SERVICE ws) ns = Done (ns1, Some (Response NULL_CAP 0 [])).
Proof.
  intros Hok Hi Hz. destruct (info_message_spec i Hi) as (ser & ws & Hs & Hm & Hne & Hdes).
  pose proof (kill_dead_ok connected ns Hok) as [Hk _].
  destruct (add_service_spec null_services fresh_next c i _ Hk) as (e & ns1 & Hadd & _).
  { intros E. apply Hz. by rewrite <- live_flat, E. }
  exists ws, e, ns1. split; [unfold register_request; by rewrite Hs|]. split; [done|].
  unfold ns_active_chan_handler. cbn [rl_type request]. pick_type.
  unfold ns_register_service_handler. cbn [rl_payload rl_cap rl_chan request]. rewrite Hdes. step.
  change (set_cap (chan_cap i) (set_cap 0 i)) with (set_cap (chan_cap i) i). rewrite set_cap_same. cbn [validate_entry negb].
  rewrite Hadd. done.
Qed.
End Server.

(** * Theorems *)

Lemma live_ok conn ns : registry_ok ns -> Forall (fun x => info_ok x.2) (live conn ns).
Proof. intros H. rewrite <- live_flat. apply (kill_dead_ok conn ns H). Qed.

Lemma find_keeps_infos r q remove ns : Forall (fun x => info_ok x.2) (flat ns) ->
  Forall (fun x => info_ok x.2) (flat (find_service r q remove ns).2).
Proof.
  intros Hf. pose proof (find_service_spec r q remove ns) as H. unfold find_spec in H.
  destruct (list_find _ _) as [[k [c i]]|]; [|by rewrite H].
  destruct remove; [|by rewrite H]. destruct (c =? r); [|by rewrite H].
  destruct H as (ns' & -> & Hd & _). cbn [snd]. rewrite Hd. by apply Forall_delete.
Qed.

Lemma find_keeps r q remove ns e x ns' : registry_ok ns -> find_service r q remove ns = (e, x, ns') -> registry_ok ns'.
Proof.
  intros [Hok Hi] E. pose proof (find_service_ok r q remove ns Hok) as H1.
  pose proof (find_keeps_infos r q remove ns Hi) as H2. rewrite E in H1, H2. done.
Qed.

Lemma add_keeps null fresh c i ns e ns' : registry_ok ns -> info_ok i -> (ns = [] -> zero_memory null fresh) ->
  add_service null fresh c i ns = Done (e, ns') -> registry_ok ns'.
Proof.
  intros [Hok Hi] Hinfo Hz E. destruct (add_service_spec null fresh c i ns Hok Hz) as (e' & ns'' & E' & Hok' & Hif).
  rewrite E in E'. injection E' as <- <-. split; [done|]. destruct (match ns with [] => _ | _ => _ end).
  - by destruct Hif as [_ ->].
  - destruct Hif as (_ & Hp & _). rewrite Hp. by constructor.
Qed.

(** C36: whatever words a client sends, a request that the server survives
    keeps the registry well-formed: each process occurs once and has a
    service, and every stored service has the shape that parsing produces.
    The one exception is stated with it: a registration while no service of
    a connected process is registered makes a registry of the new process
    followed by whatever its link, which is not initialised, points to
    (main.c:270). *)
Theorem ns_requests_keep_registry null_services fresh_next connected stack data ns ns' r :
  registry_ok ns -> ns_active_chan_handler null_services fresh_next connected stack data ns = Done (ns', r) ->
  registry_ok ns' \/
  (live connected ns = [] /\ rl_type data = RPC_MESSAGE NS_RPC_TYPE_REGISTER_SERVICE /\
   exists i, info_ok i /\ ns' = Process (rl_chan data) [i] :: fresh_next).
Proof.
  intros Hok. pose proof (kill_dead_ok connected ns Hok) as Hk. unfold ns_active_chan_handler.
  assert (Hz : kill_dead_services connected ns = [] -> live connected ns = []) by (intros E; by rewrite <- live_flat, E). set (k := kill_dead_services connected ns) in *. clearbody k.
  assert (Hb := bytes_of_words_range (rl_payload data)).
  destruct (_ =? RPC_MESSAGE NS_RPC_TYPE_REMOVE_SELF).
  { destruct Hk as [Hns Hi]. rewrite remove_self_spec by apply Hns. intros [= <- <-]. left. split; [by apply filter_ok|]. rewrite remove_self_flat.
    apply Forall_forall. intros x [_ Hx]%list_elem_of_filter. rewrite Forall_forall in Hi. auto. }
  destruct (Z.eqb_spec (rl_type data) (RPC_MESSAGE NS_RPC_TYPE_REGISTER_SERVICE)) as [Et|_].
  { unfold ns_register_service_handler. destruct (deserialize_nameserver_info _ 0) as [i|] eqn:E; [|done]. step.
    cbn [validate_entry negb]. destruct (add_service _ _ _ _ k) as [[e ns1]|] eqn:Ea; [|done]. step. intros [= <- <-].
    assert (Hi : info_ok (set_cap (rl_cap data) i)) by (apply set_cap_ok; by eapply info_reads). destruct (decide (k = [])) as [->|Hne]; [|left; by eapply add_keeps].
    right. split_and!; [auto|done|]. exists (set_cap (rl_cap data) i). split; [done|]. unfold add_service in Ea. destruct null_services; [|done]. by injection Ea as _ <-. }
  destruct (_ =? RPC_MESSAGE NS_RPC_TYPE_DEREGISTER_SERVICE).
  { unfold ns_deregister_handler. destruct (c_string _) as [s|]; [|done]. step.
    destruct (find_service _ _ true k) as [[e x] ns1] eqn:E. destruct x; [|done]. step. intros [= <- <-].
    left. by eapply find_keeps. }
  destruct (_ =? RPC_MESSAGE NS_RPC_TYPE_LOOKUP).
  { unfold ns_lookup_handler. destruct (deserialize_nameserver_query _) as [q|]; [|done]. step.
    destruct (find_service _ _ false k) as [[e x] ns1] eqn:E. destruct x as [i|].
    + destruct (serialize_nameserver_info i) as [ser|]; [|done]. step. destruct (info_message ser) as [[o n]|]; [|done].
      step. intros [= <- <-]. left. by eapply find_keeps.
    + step. intros [= <- <-]. left. by eapply find_keeps. }
  destruct (_ =? RPC_MESSAGE NS_RPC_TYPE_ENUMERATE).
  { unfold ns_lookup_enumerate. destruct (deserialize_nameserver_query _) as [q|]; [|done]. step.
    case_match; [intros [= <- <-]; by left|]. destruct (convert_charptr_to_uintptr_with_padding_and_copy _ _) as [[o n]|]; [|done].
    step. intros [= <- <-]. by left. }
  by destruct (_ =? _); intros [= <- <-]; left.
Qed.

(** A lookup finds the first fit.  A query that a client serialises and
    sends makes the server answer with the first service, in the order of the
    registry, of a connected process that satisfies the query; the client
    decodes exactly this service with its capability, and nothing if there is
    none.  The registry loses its disconnected processes only. *)
Theorem ns_lookup_first_fit null_services fresh_next connected stack heap chan cap q ns id :
  registry_ok ns -> query_ok q -> query_small q -> byte heap ->
  exists ws r, query_request heap q = Done (ws, Z.of_nat (length ws))
  /\ ns_active_chan_handler null_services fresh_next connected stack (request chan cap NS_RPC_TYPE_LOOKUP ws) ns
     = Done (kill_dead_services connected ns, Some r)
  /\ lookup_recv_handler (reply id r) = Done (first_hit q (live connected ns)).
Proof. apply lookup_handled. Qed.

(** Enumeration returns the names of all services of connected
    processes that satisfy the query, in the order of the registry. *)
Theorem ns_enumerate_all null_services fresh_next connected stack heap chan cap q ns id :
  registry_ok ns -> query_ok q -> query_small q -> byte heap ->
  exists ws r, query_request heap q = Done (ws, Z.of_nat (length ws))
  /\ ns_active_chan_handler null_services fresh_next connected stack (request chan cap NS_RPC_TYPE_ENUMERATE ws) ns
     = Done (kill_dead_services connected ns, Some r)
  /\ enumerate_recv_handler (reply id r)
     = Done (match filter (hits q) (live connected ns) with
             | [] => None
             | l => Some ((fun x => ns_name x.2) <$> l)
             end).
Proof. apply enumerate_handled. Qed.

Lemma first_hit_unique q c i l l' : Permutation l' ((c, i) :: l) -> eval_query q i = true ->
  Forall (fun x => eval_query q x.2 = false) l -> first_hit q l' = Some i.
Proof.
  intros Hp Hq Hl. unfold first_hit. destruct (list_find (hits q) l') as [[k [d j]]|] eqn:E.
  - apply list_find_Some in E as (Hk & Hh & _). apply list_elem_of_lookup_2 in Hk. rewrite Hp in Hk.
    apply elem_of_cons in Hk as [[= -> ->]|Hk]; [done|]. rewrite Forall_forall in Hl. specialize (Hl _ Hk).
    unfold hits in Hh. congruence.
  - apply list_find_None in E. rewrite Forall_forall in E. exfalso. apply (E (c, i)); [|exact Hq].
    rewrite Hp. by left.
Qed.

Lemma has_name_live n ns : Forall (fun x => ns_name x.2 <> n) (flat ns) ->
  match ns with [] => false | p :: _ => has_name n (services p) end = false.
Proof.
  destruct ns as [|p ns]; [done|]. rewrite flat_cons, Forall_app. intros [Hp _].
  apply not_true_is_false. intros (i & -> & Hi)%has_name_spec%list_elem_of_fmap.
  unfold owned in Hp. rewrite Forall_fmap, Forall_forall in Hp. by apply (Hp i Hi).
Qed.


(** Deregistration.  The first service with the name is removed if the
    requester owns it; if another process owns it the registry does not
    change but the client gets the same answer, success and the capability
    of the service; if nobody has it the server dereferences a null
    pointer. *)
Theorem ns_deregister_cases null_services fresh_next connected stack chan cap name ns :
  carries [] name ->
  exists ws, deregister_request name = Done (ws, Z.of_nat (length ws))
  /\ match list_find (hits (nsq_name name)) (live connected ns) with
     | None => ns_active_chan_handler null_services fresh_next connected stack
                 (request chan cap NS_RPC_TYPE_DEREGISTER_SERVICE ws) ns = Fault NullDereference
     | Some (k, (owner, i)) => exists ns',
         ns_active_chan_handler null_services fresh_next connected stack
           (request chan cap NS_RPC_TYPE_DEREGISTER_SERVICE ws) ns = Done (ns', Some (Response (chan_cap i) 1 [1]))
         /\ flat ns' = if owner =? chan then delete k (live connected ns) else live connected ns
     end.
Proof.
  intros Hn. destruct (convert_bytes (name ++ [0]) (Z.of_nat (length name) + 1)) as (ws & Hws & Hb & _).
  { apply Forall_app. split; [by eapply carries_bytes|by apply Forall_singleton]. }
  { rewrite length_app. cbn. lia. }
  exists ws. split; [done|]. unfold ns_active_chan_handler. cbn [rl_type request]. pick_type.
  unfold ns_deregister_handler. cbn [rl_payload rl_chan request]. rewrite Hb, <- app_assoc. cbn [app].
  rewrite c_string_carries by done. step.
  pose proof (find_service_spec chan (nsq_name name) true (kill_dead_services connected ns)) as H. unfold find_spec in H.
  rewrite live_flat in H. destruct (list_find _ _) as [[k [owner i]]|]; [|by rewrite H].
  destruct (owner =? chan).
  - destruct H as (ns' & -> & Hd & _). by exists ns'.
  - rewrite H. eexists. split; [reflexivity|]. apply live_flat.
Qed.

Lemma strstr_longer (h n : cstr) : (length h <= length n)%nat -> strstr h n = bool_decide (h = n).
Proof.
  intros Hl. destruct (decide (h = n)) as [->|Hne].
  - rewrite bool_decide_true by done. destruct n as [|c n]; [done|]. cbn [strstr].
    rewrite take_ge by done. by rewrite bool_decide_true.
  - rewrite (bool_decide_false (h = n)) by done. apply not_true_is_false. intros Hs. apply Hne. clear Hne.
    revert Hl Hs. induction h as [|c h IH]; intros Hl Hs; cbn in *.
    + rewrite orb_false_r, bool_decide_eq_true in Hs. by rewrite take_nil in Hs.
    + apply orb_prop in Hs as [Hs|Hs].
      * apply bool_decide_eq_true in Hs. by rewrite take_ge in Hs by (cbn; lia).
      * assert (h = n) as -> by (apply IH; [lia|done]). lia.
Qed.

(** The query for an attribute that contains a string is the query for
    an attribute that equals it: the arguments of [strstr] are swapped and
    shorter attributes are rejected before. *)
Theorem ns_contains_is_equality p nsi qps :
  query_prop_cmp (QueryProp nsq_contains p :: qps) nsi = query_prop_cmp (QueryProp nsqp_is p :: qps) nsi.
Proof.
  cbn [query_prop_cmp]. enough (H : forall props, prop_fulfilled (QueryProp nsq_contains p) props
    = prop_fulfilled (QueryProp nsqp_is p) props) by (by rewrite H).
  induction props as [|x props IH]; [done|]. cbn [prop_fulfilled nsp nsqpt]. case_bool_decide; [|done]. f_equal.
  destruct (Z.ltb_spec (Z.of_nat (length (prop_attr x))) (Z.of_nat (length (prop_attr p)))); [done|].
  cbn [negb andb]. unfold attr_cmp. cbn [Z.eqb nsq_contains nsqp_is nsq_beginswith nsq_endswith Pos.eqb].
  by apply strstr_longer; lia.
Qed.

(** The check for double registration looks at the first process only:
    a name that a later process registered, and even one that the requester
    itself registered, is registered again. *)
Theorem ns_duplicate_admitted null_services fresh_next c i p ns :
  registry_ok (p :: ns) -> ns_name i ∉ ns_name <$> services p -> ns_name i ∈ (fun x => ns_name x.2) <$> flat ns ->
  exists ns', add_service null_services fresh_next c i (p :: ns) = Done (0, ns')
  /\ Permutation (flat ns') ((c, i) :: flat (p :: ns)).
Proof.
  intros [Hok _] Hn Hd. destruct (add_service_spec null_services fresh_next c i (p :: ns) Hok) as (e & ns' & Ha & _ & Hif);
    [done|]. destruct (has_name (ns_name i) (services p)) eqn:E; [by apply has_name_spec in E|].
  destruct Hif as (-> & Hp & _). by exists ns'.
Qed.

Lemma take_call_spec t d l : match take_call t d l with
  | Some (c, l') => exists l1 l2, l = l1 ++ c :: l2 /\ l' = l1 ++ l2 /\ rc_type c = t /\ rc_id c = d
                    /\ Forall (fun x => ~ (rc_type x = t /\ rc_id x = d)) l1
  | None => Forall (fun x => ~ (rc_type x = t /\ rc_id x = d)) l
  end.
Proof.
  induction l as [|c l IH]; cbn [take_call]; [constructor|].
  destruct (Z.eqb_spec (rc_type c) t) as [Ht|Ht], (Z.eqb_spec (rc_id c) d) as [Hd|Hd]; cbn [andb];
    [by exists [], l| | |]; (assert (Hc : ~ (rc_type c = t /\ rc_id c = d)) by tauto);
    (destruct (take_call t d l) as [[x l']|]; [|by constructor]);
    destruct IH as (l1 & l2 & -> & -> & ? & ? & ?); exists (c :: l1), l2; repeat split; try done; by constructor.
Qed.

(** A reply completes the call it belongs to.  While the waiting calls
    differ in type or identifier, an acknowledgement with the type and, in its
    first word, the identifier of a call completes exactly that call and
    leaves the others waiting; a message that is no acknowledgement or that
    nobody waits for leaves all of them. *)
Theorem ns_reply_completes_call stale data l :
  (forall c l1 l2, l = l1 ++ c :: l2 -> Z.land (rl_type data) 1 <> 0 -> rl_type data = rc_type c ->
     rl_payload data !! 0%nat = Some (rc_id c) ->
     Forall (fun x => ~ (rc_type x = rc_type c /\ rc_id x = rc_id c)) l1 ->
     ns_rpc_recv_handler stale data (register_recv c l2) = (Some c, l2)
     /\ ns_rpc_recv_handler stale data l = (Some c, l1 ++ l2))
  /\ (Z.land (rl_type data) 1 = 0
      \/ Forall (fun x => ~ (rc_type x = rl_type data /\ rc_id x = default stale (rl_payload data !! 0%nat))) l ->
      ns_rpc_recv_handler stale data l = (None, l)).
Proof.
  split.
  - intros c l1 l2 -> Ha Ht Hp Hl1. unfold ns_rpc_recv_handler. rewrite (proj2 (Z.eqb_neq _ 0)) by done.
    rewrite Hp, Ht. cbn [default from_option id]. split.
    + cbn. by rewrite !Z.eqb_refl.
    + replace (take_call (rc_type c) (rc_id c) (l1 ++ c :: l2)) with (Some (c, l1 ++ l2)); [done|].
      clear -Hl1. induction Hl1 as [|x l1 Hx Hl IH]; cbn [app take_call]; [by rewrite !Z.eqb_refl|].
      rewrite <- IH. destruct (Z.eqb_spec (rc_type x) (rc_type c)), (Z.eqb_spec (rc_id x) (rc_id c)); done || tauto.
  - intros Hn. unfold ns_rpc_recv_handler. destruct (Z.eqb_spec (Z.land (rl_type data) 1) 0); [done|].
    destruct Hn as [?|Hn]; [done|]. pose proof (take_call_spec (rl_type data) (default stale (rl_payload data !! 0%nat)) l) as H.
    destruct (take_call _ _ _) as [[c l']|]; [|done]. destruct H as (l1 & l2 & -> & _ & ? & ? & _).
    apply Forall_app in Hn as [_ [Hc _]%Forall_cons]. tauto.
Qed.

(** * A sample registry *)

Module NsSample.

(** "mem", "net", "udp", "service", "core", "one". *)
Definition mem : cstr := [109; 101; 109].
Definition net : cstr := [110; 101; 116].
Definition udp : cstr := [117; 100; 112].
Definition service : cstr := [115; 101; 114; 118; 105; 99; 101].
Definition core : cstr := [99; 111; 114; 101].
Definition one : cstr := [111; 110; 101].

Definition prop_core : nameserver_properties := NsProp core one.
Definition mem_info : nameserver_info := NsInfo mem service 0 1 [prop_core] 7.
Definition net_info : nameserver_info := NsInfo net service 1 0 [] 8.
Definition udp_info : nameserver_info := NsInfo udp service 1 2 [prop_core; NsProp mem net] 9.
Definition ns : nameserver := [Process 1 [mem_info]; Process 2 [net_info]].
Definition all : Z -> bool := fun _ => true.

#[local] Instance registry_ok_dec r : Decision (registry_ok r).
Proof. unfold registry_ok, ns_ok. apply _. Defined.

Lemma ns_fine : registry_ok ns.
Proof. vm_decide. Qed.

Lemma type_query_small : query_small (nsq_type service).
Proof. intros bytes n [= <- <-]. done. Qed.

Lemma service_ok : query_ok (nsq_type service).
Proof. change (carries [] service). vm_decide. Qed.

Lemma ns_requests_keep_registry_witness : registry_ok [Process 2 [net_info]].
Proof.
  destruct (ns_requests_keep_registry (Fault NullDereference) [] all 0 (request 1 0 NS_RPC_TYPE_REMOVE_SELF []) ns
           [Process 2 [net_info]] (Some (Response NULL_CAP 1 [0])) ns_fine eq_refl) as [H|[H _]]; [exact H|discriminate H].
Defined.

Lemma ns_lookup_first_fit_witness :
  exists ws r, query_request 0 (nsq_type service) = Done (ws, Z.of_nat (length ws))
  /\ ns_active_chan_handler (Done []) [] all 0 (request 3 0 NS_RPC_TYPE_LOOKUP ws) ns = Done (ns, Some r)
  /\ lookup_recv_handler (reply 5 r) = Done (Some mem_info).
Proof.
  apply (ns_lookup_first_fit (Done []) [] all 0 0 3 0 (nsq_type service) ns 5 ns_fine service_ok type_query_small). done.
Defined.

Lemma ns_enumerate_all_witness :
  exists ws r, query_request 0 (nsq_type service) = Done (ws, Z.of_nat (length ws))
  /\ ns_active_chan_handler (Done []) [] all 0 (request 3 0 NS_RPC_TYPE_ENUMERATE ws) ns = Done (ns, Some r)
  /\ enumerate_recv_handler (reply 5 r) = Done (Some [mem; net]).
Proof.
  apply (ns_enumerate_all (Done []) [] all 0 0 3 0 (nsq_type service) ns 5 ns_fine service_ok type_query_small). done.
Defined.


Lemma ns_deregister_cases_witness :
  exists ws, deregister_request net = Done (ws, Z.of_nat (length ws))
  /\ exists ns', ns_active_chan_handler (Done []) [] all 0 (request 1 0 NS_RPC_TYPE_DEREGISTER_SERVICE ws) ns
                 = Done (ns', Some (Response 8 1 [1]))
     /\ flat ns' = live all ns.
Proof. apply (ns_deregister_cases (Done []) [] all 0 1 0 net ns). vm_decide. Defined.

Lemma ns_duplicate_admitted_witness :
  exists ns', add_service (Done []) [] 2 net_info ns = Done (0, ns')
  /\ Permutation (flat ns') ((2, net_info) :: flat ns).
Proof. apply (ns_duplicate_admitted (Done []) [] 2 net_info _ _ ns_fine); vm_decide. Defined.

Lemma ns_reply_completes_call_witness :
  ns_rpc_recv_handler 0 (RecvList 11 4 0 1 1 0 [3]) [RpcCall 2 11 20; RpcCall 3 11 21; RpcCall 3 13 22]
  = (Some (RpcCall 3 11 21), [RpcCall 2 11 20; RpcCall 3 13 22]).
Proof.
  apply (proj1 (ns_reply_completes_call 0 (RecvList 11 4 0 1 1 0 [3]) [RpcCall 2 11 20; RpcCall 3 11 21; RpcCall 3 13 22])
           (RpcCall 3 11 21) [RpcCall 2 11 20] [RpcCall 3 13 22]); try done.
  apply Forall_singleton. cbn. lia.
Defined.

End NsSample.
