(* ===== verification/Mmu.v ===== *)
(** Page tables of the ARMv7 kernel (kernel/arch/armv7/paging.c): mapping of
    second-level tables, sections and pages, and unmapping.

    The physical memory of page tables is a function from the address of an
    entry to what the entry says; physical and kernel-virtual addresses
    differ by a constant and are not distinguished.  Cache and TLB
    maintenance have no effect here. *)
From S2P Require Import Prelude.

(** * Entries and capabilities *)

(** The entries of both table levels with the fields that the code sets: the
    upper bits of the address, [cacheable] and [ap10]. *)
Inductive pt_entry :=
| EntryInvalid
| EntryTable (base_address : Z)
| EntrySection (base_address cacheable ap10 : Z)
| EntryPage (base_address cacheable ap10 : Z).

Abbreviation ptmem := (Z -> pt_entry).

Inductive objtype :=
| ObjType_Null | ObjType_Frame | ObjType_DevFrame | ObjType_VNode_ARM_l1 | ObjType_VNode_ARM_l2
| ObjType_Mapping | ObjType_Other.

#[global] Instance objtype_eq_dec : EqDecision objtype.
Proof. solve_decision. Defined.

(** The fields of [struct capability] that the code reads: address and size
    of the object; for a mapping the address of its first entry and the
    number of its entries. *)
Record capability := Capability {
  ctype : objtype; get_address : Z; get_size : Z; pte : Z; mapping_offset : Z; pte_count : Z
}.

Definition null_cap : capability := Capability ObjType_Null 0 0 0 0 0.

Definition ARM_L1_OFFSET (va : Z) : Z := Z.land (Z.shiftr va 20) 4095.
Definition ARM_L2_OFFSET (va : Z) : Z := Z.land (Z.shiftr va 12) 255.
Definition ARM_L1_MAX_ENTRIES : Z := 4096.
Definition ARM_L2_MAX_ENTRIES : Z := 256.
Definition ARM_L2_TABLE_BYTES : Z := 1024.
Definition BYTES_PER_SECTION : Z := 1048576.
Definition PAGE : Z := 4096.
Definition MEMORY_OFFSET : Z := 2 ^ 31.

Definition KPI_PAGING_FLAGS_READ : Z := 1.
Definition KPI_PAGING_FLAGS_WRITE : Z := 2.
Definition KPI_PAGING_FLAGS_NOCACHE : Z := 8.
Definition KPI_PAGING_FLAGS_MASK : Z := 15.

Definition flag (flags bit : Z) : bool := negb (Z.land flags bit =? 0).

(** [paging_set_flags]: the cacheable bit and the access permissions. *)
Definition cacheable_of (flags : Z) : Z := if flag flags KPI_PAGING_FLAGS_NOCACHE then 0 else 1.
Definition ap10_of (flags : Z) : Z :=
  Z.lor (if flag flags KPI_PAGING_FLAGS_READ then 2 else 0) (if flag flags KPI_PAGING_FLAGS_WRITE then 3 else 0).

Definition mapping_cap (cap : capability) (p offset n : Z) : capability :=
  Capability ObjType_Mapping (get_address cap) 0 p (Z.shiftr offset 10) n.

(** * Writing entries *)

Fixpoint write_tables (n : nat) (entry src : Z) (m : ptmem) : ptmem :=
  match n with
  | O => m
  | S n' => write_tables n' (entry + 4) (src + ARM_L2_TABLE_BYTES)
              (<[entry := EntryTable (Z.shiftr src 10)]> m)
  end.

Fixpoint write_sections (n : nat) (entry src flags : Z) (m : ptmem) : ptmem :=
  match n with
  | O => m
  | S n' => write_sections n' (entry + 4) (src + BYTES_PER_SECTION) flags
              (<[entry := EntrySection (Z.shiftr src 20) (cacheable_of flags) (ap10_of flags)]> m)
  end.

Fixpoint write_pages (n : nat) (entry src flags : Z) (m : ptmem) : ptmem :=
  match n with
  | O => m
  | S n' => write_pages n' (entry + 4) (src + PAGE) flags
              (<[entry := EntryPage (Z.shiftr src 12) (cacheable_of flags) (ap10_of flags)]> m)
  end.

(** [do_unmap]: the entries of a table from [slot] on. *)
Fixpoint clear_entries (n : nat) (entry : Z) (m : ptmem) : ptmem :=
  match n with
  | O => m
  | S n' => clear_entries n' (entry + 4) (<[entry := EntryInvalid]> m)
  end.
Definition do_unmap (pt slot num_pages : Z) (m : ptmem) : ptmem :=
  clear_entries (Z.to_nat num_pages) (pt + slot * 4) m.

Definition is_valid (e : pt_entry) : bool := match e with EntryInvalid => false | _ => true end.

(** * Mapping *)

(** [caps_map_l1]: the error, the mapping capability and the memory.  The
    first branch maps sections of a frame. *)
Definition caps_map_l1 (dest : capability) (slot : Z) (src : capability) (flags offset count : Z) (m : ptmem)
  : outcome (errval * capability * ptmem) :=
  let p := get_address dest + slot * 4 in
  if negb (bool_decide (ctype src = ObjType_VNode_ARM_l2)) then
    ASSERT Z.land flags (Z.lnot KPI_PAGING_FLAGS_MASK) =? 0;
    if 4096 <=? slot then Fault Panicked else
    if negb (bool_decide (ctype src = ObjType_Frame)) && negb (bool_decide (ctype src = ObjType_DevFrame))
    then Fault Panicked else
    if (get_size src <? u32 (offset + count * BYTES_PER_SECTION)) || negb (offset `mod` BYTES_PER_SECTION =? 0)
    then Fault Panicked else
    if 4096 <? u32 (slot + count) then Done (err SYS_ERR_VM_MAP_SIZE, null_cap, m) else
    if is_valid (m p) then Fault Panicked else
    let src_lpaddr := u32 (get_address src + offset) in
    if negb (Z.land src_lpaddr (BYTES_PER_SECTION - 1) =? 0) then Fault Panicked else
    Done (SYS_ERR_OK, mapping_cap src p offset count, write_sections (Z.to_nat count) p src_lpaddr flags m)
  else
  if ARM_L1_MAX_ENTRIES <=? slot then Done (err SYS_ERR_VNODE_SLOT_INVALID, null_cap, m) else
  if (get_size src <? u32 (offset + count * ARM_L2_TABLE_BYTES)) || negb (offset `mod` ARM_L2_TABLE_BYTES =? 0)
  then Done (err SYS_ERR_FRAME_OFFSET_INVALID, null_cap, m) else
  if 4096 <? u32 (slot + count) then Done (err SYS_ERR_VM_MAP_SIZE, null_cap, m) else
  if ARM_L1_OFFSET MEMORY_OFFSET <=? slot then Done (err SYS_ERR_VNODE_SLOT_RESERVED, null_cap, m) else
  let src_lpaddr := u32 (u32 (get_address src) + offset) in
  ASSERT src_lpaddr `mod` 1024 =? 0;
  ASSERT (src_lpaddr <? get_address dest) || (get_address dest + 16384 <=? src_lpaddr);
  Done (SYS_ERR_OK, mapping_cap src p offset count, write_tables (Z.to_nat count) p src_lpaddr m).

(** [caps_map_l2]: only the first entry is tested for being in use. *)
Definition caps_map_l2 (dest : capability) (slot : Z) (src : capability) (flags offset count : Z) (m : ptmem)
  : outcome (errval * capability * ptmem) :=
  let p := get_address dest + slot * 4 in
  ASSERT Z.land flags (Z.lnot KPI_PAGING_FLAGS_MASK) =? 0;
  if ARM_L2_MAX_ENTRIES <=? slot then Fault Panicked else
  if negb (bool_decide (ctype src = ObjType_Frame)) && negb (bool_decide (ctype src = ObjType_DevFrame))
  then Fault Panicked else
  if (get_size src <? u32 (offset + count * PAGE)) || negb (offset `mod` PAGE =? 0)
  then Done (err SYS_ERR_FRAME_OFFSET_INVALID, null_cap, m) else
  if ARM_L2_MAX_ENTRIES <? u32 (slot + count) then Done (err SYS_ERR_VM_MAP_SIZE, null_cap, m) else
  if is_valid (m p) then Fault Panicked else
  let src_lpaddr := u32 (get_address src + offset) in
  if negb (Z.land src_lpaddr (PAGE - 1) =? 0) then Fault Panicked else
  Done (SYS_ERR_OK, mapping_cap src p offset count, write_pages (Z.to_nat count) p src_lpaddr flags m).

(** [caps_copy_to_vnode] into an empty slot; the insertion of the mapping
    into the mapping database is not part of this model. *)
Definition caps_copy_to_vnode (dest : capability) (slot : Z) (src : capability) (flags offset count : Z)
  (mapping : capability) (m : ptmem) : outcome (errval * capability * ptmem) :=
  ASSERT bool_decide (ctype mapping = ObjType_Null);
  if bool_decide (ctype dest = ObjType_VNode_ARM_l1) then caps_map_l1 dest slot src flags offset count m else
  if bool_decide (ctype dest = ObjType_VNode_ARM_l2) then caps_map_l2 dest slot src flags offset count m else
  Fault Panicked.

(** [page_mappings_unmap]: the entries of the mapping are cleared. *)
Definition page_mappings_unmap (pgtable mapping : capability) (m : ptmem) : outcome ptmem :=
  ASSERT bool_decide (ctype pgtable = ObjType_VNode_ARM_l1) || bool_decide (ctype pgtable = ObjType_VNode_ARM_l2);
  ASSERT bool_decide (ctype mapping = ObjType_Mapping);
  let slot := (pte mapping - get_address pgtable) / 4 in
  Done (do_unmap (get_address pgtable) slot (pte_count mapping) m).

(** * Translation

    What the hardware does with a virtual address: the physical address and
    the access permissions. *)
Definition translate (m : ptmem) (l1 va : Z) : option (Z * Z) :=
  match m (l1 + ARM_L1_OFFSET va * 4) with
  | EntryTable b =>
    match m (b * 1024 + ARM_L2_OFFSET va * 4) with
    | EntryPage p _ ap => Some (p * PAGE + va `mod` PAGE, ap)
    | _ => None
    end
  | EntrySection b _ ap => Some (b * BYTES_PER_SECTION + va `mod` BYTES_PER_SECTION, ap)
  | _ => None
  end.

(** * Lemmas *)

Lemma write_pages_other n e src fl m a : ~ (exists k, 0 <= k < Z.of_nat n /\ a = e + 4 * k) ->
  write_pages n e src fl m a = m a.
Proof.
  revert e src m. induction n as [|n IH]; intros e src m Ha; cbn [write_pages]; [done|].
  rewrite IH.
  - rewrite fn_lookup_insert_ne; [done|]. intros <-. apply Ha. exists 0. lia.
  - intros (k & Hk & ->). apply Ha. exists (k + 1). lia.
Qed.

Lemma write_pages_at n e src fl m k : 0 <= k < Z.of_nat n ->
  write_pages n e src fl m (e + 4 * k)
  = EntryPage (Z.shiftr (src + k * PAGE) 12) (cacheable_of fl) (ap10_of fl).
Proof.
  revert e src m k. induction n as [|n IH]; intros e src m k Hk; cbn [write_pages]; [lia|].
  destruct (Z.eq_dec k 0) as [->|Hk0].
  - rewrite write_pages_other.
    + rewrite Z.mul_0_r, Z.add_0_r, fn_lookup_insert. by rewrite Z.mul_0_l, Z.add_0_r.
    + intros (j & Hj & E). lia.
  - replace (e + 4 * k) with (e + 4 + 4 * (k - 1)) by lia. rewrite IH by lia. do 2 f_equal. lia.
Qed.

Lemma clear_entries_other n e m a : ~ (exists k, 0 <= k < Z.of_nat n /\ a = e + 4 * k) ->
  clear_entries n e m a = m a.
Proof.
  revert e m. induction n as [|n IH]; intros e m Ha; cbn [clear_entries]; [done|].
  rewrite IH.
  - rewrite fn_lookup_insert_ne; [done|]. intros <-. apply Ha. exists 0. lia.
  - intros (k & Hk & ->). apply Ha. exists (k + 1). lia.
Qed.

Lemma clear_entries_at n e m k : 0 <= k < Z.of_nat n -> clear_entries n e m (e + 4 * k) = EntryInvalid.
Proof.
  revert e m k. induction n as [|n IH]; intros e m k Hk; cbn [clear_entries]; [lia|].
  destruct (Z.eq_dec k 0) as [->|Hk0].
  - rewrite clear_entries_other.
    + by rewrite Z.mul_0_r, Z.add_0_r, fn_lookup_insert.
    + intros (j & Hj & E). lia.
  - replace (e + 4 * k) with (e + 4 + 4 * (k - 1)) by lia. apply IH. lia.
Qed.
