(* ===== verification/Paging.v ===== *)
(** The paging library of a domain (lib/aos/paging.c): virtual address space,
    mapping of frames, unmapping, paging regions and the page fault handler,
    on top of the kernel's page tables ([Mmu]) and the slab allocator.

    Capabilities are named by integers.  The allocators of capability slots
    and of memory are the environment: the supplies of the slots and of the
    physical addresses that they will return.  List nodes carry the addresses
    of their slab blocks. *)
From S2P Require Import Prelude Mmu Slab.

(** * The system below the library *)

Record sys := Sys {
  cspace : Z -> capability; ptm : ptmem; slot_supply : list Z; ram_supply : list Z;
  retype_result : errval; destroy_result : errval
}.

Definition set_cspace (c : Z -> capability) (y : sys) : sys :=
  Sys c (ptm y) (slot_supply y) (ram_supply y) (retype_result y) (destroy_result y).
Definition set_ptm (m : ptmem) (y : sys) : sys :=
  Sys (cspace y) m (slot_supply y) (ram_supply y) (retype_result y) (destroy_result y).
Definition set_slots (l : list Z) (y : sys) : sys :=
  Sys (cspace y) (ptm y) l (ram_supply y) (retype_result y) (destroy_result y).
Definition set_ram (l : list Z) (y : sys) : sys :=
  Sys (cspace y) (ptm y) (slot_supply y) l (retype_result y) (destroy_result y).

Definition slot_alloc (y : sys) : errval * Z * sys :=
  match slot_supply y with
  | [] => (err LIB_ERR_SLOT_ALLOC_NO_SPACE, 0, y)
  | s :: l => (SYS_ERR_OK, s, set_slots l y)
  end.

Definition ram_alloc (y : sys) : errval * Z * sys :=
  match ram_supply y with
  | [] => (err MM_ERR_NOT_FOUND, 0, y)
  | b :: l => (SYS_ERR_OK, b, set_ram l y)
  end.

Definition ROUND_UP (n size : Z) : Z := Z.land (u32 (n + size - 1)) (Z.lnot (size - 1)).

(** [frame_create] of lib/aos/capabilities.c, and its copy in paging.c
    ([eternal_sadness]): the error, [*retbytes] and the system. *)
Definition frame_create (dest bytes : Z) (y : sys) : outcome (errval * Z * sys) :=
  ASSERT 0 <? bytes;
  let bytes := ROUND_UP bytes PAGE in
  let '(e, ram, y) := ram_alloc y in
  if err_is_fail e then
    if bool_decide (err_no e = Some MM_ERR_NOT_FOUND) || bool_decide (err_no e = Some LIB_ERR_RAM_ALLOC_WRONG_SIZE)
    then Done (err_push e LIB_ERR_RAM_ALLOC_MS_CONSTRAINTS, 0, y)
    else Done (err_push e LIB_ERR_RAM_ALLOC, 0, y)
  else if err_is_fail (retype_result y) then Done (err_push (retype_result y) LIB_ERR_CAP_RETYPE, 0, y) else
  let y := set_cspace (<[dest := Capability ObjType_Frame ram bytes 0 0 0]> (cspace y)) y in
  if err_is_fail (destroy_result y) then Done (err_push (destroy_result y) LIB_ERR_CAP_DESTROY, 0, y) else
  Done (SYS_ERR_OK, bytes, y).

(** [frame_alloc] and its copy [the_taste_of_sadness]: the error, the
    capability, its size and the system. *)
Definition frame_alloc (bytes : Z) (y : sys) : outcome (errval * Z * Z * sys) :=
  let '(e, dest, y) := slot_alloc y in
  if err_is_fail e then Done (err_push e LIB_ERR_SLOT_ALLOC, dest, 0, y) else
  '(e, n, y) ← frame_create dest bytes y;
  Done (e, dest, n, y).

(** [vnode_create] for a second-level table: the kernel clears the memory of
    a new table. *)
Definition vnode_create (dest : Z) (y : sys) : errval * sys :=
  let '(e, ram, y) := ram_alloc y in
  if err_is_fail e then (err_push e LIB_ERR_RAM_ALLOC, y) else
  if err_is_fail (retype_result y) then (err_push (retype_result y) LIB_ERR_CAP_RETYPE, y) else
  let y := set_cspace (<[dest := Capability ObjType_VNode_ARM_l2 ram ARM_L2_TABLE_BYTES 0 0 0]> (cspace y))
             (set_ptm (clear_entries 256 ram (ptm y)) y) in
  if err_is_fail (destroy_result y) then (err_push (destroy_result y) LIB_ERR_CAP_DESTROY, y) else
  (SYS_ERR_OK, y).

(** [vnode_map]: the system call refuses a mapping slot that is in use. *)
Definition vnode_map (dest src slot attr off count mapping : Z) (y : sys) : outcome (errval * sys) :=
  if negb (bool_decide (ctype (cspace y mapping) = ObjType_Null)) then Done (err SYS_ERR_SLOT_IN_USE, y) else
  '(e, c, m) ← caps_copy_to_vnode (cspace y dest) slot (cspace y src) attr off count (cspace y mapping) (ptm y);
  if err_is_fail e then Done (e, y) else
  Done (SYS_ERR_OK, set_cspace (<[mapping := c]> (cspace y)) (set_ptm m y)).

(** [vnode_unmap]. *)
Definition vnode_unmap (table mapping : Z) (y : sys) : outcome sys :=
  m ← page_mappings_unmap (cspace y table) (cspace y mapping) (ptm y);
  Done (set_ptm m y).

(** * The state of the library *)

Record paging_frame_node := FrameNode { fn_block : Z; base_addr : Z; region_size : Z }.
Record paging_map_node := MapNode { mn_block : Z; table : Z; mapping : Z }.
Record paging_used_node := UsedNode {
  un_block : Z; start_addr : Z; un_size : Z; map_list : list paging_map_node
}.

(** [struct paging_state]: the first node of the free space is part of it,
    the others are in slab blocks; a table of second level that exists has
    its capability; [spawninfo] holds the slots reported to the parent. *)
Record paging_state := PagingState {
  ps_slabs : slab_allocator;
  free_vspace : paging_frame_node; free_next : list paging_frame_node;
  mappings : list paging_used_node;
  l1_page_table : Z; l2_page_tables : Z -> option Z;
  spawninfo : option (list Z)
}.

Definition set_ps_slabs (a : slab_allocator) (st : paging_state) : paging_state :=
  PagingState a (free_vspace st) (free_next st) (mappings st) (l1_page_table st) (l2_page_tables st) (spawninfo st).
Definition set_free (n : paging_frame_node) (l : list paging_frame_node) (st : paging_state) : paging_state :=
  PagingState (ps_slabs st) n l (mappings st) (l1_page_table st) (l2_page_tables st) (spawninfo st).
Definition set_mappings (l : list paging_used_node) (st : paging_state) : paging_state :=
  PagingState (ps_slabs st) (free_vspace st) (free_next st) l (l1_page_table st) (l2_page_tables st) (spawninfo st).
Definition set_l2 (t : Z -> option Z) (st : paging_state) : paging_state :=
  PagingState (ps_slabs st) (free_vspace st) (free_next st) (mappings st) (l1_page_table st) t (spawninfo st).

(** [slot_callback] of the parent, if there is one. *)
Definition slot_callback (s : Z) (st : paging_state) : paging_state :=
  PagingState (ps_slabs st) (free_vspace st) (free_next st) (mappings st) (l1_page_table st) (l2_page_tables st)
    ((fun l => l ++ [s]) <$> spawninfo st).

(** [sizeof(struct paging_map_node)], the largest of the three nodes. *)
Definition sizeof_node : Z := 36.

(** [paging_init_state]; the mappings are those of the zeroed structure. *)
Definition paging_init_state (start_vaddr pdir : Z) : paging_state :=
  PagingState (slab_init sizeof_node) (FrameNode 0 start_vaddr (u32 (4294967295 - start_vaddr))) [] [] pdir (fun _ => None) None.

(** * Virtual addresses *)

(** The first part of a node, and what remains of it. *)
Definition carve (bytes : Z) (n : paging_frame_node) : paging_frame_node :=
  let base := u32 (base_addr n + bytes) in
  let temp := ROUND_UP base PAGE in
  FrameNode (fn_block n) temp (u32 (region_size n - u32 (bytes + u32 (temp - base)))).

Fixpoint alloc_walk (bytes : Z) (l : list paging_frame_node) : option (Z * list paging_frame_node) :=
  match l with
  | [] => None
  | n :: l' =>
    if bytes <=? region_size n then Some (base_addr n, carve bytes n :: l')
    else match alloc_walk bytes l' with Some (b, r) => Some (b, n :: r) | None => None end
  end.

(** [paging_alloc]: the error, [*buf] and the state. *)
Definition paging_alloc (bytes : Z) (st : paging_state) : errval * Z * paging_state :=
  match alloc_walk bytes (free_vspace st :: free_next st) with
  | Some (b, n :: l) => (SYS_ERR_OK, b, set_free n l st)
  | _ => (err LIB_ERR_OUT_OF_VIRTUAL_ADDR, 0, st)
  end.

(** * Mapping *)

(** A block for a list node.  When the slabs are exhausted the slab
    allocator would call the paging library again; that is not modelled. *)
Definition node_alloc (st : paging_state) : outcome (Z * paging_state) :=
  '(a, p) ← slab_alloc None (ps_slabs st);
  if p =? 0 then Fault Unmodelled else Done (p, set_ps_slabs a st).

(** [arml2_alloc]. *)
Definition arml2_alloc (y : sys) : outcome (Z * sys) :=
  let '(e, c, y) := slot_alloc y in
  _ ← CHECK e;
  let '(e, y) := vnode_create c y in
  _ ← CHECK e;
  Done (c, y).

(** The second-level table of an index, which is created if there is none. *)
Definition get_l2 (l1_index : Z) (y : sys) (st : paging_state) : outcome (Z * sys * paging_state) :=
  match l2_page_tables st l1_index with
  | Some c => Done (c, y, st)
  | None =>
    '(l2_pagetable, y) ← arml2_alloc y;
    let '(e, l2_l1_mapping, y) := slot_alloc y in
    _ ← CHECK e;
    '(e, y) ← vnode_map (l1_page_table st) l2_pagetable l1_index 3 0 1 l2_l1_mapping y;
    _ ← CHECK e;
    let st := set_l2 (<[l1_index := Some l2_pagetable]> (l2_page_tables st)) st in
    Done (l2_pagetable, y, slot_callback l2_l1_mapping (slot_callback l2_pagetable st))
  end.

(** The loop that maps [bytes] bytes of a frame from [vaddr] on, one
    second-level table at a time; with [record] it makes a node for every
    table. *)
Fixpoint map_loop (fuel : nat) (record : bool) (frame flags mapped_bytes bytes vaddr : Z)
  (acc : list paging_map_node) (y : sys) (st : paging_state)
  : outcome (list paging_map_node * sys * paging_state) :=
  if bytes =? 0 then Done (acc, y, st) else
  match fuel with
  | O => Fault OutOfFuel
  | S f =>
    '(l2_pagetable, y, st) ← get_l2 (ARM_L1_OFFSET vaddr) y st;
    let l2_index := ARM_L2_OFFSET vaddr in
    let mapping_size := Z.min bytes ((ARM_L2_MAX_ENTRIES - l2_index) * PAGE) in
    let '(e, l2_frame, y) := slot_alloc y in
    _ ← CHECK e;
    '(e, y) ← vnode_map l2_pagetable frame l2_index flags mapped_bytes (mapping_size / PAGE) l2_frame y;
    _ ← CHECK e;
    let st := slot_callback l2_frame st in
    '(acc, st) ← (if record then
                    '(p, st) ← node_alloc st; Done (MapNode p l2_pagetable l2_frame :: acc, st)
                  else Done (acc, st));
    map_loop f record frame flags (u32 (mapped_bytes + mapping_size)) (u32 (bytes - mapping_size))
      (u32 (vaddr + mapping_size)) acc y st
  end.

(** Every round but the last maps at least a page. *)
Definition map_fuel (bytes : Z) : nat := S (Z.to_nat (bytes / PAGE)).

(** [slab_refill_no_pagefault], for the slabs of the paging state of the
    domain itself. *)
Definition slab_refill_no_pagefault (minbytes : Z) (y : sys) (st : paging_state) : outcome (sys * paging_state) :=
  '(e, frame, frame_size, y) ← frame_alloc minbytes y;
  _ ← CHECK e;
  let '(e, buf, st) := paging_alloc frame_size st in
  _ ← CHECK e;
  '(_, y, st) ← map_loop (map_fuel frame_size) false frame 3 0 frame_size buf [] y st;
  a ← slab_grow (ps_slabs st) buf frame_size;
  Done (y, set_ps_slabs a st).

(** [paging_map_fixed_attr]. *)
Definition paging_map_fixed_attr (vaddr frame bytes flags : Z) (y : sys) (st : paging_state)
  : outcome (sys * paging_state) :=
  '(y, st) ← (if slab_freecount (ps_slabs st) =? 0 then
                let '(_, _, y) := slot_alloc y in slab_refill_no_pagefault PAGE y st
              else Done (y, st));
  '(p, st) ← node_alloc st;
  '(l, y, st) ← map_loop (map_fuel bytes) true frame flags 0 bytes vaddr [] y st;
  Done (y, set_mappings (UsedNode p vaddr bytes l :: mappings st) st).

(** [paging_map_frame_attr]. *)
Definition paging_map_frame_attr (bytes frame flags : Z) (y : sys) (st : paging_state)
  : outcome (Z * sys * paging_state) :=
  let '(e, buf, st) := paging_alloc bytes st in
  _ ← CHECK e;
  '(y, st) ← paging_map_fixed_attr buf frame bytes flags y st;
  Done (buf, y, st).

(** * Unmapping *)

(** [paging_add_space]. *)
Definition paging_add_space (base size : Z) (st : paging_state) : outcome paging_state :=
  '(p, st) ← node_alloc st;
  Done (set_free (free_vspace st) (FrameNode p base size :: free_next st) st).

Fixpoint find_mapping (region : Z) (l : list paging_used_node) : outcome (paging_used_node * list paging_used_node) :=
  match l with
  | [] => Fault AssertionFailed
  | n :: l' =>
    if start_addr n =? region then Done (n, l')
    else '(m, r) ← find_mapping region l'; Done (m, n :: r)
  end.

Fixpoint unmap_nodes (l : list paging_map_node) (y : sys) (st : paging_state) : outcome (sys * paging_state) :=
  match l with
  | [] => Done (y, st)
  | n :: l' =>
    y ← vnode_unmap (table n) (mapping n) y;
    a ← slab_free (ps_slabs st) (mn_block n);
    unmap_nodes l' y (set_ps_slabs a st)
  end.

(** [paging_unmap]. *)
Definition paging_unmap (region : Z) (y : sys) (st : paging_state) : outcome (sys * paging_state) :=
  '(node, rest) ← find_mapping region (mappings st);
  '(y, st) ← unmap_nodes (map_list node) y (set_mappings rest st);
  st ← paging_add_space (start_addr node) (un_size node) st;
  a ← slab_free (ps_slabs st) (un_block node);
  Done (y, set_ps_slabs a st).

(** * Page faults *)

(** The handler ends the thread, or maps a page and returns. *)
Inductive fault_result :=
| ThreadExit
| Handled (y : sys) (st : paging_state).

(** [pagefault_handler]: the address, the stack pointer and the bounds of
    the thread's stack. *)
Definition pagefault_handler (vaddr sp stack stack_top : Z) (y : sys) (st : paging_state) : outcome fault_result :=
  if vaddr =? 0 then Done ThreadExit else
  if 2 ^ 31 <? vaddr then Done ThreadExit else
  if (sp <? stack) || (stack_top <? sp) then Done ThreadExit else
  let vaddr := vaddr - vaddr `mod` PAGE in
  '(e, frame, retsize, y) ← frame_alloc PAGE y;
  _ ← CHECK e;
  '(y, st) ← paging_map_fixed_attr vaddr frame retsize 3 y st;
  Done (Handled y st).

(** * Paging regions *)

Record paging_region := PagingRegion {
  pr_base : Z; pr_current : Z; pr_size : Z; holes : list paging_frame_node
}.

(** [paging_region_init]; [junk] is what the memory of the region holds as
    its holes, which are not initialised. *)
Definition paging_region_init (size : Z) (junk : list paging_frame_node) (st : paging_state)
  : outcome (paging_region * paging_state) :=
  let '(e, base, st) := paging_alloc size st in
  _ ← CHECK e;
  Done (PagingRegion base base size junk, st).

Definition ssize (n : Z) : Z := if n <? 2 ^ 31 then n else n - 2 ^ 32.

(** [paging_region_map]: the error, [*retbuf], [*ret_size] and the region.
    The signed remainder is compared with the size as an unsigned number. *)
Definition paging_region_map (req_size : Z) (pr : paging_region) : errval * Z * Z * paging_region :=
  let end_addr := u32 (pr_base pr + pr_size pr) in
  let rem := ssize (u32 (end_addr - pr_current pr)) in
  if req_size <? u32 rem then
    (SYS_ERR_OK, pr_current pr, req_size,
     PagingRegion (pr_base pr) (u32 (pr_current pr + req_size)) (pr_size pr) (holes pr))
  else if 0 <? rem then
    (SYS_ERR_OK, pr_current pr, rem,
     PagingRegion (pr_base pr) (u32 (pr_current pr + rem)) (pr_size pr) (holes pr))
  else (err LIB_ERR_VSPACE_MMU_AWARE_NO_SPACE, 0, 0, pr).

(** The hole is inserted behind the holes below it or merged with the one
    that ends at it; [p] is the block of the new node. *)
Fixpoint insert_hole (p base bytes : Z) (l : list paging_frame_node) : bool * list paging_frame_node :=
  match l with
  | [] => (true, [FrameNode p base bytes])
  | [n] => (true, [n; FrameNode p base bytes])
  | n :: l' =>
    if base_addr n <? base then
      if u32 (base_addr n + region_size n) =? base
      then (false, FrameNode (fn_block n) (base_addr n) (u32 (region_size n + bytes)) :: l')
      else let '(b, r) := insert_hole p base bytes l' in (b, n :: r)
    else (true, FrameNode (fn_block n) base bytes :: FrameNode p (base_addr n) (region_size n) :: l')
  end.

(** Neighbouring holes are merged; the blocks that become free. *)
Fixpoint coalesce (n : paging_frame_node) (l : list paging_frame_node)
  : list paging_frame_node * paging_frame_node * list Z :=
  match l with
  | [] => ([], n, [])
  | t :: l' =>
    if base_addr t =? u32 (base_addr n + region_size n) then
      let '(r, last, fr) := coalesce (FrameNode (fn_block n) (base_addr n) (u32 (region_size n + region_size t))) l' in
      (r, last, fn_block t :: fr)
    else let '(r, last, fr) := coalesce t l' in (n :: r, last, fr)
  end.

Fixpoint free_blocks (l : list Z) (a : slab_allocator) : outcome slab_allocator :=
  match l with
  | [] => Done a
  | p :: l' => a ← slab_free a p; free_blocks l' a
  end.

(** [paging_region_unmap]. *)
Definition paging_region_unmap (base bytes : Z) (pr : paging_region) (st : paging_state)
  : outcome (paging_region * paging_state) :=
  ASSERT base <=? pr_base pr;
  ASSERT u32 (base + bytes) <=? u32 (pr_base pr + pr_size pr);
  ASSERT u32 (base + bytes) <=? pr_current pr;
  '(cur, hs, st) ← (if u32 (pr_current pr - bytes) =? base then Done (base, holes pr, st) else
                      let '(needed, _) := insert_hole 0 base bytes (holes pr) in
                      if needed then
                        '(p, st) ← node_alloc st;
                        Done (pr_current pr, (insert_hole p base bytes (holes pr)).2, st)
                      else Done (pr_current pr, (insert_hole 0 base bytes (holes pr)).2, st));
  match hs with
  | [] => Done (PagingRegion (pr_base pr) cur (pr_size pr) [], st)
  | n :: l =>
    let '(r, last, fr) := coalesce n l in
    a ← free_blocks fr (ps_slabs st);
    if u32 (base_addr last + region_size last) =? cur then
      a ← slab_free a (fn_block last);
      Done (PagingRegion (pr_base pr) (u32 (cur - region_size last)) (pr_size pr) r, set_ps_slabs a st)
    else Done (PagingRegion (pr_base pr) cur (pr_size pr) (r ++ [last]), set_ps_slabs a st)
  end.
