(* ===== verification/PagingTables.v ===== *)
(** The page tables under the paging library: the invariant that ties the
    tables to the state of a domain, and what the mapping loop does to the
    translation. *)
From S2P Require Import Prelude Mmu Slab Paging.

(** * Virtual addresses and table indices *)

Lemma l1_offset va : 0 <= va < 2 ^ 32 -> ARM_L1_OFFSET va = va / 2 ^ 20.
Proof.
  intros. unfold ARM_L1_OFFSET. rewrite Z.shiftr_div_pow2 by lia. change 4095 with (Z.ones 12).
  rewrite Z.land_ones by lia. apply Z.mod_small. split; [apply Z.div_pos; lia|apply Z.div_lt_upper_bound; lia].
Qed.

Lemma l2_offset va : ARM_L2_OFFSET va = (va / 4096) `mod` 256.
Proof.
  unfold ARM_L2_OFFSET. rewrite Z.shiftr_div_pow2 by lia. change 255 with (Z.ones 8). by rewrite Z.land_ones by lia.
Qed.

(** An address from its indices and the offset in the page. *)
Lemma va_split va : 0 <= va < 2 ^ 32 ->
  va = ARM_L1_OFFSET va * 1048576 + ARM_L2_OFFSET va * 4096 + va `mod` 4096
  /\ 0 <= ARM_L1_OFFSET va < 4096 /\ 0 <= ARM_L2_OFFSET va < 256 /\ 0 <= va `mod` 4096 < 4096.
Proof.
  intros Hva. rewrite l1_offset, l2_offset by done. change (2 ^ 20) with 1048576.
  pose proof (Z.div_mod va 4096 ltac:(lia)) as H1. pose proof (Z.mod_pos_bound va 4096 ltac:(lia)) as H2.
  pose proof (Z.div_mod (va / 4096) 256 ltac:(lia)) as H3. pose proof (Z.mod_pos_bound (va / 4096) 256 ltac:(lia)) as H4.
  rewrite Z.div_div in H3 by lia. change (4096 * 256) with 1048576 in H3.
  assert (0 <= va / 1048576 < 4096) by (split; [apply Z.div_pos; lia|apply Z.div_lt_upper_bound; lia]). lia.
Qed.

Lemma va_indices i k o : 0 <= i < 4096 -> 0 <= k < 256 -> 0 <= o < 4096 ->
  ARM_L1_OFFSET (i * 1048576 + k * 4096 + o) = i /\ ARM_L2_OFFSET (i * 1048576 + k * 4096 + o) = k.
Proof.
  intros. rewrite l1_offset, l2_offset by lia. split.
  - symmetry. apply (Z.div_unique _ _ _ (k * 4096 + o)); lia.
  - rewrite <- (Z.div_unique _ 4096 (i * 256 + k) o) by lia. symmetry. apply (Z.mod_unique _ _ i); lia.
Qed.

(** The addresses of [n] pages of one second-level table. *)
Lemma segment vaddr n va : 0 <= vaddr < 2 ^ 32 -> vaddr `mod` 4096 = 0 -> 0 <= va < 2 ^ 32 ->
  0 <= n -> ARM_L2_OFFSET vaddr + n <= 256 ->
  vaddr <= va < vaddr + n * 4096 <->
  ARM_L1_OFFSET va = ARM_L1_OFFSET vaddr /\ ARM_L2_OFFSET vaddr <= ARM_L2_OFFSET va < ARM_L2_OFFSET vaddr + n.
Proof.
  intros Hv Ha Hva Hn Hb. destruct (va_split vaddr Hv) as (E1 & ? & ? & _). destruct (va_split va Hva) as (E2 & ? & ? & ?).
  rewrite Ha in E1. lia.
Qed.

(** * The invariant of the page tables *)

(** The second-level table of an index: its address. *)
Definition l2_addr (y : sys) (st : paging_state) (i : Z) : option Z :=
  (fun c => get_address (cspace y c)) <$> l2_page_tables st i.

Definition page_or_invalid (e : pt_entry) : Prop :=
  match e with EntryInvalid | EntryPage _ _ _ => True | _ => False end.

(** A physical address that can hold a second-level table beside the
    first-level table at [a1]. *)
Definition table_place (a1 a : Z) : Prop :=
  a `mod` 1024 = 0 /\ 0 <= a /\ a + 1024 <= 2 ^ 32 /\ (a + 1024 <= a1 \/ a1 + 16384 <= a).

Record tables_ok (a1 : Z) (y : sys) (st : paging_state) : Prop := {
  tk_l1 : ctype (cspace y (l1_page_table st)) = ObjType_VNode_ARM_l1
          /\ get_address (cspace y (l1_page_table st)) = a1;
  tk_l2 : forall i c, l2_page_tables st i = Some c ->
    0 <= i < 2048 /\ ctype (cspace y c) = ObjType_VNode_ARM_l2 /\ table_place a1 (get_address (cspace y c))
    /\ ptm y (a1 + i * 4) = EntryTable (get_address (cspace y c) / 1024)
    /\ forall k, 0 <= k < 256 -> page_or_invalid (ptm y (get_address (cspace y c) + k * 4));
  tk_none : forall i, 0 <= i < 4096 -> l2_page_tables st i = None -> ptm y (a1 + i * 4) = EntryInvalid;
  tk_inj : forall i j c d, l2_page_tables st i = Some c -> l2_page_tables st j = Some d ->
    get_address (cspace y c) = get_address (cspace y d) -> i = j
}.

(** What the environment promises: the slots it will hand out are empty and
    distinct, the memory can hold tables and is not used for one yet; the
    kernel does not refuse. *)
Record supplies_ok (a1 : Z) (y : sys) (st : paging_state) : Prop := {
  sk_slots : NoDup (slot_supply y);
  sk_empty : forall s, s ∈ slot_supply y -> cspace y s = null_cap;
  sk_ram : NoDup (ram_supply y);
  sk_place : forall b, b ∈ ram_supply y -> table_place a1 b
             /\ forall i c, l2_page_tables st i = Some c -> get_address (cspace y c) <> b;
  sk_kernel : retype_result y = SYS_ERR_OK /\ destroy_result y = SYS_ERR_OK
}.

Definition tr (a1 : Z) (y : sys) : Z -> option (Z * Z) := translate (ptm y) a1.

Lemma table_div a : a `mod` 1024 = 0 -> a / 1024 * 1024 = a.
Proof. intros H. pose proof (Z.div_mod a 1024 ltac:(lia)). lia. Qed.

Lemma place_apart a1 a b k j : table_place a1 a -> table_place a1 b -> a <> b -> 0 <= k < 256 -> 0 <= j < 256 ->
  a + k * 4 <> b + j * 4.
Proof.
  intros (Ha & _) (Hb & _) Hne Hk Hj.
  pose proof (Z.div_mod a 1024 ltac:(lia)). pose proof (Z.div_mod b 1024 ltac:(lia)). lia.
Qed.

Lemma place_l1 a1 a i k : table_place a1 a -> 0 <= i < 4096 -> 0 <= k < 256 -> a1 + i * 4 <> a + k * 4.
Proof. intros (_ & _ & _ & H) Hi Hk. lia. Qed.

(** Translation through a table that exists. *)
Lemma tr_table a1 y st va c : tables_ok a1 y st -> 0 <= va < 2 ^ 32 -> l2_page_tables st (ARM_L1_OFFSET va) = Some c ->
  tr a1 y va = match ptm y (get_address (cspace y c) + ARM_L2_OFFSET va * 4) with
               | EntryPage p _ ap => Some (p * PAGE + va `mod` PAGE, ap)
               | _ => None
               end.
Proof.
  intros Hok Hva Hc. destruct (tk_l2 _ _ _ Hok _ _ Hc) as (_ & _ & Hp & He & _).
  unfold tr, translate. rewrite He. by rewrite table_div by apply Hp.
Qed.

Lemma tr_none a1 y st va : tables_ok a1 y st -> 0 <= va < 2 ^ 32 -> l2_page_tables st (ARM_L1_OFFSET va) = None ->
  tr a1 y va = None.
Proof.
  intros Hok Hva Hc. destruct (va_split va Hva) as (_ & Hi & _ & _).
  unfold tr, translate. by rewrite (tk_none _ _ _ Hok _ Hi Hc).
Qed.

(** * Frame lemmas *)

(** Capabilities in use stay as they are. *)
Definition caps_kept (y y' : sys) : Prop :=
  forall s, ctype (cspace y s) <> ObjType_Null -> cspace y' s = cspace y s.

Definition same_tables (st st' : paging_state) : Prop :=
  l1_page_table st' = l1_page_table st /\ l2_page_tables st' = l2_page_tables st.

(** The addresses of the entries of the tables. *)
Definition entry_addr (a1 : Z) (y : sys) (st : paging_state) (a : Z) : Prop :=
  (exists i, 0 <= i < 4096 /\ a = a1 + i * 4)
  \/ exists i c k, l2_page_tables st i = Some c /\ 0 <= k < 256 /\ a = get_address (cspace y c) + k * 4.

Lemma l1_kept a1 y y' st : tables_ok a1 y st -> caps_kept y y' ->
  cspace y' (l1_page_table st) = cspace y (l1_page_table st).
Proof. intros Hok Hk. apply Hk. by rewrite (proj1 (tk_l1 _ _ _ Hok)). Qed.

Lemma l2_kept a1 y y' st i c : tables_ok a1 y st -> caps_kept y y' -> l2_page_tables st i = Some c ->
  cspace y' c = cspace y c.
Proof. intros Hok Hk Hc. apply Hk. destruct (tk_l2 _ _ _ Hok _ _ Hc) as (_ & -> & _). done. Qed.

Lemma tables_frame a1 y st y' st' : tables_ok a1 y st -> same_tables st st' -> caps_kept y y' ->
  (forall a, entry_addr a1 y st a -> ptm y' a = ptm y a) ->
  tables_ok a1 y' st' /\ forall va, 0 <= va < 2 ^ 32 -> tr a1 y' va = tr a1 y va.
Proof.
  intros Hok [El1 El2] Hk Hm.
  assert (Hok' : tables_ok a1 y' st').
  { constructor; rewrite ?El1, ?El2.
    - rewrite (l1_kept _ _ _ _ Hok Hk). apply Hok.
    - intros i c Hc. rewrite (l2_kept _ _ _ _ _ _ Hok Hk Hc).
      destruct (tk_l2 _ _ _ Hok _ _ Hc) as (Hi & Ht & Hp & He & Hpi). split_and!; try done; try lia.
      + rewrite Hm; [done|]. left. exists i. lia.
      + intros k Hk'. rewrite Hm; [auto|]. right. by exists i, c, k.
    - intros i Hi Hc. rewrite Hm; [by apply (tk_none _ _ _ Hok)|]. left. eauto.
    - intros i j c d Hc Hd. rewrite (l2_kept _ _ _ _ _ _ Hok Hk Hc), (l2_kept _ _ _ _ _ _ Hok Hk Hd).
      by apply (tk_inj _ _ _ Hok). }
  split; [done|]. intros va Hva. destruct (va_split va Hva) as (_ & _ & Hk2 & _).
  destruct (l2_page_tables st (ARM_L1_OFFSET va)) as [c|] eqn:E.
  - rewrite (tr_table _ _ _ _ c Hok' Hva), (tr_table _ _ _ _ c Hok Hva) by congruence.
    rewrite (l2_kept _ _ _ _ _ _ Hok Hk E), Hm; [done|]. right. eauto 6.
  - by rewrite (tr_none _ _ _ _ Hok' Hva), (tr_none _ _ _ _ Hok Hva) by congruence.
Qed.

Lemma supplies_frame a1 y st y' st' ps pr : tables_ok a1 y st -> supplies_ok a1 y st ->
  same_tables st st' -> caps_kept y y' -> slot_supply y = ps ++ slot_supply y' -> ram_supply y = pr ++ ram_supply y' ->
  (forall s, s ∈ slot_supply y' -> cspace y' s = null_cap) ->
  retype_result y' = retype_result y -> destroy_result y' = destroy_result y ->
  supplies_ok a1 y' st'.
Proof.
  intros Hok Hs [El1 El2] Hk Eps Epr He E1 E2. destruct Hs as [H1 H2 H3 H4 H5].
  rewrite Eps in H1. rewrite Epr in H3, H4. constructor; rewrite ?El2.
  - by apply NoDup_app in H1 as (_ & _ & ?).
  - done.
  - by apply NoDup_app in H3 as (_ & _ & ?).
  - intros b Hb. destruct (H4 b) as [Hp Hn]; [apply elem_of_app; by right|]. split; [done|].
    intros i c Hc. rewrite (l2_kept _ _ _ _ _ _ Hok Hk Hc). eauto.
  - by rewrite E1, E2.
Qed.

(** What a step of the mapping code does besides the translation: it keeps
    the invariants, takes at most [ns] slots and [nr] pieces of memory and
    leaves the capabilities, tables and lists that there are. *)
Record step_ok (a1 : Z) (ns nr : nat) (y : sys) (st : paging_state) (y' : sys) (st' : paging_state) : Prop := {
  so_tables : tables_ok a1 y' st';
  so_supplies : supplies_ok a1 y' st';
  so_slots : (length (slot_supply y) <= length (slot_supply y') + ns)%nat;
  so_ram : (length (ram_supply y) <= length (ram_supply y') + nr)%nat;
  so_kept : caps_kept y y';
  so_l2 : forall i c, l2_page_tables st i = Some c -> l2_page_tables st' i = Some c;
  so_free : free_vspace st' = free_vspace st /\ free_next st' = free_next st /\ mappings st' = mappings st
}.

Lemma caps_kept_trans y1 y2 y3 : caps_kept y1 y2 -> caps_kept y2 y3 -> caps_kept y1 y3.
Proof. intros H1 H2 s Hs. rewrite H2; rewrite H1 by done; done. Qed.

Lemma step_trans a1 ns nr ns' nr' y1 st1 y2 st2 y3 st3 :
  step_ok a1 ns nr y1 st1 y2 st2 -> step_ok a1 ns' nr' y2 st2 y3 st3 ->
  step_ok a1 (ns + ns') (nr + nr') y1 st1 y3 st3.
Proof.
  intros [? ? ? ? Hk1 ? (? & ? & ?)] [? ? ? ? Hk2 ? (? & ? & ?)].
  constructor; try done; try lia; eauto using caps_kept_trans. split_and!; congruence.
Qed.

Lemma step_weaken a1 ns nr ns' nr' y st y' st' : (ns <= ns')%nat -> (nr <= nr')%nat ->
  step_ok a1 ns nr y st y' st' -> step_ok a1 ns' nr' y st y' st'.
Proof. intros ? ? []. constructor; try done; lia. Qed.

Lemma step_refl a1 y st : tables_ok a1 y st -> supplies_ok a1 y st -> step_ok a1 0 0 y st y st.
Proof. intros. constructor; try done; lia. Qed.

(** A change of the state beside its tables. *)
Lemma step_state a1 y st st' : tables_ok a1 y st -> supplies_ok a1 y st -> same_tables st st' ->
  free_vspace st' = free_vspace st /\ free_next st' = free_next st /\ mappings st' = mappings st ->
  step_ok a1 0 0 y st y st'.
Proof.
  intros Hok Hs Hsame Hf. assert (Hk : caps_kept y y) by by intros ?.
  constructor; try done; try lia.
  - by eapply (tables_frame a1 y st).
  - eapply (supplies_frame a1 y st _ _ [] []); try done. apply Hs.
  - destruct Hsame as [_ ->]. done.
Qed.

(** * Slots and memory *)

Lemma insert_kept y s c : cspace y s = null_cap -> forall s', ctype (cspace y s') <> ObjType_Null ->
  <[s := c]> (cspace y) s' = cspace y s'.
Proof. intros E s' Hs'. apply fn_lookup_insert_ne. intros ->. by rewrite E in Hs'. Qed.

Lemma take_slot a1 y st : tables_ok a1 y st -> supplies_ok a1 y st -> (0 < length (slot_supply y))%nat ->
  exists s l, slot_supply y = s :: l /\ slot_alloc y = (SYS_ERR_OK, s, set_slots l y) /\ cspace y s = null_cap
    /\ (s ∉ l) /\ step_ok a1 1 0 y st (set_slots l y) st
    /\ forall va, 0 <= va < 2 ^ 32 -> tr a1 (set_slots l y) va = tr a1 y va.
Proof.
  intros Hok Hs Hlen. destruct (slot_supply y) as [|s l] eqn:E; [simpl in Hlen; lia|]. exists s, l.
  pose proof (sk_slots _ _ _ Hs) as Hnd. rewrite E in Hnd. apply NoDup_cons in Hnd as [Hni Hnd].
  assert (Hk : caps_kept y (set_slots l y)) by by intros ?.
  split_and!; auto.
  - unfold slot_alloc. by rewrite E.
  - apply (sk_empty _ _ _ Hs). rewrite E. by left.
  - constructor; try done; cbn [slot_supply ram_supply set_slots]; rewrite ?E; simpl; try lia.
    + by eapply (tables_frame a1 y st).
    + eapply (supplies_frame a1 y st _ _ [s] []); try done. intros s' Hs'. apply (sk_empty _ _ _ Hs).
      rewrite E. by right.
Qed.

Definition l2_cap (b : Z) : capability := Capability ObjType_VNode_ARM_l2 b ARM_L2_TABLE_BYTES 0 0 0.

(** A table in new memory, not yet part of the translation. *)
Definition with_table (s b : Z) (l : list Z) (y : sys) : sys :=
  set_cspace (<[s := l2_cap b]> (cspace y)) (set_ptm (clear_entries 256 b (ptm y)) (set_ram l y)).

Lemma clear_table_other b m a : ~ (exists k, 0 <= k < 256 /\ a = b + k * 4) -> clear_entries 256 b m a = m a.
Proof.
  intros H. apply clear_entries_other. intros (k & Hk & ->). apply H. exists k.
  change (Z.of_nat 256) with 256 in Hk. lia.
Qed.

Lemma clear_table_at b m k : 0 <= k < 256 -> clear_entries 256 b m (b + k * 4) = EntryInvalid.
Proof. intros Hk. rewrite (Z.mul_comm k). apply clear_entries_at. exact Hk. Qed.

Lemma new_table a1 y st s : tables_ok a1 y st -> supplies_ok a1 y st -> (0 < length (ram_supply y))%nat ->
  cspace y s = null_cap -> (s ∉ slot_supply y) ->
  exists b l, ram_supply y = b :: l /\ vnode_create s y = (SYS_ERR_OK, with_table s b l y) /\ (b ∉ l)
    /\ table_place a1 b /\ (forall i c, l2_page_tables st i = Some c -> get_address (cspace y c) <> b)
    /\ step_ok a1 0 1 y st (with_table s b l y) st
    /\ forall va, 0 <= va < 2 ^ 32 -> tr a1 (with_table s b l y) va = tr a1 y va.
Proof.
  intros Hok Hs Hlen He Hni. destruct (ram_supply y) as [|b l] eqn:E; [simpl in Hlen; lia|]. exists b, l.
  pose proof (sk_ram _ _ _ Hs) as Hnd. rewrite E in Hnd. apply NoDup_cons in Hnd as [Hnb _].
  destruct (sk_place _ _ _ Hs b) as [Hp Hfresh]; [rewrite E; by left|]. destruct (sk_kernel _ _ _ Hs) as [Er Ed].
  assert (Hk : caps_kept y (with_table s b l y)) by (intros s' Hs'; by apply insert_kept).
  destruct (tables_frame a1 y st (with_table s b l y) st Hok (conj eq_refl eq_refl) Hk) as [Hok' Htr].
  { intros a Ha. apply clear_table_other. intros (k & Hk' & ->).
    destruct Ha as [(i & Hi & Ea)|(i & c & k' & Hc & Hk2 & Ea)].
    - by apply (place_l1 a1 b i k Hp).
    - destruct (tk_l2 _ _ _ Hok _ _ Hc) as (_ & _ & Hpc & _). symmetry in Ea. revert Ea.
      by apply (place_apart a1); eauto. }
  split_and!; auto.
  - unfold vnode_create, ram_alloc. rewrite E. cbn [err_is_fail SYS_ERR_OK retype_result set_ram].
    rewrite Er. cbn. by rewrite Ed.
  - constructor; try done; cbn [slot_supply ram_supply with_table set_cspace set_ptm set_ram]; rewrite ?E; simpl; try lia.
    eapply (supplies_frame a1 y st _ _ [] [b]); try done.
    intros s' Hs'. cbn [cspace with_table set_cspace]. rewrite fn_lookup_insert_ne by (intros ->; by apply Hni).
    by apply (sk_empty _ _ _ Hs).
Qed.

(** The table becomes part of the translation, with no page. *)
Definition link_table (i s s2 b : Z) (a1 : Z) (y : sys) : sys :=
  set_cspace (<[s2 := mapping_cap (l2_cap b) (a1 + i * 4) 0 1]> (cspace y))
    (set_ptm (<[a1 + i * 4 := EntryTable (Z.shiftr b 10)]> (ptm y)) y).

(** Evaluate the comparisons of object types. *)
Ltac decide_types :=
  repeat match goal with
  | |- context [bool_decide (@eq objtype ?x ?y)] =>
    let b := eval vm_compute in (bool_decide (@eq objtype x y)) in
    match b with true => idtac | false => idtac end; change (bool_decide (@eq objtype x y)) with b
  end; cbn [negb andb orb].

Lemma vnode_map_table a1 y st i s s2 b : tables_ok a1 y st -> 0 <= i < 2048 -> table_place a1 b ->
  cspace y s = l2_cap b -> cspace y s2 = null_cap ->
  vnode_map (l1_page_table st) s i 3 0 1 s2 y = Done (SYS_ERR_OK, link_table i s s2 b a1 y).
Proof.
  intros Hok Hi (Hb1 & Hb2 & Hb3 & Hb4) Es Es2. destruct (tk_l1 _ _ _ Hok) as [Ht Ha].
  assert (E : (b <? a1) || (a1 + 16384 <=? b) = true) by (zcases; try done; lia).
  unfold vnode_map, caps_copy_to_vnode, caps_map_l1. rewrite Es, Es2, Ht, Ha. cbn [ctype l2_cap null_cap get_address get_size].
  decide_types. cbn [assert]. step.
  rewrite Z.add_0_r, (u32_small b), (u32_small b), Hb1, E, (u32_small (i + 1)) by lia.
  change (ARM_L1_OFFSET MEMORY_OFFSET) with 2048. unfold ARM_L1_MAX_ENTRIES, ARM_L2_TABLE_BYTES.
  zdecide. done.
Qed.

Lemma link_table_ok a1 y st st' i s s2 b : tables_ok a1 y st -> supplies_ok a1 y st -> 0 <= i < 2048 ->
  table_place a1 b -> l2_page_tables st i = None -> cspace y s = l2_cap b -> cspace y s2 = null_cap ->
  (s2 ∉ slot_supply y) -> (b ∉ ram_supply y) -> s2 <> s ->
  (forall j c, l2_page_tables st j = Some c -> get_address (cspace y c) <> b) ->
  (forall k, 0 <= k < 256 -> ptm y (b + k * 4) = EntryInvalid) ->
  l1_page_table st' = l1_page_table st -> l2_page_tables st' = <[i := Some s]> (l2_page_tables st) ->
  tables_ok a1 (link_table i s s2 b a1 y) st' /\ supplies_ok a1 (link_table i s s2 b a1 y) st'.
Proof.
  intros Hok Hs Hi Hp Hn Es Es2 Hni Hnb Hne Hfresh Hclear El1 El2. set (y' := link_table i s s2 b a1 y).
  assert (Hk : caps_kept y y') by (intros s' Hs'; by apply insert_kept).
  assert (Es' : cspace y' s = l2_cap b) by (by rewrite <- Es; apply Hk; rewrite Es).
  assert (Hm : forall a, a <> a1 + i * 4 -> ptm y' a = ptm y a) by (intros a Ha; by apply fn_lookup_insert_ne).
  assert (Hsplit : forall j c, l2_page_tables st' j = Some c -> (j = i /\ c = s) \/ (j <> i /\ l2_page_tables st j = Some c)).
  { intros j c. rewrite El2. destruct (decide (j = i)) as [->|Hj]; [rewrite fn_lookup_insert|rewrite fn_lookup_insert_ne by done];
      [intros [= <-]; auto|auto]. }
  split; constructor; rewrite ?El1.
  - rewrite (l1_kept _ _ _ _ Hok Hk). apply Hok.
  - intros j c [[-> ->]|[Hj Hc]]%Hsplit.
    + rewrite Es'. split_and!; try done; try lia.
      * unfold y', link_table. cbn [ptm set_cspace set_ptm]. by rewrite fn_lookup_insert, Z.shiftr_div_pow2 by lia.
      * intros k Hk'. cbn [get_address l2_cap]. rewrite Hm, Hclear by (done || (symmetry; apply (place_l1 a1); done || lia)). done.
    + rewrite (l2_kept _ _ _ _ _ _ Hok Hk Hc). destruct (tk_l2 _ _ _ Hok _ _ Hc) as (Hj2 & Ht & Hpc & He & Hpi).
      split_and!; try done; try lia; [rewrite Hm by lia; done|].
      intros k Hk'. rewrite Hm; [auto|]. symmetry. apply (place_l1 a1); done || lia.
  - intros j Hj Hc. rewrite El2 in Hc. destruct (decide (j = i)) as [->|Hji]; [by rewrite fn_lookup_insert in Hc|].
    rewrite fn_lookup_insert_ne in Hc by done. rewrite Hm by lia. by apply (tk_none _ _ _ Hok).
  - intros j1 j2 c d [[-> ->]|[Hj1 Hc]]%Hsplit [[-> ->]|[Hj2 Hd]]%Hsplit; rewrite ?Es'; try done;
      rewrite ?(l2_kept _ _ _ _ _ _ Hok Hk Hc), ?(l2_kept _ _ _ _ _ _ Hok Hk Hd); intros E.
    + symmetry in E. by apply (Hfresh _ _ Hd) in E.
    + by apply (Hfresh _ _ Hc) in E.
    + by apply (tk_inj _ _ _ Hok j1 j2 c d).
  - apply Hs.
  - intros s' Hs'. cbn [cspace y' link_table set_cspace]. rewrite fn_lookup_insert_ne by (intros ->; by apply Hni).
    by apply (sk_empty _ _ _ Hs).
  - apply Hs.
  - intros b' Hb'. destruct (sk_place _ _ _ Hs b' Hb') as [Hpb Hfb]. split; [done|].
    intros j c [[-> ->]|[Hj Hc]]%Hsplit; [rewrite Es'; intros E; cbn in E; subst b'; by apply Hnb|].
    rewrite (l2_kept _ _ _ _ _ _ Hok Hk Hc). eauto.
  - apply Hs.
Qed.

(** The new table adds no translation. *)
Lemma link_table_tr a1 y st st' i s s2 b va : tables_ok a1 y st -> tables_ok a1 (link_table i s s2 b a1 y) st' ->
  0 <= i < 2048 -> table_place a1 b -> l2_page_tables st i = None -> l2_page_tables st' i = Some s ->
  cspace y s = l2_cap b -> s2 <> s -> (forall k, 0 <= k < 256 -> ptm y (b + k * 4) = EntryInvalid) ->
  0 <= va < 2 ^ 32 -> tr a1 (link_table i s s2 b a1 y) va = tr a1 y va.
Proof.
  intros Hok Hok' Hi Hp Hn Hn' Es Hne Hclear Hva. destruct (va_split va Hva) as (_ & Hi1 & Hk1 & _).
  destruct (decide (ARM_L1_OFFSET va = i)) as [E|Hne'].
  - rewrite (tr_none _ _ _ _ Hok Hva), (tr_table _ _ _ _ s Hok' Hva) by (by rewrite E).
    assert (E' : cspace (link_table i s s2 b a1 y) s = l2_cap b) by (cbn; by rewrite fn_lookup_insert_ne).
    rewrite E'. cbn [get_address l2_cap ptm link_table set_cspace set_ptm].
    rewrite fn_lookup_insert_ne by (apply (place_l1 a1); done || lia). by rewrite Hclear.
  - unfold tr, translate, link_table. cbn [ptm set_cspace set_ptm]. rewrite fn_lookup_insert_ne by lia.
    destruct (ptm y (a1 + ARM_L1_OFFSET va * 4)) as [|t| |] eqn:Et; try done. rewrite fn_lookup_insert_ne; [done|].
    destruct (l2_page_tables st (ARM_L1_OFFSET va)) as [c|] eqn:Eva.
    + destruct (tk_l2 _ _ _ Hok _ _ Eva) as (_ & _ & Hpc & He & _). rewrite He in Et. injection Et as <-.
      rewrite table_div by apply Hpc. apply (place_l1 a1); done || lia.
    + by rewrite (tk_none _ _ _ Hok _ Hi1 Eva) in Et.
Qed.

(** [get_l2] finds or makes the table; what is mapped stays the same. *)
Lemma get_l2_spec a1 y st i : tables_ok a1 y st -> supplies_ok a1 y st -> 0 <= i < 2048 ->
  (2 <= length (slot_supply y))%nat -> (1 <= length (ram_supply y))%nat ->
  exists c y' st', get_l2 i y st = Done (c, y', st') /\ step_ok a1 2 1 y st y' st' /\ ps_slabs st' = ps_slabs st
    /\ l2_page_tables st' i = Some c /\ forall va, 0 <= va < 2 ^ 32 -> tr a1 y' va = tr a1 y va.
Proof.
  intros Hok Hs Hi Hls Hlr. unfold get_l2. destruct (l2_page_tables st i) as [c|] eqn:Ei.
  { exists c, y, st. split_and!; try done. apply (step_weaken a1 0 0); [lia..|]. by apply step_refl. }
  destruct (take_slot a1 y st Hok Hs) as (s & l & El & Ea & Es & Hnl & S1 & T1); [lia|].
  rewrite El in Hls. simpl in Hls. unfold arml2_alloc. rewrite Ea. cbn [CHECK err_is_fail SYS_ERR_OK]. step.
  destruct (new_table a1 (set_slots l y) st s (so_tables _ _ _ _ _ _ _ S1) (so_supplies _ _ _ _ _ _ _ S1))
    as (b & lr & Er & Ec & Hnb & Hpb & Hfresh & S2 & T2); [done|done|done|].
  rewrite Ec. cbn [CHECK err_is_fail SYS_ERR_OK]. step.
  destruct (take_slot a1 (with_table s b lr (set_slots l y)) st (so_tables _ _ _ _ _ _ _ S2) (so_supplies _ _ _ _ _ _ _ S2))
    as (s2 & l2 & El2 & Ea2 & Es2 & Hnl2 & S3 & T3); [simpl; lia|].
  rewrite Ea2. cbn [CHECK err_is_fail SYS_ERR_OK]. step.
  set (y2 := set_slots l2 _) in *. pose proof (so_tables _ _ _ _ _ _ _ S3) as Hok3. pose proof (so_supplies _ _ _ _ _ _ _ S3) as Hs3.
  assert (Es3 : cspace y2 s = l2_cap b) by apply fn_lookup_insert.
  rewrite (vnode_map_table a1 y2 st i s s2 b) by done. cbn [CHECK err_is_fail SYS_ERR_OK]. step.
  assert (Hne : s2 <> s) by (intros ->; discriminate (eq_trans (eq_sym Es2) Es3)).
  set (st' := slot_callback s2 _).
  destruct (link_table_ok a1 y2 st st' i s s2 b) as [Hok4 Hs4]; try done.
  { intros j c Hc. change (cspace y2 c) with (cspace (with_table s b lr (set_slots l y)) c).
    rewrite (l2_kept _ _ _ _ _ _ (so_tables _ _ _ _ _ _ _ S1) (so_kept _ _ _ _ _ _ _ S2) Hc). eauto. }
  { intros k Hk. by apply clear_table_at. }
  assert (Hi' : l2_page_tables st' i = Some s) by (cbn; by rewrite fn_lookup_insert).
  exists s, (link_table i s s2 b a1 y2), st'. split_and!; try done.
  - assert (S4 : step_ok a1 0 0 y2 st (link_table i s s2 b a1 y2) st').
    { constructor; try done; try (cbn; lia).
      - intros s' Hs'. by apply insert_kept.
      - intros j c Hc. cbn. rewrite fn_lookup_insert_ne; [done|]. intros ->. congruence. }
    exact (step_trans _ _ _ _ _ _ _ _ _ _ _ (step_trans _ _ _ _ _ _ _ _ _ _ _ (step_trans _ _ _ _ _ _ _ _ _ _ _ S1 S2) S3) S4).
  - intros va Hva. rewrite <- T1, <- T2, <- T3 by done. apply (link_table_tr a1 y2 st st'); try done.
    intros k Hk. by apply clear_table_at.
Qed.

(** * Entries of one table *)

(** The entries of one table become other pages; nothing else changes. *)
Lemma table_change a1 y st y' i c : tables_ok a1 y st -> l2_page_tables st i = Some c -> caps_kept y y' ->
  (forall a, ~ (exists k, 0 <= k < 256 /\ a = get_address (cspace y c) + k * 4) -> ptm y' a = ptm y a) ->
  (forall k, 0 <= k < 256 -> page_or_invalid (ptm y' (get_address (cspace y c) + k * 4))) ->
  tables_ok a1 y' st /\ forall va, 0 <= va < 2 ^ 32 -> ARM_L1_OFFSET va <> i -> tr a1 y' va = tr a1 y va.
Proof.
  intros Hok Hc Hk Hm Hpi. destruct (tk_l2 _ _ _ Hok _ _ Hc) as (Hi & _ & Hp & _).
  assert (Hm1 : forall j, 0 <= j < 4096 -> ptm y' (a1 + j * 4) = ptm y (a1 + j * 4)).
  { intros j Hj. apply Hm. intros (k & Hk' & E). by apply (place_l1 a1 (get_address (cspace y c)) j k). }
  assert (Hm2 : forall j d k, l2_page_tables st j = Some d -> j <> i -> 0 <= k < 256 ->
    ptm y' (get_address (cspace y d) + k * 4) = ptm y (get_address (cspace y d) + k * 4)).
  { intros j d k Hd Hj Hk'. apply Hm. intros (k' & Hk2 & E). destruct (tk_l2 _ _ _ Hok _ _ Hd) as (_ & _ & Hpd & _).
    revert E. apply (place_apart a1); try done. intros E. apply Hj. by apply (tk_inj _ _ _ Hok j i d c). }
  assert (Hok' : tables_ok a1 y' st).
  { constructor.
    - rewrite (l1_kept _ _ _ _ Hok Hk). apply Hok.
    - intros j d Hd. rewrite (l2_kept _ _ _ _ _ _ Hok Hk Hd).
      destruct (tk_l2 _ _ _ Hok _ _ Hd) as (Hj & Ht & Hpd & He & Hpid). split_and!; try done; try lia.
      + rewrite Hm1 by lia. done.
      + intros k Hk'. destruct (decide (j = i)) as [->|Hji]; [|rewrite (Hm2 j) by done; auto].
        assert (d = c) as -> by congruence. auto.
    - intros j Hj Hd. rewrite Hm1 by done. by apply (tk_none _ _ _ Hok).
    - intros j1 j2 d1 d2 H1 H2. rewrite (l2_kept _ _ _ _ _ _ Hok Hk H1), (l2_kept _ _ _ _ _ _ Hok Hk H2).
      by apply (tk_inj _ _ _ Hok). }
  split; [done|]. intros va Hva Hne. destruct (va_split va Hva) as (_ & _ & Hk2 & _).
  destruct (l2_page_tables st (ARM_L1_OFFSET va)) as [d|] eqn:E.
  - rewrite (tr_table _ _ _ _ d Hok' Hva), (tr_table _ _ _ _ d Hok Hva) by done.
    by rewrite (l2_kept _ _ _ _ _ _ Hok Hk E), (Hm2 (ARM_L1_OFFSET va)) by done.
  - by rewrite (tr_none _ _ _ _ Hok' Hva), (tr_none _ _ _ _ Hok Hva) by done.
Qed.

(** What is known of a frame that is to be mapped. *)
Definition frame_ok (f : capability) : Prop :=
  (ctype f = ObjType_Frame \/ ctype f = ObjType_DevFrame)
  /\ get_address f `mod` PAGE = 0 /\ 0 <= get_address f /\ get_address f + get_size f <= 2 ^ 32.

Definition flags_ok (flags : Z) : Prop := Z.land flags (Z.lnot KPI_PAGING_FLAGS_MASK) = 0.

(** [n] pages of the frame [f] from [off] on, in the table at [a] from the
    entry [k] on. *)
Definition with_pages (a k off n flags s : Z) (f : capability) (y : sys) : sys :=
  set_cspace (<[s := mapping_cap f (a + k * 4) off n]> (cspace y))
    (set_ptm (write_pages (Z.to_nat n) (a + k * 4) (get_address f + off) flags (ptm y)) y).

Lemma land_page a : Z.land a (PAGE - 1) = a `mod` PAGE.
Proof. change (PAGE - 1) with (Z.ones 12). by rewrite Z.land_ones by lia. Qed.

Lemma vnode_map_pages a1 y st i c frame k off n flags s : tables_ok a1 y st -> l2_page_tables st i = Some c ->
  frame_ok (cspace y frame) -> flags_ok flags -> cspace y s = null_cap ->
  0 <= off -> off `mod` PAGE = 0 -> 0 < n -> 0 <= k -> k + n <= 256 ->
  off + n * PAGE <= get_size (cspace y frame) -> off + n * PAGE < 2 ^ 32 ->
  ptm y (get_address (cspace y c) + k * 4) = EntryInvalid ->
  vnode_map c frame k flags off n s y
  = Done (SYS_ERR_OK, with_pages (get_address (cspace y c)) k off n flags s (cspace y frame) y).
Proof.
  intros Hok Hc (Hft & Hfa & Hf0 & Hfs) Hfl Es Ho Hoa Hn Hk Hkn Hsz Hlt He.
  destruct (tk_l2 _ _ _ Hok _ _ Hc) as (_ & Ht & _). unfold PAGE in *.
  unfold vnode_map, caps_copy_to_vnode, caps_map_l2. rewrite Es, Ht. cbn [ctype null_cap].
  decide_types. cbn [assert]. step. rewrite Hfl. cbn [Z.eqb assert]. step.
  assert (Et : negb (bool_decide (ctype (cspace y frame) = ObjType_Frame))
               && negb (bool_decide (ctype (cspace y frame) = ObjType_DevFrame)) = false).
  { by destruct Hft as [-> | ->]; decide_types. }
  unfold ARM_L2_MAX_ENTRIES, PAGE. rewrite Et, He, Hoa, !u32_small by lia. zdecide. cbn [orb negb is_valid].
  change 4095 with (PAGE - 1). fold PAGE. rewrite land_page.
  assert (E : (get_address (cspace y frame) + off) `mod` PAGE = 0) by (unfold PAGE; rewrite Zplus_mod, Hfa, Hoa; done).
  by rewrite E.
Qed.

Lemma page_entry_addr p o : p `mod` PAGE = 0 -> Z.shiftr p 12 * PAGE + o = p + o.
Proof. intros H. rewrite Z.shiftr_div_pow2 by lia. change (2 ^ 12) with PAGE. unfold PAGE in *. pose proof (Z.div_mod p 4096). lia. Qed.

(** Mapping pages adds exactly their translations. *)
Lemma with_pages_ok a1 y st i c k off n flags s f : tables_ok a1 y st -> supplies_ok a1 y st ->
  l2_page_tables st i = Some c -> cspace y s = null_cap -> (s ∉ slot_supply y) -> 0 <= k -> 0 < n -> k + n <= 256 ->
  (get_address f + off) `mod` PAGE = 0 ->
  let y' := with_pages (get_address (cspace y c)) k off n flags s f y in
  step_ok a1 0 0 y st y' st /\ forall va, 0 <= va < 2 ^ 32 ->
    tr a1 y' va = if decide (ARM_L1_OFFSET va = i /\ k <= ARM_L2_OFFSET va < k + n)
                  then Some (get_address f + off + (ARM_L2_OFFSET va - k) * PAGE + va `mod` PAGE, ap10_of flags)
                  else tr a1 y va.
Proof.
  intros Hok Hs Hc Es Hns Hk Hn Hkn Ha y'. set (a := get_address (cspace y c)) in *.
  assert (Hkept : caps_kept y y') by (intros s' Hs'; by apply insert_kept).
  assert (Hat : forall j, k <= j < k + n -> ptm y' (a + j * 4)
    = EntryPage (Z.shiftr (get_address f + off + (j - k) * PAGE) 12) (cacheable_of flags) (ap10_of flags)).
  { intros j Hj. cbn [ptm y' with_pages set_cspace set_ptm]. replace (a + j * 4) with (a + k * 4 + 4 * (j - k)) by lia.
    apply write_pages_at. lia. }
  assert (Hother : forall p, ~ (exists j, k <= j < k + n /\ p = a + j * 4) -> ptm y' p = ptm y p).
  { intros p Hp. apply write_pages_other. intros (j & Hj & ->). apply Hp. exists (k + j). lia. }
  destruct (table_change a1 y st y' i c Hok Hc Hkept) as [Hok' Htr].
  { intros p Hp. apply Hother. intros (j & Hj & ->). apply Hp. exists j. split; [lia|done]. }
  { intros j Hj. fold a. destruct (decide (k <= j < k + n)); [by rewrite Hat|].
    rewrite Hother; [by apply (tk_l2 _ _ _ Hok _ _ Hc)|]. intros (j' & Hj' & E). lia. }
  split.
  - constructor; try done; try (cbn; lia). eapply (supplies_frame a1 y st _ _ [] []); try done.
    intros s' Hs'. cbn [cspace y' with_pages set_cspace]. rewrite fn_lookup_insert_ne by (intros ->; by apply Hns).
    by apply (sk_empty _ _ _ Hs).
  - intros va Hva. destruct (decide _) as [[E Hr]|Hno].
    + rewrite (tr_table _ _ _ _ c Hok' Hva) by by rewrite E. rewrite (l2_kept _ _ _ _ _ _ Hok Hkept Hc). fold a. rewrite (Hat _ Hr).
      do 2 f_equal. apply page_entry_addr. rewrite Z_mod_plus by done. done.
    + destruct (decide (ARM_L1_OFFSET va = i)) as [E|]; [|by apply Htr].
      rewrite (tr_table _ _ _ _ c Hok' Hva), (tr_table _ _ _ _ c Hok Hva) by by rewrite E.
      rewrite (l2_kept _ _ _ _ _ _ Hok Hkept Hc), Hother; [done|]. fold a. intros (j & Hj & Ej).
      apply Hno. split; [done|]. assert (ARM_L2_OFFSET va = j) by lia. lia.
Qed.

(** * The loop *)

(** What a map node stands for: the addresses [u, w) of one table. *)
Definition node_covers (y : sys) (st : paging_state) (nd : paging_map_node) (u w : Z) : Prop :=
  exists i k n, l2_page_tables st i = Some (table nd) /\ u = i * 1048576 + k * 4096 /\ w = u + n * 4096
    /\ 0 <= k /\ 0 < n /\ k + n <= 256 /\ ctype (cspace y (mapping nd)) = ObjType_Mapping
    /\ pte (cspace y (mapping nd)) = get_address (cspace y (table nd)) + k * 4 /\ pte_count (cspace y (mapping nd)) = n.

(** The nodes of a mapping of [v, w), the last addresses first. *)
Fixpoint covers (y : sys) (st : paging_state) (l : list paging_map_node) (v w : Z) : Prop :=
  match l with
  | [] => v = w
  | nd :: l' => exists u, node_covers y st nd u w /\ covers y st l' v u
  end.

Lemma node_covers_step a1 y st y' st' nd u w : tables_ok a1 y st -> caps_kept y y' ->
  (forall i c, l2_page_tables st i = Some c -> l2_page_tables st' i = Some c) ->
  node_covers y st nd u w -> node_covers y' st' nd u w.
Proof.
  intros Hok Hk Hl (i & k & n & Hi & Eu & Ew & H1 & H2 & H3 & Ht & Hp & Hc). exists i, k, n.
  rewrite (l2_kept _ _ _ _ _ _ Hok Hk Hi), (Hk (mapping nd)) by by rewrite Ht. auto 10.
Qed.

Lemma covers_step a1 y st y' st' l v w : tables_ok a1 y st -> caps_kept y y' ->
  (forall i c, l2_page_tables st i = Some c -> l2_page_tables st' i = Some c) ->
  covers y st l v w -> covers y' st' l v w.
Proof.
  intros Hok Hk Hl. revert w. induction l as [|nd l IH]; intros w; cbn [covers]; [done|].
  intros (u & Hn & Hc). exists u. split; [by eapply node_covers_step|auto].
Qed.

Lemma covers_le y st l v w : covers y st l v w -> v <= w /\ (l = [] -> v = w) /\ (l <> [] -> v < w).
Proof.
  revert w. induction l as [|nd l IH]; intros w; cbn [covers]; [intros ->; split_and!; try done; lia|].
  intros (u & (i & k & n & _ & _ & -> & _ & Hn & _) & Hc). destruct (IH _ Hc) as [? _]. split_and!; [lia|done|lia].
Qed.

(** One round of the loop, without the node. *)
Lemma map_round a1 y st frame flags off vaddr n : tables_ok a1 y st -> supplies_ok a1 y st ->
  (3 <= length (slot_supply y))%nat -> (1 <= length (ram_supply y))%nat ->
  frame_ok (cspace y frame) -> flags_ok flags ->
  0 <= off -> off `mod` PAGE = 0 -> off + n * PAGE <= get_size (cspace y frame) -> off + n * PAGE < 2 ^ 32 ->
  0 <= vaddr < 2 ^ 31 -> vaddr `mod` PAGE = 0 -> 0 < n -> ARM_L2_OFFSET vaddr + n <= 256 -> tr a1 y vaddr = None ->
  exists c y1 st1 s y2 y3, get_l2 (ARM_L1_OFFSET vaddr) y st = Done (c, y1, st1)
    /\ slot_alloc y1 = (SYS_ERR_OK, s, y2)
    /\ vnode_map c frame (ARM_L2_OFFSET vaddr) flags off n s y2 = Done (SYS_ERR_OK, y3)
    /\ step_ok a1 3 1 y st y3 (slot_callback s st1) /\ ps_slabs st1 = ps_slabs st
    /\ (forall p, node_covers y3 (slot_callback s st1) (MapNode p c s) vaddr (vaddr + n * PAGE))
    /\ forall va, 0 <= va < 2 ^ 32 ->
       tr a1 y3 va = if decide (vaddr <= va < vaddr + n * PAGE)
                     then Some (get_address (cspace y frame) + off + (va - vaddr), ap10_of flags) else tr a1 y va.
Proof.
  intros Hok Hs Hls Hlr Hf Hfl Ho Hoa Hsz Hlt Hv Hva Hn Hk Hnone.
  destruct (va_split vaddr) as (Ev & Hi1 & Hk1 & _); [lia|]. unfold PAGE in Hva. rewrite Hva in Ev.
  assert (Hi : 0 <= ARM_L1_OFFSET vaddr < 2048) by (change (2 ^ 31) with 2147483648 in Hv; lia).
  destruct (get_l2_spec a1 y st (ARM_L1_OFFSET vaddr)) as (c & y1 & st1 & Eg & S1 & Esl & Hc & T1); [done|done|done|lia|lia|].
  pose proof (so_slots _ _ _ _ _ _ _ S1) as Hsl1.
  destruct (take_slot a1 y1 st1 (so_tables _ _ _ _ _ _ _ S1) (so_supplies _ _ _ _ _ _ _ S1))
    as (s & l & El & Ea & Es & Hnl & S2 & T2); [lia|]. set (y2 := set_slots l y1) in *.
  pose proof (so_tables _ _ _ _ _ _ _ S2) as Hok2. pose proof (so_supplies _ _ _ _ _ _ _ S2) as Hs2.
  assert (Ef : cspace y2 frame = cspace y frame).
  { apply (so_kept _ _ _ _ _ _ _ S1). destruct Hf as [[-> | ->] _]; done. }
  assert (He : ptm y2 (get_address (cspace y2 c) + ARM_L2_OFFSET vaddr * 4) = EntryInvalid).
  { rewrite <- T1, <- T2, (tr_table _ _ _ _ c Hok2) in Hnone by (done || lia).
    destruct (tk_l2 _ _ _ Hok2 _ _ Hc) as (_ & _ & _ & _ & Hpi). specialize (Hpi _ Hk1). by destruct (ptm y2 _). }
  destruct (with_pages_ok a1 y2 st1 _ c (ARM_L2_OFFSET vaddr) off n flags s (cspace y frame) Hok2 Hs2 Hc Es)
    as [S3 T3]; [exact Hnl|lia|lia|lia| |].
  { destruct Hf as (_ & Hfa & _). unfold PAGE in *. by rewrite Zplus_mod, Hfa, Hoa. }
  set (y3 := with_pages _ _ _ _ _ _ _ _) in *.
  assert (S4 : step_ok a1 0 0 y3 st1 y3 (slot_callback s st1)) by (apply step_state; try done; apply S3).
  assert (E3 : cspace y3 s = mapping_cap (cspace y frame) (get_address (cspace y2 c) + ARM_L2_OFFSET vaddr * 4) off n)
    by apply fn_lookup_insert.
  exists c, y1, st1, s, y2, y3. split_and!; try done.
  - rewrite (vnode_map_pages a1 y2 st1 (ARM_L1_OFFSET vaddr)); rewrite ?Ef; try done; lia.
  - exact (step_trans _ _ _ _ _ _ _ _ _ _ _ (step_trans _ _ _ _ _ _ _ _ _ _ _ (step_trans _ _ _ _ _ _ _ _ _ _ _ S1 S2) S3) S4).
  - intros p. exists (ARM_L1_OFFSET vaddr), (ARM_L2_OFFSET vaddr), n. cbn [table mapping]. rewrite E3.
    rewrite (l2_kept _ _ _ _ _ _ Hok2 (so_kept _ _ _ _ _ _ _ S3) Hc). unfold PAGE. split_and!; try done; lia.
  - intros va Hvr. rewrite T3, T2, T1 by done.
    pose proof (segment vaddr n va ltac:(lia) Hva Hvr ltac:(lia) Hk) as Hseg.
    destruct (va_split va Hvr) as (Ev2 & _). unfold PAGE in *.
    destruct (decide _) as [Hin|Hout], (decide _) as [Hin'|Hout']; try done; [|tauto|tauto].
    do 2 f_equal. lia.
Qed.

Lemma node_alloc_spec a1 y st used : tables_ok a1 y st -> supplies_ok a1 y st ->
  pool_holds (ps_slabs st) used -> (length used < capacity (ps_slabs st))%nat ->
  exists p a, node_alloc st = Done (p, set_ps_slabs a st) /\ pool_holds a (p :: used) /\ capacity a = capacity (ps_slabs st)
    /\ step_ok a1 0 0 y st y (set_ps_slabs a st).
Proof.
  intros Hok Hs Hp Hlen. destruct (pool_alloc _ _ Hp Hlen) as (a & p & Ea & Hnz & Hp' & Hc). exists p, a.
  split_and!; try done; [|by apply step_state]. unfold node_alloc. rewrite Ea. step. unfold NULL in Hnz. by zdecide.
Qed.

(** The size of a round, in pages. *)
Lemma round_size bytes k : 0 < bytes -> bytes `mod` PAGE = 0 -> 0 <= k < 256 ->
  exists n, Z.min bytes ((256 - k) * PAGE) = n * PAGE /\ Z.min bytes ((256 - k) * PAGE) / PAGE = n /\ 0 < n /\ k + n <= 256
    /\ (n * PAGE = bytes \/ (k + n = 256 /\ n * PAGE < bytes)).
Proof.
  intros Hb Hba Hk. unfold PAGE in *. pose proof (Z.div_mod bytes 4096 ltac:(lia)) as E.
  destruct (Z.le_gt_cases bytes ((256 - k) * 4096)).
  - exists (bytes / 4096). rewrite Z.min_l by done. split_and!; try done; lia.
  - exists (256 - k). rewrite Z.min_r, Z.div_mul by lia. split_and!; lia.
Qed.

Lemma map_loop_end fuel r frame flags off vaddr acc y st :
  map_loop fuel r frame flags off 0 vaddr acc y st = Done (acc, y, st).
Proof. by destruct fuel. Qed.

(** The first address of the next table. *)
Lemma next_table vaddr n : 0 <= vaddr < 2 ^ 31 -> vaddr `mod` PAGE = 0 -> ARM_L2_OFFSET vaddr + n = 256 ->
  vaddr + n * PAGE = (ARM_L1_OFFSET vaddr + 1) * 1048576 /\
  (vaddr + n * PAGE < 2 ^ 32 -> ARM_L1_OFFSET (vaddr + n * PAGE) = ARM_L1_OFFSET vaddr + 1).
Proof.
  intros Hv Ha Hn. destruct (va_split vaddr ltac:(lia)) as (Ev & Hi & Hk & _). unfold PAGE in *. rewrite Ha in Ev.
  assert (E : vaddr + n * 4096 = (ARM_L1_OFFSET vaddr + 1) * 1048576) by lia. split; [done|]. intros Hlt.
  rewrite E. destruct (va_indices (ARM_L1_OFFSET vaddr + 1) 0 0) as [E1 _]; [|lia|lia|].
  - rewrite E in Hlt. change (2 ^ 32) with 4294967296 in Hlt. lia.
  - rewrite <- E1 at 2. f_equal. lia.
Qed.

Section Loop.
Context (a1 frame flags v0 : Z).

(** Mapping [bytes] bytes of the frame from [off] on at [vaddr] is possible:
    [m] tables are concerned. *)
Record can_map (m : nat) (off bytes vaddr : Z) (y : sys) (st : paging_state) (used : list Z) : Prop := {
  cm_tables : tables_ok a1 y st;
  cm_supplies : supplies_ok a1 y st;
  cm_slots : (3 * m <= length (slot_supply y))%nat;
  cm_ram : (m <= length (ram_supply y))%nat;
  cm_pool : pool_holds (ps_slabs st) used;
  cm_nodes : (length used + m <= capacity (ps_slabs st))%nat;
  cm_frame : frame_ok (cspace y frame);
  cm_flags : flags_ok flags;
  cm_off : 0 <= off /\ off `mod` PAGE = 0 /\ off + bytes <= get_size (cspace y frame) /\ off + bytes < 2 ^ 32;
  cm_bytes : 0 <= bytes /\ bytes `mod` PAGE = 0;
  cm_vaddr : 0 <= vaddr /\ vaddr `mod` PAGE = 0 /\ vaddr + bytes <= 2 ^ 31
             /\ vaddr + bytes <= (ARM_L1_OFFSET vaddr + Z.of_nat m) * 1048576;
  cm_free : forall va, vaddr <= va < vaddr + bytes -> tr a1 y va = None
}.

(** The state after a round can map the rest. *)
Lemma can_map_next m off bytes vaddr y st used n p y' st' : can_map (S m) off bytes vaddr y st used ->
  0 < n -> (n * PAGE = bytes \/ (ARM_L2_OFFSET vaddr + n = 256 /\ n * PAGE < bytes)) ->
  step_ok a1 3 1 y st y' st' -> pool_holds (ps_slabs st') (p :: used) -> capacity (ps_slabs st') = capacity (ps_slabs st) ->
  (forall va, 0 <= va < 2 ^ 32 -> ~ (vaddr <= va < vaddr + n * PAGE) -> tr a1 y' va = tr a1 y va) ->
  n * PAGE < bytes ->
  can_map m (off + n * PAGE) (bytes - n * PAGE) (vaddr + n * PAGE) y' st' (p :: used).
Proof.
  intros [Hok Hs Hls Hlr Hp Hcap Hf Hfl (? & Ho & ? & ?) (? & Hb) (? & Hv & ? & Hend) Hfree] Hn Hcase Hst Hp' Hc Htr Hlt.
  destruct Hcase as [|[Hk _]]; [lia|]. pose proof (so_slots _ _ _ _ _ _ _ Hst). pose proof (so_ram _ _ _ _ _ _ _ Hst).
  assert (Ef : cspace y' frame = cspace y frame) by (apply (so_kept _ _ _ _ _ _ _ Hst); destruct Hf as [[-> | ->] _]; done).
  assert (0 < n * PAGE) by (unfold PAGE; lia). destruct (next_table vaddr n) as [En Ei]; [lia|done|done|]. unfold PAGE in *. constructor; rewrite ?Ef; try done; try lia.
  - apply Hst.
  - apply Hst.
  - rewrite Hc. simpl. lia.
  - rewrite Z_mod_plus by done. split_and!; try done; lia.
  - split; [lia|]. rewrite <- (Z_mod_plus bytes (- n) 4096) in Hb by done. by replace (bytes - n * 4096) with (bytes + - n * 4096) by lia.
  - rewrite Z_mod_plus by done. rewrite Ei by lia. split_and!; try done; lia.
  - intros va Hva. rewrite Htr by lia. apply Hfree. lia.
Qed.

(** What [bytes] mapped bytes mean: the nodes [l] are new. *)
Record mapped_by (ns nr : nat) (off bytes vaddr : Z) (acc : list paging_map_node) (y : sys) (st : paging_state)
  (used : list Z) (l : list paging_map_node) (y' : sys) (st' : paging_state) : Prop := {
  mb_step : step_ok a1 ns nr y st y' st';
  mb_pool : pool_holds (ps_slabs st') ((mn_block <$> l) ++ used);
  mb_covers : covers y' st' (l ++ acc) v0 (vaddr + bytes);
  mb_tr : forall va, 0 <= va < 2 ^ 32 ->
    tr a1 y' va = if decide (vaddr <= va < vaddr + bytes)
                  then Some (get_address (cspace y frame) + off + (va - vaddr), ap10_of flags) else tr a1 y va
}.

Lemma mapped_none off vaddr acc y st used : tables_ok a1 y st -> supplies_ok a1 y st ->
  pool_holds (ps_slabs st) used -> covers y st acc v0 vaddr -> mapped_by 0 0 off 0 vaddr acc y st used [] y st.
Proof.
  intros Hok Hs Hp Hc. constructor; rewrite ?Z.add_0_r; try done; [by apply step_refl|].
  intros va Hva. destruct (decide _); [lia|done].
Qed.

Lemma mapped_more ns nr ns' nr' off n bytes vaddr acc y st used l y' st' l2 y2 st2 :
  frame_ok (cspace y frame) -> 0 <= n <= bytes ->
  mapped_by ns nr off n vaddr acc y st used l y' st' ->
  mapped_by ns' nr' (off + n) (bytes - n) (vaddr + n) (l ++ acc) y' st' ((mn_block <$> l) ++ used) l2 y2 st2 ->
  mapped_by (ns + ns') (nr + nr') off bytes vaddr acc y st used (l2 ++ l) y2 st2.
Proof.
  intros Hf Hn [S1 _ _ T1] [S2 P2 C2 T2]. constructor.
  - by eapply step_trans.
  - by rewrite fmap_app, <- app_assoc.
  - rewrite <- app_assoc. by replace (vaddr + n + (bytes - n)) with (vaddr + bytes) in C2 by lia.
  - intros va Hva. rewrite T2, T1 by done. rewrite (so_kept _ _ _ _ _ _ _ S1) by (destruct Hf as [[-> | ->] _]; done).
    repeat destruct (decide _); try done; try lia. do 2 f_equal. lia.
Qed.

(** One round of the loop. *)
Lemma map_loop_round m fuel off bytes vaddr acc y st used : can_map (S m) off bytes vaddr y st used ->
  0 < bytes -> covers y st acc v0 vaddr ->
  exists n nd y' st', map_loop (S fuel) true frame flags off bytes vaddr acc y st
      = map_loop fuel true frame flags (off + n) (bytes - n) (vaddr + n) (nd :: acc) y' st'
    /\ 0 < n <= bytes /\ mapped_by 3 1 off n vaddr acc y st used [nd] y' st'
    /\ (n < bytes -> can_map m (off + n) (bytes - n) (vaddr + n) y' st' (mn_block nd :: used)).
Proof.
  intros Hc Hnz Hacc. pose proof Hc as [Hok Hs Hls Hlr Hp Hcap Hf Hfl (? & Ho & ? & ?) (Hb0 & Hb) (? & Hv & Hmax & Hend) Hfree].
  destruct (va_split vaddr) as (_ & _ & Hk & _); [lia|].
  destruct (round_size bytes (ARM_L2_OFFSET vaddr)) as (n & En & En' & Hn & Hkn & Hcase); [lia|done|done|].
  assert (HnP : 0 < n * PAGE <= bytes) by (unfold PAGE; split; [lia|]; unfold PAGE in *; lia).
  destruct (map_round a1 y st frame flags off vaddr n) as (c & y1 & st1 & s & y2 & y3 & Eg & Ea & Em & Sr & Esl & Hnode & Tr);
    try done; try lia; [apply Hfree; lia|].
  rewrite <- Esl in Hp, Hcap.
  destruct (node_alloc_spec a1 y3 (slot_callback s st1) used) as (p & a & En2 & Hp' & Hc' & Sn);
    [apply Sr|apply Sr|done|cbn; lia|].
  pose proof (step_trans _ _ _ _ _ _ _ _ _ _ _ Sr Sn) as S'. set (st' := set_ps_slabs a (slot_callback s st1)) in *.
  exists (n * PAGE), (MapNode p c s), y3, st'. split_and!; try lia.
  - cbn [map_loop]. zdecide. rewrite Eg. step. rewrite Ea. cbn [CHECK err_is_fail SYS_ERR_OK]. step.
    unfold ARM_L2_MAX_ENTRIES. rewrite En', Em. cbn [CHECK err_is_fail SYS_ERR_OK]. step. rewrite En2. step.
    by rewrite En, !u32_small by (unfold PAGE in *; lia).
  - constructor; try done. exists vaddr. split; [apply (Hnode p)|].
    eapply covers_step; [exact Hok|apply S'|apply S'|done].
  - intros Hlt. eapply (can_map_next m off bytes vaddr y st); try done; [cbn; rewrite Hc'; cbn; by rewrite Esl|].
    intros va Hva Hout. rewrite Tr by done. by destruct (decide _).
Qed.

(** The loop maps the whole range, and records it. *)
Lemma map_loop_spec m : forall fuel off bytes vaddr acc y st used, can_map m off bytes vaddr y st used ->
  (m <= fuel)%nat -> covers y st acc v0 vaddr ->
  exists l y' st', map_loop fuel true frame flags off bytes vaddr acc y st = Done (l ++ acc, y', st')
    /\ mapped_by (3 * m) m off bytes vaddr acc y st used l y' st'.
Proof.
  assert (Hw : forall k off bytes vaddr acc y st used l y' st',
    mapped_by 0 0 off bytes vaddr acc y st used l y' st' -> mapped_by (3 * k) k off bytes vaddr acc y st used l y' st').
  { intros k * []. constructor; try done. apply (step_weaken a1 0 0); [lia..|done]. }
  induction m as [|m IH]; intros fuel off bytes vaddr acc y st used Hc Hfuel Hacc;
    pose proof Hc as [Hok Hs _ _ Hp _ Hf _ _ [Hb0 _] (? & _ & Hmax & Hend) _].
  all: destruct (Z.eq_dec bytes 0) as [->|Hnz];
    [exists [], y, st; rewrite map_loop_end; split; [done|by apply Hw, mapped_none]|].
  { destruct (va_split vaddr) as (Ev & ? & ? & ?); lia. }
  destruct fuel as [|fuel]; [lia|].
  destruct (map_loop_round m fuel off bytes vaddr acc y st used) as (n & nd & y1 & st1 & -> & Hn & M1 & Hnext); [done|lia|done|].
  assert (Hcov : covers y1 st1 (nd :: acc) v0 (vaddr + n)) by apply M1.
  destruct (Z.eq_dec n bytes) as [->|Hlt].
  - exists [nd], y1, st1. rewrite Z.sub_diag, map_loop_end. split; [done|]. destruct M1 as [S1 P1 C1 T1].
    constructor; try done. apply (step_weaken a1 3 1); [lia..|done].
  - destruct (IH fuel _ _ _ (nd :: acc) y1 st1 (mn_block nd :: used) (Hnext ltac:(lia))) as (l & y2 & st2 & -> & M2); [lia|done|].
    exists (l ++ [nd]), y2, st2. rewrite <- app_assoc. split; [done|].
    replace (3 * S m)%nat with (3 + 3 * m)%nat by lia. change (S m) with (1 + m)%nat.
    eapply (mapped_more 3 1 _ _ off n bytes); [done|lia|exact M1|exact M2].
Qed.
End Loop.
