(* ===== verification/PagingCorrect.v ===== *)
(** Correctness of the paging library together with the kernel's page tables:
    a mapped frame is what the hardware translates the addresses to, unmapping
    takes exactly that away, and the virtual addresses that are handed out do
    not overlap. *)
From S2P Require Import Prelude Mmu Slab Paging PagingTables.

(** * The invariant *)

Definition node_blocks (u : paging_used_node) : list Z := un_block u :: (mn_block <$> map_list u).

(** The slab blocks of the list nodes. *)
Definition blocks_of (st : paging_state) : list Z := (fn_block <$> free_next st) ++ (mappings st ≫= node_blocks).

Definition in_range (u : paging_used_node) (va : Z) : Prop := start_addr u <= va < start_addr u + un_size u.

Definition ranges_apart (u w : paging_used_node) : Prop :=
  start_addr u + un_size u <= start_addr w \/ start_addr w + un_size w <= start_addr u.

Record paging_ok (a1 : Z) (y : sys) (st : paging_state) : Prop := {
  pk_tables : tables_ok a1 y st;
  pk_supplies : supplies_ok a1 y st;
  pk_pool : pool_holds (ps_slabs st) (blocks_of st);
  pk_cover : forall u, u ∈ mappings st ->
    covers y st (map_list u) (start_addr u) (start_addr u + un_size u)
    /\ 0 < un_size u /\ 0 <= start_addr u /\ start_addr u + un_size u <= 2 ^ 31;
  pk_mapped : forall u va, u ∈ mappings st -> in_range u va -> is_Some (tr a1 y va);
  pk_apart : StronglySorted ranges_apart (mappings st)
}.

(** * Mapping *)

(** The number of second-level tables of a range. *)
Definition tables_of (vaddr bytes : Z) : nat :=
  Z.to_nat (ARM_L1_OFFSET (vaddr + bytes - 1) - ARM_L1_OFFSET vaddr + 1).

Lemma tables_of_spec vaddr bytes : 0 <= vaddr -> 0 < bytes -> bytes `mod` PAGE = 0 -> vaddr + bytes <= 2 ^ 31 ->
  vaddr + bytes <= (ARM_L1_OFFSET vaddr + Z.of_nat (tables_of vaddr bytes)) * 1048576
  /\ (tables_of vaddr bytes <= map_fuel bytes)%nat.
Proof.
  intros Hv Hb Hba Hend. destruct (va_split vaddr) as (E1 & ? & ? & ?); [lia|].
  destruct (va_split (vaddr + bytes - 1)) as (E2 & ? & ? & ?); [lia|]. unfold tables_of, map_fuel, PAGE in *.
  pose proof (Z.div_mod bytes 4096 ltac:(lia)) as E3. rewrite Hba in E3.
  assert (0 <= bytes / 4096) by (apply Z.div_pos; lia). lia.
Qed.

(** A block of a pool can be found free. *)
Lemma pool_freecount a used : pool_holds a used -> (length used < capacity a)%nat -> slab_freecount a <> 0.
Proof.
  intros (fls & Hinv & Hp) Hlt. rewrite (freecount_spec _ _ Hinv).
  assert (Hlen : (length (concat fls) <= Z.to_nat (2 ^ 32 - 1))%nat).
  { rewrite <- (length_seqZ 1 (2 ^ 32 - 1)). apply submseteq_length, NoDup_submseteq; [by eapply free_nodup|].
    intros b Hb. apply elem_of_seqZ. apply (free_in_all _ _ _ Hinv) in Hb.
    destruct Hinv as (Hbs & Hok & _). apply list_elem_of_bind in Hb as (sh & Hb & [i Hi]%list_elem_of_lookup).
    destruct (Forall2_lookup_l _ _ _ _ _ Hok Hi) as (fl & _ & Hsh).
    pose proof (slab_block_nonnull _ _ Hbs _ _ _ Hsh Hb). lia. }
  unfold capacity in Hlt. rewrite <- Hp, length_app in Hlt. rewrite u32_small by lia. lia.
Qed.

Section Map.
Context (a1 : Z) (y : sys) (st : paging_state) (vaddr frame bytes flags : Z).

(** What a caller of the mapping functions has to provide. *)
Record map_request : Prop := {
  mr_frame : frame_ok (cspace y frame) /\ bytes <= get_size (cspace y frame);
  mr_flags : flags_ok flags;
  mr_bytes : 0 < bytes /\ bytes `mod` PAGE = 0;
  mr_vaddr : 0 <= vaddr /\ vaddr `mod` PAGE = 0 /\ vaddr + bytes <= 2 ^ 31;
  mr_free : forall va, vaddr <= va < vaddr + bytes -> tr a1 y va = None;
  mr_slots : (3 * tables_of vaddr bytes <= length (slot_supply y))%nat;
  mr_ram : (tables_of vaddr bytes <= length (ram_supply y))%nat;
  mr_nodes : (length (blocks_of st) + 1 + tables_of vaddr bytes <= capacity (ps_slabs st))%nat
}.

(** The new mapping as part of the invariant. *)
Lemma paging_ok_add ns nr p l y' st' : paging_ok a1 y st -> map_request ->
  mapped_by a1 frame flags vaddr ns nr 0 bytes vaddr [] y st (p :: blocks_of st) l y' st' ->
  paging_ok a1 y' (set_mappings (UsedNode p vaddr bytes l :: mappings st') st').
Proof.
  intros Hok Hr [Hst Hp Hc Ht]. destruct Hst as [Hok' Hs' _ _ Hk Hl2 (Efv & Ef & Em)].
  rewrite app_nil_r in Hc. constructor; cbn [mappings set_mappings]; rewrite ?Em.
  - by eapply (tables_frame a1 y').
  - eapply (supplies_frame a1 y' st' _ _ [] []); try done. apply Hs'.
  - eapply pool_perm; [|exact Hp]. unfold blocks_of. cbn [mappings set_mappings free_next]. rewrite Ef.
    cbn [mbind list_bind]. unfold node_blocks at 2. cbn [un_block map_list]. cbn [app].
    rewrite <- !Permutation_middle. f_equiv.
    by rewrite !app_assoc, (Permutation_app_comm (mn_block <$> l) (fn_block <$> free_next st)).
  - intros u [->|Hu]%elem_of_cons.
    + cbn [map_list start_addr un_size]. destruct Hr as [_ _ [? _] (? & _ & ?) _ _ _ _]. split; [|done].
      by eapply (covers_step a1 y' st').
    + destruct (pk_cover _ _ _ Hok u Hu) as (Hcov & Hrest). split; [|done].
      eapply (covers_step a1 y st); try done. apply Hok.
  - intros u va [->|Hu]%elem_of_cons Hin.
    + unfold in_range in Hin. cbn [start_addr un_size] in Hin. change (tr a1 (set_ptm (ptm y') y') va) with (tr a1 y' va).
      rewrite Ht; [by rewrite decide_True|]. destruct Hr as [_ _ _ (? & _ & ?) _ _ _ _]. lia.
    + destruct (pk_mapped _ _ _ Hok u va Hu Hin) as [x Hx]. destruct (pk_cover _ _ _ Hok u Hu) as (_ & ? & ? & ?).
      unfold in_range in Hin. rewrite Ht by lia. destruct (decide _); [by eexists|by exists x].
  - constructor; [apply Hok|]. apply Forall_forall. intros u Hu. destruct (pk_cover _ _ _ Hok u Hu) as (_ & Hz & ? & ?).
    unfold ranges_apart. cbn [start_addr un_size].
    assert (Hno : forall va, in_range u va -> ~ (vaddr <= va < vaddr + bytes)).
    { intros va Hin Hva. destruct (pk_mapped _ _ _ Hok u va Hu Hin) as [x Hx]. rewrite (mr_free Hr va Hva) in Hx. done. }
    destruct (mr_bytes Hr) as [Hb _]. unfold in_range in Hno.
    pose proof (Hno vaddr). pose proof (Hno (start_addr u)). lia.
Qed.

Lemma map_fixed_spec : paging_ok a1 y st -> map_request ->
  exists p l y' st', paging_map_fixed_attr vaddr frame bytes flags y st
      = Done (y', set_mappings (UsedNode p vaddr bytes l :: mappings st') st')
    /\ mapped_by a1 frame flags vaddr (3 * tables_of vaddr bytes) (tables_of vaddr bytes) 0 bytes vaddr [] y st (p :: blocks_of st) l y' st'.
Proof.
  intros Hok Hr. pose proof Hr as [[Hf Hsz] Hfl [Hb Hba] (Hv & Hva & Hend) Hfree Hslots Hram Hnodes].
  destruct (tables_of_spec vaddr bytes) as [Hm Hfuel]; try done.
  destruct (node_alloc_spec a1 y st (blocks_of st)) as (p & a & Ea & Hp & Hc & Sn); try apply Hok; [lia|].
  unfold paging_map_fixed_attr.
  pose proof (pool_freecount _ _ (pk_pool _ _ _ Hok) ltac:(lia)) as Hfc. zdecide. step. rewrite Ea. step.
  destruct (map_loop_spec a1 frame flags vaddr (tables_of vaddr bytes) (map_fuel bytes) 0 bytes vaddr [] y
    (set_ps_slabs a st) (p :: blocks_of st)) as (l & y' & st' & El & M); [|done|done|].
  { constructor; try done; try apply Sn; cbn [ps_slabs set_ps_slabs length]; rewrite ?Hc; try lia. split_and!; try done; lia. }
  rewrite El. step. rewrite app_nil_r. exists p, l, y', st'. split; [done|].
  destruct M as [S P C T]. constructor; try done. by apply (step_trans a1 0 0 _ _ y st y (set_ps_slabs a st)).
Qed.
End Map.

(** * Unmapping *)

(** The kernel clears the entries of a node. *)
Lemma vnode_unmap_spec a1 y st nd u w : tables_ok a1 y st -> supplies_ok a1 y st -> node_covers y st nd u w ->
  0 <= u -> w <= 2 ^ 31 ->
  exists m, vnode_unmap (table nd) (mapping nd) y = Done (set_ptm m y) /\ step_ok a1 0 0 y st (set_ptm m y) st
    /\ forall va, 0 <= va < 2 ^ 32 -> tr a1 (set_ptm m y) va = if decide (u <= va < w) then None else tr a1 y va.
Proof.
  intros Hok Hs (i & k & n & Hi & -> & -> & Hk & Hn & Hkn & Ht & Hp & Hc) Hu Hw.
  destruct (tk_l2 _ _ _ Hok _ _ Hi) as (Hir & Htt & Hpl & He & Hpi). set (a := get_address (cspace y (table nd))) in *.
  exists (clear_entries (Z.to_nat n) (a + k * 4) (ptm y)). set (y' := set_ptm _ y).
  assert (Hat : forall j, k <= j < k + n -> ptm y' (a + j * 4) = EntryInvalid).
  { intros j Hj. replace (a + j * 4) with (a + k * 4 + 4 * (j - k)) by lia. apply clear_entries_at. lia. }
  assert (Hother : forall p, ~ (exists j, k <= j < k + n /\ p = a + j * 4) -> ptm y' p = ptm y p).
  { intros p Hpn. apply clear_entries_other. intros (j & Hj & ->). apply Hpn. exists (k + j). lia. }
  assert (Hkept : caps_kept y y') by by intros ?.
  destruct (table_change a1 y st y' i (table nd) Hok Hi Hkept) as [Hok' Htr].
  { intros p Hpn. apply Hother. intros (j & Hj & ->). apply Hpn. exists j. split; [lia|done]. }
  { intros j Hj. fold a. destruct (decide (k <= j < k + n)); [by rewrite Hat|].
    rewrite Hother; [by apply Hpi|]. intros (j' & Hj' & E). lia. }
  split_and!.
  - unfold vnode_unmap, page_mappings_unmap. rewrite Htt, Ht. decide_types. cbn [assert]. step.
    rewrite Hp, Hc. fold a. unfold do_unmap. replace ((a + k * 4 - a) / 4) with k; [done|].
    replace (a + k * 4 - a) with (k * 4) by lia. by rewrite Z.div_mul.
  - constructor; try done; try (cbn; lia). eapply (supplies_frame a1 y st _ _ [] []); try done. apply Hs.
  - intros va Hva. destruct (va_split va Hva) as (Eva & Hi1 & Hk1 & Hm1).
    pose proof (va_indices i k 0 ltac:(lia) ltac:(lia) ltac:(lia)) as [E1 E2]. rewrite Z.add_0_r in E1, E2.
    pose proof (segment (i * 1048576 + k * 4096) n va ltac:(lia)) as Hseg. rewrite E1, E2 in Hseg.
    specialize (Hseg ltac:(replace (i * 1048576 + k * 4096) with ((i * 256 + k) * 4096) by lia; by rewrite Z_mod_mult)
      Hva ltac:(lia) Hkn).
    destruct (decide _) as [Hin|Hout].
    + apply Hseg in Hin as [E Hr]. rewrite (tr_table _ _ _ _ (table nd) Hok' Hva) by by rewrite E.
      change (cspace y' (table nd)) with (cspace y (table nd)). fold a. by rewrite (Hat _ Hr).
    + destruct (decide (ARM_L1_OFFSET va = i)) as [E|]; [|by apply Htr].
      rewrite (tr_table _ _ _ _ (table nd) Hok' Hva), (tr_table _ _ _ _ (table nd) Hok Hva) by by rewrite E.
      change (cspace y' (table nd)) with (cspace y (table nd)). rewrite Hother; [done|]. fold a.
      intros (j & Hj & Ej). apply Hout, Hseg. split; [done|]. lia.
Qed.

Lemma unmap_nodes_spec a1 l : forall y st v w used, tables_ok a1 y st -> supplies_ok a1 y st ->
  covers y st l v w -> 0 <= v -> w <= 2 ^ 31 -> pool_holds (ps_slabs st) ((mn_block <$> l) ++ used) ->
  exists y' st', unmap_nodes l y st = Done (y', st') /\ step_ok a1 0 0 y st y' st'
    /\ pool_holds (ps_slabs st') used /\ capacity (ps_slabs st') = capacity (ps_slabs st)
    /\ forall va, 0 <= va < 2 ^ 32 -> tr a1 y' va = if decide (v <= va < w) then None else tr a1 y va.
Proof.
  induction l as [|nd l IH]; intros y st v w used Hok Hs Hc Hv Hw Hp; cbn [covers] in Hc.
  { exists y, st. subst w. split_and!; try done; [by apply step_refl|]. intros va Hva. destruct (decide _); [lia|done]. }
  destruct Hc as (u & Hn & Hc). destruct (covers_le _ _ _ _ _ Hc) as [Hvu _].
  assert (Huw : u < w) by (destruct Hn as (? & ? & ? & _ & _ & -> & _ & ? & _); lia).
  destruct (vnode_unmap_spec a1 y st nd u w) as (m & Em & S1 & T1); [done|done|done|lia|lia|].
  destruct (pool_free _ _ _ Hp) as (a & Ea & Hp' & Hcap).
  set (st1 := set_ps_slabs a st).
  assert (S2 : step_ok a1 0 0 (set_ptm m y) st (set_ptm m y) st1) by (apply step_state; try done; apply S1).
  pose proof (step_trans _ _ _ _ _ _ _ _ _ _ _ S1 S2) as S12.
  destruct (IH (set_ptm m y) st1 v u used) as (y' & st' & E' & S3 & Hp3 & Hc3 & T3); try done; try lia; try apply S2.
  { eapply covers_step; [exact Hok|apply S12|apply S12|done]. }
  exists y', st'. cbn [unmap_nodes]. rewrite Em. step. rewrite Ea. step. fold st1. rewrite E'. split_and!; try done.
  - by apply (step_trans a1 0 0 0 0 y st (set_ptm m y) st1).
  - by rewrite Hc3.
  - intros va Hva. rewrite T3, T1 by done. repeat destruct (decide _); try done; lia.
Qed.

Lemma find_mapping_spec region l : region ∈ (start_addr <$> l) ->
  exists l1 u l2, l = l1 ++ u :: l2 /\ start_addr u = region /\ find_mapping region l = Done (u, l1 ++ l2).
Proof.
  induction l as [|n l IH]; cbn [fmap list_fmap]; [by intros ?%elem_of_nil|]. intros Hin. cbn [find_mapping].
  destruct (Z.eqb_spec (start_addr n) region) as [E|Hne].
  - exists [], n, l. done.
  - apply elem_of_cons in Hin as [->|Hin]; [done|]. destruct (IH Hin) as (l1 & u & l2 & -> & Hu & ->).
    exists (n :: l1), u, l2. done.
Qed.

Section Unmap.
Context (a1 : Z) (y : sys) (st : paging_state) (l1 l2 : list paging_used_node) (u : paging_used_node).
Hypothesis (Hok : paging_ok a1 y st) (El : mappings st = l1 ++ u :: l2).

Definition rest_blocks : list Z := (fn_block <$> free_next st) ++ ((l1 ++ l2) ≫= node_blocks).

Lemma unmap_pool : pool_holds (ps_slabs st) ((mn_block <$> map_list u) ++ un_block u :: rest_blocks).
Proof.
  eapply pool_perm; [|apply (pk_pool _ _ _ Hok)]. unfold blocks_of, rest_blocks. rewrite El, !bind_app. cbn [mbind list_bind].
  unfold node_blocks at 2. cbn [app].
  rewrite <- !Permutation_middle. f_equiv.
  by rewrite (Permutation_app_swap_app (l1 ≫= node_blocks)), (Permutation_app_swap_app (fn_block <$> free_next st)).
Qed.

(** The invariant without the mapping. *)
Lemma paging_ok_remove y' st' f : step_ok a1 0 0 y (set_mappings (l1 ++ l2) st) y' st' ->
  (forall va, 0 <= va < 2 ^ 32 -> tr a1 y' va = if decide (in_range u va) then None else tr a1 y va) ->
  forall st'', same_tables st' st'' -> free_next st'' = f :: free_next st -> mappings st'' = l1 ++ l2 ->
  pool_holds (ps_slabs st'') (fn_block f :: rest_blocks) -> paging_ok a1 y' st''.
Proof.
  intros [Hok' Hs' _ _ Hk Hl2 _] Ht st'' Hsame Ef Em Hp.
  assert (Hsub : forall w, w ∈ l1 ++ l2 -> w ∈ mappings st).
  { intros w. rewrite El, !elem_of_app, elem_of_cons. tauto. }
  assert (Hap : forall w, w ∈ l1 ++ l2 -> ranges_apart u w).
  { pose proof (pk_apart _ _ _ Hok) as Hs. rewrite El in Hs. intros w [Hw|Hw]%elem_of_app.
    - apply StronglySorted_app in Hs as (H1 & _ & _). specialize (H1 w u Hw ltac:(by left)). unfold ranges_apart in *. lia.
    - apply StronglySorted_app_1_r, StronglySorted_inv in Hs as [_ Hf]. rewrite Forall_forall in Hf. auto. }
  constructor; rewrite ?Em.
  - by eapply (tables_frame a1 y' st').
  - eapply (supplies_frame a1 y' st' _ _ [] []); try done. apply Hs'.
  - unfold blocks_of. rewrite Ef, Em. exact Hp.
  - intros w Hw. destruct (pk_cover _ _ _ Hok w (Hsub w Hw)) as (Hc & Hr). split; [|done].
    eapply (covers_step a1 y' st'); [done|done|destruct Hsame as [_ ->]; done|].
    eapply (covers_step a1 y st); [apply Hok|done|done|done].
  - intros w va Hw Hin. destruct (pk_cover _ _ _ Hok w (Hsub w Hw)) as (_ & ? & ? & ?). unfold in_range in Hin.
    rewrite Ht by lia. rewrite decide_False; [by apply (pk_mapped _ _ _ Hok w); auto|].
    unfold in_range. pose proof (Hap w Hw) as [?|?]; lia.
  - pose proof (pk_apart _ _ _ Hok) as Hs. rewrite El in Hs. apply StronglySorted_app in Hs as (H1 & H2 & H3).
    apply StronglySorted_app. split_and!; [|done|by apply StronglySorted_inv in H3 as [? _]].
    intros x1 x2 Hx1 Hx2. apply H1; [done|by right].
Qed.

Lemma unmap_spec : find_mapping (start_addr u) (mappings st) = Done (u, l1 ++ l2) ->
  exists p y' st', paging_unmap (start_addr u) y st = Done (y', st') /\ paging_ok a1 y' st'
    /\ free_next st' = FrameNode p (start_addr u) (un_size u) :: free_next st /\ free_vspace st' = free_vspace st
    /\ mappings st' = l1 ++ l2
    /\ forall va, 0 <= va < 2 ^ 32 -> tr a1 y' va = if decide (in_range u va) then None else tr a1 y va.
Proof.
  intros Ef. assert (Hu : u ∈ mappings st) by (rewrite El; apply elem_of_app; right; by left).
  destruct (pk_cover _ _ _ Hok u Hu) as (Hc & Hsz & Hst & Hend). set (st0 := set_mappings (l1 ++ l2) st).
  assert (Hok0 : tables_ok a1 y st0) by (by eapply (tables_frame a1 y st); try apply Hok).
  assert (Hs0 : supplies_ok a1 y st0) by (eapply (supplies_frame a1 y st _ _ [] []); try apply Hok; done).
  destruct (unmap_nodes_spec a1 (map_list u) y st0 (start_addr u) (start_addr u + un_size u) (un_block u :: rest_blocks))
    as (y1 & st1 & E1 & S1 & Hp1 & Hc1 & T1); [done|done| |done|done|apply unmap_pool|].
  { eapply (covers_step a1 y st); [apply Hok|by intros ?|done|done]. }
  assert (Hlen : (length (un_block u :: rest_blocks) < capacity (ps_slabs st1))%nat).
  { rewrite Hc1. pose proof (pool_used _ _ unmap_pool) as Hl. rewrite length_app, length_fmap in Hl. cbn [ps_slabs st0 set_mappings].
    destruct (covers_le _ _ _ _ _ Hc) as (_ & Hnil & _). destruct (map_list u) as [|? ?]; [specialize (Hnil eq_refl); lia|].
    cbn [length] in Hl |- *. lia. }
  destruct (node_alloc_spec a1 y1 st1 (un_block u :: rest_blocks)) as (p & a & Ea & Hp2 & Hc2 & S2); [apply S1|apply S1|done|done|].
  destruct (pool_free a (un_block u) (p :: rest_blocks)) as (a' & Ea' & Hp3 & _).
  { eapply pool_perm; [|exact Hp2]. apply Permutation_swap. }
  destruct (so_free _ _ _ _ _ _ _ S1) as (F1 & F2 & F3).
  exists p, y1. eexists. split_and!.
  - unfold paging_unmap. rewrite Ef. step. fold st0. rewrite E1. step. unfold paging_add_space. rewrite Ea. step.
    cbn [ps_slabs set_free set_ps_slabs]. rewrite Ea'. step. reflexivity.
  - eapply (paging_ok_remove y1 st1 (FrameNode p (start_addr u) (un_size u)) S1 T1); try done. cbn. by rewrite F2.
  - cbn. by rewrite F2.
  - exact F1.
  - exact F3.
  - exact T1.
Qed.
End Unmap.

(** * Virtual addresses *)

Definition page_round (bytes : Z) : Z := (bytes + 4095) / 4096 * 4096.

Lemma page_round_bounds b : b <= page_round b < b + 4096 /\ page_round b `mod` PAGE = 0.
Proof.
  unfold page_round, PAGE. pose proof (Z.div_mod (b + 4095) 4096 ltac:(lia)). pose proof (Z.mod_pos_bound (b + 4095) 4096 ltac:(lia)).
  split; [lia|by rewrite Z_mod_mult].
Qed.

Lemma round_up_page x : 0 <= x -> x + 4095 < 2 ^ 32 -> ROUND_UP x PAGE = page_round x.
Proof.
  intros Hx Hlt. unfold ROUND_UP, page_round. change (PAGE - 1) with (Z.ones 12). rewrite <- Z.ldiff_land, u32_small by (unfold PAGE; lia).
  rewrite Z.ldiff_ones_r, Z.shiftl_mul_pow2, Z.shiftr_div_pow2 by lia. unfold PAGE. do 2 f_equal. lia.
Qed.

Definition free_nodes (st : paging_state) : list paging_frame_node := free_vspace st :: free_next st.

Definition in_node (n : paging_frame_node) (va : Z) : Prop := base_addr n <= va < base_addr n + region_size n.

(** An address is free for allocation. *)
Definition free_at (l : list paging_frame_node) (va : Z) : Prop := exists n, n ∈ l /\ in_node n va.

Definition node_ok (n : paging_frame_node) : Prop :=
  0 <= base_addr n /\ base_addr n `mod` PAGE = 0 /\ 0 <= region_size n /\ base_addr n + region_size n < 2 ^ 32.

Definition nodes_apart (n n' : paging_frame_node) : Prop := forall va, in_node n va -> in_node n' va -> False.

Definition nodes_ok (l : list paging_frame_node) : Prop := Forall node_ok l /\ StronglySorted nodes_apart l.

(** A request can be rounded to pages wherever it fits. *)
Definition request_ok (bytes : Z) (l : list paging_frame_node) : Prop :=
  0 <= bytes /\ forall n, n ∈ l -> bytes <= region_size n -> page_round bytes <= region_size n.

Lemma round_shift b bytes : b `mod` PAGE = 0 -> page_round (b + bytes) = b + page_round bytes.
Proof.
  intros Ha. unfold page_round, PAGE in *. pose proof (Z.div_mod b 4096 ltac:(lia)).
  replace (b + bytes + 4095) with (bytes + 4095 + b / 4096 * 4096) by lia. rewrite Z.div_add by lia. lia.
Qed.

Lemma carve_extent bytes n : node_ok n -> 0 <= bytes -> page_round bytes <= region_size n ->
  base_addr (carve bytes n) = base_addr n + page_round bytes /\ region_size (carve bytes n) = region_size n - page_round bytes.
Proof.
  intros (Hb & Ha & Hs & He) Hy Hr. destruct (page_round_bounds bytes) as [Hbd Hpr]. unfold carve.
  assert (E : page_round (base_addr n + bytes) = base_addr n + page_round bytes) by by apply round_shift.
  assert (Hm : (base_addr n + page_round bytes) `mod` 4096 = 0) by (unfold PAGE in *; by rewrite Zplus_mod, Ha, Hpr).
  pose proof (Z.div_mod (base_addr n + page_round bytes) 4096 ltac:(lia)).
  rewrite (u32_small (base_addr n + bytes)), round_up_page, E by lia. cbn [base_addr region_size].
  replace (base_addr n + page_round bytes - (base_addr n + bytes)) with (page_round bytes - bytes) by lia.
  rewrite (u32_small (page_round bytes - bytes)) by lia. replace (bytes + (page_round bytes - bytes)) with (page_round bytes) by lia.
  rewrite (u32_small (page_round bytes)), u32_small by lia. done.
Qed.

Lemma carve_node bytes n : node_ok n -> 0 <= bytes -> page_round bytes <= region_size n ->
  node_ok (carve bytes n) /\ forall va, in_node (carve bytes n) va <->
    in_node n va /\ ~ (base_addr n <= va < base_addr n + page_round bytes).
Proof.
  intros Hn Hy Hr. destruct (carve_extent bytes n Hn Hy Hr) as [E1 E2]. destruct (page_round_bounds bytes) as [Hbd Hpr].
  destruct Hn as (Hb & Ha & Hs & He). unfold in_node, node_ok. rewrite E1, E2. split.
  - unfold PAGE in *. split_and!; [lia|by rewrite Zplus_mod, Ha, Hpr|lia|lia].
  - intros va. lia.
Qed.

Lemma alloc_walk_none bytes l : alloc_walk bytes l = None <-> Forall (fun n => region_size n < bytes) l.
Proof.
  induction l as [|n l IH]; cbn [alloc_walk]; [done|]. rewrite Forall_cons. destruct (Z.leb_spec bytes (region_size n)).
  - split; [done|intros [? _]; lia].
  - rewrite <- IH. destruct (alloc_walk bytes l) as [[b r]|]; split; try done. intros [_ [=]].
Qed.

Lemma free_at_cons n l va : free_at (n :: l) va <-> in_node n va \/ free_at l va.
Proof.
  split.
  - intros (n' & [->|Hn']%elem_of_cons & Hva); [by left|right; by exists n'].
  - intros [Hva|(n' & Hn' & Hva)]; [exists n|exists n']; (split; [|done]); [by left|by right].
Qed.

Lemma nodes_ok_cons n l : nodes_ok (n :: l) <-> node_ok n /\ nodes_ok l /\ forall va, in_node n va -> ~ free_at l va.
Proof.
  unfold nodes_ok. rewrite Forall_cons. split.
  - intros [[Hn Hl] [Hs Hf]%StronglySorted_inv]. rewrite Forall_forall in Hf. split_and!; try done.
    intros va Hva (n' & Hn' & Hva'). by eapply (Hf n').
  - intros (Hn & [Hl Hs] & Hap). split; [done|]. constructor; [done|]. apply Forall_forall.
    intros n' Hn' va Hva Hva'. apply (Hap va Hva). by exists n'.
Qed.

(** The node that serves the request keeps what lies behind the rounded
    request; the others stay. *)
Lemma alloc_walk_some bytes l b r : nodes_ok l -> request_ok bytes l -> alloc_walk bytes l = Some (b, r) ->
  nodes_ok r /\ b `mod` PAGE = 0 /\ fn_block <$> r = fn_block <$> l
  /\ (forall va, b <= va < b + page_round bytes -> free_at l va) /\ 0 <= b /\ b + page_round bytes < 2 ^ 32
  /\ forall va, free_at r va <-> free_at l va /\ ~ (b <= va < b + page_round bytes).
Proof.
  revert b r. induction l as [|n l IH]; cbn [alloc_walk]; intros b r Hok [Hy Hreq]; [done|].
  apply nodes_ok_cons in Hok as (Hn & Hok & Hap).
  destruct (Z.leb_spec bytes (region_size n)) as [Hfit|Hno].
  - intros [= <- <-]. pose proof (Hreq n ltac:(by left) Hfit) as Hr. destruct (carve_node bytes n Hn Hy Hr) as [Hc Hin].
    destruct Hn as (Hb & Ha & Hs & He).
    assert (Hsub : forall va, base_addr n <= va < base_addr n + page_round bytes -> in_node n va) by (unfold in_node; intros; lia).
    split_and!; try done; try lia.
    + apply nodes_ok_cons. split_and!; try done. intros va [Hva _]%Hin. by apply Hap.
    + intros va Hva. apply free_at_cons. left. auto.
    + intros va. rewrite !free_at_cons, Hin. specialize (Hsub va). specialize (Hap va). tauto.
  - destruct (alloc_walk bytes l) as [[b' r']|] eqn:E; [|done]. intros [= <- <-].
    destruct (IH b' r') as (Hok' & Ha & Hblk & Hfree & Hb0 & Hb1 & Hiff); [done| |done|].
    { split; [done|]. intros n' Hn'. apply Hreq. by right. }
    split_and!; try done.
    + apply nodes_ok_cons. split_and!; try done. intros va Hva [? _]%Hiff. by apply (Hap va).
    + cbn. by rewrite Hblk.
    + intros va Hva. apply free_at_cons. right. auto.
    + intros va. rewrite !free_at_cons, Hiff. specialize (Hap va). specialize (Hfree va). tauto.
Qed.

(** * The properties *)

(** The addresses that are free for allocation are not mapped. *)
Definition vspace_ok (a1 : Z) (y : sys) (st : paging_state) : Prop :=
  nodes_ok (free_nodes st) /\ forall va, free_at (free_nodes st) va -> tr a1 y va = None.

Lemma paging_alloc_spec bytes st : nodes_ok (free_nodes st) -> request_ok bytes (free_nodes st) ->
  (Forall (fun n => region_size n < bytes) (free_nodes st)
   /\ paging_alloc bytes st = (err LIB_ERR_OUT_OF_VIRTUAL_ADDR, 0, st))
  \/ exists b n l, paging_alloc bytes st = (SYS_ERR_OK, b, set_free n l st) /\ nodes_ok (n :: l)
     /\ fn_block <$> l = fn_block <$> free_next st
     /\ b `mod` PAGE = 0 /\ 0 <= b /\ b + page_round bytes < 2 ^ 32
     /\ (forall va, b <= va < b + page_round bytes -> free_at (free_nodes st) va)
     /\ forall va, free_at (n :: l) va <-> free_at (free_nodes st) va /\ ~ (b <= va < b + page_round bytes).
Proof.
  intros Hok Hreq. unfold paging_alloc. fold (free_nodes st).
  destruct (alloc_walk bytes (free_nodes st)) as [[b r]|] eqn:E.
  - right. destruct (alloc_walk_some _ _ _ _ Hok Hreq E) as (Hr & Ha & Hblk & Hfree & ? & ? & Hiff).
    destruct r as [|n l]; [done|]. injection Hblk as _ Hblk. exists b, n, l. done.
  - left. split; [by apply alloc_walk_none|done].
Qed.

(** Allocation changes neither the mappings nor the tables. *)
Lemma set_free_ok a1 y st n l : paging_ok a1 y st -> fn_block <$> l = fn_block <$> free_next st ->
  paging_ok a1 y (set_free n l st).
Proof.
  intros [Hok Hs Hp Hc Hm Ha] Hblk. constructor; try done.
  - by eapply (tables_frame a1 y st).
  - eapply (supplies_frame a1 y st _ _ [] []); try done. apply Hs.
  - unfold blocks_of. cbn [free_next mappings set_free ps_slabs]. rewrite Hblk. exact Hp.
  - intros u Hu. destruct (Hc u Hu) as [Hcov Hr]. split; [|done]. by eapply (covers_step a1 y st).
Qed.

Lemma covers_aligned y st l v w : covers y st l v w -> v < w -> v `mod` PAGE = 0.
Proof.
  revert w. induction l as [|nd l IH]; intros w; cbn [covers]; [intros ->; lia|].
  intros (u & (i & k & n & _ & -> & -> & _) & Hc) _. destruct (covers_le _ _ _ _ _ Hc) as (Hle & Hnil & Hlt).
  destruct l as [|nd' l'].
  - rewrite (Hnil eq_refl). unfold PAGE. replace (i * 1048576 + k * 4096) with ((i * 256 + k) * 4096) by lia. by rewrite Z_mod_mult.
  - eapply IH; [exact Hc|by apply Hlt].
Qed.

Lemma free_range l va : nodes_ok l -> free_at l va -> 0 <= va < 2 ^ 32.
Proof.
  intros [Hf _] (n & Hn & Hin). rewrite Forall_forall in Hf. destruct (Hf n Hn) as (? & _ & ? & ?). unfold in_node in Hin. lia.
Qed.

Lemma map_fixed_full a1 y st vaddr frame bytes flags : paging_ok a1 y st -> vspace_ok a1 y st ->
  map_request a1 y st vaddr frame bytes flags ->
  (forall va, vaddr <= va < vaddr + bytes -> ~ free_at (free_nodes st) va) ->
  exists p l y' st', paging_map_fixed_attr vaddr frame bytes flags y st = Done (y', st')
    /\ paging_ok a1 y' st' /\ vspace_ok a1 y' st' /\ mappings st' = UsedNode p vaddr bytes l :: mappings st
    /\ free_next st' = free_next st /\ free_vspace st' = free_vspace st
    /\ forall va, 0 <= va < 2 ^ 32 ->
       tr a1 y' va = if decide (vaddr <= va < vaddr + bytes)
                     then Some (get_address (cspace y frame) + (va - vaddr), ap10_of flags) else tr a1 y va.
Proof.
  intros Hok [Hn Hv] Hr Hfree. destruct (map_fixed_spec a1 y st vaddr frame bytes flags Hok Hr) as (p & l & y' & st' & E & M).
  pose proof (paging_ok_add a1 y st vaddr frame bytes flags _ _ p l y' st' Hok Hr M) as Hok'. destruct M as [[] _ _ T].
  destruct so_free as (F1 & F2 & F3). eexists p, l, y', _. split_and!; [exact E|done| |cbn; by rewrite F3|done|done|].
  - unfold vspace_ok, free_nodes. cbn [free_vspace free_next set_mappings]. rewrite F1, F2. split; [done|].
    intros va Hva. change (tr a1 y' va = None). rewrite T by by apply (free_range (free_nodes st)).
    destruct (decide _) as [Hin|]; [by apply Hfree in Hin|auto].
  - intros va Hva. rewrite T by done. by rewrite Z.add_0_r.
Qed.

Lemma unmap_full a1 y st l1 u l2 : paging_ok a1 y st -> vspace_ok a1 y st -> mappings st = l1 ++ u :: l2 ->
  find_mapping (start_addr u) (mappings st) = Done (u, l1 ++ l2) ->
  exists p y' st', paging_unmap (start_addr u) y st = Done (y', st') /\ paging_ok a1 y' st' /\ vspace_ok a1 y' st'
    /\ mappings st' = l1 ++ l2 /\ free_vspace st' = free_vspace st
    /\ free_next st' = FrameNode p (start_addr u) (un_size u) :: free_next st
    /\ forall va, 0 <= va < 2 ^ 32 -> tr a1 y' va = if decide (in_range u va) then None else tr a1 y va.
Proof.
  intros Hok [Hn Hv] El Ef. destruct (unmap_spec a1 y st l1 l2 u Hok El Ef) as (p & y' & st' & E & Hok' & F1 & F2 & F3 & T).
  assert (Hu : u ∈ mappings st) by (rewrite El; apply elem_of_app; right; by left).
  destruct (pk_cover _ _ _ Hok u Hu) as (Hc & Hsz & Hst & Hend).
  exists p, y', st'. split_and!; try done. unfold vspace_ok, free_nodes in *. rewrite F1, F2.
  pose proof (covers_aligned _ _ _ _ _ Hc ltac:(lia)) as Hal. set (f := FrameNode p (start_addr u) (un_size u)).
  assert (Hf : forall va, in_node f va -> ~ free_at (free_vspace st :: free_next st) va).
  { intros va Hin Hfr. destruct (pk_mapped _ _ _ Hok u va Hu Hin) as [x Hx]. by rewrite Hv in Hx. }
  apply nodes_ok_cons in Hn as (Hn1 & Hn2 & Hap). split.
  - rewrite !nodes_ok_cons. split_and!; try done; [split_and!; cbn; try done; lia| |].
    + intros va Hin Hfr. apply (Hf va Hin). apply free_at_cons. by right.
    + intros va Hin. rewrite free_at_cons. intros [Hin'|Hfr]; [|by apply (Hap va)]. apply (Hf va Hin'). apply free_at_cons. by left.
  - intros va Hva. assert (Hva' : in_node f va \/ free_at (free_vspace st :: free_next st) va) by (rewrite !free_at_cons in *; tauto).
    assert (0 <= va < 2 ^ 32).
    { destruct Hva' as [Hin|Hfr]; [unfold in_node in Hin; cbn in Hin; lia|]. apply (free_range (free_nodes st)); [|done].
      by apply nodes_ok_cons. }
    rewrite T by done. destruct (decide _) as [|Hout]; [done|]. destruct Hva' as [Hin|Hfr]; [by destruct Hout|auto].
Qed.

(** [frame_alloc] of one page. *)
Definition with_frame (s b : Z) (sl rl : list Z) (y : sys) : sys :=
  set_cspace (<[s := Capability ObjType_Frame b PAGE 0 0 0]> (cspace y)) (set_ram rl (set_slots sl y)).

Lemma frame_alloc_page a1 y st s sl b rl : paging_ok a1 y st -> slot_supply y = s :: sl -> ram_supply y = b :: rl ->
  frame_alloc PAGE y = Done (SYS_ERR_OK, s, PAGE, with_frame s b sl rl y)
  /\ paging_ok a1 (with_frame s b sl rl y) st /\ forall va, 0 <= va < 2 ^ 32 -> tr a1 (with_frame s b sl rl y) va = tr a1 y va.
Proof.
  intros [Hok Hs Hp Hc Hm Ha] Es Er. destruct (sk_kernel _ _ _ Hs) as [E1 E2].
  pose proof (sk_slots _ _ _ Hs) as Hnd. rewrite Es in Hnd. apply NoDup_cons in Hnd as [Hni _].
  assert (Hnull : cspace y s = null_cap) by (apply (sk_empty _ _ _ Hs); rewrite Es; by left).
  assert (Hk : caps_kept y (with_frame s b sl rl y)) by (intros s' Hs'; by apply insert_kept).
  destruct (tables_frame a1 y st (with_frame s b sl rl y) st Hok (conj eq_refl eq_refl) Hk) as [Hok' Htr]; [done|].
  split_and!; [| |done].
  - unfold frame_alloc, slot_alloc. rewrite Es. cbn [err_is_fail SYS_ERR_OK].
    unfold frame_create, ram_alloc. cbn [ram_supply set_slots]. rewrite Er. change (ROUND_UP PAGE PAGE) with PAGE.
    cbn [assert Z.ltb Z.compare PAGE]. step. cbn [err_is_fail SYS_ERR_OK retype_result set_ram set_slots set_cspace destroy_result].
    rewrite E1, E2. done.
  - constructor; try done.
    + eapply (supplies_frame a1 y st _ _ [s] [b]); try done. intros s' Hs'. cbn [cspace with_frame set_cspace set_ram set_slots].
      rewrite fn_lookup_insert_ne by (intros ->; by apply Hni). apply (sk_empty _ _ _ Hs). rewrite Es. by right.
    + intros u Hu. destruct (Hc u Hu) as [Hcov Hr]. split; [|done]. by eapply (covers_step a1 y st).
Qed.

Lemma tables_of_page v : 0 <= v -> v `mod` PAGE = 0 -> v + PAGE <= 2 ^ 31 -> tables_of v PAGE = 1%nat.
Proof.
  intros Hv Ha He. unfold tables_of, PAGE in *. destruct (va_split v) as (E & ? & ? & _); [lia|].
  destruct (va_indices (ARM_L1_OFFSET v) (ARM_L2_OFFSET v) 4095) as [E1 _]; [done|done|lia|].
  replace (v + 4096 - 1) with (ARM_L1_OFFSET v * 1048576 + ARM_L2_OFFSET v * 4096 + 4095) by lia. rewrite E1. lia.
Qed.

(** C5: mapping whole pages of a frame (the size is a positive multiple of
    the page size and at most that of the frame) at a page-aligned range
    below 2 GB that is neither mapped nor in the list of free addresses
    makes the hardware translate exactly that range to the frame with the
    permissions of the flags, creates the tables that are missing, records
    the mapping and keeps the invariant of page tables, capabilities, list
    nodes and free addresses. It is assumed that enough slots, RAM and list
    nodes are at hand, so that nothing is refilled. For a size that is not a
    multiple of the page size the code succeeds without mapping the last
    partial page (partial_page_unmapped). *)
Theorem paging_map_fixed_exact a1 y st vaddr frame bytes flags : paging_ok a1 y st -> vspace_ok a1 y st ->
  map_request a1 y st vaddr frame bytes flags ->
  (forall va, vaddr <= va < vaddr + bytes -> ~ free_at (free_nodes st) va) ->
  exists p l y' st', paging_map_fixed_attr vaddr frame bytes flags y st = Done (y', st')
    /\ paging_ok a1 y' st' /\ vspace_ok a1 y' st' /\ mappings st' = UsedNode p vaddr bytes l :: mappings st
    /\ forall va, 0 <= va < 2 ^ 32 ->
       tr a1 y' va = if decide (vaddr <= va < vaddr + bytes)
                     then Some (get_address (cspace y frame) + (va - vaddr), ap10_of flags) else tr a1 y va.
Proof.
  intros Hok Hv Hr Hf. destruct (map_fixed_full a1 y st vaddr frame bytes flags Hok Hv Hr Hf) as (p & l & y' & st' & H).
  exists p, l, y', st'. tauto.
Qed.

Lemma find_mapping_none region l : region ∉ (start_addr <$> l) -> find_mapping region l = Fault AssertionFailed.
Proof.
  induction l as [|n l IH]; cbn [fmap list_fmap find_mapping]; [done|]. rewrite not_elem_of_cons. intros [Hn Hl].
  zdecide. by rewrite IH.
Qed.

(** Two mappings do not start at the same address. *)
Lemma start_unique a1 y st u w : paging_ok a1 y st -> u ∈ mappings st -> w ∈ mappings st -> start_addr u = start_addr w -> u = w.
Proof.
  intros Hok Hu Hw E. destruct (pk_cover _ _ _ Hok u Hu) as (_ & ? & _). destruct (pk_cover _ _ _ Hok w Hw) as (_ & ? & _).
  destruct (StronglySorted_pair _ _ _ _ (pk_apart _ _ _ Hok) Hu Hw) as [|[[?|?]|[?|?]]]; [done|lia..].
Qed.

(** C26: [paging_unmap] of a recorded mapping takes exactly its addresses out of
    the translation, returns them to the free addresses and keeps the
    invariant; for an address at which no mapping starts it stops at an
    assertion. *)
Theorem paging_unmap_exact a1 y st region : paging_ok a1 y st -> vspace_ok a1 y st ->
  (region ∉ (start_addr <$> mappings st) -> paging_unmap region y st = Fault AssertionFailed)
  /\ forall u, u ∈ mappings st -> start_addr u = region ->
     exists p y' st', paging_unmap region y st = Done (y', st') /\ paging_ok a1 y' st' /\ vspace_ok a1 y' st'
       /\ mappings st ≡ₚ u :: mappings st'
       /\ free_next st' = FrameNode p region (un_size u) :: free_next st
       /\ forall va, 0 <= va < 2 ^ 32 -> tr a1 y' va = if decide (in_range u va) then None else tr a1 y va.
Proof.
  intros Hok Hv. split; [intros H; unfold paging_unmap; by rewrite find_mapping_none|]. intros u Hu <-.
  destruct (find_mapping_spec (start_addr u) (mappings st)) as (l1 & u' & l2 & El & Hst & Ef); [by apply list_elem_of_fmap_2|].
  assert (u' = u) as ->.
  { apply (start_unique a1 y st); try done. rewrite El. apply elem_of_app. right. by left. }
  destruct (unmap_full a1 y st l1 u l2 Hok Hv El Ef) as (p & y' & st' & E & Hok' & Hv' & Em & _ & Fn & T).
  exists p, y', st'. split_and!; try done. by rewrite El, Em, Permutation_middle.
Qed.

(** Unmapping directly after mapping gives back the translation of every
    address and the list of mappings; the range has become free. *)
Theorem paging_map_unmap_roundtrip a1 y st vaddr frame bytes flags : paging_ok a1 y st -> vspace_ok a1 y st ->
  map_request a1 y st vaddr frame bytes flags ->
  (forall va, vaddr <= va < vaddr + bytes -> ~ free_at (free_nodes st) va) ->
  exists p y1 st1 y2 st2, paging_map_fixed_attr vaddr frame bytes flags y st = Done (y1, st1)
    /\ paging_unmap vaddr y1 st1 = Done (y2, st2) /\ paging_ok a1 y2 st2 /\ vspace_ok a1 y2 st2
    /\ mappings st2 = mappings st /\ free_nodes st2 = free_vspace st :: FrameNode p vaddr bytes :: free_next st
    /\ forall va, 0 <= va < 2 ^ 32 -> tr a1 y2 va = tr a1 y va.
Proof.
  intros Hok Hv Hr Hf.
  destruct (map_fixed_full a1 y st vaddr frame bytes flags Hok Hv Hr Hf) as (p & l & y1 & st1 & E1 & Hok1 & Hv1 & Em & F1 & F2 & T1).
  destruct (unmap_full a1 y1 st1 [] (UsedNode p vaddr bytes l) (mappings st)) as (q & y2 & st2 & E2 & Hok2 & Hv2 & Em2 & F3 & F4 & T2);
    try done; [rewrite Em; cbn [find_mapping start_addr]; by rewrite Z.eqb_refl|].
  exists q, y1, st1, y2, st2. split_and!; try done.
  - unfold free_nodes. by rewrite F3, F4, F2, F1.
  - intros va Hva. rewrite T2, T1 by done. unfold in_range. cbn [start_addr un_size].
    destruct (decide _) as [Hin|]; [|done]. symmetry. by apply (mr_free _ _ _ _ _ _ _ Hr).
Qed.

(** [paging_alloc] hands out a page-aligned range whose addresses were
    free and are not free afterwards, rounded up to pages, and leaves every
    other free address free; without a large enough node it returns an error
    and changes nothing. *)
Theorem paging_alloc_takes_free bytes st : nodes_ok (free_nodes st) -> request_ok bytes (free_nodes st) ->
  match paging_alloc bytes st with
  | (e, b, st') =>
    (Forall (fun n => region_size n < bytes) (free_nodes st) -> e = err LIB_ERR_OUT_OF_VIRTUAL_ADDR /\ st' = st)
    /\ (~ Forall (fun n => region_size n < bytes) (free_nodes st) ->
        e = SYS_ERR_OK /\ b `mod` PAGE = 0 /\ 0 <= b /\ b + page_round bytes < 2 ^ 32 /\ nodes_ok (free_nodes st')
        /\ (forall va, b <= va < b + page_round bytes -> free_at (free_nodes st) va)
        /\ forall va, free_at (free_nodes st') va <-> free_at (free_nodes st) va /\ ~ (b <= va < b + page_round bytes))
  end.
Proof.
  intros Hn Hr. destruct (paging_alloc_spec bytes st Hn Hr) as [[Hf ->]|(b & n & l & E & Hn' & _ & Ha & H0 & H1 & Hfree & Hiff)]; [tauto|].
  rewrite E. split; [|intros _; split_and!; done]. intros Hf.
  apply alloc_walk_none in Hf. unfold paging_alloc in E. fold (free_nodes st) in E. rewrite Hf in E. by injection E.
Qed.

(** A frame that is mapped at an address chosen by the library: the
    address is one that was free, exactly the new range is translated to the
    frame, and mappings and free addresses stay disjoint. *)
Theorem paging_map_frame_maps a1 y st frame bytes flags b st1 : paging_ok a1 y st -> vspace_ok a1 y st ->
  frame_ok (cspace y frame) -> bytes <= get_size (cspace y frame) -> flags_ok flags ->
  0 < bytes -> bytes `mod` PAGE = 0 -> request_ok bytes (free_nodes st) ->
  paging_alloc bytes st = (SYS_ERR_OK, b, st1) -> b + bytes <= 2 ^ 31 ->
  (3 * tables_of b bytes <= length (slot_supply y))%nat -> (tables_of b bytes <= length (ram_supply y))%nat ->
  (length (blocks_of st) + 1 + tables_of b bytes <= capacity (ps_slabs st))%nat ->
  exists y' st', paging_map_frame_attr bytes frame flags y st = Done (b, y', st')
    /\ paging_ok a1 y' st' /\ vspace_ok a1 y' st'
    /\ (forall va, b <= va < b + bytes -> free_at (free_nodes st) va)
    /\ forall va, 0 <= va < 2 ^ 32 ->
       tr a1 y' va = if decide (b <= va < b + bytes)
                     then Some (get_address (cspace y frame) + (va - b), ap10_of flags) else tr a1 y va.
Proof.
  intros Hok [Hn Hv] Hf Hsz Hfl Hb Hba Hreq Ea Hend Hsl Hram Hnod. destruct (page_round_bounds bytes) as [Hpr _].
  destruct (paging_alloc_spec bytes st Hn Hreq) as [[_ E]|(b' & n & l & E & Hn' & Hblk & Ha & H0 & H1 & Hfree & Hiff)];
    rewrite Ea in E; [done|]. injection E as <- ->. unfold paging_map_frame_attr. rewrite Ea. cbn [CHECK err_is_fail SYS_ERR_OK]. step.
  assert (Eb : length (blocks_of (set_free n l st)) = length (blocks_of st)).
  { unfold blocks_of. rewrite !length_app. cbn [free_next set_free mappings]. by rewrite Hblk. }
  destruct (map_fixed_full a1 y (set_free n l st) b frame bytes flags) as (p & ml & y' & st' & Em & Hok' & Hv' & _ & _ & _ & T).
  - by apply set_free_ok.
  - split; [done|]. intros va Hva. apply Hv. by apply Hiff.
  - constructor; rewrite ?Eb; try done. intros va Hva. apply Hv, Hfree. lia.
  - intros va Hva Hfr. apply Hiff in Hfr as [_ Hout]. lia.
  - rewrite Em. step. exists y', st'. split_and!; try done. intros va Hva. apply Hfree. lia.
Qed.

(** C33: a fault at an address of user space, with the stack pointer in the
    stack: the handler returns, the address is mapped, readable and writable,
    to the frame it allocated, and the rest of the translation is as before.
    The only address below the first page that it refuses is 0: a fault at
    one of the others maps page 0. *)
Theorem pagefault_served a1 y st vaddr sp stack stack_top s sl b rl : paging_ok a1 y st -> vspace_ok a1 y st ->
  0 < vaddr < 2 ^ 31 -> stack <= sp <= stack_top ->
  (forall va, va / PAGE = vaddr / PAGE -> tr a1 y va = None /\ ~ free_at (free_nodes st) va) ->
  slot_supply y = s :: sl -> (3 <= length sl)%nat -> ram_supply y = b :: rl -> (1 <= length rl)%nat ->
  b `mod` PAGE = 0 -> b + PAGE <= 2 ^ 32 -> (length (blocks_of st) + 2 <= capacity (ps_slabs st))%nat ->
  exists y' st', pagefault_handler vaddr sp stack stack_top y st = Done (Handled y' st')
    /\ paging_ok a1 y' st' /\ vspace_ok a1 y' st'
    /\ forall va, 0 <= va < 2 ^ 32 ->
       tr a1 y' va = if decide (va / PAGE = vaddr / PAGE) then Some (b + va `mod` PAGE, 3) else tr a1 y va.
Proof.
  intros Hok [Hn Hv] Hva Hsp Hpg Es Hsl Er Hrl Hb Hb2 Hnod.
  destruct (frame_alloc_page a1 y st s sl b rl Hok Es Er) as (Ea & Hok1 & T1). set (y1 := with_frame s b sl rl y) in *.
  unfold pagefault_handler. zdecide. cbn [orb]. rewrite Ea. step. cbn [CHECK err_is_fail SYS_ERR_OK]. step.
  pose proof (Z.div_mod vaddr PAGE ltac:(done)) as Ed. pose proof (Z.mod_pos_bound vaddr PAGE ltac:(done)) as Hm.
  assert (Hv0 : vaddr - vaddr `mod` PAGE = vaddr / PAGE * PAGE) by lia. rewrite Hv0.
  assert (Hq : 0 <= vaddr / PAGE < 524288) by (unfold PAGE in *; lia).
  assert (Hin : forall va, vaddr / PAGE * PAGE <= va < vaddr / PAGE * PAGE + PAGE <-> va / PAGE = vaddr / PAGE).
  { intros va. pose proof (Z.div_mod va PAGE ltac:(done)). pose proof (Z.mod_pos_bound va PAGE ltac:(done)). unfold PAGE in *. lia. }
  assert (Et : tables_of (vaddr / PAGE * PAGE) PAGE = 1%nat).
  { apply tables_of_page; [unfold PAGE in *; lia|by rewrite Z_mod_mult|unfold PAGE in *; lia]. }
  assert (Ef : cspace y1 s = Capability ObjType_Frame b PAGE 0 0 0) by apply fn_lookup_insert.
  destruct (sk_place _ _ _ (pk_supplies _ _ _ Hok) b) as [(_ & Hb0 & _) _]; [rewrite Er; by left|].
  destruct (map_fixed_full a1 y1 st (vaddr / PAGE * PAGE) s PAGE 3) as (p & l & y' & st' & Em & Hok' & Hv' & _ & _ & _ & T); try done.
  - constructor; rewrite ?Et, ?Ef; try done; try lia.
    + split; [|cbn; lia]. split_and!; try done. by left.
    + split_and!; [unfold PAGE in *; lia|by rewrite Z_mod_mult|unfold PAGE in *; lia].
    + intros va Hr. rewrite T1 by (unfold PAGE in *; lia). apply Hpg. by apply Hin.
  - intros va Hr. apply Hpg. by apply Hin.
  - rewrite Em. step. exists y', st'. split_and!; try done. intros va Hr. rewrite T, T1 by done.
    destruct (decide _) as [H1|H1], (decide _) as [H2|H2]; try done; [|by apply Hin in H1|by apply Hin in H2].
    rewrite Ef. cbn [get_address]. change (ap10_of 3) with 3. do 2 f_equal. pose proof (Z.div_mod va PAGE ltac:(done)). lia.
Qed.

(** When a node has room for the request but not for the request rounded
    up to pages, [paging_alloc] succeeds and leaves the node with a wrapped
    size: almost the whole address space behind it counts as free. *)
Theorem paging_alloc_underflow bytes st : node_ok (free_vspace st) -> 0 < bytes <= region_size (free_vspace st) ->
  region_size (free_vspace st) < page_round bytes -> base_addr (free_vspace st) + page_round bytes < 2 ^ 32 ->
  exists st', paging_alloc bytes st = (SYS_ERR_OK, base_addr (free_vspace st), st')
    /\ base_addr (free_vspace st') = base_addr (free_vspace st) + page_round bytes
    /\ region_size (free_vspace st') = 2 ^ 32 - (page_round bytes - region_size (free_vspace st)).
Proof.
  intros (H0 & Ha & H1 & H2) Hb Hlt Hend. destruct (page_round_bounds bytes) as [Hpr Hm].
  unfold paging_alloc. cbn [alloc_walk]. zdecide. eexists. split; [reflexivity|]. unfold carve.
  assert (E : ROUND_UP (u32 (base_addr (free_vspace st) + bytes)) PAGE = base_addr (free_vspace st) + page_round bytes).
  { assert (Hm2 : (base_addr (free_vspace st) + page_round bytes) `mod` 4096 = 0) by (unfold PAGE in *; by rewrite Zplus_mod, Ha, Hm).
    pose proof (Z.div_mod (base_addr (free_vspace st) + page_round bytes) 4096 ltac:(lia)).
    rewrite u32_small, round_up_page by lia. by apply round_shift. }
  cbn [free_vspace set_free base_addr region_size]. rewrite E. split; [done|].
  set (c := base_addr (free_vspace st)) in *. rewrite (u32_small (c + bytes)) by lia.
  replace (c + page_round bytes - (c + bytes)) with (page_round bytes - bytes) by lia.
  rewrite (u32_small (page_round bytes - bytes)) by lia. replace (bytes + (page_round bytes - bytes)) with (page_round bytes) by lia.
  rewrite (u32_small (page_round bytes)) by lia. unfold u32, wrap. symmetry. apply (Z.mod_unique _ _ (-1)); lia.
Qed.

(** A region whose unused part lies inside it. *)
Definition region_ok (pr : paging_region) : Prop :=
  0 <= pr_base pr /\ pr_base pr <= pr_current pr <= pr_base pr + pr_size pr /\ pr_size pr < 2 ^ 31
  /\ pr_base pr + pr_size pr < 2 ^ 32.

(** [paging_region_map] hands out the next part of the region, at most what
    was asked for and never beyond its end, and every address at most once;
    only a full region is an error. *)
Theorem paging_region_map_bounds req pr : region_ok pr -> 0 < req < 2 ^ 32 ->
  match paging_region_map req pr with
  | (e, b, n, pr') => region_ok pr' /\ pr_base pr' = pr_base pr /\ pr_size pr' = pr_size pr
    /\ (pr_current pr = pr_base pr + pr_size pr -> e = err LIB_ERR_VSPACE_MMU_AWARE_NO_SPACE /\ pr' = pr)
    /\ (pr_current pr < pr_base pr + pr_size pr ->
        e = SYS_ERR_OK /\ b = pr_current pr /\ n = Z.min req (pr_base pr + pr_size pr - b) /\ pr_current pr' = b + n)
  end.
Proof.
  intros Hok Hreq. pose proof Hok as (H0 & H1 & H2 & H3). unfold paging_region_map.
  rewrite (u32_small (pr_base pr + pr_size pr)), (u32_small (_ - _)) by lia. unfold ssize. zdecide.
  rewrite (u32_small (_ - _)) by lia. destruct (Z.ltb_spec req (pr_base pr + pr_size pr - pr_current pr)) as [Hlt|Hge].
  - rewrite u32_small by lia. unfold region_ok. cbn. split_and!; try done; try lia. intros. split_and!; try done; lia.
  - destruct (Z.ltb_spec 0 (pr_base pr + pr_size pr - pr_current pr)).
    + rewrite u32_small by lia. unfold region_ok. cbn. split_and!; try done; try lia. intros. split_and!; try done; lia.
    + split_and!; try done. lia.
Qed.

(** * A domain: one frame of two pages, no table yet *)
Module PagingSample.

Definition caps : Z -> capability :=
  <[1 := Capability ObjType_VNode_ARM_l1 65536 16384 0 0 0]> (<[2 := Capability ObjType_Frame 1048576 8192 0 0 0]> (fun _ => null_cap)).

Definition y0 : sys := Sys caps (fun _ => EntryInvalid) [10; 11; 12; 13; 14; 15; 16] [2097152; 2101248; 2105344] SYS_ERR_OK SYS_ERR_OK.

Definition slab0 : slab_allocator := match slab_grow (slab_init sizeof_node) 8192 400 with Done a => a | Fault _ => slab_init sizeof_node end.

(** The state that [paging_init] makes, with room for nodes. *)
Definition st0 : paging_state := set_ps_slabs slab0 (paging_init_state 33554432 1).

Lemma st0_pool : pool_holds (ps_slabs st0) [] /\ capacity (ps_slabs st0) = 10%nat.
Proof.
  destruct (pool_fresh sizeof_node 8192 400) as (a & Ea & Hp & Hc); [by vm_compute|done|done|].
  cbn [ps_slabs st0 set_ps_slabs]. unfold slab0. rewrite Ea. split; [done|]. apply Nat2Z.inj. rewrite Hc. by vm_compute.
Qed.

Lemma places : forall b, b ∈ ram_supply y0 -> table_place 65536 b.
Proof. intros b Hb. case_list Hb; unfold table_place; split_and!; (vm_compute; done) || (right; lia) || done. Qed.

Lemma st0_ok : paging_ok 65536 y0 st0.
Proof.
  constructor.
  - constructor; try done.
  - constructor; try done.
    + vm_decide.
    + intros s Hs. case_list Hs; done.
    + vm_decide.
    + intros b Hb. split; [by apply places|done].
  - apply st0_pool.
  - by intros u ?%elem_of_nil.
  - by intros u va ?%elem_of_nil.
  - constructor.
Qed.

Lemma st0_nodes : nodes_ok (free_nodes st0).
Proof.
  split; [|repeat constructor]. repeat constructor; unfold node_ok; cbn; try lia; done.
Qed.

Lemma st0_vspace : vspace_ok 65536 y0 st0.
Proof. split; [apply st0_nodes|done]. Qed.

Lemma not_free va : va < 33554432 -> ~ free_at (free_nodes st0) va.
Proof. intros Hva (n & Hn & Hin). case_list Hn. unfold in_node in Hin. cbn in Hin. lia. Qed.

(** Two pages in two tables. *)
Lemma request0 : map_request 65536 y0 st0 5238784 2 8192 3.
Proof.
  constructor; try done.
  - split; [|done]. split; [by left|done].
  - vm_compute. lia.
  - vm_compute. lia.
  - change (blocks_of st0) with (@nil Z). rewrite (proj2 st0_pool). vm_compute. lia.
Qed.

Lemma apart0 va : 5238784 <= va < 5238784 + 8192 -> ~ free_at (free_nodes st0) va.
Proof. intros. apply not_free. lia. Qed.

Lemma paging_map_fixed_exact_witness : exists y' st', paging_map_fixed_attr 5238784 2 8192 3 y0 st0 = Done (y', st')
  /\ tr 65536 y' 5242890 = Some (1052682, 3) /\ tr 65536 y' 5230592 = None.
Proof.
  destruct (paging_map_fixed_exact 65536 y0 st0 5238784 2 8192 3 st0_ok st0_vspace request0 apart0)
    as (p & l & y' & st' & E & _ & _ & _ & T).
  exists y', st'. split; [exact E|]. split; rewrite T by lia; [by rewrite decide_True by lia; vm_compute|by rewrite decide_False by lia; vm_compute].
Defined.

Lemma paging_unmap_exact_witness : exists y st y' st', paging_unmap 5238784 y st = Done (y', st')
  /\ is_Some (tr 65536 y 5242890) /\ tr 65536 y' 5242890 = None.
Proof.
  destruct (map_fixed_full 65536 y0 st0 5238784 2 8192 3 st0_ok st0_vspace request0 apart0)
    as (p & l & y & st & _ & Hok & Hv & Em & _ & _ & T).
  destruct (paging_unmap_exact 65536 y st 5238784 Hok Hv) as [_ H].
  destruct (H (UsedNode p 5238784 8192 l)) as (q & y' & st' & E & _ & _ & _ & _ & T'); [rewrite Em; by left|done|].
  exists y, st, y', st'. split; [exact E|]. rewrite T', T by lia. rewrite !decide_True by (unfold in_range; cbn; lia). split; [by eexists|reflexivity].
Defined.

Lemma paging_map_unmap_roundtrip_witness : exists y1 st1 y2 st2, paging_map_fixed_attr 5238784 2 8192 3 y0 st0 = Done (y1, st1)
  /\ paging_unmap 5238784 y1 st1 = Done (y2, st2) /\ mappings st2 = [].
Proof.
  destruct (paging_map_unmap_roundtrip 65536 y0 st0 5238784 2 8192 3 st0_ok st0_vspace request0 apart0)
    as (p & y1 & st1 & y2 & st2 & E1 & E2 & _ & _ & Em & _). exists y1, st1, y2, st2. exact (conj E1 (conj E2 Em)).
Defined.

Lemma request_two_pages : request_ok 8192 (free_nodes st0).
Proof. split; [done|]. intros n Hn _. case_list Hn. vm_compute. done. Qed.

Lemma paging_alloc_takes_free_witness : ~ free_at (free_nodes (paging_alloc 8192 st0).2) 33554432
  /\ free_at (free_nodes (paging_alloc 8192 st0).2) 33562624.
Proof.
  pose proof (paging_alloc_takes_free 8192 st0 st0_nodes request_two_pages) as H.
  destruct (paging_alloc 8192 st0) as [[e b] st'] eqn:E. destruct H as [_ H]. cbn [snd].
  destruct H as (_ & _ & _ & _ & _ & _ & Hiff); [by intros ?%alloc_walk_none|].
  vm_compute in E. injection E as _ <- _. rewrite !Hiff. change (page_round 8192) with 8192. split; [lia|].
  split; [|lia]. exists (free_vspace st0). split; [by left|]. split; by vm_compute.
Defined.

Lemma paging_map_frame_maps_witness : exists y' st', paging_map_frame_attr 8192 2 3 y0 st0 = Done (33554432, y', st')
  /\ tr 65536 y' 33558528 = Some (1052672, 3).
Proof.
  destruct (paging_map_frame_maps 65536 y0 st0 2 8192 3 33554432 (paging_alloc 8192 st0).2 st0_ok st0_vspace)
    as (y' & st' & E & _ & _ & _ & T);
    [split; [by left|done]|vm_compute; done|done|lia|done|apply request_two_pages|vm_compute; reflexivity|lia
    |vm_compute; lia|vm_compute; lia|change (blocks_of st0) with (@nil Z); rewrite (proj2 st0_pool); vm_compute; lia|].
  exists y', st'. split; [exact E|]. rewrite T by lia. rewrite decide_True by (lia || done). by vm_compute.
Defined.

Lemma pagefault_served_witness : exists y' st', pagefault_handler 20 200 100 300 y0 st0 = Done (Handled y' st')
  /\ tr 65536 y' 0 = Some (2097152, 3).
Proof.
  destruct (pagefault_served 65536 y0 st0 20 200 100 300 10 [11; 12; 13; 14; 15; 16] 2097152 [2101248; 2105344] st0_ok st0_vspace)
    as (y' & st' & E & _ & _ & T);
    [lia|lia| |reflexivity|cbn; lia|reflexivity|cbn; lia|done|done
    |change (blocks_of st0) with (@nil Z); rewrite (proj2 st0_pool); cbn; lia|].
  { intros va Hva. split; [done|]. apply not_free. unfold PAGE in Hva.
    pose proof (Z.div_mod va 4096 ltac:(lia)). pose proof (Z.mod_pos_bound va 4096 ltac:(lia)).
    change (20 / 4096) with 0 in Hva. lia. }
  exists y', st'. split; [exact E|]. rewrite T by lia. rewrite decide_True by (lia || done). by vm_compute.
Defined.

(** The address space that remains after unmapping 5000 bytes. *)
Definition st_odd : paging_state := set_free (FrameNode 0 5238784 5000) [] st0.

Lemma paging_alloc_underflow_witness : exists st', paging_alloc 5000 st_odd = (SYS_ERR_OK, 5238784, st')
  /\ region_size (free_vspace st') = 2 ^ 32 - 3192.
Proof.
  destruct (paging_alloc_underflow 5000 st_odd) as (st' & E & _ & Hs); try done. by exists st'.
Defined.

(** The last partial page of a mapping is not mapped. *)
Example partial_page_unmapped : match paging_map_fixed_attr 5238784 2 4097 3 y0 st0 with
  | Done (y, st) => tr 65536 y 5242880 = None /\ un_size <$> mappings st = [4097]
  | Fault _ => False
  end.
Proof. vm_compute. done. Qed.

(** A part of a region that is not its start cannot be given back. *)
Example region_part_kept : paging_region_unmap 8192 4096 (PagingRegion 4096 12288 16384 []) st0 = Fault AssertionFailed.
Proof. reflexivity. Qed.

Lemma paging_region_map_bounds_witness : exists pr', paging_region_map 8192 (PagingRegion 4096 12288 12288 []) = (SYS_ERR_OK, 12288, 4096, pr')
  /\ pr_current pr' = 16384.
Proof.
  pose proof (paging_region_map_bounds 8192 (PagingRegion 4096 12288 12288 [])) as H.
  destruct (paging_region_map 8192 (PagingRegion 4096 12288 12288 [])) as [[[e b] n] pr'].
  destruct H as (_ & _ & _ & _ & H); [unfold region_ok; cbn; lia|lia|].
  destruct H as (-> & -> & -> & Hc); [done|]. by exists pr'.
Defined.

End PagingSample.
