(* ===== verification/Caps.v ===== *)
(** Capability operations of the kernel (kernel/capabilities.c and the system
    calls of kernel/syscall.c that use them): lookup in the two-level
    capability space, creation of objects, retype, copy and mint, on top of
    the mapping database.

    A slot is its address.  The slots in use are the entries of the mapping
    database and those that an operation has written without inserting them
    ([loose]); every other slot holds the null capability.  Physical and
    kernel-virtual addresses coincide, as on the PandaBoard. *)
From S2P Require Import Prelude MdbTree Hamlet MdbInv MdbRel.

(** * Types

    The numbers are those of the enumeration generated from caps.hl. *)
Definition ObjType_Null : Z := 0.
Definition ObjType_PhysAddr : Z := 1.
Definition ObjType_L1CNode : Z := 3.
Definition ObjType_L2CNode : Z := 4.
Definition ObjType_Dispatcher : Z := 6.
Definition ObjType_EndPoint : Z := 7.
Definition ObjType_Frame : Z := 8.
Definition ObjType_DevFrame : Z := 10.
Definition ObjType_Kernel : Z := 12.
Definition ObjType_VNode_ARM_l1 : Z := 27.
Definition ObjType_VNode_ARM_l2 : Z := 29.
Definition ObjType_IRQTable : Z := 39.
Definition ObjType_IO : Z := 40.
Definition ObjType_Notify_IPI : Z := 41.
Definition ObjType_ID : Z := 42.
Definition ObjType_PerfMon : Z := 43.
Definition ObjType_KernelControlBlock : Z := 44.
Definition ObjType_IPI : Z := 45.
Definition ObjType_Num : Z := 46.

(** The page tables of x86 and ARM and their mappings alternate. *)
Definition type_is_vnode (ty : Z) : bool := (13 <=? ty) && (ty <=? 37) && Z.odd ty.
Definition type_is_mapping (ty : Z) : bool :=
  (ty =? 9) || (ty =? 11) || ((14 <=? ty) && (ty <=? 38) && Z.even ty).
Definition type_is_mappable (ty : Z) : bool :=
  (ty =? ObjType_Frame) || (ty =? ObjType_DevFrame) || type_is_vnode ty.

Definition BASE_PAGE_SIZE : Z := 4096.
Definition OBJSIZE_CTE : Z := 64.
Definition OBJSIZE_L2CNODE : Z := 16384.
Definition OBJSIZE_DISPATCHER : Z := 1024.
Definition OBJSIZE_KCB : Z := 65536.
Definition CAPRIGHTS_READ : Z := 1.
Definition CAPRIGHTS_READ_WRITE : Z := 3.
Definition CAPRIGHTS_ALLRIGHTS : Z := 31.

Definition vnode_objsize (ty : Z) : Z :=
  if ty =? ObjType_VNode_ARM_l1 then 16384 else if ty =? ObjType_VNode_ARM_l2 then 1024 else 4096.

(** Generated by Hamlet: the types that a type can be retyped to. *)
Definition is_well_founded (src dest : Z) : bool :=
  if dest =? 1 then src =? 1
  else if dest =? 2 then (src =? 1) || (src =? 2)
  else if (dest =? 3) || (dest =? 4) || (dest =? 6) || (dest =? 44) then src =? 2
  else if dest =? 7 then src =? 6
  else if dest =? 8 then (src =? 2) || (src =? 8)
  else if dest =? 9 then src =? 8
  else if dest =? 10 then (src =? 1) || (src =? 10)
  else if dest =? 11 then src =? 10
  else if type_is_vnode dest then src =? 2
  else if type_is_mapping dest then src =? dest - 1
  else false.

(** * The state *)

Record kcaps := KCaps {
  mdb_root : tree;               (** the mapping database *)
  loose : list cte;              (** slots in use that are not in it *)
  owner_of : Z -> Z;             (** [mdbnode.owner] of a slot *)
  locked : Z -> bool; in_delete : Z -> bool;
  rights_of : Z -> Z;            (** [cap.rights] of a slot *)
  endpoint_of : Z -> Z * Z;      (** offset and length of an endpoint's buffer *)
  zeroed : list (Z * Z);         (** the areas of memory cleared for new objects *)
  id_cap_counter : Z
}.

Definition set_root (x : tree) (k : kcaps) : kcaps :=
  KCaps x (loose k) (owner_of k) (locked k) (in_delete k) (rights_of k) (endpoint_of k) (zeroed k) (id_cap_counter k).
Definition set_loose (x : list cte) (k : kcaps) : kcaps :=
  KCaps (mdb_root k) x (owner_of k) (locked k) (in_delete k) (rights_of k) (endpoint_of k) (zeroed k) (id_cap_counter k).
Definition set_owner (x : Z -> Z) (k : kcaps) : kcaps :=
  KCaps (mdb_root k) (loose k) x (locked k) (in_delete k) (rights_of k) (endpoint_of k) (zeroed k) (id_cap_counter k).
Definition set_locked (x : Z -> bool) (k : kcaps) : kcaps :=
  KCaps (mdb_root k) (loose k) (owner_of k) x (in_delete k) (rights_of k) (endpoint_of k) (zeroed k) (id_cap_counter k).
Definition set_in_delete (x : Z -> bool) (k : kcaps) : kcaps :=
  KCaps (mdb_root k) (loose k) (owner_of k) (locked k) x (rights_of k) (endpoint_of k) (zeroed k) (id_cap_counter k).
Definition set_rights (x : Z -> Z) (k : kcaps) : kcaps :=
  KCaps (mdb_root k) (loose k) (owner_of k) (locked k) (in_delete k) x (endpoint_of k) (zeroed k) (id_cap_counter k).
Definition set_endpoint (x : Z -> Z * Z) (k : kcaps) : kcaps :=
  KCaps (mdb_root k) (loose k) (owner_of k) (locked k) (in_delete k) (rights_of k) x (zeroed k) (id_cap_counter k).
Definition set_zeroed (x : list (Z * Z)) (k : kcaps) : kcaps :=
  KCaps (mdb_root k) (loose k) (owner_of k) (locked k) (in_delete k) (rights_of k) (endpoint_of k) x (id_cap_counter k).
Definition set_id_counter (x : Z) (k : kcaps) : kcaps :=
  KCaps (mdb_root k) (loose k) (owner_of k) (locked k) (in_delete k) (rights_of k) (endpoint_of k) (zeroed k) x.

Definition null_cte (a : Z) : cte := Cte a (HCap 0 0 0 0 0 0) false false false.

Definition used (k : kcaps) : list cte := elements (mdb_root k) ++ loose k.

(** What a slot holds. *)
Definition slot (k : kcaps) (a : Z) : cte :=
  default (null_cte a) (snd <$> list_find (fun c => cte_addr c = a) (used k)).

Definition slot_type (k : kcaps) (a : Z) : Z := cap_type (cte_cap (slot k a)).

Definition caps_locate_slot (cnode offset : Z) : Z := u32 (cnode + u32 (OBJSIZE_CTE * offset)).

Definition cnode_get_slots (c : hcap) : outcome Z :=
  if h_type c =? ObjType_L1CNode then Done (u32 (h_size c / 64))
  else if h_type c =? ObjType_L2CNode then Done 256
  else Fault AssertionFailed.

(** [set_cap] into the slot [a], not yet in the database. *)
Definition set_cap (a : Z) (cap : hcap) (rights : Z) (k : kcaps) : errval * kcaps :=
  if negb (slot_type k a =? ObjType_Null) then (err SYS_ERR_SLOT_IN_USE, k) else
  (SYS_ERR_OK, set_rights (<[a := rights]> (rights_of k))
                 (set_loose (loose k ++ [Cte a cap false false false]) k)).

(** The slot [a] is cleared with [memset]. *)
Definition clear_slot (a : Z) (k : kcaps) : kcaps :=
  set_loose (filter (fun c => cte_addr c <> a) (loose k)) k.

(** * Creating objects *)

Definition caps_max_numobjs (type srcsize objsize : Z) : outcome Z :=
  if (type =? 1) || (type =? 2) || (type =? 8) || (type =? 10) then
    if srcsize <? objsize then Done 0
    else if objsize =? 0 then Fault DivisionByZero else Done (u32 (srcsize / objsize))
  else if type =? ObjType_L1CNode then
    if (srcsize <? OBJSIZE_L2CNODE) || (objsize <? OBJSIZE_L2CNODE) then Done 0 else Done (u32 (srcsize / objsize))
  else if type =? ObjType_L2CNode then
    if (srcsize <? OBJSIZE_L2CNODE) || negb (objsize =? OBJSIZE_L2CNODE) then Done 0 else Done (u32 (srcsize / objsize))
  else if type_is_vnode type then
    if srcsize <? vnode_objsize type then Done 0 else Done (u32 (srcsize / vnode_objsize type))
  else if type =? ObjType_Dispatcher then
    if srcsize <? OBJSIZE_DISPATCHER then Done 0 else Done (u32 (srcsize / OBJSIZE_DISPATCHER))
  else if type =? ObjType_KernelControlBlock then
    if srcsize <? OBJSIZE_KCB then Done 0 else Done (u32 (srcsize / OBJSIZE_KCB))
  else if (type =? 12) || (type =? 7) || ((39 <=? type) && (type <=? 43)) || (type =? 45) || type_is_mapping type
  then Done 1
  else Fault Panicked.

(** The area of memory that [caps_zero_objects] clears. *)
Definition caps_zero_objects (type lpaddr objsize count : Z) : list (Z * Z) :=
  if (type =? ObjType_Frame) || (type =? ObjType_L1CNode) || (type =? ObjType_L2CNode) then [(lpaddr, u32 (u64 (objsize * count)))]
  else if type_is_vnode type then [(lpaddr, u32 (u64 (vnode_objsize type * count)))]
  else if type =? ObjType_Dispatcher then [(lpaddr, u32 (OBJSIZE_DISPATCHER * count))]
  else if type =? ObjType_KernelControlBlock then [(lpaddr, u32 (OBJSIZE_KCB * count))]
  else [].

(** The capability of the [i]-th object at [lpaddr]. *)
Definition created_cap (type lpaddr objsize i : Z) : hcap :=
  if (type =? 1) || (type =? 2) || (type =? 8) || (type =? 10)
  then HCap type (u64 (lpaddr + u64 (i * objsize))) objsize 0 0 0
  else if type =? ObjType_L1CNode then HCap type (u32 (lpaddr + i * objsize)) objsize 0 0 0
  else if type =? ObjType_L2CNode then HCap type (u32 (lpaddr + i * objsize)) OBJSIZE_L2CNODE 0 0 0
  else if type_is_vnode type then HCap type (u64 (lpaddr + u32 (i * vnode_objsize type))) (vnode_objsize type) 0 0 0
  else if type =? ObjType_Dispatcher then HCap type (u32 (lpaddr + i * OBJSIZE_DISPATCHER)) OBJSIZE_DISPATCHER 0 0 0
  else if type =? ObjType_KernelControlBlock then HCap type (u32 (lpaddr + i * OBJSIZE_KCB)) OBJSIZE_KCB 0 0 0
  else if type =? ObjType_IO then HCap type 0 0 0 65535 0
  else HCap type 0 0 0 0 0.

(** The loop that fills the slots from [dest] on: the error and the number of
    slots that were filled. *)
Fixpoint create_loop (n : nat) (type lpaddr objsize dest i : Z) (k : kcaps) : errval * Z * kcaps :=
  match n with
  | O => (SYS_ERR_OK, i, k)
  | S n' =>
    let '(e, k') := set_cap (u32 (dest + OBJSIZE_CTE * i)) (created_cap type lpaddr objsize i) CAPRIGHTS_ALLRIGHTS k in
    if err_is_fail e then (e, i, k) else create_loop n' type lpaddr objsize dest (i + 1) k'
  end.

Fixpoint each_slot (n : nat) (dest i : Z) (f : Z -> kcaps -> kcaps) (k : kcaps) : kcaps :=
  match n with
  | O => k
  | S n' => each_slot n' dest (i + 1) f (f (u32 (dest + OBJSIZE_CTE * i)) k)
  end.

Section Core.
Context (my_core_id : Z).

(** [caps_create].  The owner of an ID and of a kernel control block is not
    set; a kernel control block that cannot be stored leaves the ones before
    it in their slots. *)
Definition caps_create (type lpaddr size objsize count owner dest_caps : Z) (k : kcaps) : outcome (errval * kcaps) :=
  ASSERT negb (type =? ObjType_Null);
  ASSERT type <? ObjType_Num;
  ASSERT 0 <? count;
  ASSERT negb (type_is_mapping type);
  let k := if owner =? my_core_id then set_zeroed (zeroed k ++ caps_zero_objects type lpaddr objsize count) k else k in
  let own (n : nat) (k : kcaps) := each_slot n dest_caps 0 (fun a k => set_owner (<[a := owner]> (owner_of k)) k) k in
  if type =? ObjType_KernelControlBlock then
    let '(e, _, k) := create_loop (Z.to_nat count) type lpaddr objsize dest_caps 0 k in Done (e, k)
  else if type =? ObjType_ID then
    ASSERT lpaddr =? 0; ASSERT size =? 0; ASSERT objsize =? 0; ASSERT count =? 1;
    if 2 ^ 32 - 1 <=? id_cap_counter k then Done (err SYS_ERR_ID_SPACE_EXHAUSTED, k) else
    let cap := HCap type 0 0 my_core_id (id_cap_counter k) 0 in
    Done (set_cap dest_caps cap CAPRIGHTS_ALLRIGHTS (set_id_counter (id_cap_counter k + 1) k))
  else if (type =? 12) || (type =? 45) || (type =? 39) || (type =? 7) || (type =? 41) || (type =? 43) || (type =? 40) then
    ASSERT lpaddr =? 0; ASSERT size =? 0; ASSERT objsize =? 0; ASSERT count =? 1;
    let '(e, k) := set_cap dest_caps (created_cap type 0 0 0) CAPRIGHTS_ALLRIGHTS k in
    if err_is_fail e then Done (e, k) else Done (e, own 1%nat k)
  else if (type =? 1) || (type =? 2) || (type =? 3) || (type =? 4) || (type =? 6) || (type =? 8) || (type =? 10)
          || type_is_vnode type then
    ASSERT negb (type =? ObjType_Frame) || (Z.land objsize 4095 =? 0);
    ASSERT negb (type =? ObjType_L1CNode) || ((OBJSIZE_L2CNODE <=? objsize) && (objsize `mod` OBJSIZE_L2CNODE =? 0));
    let '(e, n, k) := create_loop (Z.to_nat count) type lpaddr objsize dest_caps 0 k in
    if err_is_fail e then Done (e, each_slot (Z.to_nat n) dest_caps 0 clear_slot k)
    else Done (SYS_ERR_OK, own (Z.to_nat count) k)
  else Fault Panicked.

(** * Retype *)

(** Generated by Hamlet: a type that can be retyped several times, or an
    entry without descendants. *)
Definition is_revoked_first (c : cte) (src_type : Z) (k : kcaps) : bool :=
  if src_type =? ObjType_Dispatcher then true
  else if (src_type =? 1) || (src_type =? 2) || (src_type =? 8) || (src_type =? 10) || type_is_vnode src_type
  then negb (has_descendants c (mdb_root k))
  else false.

Definition is_retypeable (c : cte) (src_type dest_type : Z) (from_monitor : bool) (k : kcaps) : errval :=
  if negb (is_well_founded src_type dest_type) then err SYS_ERR_INVALID_RETYPE
  else if negb (is_revoked_first c src_type k) then err SYS_ERR_REVOKE_FIRST
  else if (dest_type =? ObjType_EndPoint) && (owner_of k (cte_addr c) =? my_core_id) then SYS_ERR_OK
  else if negb from_monitor && (negb (owner_of k (cte_addr c) =? my_core_id) || remote_descs c)
  then err SYS_ERR_RETRY_THROUGH_MONITOR
  else SYS_ERR_OK.

(** The checks of the sizes: the error. *)
Definition retype_size_check (type objsize offset : Z) : errval :=
  let base_size := if type_is_vnode type then vnode_objsize type else BASE_PAGE_SIZE in
  if negb (offset `mod` BASE_PAGE_SIZE =? 0) then err SYS_ERR_RETYPE_INVALID_OFFSET
  else if type_is_mappable type && negb (objsize `mod` base_size =? 0) then err SYS_ERR_INVALID_SIZE
  else if (type =? ObjType_L1CNode) && negb (objsize `mod` OBJSIZE_L2CNODE =? 0) then err SYS_ERR_INVALID_SIZE
  else if (type =? ObjType_L2CNode) && negb (objsize =? OBJSIZE_L2CNODE) then err SYS_ERR_INVALID_SIZE
  else if type_is_mapping type then err SYS_ERR_RETYPE_MAPPING_EXPLICIT
  else SYS_ERR_OK.

(** The range check: whether another capability lies in the range. *)
Definition retype_range_check (src : cte) (base bytes : Z) (k : kcaps) : outcome bool :=
  '(e, (result, found)) ← mdb_find_range (get_type_root (cap_type (cte_cap src))) base bytes
                            MDB_RANGE_FOUND_SURROUNDING true true (mdb_root k);
  ASSERT err_is_ok e;
  if MDB_RANGE_FOUND_INNER <=? result then Done true
  else if result =? MDB_RANGE_FOUND_SURROUNDING then
    match found with
    | Some f => Done (negb (is_copy (cte_cap f) (cte_cap src)))
    | None => Fault NullDereference
    end
  else Done false.

(** Whether all slots are empty. *)
Fixpoint slots_empty (n : nat) (cnode dest_slot i : Z) (k : kcaps) : bool :=
  match n with
  | O => true
  | S n' => (slot_type k (caps_locate_slot cnode (u32 (dest_slot + i))) =? ObjType_Null)
            && slots_empty n' cnode dest_slot (i + 1) k
  end.

(** [mdb_insert] of the slot [a]; its error is ignored. *)
Definition insert_slot (a : Z) (k : kcaps) : kcaps :=
  let '(t, e) := mdb_insert (slot k a) (mdb_root k) in
  if err_is_fail e then k else set_root t (clear_slot a k).

(** The checks of [caps_retype]: the error and the address of the objects. *)
Definition retype_checks (type objsize count dest_cnode dest_slot src offset : Z) (from_monitor : bool) (k : kcaps)
  : outcome (errval * Z) :=
  let src_cte := slot k src in let src_cap := cte_cap src_cte in
  let cnode_cap := cte_cap (slot k dest_cnode) in
  ASSERT negb (type =? ObjType_Null);
  ASSERT type <? ObjType_Num;
  let e := retype_size_check type objsize offset in
  if err_is_fail e then Done (e, 0) else
  let e := is_retypeable src_cte (cap_type src_cap) type from_monitor k in
  if err_is_fail e && negb (bool_decide (err_no e = Some SYS_ERR_REVOKE_FIRST)) then Done (e, 0) else
  let do_range_check := err_is_fail e in
  let ty := cap_type src_cap in
  ASSERT (ty =? 1) || (ty =? 2) || (ty =? 6) || (ty =? 8) || (ty =? 10);
  let disp := ty =? ObjType_Dispatcher in
  maxobjs ← caps_max_numobjs type (get_size src_cap) objsize;
  if maxobjs =? 0 then Done (err SYS_ERR_INVALID_SIZE, 0) else
  if maxobjs <? count then Done (err SYS_ERR_RETYPE_INVALID_COUNT, 0) else
  if count =? 0 then Done (err SYS_ERR_RETYPE_INVALID_COUNT, 0) else
  if negb disp && (get_size src_cap <? u64 (offset + u64 (count * objsize)))
  then Done (err SYS_ERR_RETYPE_INVALID_OFFSET, 0) else
  let base := if disp then 0 else u64 (get_address src_cap + offset) in
  revoke ← (if negb disp && do_range_check then retype_range_check src_cte base (u64 (objsize * count)) k else Done false);
  if (revoke : bool) then Done (err SYS_ERR_REVOKE_FIRST, 0) else
  slots ← cnode_get_slots cnode_cap;
  if slots <? u32 (dest_slot + count) then Done (err SYS_ERR_SLOTS_INVALID, 0) else
  if negb (slots_empty (Z.to_nat count) (get_address cnode_cap) dest_slot 0 k) then Done (err SYS_ERR_SLOTS_IN_USE, 0) else
  Done (SYS_ERR_OK, base).

(** [caps_retype]. *)
Definition caps_retype (type objsize count dest_cnode dest_slot src offset : Z) (from_monitor : bool) (k : kcaps)
  : outcome (errval * kcaps) :=
  '(e, base) ← retype_checks type objsize count dest_cnode dest_slot src offset from_monitor k;
  if err_is_fail e then Done (e, k) else
  let src_cap := cte_cap (slot k src) in
  let size := if cap_type src_cap =? ObjType_Dispatcher then 0 else get_size src_cap in
  let dest_cte := caps_locate_slot (get_address (cte_cap (slot k dest_cnode))) dest_slot in
  '(e, k) ← caps_create type (u32 base) size objsize count my_core_id dest_cte k;
  if err_is_fail e then Done (err_push e SYS_ERR_RETYPE_CREATE, k) else
  k ← (if type =? ObjType_EndPoint then
         ASSERT cap_type src_cap =? ObjType_Dispatcher;
         ASSERT count =? 1;
         Done (set_loose (map (fun c => if cte_addr c =? dest_cte
                                        then Cte dest_cte (HCap ObjType_EndPoint (h_address src_cap) 0 0 0 0) false false false
                                        else c) (loose k)) k)
       else Done k);
  Done (SYS_ERR_OK, each_slot (Z.to_nat count) dest_cte 0 insert_slot k).

(** * Copy and mint *)

Definition LMP_RECV_HEADER_LENGTH : Z := 1.

(** [caps_copy_to_cte]. *)
Definition caps_copy_to_cte (dest src : Z) (mint : bool) (param1 param2 : Z) (k : kcaps) : outcome (errval * kcaps) :=
  let src_cte := slot k src in let src_cap := cte_cap src_cte in
  if cap_type src_cap =? ObjType_Null then Done (err SYS_ERR_CAP_NOT_FOUND, k) else
  ASSERT mint || ((param1 =? 0) && (param2 =? 0));
  ASSERT negb (in_delete k src);
  let '(e, k) := set_cap dest src_cap (rights_of k src) k in
  if err_is_fail e then Done (e, k) else
  let put (cap : hcap) (k : kcaps) :=
    set_loose (map (fun c => if cte_addr c =? dest
                             then Cte dest cap (remote_copies src_cte) (remote_ancs src_cte) (remote_descs src_cte)
                             else c) (loose k)) k in
  let k := put src_cap (set_locked (<[dest := locked k src]> (locked k))
                          (set_owner (<[dest := owner_of k src]> (owner_of k)) k)) in
  let k := set_endpoint (<[dest := endpoint_of k src]> (endpoint_of k)) k in
  if negb mint then Done (SYS_ERR_OK, insert_slot dest k) else
  if cap_type src_cap =? ObjType_EndPoint then
    if param2 <? LMP_RECV_HEADER_LENGTH then Done (err SYS_ERR_INVALID_EPLEN, k)
    else Done (SYS_ERR_OK, insert_slot dest (set_endpoint (<[dest := (param1, param2)]> (endpoint_of k)) k))
  else if cap_type src_cap =? ObjType_IO then
    let s := if h_eq0 src_cap <=? param1 then u16 param1 else h_eq0 src_cap in
    let e := if param2 <=? h_eq1 src_cap then u16 param2 else h_eq1 src_cap in
    Done (SYS_ERR_OK, insert_slot dest (put (HCap ObjType_IO 0 0 s e 0) k))
  else Done (err SYS_ERR_INVALID_SOURCE_TYPE, k).

(** [caps_copy_to_cnode]. *)
Definition caps_copy_to_cnode (dest_cnode dest_slot src : Z) (mint : bool) (param1 param2 : Z) (k : kcaps)
  : outcome (errval * kcaps) :=
  let cn := slot_type k dest_cnode in
  ASSERT (cn =? ObjType_L1CNode) || (cn =? ObjType_L2CNode);
  if (cn =? ObjType_L1CNode) && negb (slot_type k src =? ObjType_L2CNode)
     && negb (slot_type k src =? ObjType_KernelControlBlock)
  then Done (err SYS_ERR_DEST_TYPE_INVALID, k) else
  caps_copy_to_cte (caps_locate_slot (get_address (cte_cap (slot k dest_cnode))) dest_slot) src mint param1 param2 k.
End Core.

(** * Lookup *)

(** [caps_lookup_slot]: the error and the slot. *)
Definition caps_lookup_slot (rootcn cptr level rights : Z) (k : kcaps) : outcome (errval * Z) :=
  let l1index := Z.land (Z.shiftr cptr 8) (Z.ones 24) in
  let l2index := Z.land cptr (Z.ones 8) in
  if 2 <? level then Done (err SYS_ERR_CAP_LOOKUP_DEPTH, 0) else
  if level =? 0 then Done (SYS_ERR_OK, rootcn) else
  if negb (slot_type k rootcn =? ObjType_L1CNode) then Done (err SYS_ERR_CNODE_TYPE, 0) else
  slots ← cnode_get_slots (cte_cap (slot k rootcn));
  if slots <=? l1index then Done (err SYS_ERR_L1_CNODE_INDEX, 0) else
  if negb (Z.land (rights_of k rootcn) rights =? rights) then Done (err SYS_ERR_CNODE_RIGHTS, 0) else
  let l2cnode := caps_locate_slot (get_address (cte_cap (slot k rootcn))) l1index in
  if level =? 1 then
    if slot_type k l2cnode =? ObjType_Null then Done (err SYS_ERR_CAP_NOT_FOUND, 0) else Done (SYS_ERR_OK, l2cnode)
  else
  if slot_type k l2cnode =? ObjType_Null then Done (err SYS_ERR_CNODE_NOT_FOUND, 0) else
  if negb (slot_type k l2cnode =? ObjType_L2CNode) then Done (err SYS_ERR_CNODE_TYPE, 0) else
  if negb (Z.land (rights_of k l2cnode) rights =? rights) then Done (err SYS_ERR_CNODE_RIGHTS, 0) else
  let c := caps_locate_slot (get_address (cte_cap (slot k l2cnode))) l2index in
  if slot_type k c =? ObjType_Null then Done (err SYS_ERR_CAP_NOT_FOUND, 0) else Done (SYS_ERR_OK, c).

(** [caps_lookup_cap]: a capability is named by its slot. *)
Definition caps_lookup_cap (rootcn cptr level rights : Z) (k : kcaps) : outcome (errval * Z) :=
  caps_lookup_slot rootcn cptr level rights k.

(** A lookup whose error is pushed under another code. *)
Definition lookup_or (code : err_code) (rootcn cptr level rights : Z) (k : kcaps)
  (f : Z -> outcome (errval * kcaps)) : outcome (errval * kcaps) :=
  '(e, a) ← caps_lookup_slot rootcn cptr level rights k;
  if err_is_fail e then Done (err_push e code, k) else f a.

(** * Creating from outside *)

(** Types whose capabilities have an owner. *)
Definition distcap_needs_locality (ty : Z) : bool :=
  ((1 <=? ty) && (ty <=? 11)) || ((13 <=? ty) && (ty <=? 38)).

(** The entry next to [c] if it is a copy of it. *)
Definition neighbour_copy (c : cte) (t : tree) : option cte :=
  match mdb_predecessor c t with
  | Some p => if is_copy (cte_cap c) (cte_cap p) then Some p else
    match mdb_successor c t with
    | Some n => if is_copy (cte_cap c) (cte_cap n) then Some n else None
    | None => None
    end
  | None =>
    match mdb_successor c t with
    | Some n => if is_copy (cte_cap c) (cte_cap n) then Some n else None
    | None => None
    end
  end.

Definition with_bits (copies ancs descs : bool) (c : cte) : cte := Cte (cte_addr c) (cte_cap c) copies ancs descs.

(** [caps_create_from_existing] of the capability [cap] with [rights]. *)
Definition caps_create_from_existing (my_core_id root cnode_cptr cnode_level dest_slot owner : Z) (cap : hcap) (rights : Z)
  (k : kcaps) : outcome (errval * kcaps) :=
  lookup_or SYS_ERR_SLOT_LOOKUP_FAIL root cnode_cptr cnode_level CAPRIGHTS_READ_WRITE k (fun cnode =>
  if negb (slot_type k cnode =? ObjType_L1CNode) && negb (slot_type k cnode =? ObjType_L2CNode)
  then Done (err SYS_ERR_CNODE_TYPE, k) else
  let dest := caps_locate_slot (get_address (cte_cap (slot k cnode))) dest_slot in
  let '(e, k) := set_cap dest cap rights k in
  if err_is_fail e then Done (e, k) else
  let k := set_owner (<[dest := owner]> (owner_of k)) k in
  let '(t, e) := mdb_insert (slot k dest) (mdb_root k) in
  ASSERT err_is_ok e;
  let k := set_root t (clear_slot dest k) in
  match neighbour_copy (slot k dest) t with
  | Some n =>
    ASSERT negb (in_delete k (cte_addr n));
    ASSERT owner_of k (cte_addr n) =? owner;
    let k := set_locked (<[dest := locked k (cte_addr n)]> (locked k)) k in
    Done (SYS_ERR_OK, set_root (update_at dest (with_bits (remote_copies n) (remote_ancs n) (remote_descs n)) t) k)
  | None =>
    let k := set_locked (<[dest := false]> (locked k)) k in
    let bits := if negb (owner =? my_core_id) then with_bits true false false
                else with_bits false (distcap_needs_locality (h_type cap)) false in
    Done (SYS_ERR_OK, set_root (update_at dest bits t) k)
  end).

Definition check_caps_create_arguments (type bytes objsize : Z) (exact : bool) : bool :=
  let base_mask := if type_is_vnode type then vnode_objsize type - 1 else 4095 in
  if type_is_mappable type then
    if negb (Z.land bytes base_mask =? 0) then false
    else if (0 <? objsize) && negb (Z.land objsize base_mask =? 0) then false
    else if exact && (0 <? bytes) && (0 <? objsize) then bytes `mod` objsize =? 0
    else true
  else if type =? ObjType_L1CNode then
    if (bytes <? OBJSIZE_L2CNODE) || (objsize <? OBJSIZE_L2CNODE) then false
    else if exact && negb (bytes `mod` objsize =? 0) then false
    else objsize `mod` OBJSIZE_CTE =? 0
  else if type =? ObjType_L2CNode then
    if (bytes <? OBJSIZE_L2CNODE) || negb (objsize =? OBJSIZE_L2CNODE) then false
    else negb (exact && negb (bytes `mod` objsize =? 0))
  else if type =? ObjType_Dispatcher then
    if negb (Z.land bytes (OBJSIZE_DISPATCHER - 1) =? 0) then false
    else negb ((0 <? objsize) && negb (objsize =? OBJSIZE_DISPATCHER))
  else true.

(** [caps_create_new]. *)
Definition caps_create_new (my_core_id type addr bytes objsize owner caps : Z) (k : kcaps) : outcome (errval * kcaps) :=
  ASSERT negb (type =? ObjType_EndPoint);
  ASSERT check_caps_create_arguments type bytes objsize false;
  ASSERT (addr =? 0) || check_caps_create_arguments type bytes objsize true;
  numobjs ← caps_max_numobjs type bytes objsize;
  ASSERT 0 <? numobjs;
  '(e, k) ← caps_create my_core_id type addr bytes objsize numobjs owner caps k;
  if err_is_fail e then Done (e, k) else
  Done (SYS_ERR_OK, each_slot (Z.to_nat numobjs) caps 0 insert_slot k).

(** * System calls *)

(** [sys_create]: identifiers are the only type. *)
Definition sys_create (my_core_id root type objsize dest_cnode_cptr dest_level dest_slot : Z) (k : kcaps)
  : outcome (errval * kcaps) :=
  if (type =? ObjType_Null) || (ObjType_Num <=? type) then Done (err SYS_ERR_ILLEGAL_DEST_TYPE, k) else
  lookup_or SYS_ERR_DEST_CNODE_LOOKUP root dest_cnode_cptr dest_level CAPRIGHTS_READ_WRITE k (fun dest_cnode =>
  let dest := caps_locate_slot (get_address (cte_cap (slot k dest_cnode))) dest_slot in
  if negb (slot_type k dest =? ObjType_Null) then Done (err SYS_ERR_SLOTS_IN_USE, k) else
  if negb (type =? ObjType_ID) then Done (err SYS_ERR_TYPE_NOT_CREATABLE, k) else
  caps_create_new my_core_id type 0 0 objsize my_core_id dest k).

(** [sys_retype]. *)
Definition sys_retype (my_core_id root source_croot source_cptr offset type objsize count
  dest_cspace_cptr dest_cnode_cptr dest_cnode_level dest_slot : Z) (from_monitor : bool) (k : kcaps)
  : outcome (errval * kcaps) :=
  if (type =? ObjType_Null) || (ObjType_Num <=? type) then Done (err SYS_ERR_ILLEGAL_DEST_TYPE, k) else
  lookup_or SYS_ERR_SOURCE_ROOTCN_LOOKUP root source_croot 2 CAPRIGHTS_READ k (fun source_root =>
  lookup_or SYS_ERR_SOURCE_CAP_LOOKUP source_root source_cptr 2 CAPRIGHTS_READ k (fun source_cte =>
  lookup_or SYS_ERR_DEST_ROOTCN_LOOKUP root dest_cspace_cptr 2 CAPRIGHTS_READ k (fun dest_root =>
  if negb (slot_type k dest_root =? ObjType_L1CNode) then Done (err SYS_ERR_CNODE_TYPE, k) else
  lookup_or SYS_ERR_DEST_CNODE_LOOKUP dest_root dest_cnode_cptr dest_cnode_level CAPRIGHTS_READ_WRITE k (fun dest_cnode =>
  if negb (slot_type k dest_cnode =? ObjType_L1CNode) && negb (slot_type k dest_cnode =? ObjType_L2CNode)
  then Done (err SYS_ERR_DEST_CNODE_INVALID, k) else
  caps_retype my_core_id type objsize count dest_cnode dest_slot source_cte offset from_monitor k)))).

(** [sys_copy_or_mint]. *)
Definition sys_copy_or_mint (root dest_cspace_cptr destcn_cptr dest_slot source_croot_ptr source_cptr
  destcn_level source_level param1 param2 : Z) (mint : bool) (k : kcaps) : outcome (errval * kcaps) :=
  let param1 := if mint then param1 else 0 in let param2 := if mint then param2 else 0 in
  if negb (slot_type k root =? ObjType_L1CNode) then Done (err SYS_ERR_CNODE_NOT_ROOT, k) else
  lookup_or SYS_ERR_SOURCE_ROOTCN_LOOKUP root source_croot_ptr 2 CAPRIGHTS_READ k (fun src_croot =>
  if negb (slot_type k src_croot =? ObjType_L1CNode) then Done (err SYS_ERR_CNODE_NOT_ROOT, k) else
  lookup_or SYS_ERR_SOURCE_CAP_LOOKUP src_croot source_cptr source_level CAPRIGHTS_READ k (fun src_cap =>
  lookup_or SYS_ERR_DEST_ROOTCN_LOOKUP root dest_cspace_cptr 2 CAPRIGHTS_READ k (fun dest_root =>
  if negb (slot_type k dest_root =? ObjType_L1CNode) then Done (err SYS_ERR_CNODE_TYPE, k) else
  lookup_or SYS_ERR_DEST_CNODE_LOOKUP dest_root destcn_cptr destcn_level CAPRIGHTS_READ_WRITE k (fun dest_cnode =>
  if (slot_type k dest_cnode =? ObjType_L1CNode) || (slot_type k dest_cnode =? ObjType_L2CNode)
  then caps_copy_to_cnode dest_cnode dest_slot src_cap mint param1 param2 k
  else Done (err SYS_ERR_DEST_TYPE_INVALID, k))))).
