(* ===== verification/CapDelete.v ===== *)
(** Deletion and revocation of capabilities (kernel/cap_delete.c) and the
    removal of mappings that goes with it (kernel/paging_generic.c), on top
    of [Caps].

    The delete list and the clear list are linked through the slots
    themselves ([next_of], 0 is NULL), as in the code: the lists, and the
    list of the mappings to delete, share that field. *)
From S2P Require Import Prelude MdbTree Hamlet MdbInv MdbRel Caps.

(** Generated by Hamlet: [child] can come from [parent] in one step and lies
    inside of it. *)
Definition is_ancestor (child parent : hcap) : bool :=
  if negb (is_well_founded (h_type parent) (h_type child)) then false else
  let pa := h_get_address parent in let pe := u64 (pa + h_get_size parent) in
  let ca := h_get_address child in let ce := u64 (ca + h_get_size child) in
  if h_type child =? h_type parent then ((pa <? ca) && (ce <=? pe)) || ((pa <=? ca) && (ce <? pe))
  else (pa <=? ca) && (ce <=? pe).

Definition get_mapping_type (ty : Z) : Z := if type_is_mappable ty then ty + 1 else ObjType_Null.

(** * The state *)

Record kdel := KDel {
  kc : kcaps;
  delete_head : Z; delete_tail : Z;
  clear_head : Z; clear_tail : Z;
  next_of : Z -> Z;              (** [delete_node.next] of a slot *)
  map_of : Z -> Z;               (** the slot that a mapping refers to *)
  unmapped : list Z;             (** mappings whose entries were cleared *)
  messages : list (list Z);      (** what the kernel sent to the monitor *)
  stopped : list Z;              (** dispatchers that were taken from the queues *)
  dcb_current : Z;
  monitor_type : Z; monitor_listener : Z
}.

Definition with_kc (x : kcaps) (s : kdel) : kdel :=
  KDel x (delete_head s) (delete_tail s) (clear_head s) (clear_tail s) (next_of s) (map_of s) (unmapped s) (messages s) (stopped s) (dcb_current s) (monitor_type s) (monitor_listener s).
Definition with_delete (h t : Z) (s : kdel) : kdel :=
  KDel (kc s) h t (clear_head s) (clear_tail s) (next_of s) (map_of s) (unmapped s) (messages s) (stopped s) (dcb_current s) (monitor_type s) (monitor_listener s).
Definition with_clear (h t : Z) (s : kdel) : kdel :=
  KDel (kc s) (delete_head s) (delete_tail s) h t (next_of s) (map_of s) (unmapped s) (messages s) (stopped s) (dcb_current s) (monitor_type s) (monitor_listener s).
Definition with_next (a n : Z) (s : kdel) : kdel :=
  KDel (kc s) (delete_head s) (delete_tail s) (clear_head s) (clear_tail s) (<[a := n]> (next_of s)) (map_of s) (unmapped s) (messages s) (stopped s) (dcb_current s) (monitor_type s) (monitor_listener s).
Definition with_unmapped (a : Z) (s : kdel) : kdel :=
  KDel (kc s) (delete_head s) (delete_tail s) (clear_head s) (clear_tail s) (next_of s) (map_of s) (unmapped s ++ [a]) (messages s) (stopped s) (dcb_current s) (monitor_type s) (monitor_listener s).
Definition with_message (m : list Z) (s : kdel) : kdel :=
  KDel (kc s) (delete_head s) (delete_tail s) (clear_head s) (clear_tail s) (next_of s) (map_of s) (unmapped s) (messages s ++ [m]) (stopped s) (dcb_current s) (monitor_type s) (monitor_listener s).
Definition with_stopped (d : Z) (s : kdel) : kdel :=
  KDel (kc s) (delete_head s) (delete_tail s) (clear_head s) (clear_tail s) (next_of s) (map_of s) (unmapped s) (messages s) (stopped s ++ [d])
    (if dcb_current s =? d then 0 else dcb_current s) (monitor_type s) (monitor_listener s).
Definition with_listener (l : Z) (s : kdel) : kdel :=
  KDel (kc s) (delete_head s) (delete_tail s) (clear_head s) (clear_tail s) (next_of s) (map_of s) (unmapped s) (messages s) (stopped s) (dcb_current s) (monitor_type s) l.

Definition root_of (s : kdel) : tree := mdb_root (kc s).
Definition at_slot (s : kdel) (a : Z) : cte := slot (kc s) a.
Definition type_at (s : kdel) (a : Z) : Z := slot_type (kc s) a.
Definition fuel_of (s : kdel) : nat := S (length (elements (root_of s))).

(** [memset(cte, 0, sizeof *cte)]. *)
Definition wipe (a : Z) (s : kdel) : kdel :=
  let k := clear_slot a (kc s) in
  let k := set_owner (<[a := 0]> (owner_of k)) k in
  let k := set_locked (<[a := false]> (locked k)) k in
  let k := set_in_delete (<[a := false]> (in_delete k)) k in
  let k := set_rights (<[a := 0]> (rights_of k)) k in
  let k := set_endpoint (<[a := (0, 0)]> (endpoint_of k)) k in
  with_next a 0 (with_kc k s).

Section Delete.
(** The core, the offsets of the slots inside of a dispatcher control block,
    and the delivery of messages to the monitor's endpoint, given the
    messages that were delivered before. *)
Context (my_core_id dcb_cspace dcb_disp_cte : Z).
Context (lmp_can_deliver : list (list Z) -> Z -> errval) (lmp_deliver : list (list Z) -> list Z -> errval).

Definition distcap_is_foreign (s : kdel) (a : Z) : bool := negb (owner_of (kc s) a =? my_core_id).

(** * Deleting one capability

    The removal of mappings and the deletion of a capability call each
    other: [unmap] is the former.  Mappings have none of their own. *)
Section WithUnmap.
Context (unmap : Z -> kdel -> outcome kdel).

Definition cleanup_copy_with (a : Z) (s : kdel) : outcome (errval * kdel) :=
  let ty := type_at s a in
  s ← (if type_is_vnode ty || (ty =? ObjType_Frame) || (ty =? ObjType_DevFrame) then unmap a s else Done s);
  let c := at_slot s a in
  s ← (if distcap_is_foreign s a && (remote_copies c || remote_descs c) then
         anc ← mdb_find_ancestor c (root_of s);
         match anc with
         | Some p =>
           match mdb_set_relations (fuel_of s) p RRELS_DESC_BIT RRELS_DESC_BIT (root_of s) with
           | Some t => Done (with_kc (set_root t (kc s)) s)
           | None => Fault OutOfFuel
           end
         | None => Done s
         end
       else Done s);
  '(t, e) ← mdb_remove (at_slot s a) (root_of s);
  if err_is_fail e then Done (e, s) else
  ASSERT negb (mdb_is_reachable t a);
  Done (SYS_ERR_OK, wipe a (with_kc (set_root t (kc s)) s)).

(** The RAM that becomes free with the last capability for it. *)
Definition freed_ram (c : cte) (s : kdel) : outcome (Z * Z) :=
  if has_descendants c (root_of s) then Done (0, 0) else
  ancs ← has_ancestors c (root_of s);
  if (ancs : bool) then Done (0, 0) else
  let ty := h_type (cte_cap c) in
  Done (if (ty =? 2) || (ty =? ObjType_Frame) || (ty =? ObjType_L1CNode) || (ty =? ObjType_L2CNode)
        then (h_get_address (cte_cap c), h_get_size (cte_cap c))
        else if ty =? ObjType_Dispatcher then (h_get_address (cte_cap c), OBJSIZE_DISPATCHER)
        else if type_is_vnode ty then (h_get_address (cte_cap c), vnode_objsize ty)
        else (0, 0)).

Definition RAM_MSG_LEN : Z := 5.

(** [cleanup_last]: the error, and whether the success was
    [SYS_ERR_RAM_CAP_CREATED]. *)
Definition cleanup_last_with (a : Z) (ret_ram_cap : option Z) (s : kdel) : outcome (errval * bool * kdel) :=
  let c := at_slot s a in
  ASSERT negb (has_copies c (root_of s));
  if (match ret_ram_cap with Some r => negb (type_at s r =? ObjType_Null) | None => false end)
  then Done (err SYS_ERR_SLOT_IN_USE, false, s) else
  '(base, bytes) ← freed_ram c s;
  if (0 <? bytes) && (match ret_ram_cap with None => true | Some _ => false end)
     && (monitor_type s =? ObjType_EndPoint) && err_is_fail (lmp_can_deliver (messages s) RAM_MSG_LEN)
  then Done (err SYS_ERR_RETRY_THROUGH_MONITOR, false, s) else
  '(e, s) ← cleanup_copy_with a s;
  if err_is_fail e then Done (e, false, s) else
  if negb (0 <? bytes) then Done (SYS_ERR_OK, false, s) else
  match ret_ram_cap with
  | Some r =>
    ASSERT type_at s r =? ObjType_Null;
    let ram := Cte r (HCap 2 base bytes 0 0 0) false false false in
    let '(t, e) := mdb_insert ram (root_of s) in
    ASSERT err_is_ok e;
    Done (SYS_ERR_OK, true, with_kc (set_root t (kc s)) s)
  | None =>
    if negb (monitor_type s =? 0) && negb (monitor_listener s =? 0) then
      let e := lmp_deliver (messages s) [base; bytes] in
      if err_is_ok e then Done (SYS_ERR_OK, false, with_message [base; bytes] s)
      else if bool_decide (err_no e = Some SYS_ERR_LMP_BUF_OVERFLOW) then Done (SYS_ERR_OK, false, s)
      else Fault AssertionFailed
    else Done (SYS_ERR_OK, false, s)
  end.

Definition holds_slots (ty : Z) : bool :=
  (ty =? ObjType_L1CNode) || (ty =? ObjType_L2CNode) || (ty =? ObjType_Dispatcher).

Definition caps_try_delete_with (a : Z) (s : kdel) : outcome (errval * kdel) :=
  if in_delete (kc s) a || locked (kc s) a then Done (err SYS_ERR_CAP_LOCKED, s) else
  let c := at_slot s a in
  if distcap_is_foreign s a || has_copies c (root_of s) then cleanup_copy_with a s
  else if remote_copies c || holds_slots (h_type (cte_cap c)) then Done (err SYS_ERR_DELETE_LAST_OWNED, s)
  else '(e, _, s) ← cleanup_last_with a None s; Done (e, s).

Definition caps_delete_with (a : Z) (s : kdel) : outcome (errval * kdel) :=
  if locked (kc s) a then Done (err SYS_ERR_CAP_LOCKED, s) else
  '(e, s) ← caps_try_delete_with a s;
  Done (if bool_decide (err_no e = Some SYS_ERR_DELETE_LAST_OWNED) then err_push e SYS_ERR_RETRY_THROUGH_MONITOR else e, s).
End WithUnmap.

(** * Removing the mappings of a capability *)

(** The first loop of [unmap_capability]: the mappings of the slot [mem]
    among the entries behind [next] with its address.  Their page table
    entries are cleared if the page table is found; they are linked.  The
    address for the TLB flush, which the code computes with [compile_vaddr]
    for the first of them, and the flush at the end are left out. *)
Fixpoint collect_mappings (fuel : nat) (mem faddr mtype : Z) (next : cte) (to_delete : list Z) (s : kdel)
  : outcome (list Z * kdel) :=
  match fuel with
  | O => Fault OutOfFuel
  | S fuel =>
    match mdb_successor next (root_of s) with
    | None => Done (to_delete, s)
    | Some n =>
      if negb (h_get_address (cte_cap n) =? faddr) then Done (to_delete, s) else
      let a := cte_addr n in
      if (h_type (cte_cap n) =? mtype) && (map_of s a =? mem) then
        let pte := h_eq0 (cte_cap n) in
        s ← (if pte =? 0 then Done s else
             '(e, pt) ← mdb_find_cap_for_address pte (root_of s);
             if err_is_fail e then Done s
             else match pt with Some _ => Done (with_unmapped a s) | None => Fault NullDereference end);
        ASSERT next_of s a =? 0;
        collect_mappings fuel mem faddr mtype n (a :: to_delete) (with_next a (default 0 (head to_delete)) s)
      else collect_mappings fuel mem faddr mtype n to_delete s
    end
  end.

(** The deletion of the collected mappings; errors are only printed. *)
Fixpoint delete_mappings (l : list Z) (s : kdel) : outcome kdel :=
  match l with
  | [] => Done s
  | a :: l => '(_, s) ← caps_delete_with (fun _ s => Done s) a s; delete_mappings l s
  end.

Definition unmap_capability (mem : Z) (s : kdel) : outcome kdel :=
  let c := at_slot s mem in
  '(l, s) ← collect_mappings (fuel_of s) mem (h_get_address (cte_cap c)) (get_mapping_type (h_type (cte_cap c))) c [] s;
  delete_mappings l s.

Definition cleanup_copy := cleanup_copy_with unmap_capability.
Definition cleanup_last := cleanup_last_with unmap_capability.
Definition caps_try_delete := caps_try_delete_with unmap_capability.
Definition caps_delete := caps_delete_with unmap_capability.

Definition caps_revoke (a : Z) (s : kdel) : errval :=
  if locked (kc s) a then err SYS_ERR_CAP_LOCKED else err SYS_ERR_RETRY_THROUGH_MONITOR.

(** * Marking *)

Definition caps_mark_revoke_copy (a : Z) (s : kdel) : outcome kdel :=
  '(e, s) ← caps_try_delete a s;
  if err_is_fail e then Fault Panicked else Done s.

(** The end of the delete list. *)
Definition delete_list_append (a : Z) (s : kdel) : outcome kdel :=
  if delete_tail s =? 0 then
    ASSERT delete_head s =? 0;
    Done (with_next a 0 (with_delete a a s))
  else
    ASSERT negb (delete_head s =? 0);
    ASSERT next_of s (delete_tail s) =? 0;
    Done (with_next a 0 (with_delete (delete_head s) a (with_next (delete_tail s) a s))).

Definition caps_mark_revoke_generic (a : Z) (s : kdel) : outcome kdel :=
  if type_at s a =? ObjType_Null then Done s else
  if in_delete (kc s) a then Done s else
  '(e, s) ← caps_try_delete a s;
  if bool_decide (err_no e = Some SYS_ERR_DELETE_LAST_OWNED) || bool_decide (err_no e = Some SYS_ERR_RETRY_THROUGH_MONITOR) then
    s ← delete_list_append a (with_kc (set_in_delete (<[a := true]> (in_delete (kc s))) (kc s)) s);
    Done (with_kc (set_root (update_at a (fun c => with_bits false (remote_ancs c) (remote_descs c) c) (root_of s)) (kc s)) s)
  else if err_is_fail e then Fault Panicked
  else Done s.

(** One of the loops that delete copies: from [prev] in the direction of
    [step], while the entry is a copy of [base]; the new [prev]. *)
Fixpoint mark_copies (fuel : nat) (step : cte -> tree -> option cte) (base : hcap) (revoked : option Z) (prev : Z) (s : kdel)
  : outcome (Z * kdel) :=
  match fuel with
  | O => Fault OutOfFuel
  | S fuel =>
    match step (at_slot s prev) (root_of s) with
    | None => Done (prev, s)
    | Some n =>
      if negb (is_copy base (cte_cap n)) then Done (prev, s) else
      let '(next, prev) := if bool_decide (Some (cte_addr n) = revoked) then (prev, cte_addr n) else (cte_addr n, prev) in
      ASSERT (match revoked with Some _ => true | None => negb (owner_of (kc s) next =? my_core_id) end);
      s ← caps_mark_revoke_copy next s;
      mark_copies fuel step base revoked prev s
    end
  end.

Fixpoint mark_descendants (fuel : nat) (base : hcap) (prev : Z) (s : kdel) : outcome (Z * kdel) :=
  match fuel with
  | O => Fault OutOfFuel
  | S fuel =>
    match mdb_successor (at_slot s prev) (root_of s) with
    | None => Done (prev, s)
    | Some n =>
      if negb (is_ancestor (cte_cap n) base) then Done (prev, s) else
      s ← caps_mark_revoke_generic (cte_addr n) s;
      mark_descendants fuel base (if type_at s (cte_addr n) =? ObjType_Null then prev else cte_addr n) s
    end
  end.

Definition caps_mark_revoke (base : hcap) (revoked : option Z) (s : kdel) : outcome (errval * kdel) :=
  ASSERT (match revoked with Some r => owner_of (kc s) r =? my_core_id | None => true end);
  match mdb_find_greater (0, base) true (root_of s) with
  | None => Done (err SYS_ERR_CAP_NOT_FOUND, s)
  | Some p =>
    if negb (is_copy base (cte_cap p) || is_ancestor (cte_cap p) base)
    then Done (err SYS_ERR_CAP_NOT_FOUND, s) else
    '(prev, s) ← mark_copies (fuel_of s) mdb_predecessor base revoked (cte_addr p) s;
    '(prev, s) ← mark_copies (fuel_of s) mdb_successor base revoked prev s;
    ASSERT (match revoked with Some r => prev =? r | None => true end);
    ASSERT is_copy (cte_cap (at_slot s prev)) base;
    '(prev, s) ← mark_descendants (fuel_of s) base prev s;
    if negb (bool_decide (Some prev = revoked)) && negb (in_delete (kc s) prev) then
      if is_copy base (cte_cap (at_slot s prev)) then
        s ← caps_mark_revoke_copy prev s; Done (SYS_ERR_OK, s)
      else
        ASSERT is_ancestor (cte_cap (at_slot s prev)) base;
        s ← caps_mark_revoke_generic prev s; Done (SYS_ERR_OK, s)
    else Done (SYS_ERR_OK, s)
  end.

(** * Sweeping *)

Definition clear_list_prepend (a : Z) (s : kdel) : outcome kdel :=
  ASSERT next_of s a =? 0;
  if clear_tail s =? 0 then
    ASSERT clear_head s =? 0;
    Done (with_next a 0 (with_clear a a s))
  else
    ASSERT negb (clear_head s =? 0);
    Done (with_clear a (clear_tail s) (with_next a (clear_head s) s)).

(** Marking the slots [i], ..., of a node. *)
Fixpoint mark_slots (n : nat) (cnode i : Z) (s : kdel) : outcome kdel :=
  match n with
  | O => Done s
  | S n => s ← caps_mark_revoke_generic (caps_locate_slot cnode i) s; mark_slots n cnode (i + 1) s
  end.

(** The object is put on the clear list when its slots are marked. *)
Definition to_clear_list (a : Z) (s : kdel) : outcome (errval * bool * kdel) :=
  ASSERT (next_of s a =? 0) || (delete_head s =? a);
  s ← clear_list_prepend a (with_next a 0 s);
  Done (SYS_ERR_OK, false, s).

Definition caps_delete_last (a : Z) (ret_ram_cap : option Z) (s : kdel) : outcome (errval * bool * kdel) :=
  ASSERT negb (has_copies (at_slot s a) (root_of s));
  '(e, s) ← caps_try_delete a s;
  if negb (bool_decide (err_no e = Some SYS_ERR_DELETE_LAST_OWNED)) && negb (bool_decide (err_no e = Some SYS_ERR_CAP_LOCKED))
  then Done (e, false, s) else
  let cap := cte_cap (at_slot s a) in
  if (h_type cap =? ObjType_L1CNode) || (h_type cap =? ObjType_L2CNode) then
    slots ← cnode_get_slots cap;
    s ← mark_slots (Z.to_nat slots) (h_get_address cap) 0 s;
    to_clear_list a s
  else if h_type cap =? ObjType_Dispatcher then
    let dcb := h_get_address cap in
    let s := with_stopped dcb s in
    s ← (if monitor_listener s =? dcb then Done (with_listener 0 s)
         else if negb (monitor_listener s =? 0) then
           let e := lmp_deliver (messages s) [dcb] in
           ASSERT err_is_ok e;
           Done (with_message [dcb] s)
         else Done s);
    s ← caps_mark_revoke_generic (u32 (dcb + dcb_cspace)) s;
    s ← caps_mark_revoke_generic (u32 (dcb + dcb_disp_cte)) s;
    to_clear_list a s
  else cleanup_last a ret_ram_cap s.

Definition caps_copyout_last (target ret_cte : Z) (s : kdel) : outcome (errval * kdel) :=
  '(e, k) ← caps_copy_to_cte ret_cte target false 0 0 (kc s);
  let s := with_kc k s in
  if err_is_fail e then Done (e, s) else cleanup_copy target s.

(** The head of the delete list is taken off. *)
Definition delete_list_pop (next : Z) (s : kdel) : kdel :=
  if next =? 0 then with_delete 0 0 s else with_delete next (delete_tail s) s.

Definition caps_delete_step (ret_next : Z) (s : kdel) : outcome (errval * bool * kdel) :=
  ASSERT type_at s ret_next =? ObjType_Null;
  if delete_head s =? 0 then
    ASSERT delete_tail s =? 0;
    Done (err SYS_ERR_CAP_NOT_FOUND, false, s)
  else
  ASSERT in_delete (kc s) (delete_head s);
  let a := delete_head s in let next := next_of s a in
  let c := at_slot s a in
  '(e, created, s) ←
    (if locked (kc s) a then Done (err SYS_ERR_CAP_LOCKED, false, s)
     else if distcap_is_foreign s a || has_copies c (root_of s) then
       '(e, s) ← cleanup_copy a s; Done (e, false, s)
     else if remote_copies c then
       '(e, s) ← caps_copyout_last a ret_next s;
       if err_is_fail e then Done (e, false, s)
       else Done (err SYS_ERR_DELETE_LAST_OWNED, false, delete_list_pop next s)
     else
       '(e, created, s) ← caps_delete_last a (Some ret_next) (with_next a 0 s);
       Done (e, created, if err_is_fail e then with_next a next s else s));
  Done (e, created, if err_is_ok e then delete_list_pop next s else s).

(** [CHECK_SLOT] of [caps_clear_step]. *)
Definition slot_cleared (s : kdel) (a : Z) : bool :=
  (type_at s a =? ObjType_Null) || (holds_slots (type_at s a) && in_delete (kc s) a).

Fixpoint slots_cleared (n : nat) (cnode i : Z) (s : kdel) : bool :=
  match n with
  | O => true
  | S n => slot_cleared s (caps_locate_slot cnode i) && slots_cleared n cnode (i + 1) s
  end.

Definition caps_clear_step (ret_ram_cap : Z) (s : kdel) : outcome (errval * bool * kdel) :=
  ASSERT delete_head s =? 0;
  ASSERT delete_tail s =? 0;
  if clear_head s =? 0 then
    ASSERT clear_tail s =? 0;
    Done (err SYS_ERR_CAP_NOT_FOUND, false, s)
  else
  let a := clear_head s in
  ASSERT Bool.eqb (clear_head s =? clear_tail s) (next_of s a =? 0);
  let cap := cte_cap (at_slot s a) in
  _ ← (if (h_type cap =? ObjType_L1CNode) || (h_type cap =? ObjType_L2CNode) then
         slots ← cnode_get_slots cap;
         ASSERT slots_cleared (Z.to_nat slots) (h_get_address cap) 0 s; Done tt
       else if h_type cap =? ObjType_Dispatcher then
         ASSERT slot_cleared s (u32 (h_get_address cap + dcb_cspace));
         ASSERT slot_cleared s (u32 (h_get_address cap + dcb_disp_cte)); Done tt
       else Fault Panicked);
  let after := next_of s a in
  '(e, created, s) ← cleanup_last a (Some ret_ram_cap) s;
  Done (e, created, if err_is_ok e then (if after =? 0 then with_clear 0 0 s else with_clear after (clear_tail s) s) else s).

(** * Capabilities of other cores *)

(** One of the loops of [caps_delete_foreigns].  The step is taken from the
    slot that was just cleared. *)
Fixpoint delete_foreign_copies (fuel : nat) (step : cte -> tree -> option cte) (a : Z) (next : option cte) (s : kdel)
  : outcome kdel :=
  match next with
  | None => Done s
  | Some n =>
    if negb (is_copy (cte_cap (at_slot s a)) (cte_cap n)) then Done s else
    match fuel with
    | O => Fault OutOfFuel
    | S fuel =>
      ASSERT negb (owner_of (kc s) (cte_addr n) =? my_core_id);
      '(e, s) ← cleanup_copy (cte_addr n) s;
      if err_is_fail e then Fault Panicked else
      delete_foreign_copies fuel step a (step (at_slot s (cte_addr n)) (root_of s)) s
    end
  end.

Definition caps_delete_foreigns (a : Z) (s : kdel) : outcome (errval * kdel) :=
  if owner_of (kc s) a =? my_core_id then Done (err SYS_ERR_DELETE_REMOTE_LOCAL, s) else
  s ← delete_foreign_copies (fuel_of s) mdb_successor a (mdb_successor (at_slot s a) (root_of s)) s;
  s ← delete_foreign_copies (fuel_of s) mdb_predecessor a (mdb_predecessor (at_slot s a) (root_of s)) s;
  let s := with_kc (set_locked (<[a := false]> (locked (kc s))) (kc s)) s in
  '(e, s) ← caps_try_delete a s;
  if err_is_fail e then Fault Panicked else Done (SYS_ERR_OK, s).
End Delete.
