(* ===== verification/Monitor.v ===== *)
(** The system calls of the monitor (kernel/monitor.c) and the calls on
    capabilities of kernel/syscall.c that delete, revoke and inspect, on top
    of [Caps] and [CapDelete].

    A call returns its error, the value of the result where it has one, and
    the state.  Capabilities and slots are named by the address of the slot. *)
From S2P Require Import Prelude MdbTree Hamlet MdbInv MdbRel Caps CapDelete.

Definition CAPRIGHTS_WRITE : Z := 2.
Definition CPTR_BITS : Z := 32.
Definition DISTCAP_STATE_FOREIGN : Z := 1.
Definition DISTCAP_STATE_BUSY : Z := 2.
Definition ROOTCN_SLOT_TASKCN : Z := 0.
Definition TASKCN_SLOT_ROOTCN : Z := 2.

Definition with_monitor (type listener : Z) (s : kdel) : kdel :=
  KDel (kc s) (delete_head s) (delete_tail s) (clear_head s) (clear_tail s) (next_of s) (map_of s) (unmapped s) (messages s) (stopped s) (dcb_current s) type listener.

(** The three relation bits as a word. *)
Definition relation_bits (copies ancs descs : bool) : Z :=
  Z.lor (Z.lor (if copies then RRELS_COPY_BIT else 0) (if ancs then RRELS_ANCS_BIT else 0)) (if descs then RRELS_DESC_BIT else 0).

(** One of the loops over the copies of [c] that change every copy with
    [set]: the entry after the last one is read without a test for NULL. *)
Fixpoint each_copy (fuel : nat) (step : cte -> tree -> option cte) (set : Z -> kcaps -> kcaps) (c cur : cte) (k : kcaps) : outcome kcaps :=
  match fuel with
  | O => Fault OutOfFuel
  | S fuel =>
    let k := set (cte_addr cur) k in
    match step cur (mdb_root k) with
    | None => Fault NullDereference
    | Some n => if is_copy (cte_cap n) (cte_cap c) then each_copy fuel step set c n k else Done k
    end
  end.

Definition each_copy_both (set : Z -> kcaps -> kcaps) (c : cte) (k : kcaps) : outcome kcaps :=
  let fuel := S (length (elements (mdb_root k))) in
  k ← each_copy fuel mdb_predecessor set c c k;
  each_copy fuel mdb_successor set c c k.

Definition write_owner (owner a : Z) (k : kcaps) : kcaps := set_owner (<[a := owner]> (owner_of k)) k.
Definition write_locked (lock : bool) (a : Z) (k : kcaps) : kcaps := set_locked (<[a := lock]> (locked k)) k.

Definition sys_lock_cap_common (a : Z) (lock : bool) (s : kdel) : outcome kdel :=
  k ← each_copy_both (write_locked lock) (at_slot s a) (kc s);
  Done (with_kc k s).

Section Monitor.
(** As in [CapDelete]. *)
Context (my_core_id dcb_cspace dcb_disp_cte : Z).
Context (lmp_can_deliver : list (list Z) -> Z -> errval) (lmp_deliver : list (list Z) -> list Z -> errval).

(** The slot of the current dispatcher's root capability. *)
Definition cspace (s : kdel) : Z := u32 (dcb_current s + dcb_cspace).

Definition sys_monitor_register (ep_caddr : Z) (s : kdel) : outcome (errval * kdel) :=
  '(e, ep) ← caps_lookup_cap (cspace s) ep_caddr 2 CAPRIGHTS_READ (kc s);
  if err_is_fail e then Done (e, s) else
  let cap := cte_cap (at_slot s ep) in
  Done (SYS_ERR_OK, with_monitor (h_type cap) (h_address cap) s).

Definition sys_cap_has_relations (caddr level mask : Z) (s : kdel) : outcome (errval * Z) :=
  '(e, a) ← caps_lookup_slot (cspace s) caddr level CAPRIGHTS_READ (kc s);
  if err_is_fail e then Done (e, 0) else
  let c := at_slot s a in
  ancs ← (if has_bit mask RRELS_ANCS_BIT then has_ancestors c (root_of s) else Done false);
  Done (SYS_ERR_OK, relation_bits (has_bit mask RRELS_COPY_BIT && has_copies c (root_of s)) ancs
                      (has_bit mask RRELS_DESC_BIT && has_descendants c (root_of s))).

(** A slot in the capability space of another root. *)
Definition sys_double_lookup (rptr rlevel tptr tlevel : Z) (s : kdel) : outcome (errval * Z) :=
  '(e, root) ← caps_lookup_cap (cspace s) rptr rlevel CAPRIGHTS_READ (kc s);
  if err_is_fail e then Done (err_push e SYS_ERR_ROOT_CAP_LOOKUP, 0) else
  '(e, a) ← caps_lookup_slot root tptr tlevel CAPRIGHTS_READ (kc s);
  if err_is_fail e then Done (err_push e SYS_ERR_IDENTIFY_LOOKUP, 0) else
  Done (SYS_ERR_OK, a).

Definition sys_monitor_remote_relations (root_addr root_level cptr level relations mask : Z) (s : kdel) : outcome (errval * Z * kdel) :=
  '(e, a) ← sys_double_lookup root_addr root_level cptr level s;
  if err_is_fail e then Done (e, 0, s) else
  s ← (if mask =? 0 then Done s else
       match mdb_set_relations (fuel_of s) (at_slot s a) relations mask (root_of s) with
       | Some t => Done (with_kc (set_root t (kc s)) s)
       | None => Fault OutOfFuel
       end);
  let c := at_slot s a in
  Done (SYS_ERR_OK, relation_bits (remote_copies c) (remote_ancs c) (remote_descs c), s).

(** The capability that is written back. *)
Definition sys_monitor_identify_cap (root cptr level : Z) (s : kdel) : outcome (errval * option hcap) :=
  '(e, a) ← caps_lookup_cap root cptr level CAPRIGHTS_READ (kc s);
  if err_is_fail e then Done (err_push e SYS_ERR_IDENTIFY_LOOKUP, None)
  else Done (SYS_ERR_OK, Some (cte_cap (at_slot s a))).

Definition sys_monitor_nullify_cap (cptr level : Z) (s : kdel) : outcome (errval * kdel) :=
  '(e, a) ← caps_lookup_slot (cspace s) cptr level CAPRIGHTS_READ_WRITE (kc s);
  if err_is_fail e then Done (e, s) else
  t ← remove_mapping (at_slot s a) (root_of s);
  ASSERT negb (mdb_is_reachable t a);
  Done (SYS_ERR_OK, wipe a (with_kc (set_root t (kc s)) s)).

(** The dispatcher whose domain is changed, with the new domain. *)
Definition sys_monitor_domain_id (cptr domain_id : Z) (s : kdel) : outcome (errval * option (Z * Z)) :=
  '(e, disp) ← caps_lookup_cap (cspace s) cptr CPTR_BITS CAPRIGHTS_READ_WRITE (kc s);
  if err_is_fail e then Done (e, None) else
  Done (SYS_ERR_OK, Some (h_address (cte_cap (at_slot s disp)), domain_id)).

Definition sys_get_cap_owner (root_addr root_level cptr level : Z) (s : kdel) : outcome (errval * Z) :=
  '(e, a) ← sys_double_lookup root_addr root_level cptr level s;
  if err_is_fail e then Done (e, 0) else Done (SYS_ERR_OK, owner_of (kc s) a).

Definition sys_set_cap_owner (root_addr root_level cptr level owner : Z) (s : kdel) : outcome (errval * kdel) :=
  '(e, a) ← sys_double_lookup root_addr root_level cptr level s;
  if err_is_fail e then Done (e, s) else
  k ← each_copy_both (write_owner owner) (at_slot s a) (write_owner owner a (kc s));
  Done (SYS_ERR_OK, with_kc k s).

Definition sys_lock_cap (root_addr root_level target_addr target_level : Z) (s : kdel) : outcome (errval * kdel) :=
  '(e, a) ← sys_double_lookup root_addr root_level target_addr target_level s;
  if err_is_fail e then Done (e, s) else
  if locked (kc s) a then Done (err SYS_ERR_CAP_LOCKED, s) else
  s ← sys_lock_cap_common a true s;
  Done (SYS_ERR_OK, s).

Definition sys_unlock_cap (root_addr root_level target_addr target_level : Z) (s : kdel) : outcome (errval * kdel) :=
  '(e, a) ← sys_double_lookup root_addr root_level target_addr target_level s;
  if err_is_fail e then Done (e, s) else
  s ← sys_lock_cap_common a false s;
  Done (SYS_ERR_OK, s).

Definition sys_monitor_copy_existing (src : hcap) (croot_cptr cnode_cptr cnode_level dest_slot : Z) (s : kdel) : outcome (errval * kdel) :=
  match mdb_find_equal (0, src) (root_of s) with
  | None => Done (err SYS_ERR_CAP_NOT_FOUND, s)
  | Some copy =>
    if in_delete (kc s) (cte_addr copy) then Done (err SYS_ERR_CAP_NOT_FOUND, s) else
    '(e, root) ← caps_lookup_cap (cspace s) croot_cptr 2 CAPRIGHTS_READ_WRITE (kc s);
    if err_is_fail e then Done (err_push e SYS_ERR_DEST_ROOTCN_LOOKUP, s) else
    '(e, cnode) ← caps_lookup_slot root cnode_cptr cnode_level CAPRIGHTS_READ_WRITE (kc s);
    if err_is_fail e then Done (err_push e SYS_ERR_DEST_CNODE_LOOKUP, s) else
    if negb (type_at s cnode =? ObjType_L2CNode) then Done (err SYS_ERR_CNODE_TYPE, s) else
    '(e, k) ← caps_copy_to_cnode cnode dest_slot (cte_addr copy) false 0 0 (kc s);
    Done (e, with_kc k s)
  end.

(** Whether [source] has descendants that overlap the range. *)
Definition sys_monitor_is_retypeable (source : hcap) (offset objsize count : Z) (s : kdel) : outcome errval :=
  match mdb_find_greater (0, source) false (root_of s) with
  | None => Done SYS_ERR_OK
  | Some next =>
    if negb (is_ancestor (cte_cap next) source) then Done SYS_ERR_OK else
    '(e, (result, found)) ← mdb_find_range (get_type_root (h_type source)) (u64 (h_get_address source + offset)) (u64 (objsize * count))
                              MDB_RANGE_FOUND_SURROUNDING true true (root_of s);
    if err_is_fail e then Done (err SYS_ERR_CAP_NOT_FOUND) else
    if MDB_RANGE_FOUND_INNER <=? result then Done (err SYS_ERR_REVOKE_FIRST)
    else if result =? MDB_RANGE_FOUND_SURROUNDING then
      match found with
      | Some f => Done (if negb (is_copy (cte_cap f) source) then err SYS_ERR_REVOKE_FIRST else SYS_ERR_OK)
      | None => Fault NullDereference
      end
    else Done SYS_ERR_OK
  end.

Definition sys_monitor_delete_last (root_addr root_level target_addr target_level ret_cn_addr ret_cn_level ret_slot : Z) (s : kdel)
  : outcome (errval * bool * kdel) :=
  '(e, target) ← sys_double_lookup root_addr root_level target_addr target_level s;
  if err_is_fail e then Done (e, false, s) else
  '(e, retcn) ← caps_lookup_cap (cspace s) ret_cn_addr ret_cn_level CAPRIGHTS_WRITE (kc s);
  if err_is_fail e then Done (err_push e SYS_ERR_DEST_CNODE_LOOKUP, false, s) else
  if negb (type_at s retcn =? ObjType_L1CNode) && negb (type_at s retcn =? ObjType_L2CNode)
  then Done (err SYS_ERR_DEST_CNODE_INVALID, false, s) else
  slots ← cnode_get_slots (cte_cap (at_slot s retcn));
  if slots <? ret_slot then Done (err SYS_ERR_SLOTS_INVALID, false, s) else
  let retslot := caps_locate_slot (h_get_address (cte_cap (at_slot s retcn))) ret_slot in
  caps_delete_last my_core_id dcb_cspace dcb_disp_cte lmp_can_deliver lmp_deliver target (Some retslot) s.

Definition sys_monitor_delete_foreigns (cptr level : Z) (s : kdel) : outcome (errval * kdel) :=
  '(e, a) ← caps_lookup_slot (cspace s) cptr level CAPRIGHTS_READ (kc s);
  if err_is_fail e then Done (e, s) else
  caps_delete_foreigns my_core_id lmp_can_deliver lmp_deliver a s.

Definition sys_monitor_revoke_mark_tgt (root_addr root_level target_addr target_level : Z) (s : kdel) : outcome (errval * kdel) :=
  '(e, target) ← sys_double_lookup root_addr root_level target_addr target_level s;
  if err_is_fail e then Done (e, s) else
  caps_mark_revoke my_core_id lmp_can_deliver lmp_deliver (cte_cap (at_slot s target)) (Some target) s.

Definition sys_monitor_revoke_mark_rels (base : hcap) (s : kdel) : outcome (errval * kdel) :=
  caps_mark_revoke my_core_id lmp_can_deliver lmp_deliver base None s.

Definition sys_retslot_lookup (cnptr cnlevel ret_slot : Z) (s : kdel) : outcome (errval * Z) :=
  '(e, retcn) ← caps_lookup_cap (cspace s) cnptr cnlevel CAPRIGHTS_WRITE (kc s);
  if err_is_fail e then Done (err_push e SYS_ERR_DEST_CNODE_LOOKUP, 0) else
  if negb (type_at s retcn =? ObjType_L1CNode) && negb (type_at s retcn =? ObjType_L2CNode)
  then Done (err SYS_ERR_DEST_CNODE_INVALID, 0) else
  slots ← cnode_get_slots (cte_cap (at_slot s retcn));
  if slots <? ret_slot then Done (err SYS_ERR_SLOTS_INVALID, 0) else
  let retslot := caps_locate_slot (h_get_address (cte_cap (at_slot s retcn))) ret_slot in
  if negb (type_at s retslot =? ObjType_Null) then Done (err SYS_ERR_SLOT_IN_USE, 0) else
  Done (SYS_ERR_OK, retslot).

Definition sys_monitor_delete_step (ret_cn_addr ret_cn_level ret_slot : Z) (s : kdel) : outcome (errval * bool * kdel) :=
  '(e, retslot) ← sys_retslot_lookup ret_cn_addr ret_cn_level ret_slot s;
  if err_is_fail e then Done (e, false, s) else
  caps_delete_step my_core_id dcb_cspace dcb_disp_cte lmp_can_deliver lmp_deliver retslot s.

Definition sys_monitor_clear_step (ret_cn_addr ret_cn_level ret_slot : Z) (s : kdel) : outcome (errval * bool * kdel) :=
  '(e, retslot) ← sys_retslot_lookup ret_cn_addr ret_cn_level ret_slot s;
  if err_is_fail e then Done (e, false, s) else
  caps_clear_step my_core_id dcb_cspace dcb_disp_cte lmp_can_deliver lmp_deliver retslot s.

(** * Calls on capabilities *)

Definition sys_delete (root cptr level : Z) (s : kdel) : outcome (errval * kdel) :=
  '(e, a) ← caps_lookup_slot root cptr level CAPRIGHTS_READ_WRITE (kc s);
  if err_is_fail e then Done (e, s) else caps_delete my_core_id lmp_can_deliver lmp_deliver a s.

Definition sys_revoke (root cptr level : Z) (s : kdel) : outcome errval :=
  '(e, a) ← caps_lookup_slot root cptr level CAPRIGHTS_READ_WRITE (kc s);
  if err_is_fail e then Done e else Done (caps_revoke a s).

Definition distcap_get_state (a : Z) (s : kdel) : Z :=
  Z.lor (if owner_of (kc s) a =? my_core_id then 0 else DISTCAP_STATE_FOREIGN)
        (if locked (kc s) a || in_delete (kc s) a then DISTCAP_STATE_BUSY else 0).

Definition sys_get_state (root cptr level : Z) (s : kdel) : outcome (errval * Z) :=
  '(e, a) ← caps_lookup_slot root cptr level CAPRIGHTS_READ (kc s);
  if err_is_fail e then Done (e, 0) else Done (SYS_ERR_OK, distcap_get_state a s).

Definition sys_get_size_l1cnode (root : Z) (s : kdel) : outcome (errval * Z) :=
  ASSERT type_at s root =? ObjType_L1CNode;
  Done (SYS_ERR_OK, h_size (cte_cap (at_slot s root))).

(** The loop of [sys_resize_l1cnode]: the slots [i], ..., of one node are
    copied to the other. *)
Fixpoint copy_slots (n : nat) (from to i : Z) (k : kcaps) : outcome (errval * kcaps) :=
  match n with
  | O => Done (SYS_ERR_OK, k)
  | S n =>
    let src := caps_locate_slot from i in let dest := caps_locate_slot to i in
    if slot_type k src =? ObjType_Null then copy_slots n from to (i + 1) k else
    if negb (slot_type k dest =? ObjType_Null) then Done (err SYS_ERR_SLOT_IN_USE, k) else
    '(e, k) ← caps_copy_to_cte dest src false 0 0 k;
    if err_is_fail e then Done (e, k) else copy_slots n from to (i + 1) k
  end.

(** A step that may fail, and the rest of a call. *)
Definition then_ok (m : outcome (errval * kdel)) (f : kdel -> outcome (errval * kdel)) : outcome (errval * kdel) :=
  '(e, s) ← m; if err_is_fail e then Done (e, s) else f s.

Definition copy_cap (dest src : Z) (s : kdel) : outcome (errval * kdel) :=
  '(e, k) ← caps_copy_to_cte dest src false 0 0 (kc s); Done (e, with_kc k s).

Definition sys_resize_l1cnode (root newroot_cptr retcn_cptr retslot : Z) (s : kdel) : outcome (errval * kdel) :=
  if negb (type_at s root =? ObjType_L1CNode) then Done (err SYS_ERR_RESIZE_NOT_L1, s) else
  '(e, newroot) ← caps_lookup_slot root newroot_cptr 2 CAPRIGHTS_ALLRIGHTS (kc s);
  if err_is_fail e then Done (e, s) else
  if negb (type_at s newroot =? ObjType_L1CNode) then Done (err SYS_ERR_INVALID_SOURCE_TYPE, s) else
  '(e, retcn) ← caps_lookup_cap root retcn_cptr 1 CAPRIGHTS_READ_WRITE (kc s);
  if err_is_fail e then Done (e, s) else
  let ret := caps_locate_slot (h_get_address (cte_cap (at_slot s retcn))) retslot in
  if negb (type_at s ret =? ObjType_Null) then Done (err SYS_ERR_SLOT_IN_USE, s) else
  root_slots ← cnode_get_slots (cte_cap (at_slot s root));
  newroot_slots ← cnode_get_slots (cte_cap (at_slot s newroot));
  let old := h_get_address (cte_cap (at_slot s root)) in let new := h_get_address (cte_cap (at_slot s newroot)) in
  then_ok ('(e, k) ← copy_slots (Z.to_nat (Z.min root_slots newroot_slots)) old new 0 (kc s); Done (e, with_kc k s)) (fun s =>
  then_ok (copy_cap ret root s) (fun s =>
  then_ok (caps_delete my_core_id lmp_can_deliver lmp_deliver (cspace s) s) (fun s =>
  then_ok (copy_cap (cspace s) newroot s) (fun s =>
  let taskcn := caps_locate_slot (h_get_address (cte_cap (at_slot s newroot))) ROOTCN_SLOT_TASKCN in
  let rootcn_cap := caps_locate_slot (h_get_address (cte_cap (at_slot s taskcn))) TASKCN_SLOT_ROOTCN in
  ASSERT rootcn_cap =? root;
  then_ok (caps_delete my_core_id lmp_can_deliver lmp_deliver rootcn_cap s) (fun s =>
  copy_cap rootcn_cap newroot s))))).
End Monitor.
