(* ===== verification/Lmp.v ===== *)
(** Local messages: their delivery by the kernel (kernel/dispatch.c) and
    their reception from the endpoint buffer (lib/aos/lmp_endpoints.c).

    An endpoint buffer is a ring of words in the receiver's memory; the
    kernel writes [delivered], the receiver [consumed].  Endpoint
    capabilities are named by their slot, dispatchers by the address of
    their control block, buffers by their address. *)
From S2P Require Import Prelude MdbTree Hamlet MdbRel Caps CapDelete.

Record lmp_endpoint_kern := EpKern {
  recv_cspc : Z; recv_cptr : Z;
  delivered : Z; consumed : Z;
  buf : Z -> Z
}.

(** [union lmp_recv_header]: one bit for a capability, and the length. *)
Definition recv_header (captransfer : bool) (length : Z) : Z := (if captransfer then 1 else 0) + 256 * u8 length.
Definition header_captransfer (raw : Z) : bool := Z.odd raw.
Definition header_length (raw : Z) : Z := u8 (raw / 256).

(** * The kernel's side of a buffer *)

Definition next_pos (pos epbuflen : Z) : Z := if u32 (pos + 1) =? epbuflen then 0 else u32 (pos + 1).

(** The check of the state of the buffer. *)
Definition can_deliver (epbuflen payload_len : Z) (e : lmp_endpoint_kern) : errval :=
  let pos := delivered e in
  if (epbuflen <=? pos) || (epbuflen <=? consumed e) then err SYS_ERR_LMP_EP_STATE_INVALID else
  let epspace := if consumed e <=? pos then u32 (epbuflen - u32 (pos - consumed e)) else u32 (consumed e - pos) in
  if epspace <=? u32 (payload_len + LMP_RECV_HEADER_LENGTH) then err SYS_ERR_LMP_BUF_OVERFLOW else SYS_ERR_OK.

Fixpoint put_words (l : list Z) (pos epbuflen : Z) (b : Z -> Z) : Z * (Z -> Z) :=
  match l with
  | [] => (pos, b)
  | w :: l => put_words l (next_pos pos epbuflen) epbuflen (<[pos := w]> b)
  end.

Definition put_message (epbuflen : Z) (payload : list Z) (captransfer : bool) (e : lmp_endpoint_kern) : lmp_endpoint_kern :=
  let '(pos, b) := put_words (recv_header captransfer (Z.of_nat (length payload)) :: payload) (delivered e) epbuflen (buf e) in
  EpKern (recv_cspc e) (recv_cptr e) pos (consumed e) b.

(** * The receiver's side *)

(** What [lmp_endpoint_init] leaves. *)
Definition endpoint_init (b : Z -> Z) : lmp_endpoint_kern := EpKern 0 0 0 0 b.

Definition LMP_MSG_LENGTH : Z := 9.

(** [lmp_endpoint_alloc], without the heap: the error. *)
Definition lmp_endpoint_alloc (buflen : Z) (heap_has_room : bool) : errval :=
  if buflen <=? LMP_MSG_LENGTH + LMP_RECV_HEADER_LENGTH then err LIB_ERR_LMP_BUFLEN_INVALID
  else if negb heap_has_room then err LIB_ERR_NO_ENDPOINT_SPACE
  else SYS_ERR_OK.

Definition lmp_endpoint_set_recv_slot (cspc cptr : Z) (e : lmp_endpoint_kern) : lmp_endpoint_kern :=
  EpKern cspc cptr (delivered e) (consumed e) (buf e).

Definition lmp_endpoint_can_recv (e : lmp_endpoint_kern) : bool := negb (delivered e =? consumed e).

(** The words that were not seen yet, and the new [seen]. *)
Definition lmp_endpoint_words_unseen (buflen seen : Z) (e : lmp_endpoint_kern) : Z * Z :=
  (if seen <=? delivered e then u32 (delivered e - seen) else u32 (u32 (buflen - seen) + delivered e), delivered e).

Fixpoint take_words (n : nat) (pos buflen : Z) (b : Z -> Z) : list Z * Z :=
  match n with
  | O => ([], pos)
  | S n => let '(l, pos') := take_words n (next_pos pos buflen) buflen b in (b pos :: l, pos')
  end.

(** A received message: its words, and whether a capability came with it. *)
Record lmp_recv_msg := RecvMsg { words : list Z; has_cap : bool }.

Definition lmp_endpoint_recv (buflen user_buflen : Z) (e : lmp_endpoint_kern)
  : outcome (errval * option lmp_recv_msg * lmp_endpoint_kern) :=
  if negb (lmp_endpoint_can_recv e) then Done (err LIB_ERR_NO_LMP_MSG, None, e) else
  let pos := consumed e in
  ASSERT pos <? buflen;
  let raw := buf e pos in
  let len := header_length raw in
  if buflen <=? len then Fault Panicked else
  if user_buflen <? len then Done (err LIB_ERR_LMP_RECV_BUF_OVERFLOW, None, e) else
  let '(l, pos) := take_words (Z.to_nat len) (next_pos pos buflen) buflen (buf e) in
  if header_captransfer raw then
    ASSERT negb (recv_cptr e =? 0);
    Done (SYS_ERR_OK, Some (RecvMsg l true), EpKern 0 0 (delivered e) pos (buf e))
  else Done (SYS_ERR_OK, Some (RecvMsg l false), EpKern (recv_cspc e) (recv_cptr e) (delivered e) pos (buf e)).

(** [LRPC_MSG_LENGTH] is 0 on this architecture: the header announces no
    words, but four are written. *)
Definition lmp_endpoint_store_lrpc_disabled (buflen bufpos arg1 arg2 arg3 arg4 : Z) (e : lmp_endpoint_kern) : outcome lmp_endpoint_kern :=
  ASSERT negb (buflen =? 0);
  ASSERT bufpos <? buflen;
  let '(_, b) := put_words [recv_header false 0; arg1; arg2; arg3; arg4] bufpos buflen (buf e) in
  Done (EpKern (recv_cspc e) (recv_cptr e) (delivered e) (consumed e) b).

(** * Delivery *)

Record lmp := Lmp {
  kd : kdel;
  disp_of : Z -> Z;                       (** the dispatcher of a control block *)
  ep_mem : Z -> lmp_endpoint_kern;        (** the buffers in memory *)
  lmp_delivered : Z -> Z; lmp_hint : Z -> Z;   (** of a dispatcher *)
  woken : list (Z * bool)                 (** control blocks given to [make_runnable], and whether [schedule_now] followed *)
}.

Definition with_kd (x : kdel) (s : lmp) : lmp := Lmp x (disp_of s) (ep_mem s) (lmp_delivered s) (lmp_hint s) (woken s).

Section Deliver.
Context (my_core_id dcb_cspace : Z).
Context (monitor_can_deliver : list (list Z) -> Z -> errval) (monitor_deliver : list (list Z) -> list Z -> errval).

Definition listener (s : lmp) (ep : Z) : Z := h_address (cte_cap (at_slot (kd s) ep)).
Definition epoffset (s : lmp) (ep : Z) : Z := (endpoint_of (kc (kd s)) ep).1.
Definition epbuflen_of (s : lmp) (ep : Z) : Z := (endpoint_of (kc (kd s)) ep).2.
(** The address of the receiver's buffer. *)
Definition recv_ep (s : lmp) (ep : Z) : Z := u32 (disp_of s (listener s ep) + epoffset s ep).

Definition lmp_can_deliver_payload (ep payload_len : Z) (s : lmp) : outcome errval :=
  ASSERT type_at (kd s) ep =? ObjType_EndPoint;
  ASSERT negb (listener s ep =? 0);
  if (disp_of s (listener s ep) =? 0) || (epoffset s ep =? 0) then Done (err SYS_ERR_LMP_NO_TARGET)
  else Done (can_deliver (epbuflen_of s ep) payload_len (ep_mem s (recv_ep s ep))).

Definition lmp_deliver_payload (ep : Z) (payload : list Z) (captransfer now : bool) (s : lmp) : outcome (errval * lmp) :=
  ASSERT type_at (kd s) ep =? ObjType_EndPoint;
  ASSERT negb (listener s ep =? 0);
  e ← lmp_can_deliver_payload ep (Z.of_nat (length payload)) s;
  if err_is_fail e then Done (e, s) else
  let recv := listener s ep in let a := recv_ep s ep in
  Done (SYS_ERR_OK,
    Lmp (kd s) (disp_of s) (<[a := put_message (epbuflen_of s ep) payload captransfer (ep_mem s a)]> (ep_mem s))
      (<[recv := u32 (lmp_delivered s recv + Z.of_nat (length payload) + LMP_RECV_HEADER_LENGTH)]> (lmp_delivered s))
      (<[recv := epoffset s ep]> (lmp_hint s)) (woken s ++ [(recv, now)])).

Definition L2_CNODE_BITS : Z := 8.

(** Transfer of a capability into the slot that the receiver named. *)
Definition lmp_transfer_cap (ep send send_cptr send_level : Z) (give_away : bool) (s : lmp) : outcome (errval * lmp) :=
  ASSERT negb (send_cptr =? 0);
  ASSERT negb (send =? 0);
  ASSERT type_at (kd s) ep =? ObjType_EndPoint;
  let recv := listener s ep in
  ASSERT negb (recv =? 0);
  ASSERT negb (epoffset s ep =? 0);
  let e := ep_mem s (recv_ep s ep) in
  let k := kc (kd s) in
  '(ev, cspace) ← caps_lookup_cap (u32 (recv + dcb_cspace)) (recv_cspc e) 2 CAPRIGHTS_READ_WRITE k;
  if err_is_fail ev || negb (slot_type k cspace =? ObjType_L1CNode) then Done (err SYS_ERR_LMP_CAPTRANSFER_DST_CNODE_INVALID, s) else
  let l1index := Z.shiftr (recv_cptr e) L2_CNODE_BITS in
  slots ← cnode_get_slots (cte_cap (slot k cspace));
  if slots <=? l1index then Done (err SYS_ERR_LMP_CAPTRANSFER_DST_CNODE_INVALID, s) else
  let cnode := caps_locate_slot (h_get_address (cte_cap (slot k cspace))) l1index in
  if negb (slot_type k cnode =? ObjType_L2CNode) then Done (err SYS_ERR_LMP_CAPTRANSFER_DST_CNODE_INVALID, s) else
  let recv_cte := caps_locate_slot (h_get_address (cte_cap (slot k cnode))) (Z.land (recv_cptr e) (Z.ones L2_CNODE_BITS)) in
  '(ev, send_cte) ← caps_lookup_slot (u32 (send + dcb_cspace)) send_cptr send_level CAPRIGHTS_READ k;
  if err_is_fail ev then Done (err_push ev SYS_ERR_LMP_CAPTRANSFER_SRC_LOOKUP, s) else
  if negb (slot_type k recv_cte =? ObjType_Null) then Done (err SYS_ERR_LMP_CAPTRANSFER_DST_SLOT_OCCUPIED, s) else
  '(ev, k) ← caps_copy_to_cte recv_cte send_cte false 0 0 k;
  ASSERT err_is_ok ev;
  let d := with_kc k (kd s) in
  if give_away then
    '(ev, d) ← caps_delete my_core_id monitor_can_deliver monitor_deliver send_cte d;
    ASSERT err_is_ok ev;
    Done (SYS_ERR_OK, with_kd d s)
  else Done (SYS_ERR_OK, with_kd d s).

Definition lmp_deliver (ep send : Z) (payload : list Z) (send_cptr send_level : Z) (give_away : bool) (s : lmp) : outcome (errval * lmp) :=
  ASSERT type_at (kd s) ep =? ObjType_EndPoint;
  ASSERT negb (listener s ep =? 0);
  if negb (send_cptr =? 0) then
    e ← lmp_can_deliver_payload ep (Z.of_nat (length payload)) s;
    if err_is_fail e then Done (e, s) else
    '(e, s) ← lmp_transfer_cap ep send send_cptr send_level give_away s;
    if err_is_fail e then Done (e, s) else
    '(e, s) ← lmp_deliver_payload ep payload true false s;
    ASSERT err_is_ok e;
    Done (e, s)
  else lmp_deliver_payload ep payload false false s.
End Deliver.
