(* ===== verification/CapsCorrect.v ===== *)
(** Correctness of the kernel's capability operations: what a retype creates
    lies inside of its source and belongs to no other capability, failing
    operations change nothing, copies are copies, and lookup resolves the
    two-level capability space. *)
From S2P Require Import Prelude MdbTree Hamlet MdbInv MdbInsert MdbRel MdbRange MdbCorrect Caps.

(** * Slots *)

Abbreviation addrs l := (cte_addr <$> l).
Abbreviation beg c := (get_address (cte_cap c)).
Abbreviation fin c := (get_address (cte_cap c) + get_size (cte_cap c)).

(** Every capability is in the database, which is well-formed. *)
Record kcaps_ok (k : kcaps) : Prop := {
  ko_wf : mdb_wf (mdb_root k);
  ko_loose : loose k = [];
  ko_mem : Forall (fun c => 0 <= cte_addr c < 2 ^ 32) (elements (mdb_root k))
}.

(** The slots in use have distinct addresses and hold capabilities. *)
Definition slots_ok (k : kcaps) : Prop := NoDup (addrs (used k)) /\ Forall nonnull (used k).

Lemma kcaps_slots k : kcaps_ok k -> slots_ok k.
Proof.
  intros [(_ & _ & _ & Hnn & Hnd) El _]. unfold slots_ok, used. rewrite El, app_nil_r. done.
Qed.

(** Slots are in memory, so there are fewer than addresses. *)
Lemma kcaps_fits k : kcaps_ok k -> tsize (mdb_root k) <= 2 ^ 32.
Proof.
  intros [(_ & _ & _ & _ & Hnd) _ Hmem]. assert (Hsub : addrs (elements (mdb_root k)) ⊆+ seqZ 0 (2 ^ 32)).
  { apply NoDup_submseteq; [done|]. intros a (c & -> & Hc)%list_elem_of_fmap. rewrite Forall_forall in Hmem.
    apply elem_of_seqZ. specialize (Hmem c Hc). lia. }
  apply submseteq_length in Hsub. rewrite length_fmap, length_seqZ in Hsub. unfold tsize. lia.
Qed.

Lemma slot_used k c : slots_ok k -> c ∈ used k -> slot k (cte_addr c) = c.
Proof.
  intros [Hnd _] Hc. unfold slot. destruct (list_find (fun d => cte_addr d = cte_addr c) (used k)) as [[i d]|] eqn:E.
  - apply list_find_Some in E as (Hi & Ea & _). apply list_elem_of_lookup in Hc as [j Hj].
    assert (i = j) as ->.
    { eapply NoDup_lookup; [exact Hnd| |]; rewrite list_lookup_fmap, ?Hi, ?Hj; cbn; [by rewrite Ea|done]. }
    cbn. congruence.
  - apply list_find_None in E. rewrite Forall_forall in E. by destruct (E c Hc).
Qed.

Lemma slot_free k a : a ∉ addrs (used k) -> slot k a = null_cte a.
Proof.
  intros Ha. unfold slot. destruct (list_find _ _) as [[i d]|] eqn:E; [|done].
  apply list_find_Some in E as (Hi & <- & _). destruct Ha. apply list_elem_of_fmap_2. by eapply list_elem_of_lookup_2.
Qed.

Lemma slot_type_null k a : slots_ok k -> (slot_type k a =? ObjType_Null) = true <-> a ∉ addrs (used k).
Proof.
  intros Hok. unfold slot_type, ObjType_Null. rewrite Z.eqb_eq. split.
  - intros Ht (c & -> & Hc)%list_elem_of_fmap. rewrite (slot_used k c Hok Hc) in Ht.
    destruct Hok as [_ Hnn]. rewrite Forall_forall in Hnn. by apply (Hnn c Hc).
  - intros Ha. by rewrite slot_free.
Qed.

(** * Creating *)

(** The entries that are created in the slots from [dest] on. *)
Definition new_ctes (n : nat) (type lpaddr objsize dest i : Z) : list cte :=
  (fun j => Cte (dest + 64 * j) (created_cap type lpaddr objsize j) false false false) <$> seqZ i (Z.of_nat n).

Lemma new_ctes_S n type lp objsize dest i :
  new_ctes (S n) type lp objsize dest i
  = Cte (dest + 64 * i) (created_cap type lp objsize i) false false false :: new_ctes n type lp objsize dest (i + 1).
Proof.
  unfold new_ctes. rewrite (seqZ_cons i) by lia. cbn [fmap list_fmap]. replace (Z.pred (Z.of_nat (S n))) with (Z.of_nat n) by lia. done.
Qed.

Lemma new_ctes_addr n type lp objsize dest i a :
  a ∈ addrs (new_ctes n type lp objsize dest i) <-> exists j, a = dest + 64 * j /\ i <= j < i + Z.of_nat n.
Proof.
  unfold new_ctes. rewrite <- list_fmap_compose. rewrite list_elem_of_fmap. cbn.
  setoid_rewrite elem_of_seqZ. naive_solver.
Qed.

Lemma new_ctes_nodup n type lp objsize dest i : NoDup (addrs (new_ctes n type lp objsize dest i)).
Proof.
  unfold new_ctes. rewrite <- list_fmap_compose. apply NoDup_fmap; [|apply NoDup_seqZ]. intros x y. cbn. lia.
Qed.

(** Types of capabilities that refer to an object. *)
Definition object_type (ty : Z) : bool :=
  (ty =? 1) || (ty =? 2) || (ty =? 3) || (ty =? 4) || (ty =? 6) || (ty =? 8) || (ty =? 10) || (ty =? 44) || type_is_vnode ty.

Lemma created_type type lp objsize i : h_type (created_cap type lp objsize i) = type.
Proof. unfold created_cap. repeat case_match; done. Qed.

Definition with_new (l : list cte) (r : Z -> Z) (k : kcaps) : kcaps := set_rights r (set_loose (loose k ++ l) k).

Lemma create_loop_spec n type lp objsize dest : forall i k, slots_ok k -> type <> 0 -> 0 <= i -> 0 <= dest ->
  dest + 64 * (i + Z.of_nat n) <= 2 ^ 32 ->
  (forall j, i <= j < i + Z.of_nat n -> dest + 64 * j ∉ addrs (used k)) ->
  exists r, create_loop n type lp objsize dest i k
    = (SYS_ERR_OK, i + Z.of_nat n, with_new (new_ctes n type lp objsize dest i) r k).
Proof.
  induction n as [|n IH]; intros i k Hok Hty Hi Hd Hend Hfree; cbn [create_loop].
  { exists (rights_of k). rewrite Z.add_0_r. unfold with_new, new_ctes. cbn. rewrite app_nil_r. by destruct k. }
  rewrite u32_small by (unfold OBJSIZE_CTE; lia). unfold set_cap. fold OBJSIZE_CTE.
  rewrite (proj2 (slot_type_null k _ Hok)) by (apply Hfree; lia). cbn [negb err_is_fail SYS_ERR_OK].
  set (c := Cte (dest + OBJSIZE_CTE * i) _ _ _ _). set (k1 := set_rights _ _).
  assert (Hu : used k1 = used k ++ [c]) by (unfold used; cbn; by rewrite app_assoc).
  destruct (IH (i + 1) k1) as [r Hr]; try done; try lia.
  - destruct Hok as [Hnd Hnn]. unfold slots_ok. rewrite Hu, fmap_app. split.
    + apply NoDup_app. split_and!; [done| |apply NoDup_singleton].
      intros a Ha ->%list_elem_of_singleton. by apply (Hfree i); [lia|].
    + apply Forall_app. split; [done|]. constructor; [|done]. unfold nonnull. cbn. by rewrite created_type.
  - intros j Hj. rewrite Hu, fmap_app, not_elem_of_app. split; [apply Hfree; lia|].
    cbn. rewrite list_elem_of_singleton. unfold OBJSIZE_CTE. lia.
  - exists r. rewrite Hr. f_equal; [f_equal; lia|]. unfold with_new. cbn. rewrite <- app_assoc, new_ctes_S. done.
Qed.

(** Setting the owners changes nothing else. *)
Lemma each_owner n dest owner : forall i k, exists f,
  each_slot n dest i (fun a k => set_owner (<[a := owner]> (owner_of k)) k) k = set_owner f k.
Proof.
  induction n as [|n IH]; intros i k; cbn [each_slot]; [exists (owner_of k); by destruct k|].
  destruct (IH (i + 1) (set_owner (<[u32 (dest + OBJSIZE_CTE * i) := owner]> (owner_of k)) k)) as [f ->]. by exists f.
Qed.

Lemma filter_other c l : cte_addr c ∉ addrs l -> filter (fun d : cte => cte_addr d <> cte_addr c) (c :: l) = l.
Proof.
  intros Hc. rewrite filter_cons_False by (intros H; by apply H). induction l as [|d l IH]; [done|].
  rewrite fmap_cons, not_elem_of_cons in Hc. destruct Hc as [Hd Hl].
  rewrite filter_cons_True by congruence. by rewrite IH.
Qed.

(** The loose entries are inserted into the database. *)
Lemma insert_slots n dest : forall i k l, mdb_wf (mdb_root k) -> tsize (mdb_root k) + Z.of_nat n < 2 ^ 255 ->
  loose k = l -> Forall nonnull l -> NoDup (addrs (used k)) ->
  addrs l = (fun j => dest + 64 * j) <$> seqZ i (Z.of_nat n) ->
  0 <= i -> 0 <= dest -> dest + 64 * (i + Z.of_nat n) <= 2 ^ 32 ->
  exists t', each_slot n dest i insert_slot k = set_root t' (set_loose [] k) /\ mdb_wf t'
    /\ elements t' ≡ₚ l ++ elements (mdb_root k).
Proof.
  induction n as [|n IH]; intros i k l Hwf Hfit El Hnn Hnd Ha Hi Hd Hend; cbn [each_slot].
  { destruct l; [|done]. exists (mdb_root k). split_and!; try done. rewrite <- El. by destruct k. }
  rewrite (seqZ_cons i) in Ha by lia. destruct l as [|c l]; [done|].
  cbn [fmap list_fmap] in Ha. injection Ha as Hc Ha. replace (Z.pred (Z.of_nat (S n))) with (Z.of_nat n) in Ha by lia.
  apply Forall_cons in Hnn as [Hcn Hnn].
  assert (Hcu : c ∈ used k) by (unfold used; rewrite El; apply elem_of_app; right; by left).
  assert (Hsok : slots_ok k).
  { split; [done|]. unfold used. rewrite El. apply Forall_app. split; [apply Hwf|by constructor]. }
  rewrite u32_small by (unfold OBJSIZE_CTE; lia). unfold insert_slot at 2. change 64 with OBJSIZE_CTE in Hc.
  rewrite <- Hc, (slot_used k c Hsok Hcu).
  unfold used in Hnd. rewrite El, fmap_app, fmap_cons in Hnd. apply NoDup_app in Hnd as (Hnd1 & Hdis & Hnd2).
  apply NoDup_cons in Hnd2 as [Hcl Hnd2].
  destruct (insert_wf c (mdb_root k)) as (t & l1 & l2 & Et & Hwf' & E1 & E2); try done.
  { unfold fits. lia. }
  { intros Hin. apply (Hdis _ Hin). by left. }
  rewrite Et. cbn [err_is_fail SYS_ERR_OK].
  assert (Hel : elements t ≡ₚ c :: elements (mdb_root k)) by (by rewrite E1, E2, Permutation_middle).
  assert (Hcs : clear_slot (cte_addr c) k = set_loose l k) by (unfold clear_slot; by rewrite El, filter_other).
  rewrite Hcs. destruct (IH (i + 1) (set_root t (set_loose l k)) l) as (t' & Er & Hwf2 & Hp); try done; try lia.
  - unfold tsize in *. cbn [mdb_root set_root]. rewrite Hel. cbn [length]. lia.
  - unfold used. cbn [mdb_root loose set_root set_loose]. rewrite Hel, fmap_app, fmap_cons. apply NoDup_app. split_and!.
    + apply NoDup_cons. split; [|done]. intros Hin. apply (Hdis _ Hin). by left.
    + intros a [->|Hin]%elem_of_cons; [done|]. intros Hal. apply (Hdis a Hin). by right.
    + done.
  - exists t'. rewrite Er. split_and!; [done|done|]. cbn [mdb_root set_root] in Hp. rewrite Hp, Hel. cbn [app]. by rewrite <- Permutation_middle.
Qed.

Lemma slots_empty_spec n cnode dest_slot k : slots_ok k -> forall i, slots_empty n cnode dest_slot i k = true ->
  0 <= cnode -> 0 <= dest_slot -> 0 <= i -> cnode + 64 * (dest_slot + (i + Z.of_nat n)) <= 2 ^ 32 ->
  forall j, i <= j < i + Z.of_nat n -> cnode + 64 * dest_slot + 64 * j ∉ addrs (used k).
Proof.
  intros Hok. induction n as [|n IH]; intros i He Hc Hd Hi Hend j Hj; [lia|]. cbn [slots_empty] in He.
  apply andb_true_iff in He as [He1 He2]. destruct (Z.eq_dec j i) as [->|Hne]; [|apply (IH (i + 1)); try done; lia].
  unfold caps_locate_slot, OBJSIZE_CTE in He1. rewrite (u32_small (dest_slot + i)), (u32_small (64 * _)), u32_small in He1 by lia.
  replace (cnode + 64 * dest_slot + 64 * i) with (cnode + 64 * (dest_slot + i)) by lia.
  by apply slot_type_null.
Qed.

Lemma object_cases ty : object_type ty = true ->
  (ty = 1 \/ ty = 2 \/ ty = 3 \/ ty = 4 \/ ty = 6 \/ ty = 8 \/ ty = 10 \/ ty = 44)
  \/ (type_is_vnode ty = true /\ 13 <= ty <= 37 /\ type_is_mapping ty = false).
Proof.
  unfold object_type. destruct (type_is_vnode ty) eqn:E.
  - intros _. right. unfold type_is_vnode in E. rewrite !andb_true_iff, !Z.leb_le in E. destruct E as [[? ?] Ho].
    split_and!; try done. unfold type_is_mapping. rewrite <- Z.negb_odd, Ho, andb_false_r. zdecide. done.
  - rewrite orb_false_r, !orb_true_iff, !Z.eqb_eq. intuition.
Qed.

Definition sizes_ok (type objsize : Z) : Prop :=
  (type = 8 -> objsize `mod` 4096 = 0) /\ (type = 3 -> 16384 <= objsize /\ objsize `mod` 16384 = 0)
  /\ (type = 4 -> objsize = 16384).

Lemma caps_create_objects me type lp size objsize count dest k : slots_ok k -> object_type type = true ->
  sizes_ok type objsize -> 0 < count -> 0 <= dest -> dest + 64 * count <= 2 ^ 32 ->
  (forall j, 0 <= j < count -> dest + 64 * j ∉ addrs (used k)) ->
  exists r f, caps_create me type lp size objsize count me dest k
    = Done (SYS_ERR_OK, set_owner f (with_new (new_ctes (Z.to_nat count) type lp objsize dest 0) r
                                       (set_zeroed (zeroed k ++ caps_zero_objects type lp objsize count) k))).
Proof.
  intros Hok Hty (Hs1 & Hs2 & _) Hc Hd Hend Hfree. set (k1 := set_zeroed (zeroed k ++ caps_zero_objects type lp objsize count) k).
  assert (Hne : type <> 0) by (intros ->; done).
  destruct (create_loop_spec (Z.to_nat count) type lp objsize dest 0 k1) as [r Hr]; try done; [lia|intros j Hj; apply Hfree; lia|].
  set (l := new_ctes (Z.to_nat count) type lp objsize dest 0) in *.
  destruct (each_owner (Z.to_nat count) dest me 0 (with_new l r k1)) as [f Hf].
  assert (A1 : negb (type =? ObjType_Frame) || (Z.land objsize 4095 =? 0) = true).
  { unfold ObjType_Frame. destruct (Z.eqb_spec type 8) as [E|]; [|done]. change 4095 with (Z.ones 12). rewrite Z.land_ones by lia.
    change (2 ^ 12) with 4096. by rewrite (Hs1 E). }
  assert (A2 : negb (type =? ObjType_L1CNode) || ((OBJSIZE_L2CNODE <=? objsize) && (objsize `mod` OBJSIZE_L2CNODE =? 0)) = true).
  { unfold ObjType_L1CNode, OBJSIZE_L2CNODE. destruct (Z.eqb_spec type 3) as [E|]; [|done].
    destruct (Hs2 E) as [? ->]. zdecide. done. }
  exists r. unfold caps_create. rewrite A1, A2, Z.eqb_refl. fold k1. rewrite Hr. cbn zeta. rewrite Hf. clear Hf Hr A1 A2.
  unfold ObjType_Null, ObjType_Num, ObjType_KernelControlBlock, ObjType_ID. rewrite (proj2 (Z.ltb_lt 0 count) Hc).
  destruct (object_cases type Hty) as [Hcase|(Hv & Hb & Hm)].
  - destruct Hcase as [->|[->|[->|[->|[->|[->|[->| ->]]]]]]]; cbn; try (by exists f). exists (owner_of k). done.
  - rewrite Hv, Hm. zdecide. cbn. by exists f.
Qed.

(** * Retype *)

Definition memory_type (ty : Z) : Prop := ty = 1 \/ ty = 2 \/ ty = 8 \/ ty = 10.

(** The number of bytes of an object. *)
Definition obj_bytes (type objsize : Z) : Z :=
  if type =? 4 then 16384 else if type =? 6 then 1024 else if type =? 44 then 65536
  else if type_is_vnode type then vnode_objsize type else objsize.

Lemma get_cap_memory c : memory_type (h_type c) -> 0 <= h_address c -> 0 <= h_size c -> h_address c + h_size c < 2 ^ 32 ->
  get_address c = h_address c /\ get_size c = h_size c.
Proof.
  intros Ht Ha Hs Hl. cbn. unfold h_get_address, h_get_size. rewrite !u64_small by lia.
  by destruct Ht as [->|[->|[->| ->]]].
Qed.

Lemma memory_root c : memory_type (h_type c) -> cap_root c = 1.
Proof. unfold cap_root. cbn. by intros [->|[->|[->| ->]]]. Qed.

Lemma no_lower_root a size l : Forall nonnull l -> lower_roots_below 1 a size l.
Proof.
  intros Hnn c Hc Hr. rewrite Forall_forall in Hnn. destruct (Hnn c Hc). revert Hr. unfold cap_root. cbn.
  unfold h_type_root. repeat case_match; lia.
Qed.

Lemma object_get ty a z : object_type ty = true -> 0 <= a < 2 ^ 32 -> 0 <= z < 2 ^ 32 ->
  h_get_address (HCap ty a z 0 0 0) = a /\ h_get_size (HCap ty a z 0 0 0) = z /\ cap_root (HCap ty a z 0 0 0) = 1.
Proof.
  intros Hty Ha Hz. unfold h_get_address, h_get_size, cap_root, h_always_copy. cbn [cap_type hamlet get_type_root h_type h_address h_size].
  unfold h_type_root. rewrite !u64_small by lia. destruct (object_cases ty Hty) as [Hcase|(_ & Hr & _)].
  - by destruct Hcase as [->|[->|[->|[->|[->|[->|[->| ->]]]]]]].
  - zdecide. done.
Qed.

Section Retype.
Context (me type objsize count dest_cnode dest_slot src offset : Z) (from_monitor : bool) (k : kcaps).
Let s := slot k src.
Let cn := cte_cap (slot k dest_cnode).

(** What a caller passes: words of 32 bits, an object size that is not less
    than the objects of the type, an entry for memory below 4 GB and a
    capability node in memory. *)
Record retype_args : Prop := {
  ra_type : 0 < type < ObjType_Num;
  ra_objsize : 0 < objsize < 2 ^ 32 /\ obj_bytes type objsize <= objsize;
  ra_count : 0 <= count < 2 ^ 32;
  ra_slot : 0 <= dest_slot /\ dest_slot + count < 2 ^ 32;
  ra_offset : 0 <= offset < 2 ^ 32;
  ra_src : s ∈ elements (mdb_root k) /\ memory_type (h_type (cte_cap s))
           /\ 0 <= h_address (cte_cap s) /\ 0 <= h_size (cte_cap s) /\ h_address (cte_cap s) + h_size (cte_cap s) < 2 ^ 32;
  ra_cnode : (h_type cn = 3 \/ h_type cn = 4) /\ 0 <= h_address cn < 2 ^ 32 /\ 0 <= h_size cn
             /\ h_address cn + h_size cn <= 2 ^ 32 /\ (h_type cn = 4 -> h_size cn = 16384)
}.

Let base := h_address (cte_cap s) + offset.

(** What has been checked when the objects are created. *)
Record checks_passed : Prop := {
  cp_type : object_type type = true;
  cp_sizes : sizes_ok type objsize;
  cp_count : 0 < count;
  cp_fits : offset + count * objsize <= h_size (cte_cap s);
  cp_range : has_descendants s (mdb_root k) = false
             \/ retype_range_check s base (objsize * count) k = Done false;
  cp_slots : h_address cn + 64 * (dest_slot + count) <= 2 ^ 32;
  cp_empty : slots_empty (Z.to_nat count) (h_address cn) dest_slot 0 k = true
}.

Lemma well_founded_objects ty : memory_type ty -> is_well_founded ty type = true -> type_is_mapping type = false ->
  object_type type = true.
Proof.
  intros Hty Hw Hm. unfold is_well_founded, object_type in *. rewrite Hm in Hw. destruct (type_is_vnode type); [by rewrite orb_true_r|].
  repeat match type of Hw with context [type =? ?c] => destruct (Z.eqb_spec type c) as [->|]; [try done|] end; cbn in *; try done.
  destruct Hty as [->|[->|[->| ->]]]; done.
Qed.

Lemma size_check_ok : err_is_fail (retype_size_check type objsize offset) = false ->
  type_is_mapping type = false /\ (type = 8 -> objsize `mod` 4096 = 0) /\ (type = 3 -> objsize `mod` 16384 = 0) /\ (type = 4 -> objsize = 16384).
Proof.
  unfold retype_size_check, type_is_mappable, ObjType_Frame, ObjType_DevFrame, ObjType_L1CNode, ObjType_L2CNode, OBJSIZE_L2CNODE, BASE_PAGE_SIZE.
  destruct (negb (offset `mod` 4096 =? 0)); [done|].
  destruct (Z.eqb_spec type 8) as [->|]; cbn.
  { destruct (Z.eqb_spec (objsize `mod` 4096) 0); done. }
  match goal with |- context [if ?b then err SYS_ERR_INVALID_SIZE else _] => destruct b; [done|] end.
  destruct (Z.eqb_spec type 3) as [->|]; cbn.
  { destruct (Z.eqb_spec (objsize `mod` 16384) 0); done. }
  destruct (Z.eqb_spec type 4) as [->|]; cbn; [destruct (Z.eqb_spec objsize 16384); done|]. destruct (type_is_mapping type); done.
Qed.

Lemma max_l1 size n : caps_max_numobjs 3 size objsize = Done n -> n <> 0 -> 16384 <= objsize.
Proof.
  unfold caps_max_numobjs, OBJSIZE_L2CNODE. cbn. destruct (Z.ltb_spec size 16384); cbn; [intros [= <-]; done|].
  destruct (Z.ltb_spec objsize 16384); [intros [= <-]; done|done].
Qed.

Lemma retypeable_range : memory_type (h_type (cte_cap s)) ->
  let e := is_retypeable me s (h_type (cte_cap s)) type from_monitor k in
  err_is_fail e && negb (bool_decide (err_no e = Some SYS_ERR_REVOKE_FIRST)) = false ->
  is_well_founded (h_type (cte_cap s)) type = true /\ (err_is_fail e = false -> has_descendants s (mdb_root k) = false).
Proof.
  intros Hm. unfold is_retypeable, is_revoked_first. destruct (is_well_founded _ type); [|done]. cbn [negb]. intros H. split; [done|]. revert H.
  assert (Ec : (if h_type (cte_cap s) =? ObjType_Dispatcher then true else
    if (h_type (cte_cap s) =? 1) || (h_type (cte_cap s) =? 2) || (h_type (cte_cap s) =? 8) || (h_type (cte_cap s) =? 10)
       || type_is_vnode (h_type (cte_cap s)) then negb (has_descendants s (mdb_root k)) else false)
    = negb (has_descendants s (mdb_root k))) by (by destruct Hm as [->|[->|[->| ->]]]).
  rewrite Ec. by destruct (has_descendants s (mdb_root k)).
Qed.

Lemma cnode_slots_bound n : cnode_get_slots cn = Done n -> retype_args ->
  get_address cn = h_address cn /\ h_address cn + 64 * n <= 2 ^ 32.
Proof.
  intros Hn [_ _ _ _ _ _ (_ & H0 & Hs & H1 & H4)]. unfold cnode_get_slots, ObjType_L1CNode, ObjType_L2CNode in Hn.
  assert (Ha : h_type cn = 3 \/ h_type cn = 4 -> get_address cn = h_address cn).
  { intros Ht. cbn. unfold h_get_address. rewrite u64_small by lia. by destruct Ht as [-> | ->]. }
  destruct (Z.eqb_spec (h_type cn) 3) as [E|].
  - injection Hn as <-. pose proof (Z.div_mod (h_size cn) 64 ltac:(lia)). pose proof (Z.mod_pos_bound (h_size cn) 64 ltac:(lia)).
    rewrite u32_small by (split; [apply Z.div_pos; lia|apply Z.div_lt_upper_bound; lia]). split; [auto|lia].
  - destruct (Z.eqb_spec (h_type cn) 4) as [E|]; [|done]. injection Hn as <-. rewrite (H4 E) in H1. split; [auto|lia].
Qed.

Lemma checks_inv b : retype_args -> retype_checks me type objsize count dest_cnode dest_slot src offset from_monitor k = Done (SYS_ERR_OK, b) ->
  b = base /\ checks_passed.
Proof.
  intros Hargs H. destruct (Hargs) as [_ [Ho _] Hc Hds Hoff (Hs & Hm & Ha0 & Hs0 & Hal) Hcn].
  destruct (get_cap_memory _ Hm Ha0 Hs0 Hal) as [Ega Egs].
  unfold retype_checks in H. fold s cn in H.
  rewrite Ega, Egs in H. cbn [cap_type hamlet] in H.
  destruct (negb (type =? ObjType_Null)); [|done]. cbn [negb] in H. destruct (type <? ObjType_Num); [|done]. cbn zeta in H.
  destruct (err_is_fail (retype_size_check type objsize offset)) eqn:Esz; [destruct (retype_size_check _ _ _); done|].
  destruct (size_check_ok Esz) as (Hmap & H8 & H3 & H4).
  pose proof (retypeable_range Hm) as Hrt. cbn zeta in Hrt.
  set (er := is_retypeable me s (h_type (cte_cap s)) type from_monitor k) in *.
  destruct (err_is_fail er && _) eqn:Eret in H; [destruct er; done|].
  destruct (Hrt Eret) as [Hwf Hnd].
  destruct (_ || _) in H; [|done]. cbn [negb mbind] in H.
  replace (h_type (cte_cap s) =? ObjType_Dispatcher) with false in H by (by destruct Hm as [->|[->|[->| ->]]]). cbn [negb andb] in H.
  destruct (caps_max_numobjs type (h_size (cte_cap s)) objsize) as [mx|] eqn:Emx; [|done].
  cbn [mbind outcome_bind] in H. destruct (Z.eqb_spec mx 0) as [|Hmx]; [done|]. destruct (mx <? count); [done|].
  destruct (Z.eqb_spec count 0) as [|Hc0]; [done|].
  rewrite (Z.mul_comm objsize count) in H. rewrite (u64_small (count * objsize)), (u64_small (offset + _)), (u64_small (h_address _ + _)) in H by nia.
  destruct (Z.ltb_spec (h_size (cte_cap s)) (offset + count * objsize)) as [|Hfits]; [done|].
  fold base in H. set (rc := if err_is_fail er then _ else _) in H. destruct rc as [[]|] eqn:Erc; [done| |done].
  cbn [mbind outcome_bind] in H. destruct (cnode_get_slots cn) as [n|] eqn:En; [|done]. cbn [mbind outcome_bind] in H.
  destruct (cnode_slots_bound n En Hargs) as [Ecn Hn]. rewrite Ecn, (u32_small (dest_slot + count)) in H by lia.
  destruct (Z.ltb_spec n (dest_slot + count)); [done|]. destruct (slots_empty _ _ _ _ _) eqn:Ese; [|done]. cbn [negb] in H.
  injection H as <-. split; [done|]. constructor; try done; try lia.
  - by eapply well_founded_objects.
  - split_and!; [done| |done]. intros ->. split; [by eapply max_l1|by apply H3].
  - unfold rc in Erc. destruct (err_is_fail er); [right|left; auto]. by rewrite Z.mul_comm.
Qed.

(** The [i]-th object, in its slot. *)
Definition new_object (i : Z) : cte :=
  Cte (h_address cn + 64 * (dest_slot + i))
      (HCap type (base + i * obj_bytes type objsize) (obj_bytes type objsize) 0 0 0) false false false.

Definition new_objects : list cte := new_object <$> seqZ 0 count.

Lemma obj_bytes_pos : object_type type = true -> 0 < objsize -> 0 < obj_bytes type objsize.
Proof. intros _ Ho. unfold obj_bytes, vnode_objsize. repeat case_match; lia. Qed.

Lemma created_cap_eq lp i : object_type type = true -> 0 <= lp -> 0 <= i -> 0 <= obj_bytes type objsize -> (type = 4 -> objsize = 16384) ->
  lp + i * obj_bytes type objsize < 2 ^ 32 ->
  created_cap type lp objsize i = HCap type (lp + i * obj_bytes type objsize) (obj_bytes type objsize) 0 0 0.
Proof.
  intros Hty Hlp Hi Hb H4 Hend. unfold created_cap, obj_bytes in *.
  destruct (object_cases type Hty) as [Hcase|(Hv & Hr & _)].
  - destruct Hcase as [->|[->|[->|[->|[->|[->|[->| ->]]]]]]]; try rewrite (H4 eq_refl) in *; cbn in Hend, Hb |- *;
      unfold OBJSIZE_L2CNODE, OBJSIZE_DISPATCHER, OBJSIZE_KCB; by rewrite ?(u64_small (i * objsize)), ?u64_small, ?u32_small by nia.
  - rewrite Hv in *. unfold ObjType_L1CNode, ObjType_L2CNode, ObjType_Dispatcher in *.
    assert (type <> 1 /\ type <> 2 /\ type <> 8 /\ type <> 10 /\ type <> 3 /\ type <> 4 /\ type <> 6 /\ type <> 44) by lia.
    revert Hend. zdecide. cbn [orb]. intros Hend. assert (0 < vnode_objsize type) by (unfold vnode_objsize; repeat case_match; lia).
    by rewrite (u32_small (i * _)), u64_small by nia.
Qed.

Lemma new_ctes_objects : checks_passed -> retype_args -> new_ctes (Z.to_nat count) type base objsize (h_address cn + 64 * dest_slot) 0 = new_objects.
Proof.
  intros [Hty (_ & _ & H4) Hc Hf _ _ _] [_ [Ho Hb] _ _ Hoff (_ & _ & Ha & _ & Hal) _]. unfold new_ctes, new_objects.
  rewrite Z2Nat.id by lia. pose proof (obj_bytes_pos Hty (proj1 Ho)). apply list_fmap_ext. intros j x [-> Hx]%lookup_seqZ.
  unfold new_object. f_equal; [lia|]. apply created_cap_eq; try done; unfold base; try lia. nia.
Qed.

(** What a successful retype leaves. *)
Record retyped (k' : kcaps) : Prop := {
  rt_ok : kcaps_ok k';
  rt_entries : elements (mdb_root k') ≡ₚ new_objects ++ elements (mdb_root k);
  rt_zeroed : zeroed k' = zeroed k ++ caps_zero_objects type base objsize count
}.

Lemma retype_success : kcaps_ok k -> retype_args -> checks_passed ->
  retype_checks me type objsize count dest_cnode dest_slot src offset from_monitor k = Done (SYS_ERR_OK, base) ->
  exists k', caps_retype me type objsize count dest_cnode dest_slot src offset from_monitor k = Done (SYS_ERR_OK, k') /\ retyped k'.
Proof.
  intros Hok Hargs Hcp Hrc. pose proof (new_ctes_objects Hcp Hargs) as Enew. pose proof (kcaps_slots k Hok) as Hsl.
  destruct Hcp as [Hty Hsz Hc Hf _ Hend He].
  destruct Hargs as [_ [Ho Hb] Hc32 Hds Hoff (_ & Hm & Ha & Hs0 & Hal) (Hct & Hca & _)].
  assert (Ecn : get_address cn = h_address cn).
  { cbn. unfold h_get_address. rewrite u64_small by lia. by destruct Hct as [-> | ->]. }
  pose proof (slots_empty_spec (Z.to_nat count) (h_address cn) dest_slot k Hsl 0 He ltac:(lia) ltac:(lia) ltac:(lia) ltac:(lia)) as Hfree.
  rewrite Z2Nat.id in Hfree by lia.
  set (dest := h_address cn + 64 * dest_slot) in *.
  assert (Edest : caps_locate_slot (get_address cn) dest_slot = dest).
  { unfold caps_locate_slot, OBJSIZE_CTE. rewrite Ecn, (u32_small (64 * _)), u32_small by lia. done. }
  unfold caps_retype. rewrite Hrc. cbn [mbind outcome_bind err_is_fail SYS_ERR_OK]. fold s cn. rewrite Edest.
  destruct (get_cap_memory _ Hm Ha Hs0 Hal) as [Ega Egs].
  replace (cap_type (cte_cap s) =? ObjType_Dispatcher) with false by (cbn; by destruct Hm as [->|[->|[->| ->]]]).
  rewrite (u32_small base) by (unfold base; nia).
  destruct (caps_create_objects me type base (get_size (cte_cap s)) objsize count dest k) as (r & f & Ecr); try done; try lia.
  rewrite Ecr. cbn [mbind outcome_bind err_is_fail SYS_ERR_OK].
  replace (type =? ObjType_EndPoint) with false.
  2: { symmetry. apply Z.eqb_neq. intros ->. done. }
  cbn [mbind outcome_bind]. rewrite Enew. set (k1 := set_owner _ _).
  assert (Eaddr : addrs new_objects = (fun j => dest + 64 * j) <$> seqZ 0 (Z.of_nat (Z.to_nat count))).
  { unfold new_objects. rewrite <- list_fmap_compose, Z2Nat.id by lia. apply list_fmap_ext. intros ? j _. cbn. lia. }
  destruct (insert_slots (Z.to_nat count) dest 0 k1 new_objects) as (t' & Ei & Hwf & Hp); try done; try lia.
  - apply Hok.
  - pose proof (kcaps_fits k Hok). cbn [k1 mdb_root set_owner with_new set_rights set_loose set_zeroed]. lia.
  - cbn. by rewrite (ko_loose k Hok).
  - unfold new_objects. apply Forall_fmap, Forall_true. intros j. unfold nonnull. cbn. intros E. rewrite E in Hty. done.
  - unfold used. cbn. rewrite (ko_loose k Hok), fmap_app. apply NoDup_app. split_and!.
    + apply Hok.
    + intros a Hin. rewrite app_nil_l, Eaddr. intros (j & -> & Hj%elem_of_seqZ)%list_elem_of_fmap. apply (Hfree j); [lia|].
      unfold used. rewrite fmap_app, elem_of_app. by left.
    + cbn. rewrite Eaddr. apply NoDup_fmap; [|apply NoDup_seqZ]. intros ? ?. lia.
  - exists (set_root t' (set_loose [] k1)). rewrite Ei. split; [done|]. constructor; [|done..]. constructor; [done..|].
    cbn [mdb_root set_root]. rewrite Hp. apply Forall_app. split; [|apply Hok]. unfold new_objects. apply Forall_fmap, Forall_forall.
    intros j Hj%elem_of_seqZ. cbn. lia.
Qed.

(** ** The range check *)

(** [d] is in the type forest of memory and shares a byte with the new objects. *)
Definition shares (d : cte) : Prop :=
  cap_root (cte_cap d) = 1 /\ beg d < base + count * objsize /\ base < fin d /\ 0 < get_size (cte_cap d).

Lemma shares_in_question d : 0 < count * objsize -> shares d -> in_question 1 base (base + count * objsize) d.
Proof.
  intros Hp (Hr & H1 & H2 & H3). split_and!; [done| |unfold on_border; lia].
  unfold range_class. cbv zeta. zcases; simpl; unfold MDB_RANGE_FOUND_PARTIAL, MDB_RANGE_FOUND_INNER, MDB_RANGE_FOUND_SURROUNDING, MDB_RANGE_NOT_FOUND; lia.
Qed.

Lemma range_check_spec : kcaps_ok k -> Forall no_wrap (elements (mdb_root k)) -> memory_type (h_type (cte_cap s)) ->
  0 <= base -> 0 < count * objsize -> base + count * objsize < 2 ^ 32 ->
  exists revoke, retype_range_check s base (objsize * count) k = Done revoke /\
    (revoke = false -> forall d, d ∈ elements (mdb_root k) -> shares d ->
       beg d <= base /\ base + count * objsize <= fin d /\
       exists f, is_copy (cte_cap f) (cte_cap s) = true /\ compare_caps (C d) (C f) true <= 0).
Proof.
  intros Hok Hnw Hm Hb Hp Hend. pose proof (memory_root _ Hm) as Hroot.
  destruct (mdb_find_range_correct 1 base (count * objsize) MDB_RANGE_FOUND_SURROUNDING true (mdb_root k))
    as ([res found] & Ef & Hf1 & Hf2);
    [apply Hok|done|by left|lia..|done|apply no_lower_root, Hok|].
  unfold retype_range_check. fold (cap_root (cte_cap s)). rewrite Hroot, Z.mul_comm, Ef. cbn [mbind outcome_bind].
  rewrite assert_true by done. cbn [fst snd] in *. destruct (Z.leb_spec MDB_RANGE_FOUND_INNER res) as [|Hle]; [by exists true|].
  assert (Hle1 : res <= MDB_RANGE_FOUND_SURROUNDING) by (unfold MDB_RANGE_FOUND_INNER, MDB_RANGE_FOUND_SURROUNDING in *; lia).
  specialize (Hf2 Hle1).
  assert (Hclass : forall d, d ∈ elements (mdb_root k) -> shares d -> exists f, found = Some f /\ res = 1
            /\ range_class base (base + count * objsize) d = 1 /\ compare_caps (C d) (C f) true <= 0).
  { intros d Hd Hsh. pose proof (shares_in_question d Hp Hsh) as Hq. pose proof (Hf2 d Hd Hq) as Hc. destruct Hq as (_ & Hq & _).
    pose proof (class_cases base (count * objsize) d) as Hcl. unfold MDB_RANGE_NOT_FOUND, MDB_RANGE_FOUND_SURROUNDING in *.
    destruct Hc as [|(f & He & -> & Hpr)]; [lia|]. exists f. assert (res = 1) as -> by lia. by split_and!. }
  destruct (Z.eqb_spec res MDB_RANGE_FOUND_SURROUNDING) as [Er|Hne].
  - destruct found as [f|]; [|by rewrite Hf1 in Er]. eexists. split; [done|]. intros Hcp%negb_false_iff d Hd Hsh.
    destruct (Hclass d Hd Hsh) as (f' & [= <-] & _ & H1%class_surrounding & Hcmp). split_and!; [lia..|by exists f].
  - exists false. split; [done|]. intros _ d Hd Hsh. destruct (Hclass d Hd Hsh) as (f & _ & Hr & _). done.
Qed.

(** Under the invariant that capabilities for memory are nested or disjoint,
    what shares memory with the new objects covers the source. *)
Lemma checks_exclusive : kcaps_ok k -> Forall no_wrap (elements (mdb_root k)) -> retype_args -> checks_passed ->
  (forall d, d ∈ elements (mdb_root k) -> laminar s d) ->
  forall d, d ∈ elements (mdb_root k) -> shares d -> beg d <= beg s /\ fin s <= fin d.
Proof.
  intros Hok Hnw [_ [Ho _] _ _ Hoff (Hs & Hm & Ha & Hs0 & Hal) _] [_ _ Hc Hf Hrange _ _] Hlam d Hd Hsh.
  destruct (get_cap_memory _ Hm Ha Hs0 Hal) as [Ega Egs]. pose proof (memory_root _ Hm) as Hroot.
  destruct (Hsh) as (Hr & H1 & H2 & H3). specialize (Hlam d Hd ltac:(congruence)). unfold base in *.
  assert (Hkey : beg d < beg s \/ (beg d = beg s /\ get_size (cte_cap s) <= get_size (cte_cap d))).
  { destruct Hrange as [Hdesc|Hrc].
    - assert (Hnd : ~ descendant d s).
      { intros Hdd. rewrite Forall_forall in Hnw. assert (has_descendants s (mdb_root k) = true); [|congruence].
        apply has_descendants_spec; [apply Hok|by apply Hnw|]. by exists d. }
      destruct (Z.lt_ge_cases (beg d) (beg s)); [by left|]. pose proof (compare_le_key d s) as Hle.
      destruct (Z.lt_ge_cases (compare_caps (C s) (C d) false) 0) as [Hlt|Hge].
      + destruct Hnd. split_and!; [done|congruence|lia|]. rewrite Ega, Egs. lia.
      + rewrite (compare_antisym (C s) (C d)) in Hle. lia.
    - destruct (range_check_spec Hok Hnw Hm) as (b & Erc & Hb); [unfold base; nia..|].
      unfold base in Hb, Erc. rewrite Hrc in Erc. injection Erc as <-.
      destruct (Hb eq_refl d Hd Hsh) as (_ & _ & f & Hcp & Hcmp).
      apply compare_true_le, compare_le_key in Hcmp.
      apply (is_copy_compare 0 _ 0), compare_eq_key in Hcp as (Ht & Hfa & Hfs). cbn [snd] in Ht, Hfa, Hfs.
      assert (cap_root (cte_cap f) = 1) by (unfold cap_root; by rewrite Ht). lia. }
  lia.
Qed.

(** * The checks never fail an assertion *)
Lemma max_numobjs_total ty : object_type ty = true -> 0 < objsize -> exists n, caps_max_numobjs ty (h_size (cte_cap s)) objsize = Done n.
Proof.
  intros Hty Ho. unfold caps_max_numobjs. destruct (object_cases ty Hty) as [Hcase|(Hv & Hr & _)].
  - destruct Hcase as [->|[->|[->|[->|[->|[->|[->| ->]]]]]]]; cbn; repeat case_match; (by eexists) || lia.
  - rewrite Hv. unfold ObjType_L1CNode, ObjType_L2CNode. zdecide. cbn. case_match; by eexists.
Qed.

Lemma checks_total : kcaps_ok k -> Forall no_wrap (elements (mdb_root k)) -> retype_args ->
  exists e b, retype_checks me type objsize count dest_cnode dest_slot src offset from_monitor k = Done (e, b).
Proof.
  intros Hok Hnw Hargs. destruct (Hargs) as [Hty [Ho _] Hc Hds Hoff (Hs & Hm & Ha0 & Hs0 & Hal) (Hct & _)].
  destruct (get_cap_memory _ Hm Ha0 Hs0 Hal) as [Ega Egs].
  unfold retype_checks. fold s cn. rewrite Ega, Egs. cbn [cap_type hamlet].
  unfold ObjType_Num in *. rewrite (proj2 (Z.eqb_neq type ObjType_Null)), (proj2 (Z.ltb_lt type 46)) by (unfold ObjType_Null; lia).
  rewrite !(assert_true true) by done.
  cbn zeta. destruct (err_is_fail (retype_size_check type objsize offset)) eqn:Esz; [by eexists _, _|].
  destruct (size_check_ok Esz) as (Hmap & _).
  pose proof (retypeable_range Hm) as Hrt. cbn zeta in Hrt.
  set (er := is_retypeable me s (h_type (cte_cap s)) type from_monitor k) in *.
  destruct (err_is_fail er && _) eqn:Eret; [by eexists _, _|].
  destruct (Hrt eq_refl) as [Hwf Hnd]. rewrite assert_true by (by destruct Hm as [->|[->|[->| ->]]]).
  replace (h_type (cte_cap s) =? ObjType_Dispatcher) with false by (by destruct Hm as [->|[->|[->| ->]]]). cbn [negb andb].
  destruct (max_numobjs_total type) as [mx ->]; [by eapply well_founded_objects|lia|]. cbn [mbind outcome_bind].
  destruct (mx =? 0); [by eexists _, _|]. destruct (mx <? count); [by eexists _, _|].
  destruct (Z.eqb_spec count 0) as [|Hc0]; [by eexists _, _|].
  rewrite (u64_small (objsize * count)), (u64_small (count * objsize)), (u64_small (offset + _)), (u64_small (h_address _ + _)) by nia.
  destruct (Z.ltb_spec (h_size (cte_cap s)) (offset + count * objsize)) as [|Hfits]; [by eexists _, _|]. fold base.
  assert (exists b, (if err_is_fail er then retype_range_check s base (objsize * count) k else Done false) = Done b) as [b ->].
  { destruct (err_is_fail er); [|by eexists]. destruct (range_check_spec Hok Hnw Hm) as (b & ? & _); [unfold base; nia..|]. by exists b. }
  cbn [mbind outcome_bind]. destruct b; [by eexists _, _|].
  assert (exists n, cnode_get_slots cn = Done n) as [n ->].
  { unfold cnode_get_slots. destruct Hct as [-> | ->]; by eexists. }
  cbn [mbind outcome_bind]. do 2 (case_match; [by eexists _, _|]). by eexists _, _.
Qed.

Lemma retype_cases : kcaps_ok k -> Forall no_wrap (elements (mdb_root k)) -> retype_args ->
  exists e k', caps_retype me type objsize count dest_cnode dest_slot src offset from_monitor k = Done (e, k') /\
    ((err_is_fail e = true /\ k' = k) \/ (e = SYS_ERR_OK /\ checks_passed /\ retyped k')).
Proof.
  intros Hok Hnw Hargs. destruct (checks_total Hok Hnw Hargs) as (e & b & E). destruct (err_is_fail e) eqn:Ef.
  - exists e, k. unfold caps_retype. rewrite E. cbn. rewrite Ef. auto.
  - destruct e; [|done]. destruct (checks_inv b Hargs E) as [-> Hcp].
    destruct (retype_success Hok Hargs Hcp E) as (k' & ? & ?). eexists _, k'. split; [done|]. auto.
Qed.

Lemma retype_ok_inv k' : kcaps_ok k -> Forall no_wrap (elements (mdb_root k)) -> retype_args ->
  caps_retype me type objsize count dest_cnode dest_slot src offset from_monitor k = Done (SYS_ERR_OK, k') ->
  checks_passed /\ retyped k'.
Proof.
  intros Hok Hnw Hargs E. destruct (retype_cases Hok Hnw Hargs) as (e & k'' & E' & Hor). rewrite E in E'. injection E' as <- <-.
  destruct Hor as [[? ?]|(_ & ? & ?)]; done.
Qed.

(** Where the [i]-th object lies. *)
Lemma new_object_place i : checks_passed -> retype_args -> 0 <= i < count ->
  cap_root (cte_cap (new_object i)) = 1 /\ beg (new_object i) = base + i * obj_bytes type objsize
  /\ get_size (cte_cap (new_object i)) = obj_bytes type objsize /\ 0 < obj_bytes type objsize
  /\ base + (i + 1) * obj_bytes type objsize <= base + count * objsize <= fin s /\ beg s <= base.
Proof.
  intros [Hty _ Hc Hf _ _ _] [_ [Ho Hb] _ _ Hoff (_ & Hm & Ha & Hs0 & Hal) _] Hi.
  destruct (get_cap_memory _ Hm Ha Hs0 Hal) as [Ega Egs]. pose proof (obj_bytes_pos Hty (proj1 Ho)).
  rewrite Ega, Egs. unfold new_object. cbn [cte_cap get_address get_size hamlet].
  assert ((i + 1) * obj_bytes type objsize <= count * objsize) by nia.
  destruct (object_get type (base + i * obj_bytes type objsize) (obj_bytes type objsize)) as (-> & -> & ->);
    [done|unfold base; lia..|]. unfold base. lia.
Qed.

Lemma zero_area a z : checks_passed -> retype_args -> (a, z) ∈ caps_zero_objects type base objsize count ->
  a = base /\ z = count * obj_bytes type objsize.
Proof.
  intros [Hty (_ & _ & H4) Hc Hf _ _ _] [_ [Ho Hb] _ _ Hoff (_ & Hm & Ha & Hs0 & Hal) _].
  pose proof (obj_bytes_pos Hty (proj1 Ho)). assert (count * obj_bytes type objsize <= count * objsize) by nia.
  unfold caps_zero_objects, ObjType_Frame, ObjType_L1CNode, ObjType_L2CNode, ObjType_Dispatcher, ObjType_KernelControlBlock.
  unfold obj_bytes in *.
  destruct (object_cases type Hty) as [Hcase|(Hv & Hr & _)].
  - destruct Hcase as [->|[->|[->|[->|[->|[->|[->| ->]]]]]]]; cbn [Z.eqb Pos.eqb orb] in *; try by intros ?%elem_of_nil.
    all: repeat match goal with H : context [type_is_vnode ?n] |- _ => change (type_is_vnode n) with false in H end; cbn [type_is_vnode Z.leb Z.compare Pos.compare Pos.compare_cont andb] in *.
    all: intros [= -> ->]%list_elem_of_singleton; split; [done|].
    all: unfold OBJSIZE_DISPATCHER, OBJSIZE_KCB; rewrite ?u64_small, u32_small by (try rewrite (H4 eq_refl) in *; lia); try rewrite (H4 eq_refl); lia.
  - revert H0 H Hb. rewrite Hv. zdecide. cbn [orb]. intros H0 H Hb [= -> ->]%list_elem_of_singleton. split; [done|].
    rewrite u64_small, u32_small by lia. lia.
Qed.

Lemma in_new_objects o : o ∈ new_objects <-> exists i, o = new_object i /\ 0 <= i < count.
Proof. unfold new_objects. rewrite list_elem_of_fmap. setoid_rewrite elem_of_seqZ. rewrite Z.add_0_l. done. Qed.

(** An entry that shares memory with a new object shares it with the range. *)
Lemma object_shares i d : checks_passed -> retype_args -> 0 <= i < count -> cap_root (cte_cap d) = 1 ->
  beg d < fin (new_object i) -> beg (new_object i) < fin d -> 0 < get_size (cte_cap d) -> shares d.
Proof.
  intros Hcp Hargs Hi Hr H1 H2 Hz. destruct (new_object_place i Hcp Hargs Hi) as (_ & Eb & Es & ? & ? & ?).
  rewrite Eb, Es in *. unfold shares. split_and!; [done|nia|nia|done].
Qed.

(** C25: a retype of a memory capability below 4 GB into a CNode, with a
    valid type, an object size that is positive and not less than the bytes
    of an object, and slots that do not overflow 32 bits, fails no
    assertion: it either returns an error and changes nothing, or the
    database, still well-formed, gains exactly the new objects in the
    requested slots. Other arguments do go wrong: an object size of zero
    divides by zero (retype_divides_by_zero) and slot numbers can wrap
    around (retype_slot_wraps). *)
Theorem caps_retype_correct : kcaps_ok k -> Forall no_wrap (elements (mdb_root k)) -> retype_args ->
  exists e k', caps_retype me type objsize count dest_cnode dest_slot src offset from_monitor k = Done (e, k') /\
    ((err_is_fail e = true /\ k' = k) \/ (e = SYS_ERR_OK /\ checks_passed /\ retyped k')).
Proof. apply retype_cases. Qed.

Context (k' : kcaps).
Hypothesis Hok : kcaps_ok k.
Hypothesis Hnw : Forall no_wrap (elements (mdb_root k)).
Hypothesis Hargs : retype_args.
Hypothesis Hret : caps_retype me type objsize count dest_cnode dest_slot src offset from_monitor k = Done (SYS_ERR_OK, k').

(** C24: when a retype of a memory capability below 4 GB succeeds, with an
    object size that is positive and not less than the bytes of an object,
    slots that do not overflow 32 bits and every memory capability of the
    database nested in the source, around it or disjoint from it, the new
    objects lie inside of the source, apart from each other, what is cleared
    lies inside of them, and an older capability that shares memory with one
    of them covers the whole source: no memory is handed out twice. With an
    object size smaller than the objects they can leave the source
    (retype_escapes). *)
Theorem caps_retype_exclusive : (forall d, d ∈ elements (mdb_root k) -> laminar s d) ->
  (forall i, 0 <= i < count -> beg s <= beg (new_object i) < fin (new_object i) /\ fin (new_object i) <= fin s) /\
  (forall i j, 0 <= i < j -> j < count -> fin (new_object i) <= beg (new_object j)) /\
  (forall a z, (a, z) ∈ caps_zero_objects type base objsize count ->
     a = beg (new_object 0) /\ a + z = fin (new_object (count - 1))) /\
  (forall i d, 0 <= i < count -> d ∈ elements (mdb_root k) -> cap_root (cte_cap d) = 1 -> 0 < get_size (cte_cap d) ->
     beg d < fin (new_object i) -> beg (new_object i) < fin d -> beg d <= beg s /\ fin s <= fin d).
Proof.
  intros Hlam. destruct (retype_ok_inv k' Hok Hnw Hargs Hret) as [Hcp _]. pose proof (cp_count Hcp) as Hc. split_and!.
  - intros i Hi. destruct (new_object_place i Hcp Hargs Hi) as (_ & -> & -> & ? & ? & ?). nia.
  - intros i j Hij Hj. destruct (new_object_place i Hcp Hargs ltac:(lia)) as (_ & -> & -> & ? & ? & ?).
    destruct (new_object_place j Hcp Hargs ltac:(lia)) as (_ & -> & _). nia.
  - intros a z Hz. destruct (zero_area a z Hcp Hargs Hz) as [-> ->].
    destruct (new_object_place 0 Hcp Hargs ltac:(lia)) as (_ & -> & _).
    destruct (new_object_place (count - 1) Hcp Hargs ltac:(lia)) as (_ & -> & -> & _). lia.
  - intros i d Hi Hd Hr Hz H1 H2. apply (checks_exclusive Hok Hnw Hargs Hcp Hlam d Hd). by eapply object_shares.
Qed.

(** A retype keeps the capabilities for memory nested or disjoint. *)
Theorem caps_retype_nested : (forall c d, c ∈ elements (mdb_root k) -> d ∈ elements (mdb_root k) -> laminar c d) ->
  forall c d, c ∈ elements (mdb_root k') -> d ∈ elements (mdb_root k') -> laminar c d.
Proof.
  intros Hlam. destruct (retype_ok_inv k' Hok Hnw Hargs Hret) as [Hcp [_ Hent _]].
  pose proof (ra_src Hargs) as (Hs & Hm & _).
  assert (Hold : forall i d, 0 <= i < count -> d ∈ elements (mdb_root k) -> laminar (new_object i) d).
  { intros i d Hi Hd Hr. destruct (new_object_place i Hcp Hargs Hi) as (Er & Eb & Es & ? & ? & ?). rewrite Er in Hr.
    pose proof (size_width (cte_cap d)) as [Hz _].
    destruct (Z.lt_ge_cases (beg d) (fin (new_object i))); [|lia]. destruct (Z.lt_ge_cases (beg (new_object i)) (fin d)); [|lia].
    destruct (Z.eq_dec (get_size (cte_cap d)) 0) as [E0|]; [rewrite E0 in *; lia|].
    assert (beg d <= beg s /\ fin s <= fin d) by (apply (checks_exclusive Hok Hnw Hargs Hcp); [auto|done|eapply object_shares; try done; lia]).
    rewrite Eb, Es in *. do 3 right. nia. }
  assert (Hsym : forall c d : cte, laminar c d -> laminar d c) by (unfold laminar; intros c d H E; specialize (H (eq_sym E)); lia).
  assert (Hnew : forall i j, 0 <= i < count -> 0 <= j < count -> laminar (new_object i) (new_object j)).
  { intros i j Hi Hj _. destruct (new_object_place i Hcp Hargs Hi) as (_ & Eb & Es & ? & _).
    destruct (new_object_place j Hcp Hargs Hj) as (_ & Eb' & Es' & _). rewrite Eb, Es, Eb', Es'.
    destruct (Z.lt_trichotomy i j) as [|[->|]]; [left; nia|do 2 right; left; lia|right; left; nia]. }
  intros c d. rewrite Hent, !elem_of_app, !in_new_objects.
  intros [(i & -> & Hi)|Hc] [(j & -> & Hj)|Hd]; auto.
Qed.
End Retype.

(** * Copy and mint *)

Section Copy.
Context (dest src : Z) (k : kcaps).
Let s := slot k src.

(** The entry that holds the copy. *)
Definition copy_entry : cte := Cte dest (cte_cap s) (remote_copies s) (remote_ancs s) (remote_descs s).

(** A capability in its slot that is not in the database yet. *)
Lemma insert_loose c k1 : mdb_wf (mdb_root k1) -> tsize (mdb_root k1) <= 2 ^ 32 -> loose k1 = [c] -> nonnull c ->
  cte_addr c ∉ addrs (elements (mdb_root k1)) ->
  exists t', insert_slot (cte_addr c) k1 = set_root t' (set_loose [] k1) /\ mdb_wf t' /\ elements t' ≡ₚ c :: elements (mdb_root k1).
Proof.
  intros Hwf Hfit El Hnn Hfresh. assert (Hsok : slots_ok k1).
  { unfold slots_ok, used. rewrite El, fmap_app. split.
    - apply NoDup_app. split_and!; [apply Hwf| |apply NoDup_singleton]. by intros a Ha ->%list_elem_of_singleton.
    - apply Forall_app. split; [apply Hwf|by constructor]. }
  unfold insert_slot. rewrite (slot_used k1 c Hsok) by (unfold used; rewrite El; apply elem_of_app; right; by left).
  destruct (insert_wf c (mdb_root k1)) as (t & l1 & l2 & Et & Hwf' & E1 & E2); try done; [unfold fits; lia|].
  rewrite Et. cbn [err_is_fail SYS_ERR_OK]. exists t. unfold clear_slot. rewrite El.
  rewrite filter_other by apply not_elem_of_nil. split_and!; [done..|]. by rewrite E1, E2, Permutation_middle.
Qed.

(** The state when the slot has been written and is not yet in the database. *)
Definition copy_written : kcaps :=
  set_endpoint (<[dest := endpoint_of k src]> (endpoint_of k))
    (set_loose [copy_entry] (set_locked (<[dest := locked k src]> (locked k))
      (set_owner (<[dest := owner_of k src]> (owner_of k)) (set_rights (<[dest := rights_of k src]> (rights_of k)) k)))).

Hypothesis Hok : kcaps_ok k.
Hypothesis Hsrc : in_delete k src = false.

Lemma copy_steps (mint : bool) (param1 param2 : Z) : mint = true \/ (param1 = 0 /\ param2 = 0) ->
  slot_type k src <> ObjType_Null -> slot_type k dest = ObjType_Null ->
  caps_copy_to_cte dest src mint param1 param2 k =
    if negb mint then Done (SYS_ERR_OK, insert_slot dest copy_written) else
    if h_type (cte_cap s) =? ObjType_EndPoint then
      if param2 <? LMP_RECV_HEADER_LENGTH then Done (err SYS_ERR_INVALID_EPLEN, copy_written)
      else Done (SYS_ERR_OK, insert_slot dest (set_endpoint (<[dest := (param1, param2)]> (endpoint_of copy_written)) copy_written))
    else if h_type (cte_cap s) =? ObjType_IO then
      let lo := if h_eq0 (cte_cap s) <=? param1 then u16 param1 else h_eq0 (cte_cap s) in
      let hi := if param2 <=? h_eq1 (cte_cap s) then u16 param2 else h_eq1 (cte_cap s) in
      Done (SYS_ERR_OK, insert_slot dest (set_loose
        [Cte dest (HCap ObjType_IO 0 0 lo hi 0) (remote_copies s) (remote_ancs s) (remote_descs s)] copy_written))
    else Done (err SYS_ERR_INVALID_SOURCE_TYPE, copy_written).
Proof.
  intros Hp Hs Hd. unfold caps_copy_to_cte. fold s. unfold slot_type in Hs. fold s in Hs.
  rewrite (proj2 (Z.eqb_neq _ _) Hs), Hsrc.
  rewrite (assert_true (mint || _)) by (destruct Hp as [->|[-> ->]]; [done|apply orb_true_r]).
  cbn [mbind outcome_bind negb assert]. unfold set_cap. rewrite Hd. cbn [Z.eqb ObjType_Null negb err_is_fail SYS_ERR_OK].
  unfold copy_written. cbn. rewrite (ko_loose k Hok). cbn. rewrite Z.eqb_refl. cbn. rewrite Z.eqb_refl. done.
Qed.

Lemma copy_used : slot_type k dest = ObjType_Null -> dest ∉ addrs (elements (mdb_root k)).
Proof.
  intros Hd. pose proof (proj1 (slot_type_null k dest (kcaps_slots k Hok))) as H. rewrite Hd in H.
  specialize (H eq_refl). unfold used in H. rewrite fmap_app, not_elem_of_app in H. by destruct H.
Qed.

(** The cases of a copy. *)
Lemma copy_cases : 0 <= dest < 2 ^ 32 ->
  exists e k', caps_copy_to_cte dest src false 0 0 k = Done (e, k') /\
    ((slot_type k src = ObjType_Null /\ e = err SYS_ERR_CAP_NOT_FOUND /\ k' = k) \/
     (slot_type k src <> ObjType_Null /\ slot_type k dest <> ObjType_Null /\ e = err SYS_ERR_SLOT_IN_USE /\ k' = k) \/
     (slot_type k src <> ObjType_Null /\ slot_type k dest = ObjType_Null /\ e = SYS_ERR_OK /\ kcaps_ok k' /\
      elements (mdb_root k') ≡ₚ copy_entry :: elements (mdb_root k) /\
      slot k' dest = copy_entry /\ is_copy (cte_cap copy_entry) (cte_cap s) = true /\
      owner_of k' = <[dest := owner_of k src]> (owner_of k) /\
      rights_of k' = <[dest := rights_of k src]> (rights_of k) /\ locked k' = <[dest := locked k src]> (locked k) /\ endpoint_of k' = <[dest := endpoint_of k src]> (endpoint_of k))).
Proof.
  intros Hdr. destruct (Z.eq_dec (slot_type k src) ObjType_Null) as [E0|Hs].
  { eexists _, k. split; [|left; done]. unfold caps_copy_to_cte. unfold slot_type in E0. by rewrite E0. }
  destruct (Z.eq_dec (slot_type k dest) ObjType_Null) as [Hd|Hd].
  2: { eexists _, k. split; [|right; left; done]. unfold caps_copy_to_cte. unfold slot_type in Hs.
       rewrite (proj2 (Z.eqb_neq _ _) Hs), Hsrc. cbn. unfold set_cap. by rewrite (proj2 (Z.eqb_neq _ _) Hd). }
  rewrite (copy_steps false 0 0) by auto. cbn [negb].
  destruct (insert_loose copy_entry copy_written) as (t' & Ei & Hwf & Hp); [apply Hok|exact (kcaps_fits k Hok)|done|exact Hs|by apply copy_used|].
  change (cte_addr copy_entry) with dest in Ei. rewrite Ei. eexists _, _. split; [done|]. do 2 right.
  assert (Hok' : kcaps_ok (set_root t' (set_loose [] copy_written))).
  { constructor; [done..|]. cbn [mdb_root set_root]. rewrite Hp. constructor; [done|apply Hok]. }
  split_and!; try done.
  - apply (slot_used _ copy_entry); [by apply kcaps_slots|]. unfold used. cbn [mdb_root set_root]. rewrite Hp. by left.
  - apply (is_copy_nonnull 0 _ 0); [done|]. apply compare_refl.
Qed.

(** Copying a capability into a slot fails no assertion unless the
    source is being deleted.  It reports an empty source and a slot in use
    and then changes nothing; otherwise the database gains exactly one
    entry, which holds the source's capability, owner, rights and lock, and
    counts as a copy of it. *)
Theorem caps_copy_correct : 0 <= dest < 2 ^ 32 ->
  exists e k', caps_copy_to_cte dest src false 0 0 k = Done (e, k') /\
    ((slot_type k src = ObjType_Null /\ e = err SYS_ERR_CAP_NOT_FOUND /\ k' = k) \/
     (slot_type k src <> ObjType_Null /\ slot_type k dest <> ObjType_Null /\ e = err SYS_ERR_SLOT_IN_USE /\ k' = k) \/
     (slot_type k src <> ObjType_Null /\ slot_type k dest = ObjType_Null /\ e = SYS_ERR_OK /\ kcaps_ok k' /\
      elements (mdb_root k') ≡ₚ copy_entry :: elements (mdb_root k) /\
      slot k' dest = copy_entry /\ is_copy (cte_cap copy_entry) (cte_cap s) = true /\
      owner_of k' = <[dest := owner_of k src]> (owner_of k) /\
      rights_of k' = <[dest := rights_of k src]> (rights_of k) /\ locked k' = <[dest := locked k src]> (locked k))).
Proof.
  intros Hd. destruct (copy_cases Hd) as (e & k' & E & Hc). exists e, k'. split; [done|].
  destruct Hc as [?|[?|(? & ? & ? & ? & ? & ? & ? & ? & ? & ? & _)]]; [by left|by right; left|by right; right].
Qed.

(** A mint of a capability that cannot be minted, such as a frame, returns an
    error but leaves the capability in the slot, where the database does not
    know of it. *)
Theorem mint_leaves_untracked param1 param2 : slot_type k src <> ObjType_Null -> slot_type k src <> ObjType_EndPoint ->
  slot_type k src <> ObjType_IO -> slot_type k dest = ObjType_Null ->
  exists k', caps_copy_to_cte dest src true param1 param2 k = Done (err SYS_ERR_INVALID_SOURCE_TYPE, k') /\
    slot k' dest = copy_entry /\ mdb_root k' = mdb_root k /\ copy_entry ∉ elements (mdb_root k').
Proof.
  intros Hs He Hi Hd. rewrite (copy_steps true) by auto. cbn [negb]. unfold slot_type in He, Hi. cbn in He, Hi. fold s in He, Hi.
  rewrite (proj2 (Z.eqb_neq _ _) He), (proj2 (Z.eqb_neq _ _) Hi). eexists. split; [done|].
  pose proof (copy_used Hd) as Hf. split_and!; [|done|by intros Hin%(list_elem_of_fmap_2 cte_addr)].
  apply (slot_used _ copy_entry).
  - unfold slots_ok, used. cbn. rewrite fmap_app. split.
    + apply NoDup_app. split_and!; [apply Hok| |apply NoDup_singleton]. by intros a Ha ->%list_elem_of_singleton.
    + apply Forall_app. split; [apply Hok|by constructor].
  - unfold used. cbn. apply elem_of_app. right. by left.
Qed.
End Copy.

(** * Lookup *)

Section Lookup.
Context (k : kcaps) (rights : Z).

(** The slot [a] of the capability node in the slot [cn], which grants the
    rights, holds a capability. *)
Definition cnode_entry (ty cn index a : Z) : Prop :=
  slot_type k cn = ty /\ Z.land (rights_of k cn) rights = rights /\
  a = caps_locate_slot (get_address (cte_cap (slot k cn))) index /\ slot_type k a <> ObjType_Null.

(** How an address of the capability space resolves: the upper 24 bits index
    the root node, whose size is variable, the lower 8 bits a node of the
    second level. *)
Inductive resolves (root cptr : Z) : Z -> Z -> Prop :=
| resolve_root : resolves root cptr 0 root
| resolve_l1 a : cptr / 256 < u32 (h_size (cte_cap (slot k root)) / 64) ->
    cnode_entry ObjType_L1CNode root (cptr / 256) a -> resolves root cptr 1 a
| resolve_l2 cn a : cptr / 256 < u32 (h_size (cte_cap (slot k root)) / 64) ->
    cnode_entry ObjType_L1CNode root (cptr / 256) cn ->
    cnode_entry ObjType_L2CNode cn (cptr `mod` 256) a -> resolves root cptr 2 a.

Lemma cptr_split cptr : 0 <= cptr < 2 ^ 32 ->
  Z.land (Z.shiftr cptr 8) (Z.ones 24) = cptr / 256 /\ Z.land cptr (Z.ones 8) = cptr `mod` 256.
Proof.
  intros H. rewrite !Z.land_ones, Z.shiftr_div_pow2 by lia. split; [|done]. apply Z.mod_small.
  split; [apply Z.div_pos; lia|apply Z.div_lt_upper_bound; lia].
Qed.

Lemma resolves_inv root cptr level b : level <> 0 -> resolves root cptr level b ->
  cptr / 256 < u32 (h_size (cte_cap (slot k root)) / 64) /\
  exists cn, cnode_entry ObjType_L1CNode root (cptr / 256) cn /\
    (level = 1 /\ b = cn \/ level = 2 /\ cnode_entry ObjType_L2CNode cn (cptr `mod` 256) b).
Proof.
  intros H0 Hb. inversion Hb as [|a ? Hn|cn a ? Hn]; subst; [done|..]; (split; [done|]); [exists b|exists cn]; (split; [done|]); auto.
Qed.

Lemma lookup_cases root cptr level : 0 <= cptr < 2 ^ 32 -> 0 <= level ->
  exists e a, caps_lookup_slot root cptr level rights k = Done (e, a) /\
    (if err_is_fail e then forall b, ~ resolves root cptr level b
     else e = SYS_ERR_OK /\ forall b, resolves root cptr level b <-> b = a).
Proof.
  intros Hc Hl. unfold caps_lookup_slot. destruct (cptr_split cptr Hc) as [-> ->].
  destruct (Z.ltb_spec 2 level). { eexists _, _. split; [done|]. intros b Hb. inversion Hb; lia. }
  destruct (Z.eqb_spec level 0) as [->|H0].
  { eexists _, _. split; [done|]. split; [done|]. intros b. split; [by inversion 1|intros ->; constructor]. }
  pose proof (fun b => resolves_inv root cptr level b H0) as Hl1.
  destruct (Z.eqb_spec (slot_type k root) ObjType_L1CNode) as [E1|]; cbn [negb].
  2: { eexists _, _. split; [done|]. intros b (_ & cn & (? & _) & _)%Hl1. done. }
  unfold cnode_get_slots. pose proof E1 as E1'. unfold slot_type in E1'. cbn [cap_type hamlet] in E1'. rewrite E1'.
  cbn [Z.eqb Pos.eqb ObjType_L1CNode mbind outcome_bind].
  destruct (Z.leb_spec (u32 (h_size (cte_cap (slot k root)) / 64)) (cptr / 256)).
  { eexists _, _. split; [done|]. intros b (? & _)%Hl1. lia. }
  destruct (Z.eqb_spec (Z.land (rights_of k root) rights) rights) as [Er|]; cbn [negb].
  2: { eexists _, _. split; [done|]. intros b (_ & cn & (_ & ? & _) & _)%Hl1. done. }
  set (l2 := caps_locate_slot _ _).
  destruct (Z.eqb_spec level 1) as [->|Hn1].
  { destruct (Z.eqb_spec (slot_type k l2) ObjType_Null) as [En|Hn]; eexists _, _; (split; [done|]); cbn [err_is_fail err SYS_ERR_OK].
    - intros b (_ & cn & (_ & _ & -> & ?) & _)%Hl1. done.
    - split; [done|]. intros b. split; [|intros ->; by constructor].
      intros (_ & cn & (_ & _ & -> & _) & [[_ ->]|[? _]])%Hl1; done. }
  assert (level = 2) as -> by lia.
  destruct (Z.eqb_spec (slot_type k l2) ObjType_Null) as [En|Hn].
  { eexists _, _. split; [done|]. intros b (_ & cn & (_ & _ & -> & ?) & _)%Hl1. done. }
  destruct (Z.eqb_spec (slot_type k l2) ObjType_L2CNode) as [E2|]; cbn [negb].
  2: { eexists _, _. split; [done|]. intros b (_ & cn & (_ & _ & -> & _) & [[? _]|[_ (? & _)]])%Hl1; done. }
  destruct (Z.eqb_spec (Z.land (rights_of k l2) rights) rights) as [Er2|]; cbn [negb].
  2: { eexists _, _. split; [done|]. intros b (_ & cn & (_ & _ & -> & _) & [[? _]|[_ (_ & ? & _)]])%Hl1; done. }
  set (a := caps_locate_slot _ (cptr `mod` 256)).
  destruct (Z.eqb_spec (slot_type k a) ObjType_Null) as [Ea|Ha]; eexists _, _; (split; [done|]); cbn [err_is_fail err SYS_ERR_OK].
  - intros b (_ & cn & (_ & _ & -> & _) & [[? _]|[_ (_ & _ & -> & ?)]])%Hl1; done.
  - split; [done|]. intros b. split; [|intros ->; by apply (resolve_l2 root cptr l2)].
    intros (_ & cn & (_ & _ & -> & _) & [[? _]|[_ (_ & _ & -> & _)]])%Hl1; done.
Qed.

Lemma lookup_or_inv code root cptr level f e k' : 0 <= cptr < 2 ^ 32 -> 0 <= level ->
  lookup_or code root cptr level rights k f = Done (e, k') ->
  (err_is_fail e = true /\ k' = k) \/ exists a, resolves root cptr level a /\ f a = Done (e, k').
Proof.
  intros Hc Hl. unfold lookup_or. destruct (lookup_cases root cptr level Hc Hl) as (e1 & a & -> & Hres). cbn [mbind outcome_bind].
  destruct (err_is_fail e1) eqn:Ef.
  - intros [= <- <-]. by left.
  - intros Hf. right. exists a. split; [by apply Hres|done].
Qed.

(** [caps_lookup_slot] fails no assertion; it succeeds exactly when the
    address resolves in the two-level capability space with the requested
    rights on the nodes, and returns the only slot it resolves to. *)
Theorem caps_lookup_correct root cptr level : 0 <= cptr < 2 ^ 32 -> 0 <= level ->
  exists e a, caps_lookup_slot root cptr level rights k = Done (e, a) /\
    (if err_is_fail e then forall b, ~ resolves root cptr level b
     else e = SYS_ERR_OK /\ forall b, resolves root cptr level b <-> b = a).
Proof. apply lookup_cases. Qed.
End Lookup.

(** A retype by its system call either fails and changes nothing, or acts as
    [caps_retype] on the slots that the addresses resolve to. *)
Theorem sys_retype_resolves me root source_croot source_cptr offset type objsize count
  dest_cspace dest_cnode_cptr dest_level dest_slot fm k e k' :
  0 <= source_croot < 2 ^ 32 -> 0 <= source_cptr < 2 ^ 32 -> 0 <= dest_cspace < 2 ^ 32 -> 0 <= dest_cnode_cptr < 2 ^ 32 -> 0 <= dest_level ->
  sys_retype me root source_croot source_cptr offset type objsize count dest_cspace dest_cnode_cptr dest_level dest_slot fm k = Done (e, k') ->
  (err_is_fail e = true /\ k' = k) \/
  exists source_root source dest_root cnode,
    resolves k CAPRIGHTS_READ root source_croot 2 source_root /\ resolves k CAPRIGHTS_READ source_root source_cptr 2 source /\
    resolves k CAPRIGHTS_READ root dest_cspace 2 dest_root /\ resolves k CAPRIGHTS_READ_WRITE dest_root dest_cnode_cptr dest_level cnode /\
    caps_retype me type objsize count cnode dest_slot source offset fm k = Done (e, k').
Proof.
  intros H1 H2 H3 H4 H5 H. unfold sys_retype in H. destruct (_ || _); [injection H as <- <-; by left|].
  apply lookup_or_inv in H as [?|(source_root & R1 & H)]; [by left| |done|done].
  apply lookup_or_inv in H as [?|(source & R2 & H)]; [by left| |done|done].
  apply lookup_or_inv in H as [?|(dest_root & R3 & H)]; [by left| |done|done].
  destruct (negb (slot_type k dest_root =? _)); [injection H as <- <-; by left|].
  apply lookup_or_inv in H as [?|(cnode & R4 & H)]; [by left| |done|done].
  destruct (_ && _); [injection H as <- <-; by left|]. right. by exists source_root, source, dest_root, cnode.
Qed.


(** * A concrete capability space *)

Module CapsSample.
Definition cte0 (a type address size : Z) : cte := Cte a (HCap type address size 0 0 0) false false false.

(** The root node, a node of the second level in its first slot, and in that
    a RAM capability, the frame that was retyped from its first page, and a
    copy of the root node. *)
Definition l1 : cte := cte0 128 ObjType_L1CNode 16384 16384.
Definition l2 : cte := cte0 16384 ObjType_L2CNode 32768 16384.
Definition ram : cte := cte0 32768 2 1048576 65536.
Definition frame : cte := cte0 32832 ObjType_Frame 1048576 4096.
Definition l1_copy : cte := cte0 33088 ObjType_L1CNode 16384 16384.

Definition k0 : kcaps :=
  KCaps (set_init_mapping [l1; l2; l1_copy; ram; frame] Nil) [] (fun _ => 0) (fun _ => false) (fun _ => false)
        (fun _ => CAPRIGHTS_ALLRIGHTS) (fun _ => (0, 0)) [] 1.

Lemma k0_elements : elements (mdb_root k0) = [l1; l1_copy; l2; ram; frame].
Proof. vm_eq. Qed.

Lemma k0_ok : kcaps_ok k0.
Proof.
  constructor; [|done|vm_decide]. unfold k0. cbn [mdb_root]. unfold set_init_mapping. cbn [fold_left].
  do 5 MdbCorrect.Sample.fresh_insert. apply MdbCorrect.Sample.nil_wf.
Qed.

Lemma k0_no_wrap : Forall no_wrap (elements (mdb_root k0)).
Proof. rewrite k0_elements. unfold no_wrap. vm_decide. Qed.

Lemma k0_laminar : Forall (fun c => Forall (laminar c) (elements (mdb_root k0))) (elements (mdb_root k0)).
Proof. rewrite k0_elements. unfold laminar. vm_decide. Qed.

Lemma k0_nested c d : c ∈ elements (mdb_root k0) -> d ∈ elements (mdb_root k0) -> laminar c d.
Proof. pose proof k0_laminar as H. rewrite Forall_forall in H. intros Hc. specialize (H c Hc). rewrite Forall_forall in H. auto. Qed.

Lemma k0_ram : slot k0 32768 = ram.
Proof. vm_eq. Qed.

Lemma k0_l2 : slot k0 16384 = l2.
Proof. vm_eq. Qed.

(** Two frames behind the existing one. *)
Lemma k0_args : retype_args ObjType_Frame 4096 2 16384 10 32768 8192 k0.
Proof.
  constructor; rewrite ?k0_ram, ?k0_l2; try (split_and!; done).
  - split_and!; [|right; by left|done..]. rewrite k0_elements. do 3 right. by left.
  - split_and!; [by right|done..].
Qed.

Definition result (m : outcome (errval * kcaps)) : kcaps := match m with Done (_, k) => k | Fault _ => k0 end.

Lemma ok_result m : (if m is Done ([], _) then true else false) = true -> m = Done (SYS_ERR_OK, result m).
Proof. by destruct m as [[[] ?]|]. Qed.

Definition k1 : kcaps := result (caps_retype 0 ObjType_Frame 4096 2 16384 10 32768 8192 false k0).

Lemma k0_retype : caps_retype 0 ObjType_Frame 4096 2 16384 10 32768 8192 false k0 = Done (SYS_ERR_OK, k1).
Proof. apply ok_result. by vm_compute. Qed.

Lemma caps_retype_correct_witness : exists e k',
  caps_retype 0 ObjType_Frame 4096 2 16384 10 32768 8192 false k0 = Done (e, k') /\ kcaps_ok k'.
Proof.
  destruct (caps_retype_correct 0 ObjType_Frame 4096 2 16384 10 32768 8192 false k0 k0_ok k0_no_wrap k0_args)
    as (e & k' & E & [[_ Ek]|(_ & _ & Hrt)]); exists e, k'; (split; [exact E|]); [rewrite Ek; exact k0_ok|].
  exact (rt_ok _ _ _ _ _ _ _ _ _ Hrt).
Defined.

(** The frame in the first slot lies behind the first of the new ones, the
    RAM covers it. *)
Lemma caps_retype_exclusive_witness :
  ram ∈ elements (mdb_root k0) /\ get_address (cte_cap ram) <= 1048576 /\
  1114112 <= get_address (cte_cap ram) + get_size (cte_cap ram).
Proof.
  assert (Hr : ram ∈ elements (mdb_root k0)) by (rewrite k0_elements; do 3 right; by left).
  split; [exact Hr|].
  destruct (caps_retype_exclusive 0 ObjType_Frame 4096 2 16384 10 32768 8192 false k0 k1 k0_ok k0_no_wrap k0_args k0_retype)
    as (_ & _ & _ & H); [rewrite k0_ram; intros d; apply k0_nested, Hr|].
  specialize (H 0 ram ltac:(lia) Hr eq_refl eq_refl). rewrite k0_ram in H. unfold new_object in H. rewrite k0_ram, k0_l2 in H.
  exact (H eq_refl eq_refl).
Defined.

Lemma caps_retype_nested_witness : ram ∈ elements (mdb_root k1) /\ laminar ram (cte0 33408 ObjType_Frame 1056768 4096).
Proof.
  assert (E : elements (mdb_root k1)
    = [l1; l1_copy; l2; ram; frame; cte0 33408 ObjType_Frame 1056768 4096; cte0 33472 ObjType_Frame 1060864 4096]) by vm_eq.
  assert (Hr : ram ∈ elements (mdb_root k1)) by (rewrite E; do 3 right; by left).
  split; [exact Hr|].
  apply (caps_retype_nested 0 ObjType_Frame 4096 2 16384 10 32768 8192 false k0 k1 k0_ok k0_no_wrap k0_args k0_retype k0_nested); [exact Hr|].
  rewrite E. do 5 right. by left.
Defined.

(** With an object size of zero, page tables are created behind the RAM,
    which ends at 0x110000. *)
Example retype_escapes :
  (if caps_retype 0 ObjType_VNode_ARM_l2 0 4 16384 10 32768 65536 false k0 is Done ([], k)
   then map (fun c => (h_address (cte_cap c), h_size (cte_cap c))) (filter (fun c => h_type (cte_cap c) = ObjType_VNode_ARM_l2) (elements (mdb_root k)))
   else []) = [(1114112, 1024); (1115136, 1024); (1116160, 1024); (1117184, 1024)].
Proof. vm_eq. Qed.

(** An object size of zero divides by zero. *)
Example retype_divides_by_zero : caps_retype 0 ObjType_Frame 0 1 16384 10 32768 8192 false k0 = Fault DivisionByZero.
Proof. vm_eq. Qed.

(** The slot number wraps around: the frame is put in front of the node,
    which starts at 0x8000. *)
Example retype_slot_wraps :
  slot_type (result (caps_retype 0 ObjType_Frame 4096 1 16384 4294967295 32768 8192 false k0)) 32704 = ObjType_Frame.
Proof. vm_eq. Qed.

(** The slot is not compared with the size of the node: the copy is put
    behind it. *)
Example copy_slot_outside : slot_type (result (caps_copy_to_cnode 16384 300 32832 false 0 0 k0)) 51968 = ObjType_Frame.
Proof. vm_eq. Qed.

(** The creation of an identifier with an object size stops the kernel. *)
Example create_id_asserts : sys_create 0 128 ObjType_ID 1 0 1 20 k0 = Fault AssertionFailed.
Proof. vm_eq. Qed.

Lemma caps_copy_correct_witness : exists k', caps_copy_to_cte 33344 32832 false 0 0 k0 = Done (SYS_ERR_OK, k') /\ kcaps_ok k'.
Proof.
  destruct (caps_copy_correct 33344 32832 k0 k0_ok eq_refl ltac:(lia)) as (e & k' & E & [(H & _)|[(_ & H & _)|(_ & _ & He & Hok & _)]]).
  - assert (F : slot_type k0 32832 = 8) by vm_eq. rewrite F in H. discriminate H.
  - destruct H. vm_eq.
  - exists k'. rewrite <- He. exact (conj E Hok).
Defined.

Lemma mint_leaves_untracked_witness : exists k',
  caps_copy_to_cte 33344 32832 true 0 0 k0 = Done (err SYS_ERR_INVALID_SOURCE_TYPE, k') /\ mdb_root k' = mdb_root k0.
Proof.
  assert (F : slot_type k0 32832 = 8) by vm_eq.
  destruct (mint_leaves_untracked 33344 32832 k0 k0_ok eq_refl 0 0) as (k' & E & _ & Hr & _); rewrite ?F; try discriminate; [vm_eq|].
  exact (ex_intro _ k' (conj E Hr)).
Defined.

Lemma caps_lookup_correct_witness : exists e a, caps_lookup_slot 128 1 2 CAPRIGHTS_READ k0 = Done (e, a) /\ resolves k0 CAPRIGHTS_READ 128 1 2 32832.
Proof.
  destruct (caps_lookup_correct k0 CAPRIGHTS_READ 128 1 2 ltac:(lia) ltac:(lia)) as (e & a & E & H).
  assert (F : caps_lookup_slot 128 1 2 CAPRIGHTS_READ k0 = Done (SYS_ERR_OK, 32832)) by vm_eq.
  exists e, a. split; [exact E|]. rewrite F in E. injection E as <- <-. apply H. reflexivity.
Defined.
End CapsSample.
