(* ===== verification/CapDeleteCorrect.v ===== *)
(** Correctness of deletion and revocation: what a delete takes out of the
    database, that memory which is given back is not covered by a
    capability any more, and that a revocation leaves no copy and no
    descendant that is not queued for deletion. *)
From S2P Require Import Prelude MdbTree Hamlet MdbInv MdbInsert MdbQuery MdbRel MdbRange MdbCorrect Caps CapDelete CapsCorrect.

(** * The database *)

Lemma reachable_elem t a : mdb_is_reachable t a = true <-> a ∈ addrs (elements t).
Proof.
  induction t as [|l IHl c lv er e r IHr]; cbn [mdb_is_reachable elements]; [rewrite elem_of_nil; intuition discriminate|].
  rewrite fmap_app, fmap_cons, elem_of_app, elem_of_cons, !orb_true_iff, IHl, IHr, Z.eqb_eq. intuition.
Qed.

(** The entries that are not in the slots [gone]. *)
Definition kept (gone : list Z) (l : list cte) : list cte := filter (fun c => cte_addr c ∉ gone) l.

Lemma kept_nil l : kept [] l = l.
Proof.
  unfold kept. induction l as [|c l IH]; [done|]. rewrite filter_cons_True by apply not_elem_of_nil. by rewrite IH.
Qed.

Lemma kept_app g h l : kept h (kept g l) = kept (g ++ h) l.
Proof. unfold kept. rewrite list_filter_filter. apply list_filter_iff. intros c. rewrite not_elem_of_app. tauto. Qed.

Lemma kept_elem g l c : c ∈ kept g l <-> c ∈ l /\ cte_addr c ∉ g.
Proof. unfold kept. rewrite list_elem_of_filter. tauto. Qed.

Lemma kept_other g l : (forall a, a ∈ g -> a ∉ addrs l) -> kept g l = l.
Proof.
  intros H. unfold kept. induction l as [|c l IH]; [done|]. rewrite filter_cons_True.
  - rewrite IH; [done|]. intros a Ha Hl. apply (H a Ha). by right.
  - intros Hc. apply (H _ Hc). by left.
Qed.

Lemma kept_one c l1 l2 : NoDup (addrs (l1 ++ c :: l2)) -> kept [cte_addr c] (l1 ++ c :: l2) = l1 ++ l2.
Proof.
  rewrite fmap_app, fmap_cons. intros (_ & Hd & Hnd)%NoDup_app. apply NoDup_cons in Hnd as [Hc _].
  assert (E : kept [cte_addr c] (l1 ++ c :: l2) = kept [cte_addr c] l1 ++ kept [cte_addr c] (c :: l2)) by apply filter_app.
  rewrite E. rewrite kept_other.
  - f_equal. unfold kept at 1. rewrite filter_cons_False by (intros H; apply H; by left). apply kept_other.
    by intros a ->%list_elem_of_singleton.
  - intros a ->%list_elem_of_singleton Ha. apply (Hd _ Ha). by left.
Qed.

(** The ancestors of an entry are always found without a failed assertion. *)
Lemma has_ancestors_total c t : mdb_wf t -> Forall no_wrap (elements t) -> c ∈ elements t -> cap_root (cte_cap c) = 1 ->
  (forall d, d ∈ elements t -> laminar c d) -> exists b, has_ancestors c t = Done b.
Proof.
  intros Hwf Hnw Hc Hr Hlam. pose proof Hwf as (_ & _ & _ & Hnn & _). rewrite Forall_forall in Hnw.
  destruct (cap_end_eq c (Hnw c Hc)) as (Hec & _ & Hsc).
  unfold has_ancestors, mdb_find_ancestor. destruct (find_range_zero t c Hwf) as ([ret x] & -> & Hx);
    [by apply Forall_forall|rewrite Hr; apply no_lower_root; exact Hnn|]. step.
 rewrite Hec.
  assert (Hb : exists r, (if negb (ret =? MDB_RANGE_NOT_FOUND)
    then ASSERT ret =? MDB_RANGE_FOUND_SURROUNDING;
         match x with
         | Some res => ASSERT beg res <=? beg c; ASSERT fin c <=? cap_end res; Done x
         | None => Fault AssertionFailed
         end
    else ASSERT match x with Some _ => false | None => true end; Done x) = Done r).
  { destruct x as [x|]; cbn [fst snd] in Hx; destruct Hx as [-> Hx]; [|by eexists].
    destruct Hx as (Hxin & Hrx & Hb & _). destruct (cap_end_eq x (Hnw x Hxin)) as (-> & _).
    destruct (Hlam x Hxin (eq_sym Hrx)) as [?|[?|[?|?]]]; try lia.
    change (1 =? MDB_RANGE_NOT_FOUND) with false. change (1 =? MDB_RANGE_FOUND_SURROUNDING) with true. cbn [negb].
    rewrite !assert_true by (zdecide; done). by eexists. }
  destruct Hb as [r Hb]. destruct (mdb_find_less (C c) false t) as [p|]; rewrite Hb; [destruct (_ && _)|]; by eexists.
Qed.

(** * One capability is deleted *)

Section Delete.
Context (me dcb_cspace dcb_disp_cte : Z).
Context (can_deliver : list (list Z) -> Z -> errval) (deliver : list (list Z) -> list Z -> errval).

(** A message to the monitor is refused only when its buffer is full. *)
Hypothesis deliver_cases : forall ms m, deliver ms m = SYS_ERR_OK \/ err_no (deliver ms m) = Some SYS_ERR_LMP_BUF_OVERFLOW.

(** The capabilities of a core: all are its own, those for memory are nested
    or disjoint, no slot is at the null address, and mappings are not shared,
    locked or being deleted. *)
Record del_ok (s : kdel) : Prop := {
  do_caps : kcaps_ok (kc s);
  do_wrap : forall c, c ∈ elements (root_of s) -> no_wrap c;
  do_nested : forall c d, c ∈ elements (root_of s) -> d ∈ elements (root_of s) -> laminar c d;
  do_addr : forall c, c ∈ elements (root_of s) -> cte_addr c <> 0;
  do_own : forall c, c ∈ elements (root_of s) -> owner_of (kc s) (cte_addr c) = me;
  do_maps : forall c, c ∈ elements (root_of s) -> type_is_mapping (h_type (cte_cap c)) = true ->
    locked (kc s) (cte_addr c) = false /\ in_delete (kc s) (cte_addr c) = false /\ remote_copies c = false
    /\ 0 <= h_eq0 (cte_cap c) < 2 ^ 32
}.

(** The slots [gone] were emptied, and nothing else changed but what was
    unmapped and sent. *)
Record shrunk (gone : list Z) (s s' : kdel) : Prop := {
  sh_caps : kcaps_ok (kc s');
  sh_elements : elements (root_of s') = kept gone (elements (root_of s));
  sh_gone : forall a, a ∈ gone -> a ∈ addrs (elements (root_of s));
  sh_frame : forall a, a ∉ gone -> owner_of (kc s') a = owner_of (kc s) a /\ locked (kc s') a = locked (kc s) a
    /\ in_delete (kc s') a = in_delete (kc s) a /\ rights_of (kc s') a = rights_of (kc s) a /\ next_of s' a = next_of s a;
  sh_zero : forall a, a ∈ gone -> in_delete (kc s') a = false /\ locked (kc s') a = false /\ next_of s' a = 0;
  sh_lists : delete_head s' = delete_head s /\ delete_tail s' = delete_tail s /\ clear_head s' = clear_head s /\ clear_tail s' = clear_tail s;
  sh_maps : map_of s' = map_of s /\ monitor_type s' = monitor_type s /\ monitor_listener s' = monitor_listener s
}.

Lemma shrunk_refl s : kcaps_ok (kc s) -> shrunk [] s s.
Proof.
  intros Hok. constructor; try done; [by rewrite kept_nil|by intros a ?%elem_of_nil..].
Qed.

Lemma shrunk_trans g h s1 s2 s3 : shrunk g s1 s2 -> shrunk h s2 s3 -> shrunk (g ++ h) s1 s3.
Proof.
  intros [A1 A2 A3 A4 A5 (A6 & A7 & A8 & A9) (A10 & A11 & A12)] [B1 B2 B3 B4 B5 (B6 & B7 & B8 & B9) (B10 & B11 & B12)]. constructor.
  - done.
  - by rewrite B2, A2, kept_app.
  - intros a [Ha|Ha]%elem_of_app; [auto|]. specialize (B3 a Ha). rewrite A2 in B3.
    apply list_elem_of_fmap in B3 as (c & -> & [Hc _]%kept_elem). by apply list_elem_of_fmap_2.
  - intros a [Hg Hh]%not_elem_of_app. destruct (A4 a Hg) as (? & ? & ? & ? & ?), (B4 a Hh) as (? & ? & ? & ? & ?).
    split_and!; congruence.
  - intros a Ha. destruct (decide (a ∈ h)) as [Hh|Hh]; [auto|]. apply elem_of_app in Ha as [Hg|?]; [|done].
    destruct (B4 a Hh) as (_ & -> & -> & _ & ->). by destruct (A5 a Hg).
  - split_and!; congruence.
  - split_and!; congruence.
Qed.

Lemma shrunk_elem g s s' c : shrunk g s s' -> c ∈ elements (root_of s') <-> c ∈ elements (root_of s) /\ cte_addr c ∉ g.
Proof. intros H. by rewrite (sh_elements _ _ _ H), kept_elem. Qed.

Lemma shrunk_ok g s s' : del_ok s -> shrunk g s s' -> del_ok s'.
Proof.
  intros [_ H1 H2 Ha H3 H4] Hs. assert (Hsub : forall c, c ∈ elements (root_of s') -> c ∈ elements (root_of s) /\ cte_addr c ∉ g)
    by (intros c; by rewrite (shrunk_elem g s s' c Hs)).
  constructor; [apply Hs|..].
  - intros c [Hc _]%Hsub. auto.
  - intros c d [Hc _]%Hsub [Hd _]%Hsub. auto.
  - intros c [Hc _]%Hsub. auto.
  - intros c [Hc Hg]%Hsub. destruct (sh_frame _ _ _ Hs _ Hg) as (-> & _). auto.
  - intros c [Hc Hg]%Hsub Ht. destruct (sh_frame _ _ _ Hs _ Hg) as (_ & -> & -> & _). auto.
Qed.
Lemma at_slot_elem s c : kcaps_ok (kc s) -> c ∈ elements (root_of s) -> at_slot s (cte_addr c) = c.
Proof.
  intros Hok Hc. apply slot_used; [by apply kcaps_slots|]. unfold used. apply elem_of_app. by left.
Qed.

Lemma type_at_elem s c : kcaps_ok (kc s) -> c ∈ elements (root_of s) -> type_at s (cte_addr c) = h_type (cte_cap c).
Proof. intros Hok Hc. unfold type_at, slot_type. change (slot (kc s) (cte_addr c)) with (at_slot s (cte_addr c)). by rewrite at_slot_elem. Qed.

Lemma type_at_gone g s s' a : shrunk g s s' -> a ∈ g -> type_at s' a = ObjType_Null.
Proof.
  intros Hs Ha. apply Z.eqb_eq, slot_type_null; [apply kcaps_slots, Hs|]. unfold used.
  rewrite (ko_loose _ (sh_caps _ _ _ Hs)), app_nil_r. fold (root_of s'). rewrite (sh_elements _ _ _ Hs).
  intros (c & -> & [_ Hc]%kept_elem)%list_elem_of_fmap. done.
Qed.

(** Taking an entry out of the database and clearing its slot. *)
Lemma remove_entry s c : kcaps_ok (kc s) -> c ∈ elements (root_of s) ->
  exists t, mdb_remove c (root_of s) = Done (t, SYS_ERR_OK) /\ mdb_is_reachable t (cte_addr c) = false /\
    shrunk [cte_addr c] s (wipe (cte_addr c) (with_kc (set_root t (kc s)) s)).
Proof.
  intros Hok Hc. destruct (remove_wf c (root_of s) (ko_wf _ Hok) Hc) as (t & l1 & l2 & E & Hwf & E1 & E2).
  exists t. split; [done|]. pose proof (ko_wf _ Hok) as (_ & _ & _ & _ & Hnd). fold (root_of s) in Hnd.
  assert (Ek : elements t = kept [cte_addr c] (elements (root_of s))) by (rewrite E2, E1; symmetry; apply kept_one; by rewrite <- E1).
  split.
  { apply not_true_iff_false. rewrite reachable_elem, Ek. intros (d & Ha & [_ Hd]%kept_elem)%list_elem_of_fmap.
    apply Hd. rewrite <- Ha. by left. }
  constructor.
  - constructor; [done|by unfold wipe; cbn; rewrite (ko_loose _ Hok)|]. change (Forall (fun c => 0 <= cte_addr c < 2 ^ 32) (elements t)).
    rewrite Ek. apply Forall_forall. intros d [Hd _]%kept_elem. pose proof (ko_mem _ Hok) as H. rewrite Forall_forall in H. by apply H.
  - exact Ek.
  - intros a ->%list_elem_of_singleton. by apply list_elem_of_fmap_2.
  - intros a Ha. assert (a <> cte_addr c) by (intros ->; apply Ha; by left). cbn. by rewrite !fn_lookup_insert_ne by done.
  - intros a ->%list_elem_of_singleton. cbn. by rewrite !fn_lookup_insert.
  - done.
  - done.
Qed.

(** ** The clean-up of a slot *)

(** Types whose capabilities can have mappings. *)
Abbreviation mappable ty := (type_is_vnode ty || (ty =? ObjType_Frame) || (ty =? ObjType_DevFrame)).

Section Cleanup.
Context (unmap : Z -> kdel -> outcome kdel).

(** [unmap] takes out the slots [maps] of other entries and sends nothing. *)
Definition unmaps (c : cte) (maps : list Z) (s s1 : kdel) : Prop :=
  (cte_addr c ∉ maps) /\ shrunk maps s s1 /\ messages s1 = messages s /\
  (if mappable (h_type (cte_cap c)) then unmap (cte_addr c) s = Done s1 else s1 = s).

Lemma cleanup_copy_ok s c maps s1 : del_ok s -> c ∈ elements (root_of s) -> unmaps c maps s s1 ->
  exists s', cleanup_copy_with me unmap (cte_addr c) s = Done (SYS_ERR_OK, s') /\ shrunk (maps ++ [cte_addr c]) s s'
    /\ messages s' = messages s.
Proof.
  intros Hok Hc (Hm & Hs1 & Hmsg & Hun). pose proof (shrunk_ok _ _ _ Hok Hs1) as Hok1.
  assert (Hc1 : c ∈ elements (root_of s1)) by (apply (shrunk_elem maps s s1 c Hs1); done).
  unfold cleanup_copy_with. rewrite (type_at_elem s c (do_caps _ Hok) Hc).
  assert (E : (if mappable (h_type (cte_cap c)) then unmap (cte_addr c) s else Done s) = Done s1)
    by (destruct (mappable _); [done|by rewrite Hun]).
  rewrite E. cbn [mbind outcome_bind]. unfold distcap_is_foreign. rewrite (do_own _ Hok1 c Hc1), Z.eqb_refl. cbn [negb andb mbind outcome_bind].
  rewrite (at_slot_elem s1 c (do_caps _ Hok1) Hc1).
  destruct (remove_entry s1 c (do_caps _ Hok1) Hc1) as (t & -> & Hr & Hs2). cbn [mbind outcome_bind err_is_fail SYS_ERR_OK].
  rewrite Hr. cbn [negb assert mbind outcome_bind]. eexists. split; [done|]. split; [|done].
  by eapply shrunk_trans.
Qed.

Lemma freed_ram_done s c : del_ok s -> c ∈ elements (root_of s) -> cap_root (cte_cap c) = 1 ->
  exists r, freed_ram c s = Done r.
Proof.
  intros Hok Hc Hr. unfold freed_ram. case_match; [by eexists|].
  destruct (has_ancestors_total c (root_of s)) as [b ->]; [apply Hok|apply Forall_forall, Hok|done|done|intros; by apply Hok|].
  cbn [mbind outcome_bind]. destruct b; by eexists.
Qed.

(** Memory becomes free with [c]. *)
Definition frees (c : cte) (s : kdel) : Prop := exists b n, freed_ram c s = Done (b, n) /\ 0 < n.

(** The memory that became free is the only thing that is sent. *)
Definition sent (c : cte) (s s' : kdel) : Prop :=
  messages s' = messages s \/
  exists b n, freed_ram c s = Done (b, n) /\ 0 < n /\ messages s' = messages s ++ [[b; n]].

Lemma cleanup_last_ok s c maps s1 : del_ok s -> c ∈ elements (root_of s) -> cap_root (cte_cap c) = 1 ->
  has_copies c (root_of s) = false -> unmaps c maps s s1 ->
  exists e s', cleanup_last_with me can_deliver deliver unmap (cte_addr c) None s = Done (e, false, s') /\
    ((e = err SYS_ERR_RETRY_THROUGH_MONITOR /\ s' = s /\ frees c s) \/
     (e = SYS_ERR_OK /\ shrunk (maps ++ [cte_addr c]) s s' /\ sent c s s')).
Proof.
  intros Hok Hc Hr Hcp Hun. destruct (cleanup_copy_ok s c maps s1 Hok Hc Hun) as (s' & Ecl & Hsh & Hmsg).
  destruct (freed_ram_done s c Hok Hc Hr) as [[b n] Efr].
  unfold cleanup_last_with. rewrite (at_slot_elem s c (do_caps _ Hok) Hc), Hcp. cbn [negb assert mbind outcome_bind].
  rewrite Efr. cbn [mbind outcome_bind].
  destruct (_ && _ && _ && _) eqn:Eretry.
  { eexists _, s. split; [done|]. left. split_and!; [done..|]. exists b, n. split; [done|]. apply Z.ltb_lt. revert Eretry. by destruct (0 <? n). }
  clear Eretry. rewrite Ecl. cbn [mbind outcome_bind err_is_fail SYS_ERR_OK].
  destruct (Z.ltb_spec 0 n) as [Hn|]; cbn [negb]; [|eexists _, s'; split; [done|]; right; split_and!; [done..|by left]].
  destruct (_ && _); [|eexists _, s'; split; [done|]; right; split_and!; [done..|by left]].
  destruct (deliver_cases (messages s') [b; n]) as [Ed|Ed].
  - rewrite Ed. cbn [err_is_ok err_is_fail SYS_ERR_OK negb]. eexists _, _. split; [done|]. right. split_and!; [done| |].
    + destruct Hsh. by constructor.
    + right. exists b, n. rewrite <- Hmsg. done.
  - destruct (deliver (messages s') [b; n]) as [|x l]; [done|]. injection Ed as ->. eexists _, s'. split; [done|]. right. split_and!; [done..|by left].
Qed.

(** What [caps_try_delete] answers for a slot that is not busy. *)
Lemma try_delete_ok s c maps s1 : del_ok s -> c ∈ elements (root_of s) -> cap_root (cte_cap c) = 1 ->
  locked (kc s) (cte_addr c) = false -> in_delete (kc s) (cte_addr c) = false -> unmaps c maps s s1 ->
  exists e s', caps_try_delete_with me can_deliver deliver unmap (cte_addr c) s = Done (e, s') /\
    ((e = SYS_ERR_OK /\ shrunk (maps ++ [cte_addr c]) s s' /\
      if has_copies c (root_of s) then messages s' = messages s else sent c s s') \/
     (e = err SYS_ERR_DELETE_LAST_OWNED /\ s' = s /\ has_copies c (root_of s) = false
      /\ remote_copies c || holds_slots (h_type (cte_cap c)) = true) \/
     (e = err SYS_ERR_RETRY_THROUGH_MONITOR /\ s' = s /\ has_copies c (root_of s) = false /\ frees c s)).
Proof.
  intros Hok Hc Hr Hl Hd Hun. unfold caps_try_delete_with. rewrite Hl, Hd. cbn [orb].
  unfold distcap_is_foreign. rewrite (do_own _ Hok c Hc), Z.eqb_refl. cbn [negb orb].
  rewrite (at_slot_elem s c (do_caps _ Hok) Hc). destruct (has_copies c (root_of s)) eqn:Ecp.
  - destruct (cleanup_copy_ok s c maps s1 Hok Hc Hun) as (s' & E & Hsh & Hmsg). eexists _, s'. split; [exact E|]. by left.
  - destruct (remote_copies c || _) eqn:Eh; [eexists _, s; split; [done|]; right; left; done|].
    destruct (cleanup_last_ok s c maps s1 Hok Hc Hr Ecp Hun) as (e & s' & -> & Hcase). cbn [mbind outcome_bind].
    eexists _, s'. split; [done|]. destruct Hcase as [(-> & -> & ?)|(-> & ? & ?)]; [by right; right|by left].
Qed.
End Cleanup.

(** ** Mappings *)

Lemma mapping_type ty : type_is_mapping ty = true ->
  mappable ty = false /\ holds_slots ty = false /\ h_type_root ty = 1 /\ (ty =? 2) = false.
Proof.
  intros H. unfold type_is_mapping in H. rewrite !orb_true_iff, !andb_true_iff, !Z.eqb_eq, !Z.leb_le in H.
  destruct H as [[-> | ->]|[[? ?] He]]; [done..|].
  assert (Hv : type_is_vnode ty = false) by (unfold type_is_vnode; rewrite <- Z.negb_even, He; apply andb_false_r).
  unfold holds_slots, h_type_root, ObjType_Frame, ObjType_DevFrame, ObjType_L1CNode, ObjType_L2CNode, ObjType_Dispatcher. rewrite Hv.
  assert (ty <> 2 /\ ty <> 8 /\ ty <> 10 /\ ty <> 3 /\ ty <> 4 /\ ty <> 6 /\ ty <> 0 /\ ty <> 5 /\ ty < 39) by lia.
  destruct (Z.eq_dec ty 12) as [->|]; [lia|]. zdecide. done.
Qed.

Lemma mapping_frees_nothing c s : type_is_mapping (h_type (cte_cap c)) = true -> ~ frees c s.
Proof.
  intros (Hm & Hh & _ & H2)%mapping_type (b & n & E & Hn). unfold freed_ram in E. destruct (has_descendants _ _); [injection E as <- <-; lia|].
  destruct (has_ancestors _ _) as [[]|]; [injection E as <- <-; lia| |done]. cbn [mbind outcome_bind] in E.
  rewrite !orb_false_iff in Hm. destruct Hm as [[Hv Hf] _]. unfold holds_slots in Hh. rewrite !orb_false_iff in Hh. destruct Hh as [[H3 H4] H6].
  rewrite H2, Hf, H3, H4, H6, Hv in E. cbn in E. injection E as <- <-. lia.
Qed.

(** The slots of mappings in the database. *)
Definition mapping_slots (l : list Z) (s : kdel) : Prop :=
  NoDup l /\ forall a, a ∈ l -> exists c, c ∈ elements (root_of s) /\ cte_addr c = a /\ type_is_mapping (h_type (cte_cap c)) = true.

Lemma delete_mapping_ok s c : del_ok s -> c ∈ elements (root_of s) -> type_is_mapping (h_type (cte_cap c)) = true ->
  exists s', caps_delete_with me can_deliver deliver (fun _ s => Done s) (cte_addr c) s = Done (SYS_ERR_OK, s') /\
    shrunk [cte_addr c] s s' /\ messages s' = messages s.
Proof.
  intros Hok Hc Ht. destruct (mapping_type _ Ht) as (Hm & Hh & Hr & _). destruct (do_maps _ Hok c Hc Ht) as (Hl & Hd & Hrc & _).
  unfold caps_delete_with. rewrite Hl.
  destruct (try_delete_ok (fun _ s => Done s) s c [] s Hok Hc Hr Hl Hd) as (e & s' & -> & Hcase).
  { split_and!; [apply not_elem_of_nil|by apply shrunk_refl, Hok|done|by rewrite Hm]. }
  cbn [mbind outcome_bind]. destruct Hcase as [(-> & Hsh & Hmsg)|[(_ & _ & _ & Hx)|(_ & _ & _ & Hx)]].
  - exists s'. split; [done|]. split; [done|]. destruct (has_copies _ _); [done|]. destruct Hmsg as [|(b & n & Hf & Hn & _)]; [done|].
    exfalso. apply (mapping_frees_nothing c s Ht). by exists b, n.
  - rewrite Hrc, Hh in Hx. done.
  - by destruct (mapping_frees_nothing c s Ht).
Qed.

Lemma delete_mappings_ok l : forall s, del_ok s -> mapping_slots l s ->
  exists s', delete_mappings me can_deliver deliver l s = Done s' /\ shrunk l s s' /\ messages s' = messages s.
Proof.
  induction l as [|a l IH]; intros s Hok [Hnd Hin]; cbn [delete_mappings].
  { exists s. split; [done|]. split; [by apply shrunk_refl, Hok|done]. }
  apply NoDup_cons in Hnd as [Ha Hnd]. destruct (Hin a) as (c & Hc & <- & Ht); [by left|].
  destruct (delete_mapping_ok s c Hok Hc Ht) as (s1 & -> & Hs1 & Hm1). cbn [mbind outcome_bind].
  destruct (IH s1) as (s' & -> & Hs' & Hm').
  - by eapply shrunk_ok.
  - split; [done|]. intros b Hb. destruct (Hin b) as (d & Hd & <- & Htd); [by right|]. exists d. split; [|done].
    apply (shrunk_elem _ _ _ _ Hs1). split; [done|]. intros E%list_elem_of_singleton. congruence.
  - exists s'. split; [done|]. split; [|congruence]. by apply (shrunk_trans [cte_addr c] l _ s1).
Qed.

Lemma find_cap_total s a : del_ok s -> 0 <= a < 2 ^ 32 ->
  exists e x, mdb_find_cap_for_address a (root_of s) = Done (e, x) /\ (err_is_fail e = false -> is_Some x).
Proof.
  intros Hok Ha. unfold mdb_find_cap_for_address.
  destruct (mdb_find_range_correct (get_type_root ObjType_RAM) a 1 MDB_RANGE_FOUND_SURROUNDING true (root_of s))
    as ([r x] & -> & Hf & _); [apply Hok|done|by left|lia..|apply Forall_forall, Hok|apply no_lower_root, Hok|].
  cbn [mbind outcome_bind err_is_fail SYS_ERR_OK fst snd] in *. destruct (Z.eqb_spec r MDB_RANGE_FOUND_SURROUNDING) as [->|]; cbn [negb].
  - eexists _, _. split; [done|]. intros _. destruct x; [done|]. discriminate Hf.
  - eexists _, _. split; [done|]. done.
Qed.

(** Mappings are not on one of the lists. *)
Definition maps_unlinked (s : kdel) : Prop :=
  forall c, c ∈ elements (root_of s) -> type_is_mapping (h_type (cte_cap c)) = true -> next_of s (cte_addr c) = 0.

(** Only the links of the slots [l] and what was unmapped changed. *)
Record linked (l : list Z) (s s' : kdel) : Prop := {
  lk_kc : kc s' = kc s;
  lk_next : forall a, a ∉ l -> next_of s' a = next_of s a;
  lk_rest : map_of s' = map_of s /\ messages s' = messages s /\ monitor_type s' = monitor_type s /\ monitor_listener s' = monitor_listener s
    /\ delete_head s' = delete_head s /\ delete_tail s' = delete_tail s /\ clear_head s' = clear_head s /\ clear_tail s' = clear_tail s
}.

(** [c] is a mapping of the slot [mem]. *)
Definition mapping_of (mem mtype : Z) (s : kdel) (c : cte) : Prop := h_type (cte_cap c) = mtype /\ map_of s (cte_addr c) = mem.

(** In the order of the database, what lies between two entries with the same
    root and address has that address. *)
Lemma between_same l1 x l2 n l3 c : StronglySorted cte_lt (l1 ++ x :: l2 ++ n :: l3) -> c ∈ l3 ->
  cap_root (cte_cap x) = cap_root (cte_cap c) -> beg x = beg c ->
  cap_root (cte_cap n) = cap_root (cte_cap c) /\ beg n = beg c.
Proof.
  intros Hs Hc Hr Hb. apply StronglySorted_app_1_r in Hs. inversion_clear Hs as [|? ? Hs' Hx].
  apply StronglySorted_app_1_r in Hs'. inversion_clear Hs' as [|? ? _ Hn].
  rewrite Forall_forall in Hx, Hn. assert (Hxn : cte_lt x n) by (apply Hx; apply elem_of_app; right; by left).
  specialize (Hn c Hc). apply compare_key in Hxn, Hn. cbn [snd C] in Hxn, Hn. lia.
Qed.

Lemma linked_refl s : linked [] s s.
Proof. by constructor. Qed.

Lemma linked_trans l m s1 s2 s3 : linked l s1 s2 -> linked m s2 s3 -> linked (m ++ l) s1 s3.
Proof.
  intros [A1 A2 A3] [B1 B2 B3]. constructor; [congruence| |destruct_and!; split_and!; congruence].
  intros a [Hm Hl]%not_elem_of_app. by rewrite B2, A2.
Qed.

Lemma del_ok_kc s s' : kc s' = kc s -> del_ok s -> del_ok s'.
Proof. intros E [H1 H2 H3 H4 H5 H6]. unfold root_of in *. constructor; unfold root_of; rewrite ?E; done. Qed.

(** The page table entries of one mapping are cleared. *)
Lemma clear_ptes s n : del_ok s -> n ∈ elements (root_of s) -> type_is_mapping (h_type (cte_cap n)) = true ->
  exists s1, (if h_eq0 (cte_cap n) =? 0 then Done s else
     '(e, pt) ← mdb_find_cap_for_address (h_eq0 (cte_cap n)) (root_of s);
     if err_is_fail e then Done s
     else match pt with Some _ => Done (with_unmapped (cte_addr n) s) | None => Fault NullDereference end) = Done s1
    /\ linked [] s s1.
Proof.
  intros Hok Hn Ht. destruct (h_eq0 (cte_cap n) =? 0); [exists s; split; [done|apply linked_refl]|].
  destruct (do_maps _ Hok n Hn Ht) as (_ & _ & _ & Hp). destruct (find_cap_total s (h_eq0 (cte_cap n)) Hok Hp) as (e & x & -> & Hx).
  cbn [mbind outcome_bind]. destruct (err_is_fail e); [exists s; split; [done|apply linked_refl]|].
  destruct (Hx eq_refl) as [y ->]. eexists. split; [done|]. by constructor.
Qed.

Lemma collect_ok mem faddr mtype : type_is_mapping mtype = true ->
  forall fuel l1 next l2 acc s, del_ok s -> elements (root_of s) = l1 ++ next :: l2 -> (length l2 < fuel)%nat ->
  (forall c, c ∈ l2 -> type_is_mapping (h_type (cte_cap c)) = true -> next_of s (cte_addr c) = 0) ->
  exists l s', collect_mappings fuel mem faddr mtype next acc s = Done (l ++ acc, s') /\ linked l s s' /\ NoDup l /\
    (forall a, a ∈ l -> exists c, c ∈ l2 /\ cte_addr c = a /\ mapping_of mem mtype s c) /\
    (forall c, c ∈ l2 -> mapping_of mem mtype s c -> cap_root (cte_cap next) = cap_root (cte_cap c) -> beg next = faddr -> beg c = faddr ->
       cte_addr c ∈ l).
Proof.
  intros Hmt. induction fuel as [|fuel IH]; intros l1 next l2 acc s Hok El Hf Hun; [lia|]. cbn [collect_mappings].
  pose proof (ko_wf _ (do_caps _ Hok)) as Hwf. pose proof Hwf as (_ & _ & Hsort & _ & Hnd). fold (root_of s) in Hwf, Hsort, Hnd.
  rewrite (successor_head _ l1 next l2 Hwf El). destruct l2 as [|n l2]; cbn [head].
  { exists [], s. split_and!; [done|apply linked_refl|constructor|by intros a ?%elem_of_nil|by intros c ?%elem_of_nil]. }
  assert (Hn : n ∈ elements (root_of s)) by (rewrite El; set_solver).
  assert (Hbetw : forall c, c ∈ l2 -> cap_root (cte_cap next) = cap_root (cte_cap c) -> beg next = beg c ->
    cap_root (cte_cap n) = cap_root (cte_cap c) /\ beg n = beg c).
  { intros c Hc. apply (between_same l1 next [] n l2); [by rewrite El in Hsort|done]. }
  assert (El' : forall s1, kc s1 = kc s -> elements (root_of s1) = (l1 ++ [next]) ++ n :: l2)
    by (intros s1 E; unfold root_of in *; rewrite E, El, <- app_assoc; done).
  destruct (Z.eqb_spec (h_get_address (cte_cap n)) faddr) as [Ea|Ea]; cbn [negb].
  2: { exists [], s. split_and!; [done|apply linked_refl|constructor|by intros a ?%elem_of_nil|].
       intros c [->|Hc]%elem_of_cons _ Hr Hb Hcb; [done|]. destruct (Hbetw c Hc Hr ltac:(congruence)) as [_ E]. cbn in *. congruence. }
  assert (Hlater : forall (c : cte) (l : list Z) (s' : kdel), (forall c, c ∈ l2 -> mapping_of mem mtype s' c -> cap_root (cte_cap n) = cap_root (cte_cap c) ->
      beg n = faddr -> beg c = faddr -> cte_addr c ∈ l) -> map_of s' = map_of s -> c ∈ l2 -> mapping_of mem mtype s c ->
      cap_root (cte_cap next) = cap_root (cte_cap c) -> beg next = faddr -> beg c = faddr -> cte_addr c ∈ l).
  { intros c l s' H Em Hc Hmo Hr Hb Hcb. destruct (Hbetw c Hc Hr ltac:(congruence)) as [Hrn _]. apply H; try done.
    unfold mapping_of in *. by rewrite Em. }
  destruct ((h_type (cte_cap n) =? mtype) && (map_of s (cte_addr n) =? mem)) eqn:Emap.
  2: { destruct (IH (l1 ++ [next]) n l2 acc s) as (l & s' & -> & Hlk & Hndl & Hin & Hall); [done|by apply El'|cbn in Hf; lia|intros; apply Hun; [by right|done]|].
       exists l, s'. split_and!; [done..| |].
       - intros a Ha. destruct (Hin a Ha) as (c & ? & ?). exists c. split; [by right|done].
       - intros c [->|Hc]%elem_of_cons Hmo Hr Hb Hcb; [|by eapply Hlater]. destruct Hmo as [H1 H2]. revert Emap. rewrite H1, H2, !Z.eqb_refl. done. }
  apply andb_true_iff in Emap as [Et%Z.eqb_eq Em%Z.eqb_eq]. assert (Htn : type_is_mapping (h_type (cte_cap n)) = true) by congruence.
  destruct (clear_ptes s n Hok Hn Htn) as (s1 & -> & [Ek1 En1 Er1]). cbn [mbind outcome_bind].
  rewrite (En1 _ (not_elem_of_nil _)), (Hun n ltac:(by left) Htn). cbn [Z.eqb assert mbind outcome_bind].
  set (s2 := with_next (cte_addr n) _ s1). assert (Ek2 : kc s2 = kc s) by exact Ek1.
  assert (Hlk2 : linked [cte_addr n] s s2).
  { constructor; [done| |exact Er1]. intros a Ha. cbn. rewrite fn_lookup_insert_ne by (intros E; apply Ha; rewrite <- E; by left). apply En1, not_elem_of_nil. }
  rewrite El, fmap_app, !fmap_cons in Hnd. apply NoDup_app in Hnd as (_ & _ & Hnd). apply NoDup_cons in Hnd as [_ Hnd]. apply NoDup_cons in Hnd as [Hnn _].
  destruct (IH (l1 ++ [next]) n l2 (cte_addr n :: acc) s2) as (l & s' & -> & Hlk & Hndl & Hin & Hall);
    [by eapply del_ok_kc|by apply El'|cbn in Hf; lia| |].
  { intros c Hc Ht. rewrite (lk_next _ _ _ Hlk2); [apply Hun; [by right|done]|]. intros E%list_elem_of_singleton. apply Hnn. rewrite <- E.
    by apply list_elem_of_fmap_2. }
  exists (l ++ [cte_addr n]), s'. split_and!.
  - by rewrite <- app_assoc.
  - by apply (linked_trans [cte_addr n] l s s2).
  - apply NoDup_app. split_and!; [done| |apply NoDup_singleton]. intros a Ha ->%list_elem_of_singleton.
    destruct (Hin _ Ha) as (c & Hc & E & _). apply Hnn. rewrite <- E. by apply list_elem_of_fmap_2.
  - intros a [Ha| ->%list_elem_of_singleton]%elem_of_app.
    + destruct (Hin a Ha) as (c & Hc & <- & Hmo). exists c. split_and!; [by right|done|]. destruct Hlk2 as [_ _ (E & _)].
      unfold mapping_of in *. by rewrite <- E.
    + exists n. by split_and!; [left| |].
  - intros c [->|Hc]%elem_of_cons Hmo Hr Hb Hcb; apply elem_of_app; [right; by left|left].
    eapply (Hlater c l s2); try done. apply (lk_rest _ _ _ Hlk2).
Qed.

(** The type of the mappings of a mappable type. *)
Lemma get_mapping_type_is ty : mappable ty = true -> get_mapping_type ty = ty + 1 /\ type_is_mapping (ty + 1) = true.
Proof.
  intros H. unfold get_mapping_type, type_is_mappable. rewrite !orb_true_iff in H.
  destruct H as [[Hv|Hf%Z.eqb_eq]|Hd%Z.eqb_eq]; [|by rewrite Hf|by rewrite Hd].
  rewrite Hv, orb_true_r. split; [done|]. unfold type_is_vnode in Hv. rewrite !andb_true_iff, !Z.leb_le in Hv. destruct Hv as [[? ?] Ho].
  unfold type_is_mapping. rewrite Z.add_1_r, Z.even_succ, Ho. zdecide. apply orb_true_r.
Qed.

(** The mappings of [c] that are deleted with it. *)
Definition maps_of (s : kdel) (c d : cte) : Prop :=
  d ∈ elements (root_of s) /\ type_is_mapping (h_type (cte_cap d)) = true /\
  h_type (cte_cap d) = h_type (cte_cap c) + 1 /\ map_of s (cte_addr d) = cte_addr c.

Lemma unmap_ok s c : del_ok s -> maps_unlinked s -> c ∈ elements (root_of s) ->
  exists maps s1, unmaps (unmap_capability me can_deliver deliver) c maps s s1 /\
    (forall a, a ∈ maps -> exists d, maps_of s c d /\ cte_addr d = a) /\
    (mappable (h_type (cte_cap c)) = true -> forall d, maps_of s c d -> cap_root (cte_cap d) = cap_root (cte_cap c) ->
       beg d = beg c -> get_size (cte_cap d) < get_size (cte_cap c) -> cte_addr d ∈ maps).
Proof.
  intros Hok Hun Hc. unfold unmaps. destruct (mappable (h_type (cte_cap c))) eqn:Em.
  2: { exists [], s. split_and!; [apply not_elem_of_nil|by apply shrunk_refl, Hok|done..| |done]. by intros a ?%elem_of_nil. }
  destruct (get_mapping_type_is _ Em) as [Egm Htm]. apply list_elem_of_split in Hc as Hsp. destruct Hsp as (l1 & l2 & El).
  pose proof (ko_wf _ (do_caps _ Hok)) as (_ & _ & Hsort & _ & Hnd). fold (root_of s) in Hsort, Hnd. rewrite El in Hsort, Hnd.
  rewrite fmap_app, fmap_cons in Hnd. apply NoDup_app in Hnd as (_ & _ & Hnd). apply NoDup_cons in Hnd as [Hcl2 _].
  assert (Hl2 : forall d, d ∈ l2 -> d ∈ elements (root_of s)) by (intros d Hd; rewrite El; apply elem_of_app; right; by right).
  destruct (collect_ok (cte_addr c) (beg c) (h_type (cte_cap c) + 1) Htm (fuel_of s) l1 c l2 [] s) as (l & s1 & Ecol & Hlk & Hndl & Hin & Hall);
    [done|done|unfold fuel_of; rewrite El, length_app; cbn; lia|intros d Hd; by apply Hun, Hl2|].
  assert (Hok1 : del_ok s1) by (by eapply del_ok_kc; [apply Hlk|]).
  assert (Ek : kc s1 = kc s) by apply Hlk. assert (Er : root_of s1 = root_of s) by (unfold root_of; by rewrite Ek).
  destruct (delete_mappings_ok l s1 Hok1) as (s2 & Edel & Hsh & Hmsg).
  { split; [done|]. intros a Ha. destruct (Hin a Ha) as (d & Hd & Hda & Hmo & _). exists d. rewrite Er. split_and!; [auto|done|]. by rewrite Hmo. }
  exists l, s2. split_and!.
  - intros Ha. destruct (Hin _ Ha) as (d & Hd & E & _). apply Hcl2. rewrite <- E. by apply list_elem_of_fmap_2.
  - destruct Hsh as [S1 S2 S3 S4 S5 S6 S7], Hlk as [_ L2 L3]. constructor; try done.
    + by rewrite <- Er.
    + intros a Ha. rewrite <- Er. auto.
    + intros a Ha. destruct (S4 a Ha) as (? & ? & ? & ? & ?). rewrite Ek in *. rewrite (L2 a Ha) in *. done.
    + destruct_and!. split_and!; congruence.
    + destruct_and!. split_and!; congruence.
  - rewrite Hmsg. apply (lk_rest _ _ _ Hlk).
  - unfold unmap_capability. rewrite (at_slot_elem s c (do_caps _ Hok) Hc), Egm. change (h_get_address (cte_cap c)) with (beg c).
    rewrite Ecol. cbn [mbind outcome_bind]. rewrite app_nil_r. exact Edel.
  - intros a Ha. destruct (Hin a Ha) as (d & Hd & <- & Ht & Hm). exists d. split; [|done]. split_and!; [by apply Hl2|by rewrite Ht|done..].
  - intros _ d (Hd & _ & Ht & Hm) Hr Hb Hz. apply Hall; [|done|done|done|done].
    rewrite El in Hd. apply elem_of_app in Hd as [Hd|[->|Hd]%elem_of_cons]; [|lia|done].
    assert (Hlt : cte_lt d c) by (apply (StronglySorted_app_1_elem_of cte_lt _ _ _ _ Hsort Hd); by left).
    apply compare_key in Hlt. cbn [snd C] in Hlt. lia.
Qed.

(** ** Memory that is given back *)

(** The last capability for its memory: nothing else shares a byte with it. *)
Lemma last_covers s c b n : del_ok s -> c ∈ elements (root_of s) -> cap_root (cte_cap c) = 1 -> has_copies c (root_of s) = false ->
  (type_is_vnode (h_type (cte_cap c)) = true -> get_size (cte_cap c) = vnode_objsize (h_type (cte_cap c))) ->
  holds_slots (h_type (cte_cap c)) = false -> freed_ram c s = Done (b, n) -> 0 < n ->
  b = beg c /\ n = get_size (cte_cap c) /\
  forall d, d ∈ elements (root_of s) -> cte_addr d <> cte_addr c -> cap_root (cte_cap d) = 1 -> fin d <= beg c \/ fin c <= beg d.
Proof.
  intros Hok Hc Hr Hcp Hv Hh Hfr Hn. unfold freed_ram in Hfr. destruct (has_descendants c (root_of s)) eqn:Ed; [injection Hfr as <- <-; lia|].
  destruct (has_ancestors c (root_of s)) as [an|] eqn:Ean; [|done]. cbn [mbind outcome_bind] in Hfr.
  destruct an; [injection Hfr as <- <-; lia|]. unfold holds_slots in Hh. rewrite !orb_false_iff in Hh. destruct Hh as [[H3 H4] H6].
  rewrite H3, H4, H6, !orb_false_r in Hfr.
  assert (Hbn : b = beg c /\ n = get_size (cte_cap c)).
  { destruct (_ || _) in Hfr; [injection Hfr as <- <-; done|]. destruct (type_is_vnode _); injection Hfr as <- <-; [|lia]. split; [done|]. symmetry. auto. }
  destruct Hbn as [-> ->]. split; [done|]. split; [done|]. intros d Hd Hne Hrd.
  pose proof (ko_wf _ (do_caps _ Hok)) as Hwf. fold (root_of s) in Hwf. pose proof Hwf as (_ & _ & Hs & Hnn & _).
  assert (Hnd : ~ descendant d c).
  { intros Hdd. assert (has_descendants c (root_of s) = true); [|congruence]. apply has_descendants_spec; [done|by apply Hok|by exists d]. }
  assert (Hna : ~ ancestor d c).
  { destruct (find_ancestor_spec c (root_of s)) as (r & Er & Hnear); [done|apply Forall_forall, Hok|by apply Hok|done|rewrite Hr; by apply no_lower_root|intros; by apply Hok|].
    unfold has_ancestors in Ean. rewrite Er in Ean. destruct r; [done|]. by apply Hnear. }
  assert (Hnc : compare_caps (C c) (C d) false <> 0).
  { intros Hz. assert (has_copies c (root_of s) = true); [|congruence]. apply has_copies_spec; [done|done|]. exists d. split_and!; [done|done|].
    rewrite Forall_forall in Hnn. apply (is_copy_nonnull (cte_addr d) _ (cte_addr c)); [by apply Hnn|]. change (compare_caps (C d) (C c) false = 0).
    rewrite (compare_antisym (C c) (C d)). lia. }
  pose proof (do_nested _ Hok c d Hc Hd ltac:(congruence)) as Hlam. unfold descendant, ancestor in *. rewrite (compare_antisym (C c) (C d)) in Hna.
  pose proof (size_width (cte_cap d)) as [? _].
  destruct (Z.lt_trichotomy (compare_caps (C c) (C d) false) 0) as [Hlt|[?|Hgt]]; [|done|].
  - pose proof (compare_key _ _ _ Hlt) as Hk. cbn [snd C] in Hk. destruct (Z.lt_ge_cases (beg d) (fin c)); [|lia].
    exfalso. apply Hnd. split_and!; [done|congruence|lia|lia].
  - assert (Hlt : compare_caps (C d) (C c) false < 0) by (rewrite (compare_antisym (C c) (C d)); lia).
    pose proof (compare_key _ _ _ Hlt) as Hk. cbn [snd C] in Hk. destruct (Z.lt_ge_cases (beg c) (fin d)); [|lia].
    exfalso. apply Hna. split_and!; [lia|congruence|lia|lia].
Qed.

(** ** Theorems *)

(** The mappings [maps] of [c] and [c] itself are gone. *)
Definition deleted (c : cte) (s s' : kdel) : Prop :=
  exists maps, shrunk (maps ++ [cte_addr c]) s s' /\ (forall a, a ∈ maps -> exists d, maps_of s c d /\ cte_addr d = a) /\
    (mappable (h_type (cte_cap c)) = true -> forall d, maps_of s c d -> cap_root (cte_cap d) = cap_root (cte_cap c) ->
       beg d = beg c -> get_size (cte_cap d) < get_size (cte_cap c) -> d ∉ elements (root_of s')).

Lemma try_delete_cases s c : del_ok s -> maps_unlinked s -> c ∈ elements (root_of s) -> cap_root (cte_cap c) = 1 ->
  locked (kc s) (cte_addr c) = false -> in_delete (kc s) (cte_addr c) = false ->
  exists e s', caps_try_delete me can_deliver deliver (cte_addr c) s = Done (e, s') /\
    ((e = SYS_ERR_OK /\ deleted c s s' /\
      (messages s' = messages s \/
       (has_copies c (root_of s) = false /\ holds_slots (h_type (cte_cap c)) = false /\
        exists b n, freed_ram c s = Done (b, n) /\ 0 < n /\ messages s' = messages s ++ [[b; n]]))) \/
     ((e = err SYS_ERR_DELETE_LAST_OWNED \/ e = err SYS_ERR_RETRY_THROUGH_MONITOR) /\ s' = s /\ has_copies c (root_of s) = false
      /\ type_is_mapping (h_type (cte_cap c)) = false)).
Proof.
  intros Hok Hun Hc Hr Hl Hd. destruct (unmap_ok s c Hok Hun Hc) as (maps & s1 & Hum & Hin & Hall).
  destruct (try_delete_ok _ s c maps s1 Hok Hc Hr Hl Hd Hum) as (e & s' & E & Hcase). exists e, s'. split; [exact E|].
  assert (Hdel : shrunk (maps ++ [cte_addr c]) s s' -> deleted c s s').
  { intros Hsh. exists maps. split_and!; [done|done|]. intros Hm d Hd' Hrd Hb Hz [_ Hg]%(shrunk_elem _ _ _ _ Hsh).
    apply Hg, elem_of_app. left. by apply Hall. }
  destruct Hcase as [(-> & Hsh & Hmsg)|[(-> & -> & Hcp & Hx)|(-> & -> & Hcp & Hx)]]; [left|right..]; split_and!; auto.
  2: { apply not_true_iff_false. intros Ht. destruct (mapping_type _ Ht) as (_ & Hh & _). destruct (do_maps _ Hok c Hc Ht) as (_ & _ & Hrc & _).
       by rewrite Hrc, Hh in Hx. }
  2: { apply not_true_iff_false. intros Ht. by apply (mapping_frees_nothing c s Ht). }
  destruct (has_copies c (root_of s)) eqn:Ecp; [by left|]. destruct Hmsg as [|Hs]; [by left|]. right. split_and!; [done| |done].
  destruct (holds_slots (h_type (cte_cap c))) eqn:Eh; [|done]. exfalso. revert E. unfold caps_try_delete, caps_try_delete_with.
  unfold distcap_is_foreign. rewrite Hl, Hd, (do_own _ Hok c Hc), Z.eqb_refl, (at_slot_elem s c (do_caps _ Hok) Hc), Ecp, Eh, orb_true_r. done.
Qed.

Lemma delete_cases s c : del_ok s -> maps_unlinked s -> c ∈ elements (root_of s) -> cap_root (cte_cap c) = 1 ->
  exists e s', caps_delete me can_deliver deliver (cte_addr c) s = Done (e, s') /\
    ((err_is_fail e = true /\ s' = s) \/
     (e = SYS_ERR_OK /\ deleted c s s' /\
      (messages s' = messages s \/
       (has_copies c (root_of s) = false /\ holds_slots (h_type (cte_cap c)) = false /\
        exists b n, freed_ram c s = Done (b, n) /\ 0 < n /\ messages s' = messages s ++ [[b; n]])))).
Proof.
  intros Hok Hun Hc Hr. unfold caps_delete, caps_delete_with. destruct (locked (kc s) (cte_addr c)) eqn:El; [eexists _, s; split; [done|by left]|].
  fold (caps_try_delete me can_deliver deliver). destruct (in_delete (kc s) (cte_addr c)) eqn:Ed.
  { unfold caps_try_delete, caps_try_delete_with. rewrite Ed. eexists _, s. split; [done|by left]. }
  destruct (try_delete_cases s c Hok Hun Hc Hr El Ed) as (e & s' & -> & Hcase). cbn [mbind outcome_bind].
  destruct Hcase as [(-> & Hdel & Hm)|([-> | ->] & -> & _ & _)]; eexists _, _; (split; [done|]); [by right|by left..].
Qed.

(** C3: the deletion of a capability for memory fails no assertion.  Either
    it reports an error and changes nothing, or exactly its slot and
    slots of its mappings are emptied, every mapping of it that lies inside
    of it among them, and everything else stays as it was. *)
Theorem caps_delete_correct s c : del_ok s -> maps_unlinked s -> c ∈ elements (root_of s) -> cap_root (cte_cap c) = 1 ->
  exists e s', caps_delete me can_deliver deliver (cte_addr c) s = Done (e, s') /\
    ((err_is_fail e = true /\ s' = s) \/
     (e = SYS_ERR_OK /\ deleted c s s' /\ type_at s' (cte_addr c) = ObjType_Null /\ del_ok s' /\ maps_unlinked s')).
Proof.
  intros Hok Hun Hc Hr. destruct (delete_cases s c Hok Hun Hc Hr) as (e & s' & E & Hcase). exists e, s'. split; [done|].
  destruct Hcase as [?|(-> & Hdel & _)]; [by left|right]. destruct (Hdel) as (maps & Hsh & _). split_and!; [done|done| | |].
  - eapply type_at_gone; [exact Hsh|]. apply elem_of_app. right. by left.
  - by eapply shrunk_ok.
  - intros d [Hd Hg]%(shrunk_elem _ _ _ _ Hsh) Ht. destruct (sh_frame _ _ _ Hsh _ Hg) as (_ & _ & _ & _ & ->). by apply Hun.
Qed.

(** C4: when a deletion gives memory back to the monitor, that is the memory
    of the deleted capability, and no capability that remains shares a byte
    with it. *)
Theorem caps_delete_reclaims s c s' : del_ok s -> maps_unlinked s -> c ∈ elements (root_of s) -> cap_root (cte_cap c) = 1 ->
  (type_is_vnode (h_type (cte_cap c)) = true -> get_size (cte_cap c) = vnode_objsize (h_type (cte_cap c))) ->
  caps_delete me can_deliver deliver (cte_addr c) s = Done (SYS_ERR_OK, s') ->
  messages s' = messages s \/
  (messages s' = messages s ++ [[beg c; get_size (cte_cap c)]] /\
   forall d, d ∈ elements (root_of s') -> cap_root (cte_cap d) = 1 -> fin d <= beg c \/ fin c <= beg d).
Proof.
  intros Hok Hun Hc Hr Hv E. destruct (delete_cases s c Hok Hun Hc Hr) as (e & s'' & E' & Hcase). rewrite E in E'. injection E' as <- <-.
  destruct Hcase as [[? _]|(_ & (maps & Hsh & _) & [?|(Hcp & Hh & b & n & Hf & Hn & Hm)])]; [done|by left|right].
  destruct (last_covers s c b n Hok Hc Hr Hcp Hv Hh Hf Hn) as (-> & -> & Hfree). split; [done|].
  intros d [Hd Hg]%(shrunk_elem _ _ _ _ Hsh) Hrd. apply Hfree; [done| |done]. intros Ed. apply Hg, elem_of_app. right. rewrite Ed. by left.
Qed.

(** * Marking for a revocation *)

Lemma fmap_addr_inj (l : list cte) c d : NoDup (addrs l) -> c ∈ l -> d ∈ l -> cte_addr c = cte_addr d -> c = d.
Proof.
  intros Hnd [i Hi]%list_elem_of_lookup [j Hj]%list_elem_of_lookup E.
  assert (i = j) as -> by (eapply NoDup_lookup; [exact Hnd|..]; rewrite list_lookup_fmap, ?Hi, ?Hj; cbn; [done|by rewrite E]). congruence.
Qed.

(** The delete list ends in an entry that is being deleted. *)
Definition dlist_ok (s : kdel) : Prop :=
  (delete_head s = 0 <-> delete_tail s = 0) /\
  (delete_tail s <> 0 -> next_of s (delete_tail s) = 0 /\ in_delete (kc s) (delete_tail s) = true).

Record inv (s : kdel) : Prop := { inv_ok : del_ok s; inv_maps : maps_unlinked s; inv_list : dlist_ok s }.

(** What is left of a database: the same capabilities in the same slots. *)
Definition remains (s s' : kdel) : Prop :=
  forall d', d' ∈ elements (root_of s') -> exists d, d ∈ elements (root_of s) /\ cte_addr d = cte_addr d' /\ cte_cap d = cte_cap d'
    /\ locked (kc s') (cte_addr d') = locked (kc s) (cte_addr d').

Lemma remains_trans s1 s2 s3 : remains s1 s2 -> remains s2 s3 -> remains s1 s3.
Proof.
  intros H1 H2 d3 Hd3. destruct (H2 d3 Hd3) as (d2 & Hd2 & Ea & Ec & El). destruct (H1 d2 Hd2) as (d1 & Hd1 & Ea1 & Ec1 & El1).
  exists d1. split_and!; congruence.
Qed.

(** What goes with an entry that is not being deleted is not being deleted. *)
Lemma deleted_gone x s maps a : inv s -> in_delete (kc s) (cte_addr x) = false ->
  (forall a, a ∈ maps -> exists d, maps_of s x d /\ cte_addr d = a) -> a ∈ maps ++ [cte_addr x] -> in_delete (kc s) a = false.
Proof.
  intros [Hok _ _] Hd Hm [Ha| ->%list_elem_of_singleton]%elem_of_app; [|done]. destruct (Hm a Ha) as (d & (Hde & Ht & _) & <-).
  by apply (do_maps _ Hok d Hde).
Qed.

Lemma deleted_inv x s s' : inv s -> in_delete (kc s) (cte_addr x) = false -> deleted x s s' -> inv s' /\ remains s s'.
Proof.
  intros Hinv Hd (maps & Hsh & Hm & _). pose proof Hinv as [Hok Hun [Hl1 Hl2]]. split.
  - constructor.
    + by eapply shrunk_ok.
    + intros d [Hd' Hg]%(shrunk_elem _ _ _ _ Hsh) Ht. destruct (sh_frame _ _ _ Hsh _ Hg) as (_ & _ & _ & _ & ->). by apply Hun.
    + destruct (sh_lists _ _ _ Hsh) as (E1 & E2 & _). unfold dlist_ok. rewrite E1, E2. split; [done|]. intros Hne. destruct (Hl2 Hne) as [Hn Hi].
      assert (Hg : delete_tail s ∉ maps ++ [cte_addr x]) by (intros Hg; rewrite (deleted_gone x s maps _ Hinv Hd Hm Hg) in Hi; done).
      destruct (sh_frame _ _ _ Hsh _ Hg) as (_ & _ & -> & _ & ->). done.
  - intros d [Hd' Hg]%(shrunk_elem _ _ _ _ Hsh). exists d. destruct (sh_frame _ _ _ Hsh _ Hg) as (_ & El & _). done.
Qed.

(** Deleting a copy never asks the monitor. *)
Lemma mark_copy_ok s x : inv s -> x ∈ elements (root_of s) -> cap_root (cte_cap x) = 1 ->
  locked (kc s) (cte_addr x) = false -> in_delete (kc s) (cte_addr x) = false -> has_copies x (root_of s) = true ->
  exists s', caps_mark_revoke_copy me can_deliver deliver (cte_addr x) s = Done s' /\ deleted x s s'.
Proof.
  intros [Hok Hun _] Hx Hr Hl Hd Hcp. destruct (try_delete_cases s x Hok Hun Hx Hr Hl Hd) as (e & s' & E & Hcase).
  unfold caps_mark_revoke_copy. rewrite E. cbn [mbind outcome_bind].
  destruct Hcase as [(-> & Hdel & _)|(_ & _ & Hn & _)]; [|congruence]. by exists s'.
Qed.

(** An entry that is no mapping stays when another one is deleted. *)
Lemma deleted_keeps x s s' d : deleted x s s' -> d ∈ elements (root_of s) -> NoDup (addrs (elements (root_of s))) ->
  cte_addr d <> cte_addr x -> type_is_mapping (h_type (cte_cap d)) = false ->
  d ∈ elements (root_of s') /\ in_delete (kc s') (cte_addr d) = in_delete (kc s) (cte_addr d).
Proof.
  intros (maps & Hsh & Hm & _) Hd Hnd Hne Ht. assert (Hg : cte_addr d ∉ maps ++ [cte_addr x]).
  { intros [Ha|Ha%list_elem_of_singleton]%elem_of_app; [|done]. destruct (Hm _ Ha) as (m & (Hme & Htm & _) & Em).
    assert (m = d) as -> by (eapply fmap_addr_inj; eauto). congruence. }
  split; [by apply (shrunk_elem _ _ _ _ Hsh)|]. by destruct (sh_frame _ _ _ Hsh _ Hg) as (_ & _ & -> & _).
Qed.

(** ** Marking one entry *)

(** The entry [n] stays and is queued: only its own bits changed. *)
Record queued (n : cte) (s s' : kdel) : Prop := {
  qu_elements : exists f, keeps_cap f /\ elements (root_of s') = at_addr (cte_addr n) f <$> elements (root_of s);
  qu_in_delete : forall a, in_delete (kc s') a = if a =? cte_addr n then true else in_delete (kc s) a;
  qu_locked : forall a, locked (kc s') a = locked (kc s) a
}.

Lemma at_addr_elem a f (l : list cte) d : keeps_cap f -> d ∈ at_addr a f <$> l ->
  exists d0, d0 ∈ l /\ cte_addr d0 = cte_addr d /\ cte_cap d0 = cte_cap d /\ (cte_addr d <> a -> d0 = d).
Proof.
  intros Hf (d0 & -> & Hd)%list_elem_of_fmap. exists d0. destruct (keeps_cap_at a f Hf d0) as [Ea Ec]. split_and!; [done|done|done|].
  rewrite Ea. unfold at_addr. intros Hne. apply Z.eqb_neq in Hne. by rewrite Hne.
Qed.

(** The end of the delete list. *)
Lemma append_ok s n : dlist_ok s -> cte_addr n <> 0 -> in_delete (kc s) (cte_addr n) = false ->
  let s0 := with_kc (set_in_delete (<[cte_addr n := true]> (in_delete (kc s))) (kc s)) s in
  exists s1, delete_list_append (cte_addr n) s0 = Done s1 /\ kc s1 = kc s0 /\ map_of s1 = map_of s /\ dlist_ok s1 /\
    (forall a, in_delete (kc s) a = false -> a <> cte_addr n -> next_of s1 a = next_of s a).
Proof.
  intros [Hht Ht] H0 Hd s0. unfold delete_list_append. change (delete_tail s0) with (delete_tail s). change (delete_head s0) with (delete_head s).
  change (next_of s0) with (next_of s). destruct (Z.eqb_spec (delete_tail s) 0) as [E|E].
  - rewrite (proj2 Hht E). cbn [Z.eqb assert mbind outcome_bind]. eexists. split; [done|]. split_and!; [done|done| |].
    + split; cbn; [lia|]. intros _. by rewrite !fn_lookup_insert.
    + intros a _ Hne. cbn. by rewrite fn_lookup_insert_ne by done.
  - destruct (Ht E) as [Hn Hi]. assert (Hh : delete_head s <> 0) by tauto. apply Z.eqb_neq in Hh as Hh'. rewrite Hh', Hn.
    cbn [negb Z.eqb assert mbind outcome_bind]. eexists. split; [done|]. split_and!; [done|done| |].
    + split; cbn; [lia|]. intros _. by rewrite !fn_lookup_insert.
    + intros a Ha Hne. cbn. rewrite !fn_lookup_insert_ne; [done|congruence|congruence].
Qed.

(** What the marks leave of the invariant. *)
Lemma queue_ok s n s1 : inv s -> n ∈ elements (root_of s) -> type_is_mapping (h_type (cte_cap n)) = false ->
  kc s1 = set_in_delete (<[cte_addr n := true]> (in_delete (kc s))) (kc s) -> dlist_ok s1 ->
  (forall a, in_delete (kc s) a = false -> a <> cte_addr n -> next_of s1 a = next_of s a) ->
  let s2 := with_kc (set_root (update_at (cte_addr n) (fun c => with_bits false (remote_ancs c) (remote_descs c) c) (root_of s1)) (kc s1)) s1 in
  inv s2 /\ remains s s2 /\ queued n s s2.
Proof.
  intros Hinv Hn Hnm Ek Hdl Hnx s2. pose proof Hinv as [Hok Hun _]. pose proof (do_caps _ Hok) as Hk. revert s2.
  set (f := fun c : cte => with_bits false (remote_ancs c) (remote_descs c) c). intros s2. assert (Hf : keeps_cap f) by done.
  assert (Er : root_of s2 = update_at (cte_addr n) f (root_of s)) by (unfold root_of at 1; cbn; unfold root_of; by rewrite Ek).
  assert (Ee : elements (root_of s2) = at_addr (cte_addr n) f <$> elements (root_of s)) by (by rewrite Er, elements_update_at).
  assert (Hin : forall d, d ∈ elements (root_of s2) -> exists d0, d0 ∈ elements (root_of s) /\ cte_addr d0 = cte_addr d /\ cte_cap d0 = cte_cap d
    /\ (cte_addr d <> cte_addr n -> d0 = d)) by (intros d; rewrite Ee; by apply at_addr_elem).
  assert (Ho : owner_of (kc s2) = owner_of (kc s)) by (cbn; by rewrite Ek).
  assert (El : locked (kc s2) = locked (kc s)) by (cbn; by rewrite Ek).
  assert (Ei : in_delete (kc s2) = <[cte_addr n := true]> (in_delete (kc s))) by (cbn; by rewrite Ek).
  (* a mapping is another entry *)
  assert (Hmap : forall d, d ∈ elements (root_of s2) -> type_is_mapping (h_type (cte_cap d)) = true -> cte_addr d <> cte_addr n /\ d ∈ elements (root_of s)).
  { intros d Hd Ht. destruct (Hin d Hd) as (d0 & Hd0 & Ea & Ec & Eq). assert (Hne : cte_addr d <> cte_addr n).
    { intros E. assert (d0 = n) as -> by (eapply fmap_addr_inj; [apply Hk|done|done|congruence]). congruence. }
    split; [done|]. by rewrite <- (Eq Hne). }
  split_and!.
  - constructor; [constructor|..].
    + constructor; [change (mdb_wf (root_of s2)); rewrite Er; apply update_at_wf; [done|apply Hk]|cbn; rewrite Ek; apply Hk|].
      change (Forall (fun c => 0 <= cte_addr c < 2 ^ 32) (elements (root_of s2))). apply Forall_forall. intros d Hd.
      destruct (Hin d Hd) as (d0 & Hd0 & <- & _). pose proof (ko_mem _ Hk) as Hm. rewrite Forall_forall in Hm. by apply Hm.
    + intros d Hd. destruct (Hin d Hd) as (d0 & Hd0 & _ & Ec & _). unfold no_wrap. rewrite <- Ec. by apply Hok.
    + intros d e Hd He. destruct (Hin d Hd) as (d0 & Hd0 & _ & Ec & _), (Hin e He) as (e0 & He0 & _ & Ec' & _).
      unfold laminar. rewrite <- Ec, <- Ec'. by apply Hok.
    + intros d Hd. destruct (Hin d Hd) as (d0 & Hd0 & <- & _). by apply Hok.
    + intros d Hd. rewrite Ho. destruct (Hin d Hd) as (d0 & Hd0 & <- & _). by apply Hok.
    + intros d Hd Ht. destruct (Hmap d Hd Ht) as [Hne Hd0]. rewrite El, Ei, fn_lookup_insert_ne by done. by apply Hok.
    + intros d Hd Ht. destruct (Hmap d Hd Ht) as [Hne Hd0]. change (next_of s2) with (next_of s1). rewrite Hnx; [by apply Hun| |done].
      by apply (do_maps _ Hok d Hd0 Ht).
    + exact Hdl.
  - intros d Hd. destruct (Hin d Hd) as (d0 & Hd0 & Ea & Ec & _). exists d0. rewrite El. done.
  - constructor; [by exists f| |by rewrite El]. intros a. rewrite Ei. destruct (Z.eqb_spec a (cte_addr n)) as [->|]; [apply fn_lookup_insert|by apply fn_lookup_insert_ne].
Qed.

Lemma mark_generic_ok s n : inv s -> n ∈ elements (root_of s) -> cap_root (cte_cap n) = 1 -> locked (kc s) (cte_addr n) = false ->
  exists s', caps_mark_revoke_generic me can_deliver deliver (cte_addr n) s = Done s' /\ inv s' /\ remains s s' /\
    ((in_delete (kc s) (cte_addr n) = false /\ deleted n s s') \/ queued n s s').
Proof.
  intros Hinv Hn Hr Hl. pose proof Hinv as [Hok Hun Hdl]. pose proof (do_caps _ Hok) as Hk. unfold caps_mark_revoke_generic.
  rewrite (type_at_elem s n Hk Hn). assert (Hty : (h_type (cte_cap n) =? ObjType_Null) = false).
  { apply Z.eqb_neq. pose proof (ko_wf _ Hk) as (_ & _ & _ & Hnn & _). rewrite Forall_forall in Hnn. by apply Hnn. }
  rewrite Hty. assert (Hself : forall d', d' ∈ elements (root_of s) -> exists d, d ∈ elements (root_of s) /\ cte_addr d = cte_addr d'
    /\ cte_cap d = cte_cap d' /\ locked (kc s) (cte_addr d') = locked (kc s) (cte_addr d')) by (intros d Hd; by exists d).
  destruct (in_delete (kc s) (cte_addr n)) eqn:Ed.
  { exists s. split_and!; [done|done|exact Hself|]. right. constructor; [|intros a; by destruct (Z.eqb_spec a (cte_addr n)) as [->|]|done].
    exists (fun c => c). split; [done|]. symmetry. rewrite <- (list_fmap_id (elements (root_of s))) at 2. apply list_fmap_ext.
    intros ? d _. unfold at_addr. by case_match. }
  destruct (try_delete_cases s n Hok Hun Hn Hr Hl Ed) as (e & s' & -> & Hcase). cbn [mbind outcome_bind].
  destruct Hcase as [(-> & Hdel & _)|(He & -> & _ & Hnm)].
  { exists s'. cbn. destruct (deleted_inv n s s' Hinv Ed Hdel). split_and!; [done|done|done|]. by left. }
  assert (Hb : bool_decide (err_no e = Some SYS_ERR_DELETE_LAST_OWNED) || bool_decide (err_no e = Some SYS_ERR_RETRY_THROUGH_MONITOR) = true)
    by (by destruct He as [-> | ->]).
  rewrite Hb. destruct (append_ok s n Hdl (do_addr _ Hok n Hn) Ed) as (s1 & -> & Ek & Em & Hdl1 & Hnx). cbn [mbind outcome_bind].
  destruct (queue_ok s n s1 Hinv Hn Hnm Ek Hdl1 Hnx) as (H1 & H2 & H3). eexists. split; [done|]. split_and!; [done|done|by right].
Qed.

Lemma kept_app_list g l1 l2 : kept g (l1 ++ l2) = kept g l1 ++ kept g l2.
Proof. apply filter_app. Qed.

Lemma kept_in g x l : cte_addr x ∈ g -> kept g (x :: l) = kept g l.
Proof. intros H. unfold kept. by rewrite filter_cons_False by (intros H'; by apply H'). Qed.

Lemma kept_out g x l : cte_addr x ∉ g -> kept g (x :: l) = x :: kept g l.
Proof. intros H. unfold kept. by rewrite filter_cons_True. Qed.

Lemma kept_length g l : (length (kept g l) <= length l)%nat.
Proof. apply length_filter. Qed.

Lemma inv_nodup s : inv s -> NoDup (addrs (elements (root_of s))).
Proof. intros [[Hok _ _ _ _ _] _ _]. apply Hok. Qed.

Lemma inv_sorted s : inv s -> StronglySorted cte_lt (elements (root_of s)).
Proof. intros [[Hok _ _ _ _ _] _ _]. apply Hok. Qed.

Section Revoke.
(** The capability that is revoked. *)
Context (c : cte).
Let base : hcap := cte_cap c.
Hypothesis Hroot : cap_root base = 1.
Hypothesis Hmap : type_is_mapping (h_type base) = false.

Definition copy (d : cte) : bool := is_copy base (cte_cap d).

Lemma base_nonnull : h_type base <> 0.
Proof. intros E. assert (H : cap_root base = 1) by exact Hroot. unfold cap_root in H. cbn in H. by rewrite E in H. Qed.

Lemma copy_iff d : copy d = true <-> compare_caps (0, base) (C d) false = 0.
Proof.
  split; [exact (is_copy_compare 0 base (cte_addr d) (cte_cap d))|].
  exact (is_copy_nonnull 0 base (cte_addr d) (cte_cap d) base_nonnull).
Qed.

Lemma copy_cap d : copy d = true -> h_type (cte_cap d) = h_type base /\ cap_root (cte_cap d) = 1 /\ type_is_mapping (h_type (cte_cap d)) = false.
Proof.
  intros (Ht & _)%copy_iff%compare_eq_key. cbn in Ht. unfold cap_root. cbn. rewrite <- Ht. done.
Qed.

Lemma copy_self : copy c = true.
Proof. exact (is_copy_nonnull 0 base 0 base base_nonnull (compare_refl (0, base) false)). Qed.

(** Two copies are copies of each other. *)
Lemma copy_copy x y : copy x = true -> copy y = true -> is_copy (cte_cap x) (cte_cap y) = true.
Proof.
  intros Hx Hy. pose proof (copy_cap x Hx) as (Ht & _). apply copy_iff in Hx, Hy.
  assert (E : compare_caps (C x) (C y) false = 0).
  { pose proof (compare_antisym (0, base) (C x) false) as E1. pose proof (compare_antisym (0, base) (C y) false) as E2.
    pose proof (compare_trans (C x) (0, base) (C y) false ltac:(lia) ltac:(lia)) as H1.
    pose proof (compare_trans (C y) (0, base) (C x) false ltac:(lia) ltac:(lia)) as H2.
    rewrite (compare_antisym (C x) (C y)) in H2. lia. }
  refine (is_copy_nonnull (cte_addr x) _ (cte_addr y) _ _ E). cbn. rewrite Ht. apply base_nonnull.
Qed.

(** Copies lie next to each other. *)
Lemma copies_adjacent p n d : cte_lt p n -> cte_lt n d -> copy p = true -> copy d = true -> copy n = true.
Proof.
  unfold cte_lt. intros Hpn Hnd Hp Hd. assert (H1 : compare_caps (C p) (C n) false <= 0) by (apply compare_true_le; lia).
  assert (H2 : compare_caps (C n) (C d) false <= 0) by (apply compare_true_le; lia).
  apply copy_iff in Hp, Hd. apply copy_iff.
  pose proof (compare_trans (0, base) (C p) (C n) false ltac:(lia) H1) as H3.
  pose proof (compare_antisym (0, base) (C d) false) as E2. pose proof (compare_trans (C n) (C d) (0, base) false H2 ltac:(lia)) as H4.
  pose proof (compare_antisym (0, base) (C n) false) as E3. lia.
Qed.

Abbreviation child d := (is_ancestor (cte_cap d) base).

(** A part of the revocation: nothing new appears, and what is neither a copy
    nor a child nor a mapping stays in its slot. *)
Record progress (s s' : kdel) : Prop := {
  pr_remains : remains s s';
  pr_stays : forall d, d ∈ elements (root_of s) -> copy d = false -> child d = false -> type_is_mapping (h_type (cte_cap d)) = false ->
    exists d', d' ∈ elements (root_of s') /\ cte_addr d' = cte_addr d /\ cte_cap d' = cte_cap d
}.

Lemma progress_refl s : progress s s.
Proof. split; [intros d Hd; by exists d|intros d Hd _ _ _; by exists d]. Qed.

Lemma progress_trans s1 s2 s3 : progress s1 s2 -> progress s2 s3 -> progress s1 s3.
Proof.
  intros [R1 S1] [R2 S2]. split; [by eapply remains_trans|]. intros d Hd Hc Hch Ht. destruct (S1 d Hd Hc Hch Ht) as (d2 & Hd2 & Ea & Ec).
  destruct (S2 d2 Hd2) as (d3 & Hd3 & Ea3 & Ec3); [unfold copy in *; by rewrite Ec|by rewrite Ec..|]. exists d3. split_and!; congruence.
Qed.

(** The deletion of a copy or a child is one, and so is its way to the delete list. *)
Lemma deleted_progress x s s' : inv s -> remains s s' -> deleted x s s' -> x ∈ elements (root_of s) -> copy x = true \/ child x = true -> progress s s'.
Proof.
  intros Hinv Hrem Hdel Hx Hcase. split; [done|]. intros d Hd Hc Hch Ht. exists d. split; [|done].
  apply (deleted_keeps x s s' d Hdel Hd (inv_nodup s Hinv)); [|done]. intros E.
  assert (d = x) as -> by (eapply fmap_addr_inj; [by apply inv_nodup|done..]). destruct Hcase; congruence.
Qed.

Lemma queued_progress x s s' : remains s s' -> queued x s s' -> progress s s'.
Proof.
  intros Hrem [(f & Hf & Ee) _ _]. split; [done|]. intros d Hd _ _ _. exists (at_addr (cte_addr x) f d). rewrite Ee.
  destruct (keeps_cap_at (cte_addr x) f Hf d) as [-> ->]. split; [by apply list_elem_of_fmap_2|done].
Qed.

(** No copy is busy. *)
Definition copies_idle (s : kdel) : Prop :=
  forall d, d ∈ elements (root_of s) -> copy d = true -> locked (kc s) (cte_addr d) = false /\ in_delete (kc s) (cte_addr d) = false.

(** One copy of two is deleted, the other one stays. *)
Lemma delete_one_copy s x y : inv s -> copies_idle s -> x ∈ elements (root_of s) -> y ∈ elements (root_of s) ->
  copy x = true -> copy y = true -> cte_addr x <> cte_addr y ->
  exists s' gone, caps_mark_revoke_copy me can_deliver deliver (cte_addr x) s = Done s' /\ inv s' /\ progress s s' /\ copies_idle s' /\
    elements (root_of s') = kept gone (elements (root_of s)) /\ cte_addr x ∈ gone /\
    (forall d, d ∈ elements (root_of s) -> copy d = true -> cte_addr d <> cte_addr x -> cte_addr d ∉ gone).
Proof.
  intros Hinv Hidle Hx Hy Hcx Hcy Hne. destruct (copy_cap x Hcx) as (_ & Hr & _). destruct (Hidle x Hx Hcx) as [Hl Hd].
  destruct (mark_copy_ok s x Hinv Hx Hr Hl Hd) as (s' & E & Hdel).
  { apply has_copies_spec; [apply Hinv|done|]. exists y. split_and!; [done|done|by apply copy_copy]. }
  destruct (deleted_inv x s s' Hinv Hd Hdel) as [Hinv' Hrem].
  pose proof (deleted_progress x s s' Hinv Hrem Hdel Hx (or_introl Hcx)) as Hpr. destruct (Hdel) as (maps & Hsh & _).
  assert (Hkeep : forall d, d ∈ elements (root_of s) -> copy d = true -> cte_addr d <> cte_addr x ->
    d ∈ elements (root_of s') /\ in_delete (kc s') (cte_addr d) = in_delete (kc s) (cte_addr d)).
  { intros d Hd' Hcd Hnx. apply (deleted_keeps x s s' d Hdel Hd' (inv_nodup s Hinv) Hnx). by apply copy_cap. }
  exists s', (maps ++ [cte_addr x]). split_and!; [done..| |apply Hsh|apply elem_of_app; right; by left|].
  - intros d' Hd' Hcd. destruct (proj1 (shrunk_elem _ _ _ _ Hsh) Hd') as [Hds Hg].
    destruct (sh_frame _ _ _ Hsh _ Hg) as (_ & -> & -> & _). by apply Hidle.
  - intros d Hd' Hcd Hnx. destruct (Hkeep d Hd' Hcd Hnx) as [Hin _]. by apply (shrunk_elem _ _ _ _ Hsh) in Hin as [_ ?].
Qed.

(** One of two neighbours is deleted. *)
Lemma delete_neighbour s l1 a b l2 x y : inv s -> copies_idle s -> elements (root_of s) = l1 ++ a :: b :: l2 ->
  copy a = true -> copy b = true -> c ∈ elements (root_of s) -> (x = a /\ y = b) \/ (x = b /\ y = a) -> cte_addr x <> cte_addr c ->
  exists s' gone, caps_mark_revoke_copy me can_deliver deliver (cte_addr x) s = Done s' /\ inv s' /\ progress s s' /\ copies_idle s' /\
    elements (root_of s') = kept gone l1 ++ y :: kept gone l2 /\ copy y = true /\ c ∈ elements (root_of s').
Proof.
  intros Hinv Hidle El Ha Hb Hc Hxy Hxc. pose proof (inv_nodup s Hinv) as Hnd. rewrite El, fmap_app, !fmap_cons in Hnd.
  apply NoDup_app in Hnd as (_ & _ & Hnd). apply NoDup_cons in Hnd as [Hab _].
  assert (Hab' : cte_addr a <> cte_addr b) by (intros E; apply Hab; rewrite E; by left).
  assert (Hin : forall z, z = a \/ z = b -> z ∈ elements (root_of s) /\ copy z = true).
  { intros z Hz. rewrite El. split; [|by destruct Hz as [-> | ->]]. apply elem_of_app. right. rewrite !elem_of_cons. tauto. }
  destruct (Hin x) as [Hx Hcx]; [tauto|]. destruct (Hin y) as [Hy Hcy]; [tauto|].
  assert (Hne : cte_addr x <> cte_addr y) by (destruct Hxy as [[-> ->]|[-> ->]]; congruence).
  destruct (delete_one_copy s x y Hinv Hidle Hx Hy Hcx Hcy Hne) as (s' & gone & E & Hinv' & Hrem & Hidle' & El' & Hgx & Hkeep).
  assert (Hgy : cte_addr y ∉ gone) by (apply Hkeep; congruence).
  exists s', gone. split_and!; try done.
  - rewrite El', El, kept_app_list. f_equal. destruct Hxy as [[-> ->]|[-> ->]]; [by rewrite kept_in, kept_out|by rewrite kept_out, kept_in].
  - rewrite El'. apply kept_elem. split; [done|]. apply Hkeep; [done|apply copy_self|congruence].
Qed.

(** The loop backwards: no copy is left before the current one. *)
Lemma mark_copies_back fuel : forall s l1 p l2, inv s -> copies_idle s -> elements (root_of s) = l1 ++ p :: l2 -> (length l1 < fuel)%nat ->
  copy p = true -> c ∈ elements (root_of s) ->
  exists s' p' l1' l2', mark_copies me can_deliver deliver fuel mdb_predecessor base (Some (cte_addr c)) (cte_addr p) s = Done (cte_addr p', s') /\
    inv s' /\ progress s s' /\ copies_idle s' /\ elements (root_of s') = l1' ++ p' :: l2' /\ copy p' = true /\ c ∈ elements (root_of s') /\
    (forall d, d ∈ l1' -> copy d = false).
Proof.
  induction fuel as [|fuel IH]; intros s l1 p l2 Hinv Hidle El Hf Hp Hc; [lia|]. cbn [mark_copies].
  pose proof (do_caps _ (inv_ok _ Hinv)) as Hok. pose proof (inv_sorted s Hinv) as Hs. rewrite El in Hs.
  rewrite (at_slot_elem s p Hok) by (rewrite El; apply elem_of_app; right; by left).
  rewrite (predecessor_last (root_of s) l1 p l2 (ko_wf _ Hok) El).
  assert (Hend : (forall d, d ∈ l1 -> copy d = false) ->
    exists s' p' l1' l2', Done (cte_addr p, s) = Done (cte_addr p', s') /\ inv s' /\ progress s s' /\ copies_idle s' /\
      elements (root_of s') = l1' ++ p' :: l2' /\ copy p' = true /\ c ∈ elements (root_of s') /\ (forall d, d ∈ l1' -> copy d = false)).
  { intros Hl1. exists s, p, l1, l2. split_and!; try done. apply progress_refl. }
  destruct l1 as [|n l1 _] using rev_ind; [apply Hend; by intros d ?%elem_of_nil|]. rewrite last_snoc.
  fold (copy n). destruct (copy n) eqn:Ecn; cbn [negb].
  2: { apply Hend. intros d [Hd| ->%list_elem_of_singleton]%elem_of_app; [|done]. apply not_true_iff_false. intros Hcd.
       rewrite (copies_adjacent d n p) in Ecn; [done| | |done|done].
       - apply StronglySorted_app_1_l in Hs. apply (StronglySorted_app_1_elem_of cte_lt _ _ _ _ Hs Hd). by left.
       - apply (StronglySorted_app_1_elem_of cte_lt _ _ _ _ Hs); [apply elem_of_app; right|]; by left. }
  clear Hend. rewrite <- app_assoc in El. cbn [app] in El.
  assert (Hgo : forall x y, (x = n /\ y = p) \/ (x = p /\ y = n) -> cte_addr x <> cte_addr c ->
    exists s' p' l1' l2', (s ← caps_mark_revoke_copy me can_deliver deliver (cte_addr x) s;
        mark_copies me can_deliver deliver fuel mdb_predecessor base (Some (cte_addr c)) (cte_addr y) s) = Done (cte_addr p', s') /\
      inv s' /\ progress s s' /\ copies_idle s' /\ elements (root_of s') = l1' ++ p' :: l2' /\ copy p' = true /\ c ∈ elements (root_of s') /\
      (forall d, d ∈ l1' -> copy d = false)).
  { intros x y Hxy Hxc. destruct (delete_neighbour s l1 n p l2 x y Hinv Hidle El Ecn Hp Hc Hxy Hxc) as (s1 & g & -> & H1 & H2 & H3 & H4 & H5 & H6).
    cbn [mbind outcome_bind]. destruct (IH s1 (kept g l1) y (kept g l2) H1 H3 H4) as (s' & p' & l1' & l2' & E' & K1 & K2 & K3); [|done|done|].
    - pose proof (kept_length g l1). rewrite length_app in Hf. cbn in Hf. lia.
    - exists s', p', l1', l2'. split_and!; try apply K3; [done|done|by eapply progress_trans]. }
  destruct (bool_decide_reflect (Some (cte_addr n) = Some (cte_addr c))) as [En|En]; cbn [assert mbind outcome_bind].
  - apply (Hgo p n); [by right|]. injection En as <-. intros E. pose proof (inv_nodup s Hinv) as Hnd. rewrite El, fmap_app, !fmap_cons in Hnd.
    apply NoDup_app in Hnd as (_ & _ & Hnd). apply NoDup_cons in Hnd as [Hnp _]. apply Hnp. rewrite <- E. by left.
  - apply (Hgo n p); [by left|congruence].
Qed.

(** The loop forwards: only the revoked copy is left. *)
Lemma mark_copies_forth fuel : forall s l1 p l2, inv s -> copies_idle s -> elements (root_of s) = l1 ++ p :: l2 -> (length l2 < fuel)%nat ->
  copy p = true -> c ∈ elements (root_of s) -> (forall d, d ∈ l1 -> copy d = false) ->
  exists s' l1' l2', mark_copies me can_deliver deliver fuel mdb_successor base (Some (cte_addr c)) (cte_addr p) s = Done (cte_addr c, s') /\
    inv s' /\ progress s s' /\ elements (root_of s') = l1' ++ c :: l2' /\ (forall d, d ∈ l1' ++ l2' -> copy d = false).
Proof.
  induction fuel as [|fuel IH]; intros s l1 p l2 Hinv Hidle El Hf Hp Hc Hl1; [lia|]. cbn [mark_copies].
  pose proof (do_caps _ (inv_ok _ Hinv)) as Hok. pose proof (inv_sorted s Hinv) as Hs. rewrite El in Hs.
  rewrite (at_slot_elem s p Hok) by (rewrite El; apply elem_of_app; right; by left).
  rewrite (successor_head (root_of s) l1 p l2 (ko_wf _ Hok) El).
  assert (Hend : (forall d, d ∈ l2 -> copy d = false) ->
    exists s' l1' l2', Done (cte_addr p, s) = Done (cte_addr c, s') /\ inv s' /\ progress s s' /\ elements (root_of s') = l1' ++ c :: l2'
      /\ (forall d, d ∈ l1' ++ l2' -> copy d = false)).
  { intros Hl2. pose proof copy_self as Hself. rewrite El in Hc. apply elem_of_app in Hc as [Hc|[<-|Hc]%elem_of_cons];
      [by rewrite (Hl1 c Hc) in Hself| |by rewrite (Hl2 c Hc) in Hself].
    exists s, l1, l2. split_and!; [done|done|apply progress_refl|done|]. intros d [Hd|Hd]%elem_of_app; auto. }
  destruct l2 as [|n l2]; cbn [head]; [apply Hend; by intros d ?%elem_of_nil|].
  fold (copy n). destruct (copy n) eqn:Ecn; cbn [negb].
  2: { apply Hend. intros d [->|Hd]%elem_of_cons; [done|]. apply not_true_iff_false. intros Hcd. apply StronglySorted_app_1_r in Hs.
       inversion_clear Hs as [|? ? Hs' Hpn]. inversion_clear Hs' as [|? ? _ Hnd]. rewrite Forall_forall in Hpn, Hnd.
       rewrite (copies_adjacent p n d) in Ecn; [done|apply Hpn; by left|by apply Hnd|done|done]. }
  clear Hend. assert (Hgo : forall x y, (x = p /\ y = n) \/ (x = n /\ y = p) -> cte_addr x <> cte_addr c ->
    exists s' l1' l2', (s ← caps_mark_revoke_copy me can_deliver deliver (cte_addr x) s;
        mark_copies me can_deliver deliver fuel mdb_successor base (Some (cte_addr c)) (cte_addr y) s) = Done (cte_addr c, s') /\
      inv s' /\ progress s s' /\ elements (root_of s') = l1' ++ c :: l2' /\ (forall d, d ∈ l1' ++ l2' -> copy d = false)).
  { intros x y Hxy Hxc. destruct (delete_neighbour s l1 p n l2 x y Hinv Hidle El Hp Ecn Hc Hxy Hxc) as (s1 & g & -> & H1 & H2 & H3 & H4 & H5 & H6).
    cbn [mbind outcome_bind]. destruct (IH s1 (kept g l1) y (kept g l2) H1 H3 H4) as (s' & l1' & l2' & E' & K1 & K2 & K3); [|done|done| |].
    - pose proof (kept_length g l2). cbn in Hf. lia.
    - intros d [Hd _]%kept_elem. auto.
    - exists s', l1', l2'. split_and!; try apply K3; [done|done|by eapply progress_trans]. }
  destruct (bool_decide_reflect (Some (cte_addr n) = Some (cte_addr c))) as [En|En]; cbn [assert mbind outcome_bind].
  - apply (Hgo p n); [by left|]. injection En as <-. intros E. pose proof (inv_nodup s Hinv) as Hnd. rewrite El, fmap_app, !fmap_cons in Hnd.
    apply NoDup_app in Hnd as (_ & _ & Hnd). apply NoDup_cons in Hnd as [Hnp _]. apply Hnp. rewrite E. by left.
  - apply (Hgo n p); [by right|congruence].
Qed.

(** ** Descendants *)

(** [d] comes after the copies of [base]. *)
Definition after (d : cte) : Prop := compare_caps (0, base) (C d) false < 0.

Lemma well_founded_type src dest : is_well_founded src dest = true -> h_type_root dest = 1 /\ (src = dest \/ src < dest).
Proof.
  unfold is_well_founded.
  repeat match goal with
  | |- context [if (dest =? ?k) then _ else _] =>
    destruct (Z.eqb_spec dest k) as [->|]; [rewrite ?orb_true_iff, ?Z.eqb_eq; intros H; split; [done|lia]|]
  | |- context [(dest =? ?k) || _] =>
    destruct (Z.eqb_spec dest k) as [->|]; [cbn; rewrite ?Z.eqb_eq; intros H; split; [done|lia]|cbn [orb]]
  end.
  destruct (type_is_vnode dest) eqn:Ev; [|destruct (type_is_mapping dest) eqn:Em]; rewrite ?Z.eqb_eq; intros H; [|split; [by apply mapping_type|lia]|done].
  unfold type_is_vnode in Ev. rewrite !andb_true_iff, !Z.leb_le in Ev. destruct Ev as [[? ?] Ho]. unfold h_type_root.
  assert (dest <> 12) by (intros ->; done). assert (dest <> 0 /\ dest <> 5 /\ dest < 39) by lia. zdecide. split; [done|lia].
Qed.

Lemma child_after d : no_wrap c -> no_wrap d -> child d = true -> cap_root (cte_cap d) = 1 /\ after d.
Proof.
  intros Hnc Hnd H. unfold is_ancestor in H. destruct (is_well_founded (h_type base) (h_type (cte_cap d))) eqn:Ew; [|done].
  cbn [negb] in H. destruct (well_founded_type _ _ Ew) as [Hr Hty]. split; [exact Hr|].
  pose proof (address_width base) as [? _]. pose proof (size_width base) as [? _]. pose proof (address_width (cte_cap d)) as [? _].
  pose proof (size_width (cte_cap d)) as [? _]. cbn in *. unfold no_wrap in Hnc, Hnd. cbn in Hnc, Hnd.
  rewrite !u64_small in H by (fold base in Hnc; lia).
  unfold after. cbn. unfold h_compare, h_keys. cbn [snd fst lexcmp app]. rewrite (Hroot : h_type_root (h_type base) = 1), Hr.
  revert H. rewrite Z.eqb_refl. zcases; cbn [andb orb]; intros H'; first [lia|discriminate H'].
Qed.

(** Every entry between the copies and a child is a child. *)
Definition children_first (s : kdel) : Prop :=
  forall x d, x ∈ elements (root_of s) -> d ∈ elements (root_of s) -> after x -> cte_lt x d -> child d = true -> child x = true.

Definition children_unlocked (s : kdel) : Prop :=
  forall d, d ∈ elements (root_of s) -> child d = true -> locked (kc s) (cte_addr d) = false.

Definition only_copy (s : kdel) : Prop := forall d, d ∈ elements (root_of s) -> copy d = true -> cte_addr d = cte_addr c.

(** These carry over to what remains. *)
Lemma remains_facts s s' : remains s s' -> children_first s -> children_unlocked s ->
  children_first s' /\ children_unlocked s' /\ (only_copy s -> only_copy s').
Proof.
  intros Hrem H1 H2. split_and!.
  - intros x d Hx Hd Ha Hlt Hch. destruct (Hrem x Hx) as (x0 & Hx0 & Eax & Ecx & _), (Hrem d Hd) as (d0 & Hd0 & Ead & Ecd & _).
    unfold after, cte_lt, C in *. rewrite <- Ecx, <- ?Eax, <- ?Ecd, <- ?Ead in *. by apply (H1 x0 d0).
  - intros d Hd Hch. destruct (Hrem d Hd) as (d0 & Hd0 & Ea & Ec & El). rewrite El, <- Ea. apply H2; [done|]. by rewrite Ec.
  - intros H3 d Hd Hcd. destruct (Hrem d Hd) as (d0 & Hd0 & Ea & Ec & _). rewrite <- Ea. apply H3; [done|]. unfold copy in *. by rewrite Ec.
Qed.

(** The state of the loop over the descendants, at the entry [p]. *)
Record loop_at (s : kdel) (l1 : list cte) (p : cte) (l2 : list cte) : Prop := {
  la_inv : inv s;
  la_first : children_first s; la_unlocked : children_unlocked s; la_only : only_copy s;
  la_elements : elements (root_of s) = l1 ++ p :: l2;
  la_marked : forall d, d ∈ l1 ++ [p] -> after d -> in_delete (kc s) (cte_addr d) = true;
  la_here : cte_addr p = cte_addr c \/ in_delete (kc s) (cte_addr p) = true;
  la_pos : compare_caps (0, base) (C p) false <= 0;
  la_target : exists c', c' ∈ elements (root_of s) /\ cte_addr c' = cte_addr c /\ cte_cap c' = base
}.

Lemma target_not_child s l1 p l2 n : loop_at s l1 p l2 -> n ∈ elements (root_of s) -> after n -> cte_addr n <> cte_addr c.
Proof.
  intros [Hinv _ _ _ _ _ _ _ (c' & Hc' & Eac & Ecc)] Hn Ha E.
  assert (n = c') as -> by (eapply fmap_addr_inj; [by apply inv_nodup|done|done|congruence]).
  assert (Hcp : copy c' = true) by (unfold copy; rewrite Ecc; apply copy_self). apply copy_iff in Hcp. unfold after in Ha. lia.
Qed.

(** The current entry is no mapping. *)
Lemma current_no_mapping s l1 p l2 : loop_at s l1 p l2 -> type_is_mapping (h_type (cte_cap p)) = false.
Proof.
  intros [Hinv _ _ _ El _ Hhere _ (c' & Hc' & Eac & Ecc)]. assert (Hp : p ∈ elements (root_of s)) by (rewrite El; apply elem_of_app; right; by left).
  destruct Hhere as [E|E].
  - assert (p = c') as -> by (eapply fmap_addr_inj; [by apply inv_nodup|done|done|congruence]). by rewrite Ecc.
  - apply not_true_iff_false. intros Ht. destruct (do_maps _ (inv_ok _ Hinv) p Hp Ht) as (_ & Hd & _). congruence.
Qed.

Lemma step_deleted s l1 p n l2 s' : loop_at s l1 p (n :: l2) -> after n -> inv s' -> remains s s' -> deleted n s s' ->
  exists l1' l2', loop_at s' l1' p l2' /\ (length l2' <= length l2)%nat /\ type_at s' (cte_addr n) = ObjType_Null.
Proof.
  intros Hla Han Hinv' Hrem Hdel. pose proof (current_no_mapping _ _ _ _ Hla) as Hpm.
  pose proof Hla as [Hinv Hfirst Hunl Honly El Hmk Hhere Hpos (c' & Hc' & Eac & Ecc)]. pose proof (inv_nodup s Hinv) as Hnd.
  assert (Hn : n ∈ elements (root_of s)) by (rewrite El; apply elem_of_app; right; right; by left).
  assert (Hp : p ∈ elements (root_of s)) by (rewrite El; apply elem_of_app; right; by left).
  pose proof (target_not_child _ _ _ _ n Hla Hn Han) as Hnc.
  assert (Hpn : cte_addr p <> cte_addr n).
  { pose proof Hnd as Hnd'. rewrite El, fmap_app, !fmap_cons in Hnd'. apply NoDup_app in Hnd' as (_ & _ & Hnd'). apply NoDup_cons in Hnd' as [Hx _].
    intros E. apply Hx. rewrite E. by left. }
  destruct (deleted_keeps n s s' p Hdel Hp Hnd Hpn Hpm) as [Hp' Hdp].
  destruct (deleted_keeps n s s' c' Hdel Hc' Hnd ltac:(congruence) ltac:(by rewrite Ecc)) as [Hc'' _].
  destruct (remains_facts s s' Hrem Hfirst Hunl) as (F1 & F2 & F3). specialize (F3 Honly). destruct Hdel as (maps & Hsh & _).
  set (g := maps ++ [cte_addr n]) in *. assert (Hgn : cte_addr n ∈ g) by (apply elem_of_app; right; by left).
  assert (Hgp : cte_addr p ∉ g) by (by apply (shrunk_elem _ _ _ _ Hsh) in Hp' as [_ ?]).
  exists (kept g l1), (kept g l2). split_and!; [|apply kept_length|by eapply type_at_gone]. constructor; try done.
  - rewrite (sh_elements _ _ _ Hsh), El, kept_app_list, kept_out, kept_in by done. done.
  - intros d Hd Ha. assert (Hd' : d ∈ l1 ++ [p] /\ cte_addr d ∉ g).
    { apply elem_of_app in Hd as [[Hd Hg]%kept_elem| ->%list_elem_of_singleton]; [split; [apply elem_of_app; by left|done]|].
      split; [apply elem_of_app; right; by left|done]. }
    destruct (sh_frame _ _ _ Hsh _ (proj2 Hd')) as (_ & _ & -> & _). apply Hmk; [apply Hd'|done].
  - by rewrite Hdp.
  - by exists c'.
Qed.

Lemma step_queued s l1 p n l2 s' : loop_at s l1 p (n :: l2) -> after n -> inv s' -> remains s s' -> queued n s s' ->
  exists l1' p' l2', loop_at s' l1' p' l2' /\ (length l2' <= length l2)%nat /\ cte_addr p' = cte_addr n /\ type_at s' (cte_addr n) <> ObjType_Null.
Proof.
  intros [Hinv Hfirst Hunl Honly El Hmk _ _ (c' & Hc' & Eac & Ecc)] Han Hinv' Hrem [(f & Hf & Ee) Hid _].
  destruct (remains_facts s s' Hrem Hfirst Hunl) as (F1 & F2 & F3). specialize (F3 Honly). set (f' := at_addr (cte_addr n) f) in *.
  pose proof (keeps_cap_at (cte_addr n) f Hf) as Hk. fold f' in Hk.
  assert (El' : elements (root_of s') = (f' <$> l1 ++ [p]) ++ f' n :: (f' <$> l2)).
  { rewrite Ee, El. rewrite !fmap_app, !fmap_cons, <- app_assoc. done. }
  assert (Hn' : f' n ∈ elements (root_of s')) by (rewrite El'; apply elem_of_app; right; by left).
  destruct (Hk n) as [Ean Ecn]. exists (f' <$> l1 ++ [p]), (f' n), (f' <$> l2). split_and!; [|by rewrite length_fmap|done|].
  - constructor; try done.
    + intros d Hd Ha. assert (Hd' : exists d0, d = f' d0 /\ (d0 ∈ l1 ++ [p] \/ d0 = n)).
      { apply elem_of_app in Hd as [(d0 & -> & Hd)%list_elem_of_fmap| ->%list_elem_of_singleton]; eauto. }
      destruct Hd' as (d0 & -> & Hd0). destruct (Hk d0) as [Ea Ec]. rewrite Hid, Ea.
      destruct (Z.eqb_spec (cte_addr d0) (cte_addr n)) as [|Hne]; [done|]. destruct Hd0 as [Hd0| ->]; [|done]. apply Hmk; [done|].
      unfold after, C in *. by rewrite Ea, Ec in Ha.
    + right. by rewrite Hid, Ean, Z.eqb_refl.
    + unfold C. rewrite Ean, Ecn. unfold after, C in Han. lia.
    + exists (f' c'). rewrite Ee. destruct (Hk c') as [-> ->]. split; [by apply list_elem_of_fmap_2|done].
  - rewrite <- Ean, (type_at_elem s' (f' n) (do_caps _ (inv_ok _ Hinv')) Hn'). pose proof (ko_wf _ (do_caps _ (inv_ok _ Hinv'))) as (_ & _ & _ & Hnn & _).
    rewrite Forall_forall in Hnn. by apply Hnn.
Qed.

(** The loop reaches an entry behind which there is no child. *)
Lemma mark_descendants_ok fuel : forall s l1 p l2, loop_at s l1 p l2 -> (length l2 < fuel)%nat ->
  exists s' l1' p' l2', mark_descendants me can_deliver deliver fuel base (cte_addr p) s = Done (cte_addr p', s') /\ progress s s' /\
    loop_at s' l1' p' l2' /\ (forall n, head l2' = Some n -> child n = false).
Proof.
  induction fuel as [|fuel IH]; intros s l1 p l2 Hla Hf; [lia|]. cbn [mark_descendants].
  pose proof Hla as [Hinv _ Hunl _ El _ _ _ (c' & Hc' & _ & Ecc)]. pose proof (inv_ok _ Hinv) as Hok. pose proof (do_caps _ Hok) as Hk.
  rewrite (at_slot_elem s p Hk) by (rewrite El; apply elem_of_app; right; by left).
  rewrite (successor_head (root_of s) l1 p l2 (ko_wf _ Hk) El).
  assert (Hend : (forall n, head l2 = Some n -> child n = false) ->
    exists s' l1' p' l2', Done (cte_addr p, s) = Done (cte_addr p', s') /\ progress s s' /\ loop_at s' l1' p' l2' /\ (forall n, head l2' = Some n -> child n = false)).
  { intros H. exists s, l1, p, l2. split_and!; [done|apply progress_refl|done|done]. }
  destruct l2 as [|n l2]; cbn [head]; [by apply Hend|]. destruct (child n) eqn:Ech; cbn [negb].
  2: { apply Hend. by intros ? [= <-]. }
  clear Hend. assert (Hn : n ∈ elements (root_of s)) by (rewrite El; apply elem_of_app; right; right; by left).
  assert (Hnw : no_wrap c) by (pose proof (do_wrap _ Hok c' Hc') as H; unfold no_wrap in *; by rewrite Ecc in H).
  destruct (child_after n Hnw (do_wrap _ Hok n Hn) Ech) as [Hr Han].
  destruct (mark_generic_ok s n Hinv Hn Hr (Hunl n Hn Ech)) as (s1 & -> & Hinv1 & Hrem1 & Hcase). cbn [mbind outcome_bind]. cbn in Hf.
  destruct Hcase as [[_ Hdel]|Hq].
  - destruct (step_deleted s l1 p n l2 s1 Hla Han Hinv1 Hrem1 Hdel) as (l1' & l2' & Hla1 & Hlen & Ht). rewrite Ht.
    pose proof (deleted_progress n s s1 Hinv Hrem1 Hdel Hn (or_intror Ech)) as Hp1. cbn [Z.eqb ObjType_Null].
    destruct (IH s1 l1' p l2' Hla1 ltac:(lia)) as (s' & m1 & p' & m2 & E & Hrem & H). exists s', m1, p', m2. split_and!; [done|by eapply progress_trans|apply H..].
  - destruct (step_queued s l1 p n l2 s1 Hla Han Hinv1 Hrem1 Hq) as (l1' & p1 & l2' & Hla1 & Hlen & Ep & Ht).
    apply Z.eqb_neq in Ht. rewrite Ht, <- Ep. pose proof (queued_progress n s s1 Hrem1 Hq) as Hp1.
    destruct (IH s1 l1' p1 l2' Hla1 ltac:(lia)) as (s' & m1 & p' & m2 & E & Hrem & H). exists s', m1, p', m2. split_and!; [done|by eapply progress_trans|apply H..].
Qed.

(** ** The whole revocation *)

(** The search finds a copy, since the capability is one itself. *)
Lemma find_copy s : inv s -> c ∈ elements (root_of s) ->
  exists p, mdb_find_greater (0, base) true (root_of s) = Some p /\ p ∈ elements (root_of s) /\ copy p = true.
Proof.
  intros Hinv Hc. pose proof (sub_find_greater_spec (0, base) (root_of s) true false (inv_sorted s Hinv)) as Hspec.
  pose proof (proj1 (copy_iff c) copy_self) as Hself. unfold mdb_find_greater.
  destruct (mdb_sub_find_greater _ (root_of s) true false) as [p|]; unfold least_above, above in Hspec.
  - destruct Hspec as (Hp & Hab & Hleast). exists p. split_and!; [done|done|]. apply copy_iff.
    pose proof (Hleast c Hc ltac:(lia)) as H1. pose proof (compare_antisym (0, base) (C c) false) as E1.
    pose proof (compare_trans (C p) (C c) (0, base) false H1 ltac:(lia)) as H2. pose proof (compare_antisym (0, base) (C p) false) as E2. lia.
  - exfalso. apply (Hspec c Hc). lia.
Qed.

(** Where the loop over the descendants starts. *)
Lemma loop_start s s1 l1 l2 : inv s1 -> progress s s1 -> children_first s -> children_unlocked s -> elements (root_of s1) = l1 ++ c :: l2 ->
  (forall d, d ∈ l1 ++ l2 -> copy d = false) -> loop_at s1 l1 c l2.
Proof.
  intros Hinv [Hrem _] Hf Hu El Hno. pose proof (proj1 (copy_iff c) copy_self) as Hself. pose proof (inv_sorted _ Hinv) as Hs. rewrite El in Hs.
  assert (Hin : c ∈ elements (root_of s1)) by (rewrite El; apply elem_of_app; right; by left).
  destruct (remains_facts s s1 Hrem Hf Hu) as (F1 & F2 & _).
  constructor; try done.
  - intros d Hd Hcd. rewrite El in Hd. apply elem_of_app in Hd as [Hd|[E|Hd]%elem_of_cons]; [|by rewrite E|];
      rewrite Hno in Hcd by (apply elem_of_app; tauto); done.
  - intros d [Hd| ->%list_elem_of_singleton]%elem_of_app Ha; unfold after in Ha; [|lia].
    assert (Hlt : cte_lt d c) by (apply (StronglySorted_app_1_elem_of cte_lt _ _ _ _ Hs Hd); by left). unfold cte_lt in Hlt.
    assert (H1 : compare_caps (C d) (C c) false <= 0) by (apply compare_true_le; lia).
    pose proof (compare_antisym (0, base) (C c) false) as E1. pose proof (compare_trans (C d) (C c) (0, base) false H1 ltac:(lia)) as H2.
    pose proof (compare_antisym (0, base) (C d) false) as E2. lia.
  - by left.
  - lia.
  - by exists c.
Qed.

(** Where it ends, every child that is left is on the delete list. *)
Lemma loop_end s l1 p l2 d : loop_at s l1 p l2 -> (forall n, head l2 = Some n -> child n = false) ->
  d ∈ elements (root_of s) -> child d = true -> in_delete (kc s) (cte_addr d) = true.
Proof.
  intros [Hinv Hfirst _ Honly El Hmk _ Hpos (c' & Hc' & _ & Ecc)] Hend Hd Hch. pose proof (do_wrap _ (inv_ok _ Hinv)) as Hnw.
  assert (Hnc : no_wrap c) by (pose proof (Hnw c' Hc') as H; unfold no_wrap in *; by rewrite Ecc in H).
  destruct (child_after d Hnc (Hnw d Hd) Hch) as [_ Had]. pose proof (inv_sorted _ Hinv) as Hs. rewrite El in Hs, Hd.
  replace (l1 ++ p :: l2) with ((l1 ++ [p]) ++ l2) in Hs, Hd by (by rewrite <- app_assoc).
  apply elem_of_app in Hd as [Hd|Hd]; [by apply Hmk|]. exfalso. destruct l2 as [|n l2]; [by apply elem_of_nil in Hd|].
  specialize (Hend n eq_refl). apply elem_of_cons in Hd as [->|Hd]; [congruence|].
  assert (Hpn : cte_lt p n) by (apply (StronglySorted_app_1_elem_of cte_lt _ _ _ _ Hs); [apply elem_of_app; right|]; by left).
  assert (Hin : forall x, x ∈ n :: l2 -> x ∈ elements (root_of s)) by (intros x Hx; rewrite El; apply elem_of_app; right; by right).
  assert (Han : after n).
  { assert (H1 : compare_caps (C p) (C n) false <= 0) by (apply compare_true_le; unfold cte_lt in Hpn; lia).
    pose proof (compare_trans (0, base) (C p) (C n) false Hpos H1) as H2. unfold after.
    assert (compare_caps (0, base) (C n) false <> 0); [|lia]. intros E0. pose proof (compare_antisym (0, base) (C n) false) as E1.
    pose proof (compare_trans (C p) (C n) (0, base) false H1 ltac:(lia)) as H3. pose proof (compare_antisym (0, base) (C p) false) as E2.
    assert (Hp : p ∈ elements (root_of s)) by (rewrite El; apply elem_of_app; right; by left).
    assert (Hn : n ∈ elements (root_of s)) by (apply Hin; by left).
    assert (p = n) as ->.
    { eapply fmap_addr_inj; [by apply inv_nodup|done|done|]. rewrite (Honly p Hp), (Honly n Hn); [done|apply copy_iff; lia|apply copy_iff; lia]. }
    unfold cte_lt in Hpn. rewrite compare_refl in Hpn. lia. }
  apply StronglySorted_app_1_r in Hs. inversion_clear Hs as [|? ? _ Hall]. rewrite Forall_forall in Hall.
  rewrite (Hfirst n d) in Hend; [done|apply Hin; by left|apply Hin; by right|done|by apply Hall|done].
Qed.

(** C2: revoking a capability for memory, when no copy of it is locked or
    being deleted, no child of it is locked and the entries between its
    copies and its last child in the database are all children, fails no
    assertion and succeeds: the revoked slot stays, all its other copies are
    deleted, every child is deleted or on its way to be, nothing new
    appears, and what is neither copy nor child nor mapping stays. The
    database satisfies its invariant (all capabilities owned by this core,
    those for memory nested or disjoint), and the message to the monitor is
    sent or its buffer is full. With a locked copy the code panics; this
    case is not covered. *)
Theorem caps_mark_revoke_correct s : inv s -> c ∈ elements (root_of s) -> copies_idle s -> children_first s -> children_unlocked s ->
  exists s', caps_mark_revoke me can_deliver deliver base (Some (cte_addr c)) s = Done (SYS_ERR_OK, s') /\ inv s' /\ progress s s' /\
    type_at s' (cte_addr c) = h_type base /\
    (forall d, d ∈ elements (root_of s') -> copy d = true -> cte_addr d = cte_addr c) /\
    (forall d, d ∈ elements (root_of s') -> child d = true -> in_delete (kc s') (cte_addr d) = true).
Proof.
  intros Hinv Hc Hidle Hfirst Hunl. unfold caps_mark_revoke.
  rewrite (do_own _ (inv_ok _ Hinv) c Hc), Z.eqb_refl. cbn [assert mbind outcome_bind].
  destruct (find_copy s Hinv Hc) as (p & E & Hp & Hcp). rewrite E. clear E. fold (copy p). rewrite Hcp. cbn [orb negb].
  apply list_elem_of_split in Hp as (l1 & l2 & El).
  destruct (mark_copies_back (fuel_of s) s l1 p l2) as (s1 & p1 & l1' & l2' & E1 & Hinv1 & Hpr1 & Hidle1 & El1 & Hcp1 & Hc1 & Hno1); try done.
  { unfold fuel_of. rewrite El, length_app. cbn. lia. }
  rewrite E1. clear E1. cbn [mbind outcome_bind].
  destruct (mark_copies_forth (fuel_of s1) s1 l1' p1 l2') as (s2 & m1 & m2 & E2 & Hinv2 & Hpr2 & El2 & Hno2); try done.
  { unfold fuel_of. rewrite El1, length_app. cbn. lia. }
  rewrite E2. clear E2. cbn [mbind outcome_bind]. rewrite Z.eqb_refl. cbn [assert mbind outcome_bind].
  pose proof (progress_trans _ _ _ Hpr1 Hpr2) as Hpr. pose proof (loop_start s s2 m1 m2 Hinv2 Hpr Hfirst Hunl El2 Hno2) as Hla.
  rewrite (at_slot_elem s2 c (do_caps _ (inv_ok _ Hinv2))) by (rewrite El2; apply elem_of_app; right; by left).
  rewrite (copy_self : is_copy (cte_cap c) base = true). cbn [assert mbind outcome_bind].
  destruct (mark_descendants_ok (fuel_of s2) s2 m1 c m2 Hla) as (s3 & n1 & p3 & n2 & E3 & Hpr3 & Hla3 & Hend).
  { unfold fuel_of. rewrite El2, length_app. cbn. lia. }
  rewrite E3. clear E3. cbn [mbind outcome_bind]. exists s3. pose proof Hla3 as [Hinv3 _ _ Honly3 _ _ Hhere _ (c' & Hc' & Ea & Ec)].
  split.
  { destruct (bool_decide_reflect (Some (cte_addr p3) = Some (cte_addr c))) as [|Hne]; [done|]. destruct Hhere as [?| ->]; [congruence|done]. }
  split_and!; [done|by eapply progress_trans| |done|].
  - rewrite <- Ea, (type_at_elem s3 c' (do_caps _ (inv_ok _ Hinv3)) Hc'), Ec. done.
  - intros d Hd Hch. by eapply loop_end.
Qed.
End Revoke.
End Delete.

Module DeleteSample.
Import CapsSample.

(** RAM with a copy, and in it a smaller piece of RAM, a node, and a frame
    with its mapping; behind it a frame that nothing covers. *)
Definition ram_copy : cte := cte0 33600 2 1048576 65536.
Definition piece : cte := cte0 32832 2 1048576 4096.
Definition node : cte := cte0 32896 ObjType_L2CNode 1064960 16384.
Definition mapped : cte := cte0 32960 ObjType_Frame 1081344 4096.
Definition mapping : cte := cte0 33024 9 1081344 4096.
Definition lone : cte := cte0 33088 ObjType_Frame 2097152 4096.

Definition caps_of (l : list cte) (owner : Z) : kcaps :=
  KCaps (set_init_mapping l Nil) [] (fun _ => owner) (fun _ => false) (fun _ => false) (fun _ => CAPRIGHTS_ALLRIGHTS) (fun _ => (0, 0)) [] 1.
(** The monitor listens; the mapping refers to the slot of its frame. *)
Definition state_of (l : list cte) (owner : Z) : kdel :=
  KDel (caps_of l owner) 0 0 0 0 (fun _ => 0) (fun a => if a =? 33024 then 32960 else 0) [] [] [] 0 ObjType_EndPoint 4096.
Definition can (ms : list (list Z)) (n : Z) : errval := SYS_ERR_OK.
Definition del (ms : list (list Z)) (m : list Z) : errval := SYS_ERR_OK.

Lemma del_cases : forall ms m, del ms m = SYS_ERR_OK \/ err_no (del ms m) = Some SYS_ERR_LMP_BUF_OVERFLOW.
Proof. by left. Qed.

Definition d0 : kdel := state_of [l1; l2; ram; ram_copy; piece; node; mapped; mapping; lone] 0.

Lemma d0_elements : elements (root_of d0) = [l1; l2; ram; ram_copy; piece; node; mapped; mapping; lone].
Proof. vm_eq. Qed.

Lemma d0_all (P : cte -> Prop) : Forall P [l1; l2; ram; ram_copy; piece; node; mapped; mapping; lone] -> forall c, c ∈ elements (root_of d0) -> P c.
Proof. rewrite d0_elements. by rewrite Forall_forall. Qed.

Lemma d0_caps : kcaps_ok (kc d0).
Proof.
  constructor; [|done|vm_decide]. unfold d0. cbn [kc state_of caps_of mdb_root]. unfold set_init_mapping. cbn [fold_left].
  do 9 MdbCorrect.Sample.fresh_insert. apply MdbCorrect.Sample.nil_wf.
Qed.

Lemma d0_inv : inv 0 d0.
Proof.
  split; [constructor| |done].
  - exact d0_caps.
  - apply d0_all. unfold no_wrap. vm_decide.
  - intros c d Hc Hd. assert (H : forall c, c ∈ elements (root_of d0) -> Forall (laminar c) (elements (root_of d0))).
    { apply d0_all. rewrite d0_elements. unfold laminar. vm_decide. }
    specialize (H c Hc). rewrite Forall_forall in H. by apply H.
  - refine (d0_all (fun c => cte_addr c <> 0) _). vm_decide.
  - refine (d0_all (fun c => owner_of (kc d0) (cte_addr c) = 0) _). vm_decide.
  - refine (d0_all (fun c => type_is_mapping (h_type (cte_cap c)) = true -> locked (kc d0) (cte_addr c) = false /\ in_delete (kc d0) (cte_addr c) = false
      /\ remote_copies c = false /\ 0 <= h_eq0 (cte_cap c) < 2 ^ 32) _). vm_decide.
  - refine (d0_all (fun c => type_is_mapping (h_type (cte_cap c)) = true -> next_of d0 (cte_addr c) = 0) _). vm_decide.
Qed.

Lemma d0_at n c : [l1; l2; ram; ram_copy; piece; node; mapped; mapping; lone] !! n = Some c -> c ∈ elements (root_of d0).
Proof. rewrite d0_elements. apply list_elem_of_lookup_2. Qed.

Definition result_of (m : outcome (errval * kdel)) : kdel := match m with Done (_, s) => s | Fault _ => d0 end.

Lemma ok_result_of m : (if m is Done ([], _) then true else false) = true -> m = Done (SYS_ERR_OK, result_of m).
Proof. by destruct m as [[[] ?]|]. Qed.

(** The frame goes with its mapping. *)
Lemma caps_delete_correct_witness : exists s', caps_delete 0 can del 32960 d0 = Done (SYS_ERR_OK, s') /\ type_at s' 32960 = ObjType_Null
  /\ elements (root_of s') = [l1; l2; ram; ram_copy; piece; node; lone].
Proof.
  destruct (caps_delete_correct 0 can del del_cases d0 mapped (inv_ok _ _ d0_inv) (inv_maps _ _ d0_inv) (d0_at 6 _ eq_refl) eq_refl)
    as (e & s' & E & H). set (s1 := result_of (caps_delete 0 can del 32960 d0)).
  assert (E1 : caps_delete 0 can del 32960 d0 = Done (SYS_ERR_OK, s1)) by (apply ok_result_of; by vm_compute).
  assert (E2 : elements (root_of s1) = [l1; l2; ram; ram_copy; piece; node; lone]) by vm_eq. clearbody s1.
  change (cte_addr mapped) with 32960 in *. rewrite E1 in E. injection E as <- <-. exists s1. split; [exact E1|].
  destruct H as [[H _]|(_ & _ & Ht & _)]; [discriminate H|exact (conj Ht E2)].
Defined.

(** The last capability for a frame: the monitor gets its memory. *)
Lemma caps_delete_reclaims_witness : exists s', caps_delete 0 can del 33088 d0 = Done (SYS_ERR_OK, s') /\ messages s' = [[2097152; 4096]]
  /\ (fin mapped <= 2097152 \/ 2101248 <= beg mapped).
Proof.
  set (s1 := result_of (caps_delete 0 can del 33088 d0)).
  assert (E1 : caps_delete 0 can del 33088 d0 = Done (SYS_ERR_OK, s1)) by (apply ok_result_of; by vm_compute).
  assert (E2 : elements (root_of s1) = [l1; l2; ram; ram_copy; piece; node; mapped; mapping]) by vm_eq.
  assert (E3 : messages s1 = [[2097152; 4096]]) by vm_eq. exists s1. split; [exact E1|]. clearbody s1.
  destruct (caps_delete_reclaims 0 can del del_cases d0 lone s1 (inv_ok _ _ d0_inv) (inv_maps _ _ d0_inv) (d0_at 8 _ eq_refl) eq_refl ltac:(done) E1)
    as [H|[_ H]]; [rewrite E3 in H; discriminate H|].
  split; [exact E3|]. apply (H mapped); [rewrite E2; do 6 right; by left|reflexivity].
Defined.

Lemma ram_idle : copies_idle ram d0.
Proof. intros c _ _. done. Qed.

Lemma ram_first : children_first ram d0.
Proof.
  intros x d Hx Hd. revert x Hx. assert (H : Forall (fun x => Forall (fun d => after ram x -> cte_lt x d -> is_ancestor (cte_cap d) (cte_cap ram) = true ->
    is_ancestor (cte_cap x) (cte_cap ram) = true) (elements (root_of d0))) (elements (root_of d0))).
  { rewrite d0_elements. unfold after, cte_lt. vm_decide. }
  rewrite Forall_forall in H. intros x Hx. specialize (H x Hx). rewrite Forall_forall in H. by apply H.
Qed.

(** The copy and the smaller pieces go, the node waits to be emptied. *)
Lemma caps_mark_revoke_correct_witness : exists s', caps_mark_revoke 0 can del (cte_cap ram) (Some 32768) d0 = Done (SYS_ERR_OK, s')
  /\ inv 0 s' /\ type_at s' 32768 = 2 /\ (cte_addr <$> elements (root_of s')) = [128; 16384; 32768; 32896; 33088] /\ delete_head s' = 32896.
Proof.
  destruct (caps_mark_revoke_correct 0 can del del_cases ram eq_refl eq_refl d0 d0_inv (d0_at 2 _ eq_refl) ram_idle ram_first ltac:(done))
    as (s' & E & Hinv & _ & Ht & _).
  change (cte_addr ram) with 32768 in *.
  assert (H : let s1 := result_of (caps_mark_revoke 0 can del (cte_cap ram) (Some 32768) d0) in
    (cte_addr <$> elements (root_of s1)) = [128; 16384; 32768; 32896; 33088] /\ delete_head s1 = 32896) by (split; vm_eq).
  rewrite E in H. exists s'. exact (conj E (conj Hinv (conj Ht H))).
Defined.
(** ** What goes wrong *)

Definition done_with {A} (m : outcome (A * kdel)) : kdel := match m with Done (_, s) => s | Fault _ => d0 end.
Definition left_over (s : kdel) : list Z := cte_addr <$> elements (root_of s).

(** A root node with another node in its first slot, marked, after one step
    of the deletion: the inner node is marked for deletion as well, but the
    delete list is empty. *)
Definition stepped : kdel :=
  done_with (s ← caps_mark_revoke_generic 0 can del 128 (state_of [l1; l2] 0); caps_delete_step 0 16 400 can del 32768 s).

Example delete_step_loses_entries :
  in_delete (kc stepped) 16384 = true /\ (delete_head stepped, delete_tail stepped) = (0, 0) /\ clear_head stepped = 128.
Proof. vm_decide. Qed.

(** The memory of the outer node is then given away while the inner node is
    still in the database, in a slot inside of that memory. *)
Example cleared_under_entry :
  (fun c => (cte_addr c, h_type (cte_cap c), h_address (cte_cap c), h_size (cte_cap c)))
    <$> elements (root_of (done_with (caps_clear_step 0 16 400 can del 32768 stepped)))
  = [(32768, 2, 16384, 16384); (16384, ObjType_L2CNode, 32768, 16384)].
Proof. vm_eq. Qed.

(** Of four copies of a foreign capability, one in each direction and the
    target are deleted, but not the fourth. *)
Example foreign_copies_left :
  left_over (done_with (caps_delete_foreigns 0 can del 32832
    (state_of [l1; cte0 32768 8 1048576 4096; cte0 32832 8 1048576 4096; cte0 32896 8 1048576 4096; cte0 32960 8 1048576 4096] 1))) = [128; 32960].
Proof. vm_eq. Qed.

(** A frame below RAM below a physical address range: the revocation of the
    range stops at the frame, and the second piece of RAM stays unmarked. *)
Definition revoked : kdel := done_with (caps_mark_revoke 0 can del (HCap 1 1048576 65536 0 0 0) (Some 33344)
  (state_of [cte0 33344 1 1048576 65536; cte0 32768 2 1048576 8192; cte0 32832 ObjType_Frame 1048576 4096; cte0 32896 2 1056768 8192] 0)).

Example revoke_stops_at_grandchild : (left_over revoked, in_delete (kc revoked) 32896) = ([33344; 32832; 32896], false).
Proof. vm_eq. Qed.

(** The last capability for a mapped frame: its memory is not given back. *)
Definition unmapped_frame : kdel := done_with (caps_delete 0 can del 32960 (state_of [mapped; mapping] 0)).

Example mapped_frame_lost : (left_over unmapped_frame, messages unmapped_frame) = ([], []).
Proof. vm_eq. Qed.
End DeleteSample.
