(* ===== verification/MonitorCorrect.v ===== *)
(** Proofs about the calls of the monitor ([Monitor]): locks and owners are
    kept the same on all copies, and what is locked is not deleted. *)
From S2P Require Import Prelude MdbTree Hamlet MdbInv MdbQuery MdbRel Caps CapDelete CapsCorrect CapDeleteCorrect Monitor.

(** * The loops over the copies *)

Section EachCopy.
(** The change of a slot, which leaves the database alone. *)
Context (set : Z -> kcaps -> kcaps) (set_keeps : forall a k, mdb_root (set a k) = mdb_root k).
Context (c : cte).

Abbreviation is_one := (copy_of (cte_cap c)).
Definition change (k : kcaps) (l : list cte) : kcaps := foldl (fun k d => set (cte_addr d) k) k l.

Lemma change_keeps l : forall k, mdb_root (change k l) = mdb_root k.
Proof. induction l as [|d l IH]; intros k; [done|]. cbn. by rewrite IH. Qed.

(** Behind an entry that is no copy there is none. *)
Abbreviation contiguous := (StronglySorted (fun d y => is_one y = true -> is_one d = true)).

Lemma copies_end n l : contiguous (n :: l) -> is_one n = false -> filter (fun d => is_one d = true) (n :: l) = [].
Proof.
  intros [_ Hall]%StronglySorted_inv Hn. rewrite Forall_forall in Hall. apply elem_of_nil_inv. intros d [Hd [->|Hin]%elem_of_cons]%list_elem_of_filter; [congruence|].
  rewrite (Hall d Hin Hd) in Hn. done.
Qed.

Lemma each_copy_forth l2 : forall fuel l1 cur k, mdb_wf (mdb_root k) -> elements (mdb_root k) = l1 ++ cur :: l2 -> (length l2 < fuel)%nat -> contiguous l2 ->
  each_copy fuel mdb_successor set c cur k =
  if existsb (fun d => negb (is_one d)) l2 then Done (change k (cur :: filter (fun d => is_one d = true) l2)) else Fault NullDereference.
Proof.
  induction l2 as [|n l2 IH]; intros [|fuel] l1 cur k Hwf El Hf Hs; try (cbn in Hf; lia); cbn [each_copy].
  - by rewrite set_keeps, (successor_head _ _ _ _ Hwf El).
  - rewrite set_keeps, (successor_head _ _ _ _ Hwf El). cbn [head existsb]. fold (is_one n). destruct (is_one n) eqn:En; cbn [negb orb].
    + rewrite filter_cons_True by done. rewrite (IH fuel (l1 ++ [cur]) n); rewrite ?set_keeps; [done|done|by rewrite <- app_assoc|cbn in Hf; lia|].
      by apply StronglySorted_inv in Hs as [? _].
    + by rewrite copies_end.
Qed.

Lemma each_copy_back l1 : forall fuel l2 cur k, mdb_wf (mdb_root k) -> elements (mdb_root k) = reverse l1 ++ cur :: l2 -> (length l1 < fuel)%nat -> contiguous l1 ->
  each_copy fuel mdb_predecessor set c cur k =
  if existsb (fun d => negb (is_one d)) l1 then Done (change k (cur :: filter (fun d => is_one d = true) l1)) else Fault NullDereference.
Proof.
  induction l1 as [|n l1 IH]; intros [|fuel] l2 cur k Hwf El Hf Hs; try (cbn in Hf; lia); cbn [each_copy].
  - by rewrite set_keeps, (predecessor_last _ _ _ _ Hwf El).
  - rewrite set_keeps, (predecessor_last _ _ _ _ Hwf El), last_reverse. cbn [head existsb]. fold (is_one n). destruct (is_one n) eqn:En; cbn [negb orb].
    + rewrite filter_cons_True by done. rewrite (IH fuel (cur :: l2) n); rewrite ?set_keeps; [done|done| |cbn in Hf; lia|].
      * by rewrite El, reverse_cons, <- app_assoc.
      * by apply StronglySorted_inv in Hs as [? _].
    + by rewrite copies_end.
Qed.

(** An entry that is no copy exists if the last one is none. *)
Lemma contiguous_last l : contiguous l -> existsb (fun d => negb (is_one d)) l = true <-> exists y, last l = Some y /\ is_one y = false.
Proof.
  intros Hs. rewrite existsb_exists. setoid_rewrite <- list_elem_of_In. split.
  - intros (d & Hd & Hn%negb_true_iff). destruct l as [|y l _] using rev_ind; [by apply elem_of_nil in Hd|]. exists y. rewrite last_snoc. split; [done|].
    apply not_true_iff_false. intros Hy. apply elem_of_app in Hd as [Hd| ->%list_elem_of_singleton]; [|congruence].
    rewrite (StronglySorted_app_1_elem_of _ _ _ _ y Hs Hd) in Hn; [done|by left|done].
  - intros (y & Hl & Hy). exists y. split; [by apply last_Some_elem_of|by rewrite Hy].
Qed.

(** On both sides of the capability the copies come first. *)
Lemma sides t l1 l2 : mdb_wf t -> elements t = l1 ++ c :: l2 -> contiguous (reverse l1) /\ contiguous l2 /\ is_one c = true.
Proof.
  intros (_ & _ & Hs & Hn & _) El. rewrite El in Hs, Hn. apply Forall_app in Hn as [Hn1 Hn2]. pose proof (Forall_inv Hn2) as Hc. split_and!.
  - apply copies_before; [|by rewrite Forall_app, Forall_singleton]. apply (StronglySorted_app_1_l _ _ l2). by rewrite <- app_assoc.
  - apply copies_after; [|done]. by apply StronglySorted_app_1_r in Hs.
  - exact (is_copy_nonnull 0 _ 0 _ Hc (compare_refl _ _)).
Qed.

Lemma existsb_reverse l : existsb (fun d => negb (is_one d)) (reverse l) = existsb (fun d => negb (is_one d)) l.
Proof. apply eq_true_iff_eq. rewrite !existsb_exists. setoid_rewrite <- list_elem_of_In. by setoid_rewrite elem_of_reverse. Qed.

(** Both loops together. *)
Lemma each_copy_both_spec k l1 l2 : mdb_wf (mdb_root k) -> elements (mdb_root k) = l1 ++ c :: l2 ->
  each_copy_both set c k =
  if existsb (fun d => negb (is_one d)) l1 && existsb (fun d => negb (is_one d)) l2
  then Done (change k (c :: filter (fun d => is_one d = true) (reverse l1) ++ c :: filter (fun d => is_one d = true) l2))
  else Fault NullDereference.
Proof.
  intros Hwf El. destruct (sides _ _ _ Hwf El) as (Hs1 & Hs2 & _). unfold each_copy_both.
  rewrite (each_copy_back (reverse l1) _ l2); [|done|by rewrite reverse_involutive|rewrite El, length_app, length_reverse; cbn; lia|done].
  rewrite existsb_reverse. destruct (existsb _ l1); cbn [andb]; [|done]. cbn [mbind outcome_bind].
  rewrite (each_copy_forth l2 _ l1); rewrite ?change_keeps; [|done|done|rewrite El, length_app; cbn; lia|done].
  destruct (existsb _ l2); [|done]. f_equal. symmetry. exact (foldl_app _ (c :: _) (c :: _) k).
Qed.
End EachCopy.

(** * Locks *)

(** [d] is a copy of [c] in the database. *)
Definition copy_in (s : kdel) (c : cte) (a : Z) : Prop := exists d, d ∈ elements (root_of s) /\ cte_addr d = a /\ is_copy (cte_cap d) (cte_cap c) = true.

#[global] Instance copy_in_dec s c a : Decision (copy_in s c a).
Proof.
  refine (cast_if (decide (Exists (fun d => cte_addr d = a /\ is_copy (cte_cap d) (cte_cap c) = true) (elements (root_of s)))));
    unfold copy_in; by rewrite <- Exists_exists.
Defined.

(** The copies do not reach to an end of the database. *)
Definition bordered (s : kdel) (c : cte) : Prop :=
  exists x y, head (elements (root_of s)) = Some x /\ last (elements (root_of s)) = Some y /\
    is_copy (cte_cap x) (cte_cap c) = false /\ is_copy (cte_cap y) (cte_cap c) = false.

Lemma change_locked lock l : forall k a, locked (change (write_locked lock) k l) a = if bool_decide (a ∈ addrs l) then lock else locked k a.
Proof.
  induction l as [|d l IH]; intros k a; [done|]. cbn [change foldl]. fold (change (write_locked lock) (write_locked lock (cte_addr d) k) l).
  rewrite IH. cbn [write_locked set_locked locked]. rewrite fmap_cons.
  destruct (decide (a = cte_addr d)) as [->|Hne].
  - rewrite fn_lookup_insert. rewrite (bool_decide_true (_ ∈ _ :: _)) by (by left). by case_bool_decide.
  - rewrite fn_lookup_insert_ne by done. assert (E : a ∈ cte_addr d :: addrs l <-> a ∈ addrs l) by (rewrite elem_of_cons; tauto).
    by rewrite (bool_decide_ext _ _ E). 
Qed.

Lemma change_writes lock l : forall k, change (write_locked lock) k l = set_locked (locked (change (write_locked lock) k l)) k.
Proof.
  induction l as [|d l IH]; intros k; [by destruct k|]. cbn [change foldl]. fold (change (write_locked lock) (write_locked lock (cte_addr d) k) l).
  rewrite IH at 1. done.
Qed.

Lemma bordered_iff s l1 c l2 : mdb_wf (root_of s) -> elements (root_of s) = l1 ++ c :: l2 ->
  bordered s c <-> existsb (fun d => negb (copy_of (cte_cap c) d)) l1 && existsb (fun d => negb (copy_of (cte_cap c) d)) l2 = true.
Proof.
  intros Hwf El. destruct (sides c _ _ _ Hwf El) as (Hs1 & Hs2 & Hc). rewrite andb_true_iff, <- existsb_reverse, !contiguous_last by done.
  unfold bordered. rewrite El, last_reverse, last_app_cons. split.
  - intros (x & y & Hx & Hy & Hnx & Hny). split; [exists x|exists y].
    + destruct l1; [|done]. injection Hx as <-. unfold copy_of in Hc. congruence.
    + destruct l2 as [|z l2]; [|done]. injection Hy as <-. unfold copy_of in Hc. congruence.
  - intros [(x & Hx & Hnx) (y & Hy & Hny)]. exists x, y. split_and!; [by destruct l1|by destruct l2|done|done].
Qed.

(** A lock is taken on exactly the copies. *)
Lemma lock_common_spec lock s c : kcaps_ok (kc s) -> c ∈ elements (root_of s) ->
  (bordered s c -> exists f, sys_lock_cap_common (cte_addr c) lock s = Done (with_kc (set_locked f (kc s)) s) /\
     (forall a, copy_in s c a -> f a = lock) /\ (forall a, ~ copy_in s c a -> f a = locked (kc s) a)) /\
  (~ bordered s c -> sys_lock_cap_common (cte_addr c) lock s = Fault NullDereference).
Proof.
  intros Hok Hc. unfold sys_lock_cap_common. rewrite (at_slot_elem s c Hok Hc). pose proof (ko_wf _ Hok) as Hwf.
  apply list_elem_of_split in Hc as (l1 & l2 & El). rewrite (bordered_iff s l1 c l2 Hwf El).
  rewrite (each_copy_both_spec (write_locked lock) (fun _ _ => eq_refl) c (kc s) l1 l2 Hwf El).
  destruct (_ && _); [|by split]. split; [intros _|done]. cbn [mbind outcome_bind]. set (l := c :: _).
  exists (locked (change (write_locked lock) (kc s) l)). split; [by rewrite <- change_writes|]. assert (Hl : forall a, a ∈ addrs l <-> copy_in s c a).
  { intros a. destruct (sides c _ _ _ Hwf El) as (_ & _ & Hself). unfold copy_in. rewrite El. subst l.
    rewrite list_elem_of_fmap. setoid_rewrite elem_of_cons. setoid_rewrite elem_of_app. setoid_rewrite elem_of_cons.
    setoid_rewrite list_elem_of_filter. setoid_rewrite elem_of_reverse. unfold copy_of in *.
    split; [intros (d & -> & Hd)|intros (d & Hd & <- & Hcp)]; exists d; (split_and!; [..]); try done; destruct_or?; subst; tauto. }
  split; intros a Ha; rewrite change_locked; apply Hl in Ha || rewrite <- Hl in Ha; [by rewrite bool_decide_true|by rewrite bool_decide_false].
Qed.

Section Locks.
Context (me dcb_cspace : Z) (can_deliver : list (list Z) -> Z -> errval) (deliver : list (list Z) -> list Z -> errval).
(** The addresses that the monitor passes for the target. *)
Context (root_addr root_level target_addr target_level : Z).

(** C34: a lock on a capability is taken on exactly its copies if the copies
    do not reach to an end of the mapping database.  Then no copy can be
    deleted, and unlocking restores all locks.  If they do reach to an end,
    the call dereferences a null pointer. *)
Theorem sys_lock_cap_correct s c : kcaps_ok (kc s) -> c ∈ elements (root_of s) ->
  sys_double_lookup dcb_cspace root_addr root_level target_addr target_level s = Done (SYS_ERR_OK, cte_addr c) ->
  (forall a, copy_in s c a -> locked (kc s) a = false) ->
  (bordered s c -> exists s', sys_lock_cap dcb_cspace root_addr root_level target_addr target_level s = Done (SYS_ERR_OK, s') /\
     root_of s' = root_of s /\ (forall a, copy_in s c a -> locked (kc s') a = true) /\ (forall a, ~ copy_in s c a -> locked (kc s') a = locked (kc s) a) /\
     (forall a, copy_in s c a -> caps_delete me can_deliver deliver a s' = Done (err SYS_ERR_CAP_LOCKED, s')) /\
     exists s'', sys_unlock_cap dcb_cspace root_addr root_level target_addr target_level s' = Done (SYS_ERR_OK, s'') /\ root_of s'' = root_of s /\
       forall a, locked (kc s'') a = locked (kc s) a) /\
  (~ bordered s c -> sys_lock_cap dcb_cspace root_addr root_level target_addr target_level s = Fault NullDereference).
Proof.
  intros Hok Hc El Hfree. destruct (lock_common_spec true s c Hok Hc) as [Hb Hnb]. unfold sys_lock_cap. rewrite El. cbn [mbind outcome_bind err_is_fail SYS_ERR_OK].
  assert (Hown : copy_in s c (cte_addr c)).
  { exists c. split_and!; [done|done|]. apply list_elem_of_split in Hc as (l1 & l2 & Ee). by apply (sides c _ _ _ (ko_wf _ Hok) Ee). }
  rewrite (Hfree _ Hown). split; [|intros H; by rewrite (Hnb H)]. intros H. destruct (Hb H) as (f & -> & Hin & Hout). cbn [mbind outcome_bind].
  set (s1 := with_kc (set_locked f (kc s)) s). exists s1. split_and!; [done..| |].
  - intros a Ha. unfold caps_delete, caps_delete_with. assert (E : locked (kc s1) a = true) by (by apply Hin). by rewrite E.
  - destruct (lock_common_spec false s1 c) as [Hu _]; [by destruct Hok|done|]. destruct (Hu H) as (g & Eg & Gin & Gout). unfold sys_unlock_cap.
    rewrite (El : sys_double_lookup dcb_cspace root_addr root_level target_addr target_level s1 = _). cbn [mbind outcome_bind err_is_fail SYS_ERR_OK].
    rewrite Eg. cbn [mbind outcome_bind]. eexists. split_and!; [done|done|]. cbn [kc with_kc locked set_locked].
    intros a. destruct (decide (copy_in s c a)) as [Ha|Ha]; [rewrite Gin by done; symmetry; by apply Hfree|]. rewrite Gout by done. by apply Hout.
Qed.
End Locks.

Module MonitorSample.
Import CapsSample DeleteSample.

Lemma ram_copies a : copy_in d0 ram a -> locked (kc d0) a = false.
Proof. done. Qed.

Lemma ram_bordered : bordered d0 ram.
Proof. exists l1, lone. rewrite d0_elements. split_and!; vm_eq. Qed.

(** The RAM and its copy are locked: the copy is not deleted. *)
Lemma sys_lock_cap_correct_witness : exists s', sys_lock_cap 128 0 0 0 2 d0 = Done (SYS_ERR_OK, s') /\
  caps_delete 0 can del 33600 s' = Done (err SYS_ERR_CAP_LOCKED, s').
Proof.
  destruct (sys_lock_cap_correct 0 128 can del 0 0 0 2 d0 ram d0_caps (d0_at 2 _ eq_refl) ltac:(vm_eq) ram_copies) as [H _].
  destruct (H ram_bordered) as (s' & E & _ & _ & _ & Hdel & _). exists s'. split; [exact E|].
  apply (Hdel 33600). exists ram_copy. split; [exact (d0_at 3 _ eq_refl)|]. split; vm_eq.
Defined.

(** The last entry of the database cannot be locked. *)
Example lock_last_faults : sys_lock_cap 128 0 0 5 2 d0 = Fault NullDereference.
Proof. vm_eq. Qed.

(** The domain of a dispatcher cannot be set: the depth of the lookup is
    given in bits. *)
Example domain_id_refused : sys_monitor_domain_id 128 0 7 d0 = Done (err SYS_ERR_CAP_LOOKUP_DEPTH, None).
Proof. vm_eq. Qed.

(** The slot behind the last one of a node is accepted. *)
Example retslot_outside : sys_retslot_lookup 128 0 1 256 d0 = Done (SYS_ERR_OK, 49152).
Proof. vm_eq. Qed.

(** A frame at the start of a range of physical addresses, but no RAM: the
    range counts as free. *)
Example retypeable_misses_grandchild :
  sys_monitor_is_retypeable (HCap 1 1048576 65536 0 0 0) 0 4096 1
    (state_of [cte0 33344 1 1048576 65536; cte0 32832 ObjType_Frame 1048576 4096] 0) = Done SYS_ERR_OK.
Proof. vm_eq. Qed.
(** A root node is replaced by a larger one: the dispatcher and the task's
    node refer to the new node, and the old one stays in the return slot. *)
Definition resized : kdel :=
  done_with (sys_resize_l1cnode 0 128 can del 32896 3 0 5
    (state_of [l1; l2; cte0 32896 ObjType_L1CNode 16384 16384; cte0 32960 ObjType_L1CNode 65536 32768] 0)).

Example resize_moves_root :
  (fun c => (cte_addr c, h_type (cte_cap c), h_address (cte_cap c))) <$> elements (root_of resized)
  = [(33088, 3, 16384); (16384, 4, 32768); (65536, 4, 32768); (128, 3, 65536); (32896, 3, 65536); (32960, 3, 65536)].
Proof. vm_eq. Qed.
End MonitorSample.
