(* ===== verification/LmpCorrect.v ===== *)
(** Proofs about local messages ([Lmp]): the endpoint buffer is a bounded
    queue of messages, the kernel writes only inside of it whatever the
    receiver stored there, and a message with a capability is delivered
    whole or not at all. *)
From S2P Require Import Prelude MdbTree Hamlet MdbInv MdbRel Caps CapDelete CapsCorrect CapDeleteCorrect Lmp.

(** * Positions in the ring *)

Lemma next_pos_mod pos n : 0 <= pos < n -> n < 2 ^ 32 -> next_pos pos n = (pos + 1) `mod` n.
Proof.
  intros Hp Hn. unfold next_pos. rewrite u32_small by lia. destruct (Z.eqb_spec (pos + 1) n) as [->|].
  - by rewrite Z.mod_same by lia.
  - rewrite Z.mod_small; lia.
Qed.

Lemma mod_shift pos n i : 0 < n -> ((pos + 1) `mod` n + Z.of_nat i) `mod` n = (pos + Z.of_nat (S i)) `mod` n.
Proof. intros. rewrite Zplus_mod_idemp_l. f_equal. lia. Qed.

Lemma mod_offset_inj c n i j : 0 <= i < n -> 0 <= j < n -> (c + i) `mod` n = (c + j) `mod` n -> i = j.
Proof.
  intros Hi Hj E. pose proof (Z.div_mod (c + i) n ltac:(lia)) as Ei. pose proof (Z.div_mod (c + j) n ltac:(lia)) as Ej. rewrite E in Ei.
  set (x := (c + i) / n) in *. set (y := (c + j) / n) in *.
  assert (H : i - j = n * (x - y)) by (rewrite Z.mul_sub_distr_l; lia). assert (x = y) by nia. lia.
Qed.

(** The words are written one behind the other, and nothing else changes. *)
Lemma put_words_spec l : forall pos n b pos' b', 0 <= pos < n -> n < 2 ^ 32 -> Z.of_nat (length l) <= n -> put_words l pos n b = (pos', b') ->
  pos' = (pos + Z.of_nat (length l)) `mod` n /\ (forall i w, l !! i = Some w -> b' ((pos + Z.of_nat i) `mod` n) = w) /\
  (forall a, (forall i, (i < length l)%nat -> a <> (pos + Z.of_nat i) `mod` n) -> b' a = b a).
Proof.
  induction l as [|w l IH]; intros pos n b pos' b' Hp Hn Hl E; cbn [put_words] in E.
  - injection E as <- <-. split_and!; [|done|done]. rewrite Z.add_0_r, Z.mod_small; lia.
  - rewrite next_pos_mod in E by done. cbn [length] in Hl. pose proof (Z.mod_pos_bound (pos + 1) n ltac:(lia)) as Hb.
    destruct (IH _ _ _ _ _ Hb Hn ltac:(lia) E) as (-> & Hw & Ho). split_and!.
    + rewrite mod_shift by lia. done.
    + intros [|i] x Hx.
      * injection Hx as <-. rewrite Ho; [|intros i Hi; rewrite mod_shift by lia; intros Hc; apply mod_offset_inj in Hc; lia].
        rewrite Z.add_0_r, Z.mod_small by lia. apply fn_lookup_insert.
      * rewrite <- mod_shift by lia. by apply Hw.
    + intros a Ha. rewrite Ho.
      * rewrite fn_lookup_insert_ne; [done|]. intros <-. apply (Ha 0%nat); [cbn; lia|]. rewrite Z.add_0_r, Z.mod_small; lia.
      * intros i Hi. rewrite mod_shift by lia. apply Ha. cbn. lia.
Qed.

Lemma take_words_spec m : forall pos n b, 0 <= pos < n -> n < 2 ^ 32 ->
  take_words m pos n b = ((fun i => b ((pos + Z.of_nat i) `mod` n)) <$> seq 0 m, (pos + Z.of_nat m) `mod` n).
Proof.
  induction m as [|m IH]; intros pos n b Hp Hn; cbn [take_words].
  - rewrite Z.add_0_r, Z.mod_small by lia. done.
  - rewrite next_pos_mod by done. rewrite IH by (done || apply Z.mod_pos_bound; lia). rewrite mod_shift by lia. f_equal.
    cbn [seq]. rewrite fmap_cons. f_equal; [by rewrite Z.add_0_r, Z.mod_small by lia|]. rewrite <- fmap_S_seq, <- list_fmap_compose.
    apply list_fmap_ext. intros i x _. cbn. by rewrite mod_shift by lia.
Qed.

(** * The buffer as a queue *)

Definition encode (m : lmp_recv_msg) : list Z := recv_header (has_cap m) (Z.of_nat (length (words m))) :: words m.

Record holds (n : Z) (e : lmp_endpoint_kern) (q : list lmp_recv_msg) : Prop := {
  ho_size : 0 < n < 2 ^ 32;
  ho_consumed : 0 <= consumed e < n;
  ho_room : Z.of_nat (length (q ≫= encode)) < n;
  ho_delivered : delivered e = (consumed e + Z.of_nat (length (q ≫= encode))) `mod` n;
  ho_words : forall i w, (q ≫= encode) !! i = Some w -> buf e ((consumed e + Z.of_nat i) `mod` n) = w;
  ho_short : Forall (fun m => Z.of_nat (length (words m)) < 256) q
}.

Lemma header_length_spec c len : 0 <= len < 256 -> header_length (recv_header c len) = len.
Proof.
  intros Hl. unfold header_length, recv_header. rewrite (u8_small len) by lia.
  replace (((if c then 1 else 0) + 256 * len) / 256) with len by (apply (Z.div_unique_pos _ _ _ (if c then 1 else 0)); destruct c; lia).
  by apply u8_small.
Qed.

Lemma header_captransfer_spec c len : header_captransfer (recv_header c len) = c.
Proof. unfold header_captransfer, recv_header. rewrite Z.odd_add, Z.odd_mul. by destruct c. Qed.

(** The free words, as the kernel computes them. *)
Lemma can_deliver_spec n e q len : holds n e q -> 0 <= len < 2 ^ 32 - 1 ->
  can_deliver n len e = if n - Z.of_nat (length (q ≫= encode)) <=? len + 1 then err SYS_ERR_LMP_BUF_OVERFLOW else SYS_ERR_OK.
Proof.
  intros [Hn Hc Hr Hd _ _] Hl. set (u := Z.of_nat (length (q ≫= encode))) in *. assert (0 <= u) by lia.
  pose proof (Z.mod_pos_bound (consumed e + u) n ltac:(lia)) as Hb. rewrite <- Hd in Hb. unfold can_deliver, LMP_RECV_HEADER_LENGTH. zdecide. cbn [orb].
  rewrite (u32_small (len + 1)) by lia.
  assert (Es : (if consumed e <=? delivered e then u32 (n - u32 (delivered e - consumed e)) else u32 (consumed e - delivered e)) = n - u).
  { destruct (Z.ltb_spec (consumed e + u) n) as [Hlt|Hge].
    - rewrite Z.mod_small in Hd by lia. rewrite Hd. zdecide. rewrite (u32_small (_ - consumed e)) by lia. rewrite u32_small; lia.
    - assert (Hd' : delivered e = consumed e + u - n).
      { rewrite Hd. symmetry. apply (Z.mod_unique_pos _ _ 1); lia. }
      rewrite Hd'. zdecide. rewrite u32_small; lia. }
  by rewrite Es.
Qed.

(** A message is put at the end of the queue. *)
Lemma put_message_spec n e q m : holds n e q -> Z.of_nat (length (words m)) < 256 -> Z.of_nat (length (words m)) + 1 < n - Z.of_nat (length (q ≫= encode)) ->
  holds n (put_message n (words m) (has_cap m) e) (q ++ [m]).
Proof.
  intros [Hn Hc Hr Hd Hw Hs] Hm Hfit. unfold put_message. set (u := Z.of_nat (length (q ≫= encode))) in *. assert (0 <= u) by lia.
  pose proof (Z.mod_pos_bound (consumed e + u) n ltac:(lia)) as Hb. rewrite <- Hd in Hb.
  change (recv_header (has_cap m) (Z.of_nat (length (words m))) :: words m) with (encode m).
  assert (Hlm : Z.of_nat (length (encode m)) = Z.of_nat (length (words m)) + 1) by (cbn; lia).
  destruct (put_words (encode m) (delivered e) n (buf e)) as [pos' b'] eqn:E.
  destruct (put_words_spec (encode m) _ _ _ _ _ Hb ltac:(lia) ltac:(lia) E) as (-> & Hnew & Hold).
  assert (Eq : (q ++ [m]) ≫= encode = (q ≫= encode) ++ encode m) by (rewrite bind_app; cbn; by rewrite app_nil_r).
  assert (Hpos : forall i, (delivered e + i) `mod` n = (consumed e + (u + i)) `mod` n) by (intros i; rewrite Hd, Zplus_mod_idemp_l; f_equal; lia).
  constructor; cbn [delivered consumed buf recv_cspc recv_cptr]; rewrite ?Eq, ?length_app, ?Nat2Z.inj_add; fold u; [lia|done|lia| | |].
  - rewrite Hpos. done.
  - intros i w Hi. apply lookup_app_Some in Hi as [Hi|[Hge Hi]].
    + rewrite Hold; [by apply Hw|]. intros j Hj. rewrite Hpos. apply lookup_lt_Some in Hi. intros Ej. apply mod_offset_inj in Ej; lia.
    + rewrite <- (Hnew _ _ Hi), Hpos. f_equal. f_equal. unfold u. lia.
  - apply Forall_app. split; [done|]. by apply Forall_singleton.
Qed.

(** The receiver takes the first message. *)
Lemma recv_queue n e m q u : holds n e (m :: q) -> (has_cap m = true -> recv_cptr e <> 0) ->
  if u <? Z.of_nat (length (words m)) then lmp_endpoint_recv n u e = Done (err LIB_ERR_LMP_RECV_BUF_OVERFLOW, None, e)
  else exists e', lmp_endpoint_recv n u e = Done (SYS_ERR_OK, Some m, e') /\ holds n e' q.
Proof.
  intros [Hn Hc Hr Hd Hw Hs] Hcap. apply Forall_cons in Hs as [Hm Hs]. change ((m :: q) ≫= encode) with (encode m ++ (q ≫= encode)) in *.
  rewrite length_app, Nat2Z.inj_add in Hr, Hd. set (u' := Z.of_nat (length (q ≫= encode))) in *. assert (0 <= u') by lia.
  assert (Hlm : Z.of_nat (length (encode m)) = Z.of_nat (length (words m)) + 1) by (cbn; lia).
  assert (Hne : lmp_endpoint_can_recv e = true).
  { unfold lmp_endpoint_can_recv. rewrite Hd. apply negb_true_iff, Z.eqb_neq. intros E.
    rewrite <- (Z.mod_small (consumed e) n), <- (Z.add_0_r (consumed e)) in E at 2 by lia. apply mod_offset_inj in E; lia. }
  assert (Hraw : buf e (consumed e) = recv_header (has_cap m) (Z.of_nat (length (words m)))).
  { rewrite <- (Hw 0%nat _ eq_refl). f_equal. rewrite Z.add_0_r, Z.mod_small; lia. }
  unfold lmp_endpoint_recv. rewrite Hne, Hraw, header_length_spec by lia. zdecide. cbn [negb assert mbind outcome_bind].
  destruct (u <? Z.of_nat (length (words m))); [done|].
  rewrite next_pos_mod by lia. rewrite take_words_spec by (lia || apply Z.mod_pos_bound; lia). rewrite Nat2Z.id, mod_shift, header_captransfer_spec by lia.
  assert (Ewords : (fun i => buf e (((consumed e + 1) `mod` n + Z.of_nat i) `mod` n)) <$> seq 0 (length (words m)) = words m).
  { apply list_eq. intros i. rewrite list_lookup_fmap. destruct (decide (i < length (words m))%nat) as [Hi|Hi].
    - rewrite lookup_seq_lt by done. destruct (lookup_lt_is_Some_2 _ _ Hi) as [w Hwi]. cbn. rewrite mod_shift by lia. rewrite Hwi. f_equal.
      apply Hw. rewrite lookup_app_l by (cbn; lia). done.
    - rewrite lookup_seq_ge, lookup_ge_None_2 by lia. done. }
  rewrite Ewords. set (pos := (consumed e + Z.of_nat (S (length (words m)))) `mod` n).
  assert (Hq : forall r1 r2, holds n (EpKern r1 r2 (delivered e) pos (buf e)) q).
  { assert (Hsh : forall i, (pos + i) `mod` n = (consumed e + (Z.of_nat (length (encode m)) + i)) `mod` n)
      by (intros i; unfold pos; rewrite Zplus_mod_idemp_l; f_equal; lia).
    intros r1 r2. constructor; cbn [delivered consumed buf]; fold u'; [lia|unfold pos; apply Z.mod_pos_bound; lia|lia| | |done].
    - rewrite Hd, Hsh. done.
    - intros i w Hi. rewrite Hsh. replace (Z.of_nat (length (encode m)) + Z.of_nat i) with (Z.of_nat (length (encode m) + i)) by lia. apply Hw.
      rewrite lookup_app_r by lia. rewrite <- Hi. f_equal. lia. }
  destruct m as [w [|]]; cbn [has_cap words] in *.
  - zdecide. cbn [negb assert mbind outcome_bind]. eauto.
  - eauto.
Qed.

Lemma recv_empty n e u : holds n e [] -> lmp_endpoint_recv n u e = Done (err LIB_ERR_NO_LMP_MSG, None, e).
Proof.
  intros [Hn Hc Hr Hd _ _]. cbn in Hd. rewrite Z.add_0_r, Z.mod_small in Hd by lia. unfold lmp_endpoint_recv, lmp_endpoint_can_recv. by rewrite Hd, Z.eqb_refl.
Qed.

(** ** Sequences of operations *)

Inductive lmp_op := Deliver (payload : list Z) | Recv (user_buflen : Z).

Definition with_ep_mem (m : Z -> lmp_endpoint_kern) (s : lmp) : lmp := Lmp (kd s) (disp_of s) m (lmp_delivered s) (lmp_hint s) (woken s).

(** An operation of the kernel or of the receiver on the endpoint [ep]. *)
Definition run_op (ep : Z) (op : lmp_op) (s : lmp) : outcome ((errval * option lmp_recv_msg) * lmp) :=
  match op with
  | Deliver p => '(e, s) ← lmp_deliver_payload ep p false false s; Done ((e, None), s)
  | Recv u =>
    let a := recv_ep s ep in
    '(e, m, k) ← lmp_endpoint_recv (epbuflen_of s ep) u (ep_mem s a);
    Done ((e, m), with_ep_mem (<[a := k]> (ep_mem s)) s)
  end.

Fixpoint run_ops (ep : Z) (ops : list lmp_op) (s : lmp) : outcome (list (errval * option lmp_recv_msg) * lmp) :=
  match ops with
  | [] => Done ([], s)
  | op :: ops => '(r, s) ← run_op ep op s; '(rs, s) ← run_ops ep ops s; Done (r :: rs, s)
  end.

(** The bounded queue: a message occupies one word more than its length, and
    one word stays free. *)
Definition used_words (q : list lmp_recv_msg) : Z := Z.of_nat (length (q ≫= encode)).

Definition queue_op (n : Z) (op : lmp_op) (q : list lmp_recv_msg) : (errval * option lmp_recv_msg) * list lmp_recv_msg :=
  match op with
  | Deliver p => if n <=? used_words q + Z.of_nat (length p) + 1 then ((err SYS_ERR_LMP_BUF_OVERFLOW, None), q)
                 else ((SYS_ERR_OK, None), q ++ [RecvMsg p false])
  | Recv u =>
    match q with
    | [] => ((err LIB_ERR_NO_LMP_MSG, None), q)
    | m :: q' => if u <? Z.of_nat (length (words m)) then ((err LIB_ERR_LMP_RECV_BUF_OVERFLOW, None), q) else ((SYS_ERR_OK, Some m), q')
    end
  end.

Fixpoint queue_ops (n : Z) (ops : list lmp_op) (q : list lmp_recv_msg) : list (errval * option lmp_recv_msg) * list lmp_recv_msg :=
  match ops with
  | [] => ([], q)
  | op :: ops => let '(r, q) := queue_op n op q in let '(rs, q) := queue_ops n ops q in (r :: rs, q)
  end.

(** The endpoint capability has a receiver with a buffer. *)
Record ready (ep : Z) (s : lmp) : Prop := {
  rd_type : type_at (kd s) ep = ObjType_EndPoint;
  rd_listener : listener s ep <> 0;
  rd_disp : disp_of s (listener s ep) <> 0;
  rd_offset : epoffset s ep <> 0
}.

Definition small_op (op : lmp_op) : Prop := match op with Deliver p => Z.of_nat (length p) < 256 | Recv _ => True end.

(** The receiver gets no capabilities here. *)
Record linked_queue (ep : Z) (s : lmp) (q : list lmp_recv_msg) : Prop := {
  lq_ready : ready ep s;
  lq_holds : holds (epbuflen_of s ep) (ep_mem s (recv_ep s ep)) q;
  lq_plain : Forall (fun m => has_cap m = false) q
}.

Lemma run_op_refines ep op s q : linked_queue ep s q -> small_op op ->
  exists s', run_op ep op s = Done ((queue_op (epbuflen_of s ep) op q).1, s') /\ linked_queue ep s' (queue_op (epbuflen_of s ep) op q).2 /\
    epbuflen_of s' ep = epbuflen_of s ep.
Proof.
  intros [Hrd Hho Hpl] Hsm. pose proof Hrd as [Ht Hl Hdi Ho]. destruct op as [p|u]; cbn [run_op queue_op].
  - unfold lmp_deliver_payload, lmp_can_deliver_payload. rewrite Ht. zdecide. cbn [negb orb Z.eqb ObjType_EndPoint Pos.eqb assert mbind outcome_bind].
    cbn in Hsm. pose proof (ho_size _ _ _ Hho). rewrite (can_deliver_spec _ _ q) by (done || lia). fold (used_words q).
    replace (epbuflen_of s ep - used_words q <=? Z.of_nat (length p) + 1) with (epbuflen_of s ep <=? used_words q + Z.of_nat (length p) + 1)
      by (apply eq_true_iff_eq; rewrite !Z.leb_le; lia).
    destruct (Z.leb_spec (epbuflen_of s ep) (used_words q + Z.of_nat (length p) + 1)) as [Hov|Hfit]; cbn [err_is_fail err SYS_ERR_OK mbind outcome_bind fst snd].
    + eexists. split; [done|]. done.
    + eexists. split; [done|]. split; [|done]. constructor; [done| |].
      * unfold recv_ep, epbuflen_of, listener, epoffset in *. cbn [kd disp_of ep_mem]. rewrite fn_lookup_insert.
        apply (put_message_spec _ _ q (RecvMsg p false)); [done|done|]. cbn [words]. unfold used_words in Hfit. lia.
      * apply Forall_app. split; [done|]. by apply Forall_singleton.
  - destruct q as [|m q].
    + rewrite (recv_empty _ _ u Hho). cbn [mbind outcome_bind fst snd]. eexists. split; [done|]. split; [|done]. constructor; [done| |done].
      unfold recv_ep, epbuflen_of, listener, epoffset in *. cbn [kd disp_of ep_mem with_ep_mem]. by rewrite fn_lookup_insert.
    + apply Forall_cons in Hpl as [Hm Hpl]. pose proof (recv_queue _ _ m q u Hho ltac:(congruence)) as Hr.
      destruct (u <? Z.of_nat (length (words m))).
      * rewrite Hr. cbn [mbind outcome_bind fst snd]. eexists. split; [done|]. split; [|done]. constructor; [done| |by apply Forall_cons].
        unfold recv_ep, epbuflen_of, listener, epoffset in *. cbn [kd disp_of ep_mem with_ep_mem]. by rewrite fn_lookup_insert.
      * destruct Hr as (e' & -> & Hho'). cbn [mbind outcome_bind fst snd]. eexists. split; [done|]. split; [|done]. constructor; [done| |done].
        unfold recv_ep, epbuflen_of, listener, epoffset in *. cbn [kd disp_of ep_mem with_ep_mem]. by rewrite fn_lookup_insert.
Qed.

(** C7: an endpoint buffer refines a bounded queue of messages.  In every
    sequence of deliveries by the kernel and receptions by the listener, each
    operation returns the error and the message that the queue returns:
    messages are received whole and in the order of delivery, and a delivery
    is refused exactly when its words do not fit. *)
Theorem lmp_refines_queue ep ops : forall s q, linked_queue ep s q -> Forall small_op ops ->
  exists s', run_ops ep ops s = Done ((queue_ops (epbuflen_of s ep) ops q).1, s') /\ linked_queue ep s' (queue_ops (epbuflen_of s ep) ops q).2.
Proof.
  induction ops as [|op ops IH]; intros s q Hlq Hsm; cbn [run_ops queue_ops]; [by exists s|]. apply Forall_cons in Hsm as [Hop Hsm].
  destruct (run_op_refines ep op s q Hlq Hop) as (s1 & -> & Hlq1 & En). cbn [mbind outcome_bind]. destruct (queue_op (epbuflen_of s ep) op q) as [r q1]. cbn [fst snd] in *.
  destruct (IH s1 q1 Hlq1 Hsm) as (s2 & E2 & Hlq2). rewrite En in E2, Hlq2. destruct (queue_ops (epbuflen_of s ep) ops q1) as [rs q2]. cbn [fst snd] in *.
  rewrite E2. cbn [mbind outcome_bind]. by exists s2.
Qed.

(** * A hostile receiver *)

(** C27: whatever positions the receiver stored in its buffer, a delivery
    writes only words of that buffer and the position of the kernel: other
    buffers, the words behind the end, and the receiver's own fields stay. *)
Theorem lmp_deliver_in_bounds ep payload captransfer now s e s' : let a := recv_ep s ep in
  0 <= delivered (ep_mem s a) -> 0 <= consumed (ep_mem s a) -> epbuflen_of s ep < 2 ^ 32 -> Z.of_nat (length payload) < 2 ^ 32 - 1 ->
  lmp_deliver_payload ep payload captransfer now s = Done (e, s') ->
  kd s' = kd s /\ (forall b, b <> a -> ep_mem s' b = ep_mem s b) /\
  (forall i, i < 0 \/ epbuflen_of s ep <= i -> buf (ep_mem s' a) i = buf (ep_mem s a) i) /\
  consumed (ep_mem s' a) = consumed (ep_mem s a) /\ recv_cspc (ep_mem s' a) = recv_cspc (ep_mem s a) /\ recv_cptr (ep_mem s' a) = recv_cptr (ep_mem s a) /\
  (e = SYS_ERR_OK -> 0 <= delivered (ep_mem s' a) < epbuflen_of s ep).
Proof.
  intros a Hd Hc Hn Hl E. unfold lmp_deliver_payload in E. destruct (type_at (kd s) ep =? ObjType_EndPoint) eqn:Ht; [|done].
  cbn [assert mbind outcome_bind] in E. destruct (negb (listener s ep =? 0)) eqn:Hli; [|done]. cbn [assert mbind outcome_bind] in E.
  unfold lmp_can_deliver_payload in E. rewrite Ht, Hli in E. cbn [assert mbind outcome_bind] in E.
  destruct (_ || _); [cbn in E; by injection E as <- <-|]. cbn [mbind outcome_bind] in E. fold a in E.
  destruct (can_deliver (epbuflen_of s ep) (Z.of_nat (length payload)) (ep_mem s a)) as [|x l] eqn:Ec; cbn [err_is_fail] in E; [|by injection E as <- <-].
  injection E as <- <-. cbn [kd ep_mem]. set (n := epbuflen_of s ep) in *. set (k := ep_mem s a) in *.
  assert (Hfit : delivered k < n /\ Z.of_nat (length payload) + 1 < n).
  { unfold can_deliver, LMP_RECV_HEADER_LENGTH in Ec. destruct (Z.leb_spec n (delivered k)); [done|]. destruct (Z.leb_spec n (consumed k)); [done|]. cbn [orb] in Ec.
    rewrite (u32_small (_ + 1)) in Ec by lia. destruct (Z.leb_spec (consumed k) (delivered k)).
    - rewrite (u32_small (delivered k - _)), u32_small in Ec by lia. destruct (Z.leb_spec (n - (delivered k - consumed k)) (Z.of_nat (length payload) + 1)); [done|lia].
    - rewrite (u32_small (consumed k - delivered k)) in Ec by lia. destruct (Z.leb_spec (consumed k - delivered k) (Z.of_nat (length payload) + 1)); [done|lia]. }
  split; [done|]. split; [intros b Hb; by rewrite fn_lookup_insert_ne|]. rewrite fn_lookup_insert. unfold put_message.
  destruct (put_words _ (delivered k) n (buf k)) as [pos' b'] eqn:Ep.
  pose proof (put_words_spec (recv_header captransfer (Z.of_nat (length payload)) :: payload) (delivered k) n (buf k) pos' b') as Hp.
  destruct (Hp ltac:(lia) Hn ltac:(cbn [length]; lia) Ep) as (-> & _ & Hold). cbn [buf consumed recv_cspc recv_cptr delivered].
  split_and!; try done; [|intros _; apply Z.mod_pos_bound; lia..].
  intros i Hi. apply Hold. intros j _ ->. pose proof (Z.mod_pos_bound (delivered k + Z.of_nat j) n ltac:(lia)). lia.
Qed.

(** * Messages with a capability *)

Lemma lookup_nonnull root cptr level rights k a : level <> 0 -> caps_lookup_slot root cptr level rights k = Done (SYS_ERR_OK, a) -> slot_type k a <> ObjType_Null.
Proof.
  intros Hl E. unfold caps_lookup_slot in E. destruct (2 <? level); [done|]. apply Z.eqb_neq in Hl. rewrite Hl in E.
  destruct (negb (slot_type k root =? ObjType_L1CNode)); [done|]. destruct (cnode_get_slots _) as [slots|]; [|done]. cbn [mbind outcome_bind] in E.
  destruct (slots <=? _); [done|]. destruct (negb (Z.land _ _ =? _)); [done|]. set (l2 := caps_locate_slot _ _) in E.
  destruct (level =? 1).
  - destruct (Z.eqb_spec (slot_type k l2) ObjType_Null) as [|Hne]; [done|]. by injection E as <-.
  - destruct (slot_type k l2 =? ObjType_Null); [done|]. destruct (negb (slot_type k l2 =? ObjType_L2CNode)); [done|].
    destruct (negb (Z.land _ _ =? _)); [done|]. set (x := caps_locate_slot _ _) in E.
    destruct (Z.eqb_spec (slot_type k x) ObjType_Null) as [|Hne]; [done|]. by injection E as <-.
Qed.

Section Deliver.
Context (me dcb_cspace : Z) (can_deliver : list (list Z) -> Z -> errval) (deliver : list (list Z) -> list Z -> errval).

(** What a copy leaves of another slot. *)
Lemma copy_keeps dest src k k' a : kcaps_ok k -> kcaps_ok k' -> slot_type k dest = ObjType_Null -> slot_type k a <> ObjType_Null ->
  elements (mdb_root k') ≡ₚ copy_entry dest src k :: elements (mdb_root k) -> endpoint_of k' = <[dest := endpoint_of k src]> (endpoint_of k) ->
  slot k' a = slot k a /\ endpoint_of k' a = endpoint_of k a.
Proof.
  intros Hok Hok' Hd Ha Hp He. assert (Hne : a <> dest) by congruence. rewrite He, fn_lookup_insert_ne by done. split; [|done].
  pose proof (slot_type_null k a (kcaps_slots k Hok)) as Hn. destruct (Z.eqb_spec (slot_type k a) ObjType_Null) as [|_]; [done|].
  assert (Hin : a ∈ addrs (used k)) by (destruct (decide (a ∈ addrs (used k))) as [|H]; [done|by apply Hn in H]).
  apply list_elem_of_fmap in Hin as (c & -> & Hc). rewrite (slot_used k c (kcaps_slots k Hok) Hc). apply slot_used; [by apply kcaps_slots|].
  unfold used in *. rewrite (ko_loose _ Hok), app_nil_r in Hc. rewrite (ko_loose _ Hok'), app_nil_r, Hp. by right.
Qed.

(** The slot that the receiver named: the entry [recv_cptr mod 256] of the
    second-level node in the entry [recv_cptr / 256] of the first-level node
    that [recv_cspc] stands for in the receiver's capability space. *)
Definition named (ep : Z) (s : lmp) (dest : Z) : Prop :=
  let e := ep_mem s (recv_ep s ep) in let k := kc (kd s) in
  exists root node, resolves k CAPRIGHTS_READ_WRITE (u32 (listener s ep + dcb_cspace)) (recv_cspc e) 2 root /\
    slot_type k root = ObjType_L1CNode /\ recv_cptr e / 256 < u32 (h_size (cte_cap (slot k root)) / OBJSIZE_CTE) /\
    node = u32 (h_get_address (cte_cap (slot k root)) + OBJSIZE_CTE * (recv_cptr e / 256)) /\ slot_type k node = ObjType_L2CNode /\
    dest = u32 (h_get_address (cte_cap (slot k node)) + OBJSIZE_CTE * (recv_cptr e mod 256)).

Lemma locate_at cnode i : caps_locate_slot cnode i = u32 (cnode + OBJSIZE_CTE * i).
Proof. unfold caps_locate_slot, u32, wrap. by rewrite Zplus_mod_idemp_r. Qed.

(** The slot that the sender's address stands for, and the copy of it in the
    slot that the receiver named. *)
Definition transferred (ep send send_cptr send_level : Z) (s s' : lmp) : Prop :=
  exists src dest, named ep s dest /\ caps_lookup_slot (u32 (send + dcb_cspace)) send_cptr send_level CAPRIGHTS_READ (kc (kd s)) = Done (SYS_ERR_OK, src) /\
    slot_type (kc (kd s)) dest = ObjType_Null /\ kcaps_ok (kc (kd s')) /\ slot (kc (kd s')) dest = copy_entry dest src (kc (kd s)) /\
    elements (root_of (kd s')) ≡ₚ copy_entry dest src (kc (kd s)) :: elements (root_of (kd s)) /\
    endpoint_of (kc (kd s')) = <[dest := endpoint_of (kc (kd s)) src]> (endpoint_of (kc (kd s))).

Lemma transfer_cases ep send send_cptr send_level s : kcaps_ok (kc (kd s)) -> ready ep s -> send <> 0 -> 0 <= send_cptr < 2 ^ 32 -> send_cptr <> 0 -> 1 <= send_level ->
  0 <= recv_cspc (ep_mem s (recv_ep s ep)) < 2 ^ 32 -> (forall a, in_delete (kc (kd s)) a = false) ->
  exists e s', lmp_transfer_cap me dcb_cspace can_deliver deliver ep send send_cptr send_level false s = Done (e, s') /\
    ((err_is_fail e = true /\ s' = s) \/ (e = SYS_ERR_OK /\ (exists k, s' = with_kd (with_kc k (kd s)) s) /\ transferred ep send send_cptr send_level s s')).
Proof.
  intros Hok [Ht Hl Hdi Ho] Hsend Hcp Hcp0 Hlev Hrc Hdel. unfold lmp_transfer_cap. rewrite Ht. zdecide. cbn [negb Z.eqb ObjType_EndPoint Pos.eqb assert mbind outcome_bind].
  unfold caps_lookup_cap. set (k := kc (kd s)) in *. set (e := ep_mem s (recv_ep s ep)) in *.
  destruct (lookup_cases k CAPRIGHTS_READ_WRITE (u32 (listener s ep + dcb_cspace)) (recv_cspc e) 2 Hrc ltac:(lia)) as (e1 & cs & -> & Hroot). cbn [mbind outcome_bind].
  destruct (err_is_fail e1 || _) eqn:E1; [eexists _, _; split; [done|by left]|]. apply orb_false_iff in E1 as [Ee1 E1]. rewrite Ee1 in Hroot. destruct Hroot as [-> Hroot]. apply negb_false_iff in E1.
  assert (Esl : cnode_get_slots (cte_cap (slot k cs)) = Done (u32 (h_size (cte_cap (slot k cs)) / OBJSIZE_CTE))).
  { unfold cnode_get_slots. unfold slot_type in E1. cbn [cap_type hamlet] in E1. by rewrite E1. }
  rewrite Esl. cbn [mbind outcome_bind]. rewrite (Z.shiftr_div_pow2 _ L2_CNODE_BITS), Z.land_ones by (unfold L2_CNODE_BITS; lia). change (2 ^ L2_CNODE_BITS) with 256.
  destruct (Z.leb_spec (u32 (h_size (cte_cap (slot k cs)) / OBJSIZE_CTE)) (recv_cptr e / 256)) as [|Hidx]; [eexists _, _; split; [done|by left]|].
  destruct (Z.eqb_spec (slot_type k (caps_locate_slot (h_get_address (cte_cap (slot k cs))) (recv_cptr e / 256))) ObjType_L2CNode) as [Enode|]; cbn [negb]; [|eexists _, _; split; [done|by left]]. set (dest := caps_locate_slot _ (recv_cptr e mod 256)).
  assert (Hnamed : named ep s dest).
  { exists cs, (caps_locate_slot (h_get_address (cte_cap (slot k cs))) (recv_cptr e / 256)). rewrite <- !locate_at. split_and!; [by apply Hroot|by apply Z.eqb_eq|done..]. }
  destruct (lookup_cases k CAPRIGHTS_READ (u32 (send + dcb_cspace)) send_cptr send_level Hcp ltac:(lia)) as (e2 & src & E2 & H2). rewrite E2. cbn [mbind outcome_bind].
  destruct (err_is_fail e2) eqn:Ef2; [eexists _, _; split; [done|by left]|]. destruct H2 as [-> _].
  destruct (Z.eqb_spec (slot_type k dest) ObjType_Null) as [Hnull|]; cbn [negb]; [|eexists _, _; split; [done|by left]].
  assert (Hdr : 0 <= dest < 2 ^ 32) by (unfold dest, caps_locate_slot; apply u32_range).
  assert (Hl0 : send_level <> 0) by lia. pose proof (lookup_nonnull _ _ _ _ _ _ Hl0 E2) as Hsrc.
  destruct (copy_cases dest src k Hok (Hdel src) Hdr) as (e3 & k' & -> & [(? & _)|[(_ & ? & _)|(_ & _ & -> & Hok' & Hp & Hs & _ & _ & _ & _ & He)]]); [done|done|].
  cbn [mbind outcome_bind err_is_ok err_is_fail SYS_ERR_OK negb assert]. eexists _, _. split; [done|]. right. split; [done|]. split; [by exists k'|].
  exists src, dest. split_and!; done.
Qed.

(** C17: a message to an endpoint with a receiver and a buffer, with or
    without a copy of a capability (give_away is false), while no capability
    is being deleted, is delivered whole, the payload in the buffer and the
    copy of the capability in exactly the slot that the receiver named in
    its buffer, which was empty, or fails without any change. Giving the
    capability away, which deletes the sender's copy and fails an assertion
    if that is locked (give_away_locked), is not covered. *)
Theorem lmp_deliver_atomic ep send payload send_cptr send_level s : kcaps_ok (kc (kd s)) -> ready ep s -> send <> 0 -> 0 <= send_cptr < 2 ^ 32 -> 1 <= send_level ->
  0 <= recv_cspc (ep_mem s (recv_ep s ep)) < 2 ^ 32 -> (forall a, in_delete (kc (kd s)) a = false) ->
  exists e s', lmp_deliver me dcb_cspace can_deliver deliver ep send payload send_cptr send_level false s = Done (e, s') /\
    ((err_is_fail e = true /\ s' = s) \/
     (e = SYS_ERR_OK /\
      ep_mem s' (recv_ep s ep) = put_message (epbuflen_of s ep) payload (negb (send_cptr =? 0)) (ep_mem s (recv_ep s ep)) /\
      (send_cptr = 0 -> kd s' = kd s) /\ (send_cptr <> 0 -> transferred ep send send_cptr send_level s s'))).
Proof.
  intros Hok Hrd Hsend Hcp Hlev Hrc Hdel. pose proof Hrd as [Ht Hl Hdi Ho]. unfold lmp_deliver, lmp_deliver_payload, lmp_can_deliver_payload.
  rewrite Ht. zdecide. cbn [negb orb Z.eqb ObjType_EndPoint Pos.eqb assert mbind outcome_bind].
  set (c := Lmp.can_deliver (epbuflen_of s ep) (Z.of_nat (length payload)) (ep_mem s (recv_ep s ep))).
  destruct (Z.eqb_spec send_cptr 0) as [->|Hne]; cbn [negb].
  - destruct (err_is_fail c) eqn:Ec; cbn [mbind outcome_bind]; [eexists _, _; split; [done|by left]|].
    eexists _, _. split; [done|]. right. cbn [ep_mem kd]. rewrite fn_lookup_insert. done.
  - destruct (err_is_fail c) eqn:Ec; cbn [mbind outcome_bind]; [eexists _, _; split; [done|by left]|].
    destruct (transfer_cases ep send send_cptr send_level s Hok Hrd Hsend Hcp Hne Hlev Hrc Hdel) as (e1 & s1 & -> & Hcase). cbn [mbind outcome_bind].
    destruct Hcase as [[Hf ->]|(-> & [k' ->] & Htr)]; [rewrite Hf; eexists _, _; split; [done|by left]|]. cbn [err_is_fail SYS_ERR_OK].
    pose proof Htr as (src & dest & _ & _ & Hnull & Hok' & _ & Hp & He).
    assert (Hep : slot_type (kc (kd s)) ep <> ObjType_Null) by (unfold type_at in Ht; rewrite Ht; done).
    destruct (copy_keeps dest src _ _ ep Hok Hok' Hnull Hep Hp He) as [Eslot Eend].
    set (s1 := with_kd (with_kc k' (kd s)) s) in *. change (kc (kd s1)) with k' in Eslot, Eend.
    assert (E1 : type_at (kd s1) ep = ObjType_EndPoint) by (rewrite <- Ht; unfold type_at, slot_type; change (kc (kd s1)) with k'; by rewrite Eslot).
    assert (E2 : listener s1 ep = listener s ep) by (unfold listener, at_slot; change (kc (kd s1)) with k'; by rewrite Eslot).
    assert (E3 : epoffset s1 ep = epoffset s ep) by (unfold epoffset; change (kc (kd s1)) with k'; by rewrite Eend).
    assert (E4 : epbuflen_of s1 ep = epbuflen_of s ep) by (unfold epbuflen_of; change (kc (kd s1)) with k'; by rewrite Eend).
    assert (E5 : recv_ep s1 ep = recv_ep s ep) by (unfold recv_ep; by rewrite E2, E3).
    rewrite E1, E2, E3, E4, E5. change (disp_of s1) with (disp_of s). change (ep_mem s1) with (ep_mem s). zdecide.
    cbn [negb orb Z.eqb ObjType_EndPoint Pos.eqb assert mbind outcome_bind]. fold c. rewrite Ec. cbn [mbind outcome_bind err_is_ok err_is_fail SYS_ERR_OK negb assert].
    eexists _, _. split; [done|]. right. cbn [ep_mem kd]. rewrite fn_lookup_insert. split_and!; [done|done|done|done].
Qed.
End Deliver.

Module LmpSample.
Import CapsSample DeleteSample.

(** Two dispatchers with the same root node, and the endpoint of the second,
    whose buffer has twelve words. *)
Definition root_copy : cte := cte0 66624 ObjType_L1CNode 16384 16384.
Definition endpoint : cte := cte0 33152 ObjType_EndPoint 66560 0.
Definition ep_caps (owner : Z) (lock : Z -> bool) : kcaps :=
  KCaps (set_init_mapping [l1; root_copy; l2; l1_copy; ram; frame; endpoint] Nil) [] (fun _ => owner) lock (fun _ => false)
        (fun _ => CAPRIGHTS_ALLRIGHTS) (fun a => if a =? 33152 then (256, 12) else (0, 0)) [] 1.
Definition ep_state (lock : Z -> bool) (e : lmp_endpoint_kern) : lmp :=
  Lmp (KDel (ep_caps 0 lock) 0 0 0 0 (fun _ => 0) (fun _ => 0) [] [] [] 0 ObjType_EndPoint 4096) (fun r => if r =? 66560 then 131072 else 0)
      (fun a => if a =? 131328 then e else endpoint_init (fun _ => 0)) (fun _ => 0) (fun _ => 0) [].
Definition empty : lmp_endpoint_kern := lmp_endpoint_set_recv_slot 5 9 (endpoint_init (fun _ => 0)).
Definition s0 : lmp := ep_state (fun _ => false) empty.

Lemma s0_ready : ready 33152 s0.
Proof. constructor; vm_decide. Qed.

Lemma s0_linked : linked_queue 33152 s0 [].
Proof.
  constructor; [exact s0_ready| |done]. constructor; [vm_decide|vm_decide|vm_decide|vm_eq| |done]. intros i w Hi. done.
Qed.

Lemma s0_caps : kcaps_ok (kc (kd s0)).
Proof.
  constructor; [|done|vm_decide]. unfold s0. cbn [kd kc ep_state ep_caps mdb_root]. unfold set_init_mapping. cbn [fold_left].
  do 7 MdbCorrect.Sample.fresh_insert. apply MdbCorrect.Sample.nil_wf.
Qed.

(** The third message does not fit until the first is received; then it goes
    around the end of the buffer. *)
Definition traffic : list lmp_op := [Deliver [1; 2; 3; 4]; Deliver [5; 6; 7]; Deliver [8; 9; 10]; Recv 3; Recv 9; Deliver [8; 9; 10]; Recv 9; Recv 9; Recv 9].

Lemma lmp_refines_queue_witness : exists s', run_ops 33152 traffic s0 = Done ([
    (SYS_ERR_OK, None); (SYS_ERR_OK, None); (err SYS_ERR_LMP_BUF_OVERFLOW, None); (err LIB_ERR_LMP_RECV_BUF_OVERFLOW, None);
    (SYS_ERR_OK, Some (RecvMsg [1; 2; 3; 4] false)); (SYS_ERR_OK, None); (SYS_ERR_OK, Some (RecvMsg [5; 6; 7] false));
    (SYS_ERR_OK, Some (RecvMsg [8; 9; 10] false)); (err LIB_ERR_NO_LMP_MSG, None)], s') /\ linked_queue 33152 s' [].
Proof. apply (lmp_refines_queue 33152 traffic s0 [] s0_linked). repeat constructor. Defined.

(** A receiver that moved its own position back does not get the kernel to
    write behind the end. *)
Definition hostile : lmp := ep_state (fun _ => false) (EpKern 5 9 11 2 (fun _ => 7)).
Definition lmp_of (m : outcome (errval * lmp)) : lmp := match m with Done (_, s) => s | Fault _ => s0 end.

Lemma lmp_of_ok m : (if m is Done ([], _) then true else false) = true -> m = Done (SYS_ERR_OK, lmp_of m).
Proof. by destruct m as [[[] ?]|]. Qed.

Lemma lmp_deliver_in_bounds_witness : exists s', lmp_deliver_payload 33152 [1] false true hostile = Done (SYS_ERR_OK, s')
  /\ buf (ep_mem s' 131328) 12 = 7 /\ buf (ep_mem s' 131328) 0 = 1 /\ delivered (ep_mem s' 131328) = 1.
Proof.
  set (s' := lmp_of (lmp_deliver_payload 33152 [1] false true hostile)).
  assert (E : lmp_deliver_payload 33152 [1] false true hostile = Done (SYS_ERR_OK, s')) by (apply lmp_of_ok; by vm_compute).
  exists s'. split; [exact E|].
  destruct (lmp_deliver_in_bounds 33152 [1] false true hostile SYS_ERR_OK s' ltac:(vm_decide) ltac:(vm_decide) ltac:(vm_decide) ltac:(vm_decide) E)
    as (_ & _ & H & _).
  split; [exact (H 12 ltac:(vm_decide))|split; vm_eq].
Defined.

(** The frame is copied into the slot that the receiver named. *)
Lemma lmp_deliver_atomic_witness : exists s', lmp_deliver 0 64 can del 33152 64 [42] 1 2 false s0 = Done (SYS_ERR_OK, s')
  /\ transferred 64 33152 64 1 2 s0 s' /\ slot (kc (kd s')) 33344 = Cte 33344 (cte_cap frame) false false false.
Proof.
  destruct (lmp_deliver_atomic 0 64 can del 33152 64 [42] 1 2 s0 s0_caps s0_ready ltac:(vm_decide) ltac:(vm_decide) ltac:(vm_decide) ltac:(vm_decide) ltac:(done))
    as (e & s' & E & H).
  set (s1 := lmp_of (lmp_deliver 0 64 can del 33152 64 [42] 1 2 false s0)).
  assert (E1 : lmp_deliver 0 64 can del 33152 64 [42] 1 2 false s0 = Done (SYS_ERR_OK, s1)) by (apply lmp_of_ok; by vm_compute).
  assert (E2 : slot (kc (kd s1)) 33344 = Cte 33344 (cte_cap frame) false false false) by vm_eq. clearbody s1.
  rewrite E1 in E. injection E as <- <-. exists s1. split; [exact E1|]. split; [|exact E2].
  destruct H as [[H _]|(_ & _ & _ & H)]; [discriminate H|apply H; vm_decide].
Defined.

(** A message with a capability, and its reception. *)
Example capability_received :
  lmp_endpoint_recv 12 9 (ep_mem (lmp_of (lmp_deliver 0 64 can del 33152 64 [42] 1 2 false s0)) 131328)
  = Done (SYS_ERR_OK, Some (RecvMsg [42] true), lmp_endpoint_set_recv_slot 0 0
      (EpKern 5 9 2 2 (buf (ep_mem (lmp_of (lmp_deliver 0 64 can del 33152 64 [42] 1 2 false s0)) 131328)))).
Proof. vm_eq. Qed.

(** ** What goes wrong *)

(** A sender that gives away a locked capability stops the kernel, with the
    copy already made. *)
Example give_away_locked : lmp_deliver 0 64 can del 33152 64 [42] 1 2 true (ep_state (fun a => a =? 32832) empty) = Fault AssertionFailed.
Proof. vm_eq. Qed.

(** The user-level delivery writes four words behind a header that announces
    none. *)
Example lrpc_announces_nothing : (fun e => (header_length (buf e 0), [buf e 1; buf e 2; buf e 3; buf e 4]))
  <$> (match lmp_endpoint_store_lrpc_disabled 12 0 1 2 3 4 empty with Done e => Some e | Fault _ => None end) = Some (0, [1; 2; 3; 4]).
Proof. vm_eq. Qed.
End LmpSample.
