(* ===== verification/Urpc.v ===== *)
(** Messages between cores through shared memory: usr/init/lib_urpc2.c, and
    the users of it in usr/init/lib_urpc.c.

    Two ring buffers of 32 entries carry the messages, one in each direction;
    a flag in the entry says whose it is.  Both cores run the same thread
    ([urpc2_internal]).  A step of a core is one round of its outer loop or
    one round of the loop of [core_send] or [core_recv] that it is in: a
    round works on one entry, which the flag gives to one core at a time.
    Memory is taken to be sequentially consistent. *)
From S2P Require Import Prelude MdbRel.

Definition MSG_WAITING : Z := 1.
Definition MSG_BEGIN_BLOCK : Z := 2.
Definition MSG_END_BLOCK : Z := 4.
Definition MSG_HAS_SIZE_INT32 : Z := 8.
Definition MSG_HAS_SIZE_INT64 : Z := 16.
Definition RINGSIZE : Z := 32.
Definition ENTRY : Z := 63.

Record ringbuffer_entry := Entry { flags : Z; entry : list Z }.

Record urpc2_data := Data { type : Z; id : Z; size_in_bytes : Z; index : Z; data : list Z }.

Inductive urpc2_states := BUFFER_FULL | BUFFER_EMPTY | DONE_WITH_TASK | WORKING.

Definition init_urpc2_data (type id size_in_bytes : Z) (d : list Z) : urpc2_data := Data type id size_in_bytes 0 d.

(** Little-endian numbers in memory. *)
Fixpoint le_split (n : nat) (x : Z) : list Z :=
  match n with O => [] | S n => x `mod` 256 :: le_split n (x / 256) end.
Fixpoint le_combine (l : list Z) : Z :=
  match l with [] => 0 | b :: l => b + 256 * le_combine l end.

(** [memcpy] of [n] bytes from the offset [i] of [l]; outside of [l] it is
    out of bounds. *)
Definition read (l : list Z) (i n : Z) : outcome (list Z) :=
  if (0 <=? i) && (0 <=? n) && (i + n <=? Z.of_nat (length l)) then Done (take (Z.to_nat n) (drop (Z.to_nat i) l)) else Fault OutOfBounds.
(** [memcpy] of [src] to the offset [i] of a buffer of [cap] bytes, of which
    the first ones are [l]. *)
Definition write (cap : Z) (l : list Z) (i : Z) (src : list Z) : outcome (list Z) :=
  if (0 <=? i) && (i <=? Z.of_nat (length l)) && (i + Z.of_nat (length src) <=? cap)
  then Done (take (Z.to_nat i) l ++ src ++ drop (Z.to_nat i + length src) l) else Fault OutOfBounds.

Definition slot_at (ring : list ringbuffer_entry) (i : Z) : outcome ringbuffer_entry :=
  match ring !! Z.to_nat i with Some e => Done e | None => Fault OutOfBounds end.
Definition put_at (i : Z) (e : ringbuffer_entry) (ring : list ringbuffer_entry) : list ringbuffer_entry := <[Z.to_nat i := e]> ring.

Definition idle_ring (ring : list ringbuffer_entry) : Prop :=
  length ring = 32%nat /\ Forall (fun e => length (entry e) = 63%nat /\ has_bit (flags e) MSG_WAITING = false) ring.

(** * One entry *)

(** The rest of the message fits the entry ([smallRem]). *)
Definition small_rem (d : urpc2_data) : bool :=
  (size_in_bytes d <=? u64 (index d + 63)) && ((0 <? index d) || (size_in_bytes d <=? 61)).

(** The size, the type and the identifier in front of the first bytes. *)
Definition send_header (d : urpc2_data) : Z * list Z :=
  if negb (index d =? 0) then (0, []) else
  let '(f, size) := if (61 <? size_in_bytes d) && (size_in_bytes d <? 2 ^ 32) then (MSG_HAS_SIZE_INT32, le_split 4 (size_in_bytes d))
                    else if 2 ^ 32 <=? size_in_bytes d then (MSG_HAS_SIZE_INT64, le_split 8 (size_in_bytes d))
                    else (0, []) in
  (Z.lor MSG_BEGIN_BLOCK f, size ++ [type d; id d]).

(** A round of [core_send]. *)
Definition send_entry (d : urpc2_data) (current_send : Z) (ring : list ringbuffer_entry)
  : outcome (urpc2_states * urpc2_data * Z * list ringbuffer_entry) :=
  e ← slot_at ring current_send;
  if has_bit (flags e) MSG_WAITING then Done (BUFFER_FULL, d, current_send, ring) else
  let small := small_rem d in
  let '(fh, header) := send_header d in
  let f := Z.lor (if small then MSG_END_BLOCK else 0) fh in
  let index_in_buffer := Z.of_nat (length header) in
  let len := if small then u8 (size_in_bytes d - index d) else 63 - index_in_buffer in
  payload ← read (data d) (index d) len;
  b ← write ENTRY (entry e) 0 (header ++ payload);
  let d := Data (type d) (id d) (size_in_bytes d) (u64 (index d + len)) (data d) in
  let ring := put_at current_send (Entry (Z.lor f MSG_WAITING) b) ring in
  Done (if size_in_bytes d <=? index d then DONE_WITH_TASK else WORKING, d, (current_send + 1) `mod` RINGSIZE, ring).

(** The flag is taken back: the entry belongs to the sender again. *)
Definition release (e : ringbuffer_entry) : ringbuffer_entry := Entry (Z.land (flags e) (Z.lnot MSG_WAITING)) (entry e).

(** The first entry of a message of several: the number of bytes that were
    read. *)
Definition recv_header (d : urpc2_data) (e : ringbuffer_entry) : outcome (urpc2_data * Z) :=
  '(size, i) ← (if has_bit (flags e) MSG_HAS_SIZE_INT32 then
                  b ← read (entry e) 0 4;
                  Done (Z.shiftl (Z.shiftr (size_in_bytes d) 32) 32 + le_combine b, 4)
                else if has_bit (flags e) MSG_HAS_SIZE_INT64 then b ← read (entry e) 0 8; Done (le_combine b, 8)
                else Fault AssertionFailed);
  h ← read (entry e) i 2;
  match h with
  | [t; x] => Done (Data t x size (index d) [], i + 2)
  | _ => Fault OutOfBounds
  end.

(** A round of [core_recv]; the last component is what the handler got.  A
    message of one entry is handled with the size 61, in place. *)
Definition recv_entry (d : urpc2_data) (current_receive : Z) (ring : list ringbuffer_entry)
  : outcome (urpc2_states * urpc2_data * Z * list ringbuffer_entry * option urpc2_data) :=
  e ← slot_at ring current_receive;
  if negb (has_bit (flags e) MSG_WAITING) then Done (BUFFER_EMPTY, d, current_receive, ring, None) else
  let ring' := put_at current_receive (release e) ring in
  let next := (current_receive + 1) `mod` RINGSIZE in
  if (index d =? 0) && has_bit (flags e) MSG_END_BLOCK then
    b ← read (entry e) 0 ENTRY;
    match b with
    | t :: x :: b => let d := Data t x 61 (index d) b in Done (DONE_WITH_TASK, d, next, ring', Some d)
    | _ => Fault OutOfBounds
    end
  else
  '(d, i) ← (if index d =? 0 then recv_header d e else Done (d, 0));
  let len := if small_rem d then u8 (size_in_bytes d - index d) else 63 - i in
  payload ← read (entry e) i len;
  b ← write (u32 (size_in_bytes d)) (data d) (index d) payload;
  let d := Data (type d) (id d) (size_in_bytes d) (u64 (index d + len)) b in
  if size_in_bytes d <=? index d then Done (DONE_WITH_TASK, d, next, ring', Some d)
  else Done (WORKING, d, next, ring', None).

(** * A core *)

Section Core.
(** What the functions that make messages work on. *)
Context {Raw : Type}.

Record urpc2_send_queue := SendObj { func : Raw -> urpc2_data; rawdata : Raw; cachedata : option urpc2_data }.

(** Where the thread is: in the outer loop, in [core_send], or in
    [core_recv] with the data it works on, which is [usd_store] or not. *)
Inductive location := Outer | Sending | Receiving (usd : urpc2_data) (stored : bool).

Record core := Core {
  current_send : Z; current_receive : Z;
  send_queue : list urpc2_send_queue; sendobj : option urpc2_send_queue;
  usd_store : urpc2_data; usd_store_used : bool;
  where_is : location;
  handled : list urpc2_data            (** what the handler was called with *)
}.

Definition set_send (cur : Z) (q : list urpc2_send_queue) (o : option urpc2_send_queue) (w : location) (c : core) : core :=
  Core cur (current_receive c) q o (usd_store c) (usd_store_used c) w (handled c).
Definition set_recv (cur : Z) (store : urpc2_data) (used : bool) (w : location) (h : list urpc2_data) (c : core) : core :=
  Core (current_send c) cur (send_queue c) (sendobj c) store used w h.

Definition enqueue (f : Raw -> urpc2_data) (d : Raw) (c : core) : core :=
  set_send (current_send c) (send_queue c ++ [SendObj f d None]) (sendobj c) (where_is c) c.

Definition queue_empty (c : core) : bool := match send_queue c with [] => true | _ => false end.

Definition dequeue (c : core) : outcome (urpc2_send_queue * list urpc2_send_queue) :=
  match send_queue c with [] => Fault AssertionFailed | o :: q => Done (o, q) end.

Definition urpc2_enqueue (f : Raw -> urpc2_data) (d : Raw) (c : core) : core := enqueue f d c.

(** [hasDataInit] and the data. *)
Definition cached (o : urpc2_send_queue) : urpc2_data := default (func o (rawdata o)) (cachedata o).

(** A round of the outer loop; [stack] is what the variable [usd] on the
    stack happens to hold. *)
Definition outer_round (stack : urpc2_data) (c : core) (tx rx : list ringbuffer_entry) : outcome core :=
  r ← slot_at rx (current_receive c);
  s ← slot_at tx (current_send c);
  let waiting := has_bit (flags r) MSG_WAITING in
  let nothing := match sendobj c with None => queue_empty c | Some _ => false end in
  if negb waiting && (nothing || has_bit (flags s) MSG_WAITING) then Done c
  else if waiting then
    Done (set_recv (current_receive c) (usd_store c) (usd_store_used c)
            (if usd_store_used c then Receiving (usd_store c) true
             else Receiving (Data (type stack) (id stack) (size_in_bytes stack) 0 (data stack)) false) (handled c) c)
  else
    '(o, q) ← (match sendobj c with Some o => Done (o, send_queue c) | None => dequeue c end);
    let d := cached o in
    ASSERT size_in_bytes d <? 2 ^ 63;
    Done (set_send (current_send c) q (Some (SendObj (func o) (rawdata o) (Some d))) Sending c).

(** A round of [core_send], and what [urpc2_internal] does when it returns. *)
Definition send_round (c : core) (tx : list ringbuffer_entry) : outcome (core * list ringbuffer_entry) :=
  match sendobj c with
  | None => Fault NullDereference
  | Some o =>
    '(state, d, cur, tx) ← send_entry (cached o) (current_send c) tx;
    let o := SendObj (func o) (rawdata o) (Some d) in
    Done (match state with
          | DONE_WITH_TASK => set_send cur (send_queue c) None Outer c
          | WORKING => set_send cur (send_queue c) (Some o) Sending c
          | _ => set_send cur (send_queue c) (Some o) Outer c
          end, tx)
  end.

(** A round of [core_recv], and what [urpc2_internal] does when it returns. *)
Definition recv_round (usd : urpc2_data) (stored : bool) (c : core) (rx : list ringbuffer_entry) : outcome (core * list ringbuffer_entry) :=
  '(state, d, cur, rx, h) ← recv_entry usd (current_receive c) rx;
  let hs := match h with Some m => handled c ++ [m] | None => handled c end in
  let store := if stored then d else usd_store c in
  Done (match state with
        | DONE_WITH_TASK => set_recv cur store false Outer hs c
        | WORKING => set_recv cur store (usd_store_used c) (Receiving d stored) hs c
        | _ => set_recv cur d true Outer hs c
        end, rx).

(** A step of a core: the core and the ring buffers it sends on and receives
    from. *)
Definition core_step (stack : urpc2_data) (c : core) (tx rx : list ringbuffer_entry)
  : outcome (core * list ringbuffer_entry * list ringbuffer_entry) :=
  match where_is c with
  | Outer => c ← outer_round stack c tx rx; Done (c, tx, rx)
  | Sending => '(c, tx) ← send_round c tx; Done (c, tx, rx)
  | Receiving usd stored => '(c, rx) ← recv_round usd stored c rx; Done (c, tx, rx)
  end.

(** * Two cores *)

Record system := System { lcore : core; rcore : core; to_right : list ringbuffer_entry; to_left : list ringbuffer_entry }.

Definition step_left (stack : urpc2_data) (s : system) : outcome system :=
  '(c, tx, rx) ← core_step stack (lcore s) (to_right s) (to_left s); Done (System c (rcore s) tx rx).
Definition step_right (stack : urpc2_data) (s : system) : outcome system :=
  '(c, tx, rx) ← core_step stack (rcore s) (to_left s) (to_right s); Done (System (lcore s) c rx tx).

(** Both cores take a step. *)
Definition round (stack : urpc2_data) (s : system) : outcome system := s ← step_left stack s; step_right stack s.

Fixpoint rounds (n : nat) (stack : urpc2_data) (s : system) : outcome system :=
  match n with O => Done s | S n => s ← round stack s; rounds n stack s end.

Definition start_core : core := Core 0 0 [] None (Data 0 0 0 0 []) false Outer [].

(** The states that the two cores reach with ring buffers in which nothing
    waits, if the variable on the stack satisfies [P] and the messages [M].
    Any thread of a core can queue a message at any time.  The lists are the
    messages that were queued on each core. *)
Inductive reach (P M : urpc2_data -> Prop) : list urpc2_data -> list urpc2_data -> system -> Prop :=
| Reach_start tr tl : idle_ring tr -> idle_ring tl -> reach P M [] [] (System start_core start_core tr tl)
| Reach_left stack ml mr s s' : reach P M ml mr s -> P stack -> step_left stack s = Done s' -> reach P M ml mr s'
| Reach_right stack ml mr s s' : reach P M ml mr s -> P stack -> step_right stack s = Done s' -> reach P M ml mr s'
| Reach_queue_left f d ml mr s : reach P M ml mr s -> M (f d) ->
    reach P M (ml ++ [f d]) mr (System (urpc2_enqueue f d (lcore s)) (rcore s) (to_right s) (to_left s))
| Reach_queue_right f d ml mr s : reach P M ml mr s -> M (f d) ->
    reach P M ml (mr ++ [f d]) (System (lcore s) (urpc2_enqueue f d (rcore s)) (to_right s) (to_left s)).
End Core.
Arguments urpc2_send_queue : clear implicits.
Arguments core : clear implicits.
Arguments system : clear implicits.

(** * The users of the channel (usr/init/lib_urpc.c) *)

(** [enum urpc_type] *)
Definition send_string : Z := 0.
Definition term_send_char : Z := 1.
Definition term_buff_consume : Z := 2.
Definition term_set_line : Z := 3.
Definition term_set_direct : Z := 4.
Definition remote_spawn : Z := 5.
Definition init_mem_alloc : Z := 6.
Definition register_process : Z := 7.
Definition rpc_over_urpc : Z := 8.
Definition rpc_perf_measurement : Z := 9.

(** A message with a string, which ends with a zero byte. *)
Definition string_message (t : Z) (str : list Z) : urpc2_data := init_urpc2_data t 0 (Z.of_nat (length str) + 1) (str ++ [0]).
Definition send_string_func (str : list Z) : urpc2_data := string_message send_string str.
Definition send_register_process_func (name : list Z) : urpc2_data := string_message register_process name.
Definition spawnprocess_internal (name : list Z) : urpc2_data := string_message remote_spawn name.
Definition term_sendchar_func (c : Z) : urpc2_data := init_urpc2_data term_send_char 0 1 [c].
Definition term_consume_func : urpc2_data := init_urpc2_data term_buff_consume 0 0 [].
Definition term_line_mode_func : urpc2_data := init_urpc2_data term_set_line 0 0 [].
Definition term_direct_mode_func : urpc2_data := init_urpc2_data term_set_direct 0 0 [].
Definition send_register_process_reply_func (pid : Z) : urpc2_data := init_urpc2_data register_process 0 4 (le_split 4 pid).

(** ** Remote procedure calls to the other core *)

Record recv_list := RecvList { rl_type : Z; rl_id : Z; rl_size : Z; rl_payload : list Z }.

Definition urpc2_rpc_send_helper1 (rpc_type rpc_id payloadsize : Z) (payload : list Z) : outcome (list Z) :=
  p ← read payload 0 payloadsize;
  Done (le_split 4 payloadsize ++ [rpc_type; rpc_id] ++ p).

Definition urpc2_rpc_send_helper2 (transfer : list Z) : outcome urpc2_data :=
  n ← read transfer 0 4;
  let payloadsize := le_combine n in
  d ← read transfer 4 (payloadsize + 2);
  Done (init_urpc2_data rpc_over_urpc 0 (payloadsize + 2) d).

Definition recv_rpc_over_urpc (d : urpc2_data) : outcome recv_list :=
  h ← read (data d) 0 2;
  match h with
  | [t; x] => Done (RecvList t x (u32 ((size_in_bytes d - 2) + (size_in_bytes d - 2) `mod` 4)) (drop 2 (data d)))
  | _ => Fault OutOfBounds
  end.

(** The answer is made with the lowest bit of the type of the request. *)
Definition urpc2_send_response (rl : recv_list) (payloadsize : Z) (payload : list Z) : outcome urpc2_data :=
  ASSERT Z.land (rl_type rl) 1 =? 0;
  t ← urpc2_rpc_send_helper1 (Z.land (rl_type rl) 1) (rl_id rl) payloadsize payload;
  urpc2_rpc_send_helper2 t.

(** ** The handler *)

(** [urpc_waiting_calls]: which calls wait for an answer, and the answers. *)
Record calls := Calls { waiting : Z -> bool; ret : Z -> urpc2_data }.

(** What the handler passes on. *)
Inductive passed :=
| Deal_with_msg (rl : recv_list)       (** to the RPC handlers of init *)
| Measure (d : urpc2_data)
| Show (str : list Z) | Feed (c : Z) | Consume | Line_mode | Direct_mode
| Spawn (name : list Z) | Init_memory (package : list Z) | Register (name : list Z).

Definition c_string (l : list Z) : list Z := take (default (length l) (fst <$> list_find (fun b => b = 0) l)) l.

(** [recv], on the core [my_core_id]. *)
Definition recv (my_core_id t : Z) (d : list Z) : outcome (option passed) :=
  if t =? send_string then Done (Some (Show (c_string d)))
  else if t =? term_send_char then Done (Some (Feed (default 0 (head d))))
  else if t =? term_buff_consume then Done (Some Consume)
  else if t =? term_set_line then Done (Some Line_mode)
  else if t =? term_set_direct then Done (Some Direct_mode)
  else if t =? remote_spawn then Done (Some (Spawn (c_string d)))
  else if t =? init_mem_alloc then Done (Some (Init_memory d))
  else if t =? register_process then Done (if my_core_id =? 0 then Some (Register (c_string d)) else None)
  else if (t =? rpc_over_urpc) || (t =? rpc_perf_measurement) then Fault AssertionFailed
  else Done None.

Definition recv_wrapper (my_core_id : Z) (d : urpc2_data) (k : calls) : outcome (calls * option passed) :=
  let waits := waiting k (type d) in
  let k := if waits then Calls (<[type d := false]> (waiting k)) (<[type d := d]> (ret k)) else k in
  if negb waits && (type d =? rpc_over_urpc) then rl ← recv_rpc_over_urpc d; Done (k, Some (Deal_with_msg rl))
  else if type d =? rpc_perf_measurement then Done (k, Some (Measure d))
  else if negb (type d =? rpc_over_urpc) then
    ASSERT size_in_bytes d <? 2000;
    b ← read (data d) 0 (size_in_bytes d);
    r ← recv my_core_id (type d) b;
    Done (k, r)
  else Done (k, None).
