(* ===== verification/UrpcCorrect.v ===== *)
(** Proofs about the messages between cores ([Urpc]): what the handler of one
    core gets are the messages that were queued on the other one, in order,
    under every interleaving of the two cores; and all of them arrive. *)
From S2P Require Import Prelude MdbRel Urpc.

(** * Messages as sequences of entries *)

(** A message as the functions make it. *)
Definition good (m : urpc2_data) : Prop :=
  index m = 0 /\ Z.of_nat (length (data m)) = size_in_bytes m /\ size_in_bytes m < 2 ^ 32.

(** Where the [k]-th entry of a message starts, and the number of entries. *)
Definition pos (k : nat) : Z := if decide (k = 0%nat) then 0 else 63 * Z.of_nat k - 6.
Definition nchunks (m : urpc2_data) : nat :=
  if decide (size_in_bytes m <= 61) then 1 else Z.to_nat ((size_in_bytes m + 68) / 63).

Lemma nchunks_small m : size_in_bytes m <= 61 -> nchunks m = 1%nat.
Proof. intros. unfold nchunks. by rewrite decide_True. Qed.

Lemma pos_0 : pos 0 = 0.
Proof. done. Qed.

Lemma pos_S k : pos (S k) = 63 * Z.of_nat k + 57.
Proof. unfold pos. rewrite decide_False by done. lia. Qed.

Lemma nchunks_large m k : 61 < size_in_bytes m -> (k < nchunks m)%nat -> pos k < size_in_bytes m /\ (S k = nchunks m <-> size_in_bytes m <= pos (S k)).
Proof.
  intros Hs. unfold nchunks. rewrite decide_False by lia. pose proof (Z.div_mod (size_in_bytes m + 68) 63 ltac:(lia)) as E.
  pose proof (Z.mod_pos_bound (size_in_bytes m + 68) 63 ltac:(lia)). set (q := (size_in_bytes m + 68) / 63) in *. intros Hk.
  rewrite pos_S. assert (Z.of_nat k < q) by lia. split; [|lia]. unfold pos. destruct (decide (k = 0%nat)); lia.
Qed.

Lemma nchunks_pos m : (0 < nchunks m)%nat.
Proof.
  unfold nchunks. destruct (decide _) as [|H]; [lia|]. assert (0 < (size_in_bytes m + 68) / 63) by (apply Z.div_str_pos; lia). lia.
Qed.

(** What of the message was sent after the [k]-th entry. *)
Definition after (m : urpc2_data) (k : nat) : Z := if decide (S k = nchunks m) then size_in_bytes m else pos (S k).

Definition at_index (m : urpc2_data) (i : Z) : urpc2_data := Data (type m) (id m) (size_in_bytes m) i (data m).

Definition slice (l : list Z) (i j : Z) : list Z := take (Z.to_nat (j - i)) (drop (Z.to_nat i) l).

(** The entry that holds the [k]-th part of the message. *)
Definition carries (e : ringbuffer_entry) (c : urpc2_data * nat) : Prop :=
  let '(m, k) := c in
  length (entry e) = 63%nat /\
  if decide (size_in_bytes m <= 61) then flags e = 7 /\ exists rest, entry e = [type m; id m] ++ data m ++ rest
  else if decide (k = 0%nat) then flags e = 11 /\ entry e = le_split 4 (size_in_bytes m) ++ [type m; id m] ++ slice (data m) 0 57
  else flags e = (if decide (S k = nchunks m) then 5 else 1) /\ exists rest, entry e = slice (data m) (pos k) (after m k) ++ rest.

Lemma carries_waiting e c : carries e c -> has_bit (flags e) MSG_WAITING = true.
Proof.
  destruct c as [m k]. intros [_ H]. destruct (decide _); [by destruct H as [-> _]|]. destruct (decide (k = 0%nat)); [by destruct H as [-> _]|].
  destruct H as [-> _]. by destruct (decide _).
Qed.

Lemma le_split_length n x : length (le_split n x) = n.
Proof. revert x. induction n; intros; cbn; auto. Qed.

Lemma le_combine_split n x : 0 <= x < 256 ^ Z.of_nat n -> le_combine (le_split n x) = x.
Proof.
  revert x. induction n as [|n IH]; intros x Hx; cbn [le_split le_combine]; [cbn in Hx; lia|].
  rewrite Nat2Z.inj_succ, Z.pow_succ_r in Hx by lia. rewrite IH.
  - pose proof (Z.div_mod x 256 ltac:(lia)). lia.
  - split; [apply Z.div_pos; lia|]. apply Z.div_lt_upper_bound; lia.
Qed.

(** * Sending one entry *)

Lemma read_ok l i n : 0 <= i -> 0 <= n -> i + n <= Z.of_nat (length l) -> read l i n = Done (slice l i (i + n)).
Proof. intros. unfold read, slice. zdecide. cbn [andb]. do 3 f_equal. lia. Qed.

Lemma write_front l src : (length src <= 63)%nat -> write ENTRY l 0 src = Done (src ++ drop (length src) l).
Proof. intros. unfold write, ENTRY. by zdecide. Qed.

Lemma slice_length l i j : 0 <= i <= j -> j <= Z.of_nat (length l) -> length (slice l i j) = Z.to_nat (j - i).
Proof. intros. unfold slice. rewrite length_take, length_drop. lia. Qed.

Lemma slice_whole l n : n = Z.of_nat (length l) -> slice l 0 n = l.
Proof. intros ->. unfold slice. rewrite Z.sub_0_r, Nat2Z.id. cbn. by rewrite firstn_all. Qed.

Lemma after_bounds m k : good m -> (k < nchunks m)%nat -> 0 <= pos k <= after m k /\ after m k <= size_in_bytes m /\ after m k - pos k <= 63 /\
  (61 < size_in_bytes m -> k <> 0%nat -> S k <> nchunks m -> after m k - pos k = 63).
Proof.
  intros (_ & Hl & _) Hk. unfold after. destruct (Z.leb_spec (size_in_bytes m) 61) as [Hs|Hs].
  - rewrite (nchunks_small m Hs) in *. assert (k = 0%nat) as -> by lia. rewrite decide_True by done. rewrite pos_0. lia.
  - destruct (nchunks_large m k Hs Hk) as [Hp Hlast]. rewrite pos_S in *. unfold pos in *.
    destruct (decide (S k = nchunks m)), (decide (k = 0%nat)); lia.
Qed.

(** Whether the rest fits. *)
Lemma small_rem_spec t x m k l : good m -> (k < nchunks m)%nat -> small_rem (Data t x (size_in_bytes m) (pos k) l) = bool_decide (S k = nchunks m).
Proof.
  intros (_ & Hl & Hm) Hk. unfold small_rem. cbn [size_in_bytes index]. destruct (Z.leb_spec (size_in_bytes m) 61) as [Hs|Hs].
  - rewrite (nchunks_small m Hs) in *. assert (k = 0%nat) as -> by lia. rewrite bool_decide_true by done.
    rewrite pos_0, u64_small by lia. zdecide. done.
  - destruct (nchunks_large m k Hs Hk) as [Hp Hlast]. rewrite pos_S in Hlast. unfold pos in *. destruct (decide (k = 0%nat)) as [->|Hk0].
    + rewrite bool_decide_false by lia. zdecide. by rewrite andb_false_r.
    + rewrite u64_small by lia. apply eq_true_iff_eq. rewrite bool_decide_eq_true. zdecide. rewrite andb_true_r, Z.leb_le. lia.
Qed.

Lemma after_last m k : good m -> (k < nchunks m)%nat -> (size_in_bytes m <=? after m k) = bool_decide (S k = nchunks m).
Proof.
  intros _ Hk. apply eq_true_iff_eq. rewrite Z.leb_le, bool_decide_eq_true. unfold after. destruct (decide (S k = nchunks m)) as [|Hn]; [split; [done|lia]|].
  destruct (Z.leb_spec (size_in_bytes m) 61) as [Hs|Hs]; [rewrite (nchunks_small m Hs) in *; lia|]. by rewrite (proj2 (nchunks_large m k Hs Hk)).
Qed.

(** The end of a round of [core_send], for the flags [f] and the header. *)
Lemma send_write m k cur ring e f header len : good m -> (k < nchunks m)%nat -> len = after m k - pos k -> (length header + Z.to_nat len <= 63)%nat ->
  carries (Entry (Z.lor f MSG_WAITING) ((header ++ slice (data m) (pos k) (after m k)) ++ drop (length header + Z.to_nat len) (entry e))) (m, k) ->
  exists e', (payload ← read (data m) (pos k) len; b ← write ENTRY (entry e) 0 (header ++ payload);
    let d := Data (type m) (id m) (size_in_bytes m) (u64 (pos k + len)) (data m) in
    let ring := put_at cur (Entry (Z.lor f MSG_WAITING) b) ring in
    Done (if size_in_bytes d <=? index d then DONE_WITH_TASK else WORKING, d, (cur + 1) `mod` RINGSIZE, ring)) =
    Done (if decide (S k = nchunks m) then DONE_WITH_TASK else WORKING, at_index m (after m k), (cur + 1) `mod` RINGSIZE, put_at cur e' ring) /\ carries e' (m, k).
Proof.
  intros Hg Hk -> Hfit Hc. pose proof (after_bounds m k Hg Hk) as (Hb1 & Hb2 & Hb3 & _). pose proof Hg as (_ & Hl & Hm).
  rewrite read_ok by lia. cbn [mbind outcome_bind]. replace (pos k + (after m k - pos k)) with (after m k) by lia.
  assert (El : length (header ++ slice (data m) (pos k) (after m k)) = (length header + Z.to_nat (after m k - pos k))%nat)
    by (rewrite length_app, slice_length by lia; done).
  rewrite write_front by (rewrite El; done). cbn [mbind outcome_bind size_in_bytes index]. rewrite El, u64_small, (after_last m k Hg Hk) by lia.
  eexists. split; [|exact Hc]. unfold at_index. case_bool_decide; destruct (decide (S k = nchunks m)); done.
Qed.

Lemma put_spec m k cur ring e : good m -> (k < nchunks m)%nat -> ring !! Z.to_nat cur = Some e ->
  length (entry e) = 63%nat -> has_bit (flags e) MSG_WAITING = false ->
  exists e', send_entry (at_index m (pos k)) cur ring =
    Done (if decide (S k = nchunks m) then DONE_WITH_TASK else WORKING, at_index m (after m k), (cur + 1) `mod` RINGSIZE, put_at cur e' ring) /\
    carries e' (m, k).
Proof.
  intros Hg Hk He Hlen Hw. pose proof (after_bounds m k Hg Hk) as (Hb1 & Hb2 & Hb3 & Hb4). pose proof Hg as (_ & Hl & Hm).
  unfold send_entry, slot_at. rewrite He. cbn [mbind outcome_bind]. rewrite Hw.
  rewrite (small_rem_spec _ _ m k _ Hg Hk : small_rem (at_index m (pos k)) = _). unfold send_header. cbn [index size_in_bytes type id data at_index].
  destruct (Z.leb_spec (size_in_bytes m) 61) as [Hs|Hs].
  - pose proof (nchunks_small m Hs) as Hn. assert (k = 0%nat) as -> by lia. rewrite bool_decide_true by lia.
    assert (Ea : after m 0 = size_in_bytes m) by (unfold after; by rewrite decide_True).
    zdecide. apply send_write; rewrite ?Ea, ?pos_0, ?Z.sub_0_r, ?u8_small by lia; [done|done|done|cbn; lia|].
    split; [cbn; rewrite length_app, length_drop, slice_length by lia; lia|]. rewrite decide_True by done. split; [done|].
    rewrite slice_whole by done. eexists. by rewrite <- !app_assoc.
  - destruct (nchunks_large m k Hs Hk) as [Hp Hlast]. destruct (decide (k = 0%nat)) as [->|Hk0].
    + assert (Hn : 1%nat <> nchunks m) by (intros H1; apply Hlast in H1; rewrite pos_S in H1; lia).
      assert (Ea : after m 0 = 57) by (unfold after; by rewrite decide_False, pos_S). rewrite bool_decide_false by done.
      zdecide. apply send_write; rewrite ?Ea, ?pos_0; [done|done|done|cbn; lia|].
      split; [cbn; rewrite length_app, length_drop, slice_length by lia; lia|]. rewrite decide_False, decide_True by (done || lia). split; [done|].
      assert (E : drop 63 (entry e) = []) by (apply drop_ge; lia). 
      rewrite length_app, le_split_length. cbn [length Nat.add Z.to_nat]. change (Z.to_nat _) with 57%nat. cbn [Nat.add]. rewrite E, app_nil_r. by rewrite <- !app_assoc.
    + assert (Hpk : pos k <> 0) by (unfold pos; rewrite decide_False by done; lia).
      zdecide. cbn [negb length]. assert (El : (if bool_decide (S k = nchunks m) then u8 (size_in_bytes m - pos k) else 63 - Z.of_nat 0) = after m k - pos k).
      { case_bool_decide as Hl1; [|rewrite Hb4 by done; lia]. assert (after m k = size_in_bytes m) by (unfold after; by rewrite decide_True).
        rewrite u8_small by lia. lia. }
      rewrite El. apply send_write; [done|done|done|cbn; lia|].
      split; [cbn; rewrite length_app, length_drop, slice_length by lia; lia|]. rewrite !decide_False by (done || lia).
      split; [|by eexists]. cbn [flags]. case_bool_decide; destruct (decide (S k = nchunks m)); done.
Qed.

(** * Receiving one entry *)

(** What the handler gets for a message: of a short one the first bytes. *)
Definition delivers (m d : urpc2_data) : Prop :=
  type d = type m /\ id d = id m /\
  if decide (size_in_bytes m <= 61)
  then size_in_bytes d = 61 /\ length (data d) = 61%nat /\ take (length (data m)) (data d) = data m
  else size_in_bytes d = size_in_bytes m /\ data d = data m.

(** The variable of the receiver before the [k]-th entry. *)
Definition partial (m : urpc2_data) (k : nat) : urpc2_data :=
  Data (type m) (id m) (size_in_bytes m) (pos k) (take (Z.to_nat (pos k)) (data m)).
Definition expects (m : urpc2_data) (k : nat) (d : urpc2_data) : Prop :=
  if decide (k = 0%nat) then index d = 0 /\ 0 <= size_in_bytes d < 2 ^ 32 else d = partial m k.

Lemma recv_short m cur ring e d : good m -> size_in_bytes m <= 61 -> carries e (m, 0%nat) -> ring !! Z.to_nat cur = Some e -> expects m 0 d ->
  exists d', recv_entry d cur ring = Done (DONE_WITH_TASK, d', (cur + 1) `mod` RINGSIZE, put_at cur (release e) ring, Some d') /\ delivers m d'.
Proof.
  intros (_ & Hl & Hm) Hs [Hlen Hc] He [Hi _]. rewrite decide_True in Hc by done. destruct Hc as (Hf & rest & Hent).
  unfold recv_entry, slot_at. rewrite He. cbn [mbind outcome_bind]. rewrite Hf, Hi. cbn [has_bit]. unfold ENTRY.
  rewrite read_ok by lia. cbn [mbind outcome_bind]. rewrite slice_whole by lia. rewrite Hent. cbn [app]. eexists. split; [done|].
  split_and!; [done|done|]. rewrite decide_True by done. cbn [size_in_bytes data]. split_and!; [done| |by rewrite take_app_length].
  rewrite Hent in Hlen. cbn in Hlen. lia.
Qed.

(** The end of a round of [core_recv]. *)
Lemma recv_payload m k cur ring e i t x : good m -> 61 < size_in_bytes m -> (k < nchunks m)%nat -> 0 <= i -> i + (after m k - pos k) <= 63 ->
  length (entry e) = 63%nat -> slice (entry e) i (i + (after m k - pos k)) = slice (data m) (pos k) (after m k) ->
  (if decide (S k = nchunks m) then True else after m k - pos k = 63 - i) ->
  (let d := Data t x (size_in_bytes m) (pos k) (take (Z.to_nat (pos k)) (data m)) in
   let len := if small_rem d then u8 (size_in_bytes d - index d) else 63 - i in
   payload ← read (entry e) i len;
   b ← write (u32 (size_in_bytes d)) (data d) (index d) payload;
   let d := Data (type d) (id d) (size_in_bytes d) (u64 (index d + len)) b in
   if size_in_bytes d <=? index d then Done (DONE_WITH_TASK, d, (cur + 1) `mod` RINGSIZE, put_at cur (release e) ring, Some d)
   else Done (WORKING, d, (cur + 1) `mod` RINGSIZE, put_at cur (release e) ring, None)) =
  (let d := Data t x (size_in_bytes m) (after m k) (take (Z.to_nat (after m k)) (data m)) in
   Done (if decide (S k = nchunks m) then DONE_WITH_TASK else WORKING, d, (cur + 1) `mod` RINGSIZE, put_at cur (release e) ring,
         if decide (S k = nchunks m) then Some d else None)).
Proof.
  intros Hg Hs Hk Hi Hfit Hlen Hsl Hnl. pose proof (after_bounds m k Hg Hk) as (Hb1 & Hb2 & Hb3 & _). pose proof Hg as (_ & Hl & Hm).
  cbv zeta. rewrite (small_rem_spec _ _ m k _ Hg Hk). cbn [size_in_bytes index data type id].
  assert (El : (if bool_decide (S k = nchunks m) then u8 (size_in_bytes m - pos k) else 63 - i) = after m k - pos k).
  { case_bool_decide as Hl1; [|by rewrite decide_False in Hnl]. assert (after m k = size_in_bytes m) by (unfold after; by rewrite decide_True).
    rewrite u8_small by lia. lia. }
  rewrite El, read_ok by lia. cbn [mbind outcome_bind]. rewrite Hsl. unfold write.
  rewrite length_take, slice_length, u32_small by lia. zdecide. cbn [andb mbind outcome_bind size_in_bytes index].
  replace (pos k + (after m k - pos k)) with (after m k) by lia. rewrite u64_small, (after_last m k Hg Hk) by lia.
  assert (Eb : take (Z.to_nat (pos k)) (take (Z.to_nat (pos k)) (data m)) ++ slice (data m) (pos k) (after m k) ++
    drop (Z.to_nat (pos k) + Z.to_nat (after m k - pos k)) (take (Z.to_nat (pos k)) (data m)) = take (Z.to_nat (after m k)) (data m)).
  { rewrite take_take, Nat.min_id, (drop_ge (take _ _)) by (rewrite length_take; lia). rewrite app_nil_r. unfold slice.
    rewrite take_take_drop. f_equal. lia. }
  rewrite Eb. case_bool_decide; destruct (decide (S k = nchunks m)); done.
Qed.

Lemma recv_header_spec m d e : good m -> 61 < size_in_bytes m -> carries e (m, 0%nat) -> expects m 0 d ->
  recv_header d e = Done (Data (type m) (id m) (size_in_bytes m) 0 [], 6).
Proof.
  intros (_ & Hl & Hm) Hs [Hlen Hc] [Hi Hsz]. rewrite decide_False, decide_True in Hc by (done || lia). destruct Hc as [Hf Hent].
  unfold recv_header. rewrite Hf, Hi. cbn [has_bit Z.land Z.eqb negb andb]. change (has_bit 11 MSG_HAS_SIZE_INT32) with true. cbv iota.
  rewrite (read_ok _ 0 4) by lia. cbn [mbind outcome_bind]. rewrite (read_ok _ 4 2) by lia. cbn [mbind outcome_bind].
  assert (E1 : slice (entry e) 0 (0 + 4) = le_split 4 (size_in_bytes m)) by (by rewrite Hent). rewrite E1.
  assert (E2 : slice (entry e) 4 (4 + 2) = [type m; id m]) by (by rewrite Hent). rewrite E2. rewrite le_combine_split by lia.
  rewrite Z.shiftr_div_pow2, Z.div_small, Z.shiftl_0_l by lia. done.
Qed.

Lemma recv_long m k cur ring e d : good m -> 61 < size_in_bytes m -> (k < nchunks m)%nat -> carries e (m, k) -> ring !! Z.to_nat cur = Some e -> expects m k d ->
  let d' := Data (type m) (id m) (size_in_bytes m) (after m k) (take (Z.to_nat (after m k)) (data m)) in
  recv_entry d cur ring = Done (if decide (S k = nchunks m) then DONE_WITH_TASK else WORKING, d', (cur + 1) `mod` RINGSIZE, put_at cur (release e) ring,
    if decide (S k = nchunks m) then Some d' else None).
Proof.
  intros Hg Hs Hk [Hlen Hc] He Hd. pose proof (after_bounds m k Hg Hk) as (Hb1 & Hb2 & Hb3 & Hb4). pose proof Hg as (_ & Hl & Hm). cbv zeta.
  rewrite decide_False in Hc by lia. unfold recv_entry, slot_at. rewrite He. cbn [mbind outcome_bind]. unfold expects in Hd.
  destruct (decide (k = 0%nat)) as [->|Hk0].
  - destruct Hc as [Hf Hent], Hd as [Hi Hsz]. destruct (nchunks_large m 0 Hs Hk) as [_ Hlast].
    assert (Hn : 1%nat <> nchunks m) by (intros H1; apply Hlast in H1; rewrite pos_S in H1; lia).
    assert (Ea : after m 0 = 57) by (unfold after; by rewrite decide_False, pos_S).
    assert (Hc0 : carries e (m, 0%nat)) by (split; [done|]; by rewrite decide_False, decide_True by (done || lia)).
    rewrite Hi, (recv_header_spec m d e Hg Hs Hc0 (conj Hi Hsz)). cbn [Z.eqb].
    rewrite Hf. change (has_bit 11 MSG_WAITING) with true. change (has_bit 11 MSG_END_BLOCK) with false. cbn [negb andb mbind outcome_bind].
    apply (recv_payload m 0 cur ring e 6); rewrite ?Ea, ?pos_0; [done|done|done|lia|lia|done| |by rewrite decide_False].
    rewrite Hent. apply (take_ge (slice (data m) 0 57)). rewrite slice_length by lia. lia.
  - destruct Hc as (Hf & rest & Hent). subst d. assert (Hpk : pos k <> 0) by (unfold pos; rewrite decide_False by done; lia).
    assert (Hw : has_bit (flags e) MSG_WAITING = true) by (rewrite Hf; by destruct (decide _)). rewrite Hw. cbn [partial index]. zdecide.
    cbn [negb andb mbind outcome_bind]. apply (recv_payload m k cur ring e 0); [done|done|done|lia|lia|done| |].
    + rewrite Hent, Z.add_0_l. unfold slice at 1. rewrite Z.sub_0_r. cbn [drop Z.to_nat]. apply take_app_length'. by rewrite slice_length by lia.
    + destruct (decide (S k = nchunks m)); [done|]. rewrite Hb4 by done. lia.
Qed.

Lemma recv_spec m k cur ring e d : good m -> (k < nchunks m)%nat -> carries e (m, k) -> ring !! Z.to_nat cur = Some e -> expects m k d ->
  exists d', recv_entry d cur ring = Done (if decide (S k = nchunks m) then DONE_WITH_TASK else WORKING, d', (cur + 1) `mod` RINGSIZE,
      put_at cur (release e) ring, if decide (S k = nchunks m) then Some d' else None) /\
    if decide (S k = nchunks m) then delivers m d' else d' = partial m (S k).
Proof.
  intros Hg Hk Hc He Hd. destruct (Z.leb_spec (size_in_bytes m) 61) as [Hs|Hs].
  - pose proof (nchunks_small m Hs). assert (k = 0%nat) as -> by lia.
    destruct (recv_short m cur ring e d Hg Hs Hc He Hd) as (d' & -> & Hdel). exists d'. by rewrite !decide_True.
  - rewrite (recv_long m k cur ring e d Hg Hs Hk Hc He Hd). eexists. split; [done|]. destruct (decide (S k = nchunks m)) as [Hl|Hl].
    + assert (Ea : after m k = size_in_bytes m) by (unfold after; by rewrite decide_True). split_and!; [done|done|].
      rewrite decide_False, Ea by lia. split; [done|]. cbn. destruct Hg as (_ & Hl' & _). apply take_ge. lia.
    + unfold partial, after. by rewrite decide_False.
Qed.

(** * One direction *)

(** The entries of the messages from the [k]-th one of the first message on. *)
Definition chunks_from (m : urpc2_data) (k : nat) : list (urpc2_data * nat) := (fun j => (m, j)) <$> seq k (nchunks m - k).
Definition stream (k : nat) (ms : list urpc2_data) : list (urpc2_data * nat) :=
  match ms with [] => [] | m :: ms => chunks_from m k ++ (ms ≫= fun m => chunks_from m 0) end.

Lemma chunks_cons m k : (k < nchunks m)%nat -> chunks_from m k = (m, k) :: chunks_from m (S k).
Proof. intros H. unfold chunks_from. replace (nchunks m - k)%nat with (S (nchunks m - S k)) by lia. done. Qed.

Lemma chunks_end m : chunks_from m (nchunks m) = [].
Proof. unfold chunks_from. by rewrite Nat.sub_diag. Qed.

Lemma stream_0 ms : stream 0 ms = ms ≫= fun m => chunks_from m 0.
Proof. by destruct ms. Qed.

Section Flow.
Context {Raw : Type}.
Implicit Types (snd rcv c : core Raw) (ring : list ringbuffer_entry).

(** The entries [fl] are in flight from the position [cr] on, the others
    belong to the sender. *)
Record ring_ok (ring : list ringbuffer_entry) (cr : Z) (fl : list (urpc2_data * nat)) : Prop := {
  ro_length : length ring = 32%nat;
  ro_cr : 0 <= cr < 32;
  ro_room : (length fl <= 32)%nat;
  ro_entries : Forall (fun e => length (entry e) = 63%nat) ring;
  ro_flight : forall i x, fl !! i = Some x -> exists e, ring !! Z.to_nat ((cr + Z.of_nat i) `mod` 32) = Some e /\ carries e x;
  ro_free : forall i, (length fl <= i < 32)%nat -> exists e, ring !! Z.to_nat ((cr + Z.of_nat i) `mod` 32) = Some e /\ has_bit (flags e) MSG_WAITING = false
}.

Lemma mod_inj cr (i j : nat) : (i < 32)%nat -> (j < 32)%nat -> (cr + Z.of_nat i) `mod` 32 = (cr + Z.of_nat j) `mod` 32 -> i = j.
Proof.
  intros Hi Hj E. pose proof (Z.div_mod (cr + Z.of_nat i) 32 ltac:(lia)). pose proof (Z.div_mod (cr + Z.of_nat j) 32 ltac:(lia)).
  assert ((cr + Z.of_nat i) / 32 = (cr + Z.of_nat j) / 32) by lia. lia.
Qed.

Lemma slot_index cr (i j : nat) : (i < 32)%nat -> (j < 32)%nat -> i <> j ->
  Z.to_nat ((cr + Z.of_nat i) `mod` 32) <> Z.to_nat ((cr + Z.of_nat j) `mod` 32).
Proof.
  intros Hi Hj Hne E. apply Hne, (mod_inj cr); [done|done|]. pose proof (Z.mod_pos_bound (cr + Z.of_nat i) 32 ltac:(lia)).
  pose proof (Z.mod_pos_bound (cr + Z.of_nat j) 32 ltac:(lia)). lia.
Qed.

(** The sender fills the first free entry. *)
Lemma ring_put ring cr fl e' x : ring_ok ring cr fl -> (length fl < 32)%nat -> carries e' x ->
  ring_ok (put_at ((cr + Z.of_nat (length fl)) `mod` 32) e' ring) cr (fl ++ [x]).
Proof.
  intros [Hl Hcr Hroom Hent Hfl Hfree] Hlt Hc. unfold put_at. set (a := Z.to_nat _).
  assert (Ha : (a < length ring)%nat) by (unfold a; pose proof (Z.mod_pos_bound (cr + Z.of_nat (length fl)) 32 ltac:(lia)); lia).
  constructor; [by rewrite length_insert|done|rewrite length_app; cbn; lia| | |].
  - apply Forall_insert; [done|]. by destruct x, Hc.
  - intros i y Hy. apply lookup_app_Some in Hy as [Hy|[Hi Hy]].
    + destruct (Hfl i y Hy) as (e & He & Hce). exists e. split; [|done]. apply lookup_lt_Some in Hy. rewrite list_lookup_insert_ne; [done|].
      apply slot_index; lia.
    + apply list_lookup_singleton_Some in Hy as [Hi0 <-]. exists e'. replace i with (length fl) by lia. split; [by apply list_lookup_insert_eq|done].
  - intros i Hi. rewrite length_app in Hi. cbn in Hi. destruct (Hfree i) as (e & He & Hw); [lia|]. exists e. split; [|done].
    rewrite list_lookup_insert_ne; [done|]. apply slot_index; lia.
Qed.

Lemma release_free e : has_bit (flags (release e)) MSG_WAITING = false.
Proof. unfold has_bit, release. cbn [flags]. rewrite <- Z.land_assoc. change (Z.land (Z.lnot MSG_WAITING) MSG_WAITING) with 0. by rewrite Z.land_0_r. Qed.

(** The receiver gives the first entry in flight back. *)
Lemma ring_take ring cr x fl e : ring_ok ring cr (x :: fl) -> ring !! Z.to_nat cr = Some e ->
  ring_ok (put_at cr (release e) ring) ((cr + 1) `mod` 32) fl.
Proof.
  intros [Hl Hcr Hroom Hent Hfl Hfree] He. unfold put_at. cbn in Hroom.
  assert (Hidx : forall i, (((cr + 1) `mod` 32 + Z.of_nat i) `mod` 32) = (cr + Z.of_nat (S i)) `mod` 32).
  { intros i. rewrite Zplus_mod_idemp_l. f_equal. lia. }
  assert (Hcr0 : (cr + Z.of_nat 0) `mod` 32 = cr) by (rewrite Z.add_0_r; apply Z.mod_small; lia).
  assert (Hne : forall i, (S i < 32)%nat -> Z.to_nat ((cr + Z.of_nat (S i)) `mod` 32) <> Z.to_nat cr).
  { intros i Hi. rewrite <- Hcr0 at 2. apply slot_index; lia. }
  constructor; [by rewrite length_insert|apply Z.mod_pos_bound; lia|lia| | |].
  - apply Forall_insert; [done|]. rewrite Forall_forall in Hent. apply (Hent e). by eapply list_elem_of_lookup_2.
  - intros i y Hy. pose proof (lookup_lt_Some _ _ _ Hy). destruct (Hfl (S i) y Hy) as (e' & He' & Hc). exists e'. split; [|done].
    rewrite Hidx, list_lookup_insert_ne; [done|]. apply not_eq_sym, Hne. lia.
  - intros i Hi. rewrite Hidx. destruct (decide (i = 31%nat)) as [->|Hi31].
    + exists (release e). split; [|apply release_free]. replace (cr + Z.of_nat 32) with (cr + 1 * 32) by lia. rewrite Z.mod_add, Z.mod_small by lia.
      apply list_lookup_insert_eq. by eapply lookup_lt_Some.
    + destruct (Hfree (S i)) as (e' & He' & Hw); [cbn; lia|]. exists e'. split; [|done].
      rewrite list_lookup_insert_ne; [done|]. apply not_eq_sym, Hne. lia.
Qed.

(** What the current slots of both sides say. *)
Lemma ring_current ring cr fl : ring_ok ring cr fl ->
  (exists e, ring !! Z.to_nat cr = Some e /\ has_bit (flags e) MSG_WAITING = negb (bool_decide (fl = [])) /\ forall x fl', fl = x :: fl' -> carries e x) /\
  (exists e, ring !! Z.to_nat ((cr + Z.of_nat (length fl)) `mod` 32) = Some e /\ length (entry e) = 63%nat /\
     has_bit (flags e) MSG_WAITING = bool_decide (length fl = 32%nat)).
Proof.
  intros [Hl Hcr Hroom Hent Hfl Hfree]. assert (Hcr0 : (cr + Z.of_nat 0) `mod` 32 = cr) by (rewrite Z.add_0_r; apply Z.mod_small; lia). split.
  - destruct fl as [|x fl].
    + destruct (Hfree 0%nat) as (e & He & Hw); [cbn; lia|]. rewrite Hcr0 in He. exists e. split_and!; [done|by rewrite Hw|done].
    + destruct (Hfl 0%nat x eq_refl) as (e & He & Hc). rewrite Hcr0 in He. exists e. split_and!; [done|by apply carries_waiting in Hc|].
      by intros ? ? [= <- <-].
  - rewrite Forall_forall in Hent. destruct (decide (length fl = 32%nat)) as [E|E].
    + destruct (lookup_lt_is_Some_2 fl 0) as [x Hx]; [lia|]. destruct (Hfl 0%nat x Hx) as (e & He & Hc). rewrite Hcr0 in He. exists e.
      rewrite E. replace (cr + Z.of_nat 32) with (cr + 1 * 32) by lia. rewrite Z.mod_add, Z.mod_small by lia.
      split_and!; [done|apply Hent; by eapply list_elem_of_lookup_2|by apply carries_waiting in Hc].
    + destruct (Hfree (length fl)) as (e & He & Hw); [lia|]. exists e. rewrite bool_decide_false by done.
      split_and!; [done|apply Hent; by eapply list_elem_of_lookup_2|done].
Qed.

(** What the sender still has to put. *)
Definition of_obj (o : urpc2_send_queue Raw) : list (urpc2_data * nat) := chunks_from (func o (rawdata o)) 0.
Definition sending (o : option (urpc2_send_queue Raw)) (pend : list (urpc2_data * nat)) : Prop :=
  match o with
  | None => pend = []
  | Some o => exists m k, cachedata o = Some (at_index m (pos k)) /\ good m /\ (k < nchunks m)%nat /\ pend = chunks_from m k
  end.
Definition queued (q : list (urpc2_send_queue Raw)) : Prop := Forall (fun o => cachedata o = None /\ good (func o (rawdata o))) q.

(** The receiver's variable. *)
Definition fits (k : nat) (ms : list urpc2_data) (d : urpc2_data) : Prop :=
  if decide (k = 0%nat) then index d = 0 /\ 0 <= size_in_bytes d < 2 ^ 32 else exists m ms', ms = m :: ms' /\ (k < nchunks m)%nat /\ d = partial m k.
Definition receiving (k : nat) (ms : list urpc2_data) (rcv : core Raw) : Prop :=
  match where_is rcv with
  | Receiving d _ => fits k ms d
  | _ => if usd_store_used rcv then fits k ms (usd_store rcv) else k = 0%nat
  end.

Lemma receiving_bound k m ms rcv : receiving k (m :: ms) rcv -> (k < nchunks m)%nat.
Proof.
  intros Hr. pose proof (nchunks_pos m). assert (Hf : forall d, fits k (m :: ms) d -> (k < nchunks m)%nat).
  { intros d Hd. unfold fits in Hd. destruct (decide (k = 0%nat)) as [->|]; [done|]. destruct Hd as (m' & ms' & E & Hk & _). by injection E as <- <-. }
  unfold receiving in Hr. destruct (where_is rcv); [destruct (usd_store_used rcv)|destruct (usd_store_used rcv)|]; eauto; by subst k.
Qed.

(** The state of one direction: [dn] was delivered, [ms] not yet, of its
    first message [k] entries were received; [fl] is in flight and [pend]
    is the rest of the message that is being sent. *)
Record flow (sent : list urpc2_data) (dn ms : list urpc2_data) (k : nat) (fl pend : list (urpc2_data * nat)) (snd : core Raw) (ring : list ringbuffer_entry) (rcv : core Raw) : Prop := {
  fw_sent : sent = dn ++ ms;
  fw_good : Forall good sent;
  fw_done : Forall2 delivers dn (handled rcv);
  fw_recv : receiving k ms rcv;
  fw_stream : fl ++ pend ++ (send_queue snd ≫= of_obj) = stream k ms;
  fw_sending : sending (sendobj snd) pend;
  fw_queued : queued (send_queue snd);
  fw_ring : ring_ok ring (current_receive rcv) fl;
  fw_cur : current_send snd = (current_receive rcv + Z.of_nat (length fl)) `mod` 32;
  fw_where : where_is snd = Sending -> sendobj snd <> None
}.

(** Only the fields of a side matter to it. *)
Definition same_send (c c' : core Raw) : Prop :=
  current_send c' = current_send c /\ send_queue c' = send_queue c /\ sendobj c' = sendobj c /\ where_is c' <> Sending.
Definition same_recv (c c' : core Raw) : Prop :=
  current_receive c' = current_receive c /\ handled c' = handled c /\ usd_store c' = usd_store c /\ usd_store_used c' = usd_store_used c /\
  (forall d b, where_is c <> Receiving d b) /\ (forall d b, where_is c' <> Receiving d b).

Lemma flow_snd sent dn ms k fl pend snd snd' ring rcv : flow sent dn ms k fl pend snd ring rcv -> same_send snd snd' ->
  flow sent dn ms k fl pend snd' ring rcv.
Proof. intros [] (E1 & E2 & E3 & Hw). constructor; rewrite ?E1, ?E2, ?E3; done. Qed.

Lemma receiving_same k ms c c' : same_recv c c' -> receiving k ms c -> receiving k ms c'.
Proof.
  intros (_ & _ & Es & Eu & Hw & Hw') Hr. unfold receiving in *. rewrite Es, Eu.
  destruct (where_is c) as [| |d b]; [| |by destruct (Hw d b)]; (destruct (where_is c') as [| |d' b']; [done|done|by destruct (Hw' d' b')]).
Qed.

Lemma flow_rcv sent dn ms k fl pend snd ring rcv rcv' : flow sent dn ms k fl pend snd ring rcv -> same_recv rcv rcv' ->
  flow sent dn ms k fl pend snd ring rcv'.
Proof.
  intros [] Hs. pose proof (receiving_same k ms _ _ Hs) as Hr. destruct Hs as (E1 & E2 & _). constructor; rewrite ?E1, ?E2; auto.
Qed.

(** The first entry in flight is the one that the receiver expects. *)
Lemma flow_head sent dn ms k x fl pend snd ring rcv : flow sent dn ms k (x :: fl) pend snd ring rcv ->
  exists m ms', ms = m :: ms' /\ (k < nchunks m)%nat /\ x = (m, k) /\ fl ++ pend ++ (send_queue snd ≫= of_obj) = chunks_from m (S k) ++ (ms' ≫= fun m => chunks_from m 0).
Proof.
  intros [_ _ _ Hr Hst _ _ _ _ _]. destruct ms as [|m ms']; [done|]. exists m, ms'. cbn [stream] in Hst.
  pose proof (receiving_bound _ _ _ _ Hr) as Hk.
  rewrite (chunks_cons m k Hk) in Hst. cbn in Hst. injection Hst as -> Hst. done.
Qed.

Lemma send_round_ok sent dn ms k fl pend c ring rcv : flow sent dn ms k fl pend c ring rcv -> where_is c = Sending ->
  exists c' ring' fl' pend', send_round c ring = Done (c', ring') /\ flow sent dn ms k fl' pend' c' ring' rcv /\ same_recv c c' /\ send_queue c' = send_queue c /\
    ((length fl = 32%nat /\ fl' = fl /\ pend' = pend /\ where_is c' = Outer) \/
     ((length fl < 32)%nat /\ length fl' = S (length fl) /\ length pend = S (length pend'))).
Proof.
  intros Hf Hw. pose proof Hf as [Hsent Hgood Hdone Hr Hst Hse Hq Hring Hcur Hwh]. unfold send_round.
  destruct (sendobj c) as [o|] eqn:Eo; [|by destruct (Hwh Hw)]. destruct Hse as (m & j & Ec & Hg & Hj & ->).
  assert (Ecd : cached o = at_index m (pos j)) by (unfold cached; by rewrite Ec). rewrite Ecd. destruct (ring_current _ _ _ Hring) as [_ (e & He & Hlen & Hwait)]. rewrite <- Hcur in He.
  destruct (decide (length fl = 32%nat)) as [E32|E32].
  - rewrite bool_decide_true in Hwait by done. unfold send_entry, slot_at. rewrite He. cbn [mbind outcome_bind]. rewrite Hwait. cbn [mbind outcome_bind].
    eexists _, _, fl, (chunks_from m j). split; [done|]. split.
    2: { split; [|split; [done|by left]]. unfold same_recv. split_and!; try done; intros ??; by rewrite Hw. }
    constructor; try done. cbn [sendobj set_send]. by exists m, j.
  - rewrite bool_decide_false in Hwait by done. destruct (put_spec m j (current_send c) ring e Hg Hj He Hlen Hwait) as (e' & -> & Hc). cbn [mbind outcome_bind].
    assert (Hlt : (length fl < 32)%nat) by (pose proof (ro_room _ _ _ Hring); lia).
    pose proof (ring_put _ _ _ _ _ Hring Hlt Hc) as Hring'. rewrite <- Hcur in Hring'.
    assert (Hcur' : (current_send c + 1) `mod` RINGSIZE = (current_receive rcv + Z.of_nat (length (fl ++ [(m, j)]))) `mod` 32).
    { rewrite Hcur. unfold RINGSIZE. rewrite Zplus_mod_idemp_l, length_app. f_equal. cbn. lia. }
    rewrite (chunks_cons m j Hj) in Hst. cbn [app] in Hst.
    eexists _, _, (fl ++ [(m, j)]), (chunks_from m (S j)). split; [done|]. split.
    2: { split; [|split; [by destruct (decide _)|]].
         { unfold same_recv. split_and!; try (by destruct (decide _)). intros ??. by rewrite Hw. }
         right. split_and!; [done|rewrite length_app; cbn; lia|by rewrite (chunks_cons m j Hj)]. }
    assert (Hst' : (fl ++ [(m, j)]) ++ chunks_from m (S j) ++ (send_queue c ≫= of_obj) = stream k ms) by (by rewrite <- app_assoc).
    destruct (decide (S j = nchunks m)) as [El|El]; constructor; try done; cbn [sendobj set_send sending].
    + by rewrite El, chunks_end.
    + exists m, (S j). unfold after. rewrite decide_False by done. split_and!; [done|done|lia|done].
Qed.

Lemma recv_round_ok sent dn ms k fl pend snd ring c d b : flow sent dn ms k fl pend snd ring c -> where_is c = Receiving d b ->
  exists c' ring' dn' ms' k' fl', recv_round d b c ring = Done (c', ring') /\ flow sent dn' ms' k' fl' pend snd ring' c' /\ same_send c c' /\
    ((fl = [] /\ fl' = [] /\ where_is c' = Outer) \/ length fl = S (length fl')).
Proof.
  intros Hf Hw. pose proof Hf as [Hsent Hgood Hdone Hr Hst Hse Hq Hring Hcur Hwh]. unfold recv_round.
  destruct (ring_current _ _ _ Hring) as [(e & He & Hwait & Hcar) _]. unfold receiving in Hr. rewrite Hw in Hr. destruct fl as [|x fl].
  - unfold recv_entry, slot_at. rewrite He. cbn [mbind outcome_bind]. rewrite Hwait. cbn [negb bool_decide decide mbind outcome_bind].
    eexists _, _, dn, ms, k, []. split; [done|]. split; [|split; [done|by left]]. constructor; done.
  - destruct (flow_head _ _ _ _ _ _ _ _ _ _ Hf) as (m & ms' & -> & Hk & -> & Hst'). specialize (Hcar _ _ eq_refl).
    assert (Hg : good m) by (rewrite Hsent, Forall_app, Forall_cons in Hgood; tauto).
    assert (Hex : expects m k d).
    { unfold fits in Hr. unfold expects. destruct (decide (k = 0%nat)); [done|]. destruct Hr as (m' & ms'' & E & _ & ->). by injection E as <- <-. }
    destruct (recv_spec m k (current_receive c) ring e d Hg Hk Hcar He Hex) as (d' & -> & Hd'). cbn [mbind outcome_bind].
    pose proof (ring_take _ _ _ _ _ Hring He) as Hring'.
    assert (Hcur' : current_send snd = ((current_receive c + 1) `mod` 32 + Z.of_nat (length fl)) `mod` 32).
    { rewrite Hcur, Zplus_mod_idemp_l. f_equal. cbn. lia. }
    destruct (decide (S k = nchunks m)) as [El|El].
    + eexists _, _, (dn ++ [m]), ms', 0%nat, fl. split; [done|]. split; [|split; [done|by right]]. constructor; try done.
      * by rewrite Hsent, <- app_assoc.
      * apply Forall2_app; [done|by constructor].
      * rewrite Hst', El, chunks_end, stream_0. done.
    + eexists _, _, dn, (m :: ms'), (S k), fl. split; [done|]. split; [|split; [done|by right]]. constructor; try done.
      exists m, ms'. split_and!; [done|lia|done].
Qed.

Lemma slot_at_some ring (i : Z) e : ring !! Z.to_nat i = Some e -> slot_at ring i = Done e.
Proof. unfold slot_at. by intros ->. Qed.

(** The object that is sent next. *)
Lemma take_object sent dn ms k fl pend c ring rcv : flow sent dn ms k fl pend c ring rcv -> sendobj c <> None \/ send_queue c <> [] ->
  exists o q pend', (match sendobj c with Some o => Done (o, send_queue c) | None => dequeue c end) = Done (o, q) /\ size_in_bytes (cached o) < 2 ^ 63 /\
    (forall w, flow sent dn ms k fl pend' (set_send (current_send c) q (Some (SendObj (func o) (rawdata o) (Some (cached o)))) w c) ring rcv) /\
    (length pend' + length (q ≫= of_obj) = length pend + length (send_queue c ≫= of_obj))%nat.
Proof.
  intros [Hsent Hgood Hdone Hr Hst Hse Hq Hring Hcur Hwh] Hsome. destruct (sendobj c) as [o|] eqn:Eo.
  - destruct Hse as (m & j & Ec & Hg & Hj & ->). assert (Ecd : cached o = at_index m (pos j)) by (unfold cached; by rewrite Ec).
    exists o, (send_queue c), (chunks_from m j). rewrite Ecd. split_and!; [done|cbn; destruct Hg as (_ & _ & ?); lia| |done].
    intros w. constructor; try done. by exists m, j.
  - cbn in Hse. subst pend. unfold dequeue. destruct (send_queue c) as [|o q] eqn:Eq; [by destruct Hsome|].
    apply Forall_cons in Hq as [[Hn Hg] Hq]. assert (Ecd : cached o = func o (rawdata o)) by (unfold cached; by rewrite Hn).
    exists o, q, (of_obj o). rewrite Ecd. split_and!; [done|destruct Hg as (_ & _ & ?); lia| |cbn; by rewrite length_app].
    intros w. constructor; try done. exists (func o (rawdata o)), 0%nat. split_and!; [|done|apply nchunks_pos|done].
    destruct Hg as (Hi & _). cbn. f_equal. unfold at_index. rewrite pos_0, <- Hi. by destruct (func o (rawdata o)).
Qed.

Lemma outer_round_ok stack sA dA mA kA fA pA c tx o sB dB mB kB fB pB rx : 0 <= size_in_bytes stack < 2 ^ 32 ->
  flow sA dA mA kA fA pA c tx o -> flow sB dB mB kB fB pB o rx c -> where_is c = Outer ->
  exists c' pA', outer_round stack c tx rx = Done c' /\ flow sA dA mA kA fA pA' c' tx o /\ flow sB dB mB kB fB pB o rx c' /\
    (length pA' + length (send_queue c' ≫= of_obj) = length pA + length (send_queue c ≫= of_obj))%nat /\
    ((c' = c /\ fB = [] /\ (length fA = 32%nat \/ (pA = [] /\ send_queue c = []))) \/
     ((exists d b, where_is c' = Receiving d b) /\ fB <> []) \/ (where_is c' = Sending /\ (length fA < 32)%nat)).
Proof.
  intros Hstack HA HB Hw. pose proof HA as [_ _ _ _ _ HseA _ HrA HcA _]. pose proof HB as [_ _ _ HrecB _ _ _ HrB _ _].
  destruct (ring_current _ _ _ HrB) as [(e & He & Hwait & _) _]. destruct (ring_current _ _ _ HrA) as [_ (e2 & He2 & _ & Hfull)]. rewrite <- HcA in He2.
  unfold outer_round. rewrite (slot_at_some _ _ _ He), (slot_at_some _ _ _ He2). cbn [mbind outcome_bind]. rewrite Hwait, Hfull.
  destruct (bool_decide_reflect (fB = [])) as [EB|EB]; cbn [negb andb].
  - destruct (bool_decide_reflect (length fA = 32%nat)) as [E32|E32].
    { rewrite orb_true_r. exists c, pA. split_and!; try done. left. split_and!; [done|done|by left]. }
    rewrite orb_false_r. destruct (match sendobj c with None => queue_empty c | Some _ => false end) eqn:En.
    { exists c, pA. split_and!; try done. left. split_and!; [done|done|]. right. unfold queue_empty in En. destruct (sendobj c); [done|]. cbn in HseA. by destruct (send_queue c). }
    destruct (take_object _ _ _ _ _ _ _ _ _ HA) as (ob & q & pA' & -> & Hsz & Hflow & Hlen).
    { destruct (sendobj c); [by left|right]. unfold queue_empty in En. by destruct (send_queue c). }
    cbn [mbind outcome_bind]. assert (Ez : (size_in_bytes (cached ob) <? 2 ^ 63) = true) by (apply Z.ltb_lt; lia). rewrite Ez. cbn [assert mbind outcome_bind].
    eexists _, pA'. split; [done|]. split; [apply Hflow|]. split; [|split; [exact Hlen|]].
    + eapply flow_rcv; [exact HB|]. unfold same_recv. split_and!; try done. intros ??. by rewrite Hw.
    + right. right. split; [done|]. pose proof (ro_room _ _ _ HrA). lia.
  - cbn [mbind outcome_bind]. eexists _, pA. split; [done|]. split.
    { eapply flow_snd; [exact HA|]. unfold same_send. split_and!; try done. cbn. by destruct (usd_store_used c). }
    split; [|split; [done|right; left; split; [|done]]].
    + destruct HB. constructor; try done. unfold receiving in *. rewrite Hw in HrecB. cbn. destruct (usd_store_used c); [done|]. subst kB. done.
    + cbn. destruct (usd_store_used c); eauto.
Qed.

(** ** A step of a core *)

(** The work that is left: an entry is put and taken; plus the way back to
    the outer loop. *)
Definition cost (fl pend : list (urpc2_data * nat)) (c : core Raw) : nat := (2 * (length pend + length (send_queue c ≫= of_obj)) + length fl)%nat.
Definition way (c : core Raw) (ft fr : list (urpc2_data * nat)) : nat :=
  match where_is c with
  | Outer => 1
  | Sending => if decide (length ft < 32)%nat then 0 else 2
  | Receiving _ _ => if decide (fr = []) then 2 else 0
  end.

Lemma core_step_ok stack sA dA mA kA fA pA c tx o sB dB mB kB fB pB rx : 0 <= size_in_bytes stack < 2 ^ 32 ->
  flow sA dA mA kA fA pA c tx o -> flow sB dB mB kB fB pB o rx c ->
  exists c' tx' rx' fA' pA' dB' mB' kB' fB', core_step stack c tx rx = Done (c', tx', rx') /\ flow sA dA mA kA fA' pA' c' tx' o /\ flow sB dB' mB' kB' fB' pB o rx' c' /\
    ((c' = c /\ tx' = tx /\ rx' = rx /\ where_is c = Outer /\ fB = [] /\ (length fA = 32%nat \/ (pA = [] /\ send_queue c = []))) \/
     (3 * (cost fA' pA' c' + cost fB' pB o) + way c' fA' fB' + way o fB' fA' < 3 * (cost fA pA c + cost fB pB o) + way c fA fB + way o fB fA)%nat).
Proof.
  intros Hstack HA HB. unfold core_step. destruct (where_is c) as [| |d b] eqn:Hw.
  - destruct (outer_round_ok stack _ _ _ _ _ _ _ _ _ _ _ _ _ _ _ _ Hstack HA HB Hw) as (c' & pA' & -> & HA' & HB' & Hlen & Hcase). cbn [mbind outcome_bind].
    exists c', tx, rx, fA, pA', dB, mB, kB, fB. split_and!; [done|done|done|]. destruct Hcase as [(-> & H)|Hcase]; [left; tauto|right].
    unfold cost. rewrite Hlen. unfold way at 1 3. rewrite Hw.
    destruct Hcase as [((d & b & ->) & Hne)|(-> & Hlt)]; [rewrite decide_False by done|rewrite decide_True by done]; lia.
  - destruct (send_round_ok _ _ _ _ _ _ _ _ _ HA Hw) as (c' & tx' & fA' & pA' & -> & HA' & Hsame & Hq & Hcase). cbn [mbind outcome_bind].
    exists c', tx', rx, fA', pA', dB, mB, kB, fB. split_and!; [done|done|by eapply flow_rcv|]. right. unfold cost. rewrite Hq.
    unfold way at 1 3. rewrite Hw. destruct Hcase as [(E32 & -> & -> & ->)|(Hlt & El & Ep)].
    + rewrite decide_False by lia. lia.
    + rewrite (decide_True (P := (length fA < 32)%nat)) by done.
      assert (way o fB fA' <= way o fB fA)%nat.
      { unfold way. destruct (where_is o); [done|done|]. destruct fA'; [done|]. rewrite decide_False by done. lia. }
      assert ((match where_is c' with Outer => 1 | Sending => if decide (length fA' < 32)%nat then 0 else 2 | Receiving _ _ => if decide (fB = []) then 2 else 0 end) <= 2)%nat
        by (repeat case_match; lia).
      lia.
  - destruct (recv_round_ok _ _ _ _ _ _ _ _ _ _ _ HB Hw) as (c' & rx' & dB' & mB' & kB' & fB' & -> & HB' & Hsame & Hcase). cbn [mbind outcome_bind].
    exists c', tx, rx', fA, pA, dB', mB', kB', fB'. split_and!; [done|by eapply flow_snd|done|]. right. unfold cost. destruct Hsame as (_ & Eq & _). rewrite Eq.
    unfold way at 1 3. rewrite Hw. destruct Hcase as [(-> & -> & ->)|El].
    + rewrite decide_True by done. lia.
    + rewrite (decide_False (P := fB = [])) by (by destruct fB).
      assert (way o fB' fA <= way o fB fA)%nat.
      { unfold way. destruct (where_is o); [done| |done]. repeat case_decide; lia. }
      assert ((match where_is c' with Outer => 1 | Sending => if decide (length fA < 32)%nat then 0 else 2 | Receiving _ _ => if decide (fB' = []) then 2 else 0 end) <= 2)%nat
        by (repeat case_match; lia).
      lia.
Qed.
End Flow.

(** * Both directions *)

Section Both.
Context {Raw : Type}.
Implicit Types (s : system Raw).

(** The high half of the size that is on the stack is zero. *)
Definition clean (stack : urpc2_data) : Prop := 0 <= size_in_bytes stack < 2 ^ 32.

Definition both (n : nat) (ml mr : list urpc2_data) (s : system Raw) : Prop :=
  exists dA mA kA fA pA dB mB kB fB pB,
    flow ml dA mA kA fA pA (lcore s) (to_right s) (rcore s) /\ flow mr dB mB kB fB pB (rcore s) (to_left s) (lcore s) /\
    n = (3 * (cost fA pA (lcore s) + cost fB pB (rcore s)) + way (lcore s) fA fB + way (rcore s) fB fA)%nat.

Lemma both_left stack n ml mr s : clean stack -> both n ml mr s -> exists s' n', step_left stack s = Done s' /\ both n' ml mr s'.
Proof.
  intros Hs (dA & mA & kA & fA & pA & dB & mB & kB & fB & pB & HA & HB & ->). unfold step_left.
  destruct (core_step_ok stack _ _ _ _ _ _ _ _ _ _ _ _ _ _ _ _ Hs HA HB) as (c' & tx' & rx' & fA' & pA' & dB' & mB' & kB' & fB' & -> & HA' & HB' & _).
  cbn [mbind outcome_bind]. eexists _, _. split; [done|]. by exists dA, mA, kA, fA', pA', dB', mB', kB', fB', pB.
Qed.

Lemma both_right stack n ml mr s : clean stack -> both n ml mr s -> exists s' n', step_right stack s = Done s' /\ both n' ml mr s'.
Proof.
  intros Hs (dA & mA & kA & fA & pA & dB & mB & kB & fB & pB & HA & HB & ->). unfold step_right.
  destruct (core_step_ok stack _ _ _ _ _ _ _ _ _ _ _ _ _ _ _ _ Hs HB HA) as (c' & tx' & rx' & fB' & pB' & dA' & mA' & kA' & fA' & -> & HB' & HA' & _).
  cbn [mbind outcome_bind]. eexists _, _. split; [done|]. by exists dA', mA', kA', fA', pA, dB, mB, kB, fB', pB'.
Qed.

(** Nothing is left to do: everything was delivered. *)
Lemma flow_finished sent dn ms k pend snd ring rcv : flow (Raw := Raw) sent dn ms k [] pend snd ring rcv -> pend = [] -> send_queue snd = [] -> Forall2 delivers sent (handled rcv).
Proof.
  intros [-> _ Hdone Hr Hst _ _ _ _ _] -> Eq. rewrite Eq in Hst. cbn in Hst. destruct ms as [|m ms]; [by rewrite app_nil_r|].
  cbn in Hst. pose proof (receiving_bound _ _ _ _ Hr) as Hk. by rewrite (chunks_cons m k Hk) in Hst.
Qed.

Lemma round_ok stack n ml mr s : clean stack -> both n ml mr s -> exists s' n', round stack s = Done s' /\ both n' ml mr s' /\
  ((n' < n)%nat \/ (Forall2 delivers ml (handled (rcore s)) /\ Forall2 delivers mr (handled (lcore s)))).
Proof.
  intros Hs (dA & mA & kA & fA & pA & dB & mB & kB & fB & pB & HA & HB & ->). unfold round, step_left, step_right.
  destruct (core_step_ok stack _ _ _ _ _ _ _ _ _ _ _ _ _ _ _ _ Hs HA HB) as (c' & tx' & rx' & fA' & pA' & dB' & mB' & kB' & fB' & -> & HA' & HB' & HcaseL).
  cbn [mbind outcome_bind lcore rcore to_left to_right].
  destruct HcaseL as [(-> & -> & -> & HwL & HfB & HdL)|HltL].
  - destruct (core_step_ok stack _ _ _ _ _ _ _ _ _ _ _ _ _ _ _ _ Hs HB HA) as (o' & tx2 & rx2 & fB2 & pB2 & dA2 & mA2 & kA2 & fA2 & -> & HB2 & HA2 & HcaseR).
    cbn [mbind outcome_bind]. eexists _, _. split; [done|]. split; [by exists dA2, mA2, kA2, fA2, pA, dB, mB, kB, fB2, pB2|].
    destruct HcaseR as [(-> & -> & -> & HwR & HfA & HdR)|HltR]; [right|left; cbn [lcore rcore]; lia]. subst fA fB.
    destruct HdL as [?|[? ?]]; [done|]. destruct HdR as [?|[? ?]]; [done|]. split; by eapply flow_finished.
  - destruct (core_step_ok stack _ _ _ _ _ _ _ _ _ _ _ _ _ _ _ _ Hs HB' HA') as (o' & tx2 & rx2 & fB2 & pB2 & dA2 & mA2 & kA2 & fA2 & -> & HB2 & HA2 & HcaseR).
    cbn [mbind outcome_bind]. destruct HcaseR as [(-> & -> & -> & _)|HltR].
    + eexists _, _. split; [done|]. split; [by exists dA, mA, kA, fA', pA', dB', mB', kB', fB', pB|]. left. cbn [lcore rcore]. lia.
    + eexists _, _. split; [done|]. split; [by exists dA2, mA2, kA2, fA2, pA', dB', mB', kB', fB2, pB2|]. left. cbn [lcore rcore]. lia.
Qed.

Lemma flow_start ring : idle_ring ring -> flow (Raw := Raw) [] [] [] 0 [] [] start_core ring start_core.
Proof.
  intros [Hl Hall]. rewrite Forall_forall in Hall. constructor; try done; try by constructor. constructor; [done|done|cbn; lia| |done|].
  - rewrite Forall_forall. intros e He. by apply Hall.
  - intros i [_ Hi]. cbn [current_receive start_core]. rewrite Z.add_0_l, Z.mod_small, Nat2Z.id by lia.
    destruct (lookup_lt_is_Some_2 ring i) as [e He]; [lia|]. exists e. split; [done|]. apply Hall. by eapply list_elem_of_lookup_2.
Qed.

Lemma flow_queue f (d : Raw) sent dn ms k fl pend c ring rcv : flow sent dn ms k fl pend c ring rcv -> good (f d) ->
  exists ms', flow (sent ++ [f d]) dn ms' k fl pend (urpc2_enqueue f d c) ring rcv.
Proof.
  intros [-> Hgood Hdone Hr Hst Hse Hq Hring Hcur Hwh] Hg. exists (ms ++ [f d]). constructor; try done.
  - by rewrite <- app_assoc.
  - rewrite Forall_app, Forall_singleton. done.
  - unfold receiving in *. assert (Hf : forall u, fits k ms u -> fits k (ms ++ [f d]) u).
    { unfold fits. intros u. destruct (decide (k = 0%nat)); [done|]. intros (m & ms' & -> & H). by exists m, (ms' ++ [f d]). }
    destruct (where_is rcv); [destruct (usd_store_used rcv)|destruct (usd_store_used rcv)|]; auto.
  - cbn [send_queue urpc2_enqueue enqueue set_send]. rewrite bind_app, !app_assoc, <- (app_assoc fl), Hst. cbn. rewrite app_nil_r.
    destruct ms as [|m ms]; cbn.
    + cbn in Hst. assert (k = 0%nat) as ->; [|by rewrite app_nil_r].
      unfold receiving, fits in Hr. destruct (decide (k = 0%nat)); [done|].
      destruct (where_is rcv); [destruct (usd_store_used rcv)|destruct (usd_store_used rcv)|]; try done; by destruct Hr as (? & ? & ? & _).
    + rewrite bind_app. cbn. by rewrite app_nil_r, app_assoc.
  - unfold queued. cbn. rewrite Forall_app, Forall_singleton. done.
Qed.

Lemma reach_both ml mr s : reach clean good ml mr s -> exists n, both n ml mr s.
Proof.
  induction 1 as [tr tl Htr Htl|stack ml mr s s' _ [n IH] Hs E|stack ml mr s s' _ [n IH] Hs E|f d ml mr s _ [n IH] Hg|f d ml mr s _ [n IH] Hg].
  - eexists. exists [], [], 0%nat, [], [], [], [], 0%nat, [], []. split_and!; [by apply flow_start|by apply flow_start|done].
  - destruct (both_left stack n ml mr s Hs IH) as (s2 & n' & E' & H). rewrite E in E'. injection E' as <-. by exists n'.
  - destruct (both_right stack n ml mr s Hs IH) as (s2 & n' & E' & H). rewrite E in E'. injection E' as <-. by exists n'.
  - destruct IH as (dA & mA & kA & fA & pA & dB & mB & kB & fB & pB & HA & HB & ->). destruct (flow_queue f d _ _ _ _ _ _ _ _ _ HA Hg) as [mA' HA'].
    eexists. exists dA, mA', kA, fA, pA, dB, mB, kB, fB, pB. split_and!; [done| |done]. destruct HB. constructor; done.
  - destruct IH as (dA & mA & kA & fA & pA & dB & mB & kB & fB & pB & HA & HB & ->). destruct (flow_queue f d _ _ _ _ _ _ _ _ _ HB Hg) as [mB' HB'].
    eexists. exists dA, mA, kA, fA, pA, dB, mB', kB, fB, pB. split_and!; [ |done|done]. destruct HA. constructor; done.
Qed.

(** C6: provided that the upper half of the uninitialised local variable
    that takes the size of a message (lib_urpc2.c:299) is zero, and on
    sequentially consistent memory: in every interleaving of two cores that
    queue messages of less than 2^32 bytes, what the handler of one core got
    is a prefix of the messages queued on the other, with type, identifier
    and all bytes (of a message of at most 61 bytes, in the first bytes of
    61), and the next step of either core fails no assertion and leaves no
    buffer. Without that proviso a step can leave its buffer
    (uninitialised_size_overruns). *)
Theorem urpc_delivers_in_order ml mr s : reach clean good ml mr s ->
  (exists dl rest, ml = dl ++ rest /\ Forall2 delivers dl (handled (rcore s))) /\
  (exists dr rest, mr = dr ++ rest /\ Forall2 delivers dr (handled (lcore s))) /\
  (forall stack, clean stack -> (exists s', step_left stack s = Done s') /\ (exists s', step_right stack s = Done s')).
Proof.
  intros [n Hb]%reach_both. pose proof Hb as (dA & mA & kA & fA & pA & dB & mB & kB & fB & pB & [E1 _ D1 _ _ _ _ _ _ _] & [E2 _ D2 _ _ _ _ _ _ _] & _).
  split_and!; [by exists dA, mA|by exists dB, mB|]. intros stack Hs.
  destruct (both_left stack n ml mr s Hs Hb) as (sl & _ & El & _), (both_right stack n ml mr s Hs Hb) as (sr & _ & Er & _). eauto.
Qed.

(** C30: provided that the upper half of the uninitialised local variable
    that takes the size of a message (lib_urpc2.c:299) is zero, and on
    sequentially consistent memory: from every state that the two cores
    reach by queueing messages of less than 2^32 bytes and taking steps,
    finitely many rounds deliver everything that was queued, in both
    directions. Without that proviso the rounds can end outside of a buffer
    (uninitialised_size_overruns). *)
Theorem urpc_all_arrive stack ml mr s : clean stack -> reach clean good ml mr s ->
  exists n s', rounds n stack s = Done s' /\ Forall2 delivers ml (handled (rcore s')) /\ Forall2 delivers mr (handled (lcore s')).
Proof.
  intros Hs [n Hb]%reach_both. revert s Hb. induction (lt_wf n) as [n _ IH]. intros s Hb.
  destruct (round_ok stack n ml mr s Hs Hb) as (s1 & n1 & E & Hb1 & [Hlt|Hdone]); [|by exists 0%nat, s].
  destruct (IH n1 Hlt s1 Hb1) as (k & s' & Ek & H). exists (S k), s'. split; [|done]. cbn [rounds]. by rewrite E.
Qed.

Lemma reach_rounds (P M : urpc2_data -> Prop) stack ml mr n : P stack -> forall s s', reach P M ml mr s -> rounds n stack s = Done s' -> reach P M ml mr s'.
Proof.
  intros Hs. induction n as [|n IH]; intros s s' Hr E; cbn [rounds] in E; [by injection E as <-|].
  unfold round in E. destruct (step_left stack s) as [s1|] eqn:E1; [|done]. cbn [mbind outcome_bind] in E.
  destruct (step_right stack s1) as [s2|] eqn:E2; [|done]. cbn [mbind outcome_bind] in E.
  eapply IH; [|exact E]. eapply Reach_right; [|exact Hs|exact E2]. by eapply Reach_left.
Qed.
End Both.

(** * Calls over the channel *)

(** The messages that init makes can be sent. *)
Lemma string_message_good t str : Z.of_nat (length str) + 1 < 2 ^ 32 -> good (string_message t str).
Proof. intros H. unfold good, string_message, init_urpc2_data. cbn [index size_in_bytes data]. rewrite length_app. cbn [length]. lia. Qed.

(** A call that was made on one core is read back on the other one. *)
Lemma rpc_over_urpc_read_back t x payload : Z.of_nat (length payload) + 2 < 2 ^ 32 ->
  exists m, (tr ← urpc2_rpc_send_helper1 t x (Z.of_nat (length payload)) payload; urpc2_rpc_send_helper2 tr) = Done m /\ good m /\
    forall d, delivers m d -> exists rl, recv_rpc_over_urpc d = Done rl /\ rl_type rl = t /\ rl_id rl = x /\ take (length payload) (rl_payload rl) = payload.
Proof.
  intros Hl. unfold urpc2_rpc_send_helper1, urpc2_rpc_send_helper2. rewrite (read_ok payload) by lia. cbn [mbind outcome_bind]. rewrite Z.add_0_l, slice_whole by done.
  set (n := Z.of_nat (length payload)). pose proof (le_split_length 4 n) as Hn. set (h := le_split 4 n) in *.
  rewrite (read_ok _ 0 4) by (rewrite ?length_app, ?Hn; cbn; lia). cbn [mbind outcome_bind].
  assert (E1 : slice (h ++ [t; x] ++ payload) 0 (0 + 4) = h) by (apply take_app_length'; by rewrite Hn). rewrite E1.
  unfold h. rewrite le_combine_split by lia. fold h. rewrite read_ok by (rewrite ?length_app, ?Hn; cbn; lia). cbn [mbind outcome_bind].
  assert (E2 : slice (h ++ [t; x] ++ payload) 4 (4 + (n + 2)) = t :: x :: payload).
  { unfold slice. rewrite drop_app_length' by (by rewrite Hn). apply take_ge. cbn. lia. }
  rewrite E2. eexists. split; [done|]. split; [unfold good; cbn; lia|]. intros d (Et & Ei & Hd). unfold recv_rpc_over_urpc.
  assert (Hpre : exists rest, data d = t :: x :: rest /\ take (length payload) rest = payload).
  { cbn in Hd. destruct (decide (n + 2 <= 61)) as [Hs|Hs].
    - destruct Hd as (_ & Hlen & Hp). destruct (data d) as [|a [|b rest]]; [done|done|]. cbn in Hp. injection Hp as -> -> Hp. by exists rest.
    - destruct Hd as [_ ->]. exists payload. split; [done|]. by apply take_ge. }
  destruct Hpre as (rest & -> & Hrest). rewrite (read_ok _ 0 2) by (cbn; lia). cbn [mbind outcome_bind slice]. eexists. split; [done|]. done.
Qed.

Module UrpcSample.
(** A short message, and one of three entries. *)
Definition short : urpc2_data := init_urpc2_data 1 0 3 [10; 20; 30].
Definition long : urpc2_data := init_urpc2_data 2 0 130 (Z.of_nat <$> seq 0 130).
Definition stack : urpc2_data := Data 0 0 0 0 [].
Definition ring : list ringbuffer_entry := replicate 32 (Entry 0 (replicate 63 0)).

Definition start : system urpc2_data := System start_core start_core ring ring.
Definition queue (m : urpc2_data) (s : system urpc2_data) : system urpc2_data :=
  System (urpc2_enqueue (fun d => d) m (lcore s)) (rcore s) (to_right s) (to_left s).
Definition loaded : system urpc2_data := queue long (queue short start).

Lemma ring_idle : idle_ring ring.
Proof. unfold idle_ring. split; [vm_eq|]. apply Forall_replicate. split; vm_eq. Qed.

Lemma short_good : good short.
Proof. unfold good. vm_decide. Qed.

Lemma long_good : good long.
Proof. unfold good. vm_decide. Qed.

Lemma loaded_reach : reach clean good [short; long] [] loaded.
Proof.
  apply (Reach_queue_left clean good (fun d => d) long [short] []); [|exact long_good].
  apply (Reach_queue_left clean good (fun d => d) short [] []); [|exact short_good]. by apply Reach_start; apply ring_idle.
Qed.

Definition system_of (m : outcome (system urpc2_data)) : system urpc2_data := match m with Done s => s | Fault _ => start end.

Lemma system_of_done m : is_done m = true -> m = Done (system_of m).
Proof. by destruct m. Qed.

Lemma loaded_reach_5 : reach clean good [short; long] [] (system_of (rounds 5 stack loaded)).
Proof. apply (reach_rounds clean good stack [short; long] [] 5 ltac:(done) loaded); [exact loaded_reach|]. apply system_of_done. by vm_compute. Qed.

(** After five rounds the short message has arrived. *)
Lemma urpc_delivers_in_order_witness : exists s dl rest, s = system_of (rounds 5 stack loaded) /\ length (handled (rcore s)) = 1%nat /\
  [short; long] = dl ++ rest /\ Forall2 delivers dl (handled (rcore s)).
Proof.
  destruct (urpc_delivers_in_order [short; long] [] (system_of (rounds 5 stack loaded)) loaded_reach_5) as [(dl & rest & E & H) _].
  exists (system_of (rounds 5 stack loaded)), dl, rest. split; [reflexivity|]. split; [vm_eq|]. exact (conj E H).
Defined.

Lemma urpc_all_arrive_witness : exists n s, rounds n stack loaded = Done s /\ Forall2 delivers [short; long] (handled (rcore s)).
Proof.
  destruct (urpc_all_arrive stack [short; long] [] loaded ltac:(done) loaded_reach) as (n & s & E & H & _). exists n, s. exact (conj E H).
Defined.

(** The handler gets three bytes with the size 61. *)
Example short_size_lost :
  (fun d => (size_in_bytes d, take 3 (data d))) <$> handled (rcore (system_of (rounds 5 stack loaded))) = [(61, [10; 20; 30])].
Proof. vm_eq. Qed.

(** The size of a longer message is copied into the low half of a variable
    that was not initialised: with a one in the high half, the receiver
    writes behind its buffer. *)
Example uninitialised_size_overruns : rounds 20 (Data 0 0 (2 ^ 32) 0 []) loaded = Fault OutOfBounds.
Proof. vm_eq. Qed.

(** A call of the other core that arrives while this core waits for the
    answer to its own call is taken for the answer. *)
Definition call : urpc2_data := init_urpc2_data rpc_over_urpc 0 61 ([26; 0] ++ replicate 59 0).

Example request_taken_for_answer :
  (if recv_wrapper 0 call (Calls (fun t => t =? rpc_over_urpc) (fun _ => stack)) is Done (k, None) then Some (waiting k rpc_over_urpc, size_in_bytes (ret k rpc_over_urpc)) else None) = Some (false, 61).
Proof. vm_eq. Qed.

(** The answer to a call has the type 0. *)
Example response_type_lost : urpc2_send_response (RecvList 26 7 0 []) 4 [1; 2; 3; 4] = Done (init_urpc2_data rpc_over_urpc 0 6 [0; 7; 1; 2; 3; 4]).
Proof. vm_eq. Qed.

(** The size of what a call carries is not the number of its words: for 100
    bytes it is 100. *)
Example rpc_size_in_bytes :
  (if recv_rpc_over_urpc (init_urpc2_data rpc_over_urpc 0 102 (replicate 102 0)) is Done rl then rl_size rl else 0) = 100.
Proof. vm_eq. Qed.
End UrpcSample.
