(* ===== verification/Ring.v ===== *)
(** Circular doubly linked lists, as lib/aos/waitset.c (dequeue and enqueue)
    and lib/aos/threads.c use them: elements are addresses, with their links
    in the element, and a queue is the address of its first element or null.

    [ring k q l] says that the queue [q] holds the elements [l]. *)
From S2P Require Import Prelude.

Record links := Links { nxt : Z -> Z; prv : Z -> Z }.

Definition set_nxt (a b : Z) (k : links) : links := Links (<[a := b]> (nxt k)) (prv k).
Definition set_prv (a b : Z) (k : links) : links := Links (nxt k) (<[a := b]> (prv k)).

(** A write through a pointer. *)
Definition nonnull (a : Z) : outcome unit := if a =? 0 then Fault NullDereference else Done tt.

(** * Operations *)

Definition dequeue (queue chan : Z) (k : links) : outcome (Z * links) :=
  if nxt k chan =? chan then
    ASSERT prv k chan =? chan;
    ASSERT queue =? chan;
    Done (0, set_nxt chan 0 (set_prv chan 0 k))
  else
    _ ← nonnull (prv k chan);
    let k := set_nxt (prv k chan) (nxt k chan) k in
    _ ← nonnull (nxt k chan);
    let k := set_prv (nxt k chan) (prv k chan) k in
    let queue := if queue =? chan then nxt k chan else queue in
    Done (queue, set_nxt chan 0 (set_prv chan 0 k)).

Definition enqueue (queue chan : Z) (k : links) : outcome (Z * links) :=
  if queue =? 0 then Done (chan, set_nxt chan chan (set_prv chan chan k)) else
  let k := set_nxt chan queue k in
  let k := set_prv chan (prv k queue) k in
  let k := set_prv (nxt k chan) chan k in
  _ ← nonnull (prv k chan);
  Done (queue, set_nxt (prv k chan) chan k).

(** * The list behind a queue *)

Fixpoint linked (k : links) (l : list Z) : Prop :=
  match l with
  | a :: l => match l with [] => True | b :: _ => nxt k a = b /\ prv k b = a end /\ linked k l
  | [] => True
  end.

Definition cyc (k : links) (l : list Z) : Prop := linked k (l ++ take 1 l).

Record ring (k : links) (q : Z) (l : list Z) : Prop := {
  ring_head : q = default 0 (head l);
  ring_nodup : NoDup l;
  ring_nonnull : 0 ∉ l;
  ring_cyc : cyc k l
}.

Lemma linked_split k l x r : linked k (l ++ x :: r) <-> linked k (l ++ [x]) /\ linked k (x :: r).
Proof.
  induction l as [|a l IH]; [cbn; tauto|]. destruct l as [|b l]; cbn [app linked] in *; [tauto|]. rewrite IH. tauto.
Qed.

(** The links that matter: forward from all but the last, backward from all
    but the first. *)
Lemma linked_frame k k' l : linked k l -> (forall a, a ∈ removelast l -> nxt k' a = nxt k a) -> (forall a, a ∈ tail l -> prv k' a = prv k a) -> linked k' l.
Proof.
  induction l as [|a [|b l] IH]; [done|done|]. intros [[Hn Hp] Hl] Hnx Hpr. cbn [linked]. split.
  - rewrite Hnx, Hpr by (cbn; left). done.
  - apply IH; [done| |]; intros x Hx; [apply Hnx|apply Hpr]; cbn in *; by right.
Qed.

Lemma cyc_rotate k l1 l2 : cyc k (l1 ++ l2) -> cyc k (l2 ++ l1).
Proof.
  destruct l1 as [|a l1]; [by rewrite app_nil_r|]. destruct l2 as [|b l2]; [by rewrite app_nil_r|]. unfold cyc. cbn [app take]. intros H.
  replace ((a :: l1) ++ b :: l2 ++ [a]) with ((a :: l1) ++ b :: (l2 ++ [a])) in H by done.
  rewrite <- app_assoc in H. apply (linked_split k (a :: l1) b) in H as [H1 H2].
  rewrite <- app_assoc. apply (linked_split k (b :: l2) a). done.
Qed.

(** One element in a cycle: its neighbours. *)
Lemma cyc_cons k c l0 z : cyc k (c :: l0 ++ [z]) <-> linked k (c :: l0 ++ [z]) /\ nxt k z = c /\ prv k c = z.
Proof.
  unfold cyc. cbn [take app]. rewrite <- app_assoc. cbn [app].
  rewrite (linked_split k (c :: l0) z [c]). cbn [linked app]. tauto.
Qed.

Lemma ring_frame k k' q l : ring k q l -> (forall a, a ∈ l -> nxt k' a = nxt k a /\ prv k' a = prv k a) -> ring k' q l.
Proof.
  intros [H1 H2 H3 H4] Hf. constructor; [done..|]. unfold cyc in *. eapply linked_frame; [done| |].
  - intros a Ha. apply Hf. destruct l as [|b l]; [done|]. cbn [take] in Ha. by rewrite removelast_last in Ha.
  - intros a Ha. apply Hf. destruct l as [|b l]; [done|]. cbn [take app tail] in Ha. apply elem_of_app in Ha as [Ha|Ha]; [by right|]. apply list_elem_of_singleton in Ha as ->. by left.
Qed.

(** The head of a queue may be moved along it. *)
Lemma ring_rotate k q l1 x l2 : ring k q (l1 ++ x :: l2) -> ring k x (x :: l2 ++ l1).
Proof.
  intros [_ Hn H0 Hc]. pose proof (Permutation_app_comm l1 (x :: l2)) as Hp. constructor; [done| | |].
  - by rewrite Hp in Hn.
  - by rewrite Hp in H0.
  - by apply (cyc_rotate k l1 (x :: l2)).
Qed.

Lemma ring_empty k q : ring k q [] <-> q = 0.
Proof. split; [by intros []|]. intros ->. constructor; [done|constructor|set_solver|done]. Qed.

(** What an operation on one queue leaves of all other elements. *)
Definition untouched (l : list Z) (k k' : links) : Prop := forall a, a ∉ l -> nxt k' a = nxt k a /\ prv k' a = prv k a.

Lemma ring_untouched k k' q l l' : untouched l' k k' -> (forall a, a ∈ l -> a ∉ l') -> ring k q l -> ring k' q l.
Proof. intros Hu Hd Hr. eapply ring_frame; [done|]. intros a Ha. by apply Hu, Hd. Qed.

(** Membership in lists built by cons and append. *)
Ltac lmem := repeat first
  [ progress match goal with
    | H : context [_ ∈ _ :: _] |- _ => setoid_rewrite elem_of_cons in H
    | H : context [_ ∈ _ ++ _] |- _ => setoid_rewrite elem_of_app in H
    | H : context [_ ∈ []] |- _ => setoid_rewrite elem_of_nil in H
    end
  | setoid_rewrite elem_of_cons | setoid_rewrite elem_of_app | setoid_rewrite elem_of_nil ]; intuition (subst; eauto || congruence).

Ltac flookup := cbn [nxt prv set_nxt set_prv]; repeat first [rewrite fn_lookup_insert | rewrite fn_lookup_insert_ne by congruence].

(** The last element of a list. *)
Lemma ends (h : Z) l : exists l0 z, h :: l = l0 ++ [z].
Proof. destruct (exists_last (l := h :: l)) as (l0 & z & E); [done|]. by exists l0, z. Qed.

Lemma enqueue_ring k q l c : ring k q l -> c ∉ l -> c <> 0 ->
  exists q' k', enqueue q c k = Done (q', k') /\ ring k' q' (l ++ [c]) /\ untouched (c :: l) k k'.
Proof.
  intros [Hq Hn H0 Hc] Hcl Hc0. unfold enqueue. destruct l as [|h l].
  { cbn in Hq. subst q. cbn. eexists _, _. split; [done|]. split.
    - constructor; [done|by apply NoDup_singleton|lmem|]. unfold cyc. cbn. by rewrite !fn_lookup_insert.
    - intros a Ha. assert (a <> c) by lmem. by flookup. }
  cbn [head default from_option id] in Hq. subst q. destruct (ends h l) as (l0 & z & E).
  assert (Hz : z ∈ h :: l) by (rewrite E; apply elem_of_app; right; left). assert (Hzc : z <> c) by congruence. assert (Hhc : h <> c) by (intros ->; apply Hcl; left).
  assert (Hh0 : h <> 0) by (intros ->; apply H0; left). assert (Hz0 : z <> 0) by congruence. clear Hz. zdecide.
  unfold cyc in Hc. cbn [take] in Hc. rewrite E in Hc. rewrite <- app_assoc in Hc. cbn [app] in Hc. apply linked_split in Hc as [Hc [[Hnz Hph] _]].
  flookup. rewrite Hph. unfold nonnull. zdecide. cbn [mbind outcome_bind]. eexists _, _. split; [done|]. split.
  - constructor.
    + done.
    + apply NoDup_app. split_and!; [done|lmem|apply NoDup_singleton].
    + lmem.
    + unfold cyc. replace (take 1 ((h :: l) ++ [c])) with [h] by done. rewrite E, <- !app_assoc. cbn [app]. apply linked_split. split.
      * eapply linked_frame; [exact Hc| |]; intros a Ha.
        -- rewrite removelast_last in Ha. assert (a <> z /\ a <> c) as [? ?]; [|by flookup]. rewrite E in Hn, Hcl. apply NoDup_app in Hn as (_ & Hd & _). lmem.
        -- assert (a <> h /\ a <> c) as [? ?]; [|by flookup]. rewrite <- E in Ha. cbn [tail] in Ha. apply NoDup_cons in Hn as [Hn _]. lmem.
      * cbn [linked]. flookup. done.
  - intros a Ha. pose proof Ha as Ha'. rewrite E in Ha'. assert (a <> c /\ a <> h /\ a <> z) as (? & ? & ?) by (clear - Ha Ha'; lmem). by flookup.
Qed.

Lemma dequeue_ring k q l1 c l2 : ring k q (l1 ++ c :: l2) ->
  exists q' k', dequeue q c k = Done (q', k') /\ ring k' q' (l1 ++ l2) /\ untouched (l1 ++ c :: l2) k k' /\ nxt k' c = 0 /\ prv k' c = 0.
Proof.
  intros Hr. pose proof (ring_rotate _ _ _ _ _ Hr) as [_ Hn H0 Hc]. destruct Hr as [Hq Hn' H0' _]. unfold dequeue.
  destruct (decide (l2 ++ l1 = [])) as [Hnil|Hne].
  { apply app_eq_nil in Hnil as [-> ->]. cbn in *. destruct Hc as [[E1 E2] _]. rewrite E1, E2. subst q. rewrite Z.eqb_refl. cbn [assert mbind outcome_bind].
    eexists _, _. split; [done|]. split_and!; [by apply ring_empty| |by flookup..]. intros a Ha. assert (a <> c) by lmem. by flookup. }
  destruct (l2 ++ l1) as [|h m] eqn:El; [done|]. destruct (ends h m) as (l0 & z & E). rewrite E in Hc. apply cyc_cons in Hc as (Hl & Hnz & Hpc).
  assert (Hnc : nxt k c = h) by (rewrite <- E in Hl; exact (proj1 (proj1 Hl))).
  pose proof (proj2 Hl) as Hpr.
  assert (Hhc : h <> c) by (apply NoDup_cons in Hn as [Hn _]; lmem). assert (Hzc : z <> c) by (apply NoDup_cons in Hn as [Hn _]; rewrite E in Hn; lmem).
  assert (Hh0 : h <> 0) by lmem. assert (Hz0 : z <> 0) by (rewrite E in H0; lmem).
  rewrite Hnc, Hpc. unfold nonnull. zdecide. cbn [mbind outcome_bind]. flookup. rewrite ?Hnc. zdecide. cbn [mbind outcome_bind]. flookup. rewrite ?Hnc, ?Hpc.
  eexists _, _. split; [done|]. split_and!; [| |by flookup..].
  - assert (Hcyc : cyc (set_nxt c 0 (set_prv c 0 (set_prv h z (set_nxt z h k)))) (l2 ++ l1)).
    { rewrite El. unfold cyc. cbn [take]. rewrite E, <- app_assoc. cbn [app]. apply linked_split. split.
      - eapply linked_frame; [exact Hpr| |]; intros a Ha; apply NoDup_cons in Hn as [Hn1 Hn2].
        + rewrite removelast_last in Ha. assert (a <> z /\ a <> c) as [? ?]; [|by flookup]. rewrite E in Hn1, Hn2. apply NoDup_app in Hn2 as (_ & Hd & _). lmem.
        + rewrite <- E in Ha. cbn [tail] in Ha. assert (a <> h /\ a <> c) as [? ?]; [|by flookup]. apply NoDup_cons in Hn2 as [Hn2 _]. lmem.
      - cbn [linked]. flookup. done. }
    constructor.
    + subst q. destruct l1 as [|a l1]; cbn [app head default from_option id].
      * rewrite app_nil_r in El. subst l2. by rewrite Z.eqb_refl.
      * assert (a <> c) by (apply NoDup_app in Hn' as (_ & Hd & _); lmem). by zdecide.
    + apply NoDup_app in Hn' as (Ha & Hd & Hb). apply NoDup_cons in Hb as [_ Hb]. apply NoDup_app. split_and!; lmem.
    + lmem.
    + by apply cyc_rotate.
  - intros a Ha. assert (Hm : a ∉ h :: m) by (rewrite <- El; clear - Ha; lmem). pose proof Hm as Hm'. rewrite E in Hm'.
    assert (a <> c /\ a <> h /\ a <> z) as (? & ? & ?) by (clear - Ha Hm Hm'; lmem). by flookup.
Qed.

(** Every element has both neighbours in the queue, and they point back. *)
Lemma ring_neighbours k q l x : ring k q l -> x ∈ l -> nxt k x ∈ l /\ prv k x ∈ l /\ prv k (nxt k x) = x /\ nxt k (prv k x) = x.
Proof.
  intros Hr Hx. apply list_elem_of_split in Hx as (l1 & l2 & ->). pose proof (ring_rotate _ _ _ _ _ Hr) as [_ _ _ Hc].
  assert (Hm : forall y, y ∈ x :: l2 ++ l1 -> y ∈ l1 ++ x :: l2) by (intros y; rewrite !elem_of_cons, !elem_of_app, elem_of_cons; tauto).
  destruct (l2 ++ l1) as [|h m] eqn:El.
  - cbn in Hc. destruct Hc as [[E1 E2] _]. rewrite ?E1, ?E2, ?E1, ?E2. split_and!; try done; apply Hm; left.
  - destruct (ends h m) as (l0 & z & E). rewrite E in Hc. apply cyc_cons in Hc as (Hl & Hnz & Hpx). rewrite <- E in Hl. destruct Hl as [[Hn Hp] _].
    rewrite Hn, Hpx. split_and!; [|..|done|done]; apply Hm; right; [left|]. rewrite E. apply elem_of_app. right. left.
Qed.

(** The successor of an element that is not the last. *)
Lemma ring_next k q l1 x l2 : ring k q (l1 ++ x :: l2) -> nxt k x = default q (head l2).
Proof.
  intros [Hq _ _ Hc]. unfold cyc in Hc. rewrite <- app_assoc in Hc. apply linked_split in Hc as [_ Hc].
  destruct l2 as [|y l2]; [|by destruct Hc as [[-> _] _]]. subst q. destruct l1 as [|a l1]; cbn in *; by destruct Hc as [[-> _] _].
Qed.

(** The walk along a queue comes back to the first element only at the end. *)
Lemma next_not_first k q l1 e y l2 : ring k q (l1 ++ e :: y :: l2) -> y <> q.
Proof.
  intros [-> Hn _ _]. destruct l1 as [|a l1]; cbn [app head default from_option id] in *; apply NoDup_cons in Hn as [Hn _]; intros ->; apply Hn; [left|].
  rewrite elem_of_app, !elem_of_cons. tauto.
Qed.
