(* ===== verification/Chain.v ===== *)
(** Doubly linked lists that end in null, as the timers of lib/aos/deferred.c,
    the event queues of lib/aos/event_queue.c and the process table of
    usr/init/lib_procman.c use them.

    [dlist k h l] says that the list that starts at [h] holds [l]. *)
From S2P Require Import Prelude Ring.

(** The elements [l] from [h] up to [t]; [p] is before the first. *)
Fixpoint seg (k : links) (p h : Z) (l : list Z) (t : Z) : Prop :=
  match l with
  | [] => h = t
  | a :: l => h = a /\ a <> 0 /\ prv k a = p /\ seg k a (nxt k a) l t
  end.

Definition last_or (p : Z) (l : list Z) : Z := default p (last l).

Lemma last_or_cons p a l : last_or p (a :: l) = last_or a l.
Proof. unfold last_or. rewrite last_cons. by destruct (last l). Qed.
Lemma last_or_snoc p l a : last_or p (l ++ [a]) = a.
Proof. unfold last_or. by rewrite last_snoc. Qed.
Lemma last_or_in p l : l <> [] -> last_or p l ∈ l.
Proof. destruct l as [|a l]; [done|]. intros _. revert a. induction l as [|b l IH]; intros a; rewrite last_or_cons; [left|]. right. rewrite last_or_cons, <- (last_or_cons p). apply (IH b). Qed.

Lemma seg_app k l1 l2 t : forall p h, seg k p h (l1 ++ l2) t <-> exists m, seg k p h l1 m /\ seg k (last_or p l1) m l2 t.
Proof.
  induction l1 as [|a l1 IH]; intros p h; cbn [app seg]; [split; [by exists h|by intros (m & -> & ?)]|]. rewrite IH. setoid_rewrite last_or_cons.
  split; [intros (-> & ? & ? & m & ? & ?); by exists m|intros (m & (-> & ? & ? & ?) & ?); split_and!; [done..|]; by exists m].
Qed.

Lemma seg_frame k k' t l : forall p h, seg k p h l t -> (forall a, a ∈ l -> nxt k' a = nxt k a /\ prv k' a = prv k a) -> seg k' p h l t.
Proof.
  induction l as [|a l IH]; intros p h; [done|]. cbn [seg]. intros (-> & Ha & Hp & Hs) Hf. destruct (Hf a ltac:(left)) as [E1 E2]. rewrite E1, E2. split_and!; [done..|].
  apply IH; [done|]. intros b Hb. apply Hf. by right.
Qed.

Lemma seg_end k k' t t' l : forall p h, seg k p h l t -> l <> [] -> NoDup l -> (forall a, a ∈ l -> prv k' a = prv k a /\ (a <> last_or 0 l -> nxt k' a = nxt k a)) -> nxt k' (last_or 0 l) = t' -> seg k' p h l t'.
Proof.
  induction l as [|a l IH]; intros p h; [done|]. cbn [seg]. intros (-> & Ha & Hp & Hs) _ Hn Hf Ht. destruct (Hf a ltac:(left)) as [E1 E2]. rewrite E1. split_and!; [done..|].
  apply NoDup_cons in Hn as [Hal Hn]. destruct l as [|b l]; [done|]. assert (Ez : last_or 0 (a :: b :: l) = last_or 0 (b :: l)) by (by rewrite !last_or_cons). rewrite Ez in *. rewrite E2.
  - apply IH; [done|done|done| |done]. intros x Hx. apply Hf. by right.
  - intros E. apply Hal. rewrite E. by apply last_or_in.
Qed.

(** The first element of a segment may get another predecessor. *)
Lemma seg_start k k' p p' h l t : seg k p h l t -> NoDup l -> (forall a, a ∈ l -> nxt k' a = nxt k a /\ (a <> h -> prv k' a = prv k a)) -> (l <> [] -> prv k' h = p') -> seg k' p' h l t.
Proof.
  destruct l as [|a l]; [done|]. cbn [seg]. intros (-> & Ha & Hp & Hs) Hn Hf Hp'. destruct (Hf a ltac:(left)) as [E1 _]. rewrite E1. split_and!; [done|done|by apply Hp'|].
  apply NoDup_cons in Hn as [Hal Hn]. eapply seg_frame; [done|]. intros b Hb. destruct (Hf b ltac:(by right)) as [-> E2]. split; [done|]. apply E2. congruence.
Qed.

Lemma seg_nonnull k p h l t : seg k p h l t -> 0 ∉ l.
Proof. revert p h. induction l as [|a l IH]; intros p h; [by intros _ ?%elem_of_nil|]. intros (_ & Ha & _ & Hs) [E|Hin]%elem_of_cons; [done|]. by apply (IH _ _ Hs). Qed.

Lemma seg_head k p h l t : seg k p h l t -> h = default t (head l).
Proof. destruct l; [done|]. by intros [-> _]. Qed.

Record dlist (k : links) (h : Z) (l : list Z) : Prop := { dl_seg : seg k 0 h l 0; dl_nodup : NoDup l }.

Lemma dlist_empty k h : dlist k h [] <-> h = 0.
Proof. split; [by intros [? _]|]. intros ->. split; [done|constructor]. Qed.
Lemma dlist_nonnull k h l : dlist k h l -> 0 ∉ l.
Proof. intros [Hs _]. by eapply seg_nonnull. Qed.
Lemma dlist_head k h l : dlist k h l -> h = default 0 (head l).
Proof. intros [Hs _]. by eapply seg_head. Qed.
Lemma dlist_frame k k' h l : dlist k h l -> (forall a, a ∈ l -> nxt k' a = nxt k a /\ prv k' a = prv k a) -> dlist k' h l.
Proof. intros [Hs Hn] Hf. split; [|done]. by eapply seg_frame. Qed.

(** A list is determined by its links. *)
Lemma seg_fun k l1 : forall l2 p h, seg k p h l1 0 -> seg k p h l2 0 -> l1 = l2.
Proof.
  induction l1 as [|a l1 IH]; intros [|b l2] p h H1 H2; cbn [seg] in *; [done|destruct H2 as (? & ? & _); congruence|destruct H1 as (? & ? & _); congruence|].
  destruct H1 as (-> & _ & _ & H1), H2 as (<- & _ & _ & H2). f_equal. by eapply IH.
Qed.
Lemma dlist_fun k h l1 l2 : dlist k h l1 -> dlist k h l2 -> l1 = l2.
Proof. intros [H1 _] [H2 _]. by eapply seg_fun. Qed.

(** The neighbours of an element. *)
Lemma dlist_middle k h l1 e l2 : dlist k h (l1 ++ e :: l2) -> e <> 0 /\ prv k e = last_or 0 l1 /\ nxt k e = default 0 (head l2) /\ h = default e (head l1).
Proof.
  intros [Hs _]. apply seg_app in Hs as (m & Hs1 & Hs2). cbn [seg] in Hs2. destruct Hs2 as (-> & He & Hp & Hs2). split_and!; [done|done| |by apply seg_head in Hs1]. by apply seg_head in Hs2.
Qed.

(** Links after an element was taken out, and after one was put in. *)
Record unlinked (k : links) (l1 : list Z) (e : Z) (l2 : list Z) (k' : links) : Prop := {
  ul_nxt : l1 <> [] -> nxt k' (last_or 0 l1) = default 0 (head l2);
  ul_prv : l2 <> [] -> prv k' (default 0 (head l2)) = last_or 0 l1;
  ul_nxts : forall a, a ∈ l1 ++ l2 -> a <> last_or 0 l1 -> nxt k' a = nxt k a;
  ul_prvs : forall a, a ∈ l1 ++ l2 -> a <> default 0 (head l2) -> prv k' a = prv k a
}.

Lemma nodup_parts (l1 : list Z) e l2 : NoDup (l1 ++ e :: l2) -> NoDup (l1 ++ l2) /\ NoDup l1 /\ NoDup l2 /\ e ∉ l1 /\ e ∉ l2 /\ (forall a, a ∈ l1 -> a ∉ l2).
Proof.
  intros (H1 & H2 & H3)%NoDup_app. apply NoDup_cons in H3 as [H3 H4]. split_and!; [|done|done| |done|].
  - apply NoDup_app. split_and!; [done| |done]. intros a Ha Ha'. apply (H2 a Ha). by right.
  - intros He. apply (H2 e He). left.
  - intros a Ha Ha'. apply (H2 a Ha). by right.
Qed.

Lemma head_in (l : list Z) d : l <> [] -> default d (head l) ∈ l.
Proof. destruct l; [done|]. left. Qed.

Lemma dlist_unlink k h l1 e l2 k' : dlist k h (l1 ++ e :: l2) -> unlinked k l1 e l2 k' -> dlist k' (default 0 (head (l1 ++ l2))) (l1 ++ l2).
Proof.
  intros [Hs Hn] [U1 U2 U3 U4]. destruct (nodup_parts _ _ _ Hn) as (N1 & N2 & N3 & N4 & N5 & N6). apply seg_app in Hs as (m & Hs1 & Hs2). cbn [seg] in Hs2. destruct Hs2 as (-> & He & Hp & Hs2). split; [|done].
  apply seg_app. exists (default 0 (head l2)). split.
  - destruct (decide (l1 = [])) as [->|Hne]; [done|]. replace (default 0 (head (l1 ++ l2))) with h by (rewrite (seg_head _ _ _ _ _ Hs1); by destruct l1).
    eapply seg_end; [exact Hs1|done|done| |by apply U1]. intros a Ha. assert (Hin : a ∈ l1 ++ l2) by (apply elem_of_app; by left). split; [|by intros; apply U3]. apply U4; [done|].
    intros E. destruct l2 as [|b l2]; [cbn in E; subst a; by apply (seg_nonnull _ _ _ _ _ Hs1)|]. apply (N6 a Ha). rewrite E. by left.
  - pose proof (seg_head _ _ _ _ _ Hs2) as Hh. rewrite Hh in Hs2. eapply (seg_start k k' e); [exact Hs2|done| |by apply U2]. intros a Ha. assert (Hin : a ∈ l1 ++ l2) by (apply elem_of_app; by right).
    split; [|by intros; apply U4]. apply U3; [done|]. intros E. destruct (decide (l1 = [])) as [->|Hne]; [cbn in E; subst a; by apply (seg_nonnull _ _ _ _ _ Hs2)|].
    apply (N6 a); [|done]. rewrite E. by apply last_or_in.
Qed.

Record linked_in (k : links) (l1 : list Z) (e : Z) (l2 : list Z) (k' : links) : Prop := {
  li_nxt : nxt k' e = default 0 (head l2);
  li_prv : prv k' e = last_or 0 l1;
  li_last : l1 <> [] -> nxt k' (last_or 0 l1) = e;
  li_head : l2 <> [] -> prv k' (default 0 (head l2)) = e;
  li_nxts : forall a, a ∈ l1 ++ l2 -> a <> last_or 0 l1 -> nxt k' a = nxt k a;
  li_prvs : forall a, a ∈ l1 ++ l2 -> a <> default 0 (head l2) -> prv k' a = prv k a
}.

Lemma dlist_link k h l1 e l2 k' : dlist k h (l1 ++ l2) -> e ∉ l1 ++ l2 -> e <> 0 -> linked_in k l1 e l2 k' -> dlist k' (default e (head l1)) (l1 ++ e :: l2).
Proof.
  intros [Hs Hn] Hel He [U0 U0' U1 U2 U3 U4]. assert (Hn' : NoDup (l1 ++ e :: l2)).
  { rewrite elem_of_app in Hel. apply NoDup_app in Hn as (H1 & H2 & H3). apply NoDup_app. split_and!; [done| |apply NoDup_cons; tauto]. intros a Ha [->|Ha']%elem_of_cons; [tauto|by apply (H2 a)]. }
  destruct (nodup_parts _ _ _ Hn') as (N1 & N2 & N3 & N4 & N5 & N6). apply seg_app in Hs as (m & Hs1 & Hs2). split; [|done]. apply seg_app. exists e. split; [|cbn [seg]; split_and!; [done|done|done|]].
  - destruct (decide (l1 = [])) as [->|Hne]; [done|]. replace (default e (head l1)) with h by (rewrite (seg_head _ _ _ _ _ Hs1); by destruct l1).
    eapply seg_end; [exact Hs1|done|done| |by apply U1]. intros a Ha. assert (Hin : a ∈ l1 ++ l2) by (apply elem_of_app; by left). split; [|by intros; apply U3]. apply U4; [done|].
    intros E. destruct l2 as [|b l2]; [cbn in E; subst a; by apply (seg_nonnull _ _ _ _ _ Hs1)|]. apply (N6 a Ha). rewrite E. by left.
  - rewrite U0. pose proof (seg_head _ _ _ _ _ Hs2) as Hh. rewrite Hh in Hs2. eapply (seg_start k k' (last_or 0 l1)); [exact Hs2|done| |by apply U2]. intros a Ha. assert (Hin : a ∈ l1 ++ l2) by (apply elem_of_app; by right).
    split; [|by intros; apply U4]. apply U3; [done|]. intros E. destruct (decide (l1 = [])) as [->|Hne]; [cbn in E; subst a; by apply (seg_nonnull _ _ _ _ _ Hs2)|].
    apply (N6 a); [|done]. rewrite E. by apply last_or_in.
Qed.
