(* ===== verification/Threads.v ===== *)
(** User-level threads: their queues, blocking, waking, yielding and pausing
    (lib/aos/threads.c), and mutexes, condition variables and semaphores on
    top of them (lib/aos/thread_sync.c), on one dispatcher.

    A thread is the address of its control block, a queue ([struct thread **])
    an address at which the first thread is stored.  Code that runs disabled
    is one step.  A thread that blocks continues, when it is run again, behind
    the call that blocked it.  Registers, stacks and the floating point unit
    are not modelled. *)
From S2P Require Import Prelude Ring.

Definition MAX_THREADS : nat := 256.
Definition BASE_PAGE_SIZE : Z := 4096.

Inductive thread_state := THREAD_STATE_NULL | THREAD_STATE_RUNNABLE | THREAD_STATE_BLOCKED | THREAD_STATE_EXITED.

#[global] Instance thread_state_eq_dec : EqDecision thread_state.
Proof. solve_decision. Defined.

Record thread := Thread {
  disp : Z;                   (** dispatcher affinity *)
  t_state : thread_state;
  paused : bool;
  wakeup_reason : Z;
  yield_epoch : Z
}.

(** The dispatcher with its threads. *)
Record threads := Threads {
  tlinks : links;
  thr : Z -> thread;
  queues : Z -> Z;
  runq : Z;
  current : Z;
  lmp_send_events_list : Z; polled_channels : Z;
  timeslice : Z;
  haswork : bool
}.

Definition set_queue (queue head : Z) (k : links) (s : threads) : threads :=
  Threads k (thr s) (<[queue := head]> (queues s)) (runq s) (current s) (lmp_send_events_list s) (polled_channels s) (timeslice s) (haswork s).
Definition set_runq (head : Z) (k : links) (s : threads) : threads :=
  Threads k (thr s) (queues s) head (current s) (lmp_send_events_list s) (polled_channels s) (timeslice s) (haswork s).
Definition set_thr (t : Z) (f : thread -> thread) (s : threads) : threads :=
  Threads (tlinks s) (<[t := f (thr s t)]> (thr s)) (queues s) (runq s) (current s) (lmp_send_events_list s) (polled_channels s) (timeslice s) (haswork s).
Definition set_current (t : Z) (s : threads) : threads :=
  Threads (tlinks s) (thr s) (queues s) (runq s) t (lmp_send_events_list s) (polled_channels s) (timeslice s) (haswork s).
Definition set_haswork (b : bool) (s : threads) : threads :=
  Threads (tlinks s) (thr s) (queues s) (runq s) (current s) (lmp_send_events_list s) (polled_channels s) (timeslice s) b.

Definition with_state (x : thread_state) (t : thread) : thread := Thread (disp t) x (paused t) (wakeup_reason t) (yield_epoch t).
Definition with_paused (x : bool) (t : thread) : thread := Thread (disp t) (t_state t) x (wakeup_reason t) (yield_epoch t).
Definition with_reason (x : Z) (t : thread) : thread := Thread (disp t) (t_state t) (paused t) x (yield_epoch t).
Definition with_epoch (x : Z) (t : thread) : thread := Thread (disp t) (t_state t) (paused t) (wakeup_reason t) x.

(** * Queues of threads *)

(** The loop of [check_queue]; its fuel is the bound on the counter. *)
Fixpoint check_loop (fuel : nat) (queue q : Z) (k : links) : outcome unit :=
  match fuel with
  | O => Fault AssertionFailed
  | S fuel =>
    ASSERT negb (q =? 0);
    ASSERT BASE_PAGE_SIZE <? nxt k q;
    ASSERT BASE_PAGE_SIZE <? prv k q;
    ASSERT prv k (nxt k q) =? q;
    ASSERT nxt k (prv k q) =? q;
    let q := nxt k q in
    ASSERT (0 <? fuel)%nat;
    if q =? queue then Done tt else check_loop fuel queue q k
  end.

Definition check_queue (queue : Z) (k : links) : outcome unit :=
  if queue =? 0 then Done tt else check_loop MAX_THREADS queue queue k.

Definition thread_enqueue (t queue : Z) (k : links) : outcome (Z * links) :=
  ASSERT negb (t =? 0);
  _ ← check_queue queue k;
  '(queue, k) ←
    (if queue =? 0 then Done (t, set_nxt t t (set_prv t t k)) else
     ASSERT negb (prv k queue =? 0);
     let k := set_prv t (prv k queue) k in
     let k := set_nxt t queue k in
     let k := set_prv queue t k in
     ASSERT negb (prv k t =? 0);
     Done (queue, set_nxt (prv k t) t k));
  _ ← check_queue queue k;
  Done (queue, k).

Definition thread_dequeue (queue : Z) (k : links) : outcome (Z * Z * links) :=
  let t := queue in
  ASSERT negb (t =? 0);
  _ ← check_queue t k;
  '(queue, k) ←
    (if prv k t =? t then ASSERT nxt k t =? t; Done (0, k) else
     let k := set_nxt (prv k t) (nxt k t) k in
     let k := set_prv (nxt k t) (prv k t) k in
     Done (nxt k t, k));
  _ ← check_queue queue k;
  Done (t, queue, set_nxt t 0 (set_prv t 0 k)).

Definition thread_remove_from_queue (queue t : Z) (k : links) : outcome (Z * links) :=
  ASSERT negb (t =? 0);
  _ ← check_queue queue k;
  '(queue, k) ←
    (if prv k t =? t then ASSERT nxt k t =? t; ASSERT queue =? t; Done (0, k) else
     _ ← nonnull (prv k t);
     let k := set_nxt (prv k t) (nxt k t) k in
     _ ← nonnull (nxt k t);
     let k := set_prv (nxt k t) (prv k t) k in
     Done (if queue =? t then nxt k t else queue, k));
  _ ← check_queue queue k;
  Done (queue, set_nxt t 0 (set_prv t 0 k)).

(** * Running, blocking and waking *)

Section Dispatcher.
Context (handle : Z).

Definition havework_disabled (s : threads) : bool :=
  negb (runq s =? 0) || negb (lmp_send_events_list s =? 0) || negb (polled_channels s =? 0).

(** Called by the dispatcher when the kernel runs it: the next thread. *)
Definition thread_run_disabled (s : threads) : outcome threads :=
  if negb (current s =? 0) then
    ASSERT negb (runq s =? 0);
    let next := nxt (tlinks s) (current s) in
    ASSERT negb (next =? 0);
    if negb (next =? current s) then Done (set_current next s) else Done s
  else if negb (runq s =? 0) then Done (set_haswork true (set_current (runq s) s))
  else Done (set_current 0 (set_haswork (havework_disabled s) s)).

(** The caller gets off the run queue and, if there is one, into [queue]. *)
Definition thread_block_disabled (queue : option Z) (s : threads) : outcome threads :=
  let me := current s in
  let next := nxt (tlinks s) me in
  ASSERT negb (next =? 0);
  ASSERT bool_decide (t_state (thr s me) = THREAD_STATE_RUNNABLE);
  let s := set_thr me (with_state THREAD_STATE_BLOCKED) s in
  '(rq, k) ← thread_remove_from_queue (runq s) me (tlinks s);
  let s := set_runq rq k s in
  s ← (match queue with
       | Some q => '(h, k) ← thread_enqueue me (queues s q) (tlinks s); Done (set_queue q h k s)
       | None => Done s
       end);
  if negb (next =? me) then
    ASSERT negb (runq s =? 0);
    Done (set_current next s)
  else
    ASSERT runq s =? 0;
    let s := set_current 0 s in
    Done (set_haswork (havework_disabled s) s).

(** Returns a thread that has to be woken on another dispatcher, or null. *)
Definition thread_unblock_one_disabled (queue reason : Z) (s : threads) : outcome (Z * threads) :=
  if queues s queue =? 0 then Done (0, s) else
  '(wakeup, h, k) ← thread_dequeue (queues s queue) (tlinks s);
  let s := set_queue queue h k s in
  let s := set_thr wakeup (with_reason reason) s in
  ASSERT bool_decide (t_state (thr s wakeup) = THREAD_STATE_BLOCKED);
  let s := set_thr wakeup (with_state THREAD_STATE_RUNNABLE) s in
  if disp (thr s wakeup) =? handle then
    if negb (paused (thr s wakeup)) then
      '(rq, k) ← thread_enqueue wakeup (runq s) (tlinks s);
      Done (0, set_runq rq k s)
    else Done (0, s)
  else Done (wakeup, s).

Fixpoint unblock_loop (fuel : nat) (queue reason wakeupq : Z) (s : threads) : outcome (Z * threads) :=
  match fuel with
  | O => Fault OutOfFuel
  | S fuel =>
    if queues s queue =? 0 then Done (wakeupq, s) else
    '(wakeup, s) ← thread_unblock_one_disabled queue reason s;
    if negb (wakeup =? 0) then
      unblock_loop fuel queue reason wakeup
        (Threads (set_nxt wakeup wakeupq (tlinks s)) (thr s) (queues s) (runq s) (current s) (lmp_send_events_list s) (polled_channels s) (timeslice s) (haswork s))
    else unblock_loop fuel queue reason wakeupq s
  end.

(** The list of foreign threads is linked through [next]. *)
Definition thread_unblock_all_disabled (queue reason : Z) (s : threads) : outcome (Z * threads) :=
  unblock_loop (S MAX_THREADS) queue reason 0 s.

(** The next thread that did not yield in this time slice, or the caller. *)
Fixpoint yield_loop (fuel : nat) (me next : Z) (s : threads) : outcome Z :=
  match fuel with
  | O => Fault OutOfFuel
  | S fuel =>
    ASSERT negb (next =? 0);
    let next := nxt (tlinks s) next in
    if next =? me then Done next
    else if yield_epoch (thr s next) =? timeslice s then yield_loop fuel me next s
    else Done next
  end.

(** Channels that need to be polled do not exist in this system; what polling
    does is in Waitset.v. *)
Definition thread_yield (s : threads) : outcome threads :=
  let me := current s in
  let s := set_thr me (with_epoch (timeslice s)) s in
  next ← yield_loop MAX_THREADS me me s;
  if negb (polled_channels s =? 0) then Fault Unmodelled else
  if negb (next =? me) then Done (set_current next s)
  else
    ASSERT negb (runq s =? 0);
    ASSERT haswork s;
    Done s.

Definition thread_pause (t : Z) (s : threads) : outcome threads :=
  ASSERT negb (t =? 0);
  if disp (thr s t) =? handle then
    if negb (paused (thr s t)) then
      let s := set_thr t (with_paused true) s in
      if t =? current s then
        ASSERT bool_decide (t_state (thr s t) = THREAD_STATE_RUNNABLE);
        thread_block_disabled None s
      else if bool_decide (t_state (thr s t) = THREAD_STATE_RUNNABLE) then
        '(rq, k) ← thread_remove_from_queue (runq s) t (tlinks s);
        Done (set_runq rq k s)
      else Done s
    else Done s
  else Fault Panicked.

Definition thread_resume (t : Z) (s : threads) : outcome threads :=
  ASSERT negb (t =? 0);
  if disp (thr s t) =? handle then
    if paused (thr s t) then
      let s := set_thr t (with_paused false) s in
      if bool_decide (t_state (thr s t) = THREAD_STATE_RUNNABLE) then
        '(rq, k) ← thread_enqueue t (runq s) (tlinks s);
        Done (set_runq rq k s)
      else Done s
    else Done s
  else Fault Panicked.
End Dispatcher.
