(* ===== verification/ThreadSync.v ===== *)
(** Mutexes, condition variables and semaphores (lib/aos/thread_sync.c).

    Each has an address, at which Threads.v keeps its queue of threads.  A
    spinlock that is taken would be waited for with the dispatcher disabled,
    without end. *)
From S2P Require Import Prelude Ring Threads.

(** [locked] is an [int] in the code; that it overflows after 2^31 - 1 nested
    locks is left out. *)
Record thread_mutex := Mutex { locked : Z; m_lock : bool; holder : Z }.
Record thread_sem := Sem { value : Z; s_lock : bool }.

Record sync := Sync {
  ts : threads;
  mutex_at : Z -> thread_mutex;
  cond_lock : Z -> bool;
  sem_at : Z -> thread_sem
}.

Definition with_ts (x : threads) (s : sync) : sync := Sync x (mutex_at s) (cond_lock s) (sem_at s).
Definition set_mutex (m : Z) (x : thread_mutex) (s : sync) : sync := Sync (ts s) (<[m := x]> (mutex_at s)) (cond_lock s) (sem_at s).
Definition set_cond (c : Z) (x : bool) (s : sync) : sync := Sync (ts s) (mutex_at s) (<[c := x]> (cond_lock s)) (sem_at s).
Definition set_sem (x : Z) (v : thread_sem) (s : sync) : sync := Sync (ts s) (mutex_at s) (cond_lock s) (<[x := v]> (sem_at s)).

Definition acquire_spinlock (b : bool) : outcome unit := if b then Fault OutOfFuel else Done tt.
Definition spin_mutex (b : bool) (x : thread_mutex) : thread_mutex := Mutex (locked x) b (holder x).
Definition spin_sem (b : bool) (x : thread_sem) : thread_sem := Sem (value x) b.

Section Dispatcher.
Context (handle : Z).

Definition thread_mutex_init (m : Z) (s : sync) : sync :=
  with_ts (set_queue m 0 (tlinks (ts s)) (ts s)) (set_mutex m (Mutex 0 false 0) s).
Definition thread_cond_init (c : Z) (s : sync) : sync :=
  with_ts (set_queue c 0 (tlinks (ts s)) (ts s)) (set_cond c false s).
Definition thread_sem_init (x v : Z) (s : sync) : sync :=
  with_ts (set_queue x 0 (tlinks (ts s)) (ts s)) (set_sem x (Sem v false) s).

(** [thread_block_and_release_spinlock_disabled], for the three kinds of
    spinlock. *)
Definition block_on_mutex (m : Z) (s : sync) : outcome sync :=
  t ← thread_block_disabled (Some m) (ts s);
  Done (set_mutex m (spin_mutex false (mutex_at s m)) (with_ts t s)).
Definition block_on_cond (c : Z) (s : sync) : outcome sync :=
  t ← thread_block_disabled (Some c) (ts s);
  Done (set_cond c false (with_ts t s)).
Definition block_on_sem (x : Z) (s : sync) : outcome sync :=
  t ← thread_block_disabled (Some x) (ts s);
  Done (set_sem x (spin_sem false (sem_at s x)) (with_ts t s)).

(** * Mutexes *)

Definition thread_mutex_lock (m : Z) (s : sync) : outcome sync :=
  _ ← acquire_spinlock (m_lock (mutex_at s m));
  let s := set_mutex m (spin_mutex true (mutex_at s m)) s in
  if 0 <? locked (mutex_at s m) then block_on_mutex m s
  else Done (set_mutex m (Mutex 1 false (current (ts s))) s).

Definition thread_mutex_lock_nested (m : Z) (s : sync) : outcome sync :=
  _ ← acquire_spinlock (m_lock (mutex_at s m));
  let s := set_mutex m (spin_mutex true (mutex_at s m)) s in
  if (0 <? locked (mutex_at s m)) && negb (holder (mutex_at s m) =? current (ts s)) then block_on_mutex m s
  else Done (set_mutex m (Mutex (locked (mutex_at s m) + 1) false (current (ts s))) s).

Definition thread_mutex_trylock (m : Z) (s : sync) : outcome (bool * sync) :=
  if 0 <? locked (mutex_at s m) then Done (false, s) else
  _ ← acquire_spinlock (m_lock (mutex_at s m));
  let s := set_mutex m (spin_mutex true (mutex_at s m)) s in
  if 0 <? locked (mutex_at s m) then Done (false, set_mutex m (spin_mutex false (mutex_at s m)) s)
  else Done (true, set_mutex m (Mutex 1 false (current (ts s))) s).

(** Returns the thread to be woken on another dispatcher. *)
Definition thread_mutex_unlock_disabled (m : Z) (s : sync) : outcome (Z * sync) :=
  _ ← acquire_spinlock (m_lock (mutex_at s m));
  let s := set_mutex m (spin_mutex true (mutex_at s m)) s in
  ASSERT 0 <? locked (mutex_at s m);
  '(ft, s) ←
    (if locked (mutex_at s m) =? 1 then
       if negb (queues (ts s) m =? 0) then
         let s := set_mutex m (Mutex (locked (mutex_at s m)) true (queues (ts s) m)) s in
         '(ft, t) ← thread_unblock_one_disabled handle m 0 (ts s);
         Done (ft, with_ts t s)
       else Done (0, set_mutex m (Mutex 0 true 0) s)
     else Done (0, set_mutex m (Mutex (locked (mutex_at s m) - 1) true (holder (mutex_at s m))) s));
  Done (ft, set_mutex m (spin_mutex false (mutex_at s m)) s).

(** The end that unlocking, signalling and posting share. *)
Definition resume_foreign (wakeup : Z) (s : sync) : outcome sync :=
  if negb (wakeup =? 0) then t ← thread_resume handle wakeup (ts s); Done (with_ts t s) else Done s.
Definition yield_after (wakeup : Z) (s : sync) : outcome sync :=
  if negb (wakeup =? 0) then t ← thread_yield (ts s); Done (with_ts t s) else Done s.

Definition thread_mutex_unlock (m : Z) (s : sync) : outcome sync :=
  '(wakeup, s) ← thread_mutex_unlock_disabled m s;
  s ← resume_foreign wakeup s;
  yield_after wakeup s.

(** * Condition variables *)

(** Up to the point where the caller is blocked; when it runs again it locks
    the mutex. *)
Definition thread_cond_wait (c : Z) (mutex : option Z) (s : sync) : outcome sync :=
  _ ← acquire_spinlock (cond_lock s c);
  let s := set_cond c true s in
  s ← (match mutex with
       | Some m =>
         '(wakeup, s) ← thread_mutex_unlock_disabled m s;
         if negb (wakeup =? 0) then
           ASSERT handle =? disp (thr (ts s) wakeup);
           t ← thread_resume handle wakeup (ts s); Done (with_ts t s)
         else Done s
       | None => Done s
       end);
  block_on_cond c s.

Definition thread_cond_signal (c : Z) (s : sync) : outcome sync :=
  _ ← acquire_spinlock (cond_lock s c);
  let s := set_cond c true s in
  '(wakeup, s) ←
    (if negb (queues (ts s) c =? 0) then
       '(wakeup, t) ← thread_unblock_one_disabled handle c 0 (ts s);
       s ← resume_foreign wakeup (with_ts t s); Done (wakeup, s)
     else Done (0, s));
  yield_after wakeup (set_cond c false s).

Fixpoint resume_all (fuel : nat) (wakeupq : Z) (s : sync) : outcome sync :=
  match fuel with
  | O => Fault OutOfFuel
  | S fuel =>
    if wakeupq =? 0 then Done s else
    let next := nxt (tlinks (ts s)) wakeupq in
    s ← resume_foreign wakeupq s;
    resume_all fuel next s
  end.

Definition thread_cond_broadcast (c : Z) (s : sync) : outcome sync :=
  _ ← acquire_spinlock (cond_lock s c);
  let s := set_cond c true s in
  '(wakeupq, t) ← thread_unblock_all_disabled handle c 0 (ts s);
  let s := set_cond c false (with_ts t s) in
  s ← resume_all (S MAX_THREADS) wakeupq s;
  yield_after wakeupq s.

(** * Semaphores *)

Definition thread_sem_wait (x : Z) (s : sync) : outcome sync :=
  _ ← acquire_spinlock (s_lock (sem_at s x));
  let s := set_sem x (spin_sem true (sem_at s x)) s in
  if value (sem_at s x) <? 1 then block_on_sem x s
  else Done (set_sem x (Sem (u32 (value (sem_at s x) - 1)) false) s).

Definition thread_sem_trywait (x : Z) (s : sync) : outcome (bool * sync) :=
  _ ← acquire_spinlock (s_lock (sem_at s x));
  if 1 <=? value (sem_at s x) then Done (true, set_sem x (Sem (u32 (value (sem_at s x) - 1)) false) s)
  else Done (false, set_sem x (spin_sem false (sem_at s x)) s).

Definition thread_sem_post (x : Z) (s : sync) : outcome sync :=
  _ ← acquire_spinlock (s_lock (sem_at s x));
  let s := set_sem x (spin_sem true (sem_at s x)) s in
  '(wakeup, s) ←
    (if (value (sem_at s x) =? 0) && negb (queues (ts s) x =? 0) then
       '(wakeup, t) ← thread_unblock_one_disabled handle x 0 (ts s);
       Done (wakeup, with_ts t s)
     else Done (0, set_sem x (Sem (u32 (value (sem_at s x) + 1)) true) s));
  s ← resume_foreign wakeup s;
  yield_after wakeup (set_sem x (spin_sem false (sem_at s x)) s).
End Dispatcher.
