(* ===== verification/ThreadsCorrect.v ===== *)
(** Correctness of Threads.v: what the queues of threads hold after each
    operation, as lists. *)
From S2P Require Import Prelude Ring Threads.

(** * The checks of a queue *)

Lemma check_loop_ok k q l : ring k q l -> Forall (fun t => BASE_PAGE_SIZE < t) l -> forall l2 fuel l1 x, l = l1 ++ x :: l2 -> (S (length l2) < fuel)%nat ->
  check_loop fuel q x k = Done tt.
Proof.
  intros Hr Hf. rewrite Forall_forall in Hf. induction l2 as [|y l2 IH]; intros fuel l1 x E Hfu; (destruct fuel as [|fuel]; [lia|]); cbn [check_loop];
    (assert (Hx : x ∈ l) by (rewrite E; apply elem_of_app; right; left));
    destruct (ring_neighbours k q l x Hr Hx) as (H1 & H2 & E1 & E2); apply Hf in H1; apply Hf in H2; apply Hf in Hx; unfold BASE_PAGE_SIZE in *; rewrite E1, E2; zdecide;
    cbn [negb assert mbind outcome_bind]; (destruct (Nat.ltb_spec 0 fuel); [|cbn [length] in Hfu; lia]); cbn [assert mbind outcome_bind]; subst l;
    rewrite (ring_next _ _ _ _ _ Hr); cbn [head default from_option id].
  - by rewrite Z.eqb_refl.
  - assert (y <> q).
    { destruct Hr as [-> Hn _ _]. destruct l1 as [|a l1]; cbn [app head default from_option id]; cbn [app] in Hn; apply NoDup_cons in Hn as [Hn _]; set_solver. }
    zdecide. apply (IH _ (l1 ++ [x])); [by rewrite <- app_assoc|cbn [length] in Hfu; lia].
Qed.

Lemma check_queue_ok k q l : ring k q l -> Forall (fun t => BASE_PAGE_SIZE < t) l -> (length l < MAX_THREADS)%nat -> check_queue q k = Done tt.
Proof.
  intros Hr Hf Hl. unfold check_queue. destruct l as [|x l]; pose proof (ring_head _ _ _ Hr) as Hq; cbn [head default from_option id] in Hq; subst q; [done|].
  assert (Hx : x <> 0) by (apply Forall_inv in Hf; unfold BASE_PAGE_SIZE in Hf; lia). zdecide. eapply (check_loop_ok k x (x :: l) Hr Hf l _ []); [done|]. exact Hl.
Qed.

Lemma in_insert (Q : Z -> list Z) q l q' t : t ∈ <[q := l]> Q q' -> (q' = q /\ t ∈ l) \/ (q' <> q /\ t ∈ Q q').
Proof. destruct (decide (q' = q)) as [->|]; [rewrite fn_lookup_insert|rewrite fn_lookup_insert_ne by done]; tauto. Qed.

Lemma nodup_middle {A} (l1 l2 : list A) x : NoDup (l1 ++ x :: l2) -> x ∉ l1 ++ l2.
Proof. rewrite <- Permutation_middle. by intros [H _]%NoDup_cons. Qed.

(** * Queues of the threads [all] *)

Section Threads.
Context (all : list Z) (Hbound : (length all < MAX_THREADS)%nat) (Hpage : Forall (fun t => BASE_PAGE_SIZE < t) all).

Definition tring (k : links) (q : Z) (l : list Z) : Prop := ring k q l /\ l ⊆ all.

Lemma all_nonnull t : t ∈ all -> t <> 0.
Proof. clear Hbound. rewrite Forall_forall in Hpage. intros Ht. apply Hpage in Ht. unfold BASE_PAGE_SIZE in Ht. lia. Qed.

Lemma tring_check k q l : tring k q l -> check_queue q k = Done tt.
Proof.
  intros [Hr Hs]. eapply check_queue_ok; [done| |].
  - rewrite Forall_forall in *. intros t Ht. by apply Hpage, Hs.
  - pose proof (NoDup_submseteq l all (ring_nodup _ _ _ Hr) Hs) as H. apply submseteq_length in H. lia.
Qed.

Lemma thread_enqueue_ring k q l t : tring k q l -> t ∈ all -> t ∉ l ->
  exists q' k', thread_enqueue t q k = Done (q', k') /\ tring k' q' (l ++ [t]) /\ untouched (t :: l) k k'.
Proof.
  intros Ht Hta Htl. pose proof Ht as [Hr Hs]. pose proof (all_nonnull t Hta) as Ht0. unfold thread_enqueue. rewrite (tring_check _ _ _ Ht). zdecide. cbn [negb assert mbind outcome_bind].
  destruct (enqueue_ring k q l t Hr Htl Ht0) as (q' & k' & E & Hr' & Hu). exists q', k'.
  assert (Ht' : tring k' q' (l ++ [t])) by (split; [done|intros x Hx; apply elem_of_app in Hx as [Hx|Hx]; [by apply Hs|by apply list_elem_of_singleton in Hx as ->]]).
  split; [|done]. unfold enqueue in E. destruct (Z.eqb_spec q 0) as [->|Hq].
  - injection E as <- <-. cbn [mbind outcome_bind]. by rewrite (tring_check _ _ _ Ht').
  - assert (Hql : q ∈ l) by (destruct l as [|x l]; [by destruct Hr|rewrite (ring_head _ _ _ Hr); left]).
    destruct (ring_neighbours _ _ _ q Hr Hql) as (_ & Hp & _). apply Hs, all_nonnull in Hp. zdecide. cbn [negb assert mbind outcome_bind].
    assert (Hqt : q <> t) by congruence. revert E. flookup. unfold nonnull. zdecide. cbn [negb assert mbind outcome_bind]. intros E. injection E as <- <-.
    pose proof (tring_check _ _ _ Ht') as Hck. unfold set_nxt, set_prv in *. cbn [nxt prv] in *. by rewrite Hck.
Qed.

(** The check in the middle of a removal is about the links before those of
    the removed thread are cleared. *)
Lemma tring_clear k q l t : t ∉ l -> tring (set_nxt t 0 (set_prv t 0 k)) q l -> tring k q l.
Proof. intros Ht [Hr Hs]. split; [|done]. eapply ring_frame; [done|]. intros a Ha. assert (a <> t) by congruence. by flookup. Qed.

Lemma thread_remove_ring k q l1 t l2 : tring k q (l1 ++ t :: l2) ->
  exists q' k', thread_remove_from_queue q t k = Done (q', k') /\ tring k' q' (l1 ++ l2) /\ untouched (l1 ++ t :: l2) k k' /\ nxt k' t = 0 /\ prv k' t = 0.
Proof.
  intros Ht. pose proof Ht as [Hr Hs]. assert (Htl : t ∈ l1 ++ t :: l2) by (apply elem_of_app; right; left). pose proof (all_nonnull t (Hs _ Htl)) as Ht0.
  destruct (dequeue_ring k q l1 t l2 Hr) as (q' & k' & E & Hr' & Hu & Hz). exists q', k'. split; [|split; [split; [done|]|done]].
  2: { intros x Hx. apply Hs. rewrite elem_of_app in Hx. rewrite elem_of_app, elem_of_cons. tauto. }
  unfold thread_remove_from_queue. rewrite (tring_check _ _ _ Ht). zdecide. cbn [negb assert mbind outcome_bind].
  destruct (ring_neighbours _ _ _ t Hr Htl) as (_ & _ & N1 & N2).
  assert (Hc : forall k0, k' = set_nxt t 0 (set_prv t 0 k0) -> check_queue q' k0 = Done tt).
  { intros k0 ->. apply (tring_check _ _ (l1 ++ l2)), (tring_clear _ _ _ t); [by apply nodup_middle, (ring_nodup _ _ _ Hr)|]. split; [done|].
    intros x Hx. apply Hs. rewrite elem_of_app in Hx. rewrite elem_of_app, elem_of_cons. tauto. }
  unfold dequeue in E. destruct (Z.eqb_spec (nxt k t) t) as [En|En].
  - rewrite En in N1. rewrite N1, Z.eqb_refl in *. cbn [assert mbind outcome_bind] in *. destruct (q =? t); [|done]. cbn [assert mbind outcome_bind] in *.
    injection E as <- <-. rewrite (Hc k eq_refl). done.
  - assert (Ep : prv k t <> t) by (intros Ep; rewrite Ep in N2; done). zdecide. destruct (nonnull (prv k t)) as [[]|]; [|done]. cbn [mbind outcome_bind] in *.
    destruct (nonnull (nxt _ t)) as [[]|]; [|done]. cbn [mbind outcome_bind] in *. injection E as <- <-.
    pose proof (Hc _ eq_refl) as Hck. cbn [nxt prv set_nxt set_prv] in *. by rewrite Hck.
Qed.

Lemma thread_dequeue_ring k q t l : tring k q (t :: l) ->
  exists q' k', thread_dequeue q k = Done (t, q', k') /\ tring k' q' l /\ untouched (t :: l) k k' /\ nxt k' t = 0 /\ prv k' t = 0.
Proof.
  intros Ht. pose proof Ht as [Hr _]. destruct (thread_remove_ring k q [] t l Ht) as (q' & k' & E & H). exists q', k'. split; [|done].
  assert (Hq : q = t) by apply (ring_head _ _ _ Hr). subst q. unfold thread_remove_from_queue in E. unfold thread_dequeue.
  destruct (negb (t =? 0)); [|done]. cbn [assert mbind outcome_bind] in *. destruct (check_queue t k) as [[]|]; [|done]. cbn [mbind outcome_bind] in *.
  rewrite Z.eqb_refl in E. destruct (prv k t =? t).
  - destruct (nxt k t =? t); [|done]. cbn [assert mbind outcome_bind] in *. destruct (check_queue 0 k); [|done]. cbn in *. by injection E as <- <-.
  - destruct (nonnull (prv k t)) as [[]|]; [|done]. cbn [mbind outcome_bind] in *. destruct (nonnull _) as [[]|]; [|done]. cbn [mbind outcome_bind] in *.
    destruct (check_queue _ _) as [[]|]; [|done]. cbn [mbind outcome_bind] in *. by injection E as <- <-.
Qed.

Lemma tring_untouched k k' q l l' : untouched l' k k' -> (forall a, a ∈ l -> a ∉ l') -> tring k q l -> tring k' q l.
Proof. intros Hu Hd [Hr Hs]. split; [|done]. by eapply ring_untouched. Qed.

(** * The dispatcher *)

Context (handle : Z).

(** [R] is the run queue, [Q] the queues of blocked threads. *)
Record trep (R : list Z) (Q : Z -> list Z) (s : threads) : Prop := {
  tr_run : tring (tlinks s) (runq s) R;
  tr_queue : forall q, tring (tlinks s) (queues s q) (Q q);
  tr_apart : forall q t, t ∈ R -> t ∉ Q q;
  tr_one : forall q q' t, t ∈ Q q -> t ∈ Q q' -> q = q';
  tr_state : forall t, t ∈ R -> t_state (thr s t) = THREAD_STATE_RUNNABLE;
  tr_blocked : forall q t, t ∈ Q q -> t_state (thr s t) = THREAD_STATE_BLOCKED;
  tr_local : forall t, t ∈ all -> disp (thr s t) = handle /\ paused (thr s t) = false;
  tr_somewhere : forall t, t ∈ all -> t ∈ R \/ exists q, t ∈ Q q;
  tr_current : current s = 0 \/ current s ∈ R;
  tr_haswork : current s <> 0 -> haswork s = true
}.

Lemma trep_ext R Q Q' s : (forall q, Q' q = Q q) -> trep R Q s -> trep R Q' s.
Proof. intros HQ [H1 H2 H3 H4 H5 H6 H7 H8 H9 H10]. constructor; try done; intros *; setoid_rewrite HQ; eauto. Qed.

Lemma unblock_one_empty Q R q reason s : trep R Q s -> Q q = [] -> thread_unblock_one_disabled handle q reason s = Done (0, s).
Proof. intros Hr E. unfold thread_unblock_one_disabled. pose proof (tr_queue _ _ _ Hr q) as [Hq _]. rewrite E in Hq. apply ring_empty in Hq. by rewrite Hq. Qed.

Lemma unblock_one_rep R Q q t l reason s : trep R Q s -> Q q = t :: l ->
  exists s', thread_unblock_one_disabled handle q reason s = Done (0, s') /\ trep (R ++ [t]) (<[q := l]> Q) s' /\ current s' = current s /\ polled_channels s' = polled_channels s.
Proof.
  intros Hr E. pose proof (tr_queue _ _ _ Hr q) as Hq. rewrite E in Hq. assert (Htq : t ∈ Q q) by (rewrite E; left).
  assert (Hta : t ∈ all) by (apply (proj2 Hq); left). destruct (tr_local _ _ _ Hr t Hta) as [Hd Hp]. pose proof (all_nonnull t Hta) as Ht0.
  assert (Htl : t ∉ l) by (pose proof (ring_nodup _ _ _ (proj1 Hq)) as Hn; by apply NoDup_cons in Hn as [Hn _]).
  unfold thread_unblock_one_disabled. assert (Hh : queues s q = t) by apply (ring_head _ _ _ (proj1 Hq)). rewrite Hh in *. zdecide.
  destruct (thread_dequeue_ring _ _ _ _ Hq) as (h & k1 & -> & Hl & Hu1 & _). cbn [mbind outcome_bind set_queue set_thr thr tlinks runq].
  rewrite !fn_lookup_insert. cbn [t_state with_reason with_state disp paused].
  rewrite bool_decide_true by apply (tr_blocked _ _ _ Hr q t Htq). cbn [assert mbind outcome_bind]. rewrite Hd, Hp, Z.eqb_refl. cbn [negb].
  assert (Hqd : forall q', q' <> q -> forall a, a ∈ Q q' -> a ∉ t :: l).
  { intros q' Hne a Ha Hal. rewrite <- E in Hal. by apply Hne, (tr_one _ _ _ Hr q' q a). }
  assert (Hrun : tring k1 (runq s) R).
  { eapply tring_untouched; [exact Hu1| |apply (tr_run _ _ _ Hr)]. intros a Ha. rewrite <- E. by apply (tr_apart _ _ _ Hr). }
  assert (HtR : t ∉ R) by (intros H; by apply (tr_apart _ _ _ Hr q t)).
  destruct (thread_enqueue_ring _ _ _ t Hrun Hta HtR) as (rq & k2 & -> & Hrun' & Hu2). cbn [mbind outcome_bind]. eexists. split; [done|]. split; [|done].
  constructor; cbn [set_runq set_thr set_queue tlinks thr queues runq current haswork].
  - done.
  - intros q'. destruct (decide (q' = q)) as [->|Hne]; [rewrite !fn_lookup_insert|rewrite !fn_lookup_insert_ne by done].
    + eapply tring_untouched; [exact Hu2| |done]. intros a Ha [->|Har]%elem_of_cons; [done|]. apply (tr_apart _ _ _ Hr q a Har). rewrite E. by right.
    + eapply tring_untouched; [exact Hu2| |]; [|eapply tring_untouched; [exact Hu1|by apply Hqd|apply (tr_queue _ _ _ Hr)]].
      intros a Ha [->|Har]%elem_of_cons; [apply (Hqd q' Hne t Ha); left|by apply (tr_apart _ _ _ Hr q' a Har)].
  - intros q' a Ha [[-> Hal]|[Hne Haq]]%in_insert; apply elem_of_app in Ha as [Ha|Ha%list_elem_of_singleton].
    + apply (tr_apart _ _ _ Hr q a Ha). rewrite E. by right.
    + by subst a.
    + by apply (tr_apart _ _ _ Hr q' a Ha).
    + subst a. apply (Hqd q' Hne t Haq). left.
  - intros q1 q2 a [[-> H1]|[Hn1 H1]]%in_insert [[-> H2]|[Hn2 H2]]%in_insert; [done|apply (tr_one _ _ _ Hr _ _ a)..]; try done; rewrite E; by right.
  - intros a [Ha|Ha%list_elem_of_singleton]%elem_of_app.
    + assert (a <> t) by congruence. rewrite !fn_lookup_insert_ne by done. by apply (tr_state _ _ _ Hr).
    + subst a. by rewrite fn_lookup_insert.
  - intros q' a Ha. assert (a <> t).
    { intros ->. apply in_insert in Ha as [[_ Ha]|[Hne Ha]]; [done|]. apply (Hqd q' Hne t Ha). left. }
    rewrite !fn_lookup_insert_ne by done. apply in_insert in Ha as [[-> Ha]|[_ Ha]]; [apply (tr_blocked _ _ _ Hr q); rewrite E; by right|by apply (tr_blocked _ _ _ Hr q')].
  - intros a Ha. destruct (decide (a = t)) as [->|]; [rewrite !fn_lookup_insert|rewrite !fn_lookup_insert_ne by done]; [done|by apply (tr_local _ _ _ Hr)].
  - intros a Ha. rewrite elem_of_app. destruct (tr_somewhere _ _ _ Hr a Ha) as [|[q' Hq']]; [tauto|]. destruct (decide (a = t)) as [->|]; [left; right; left|].
    right. exists q'. destruct (decide (q' = q)) as [->|]; [rewrite fn_lookup_insert|by rewrite fn_lookup_insert_ne]. rewrite E in Hq'. apply elem_of_cons in Hq' as [|]; done.
  - destruct (tr_current _ _ _ Hr); [by left|right]. apply elem_of_app. by left.
  - apply (tr_haswork _ _ _ Hr).
Qed.

(** The thread that runs after the current one has left the run queue. *)
Lemma next_after k q r1 me r2 : ring k q (r1 ++ me :: r2) -> nxt k me = default me (head (r2 ++ r1)).
Proof.
  intros Hr. rewrite (ring_next _ _ _ _ _ Hr). rewrite (ring_head _ _ _ Hr). destruct r2 as [|x r2]; [|done]. by destruct r1.
Qed.

Lemma block_rep R Q r1 r2 q s : trep R Q s -> current s <> 0 -> R = r1 ++ current s :: r2 ->
  exists s', thread_block_disabled (Some q) s = Done s' /\ trep (r1 ++ r2) (<[q := Q q ++ [current s]]> Q) s' /\ current s' = default 0 (head (r2 ++ r1)) /\
    polled_channels s' = polled_channels s.
Proof.
  intros Hr Hc ->. set (me := current s) in *. assert (Hme : me ∈ r1 ++ me :: r2) by (apply elem_of_app; right; left).
  pose proof (tr_run _ _ _ Hr) as Hrun. assert (Hma : me ∈ all) by (by apply (proj2 Hrun)).
  assert (Hmq : forall q', me ∉ Q q') by (intros q'; by apply (tr_apart _ _ _ Hr)).
  assert (Hm' : me ∉ r1 ++ r2) by (apply nodup_middle, (ring_nodup _ _ _ (proj1 Hrun))).
  assert (Hin : forall a, a ∈ r1 ++ r2 -> a ∈ r1 ++ me :: r2) by (intros a; rewrite !elem_of_app, elem_of_cons; tauto).
  unfold thread_block_disabled. fold me. rewrite (next_after _ _ _ _ _ (proj1 Hrun)). set (next := default me (head (r2 ++ r1))).
  assert (Hn0 : next <> 0).
  { apply all_nonnull, (proj2 Hrun). unfold next. destruct (r2 ++ r1) as [|x l] eqn:E; [done|]. apply Hin. rewrite (Permutation_app_comm r1 r2), E. left. }
  zdecide. rewrite bool_decide_true by apply (tr_state _ _ _ Hr me Hme). cbn [negb assert mbind outcome_bind set_thr runq tlinks].
  destruct (thread_remove_ring _ _ _ _ _ Hrun) as (rq & k1 & -> & Hrun' & Hu1 & _). cbn [mbind outcome_bind set_runq set_thr queues tlinks].
  assert (Hqs : forall q', tring k1 (queues s q') (Q q')).
  { intros q'. eapply tring_untouched; [exact Hu1| |apply (tr_queue _ _ _ Hr)]. intros a Ha Ha'. by apply (tr_apart _ _ _ Hr q' a). }
  destruct (thread_enqueue_ring _ _ _ me (Hqs q) Hma (Hmq q)) as (h & k2 & -> & Hq' & Hu2). cbn [mbind outcome_bind set_queue set_runq set_thr runq set_current set_haswork].
  assert (Hrun2 : tring k2 rq (r1 ++ r2)).
  { eapply tring_untouched; [exact Hu2| |done]. intros a Ha [->|Haq]%elem_of_cons; [done|]. by apply (tr_apart _ _ _ Hr q a (Hin a Ha)). }
  assert (Hnew : forall q' a, a ∈ <[q := Q q ++ [me]]> Q q' -> (a = me /\ q' = q) \/ (a <> me /\ a ∈ Q q')).
  { intros q' a [[-> [Ha|Ha%list_elem_of_singleton]%elem_of_app]|[_ Ha]]%in_insert; [right|by left|right]; (split; [intros ->; by apply (Hmq _ Ha)|done]). }
  assert (Hrep : forall c b, (c = 0 \/ c ∈ r1 ++ r2) -> (c <> 0 -> b = true) ->
    trep (r1 ++ r2) (<[q := Q q ++ [me]]> Q) (Threads k2 (<[me := with_state THREAD_STATE_BLOCKED (thr s me)]> (thr s)) (<[q := h]> (queues s)) rq c (lmp_send_events_list s) (polled_channels s) (timeslice s) b)).
  { intros c b Hcur Hhas. constructor; cbn [tlinks thr queues runq current haswork]; [done|..|done|done].
    - intros q'. destruct (decide (q' = q)) as [->|Hne]; [by rewrite !fn_lookup_insert|rewrite !fn_lookup_insert_ne by done].
      eapply tring_untouched; [exact Hu2| |apply Hqs]. intros a Ha [->|Haq]%elem_of_cons; [by apply (Hmq q')|]. by apply Hne, (tr_one _ _ _ Hr _ _ a).
    - intros q' a Ha [[-> _]|[_ Haq]]%Hnew; [done|by apply (tr_apart _ _ _ Hr q' a (Hin a Ha))].
    - intros q1 q2 a [[-> ->]|[? H1]]%Hnew [[? ->]|[? H2]]%Hnew; [done..|by apply (tr_one _ _ _ Hr _ _ a)].
    - intros a Ha. assert (a <> me) by congruence. rewrite fn_lookup_insert_ne by done. by apply (tr_state _ _ _ Hr), Hin.
    - intros q' a Ha. destruct (decide (a = me)) as [->|]; [by rewrite fn_lookup_insert|]. rewrite fn_lookup_insert_ne by done.
      apply Hnew in Ha as [[? _]|[_ Ha]]; [done|by apply (tr_blocked _ _ _ Hr q')].
    - intros a Ha. destruct (decide (a = me)) as [->|]; [rewrite fn_lookup_insert|rewrite fn_lookup_insert_ne by done]; by apply (tr_local _ _ _ Hr).
    - intros a Ha. destruct (decide (a = me)) as [->|].
      { right. exists q. rewrite fn_lookup_insert. apply elem_of_app. right. left. }
      destruct (tr_somewhere _ _ _ Hr a Ha) as [Hx|[q' Hx]].
      + left. rewrite elem_of_app, elem_of_cons in Hx. rewrite elem_of_app. tauto.
      + right. exists q'. destruct (decide (q' = q)) as [->|]; [rewrite fn_lookup_insert, elem_of_app; by left|by rewrite fn_lookup_insert_ne]. }
  pose proof (ring_head _ _ _ (proj1 Hrun')) as Erq. unfold next in *. destruct (r2 ++ r1) as [|x l] eqn:E; cbn [head default from_option id] in *.
  - apply app_eq_nil in E as [-> ->]. cbn in Erq. subst rq. rewrite Z.eqb_refl. cbn [negb Z.eqb assert mbind outcome_bind]. eexists. split; [done|]. split; [|done].
    apply Hrep; [by left|done].
  - assert (Hx : x ∈ r1 ++ r2) by (rewrite (Permutation_app_comm r1 r2), E; left). assert (x <> me) by congruence. zdecide. cbn [negb].
    assert (Hrq : rq <> 0).
    { subst rq. destruct (r1 ++ r2) as [|y l'] eqn:E'; [by apply elem_of_nil in Hx|]. cbn. apply all_nonnull, (proj2 Hrun'). left. }
    zdecide. cbn [negb assert mbind outcome_bind]. eexists. split; [done|]. split; [|done]. apply Hrep; [by right|]. intros _. by apply (tr_haswork _ _ _ Hr).
Qed.

Lemma unblock_loop_rep q reason : forall l R Q s fuel, trep R Q s -> Q q = l -> (length l < fuel)%nat ->
  exists s', unblock_loop handle fuel q reason 0 s = Done (0, s') /\ trep (R ++ l) (<[q := []]> Q) s' /\ current s' = current s /\ polled_channels s' = polled_channels s.
Proof.
  induction l as [|t l IH]; intros R Q s fuel Hr E Hf; (destruct fuel as [|fuel]; [cbn in Hf; lia|]); cbn [unblock_loop].
  - pose proof (tr_queue _ _ _ Hr q) as [Hq _]. rewrite E in Hq. apply ring_empty in Hq. rewrite Hq. cbn. exists s. rewrite app_nil_r. split_and!; try done.
    apply (trep_ext _ Q); [|done]. intros q'. destruct (decide (q' = q)) as [->|]; [by rewrite fn_lookup_insert|by rewrite fn_lookup_insert_ne].
  - destruct (unblock_one_rep R Q q t l reason s Hr E) as (s1 & E1 & Hr1 & Hc1 & Hp1).
    pose proof (tr_queue _ _ _ Hr q) as Hq. rewrite E in Hq.
    assert (queues s q <> 0) by (rewrite (ring_head _ _ _ (proj1 Hq)); apply all_nonnull, (proj2 Hq); left). zdecide. rewrite E1. cbn [mbind outcome_bind negb Z.eqb].
    destruct (IH (R ++ [t]) (<[q := l]> Q) s1 fuel Hr1 ltac:(apply fn_lookup_insert) ltac:(cbn in Hf; lia)) as (s2 & E2 & Hr2 & Hc2 & Hp2).
    exists s2. rewrite <- app_assoc in Hr2. cbn [app] in Hr2. split_and!; [done| |congruence|congruence].
    apply (trep_ext _ (<[q := []]> (<[q := l]> Q))); [|done]. intros q'. destruct (decide (q' = q)) as [->|]; [by rewrite !fn_lookup_insert|by rewrite !fn_lookup_insert_ne].
Qed.

Lemma unblock_all_rep R Q q reason s : trep R Q s ->
  exists s', thread_unblock_all_disabled handle q reason s = Done (0, s') /\ trep (R ++ Q q) (<[q := []]> Q) s' /\ current s' = current s /\ polled_channels s' = polled_channels s.
Proof.
  intros Hr. unfold thread_unblock_all_disabled. apply (unblock_loop_rep q reason (Q q) R Q s _ Hr eq_refl).
  pose proof (tr_queue _ _ _ Hr q) as [Hq Hs]. pose proof (NoDup_submseteq _ _ (ring_nodup _ _ _ Hq) Hs) as H. apply submseteq_length in H. lia.
Qed.

Lemma run_rep R Q s : trep R Q s -> exists s', thread_run_disabled s = Done s' /\ trep R Q s' /\ (R <> [] -> current s' ∈ R) /\ polled_channels s' = polled_channels s.
Proof.
  intros Hr. pose proof (tr_run _ _ _ Hr) as [Hrun Hs]. unfold thread_run_disabled.
  assert (Hhead : R <> [] -> runq s ∈ R) by (intros Hne; rewrite (ring_head _ _ _ Hrun); destruct R; [done|left]).
  assert (Hswitch : forall c b, (c = 0 \/ c ∈ R) -> (c <> 0 -> b = true) -> trep R Q (set_haswork b (set_current c s))).
  { intros c b Hc Hb. destruct Hr as [H1 H2 H3 H4 H5 H6 H7 H8 H9 H10]. by constructor. }
  destruct (tr_current _ _ _ Hr) as [Hc|Hc].
  - rewrite Hc. cbn [Z.eqb negb]. destruct (Z.eqb_spec (runq s) 0) as [E|E]; cbn [negb].
    + eexists. split; [done|]. assert (R = []) as -> by (destruct R as [|x l]; [done|]; by destruct (all_nonnull _ (Hs _ (Hhead ltac:(done))))).
      split_and!; [apply (Hswitch 0 (havework_disabled s)); [by left|done]|done|done].
    + eexists. split; [done|]. assert (Hin : runq s ∈ R) by (apply Hhead; intros ->; by apply ring_empty in Hrun). split_and!; [by apply Hswitch; [right|]|done|done].
  - pose proof (all_nonnull _ (Hs _ Hc)) as Hc0. zdecide. cbn [negb].
    destruct (ring_neighbours _ _ _ _ Hrun Hc) as (Hn & _). pose proof (all_nonnull _ (Hs _ Hn)) as Hn0. zdecide.
    assert (runq s <> 0) by (apply all_nonnull, Hs, Hhead; intros ->; by apply elem_of_nil in Hc). zdecide. cbn [negb assert mbind outcome_bind].
    destruct (Z.eqb_spec (nxt (tlinks s) (current s)) (current s)) as [E|E]; cbn [negb]; (eexists; split; [done|]); [done|].
    split_and!; [|done|done]. pose proof (Hswitch (nxt (tlinks s) (current s)) (haswork s) ltac:(by right)) as Hsw. apply Hsw. intros _. by apply (tr_haswork _ _ _ Hr).
Qed.

(** Moving the head of a queue. *)
Lemma rotate_rep R Q q l1 t l2 s : trep R Q s -> Q q = l1 ++ t :: l2 -> trep R (<[q := t :: l2 ++ l1]> Q) (set_queue q t (tlinks s) s).
Proof.
  intros [H1 H2 H3 H4 H5 H6 H7 H8 H9 H10] E.
  assert (Hin : forall q' x, x ∈ <[q := t :: l2 ++ l1]> Q q' <-> x ∈ Q q').
  { intros q' x. destruct (decide (q' = q)) as [->|]; [rewrite fn_lookup_insert, E|by rewrite fn_lookup_insert_ne]. rewrite elem_of_cons, !elem_of_app, elem_of_cons. tauto. }
  constructor; cbn [set_queue tlinks thr queues runq current haswork]; try done; try (intros *; setoid_rewrite Hin; eauto; fail).
  intros q'. destruct (decide (q' = q)) as [->|]; [rewrite !fn_lookup_insert|by rewrite !fn_lookup_insert_ne].
  destruct (H2 q) as [Hr Hs]. rewrite E in Hr, Hs. split; [by eapply ring_rotate|]. intros x Hx. apply Hs. rewrite elem_of_cons, elem_of_app in Hx. rewrite elem_of_app, elem_of_cons. tauto.
Qed.

(** ** Yielding *)

(** The threads behind [me] that did not yield in this time slice. *)
Definition fresh (s : threads) (l : list Z) : list Z := filter (fun t => yield_epoch (thr s t) <> timeslice s) l.

Lemma fresh_ext s s' l : timeslice s' = timeslice s -> (forall t, t ∈ l -> thr s' t = thr s t) -> fresh s' l = fresh s l.
Proof.
  intros Et. unfold fresh. induction l as [|x l IH]; intros H; [done|]. rewrite !filter_cons, IH by (intros; apply H; by right).
  rewrite Et, (H x) by left. by destruct (decide _).
Qed.

Lemma yield_loop_spec me r s : ring (tlinks s) me (me :: r) -> 0 ∉ me :: r ->
  forall l2 fuel l1 x, me :: r = l1 ++ x :: l2 -> (length l2 < fuel)%nat -> yield_loop fuel me x s = Done (default me (head (fresh s l2))).
Proof.
  intros Hr H0. induction l2 as [|y l2 IH]; intros fuel l1 x E Hf; (destruct fuel as [|fuel]; [cbn in Hf; lia|]); cbn [yield_loop];
    (assert (x <> 0) by (intros ->; apply H0; rewrite E; apply elem_of_app; right; left)); zdecide; cbn [negb assert mbind outcome_bind];
    pose proof Hr as Hr'; rewrite E in Hr'; rewrite (ring_next _ _ _ _ _ Hr'); cbn [head default from_option id].
  - by rewrite Z.eqb_refl.
  - assert (y <> me).
    { pose proof (ring_nodup _ _ _ Hr) as Hn. destruct l1 as [|a l1]; cbn [app] in E; injection E as <- Er; apply NoDup_cons in Hn as [Hn _]; rewrite Er in Hn; intros ->; apply Hn.
      - left.
      - apply elem_of_app. right. right. left. }
    zdecide. unfold fresh. destruct (Z.eqb_spec (yield_epoch (thr s y)) (timeslice s)) as [Ey|Ey].
    + rewrite filter_cons_False by (intros H'; by apply H'). apply (IH fuel (l1 ++ [x])); [by rewrite <- app_assoc|cbn in Hf; lia].
    + by rewrite filter_cons_True.
Qed.

Lemma yield_rep R Q r1 r2 s : trep R Q s -> R = r1 ++ current s :: r2 -> current s <> 0 -> polled_channels s = 0 ->
  exists s', thread_yield s = Done s' /\ trep R Q s' /\ current s' = default (current s) (head (fresh s (r2 ++ r1))) /\ polled_channels s' = polled_channels s.
Proof.
  intros Hr E Hc Hp. pose proof (tr_run _ _ _ Hr) as [Hrun Hs]. set (me := current s) in *. unfold thread_yield. fold me.
  set (s1 := set_thr me (with_epoch (timeslice s)) s). rewrite E in Hrun. pose proof (ring_rotate _ _ _ _ _ Hrun) as Hrot. rewrite <- E in Hrun.
  assert (Hlen : (length (r2 ++ r1) < MAX_THREADS)%nat).
  { pose proof (NoDup_submseteq _ _ (ring_nodup _ _ _ Hrun) Hs) as H. apply submseteq_length in H. rewrite E, length_app in H. cbn in H. rewrite length_app. lia. }
  assert (Hme : me ∈ R) by (rewrite E; apply elem_of_app; right; left).
  rewrite (yield_loop_spec me (r2 ++ r1) s1 Hrot (ring_nonnull _ _ _ Hrot) (r2 ++ r1) MAX_THREADS [] me eq_refl Hlen). cbn [mbind outcome_bind].
  change (polled_channels s1) with (polled_channels s). rewrite Hp. cbn [Z.eqb negb].
  assert (Ef : fresh s1 (r2 ++ r1) = fresh s (r2 ++ r1)).
  { pose proof (ring_nodup _ _ _ Hrot) as Hn. apply NoDup_cons in Hn as [Hn _]. apply fresh_ext; [done|]. intros x Hx.
    assert (x <> me) by congruence. unfold s1. cbn [thr set_thr]. by rewrite fn_lookup_insert_ne. }
  rewrite Ef. set (next := default me (head (fresh s (r2 ++ r1)))).
  assert (Hrep : trep R Q s1).
  { destruct Hr as [H1 H2 H3 H4 H5 H6 H7 H8 H9 H10]. constructor; try done; unfold s1; cbn [set_thr thr tlinks]; intros *; [intros Ht|intros Ht|intros Ht];
      (destruct (decide (t = me)) as [->|]; [rewrite fn_lookup_insert|rewrite fn_lookup_insert_ne by done]); cbn; eauto. }
  destruct (Z.eqb_spec next me) as [En|En]; cbn [negb].
  - assert (Hrq : runq s <> 0) by (rewrite (ring_head _ _ _ Hrun); apply all_nonnull, Hs; destruct R; [by apply elem_of_nil in Hme|left]).
    change (runq s1) with (runq s). change (haswork s1) with (haswork s). rewrite (tr_haswork _ _ _ Hr Hc). zdecide. cbn [negb assert mbind outcome_bind].
    exists s1. split_and!; [done|done|by rewrite En|done].
  - eexists. split; [done|]. split; [|done]. destruct Hrep as [H1 H2 H3 H4 H5 H6 H7 H8 H9 H10]. constructor; try done.
    + right. cbn [set_current current]. unfold next in *. destruct (fresh s (r2 ++ r1)) as [|y l] eqn:Ey; [done|]. cbn.
      assert (Hy : y ∈ fresh s (r2 ++ r1)) by (rewrite Ey; left). apply list_elem_of_filter in Hy as [_ Hy]. rewrite E. rewrite elem_of_app in *. rewrite elem_of_cons. tauto.
    + intros _. apply (tr_haswork _ _ _ Hr Hc).
Qed.
End Threads.
