(* ===== verification/ThreadSyncCorrect.v ===== *)
(** Correctness of ThreadSync.v: every sequence of calls that threads make,
    with every way of switching between them. *)
From S2P Require Import Prelude Ring Threads ThreadSync ThreadsCorrect.

(** What a call on one object leaves of the others. *)
Record same_sync (s s' : sync) : Prop := {
  same_mutex : forall m, mutex_at s' m = mutex_at s m;
  same_cond : forall c, cond_lock s' c = cond_lock s c;
  same_sem : forall x, sem_at s' x = sem_at s x
}.

Lemma same_refl s : same_sync s s.
Proof. done. Qed.

Ltac flk := cbn [ts mutex_at cond_lock sem_at with_ts set_mutex set_cond set_sem]; repeat first [rewrite fn_lookup_insert | rewrite fn_lookup_insert_ne by congruence].
Ltac at_key a b := destruct (decide (a = b)) as [->|]; flk.

Section Sync.
Context (all : list Z) (Hbound : (length all < MAX_THREADS)%nat) (Hpage : Forall (fun t => BASE_PAGE_SIZE < t) all) (handle : Z).
#[local] Notation rep := (trep all handle).

(** * Calls of one thread *)

Lemma current_split R Q (s : threads) : rep R Q s -> current s <> 0 -> exists r1 r2, R = r1 ++ current s :: r2.
Proof. intros Hr Hc. destruct (tr_current _ _ _ _ _ Hr) as [|H]; [done|]. by apply list_elem_of_split in H. Qed.

Lemma lock_free m s : m_lock (mutex_at s m) = false -> locked (mutex_at s m) <= 0 ->
  thread_mutex_lock m s = Done (set_mutex m (Mutex 1 false (current (ts s))) (set_mutex m (spin_mutex true (mutex_at s m)) s)).
Proof.
  intros Hs Hl. unfold thread_mutex_lock. rewrite Hs. cbn [acquire_spinlock mbind outcome_bind]. flk. cbn [locked spin_mutex]. by zdecide.
Qed.

Lemma block_on_mutex_rep R Q r1 r2 m s : rep R Q (ts s) -> current (ts s) <> 0 -> R = r1 ++ current (ts s) :: r2 -> m_lock (mutex_at s m) = false ->
  exists s', block_on_mutex m (set_mutex m (spin_mutex true (mutex_at s m)) s) = Done s' /\
    rep (r1 ++ r2) (<[m := Q m ++ [current (ts s)]]> Q) (ts s') /\ same_sync s s' /\ polled_channels (ts s') = polled_channels (ts s).
Proof.
  intros Hr Hc HR Hs. destruct (block_rep _ Hbound Hpage handle R Q r1 r2 m (ts s) Hr Hc HR) as (t & E & Hr' & _ & Hp). unfold block_on_mutex. flk. rewrite E. cbn [mbind outcome_bind].
  eexists. split; [done|]. split; [done|]. split; [|done]. constructor; intros a; [at_key a m; [|done]|done..]. destruct (mutex_at s m); cbn in *; by subst.
Qed.

Lemma block_on_cond_rep R Q r1 r2 c s : rep R Q (ts s) -> current (ts s) <> 0 -> R = r1 ++ current (ts s) :: r2 ->
  exists s', block_on_cond c s = Done s' /\ rep (r1 ++ r2) (<[c := Q c ++ [current (ts s)]]> Q) (ts s') /\ polled_channels (ts s') = polled_channels (ts s) /\
    (forall m, mutex_at s' m = mutex_at s m) /\ (forall x, sem_at s' x = sem_at s x) /\ (forall a, cond_lock s' a = <[c := false]> (cond_lock s) a).
Proof.
  intros Hr Hc HR. destruct (block_rep _ Hbound Hpage handle R Q r1 r2 c (ts s) Hr Hc HR) as (t & E & Hr' & _ & Hp). unfold block_on_cond. rewrite E. cbn [mbind outcome_bind].
  by eexists.
Qed.

Lemma block_on_sem_rep R Q r1 r2 x s : rep R Q (ts s) -> current (ts s) <> 0 -> R = r1 ++ current (ts s) :: r2 -> s_lock (sem_at s x) = false ->
  exists s', block_on_sem x (set_sem x (spin_sem true (sem_at s x)) s) = Done s' /\
    rep (r1 ++ r2) (<[x := Q x ++ [current (ts s)]]> Q) (ts s') /\ same_sync s s' /\ polled_channels (ts s') = polled_channels (ts s).
Proof.
  intros Hr Hc HR Hs. destruct (block_rep _ Hbound Hpage handle R Q r1 r2 x (ts s) Hr Hc HR) as (t & E & Hr' & _ & Hp). unfold block_on_sem. flk. rewrite E. cbn [mbind outcome_bind].
  eexists. split; [done|]. split; [done|]. split; [|done]. constructor; intros a; [done|done|at_key a x; [|done]]. destruct (sem_at s x); cbn in *; by subst.
Qed.

(** Unlocking a mutex that is locked once hands it to the first thread of the
    queue. *)
Lemma unlock_rep R Q m s : rep R Q (ts s) -> m_lock (mutex_at s m) = false -> locked (mutex_at s m) = 1 ->
  exists s', thread_mutex_unlock_disabled handle m s = Done (0, s') /\
    rep (R ++ take 1 (Q m)) (<[m := drop 1 (Q m)]> Q) (ts s') /\ current (ts s') = current (ts s) /\ polled_channels (ts s') = polled_channels (ts s) /\
    mutex_at s' m = match Q m with [] => Mutex 0 false 0 | t :: _ => Mutex 1 false t end /\
    (forall a, a <> m -> mutex_at s' a = mutex_at s a) /\ (forall c, cond_lock s' c = cond_lock s c) /\ (forall x, sem_at s' x = sem_at s x).
Proof.
  intros Hr Hs Hl. unfold thread_mutex_unlock_disabled. rewrite Hs. cbn [acquire_spinlock mbind outcome_bind]. flk. cbn [locked spin_mutex]. rewrite Hl. cbn [Z.ltb Z.compare assert mbind outcome_bind].
  pose proof (tr_queue _ _ _ _ _ Hr m) as [Hq Hsub]. destruct (Q m) as [|t l] eqn:E.
  - apply ring_empty in Hq. rewrite Hq. cbn [Z.eqb negb Pos.eqb mbind outcome_bind]. eexists. split; [done|]. flk. rewrite app_nil_r.
    split; [apply (trep_ext _ _ _ Q); [|done]; intros q; destruct (decide (q = m)) as [->|]; [by rewrite fn_lookup_insert|by rewrite fn_lookup_insert_ne]|].
    split_and!; try done. intros a Ha. by flk.
  - pose proof (ring_head _ _ _ Hq) as Hh. cbn in Hh. assert (t <> 0) by (apply (all_nonnull all Hpage), Hsub; left). rewrite Hh. zdecide. cbn [Z.eqb negb Pos.eqb].
    destruct (unblock_one_rep _ Hbound Hpage handle R Q m t l 0 (ts s) Hr E) as (t' & E' & Hr' & Hc & Hp). flk. rewrite E'. cbn [mbind outcome_bind].
    eexists. split; [done|]. flk. split_and!; try done. intros a Ha. by flk.
Qed.

(** * The system

    A state together with what the theorems speak about: which threads have
    to lock a mutex again behind [thread_cond_wait], the line of the threads
    that asked for a mutex and did not release it, and the credit of a
    semaphore, its first value and the posts without the waits. *)

Inductive kind := KMutex | KCond | KSem.
Context (kind_of : Z -> kind).

Inductive call :=
| Lock (m : Z) | LockNested (m : Z) | TryLock (m : Z) | Unlock (m : Z)
| CondWait (c m : Z) | Signal (c : Z) | Broadcast (c : Z)
| SemWait (x : Z) | SemTryWait (x : Z) | SemPost (x : Z) | Yield.

Definition exec (c : call) (s : sync) : outcome sync :=
  match c with
  | Lock m => thread_mutex_lock m s
  | LockNested m => thread_mutex_lock_nested m s
  | TryLock m => '(_, s) ← thread_mutex_trylock m s; Done s
  | Unlock m => thread_mutex_unlock handle m s
  | CondWait c m => thread_cond_wait handle c (Some m) s
  | Signal c => thread_cond_signal handle c s
  | Broadcast c => thread_cond_broadcast handle c s
  | SemWait x => thread_sem_wait x s
  | SemTryWait x => '(_, s) ← thread_sem_trywait x s; Done s
  | SemPost x => thread_sem_post handle x s
  | Yield => t ← thread_yield (ts s); Done (with_ts t s)
  end.

Record sys := Sys { st : sync; relock : Z -> option Z; line : Z -> list Z; credit : Z -> Z }.

Definition me (g : sys) : Z := current (ts (st g)).

(** What a thread may call: a mutex is unlocked by its holder, and given up
    for a condition variable when it is locked once; no thread locks a mutex
    that it holds, except with [thread_mutex_lock_nested]; the value of a
    semaphore does not overflow. *)
Definition allowed (c : call) (g : sys) : Prop :=
  match c with
  | Lock m => kind_of m = KMutex /\ me g ∉ line g m
  | LockNested m | TryLock m => kind_of m = KMutex
  | Unlock m => kind_of m = KMutex /\ holder (mutex_at (st g) m) = me g
  | CondWait c m => kind_of c = KCond /\ kind_of m = KMutex /\ holder (mutex_at (st g) m) = me g /\ locked (mutex_at (st g) m) = 1
  | Signal c | Broadcast c => kind_of c = KCond
  | SemWait x | SemTryWait x => kind_of x = KSem
  | SemPost x => kind_of x = KSem /\ value (sem_at (st g) x) < 2 ^ 32 - 1
  | Yield => True
  end.

Definition line_after (c : call) (g : sys) : Z -> list Z :=
  match c with
  | Lock m => <[m := line g m ++ [me g]]> (line g)
  | LockNested m => if holder (mutex_at (st g) m) =? me g then line g else <[m := line g m ++ [me g]]> (line g)
  | TryLock m => if locked (mutex_at (st g) m) =? 0 then <[m := [me g]]> (line g) else line g
  | Unlock m => if locked (mutex_at (st g) m) =? 1 then <[m := drop 1 (line g m)]> (line g) else line g
  | CondWait _ m => <[m := drop 1 (line g m)]> (line g)
  | _ => line g
  end.

Definition credit_after (c : call) (g : sys) : Z -> Z :=
  match c with
  | SemWait x => <[x := credit g x - 1]> (credit g)
  | SemTryWait x => if 1 <=? value (sem_at (st g) x) then <[x := credit g x - 1]> (credit g) else credit g
  | SemPost x => <[x := credit g x + 1]> (credit g)
  | _ => credit g
  end.

Definition relock_after (c : call) (g : sys) : Z -> option Z :=
  match c with CondWait _ m => <[me g := Some m]> (relock g) | _ => relock g end.

Inductive step : sys -> sys -> Prop :=
| step_call c g s' : me g <> 0 -> relock g (me g) = None -> allowed c g -> exec c (st g) = Done s' ->
    step g (Sys s' (relock_after c g) (line_after c g) (credit_after c g))
| step_relock m g s' : me g <> 0 -> relock g (me g) = Some m -> thread_mutex_lock m (st g) = Done s' ->
    step g (Sys s' (<[me g := None]> (relock g)) (<[m := line g m ++ [me g]]> (line g)) (credit g))
| step_run g t : thread_run_disabled (ts (st g)) = Done t ->
    step g (Sys (with_ts t (st g)) (relock g) (line g) (credit g)).

(** ** The invariant *)

Record mutex_ok (x : thread_mutex) (l q : list Z) : Prop := {
  mo_spin : m_lock x = false;
  mo_free : locked x = 0 -> holder x = 0 /\ l = [] /\ q = [];
  mo_held : locked x <> 0 -> 0 < locked x /\ holder x ∈ all /\ l = holder x :: q /\ NoDup l
}.

Record sem_ok (x : thread_sem) (n : Z) (q : list Z) : Prop := {
  so_spin : s_lock x = false;
  so_range : 0 <= value x < 2 ^ 32;
  so_wait : value x = 0 \/ q = [];
  so_credit : value x - Z.of_nat (length q) = n
}.

Record sinv (R : list Z) (Q : Z -> list Z) (g : sys) : Prop := {
  si_rep : rep R Q (ts (st g));
  si_polled : polled_channels (ts (st g)) = 0;
  si_mutex : forall m, kind_of m = KMutex -> mutex_ok (mutex_at (st g) m) (line g m) (Q m);
  si_cond : forall c, kind_of c = KCond -> cond_lock (st g) c = false;
  si_sem : forall x, kind_of x = KSem -> sem_ok (sem_at (st g) x) (credit g x) (Q x);
  si_relock : forall t m, relock g t = Some m -> kind_of m = KMutex /\ t ∉ line g m
}.

(** A step that changes one mutex or one semaphore, and queues of condition
    variables. *)
Lemma sinv_update a R Q g s' R' Q' rl' line' credit' : sinv R Q g -> rep R' Q' (ts s') -> polled_channels (ts s') = 0 ->
  (forall q, q <> a -> kind_of q <> KCond -> Q' q = Q q /\ mutex_at s' q = mutex_at (st g) q /\ sem_at s' q = sem_at (st g) q /\ line' q = line g q /\ credit' q = credit g q) ->
  (forall c, kind_of c = KCond -> cond_lock s' c = false) ->
  (kind_of a = KMutex -> mutex_ok (mutex_at s' a) (line' a) (Q' a)) -> (kind_of a = KSem -> sem_ok (sem_at s' a) (credit' a) (Q' a)) ->
  (forall t m, rl' t = Some m -> kind_of m = KMutex /\ t ∉ line' m) -> sinv R' Q' (Sys s' rl' line' credit').
Proof.
  intros Hi Hr Hp Hsame Hco Hm Hs Hrl. constructor; cbn [st line credit relock]; try done.
  - intros m Hk. destruct (decide (m = a)) as [->|Hne]; [by apply Hm|]. destruct (Hsame m Hne ltac:(congruence)) as (-> & -> & _ & -> & _). by apply (si_mutex _ _ _ Hi).
  - intros x Hk. destruct (decide (x = a)) as [->|Hne]; [by apply Hs|]. destruct (Hsame x Hne ltac:(congruence)) as (-> & _ & -> & _ & ->). by apply (si_sem _ _ _ Hi).
Qed.

(** The threads that still have to lock are not the one that joins a line. *)
Lemma relock_join m g R Q : sinv R Q g -> relock g (me g) = None ->
  forall t m', relock g t = Some m' -> kind_of m' = KMutex /\ t ∉ <[m := line g m ++ [me g]]> (line g) m'.
Proof.
  intros Hi Hn t m' Ht. destruct (si_relock _ _ _ Hi t m' Ht) as [Hk Hl]. split; [done|]. assert (t <> me g) by congruence.
  destruct (decide (m' = m)) as [->|]; [rewrite fn_lookup_insert|by rewrite fn_lookup_insert_ne]. rewrite elem_of_app. intros [|Hx%list_elem_of_singleton]; done.
Qed.

Lemma relock_leave m g R Q : sinv R Q g -> forall t m', relock g t = Some m' -> kind_of m' = KMutex /\ t ∉ <[m := drop 1 (line g m)]> (line g) m'.
Proof.
  intros Hi t m' Ht. destruct (si_relock _ _ _ Hi t m' Ht) as [Hk Hl]. split; [done|].
  destruct (decide (m' = m)) as [->|]; [rewrite fn_lookup_insert|by rewrite fn_lookup_insert_ne]. intros Hx. apply Hl. destruct (line g m); [done|by right].
Qed.

(** The current thread joins the line of a mutex, or gets it at once. *)
Lemma lock_ok m g R Q rl' : sinv R Q g -> me g <> 0 -> kind_of m = KMutex -> me g ∉ line g m ->
  (forall t m', rl' t = Some m' -> kind_of m' = KMutex /\ t ∉ <[m := line g m ++ [me g]]> (line g) m') ->
  exists s' R' Q', thread_mutex_lock m (st g) = Done s' /\ sinv R' Q' (Sys s' rl' (<[m := line g m ++ [me g]]> (line g)) (credit g)).
Proof.
  intros Hi Hme Hk Hl Hrl. pose proof (si_rep _ _ _ Hi) as Hr. destruct (current_split _ _ _ Hr Hme) as (r1 & r2 & HR). destruct (si_mutex _ _ _ Hi m Hk) as [Hsp Hf Hh].
  assert (Hma : me g ∈ all) by (apply (proj2 (tr_run _ _ _ _ _ Hr)); rewrite HR; apply elem_of_app; right; left).
  destruct (decide (locked (mutex_at (st g) m) = 0)) as [E|E].
  - rewrite lock_free by (done || lia). eexists _, R, Q. split; [done|]. destruct (Hf E) as (_ & El & Eq).
    apply (sinv_update m R Q g); [done|done|apply (si_polled _ _ _ Hi)|intros q Hq _; by flk|apply (si_cond _ _ _ Hi)| |congruence|done]. intros _. flk. constructor; [done|done|]. intros _. rewrite El, Eq. cbn. split_and!; [lia|done|done|apply NoDup_singleton].
  - destruct (Hh E) as (Hpos & Hha & El & Hn). destruct (block_on_mutex_rep _ _ _ _ m _ Hr Hme HR Hsp) as (s' & E' & Hr' & [Sm Sc Ss] & Hp).
    exists s', (r1 ++ r2), (<[m := Q m ++ [me g]]> Q). split.
    { unfold thread_mutex_lock. rewrite Hsp. cbn [acquire_spinlock mbind outcome_bind]. flk. cbn [locked spin_mutex]. by zdecide. }
    apply (sinv_update m R Q g); [done|done|rewrite Hp; apply (si_polled _ _ _ Hi)|intros q Hq _; rewrite Sm, Ss; by flk|intros c Hc; rewrite Sc; by apply (si_cond _ _ _ Hi)| |congruence|done].
    intros _. rewrite Sm. flk. constructor; [done|done|]. intros _. split_and!; [done|done|by rewrite El|]. apply NoDup_app. split_and!; [done| |apply NoDup_singleton].
    intros t Ht Ex%list_elem_of_singleton. by subst t.
Qed.

(** The holder of a mutex that is locked once leaves the line. *)
Lemma unlock_line m g R Q s1 : sinv R Q g -> kind_of m = KMutex -> locked (mutex_at (st g) m) = 1 ->
  mutex_at s1 m = match Q m with [] => Mutex 0 false 0 | t :: _ => Mutex 1 false t end ->
  mutex_ok (mutex_at s1 m) (drop 1 (line g m)) (drop 1 (Q m)).
Proof.
  intros Hi Hk El Em. destruct (si_mutex _ _ _ Hi m Hk) as [_ _ Hh]. destruct (Hh ltac:(lia)) as (_ & _ & Eline & Hn). rewrite Em. rewrite Eline in Hn |- *. cbn [drop].
  pose proof (proj2 (tr_queue _ _ _ _ _ (si_rep _ _ _ Hi) m)) as Hsub. apply NoDup_cons in Hn as [_ Hn].
  destruct (Q m) as [|t l]; constructor; cbn [locked holder m_lock drop]; try done. intros _. split_and!; [lia| |done|done]. apply Hsub. left.
Qed.

Lemma unlock_ok m g R Q : sinv R Q g -> me g <> 0 -> relock g (me g) = None -> kind_of m = KMutex -> holder (mutex_at (st g) m) = me g ->
  exists s' R' Q', thread_mutex_unlock handle m (st g) = Done s' /\ sinv R' Q' (Sys s' (relock g) (line_after (Unlock m) g) (credit g)).
Proof.
  intros Hi Hme Hrl Hk Hho. pose proof (si_rep _ _ _ Hi) as Hr. destruct (si_mutex _ _ _ Hi m Hk) as [Hsp Hf Hh]. unfold thread_mutex_unlock. cbn [line_after].
  destruct (Z.eqb_spec (locked (mutex_at (st g) m)) 1) as [El|El].
  - destruct (unlock_rep R Q m (st g) Hr Hsp El) as (s' & -> & Hr' & _ & Hp & Em & Sm & Sc & Ss). cbn [mbind outcome_bind resume_foreign yield_after Z.eqb negb].
    eexists s', _, _. split; [done|]. apply (sinv_update m R Q g _ _ _ _ _ _ Hi Hr').
    + rewrite Hp. apply (si_polled _ _ _ Hi).
    + intros q Hq _. rewrite Sm, Ss by done. by flk.
    + intros c Hc. rewrite Sc. by apply (si_cond _ _ _ Hi).
    + intros _. rewrite !fn_lookup_insert. by eapply unlock_line.
    + congruence.
    + by eapply relock_leave.
  - assert (E0 : locked (mutex_at (st g) m) <> 0) by (intros E; apply Hf in E as [E _]; congruence). destruct (Hh E0) as (Hpos & Hha & Eline & Hn).
    unfold thread_mutex_unlock_disabled. rewrite Hsp. cbn [acquire_spinlock mbind outcome_bind]. flk. cbn [locked spin_mutex holder]. zdecide.
    cbn [assert mbind outcome_bind resume_foreign yield_after Z.eqb negb]. eexists _, R, Q. split; [done|].
    apply (sinv_update m R Q g _ _ _ _ _ _ Hi); [done|apply (si_polled _ _ _ Hi)|intros q Hq _; by flk|apply (si_cond _ _ _ Hi)| |congruence|apply (si_relock _ _ _ Hi)].
    intros _. flk. constructor; cbn [locked holder m_lock spin_mutex]; [done|lia|]. intros _. split_and!; [lia|done..].
Qed.

Lemma cond_wait_ok c m g R Q : sinv R Q g -> me g <> 0 -> relock g (me g) = None -> allowed (CondWait c m) g ->
  exists s' R' Q', thread_cond_wait handle c (Some m) (st g) = Done s' /\ sinv R' Q' (Sys s' (relock_after (CondWait c m) g) (line_after (CondWait c m) g) (credit g)).
Proof.
  intros Hi Hme Hrl (Hkc & Hk & Hho & El). pose proof (si_rep _ _ _ Hi) as Hr. destruct (si_mutex _ _ _ Hi m Hk) as [Hsp Hf Hh]. destruct (Hh ltac:(lia)) as (Hpos & Hha & Eline & Hn).
  unfold thread_cond_wait. rewrite (si_cond _ _ _ Hi c Hkc). cbn [acquire_spinlock mbind outcome_bind].
  destruct (unlock_rep R Q m (set_cond c true (st g)) Hr Hsp El) as (s1 & -> & Hr1 & Hc1 & Hp1 & Em & Sm & Sc & Ss). cbn [mbind outcome_bind Z.eqb negb].
  assert (Hne : c <> m) by congruence. assert (Hme1 : current (ts s1) <> 0) by (rewrite Hc1; exact Hme).
  destruct (current_split _ _ _ Hr1 Hme1) as (r1 & r2 & HR).
  destruct (block_on_cond_rep _ _ _ _ c s1 Hr1 Hme1 HR) as (s2 & E2 & Hr2 & Hp2 & Tm & Ts & Tc). rewrite E2. eexists s2, _, _. split; [done|].
  apply (sinv_update m R Q g _ _ _ _ _ _ Hi Hr2).
  - rewrite Hp2, Hp1. apply (si_polled _ _ _ Hi).
  - intros q Hq Hkq. assert (q <> c) by congruence. rewrite Tm, Ts, Sm, Ss by done. cbn [line_after credit_after]. by flk.
  - intros a Ha. rewrite Tc. destruct (decide (a = c)) as [->|]; [by rewrite fn_lookup_insert|]. rewrite fn_lookup_insert_ne, Sc by done. flk. by apply (si_cond _ _ _ Hi).
  - intros _. rewrite Tm. cbn [line_after]. rewrite (fn_lookup_insert_ne _ c) by done. rewrite !fn_lookup_insert. by eapply unlock_line.
  - congruence.
  - intros t m'. cbn [relock_after line_after]. destruct (decide (t = me g)) as [->|Ht]; [rewrite fn_lookup_insert|rewrite fn_lookup_insert_ne by done; by eapply relock_leave].
    intros [= <-]. split; [done|]. rewrite fn_lookup_insert, Eline. cbn [drop]. rewrite <- Hho. rewrite Eline in Hn. by apply NoDup_cons in Hn as [Hn _].
Qed.

Lemma signal_ok c g R Q : sinv R Q g -> kind_of c = KCond ->
  exists s' R' Q', thread_cond_signal handle c (st g) = Done s' /\ sinv R' Q' (Sys s' (relock g) (line g) (credit g)).
Proof.
  intros Hi Hk. pose proof (si_rep _ _ _ Hi) as Hr. unfold thread_cond_signal. rewrite (si_cond _ _ _ Hi c Hk). cbn [acquire_spinlock mbind outcome_bind]. flk.
  pose proof (tr_queue _ _ _ _ _ Hr c) as [Hq Hsub].
  assert (Hcond : forall t a, kind_of a = KCond -> cond_lock (set_cond c false (with_ts t (set_cond c true (st g)))) a = false).
  { intros t a Ha. destruct (decide (a = c)) as [->|]; flk; [done|by apply (si_cond _ _ _ Hi)]. }
  destruct (Q c) as [|t l] eqn:E.
  - apply ring_empty in Hq. rewrite Hq. cbn [Z.eqb negb mbind outcome_bind yield_after]. eexists _, R, Q. split; [done|].
    apply (sinv_update c R Q g _ _ _ _ _ _ Hi); [done|apply (si_polled _ _ _ Hi)|done|apply (Hcond (ts (st g)))|congruence|congruence|apply (si_relock _ _ _ Hi)].
  - pose proof (ring_head _ _ _ Hq) as Hh. cbn in Hh. assert (t <> 0) by (apply (all_nonnull all Hpage), Hsub; left). rewrite Hh. zdecide. cbn [negb].
    destruct (unblock_one_rep _ Hbound Hpage handle R Q c t l 0 (ts (st g)) Hr E) as (t' & -> & Hr' & _ & Hp). cbn [mbind outcome_bind resume_foreign yield_after Z.eqb negb].
    eexists _, _, _. split; [done|]. apply (sinv_update c R Q g _ _ _ _ _ _ Hi); [exact Hr'|by flk; rewrite Hp; apply (si_polled _ _ _ Hi)| |apply Hcond|congruence|congruence|apply (si_relock _ _ _ Hi)].
    intros q Hq' _. by flk.
Qed.

Lemma broadcast_ok c g R Q : sinv R Q g -> kind_of c = KCond ->
  exists s' R' Q', thread_cond_broadcast handle c (st g) = Done s' /\ sinv R' Q' (Sys s' (relock g) (line g) (credit g)).
Proof.
  intros Hi Hk. pose proof (si_rep _ _ _ Hi) as Hr. unfold thread_cond_broadcast. rewrite (si_cond _ _ _ Hi c Hk). cbn [acquire_spinlock mbind outcome_bind]. flk.
  destruct (unblock_all_rep _ Hbound Hpage handle R Q c 0 (ts (st g)) Hr) as (t' & -> & Hr' & _ & Hp). cbn [mbind outcome_bind resume_all yield_after Z.eqb negb].
  eexists _, _, _. split; [done|]. apply (sinv_update c R Q g _ _ _ _ _ _ Hi); [exact Hr'|by flk; rewrite Hp; apply (si_polled _ _ _ Hi)| | |congruence|congruence|apply (si_relock _ _ _ Hi)].
  - intros q Hq' _. by flk.
  - intros a Ha. destruct (decide (a = c)) as [->|]; flk; [done|by apply (si_cond _ _ _ Hi)].
Qed.

Lemma lock_nested_ok m g R Q : sinv R Q g -> me g <> 0 -> relock g (me g) = None -> kind_of m = KMutex ->
  exists s' R' Q', thread_mutex_lock_nested m (st g) = Done s' /\ sinv R' Q' (Sys s' (relock g) (line_after (LockNested m) g) (credit g)).
Proof.
  intros Hi Hme Hrl Hk. destruct (si_mutex _ _ _ Hi m Hk) as [Hsp Hf Hh]. cbn [line_after]. destruct (Z.eqb_spec (holder (mutex_at (st g) m)) (me g)) as [E|E].
  - assert (E0 : locked (mutex_at (st g) m) <> 0) by (intros E0; apply Hf in E0 as [E0 _]; congruence). destruct (Hh E0) as (Hpos & Hha & Eline & Hn).
    unfold thread_mutex_lock_nested. rewrite Hsp. cbn [acquire_spinlock mbind outcome_bind]. flk. cbn [locked spin_mutex holder]. rewrite E. change (current (ts (st g))) with (me g).
    rewrite Z.eqb_refl. cbn [negb]. rewrite andb_false_r. eexists _, R, Q. split; [done|].
    apply (sinv_update m R Q g _ _ _ _ _ _ Hi); [apply (si_rep _ _ _ Hi)|apply (si_polled _ _ _ Hi)|intros q Hq _; by flk|apply (si_cond _ _ _ Hi)| |congruence|apply (si_relock _ _ _ Hi)].
    intros _. flk. constructor; cbn [locked holder m_lock]; [done|lia|]. intros _. rewrite <- E. split_and!; [lia|done..].
  - assert (Hnl : me g ∉ line g m).
    { destruct (decide (locked (mutex_at (st g) m) = 0)) as [E0|E0]; [apply Hf in E0 as (_ & -> & _); apply not_elem_of_nil|]. destruct (Hh E0) as (_ & _ & -> & _).
      pose proof (si_rep _ _ _ Hi) as Hr. destruct (tr_current _ _ _ _ _ Hr) as [Hx|Hx]; [done|]. apply not_elem_of_cons. split; [congruence|]. by apply (tr_apart _ _ _ _ _ Hr m) in Hx. }
    destruct (lock_ok m g R Q (relock g) Hi Hme Hk Hnl (relock_join m g R Q Hi Hrl)) as (s' & R' & Q' & Hl & Hi'). exists s', R', Q'. split; [|done]. rewrite <- Hl.
    unfold thread_mutex_lock, thread_mutex_lock_nested. rewrite Hsp. cbn [acquire_spinlock mbind outcome_bind]. flk. cbn [locked spin_mutex holder]. change (current (ts (st g))) with (me g).
    zdecide. cbn [negb]. rewrite andb_true_r. destruct (decide (locked (mutex_at (st g) m) = 0)) as [->|E0]; [done|]. by destruct (0 <? _) eqn:Epos; [|destruct (Hh E0); lia].
Qed.

Lemma trylock_ok m g R Q : sinv R Q g -> me g <> 0 -> relock g (me g) = None -> kind_of m = KMutex ->
  exists b s' R' Q', thread_mutex_trylock m (st g) = Done (b, s') /\ sinv R' Q' (Sys s' (relock g) (line_after (TryLock m) g) (credit g)).
Proof.
  intros Hi Hme Hrl Hk. destruct (si_mutex _ _ _ Hi m Hk) as [Hsp Hf Hh]. cbn [line_after]. destruct (Z.eqb_spec (locked (mutex_at (st g) m)) 0) as [E|E].
  - destruct (Hf E) as (Eh & El & Eq). assert (Hnl : me g ∉ line g m) by (rewrite El; apply not_elem_of_nil).
    destruct (lock_ok m g R Q (relock g) Hi Hme Hk Hnl (relock_join m g R Q Hi Hrl)) as (s' & R' & Q' & Hl & Hi'). rewrite El in Hi'. exists true, s', R', Q'. split; [|done].
    rewrite lock_free in Hl by (done || lia). injection Hl as <-. unfold thread_mutex_trylock. rewrite E, Hsp. cbn [Z.ltb Z.compare acquire_spinlock mbind outcome_bind]. flk. cbn [locked spin_mutex]. by rewrite E.
  - destruct (Hh E) as (Hpos & _). unfold thread_mutex_trylock. zdecide. exists false, (st g), R, Q. split; [done|]. by destruct g.
Qed.

Lemma sem_wait_ok x g R Q : sinv R Q g -> me g <> 0 -> kind_of x = KSem ->
  exists s' R' Q', thread_sem_wait x (st g) = Done s' /\ sinv R' Q' (Sys s' (relock g) (line g) (<[x := credit g x - 1]> (credit g))).
Proof.
  intros Hi Hme Hk. pose proof (si_rep _ _ _ Hi) as Hr. destruct (si_sem _ _ _ Hi x Hk) as [Hsp Hrg Hw Hc]. destruct (current_split _ _ _ Hr Hme) as (r1 & r2 & HR).
  unfold thread_sem_wait. rewrite Hsp. cbn [acquire_spinlock mbind outcome_bind]. flk. cbn [value spin_sem]. destruct (Z.ltb_spec (value (sem_at (st g) x)) 1) as [E|E].
  - destruct (block_on_sem_rep _ _ _ _ x _ Hr Hme HR Hsp) as (s' & -> & Hr' & [Sm Sc Ss] & Hp). eexists s', _, _. split; [done|].
    apply (sinv_update x R Q g _ _ _ _ _ _ Hi Hr'); [rewrite Hp; apply (si_polled _ _ _ Hi)|intros q Hq _; rewrite Sm, Ss; by flk|intros c Hc'; rewrite Sc; by apply (si_cond _ _ _ Hi)|congruence| |apply (si_relock _ _ _ Hi)].
    intros _. rewrite Ss, !fn_lookup_insert. constructor; [done|done|left; lia|]. rewrite length_app. cbn [length]. lia.
  - destruct Hw as [Hw|Hw]; [lia|]. eexists _, R, Q. split; [done|].
    apply (sinv_update x R Q g _ _ _ _ _ _ Hi); [done|apply (si_polled _ _ _ Hi)|intros q Hq _; by flk|apply (si_cond _ _ _ Hi)|congruence| |apply (si_relock _ _ _ Hi)].
    intros _. flk. rewrite Hw in *. cbn [length] in *. constructor; cbn [s_lock value]; rewrite ?u32_small by lia; [done|lia|by right|cbn; lia].
Qed.

Lemma sem_trywait_ok x g R Q : sinv R Q g -> kind_of x = KSem ->
  exists b s' R' Q', thread_sem_trywait x (st g) = Done (b, s') /\ sinv R' Q' (Sys s' (relock g) (line g) (credit_after (SemTryWait x) g)).
Proof.
  intros Hi Hk. pose proof (si_rep _ _ _ Hi) as Hr. destruct (si_sem _ _ _ Hi x Hk) as [Hsp Hrg Hw Hc]. cbn [credit_after].
  unfold thread_sem_trywait. rewrite Hsp. cbn [acquire_spinlock mbind outcome_bind]. destruct (Z.leb_spec 1 (value (sem_at (st g) x))) as [E|E]; eexists _, _, R, Q; (split; [done|]);
    (apply (sinv_update x R Q g _ _ _ _ _ _ Hi); [done|apply (si_polled _ _ _ Hi)|intros q Hq _; by flk|apply (si_cond _ _ _ Hi)|congruence| |apply (si_relock _ _ _ Hi)]); intros _; flk.
  - destruct Hw as [Hw|Hw]; [lia|]. rewrite Hw in *. cbn [length] in *. constructor; cbn [s_lock value]; rewrite ?u32_small by lia; [done|lia|by right|cbn; lia].
  - by constructor.
Qed.

Lemma sem_post_ok x g R Q : sinv R Q g -> kind_of x = KSem -> value (sem_at (st g) x) < 2 ^ 32 - 1 ->
  exists s' R' Q', thread_sem_post handle x (st g) = Done s' /\ sinv R' Q' (Sys s' (relock g) (line g) (<[x := credit g x + 1]> (credit g))).
Proof.
  intros Hi Hk Hmax. pose proof (si_rep _ _ _ Hi) as Hr. destruct (si_sem _ _ _ Hi x Hk) as [Hsp Hrg Hw Hc].
  unfold thread_sem_post. rewrite Hsp. cbn [acquire_spinlock mbind outcome_bind]. flk. cbn [value spin_sem]. pose proof (tr_queue _ _ _ _ _ Hr x) as [Hq Hsub].
  destruct (Q x) as [|t l] eqn:E.
  - apply ring_empty in Hq. rewrite Hq. cbn [Z.eqb negb]. rewrite andb_false_r. cbn [mbind outcome_bind resume_foreign yield_after Z.eqb negb]. eexists _, R, Q. split; [done|].
    apply (sinv_update x R Q g _ _ _ _ _ _ Hi); [done|apply (si_polled _ _ _ Hi)|intros q Hq' _; by flk|apply (si_cond _ _ _ Hi)|congruence| |apply (si_relock _ _ _ Hi)].
    intros _. flk. cbn [length] in Hc. constructor; cbn [s_lock value spin_sem]; rewrite ?u32_small by lia; [done|lia|by right|rewrite E; cbn; lia].
  - destruct Hw as [Hw|Hw]; [|done]. pose proof (ring_head _ _ _ Hq) as Hh. cbn in Hh. assert (t <> 0) by (apply (all_nonnull all Hpage), Hsub; left). rewrite Hh, Hw. zdecide. cbn [Z.eqb negb andb].
    destruct (unblock_one_rep _ Hbound Hpage handle R Q x t l 0 (ts (st g)) Hr E) as (t' & -> & Hr' & _ & Hp). cbn [mbind outcome_bind resume_foreign yield_after Z.eqb negb].
    eexists _, _, _. split; [done|]. apply (sinv_update x R Q g _ _ _ _ _ _ Hi); [exact Hr'|by flk; rewrite Hp; apply (si_polled _ _ _ Hi)|intros q Hq' _; by flk|apply (si_cond _ _ _ Hi)|congruence| |apply (si_relock _ _ _ Hi)].
    intros _. flk. cbn [length] in Hc. constructor; cbn [s_lock value spin_sem]; [done|lia|by left|lia].
Qed.

(** * Every call returns and keeps the invariant *)

Lemma exec_ok c g R Q : sinv R Q g -> me g <> 0 -> relock g (me g) = None -> allowed c g ->
  exists s' R' Q', exec c (st g) = Done s' /\ sinv R' Q' (Sys s' (relock_after c g) (line_after c g) (credit_after c g)).
Proof.
  intros Hi Hme Hrl Ha. destruct c; cbn [exec relock_after credit_after]; cbn [allowed] in Ha.
  - destruct Ha as [Hk Hn]. apply (lock_ok m g R Q); [done..|]. by apply (relock_join m g R Q).
  - by apply (lock_nested_ok m g R Q).
  - destruct (trylock_ok m g R Q) as (b & s' & R' & Q' & -> & Hi'); [done..|]. by exists s', R', Q'.
  - destruct Ha as [Hk Hh]. by apply (unlock_ok m g R Q).
  - by apply (cond_wait_ok c m g R Q).
  - by apply (signal_ok c g R Q).
  - by apply (broadcast_ok c g R Q).
  - by apply (sem_wait_ok x g R Q).
  - destruct (sem_trywait_ok x g R Q) as (b & s' & R' & Q' & -> & Hi'); [done..|]. by exists s', R', Q'.
  - destruct Ha as [Hk Hm]. by apply (sem_post_ok x g R Q).
  - pose proof (si_rep _ _ _ Hi) as Hr. destruct (current_split _ _ _ Hr Hme) as (r1 & r2 & HR).
    destruct (yield_rep _ Hbound Hpage handle R Q r1 r2 (ts (st g)) Hr HR Hme (si_polled _ _ _ Hi)) as (t & -> & Hr' & _ & Hp).
    cbn [mbind outcome_bind]. eexists _, R, Q. split; [done|].
    apply (sinv_update 0 R Q g _ _ _ _ _ _ Hi); [done|by flk; rewrite Hp; apply (si_polled _ _ _ Hi)|done|apply (si_cond _ _ _ Hi)|apply (si_mutex _ _ _ Hi)|apply (si_sem _ _ _ Hi)|apply (si_relock _ _ _ Hi)].
Qed.

Definition ginv (g : sys) : Prop := exists R Q, sinv R Q g.

Lemma step_ginv g g' : ginv g -> step g g' -> ginv g'.
Proof.
  intros (R & Q & Hi) Hs. destruct Hs as [c g s' Hme Hrl Ha E|m g s' Hme Hrl E|g t E].
  - destruct (exec_ok c g R Q Hi Hme Hrl Ha) as (s1 & R' & Q' & E1 & Hi'). rewrite E in E1. injection E1 as <-. by exists R', Q'.
  - destruct (si_relock _ _ _ Hi (me g) m Hrl) as [Hk Hn].
    destruct (lock_ok m g R Q (<[me g := None]> (relock g)) Hi Hme Hk Hn) as (s1 & R' & Q' & E1 & Hi').
    { intros t m' Ht. destruct (decide (t = me g)) as [->|Hne]; [by rewrite fn_lookup_insert in Ht|]. rewrite fn_lookup_insert_ne in Ht by done.
      destruct (si_relock _ _ _ Hi t m' Ht) as [Hk' Hn']. split; [done|]. destruct (decide (m' = m)) as [->|]; [rewrite fn_lookup_insert|by rewrite fn_lookup_insert_ne].
      rewrite elem_of_app. intros [|Hx%list_elem_of_singleton]; done. }
    rewrite E in E1. injection E1 as <-. by exists R', Q'.
  - destruct (run_rep _ Hbound Hpage handle R Q _ (si_rep _ _ _ Hi)) as (t1 & E1 & Hr & _ & Hp). rewrite E in E1. injection E1 as <-. exists R, Q.
    apply (sinv_update 0 R Q g _ _ _ _ _ _ Hi); [done|by flk; rewrite Hp; apply (si_polled _ _ _ Hi)|done|apply (si_cond _ _ _ Hi)|apply (si_mutex _ _ _ Hi)|apply (si_sem _ _ _ Hi)|apply (si_relock _ _ _ Hi)].
Qed.

(** All threads are runnable, all mutexes and condition variables are fresh,
    and semaphores have their first value. *)
Record initial (g : sys) : Prop := {
  in_rep : exists R, rep R (fun _ => []) (ts (st g));
  in_polled : polled_channels (ts (st g)) = 0;
  in_mutex : forall m, mutex_at (st g) m = Mutex 0 false 0 /\ line g m = [] ;
  in_cond : forall c, cond_lock (st g) c = false;
  in_sem : forall x, sem_at (st g) x = Sem (credit g x) false /\ 0 <= credit g x < 2 ^ 32;
  in_relock : forall t, relock g t = None
}.

Lemma initial_ginv g : initial g -> ginv g.
Proof.
  intros [[R Hr] Hp Hm Hc Hs Hl]. exists R, (fun _ => []). constructor; try done.
  - intros m _. destruct (Hm m) as [-> ->]. by constructor.
  - intros x _. destruct (Hs x) as [-> Hx]. constructor; cbn; [done|lia|by right|lia].
  - intros t m Ht. by rewrite Hl in Ht.
Qed.

Lemma reachable_ginv g0 g : initial g0 -> rtc step g0 g -> ginv g.
Proof.
  intros H0 Hs. apply initial_ginv in H0. induction Hs as [|g1 g2 g3 H12 _ IH]; [done|]. by eapply IH, step_ginv.
Qed.

(** C29: in every run of threads that use mutexes, condition variables and
    semaphores and yield, where only the holder unlocks a mutex or gives it
    up for a condition variable, the latter when it is locked once, no
    thread locks a mutex that it holds except with the nested call, and no
    semaphore overflows, no such call fails an assertion or spins, and every
    thread is in exactly one queue. Pausing threads is not part of these
    runs: a thread that pauses itself is in no queue any more
    (self_pause_is_forever). *)
Theorem sync_calls_return g0 g : initial g0 -> rtc step g0 g ->
  (exists t, thread_run_disabled (ts (st g)) = Done t) /\
  (me g <> 0 -> (match relock g (me g) with
                | None => forall c, allowed c g -> exists s, exec c (st g) = Done s
                | Some m => exists s, thread_mutex_lock m (st g) = Done s
                end)) /\
  (exists R Q, ring (tlinks (ts (st g))) (runq (ts (st g))) R /\ (forall q, ring (tlinks (ts (st g))) (queues (ts (st g)) q) (Q q)) /\
     (forall t, t ∈ all -> (t ∈ R /\ (forall q, t ∉ Q q)) \/ (t ∉ R /\ (exists q, t ∈ Q q /\ (forall q', t ∈ Q q' -> q' = q))))).
Proof.
  intros H0 Hs. destruct (reachable_ginv g0 g H0 Hs) as (R & Q & Hi). pose proof (si_rep _ _ _ Hi) as Hr. split_and!.
  - destruct (run_rep _ Hbound Hpage handle R Q _ Hr) as (t & -> & _). by exists t.
  - intros Hme. destruct (relock g (me g)) as [m|] eqn:E.
    + destruct (si_relock _ _ _ Hi _ _ E) as [Hk Hn]. pose proof (lock_ok m g R Q (fun _ => None) Hi Hme Hk Hn ltac:(done)) as (s & _ & _ & -> & _). by exists s.
    + intros c Hc. destruct (exec_ok c g R Q Hi Hme E Hc) as (s & _ & _ & -> & _). by exists s.
  - exists R, Q. split_and!; [apply (tr_run _ _ _ _ _ Hr)|intros q; apply (tr_queue _ _ _ _ _ Hr)|]. intros t Ht. destruct (tr_somewhere _ _ _ _ _ Hr t Ht) as [HtR|[q Htq]].
    + left. split; [done|]. intros q. by apply (tr_apart _ _ _ _ _ Hr).
    + right. split; [intros HtR; by apply (tr_apart _ _ _ _ _ Hr q t)|]. exists q. split; [done|]. intros q' Hq'. by apply (tr_one _ _ _ _ _ Hr _ _ t).
Qed.

(** C16: a mutex is fair and held by one thread.  At any time the threads that
    asked for it and did not release it stand in a line, in the order in which
    they asked: the first one holds the mutex and the others are exactly the
    threads blocked on it. *)
Theorem mutex_grants_in_order g0 g m : initial g0 -> rtc step g0 g -> kind_of m = KMutex ->
  NoDup (line g m) /\ holder (mutex_at (st g) m) = default 0 (head (line g m)) /\ (0 < locked (mutex_at (st g) m) <-> line g m <> []) /\
  ring (tlinks (ts (st g))) (queues (ts (st g)) m) (tail (line g m)) /\ (forall t, t ∈ tail (line g m) -> t_state (thr (ts (st g)) t) = THREAD_STATE_BLOCKED).
Proof.
  intros H0 Hs Hk. destruct (reachable_ginv g0 g H0 Hs) as (R & Q & Hi). pose proof (si_rep _ _ _ Hi) as Hr. destruct (si_mutex _ _ _ Hi m Hk) as [_ Hf Hh].
  pose proof (tr_queue _ _ _ _ _ Hr m) as [Hq _]. destruct (decide (locked (mutex_at (st g) m) = 0)) as [E|E].
  - destruct (Hf E) as (-> & -> & Eq). rewrite Eq in Hq. rewrite E. cbn. split_and!; [apply NoDup_nil_2|done|split; [lia|done]|done|]. by intros t Ht%elem_of_nil.
  - destruct (Hh E) as (Hpos & _ & El & Hn). rewrite El in *. cbn. split_and!; [done|done|split; [done|lia]|done|]. intros t Ht. by apply (tr_blocked _ _ _ _ _ Hr m).
Qed.

(** A semaphore counts.  With the credit, which is its first value and the
    posts without the waits, the value is the credit if that is positive, and
    otherwise as many threads are blocked on it as the credit is negative. *)
Theorem semaphore_counts g0 g x : initial g0 -> rtc step g0 g -> kind_of x = KSem ->
  value (sem_at (st g) x) = Z.max 0 (credit g x) /\
  exists l, ring (tlinks (ts (st g))) (queues (ts (st g)) x) l /\ Z.of_nat (length l) = Z.max 0 (- credit g x).
Proof.
  intros H0 Hs Hk. destruct (reachable_ginv g0 g H0 Hs) as (R & Q & Hi). pose proof (si_rep _ _ _ Hi) as Hr. destruct (si_sem _ _ _ Hi x Hk) as [_ Hrg Hw Hc].
  pose proof (tr_queue _ _ _ _ _ Hr x) as [Hq _]. split; [|exists (Q x); split; [done|]]; destruct Hw as [Hw|Hw]; rewrite Hw in *; cbn [length] in *; lia.
Qed.
End Sync.

#[global] Instance kind_eq_dec : EqDecision kind.
Proof. solve_decision. Defined.

Module SyncSample.

(** Three threads, and an object of each kind. *)
Definition dispatcher : Z := 1048576.
Definition three : list Z := [8192; 12288; 16384].
Definition kinds (a : Z) : kind := if a =? 10 then KMutex else if a =? 30 then KSem else KCond.
Definition ring3 : links :=
  Links (fun a => if a =? 8192 then 12288 else if a =? 12288 then 16384 else if a =? 16384 then 8192 else 0)
        (fun a => if a =? 8192 then 16384 else if a =? 12288 then 8192 else if a =? 16384 then 12288 else 0).
Definition threads3 : threads := Threads ring3 (fun _ => Thread dispatcher THREAD_STATE_RUNNABLE false 0 0) (fun _ => 0) 8192 8192 0 0 1 true.
Definition g0 : sys := Sys (Sync threads3 (fun _ => Mutex 0 false 0) (fun _ => false) (fun _ => Sem 1 false)) (fun _ => None) (fun _ => []) (fun _ => 1).

Lemma three_bound : (length three < MAX_THREADS)%nat.
Proof. vm_decide. Qed.
Lemma three_page : Forall (fun t => BASE_PAGE_SIZE < t) three.
Proof. vm_decide. Qed.

Lemma ring3_ok : ring ring3 8192 three.
Proof. constructor; [done|vm_decide|vm_decide|]. cbn. done. Qed.

Lemma g0_initial : initial three dispatcher g0.
Proof.
  constructor; [|done..]. exists three. constructor; cbn [g0 st ts threads3 tlinks runq queues thr current haswork]; try done.
  - split; [exact ring3_ok|done].
  - intros q. split; [by apply ring_empty|]. intros t Ht. by apply elem_of_nil in Ht.
  - by intros q t _ Ht%elem_of_nil.
  - by intros q q' t Ht%elem_of_nil.
  - by intros q t Ht%elem_of_nil.
  - intros t Ht. by left.
  - right. left.
Qed.

(** Runs that can be computed. *)
Inductive act := Call (c : call) | Relock | Run.

#[local] Instance allowed_dec c g : Decision (allowed kinds c g).
Proof. destruct c; cbn [allowed]; apply _. Defined.

Definition act_step (a : act) (g : sys) : option sys :=
  match a with
  | Call c =>
    if decide (me g <> 0 /\ relock g (me g) = None /\ allowed kinds c g) then
      match exec dispatcher c (st g) with
      | Done s' => Some (Sys s' (relock_after c g) (line_after c g) (credit_after c g))
      | Fault _ => None
      end
    else None
  | Relock =>
    if me g =? 0 then None else
    match relock g (me g) with
    | Some m =>
      match thread_mutex_lock m (st g) with
      | Done s' => Some (Sys s' (<[me g := None]> (relock g)) (<[m := line g m ++ [me g]]> (line g)) (credit g))
      | Fault _ => None
      end
    | None => None
    end
  | Run => match thread_run_disabled (ts (st g)) with Done t => Some (Sys (with_ts t (st g)) (relock g) (line g) (credit g)) | Fault _ => None end
  end.

Lemma act_step_sound a g g' : act_step a g = Some g' -> step dispatcher kinds g g'.
Proof.
  destruct a as [c| |]; cbn [act_step].
  - destruct (decide _) as [(H1 & H2 & H3)|]; [|done]. destruct (exec dispatcher c (st g)) eqn:E; [|done]. intros [= <-]. by constructor.
  - destruct (Z.eqb_spec (me g) 0); [done|]. destruct (relock g (me g)) as [m|] eqn:Er; [|done]. destruct (thread_mutex_lock m (st g)) eqn:E; [|done]. intros [= <-]. by constructor.
  - destruct (thread_run_disabled (ts (st g))) eqn:E; [|done]. intros [= <-]. by constructor.
Qed.

Definition acts (l : list act) (g : sys) : option sys := foldl (fun o a => o ≫= act_step a) (Some g) l.

Lemma acts_none l : foldl (fun o a => o ≫= act_step a) None l = None.
Proof. by induction l. Qed.

Lemma acts_sound l : forall g g', acts l g = Some g' -> rtc (step dispatcher kinds) g g'.
Proof.
  induction l as [|a l IH]; intros g g' H; unfold acts in H; cbn [foldl] in H; [by injection H as <-|]. cbn [mbind option_bind] in H.
  destruct (act_step a g) as [g1|] eqn:E; [|by rewrite acts_none in H]. apply (rtc_l _ _ g1); [by apply (act_step_sound a)|]. by apply IH.
Qed.

Definition reached (l : list act) : sys := default g0 (acts l g0).

Lemma reached_rtc l : bool_decide (is_Some (acts l g0)) = true -> rtc (step dispatcher kinds) g0 (reached l).
Proof. intros [g E]%bool_decide_eq_true. apply (acts_sound l). unfold reached. by rewrite E. Qed.

(** The second and the third thread wait for the mutex of the first, which
    gives it up for the condition variable. *)
Definition contention : list act := [Call (Lock 10); Run; Call (Lock 10); Call (Lock 10); Call (CondWait 20 10)].

Lemma sync_calls_return_witness : exists s, exec dispatcher (Unlock 10) (st (reached contention)) = Done s.
Proof.
  destruct (sync_calls_return three three_bound three_page dispatcher kinds g0 (reached contention) g0_initial (reached_rtc contention ltac:(by vm_compute))) as (_ & H & _).
  assert (E1 : me (reached contention) = 12288) by vm_eq. assert (E2 : relock (reached contention) 12288 = None) by vm_eq.
  assert (E3 : holder (mutex_at (st (reached contention)) 10) = 12288) by vm_eq. rewrite E1, E2 in H. apply (H ltac:(done) (Unlock 10)). split; [done|by rewrite E1].
Defined.

Lemma mutex_grants_in_order_witness : holder (mutex_at (st (reached contention)) 10) = 12288 /\
  ring (tlinks (ts (st (reached contention)))) (queues (ts (st (reached contention))) 10) [16384].
Proof.
  pose proof (mutex_grants_in_order three three_bound three_page dispatcher kinds g0 (reached contention) 10 g0_initial (reached_rtc contention ltac:(by vm_compute)) eq_refl) as (_ & Hh & _ & Hr & _).
  assert (E : line (reached contention) 10 = [12288; 16384]) by vm_eq. rewrite E in Hh, Hr. exact (conj Hh Hr).
Defined.

(** One thread passes, two wait, one post. *)
Definition counting : list act := [Call (SemWait 30); Run; Call (SemWait 30); Call (SemWait 30); Call (SemPost 30)].

Lemma semaphore_counts_witness : value (sem_at (st (reached counting)) 30) = 0 /\
  exists l, ring (tlinks (ts (st (reached counting)))) (queues (ts (st (reached counting))) 30) l /\ Z.of_nat (length l) = 1.
Proof.
  pose proof (semaphore_counts three three_bound three_page dispatcher kinds g0 (reached counting) 30 g0_initial (reached_rtc counting ltac:(by vm_compute)) eq_refl) as H.
  assert (E : credit (reached counting) 30 = -1) by vm_eq. rewrite E in H. exact H.
Defined.

(** ** What goes wrong *)

(** A thread that pauses itself is blocked in no queue, and resuming it does
    not run it. *)
Definition paused_self : outcome threads := t ← thread_pause dispatcher 8192 threads3; thread_resume dispatcher 8192 t.

Example self_pause_is_forever :
  match paused_self with Done t => (paused (thr t 8192), t_state (thr t 8192), nxt (tlinks t) 8192) | Fault _ => (true, THREAD_STATE_NULL, 0) end
  = (false, THREAD_STATE_BLOCKED, 0).
Proof. vm_eq. Qed.

(** A mutex that was locked twice stays locked in [thread_cond_wait]. *)
Example nested_wait_keeps_mutex :
  match (s ← thread_mutex_lock_nested 10 (st g0); s ← thread_mutex_lock_nested 10 s; thread_cond_wait dispatcher 20 (Some 10) s) with
  | Done s => (locked (mutex_at s 10), holder (mutex_at s 10), t_state (thr (ts s) 8192)) | Fault _ => (0, 0, THREAD_STATE_NULL) end
  = (1, 8192, THREAD_STATE_BLOCKED).
Proof. vm_eq. Qed.
End SyncSample.
