(* ===== verification/Waitset.v ===== *)
(** Waitsets: the event queues of channels and the threads that wait on them
    (lib/aos/waitset.c).

    A channel is the address of its [waitset_chanstate], a waitset its
    address, at which Threads.v keeps the queue of the threads blocked on it.
    The four queues of a waitset are named by the state of their channels.
    Code that runs disabled is one step; a thread that blocks in
    [get_next_event_disabled] continues at the head of its loop.  The loops
    over queues have as fuel the number of channels, or of threads, and one. *)
From S2P Require Import Prelude Ring Threads.

Inductive ws_chanstate := CHAN_UNREGISTERED | CHAN_IDLE | CHAN_POLLED | CHAN_PENDING | CHAN_WAITING.

#[global] Instance ws_chanstate_eq_dec : EqDecision ws_chanstate.
Proof. solve_decision. Defined.

Inductive ws_chantype :=
| CHANTYPE_LMP_IN | CHANTYPE_LMP_OUT | CHANTYPE_UMP_IN | CHANTYPE_DEFERRED | CHANTYPE_EVENT_QUEUE | CHANTYPE_FLOUNDER
| CHANTYPE_AHCI | CHANTYPE_LWIP_SOCKET | CHANTYPE_BULK_E10K | CHANTYPE_OTHER.

(** [struct event_closure]: the handler, zero if there is none, and its
    argument. *)
Record event_closure := Closure { handler : Z; arg : Z }.

Record waitset_chanstate := Chan {
  waitset : Z;
  closure : event_closure;
  chantype : ws_chantype;
  state : ws_chanstate;
  token : Z;
  persistent : bool;
  wait_for : Z
}.

Record wstate := WState {
  wt : threads;
  t_token : Z -> Z; t_channel : Z -> Z;     (** of a thread *)
  chan : Z -> waitset_chanstate;
  cl : links;                               (** [next] and [prev] of channels *)
  pl : links;                               (** [polled_next] and [polled_prev] *)
  heads : Z -> ws_chanstate -> Z            (** the queues of waitsets *)
}.

Definition with_wt (x : threads) (s : wstate) : wstate := WState x (t_token s) (t_channel s) (chan s) (cl s) (pl s) (heads s).
Definition set_chan (c : Z) (f : waitset_chanstate -> waitset_chanstate) (s : wstate) : wstate :=
  WState (wt s) (t_token s) (t_channel s) (<[c := f (chan s c)]> (chan s)) (cl s) (pl s) (heads s).
Definition set_cl (k : links) (s : wstate) : wstate := WState (wt s) (t_token s) (t_channel s) (chan s) k (pl s) (heads s).
Definition set_head (ws : Z) (st : ws_chanstate) (h : Z) (k : links) (s : wstate) : wstate :=
  WState (wt s) (t_token s) (t_channel s) (chan s) k (pl s) (<[ws := <[st := h]> (heads s ws)]> (heads s)).
Definition set_polled (h : Z) (k : links) (s : wstate) : wstate :=
  let t := wt s in
  WState (Threads (tlinks t) (thr t) (queues t) (runq t) (current t) (lmp_send_events_list t) h (timeslice t) (haswork t))
    (t_token s) (t_channel s) (chan s) (cl s) k (heads s).

Definition with_waitset (x : Z) (c : waitset_chanstate) : waitset_chanstate := Chan x (closure c) (chantype c) (state c) (token c) (persistent c) (wait_for c).
Definition with_closure (x : event_closure) (c : waitset_chanstate) : waitset_chanstate := Chan (waitset c) x (chantype c) (state c) (token c) (persistent c) (wait_for c).
Definition with_chan_state (x : ws_chanstate) (c : waitset_chanstate) : waitset_chanstate := Chan (waitset c) (closure c) (chantype c) x (token c) (persistent c) (wait_for c).
Definition with_token (x : Z) (c : waitset_chanstate) : waitset_chanstate := Chan (waitset c) (closure c) (chantype c) (state c) x (persistent c) (wait_for c).
Definition with_wait_for (x : Z) (c : waitset_chanstate) : waitset_chanstate := Chan (waitset c) (closure c) (chantype c) (state c) (token c) (persistent c) x.

(** The queues of a waitset, and the dispatcher's queue of polled channels. *)
Definition enq (ws : Z) (st : ws_chanstate) (c : Z) (s : wstate) : outcome wstate :=
  '(h, k) ← enqueue (heads s ws st) c (cl s); Done (set_head ws st h k s).
Definition deq (ws : Z) (st : ws_chanstate) (c : Z) (s : wstate) : outcome wstate :=
  '(h, k) ← dequeue (heads s ws st) c (cl s); Done (set_head ws st h k s).
Definition enqueue_polled (c : Z) (s : wstate) : outcome wstate :=
  '(h, k) ← enqueue (polled_channels (wt s)) c (pl s); Done (set_polled h k s).
Definition dequeue_polled (c : Z) (s : wstate) : outcome wstate :=
  '(h, k) ← dequeue (polled_channels (wt s)) c (pl s); Done (set_polled h k s).

Definition waitset_init (ws : Z) (s : wstate) : wstate :=
  with_wt (set_queue ws 0 (tlinks (wt s)) (wt s))
    (WState (wt s) (t_token s) (t_channel s) (chan s) (cl s) (pl s) (<[ws := fun _ => 0]> (heads s))).

(** The loops of [waitset_destroy]: a channel keeps its state. *)
Fixpoint release_channels (fuel : nat) (ws : Z) (st : ws_chanstate) (c : Z) (s : wstate) : outcome wstate :=
  match fuel with
  | O => Fault OutOfFuel
  | S fuel =>
    if c =? 0 then Done s else
    let next := nxt (cl s) c in
    ASSERT bool_decide (state (chan s c) = st);
    ASSERT waitset (chan s c) =? ws;
    let s := set_cl (set_nxt c 0 (set_prv c 0 (cl s))) (set_chan c (with_waitset 0) s) in
    if next =? heads s ws st then Done s else release_channels fuel ws st next s
  end.

Section Waitset.
Context (handle : Z) (fuel : nat).

Definition waitset_destroy (ws : Z) (s : wstate) : outcome (errval * wstate) :=
  if negb (heads s ws CHAN_PENDING =? 0) || negb (queues (wt s) ws =? 0) then Done (err LIB_ERR_WAITSET_IN_USE, s) else
  s ← release_channels fuel ws CHAN_IDLE (heads s ws CHAN_IDLE) s;
  let s := set_head ws CHAN_IDLE 0 (cl s) s in
  s ← release_channels fuel ws CHAN_POLLED (heads s ws CHAN_POLLED) s;
  Done (SYS_ERR_OK, set_head ws CHAN_POLLED 0 (cl s) s).

(** Whether a thread can receive an event. *)
Definition waitset_check_token (c t : Z) (s : wstate) : bool :=
  let x := chan s c in
  if negb (wait_for x =? 0) then wait_for x =? t
  else (Z.odd (token x) && (t_token s t =? 0)) || ((token x =? 0) && negb (c =? t_channel s t)) || ((token x =? t_token s t) && (c =? t_channel s t)).

(** One of the loops over a queue of channels. *)
Fixpoint find_event (fuel : nat) (me head c : Z) (st : ws_chanstate) (s : wstate) : outcome Z :=
  match fuel with
  | O => Fault OutOfFuel
  | S fuel =>
    if c =? 0 then Done 0 else
    if waitset_check_token c me s then ASSERT bool_decide (state (chan s c) = st); Done c else
    let c := nxt (cl s) c in
    if c =? head then Done 0 else find_event fuel me head c st s
  end.

Definition get_pending_event_disabled (ws waitfor : Z) (s : wstate) : outcome Z :=
  let me := current (wt s) in
  if negb (waitfor =? 0) && bool_decide (state (chan s waitfor) = CHAN_PENDING) && waitset_check_token waitfor me s then Done waitfor else
  if negb (waitfor =? 0) && bool_decide (state (chan s waitfor) = CHAN_WAITING) && waitset_check_token waitfor me s then Done waitfor else
  c ← find_event fuel me (heads s ws CHAN_WAITING) (heads s ws CHAN_WAITING) CHAN_WAITING s;
  if negb (c =? 0) then Done c else
  find_event fuel me (heads s ws CHAN_PENDING) (heads s ws CHAN_PENDING) CHAN_PENDING s.

(** * Channels *)

Definition waitset_chanstate_init (c : Z) (ty : ws_chantype) (s : wstate) : wstate :=
  set_cl (set_nxt c 0 (set_prv c 0 (cl s))) (set_chan c (fun x => Chan 0 (closure x) ty CHAN_UNREGISTERED 0 false 0) s).

Definition waitset_chan_register_disabled (ws c : Z) (f : event_closure) (s : wstate) : outcome (errval * wstate) :=
  if negb (waitset (chan s c) =? 0) then Done (err LIB_ERR_CHAN_ALREADY_REGISTERED, s) else
  let s := set_chan c (fun x => with_token 0 (with_waitset ws x)) s in
  ASSERT (nxt (cl s) c =? 0) && (prv (cl s) c =? 0);
  ASSERT bool_decide (state (chan s c) = CHAN_UNREGISTERED);
  ASSERT negb (handler f =? 0);
  let s := set_chan c (with_closure f) s in
  s ← enq ws CHAN_IDLE c s;
  Done (SYS_ERR_OK, set_chan c (with_chan_state CHAN_IDLE) s).

Definition waitset_chan_register_polled_disabled (ws c : Z) (f : event_closure) (s : wstate) : outcome (errval * wstate) :=
  if negb (waitset (chan s c) =? 0) then Done (err LIB_ERR_CHAN_ALREADY_REGISTERED, s) else
  let s := set_chan c (fun x => with_token 0 (with_waitset ws x)) s in
  ASSERT (nxt (cl s) c =? 0) && (prv (cl s) c =? 0);
  ASSERT bool_decide (state (chan s c) = CHAN_UNREGISTERED);
  let s := set_chan c (with_closure f) s in
  s ← enq ws CHAN_POLLED c s;
  let s := set_chan c (with_chan_state CHAN_POLLED) s in
  s ← enqueue_polled c s;
  Done (SYS_ERR_OK, s).

Definition waitset_chan_deregister_disabled (c : Z) (s : wstate) : outcome (errval * wstate) :=
  ASSERT negb (c =? 0);
  let ws := waitset (chan s c) in
  if ws =? 0 then Done (err LIB_ERR_CHAN_NOT_REGISTERED, s) else
  let s := set_chan c (with_waitset 0) s in
  ASSERT negb (nxt (cl s) c =? 0) && negb (prv (cl s) c =? 0);
  s ← (match state (chan s c) with
       | CHAN_IDLE => deq ws CHAN_IDLE c s
       | CHAN_POLLED => s ← deq ws CHAN_POLLED c s; dequeue_polled c s
       | CHAN_PENDING => deq ws CHAN_PENDING c s
       | CHAN_WAITING => deq ws CHAN_WAITING c s
       | CHAN_UNREGISTERED => Fault AssertionFailed
       end);
  Done (SYS_ERR_OK, set_chan c (fun x => with_wait_for 0 (with_chan_state CHAN_UNREGISTERED x)) s).

Definition waitset_chanstate_destroy (c : Z) (s : wstate) : outcome wstate :=
  ASSERT negb (c =? 0);
  if negb (waitset (chan s c) =? 0) then
    '(e, s) ← waitset_chan_deregister_disabled c s;
    ASSERT err_is_ok e;
    Done s
  else Done s.

Definition waitset_chan_migrate (c new_ws : Z) (s : wstate) : outcome wstate :=
  let ws := waitset (chan s c) in
  if ws =? 0 then Done s else
  let st := state (chan s c) in
  s ← (if bool_decide (st = CHAN_UNREGISTERED) then Done s else s ← deq ws st c s; enq new_ws st c s);
  Done (set_chan c (with_waitset new_ws) s).

(** The first thread of the queue that can receive the event, or else the
    first thread. *)
Fixpoint find_thread (fuel : nat) (c head t : Z) (s : wstate) : outcome Z :=
  match fuel with
  | O => Fault OutOfFuel
  | S fuel =>
    if waitset_check_token c t s then Done t else
    let t := nxt (tlinks (wt s)) t in
    if t =? head then Done 0 else find_thread fuel c head t s
  end.

Definition find_recipient (ws c : Z) (s : wstate) : outcome Z :=
  let head := queues (wt s) ws in
  if head =? 0 then Done 0 else
  t ← find_thread (S MAX_THREADS) c head head s;
  Done (if t =? 0 then head else t).

(** The thread [t] becomes the first of the queue and is woken. *)
Definition wake (ws t reason : Z) (s : wstate) : outcome wstate :=
  let x := set_queue ws t (tlinks (wt s)) (wt s) in
  '(ft, x) ← thread_unblock_one_disabled handle ws reason x;
  ASSERT ft =? 0;
  Done (with_wt x s).

(** The end of both triggers. *)
Definition awaken (ws c : Z) (s : wstate) : outcome wstate :=
  t ← find_recipient ws c s;
  if negb (t =? 0) then wake ws t c s else Done s.

Definition waitset_chan_trigger_disabled (c : Z) (s : wstate) : outcome (errval * wstate) :=
  ASSERT negb (c =? 0);
  let ws := waitset (chan s c) in
  ASSERT negb (ws =? 0);
  ASSERT negb (prv (cl s) c =? 0) && negb (nxt (cl s) c =? 0);
  if bool_decide (state (chan s c) = CHAN_PENDING) then Done (SYS_ERR_OK, s) else
  s ← (if bool_decide (state (chan s c) = CHAN_IDLE) then deq ws CHAN_IDLE c s
       else ASSERT bool_decide (state (chan s c) = CHAN_POLLED); s ← deq ws CHAN_POLLED c s; dequeue_polled c s);
  s ← enq ws CHAN_PENDING c s;
  let s := set_chan c (with_chan_state CHAN_PENDING) s in
  s ← awaken ws c s;
  Done (SYS_ERR_OK, s).

Definition waitset_chan_trigger_closure_disabled (ws c : Z) (f : event_closure) (s : wstate) : outcome (errval * wstate) :=
  ASSERT negb (c =? 0);
  ASSERT negb (ws =? 0);
  if negb (waitset (chan s c) =? 0) || bool_decide (state (chan s c) <> CHAN_UNREGISTERED) then Done (err LIB_ERR_CHAN_ALREADY_REGISTERED, s) else
  ASSERT (prv (cl s) c =? 0) && (nxt (cl s) c =? 0);
  let s := set_chan c (fun x => with_waitset ws (with_closure f x)) s in
  s ← enq ws CHAN_PENDING c s;
  let s := set_chan c (with_chan_state CHAN_PENDING) s in
  s ← awaken ws c s;
  Done (SYS_ERR_OK, s).

(** * Events *)

Definition is_polled_type (ty : ws_chantype) : bool :=
  match ty with CHANTYPE_UMP_IN | CHANTYPE_LWIP_SOCKET | CHANTYPE_AHCI => true | _ => false end.

Definition reregister_channel (ws c : Z) (s : wstate) : outcome wstate :=
  ASSERT waitset (chan s c) =? ws;
  s ← (if bool_decide (state (chan s c) = CHAN_PENDING) then deq ws CHAN_PENDING c s
       else ASSERT bool_decide (state (chan s c) = CHAN_WAITING); deq ws CHAN_WAITING c s);
  let s := set_chan c (with_token 0) s in
  if is_polled_type (chantype (chan s c)) then
    s ← enq ws CHAN_POLLED c s;
    s ← enqueue_polled c s;
    Done (set_chan c (with_chan_state CHAN_POLLED) s)
  else
    s ← enq ws CHAN_IDLE c s;
    Done (set_chan c (with_chan_state CHAN_IDLE) s).

Definition wake_up_other_thread (ws : Z) (s : wstate) : outcome wstate :=
  if negb (heads s ws CHAN_PENDING =? 0) && negb (queues (wt s) ws =? 0) then
    '(ft, x) ← thread_unblock_one_disabled handle ws 0 (wt s);
    ASSERT ft =? 0;
    Done (with_wt x s)
  else Done s.

Inductive next_event := Event (c : Z) (f : event_closure) | Blocked.

(** An event that no thread is interested in. *)
Definition set_aside (ws c : Z) (s : wstate) : outcome wstate :=
  s ← deq ws CHAN_PENDING c s;
  s ← enq ws CHAN_WAITING c s;
  Done (set_chan c (fun x => with_waitset ws (with_chan_state CHAN_WAITING x)) s).

(** One round of the loop: a result, or the loop goes on. *)
Definition next_event_round (ws waitfor : Z) (s : wstate) : outcome (option next_event * wstate) :=
  c ← get_pending_event_disabled ws waitfor s;
  if negb (c =? 0) then
    let f := closure (chan s c) in
    let s := set_chan c (fun x => with_token 0 (with_wait_for 0 x)) s in
    s ← (if persistent (chan s c) then reregister_channel ws c s
         else '(_, s) ← waitset_chan_deregister_disabled c s; Done s);
    s ← wake_up_other_thread ws s;
    Done (Some (Event c f), s)
  else
    let c := heads s ws CHAN_PENDING in
    if c =? 0 then
      x ← thread_block_disabled (Some ws) (wt s);
      Done (Some Blocked, with_wt x s)
    else
      let head := queues (wt s) ws in
      if head =? 0 then s ← set_aside ws c s; Done (None, s) else
      t ← find_thread (S MAX_THREADS) c head head s;
      if negb (t =? 0) then s ← wake ws t c s; Done (None, s)
      else s ← set_aside ws c s; Done (None, s).

Fixpoint get_next_event_disabled (rounds : nat) (ws waitfor : Z) (s : wstate) : outcome (next_event * wstate) :=
  match rounds with
  | O => Fault OutOfFuel
  | S rounds =>
    '(r, s) ← next_event_round ws waitfor s;
    match r with Some r => Done (r, s) | None => get_next_event_disabled rounds ws waitfor s end
  end.

(** [poll_channels_disabled]: the loop never takes another channel. *)
Fixpoint poll_loop (rounds : nat) (c : Z) (s : wstate) : outcome wstate :=
  match rounds with
  | O => Fault OutOfFuel
  | S rounds =>
    s ← (match chantype (chan s c) with
         | CHANTYPE_LWIP_SOCKET => Fault Panicked
         | CHANTYPE_AHCI => '(e, s) ← waitset_chan_trigger_disabled c s; ASSERT err_is_ok e; Done s
         | _ => Fault AssertionFailed
         end);
    if c =? polled_channels (wt s) then Done s else poll_loop rounds c s
  end.
Definition poll_channels_disabled (s : wstate) : outcome wstate :=
  if polled_channels (wt s) =? 0 then Done s else poll_loop fuel (polled_channels (wt s)) s.

Definition check_for_event_disabled (ws : Z) (s : wstate) : outcome (errval * wstate) :=
  s ← poll_channels_disabled s;
  c ← get_pending_event_disabled ws 0 s;
  if negb (c =? 0) then Done (SYS_ERR_OK, s) else Done (err LIB_ERR_NO_EVENT, s).

Definition waitset_chan_is_registered (c : Z) (s : wstate) : bool :=
  negb (waitset (chan s c) =? 0) && (bool_decide (state (chan s c) = CHAN_IDLE) || bool_decide (state (chan s c) = CHAN_POLLED)).
End Waitset.
