(* ===== verification/WaitsetQueues.v ===== *)
(** The queues of channels of Waitset.v as lists. *)
From S2P Require Import Prelude Ring Threads Waitset.

Definition upd2 {A} (f : Z -> ws_chanstate -> A) (ws : Z) (st : ws_chanstate) (x : A) : Z -> ws_chanstate -> A := <[ws := <[st := x]> (f ws)]> f.

Lemma upd2_eq {A} (f : Z -> ws_chanstate -> A) ws st x : upd2 f ws st x ws st = x.
Proof. unfold upd2. by rewrite !fn_lookup_insert. Qed.

Lemma upd2_ne {A} (f : Z -> ws_chanstate -> A) ws st x ws' st' : ws' <> ws \/ st' <> st -> upd2 f ws st x ws' st' = f ws' st'.
Proof.
  intros H. unfold upd2. destruct (decide (ws' = ws)) as [->|]; [rewrite fn_lookup_insert|by rewrite fn_lookup_insert_ne].
  destruct H; [done|]. by rewrite fn_lookup_insert_ne.
Qed.

Lemma key_dec (ws ws' : Z) (st st' : ws_chanstate) : (ws' = ws /\ st' = st) \/ (ws' <> ws \/ st' <> st).
Proof. destruct (decide (ws' = ws)), (decide (st' = st)); tauto. Qed.

Lemma in_upd2 (f : Z -> ws_chanstate -> list Z) ws st l ws' st' x :
  x ∈ upd2 f ws st l ws' st' <-> (ws' = ws /\ st' = st /\ x ∈ l) \/ ((ws' <> ws \/ st' <> st) /\ x ∈ f ws' st').
Proof. destruct (key_dec ws ws' st st') as [[-> ->]|H]; [rewrite upd2_eq|rewrite upd2_ne by done]; tauto. Qed.

(** A list without one element. *)
Definition del (c : Z) (l : list Z) : list Z := filter (fun x => x <> c) l.

Lemma elem_of_del c l x : x ∈ del c l <-> x <> c /\ x ∈ l.
Proof. unfold del. by rewrite list_elem_of_filter. Qed.

Lemma del_notin c l : c ∉ l -> del c l = l.
Proof.
  unfold del. induction l as [|x l IH]; intros H; [done|]. apply not_elem_of_cons in H as [Hx H]. rewrite filter_cons_True by congruence. by rewrite IH.
Qed.

Lemma del_middle l1 c l2 : NoDup (l1 ++ c :: l2) -> del c (l1 ++ c :: l2) = l1 ++ l2.
Proof.
  intros H. unfold del. rewrite filter_app, filter_cons_False by (intros E; by apply E). apply NoDup_app in H as (_ & Hd & H2). apply NoDup_cons in H2 as [H2 _].
  f_equal; apply del_notin; [|done]. intros Hc. apply (Hd c Hc). left.
Qed.

Lemma length_del c l : c ∈ l -> NoDup l -> length l = S (length (del c l)).
Proof. intros (l1 & l2 & ->)%list_elem_of_split Hn. rewrite del_middle by done. rewrite !length_app. cbn. lia. Qed.

(** All queues of channels. *)
Record qrep (C : Z -> ws_chanstate -> list Z) (s : wstate) : Prop := {
  qr_ring : forall ws st, ring (cl s) (heads s ws st) (C ws st);
  qr_one : forall ws st ws' st' c, c ∈ C ws st -> c ∈ C ws' st' -> ws' = ws /\ st' = st
}.

(** The links of channels that are in no queue. *)
Definition others_same (C : Z -> ws_chanstate -> list Z) (c : Z) (s s' : wstate) : Prop :=
  forall x, x <> c -> (forall ws st, x ∉ C ws st) -> nxt (cl s') x = nxt (cl s) x /\ prv (cl s') x = prv (cl s) x.

Lemma enq_q C ws st c s : qrep C s -> c <> 0 -> (forall ws st, c ∉ C ws st) ->
  exists h k, enq ws st c s = Done (set_head ws st h k s) /\ qrep (upd2 C ws st (C ws st ++ [c])) (set_head ws st h k s) /\ others_same C c s (set_head ws st h k s) /\
    nxt k c <> 0 /\ prv k c <> 0.
Proof.
  intros [Hr H1] H0 Hc. destruct (enqueue_ring _ _ _ c (Hr ws st) (Hc ws st) H0) as (h & k & E & Hr' & Hu). exists h, k. unfold enq. rewrite E. split; [done|].
  assert (Hin : c ∈ C ws st ++ [c]) by (apply elem_of_app; right; left).
  destruct (ring_neighbours _ _ _ _ Hr' Hin) as (N1 & N2 & _). pose proof (ring_nonnull _ _ _ Hr') as Hnn. split_and!; [constructor| | |].
  - intros ws' st'. cbn [set_head cl heads]. destruct (key_dec ws ws' st st') as [[-> ->]|Hne].
    + rewrite upd2_eq. unfold upd2. by rewrite !fn_lookup_insert.
    + rewrite upd2_ne by done. change (<[ws := <[st := h]> (heads s ws)]> (heads s) ws' st') with (upd2 (heads s) ws st h ws' st'). rewrite upd2_ne by done.
      eapply ring_untouched; [exact Hu| |apply Hr]. intros a Ha [->|Ha']%elem_of_cons; [by apply (Hc ws' st')|]. destruct (H1 _ _ _ _ _ Ha' Ha) as [-> ->]. by destruct Hne.
  - intros ws1 st1 ws2 st2 x. destruct (key_dec ws ws1 st st1) as [[-> ->]|Hn1], (key_dec ws ws2 st st2) as [[-> ->]|Hn2]; rewrite ?upd2_eq, ?upd2_ne by done; [done| | |by apply H1].
    + intros [Hx|Ex%list_elem_of_singleton]%elem_of_app Hx'; [by eapply H1|subst x; by destruct (Hc ws2 st2)].
    + intros Hx [Hx'|Ex%list_elem_of_singleton]%elem_of_app; [by eapply H1|subst x; by destruct (Hc ws1 st1)].
  - intros x Hx Hnot. apply Hu. rewrite elem_of_cons. intros [|H]; [done|by apply (Hnot ws st)].
  - intros E0. rewrite E0 in N1. done.
  - intros E0. rewrite E0 in N2. done.
Qed.

Lemma deq_q C ws st c s : qrep C s -> c ∈ C ws st ->
  exists h k, deq ws st c s = Done (set_head ws st h k s) /\ qrep (upd2 C ws st (del c (C ws st))) (set_head ws st h k s) /\ others_same C c s (set_head ws st h k s) /\
    nxt k c = 0 /\ prv k c = 0.
Proof.
  intros [Hr H1] Hc. apply list_elem_of_split in Hc as (l1 & l2 & El). pose proof (Hr ws st) as Hrl. rewrite El in Hrl.
  destruct (dequeue_ring _ _ _ _ _ Hrl) as (h & k & E & Hr' & Hu & Hz). exists h, k. unfold deq. rewrite E. split; [done|].
  rewrite El, del_middle by apply (ring_nodup _ _ _ Hrl).
  assert (Hsub : forall x, x ∈ l1 ++ l2 -> x ∈ C ws st) by (intros x; rewrite El, !elem_of_app, elem_of_cons; tauto). split_and!; [constructor| |apply Hz..].
  - intros ws' st'. cbn [set_head cl heads]. destruct (key_dec ws ws' st st') as [[-> ->]|Hne].
    + rewrite upd2_eq. unfold upd2. by rewrite !fn_lookup_insert.
    + rewrite upd2_ne by done. change (<[ws := <[st := h]> (heads s ws)]> (heads s) ws' st') with (upd2 (heads s) ws st h ws' st'). rewrite upd2_ne by done.
      eapply ring_untouched; [exact Hu| |apply Hr]. intros a Ha Ha'. rewrite <- El in Ha'. destruct (H1 _ _ _ _ _ Ha' Ha) as [-> ->]. by destruct Hne.
  - intros ws1 st1 ws2 st2 x. destruct (key_dec ws ws1 st st1) as [[-> ->]|Hn1], (key_dec ws ws2 st st2) as [[-> ->]|Hn2]; rewrite ?upd2_eq, ?upd2_ne by done; [done| | |by apply H1].
    + intros Hx%Hsub Hx'. by eapply H1.
    + intros Hx Hx'%Hsub. by eapply H1.
  - intros x Hx Hnot. apply Hu. rewrite <- El. apply Hnot.
Qed.
