(* ===== verification/WaitsetCorrect.v ===== *)
(** Correctness of Waitset.v: what the queues hold after each operation, and
    that no event is lost. *)
From S2P Require Import Prelude Ring Threads ThreadsCorrect Waitset WaitsetQueues.

Section Waitset.
Context (all : list Z) (Hbound : (length all < MAX_THREADS)%nat) (Hpage : Forall (fun t => BASE_PAGE_SIZE < t) all) (handle : Z).
Context (chans : list Z) (Hnull : 0 ∉ chans) (fuel : nat) (Hfuel : (length chans < fuel)%nat).
(** Every channel is used with one waitset. *)
Context (home : Z -> Z) (Hhome : forall c, c ∈ chans -> home c <> 0).

Record wrep (R : list Z) (Q : Z -> list Z) (C : Z -> ws_chanstate -> list Z) (P : list Z) (s : wstate) : Prop := {
  wr_threads : trep all handle R Q (wt s);
  wr_queues : qrep C s;
  wr_in : forall ws st c, c ∈ C ws st <-> c ∈ chans /\ ws = home c /\ state (chan s c) = st /\ st <> CHAN_UNREGISTERED;
  wr_waitset : forall c, c ∈ chans -> waitset (chan s c) = if decide (state (chan s c) = CHAN_UNREGISTERED) then 0 else home c;
  wr_out : forall c, c ∈ chans -> state (chan s c) = CHAN_UNREGISTERED -> nxt (cl s) c = 0 /\ prv (cl s) c = 0;
  wr_polled : ring (pl s) (polled_channels (wt s)) P;
  wr_polled_in : forall c, c ∈ P <-> c ∈ chans /\ state (chan s c) = CHAN_POLLED
}.

(** A channel that is registered: its queue, and its links. *)
Lemma wrep_registered R Q C P s c : wrep R Q C P s -> c ∈ chans -> state (chan s c) <> CHAN_UNREGISTERED ->
  waitset (chan s c) = home c /\ c ∈ C (home c) (state (chan s c)) /\ nxt (cl s) c <> 0 /\ prv (cl s) c <> 0.
Proof.
  intros Hw Hc Hs. pose proof (wr_waitset _ _ _ _ _ Hw c Hc) as E. destruct (decide _) as [|_]; [done|].
  assert (Hin : c ∈ C (home c) (state (chan s c))) by (by apply (wr_in _ _ _ _ _ Hw)). split_and!; [done|done| |];
    pose proof (qr_ring _ _ (wr_queues _ _ _ _ _ Hw) (home c) (state (chan s c))) as Hr; destruct (ring_neighbours _ _ _ _ Hr Hin) as (H1 & H2 & _);
    intros E0; apply (ring_nonnull _ _ _ Hr); congruence.
Qed.

Lemma wrep_unregistered R Q C P s c : wrep R Q C P s -> state (chan s c) = CHAN_UNREGISTERED -> forall ws st, c ∉ C ws st.
Proof. intros Hw E ws st (_ & _ & E' & Hne)%(wr_in _ _ _ _ _ Hw). congruence. Qed.

Lemma chans_nonnull c : c ∈ chans -> c <> 0.
Proof. congruence. Qed.

(** One channel changes its state, and the queues follow. *)
Lemma wrep_move R Q R' Q' C C' P P' c s s' : wrep R Q C P s -> c ∈ chans -> trep all handle R' Q' (wt s') -> qrep C' s' ->
  (forall x, x <> c -> chan s' x = chan s x) -> (forall ws st x, x <> c -> x ∈ C' ws st <-> x ∈ C ws st) ->
  (forall ws st, c ∈ C' ws st <-> ws = home c /\ state (chan s' c) = st /\ st <> CHAN_UNREGISTERED) ->
  waitset (chan s' c) = (if decide (state (chan s' c) = CHAN_UNREGISTERED) then 0 else home c) ->
  (forall x, x <> c -> (forall ws st, x ∉ C ws st) -> nxt (cl s') x = nxt (cl s) x /\ prv (cl s') x = prv (cl s) x) ->
  (state (chan s' c) = CHAN_UNREGISTERED -> nxt (cl s') c = 0 /\ prv (cl s') c = 0) ->
  ring (pl s') (polled_channels (wt s')) P' -> (forall x, x <> c -> x ∈ P' <-> x ∈ P) -> (c ∈ P' <-> state (chan s' c) = CHAN_POLLED) ->
  wrep R' Q' C' P' s'.
Proof.
  intros Hw Hc Ht Hq Hch Hoth Hcin Hws Hfr Hout Hpr Hpo Hpc. constructor; try done.
  - intros ws st x. destruct (decide (x = c)) as [->|Hne]; [rewrite Hcin; tauto|]. rewrite Hoth, Hch by done. apply (wr_in _ _ _ _ _ Hw).
  - intros x Hx. destruct (decide (x = c)) as [->|Hne]; [done|]. rewrite Hch by done. by apply (wr_waitset _ _ _ _ _ Hw).
  - intros x Hx E. destruct (decide (x = c)) as [->|Hne]; [by apply Hout|]. rewrite Hch in E by done. destruct (Hfr x Hne (wrep_unregistered _ _ _ _ _ _ Hw E)) as [-> ->]. by apply (wr_out _ _ _ _ _ Hw).
  - intros x. destruct (decide (x = c)) as [->|Hne]; [rewrite Hpc; tauto|]. rewrite Hpo, Hch by done. apply (wr_polled_in _ _ _ _ _ Hw).
Qed.

(** Changes of a channel that keep its state and waitset. *)
Lemma wrep_chan R Q C P s c f : wrep R Q C P s -> (forall x, state (f x) = state x) -> (forall x, waitset (f x) = waitset x) -> wrep R Q C P (set_chan c f s).
Proof.
  intros [H1 [H2 H2'] H3 H4 H5 H6 H7] Hs Hw.
  assert (Es : forall x, state (chan (set_chan c f s) x) = state (chan s x)) by (intros x; cbn [set_chan chan]; destruct (decide (x = c)) as [->|]; [by rewrite fn_lookup_insert, Hs|by rewrite fn_lookup_insert_ne]).
  assert (Ew : forall x, waitset (chan (set_chan c f s) x) = waitset (chan s x)) by (intros x; cbn [set_chan chan]; destruct (decide (x = c)) as [->|]; [by rewrite fn_lookup_insert, Hw|by rewrite fn_lookup_insert_ne]).
  constructor; try done; intros *; rewrite ?Es, ?Ew; eauto.
Qed.

(** ** Threads that wait *)

Lemma find_thread_spec c h0 l s : ring (tlinks (wt s)) h0 l -> forall l2 fu l1 t, l = l1 ++ t :: l2 -> (length l2 < fu)%nat ->
  find_thread fu c h0 t s = Done (default 0 (head (filter (fun t => waitset_check_token c t s = true) (t :: l2)))).
Proof.
  intros Hr. induction l2 as [|y l2 IH]; intros fu l1 t E Hf; (destruct fu as [|fu]; [cbn in Hf; lia|]); cbn [find_thread]; subst l;
    rewrite (ring_next _ _ _ _ _ Hr); cbn [head default from_option id];
    (destruct (waitset_check_token c t s) eqn:Et; [by rewrite filter_cons_True|rewrite filter_cons_False by congruence]).
  - by rewrite Z.eqb_refl.
  - assert (y <> h0).
    { destruct Hr as [-> Hn _ _]. destruct l1 as [|a l1]; cbn [app head default from_option id]; cbn [app] in Hn; apply NoDup_cons in Hn as [Hn _]; lmem. }
    zdecide. apply (IH _ (l1 ++ [t])); [by rewrite <- app_assoc|cbn in Hf; lia].
Qed.

(** Threads move from the queue of [ws] to the run queue. *)
Record woken (ws : Z) (R : list Z) (Q : Z -> list Z) (R' : list Z) (Q' : Z -> list Z) : Prop := {
  wk_run : forall t, t ∈ R -> t ∈ R';
  wk_from : forall t, t ∈ R' -> t ∈ R \/ t ∈ Q ws;
  wk_queue : forall q t, t ∈ Q' q -> t ∈ Q q;
  wk_other : forall q, q <> ws -> Q' q = Q q
}.

Lemma woken_refl ws R Q : woken ws R Q R Q.
Proof. constructor; auto. Qed.

Lemma woken_trans ws R Q R1 Q1 R2 Q2 : woken ws R Q R1 Q1 -> woken ws R1 Q1 R2 Q2 -> woken ws R Q R2 Q2.
Proof.
  intros [A1 A2 A3 A4] [B1 B2 B3 B4]. constructor; [auto| |auto|].
  - intros t [Ht|Ht]%B2; [auto|right; auto].
  - intros q Hq. by rewrite B4, A4.
Qed.

Lemma wake_rep R Q ws l1 t l2 reason s : trep all handle R Q (wt s) -> Q ws = l1 ++ t :: l2 ->
  exists x, wake handle ws t reason s = Done (with_wt x s) /\ trep all handle (R ++ [t]) (<[ws := l2 ++ l1]> Q) x /\
    polled_channels x = polled_channels (wt s) /\ current x = current (wt s).
Proof.
  intros Hr E. pose proof (rotate_rep all handle R Q ws l1 t l2 _ Hr E) as Hrot. unfold wake.
  destruct (unblock_one_rep all Hbound Hpage handle R _ ws t (l2 ++ l1) reason _ Hrot ltac:(apply fn_lookup_insert)) as (x & -> & Hx & Hc & Hp). cbn [mbind outcome_bind Z.eqb assert].
  exists x. split_and!; try done. apply (trep_ext _ _ _ (<[ws := l2 ++ l1]> (<[ws := t :: l2 ++ l1]> Q))); [|done].
  intros q. destruct (decide (q = ws)) as [->|]; [by rewrite !fn_lookup_insert|by rewrite !fn_lookup_insert_ne].
Qed.

Lemma wake_woken R Q ws l1 t l2 : Q ws = l1 ++ t :: l2 -> woken ws R Q (R ++ [t]) (<[ws := l2 ++ l1]> Q).
Proof.
  intros E. constructor.
  - intros x Hx. apply elem_of_app. by left.
  - intros x [Hx|Hx%list_elem_of_singleton]%elem_of_app; [by left|right]. subst x. rewrite E. apply elem_of_app. right. left.
  - intros q x [[-> Hx]|[_ Hx]]%in_insert; [|done]. rewrite E. rewrite elem_of_app in *. rewrite elem_of_cons. tauto.
  - intros q Hq. by rewrite fn_lookup_insert_ne.
Qed.

Lemma threads_fuel R Q (s : threads) ws t l : trep all handle R Q s -> Q ws = t :: l -> (length l < S MAX_THREADS)%nat.
Proof.
  intros Hr E. destruct (tr_queue _ _ _ _ _ Hr ws) as [Hq Hs]. pose proof (NoDup_submseteq _ _ (ring_nodup _ _ _ Hq) Hs) as H. apply submseteq_length in H. rewrite E in H. cbn in H. lia.
Qed.

(** An event wakes a thread, if any is blocked on the waitset. *)
Lemma awaken_rep R Q ws c s : trep all handle R Q (wt s) ->
  exists x R' Q', awaken handle ws c s = Done (with_wt x s) /\ trep all handle R' Q' x /\ polled_channels x = polled_channels (wt s) /\ current x = current (wt s) /\
    woken ws R Q R' Q' /\ (Q ws <> [] -> exists t, t ∈ Q ws /\ t ∈ R').
Proof.
  intros Hr. unfold awaken, find_recipient. destruct (tr_queue _ _ _ _ _ Hr ws) as [Hq Hs]. destruct (Q ws) as [|h l] eqn:E.
  - apply ring_empty in Hq. rewrite Hq. cbn [Z.eqb mbind outcome_bind negb]. exists (wt s), R, Q. split_and!; [by destruct s|done..|apply woken_refl|done].
  - pose proof (ring_head _ _ _ Hq) as Hh. cbn in Hh. assert (h <> 0) by (apply (all_nonnull all Hpage), Hs; left). rewrite Hh in Hq |- *. zdecide.
    rewrite (find_thread_spec c h (h :: l) s Hq l _ [] h eq_refl (threads_fuel _ _ _ _ _ _ Hr E)). cbn [mbind outcome_bind].
    set (t0 := default 0 _). assert (Ht : exists t, (if t0 =? 0 then h else t0) = t /\ t ∈ h :: l).
    { unfold t0. destruct (filter _ (h :: l)) as [|t l'] eqn:Ef; cbn [head default from_option id]; [exists h; split; [done|left]|].
      assert (Ht : t ∈ t :: l') by left. rewrite <- Ef in Ht. apply list_elem_of_filter in Ht as [_ Ht]. exists t. split; [|done].
      assert (t <> 0) by (by apply (all_nonnull all Hpage), Hs). by zdecide. }
    destruct Ht as (t & -> & Ht). assert (t <> 0) by (by apply (all_nonnull all Hpage), Hs). zdecide. cbn [negb].
    rewrite <- E in Ht. pose proof Ht as Hin. apply list_elem_of_split in Ht as (l1 & l2 & El).
    destruct (wake_rep R Q ws l1 t l2 c s Hr El) as (x & -> & Hx & Hp & Hc). exists x, (R ++ [t]), (<[ws := l2 ++ l1]> Q). split_and!; try done; [by apply wake_woken|].
    intros _. exists t. rewrite <- E. split; [done|]. apply elem_of_app. right. left.
Qed.

(** ** Operations on channels *)

Ltac wlk := cbn [wt t_token t_channel chan cl pl heads set_chan set_cl set_head set_polled with_wt];
  repeat first [rewrite fn_lookup_insert | rewrite fn_lookup_insert_ne by congruence];
  cbn [state waitset closure token wait_for chantype persistent with_waitset with_closure with_chan_state with_token with_wait_for].

Lemma register_ok R Q C P s c f : wrep R Q C P s -> c ∈ chans -> handler f <> 0 -> state (chan s c) = CHAN_UNREGISTERED ->
  exists s', waitset_chan_register_disabled (home c) c f s = Done (SYS_ERR_OK, s') /\ wrep R Q (upd2 C (home c) CHAN_IDLE (C (home c) CHAN_IDLE ++ [c])) P s' /\
    wt s' = wt s /\ t_token s' = t_token s /\ t_channel s' = t_channel s /\ (forall x, x <> c -> chan s' x = chan s x) /\ chan s' c = with_chan_state CHAN_IDLE (with_closure f (with_token 0 (with_waitset (home c) (chan s c)))).
Proof.
  intros Hw Hc Hf E. destruct (wr_out _ _ _ _ _ Hw c Hc E) as [E1 E2]. pose proof (wr_waitset _ _ _ _ _ Hw c Hc) as Ew. rewrite decide_True in Ew by done.
  unfold waitset_chan_register_disabled. rewrite Ew. cbn [Z.eqb negb]. wlk. rewrite E1, E2, E. rewrite bool_decide_true by done. zdecide. cbn [Z.eqb andb negb assert mbind outcome_bind].
  set (s1 := set_chan c (with_closure f) _). assert (Hq : qrep C s1) by (destruct (wr_queues _ _ _ _ _ Hw); by constructor).
  assert (Hnot : forall ws st, c ∉ C ws st) by (by eapply wrep_unregistered).
  destruct (enq_q C (home c) CHAN_IDLE c s1 Hq (chans_nonnull c Hc) Hnot) as (h & k & -> & Hq' & Hoth & _). cbn [mbind outcome_bind].
  eexists. split; [done|]. split_and!; [|done|done|done| |].
  - apply (wrep_move R Q R Q C _ P P c s); [done|done|apply (wr_threads _ _ _ _ _ Hw)|destruct Hq'; by constructor|intros x Hx; unfold s1; by wlk| | |unfold s1; by wlk|exact Hoth|unfold s1; by wlk|apply (wr_polled _ _ _ _ _ Hw)|done|].
    + intros ws st x Hx. rewrite in_upd2, elem_of_app, list_elem_of_singleton. destruct (key_dec (home c) ws CHAN_IDLE st) as [[-> ->]|]; tauto.
    + intros ws st. unfold s1. wlk. rewrite in_upd2, elem_of_app, list_elem_of_singleton. pose proof (Hnot ws st). split; [intros [(-> & -> & _)|[_ ?]]; done|intros (-> & <- & _); tauto].
    + unfold s1. wlk. rewrite (wr_polled_in _ _ _ _ _ Hw). split; [intros [_ ?]; congruence|done].
  - intros x Hx. unfold s1. by wlk.
  - unfold s1. by wlk.
Qed.

Lemma polled_rep R Q h k s : trep all handle R Q (wt s) -> trep all handle R Q (wt (set_polled h k s)).
Proof. intros [H1 H2 H3 H4 H5 H6 H7 H8 H9 H10]. by constructor. Qed.

(** A channel leaves its queue, and the queue of polled channels. *)
Definition leave (ws : Z) (st : ws_chanstate) (c : Z) (s : wstate) : outcome wstate :=
  if decide (st = CHAN_POLLED) then s ← deq ws CHAN_POLLED c s; dequeue_polled c s else deq ws st c s.

Record left_queue (R : list Z) (Q : Z -> list Z) (C : Z -> ws_chanstate -> list Z) (P : list Z) (c : Z) (s0 s1 : wstate) : Prop := {
  lv_threads : trep all handle R Q (wt s1);
  lv_queues : qrep C s1;
  lv_links : nxt (cl s1) c = 0 /\ prv (cl s1) c = 0;
  lv_others : others_same C c s0 s1;
  lv_polled : ring (pl s1) (polled_channels (wt s1)) P;
  lv_same : chan s1 = chan s0 /\ t_token s1 = t_token s0 /\ t_channel s1 = t_channel s0 /\ current (wt s1) = current (wt s0)
}.

Lemma leave_ok R Q C P s s0 c st : wrep R Q C P s -> c ∈ chans -> state (chan s c) = st -> st <> CHAN_UNREGISTERED ->
  wt s0 = wt s -> cl s0 = cl s -> pl s0 = pl s -> heads s0 = heads s ->
  exists s1, leave (home c) st c s0 = Done s1 /\ left_queue R Q (upd2 C (home c) st (del c (C (home c) st))) (del c P) c s0 s1.
Proof.
  intros Hw Hc Est Hst Et Ec Ep Eh. assert (Hq : qrep C s0) by (destruct (wr_queues _ _ _ _ _ Hw); constructor; [by rewrite Ec, Eh|done]).
  assert (Hin : c ∈ C (home c) st) by (rewrite <- Est in Hst |- *; by eapply wrep_registered).
  destruct (deq_q C (home c) st c s0 Hq Hin) as (h & k & E & Hq' & Hoth & E1 & E2). unfold leave.
  assert (Ho : others_same (upd2 C (home c) st (del c (C (home c) st))) c s0 (set_head (home c) st h k s0)).
  { intros x Hx Hn. apply Hoth; [done|]. intros ws' st' Hx'. apply (Hn ws' st'). apply in_upd2. destruct (key_dec (home c) ws' st st') as [[-> ->]|]; [left; by rewrite elem_of_del|by right]. }
  pose proof (wr_polled _ _ _ _ _ Hw) as Hp. destruct (decide (st = CHAN_POLLED)) as [->|Hnp].
  - rewrite E. cbn [mbind outcome_bind]. unfold dequeue_polled. cbn [set_head wt pl]. rewrite Et, Ep.
    assert (HcP : c ∈ P) by (by apply (wr_polled_in _ _ _ _ _ Hw)). apply list_elem_of_split in HcP as (l1 & l2 & El). rewrite El in Hp |- *.
    destruct (dequeue_ring _ _ _ _ _ Hp) as (h2 & k2 & -> & Hp' & _). cbn [mbind outcome_bind]. eexists. split; [done|].
    rewrite del_middle by apply (ring_nodup _ _ _ Hp). constructor; [|destruct Hq'; by constructor|done|exact Ho|exact Hp'|]; cbn [set_polled wt]; rewrite <- ?Et; [|done].
    apply (polled_rep R Q h2 k2 s0). rewrite Et. apply (wr_threads _ _ _ _ _ Hw).
  - rewrite E. eexists. split; [done|]. rewrite (del_notin c P) by (rewrite (wr_polled_in _ _ _ _ _ Hw); intros [_ ?]; congruence).
    constructor; [cbn [set_head wt]; rewrite Et; apply (wr_threads _ _ _ _ _ Hw)|done|done|done|by cbn [set_head wt pl]; rewrite Et, Ep|done].
Qed.

Lemma deregister_ok R Q C P s c : wrep R Q C P s -> c ∈ chans -> state (chan s c) <> CHAN_UNREGISTERED ->
  exists s', waitset_chan_deregister_disabled c s = Done (SYS_ERR_OK, s') /\
    wrep R Q (upd2 C (home c) (state (chan s c)) (del c (C (home c) (state (chan s c))))) (del c P) s' /\
    (forall x, x <> c -> chan s' x = chan s x) /\ state (chan s' c) = CHAN_UNREGISTERED /\ t_token s' = t_token s /\ t_channel s' = t_channel s /\ current (wt s') = current (wt s).
Proof.
  intros Hw Hc Hst. destruct (wrep_registered _ _ _ _ _ _ Hw Hc Hst) as (Ew & Hin & N1 & N2). pose proof (chans_nonnull c Hc). pose proof (Hhome c Hc).
  unfold waitset_chan_deregister_disabled. rewrite Ew. zdecide. cbn [negb assert mbind outcome_bind]. wlk. zdecide. cbn [negb andb assert mbind outcome_bind].
  set (s0 := set_chan c (with_waitset 0) s).
  assert (El : (match state (chan s c) with CHAN_IDLE => deq (home c) CHAN_IDLE c s0 | CHAN_POLLED => s ← deq (home c) CHAN_POLLED c s0; dequeue_polled c s
    | CHAN_PENDING => deq (home c) CHAN_PENDING c s0 | CHAN_WAITING => deq (home c) CHAN_WAITING c s0 | CHAN_UNREGISTERED => Fault AssertionFailed end)
    = leave (home c) (state (chan s c)) c s0) by (destruct (state (chan s c)); [done|reflexivity..]).
  rewrite El. destruct (leave_ok R Q C P s s0 c _ Hw Hc eq_refl Hst eq_refl eq_refl eq_refl eq_refl) as (s1 & -> & [L1 L2 L3 L4 L5 (L6 & L7 & L8 & L9)]).
  cbn [mbind outcome_bind]. eexists. split; [done|]. split_and!; [|intros x Hx; wlk; rewrite L6; unfold s0; by wlk|by wlk|done..].
  apply (wrep_move R Q R Q C _ P _ c s); [done|done|done|destruct L2; by constructor|intros x Hx; wlk; rewrite L6; unfold s0; by wlk| | |wlk; rewrite L6; unfold s0; by wlk| |by wlk|done| |].
  - intros ws st x Hx. rewrite in_upd2, elem_of_del. destruct (key_dec (home c) ws (state (chan s c)) st) as [[-> ->]|]; tauto.
  - intros ws st. wlk. rewrite in_upd2, elem_of_del. split; [|by intros (_ & <- & ?)]. intros [(_ & _ & ? & _)|[Hne Hx]]; [done|]. apply (wr_in _ _ _ _ _ Hw) in Hx as (_ & -> & <- & _). by destruct Hne.
  - intros x Hx Hn. apply (L4 x Hx). intros ws st. rewrite in_upd2, elem_of_del. intros [(-> & -> & _ & Hx')|[_ Hx']]; by eapply Hn.
  - intros x Hx. rewrite elem_of_del. tauto.
  - wlk. rewrite elem_of_del. split; [tauto|done].
Qed.

(** The queues after a channel went from its queue to the end of another. *)
Definition moved (C : Z -> ws_chanstate -> list Z) (c : Z) (st st' : ws_chanstate) : Z -> ws_chanstate -> list Z :=
  let C1 := upd2 C (home c) st (del c (C (home c) st)) in upd2 C1 (home c) st' (C1 (home c) st' ++ [c]).

Lemma in_moved R Q C P s c st st' ws st1 x : wrep R Q C P s -> state (chan s c) = st ->
  x ∈ moved C c st st' ws st1 <-> (x <> c /\ x ∈ C ws st1) \/ (x = c /\ ws = home c /\ st1 = st').
Proof.
  intros Hw Est. unfold moved. rewrite in_upd2, elem_of_app, list_elem_of_singleton, !in_upd2, elem_of_del.
  assert (Hc : c ∈ C ws st1 -> ws = home c /\ st1 = st) by (intros (_ & -> & <- & _)%(wr_in _ _ _ _ _ Hw); done).
  destruct (decide (x = c)) as [Ex|]; destruct (decide (ws = home c)) as [Ew|]; destruct (decide (st1 = st')) as [E1|]; destruct (decide (st1 = st)) as [E2|]; destruct (decide (st' = st)) as [E3|];
    rewrite ?Ex, ?Ew, ?E1, ?E2, ?E3 in *; try congruence; tauto.
Qed.

Section Join.
Context (R : list Z) (Q : Z -> list Z) (C : Z -> ws_chanstate -> list Z) (P : list Z) (s s0 s1 : wstate) (c : Z) (st : ws_chanstate).
Context (Hw : wrep R Q C P s) (Hc : c ∈ chans) (Est : state (chan s c) = st).
Let C1 := upd2 C (home c) st (del c (C (home c) st)).
Context (Hlv : left_queue R Q C1 (del c P) c s0 s1).
(** [s1] with changes of the channel. *)
Context (s2 : wstate) (E1 : wt s2 = wt s1) (E2 : cl s2 = cl s1) (E3 : pl s2 = pl s1) (E4 : heads s2 = heads s1).
Context (Hcl : cl s0 = cl s) (Hch : forall x, x <> c -> chan s2 x = chan s x).

Lemma join_enq st' : exists h k, enq (home c) st' c s2 = Done (set_head (home c) st' h k s2) /\ qrep (moved C c st st') (set_head (home c) st' h k s2) /\
  (forall x, x <> c -> (forall ws st, x ∉ C ws st) -> nxt k x = nxt (cl s) x /\ prv k x = prv (cl s) x).
Proof.
  destruct Hlv as [L1 [L2 L2'] L3 L4 L5 L6]. assert (Hq : qrep C1 s2) by (constructor; [by rewrite E2, E4|done]).
  assert (Hnot : forall ws st, c ∉ C1 ws st).
  { intros ws st1. unfold C1. rewrite in_upd2, elem_of_del. intros [(_ & _ & ? & _)|[Hne Hx]]; [done|]. apply (wr_in _ _ _ _ _ Hw) in Hx as (_ & -> & <- & _). destruct Hne; congruence. }
  destruct (enq_q C1 (home c) st' c s2 Hq (chans_nonnull c Hc) Hnot) as (h & k & E & Hq' & Hoth & _). exists h, k. split_and!; [done|done|].
  intros x Hx Hn. assert (Hn1 : forall ws st, x ∉ C1 ws st).
  { intros ws st1. unfold C1. rewrite in_upd2, elem_of_del. intros [(-> & -> & _ & Hx')|[_ Hx']]; by eapply Hn. }
  destruct (Hoth x Hx Hn1) as [A1 A2]. cbn [set_head cl] in A1, A2. rewrite A1, A2, E2. destruct (L4 x Hx Hn1) as [B1 B2]. by rewrite B1, B2, Hcl.
Qed.

Lemma join_ok st' g : st' <> CHAN_UNREGISTERED -> st' <> CHAN_POLLED -> state (g (chan s2 c)) = st' -> waitset (g (chan s2 c)) = home c ->
  exists s3, enq (home c) st' c s2 = Done s3 /\ wrep R Q (moved C c st st') (del c P) (set_chan c g s3) /\
    chan s3 = chan s2 /\ wt s3 = wt s2 /\ t_token s3 = t_token s2 /\ t_channel s3 = t_channel s2.
Proof.
  intros Hun Hpo Eg Ew. destruct (join_enq st') as (h & k & E & Hq & Hoth). eexists. split; [done|]. split; [|done]. destruct Hlv as [L1 L2 L3 L4 L5 L6].
  apply (wrep_move R Q R Q C _ P _ c s); [done|done|by wlk; rewrite E1|destruct Hq; by constructor|intros x Hx; wlk; by apply Hch| | |by wlk; rewrite decide_False by congruence|exact Hoth|by wlk; congruence|by wlk; rewrite E1, E3| |].
  - intros ws st1 x Hx. rewrite (in_moved _ _ _ _ _ _ _ _ _ _ _ Hw Est). tauto.
  - intros ws st1. rewrite (in_moved _ _ _ _ _ _ _ _ _ _ _ Hw Est). wlk. rewrite Eg. split; [intros [[? _]|(_ & -> & ->)]; done|intros (-> & -> & _); by right].
  - intros x Hx. rewrite elem_of_del. tauto.
  - wlk. rewrite elem_of_del, Eg. split; [tauto|done].
Qed.

Lemma join_polled_ok g : state (g (chan s2 c)) = CHAN_POLLED -> waitset (g (chan s2 c)) = home c ->
  exists s3, (s ← enq (home c) CHAN_POLLED c s2; enqueue_polled c s) = Done s3 /\ wrep R Q (moved C c st CHAN_POLLED) (del c P ++ [c]) (set_chan c g s3) /\
    chan s3 = chan s2 /\ t_token s3 = t_token s2 /\ t_channel s3 = t_channel s2 /\ current (wt s3) = current (wt s2).
Proof.
  intros Eg Ew. destruct (join_enq CHAN_POLLED) as (h & k & E & Hq & Hoth). rewrite E. cbn [mbind outcome_bind]. unfold enqueue_polled. cbn [set_head wt pl]. destruct Hlv as [L1 L2 L3 L4 L5 L6].
  rewrite <- E1, <- E3 in L5. destruct (enqueue_ring _ _ _ c L5 ltac:(rewrite elem_of_del; tauto) (chans_nonnull c Hc)) as (h2 & k2 & -> & Hp & _). cbn [mbind outcome_bind].
  eexists. split; [done|]. split; [|done].
  apply (wrep_move R Q R Q C _ P _ c s); [done|done| |destruct Hq; by constructor|intros x Hx; wlk; by apply Hch| | |by wlk; rewrite decide_False by congruence|exact Hoth|by wlk; congruence|exact Hp| |].
  - apply (polled_rep R Q h2 k2 s2). by rewrite E1.
  - intros ws st1 x Hx. rewrite (in_moved _ _ _ _ _ _ _ _ _ _ _ Hw Est). tauto.
  - intros ws st1. rewrite (in_moved _ _ _ _ _ _ _ _ _ _ _ Hw Est). wlk. rewrite Eg. split; [intros [[? _]|(_ & -> & ->)]; done|intros (-> & <- & _); by right].
  - intros x Hx. rewrite elem_of_app, elem_of_del, list_elem_of_singleton. tauto.
  - wlk. rewrite elem_of_app, list_elem_of_singleton, Eg. tauto.
Qed.
End Join.

(** What an operation leaves: other channels, and what threads wait for. *)
Record kept (c : Z) (s s' : wstate) : Prop := {
  kp_chan : forall x, x <> c -> chan s' x = chan s x;
  kp_token : t_token s' = t_token s;
  kp_channel : t_channel s' = t_channel s;
  kp_current : current (wt s') = current (wt s)
}.

Lemma trigger_ok R Q C P s c : wrep R Q C P s -> c ∈ chans -> state (chan s c) = CHAN_IDLE \/ state (chan s c) = CHAN_POLLED ->
  exists s' R' Q', waitset_chan_trigger_disabled handle c s = Done (SYS_ERR_OK, s') /\ wrep R' Q' (moved C c (state (chan s c)) CHAN_PENDING) (del c P) s' /\
    woken (home c) R Q R' Q' /\ (Q (home c) <> [] -> exists t, t ∈ Q (home c) /\ t ∈ R') /\ kept c s s' /\ chan s' c = with_chan_state CHAN_PENDING (chan s c).
Proof.
  intros Hw Hc Hst. assert (Hun : state (chan s c) <> CHAN_UNREGISTERED) by (by destruct Hst as [-> | ->]).
  destruct (wrep_registered _ _ _ _ _ _ Hw Hc Hun) as (Ew & Hin & N1 & N2). pose proof (chans_nonnull c Hc). pose proof (Hhome c Hc).
  unfold waitset_chan_trigger_disabled. rewrite Ew. zdecide. cbn [negb andb assert mbind outcome_bind]. rewrite bool_decide_false by (destruct Hst; congruence).
  assert (El : (if bool_decide (state (chan s c) = CHAN_IDLE) then deq (home c) CHAN_IDLE c s
    else ASSERT bool_decide (state (chan s c) = CHAN_POLLED); s ← deq (home c) CHAN_POLLED c s; dequeue_polled c s) = leave (home c) (state (chan s c)) c s) by (by destruct Hst as [-> | ->]).
  rewrite El. destruct (leave_ok R Q C P s s c _ Hw Hc eq_refl Hun eq_refl eq_refl eq_refl eq_refl) as (s1 & -> & Hlv). cbn [mbind outcome_bind].
  pose proof (lv_same _ _ _ _ _ _ _ Hlv) as (L6 & L7 & L8 & L9).
  destruct (join_ok R Q C P s s s1 c _ Hw Hc eq_refl Hlv s1 eq_refl eq_refl eq_refl eq_refl eq_refl
    ltac:(intros; by rewrite L6) CHAN_PENDING (with_chan_state CHAN_PENDING) ltac:(done) ltac:(done) eq_refl ltac:(by rewrite L6)) as (s3 & -> & Hw3 & M1 & M2 & M3 & M4). cbn [mbind outcome_bind].
  destruct (awaken_rep R Q (home c) c _ (wr_threads _ _ _ _ _ Hw3)) as (x & R' & Q' & -> & Hx & Hp & Hcu & Hwk & Hone). cbn [mbind outcome_bind].
  eexists _, R', Q'. split; [done|]. split_and!; [|done|done| |wlk; by rewrite M1, L6].
  - destruct Hw3 as [W1 [W2 W2'] W3 W4 W5 W6 W7]. constructor; try done. wlk. by rewrite Hp.
  - constructor; wlk; [intros y Hy; wlk; by rewrite M1, L6|by rewrite M3, L7|by rewrite M4, L8|]. rewrite Hcu. wlk. by rewrite M2, L9.
Qed.

Lemma trigger_closure_ok R Q C P s c f : wrep R Q C P s -> c ∈ chans -> state (chan s c) = CHAN_UNREGISTERED ->
  exists s' R' Q', waitset_chan_trigger_closure_disabled handle (home c) c f s = Done (SYS_ERR_OK, s') /\
    wrep R' Q' (upd2 C (home c) CHAN_PENDING (C (home c) CHAN_PENDING ++ [c])) P s' /\
    woken (home c) R Q R' Q' /\ (Q (home c) <> [] -> exists t, t ∈ Q (home c) /\ t ∈ R') /\ kept c s s' /\ closure (chan s' c) = f.
Proof.
  intros Hw Hc E. destruct (wr_out _ _ _ _ _ Hw c Hc E) as [E1 E2]. pose proof (wr_waitset _ _ _ _ _ Hw c Hc) as Ew. rewrite decide_True in Ew by done.
  pose proof (chans_nonnull c Hc). pose proof (Hhome c Hc).
  unfold waitset_chan_trigger_closure_disabled. rewrite Ew, E1, E2, E. zdecide. rewrite bool_decide_false by (intros X; by apply X). cbn [Z.eqb andb orb negb assert mbind outcome_bind].
  set (s1 := set_chan c _ s). assert (Hq : qrep C s1) by (destruct (wr_queues _ _ _ _ _ Hw); by constructor).
  assert (Hnot : forall ws st, c ∉ C ws st) by (by eapply wrep_unregistered).
  destruct (enq_q C (home c) CHAN_PENDING c s1 Hq (chans_nonnull c Hc) Hnot) as (h & k & -> & Hq' & Hoth & _). cbn [mbind outcome_bind].
  destruct (awaken_rep R Q (home c) c (set_chan c (with_chan_state CHAN_PENDING) (set_head (home c) CHAN_PENDING h k s1)) (wr_threads _ _ _ _ _ Hw)) as (x & R' & Q' & -> & Hx & Hp & Hcu & Hwk & Hone). cbn [mbind outcome_bind].
  eexists _, R', Q'. split; [done|]. split_and!; [|done|done| |unfold s1; by wlk].
  - apply (wrep_move R Q R' Q' C _ P P c s); [done|done|exact Hx|destruct Hq'; by constructor|intros y Hy; unfold s1; by wlk| | |unfold s1; by wlk|exact Hoth|unfold s1; by wlk| |done|].
    + intros ws st y Hy. rewrite in_upd2, elem_of_app, list_elem_of_singleton. destruct (key_dec (home c) ws CHAN_PENDING st) as [[-> ->]|]; tauto.
    + intros ws st. unfold s1. wlk. rewrite in_upd2, elem_of_app, list_elem_of_singleton. pose proof (Hnot ws st). split; [intros [(-> & -> & _)|[_ ?]]; done|intros (-> & <- & _); tauto].
    + wlk. rewrite Hp. apply (wr_polled _ _ _ _ _ Hw).
    + unfold s1. wlk. rewrite (wr_polled_in _ _ _ _ _ Hw). split; [intros [_ ?]; congruence|done].
  - constructor; [intros y Hy; unfold s1; by wlk|done|done|by wlk; rewrite Hcu].
Qed.

Lemma set_aside_ok R Q C P s c : wrep R Q C P s -> c ∈ chans -> state (chan s c) = CHAN_PENDING ->
  exists s', set_aside (home c) c s = Done s' /\ wrep R Q (moved C c CHAN_PENDING CHAN_WAITING) (del c P) s' /\ kept c s s' /\
    chan s' c = with_waitset (home c) (with_chan_state CHAN_WAITING (chan s c)).
Proof.
  intros Hw Hc E. destruct (leave_ok R Q C P s s c _ Hw Hc E ltac:(done) eq_refl eq_refl eq_refl eq_refl) as (s1 & E1 & Hlv). unfold leave in E1. rewrite decide_False in E1 by done.
  pose proof (lv_same _ _ _ _ _ _ _ Hlv) as (L6 & L7 & L8 & L9). unfold set_aside. rewrite E1. cbn [mbind outcome_bind].
  destruct (join_ok R Q C P s s s1 c _ Hw Hc E Hlv s1 eq_refl eq_refl eq_refl eq_refl eq_refl ltac:(intros; by rewrite L6) CHAN_WAITING
    (fun x => with_waitset (home c) (with_chan_state CHAN_WAITING x)) ltac:(done) ltac:(done) eq_refl eq_refl) as (s3 & -> & Hw3 & M1 & M2 & M3 & M4). cbn [mbind outcome_bind].
  eexists. split; [done|]. split_and!; [done| |wlk; by rewrite M1, L6]. constructor; wlk; [intros y Hy; wlk; by rewrite M1, L6|by rewrite M3, L7|by rewrite M4, L8|by rewrite M2, L9].
Qed.

(** ** Events *)

(** The events of a queue that a thread can receive. *)
Definition matching (t : Z) (s : wstate) (l : list Z) : list Z := filter (fun c => waitset_check_token c t s = true) l.

Lemma find_event_spec t h0 st l s : ring (cl s) h0 l -> (forall c, c ∈ l -> state (chan s c) = st) -> forall l2 fu l1 c, l = l1 ++ c :: l2 -> (length l2 < fu)%nat ->
  find_event fu t h0 c st s = Done (default 0 (head (matching t s (c :: l2)))).
Proof.
  intros Hr Hst. unfold matching. induction l2 as [|y l2 IH]; intros fu l1 c E Hf; (destruct fu as [|fu]; [cbn in Hf; lia|]); cbn [find_event]; subst l;
    (assert (Hc0 : c <> 0) by (intros ->; apply (ring_nonnull _ _ _ Hr), elem_of_app; right; left)); zdecide;
    rewrite (ring_next _ _ _ _ _ Hr); cbn [head default from_option id];
    (destruct (waitset_check_token c t s) eqn:Et; [rewrite bool_decide_true by (apply Hst, elem_of_app; right; left); by rewrite filter_cons_True|rewrite filter_cons_False by congruence]).
  - by rewrite Z.eqb_refl.
  - assert (y <> h0).
    { destruct Hr as [-> Hn _ _]. destruct l1 as [|a l1]; cbn [app head default from_option id]; cbn [app] in Hn; apply NoDup_cons in Hn as [Hn _]; lmem. }
    zdecide. apply (IH _ (l1 ++ [c])); [by rewrite <- app_assoc|cbn in Hf; lia].
Qed.

Lemma find_queue R Q C P s t ws st : wrep R Q C P s -> find_event fuel t (heads s ws st) (heads s ws st) st s = Done (default 0 (head (matching t s (C ws st)))).
Proof.
  intros Hw. pose proof (qr_ring _ _ (wr_queues _ _ _ _ _ Hw) ws st) as Hr. destruct (C ws st) as [|c l] eqn:E.
  - apply ring_empty in Hr. rewrite Hr. destruct fuel as [|n]; [lia|done].
  - assert (Hh : heads s ws st = c) by apply (ring_head _ _ _ Hr). rewrite Hh in *. refine (find_event_spec t c st (c :: l) s Hr _ l _ [] c eq_refl _).
    + intros x Hx. rewrite <- E in Hx. by apply (wr_in _ _ _ _ _ Hw) in Hx as (_ & _ & -> & _).
    + assert (Hsub : c :: l ⊆ chans) by (intros x Hx; rewrite <- E in Hx; by apply (wr_in _ _ _ _ _ Hw) in Hx as (Hx & _)).
      pose proof (NoDup_submseteq _ _ (ring_nodup _ _ _ Hr) Hsub) as H. apply submseteq_length in H. cbn in H. lia.
Qed.

(** The event that the current thread gets, if any: the one it waits for, or
    the first one for it that was set aside, or the first pending one. *)
Lemma get_pending_spec R Q C P s ws wf : wrep R Q C P s -> wf = 0 \/ (wf ∈ chans /\ home wf = ws) ->
  exists c, get_pending_event_disabled fuel ws wf s = Done c /\
    ((c = 0 /\ matching (current (wt s)) s (C ws CHAN_WAITING) = [] /\ matching (current (wt s)) s (C ws CHAN_PENDING) = []) \/
     (c ∈ chans /\ home c = ws /\ (state (chan s c) = CHAN_PENDING \/ state (chan s c) = CHAN_WAITING) /\ waitset_check_token c (current (wt s)) s = true)).
Proof.
  intros Hw Hwf. unfold get_pending_event_disabled. set (me := current (wt s)).
  assert (Hq : forall st c l, matching me s (C ws st) = c :: l -> c ∈ chans /\ home c = ws /\ state (chan s c) = st /\ waitset_check_token c me s = true /\ c <> 0).
  { intros st c l E. assert (Hc : c ∈ matching me s (C ws st)) by (rewrite E; left). apply list_elem_of_filter in Hc as [Ht Hc]. apply (wr_in _ _ _ _ _ Hw) in Hc as (Hc & -> & <- & _).
    pose proof (chans_nonnull c Hc). by split_and!. }
  assert (Hfit : forall st, wf <> 0 -> state (chan s wf) = st -> waitset_check_token wf me s = true -> wf ∈ chans /\ home wf = ws) by (intros st H0 _ _; destruct Hwf; [done|done]).
  destruct (negb (wf =? 0) && bool_decide (state (chan s wf) = CHAN_PENDING) && waitset_check_token wf me s) eqn:B1.
  { apply andb_true_iff in B1 as [B1 B3]. apply andb_true_iff in B1 as [B1 B2]. apply negb_true_iff, Z.eqb_neq in B1. apply bool_decide_eq_true in B2. exists wf. split; [done|]. right.
    destruct (Hfit _ B1 B2 B3). tauto. }
  destruct (negb (wf =? 0) && bool_decide (state (chan s wf) = CHAN_WAITING) && waitset_check_token wf me s) eqn:B2.
  { apply andb_true_iff in B2 as [B2 B4]. apply andb_true_iff in B2 as [B2 B3]. apply negb_true_iff, Z.eqb_neq in B2. apply bool_decide_eq_true in B3. exists wf. split; [done|]. right.
    destruct (Hfit _ B2 B3 B4). tauto. }
  rewrite (find_queue _ _ _ _ _ me ws CHAN_WAITING Hw), (find_queue _ _ _ _ _ me ws CHAN_PENDING Hw). cbn [mbind outcome_bind].
  destruct (matching me s (C ws CHAN_WAITING)) as [|c l] eqn:E1; cbn [head default from_option id Z.eqb negb].
  - destruct (matching me s (C ws CHAN_PENDING)) as [|c l] eqn:E2; cbn [head default from_option id]; [exists 0; split; [done|by left]|].
    exists c. split; [done|right]. destruct (Hq _ _ _ E2) as (? & ? & ? & ? & ?). tauto.
  - destruct (Hq _ _ _ E1) as (? & ? & ? & ? & ?). zdecide. exists c. split; [done|right]. tauto.
Qed.

Definition has_event (s : wstate) (c : Z) : Prop := state (chan s c) = CHAN_PENDING \/ state (chan s c) = CHAN_WAITING.

Lemma reregister_ok R Q C P s c : wrep R Q C P s -> c ∈ chans -> has_event s c ->
  exists s' st' P', reregister_channel (home c) c s = Done s' /\ wrep R Q (moved C c (state (chan s c)) st') P' s' /\ kept c s s' /\
    (st' = CHAN_IDLE \/ st' = CHAN_POLLED) /\ state (chan s' c) = st'.
Proof.
  intros Hw Hc Hev. assert (Hun : state (chan s c) <> CHAN_UNREGISTERED) by (by destruct Hev as [-> | ->]).
  assert (Hpo : state (chan s c) <> CHAN_POLLED) by (by destruct Hev as [-> | ->]).
  destruct (wrep_registered _ _ _ _ _ _ Hw Hc Hun) as (Ew & _). unfold reregister_channel. rewrite Ew, Z.eqb_refl. cbn [assert mbind outcome_bind].
  assert (El : (if bool_decide (state (chan s c) = CHAN_PENDING) then deq (home c) CHAN_PENDING c s else ASSERT bool_decide (state (chan s c) = CHAN_WAITING); deq (home c) CHAN_WAITING c s)
    = leave (home c) (state (chan s c)) c s) by (by destruct Hev as [-> | ->]).
  rewrite El. destruct (leave_ok R Q C P s s c _ Hw Hc eq_refl Hun eq_refl eq_refl eq_refl eq_refl) as (s1 & -> & Hlv). cbn [mbind outcome_bind].
  pose proof (lv_same _ _ _ _ _ _ _ Hlv) as (L6 & L7 & L8 & L9). set (s2 := set_chan c (with_token 0) s1).
  assert (Hch : forall x, x <> c -> chan s2 x = chan s x) by (intros x Hx; unfold s2; wlk; by rewrite L6).
  assert (Hc2 : waitset (chan s2 c) = home c) by (unfold s2; wlk; by rewrite L6).
  destruct (is_polled_type _).
  - destruct (join_polled_ok R Q C P s s s1 c _ Hw Hc eq_refl Hlv s2 eq_refl eq_refl eq_refl eq_refl eq_refl Hch (with_chan_state CHAN_POLLED) eq_refl Hc2) as (s3 & E3 & Hw3 & M1 & M2 & M3 & M4).
    destruct (enq (home c) CHAN_POLLED c s2) as [x|]; [|done]. cbn [mbind outcome_bind] in *. rewrite E3. cbn [mbind outcome_bind].
    eexists _, CHAN_POLLED, _. split; [done|]. split_and!; [done| |by right|by wlk]. constructor; wlk; [intros y Hy; wlk; rewrite M1; by apply Hch|by rewrite M2|by rewrite M3|by rewrite M4].
  - destruct (join_ok R Q C P s s s1 c _ Hw Hc eq_refl Hlv s2 eq_refl eq_refl eq_refl eq_refl eq_refl Hch CHAN_IDLE (with_chan_state CHAN_IDLE) ltac:(done) ltac:(done) eq_refl Hc2)
      as (s3 & -> & Hw3 & M1 & M2 & M3 & M4). cbn [mbind outcome_bind].
    eexists _, CHAN_IDLE, _. split; [done|]. split_and!; [done| |by left|by wlk]. constructor; wlk; [intros y Hy; wlk; rewrite M1; by apply Hch|by rewrite M3|by rewrite M4|by rewrite M2].
Qed.

(** The queues after an event was taken: it has no event any more, the others
    are as before. *)
Definition taken (C : Z -> ws_chanstate -> list Z) (c : Z) (C' : Z -> ws_chanstate -> list Z) : Prop :=
  forall ws st x, st = CHAN_PENDING \/ st = CHAN_WAITING -> x ∈ C' ws st <-> x <> c /\ x ∈ C ws st.

Lemma kept_trans c s1 s2 s3 : kept c s1 s2 -> kept c s2 s3 -> kept c s1 s3.
Proof. intros [A1 A2 A3 A4] [B1 B2 B3 B4]. constructor; [|congruence..]. intros x Hx. by rewrite B1, A1. Qed.

Lemma take_ok R Q C P s c : wrep R Q C P s -> c ∈ chans -> has_event s c ->
  exists s' C' P', (if persistent (chan s c) then reregister_channel (home c) c s else '(_, s) ← waitset_chan_deregister_disabled c s; Done s) = Done s' /\
    wrep R Q C' P' s' /\ taken C c C' /\ kept c s s' /\ ~ has_event s' c.
Proof.
  intros Hw Hc Hev. assert (Hun : state (chan s c) <> CHAN_UNREGISTERED) by (by destruct Hev as [-> | ->]). destruct (persistent (chan s c)).
  - destruct (reregister_ok R Q C P s c Hw Hc Hev) as (s' & st' & P' & E & Hw' & Hk & Hst & Es). eexists s', _, P'. split; [done|]. split_and!; [done| |done|].
    + intros ws st x Hst'. rewrite (in_moved _ _ _ _ _ _ _ _ _ _ _ Hw eq_refl). split; [|tauto]. intros [|(_ & _ & ->)]; [done|]. destruct Hst, Hst'; congruence.
    + unfold has_event. rewrite Es. by destruct Hst as [-> | ->]; intros [|].
  - destruct (deregister_ok R Q C P s c Hw Hc Hun) as (s' & -> & Hw' & Hch & Es & ? & ? & ?). eexists s', _, _. cbn [mbind outcome_bind]. split; [done|]. split_and!; [done| |done|].
    + intros ws st x _. rewrite in_upd2, elem_of_del. split.
      * intros [(-> & -> & ?)|[Hne Hx]]; [done|]. split; [|done]. intros ->. apply (wr_in _ _ _ _ _ Hw) in Hx as (_ & -> & <- & _). by destruct Hne.
      * intros [Hx Hin]. destruct (key_dec (home c) ws (state (chan s c)) st) as [[-> ->]|]; tauto.
    + unfold has_event. rewrite Es. by intros [|].
Qed.

Lemma wake_up_other_ok R Q C P s ws : wrep R Q C P s ->
  exists x R' Q', wake_up_other_thread handle ws s = Done (with_wt x s) /\ wrep R' Q' C P (with_wt x s) /\ woken ws R Q R' Q' /\ current x = current (wt s) /\
    (C ws CHAN_PENDING <> [] -> Q ws <> [] -> exists t, t ∈ Q ws /\ t ∈ R').
Proof.
  intros Hw. pose proof (wr_threads _ _ _ _ _ Hw) as Hr. unfold wake_up_other_thread. pose proof (qr_ring _ _ (wr_queues _ _ _ _ _ Hw) ws CHAN_PENDING) as Hp.
  destruct (tr_queue _ _ _ _ _ Hr ws) as [Hq Hs]. destruct (negb (heads s ws CHAN_PENDING =? 0) && negb (queues (wt s) ws =? 0)) eqn:B.
  - apply andb_true_iff in B as [_ B]. apply negb_true_iff, Z.eqb_neq in B. destruct (Q ws) as [|t l] eqn:E; [by apply ring_empty in Hq|].
    destruct (unblock_one_rep all Hbound Hpage handle R Q ws t l 0 _ Hr E) as (x & -> & Hx & Hc & Hpo). cbn [mbind outcome_bind Z.eqb assert].
    exists x, (R ++ [t]), (<[ws := l]> Q). split_and!; [done| | |done|].
    + destruct Hw as [W1 [W2 W2'] W3 W4 W5 W6 W7]. constructor; try done. wlk. by rewrite Hpo.
    + pose proof (wake_woken R Q ws [] t l E) as Hwk. by rewrite app_nil_r in Hwk.
    + intros _ _. exists t. split; [left|]. apply elem_of_app. right. left.
  - exists (wt s), R, Q. split_and!; [by destruct s|by destruct s|apply woken_refl|done|]. intros H1 H2. exfalso. apply andb_false_iff in B as [B|B]; apply negb_false_iff, Z.eqb_eq in B.
    + destruct (C ws CHAN_PENDING) as [|c l] eqn:E; [done|]. apply (ring_nonnull _ _ _ Hp). rewrite (ring_head _ _ _ Hp) in B. cbn in B. subst c. left.
    + destruct (Q ws) as [|t l] eqn:E; [done|]. rewrite (ring_head _ _ _ Hq) in B. cbn in B. subst t. apply (ring_nonnull _ _ _ Hq). left.
Qed.

(** No event that was set aside is for a thread that is blocked. *)
Definition settled (Q : Z -> list Z) (C : Z -> ws_chanstate -> list Z) (s : wstate) : Prop :=
  forall ws c t, c ∈ C ws CHAN_WAITING -> t ∈ Q ws -> waitset_check_token c t s = false.

(** What a thread can receive depends on these fields. *)
Lemma check_token_ext c t s s' : token (chan s' c) = token (chan s c) -> wait_for (chan s' c) = wait_for (chan s c) -> t_token s' = t_token s -> t_channel s' = t_channel s ->
  waitset_check_token c t s' = waitset_check_token c t s.
Proof. intros E1 E2 E3 E4. unfold waitset_check_token. by rewrite E1, E2, E3, E4. Qed.

Lemma kept_check c s s' x t : kept c s s' -> x <> c -> waitset_check_token x t s' = waitset_check_token x t s.
Proof. intros [H1 H2 H3 _] Hx. apply check_token_ext; [by rewrite H1|by rewrite H1|done|done]. Qed.

(** What a round of the loop may do. *)
Inductive round (ws me : Z) (R : list Z) (Q : Z -> list Z) (C : Z -> ws_chanstate -> list Z) (s : wstate) :
  option next_event -> list Z -> (Z -> list Z) -> (Z -> ws_chanstate -> list Z) -> wstate -> Prop :=
| round_event c R' Q' C' s' : c ∈ chans -> home c = ws -> has_event s c -> waitset_check_token c me s = true ->
    taken C c C' -> kept c s s' -> ~ has_event s' c -> woken ws R Q R' Q' -> (C' ws CHAN_PENDING <> [] -> Q' ws <> [] -> exists t, t ∈ Q ws /\ t ∈ R') ->
    round ws me R Q C s (Some (Event c (closure (chan s c)))) R' Q' C' s'
| round_blocked R' x : C ws CHAN_PENDING = [] -> matching me s (C ws CHAN_WAITING) = [] -> (forall t, t ∈ R' <-> t ∈ R /\ t <> me) ->
    round ws me R Q C s (Some Blocked) R' (<[ws := Q ws ++ [me]]> Q) C (with_wt x s)
| round_aside c s' : c ∈ chans -> home c = ws -> state (chan s c) = CHAN_PENDING -> (forall t, t ∈ Q ws -> waitset_check_token c t s = false) ->
    kept c s s' -> chan s' c = with_waitset ws (with_chan_state CHAN_WAITING (chan s c)) ->
    round ws me R Q C s None R Q (moved C c CHAN_PENDING CHAN_WAITING) s'
| round_wake R' Q' x : woken ws R Q R' Q' -> length (Q ws) = S (length (Q' ws)) -> current x = me -> round ws me R Q C s None R' Q' C (with_wt x s).

Lemma next_round_ok R Q C P s ws wf : wrep R Q C P s -> current (wt s) <> 0 -> wf = 0 \/ (wf ∈ chans /\ home wf = ws) ->
  exists r s' R' Q' C' P', next_event_round handle fuel ws wf s = Done (r, s') /\ wrep R' Q' C' P' s' /\ round ws (current (wt s)) R Q C s r R' Q' C' s'.
Proof.
  intros Hw Hme Hwf. unfold next_event_round. destruct (get_pending_spec R Q C P s ws wf Hw Hwf) as (c & -> & [(-> & Mw & Mp)|(Hc & Eh & Hev & Ht)]); cbn [mbind outcome_bind].
  2: { pose proof (chans_nonnull c Hc). zdecide. cbn [negb]. set (s1 := set_chan c _ s).
    assert (Hw1 : wrep R Q C P s1) by (by apply wrep_chan). assert (Hk1 : kept c s s1) by (constructor; [intros x Hx; unfold s1; by wlk|done..]).
    assert (Hev1 : has_event s1 c) by (unfold has_event, s1; by wlk).
    destruct (take_ok R Q C P s1 c Hw1 Hc Hev1) as (s2 & C' & P' & E2 & Hw2 & Htk & Hk2 & Hno). rewrite Eh in E2. rewrite E2. cbn [mbind outcome_bind].
    destruct (wake_up_other_ok R Q C' P' s2 ws Hw2) as (x & R' & Q' & -> & Hw3 & Hwk & Hcu & Hone). cbn [mbind outcome_bind].
    eexists _, _, R', Q', C', P'. split; [done|]. split; [done|]. constructor; try done.
    - destruct (kept_trans _ _ _ _ Hk1 Hk2) as [K1 K2 K3 K4]. constructor; wlk; [done..|]. by rewrite Hcu.
    - intros Hp Hq. apply Hone; [done|]. intros E. apply Hq. destruct (Q' ws) as [|t l] eqn:Eq; [done|]. assert (Hin : t ∈ Q ws) by (apply (wk_queue _ _ _ _ _ Hwk); rewrite Eq; left). rewrite E in Hin. by apply elem_of_nil in Hin. }
  cbn [Z.eqb negb]. pose proof (wr_threads _ _ _ _ _ Hw) as Hr. pose proof (qr_ring _ _ (wr_queues _ _ _ _ _ Hw) ws CHAN_PENDING) as Hp.
  destruct (C ws CHAN_PENDING) as [|c l] eqn:EC.
  - apply ring_empty in Hp. rewrite Hp. cbn [Z.eqb]. destruct (tr_current _ _ _ _ _ Hr) as [|Hin]; [done|]. apply list_elem_of_split in Hin as (r1 & r2 & ER).
    destruct (block_rep all Hbound Hpage handle R Q r1 r2 ws _ Hr Hme ER) as (x & -> & Hx & _ & Hpo). cbn [mbind outcome_bind].
    eexists _, _, (r1 ++ r2), _, C, P. split; [done|]. split; [destruct Hw as [W1 [W2 W2'] W3 W4 W5 W6 W7]; constructor; try done; wlk; by rewrite Hpo|].
    constructor; [done|done|]. intros t. pose proof (nodup_middle r1 r2 (current (wt s))) as Hn. rewrite <- ER in Hn. specialize (Hn (ring_nodup _ _ _ (proj1 (tr_run _ _ _ _ _ Hr)))).
    rewrite ER, !elem_of_app, elem_of_cons. rewrite elem_of_app in Hn. split; [|tauto]. intros Ht. split; [tauto|]. intros ->. tauto.
  - assert (Hh : heads s ws CHAN_PENDING = c) by apply (ring_head _ _ _ Hp). rewrite Hh.
    assert (Hcin : c ∈ C ws CHAN_PENDING) by (rewrite EC; left). apply (wr_in _ _ _ _ _ Hw) in Hcin as (Hc & -> & Est & _). pose proof (chans_nonnull c Hc). zdecide.
    destruct (set_aside_ok R Q C P s c Hw Hc Est) as (s' & Ea & Hw' & Hk & Ech).
    assert (Haside : (forall t, t ∈ Q (home c) -> waitset_check_token c t s = false) -> exists r s2 R' Q' C' P', (s0 ← set_aside (home c) c s; Done (@None next_event, s0)) = Done (r, s2) /\
      wrep R' Q' C' P' s2 /\ round (home c) (current (wt s)) R Q C s r R' Q' C' s2).
    { intros Hno. rewrite Ea. cbn [mbind outcome_bind]. eexists _, s', R, Q, _, _. split; [done|]. split; [done|]. by constructor. }
    destruct (tr_queue _ _ _ _ _ Hr (home c)) as [Hq Hs]. destruct (Q (home c)) as [|h l'] eqn:EQ.
    + apply ring_empty in Hq. rewrite Hq. cbn [Z.eqb]. apply Haside. by intros t Ht%elem_of_nil.
    + pose proof (ring_head _ _ _ Hq) as Hh'. cbn in Hh'. assert (h <> 0) by (apply (all_nonnull all Hpage), Hs; left). rewrite Hh' in Hq |- *. zdecide.
      rewrite (find_thread_spec c h (h :: l') s Hq l' _ [] h eq_refl (threads_fuel _ _ _ _ _ _ Hr EQ)). cbn [mbind outcome_bind].
      destruct (filter _ (h :: l')) as [|t lt] eqn:Ef; cbn [head default from_option id Z.eqb negb].
      * apply Haside. intros t Ht. destruct (waitset_check_token c t s) eqn:E; [|done].
        assert (Hin : t ∈ filter (fun t => waitset_check_token c t s = true) (h :: l')) by (apply list_elem_of_filter; done). rewrite Ef in Hin. by apply elem_of_nil in Hin.
      * assert (Ht : t ∈ t :: lt) by left. rewrite <- Ef in Ht. apply list_elem_of_filter in Ht as [_ Ht]. assert (t <> 0) by (by apply (all_nonnull all Hpage), Hs). zdecide. cbn [negb].
        rewrite <- EQ in Ht. apply list_elem_of_split in Ht as (l1 & l2 & El). destruct (wake_rep R Q (home c) l1 t l2 c s Hr El) as (x & -> & Hx & Hpo & Hcu). cbn [mbind outcome_bind].
        eexists _, _, _, _, C, P. split; [done|]. split; [destruct Hw as [W1 [W2 W2'] W3 W4 W5 W6 W7]; constructor; try done; wlk; by rewrite Hpo|].
        constructor; [by apply wake_woken|rewrite El, fn_lookup_insert, !length_app; cbn; lia|done].
Qed.
End Waitset.
