(* ===== verification/WaitsetEvents.v ===== *)
(** Waiting for events, and the system of threads and channels: no event is
    lost. *)
From S2P Require Import Prelude Ring Threads ThreadsCorrect Waitset WaitsetQueues WaitsetCorrect.

Section Events.
Context (all : list Z) (Hbound : (length all < MAX_THREADS)%nat) (Hpage : Forall (fun t => BASE_PAGE_SIZE < t) all) (handle : Z).
Context (chans : list Z) (Hnull : 0 ∉ chans) (fuel : nat) (Hfuel : (length chans < fuel)%nat).
Context (home : Z -> Z) (Hhome : forall c, c ∈ chans -> home c <> 0).

#[local] Notation wrep := (wrep all handle chans home).
#[local] Notation round := (round chans home).

(** The settled state is kept by every round. *)
Lemma round_settled ws me R Q C P s r R' Q' C' s' : wrep R Q C P s -> settled Q C s -> round ws me R Q C s r R' Q' C' s' -> settled Q' C' s'.
Proof.
  intros Hw Hs Hr. destruct Hr as [c R' Q' C' s' Hc Eh Hev Ht Htk Hk Hno Hwk Hone|R' x Ep Em HR|c s' Hc Eh Est Hno Hk Ech|R' Q' x Hwk Hlen Hcu].
  - intros w e t He Hq. apply Htk in He as [Hne He]; [|by right]. rewrite (kept_check c s s') by done. apply (Hs w); [done|]. by apply (wk_queue _ _ _ _ _ Hwk).
  - intros w e t He Hq. change (waitset_check_token e t s = false). apply in_insert in Hq as [[-> Hq]|[_ Hq]]; [|by apply (Hs w)].
    apply elem_of_app in Hq as [Hq|Hq%list_elem_of_singleton]; [by apply (Hs ws)|]. subst t. destruct (waitset_check_token e me s) eqn:E; [|done].
    assert (Hin : e ∈ matching me s (C ws CHAN_WAITING)) by (apply list_elem_of_filter; done). rewrite Em in Hin. by apply elem_of_nil in Hin.
  - intros w e t He Hq. apply (in_moved _ _ _ _ _ _ _ _ _ _ _ _ _ _ _ Hw Est) in He as [[Hne He]|(-> & -> & _)].
    + rewrite (kept_check c s s') by done. by apply (Hs w).
    + rewrite (check_token_ext c t s s'); [|by rewrite Ech|by rewrite Ech|apply Hk|apply Hk]. rewrite Eh in Hq. by apply Hno.
  - intros w e t He Hq. apply (Hs w); [done|]. by apply (wk_queue _ _ _ _ _ Hwk).
Qed.

(** What [get_next_event_disabled] may do. *)
Record result (ws me : Z) (R : list Z) (Q : Z -> list Z) (C : Z -> ws_chanstate -> list Z) (s : wstate)
  (r : next_event) (R' : list Z) (Q' : Z -> list Z) (C' : Z -> ws_chanstate -> list Z) (s' : wstate) : Prop := {
  rs_other : forall q, q <> ws -> Q' q = Q q;
  rs_run : forall t, t ∈ R -> t <> me -> t ∈ R';
  rs_from : forall t, t ∈ R' -> t ∈ R \/ t ∈ Q ws;
  rs_queue : forall t, t ∈ Q' ws -> t ∈ Q ws \/ (t = me /\ r = Blocked);
  rs_pending : forall w x, x ∈ C' w CHAN_PENDING -> x ∈ C w CHAN_PENDING;
  rs_events : forall x, (if r is Event c _ then x <> c else True) -> has_event s' x <-> has_event s x;
  rs_end : match r with
           | Event c f => c ∈ chans /\ home c = ws /\ f = closure (chan s c) /\ has_event s c /\ waitset_check_token c me s = true /\ ~ has_event s' c /\ me ∈ R' /\
                          (C' ws CHAN_PENDING <> [] -> Q' ws <> [] -> exists t, t ∈ Q ws /\ t ∈ R')
           | Blocked => C' ws CHAN_PENDING = [] /\ me ∉ R'
           end
}.

Lemma round_result ws me R Q C P s r R' Q' C' s' : wrep R Q C P s -> me ∈ R -> round ws me R Q C s (Some r) R' Q' C' s' -> result ws me R Q C s r R' Q' C' s'.
Proof.
  intros Hw Hme Hr. inversion Hr as [c ? ? ? ? Hc Eh Hev Ht Htk Hk Hno Hwk Hone|? x Ep Em HR| |]; subst.
  - constructor; [apply Hwk|intros t Ht' _; by apply Hwk|apply Hwk|intros t Hq; left; by apply (wk_queue _ _ _ _ _ Hwk)| | |].
    + intros w x Hx. apply Htk in Hx; [tauto|by left].
    + intros x Hx. unfold has_event. by rewrite (kp_chan _ _ _ Hk).
    + split_and!; try done. by apply (wk_run _ _ _ _ _ Hwk).
  - constructor; [intros q Hq; by rewrite fn_lookup_insert_ne|intros t Ht Hne; by apply HR|intros t Ht%HR; tauto| |done|done|split; [done|intros Hin%HR; tauto]].
    intros t. rewrite fn_lookup_insert. intros [|H%list_elem_of_singleton]%elem_of_app; [by left|by right].
Qed.

(** A round that goes on, and the rest of the loop. *)
Lemma round_result_trans ws me R Q C P s R1 Q1 C1 P1 s1 r R' Q' C' s' : wrep R Q C P s -> wrep R1 Q1 C1 P1 s1 -> me ∈ R -> round ws me R Q C s None R1 Q1 C1 s1 ->
  result ws me R1 Q1 C1 s1 r R' Q' C' s' -> result ws me R Q C s r R' Q' C' s'.
Proof.
  intros Hw Hw1 Hme Hr [A1 A2 A3 A4 A5 A6 A7]. inversion Hr as [| |c s2 Hc Eh Est Hno Hk Ech|R2 Q2 x Hwk Hlen Hcu]; subst.
  - assert (Hev : forall x, has_event s1 x <-> has_event s x).
    { intros x. unfold has_event. destruct (decide (x = c)) as [->|]; [rewrite Ech; cbn; rewrite Est; intuition congruence|by rewrite (kp_chan _ _ _ Hk)]. }
    constructor; [done|done|done|done| | |].
    + intros w x Hx%A5. apply (in_moved _ _ _ _ _ _ _ _ _ _ _ _ _ _ _ Hw Est) in Hx as [|(_ & _ & ?)]; [tauto|done].
    + intros x Hx. rewrite A6 by done. apply Hev.
    + destruct r as [c' f|]; [|done]. destruct A7 as (B1 & B2 & -> & B4 & B5 & B6 & B7 & B8). split_and!; try done; [|by apply Hev|].
      * destruct (decide (c' = c)) as [->|]; [by rewrite Ech|by rewrite (kp_chan _ _ _ Hk)].
      * rewrite <- B5. destruct (decide (c' = c)) as [->|]; [|symmetry; by apply (kept_check c)]. symmetry. apply check_token_ext; [by rewrite Ech|by rewrite Ech|apply Hk|apply Hk].
  - constructor; [| | | |done|done|].
    + intros q Hq. by rewrite A1, (wk_other _ _ _ _ _ Hwk).
    + intros t Ht Hne. apply A2; [by apply (wk_run _ _ _ _ _ Hwk)|done].
    + intros t [Ht|Ht]%A3; [by apply (wk_from _ _ _ _ _ Hwk)|right; by apply (wk_queue _ _ _ _ _ Hwk)].
    + intros t [Ht|Ht]%A4; [left; by apply (wk_queue _ _ _ _ _ Hwk)|by right].
    + destruct r as [c' f|]; [|done]. destruct A7 as (B1 & B2 & B3 & B4 & B5 & B6 & B7 & B8). split_and!; try done. intros H1 H2. destruct (B8 H1 H2) as (t & Ht & Ht').
      exists t. split; [by apply (wk_queue _ _ _ _ _ Hwk)|done].
Qed.

Lemma round_next ws me R Q C P s R1 Q1 C1 s1 : wrep R Q C P s -> round ws me R Q C s None R1 Q1 C1 s1 -> current (wt s) = me ->
  current (wt s1) = me /\ (forall t, t ∈ R -> t ∈ R1) /\ (length (C ws CHAN_PENDING) + length (Q ws) = S (length (C1 ws CHAN_PENDING) + length (Q1 ws)))%nat.
Proof.
  intros Hw Hr Hme. inversion Hr as [| |c s2 Hc Eh Est Hno Hk Ech|R2 Q2 x Hwk Hlen Hcu]; subst.
  - split_and!; [apply Hk|done|]. unfold moved. rewrite upd2_ne by (by right). rewrite upd2_eq. rewrite (length_del c (C (home c) CHAN_PENDING)); [done| |].
    + by apply (wr_in _ _ _ _ _ _ _ _ _ Hw).
    + apply (ring_nodup _ _ _ (qr_ring _ _ (wr_queues _ _ _ _ _ _ _ _ _ Hw) _ _)).
  - split_and!; [done|apply Hwk|rewrite Hlen; lia].
Qed.

Lemma next_event_ok ws wf : wf = 0 \/ (wf ∈ chans /\ home wf = ws) -> forall rounds R Q C P s, wrep R Q C P s -> settled Q C s -> current (wt s) <> 0 ->
  (length (C ws CHAN_PENDING) + length (Q ws) < rounds)%nat ->
  exists r s' R' Q' C' P', get_next_event_disabled handle fuel rounds ws wf s = Done (r, s') /\ wrep R' Q' C' P' s' /\ settled Q' C' s' /\ result ws (current (wt s)) R Q C s r R' Q' C' s'.
Proof.
  intros Hwf. induction rounds as [|n IH]; intros R Q C P s Hw Hs Hme Hlen; [lia|]. cbn [get_next_event_disabled].
  destruct (next_round_ok all Hbound Hpage handle chans Hnull fuel Hfuel home Hhome R Q C P s ws wf Hw Hme Hwf) as (r & s1 & R1 & Q1 & C1 & P1 & -> & Hw1 & Hr). cbn [mbind outcome_bind].
  assert (Hin : current (wt s) ∈ R) by (by destruct (tr_current _ _ _ _ _ (wr_threads _ _ _ _ _ _ _ _ _ Hw))).
  pose proof (round_settled _ _ _ _ _ _ _ _ _ _ _ _ Hw Hs Hr) as Hs1. destruct r as [r|].
  - exists r, s1, R1, Q1, C1, P1. split; [done|]. split_and!; [done|done|]. by eapply round_result.
  - destruct (round_next _ _ _ _ _ _ _ _ _ _ _ Hw Hr eq_refl) as (Ec & HR & El).
    destruct (IH R1 Q1 C1 P1 s1 Hw1 Hs1 ltac:(by rewrite Ec) ltac:(lia)) as (r & s' & R' & Q' & C' & P' & E & Hw' & Hs' & Hres). rewrite Ec in Hres.
    exists r, s', R', Q', C', P'. split_and!; [done|done|done|]. by eapply (round_result_trans _ _ _ _ _ _ _ _ _ _ _ _ _ _ _ _ _ Hw Hw1).
Qed.

(** * The system

    [inside] says which threads are in [get_next_event_disabled], on which
    waitset and for which channel. *)

Definition ROUNDS : nat := S (length chans + length all).

Record wsys := WSys { wst : wstate; inside : Z -> option (Z * Z) }.

Definition running (g : wsys) : Z := current (wt (wst g)).

(** The calls of a thread; channels are also triggered by the dispatcher. *)
Inductive wcall :=
| NextEvent (ws wf : Z)
| Register (c : Z) (f : event_closure)
| Deregister (c : Z)
| Trigger (c : Z)
| TriggerClosure (c : Z) (f : event_closure)
| SetThreadToken (tok ch : Z)
| SetChanToken (c tok wf : Z).

Definition may (g : wsys) (x : wcall) : Prop :=
  match x with
  | NextEvent ws wf => running g <> 0 /\ inside g (running g) = None /\ (wf = 0 \/ (wf ∈ chans /\ home wf = ws))
  | Register c f => c ∈ chans /\ handler f <> 0
  | Deregister c => c ∈ chans
  | Trigger c => c ∈ chans /\ (state (chan (wst g) c) = CHAN_IDLE \/ state (chan (wst g) c) = CHAN_POLLED \/ state (chan (wst g) c) = CHAN_PENDING)
  | TriggerClosure c f => c ∈ chans
  | SetThreadToken _ _ => running g <> 0 /\ inside g (running g) = None
  | SetChanToken c _ _ => c ∈ chans /\ ~ has_event (wst g) c
  end.

Definition leaves (r : next_event) (t : Z) (v : Z * Z) (i : Z -> option (Z * Z)) : Z -> option (Z * Z) :=
  match r with Event _ _ => <[t := None]> i | Blocked => <[t := Some v]> i end.

Definition wexec (x : wcall) (g : wsys) : outcome wsys :=
  let s := wst g in
  match x with
  | NextEvent ws wf => '(r, s') ← get_next_event_disabled handle fuel ROUNDS ws wf s; Done (WSys s' (leaves r (running g) (ws, wf) (inside g)))
  | Register c f => '(_, s) ← waitset_chan_register_disabled (home c) c f s; Done (WSys s (inside g))
  | Deregister c => '(_, s) ← waitset_chan_deregister_disabled c s; Done (WSys s (inside g))
  | Trigger c => '(_, s) ← waitset_chan_trigger_disabled handle c s; Done (WSys s (inside g))
  | TriggerClosure c f => '(_, s) ← waitset_chan_trigger_closure_disabled handle (home c) c f s; Done (WSys s (inside g))
  | SetThreadToken tok ch => Done (WSys (WState (wt s) (<[running g := tok]> (t_token s)) (<[running g := ch]> (t_channel s)) (chan s) (cl s) (pl s) (heads s)) (inside g))
  | SetChanToken c tok wf => Done (WSys (set_chan c (fun y => with_token tok (with_wait_for wf y)) s) (inside g))
  end.

Inductive wstep : wsys -> wsys -> Prop :=
| wstep_call x g g' : may g x -> wexec x g = Done g' -> wstep g g'
| wstep_resume ws wf r g s' : running g <> 0 -> inside g (running g) = Some (ws, wf) -> get_next_event_disabled handle fuel ROUNDS ws wf (wst g) = Done (r, s') ->
    wstep g (WSys s' (leaves r (running g) (ws, wf) (inside g)))
| wstep_run g x : thread_run_disabled (wt (wst g)) = Done x -> wstep g (WSys (with_wt x (wst g)) (inside g)).

Record winv (R : list Z) (Q : Z -> list Z) (C : Z -> ws_chanstate -> list Z) (P : list Z) (g : wsys) : Prop := {
  wi_rep : wrep R Q C P (wst g);
  wi_settled : settled Q C (wst g);
  wi_blocked : forall ws t, t ∈ Q ws -> exists wf, inside g t = Some (ws, wf);
  wi_inside : forall t ws wf, inside g t = Some (ws, wf) -> wf = 0 \/ (wf ∈ chans /\ home wf = ws);
  (** a pending event and a blocked thread: some thread was woken *)
  wi_woken : forall ws, C ws CHAN_PENDING <> [] -> Q ws <> [] -> exists t wf, t ∈ R /\ inside g t = Some (ws, wf)
}.

Lemma nonempty {A} (l : list A) : l <> [] -> exists x, x ∈ l.
Proof. destruct l as [|x l]; [done|]. exists x. left. Qed.
Lemma nonempty_2 {A} (l : list A) x : x ∈ l -> l <> [].
Proof. by intros H ->; apply elem_of_nil in H. Qed.

Lemma rounds_enough R Q C P g ws : winv R Q C P g -> (length (C ws CHAN_PENDING) + length (Q ws) < ROUNDS)%nat.
Proof.
  intros [Hw _ _ _ _]. pose proof (qr_ring _ _ (wr_queues _ _ _ _ _ _ _ _ _ Hw) ws CHAN_PENDING) as Hr. destruct (tr_queue _ _ _ _ _ (wr_threads _ _ _ _ _ _ _ _ _ Hw) ws) as [Hq Hs].
  assert (Hsub : C ws CHAN_PENDING ⊆ chans) by (intros x Hx; by apply (wr_in _ _ _ _ _ _ _ _ _ Hw) in Hx as (Hx & _)).
  pose proof (submseteq_length _ _ (NoDup_submseteq _ _ (ring_nodup _ _ _ Hr) Hsub)). pose proof (submseteq_length _ _ (NoDup_submseteq _ _ (ring_nodup _ _ _ Hq) Hs)). unfold ROUNDS. lia.
Qed.

(** A thread waits for an event, for the first time or again. *)
Lemma next_inv R Q C P g ws wf : winv R Q C P g -> running g <> 0 -> wf = 0 \/ (wf ∈ chans /\ home wf = ws) -> (forall ws' wf', inside g (running g) = Some (ws', wf') -> ws' = ws) ->
  exists r s' R' Q' C' P', get_next_event_disabled handle fuel ROUNDS ws wf (wst g) = Done (r, s') /\ winv R' Q' C' P' (WSys s' (leaves r (running g) (ws, wf) (inside g))) /\
    result ws (running g) R Q C (wst g) r R' Q' C' s'.
Proof.
  intros Hi Hme Hwf Hown. pose proof Hi as [Hw Hs Hb Hin Hwk]. pose proof (rounds_enough _ _ _ _ _ ws Hi) as Hlen.
  destruct (next_event_ok ws wf Hwf ROUNDS R Q C P (wst g) Hw Hs Hme Hlen) as (r & s' & R' & Q' & C' & P' & E & Hw' & Hs' & Hres). exists r, s', R', Q', C', P'. split; [done|]. split; [|done].
  fold (running g) in Hres. set (me := running g) in *. destruct Hres as [A1 A2 A3 A4 A5 A6 A7].
  assert (HmeR : me ∈ R) by (by destruct (tr_current _ _ _ _ _ (wr_threads _ _ _ _ _ _ _ _ _ Hw))). pose proof (wr_threads _ _ _ _ _ _ _ _ _ Hw) as Ht.
  assert (HmeQ : forall q, me ∉ Q q) by (intros q; by apply (tr_apart _ _ _ _ _ Ht)).
  assert (Hleaf : forall t, t <> me -> leaves r me (ws, wf) (inside g) t = inside g t) by (intros t Hne; destruct r; cbn; by rewrite fn_lookup_insert_ne).
  constructor; cbn [wst inside]; [done|done| | |].
  - intros q t Hq. destruct (decide (q = ws)) as [->|Hne].
    + destruct (A4 t Hq) as [Hq'|[-> ->]]; [rewrite Hleaf by (intros ->; by apply (HmeQ ws)); by apply Hb|]. exists wf. cbn. by rewrite fn_lookup_insert.
    + rewrite A1 in Hq by done. rewrite Hleaf by (intros ->; by apply (HmeQ q)). by apply Hb.
  - intros t ws' wf' Ht'. destruct (decide (t = me)) as [->|Hne]; [|rewrite Hleaf in Ht' by done; by eapply Hin]. destruct r; cbn in Ht'; rewrite fn_lookup_insert in Ht'; [done|]. by injection Ht' as <- <-.
  - intros q Hp Hq. destruct (decide (q = ws)) as [->|Hne].
    + destruct r as [c f|]; [|by destruct A7 as [? _]]. destruct A7 as (_ & _ & _ & _ & _ & _ & _ & B). destruct (B Hp Hq) as (t & Htq & HtR). destruct (Hb ws t Htq) as [wf' Hi'].
      exists t, wf'. split; [done|]. by rewrite Hleaf by (intros ->; by apply (HmeQ ws)).
    + rewrite A1 in Hq by done. apply nonempty in Hp as [x Hx]. apply A5 in Hx. destruct (Hwk q (nonempty_2 _ _ Hx) Hq) as (t & wf' & HtR & Hi').
      assert (t <> me) by (intros ->; apply Hne; by eapply Hown). exists t, wf'. split; [by apply A2|]. by rewrite Hleaf.
Qed.

(** A channel gets an event, and a thread is woken. *)
Lemma event_inv R Q C P g R' Q' C' P' c s' : winv R Q C P g -> wrep R' Q' C' P' s' -> woken (home c) R Q R' Q' -> (Q (home c) <> [] -> exists t, t ∈ Q (home c) /\ t ∈ R') -> kept c (wst g) s' ->
  (forall ws x, x <> c -> x ∈ C' ws CHAN_PENDING -> x ∈ C ws CHAN_PENDING) -> (forall ws x, x ∈ C' ws CHAN_WAITING -> x <> c /\ x ∈ C ws CHAN_WAITING) -> (forall ws, c ∈ C' ws CHAN_PENDING -> ws = home c) ->
  winv R' Q' C' P' (WSys s' (inside g)).
Proof.
  intros [Hw Hs Hb Hin Hwk] Hw' Hwo Hone Hk Hp Hwa Hc. constructor; cbn [wst inside]; [done| | |done|].
  - intros ws x t [Hne Hx]%Hwa Ht. rewrite (kept_check c (wst g)) by done. apply (Hs ws); [done|]. by apply (wk_queue _ _ _ _ _ Hwo).
  - intros ws t Ht. apply Hb. by apply (wk_queue _ _ _ _ _ Hwo).
  - intros ws Hpe Hq. assert (HQ : Q ws <> []) by (apply nonempty in Hq as [t Ht]; apply (wk_queue _ _ _ _ _ Hwo) in Ht; by eapply nonempty_2).
    destruct (decide (ws = home c)) as [->|Hne].
    + destruct (Hone HQ) as (t & Htq & HtR). destruct (Hb _ t Htq) as [wf Hi]. by exists t, wf.
    + apply nonempty in Hpe as [x Hx]. assert (x <> c) by (intros ->; by apply Hne, Hc). apply Hp in Hx; [|done]. destruct (Hwk ws (nonempty_2 _ _ Hx) HQ) as (t & wf & HtR & Hi).
      exists t, wf. split; [by apply (wk_run _ _ _ _ _ Hwo)|done].
Qed.

(** A channel changes without getting an event. *)
Lemma quiet_inv R Q C P g C' P' c s' : winv R Q C P g -> wrep R Q C' P' s' -> kept c (wst g) s' ->
  (forall ws x, x ∈ C' ws CHAN_PENDING -> x ∈ C ws CHAN_PENDING) -> (forall ws x, x ∈ C' ws CHAN_WAITING -> x <> c /\ x ∈ C ws CHAN_WAITING) -> winv R Q C' P' (WSys s' (inside g)).
Proof.
  intros [Hw Hs Hb Hin Hwk] Hw' Hk Hp Hwa. constructor; cbn [wst inside]; [done| |done|done|].
  - intros ws x t [Hne Hx]%Hwa Ht. rewrite (kept_check c (wst g)) by done. by apply (Hs ws).
  - intros ws Hpe Hq. apply nonempty in Hpe as [x Hx]. apply Hp in Hx. apply Hwk; [by eapply nonempty_2|done].
Qed.

Lemma in_end (C : Z -> ws_chanstate -> list Z) ws st c ws' st' x : x ∈ upd2 C ws st (C ws st ++ [c]) ws' st' -> x ∈ C ws' st' \/ (x = c /\ ws' = ws /\ st' = st).
Proof. rewrite in_upd2, elem_of_app, list_elem_of_singleton. intros [(-> & -> & [|])|[_ ?]]; tauto. Qed.

Lemma register_inv R Q C P g c f : winv R Q C P g -> c ∈ chans -> handler f <> 0 ->
  exists g' R' Q' C' P', wexec (Register c f) g = Done g' /\ winv R' Q' C' P' g'.
Proof.
  intros Hi Hc Hf. pose proof (wi_rep _ _ _ _ _ Hi) as Hw. cbn [wexec]. destruct (decide (state (chan (wst g) c) = CHAN_UNREGISTERED)) as [E|E].
  - destruct (register_ok all Hbound handle chans Hnull fuel Hfuel home R Q C P _ c f Hw Hc Hf E) as (s' & -> & Hw' & E1 & E2 & E3 & Hch & Ec). cbn [mbind outcome_bind]. eexists _, R, Q, _, P. split; [done|].
    eapply (quiet_inv R Q C P g _ P c); [done|done|constructor; [done..|by rewrite E1]| |].
    + intros ws x [Hx|(_ & _ & ?)]%in_end; done.
    + intros ws x Hx. pose proof Hx as Hx'. apply (wr_in _ _ _ _ _ _ _ _ _ Hw') in Hx' as (_ & _ & Es & _). apply in_end in Hx as [Hx|(_ & _ & ?)]; [|done]. split; [|done]. intros ->. by rewrite Ec in Es.
  - destruct (wrep_registered _ _ _ _ _ _ _ _ _ _ Hw Hc E) as (Ew & _). pose proof (Hhome c Hc). unfold waitset_chan_register_disabled. rewrite Ew. zdecide. cbn [negb mbind outcome_bind].
    exists g, R, Q, C, P. by destruct g.
Qed.

Lemma deregister_inv R Q C P g c : winv R Q C P g -> c ∈ chans -> exists g' R' Q' C' P', wexec (Deregister c) g = Done g' /\ winv R' Q' C' P' g'.
Proof.
  intros Hi Hc. pose proof (wi_rep _ _ _ _ _ Hi) as Hw. cbn [wexec]. destruct (decide (state (chan (wst g) c) = CHAN_UNREGISTERED)) as [E|E].
  - pose proof (wr_waitset _ _ _ _ _ _ _ _ _ Hw c Hc) as Ew. rewrite decide_True in Ew by done. assert (c <> 0) by congruence. unfold waitset_chan_deregister_disabled. rewrite Ew. zdecide.
    cbn [negb assert mbind outcome_bind Z.eqb]. exists g, R, Q, C, P. by destruct g.
  - destruct (deregister_ok all Hbound handle chans Hnull fuel Hfuel home Hhome R Q C P _ c Hw Hc E) as (s' & -> & Hw' & Hch & Es & E1 & E2 & E3). cbn [mbind outcome_bind]. eexists _, R, Q, _, _. split; [done|].
    assert (Hin : forall ws st x, x ∈ upd2 C (home c) (state (chan (wst g) c)) (del c (C (home c) (state (chan (wst g) c)))) ws st -> x ∈ C ws st).
    { intros ws st x. rewrite in_upd2, elem_of_del. intros [(-> & -> & _ & ?)|[_ ?]]; done. }
    eapply (quiet_inv R Q C P g _ _ c); [done|done|by constructor|intros ws x; apply Hin|]. intros ws x Hx. split; [|by apply Hin]. intros ->.
    apply (wr_in _ _ _ _ _ _ _ _ _ Hw') in Hx as (_ & _ & Es' & _). congruence.
Qed.

Lemma trigger_inv R Q C P g c : winv R Q C P g -> may g (Trigger c) -> exists g' R' Q' C' P', wexec (Trigger c) g = Done g' /\ winv R' Q' C' P' g'.
Proof.
  intros Hi [Hc Hst]. pose proof (wi_rep _ _ _ _ _ Hi) as Hw. cbn [wexec]. destruct (decide (state (chan (wst g) c) = CHAN_PENDING)) as [E|E].
  - destruct (wrep_registered _ _ _ _ _ _ _ _ _ _ Hw Hc ltac:(congruence)) as (Ew & _ & N1 & N2). pose proof (Hhome c Hc). assert (c <> 0) by congruence.
    unfold waitset_chan_trigger_disabled. rewrite Ew. zdecide. cbn [negb andb assert mbind outcome_bind]. rewrite bool_decide_true by done. cbn [mbind outcome_bind]. exists g, R, Q, C, P. by destruct g.
  - assert (Hst' : state (chan (wst g) c) = CHAN_IDLE \/ state (chan (wst g) c) = CHAN_POLLED) by tauto.
    destruct (trigger_ok all Hbound Hpage handle chans Hnull fuel Hfuel home Hhome R Q C P _ c Hw Hc Hst') as (s' & R' & Q' & -> & Hw' & Hwo & Hone & Hk & Ec). cbn [mbind outcome_bind].
    eexists _, R', Q', _, _. split; [done|]. eapply (event_inv R Q C P g R' Q' _ _ c); [done|done|done|done|done| | |].
    + intros ws x Hne Hx. apply (in_moved _ _ _ _ _ _ _ _ _ _ _ _ _ _ _ Hw eq_refl) in Hx. tauto.
    + intros ws x Hx. apply (in_moved _ _ _ _ _ _ _ _ _ _ _ _ _ _ _ Hw eq_refl) in Hx as [|(_ & _ & ?)]; done.
    + intros ws Hx. apply (in_moved _ _ _ _ _ _ _ _ _ _ _ _ _ _ _ Hw eq_refl) in Hx. tauto.
Qed.

Lemma trigger_closure_inv R Q C P g c f : winv R Q C P g -> c ∈ chans -> exists g' R' Q' C' P', wexec (TriggerClosure c f) g = Done g' /\ winv R' Q' C' P' g'.
Proof.
  intros Hi Hc. pose proof (wi_rep _ _ _ _ _ Hi) as Hw. cbn [wexec]. destruct (decide (state (chan (wst g) c) = CHAN_UNREGISTERED)) as [E|E].
  - destruct (trigger_closure_ok all Hbound Hpage handle chans Hnull fuel Hfuel home Hhome R Q C P _ c f Hw Hc E) as (s' & R' & Q' & -> & Hw' & Hwo & Hone & Hk & Ec). cbn [mbind outcome_bind].
    eexists _, R', Q', _, _. split; [done|]. pose proof (wrep_unregistered _ _ _ _ _ _ _ _ _ _ Hw E) as Hnot.
    eapply (event_inv R Q C P g R' Q' _ _ c); [done|done|done|done|done| | |].
    + intros ws x Hne [Hx|(-> & _)]%in_end; done.
    + intros ws x [Hx|(_ & _ & ?)]%in_end; [|done]. split; [|done]. intros ->. by apply (Hnot ws CHAN_WAITING).
    + intros ws [Hx|(_ & ? & _)]%in_end; [by destruct (Hnot ws CHAN_PENDING)|done].
  - destruct (wrep_registered _ _ _ _ _ _ _ _ _ _ Hw Hc E) as (Ew & _). pose proof (Hhome c Hc). assert (c <> 0) by congruence.
    unfold waitset_chan_trigger_closure_disabled. rewrite Ew. zdecide. cbn [negb orb assert mbind outcome_bind]. exists g, R, Q, C, P. by destruct g.
Qed.

Lemma wexec_ok R Q C P g x : winv R Q C P g -> may g x -> exists g' R' Q' C' P', wexec x g = Done g' /\ winv R' Q' C' P' g'.
Proof.
  intros Hi Hm. destruct x as [ws wf|c f|c|c|c f|tok ch|c tok wf].
  - destruct Hm as (Hme & Hins & Hwf). destruct (next_inv R Q C P g ws wf Hi Hme Hwf ltac:(intros ? ? H; congruence)) as (r & s' & R' & Q' & C' & P' & E & Hi' & _). cbn [wexec].
    rewrite E. cbn [mbind outcome_bind]. by eexists _, R', Q', C', P'.
  - destruct Hm. by apply (register_inv R Q C P).
  - by apply (deregister_inv R Q C P).
  - by apply (trigger_inv R Q C P).
  - by apply (trigger_closure_inv R Q C P).
  - destruct Hm as [Hme Hins]. destruct Hi as [Hw Hs Hb Hin Hwk]. eexists _, R, Q, C, P. split; [done|]. constructor; cbn [wst inside]; try done.
    + destruct Hw as [W1 [W2 W2'] W3 W4 W5 W6 W7]. by constructor.
    + intros ws c t Hc Ht. pose proof (Hs ws c t Hc Ht) as H. assert (t <> running g) by (intros ->; destruct (Hb ws _ Ht); congruence).
      unfold waitset_check_token in *. cbn [chan t_token t_channel]. by rewrite !fn_lookup_insert_ne.
  - destruct Hm as [Hc Hev]. pose proof (wi_rep _ _ _ _ _ Hi) as Hw. eexists _, R, Q, C, P. split; [done|]. eapply (quiet_inv R Q C P g C P c); [done|by apply wrep_chan| |done|].
    + constructor; try done. intros y Hy. cbn [set_chan chan]. by rewrite fn_lookup_insert_ne.
    + intros ws x Hx. split; [|done]. intros ->. apply (wr_in _ _ _ _ _ _ _ _ _ Hw) in Hx as (_ & _ & Es & _). apply Hev. by right.
Qed.

Definition wgood (g : wsys) : Prop := exists R Q C P, winv R Q C P g.

Lemma wstep_good g g' : wgood g -> wstep g g' -> wgood g'.
Proof.
  intros (R & Q & C & P & Hi) Hs. destruct Hs as [x g g' Hm E|ws wf r g s' Hme Hins E|g x E].
  - destruct (wexec_ok R Q C P g x Hi Hm) as (g1 & R' & Q' & C' & P' & E1 & Hi'). rewrite E in E1. injection E1 as <-. by exists R', Q', C', P'.
  - destruct (next_inv R Q C P g ws wf Hi Hme (wi_inside _ _ _ _ _ Hi _ _ _ Hins) ltac:(intros ? ? H; congruence)) as (r1 & s1 & R' & Q' & C' & P' & E1 & Hi' & _).
    rewrite E in E1. injection E1 as <- <-. by exists R', Q', C', P'.
  - destruct Hi as [Hw Hs Hb Hin Hwk]. destruct (run_rep all Hbound Hpage handle R Q _ (wr_threads _ _ _ _ _ _ _ _ _ Hw)) as (x1 & E1 & Hr & _ & Hp). rewrite E in E1. injection E1 as <-.
    exists R, Q, C, P. constructor; try done. destruct Hw as [W1 [W2 W2'] W3 W4 W5 W6 W7]. constructor; try done. cbn [wst with_wt wt pl]. by rewrite Hp.
Qed.

(** All threads run, no channel is registered. *)
Record winitial (g : wsys) : Prop := {
  wn_rep : exists R, trep all handle R (fun _ => []) (wt (wst g));
  wn_heads : forall ws st, heads (wst g) ws st = 0;
  wn_polled : polled_channels (wt (wst g)) = 0;
  wn_chan : forall c, c ∈ chans -> waitset (chan (wst g) c) = 0 /\ state (chan (wst g) c) = CHAN_UNREGISTERED /\ nxt (cl (wst g)) c = 0 /\ prv (cl (wst g)) c = 0;
  wn_inside : forall t, inside g t = None
}.

Lemma winitial_good g : winitial g -> wgood g.
Proof.
  intros [[R Hr] Hh Hp Hc Hi]. exists R, (fun _ => []), (fun _ _ => []), []. constructor.
  - constructor; [done| | | | | |].
    + constructor; [intros ws st; by rewrite ring_empty, Hh|intros ws st ws' st' c Hx; by apply elem_of_nil in Hx].
    + intros ws st c. split; [intros Hx; by apply elem_of_nil in Hx|]. intros (Hx & _ & <- & Hne). by destruct (Hc c Hx) as (_ & ? & _).
    + intros c Hx. destruct (Hc c Hx) as (-> & E & _). by rewrite decide_True.
    + intros c Hx _. by destruct (Hc c Hx) as (_ & _ & ?).
    + by apply ring_empty.
    + intros c. split; [intros Hx; by apply elem_of_nil in Hx|]. intros (Hx & E). destruct (Hc c Hx) as (_ & E' & _). congruence.
  - intros ws c t Hx. by apply elem_of_nil in Hx.
  - intros ws t Hx. by apply elem_of_nil in Hx.
  - intros t ws wf E. by rewrite Hi in E.
  - intros ws Hx. by destruct Hx.
Qed.

Lemma wreach_good g0 g : winitial g0 -> rtc wstep g0 g -> wgood g.
Proof. intros H0 Hs. apply winitial_good in H0. induction Hs as [|g1 g2 g3 H12 _ IH]; [done|]. by eapply IH, wstep_good. Qed.

(** C8: in every run of register, deregister, trigger, token changes, waits
    and thread switches (a plain trigger only on a channel that is idle,
    polled or pending, the token of a channel changed only while it has no
    event, the token of a thread only outside of a wait), when no thread can
    run, a waitset with blocked threads has no pending event, and no event
    set aside on it is for one of them. Each channel has one waitset, and
    none is polled; after waitset_chan_migrate the property fails
    (migration_loses_wakeup). *)
Theorem no_event_lost g0 g ws : winitial g0 -> rtc wstep g0 g -> runq (wt (wst g)) = 0 ->
  exists B W, ring (tlinks (wt (wst g))) (queues (wt (wst g)) ws) B /\ ring (cl (wst g)) (heads (wst g) ws CHAN_WAITING) W /\
    (B <> [] -> heads (wst g) ws CHAN_PENDING = 0 /\ (forall c t, c ∈ W -> t ∈ B -> waitset_check_token c t (wst g) = false)).
Proof.
  intros H0 Hs Hrun. destruct (wreach_good g0 g H0 Hs) as (R & Q & C & P & [Hw Hset Hb Hin Hwk]). exists (Q ws), (C ws CHAN_WAITING).
  pose proof (wr_threads _ _ _ _ _ _ _ _ _ Hw) as Hr. pose proof (wr_queues _ _ _ _ _ _ _ _ _ Hw) as [Hq _]. split_and!; [apply (tr_queue _ _ _ _ _ Hr)|apply Hq|].
  intros HB. split; [|intros c t; apply Hset]. assert (HR : R = []).
  { destruct (tr_run _ _ _ _ _ Hr) as [Hring Hsub]. destruct R as [|t R]; [done|]. rewrite (ring_head _ _ _ Hring) in Hrun. cbn in Hrun. subst t. by destruct (all_nonnull all Hpage 0 (Hsub 0 ltac:(left))). }
  destruct (decide (C ws CHAN_PENDING = [])) as [E|E]; [pose proof (Hq ws CHAN_PENDING) as Hp; rewrite E in Hp; by apply ring_empty in Hp|].
  destruct (Hwk ws E HB) as (t & wf & Ht & _). rewrite HR in Ht. by apply elem_of_nil in Ht.
Qed.

(** C28: in every run of register, deregister, trigger, token changes, waits
    and thread switches, waiting for an event of a waitset, on one channel
    of it or on any, ends after a bounded number of rounds, with an event
    that is for the caller and its closure, or with the caller blocked and
    no event pending; and the next call returns, provided that a plain
    trigger is only on a channel that is idle, polled or pending and tokens
    change only on channels without an event. Triggering a channel that was
    set aside fails an assertion (trigger_set_aside_fails). Each channel has
    one waitset, and none is polled: polling need not end
    (polling_never_ends). *)
Theorem get_next_event_correct g0 g ws wf : winitial g0 -> rtc wstep g0 g -> running g <> 0 ->
  (inside g (running g) = None /\ (wf = 0 \/ (wf ∈ chans /\ home wf = ws)) \/ inside g (running g) = Some (ws, wf)) ->
  (exists r s', get_next_event_disabled handle fuel ROUNDS ws wf (wst g) = Done (r, s') /\
    match r with
    | Event c f => c ∈ chans /\ home c = ws /\ f = closure (chan (wst g) c) /\ has_event (wst g) c /\ waitset_check_token c (running g) (wst g) = true /\ ~ has_event s' c /\
                   (forall x, x <> c -> has_event s' x <-> has_event (wst g) x)
    | Blocked => heads s' ws CHAN_PENDING = 0 /\ (forall x, has_event s' x <-> has_event (wst g) x)
    end) /\ (forall x, may g x -> exists g', wexec x g = Done g').
Proof.
  intros H0 Hs Hme Hcase. destruct (wreach_good g0 g H0 Hs) as (R & Q & C & P & Hi).
  assert (Hwf : wf = 0 \/ (wf ∈ chans /\ home wf = ws)) by (destruct Hcase as [[_ ?]|E]; [done|by apply (wi_inside _ _ _ _ _ Hi _ _ _ E)]).
  assert (Hown : forall ws' wf', inside g (running g) = Some (ws', wf') -> ws' = ws) by (intros; destruct Hcase as [[? _]|?]; congruence). split.
  - destruct (next_inv R Q C P g ws wf Hi Hme Hwf Hown) as (r & s' & R' & Q' & C' & P' & E & Hi' & [_ _ _ _ _ A6 A7]). exists r, s'. split; [done|].
    destruct r as [c f|]; [destruct A7 as (? & ? & ? & ? & ? & ? & _); by split_and!|]. destruct A7 as [Ep _]. split; [|intros x; by apply A6].
    pose proof (qr_ring _ _ (wr_queues _ _ _ _ _ _ _ _ _ (wi_rep _ _ _ _ _ Hi')) ws CHAN_PENDING) as Hr. rewrite Ep in Hr. by apply ring_empty in Hr.
  - intros x Hx. destruct (wexec_ok R Q C P g x Hi Hx) as (g' & _ & _ & _ & _ & E & _). by exists g'.
Qed.
End Events.

Module WaitSample.

(** Two threads, two channels and one waitset. *)
Definition dispatcher : Z := 1048576.
Definition two : list Z := [8192; 12288].
Definition ring2 : links := Links (fun a => if a =? 8192 then 12288 else if a =? 12288 then 8192 else 0) (fun a => if a =? 8192 then 12288 else if a =? 12288 then 8192 else 0).
Definition threads2 : threads := Threads ring2 (fun _ => Thread dispatcher THREAD_STATE_RUNNABLE false 0 0) (fun _ => 0) 8192 8192 0 0 1 true.
Definition channels : list Z := [100; 104].
Definition fresh_chan : waitset_chanstate := Chan 0 (Closure 0 0) CHANTYPE_LMP_IN CHAN_UNREGISTERED 0 false 0.
Definition w0 : wstate := WState threads2 (fun _ => 0) (fun _ => 0) (fun _ => fresh_chan) (Links (fun _ => 0) (fun _ => 0)) (Links (fun _ => 0) (fun _ => 0)) (fun _ _ => 0).
Definition g0 : wsys := WSys w0 (fun _ => None).

Lemma two_bound : (length two < MAX_THREADS)%nat.
Proof. vm_decide. Qed.
Lemma two_page : Forall (fun t => BASE_PAGE_SIZE < t) two.
Proof. vm_decide. Qed.
Lemma channels_nonnull : 0 ∉ channels.
Proof. vm_decide. Qed.
Lemma channels_fuel : (length channels < 3)%nat.
Proof. vm_decide. Qed.
Definition home_ws (c : Z) : Z := 1000.
Lemma home_nonnull : forall c, c ∈ channels -> home_ws c <> 0.
Proof. done. Qed.

Lemma g0_winitial : winitial two dispatcher channels g0.
Proof.
  constructor; [|done|done|done|done]. exists two. constructor; cbn [g0 wst w0 wt threads2 tlinks runq queues thr current haswork]; try done.
  - split; [|done]. constructor; [done|vm_decide|vm_decide|]. cbn. done.
  - intros q. split; [by apply ring_empty|]. intros t Ht. by apply elem_of_nil in Ht.
  - by intros q t _ Ht%elem_of_nil.
  - by intros q q' t Ht%elem_of_nil.
  - by intros q t Ht%elem_of_nil.
  - intros t Ht. by left.
  - right. left.
Qed.

(** Runs that can be computed. *)
Inductive wact := WCall (x : wcall) | WResume | WRun.

Definition mayb (g : wsys) (x : wcall) : bool :=
  match x with
  | NextEvent ws wf => negb (running g =? 0) && bool_decide (inside g (running g) = None) && bool_decide (wf = 0 \/ (wf ∈ channels /\ home_ws wf = ws))
  | Register c f => bool_decide (c ∈ channels) && negb (handler f =? 0)
  | Deregister c | TriggerClosure c _ => bool_decide (c ∈ channels)
  | Trigger c => bool_decide (c ∈ channels) && bool_decide (state (chan (wst g) c) = CHAN_IDLE \/ state (chan (wst g) c) = CHAN_POLLED \/ state (chan (wst g) c) = CHAN_PENDING)
  | SetThreadToken _ _ => negb (running g =? 0) && bool_decide (inside g (running g) = None)
  | SetChanToken c _ _ => bool_decide (c ∈ channels) && bool_decide (~ (state (chan (wst g) c) = CHAN_PENDING \/ state (chan (wst g) c) = CHAN_WAITING))
  end.

Lemma mayb_may g x : mayb g x = true -> may channels home_ws g x.
Proof.
  unfold may, has_event. destruct x; cbn [mayb]; rewrite ?andb_true_iff, ?negb_true_iff, ?Z.eqb_neq, ?bool_decide_eq_true; tauto.
Qed.

Definition wact_step (a : wact) (g : wsys) : option wsys :=
  match a with
  | WCall x => if mayb g x then match wexec two dispatcher channels 3 home_ws x g with Done g' => Some g' | Fault _ => None end else None
  | WResume =>
    if running g =? 0 then None else
    match inside g (running g) with
    | Some (ws, wf) =>
      match get_next_event_disabled dispatcher 3 (ROUNDS two channels) ws wf (wst g) with
      | Done (r, s') => Some (WSys s' (leaves r (running g) (ws, wf) (inside g)))
      | Fault _ => None
      end
    | None => None
    end
  | WRun => match thread_run_disabled (wt (wst g)) with Done x => Some (WSys (with_wt x (wst g)) (inside g)) | Fault _ => None end
  end.

#[local] Notation sample_step := (wstep two dispatcher channels 3 home_ws).

Lemma wact_step_sound a g g' : wact_step a g = Some g' -> sample_step g g'.
Proof.
  destruct a as [x| |]; cbn [wact_step].
  - destruct (mayb g x) eqn:Em; [|done]. destruct (wexec _ _ _ _ _ x g) as [g1|] eqn:E; [|done]. intros [= <-]. apply (wstep_call _ _ _ _ _ x); [by apply mayb_may|done].
  - destruct (Z.eqb_spec (running g) 0); [done|]. destruct (inside g (running g)) as [[ws wf]|] eqn:Ei; [|done]. destruct (get_next_event_disabled _ _ _ ws wf (wst g)) as [[r s']|] eqn:E; [|done].
    intros [= <-]. by constructor.
  - destruct (thread_run_disabled (wt (wst g))) as [x|] eqn:E; [|done]. intros [= <-]. by constructor.
Qed.

Fixpoint wacts (l : list wact) (g : wsys) : option wsys := match l with [] => Some g | a :: l => match wact_step a g with Some g' => wacts l g' | None => None end end.

Lemma wacts_sound l : forall g g', wacts l g = Some g' -> rtc sample_step g g'.
Proof.
  induction l as [|a l IH]; intros g g' H; cbn [wacts] in H; [by injection H as <-|]. destruct (wact_step a g) as [g1|] eqn:E; [|done].
  apply (rtc_l _ _ g1); [by apply (wact_step_sound a)|by apply IH].
Qed.

Definition wreached (l : list wact) : wsys := default g0 (wacts l g0).

Lemma wreached_rtc l : bool_decide (is_Some (wacts l g0)) = true -> rtc sample_step g0 (wreached l).
Proof. intros [g E]%bool_decide_eq_true. apply (wacts_sound l). unfold wreached. by rewrite E. Qed.

(** Both threads wait; an event comes, is taken, and both wait again. *)
Definition quiet : list wact :=
  [WCall (Register 100 (Closure 7 1)); WCall (Register 104 (Closure 7 2)); WCall (NextEvent 1000 0); WCall (NextEvent 1000 0);
   WCall (Trigger 104); WRun; WResume; WCall (NextEvent 1000 0)].

Lemma no_event_lost_witness : exists B W, ring (tlinks (wt (wst (wreached quiet)))) (queues (wt (wst (wreached quiet))) 1000) B /\ ring (cl (wst (wreached quiet))) (heads (wst (wreached quiet)) 1000 CHAN_WAITING) W /\
  (B <> [] -> heads (wst (wreached quiet)) 1000 CHAN_PENDING = 0 /\ (forall c t, c ∈ W -> t ∈ B -> waitset_check_token c t (wst (wreached quiet)) = false)).
Proof.
  apply (no_event_lost two two_bound two_page dispatcher channels channels_nonnull 3 channels_fuel home_ws home_nonnull g0 (wreached quiet) 1000 g0_winitial (wreached_rtc quiet ltac:(by vm_compute))). vm_eq.
Defined.

(** One thread waits, two events come. *)
Definition busy : list wact :=
  [WCall (Register 100 (Closure 7 1)); WCall (Register 104 (Closure 7 2)); WCall (NextEvent 1000 0); WCall (NextEvent 1000 0); WCall (Trigger 104); WCall (Trigger 100); WRun].

Lemma get_next_event_correct_witness : exists r s', get_next_event_disabled dispatcher 3 (ROUNDS two channels) 1000 0 (wst (wreached busy)) = Done (r, s') /\ r = Event 104 (Closure 7 2) /\ ~ has_event s' 104.
Proof.
  destruct (get_next_event_correct two two_bound two_page dispatcher channels channels_nonnull 3 channels_fuel home_ws home_nonnull g0 (wreached busy) 1000 0 g0_winitial (wreached_rtc busy ltac:(by vm_compute))
    ltac:(vm_decide) ltac:(right; vm_eq)) as [(r & s' & E & H) _].
  assert (Er : (if get_next_event_disabled dispatcher 3 (ROUNDS two channels) 1000 0 (wst (wreached busy)) is Done (r, _) then Some r else None) = Some (Event 104 (Closure 7 2))) by vm_eq.
  rewrite E in Er. injection Er as ->. exists (Event 104 (Closure 7 2)), s'. split; [exact E|]. split; [reflexivity|]. apply H.
Defined.

(** ** What goes wrong *)

Definition wdone (m : outcome (errval * wstate)) : wstate := match m with Done (_, s) => s | Fault _ => w0 end.
Definition registered : wstate := wdone (waitset_chan_register_disabled 1000 100 (Closure 7 1) w0).

(** A channel of a destroyed waitset keeps its state, and cannot be registered
    again. *)
Example destroyed_channel_unusable : waitset_chan_register_disabled 2000 100 (Closure 7 1) (wdone (waitset_destroy 3 1000 registered)) = Fault AssertionFailed.
Proof. vm_eq. Qed.

(** A pending event that migrates to another waitset does not wake the thread
    that is blocked there. *)
Definition migrated : outcome wstate :=
  '(_, s) ← waitset_chan_trigger_disabled dispatcher 100 registered;
  '(_, s) ← get_next_event_disabled dispatcher 3 10 2000 0 s;
  '(_, s) ← get_next_event_disabled dispatcher 3 10 2000 0 s;
  waitset_chan_migrate 100 2000 s.

Example migration_loses_wakeup :
  match migrated with Done s => (heads s 2000 CHAN_PENDING, queues (wt s) 2000, runq (wt s)) | Fault _ => (0, 0, 0) end = (100, 8192, 0).
Proof. vm_eq. Qed.

(** Polling a channel does not end: the loop tests the channel it started with
    against a queue that the channel has left. *)
Definition polled_chan : wstate :=
  wdone (waitset_chan_register_polled_disabled 1000 100 (Closure 7 1) (set_chan 100 (fun _ => Chan 0 (Closure 0 0) CHANTYPE_AHCI CHAN_UNREGISTERED 0 false 0) w0)).

Example polling_never_ends : poll_channels_disabled dispatcher 300 polled_chan = Fault OutOfFuel.
Proof. vm_eq. Qed.

(** An event that was set aside is triggered again: an assertion fails. *)
Definition aside : outcome wstate :=
  '(_, s) ← waitset_chan_trigger_disabled dispatcher 100 registered;
  '(_, s) ← get_next_event_disabled dispatcher 3 10 1000 0 (set_chan 100 (with_wait_for 12288) s);
  '(_, s) ← waitset_chan_trigger_disabled dispatcher 100 s;
  Done s.

Example trigger_set_aside_fails : aside = Fault AssertionFailed.
Proof. vm_eq. Qed.
End WaitSample.
