(* ===== verification/WaitsetFire.v ===== *)
(** What the dispatcher does to the waitsets when it triggers several channels
    in a row, as the polling of endpoints, the retry of sends and the timers
    do. *)
From S2P Require Import Prelude Ring Threads ThreadsCorrect Waitset WaitsetQueues WaitsetCorrect.

(** * The list of channels that wait to send is left alone *)

#[local] Notation sends s := (lmp_send_events_list (wt s)).

Lemma bind_done {A B} (m : outcome A) (f : A -> outcome B) b : (m ≫= f) = Done b -> exists a, m = Done a /\ f a = Done b.
Proof. destruct m as [a|]; [by exists a|done]. Qed.

(** Unfold a computation that returned. *)
Ltac returned H :=
  repeat first
    [ match type of H with mbind _ _ = _ => let E := fresh "E" in apply bind_done in H as (? & E & H) end
    | match type of H with context [match ?x with (_, _) => _ end] => is_var x; destruct x end
    | match type of H with (if ?b then _ else _) = Done _ => destruct b eqn:? end
    | progress cbn beta iota in H ].

Lemma unblock_sends handle q reason s r x : thread_unblock_one_disabled handle q reason s = Done (r, x) -> lmp_send_events_list x = lmp_send_events_list s.
Proof. unfold thread_unblock_one_disabled. intros H. returned H; by injection H as _ <-. Qed.

Lemma wake_sends handle ws t reason s s' : wake handle ws t reason s = Done s' -> sends s' = sends s.
Proof. unfold wake. intros H. returned H. injection H as <-. by apply unblock_sends in E. Qed.

Lemma deq_sends ws st c s s' : deq ws st c s = Done s' -> sends s' = sends s.
Proof. unfold deq. intros H. returned H. by injection H as <-. Qed.
Lemma enq_sends ws st c s s' : enq ws st c s = Done s' -> sends s' = sends s.
Proof. unfold enq. intros H. returned H. by injection H as <-. Qed.
Lemma dequeue_polled_sends c s s' : dequeue_polled c s = Done s' -> sends s' = sends s.
Proof. unfold dequeue_polled. intros H. returned H. by injection H as <-. Qed.

Lemma awaken_sends handle ws c s s' : awaken handle ws c s = Done s' -> sends s' = sends s.
Proof. unfold awaken. intros H. returned H; [by apply wake_sends in H|by injection H as <-]. Qed.

Lemma trigger_sends handle c s e s' : waitset_chan_trigger_disabled handle c s = Done (e, s') -> sends s' = sends s.
Proof.
  unfold waitset_chan_trigger_disabled. intros H. returned H; injection H as _ <-; [done|]. apply awaken_sends in E4. apply enq_sends in E3. cbn in E4. rewrite E4.
  transitivity (sends x2); [exact E3|]. returned E2; [by apply deq_sends in E2|]. apply dequeue_polled_sends in E2. apply deq_sends in E6. congruence.
Qed.

Lemma deregister_sends c s e s' : waitset_chan_deregister_disabled c s = Done (e, s') -> sends s' = sends s.
Proof.
  unfold waitset_chan_deregister_disabled. intros H. returned H; injection H as _ <-; [done|]. change (sends x1 = sends s). cbn beta in E1.
  destruct (state _); try done; returned E1; try (apply deq_sends in E1; exact E1). apply dequeue_polled_sends in E1. apply deq_sends in E2. rewrite E1. exact E2.
Qed.

(** * Several channels *)

Section Fire.
Context (all : list Z) (Hbound : (length all < MAX_THREADS)%nat) (Hpage : Forall (fun t => BASE_PAGE_SIZE < t) all) (handle : Z).
Context (chans : list Z) (Hnull : 0 ∉ chans) (fuel : nat) (Hfuel : (length chans < fuel)%nat).
Context (home : Z -> Z) (Hhome : forall c, c ∈ chans -> home c <> 0).

(** The channels [T] have an event now, and nothing else of a channel changed;
    threads only left the queues of their waitsets, and each of these waitsets
    on which threads were blocked had one woken. *)
Record fired (T : list Z) (R : list Z) (Q : Z -> list Z) (s : wstate) (R' : list Z) (Q' : Z -> list Z) (s' : wstate) : Prop := {
  fi_chan : forall c, chan s' c = if decide (c ∈ T) then with_chan_state CHAN_PENDING (chan s c) else chan s c;
  fi_tokens : t_token s' = t_token s /\ t_channel s' = t_channel s;
  fi_sends : sends s' = sends s;
  fi_run : forall t, t ∈ R -> t ∈ R';
  fi_queue : forall q t, t ∈ Q' q -> t ∈ Q q;
  fi_other : forall q, (forall c, c ∈ T -> home c <> q) -> Q' q = Q q;
  fi_wake : forall c, c ∈ T -> Q (home c) <> [] -> exists t, t ∈ Q (home c) /\ t ∈ R'
}.

Lemma fired_none R Q s : fired [] R Q s R Q s.
Proof. constructor; try done. all: by intros c ?%elem_of_nil. Qed.

Lemma fired_ext T T' R Q s R' Q' s' : (forall c, c ∈ T <-> c ∈ T') -> fired T R Q s R' Q' s' -> fired T' R Q s R' Q' s'.
Proof.
  intros He [H1 H2 H2' H3 H4 H5 H6]. constructor; try done.
  - intros c. rewrite H1. destruct (decide (c ∈ T)) as [Hc|Hc], (decide (c ∈ T')) as [Hc'|Hc']; rewrite He in Hc; done.
  - intros q Hq. apply H5. intros c Hc. apply Hq. by apply He.
  - intros c Hc. apply H6. by apply He.
Qed.

Lemma fired_trans T1 T2 R Q s R1 Q1 s1 R2 Q2 s2 : fired T1 R Q s R1 Q1 s1 -> fired T2 R1 Q1 s1 R2 Q2 s2 -> fired (T1 ++ T2) R Q s R2 Q2 s2.
Proof.
  intros [A1 [A2 A2'] As A3 A4 A5 A6] [B1 [B2 B2'] Bs B3 B4 B5 B6]. constructor; [| |congruence|by auto|by auto| |].
  - intros c. rewrite B1, A1. destruct (decide (c ∈ T1)), (decide (c ∈ T2)), (decide (c ∈ T1 ++ T2)) as [Hc|Hc]; rewrite elem_of_app in Hc; by try tauto.
  - split; congruence.
  - intros q Hq. rewrite B5, A5; [done|..]; intros c Hc; apply Hq, elem_of_app; tauto.
  - intros c Hc HQ. destruct (decide (home c ∈ home <$> T1)) as [(c1 & E & Hc1)%list_elem_of_fmap|Hno].
    + rewrite E in HQ |- *. destruct (A6 c1 Hc1 HQ) as (t & ? & ?). exists t. auto.
    + apply elem_of_app in Hc as [Hc|Hc]; [by destruct Hno; apply list_elem_of_fmap_2|]. rewrite <- (A5 (home c)) in HQ |- * by (intros c1 Hc1 E; destruct Hno; rewrite <- E; by apply list_elem_of_fmap_2). by apply B6.
Qed.

Lemma fire_one R Q C P s c : wrep all handle chans home R Q C P s -> c ∈ chans -> state (chan s c) = CHAN_IDLE ->
  exists s' R' Q' C' P', waitset_chan_trigger_disabled handle c s = Done (SYS_ERR_OK, s') /\ wrep all handle chans home R' Q' C' P' s' /\ fired [c] R Q s R' Q' s'.
Proof.
  intros Hw Hc Hi. destruct (trigger_ok all Hbound Hpage handle chans Hnull fuel Hfuel home Hhome R Q C P s c Hw Hc (or_introl Hi)) as (s' & R' & Q' & E & Hw' & [K1 K2 K3 K4] & Hone & [P1 P2 P3 P4] & Ec).
  exists s', R', Q', (moved home C c (state (chan s c)) CHAN_PENDING), (del c P). split_and!; [done|done|]. constructor; [|done|by eapply trigger_sends|done|done| |].
  - intros x. destruct (decide (x = c)) as [->|Hne]; [by rewrite decide_True by left|]. rewrite decide_False by (by rewrite list_elem_of_singleton). by apply P1.
  - intros q Hq. apply K4. intros ->. by apply (Hq c ltac:(left)).
  - intros x Hx%list_elem_of_singleton. by subst x.
Qed.
End Fire.
