(* ===== verification/WaitsetChan.v ===== *)
(** What the operations of Waitset.v leave of a channel: which operation can
    change its state, its closure and its kind of registration. *)
From S2P Require Import Prelude Ring Threads ThreadsCorrect Waitset WaitsetQueues WaitsetCorrect WaitsetEvents WaitsetFire.

(** The channel [x] is as before, up to being set aside. *)
Definition rests (x : Z) (s s' : wstate) : Prop :=
  closure (chan s' x) = closure (chan s x) /\ persistent (chan s' x) = persistent (chan s x) /\
  (state (chan s' x) = state (chan s x) \/ (state (chan s x) = CHAN_PENDING /\ state (chan s' x) = CHAN_WAITING)).

(** Its event was taken. *)
Definition given (x : Z) (s s' : wstate) : Prop :=
  closure (chan s' x) = closure (chan s x) /\ persistent (chan s' x) = persistent (chan s x) /\
  has_event s x /\ (persistent (chan s x) = false -> state (chan s' x) = CHAN_UNREGISTERED).

Lemma rests_eq x s s' : chan s' x = chan s x -> rests x s s'.
Proof. intros E. unfold rests. rewrite E. auto. Qed.
Lemma rests_trans x s1 s2 s3 : rests x s1 s2 -> rests x s2 s3 -> rests x s1 s3.
Proof. intros (A1 & A2 & A3) (B1 & B2 & B3). split_and!; [congruence..|]. destruct A3 as [E|[E E']], B3 as [F|[F F']]; rewrite ?E, ?E' in *; auto; congruence. Qed.
Lemma rests_given x s1 s2 s3 : rests x s1 s2 -> given x s2 s3 -> given x s1 s3.
Proof.
  intros (A1 & A2 & A3) (B1 & B2 & B3 & B4). split_and!; [congruence..| |by rewrite <- A2].
  unfold has_event in *. destruct A3 as [E|[E _]]; [by rewrite <- E|by left].
Qed.

Lemma deq_chan ws st c s s' : deq ws st c s = Done s' -> chan s' = chan s.
Proof. unfold deq. intros H. returned H. by injection H as <-. Qed.
Lemma enq_chan ws st c s s' : enq ws st c s = Done s' -> chan s' = chan s.
Proof. unfold enq. intros H. returned H. by injection H as <-. Qed.
Lemma dequeue_polled_chan c s s' : dequeue_polled c s = Done s' -> chan s' = chan s.
Proof. unfold dequeue_polled. intros H. returned H. by injection H as <-. Qed.
Lemma enqueue_polled_chan c s s' : enqueue_polled c s = Done s' -> chan s' = chan s.
Proof. unfold enqueue_polled. intros H. returned H. by injection H as <-. Qed.
Lemma wake_chan handle ws t reason s s' : wake handle ws t reason s = Done s' -> chan s' = chan s.
Proof. unfold wake. intros H. returned H. by injection H as <-. Qed.
Lemma awaken_chan handle ws c s s' : awaken handle ws c s = Done s' -> chan s' = chan s.
Proof. unfold awaken. intros H. returned H; [by apply wake_chan in H|by injection H as <-]. Qed.

(** A channel other than the one that an operation is about. *)
Lemma deregister_chan c s e s' : waitset_chan_deregister_disabled c s = Done (e, s') ->
  (forall x, x <> c -> chan s' x = chan s x) /\ closure (chan s' c) = closure (chan s c) /\ persistent (chan s' c) = persistent (chan s c) /\
  (waitset (chan s c) <> 0 -> state (chan s' c) = CHAN_UNREGISTERED).
Proof.
  unfold waitset_chan_deregister_disabled. intros H. returned H; injection H as _ <-; [apply Z.eqb_eq in Heqb; done|].
  assert (Ec : chan x1 = chan (set_chan c (with_waitset 0) s)).
  { cbn beta in E1. destruct (state _); try done; returned E1; try (by apply deq_chan in E1). apply dequeue_polled_chan in E1. apply deq_chan in E2. congruence. }
  cbn [set_chan chan] in Ec |- *. rewrite Ec. rewrite !fn_lookup_insert. split_and!; try done. intros y Hy. by rewrite !fn_lookup_insert_ne.
Qed.

Lemma register_chan ws c f s e s' : waitset_chan_register_disabled ws c f s = Done (e, s') -> forall x, x <> c -> chan s' x = chan s x.
Proof.
  unfold waitset_chan_register_disabled. intros H. returned H; injection H as _ <-; [done|]. intros y Hy. apply enq_chan in E2. cbn [set_chan chan] in E2 |- *.
  rewrite fn_lookup_insert_ne by done. rewrite E2. by rewrite !fn_lookup_insert_ne.
Qed.

Lemma trigger_chan handle c s e s' : waitset_chan_trigger_disabled handle c s = Done (e, s') -> forall x, x <> c -> chan s' x = chan s x.
Proof.
  unfold waitset_chan_trigger_disabled. intros H. returned H; injection H as _ <-; [done|]. intros y Hy. apply awaken_chan in E4. apply enq_chan in E3. rewrite E4. cbn [set_chan chan]. rewrite fn_lookup_insert_ne by done. rewrite E3.
  returned E2; [by apply deq_chan in E2 as ->|]. apply dequeue_polled_chan in E2. apply deq_chan in E6. congruence.
Qed.

Lemma trigger_closure_chan handle ws c f s e s' : waitset_chan_trigger_closure_disabled handle ws c f s = Done (e, s') -> forall x, x <> c -> chan s' x = chan s x.
Proof.
  unfold waitset_chan_trigger_closure_disabled. intros H. returned H; injection H as _ <-; [done|]. intros y Hy. apply awaken_chan in E3. apply enq_chan in E2. rewrite E3. cbn [set_chan chan] in E2 |- *.
  rewrite fn_lookup_insert_ne by done. rewrite E2. by rewrite !fn_lookup_insert_ne.
Qed.

Lemma trigger_closure_self handle ws c f s s' : waitset_chan_trigger_closure_disabled handle ws c f s = Done (SYS_ERR_OK, s') ->
  chan s' c = with_chan_state CHAN_PENDING (with_waitset ws (with_closure f (chan s c))).
Proof.
  unfold waitset_chan_trigger_closure_disabled. intros H. returned H; [done|]. injection H as <-. apply awaken_chan in E3. apply enq_chan in E2. rewrite E3. cbn [set_chan chan] in E2 |- *. by rewrite fn_lookup_insert, E2, fn_lookup_insert.
Qed.

(** ** Waiting for events *)

Lemma reregister_chan ws c s s' : reregister_channel ws c s = Done s' ->
  (forall x, x <> c -> chan s' x = chan s x) /\ closure (chan s' c) = closure (chan s c) /\ persistent (chan s' c) = persistent (chan s c).
Proof.
  unfold reregister_channel. intros H. returned H; injection H as <-.
  all: assert (Ec : chan x0 = chan s) by (returned E0; by apply deq_chan in E0).
  - apply enq_chan in E1. apply enqueue_polled_chan in E2. cbn [set_chan chan] in *. rewrite E2, E1. cbn [set_chan chan]. rewrite Ec, !fn_lookup_insert. split_and!; try done. intros y Hy. by rewrite !fn_lookup_insert_ne.
  - apply enq_chan in E1. cbn [set_chan chan] in *. rewrite E1. cbn [set_chan chan]. rewrite Ec, !fn_lookup_insert. split_and!; try done. intros y Hy. by rewrite !fn_lookup_insert_ne.
Qed.

Lemma set_aside_chan ws c s s' : set_aside ws c s = Done s' -> chan s' = <[c := with_waitset ws (with_chan_state CHAN_WAITING (chan s c))]> (chan s).
Proof. unfold set_aside. intros H. returned H. injection H as <-. apply deq_chan in E. apply enq_chan in E0. cbn [set_chan chan]. by rewrite E0, E. Qed.

Lemma wake_up_other_chan handle ws s s' : wake_up_other_thread handle ws s = Done s' -> chan s' = chan s.
Proof. unfold wake_up_other_thread. intros H. returned H; by injection H as <-. Qed.

(** What taking an event leaves of its channel. *)
Lemma round_taken handle fuel ws wf s c f s' : next_event_round handle fuel ws wf s = Done (Some (Event c f), s') ->
  closure (chan s' c) = closure (chan s c) /\ persistent (chan s' c) = persistent (chan s c) /\
  (persistent (chan s c) = false -> waitset (chan s c) <> 0 -> state (chan s' c) = CHAN_UNREGISTERED).
Proof.
  unfold next_event_round. intros H. returned H; try (injection H; done). injection H as -> _ <-. apply wake_up_other_chan in E1. rewrite E1. set (s1 := set_chan c _ s) in *.
  assert (Es : closure (chan s1 c) = closure (chan s c) /\ persistent (chan s1 c) = persistent (chan s c) /\ waitset (chan s1 c) = waitset (chan s c)) by (unfold s1; cbn [set_chan chan]; by rewrite fn_lookup_insert).
  destruct Es as (Es1 & Es2 & Es3). rewrite <- Es1, <- Es2, <- Es3. returned E0.
  - apply reregister_chan in E0 as (_ & -> & ->). split_and!; [done|done|congruence].
  - injection E0 as <-. apply deregister_chan in E2 as (_ & -> & -> & Hs). split_and!; [done|done|]. by intros _ ?; apply Hs.
Qed.

Section Frame.
Context (all : list Z) (Hbound : (length all < MAX_THREADS)%nat) (Hpage : Forall (fun t => BASE_PAGE_SIZE < t) all) (handle : Z).
Context (chans : list Z) (Hnull : 0 ∉ chans) (fuel : nat) (Hfuel : (length chans < fuel)%nat).
Context (home : Z -> Z) (Hhome : forall c, c ∈ chans -> home c <> 0).

#[local] Notation wrep := (wrep all handle chans home).
#[local] Notation wstep := (wstep all handle chans fuel home).
#[local] Notation wgood := (wgood all handle chans home).

Lemma round_frame R Q C P s ws wf : wrep R Q C P s -> current (wt s) <> 0 -> wf = 0 \/ (wf ∈ chans /\ home wf = ws) -> forall r s', next_event_round handle fuel ws wf s = Done (r, s') ->
  exists R' Q' C' P', wrep R' Q' C' P' s' /\ (r = None -> current (wt s') <> 0) /\
    forall x, if r is Some (Event c _) then (x <> c -> rests x s s') /\ (x = c -> given x s s') else rests x s s'.
Proof.
  intros Hw Hme Hwf r s' E. destruct (next_round_ok all Hbound Hpage handle chans Hnull fuel Hfuel home Hhome R Q C P s ws wf Hw Hme Hwf) as (r1 & s1 & R' & Q' & C' & P' & E1 & Hw' & Hr).
  rewrite E in E1. injection E1 as <- <-. exists R', Q', C', P'. split; [done|]. inversion Hr as [c ? ? ? ? Hc Eh Hev Ht Htk Hk Hno Hwk Hone|? x Ep Em HR|c ? Hc Eh Hst Hno Hk Ech|? ? x Hwk El Ecu]; subst.
  - split; [done|]. intros x. split; [intros Hne; apply rests_eq; by apply Hk|]. intros ->. destruct (round_taken _ _ _ _ _ _ _ _ E) as (A1 & A2 & A3). split_and!; [done|done|done|]. intros Hp. apply A3; [done|].
    destruct (wrep_registered _ _ _ _ _ _ _ _ _ _ Hw Hc) as [-> _]; [by destruct Hev as [-> | ->]|by apply Hhome].
  - split; [done|]. intros y. by apply rests_eq.
  - split; [by intros _; rewrite (kp_current _ _ _ Hk)|]. intros x. destruct (decide (x = c)) as [->|Hne]; [|apply rests_eq; by apply Hk]. unfold rests. rewrite Ech. split_and!; [done|done|by right].
  - split; [by intros _; cbn; rewrite Ecu|]. intros y. by apply rests_eq.
Qed.

Lemma next_event_frame ws wf : wf = 0 \/ (wf ∈ chans /\ home wf = ws) -> forall rounds R Q C P s r s', wrep R Q C P s -> current (wt s) <> 0 -> get_next_event_disabled handle fuel rounds ws wf s = Done (r, s') ->
  forall x, if r is Event c _ then (x <> c -> rests x s s') /\ (x = c -> given x s s') else rests x s s'.
Proof.
  intros Hwf. induction rounds as [|n IH]; intros R Q C P s r s' Hw Hme E; [done|]. cbn [get_next_event_disabled] in E. apply bind_done in E as ([r1 s1] & E1 & E).
  destruct (round_frame _ _ _ _ _ _ _ Hw Hme Hwf _ _ E1) as (R' & Q' & C' & P' & Hw' & Hcu & Hx). destruct r1 as [r1|].
  - injection E as <- <-. exact Hx.
  - intros x. specialize (IH _ _ _ _ _ _ _ Hw' (Hcu eq_refl) E x). specialize (Hx x). destruct r as [c f|]; [|by eapply rests_trans]. destruct IH as [I1 I2]. split; [intros Hne; eapply rests_trans; [done|by apply I1]|intros ->; eapply rests_given; [done|by apply I2]].
Qed.

(** The channel that a call is about. *)
Definition subject (x : wcall) : option Z :=
  match x with
  | Register c _ | Deregister c | Trigger c | TriggerClosure c _ | SetChanToken c _ _ => Some c
  | NextEvent _ _ | SetThreadToken _ _ => None
  end.

(** A step of a thread or of the dispatcher that is not about the channel [c]
    itself. *)
Inductive elsewhere (c : Z) : wsys -> wsys -> Prop :=
| elsewhere_call x g g' : may chans home g x -> subject x <> Some c -> wexec all handle chans fuel home x g = Done g' -> elsewhere c g g'
| elsewhere_resume ws wf r g s' : running g <> 0 -> inside g (running g) = Some (ws, wf) -> get_next_event_disabled handle fuel (ROUNDS all chans) ws wf (wst g) = Done (r, s') ->
    elsewhere c g (WSys s' (leaves r (running g) (ws, wf) (inside g)))
| elsewhere_run g x : thread_run_disabled (wt (wst g)) = Done x -> elsewhere c g (WSys (with_wt x (wst g)) (inside g)).

Lemma elsewhere_step c g g' : elsewhere c g g' -> wstep g g'.
Proof. intros []; by econstructor. Qed.

Lemma elsewhere_frame c g g' : wgood g -> elsewhere c g g' -> rests c (wst g) (wst g') \/ given c (wst g) (wst g').
Proof.
  intros (R & Q & C & P & Hi) Hs. pose proof (wi_rep _ _ _ _ _ _ _ _ _ Hi) as Hw.
  assert (Hnext : forall ws wf r s', (wf = 0 \/ (wf ∈ chans /\ home wf = ws)) -> running g <> 0 -> get_next_event_disabled handle fuel (ROUNDS all chans) ws wf (wst g) = Done (r, s') ->
    rests c (wst g) s' \/ given c (wst g) s').
  { intros ws wf r s' Hwf Hme E. pose proof (next_event_frame ws wf Hwf _ _ _ _ _ _ _ _ Hw Hme E c) as Hx. destruct r as [d f|]; [|by left]. destruct Hx as [Hx1 Hx2]. destruct (decide (c = d)); [by right; apply Hx2|by left; apply Hx1]. }
  destruct Hs as [x g g' Hm Hsub E|ws wf r g s' Hme Hins E|g x E].
  - destruct x as [ws wf|d f|d|d|d f|tok ch|d tok wf]; cbn [wexec subject may] in *; returned E; injection E as <-; cbn [wst].
    + destruct Hm as (Hme & _ & Hwf). by eapply Hnext.
    + left. apply rests_eq. eapply register_chan; [exact E0|congruence].
    + left. apply rests_eq. apply deregister_chan in E0 as [E0 _]. apply E0. congruence.
    + left. apply rests_eq. eapply trigger_chan; [exact E0|congruence].
    + left. apply rests_eq. eapply trigger_closure_chan; [exact E0|congruence].
    + left. by apply rests_eq.
    + left. apply rests_eq. cbn [set_chan chan]. apply fn_lookup_insert_ne. congruence.
  - eapply Hnext; [|done|done]. by apply (wi_inside _ _ _ _ _ _ _ _ _ Hi _ _ _ Hins).
  - left. by apply rests_eq.
Qed.
End Frame.
