(* ===== verification/EventQueue.v ===== *)
(** Event queues (lib/aos/event_queue.c) and mutexes with events for their
    acquisition (lib/aos/event_mutex.c).

    A node of a queue is its address; all nodes are in one memory, since a
    node belongs to its caller and may be in one queue after the other.  The
    functions run under the mutex of the queue and are one step each, except
    for the closure of an event, which is returned, and for the trigger of
    [event_queue_trigger], which is the last thing that it does. *)
From S2P Require Import Prelude Ring Threads Waitset.

Inductive event_queue_mode := EVENT_QUEUE_CONTINUOUS | EVENT_QUEUE_ONESHOT.

#[global] Instance event_queue_mode_eq_dec : EqDecision event_queue_mode.
Proof. solve_decision. Defined.

(** [struct event_queue_node], of all nodes. *)
Record enodes := ENodes {
  nlinks : links;
  nevent : Z -> event_closure;
  nrun : Z -> bool
}.
Definition set_nlinks (k : links) (n : enodes) : enodes := ENodes k (nevent n) (nrun n).
Definition set_nrun (a : Z) (b : bool) (n : enodes) : enodes := ENodes (nlinks n) (nevent n) (<[a := b]> (nrun n)).
Definition set_nevent (a : Z) (f : event_closure) (n : enodes) : enodes := ENodes (nlinks n) (<[a := f]> (nevent n)) (nrun n).

(** [struct event_queue]; [q_chan] is the address of its channel state. *)
Record event_queue := EventQueue {
  q_addr : Z;
  q_waitset : Z;
  q_chan : Z;
  q_head : Z; q_tail : Z;
  q_mode : event_queue_mode
}.
Definition set_ends (h t : Z) (q : event_queue) : event_queue := EventQueue (q_addr q) (q_waitset q) (q_chan q) h t (q_mode q).

Definition event_queue_init (addr c ws : Z) (mode : event_queue_mode) (s : wstate) : event_queue * wstate :=
  (EventQueue addr ws c 0 0 mode, waitset_chanstate_init c CHANTYPE_EVENT_QUEUE s).

(** The node at the head, or null. *)
Definition next_event (q : event_queue) (n : enodes) : outcome (Z * event_queue * enodes) :=
  let qn := q_head q in
  if qn =? 0 then Done (0, q, n) else
  ASSERT prv (nlinks n) qn =? 0;
  if nxt (nlinks n) qn =? 0 then
    ASSERT q_tail q =? qn;
    Done (qn, set_ends 0 0 q, n)
  else
    Done (qn, set_ends (nxt (nlinks n) qn) (q_tail q) q, set_nlinks (set_prv (nxt (nlinks n) qn) 0 (nlinks n)) n).

Section Queue.
(** The address of [event_queue_runner], and the dispatcher. *)
Context (RUNNER handle : Z).

Definition runner (q : event_queue) : event_closure := Closure RUNNER (q_addr q).

(** The node whose closure the runner calls at its end, with the closure. *)
Definition event_queue_runner (q : event_queue) (n : enodes) (s : wstate) : outcome (option (Z * event_closure) * event_queue * enodes * wstate) :=
  ASSERT bool_decide (q_mode q = EVENT_QUEUE_CONTINUOUS);
  '(qn, q, n) ← next_event q n;
  if qn =? 0 then Done (None, q, n, s) else
  s ← (if negb (q_head q =? 0) then
         '(e, s) ← waitset_chan_trigger_closure_disabled handle (q_waitset q) (q_chan q) (runner q) s;
         ASSERT err_is_ok e;
         Done s
       else Done s);
  Done (Some (qn, nevent n qn), q, set_nrun qn true n, s).

Definition event_queue_cancel_runner (q : event_queue) (s : wstate) : outcome (errval * wstate) :=
  if (q_head q =? 0) && bool_decide (q_mode q = EVENT_QUEUE_CONTINUOUS) then
    ASSERT q_tail q =? 0;
    '(e, s) ← waitset_chan_deregister_disabled (q_chan q) s;
    Done (if err_is_fail e && bool_decide (err_no e = Some LIB_ERR_CHAN_NOT_REGISTERED) then SYS_ERR_OK else e, s)
  else Done (SYS_ERR_OK, s).

Definition event_queue_add (qn : Z) (f : event_closure) (q : event_queue) (n : enodes) (s : wstate) : outcome (event_queue * enodes * wstate) :=
  let n := set_nrun qn false (set_nevent qn f n) in
  let k := nlinks n in
  if q_tail q =? 0 then
    ASSERT q_head q =? 0;
    let n := set_nlinks (set_nxt qn 0 (set_prv qn 0 k)) n in
    let q := set_ends qn qn q in
    s ← (if bool_decide (q_mode q = EVENT_QUEUE_CONTINUOUS) then
           '(e, s) ← waitset_chan_trigger_closure_disabled handle (q_waitset q) (q_chan q) (runner q) s;
           ASSERT err_is_ok e || bool_decide (err_no e = Some LIB_ERR_CHAN_ALREADY_REGISTERED);
           Done s
         else Done s);
    Done (q, n, s)
  else
    ASSERT negb (q_tail q =? qn);
    ASSERT nxt k (q_tail q) =? 0;
    let k := set_nxt (q_tail q) qn k in
    let k := set_prv qn (q_tail q) k in
    let k := set_nxt qn 0 k in
    Done (set_ends (q_head q) qn q, set_nlinks k n, s).

Definition event_queue_cancel (qn : Z) (q : event_queue) (n : enodes) (s : wstate) : outcome (errval * event_queue * enodes * wstate) :=
  if nrun n qn then Done (err LIB_ERR_EVENT_ALREADY_RUN, q, n, s) else
  let k := nlinks n in
  '(t, k) ← (if nxt k qn =? 0 then ASSERT q_tail q =? qn; Done (prv k qn, k)
             else Done (q_tail q, set_prv (nxt k qn) (prv k qn) k));
  '(h, k) ← (if prv k qn =? 0 then ASSERT q_head q =? qn; Done (nxt k qn, k)
             else Done (q_head q, set_nxt (prv k qn) (nxt k qn) k));
  let q := set_ends h t q in
  '(e, s) ← event_queue_cancel_runner q s;
  Done (e, q, set_nlinks k n, s).

(** The loop of [event_queue_flush]. *)
Fixpoint flush_loop (fuel : nat) (q : event_queue) (n : enodes) : outcome (event_queue * enodes) :=
  match fuel with
  | O => Fault OutOfFuel
  | S fuel => '(qn, q, n) ← next_event q n; if qn =? 0 then Done (q, n) else flush_loop fuel q n
  end.

Definition event_queue_flush (fuel : nat) (q : event_queue) (n : enodes) (s : wstate) : outcome (errval * event_queue * enodes * wstate) :=
  '(q, n) ← flush_loop fuel q n;
  '(e, s) ← event_queue_cancel_runner q s;
  Done (e, q, n, s).

Definition event_queue_trigger (q : event_queue) (n : enodes) (s : wstate) : outcome (errval * event_queue * enodes * wstate) :=
  ASSERT bool_decide (q_mode q = EVENT_QUEUE_ONESHOT);
  '(qn, q, n) ← next_event q n;
  if qn =? 0 then Done (err LIB_ERR_EVENT_QUEUE_EMPTY, q, n, s) else
  let n := set_nrun qn true n in
  '(e, s) ← waitset_chan_trigger_closure_disabled handle (q_waitset q) (q_chan q) (nevent n qn) s;
  Done (e, q, n, s).

(** * Mutexes with events *)

(** [struct event_mutex]; its queue of threads is at [em_tqueue]. *)
Record event_mutex := EventMutex { em_addr : Z; em_queue : event_queue; em_tqueue : Z; em_locked : bool }.
Definition set_emutex (q : event_queue) (b : bool) (m : event_mutex) : event_mutex := EventMutex (em_addr m) q (em_tqueue m) b.

Definition event_mutex_init (addr qaddr c tqueue ws : Z) (s : wstate) : event_mutex * wstate :=
  let '(q, s) := event_queue_init qaddr c ws EVENT_QUEUE_ONESHOT s in
  (EventMutex addr q tqueue false, with_wt (set_queue tqueue 0 (tlinks (wt s)) (wt s)) s).

(** Whether the caller got the mutex; its continuation runs then. *)
Definition event_mutex_enqueue_lock (qn : Z) (f : event_closure) (m : event_mutex) (n : enodes) (s : wstate) : outcome (bool * event_mutex * enodes * wstate) :=
  if negb (em_locked m) then Done (true, set_emutex (em_queue m) true m, n, s) else
  '(q, n, s) ← event_queue_add qn f (em_queue m) n s;
  Done (false, set_emutex q (em_locked m) m, n, s).

(** Whether the caller got the mutex; else it is blocked. *)
Definition event_mutex_threaded_lock (m : event_mutex) (s : wstate) : outcome (bool * event_mutex * wstate) :=
  if negb (em_locked m) then Done (true, set_emutex (em_queue m) true m, s) else
  x ← thread_block_disabled (Some (em_tqueue m)) (wt s);
  Done (false, m, with_wt x s).

(** Where the blocked thread [t] continues. *)
Definition event_mutex_threaded_resume (t : Z) (m : event_mutex) (s : wstate) : outcome unit :=
  ASSERT wakeup_reason (thr (wt s) t) =? em_addr m;
  ASSERT em_locked m;
  Done tt.

Definition event_mutex_unlock (m : event_mutex) (n : enodes) (s : wstate) : outcome (event_mutex * enodes * wstate) :=
  ASSERT em_locked m;
  if negb (queues (wt s) (em_tqueue m) =? 0) then
    '(_, x) ← thread_unblock_one_disabled handle (em_tqueue m) (em_addr m) (wt s);
    Done (m, n, with_wt x s)
  else
    '(e, q, n, s) ← event_queue_trigger (em_queue m) n s;
    if err_is_ok e then Done (set_emutex q (em_locked m) m, n, s) else
    ASSERT bool_decide (err_no e = Some LIB_ERR_EVENT_QUEUE_EMPTY);
    Done (set_emutex q false m, n, s).
End Queue.
