(* ===== verification/EventQueueCorrect.v ===== *)
(** Correctness of EventQueue.v: events run in the order in which they were
    added, each once, and none is forgotten. *)
From S2P Require Import Prelude Ring Chain Threads ThreadsCorrect Waitset WaitsetQueues WaitsetCorrect WaitsetEvents WaitsetFire WaitsetChan EventQueue.

(** * The list of a queue *)

#[local] Notation nodes L := (L.*1).

(** The queue [q] holds the events [L]: nodes with their closures. *)
Record evq (q : event_queue) (n : enodes) (L : list (Z * event_closure)) : Prop := {
  ev_list : dlist (nlinks n) (q_head q) (nodes L);
  ev_tail : q_tail q = last_or 0 (nodes L);
  ev_event : forall a f, (a, f) ∈ L -> nevent n a = f /\ nrun n a = false
}.

(** A queue that differs in its ends only. *)
Definition same_queue (q q' : event_queue) : Prop := q' = set_ends (q_head q') (q_tail q') q.

Lemma same_queue_ends h t q : same_queue q (set_ends h t q).
Proof. by destruct q. Qed.
Lemma same_queue_trans q1 q2 q3 : same_queue q1 q2 -> same_queue q2 q3 -> same_queue q1 q3.
Proof. unfold same_queue. intros -> ->. by destruct q1. Qed.

Lemma evq_empty q n : evq q n [] <-> q_head q = 0 /\ q_tail q = 0.
Proof.
  split; [intros [H1 H2 _]; by apply dlist_empty in H1|]. intros [H1 H2]. constructor; [by apply dlist_empty|done|]. by intros a f ?%elem_of_nil.
Qed.

Lemma evq_head q n L : evq q n L -> q_head q = default 0 (head (nodes L)).
Proof. intros [H _ _]. by apply dlist_head in H. Qed.

Lemma evq_nonempty q n a f L : evq q n ((a, f) :: L) -> a <> 0 /\ q_head q = a.
Proof. intros H. pose proof (evq_head _ _ _ H) as E. split; [|done]. intros ->. apply (dlist_nonnull _ _ _ (ev_list _ _ _ H)). left. Qed.

Lemma unlink_next k l1 e l2 : NoDup (l1 ++ e :: l2) -> 0 ∉ l1 ++ e :: l2 ->
  unlinked k l1 e l2 (let k := if default 0 (head l2) =? 0 then k else set_prv (default 0 (head l2)) (last_or 0 l1) k in
                      if last_or 0 l1 =? 0 then k else set_nxt (last_or 0 l1) (default 0 (head l2)) k).
Proof.
  intros Hn H0. cbv zeta. assert (Hp : l1 <> [] -> last_or 0 l1 <> 0) by (intros Hne E; apply H0, elem_of_app; left; rewrite <- E; by apply last_or_in).
  assert (He : l2 <> [] -> default 0 (head l2) <> 0) by (intros Hne E; apply H0, elem_of_app; do 2 right; rewrite <- E; by apply head_in).
  constructor.
  - intros Hne. specialize (Hp Hne). zdecide. by flookup.
  - intros Hne. specialize (He Hne). zdecide. destruct (last_or 0 l1 =? 0); by flookup.
  - intros a Ha Hne. destruct (Z.eqb_spec (last_or 0 l1) 0), (Z.eqb_spec (default 0 (head l2)) 0); by flookup.
  - intros a Ha Hne. destruct (Z.eqb_spec (last_or 0 l1) 0), (Z.eqb_spec (default 0 (head l2)) 0); by flookup.
Qed.

Lemma next_event_empty q n : evq q n [] -> next_event q n = Done (0, q, n).
Proof. intros [E _]%evq_empty. unfold next_event. by rewrite E. Qed.

Lemma next_event_cons q n a f L : evq q n ((a, f) :: L) ->
  exists q' n', next_event q n = Done (a, q', n') /\ evq q' n' L /\ same_queue q q' /\ nevent n' = nevent n /\ nrun n' = nrun n /\
    (forall x, x ∉ nodes L -> nxt (nlinks n') x = nxt (nlinks n) x /\ prv (nlinks n') x = prv (nlinks n) x) /\ nevent n a = f /\ nrun n a = false /\ a ∉ nodes L.
Proof.
  intros H. destruct (evq_nonempty _ _ _ _ _ H) as [Ha Eh]. destruct H as [Hl Ht He]. cbn [fmap list_fmap fst] in Hl, Ht.
  destruct (dlist_middle _ _ [] a (nodes L) Hl) as (_ & Ep & En & _). cbn in Ep. unfold next_event. rewrite Eh, Ep, En. zdecide. cbn [Z.eqb assert mbind outcome_bind].
  pose proof (dl_nodup _ _ _ Hl) as Hn. destruct (He a f ltac:(left)) as [Ef Er]. apply NoDup_cons in Hn as [Hal Hn].
  pose proof (dlist_unlink _ _ [] a (nodes L) _ Hl (unlink_next _ [] a _ (dl_nodup _ _ _ Hl) (dlist_nonnull _ _ _ Hl))) as Hl'. cbn in Hl'.
  assert (He' : forall x g, (x, g) ∈ L -> nevent n x = g /\ nrun n x = false) by (intros x g Hx; apply He; by right).
  destruct L as [|[b g] L].
  - cbn in Ht |- *. rewrite Ht. zdecide. cbn [assert mbind outcome_bind]. eexists _, _. split; [done|]. split_and!; try done. all: by apply evq_empty.
  - cbn [fmap list_fmap fst head default from_option id] in *. assert (Hb : b <> 0) by (intros ->; apply (dlist_nonnull _ _ _ Hl); right; left). destruct (Z.eqb_spec b 0); [done|].
    eexists _, _. split; [done|]. split; [constructor; [exact Hl'|exact Ht|exact He']|]. split_and!; try done. intros x Hx. cbn [set_nlinks nlinks]. assert (x <> b) by (intros ->; apply Hx; left). by flookup.
Qed.

Lemma flush_loop_ok L : forall fuel q n, evq q n L -> (length L < fuel)%nat ->
  exists q' n', flush_loop fuel q n = Done (q', n') /\ evq q' n' [] /\ same_queue q q' /\ nevent n' = nevent n /\ nrun n' = nrun n.
Proof.
  induction L as [|[a f] L IH]; intros [|fuel] q n H Hf; try (cbn in Hf; lia); cbn [flush_loop].
  - rewrite next_event_empty by done. cbn [mbind outcome_bind Z.eqb]. exists q, n. split_and!; try done. by destruct q.
  - destruct (next_event_cons _ _ _ _ _ H) as (q1 & n1 & -> & H1 & S1 & E1 & E2 & _). destruct (evq_nonempty _ _ _ _ _ H) as [Ha _]. cbn [mbind outcome_bind]. zdecide.
    destruct (IH fuel q1 n1 H1 ltac:(cbn in Hf; lia)) as (q' & n' & -> & H' & S' & E1' & E2'). exists q', n'. split_and!; try done; [by eapply same_queue_trans|congruence..].
Qed.

(** A new node at the end. *)
Lemma add_list q n L a f : evq q n L -> a ∉ nodes L -> a <> 0 ->
  let n1 := set_nrun a false (set_nevent a f n) in
  let k := nlinks n in
  let k' := if q_tail q =? 0 then set_nxt a 0 (set_prv a 0 k) else set_nxt a 0 (set_prv a (q_tail q) (set_nxt (q_tail q) a k)) in
  evq (set_ends (if q_tail q =? 0 then a else q_head q) a q) (set_nlinks k' n1) (L ++ [(a, f)]).
Proof.
  intros [Hl Ht He] Ha H0 n1 k k'. assert (Hnodes : nodes (L ++ [(a, f)]) = nodes L ++ [a]) by (by rewrite fmap_app).
  assert (Hk : linked_in k (nodes L) a [] k').
  { unfold k'. destruct (decide (nodes L = [])) as [E|E].
    - rewrite Ht, E. cbn. constructor; rewrite ?E; try done; flookup; try done; by intros x ?%elem_of_nil.
    - assert (Hz : last_or 0 (nodes L) ∈ nodes L) by (by apply last_or_in). assert (last_or 0 (nodes L) <> 0) by (intros E0; apply (dlist_nonnull _ _ _ Hl); congruence). assert (last_or 0 (nodes L) <> a) by congruence.
      rewrite Ht. zdecide. constructor; try done; flookup; try done.
      + intros x Hx Hne. rewrite app_nil_r in Hx. by flookup.
      + intros x Hx Hne. rewrite app_nil_r in Hx. by flookup. }
  constructor.
  - rewrite Hnodes. cbn [set_ends q_head set_nlinks nlinks]. pose proof (dlist_link _ _ (nodes L) a [] k' ltac:(by rewrite app_nil_r) ltac:(by rewrite app_nil_r) H0 Hk) as Hl'.
    destruct (nodes L) as [|b M] eqn:E; [rewrite Ht; exact Hl'|]. rewrite Ht.
    assert (last_or 0 (b :: M) <> 0) by (intros E0; apply (dlist_nonnull _ _ _ Hl); rewrite <- E0; by apply last_or_in). zdecide. rewrite (dlist_head _ _ _ Hl). exact Hl'.
  - rewrite Hnodes. cbn [set_ends q_tail]. by rewrite last_or_snoc.
  - intros x g [Hx|Hx]%elem_of_app; cbn [set_nlinks nevent nrun n1 set_nrun set_nevent].
    + assert (x <> a) by (intros ->; apply Ha; apply list_elem_of_fmap; by exists (a, g)). unfold n1. cbn. rewrite !fn_lookup_insert_ne by done. by apply He.
    + apply list_elem_of_singleton in Hx. injection Hx as -> ->. unfold n1. cbn. by rewrite !fn_lookup_insert.
Qed.

(** Adding an event: the queue is armed when it was empty and runs
    continuously. *)
Definition arms (RUNNER handle : Z) (q : event_queue) (s : wstate) : outcome wstate :=
  if bool_decide (q_mode q = EVENT_QUEUE_CONTINUOUS) then
    '(e, s) ← waitset_chan_trigger_closure_disabled handle (q_waitset q) (q_chan q) (runner RUNNER q) s;
    ASSERT err_is_ok e || bool_decide (err_no e = Some LIB_ERR_CHAN_ALREADY_REGISTERED);
    Done s
  else Done s.

Lemma add_spec RUNNER handle q n L a f s : evq q n L -> a ∉ nodes L -> a <> 0 ->
  exists q' n', evq q' n' (L ++ [(a, f)]) /\ same_queue q q' /\
    event_queue_add RUNNER handle a f q n s = (s ← (match L with [] => arms RUNNER handle q s | _ => Done s end); Done (q', n', s)).
Proof.
  intros H2 Ha H0. pose proof (add_list _ _ _ a f H2 Ha H0) as Hl. cbv zeta in Hl. unfold event_queue_add. destruct L as [|x L].
  - pose proof H2 as [Eh Et]%evq_empty. rewrite Et in Hl |- *. rewrite Eh. cbn [Z.eqb assert mbind outcome_bind] in *. eexists _, _. split_and!; [exact Hl|apply same_queue_ends|]. by destruct q.
  - assert (Hne : nodes (x :: L) <> []) by done. revert Ha Hne H2 Hl. generalize (x :: L). intros M Ha Hne H2 Hl. pose proof (last_or_in 0 _ Hne) as Hz. rewrite <- (ev_tail _ _ _ H2) in Hz.
    assert (q_tail q <> 0) by (intros E; apply (dlist_nonnull _ _ _ (ev_list _ _ _ H2)); congruence). assert (q_tail q <> a) by congruence.
    assert (Hzn : nxt (nlinks n) (q_tail q) = 0).
    { rewrite (ev_tail _ _ _ H2). pose proof (ev_list _ _ _ H2) as Hd. destruct (exists_last Hne) as (l & z & E). rewrite E, last_or_snoc in *. by destruct (dlist_middle _ _ l z [] Hd) as (_ & _ & ? & _). }
    destruct (Z.eqb_spec (q_tail q) 0); [done|]. zdecide. cbn [negb assert mbind outcome_bind nlinks set_nrun set_nevent]. rewrite Hzn. cbn [Z.eqb assert mbind outcome_bind]. eexists _, _. split_and!; [exact Hl|apply same_queue_ends|done].
Qed.

(** A node is taken out. *)
Lemma cancel_list q n L1 a f L2 : evq q n (L1 ++ (a, f) :: L2) ->
  exists h t k', ('(t, k) ← (if nxt (nlinks n) a =? 0 then ASSERT q_tail q =? a; Done (prv (nlinks n) a, nlinks n) else Done (q_tail q, set_prv (nxt (nlinks n) a) (prv (nlinks n) a) (nlinks n)));
                  '(h, k) ← (if prv k a =? 0 then ASSERT q_head q =? a; Done (nxt k a, k) else Done (q_head q, set_nxt (prv k a) (nxt k a) k)); Done (h, t, k)) = Done (h, t, k') /\
    evq (set_ends h t q) (set_nlinks k' n) (L1 ++ L2).
Proof.
  intros [Hl Ht He]. assert (En : nodes (L1 ++ (a, f) :: L2) = nodes L1 ++ a :: nodes L2) by (by rewrite fmap_app). rewrite En in Hl, Ht. set (l1 := nodes L1) in *. set (l2 := nodes L2) in *.
  destruct (dlist_middle _ _ _ _ _ Hl) as (Ha & Ep & Ex & Eh). pose proof (dl_nodup _ _ _ Hl) as Hn. pose proof (dlist_nonnull _ _ _ Hl) as H0. destruct (nodup_parts _ _ _ Hn) as (N1 & N2 & N3 & N4 & N5 & N6).
  pose proof (dlist_unlink _ _ _ _ _ _ Hl (unlink_next _ l1 a l2 Hn H0)) as Hl'. cbv zeta in Hl'.
  assert (Hp : l1 <> [] -> last_or 0 l1 <> 0 /\ last_or 0 l1 ∈ l1) by (intros Hne; split; [intros E; apply H0, elem_of_app; left; rewrite <- E|]; by apply last_or_in).
  assert (He2 : l2 <> [] -> default 0 (head l2) <> 0 /\ default 0 (head l2) ∈ l2) by (intros Hne; split; [intros E; apply H0, elem_of_app; do 2 right; rewrite <- E|]; by apply head_in).
  assert (Hev : forall x g, (x, g) ∈ L1 ++ L2 -> nevent n x = g /\ nrun n x = false) by (intros x g [Hx|Hx]%elem_of_app; apply He, elem_of_app; [by left|by do 2 right]).
  assert (Hnodes : nodes (L1 ++ L2) = l1 ++ l2) by (by rewrite fmap_app). rewrite Ep, Ex.
  assert (Hr : forall h t k', h = default 0 (head (l1 ++ l2)) -> t = last_or 0 (l1 ++ l2) -> dlist k' (default 0 (head (l1 ++ l2))) (l1 ++ l2) -> evq (set_ends h t q) (set_nlinks k' n) (L1 ++ L2)).
  { intros h t k' -> -> Hk. constructor; [by rewrite Hnodes|by rewrite Hnodes|exact Hev]. }
  destruct (decide (l2 = [])) as [E2|E2].
  - rewrite E2 in *. cbn [head default from_option id Z.eqb] in *. rewrite last_or_snoc in Ht. rewrite Ht, Z.eqb_refl. cbn [assert mbind outcome_bind]. rewrite Ep, Ex. destruct (decide (l1 = [])) as [E1|E1].
    + rewrite E1 in *. cbn [last_or last default from_option id Z.eqb head app] in *. change (last_or 0 []) with 0 in *. cbn [Z.eqb] in *. rewrite Eh, Z.eqb_refl. cbn [assert mbind outcome_bind]. eexists _, _, _. split; [done|]. by apply Hr.
    + destruct (Hp E1) as [Hp0 Hpin]. zdecide. cbn [mbind outcome_bind]. eexists _, _, _. split; [done|]. apply Hr; [|by rewrite app_nil_r|]; [rewrite Eh, app_nil_r; by destruct l1|]. destruct (Z.eqb_spec (last_or 0 l1) 0); [done|]. exact Hl'.
  - destruct (He2 E2) as [He0 Hein]. zdecide. cbn [mbind outcome_bind]. assert (Hne : default 0 (head l2) <> a) by congruence. flookup. rewrite Ep, Ex.
    assert (Htl : q_tail q = last_or 0 (l1 ++ l2)). { rewrite Ht. destruct l2 as [|b l2]; [done|]. unfold last_or. rewrite !last_app. by rewrite last_cons_cons. }
    destruct (Z.eqb_spec (default 0 (head l2)) 0); [done|]. destruct (decide (l1 = [])) as [E1|E1].
    + rewrite E1 in *. change (last_or 0 []) with 0 in *. cbn [Z.eqb app head default from_option id] in *. rewrite Eh, Z.eqb_refl. cbn [assert mbind outcome_bind]. eexists _, _, _. split; [done|]. by apply Hr.
    + destruct (Hp E1) as [Hp0 Hpin]. destruct (Z.eqb_spec (last_or 0 l1) 0); [done|]. cbn [mbind outcome_bind]. eexists _, _, _. split; [done|]. apply Hr; [rewrite Eh; by destruct l1|done|exact Hl'].
Qed.

(** * The system: one queue that runs continuously *)

Section Continuous.
Context (all : list Z) (Hbound : (length all < MAX_THREADS)%nat) (Hpage : Forall (fun t => BASE_PAGE_SIZE < t) all) (handle : Z).
Context (chans : list Z) (Hnull : 0 ∉ chans) (fuel : nat) (Hfuel : (length chans < fuel)%nat).
Context (home : Z -> Z) (Hhome : forall c, c ∈ chans -> home c <> 0).
(** The function that runs events, and the channel of the queue. *)
Context (RUNNER c : Z) (Hc : c ∈ chans).

#[local] Notation wgood := (wgood all handle chans home).

(** [accepted] are the events that were added and not cancelled, [ran] the
    ones that ran, both in the order of time; [in_flight] is the number of
    runners that threads have received from the waitset and not called yet. *)
Record esys := ESys {
  e_g : wsys;
  e_q : event_queue;
  e_n : enodes;
  in_flight : nat;
  accepted : list (Z * event_closure);
  ran : list (Z * event_closure)
}.
Definition e_s (e : esys) : wstate := wst (e_g e).
Definition with_s (s : wstate) (e : esys) : wsys := WSys s (inside (e_g e)).
Definition todo (e : esys) : list (Z * event_closure) := drop (length (ran e)) (accepted e).

Definition taken_now (s s' : wstate) : nat := if decide (state (chan s c) <> CHAN_UNREGISTERED /\ state (chan s' c) = CHAN_UNREGISTERED) then 1 else 0.

(** An event may be cancelled when it is in the queue or has run; the last one
    of the queue only when no thread is about to run it. *)
Inductive qstep : esys -> esys -> Prop :=
| qstep_add a f q n s e : a <> 0 -> a ∉ nodes (todo e) -> event_queue_add RUNNER handle a f (e_q e) (e_n e) (e_s e) = Done (q, n, s) ->
    qstep e (ESys (with_s s e) q n (in_flight e) (accepted e ++ [(a, f)]) (ran e))
| qstep_cancel a er q n s e : a ∈ nodes (todo e) -> (nodes (todo e) = [a] -> in_flight e = 0%nat) -> event_queue_cancel a (e_q e) (e_n e) (e_s e) = Done (er, q, n, s) ->
    qstep e (ESys (with_s s e) q n (in_flight e) (ran e ++ filter (fun x => x.1 <> a) (todo e)) (ran e))
| qstep_flush m er q n s e : (length (todo e) < m)%nat -> in_flight e = 0%nat -> event_queue_flush m (e_q e) (e_n e) (e_s e) = Done (er, q, n, s) ->
    qstep e (ESys (with_s s e) q n (in_flight e) (ran e) (ran e))
| qstep_run i x q n s e : in_flight e = S i -> event_queue_runner RUNNER handle (e_q e) (e_n e) (e_s e) = Done (x, q, n, s) ->
    qstep e (ESys (with_s s e) q n i (accepted e) (ran e ++ option_list x))
| qstep_other g e : elsewhere all handle chans fuel home c (e_g e) g ->
    qstep e (ESys g (e_q e) (e_n e) (in_flight e + taken_now (e_s e) (wst g)) (accepted e) (ran e)).

Record qinitial (e : esys) : Prop := {
  qn_wait : winitial all handle chans (e_g e);
  qn_once : persistent (chan (e_s e) c) = false;
  qn_queue : exists addr, e_q e = EventQueue addr (home c) c 0 0 EVENT_QUEUE_CONTINUOUS;
  qn_start : in_flight e = 0%nat /\ accepted e = [] /\ ran e = []
}.

Definition armed (e : esys) : nat := in_flight e + (if decide (state (chan (e_s e) c) = CHAN_UNREGISTERED) then 0 else 1).

Record qinv (e : esys) : Prop := {
  qi_good : wgood (e_g e);
  qi_list : evq (e_q e) (e_n e) (todo e);
  qi_hist : accepted e = ran e ++ todo e;
  qi_queue : q_waitset (e_q e) = home c /\ q_chan (e_q e) = c /\ q_mode (e_q e) = EVENT_QUEUE_CONTINUOUS;
  qi_once : persistent (chan (e_s e) c) = false;
  qi_chan : state (chan (e_s e) c) <> CHAN_UNREGISTERED -> has_event (e_s e) c /\ closure (chan (e_s e) c) = runner RUNNER (e_q e);
  qi_armed : armed e = match todo e with [] => 0%nat | _ => 1%nat end
}.

Lemma todo_app (R T : list (Z * event_closure)) : drop (length R) (R ++ T) = T.
Proof. by rewrite drop_app_length. Qed.

Lemma with_s_same e : with_s (e_s e) e = e_g e.
Proof. by destruct e as [[]]. Qed.

Lemma todo_sys g q n i r T : todo (ESys g q n i (r ++ T) r) = T.
Proof. apply drop_app_length. Qed.

(** ** Arming and disarming the queue *)

Lemma arm_ok g f : wgood g -> state (chan (wst g) c) = CHAN_UNREGISTERED ->
  exists s', waitset_chan_trigger_closure_disabled handle (home c) c f (wst g) = Done (SYS_ERR_OK, s') /\ wgood (WSys s' (inside g)) /\
    chan s' c = with_chan_state CHAN_PENDING (with_waitset (home c) (with_closure f (chan (wst g) c))).
Proof.
  intros (R & Q & C & P & Hi) Eu. destruct (trigger_closure_ok all Hbound Hpage handle chans Hnull fuel Hfuel home Hhome R Q C P _ c f (wi_rep _ _ _ _ _ _ _ _ _ Hi) Hc Eu) as (s' & _ & _ & E & _).
  destruct (trigger_closure_inv all Hbound Hpage handle chans Hnull fuel Hfuel home Hhome R Q C P g c f Hi Hc) as (g' & R' & Q' & C' & P' & E' & Hi'). cbn [wexec] in E'. rewrite E in E'. injection E' as <-.
  exists s'. split_and!; [done|by exists R', Q', C', P'|by eapply trigger_closure_self].
Qed.

Lemma armed_already g f : wgood g -> state (chan (wst g) c) <> CHAN_UNREGISTERED -> waitset_chan_trigger_closure_disabled handle (home c) c f (wst g) = Done (err LIB_ERR_CHAN_ALREADY_REGISTERED, wst g).
Proof.
  intros (R & Q & C & P & Hi) Eu. destruct (wrep_registered _ _ _ _ _ _ _ _ _ _ (wi_rep _ _ _ _ _ _ _ _ _ Hi) Hc Eu) as (Ew & _). pose proof (Hhome c Hc). assert (c <> 0) by congruence.
  unfold waitset_chan_trigger_closure_disabled. rewrite Ew. zdecide. done.
Qed.

Lemma disarm_ok g : wgood g -> exists e s', waitset_chan_deregister_disabled c (wst g) = Done (e, s') /\ (e = SYS_ERR_OK \/ e = err LIB_ERR_CHAN_NOT_REGISTERED) /\
  wgood (WSys s' (inside g)) /\ state (chan s' c) = CHAN_UNREGISTERED /\ persistent (chan s' c) = persistent (chan (wst g) c).
Proof.
  intros (R & Q & C & P & Hi). pose proof (wi_rep _ _ _ _ _ _ _ _ _ Hi) as Hw.
  destruct (deregister_inv all Hbound handle chans Hnull fuel Hfuel home Hhome R Q C P g c Hi Hc) as (g' & R' & Q' & C' & P' & E' & Hi'). cbn [wexec] in E'. apply bind_done in E' as ([e s'] & E & E'). injection E' as <-.
  exists e, s'. pose proof (deregister_chan _ _ _ _ E) as (_ & _ & Ep & Es). split; [done|]. destruct (decide (state (chan (wst g) c) = CHAN_UNREGISTERED)) as [Eu|Eu].
  - pose proof (wr_waitset _ _ _ _ _ _ _ _ _ Hw c Hc) as Ew. rewrite decide_True in Ew by done. assert (c <> 0) by congruence. unfold waitset_chan_deregister_disabled in E. rewrite Ew in E.
    destruct (Z.eqb_spec c 0); [done|]. cbn in E. injection E as <- <-. split_and!; [by right|by exists R', Q', C', P'|done|done].
  - destruct (deregister_ok all Hbound handle chans Hnull fuel Hfuel home Hhome R Q C P _ c Hw Hc Eu) as (s1 & E1 & _). rewrite E in E1. injection E1 as -> <-. split_and!; [by left|by exists R', Q', C', P'| |done].
    apply Es. destruct (wrep_registered _ _ _ _ _ _ _ _ _ _ Hw Hc Eu) as (-> & _). by apply Hhome.
Qed.

(** ** The steps keep the invariant *)

Lemma empty_todo e : qinv e -> todo e = [] -> in_flight e = 0%nat /\ state (chan (e_s e) c) = CHAN_UNREGISTERED /\ q_head (e_q e) = 0 /\ q_tail (e_q e) = 0.
Proof.
  intros [_ Hl _ _ _ _ Ha] Et. rewrite Et in Hl, Ha. apply evq_empty in Hl as [? ?]. unfold armed in Ha. destruct (decide (state _ = _)); [|lia]. split_and!; [lia|done..].
Qed.

Lemma same_armed e g q n i acc r : qinv e -> wgood g -> evq q n (drop (length r) acc) -> acc = r ++ drop (length r) acc -> same_queue (e_q e) q ->
  chan (wst g) c = chan (e_s e) c -> i = in_flight e -> drop (length r) acc <> [] -> todo e <> [] -> qinv (ESys g q n i acc r).
Proof.
  intros [H1 H2 H3 H4 H5 H6 H7] Hg Hl Hh Hq Ec -> Hne Hne'. rewrite Hq. constructor; cbn [e_g e_q e_n in_flight accepted ran todo e_s]; try done; unfold e_s; cbn [e_g].
  - rewrite <- Hq. exact Hl.
  - by rewrite Ec.
  - unfold has_event. rewrite Ec. exact H6.
  - unfold armed, e_s in *. cbn [e_g in_flight]. rewrite Ec, H7. unfold todo at 2. cbn [ran accepted]. destruct (todo e); [done|]. by destruct (drop _ _).
Qed.

Lemma add_ok e a f : qinv e -> a <> 0 -> a ∉ nodes (todo e) ->
  exists q n s, event_queue_add RUNNER handle a f (e_q e) (e_n e) (e_s e) = Done (q, n, s) /\ qinv (ESys (with_s s e) q n (in_flight e) (accepted e ++ [(a, f)]) (ran e)).
Proof.
  intros Hi H0 Ha. pose proof Hi as [H1 H2 H3 (Q1 & Q2 & Q3) H5 H6 H7]. destruct (add_spec RUNNER handle _ _ _ a f (e_s e) H2 Ha H0) as (q & n & Hl & Hq & E). rewrite E.
  assert (Eacc : accepted e ++ [(a, f)] = ran e ++ todo e ++ [(a, f)]) by (by rewrite app_assoc, <- H3). rewrite Eacc. destruct (decide (todo e = [])) as [Et|Et].
  - destruct (empty_todo e Hi Et) as (Ei & Eu & _). rewrite Et in *. unfold arms. rewrite Q1, Q2, Q3, bool_decide_true by done.
    destruct (arm_ok (e_g e) (runner RUNNER (e_q e)) H1 Eu) as (s' & E' & Hg & Ec). unfold e_s. rewrite E'. cbn [mbind outcome_bind]. change (err_is_ok SYS_ERR_OK) with true. cbn [orb assert mbind outcome_bind].
    eexists _, _, _. split; [done|]. constructor; rewrite ?todo_sys; cbn [e_g e_q e_n accepted ran]; try done.
    + by rewrite Hq.
    + unfold e_s. cbn [e_g with_s wst]. by rewrite Ec.
    + intros _. unfold has_event, e_s. cbn [e_g with_s wst]. rewrite Ec. split; [by left|]. by rewrite Hq.
    + unfold armed, e_s. cbn [e_g with_s wst in_flight]. by rewrite Ei, Ec.
  - replace (match todo e with [] => arms RUNNER handle (e_q e) (e_s e) | _ => Done (e_s e) end) with (Done (e_s e)) by (by destruct (todo e)). cbn [mbind outcome_bind]. eexists _, _, _. split; [done|].
    apply (same_armed e); rewrite ?todo_app; [done|by rewrite with_s_same|done|done|done|done|done|by destruct (todo e)|done].
Qed.

Lemma cancel_runner_ok e q n : qinv e -> same_queue (e_q e) q -> evq q n [] -> in_flight e = 0%nat ->
  exists s, event_queue_cancel_runner q (e_s e) = Done (SYS_ERR_OK, s) /\ qinv (ESys (with_s s e) q n (in_flight e) (ran e) (ran e)).
Proof.
  intros [H1 H2 H3 (Q1 & Q2 & Q3) H5 H6 H7] Hq Hl Hi. pose proof Hl as [Eh Et]%evq_empty. unfold event_queue_cancel_runner. rewrite Eh, Et.
  assert (Em : q_mode q = EVENT_QUEUE_CONTINUOUS /\ q_chan q = c /\ q_waitset q = home c) by (by rewrite Hq). destruct Em as (Em & Ec & Ew). rewrite Em, Ec, bool_decide_true by done. cbn [Z.eqb andb assert mbind outcome_bind].
  destruct (disarm_ok (e_g e) H1) as (er & s' & E & Her & Hg & Hs & Hp). unfold e_s in *. rewrite E. cbn [mbind outcome_bind].
  exists s'. split; [by destruct Her as [-> | ->]|]. assert (Ed : drop (length (ran e)) (ran e) = []) by apply drop_all.
  constructor; unfold e_s, armed, todo, with_s; cbn [e_g e_q e_n in_flight accepted ran wst]; rewrite ?Ed; try done; [by rewrite app_nil_r|congruence|]. unfold e_s. cbn [e_g wst]. by rewrite Hi, decide_True.
Qed.

Lemma filter_middle (L1 : list (Z * event_closure)) a f L2 : NoDup (nodes (L1 ++ (a, f) :: L2)) -> filter (fun x => x.1 <> a) (L1 ++ (a, f) :: L2) = L1 ++ L2.
Proof.
  intros Hn. rewrite fmap_app in Hn. cbn in Hn. destruct (nodup_parts _ _ _ Hn) as (_ & _ & _ & N4 & N5 & _). rewrite filter_app. rewrite (filter_cons_False _ (a, f)) by (cbn; tauto).
  assert (Hall : forall L : list (Z * event_closure), a ∉ nodes L -> filter (fun x => x.1 <> a) L = L).
  { intros L. induction L as [|[b g] L IH]; [done|]. cbn [fmap list_fmap fst]. intros [H1 H2]%not_elem_of_cons. rewrite filter_cons_True by (cbn; congruence). by rewrite IH. }
  by rewrite !Hall.
Qed.

Lemma cancel_ok e a : qinv e -> a ∈ nodes (todo e) -> (nodes (todo e) = [a] -> in_flight e = 0%nat) ->
  exists q n s, event_queue_cancel a (e_q e) (e_n e) (e_s e) = Done (SYS_ERR_OK, q, n, s) /\ qinv (ESys (with_s s e) q n (in_flight e) (ran e ++ filter (fun x => x.1 <> a) (todo e)) (ran e)).
Proof.
  intros Hi Ha Hlast. pose proof Hi as [H1 H2 H3 (Q1 & Q2 & Q3) H5 H6 H7]. apply list_elem_of_fmap in Ha as ([a' f] & -> & Ha). cbn [fst] in *. destruct (ev_event _ _ _ H2 _ _ Ha) as [_ Hr]. apply list_elem_of_split in Ha as (L1 & L2 & EL).
  rewrite EL in *. destruct (cancel_list _ _ _ _ _ _ H2) as (h & t & k' & E & Hl). rewrite (filter_middle _ _ _ _ (dl_nodup _ _ _ (ev_list _ _ _ H2))). unfold event_queue_cancel. rewrite Hr.
  apply bind_done in E as ([t1 k1] & E1 & E). apply bind_done in E as ([h1 k2] & E2 & E). injection E as -> -> ->. rewrite E1. cbn [mbind outcome_bind]. rewrite E2. cbn [mbind outcome_bind].
  destruct (decide (L1 ++ L2 = [])) as [En|En].
  - apply app_eq_nil in En as [-> ->]. cbn [app] in *. destruct (cancel_runner_ok e (set_ends h t (e_q e)) (set_nlinks k' (e_n e)) Hi ltac:(apply same_queue_ends) Hl ltac:(by apply Hlast)) as (s & -> & Hi'). cbn [mbind outcome_bind].
    rewrite app_nil_r. by eexists _, _, _.
  - assert (Hh : h <> 0). { pose proof (evq_head _ _ _ Hl) as Eh. cbn [set_ends q_head] in Eh. destruct (L1 ++ L2) as [|[b g] L]; [done|]. by destruct (evq_nonempty _ _ _ _ _ Hl) as [? <-]. }
    unfold event_queue_cancel_runner. cbn [set_ends q_head]. zdecide. cbn [andb mbind outcome_bind]. eexists _, _, _. split; [done|].
    apply (same_armed e); rewrite ?todo_app; [done|by rewrite with_s_same|done|done|apply same_queue_ends|done|done|done|]. rewrite EL. by destruct L1.
Qed.

Lemma flush_ok e m : qinv e -> (length (todo e) < m)%nat -> in_flight e = 0%nat ->
  exists q n s, event_queue_flush m (e_q e) (e_n e) (e_s e) = Done (SYS_ERR_OK, q, n, s) /\ qinv (ESys (with_s s e) q n (in_flight e) (ran e) (ran e)).
Proof.
  intros Hi Hm H0. destruct (flush_loop_ok _ m _ _ (qi_list _ Hi) Hm) as (q & n & E & Hl & Hq & _). unfold event_queue_flush. rewrite E. cbn [mbind outcome_bind].
  destruct (cancel_runner_ok e q n Hi Hq Hl H0) as (s & -> & Hi'). by exists q, n, s.
Qed.

(** Cancelling and flushing return also when a thread is about to run the last
    event. *)
Lemma cancel_runner_returns e q n L : qinv e -> same_queue (e_q e) q -> evq q n L -> exists s, event_queue_cancel_runner q (e_s e) = Done (SYS_ERR_OK, s).
Proof.
  intros Hi Hq Hl. destruct L as [|[a f] L].
  - pose proof Hi as [H1 _ _ (Q1 & Q2 & Q3) _ _ _]. apply evq_empty in Hl as [Eh Et]. unfold event_queue_cancel_runner. rewrite Eh, Et.
    assert (Em : q_mode q = EVENT_QUEUE_CONTINUOUS /\ q_chan q = c) by (by rewrite Hq). destruct Em as (Em & Ec). rewrite Em, Ec, bool_decide_true by done. cbn [Z.eqb andb assert mbind outcome_bind].
    destruct (disarm_ok (e_g e) H1) as (er & s' & E & Her & _). unfold e_s. rewrite E. cbn [mbind outcome_bind]. exists s'. by destruct Her as [-> | ->].
  - destruct (evq_nonempty _ _ _ _ _ Hl) as [Ha Eh]. unfold event_queue_cancel_runner. zdecide. by exists (e_s e).
Qed.

Lemma cancel_returns e a : qinv e -> a ∈ nodes (todo e) -> exists q n s, event_queue_cancel a (e_q e) (e_n e) (e_s e) = Done (SYS_ERR_OK, q, n, s) /\ evq q n (filter (fun x => x.1 <> a) (todo e)).
Proof.
  intros Hi Ha. pose proof Hi as [_ H2 _ _ _ _ _]. apply list_elem_of_fmap in Ha as ([a' f] & -> & Ha). cbn [fst] in *. destruct (ev_event _ _ _ H2 _ _ Ha) as [_ Hr]. apply list_elem_of_split in Ha as (L1 & L2 & EL).
  rewrite EL in *. destruct (cancel_list _ _ _ _ _ _ H2) as (h & t & k' & E & Hl). rewrite (filter_middle _ _ _ _ (dl_nodup _ _ _ (ev_list _ _ _ H2))). unfold event_queue_cancel. rewrite Hr.
  apply bind_done in E as ([t1 k1] & E1 & E). apply bind_done in E as ([h1 k2] & E2 & E). injection E as -> -> ->. rewrite E1. cbn [mbind outcome_bind]. rewrite E2. cbn [mbind outcome_bind].
  destruct (cancel_runner_returns e (set_ends h t (e_q e)) _ _ Hi ltac:(apply same_queue_ends) Hl) as [s ->]. by eexists _, _, _.
Qed.

Lemma flush_returns e m : qinv e -> (length (todo e) < m)%nat -> exists q n s, event_queue_flush m (e_q e) (e_n e) (e_s e) = Done (SYS_ERR_OK, q, n, s) /\ evq q n [].
Proof.
  intros Hi Hm. destruct (flush_loop_ok _ m _ _ (qi_list _ Hi) Hm) as (q & n & E & Hl & Hq & _). unfold event_queue_flush. rewrite E. cbn [mbind outcome_bind]. destruct (cancel_runner_returns e q n [] Hi Hq Hl) as [s ->]. by exists q, n, s.
Qed.

Lemma run_ok e i : qinv e -> in_flight e = S i ->
  exists x q n s, event_queue_runner RUNNER handle (e_q e) (e_n e) (e_s e) = Done (Some x, q, n, s) /\ head (todo e) = Some x /\ qinv (ESys (with_s s e) q n i (accepted e) (ran e ++ [x])).
Proof.
  intros Hi Ei. pose proof Hi as [H1 H2 H3 (Q1 & Q2 & Q3) H5 H6 H7]. unfold armed in H7. destruct (todo e) as [|[a f] L] eqn:EL; [lia|].
  assert (Hu : i = 0%nat /\ state (chan (e_s e) c) = CHAN_UNREGISTERED) by (destruct (decide (state _ = _)); [split; [lia|done]|lia]). destruct Hu as [-> Hu].
  destruct (next_event_cons _ _ _ _ _ H2) as (q & n & E & Hl & Hq & En & Er & _ & Ef & _ & Hnot). destruct (evq_nonempty _ _ _ _ _ H2) as [Ha _]. unfold event_queue_runner. rewrite Q3, bool_decide_true by done. cbn [assert mbind outcome_bind].
  rewrite E. cbn [mbind outcome_bind]. zdecide. assert (Hl' : evq q (set_nrun a true n) L).
  { destruct Hl as [L1 L2 L3]. constructor; [done|done|]. intros b g Hb. cbn [set_nrun nrun nevent]. rewrite fn_lookup_insert_ne; [by apply L3|]. intros ->. apply Hnot, list_elem_of_fmap. by exists (b, g). }
  assert (Hhist : accepted e = (ran e ++ [(a, f)]) ++ L) by (rewrite H3 at 1; by rewrite <- app_assoc). assert (Etodo : drop (length (ran e ++ [(a, f)])) (accepted e) = L) by (rewrite Hhist; apply todo_app).
  rewrite En, Ef. assert (Eq : q_waitset q = home c /\ q_chan q = c /\ q_mode q = EVENT_QUEUE_CONTINUOUS) by (by rewrite Hq). destruct Eq as (Eq1 & Eq2 & Eq3). pose proof (evq_head _ _ _ Hl) as Eh.
  destruct L as [|[b g] L].
  - cbn in Eh. rewrite Eh. cbn [Z.eqb negb mbind outcome_bind]. eexists _, _, _, _. split; [done|]. split; [done|].
    unfold e_s in Hu. constructor; unfold e_s, todo, armed, with_s; cbn [e_g e_q e_n in_flight accepted ran wst]; rewrite ?Etodo; try done; [revert H1; by destruct (e_g e)|..]. unfold e_s. cbn [e_g wst]. by rewrite decide_True.
  - destruct (evq_nonempty _ _ _ _ _ Hl) as [Hb Ehq]. rewrite Ehq. zdecide. cbn [negb]. rewrite Eq1, Eq2. destruct (arm_ok (e_g e) (runner RUNNER q) H1 Hu) as (s' & E' & Hg & Ec). unfold e_s. rewrite E'. cbn [mbind outcome_bind].
    change (err_is_ok SYS_ERR_OK) with true. cbn [assert mbind outcome_bind]. eexists _, _, _, _. split; [done|]. split; [done|].
    constructor; unfold e_s, todo, armed, with_s; cbn [e_g e_q e_n in_flight accepted ran wst]; rewrite ?Etodo; try done; [by rewrite Ec| |].
    + intros _. unfold has_event. rewrite Ec. split; [by left|done].
    + unfold e_s. cbn [e_g wst]. by rewrite Ec.
Qed.

Lemma other_ok e g : qinv e -> elsewhere all handle chans fuel home c (e_g e) g -> qinv (ESys g (e_q e) (e_n e) (in_flight e + taken_now (e_s e) (wst g)) (accepted e) (ran e)).
Proof.
  intros [H1 H2 H3 H4 H5 H6 H7] Hs. pose proof (wstep_good all Hbound Hpage handle chans Hnull fuel Hfuel home Hhome _ _ H1 (elsewhere_step _ _ _ _ _ _ _ _ Hs)) as Hg.
  constructor; unfold e_s, todo; cbn [e_g e_q e_n in_flight accepted ran]; try done.
  - destruct (elsewhere_frame all Hbound Hpage handle chans Hnull fuel Hfuel home Hhome c _ _ H1 Hs) as [(_ & -> & _)|(_ & -> & _)]; exact H5.
  - destruct (elsewhere_frame all Hbound Hpage handle chans Hnull fuel Hfuel home Hhome c _ _ H1 Hs) as [(-> & _ & Hst)|(_ & _ & _ & Hst)]; [|by rewrite Hst by done]. intros Hne. unfold has_event, e_s in *. destruct Hst as [E|[E E']].
    + rewrite E in Hne |- *. by apply H6.
    + rewrite E'. split; [by right|]. apply H6. by rewrite E.
  - unfold armed in *. cbn [in_flight]. unfold todo in *. cbn [ran accepted]. rewrite <- H7. unfold e_s in *. cbn [e_g]. unfold taken_now.
    destruct (elsewhere_frame all Hbound Hpage handle chans Hnull fuel Hfuel home Hhome c _ _ H1 Hs) as [(_ & _ & Hst)|(_ & _ & Hev & Hst)].
    + destruct Hst as [E|[E E']]; [rewrite E|rewrite E, E']; repeat case_decide; solve [lia | exfalso; intuition congruence].
    + rewrite (Hst H5). destruct Hev as [-> | ->]; repeat case_decide; solve [lia | exfalso; intuition congruence].
Qed.

Lemma qstep_inv e e' : qinv e -> qstep e e' -> qinv e'.
Proof.
  intros Hi Hs. destruct Hs as [a f q n s e Ha Hn E|a er q n s e Ha Hl E|m er q n s e Hm H0 E|i x q n s e Ei E|g e Hs].
  - destruct (add_ok e a f Hi Ha Hn) as (q1 & n1 & s1 & E1 & Hi'). rewrite E in E1. by injection E1 as <- <- <-.
  - destruct (cancel_ok e a Hi Ha Hl) as (q1 & n1 & s1 & E1 & Hi'). rewrite E in E1. by injection E1 as _ <- <- <-.
  - destruct (flush_ok e m Hi Hm H0) as (q1 & n1 & s1 & E1 & Hi'). rewrite E in E1. by injection E1 as _ <- <- <-.
  - destruct (run_ok e i Hi Ei) as (x1 & q1 & n1 & s1 & E1 & _ & Hi'). rewrite E in E1. by injection E1 as -> <- <- <-.
  - by apply other_ok.
Qed.

Lemma qinitial_inv e : qinitial e -> qinv e.
Proof.
  intros [H1 H2 [addr H3] (H4 & H5 & H6)]. assert (Eu : state (chan (e_s e) c) = CHAN_UNREGISTERED) by (by destruct (wn_chan _ _ _ _ H1 c Hc) as (_ & ? & _)).
  assert (Et : todo e = []) by (unfold todo; by rewrite H5, H6). constructor; rewrite ?Et, ?H3; try done; [by apply (winitial_good all handle chans home)|by apply evq_empty|by rewrite H5, H6|]. unfold armed. by rewrite H4, decide_True.
Qed.

Lemma qreach_inv e0 e : qinitial e0 -> rtc qstep e0 e -> qinv e.
Proof. intros H0%qinitial_inv Hs. induction Hs as [|e1 e2 e3 H12 _ IH]; [done|]. by eapply IH, qstep_inv. Qed.

(** C11: in every run of threads that add, cancel, flush and run events of a
    queue in continuous mode, in which the last event of the queue is not
    cancelled or flushed while a thread is about to run it, events run in
    the order in which they were added, each once unless cancelled, and none
    is forgotten: while the queue holds events, its channel has the runner
    pending or exactly one thread has it to call. Threads that use other
    channels leave that of the queue alone. In each such state the runner
    returns the oldest event, and adding a new event, cancelling any queued
    one and flushing return without a failed assertion and leave the list as
    specified. After the excluded cancellation the runner can fail an
    assertion (cancel_in_flight_fails). *)
Theorem event_queue_in_order e0 e : qinitial e0 -> rtc qstep e0 e ->
  accepted e = ran e ++ todo e /\
  (todo e <> [] -> (in_flight e = 0%nat /\ has_event (e_s e) c /\ closure (chan (e_s e) c) = runner RUNNER (e_q e)) \/ (in_flight e = 1%nat /\ ~ has_event (e_s e) c)) /\
  (todo e = [] -> in_flight e = 0%nat /\ ~ has_event (e_s e) c) /\
  (in_flight e <> 0%nat -> exists x q n s, event_queue_runner RUNNER handle (e_q e) (e_n e) (e_s e) = Done (Some x, q, n, s) /\ head (todo e) = Some x /\ nrun n x.1 = true /\ evq q n (tail (todo e))) /\
  (forall a f, a <> 0 -> a ∉ nodes (todo e) -> exists q n s, event_queue_add RUNNER handle a f (e_q e) (e_n e) (e_s e) = Done (q, n, s) /\ evq q n (todo e ++ [(a, f)])) /\
  (forall a, a ∈ nodes (todo e) ->
    exists q n s, event_queue_cancel a (e_q e) (e_n e) (e_s e) = Done (SYS_ERR_OK, q, n, s) /\ evq q n (filter (fun x => x.1 <> a) (todo e))) /\
  (forall m, (length (todo e) < m)%nat -> exists q n s, event_queue_flush m (e_q e) (e_n e) (e_s e) = Done (SYS_ERR_OK, q, n, s) /\ evq q n []).
Proof.
  intros H0 Hs. pose proof (qreach_inv _ _ H0 Hs) as Hi. pose proof Hi as [H1 H2 H3 H4 H5 H6 H7]. split_and!; [done| | | | |by intros a; apply cancel_returns|by intros m; apply flush_returns].
  - intros Hne. unfold armed in H7. destruct (todo e); [done|]. destruct (decide (state (chan (e_s e) c) = CHAN_UNREGISTERED)) as [E|E].
    + right. split; [lia|]. unfold has_event. rewrite E. by intros [|].
    + left. destruct (H6 E). split_and!; [lia|done..].
  - intros Et. destruct (empty_todo e Hi Et) as (? & E & _). split; [done|]. unfold has_event. rewrite E. by intros [|].
  - intros Hne. destruct (in_flight e) as [|i] eqn:Ei; [done|]. destruct (run_ok e i Hi Ei) as (x & q & n & s & E & Eh & Hi'). exists x, q, n, s. split_and!; [done|done| |].
    + unfold event_queue_runner in E. returned E; try done; by injection E as <- <- <- _; cbn; rewrite fn_lookup_insert.
    + pose proof (qi_list _ Hi') as Hl. destruct (todo e) as [|y T] eqn:Et; [done|]. injection Eh as ->.
      assert (EH : accepted e = (ran e ++ [x]) ++ T) by (rewrite H3; by rewrite <- app_assoc). rewrite EH, todo_sys in Hl. exact Hl.
  - intros a f Ha Hn. destruct (add_ok e a f Hi Ha Hn) as (q & n & s & E & Hi'). exists q, n, s. split; [done|]. pose proof (qi_list _ Hi') as Hl. rewrite H3, <- app_assoc, todo_sys in Hl. exact Hl.
Qed.
End Continuous.

Module QueueSample.
Import WaitSample.

(** The queue of channel 100, and another channel. *)
Definition RUN : Z := 77.
Definition evq0 : event_queue := EventQueue 5000 1000 100 0 0 EVENT_QUEUE_CONTINUOUS.
Definition en0 : enodes := ENodes (Links (fun _ => 0) (fun _ => 0)) (fun _ => Closure 0 0) (fun _ => false).
Definition es0 : esys := ESys g0 evq0 en0 0 [] [].

Lemma es0_initial : qinitial two dispatcher channels home_ws 100 es0.
Proof. constructor; [apply g0_winitial|done|by exists 5000|done]. Qed.

#[local] Notation sample_qstep := (qstep two dispatcher channels 3 home_ws RUN 100).

Inductive qact := QAdd (a k : Z) | QCancel (a : Z) | QRun | QWait (x : wcall).

Definition qact_step (x : qact) (e : esys) : option esys :=
  match x with
  | QAdd a k =>
    if bool_decide (a <> 0 /\ a ∉ nodes (todo e)) then
      match event_queue_add RUN dispatcher a (Closure 9 k) (e_q e) (e_n e) (e_s e) with
      | Done (q, n, s) => Some (ESys (with_s s e) q n (in_flight e) (accepted e ++ [(a, Closure 9 k)]) (ran e)) | _ => None end
    else None
  | QCancel a =>
    if bool_decide (a ∈ nodes (todo e) /\ (nodes (todo e) = [a] -> in_flight e = 0%nat)) then
      match event_queue_cancel a (e_q e) (e_n e) (e_s e) with
      | Done (_, q, n, s) => Some (ESys (with_s s e) q n (in_flight e) (ran e ++ filter (fun x => x.1 <> a) (todo e)) (ran e)) | _ => None end
    else None
  | QRun =>
    match in_flight e, event_queue_runner RUN dispatcher (e_q e) (e_n e) (e_s e) with
    | S i, Done (x, q, n, s) => Some (ESys (with_s s e) q n i (accepted e) (ran e ++ option_list x)) | _, _ => None end
  | QWait x =>
    if mayb (e_g e) x && bool_decide (subject x <> Some 100) then
      match wexec two dispatcher channels 3 home_ws x (e_g e) with
      | Done g => Some (ESys g (e_q e) (e_n e) (in_flight e + taken_now 100 (e_s e) (wst g)) (accepted e) (ran e)) | _ => None end
    else None
  end.

Lemma qact_sound x e e' : qact_step x e = Some e' -> sample_qstep e e'.
Proof.
  destruct x as [a k|a| |x]; cbn [qact_step].
  - case_bool_decide as H; [|done]. destruct (event_queue_add _ _ _ _ _ _ _) as [[[q n] s]|] eqn:E; [|done]. intros [= <-]. destruct H as [Ha Hn]. by apply qstep_add.
  - case_bool_decide as H; [|done]. destruct (event_queue_cancel _ _ _ _) as [[[[er q] n] s]|] eqn:E; [|done]. intros [= <-]. destruct H as [Ha Hn]. by apply (qstep_cancel _ _ _ _ _ _ _ a er).
  - destruct (in_flight e) as [|i] eqn:Ei; [done|]. destruct (event_queue_runner _ _ _ _ _) as [[[[x q] n] s]|] eqn:E; [|done]. intros [= <-]. by apply (qstep_run _ _ _ _ _ _ _ i x).
  - destruct (mayb _ _ && _) eqn:Em; [|done]. apply andb_true_iff in Em as [Em Hs%bool_decide_eq_true]. destruct (wexec _ _ _ _ _ _ _) as [g|] eqn:E; [|done]. intros [= <-].
    apply qstep_other. apply (elsewhere_call _ _ _ _ _ _ x); [by apply mayb_may|done|done].
Qed.

Fixpoint qacts (l : list qact) (e : esys) : option esys := match l with [] => Some e | a :: l => match qact_step a e with Some e' => qacts l e' | None => None end end.
Definition qreached (l : list qact) : esys := default es0 (qacts l es0).

Lemma qreached_rtc l : bool_decide (is_Some (qacts l es0)) = true -> rtc sample_qstep es0 (qreached l).
Proof.
  intros [e E]%bool_decide_eq_true. unfold qreached. rewrite E. cbn [default from_option id]. revert E. generalize es0. induction l as [|a l IH]; intros q E; cbn [qacts] in E; [by injection E as <-|].
  destruct (qact_step a q) as [q1|] eqn:E1; [|done]. apply (rtc_l _ _ q1); [by apply (qact_sound a)|by apply IH].
Qed.

(** Three events are added and one is cancelled; a thread receives the runner
    and calls it, and another one receives it. *)
Definition some_work : list qact := [QAdd 6000 1; QAdd 6100 2; QAdd 6200 3; QCancel 6100; QWait (NextEvent 1000 0); QRun; QWait (NextEvent 1000 0)].

Lemma event_queue_in_order_witness :
  ran (qreached some_work) = [(6000, Closure 9 1)] /\
  exists q n s, event_queue_runner RUN dispatcher (e_q (qreached some_work)) (e_n (qreached some_work)) (e_s (qreached some_work)) = Done (Some (6200, Closure 9 3), q, n, s) /\ q_head q = 0.
Proof.
  destruct (event_queue_in_order two two_bound two_page dispatcher channels channels_nonnull 3 channels_fuel home_ws home_nonnull RUN 100 ltac:(vm_decide) es0 (qreached some_work) es0_initial (qreached_rtc some_work ltac:(by vm_compute)))
    as (_ & _ & _ & H & _).
  split; [vm_eq|]. destruct H as (x & q & n & s & E & Hh & _ & Hl); [vm_decide|]. assert (Et : todo (qreached some_work) = [(6200, Closure 9 3)]) by vm_eq. rewrite Et in Hh, Hl. injection Hh as <-.
  exists q, n, s. split; [exact E|]. by apply evq_empty in Hl as [? _].
Defined.

(** ** What goes wrong *)

(** A thread has received the runner when the only event is cancelled, and two
    events are added before the thread calls it: the second trigger of the
    channel fails, and with it an assertion. *)
Lemma cancel_in_flight_fails :
  let e := qreached [QAdd 6000 1; QWait (NextEvent 1000 0)] in
  match event_queue_cancel 6000 (e_q e) (e_n e) (e_s e) with
  | Done (_, q, n, s) =>
    match event_queue_add RUN dispatcher 6100 (Closure 9 2) q n s with
    | Done (q, n, s) =>
      match event_queue_add RUN dispatcher 6200 (Closure 9 3) q n s with
      | Done (q, n, s) => match event_queue_runner RUN dispatcher q n s with Fault x => Some x | Done _ => None end
      | Fault _ => None end
    | Fault _ => None end
  | Fault _ => None
  end = Some AssertionFailed.
Proof. cbv zeta. vm_eq. Qed.
End QueueSample.
