(* ===== verification/EventMutexCorrect.v ===== *)
(** Correctness of the mutexes of EventQueue.v: one holder at a time, waiting
    threads first, each kind in the order of the requests. *)
From S2P Require Import Prelude Ring Chain Threads ThreadsCorrect Waitset WaitsetQueues WaitsetCorrect WaitsetEvents WaitsetFire WaitsetChan EventQueue EventQueueCorrect.

(** The thread that is woken finds the reason. *)
Lemma unblock_reason handle q reason s r x : thread_unblock_one_disabled handle q reason s = Done (r, x) -> queues s q <> 0 -> wakeup_reason (thr x (queues s q)) = reason.
Proof.
  intros H Hq. unfold thread_unblock_one_disabled in H. returned H; [by apply Z.eqb_eq in Heqb|..].
  all: assert (Ew : z = queues s q) by (unfold thread_dequeue in E; returned E; by injection E as <- _ _). all: injection H as _ <-; rewrite <- Ew; cbn; by rewrite !fn_lookup_insert.
Qed.

Section Mutex.
Context (all : list Z) (Hbound : (length all < MAX_THREADS)%nat) (Hpage : Forall (fun t => BASE_PAGE_SIZE < t) all) (handle : Z).
Context (chans : list Z) (Hnull : 0 ∉ chans) (fuel : nat) (Hfuel : (length chans < fuel)%nat).
Context (home : Z -> Z) (Hhome : forall c, c ∈ chans -> home c <> 0).
(** The channel and the queue of threads of the mutex. *)
Context (RUNNER c tq : Z) (Hc : c ∈ chans) (Htq : forall x, x ∈ chans -> home x <> tq).

#[local] Notation wrep := (wrep all handle chans home).

(** Nobody, some code that runs, or an event that was not received yet. *)
Inductive holder := Free | Held | Granted (x : Z * event_closure).

(** [T] are the threads that wait, [L] the events that wait. *)
Record emrep (T : list Z) (L : list (Z * event_closure)) (h : holder) (m : event_mutex) (n : enodes) (s : wstate) : Prop := {
  em_wait : exists R Q C P, wrep R Q C P s /\ Q tq = T;
  em_events : evq (em_queue m) n L;
  em_fixed : em_tqueue m = tq /\ q_waitset (em_queue m) = home c /\ q_chan (em_queue m) = c /\ q_mode (em_queue m) = EVENT_QUEUE_ONESHOT;
  em_flag : em_locked m = match h with Free => false | _ => true end;
  em_idle : h = Free -> T = [] /\ L = [];
  em_once : persistent (chan s c) = false;
  em_chan : match h with Granted x => has_event s c /\ closure (chan s c) = x.2 | _ => state (chan s c) = CHAN_UNREGISTERED end
}.

Lemma wrep_unblock R Q C P s x q t l : wrep R Q C P s -> Q q = t :: l -> trep all handle (R ++ [t]) (<[q := l]> Q) x -> polled_channels x = polled_channels (wt s) ->
  wrep (R ++ [t]) (<[q := l]> Q) C P (with_wt x s).
Proof. intros [W1 [W2 W2'] W3 W4 W5 W6 W7] E Hx Hp. constructor; try done. cbn [with_wt wt pl]. by rewrite Hp. Qed.

Lemma emrep_queue T L h m n s : emrep T L h m n s -> (queues (wt s) tq =? 0) = bool_decide (T = []).
Proof.
  intros [(R & Q & C & P & Hw & HQ) _ _ _ _ _ _]. destruct (tr_queue _ _ _ _ _ (wr_threads _ _ _ _ _ _ _ _ _ Hw) tq) as [Hr Hs]. rewrite HQ in Hr, Hs. rewrite (ring_head _ _ _ Hr).
  destruct T as [|t T]; [done|]. pose proof (all_nonnull all Hpage t (Hs t ltac:(left))). cbn. by zdecide.
Qed.

(** The mutex is requested with an event. *)
Lemma enqueue_lock_ok T L h m n s a f : emrep T L h m n s -> a <> 0 -> a ∉ L.*1 ->
  exists b m' n', event_mutex_enqueue_lock RUNNER handle a f m n s = Done (b, m', n', s) /\
    match h with Free => b = true /\ emrep [] [] Held m' n' s | _ => b = false /\ emrep T (L ++ [(a, f)]) h m' n' s end.
Proof.
  intros [H1 H2 (F1 & F2 & F3 & F4) H3 H4 H5 H6] H0 Ha. unfold event_mutex_enqueue_lock. rewrite H3. destruct (add_spec RUNNER handle _ _ _ a f s H2 Ha H0) as (q & n' & Hl & Hq & E).
  assert (E' : event_queue_add RUNNER handle a f (em_queue m) n s = Done (q, n', s)) by (rewrite E; destruct L; [|done]; unfold arms; rewrite F4; done).
  assert (Fq : q_waitset q = home c /\ q_chan q = c /\ q_mode q = EVENT_QUEUE_ONESHOT) by (by rewrite Hq). destruct h as [| |x]; cbn [negb].
  - destruct (H4 eq_refl) as [-> ->]. eexists _, _, _. split; [done|]. split; [done|]. by constructor.
  - rewrite E'. cbn [mbind outcome_bind]. eexists _, _, _. split; [done|]. split; [done|]. by constructor.
  - rewrite E'. cbn [mbind outcome_bind]. eexists _, _, _. split; [done|]. split; [done|]. by constructor.
Qed.

(** A thread requests it. *)
Lemma threaded_lock_ok T L h m n s : emrep T L h m n s -> current (wt s) <> 0 ->
  exists b m' s', event_mutex_threaded_lock m s = Done (b, m', s') /\
    match h with Free => b = true /\ s' = s /\ emrep [] [] Held m' n s' | _ => b = false /\ emrep (T ++ [current (wt s)]) L h m' n s' end.
Proof.
  intros [(R & Q & C & P & Hw & HQ) H2 (F1 & F2 & F3 & F4) H3 H4 H5 H6] Hcu. unfold event_mutex_threaded_lock. rewrite H3, F1. destruct (tr_current _ _ _ _ _ (wr_threads _ _ _ _ _ _ _ _ _ Hw)) as [|Hin]; [done|].
  apply list_elem_of_split in Hin as (r1 & r2 & ER). destruct (block_rep all Hbound Hpage handle R Q r1 r2 tq _ (wr_threads _ _ _ _ _ _ _ _ _ Hw) Hcu ER) as (x & E & Hx & _ & Hp).
  assert (Hblock : wrep (r1 ++ r2) (<[tq := Q tq ++ [current (wt s)]]> Q) C P (with_wt x s)).
  { destruct Hw as [W1 [W2 W2'] W3 W4 W5 W6 W7]. constructor; try done. cbn [with_wt wt pl]. by rewrite Hp. }
  assert (Hw' : exists R' Q' C' P', wrep R' Q' C' P' (with_wt x s) /\ Q' tq = T ++ [current (wt s)]) by (eexists _, _, _, _; split; [done|]; by rewrite fn_lookup_insert, HQ).
  destruct h as [| |y]; cbn [negb].
  - destruct (H4 eq_refl) as [-> ->]. eexists _, _, _. split; [done|]. split_and!; [done|done|]. constructor; try done. by eexists _, _, _, _.
  - rewrite E. cbn [mbind outcome_bind]. eexists _, _, _. split; [done|]. split; [done|]. by constructor.
  - rewrite E. cbn [mbind outcome_bind]. eexists _, _, _. split; [done|]. split; [done|]. by constructor.
Qed.

(** The event that holds the mutex is received. *)
Lemma granted_taken T L x m n s s' : emrep T L (Granted x) m n s -> given c s s' -> (exists R Q C P, wrep R Q C P s' /\ Q tq = T) -> emrep T L Held m n s'.
Proof. intros [_ H2 F H3 _ H5 _] (_ & Ep & _ & Es) Hw. constructor; [done..|by rewrite Ep|by apply Es]. Qed.

(** Unlocking never fails an assertion.  The mutex goes to the thread that
    waits longest, which finds the reason for its wakeup that it expects; if
    none waits, to the event that waits longest, whose closure the channel now
    has; else it is free. *)
Theorem event_mutex_unlock_grants T L m n s : emrep T L Held m n s ->
  exists m' n' s', event_mutex_unlock handle m n s = Done (m', n', s') /\
    match T, L with
    | t :: T', _ => emrep T' L Held m' n' s' /\ event_mutex_threaded_resume t m' s' = Done tt
    | [], x :: L' => emrep [] L' (Granted x) m' n' s'
    | [], [] => emrep [] [] Free m' n' s'
    end.
Proof.
  intros Hm. pose proof (emrep_queue _ _ _ _ _ _ Hm) as Hqu. destruct Hm as [(R & Q & C & P & Hw & HQ) H2 (F1 & F2 & F3 & F4) H3 H4 H5 H6]. unfold event_mutex_unlock. rewrite H3, F1, Hqu. cbn [assert mbind outcome_bind].
  pose proof (wr_threads _ _ _ _ _ _ _ _ _ Hw) as Ht. destruct T as [|t T]; cbn [bool_decide decide_rel negb].
  - unfold event_queue_trigger. rewrite F4. cbn [bool_decide decide_rel assert mbind outcome_bind]. rewrite bool_decide_true by done. cbn [negb mbind outcome_bind assert]. destruct L as [|[a f] L].
    + rewrite next_event_empty by done. cbn [mbind outcome_bind Z.eqb]. change (err_is_ok (err LIB_ERR_EVENT_QUEUE_EMPTY)) with false. cbn [assert mbind outcome_bind]. rewrite bool_decide_true by done. cbn [assert mbind outcome_bind].
      eexists _, _, _. split; [done|]. constructor; try done. by eexists _, _, _, _.
    + destruct (next_event_cons _ _ _ _ _ H2) as (q & n' & -> & Hl & Hq & En & Er & _ & Ef & _ & Hnot). destruct (evq_nonempty _ _ _ _ _ H2) as [Ha _]. cbn [mbind outcome_bind]. zdecide.
      assert (Fq : q_waitset q = home c /\ q_chan q = c /\ q_mode q = EVENT_QUEUE_ONESHOT) by (by rewrite Hq). destruct Fq as (Fq1 & Fq2 & Fq3). rewrite Fq1, Fq2. cbn [set_nrun nevent]. rewrite En, Ef.
      destruct (trigger_closure_ok all Hbound Hpage handle chans Hnull fuel Hfuel home Hhome R Q C P s c f Hw Hc H6) as (s' & R' & Q' & E & Hw' & Hwo & _). pose proof (trigger_closure_self _ _ _ _ _ _ E) as Ec. rewrite E. cbn [mbind outcome_bind].
      change (err_is_ok SYS_ERR_OK) with true. cbn iota. eexists _, _, _. split; [done|]. constructor; cbn [set_emutex em_queue em_tqueue em_locked]; try done.
      * eexists _, _, _, _. split; [done|]. rewrite <- HQ. apply (wk_other _ _ _ _ _ Hwo). intros E0. by apply (Htq c Hc).
      * destruct Hl as [L1 L2 L3]. constructor; [done|done|]. intros b g Hb. cbn [set_nrun nrun nevent]. rewrite fn_lookup_insert_ne; [by apply L3|]. intros ->. apply Hnot, list_elem_of_fmap. by exists (b, g).
      * by rewrite Ec.
      * unfold has_event. rewrite Ec. split; [by left|done].
  - rewrite bool_decide_false by done. cbn [negb]. destruct (unblock_one_rep all Hbound Hpage handle R Q tq t T (em_addr m) (wt s) Ht HQ) as (x & E & Hx & _ & Hp). rewrite E. cbn [mbind outcome_bind].
    eexists _, _, _. split; [done|]. split.
    + constructor; try done. eexists _, _, _, _. split; [by eapply wrep_unblock|]. by rewrite fn_lookup_insert.
    + unfold event_mutex_threaded_resume. cbn [with_wt wt]. pose proof (tr_queue _ _ _ _ _ Ht tq) as [Hring _]. rewrite HQ in Hring. pose proof (ring_head _ _ _ Hring) as Eh. cbn in Eh.
      rewrite <- Eh, (unblock_reason _ _ _ _ _ _ E), Z.eqb_refl, H3; [done|]. rewrite Eh. intros ->. apply (ring_nonnull _ _ _ Hring). left.
Qed.
End Mutex.

Module MutexSample.
Import WaitSample QueueSample.

(** A mutex whose events come through channel 100. *)
Definition em0 : event_mutex * wstate := event_mutex_init 7000 5000 100 7100 1000 w0.

Lemma em0_emrep : emrep two dispatcher channels home_ws 100 7100 [] [] Free em0.1 en0 em0.2.
Proof.
  destruct (winitial_good two dispatcher channels home_ws g0 g0_winitial) as (R & Q & C & P & [Hw _ Hb _ _]).
  assert (HQ : forall q, Q q = []). { intros q. destruct (Q q) as [|t l] eqn:E; [done|]. destruct (Hb q t ltac:(rewrite E; left)) as [wf Hi]. done. }
  constructor; try done; [|by apply evq_empty]. exists R, Q, C, P. split; [|by apply HQ].
  destruct Hw as [[T1 T2 T3 T4 T5 T6 T7 T8 T9 T10] [W2 W2'] W3 W4 W5 W6 W7]. assert (Hcl : forall x, nxt (cl em0.2) x = 0 /\ prv (cl em0.2) x = 0) by (intros x; cbn; unfold insert, fn_insert; by repeat case_decide).
  assert (HC : forall ws st, C ws st = []). { intros ws st. pose proof (W2 ws st) as Hr. cbn in Hr. apply ring_head in Hr. destruct (C ws st) as [|x l] eqn:E; [done|]. cbn in Hr. destruct (W3 ws st x) as [Hx _]. rewrite E in Hx. destruct (Hx ltac:(left)) as (_ & _ & E1 & E2). by cbn in E1. }
  assert (HP : P = []). { destruct P as [|x l] eqn:E; [done|]. destruct (W7 x) as [Hx _]. destruct (Hx ltac:(left)) as [_ E1]. by cbn in E1. } subst P.
  constructor.
  - constructor; try done. intros q. rewrite HQ. split; [|by intros t ?%elem_of_nil]. apply ring_empty. cbn. unfold insert, fn_insert. by case_decide.
  - constructor; [intros ws st; rewrite HC; by apply ring_empty|]. intros ws st ws' st' x. rewrite HC. by intros ?%elem_of_nil.
  - intros ws st x. rewrite HC. split; [by intros ?%elem_of_nil|]. intros (_ & _ & E & Hne). exfalso. apply Hne. rewrite <- E. cbn. unfold insert, fn_insert. by case_decide.
  - intros x _. cbn. unfold insert, fn_insert. by repeat case_decide.
  - intros x _ _. apply Hcl.
  - by apply ring_empty.
  - intros x. split; [by intros ?%elem_of_nil|]. intros [_ E]. exfalso. revert E. cbn. unfold insert, fn_insert. by case_decide.
Qed.

(** An event gets the mutex, a thread and another event wait; who has it after
    each of three unlocks. *)
Lemma mutex_run :
  match event_mutex_enqueue_lock RUN dispatcher 6000 (Closure 9 1) em0.1 en0 em0.2 with
  | Done (b1, m, n, s) =>
    match event_mutex_enqueue_lock RUN dispatcher 6100 (Closure 9 2) m n s with
    | Done (b2, m, n, s) =>
      match event_mutex_threaded_lock m s with
      | Done (b3, m, s) =>
        match event_mutex_unlock dispatcher m n s with
        | Done (m1, n, s1) =>
          match event_mutex_unlock dispatcher m1 n s1 with
          | Done (m2, n, s2) => Some (b1, b2, b3, (em_locked m1, wakeup_reason (thr (wt s1) 8192), state (chan s1 100)), (em_locked m2, closure (chan s2 100), state (chan s2 100)))
          | _ => None end
        | _ => None end
      | _ => None end
    | _ => None end
  | _ => None
  end = Some (true, false, false, (true, 7000, CHAN_UNREGISTERED), (true, Closure 9 2, CHAN_PENDING)).
Proof. vm_eq. Qed.
End MutexSample.
