(* ===== verification/LmpPoll.v ===== *)
(** The endpoints of a dispatcher that wait for messages: registration with a
    waitset and the list of endpoints to poll (lib/aos/lmp_endpoints.c).

    An endpoint and the channel state inside of it have the same name here.
    The kernel does not deliver messages in the middle of a poll. *)
From S2P Require Import Prelude Ring Threads Waitset Lmp.

Definition DISPATCHER_FRAME_BITS : Z := 18.

Record eps_state := EpsState {
  ews : wstate;
  el : links;                             (** [next] and [prev] of endpoints *)
  lmp_poll_list : Z;
  ek : Z -> lmp_endpoint_kern;            (** the buffers *)
  ebuflen : Z -> Z;
  seen : Z -> Z;
  disp_delivered : Z; disp_seen : Z; disp_hint : Z   (** of the dispatcher *)
}.

Definition with_ews (x : wstate) (p : eps_state) : eps_state :=
  EpsState x (el p) (lmp_poll_list p) (ek p) (ebuflen p) (seen p) (disp_delivered p) (disp_seen p) (disp_hint p).
Definition set_list (h : Z) (k : links) (p : eps_state) : eps_state :=
  EpsState (ews p) k h (ek p) (ebuflen p) (seen p) (disp_delivered p) (disp_seen p) (disp_hint p).
Definition set_seen (e x : Z) (p : eps_state) : eps_state :=
  EpsState (ews p) (el p) (lmp_poll_list p) (ek p) (ebuflen p) (<[e := x]> (seen p)) (disp_delivered p) (disp_seen p) (disp_hint p).
Definition set_disp_seen (x : Z) (p : eps_state) : eps_state :=
  EpsState (ews p) (el p) (lmp_poll_list p) (ek p) (ebuflen p) (seen p) (disp_delivered p) x (disp_hint p).
Definition set_hint (x : Z) (p : eps_state) : eps_state :=
  EpsState (ews p) (el p) (lmp_poll_list p) (ek p) (ebuflen p) (seen p) (disp_delivered p) (disp_seen p) x.

Section Poll.
Context (handle offsetof_k : Z) (fuel : nat).

(** Counting what was not seen yet. *)
Definition see (e : Z) (p : eps_state) : eps_state :=
  let '(n, x) := lmp_endpoint_words_unseen (ebuflen p e) (seen p e) (ek p e) in
  set_disp_seen (u32 (disp_seen p + n)) (set_seen e x p).

(** The links of an endpoint that is taken off the list are left as they
    are. *)
Definition remove_from_poll_list (e : Z) (p : eps_state) : outcome eps_state :=
  let k := el p in
  if nxt k e =? e then
    ASSERT prv k e =? e;
    ASSERT lmp_poll_list p =? e;
    Done (set_list 0 k p)
  else
    _ ← nonnull (prv k e);
    let k := set_nxt (prv k e) (nxt k e) k in
    _ ← nonnull (nxt k e);
    let k := set_prv (nxt k e) (prv k e) k in
    Done (set_list (if lmp_poll_list p =? e then nxt k e else lmp_poll_list p) k p).

Definition trigger (e : Z) (p : eps_state) : outcome eps_state :=
  '(ev, s) ← waitset_chan_trigger_disabled handle e (ews p);
  ASSERT err_is_ok ev;
  Done (with_ews s p).

Fixpoint poll_endpoints (rounds : nat) (e : Z) (p : eps_state) : outcome eps_state :=
  match rounds with
  | O => Fault OutOfFuel
  | S rounds =>
    if e =? 0 then Done p else
    let nextep := nxt (el p) e in
    let firstep := lmp_poll_list p in
    if lmp_endpoint_can_recv (ek p e) then
      p ← trigger e p;
      let p := see e p in
      let last := nxt (el p) e =? e in
      p ← remove_from_poll_list e p;
      if last then Done p else if nextep =? firstep then Done p else poll_endpoints rounds nextep p
    else if nextep =? firstep then Done p else poll_endpoints rounds nextep p
  end.

Definition poll_hint (p : eps_state) : outcome eps_state :=
  if disp_hint p =? 0 then Done p else
  ASSERT disp_hint p <? 2 ^ DISPATCHER_FRAME_BITS;
  let e := u32 (handle + disp_hint p - offsetof_k) in
  let p := set_hint 0 p in
  if lmp_endpoint_can_recv (ek p e) && waitset_chan_is_registered e (ews p) && bool_decide (state (chan (ews p) e) = CHAN_IDLE) then
    let p := see e p in
    ASSERT negb (nxt (el p) e =? 0) && negb (prv (el p) e =? 0);
    p ← trigger e p;
    remove_from_poll_list e p
  else Done p.

Definition lmp_endpoints_poll_disabled (p : eps_state) : outcome eps_state :=
  let lmp_delivered := disp_delivered p in
  p ← poll_hint p;
  if disp_seen p =? lmp_delivered then Done p else
  p ← poll_endpoints fuel (lmp_poll_list p) p;
  Done (set_disp_seen lmp_delivered p).

Definition lmp_endpoint_register (e ws : Z) (f : event_closure) (p : eps_state) : outcome (errval * eps_state) :=
  let p := set_seen e (delivered (ek p e)) p in
  if lmp_endpoint_can_recv (ek p e) then
    '(ev, s) ← waitset_chan_trigger_closure_disabled handle ws e f (ews p);
    Done (ev, with_ews s p)
  else
    '(ev, s) ← waitset_chan_register_disabled ws e f (ews p);
    let p := with_ews s p in
    if err_is_ok ev then
      if lmp_poll_list p =? 0 then Done (ev, set_list e (set_nxt e e (set_prv e e (el p))) p) else
      let k := set_nxt e (lmp_poll_list p) (el p) in
      let k := set_prv e (prv k (nxt k e)) k in
      let k := set_prv (nxt k e) e k in
      _ ← nonnull (prv k e);
      Done (ev, set_list e (set_nxt (prv k e) e k) p)
    else Done (ev, p).

Definition lmp_endpoint_deregister (e : Z) (p : eps_state) : outcome (errval * eps_state) :=
  '(ev, s) ← waitset_chan_deregister_disabled e (ews p);
  let p := with_ews s p in
  if err_is_ok ev then p ← remove_from_poll_list e p; Done (ev, p) else Done (ev, p).
End Poll.
