(* ===== verification/LmpPollCorrect.v ===== *)
(** Correctness of LmpPoll.v: a poll finds every endpoint with a message. *)
From S2P Require Import Prelude MdbTree Hamlet MdbRel Caps CapDelete Lmp LmpCorrect Ring Threads ThreadsCorrect Waitset WaitsetQueues WaitsetCorrect WaitsetEvents WaitsetFire LmpPoll.

(** * The list of endpoints *)

(** [remove_from_poll_list] is the removal of Ring.v up to the links of the
    removed endpoint. *)
Lemma remove_ring e p l1 l2 : ring (el p) (lmp_poll_list p) (l1 ++ e :: l2) ->
  exists h k, (forall q, lmp_poll_list q = lmp_poll_list p -> el q = el p -> remove_from_poll_list e q = Done (set_list h k q)) /\ ring k h (l1 ++ l2).
Proof.
  intros Hr. destruct (dequeue_ring _ _ _ _ _ Hr) as (h & k & E & Hr' & _). pose proof (nodup_middle _ _ _ (ring_nodup _ _ _ Hr)) as Hn.
  assert (Hclear : forall k0, k = set_nxt e 0 (set_prv e 0 k0) -> ring k0 h (l1 ++ l2)).
  { intros k0 ->. eapply ring_frame; [exact Hr'|]. intros a Ha. assert (a <> e) by congruence. by flookup. }
  unfold dequeue in E. destruct (nxt (el p) e =? e) eqn:E1.
  - destruct (prv (el p) e =? e) eqn:E2; [|done]. cbn [assert mbind outcome_bind] in *. destruct (lmp_poll_list p =? e) eqn:E3; [|done]. cbn [assert mbind outcome_bind] in *. injection E as <- <-.
    exists 0, (el p). split; [|by apply Hclear]. intros q Hq1 Hq2. unfold remove_from_poll_list. by rewrite Hq1, Hq2, E1, E2, E3.
  - destruct (nonnull (prv (el p) e)) as [[]|] eqn:E2; [|done]. cbn [mbind outcome_bind] in *. destruct (nonnull (nxt _ e)) as [[]|] eqn:E3; [|done]. cbn [mbind outcome_bind] in *. injection E as <- <-.
    eexists _, _. split; [|by apply Hclear]. intros q Hq1 Hq2. unfold remove_from_poll_list. rewrite Hq1, Hq2, E1, E2. cbn [mbind outcome_bind]. by rewrite E3.
Qed.

(** * Words that were not seen *)

Lemma unseen_spec n k q : holds n k q -> lmp_endpoint_words_unseen n (consumed k) k = (used_words q, delivered k).
Proof.
  intros [H1 H2 H3 H4 H5 H6]. unfold lmp_endpoint_words_unseen, used_words. f_equal. set (len := Z.of_nat (length (q ≫= encode))) in *. assert (0 <= len) by lia.
  rewrite H4. destruct (Z.lt_ge_cases (consumed k + len) n).
  - rewrite Z.mod_small by lia. destruct (Z.leb_spec (consumed k) (consumed k + len)); [|lia]. rewrite u32_small by lia. lia.
  - replace ((consumed k + len) `mod` n) with (consumed k + len - n) by (apply (Z.mod_unique _ _ 1); lia).
    destruct (Z.leb_spec (consumed k) (consumed k + len - n)); [lia|]. rewrite (u32_small (n - consumed k)), u32_small by lia. lia.
Qed.

Lemma can_recv_spec n k q : holds n k q -> lmp_endpoint_can_recv k = negb (bool_decide (q = [])).
Proof.
  intros [H1 H2 H3 H4 H5 H6]. unfold lmp_endpoint_can_recv. rewrite H4. destruct q as [|m q].
  - cbn. rewrite Z.add_0_r, Z.mod_small by lia. by rewrite Z.eqb_refl.
  - rewrite bool_decide_false by done. cbn [negb]. set (len := Z.of_nat (length ((m :: q) ≫= encode))) in *. assert (0 < len) by (unfold len; cbn; lia).
    destruct (Z.eqb_spec ((consumed k + len) `mod` n) (consumed k)) as [E|]; [|done]. exfalso. destruct (Z.lt_ge_cases (consumed k + len) n).
    + rewrite Z.mod_small in E by lia. lia.
    + replace ((consumed k + len) `mod` n) with (consumed k + len - n) in E by (apply (Z.mod_unique _ _ 1); lia). lia.
Qed.

Lemma used_nonneg q : 0 <= used_words q.
Proof. unfold used_words. lia. Qed.
Lemma used_zero q : used_words q = 0 -> q = [].
Proof. destruct q as [|m q]; [done|]. unfold used_words. cbn. lia. Qed.

(** Unseen words of the endpoints on the list. *)
Definition total (M : Z -> list lmp_recv_msg) (l : list Z) : Z := foldr Z.add 0 ((fun e => used_words (M e)) <$> l).

Lemma total_app M l1 l2 : total M (l1 ++ l2) = total M l1 + total M l2.
Proof. unfold total. induction l1 as [|e l1 IH]; cbn in *; lia. Qed.
Lemma total_nonneg M l : 0 <= total M l.
Proof. unfold total. induction l as [|e l IH]; cbn in *; [lia|]. pose proof (used_nonneg (M e)). lia. Qed.
Lemma total_zero M l : total M l = 0 -> Forall (fun e => M e = []) l.
Proof.
  induction l as [|e l IH]; [constructor|]. unfold total. cbn. fold (total M l). intros H. pose proof (used_nonneg (M e)). pose proof (total_nonneg M l).
  constructor; [apply used_zero; lia|apply IH; lia].
Qed.

(** What a poll leaves of the buffers. *)
Definition same_buffers (p p' : eps_state) : Prop := ek p' = ek p /\ ebuflen p' = ebuflen p /\ disp_delivered p' = disp_delivered p.

Lemma same_buffers_trans p1 p2 p3 : same_buffers p1 p2 -> same_buffers p2 p3 -> same_buffers p1 p3.
Proof. intros (A1 & A2 & A3) (B1 & B2 & B3). repeat split; congruence. Qed.

Lemma u32_shift a u D : u32 (u32 (a + u) + (D - u)) = u32 (a + D).
Proof. unfold u32, wrap. rewrite Zplus_mod_idemp_l. f_equal. lia. Qed.

(** The endpoints of a list with and without messages. *)
Definition with_msgs (M : Z -> list lmp_recv_msg) (l : list Z) : list Z := filter (fun e => M e <> []) l.
Definition without_msgs (M : Z -> list lmp_recv_msg) (l : list Z) : list Z := filter (fun e => M e = []) l.

Lemma without_all M l : Forall (fun e => M e = []) l -> without_msgs M l = l /\ with_msgs M l = [].
Proof.
  unfold without_msgs, with_msgs. induction 1 as [|e l He _ [IH1 IH2]]; [done|]. rewrite !filter_cons, IH1, IH2. destruct (decide (M e = [])), (decide (M e <> [])); done.
Qed.
Lemma msgs_cons M e l : (M e = [] /\ without_msgs M (e :: l) = e :: without_msgs M l /\ with_msgs M (e :: l) = with_msgs M l) \/
  (M e <> [] /\ without_msgs M (e :: l) = without_msgs M l /\ with_msgs M (e :: l) = e :: with_msgs M l).
Proof. unfold without_msgs, with_msgs. rewrite !filter_cons. destruct (decide (M e = [])) as [E|E], (decide (M e <> [])) as [E'|E']; tauto. Qed.
Lemma total_without M l : total M (without_msgs M l) = 0.
Proof. induction l as [|e l IH]; [done|]. destruct (msgs_cons M e l) as [(E & -> & _)|(_ & -> & _)]; [|done]. unfold total in *. cbn. by rewrite IH, E. Qed.

Lemma total_insert M e q L : NoDup L -> used_words (M e) <= used_words q -> total (<[e := q]> M) L <= total M L + (used_words q - used_words (M e)).
Proof.
  intros Hn Hq. induction L as [|x L IH]; [unfold total; cbn; lia|]. apply NoDup_cons in Hn as [Hx Hn]. specialize (IH Hn). unfold total in *. cbn in *. destruct (decide (x = e)) as [->|Hne].
  - rewrite fn_lookup_insert. assert (E : (fun e0 => used_words (<[e := q]> M e0)) <$> L = (fun e0 => used_words (M e0)) <$> L); [|rewrite E; lia].
    apply list_fmap_ext. intros i y Hy. by rewrite fn_lookup_insert_ne by (intros ->; apply list_elem_of_lookup_2 in Hy; by apply Hx).
  - rewrite fn_lookup_insert_ne by done. lia.
Qed.

Lemma used_snoc q m : used_words (q ++ [m]) = used_words q + (Z.of_nat (length (words m)) + 1).
Proof. unfold used_words. rewrite bind_app, length_app. cbn. rewrite app_nil_r. lia. Qed.

(** Counts that agree leave nothing open. *)
Lemma counts_agree a D : 0 <= a < 2 ^ 32 -> 0 <= D < 2 ^ 32 -> a = u32 (a + D) -> D = 0.
Proof.
  intros Ha HD E. destruct (Z.lt_ge_cases (a + D) (2 ^ 32)); [rewrite u32_small in E by lia; lia|].
  unfold u32, wrap in E. rewrite <- (Z.mod_unique (a + D) (2 ^ 32) 1 (a + D - 2 ^ 32)) in E by lia. lia.
Qed.

Section Poll.
Context (all : list Z) (Hbound : (length all < MAX_THREADS)%nat) (Hpage : Forall (fun t => BASE_PAGE_SIZE < t) all) (handle offsetof_k : Z).
Context (chans : list Z) (Hnull : 0 ∉ chans) (fuel : nat) (Hfuel : (length chans < fuel)%nat).
Context (home : Z -> Z) (Hhome : forall c, c ∈ chans -> home c <> 0).
(** The channels that belong to endpoints. *)
Context (eps : list Z) (Heps : eps ⊆ chans).

#[local] Notation wrep := (wrep all handle chans home).

(** [M] are the messages in the buffers, [L] the endpoints to poll, [D] the
    words that the dispatcher did not account for.  An endpoint on the list
    is idle and no message was taken from it since it was put there. *)
Record prep (R : list Z) (Q : Z -> list Z) (C : Z -> ws_chanstate -> list Z) (P : list Z) (M : Z -> list lmp_recv_msg) (L : list Z) (D : Z) (p : eps_state) : Prop := {
  pr_wait : wrep R Q C P (ews p);
  pr_list : ring (el p) (lmp_poll_list p) L;
  pr_idle : forall e, e ∈ L <-> e ∈ eps /\ state (chan (ews p) e) = CHAN_IDLE;
  pr_buffers : forall e, e ∈ eps -> holds (ebuflen p e) (ek p e) (M e);
  pr_seen : forall e, e ∈ L -> seen p e = consumed (ek p e);
  pr_total : total M L <= D < 2 ^ 32;
  pr_delivered : disp_delivered p = u32 (disp_seen p + D);
  pr_range : 0 <= disp_seen p < 2 ^ 32
}.

(** An endpoint with a message is triggered and taken off the list. *)
Lemma handle_ep R Q C P M l1 e l2 D p : prep R Q C P M (l1 ++ e :: l2) D p ->
  exists s h k R' Q' C' P', (forall q, ews q = ews p -> trigger handle e q = Done (with_ews s q)) /\
    (forall q, lmp_poll_list q = lmp_poll_list p -> el q = el p -> remove_from_poll_list e q = Done (set_list h k q)) /\
    prep R' Q' C' P' M (l1 ++ l2) (D - used_words (M e)) (set_list h k (with_ews s (see e p))) /\ fired home [e] R Q (ews p) R' Q' s.
Proof.
  intros [H1 H2 H3 H4 H5 H6 H7 H8]. assert (He : e ∈ l1 ++ e :: l2) by (apply elem_of_app; right; left). pose proof (proj1 (H3 e) He) as [Hee Hei].
  destruct (fire_one all Hbound Hpage handle chans Hnull fuel Hfuel home Hhome R Q C P _ e H1 (Heps _ Hee) Hei) as (s & R' & Q' & C' & P' & E & Hw & Hf).
  destruct (remove_ring e p l1 l2 H2) as (h & k & Er & Hr). exists s, h, k, R', Q', C', P'. split_and!; [intros q Eq; unfold trigger; by rewrite Eq, E|exact Er| |done].
  pose proof (nodup_middle _ _ _ (ring_nodup _ _ _ H2)) as Hn. pose proof (used_nonneg (M e)). pose proof (total_nonneg M l1). pose proof (total_nonneg M l2).
  assert (Ht : total M (l1 ++ e :: l2) = total M l1 + (used_words (M e) + total M l2)) by (rewrite total_app; done).
  unfold see. rewrite (H5 e He), (unseen_spec _ _ _ (H4 e Hee)). constructor; cbn; try done.
  - intros x. rewrite (fi_chan _ _ _ _ _ _ _ _ Hf). destruct (decide (x ∈ [e])) as [->%list_elem_of_singleton|Hx].
    + split; [intros Hx; by destruct (Hn Hx)|by intros [_ ?]].
    + rewrite list_elem_of_singleton in Hx. rewrite <- H3, !elem_of_app, elem_of_cons. tauto.
  - intros x Hx. rewrite fn_lookup_insert_ne by congruence. apply H5. rewrite elem_of_app in *. rewrite elem_of_cons. tauto.
  - rewrite total_app. lia.
  - by rewrite u32_shift.
  - apply u32_range.
Qed.

Lemma see_recv R Q C P M l D p e : prep R Q C P M l D p -> e ∈ l -> lmp_endpoint_can_recv (ek p e) = negb (bool_decide (M e = [])).
Proof. intros Hp He. apply (can_recv_spec (ebuflen p e)). apply (pr_buffers _ _ _ _ _ _ _ _ Hp). by apply (pr_idle _ _ _ _ _ _ _ _ Hp) in He as [? _]. Qed.

(** ** The search through the list *)
Lemma poll_search M : forall l2 rounds l1 e R Q C P D p, prep R Q C P M (l1 ++ e :: l2) D p -> (length l2 < rounds)%nat ->
  exists p' R' Q' C' P' D', poll_endpoints handle rounds e p = Done p' /\ prep R' Q' C' P' M (l1 ++ without_msgs M (e :: l2)) D' p' /\
    fired home (with_msgs M (e :: l2)) R Q (ews p) R' Q' (ews p') /\ same_buffers p p' /\ disp_hint p' = disp_hint p.
Proof.
  induction l2 as [|y l2 IH]; intros [|n] l1 e R Q C P D p Hp Hlen; try (cbn in Hlen; lia); cbn [poll_endpoints].
  all: pose proof (pr_list _ _ _ _ _ _ _ _ Hp) as Hr; assert (He0 : e <> 0) by (intros ->; apply (ring_nonnull _ _ _ Hr), elem_of_app; right; left).
  all: zdecide; rewrite (see_recv _ _ _ _ _ _ _ _ e Hp) by (apply elem_of_app; right; left).
  all: rewrite (ring_next _ _ _ _ _ Hr); cbn [head default from_option id].
  - rewrite Z.eqb_refl. destruct (msgs_cons M e []) as [(E & -> & ->)|(E & -> & ->)].
    + rewrite bool_decide_true by done. cbn [negb]. exists p, R, Q, C, P, D. split_and!; [done|exact Hp|apply fired_none|done|done].
    + rewrite bool_decide_false by done. cbn [negb]. destruct (handle_ep _ _ _ _ _ _ _ _ _ _ Hp) as (s & h & k & R' & Q' & C' & P' & Et & Er & Hp' & Hf).
      rewrite Et by done. cbn [mbind outcome_bind]. rewrite Er by done. cbn [mbind outcome_bind].
      eexists _, R', Q', C', P', _. split_and!; [by destruct (_ =? e)|exact Hp'|exact Hf|done|by unfold see; destruct (lmp_endpoint_words_unseen _ _ _)].
  - pose proof (next_not_first _ _ _ _ _ _ Hr). zdecide. destruct (msgs_cons M e (y :: l2)) as [(E & -> & ->)|(E & -> & ->)].
    + rewrite bool_decide_true by done. cbn [negb]. replace (l1 ++ e :: y :: l2) with ((l1 ++ [e]) ++ y :: l2) in Hp by (by rewrite <- app_assoc).
      destruct (IH n _ _ _ _ _ _ _ _ Hp ltac:(cbn in Hlen; lia)) as (p' & R' & Q' & C' & P' & D' & -> & Hp' & Hf & Hs & Eh). exists p', R', Q', C', P', D'. rewrite <- app_assoc in Hp'. by split_and!.
    + rewrite bool_decide_false by done. cbn [negb]. destruct (handle_ep _ _ _ _ _ _ _ _ _ _ Hp) as (s & h & k & R' & Q' & C' & P' & Et & Er & Hp' & Hf).
      rewrite Et by done. cbn [mbind outcome_bind]. rewrite Er by done. cbn [mbind outcome_bind].
      assert (Hye : (nxt (el (see e (with_ews s p))) e =? e) = false).
      { change ((nxt (el p) e =? e) = false). rewrite (ring_next _ _ _ _ _ Hr). cbn. apply Z.eqb_neq. intros ->. pose proof (ring_nodup _ _ _ Hr) as (_ & _ & Hn)%NoDup_app. apply NoDup_cons in Hn as [Hn _]. apply Hn. left. }
      rewrite Hye. destruct (IH n _ _ _ _ _ _ _ _ Hp' ltac:(cbn in Hlen; lia)) as (p' & R2 & Q2 & C2 & P2 & D' & E2 & Hp2 & Hf2 & Hs2 & Eh2).
      exists p', R2, Q2, C2, P2, D'. split_and!; [exact E2|done|by apply (fired_trans home [e] _ _ _ _ _ _ _ _ _ _ Hf Hf2)|by eapply same_buffers_trans|done].
Qed.

(** ** The hint *)
Definition hint_ok (p : eps_state) : Prop := disp_hint p = 0 \/ (disp_hint p < 2 ^ DISPATCHER_FRAME_BITS /\ u32 (handle + disp_hint p - offsetof_k) ∈ eps).

Lemma prep_hint R Q C P M L D p x : prep R Q C P M L D p -> prep R Q C P M L D (set_hint x p).
Proof. intros [H1 H2 H3 H4 H5 H6 H7 H8]. by constructor. Qed.

Lemma hint_spec R Q C P M L D p : prep R Q C P M L D p -> hint_ok p ->
  exists p' R' Q' C' P' T L' D', poll_hint handle offsetof_k p = Done p' /\ prep R' Q' C' P' M L' D' p' /\ fired home T R Q (ews p) R' Q' (ews p') /\ same_buffers p p' /\
    disp_hint p' = 0 /\ without_msgs M L' = without_msgs M L /\ (forall x, x ∈ T \/ x ∈ with_msgs M L' <-> x ∈ with_msgs M L) /\ (length L' <= length L)%nat.
Proof.
  intros Hp Hh. unfold poll_hint. destruct (Z.eqb_spec (disp_hint p) 0) as [E0|E0].
  { exists p, R, Q, C, P, [], L, D. split_and!; try done; [apply fired_none|]. intros x. rewrite elem_of_nil. tauto. }
  destruct Hh as [|[Hlt Hin]]; [done|]. zdecide. cbn [assert mbind outcome_bind]. set (e := u32 _) in *.
  assert (Hskip : exists p' R' Q' C' P' T L' D', Done (set_hint 0 p) = Done p' /\ prep R' Q' C' P' M L' D' p' /\ fired home T R Q (ews p) R' Q' (ews p') /\ same_buffers p p' /\
    disp_hint p' = 0 /\ without_msgs M L' = without_msgs M L /\ (forall x, x ∈ T \/ x ∈ with_msgs M L' <-> x ∈ with_msgs M L) /\ (length L' <= length L)%nat).
  { exists (set_hint 0 p), R, Q, C, P, [], L, D. split_and!; try done; [by apply prep_hint|apply fired_none|]. intros x. rewrite elem_of_nil. tauto. }
  destruct (_ && _ && _) eqn:E; [|done]. clear Hskip. apply andb_true_iff in E as [E E3]. apply andb_true_iff in E as [E1 E2]. apply bool_decide_eq_true in E3.
  assert (HL : e ∈ L) by (by apply (pr_idle _ _ _ _ _ _ _ _ Hp)). cbn [set_hint ek] in E1. rewrite (see_recv _ _ _ _ _ _ _ _ e Hp HL) in E1. apply negb_true_iff, bool_decide_eq_false in E1.
  destruct (ring_neighbours _ _ _ _ (pr_list _ _ _ _ _ _ _ _ Hp) HL) as (N1 & N2 & _). assert (Hnz : forall a, a ∈ L -> a <> 0) by (intros a Ha ->; by apply (ring_nonnull _ _ _ (pr_list _ _ _ _ _ _ _ _ Hp))).
  apply Hnz in N1, N2. apply list_elem_of_split in HL as (l1 & l2 & EL). subst L. apply (prep_hint _ _ _ _ _ _ _ _ 0) in Hp.
  destruct (handle_ep _ _ _ _ _ _ _ _ _ _ Hp) as (s & h & k & R' & Q' & C' & P' & Et & Er & Hp' & Hf).
  assert (Hn0 : negb (nxt (el (see e (set_hint 0 p))) e =? 0) && negb (prv (el (see e (set_hint 0 p))) e =? 0) = true) by (change (negb (nxt (el p) e =? 0) && negb (prv (el p) e =? 0) = true); by zdecide).
  rewrite Hn0. cbn [assert mbind outcome_bind]. rewrite Et by done. cbn [mbind outcome_bind]. rewrite Er by done.
  eexists _, R', Q', C', P', [e], (l1 ++ l2), _. split; [done|]. split; [exact Hp'|]. split; [exact Hf|]. split_and!; try done.
  - unfold without_msgs. rewrite !filter_app, filter_cons_False by done. done.
  - intros x. unfold with_msgs. rewrite !filter_app, filter_cons_True, !elem_of_app, !elem_of_cons, !elem_of_nil by done. tauto.
  - rewrite !length_app. cbn. lia.
Qed.

Lemma list_short R Q C P M L D p : prep R Q C P M L D p -> (length L < fuel)%nat.
Proof.
  intros Hp. pose proof (ring_nodup _ _ _ (pr_list _ _ _ _ _ _ _ _ Hp)) as Hn.
  assert (Hs : L ⊆ chans) by (intros x Hx; by apply (pr_idle _ _ _ _ _ _ _ _ Hp) in Hx as [?%Heps _]). pose proof (submseteq_length _ _ (NoDup_submseteq _ _ Hn Hs)). lia.
Qed.

Lemma prep_all_seen R Q C P M L D p : prep R Q C P M L D p -> total M L = 0 -> prep R Q C P M L 0 (set_disp_seen (disp_delivered p) p).
Proof.
  intros [H1 H2 H3 H4 H5 H6 H7 H8] Ht. constructor; cbn; try done; [lia| |rewrite H7; apply u32_range]. rewrite Z.add_0_r, H7. rewrite (u32_small (u32 _)); [done|apply u32_range].
Qed.

(** A poll triggers the endpoints on the list that have a message. *)
Lemma poll_spec R Q C P M L D p : prep R Q C P M L D p -> hint_ok p ->
  exists p' R' Q' C' P', lmp_endpoints_poll_disabled handle offsetof_k fuel p = Done p' /\ prep R' Q' C' P' M (without_msgs M L) 0 p' /\
    fired home (with_msgs M L) R Q (ews p) R' Q' (ews p') /\ same_buffers p p' /\ disp_hint p' = 0.
Proof.
  intros Hp Hh. unfold lmp_endpoints_poll_disabled. destruct (hint_spec _ _ _ _ _ _ _ _ Hp Hh) as (p1 & R1 & Q1 & C1 & P1 & T & L1 & D1 & -> & Hp1 & Hf1 & Hs1 & Eh & Ew & HT & Hlen). cbn [mbind outcome_bind].
  rewrite <- Ew. destruct Hs1 as (B1 & B2 & B3). destruct (Z.eqb_spec (disp_seen p1) (disp_delivered p)) as [E|E].
  - assert (Hd : D1 = 0).
    { destruct Hp1 as [_ _ _ _ _ Ht Hd Hr]. pose proof (total_nonneg M L1). apply (counts_agree (disp_seen p1)); [done|lia|congruence]. }
    subst D1. pose proof (total_nonneg M L1). assert (Ht : total M L1 = 0) by (pose proof (pr_total _ _ _ _ _ _ _ _ Hp1); lia). destruct (without_all M L1 (total_zero _ _ Ht)) as [-> Ewm].
    exists p1, R1, Q1, C1, P1. split_and!; try done. eapply fired_ext; [|done]. intros x. rewrite <- HT, Ewm, elem_of_nil. tauto.
  - assert (Hloop : exists p2 R' Q' C' P' D2, poll_endpoints handle fuel (lmp_poll_list p1) p1 = Done p2 /\ prep R' Q' C' P' M (without_msgs M L1) D2 p2 /\
      fired home (with_msgs M L1) R1 Q1 (ews p1) R' Q' (ews p2) /\ same_buffers p1 p2 /\ disp_hint p2 = disp_hint p1).
    { pose proof (list_short _ _ _ _ _ _ _ _ Hp) as Hl. destruct L1 as [|e l].
      - pose proof (pr_list _ _ _ _ _ _ _ _ Hp1) as Hr. apply ring_empty in Hr. rewrite Hr. exists p1, R1, Q1, C1, P1, D1. destruct fuel; [lia|]. split_and!; try done. apply fired_none.
      - pose proof (pr_list _ _ _ _ _ _ _ _ Hp1) as Hr. rewrite (ring_head _ _ _ Hr). cbn [head default from_option id].
        destruct (poll_search M l fuel [] e _ _ _ _ _ _ Hp1 ltac:(cbn in Hlen; lia)) as (p2 & R' & Q' & C' & P' & D2 & -> & Hp2 & Hf2 & Hs2 & Eh2). exists p2, R', Q', C', P', D2. split_and!; try done. }
    destruct Hloop as (p2 & R' & Q' & C' & P' & D2 & -> & Hp2 & Hf2 & (B4 & B5 & B6) & Eh2). cbn [mbind outcome_bind]. pose proof (prep_all_seen _ _ _ _ _ _ _ _ Hp2 (total_without M L1)) as Hp3.
    rewrite B6, B3 in Hp3. eexists _, R', Q', C', P'. split; [done|]. split_and!; [exact Hp3| |repeat split; cbn; congruence|cbn; congruence].
    eapply fired_ext; [|by eapply fired_trans]. intros x. rewrite elem_of_app. apply HT.
Qed.

(** ** The system

    The kernel delivers messages, threads register, deregister and receive,
    other code works with the waitsets, and the dispatcher polls. *)

Definition set_ek (e : Z) (k : lmp_endpoint_kern) (p : eps_state) : eps_state :=
  EpsState (ews p) (el p) (lmp_poll_list p) (<[e := k]> (ek p)) (ebuflen p) (seen p) (disp_delivered p) (disp_seen p) (disp_hint p).

(** What a delivery writes: see [deliver_agrees] below. *)
Definition arrive (e off : Z) (payload : list Z) (cap : bool) (p : eps_state) : eps_state :=
  EpsState (ews p) (el p) (lmp_poll_list p) (<[e := put_message (ebuflen p e) payload cap (ek p e)]> (ek p)) (ebuflen p) (seen p)
    (u32 (disp_delivered p + Z.of_nat (length payload) + LMP_RECV_HEADER_LENGTH)) (disp_seen p) off.

Definition well_formed (s : wstate) : Prop := exists R Q C P, wrep R Q C P s.
Definition idle (e : Z) (p : eps_state) : Prop := state (chan (ews p) e) = CHAN_IDLE.

Inductive estep : eps_state -> eps_state -> Prop :=
| estep_deliver e off payload cap p : e ∈ eps -> off < 2 ^ DISPATCHER_FRAME_BITS -> u32 (handle + off - offsetof_k) = e ->
    Z.of_nat (length payload) < 256 -> can_deliver (ebuflen p e) (Z.of_nat (length payload)) (ek p e) = SYS_ERR_OK ->
    (** fewer than 2^32 words between two polls *)
    u32 (disp_delivered p - disp_seen p) + Z.of_nat (length payload) + LMP_RECV_HEADER_LENGTH < 2 ^ 32 ->
    estep p (arrive e off payload cap p)
| estep_register e f p p' : e ∈ eps -> state (chan (ews p) e) = CHAN_UNREGISTERED -> handler f <> 0 ->
    lmp_endpoint_register handle e (home e) f p = Done (SYS_ERR_OK, p') -> estep p p'
| estep_deregister e p p' : e ∈ eps -> idle e p -> lmp_endpoint_deregister e p = Done (SYS_ERR_OK, p') -> estep p p'
| estep_recv e u p ev r k : e ∈ eps -> ~ idle e p -> lmp_endpoint_recv (ebuflen p e) u (ek p e) = Done (ev, r, k) ->
    (header_captransfer (buf (ek p e) (consumed (ek p e))) = true -> recv_cptr (ek p e) <> 0) -> estep p (set_ek e k p)
| estep_slot e cspc cptr p : e ∈ eps -> estep p (set_ek e (lmp_endpoint_set_recv_slot cspc cptr (ek p e)) p)
| estep_other s' p : well_formed s' -> (forall e, e ∈ eps -> state (chan s' e) = CHAN_IDLE <-> idle e p) -> estep p (with_ews s' p)
| estep_poll p p' : lmp_endpoints_poll_disabled handle offsetof_k fuel p = Done p' -> estep p p'.

Definition einv (p : eps_state) : Prop := (exists R Q C P M L D, prep R Q C P M L D p) /\ hint_ok p.

Record einitial (p : eps_state) : Prop := {
  en_waits : well_formed (ews p);
  en_list : lmp_poll_list p = 0;
  en_idle : forall e, e ∈ eps -> ~ idle e p;
  en_empty : forall e, e ∈ eps -> holds (ebuflen p e) (ek p e) [];
  en_counts : disp_delivered p = disp_seen p /\ 0 <= disp_seen p < 2 ^ 32 /\ disp_hint p = 0
}.

Lemma einitial_inv p : einitial p -> einv p.
Proof.
  intros [(R & Q & C & P & Hw) H2 H3 H4 (H5 & H6 & H7)]. split; [|by left]. exists R, Q, C, P, (fun _ => []), [], 0. constructor; try done.
  - by apply ring_empty.
  - intros e. split; [by intros ?%elem_of_nil|]. intros [He Hi]. by destruct (H3 e He).
  - by intros e ?%elem_of_nil.
  - rewrite H5, Z.add_0_r, u32_small; done.
Qed.

Lemma ep_deliver_inv e off payload cap p : einv p -> e ∈ eps -> off < 2 ^ DISPATCHER_FRAME_BITS -> u32 (handle + off - offsetof_k) = e ->
  Z.of_nat (length payload) < 256 -> can_deliver (ebuflen p e) (Z.of_nat (length payload)) (ek p e) = SYS_ERR_OK ->
  u32 (disp_delivered p - disp_seen p) + Z.of_nat (length payload) + LMP_RECV_HEADER_LENGTH < 2 ^ 32 -> einv (arrive e off payload cap p).
Proof.
  intros [(R & Q & C & P & M & L & D & [H1 H2 H3 H4 H5 H6 H7 H8]) _] He Hoff Ha Hlen Hcan Hwrap. unfold LMP_RECV_HEADER_LENGTH in Hwrap. split; [|right; by rewrite <- Ha in He].
  set (m := RecvMsg payload cap). exists R, Q, C, P, (<[e := M e ++ [m]]> M), L, (D + Z.of_nat (length payload) + 1). pose proof (H4 e He) as Hb.
  rewrite (can_deliver_spec _ _ _ _ Hb) in Hcan by lia. assert (Hfit : Z.of_nat (length payload) + 1 < ebuflen p e - Z.of_nat (length (M e ≫= encode))) by (zcases_in Hcan; [done|lia]).
  assert (HD : u32 (disp_delivered p - disp_seen p) = D).
  { rewrite H7. unfold u32, wrap. rewrite Zminus_mod_idemp_l. replace (disp_seen p + D - disp_seen p) with D by lia. apply Z.mod_small. pose proof (total_nonneg M L). lia. }
  constructor; cbn [arrive ews el lmp_poll_list ek ebuflen seen disp_delivered disp_seen]; try done.
  - intros x Hx. destruct (decide (x = e)) as [->|Hne]; [rewrite !fn_lookup_insert; by apply (put_message_spec _ _ _ m)|by rewrite !fn_lookup_insert_ne; auto].
  - intros x Hx. rewrite (H5 x Hx). destruct (decide (x = e)) as [->|Hne]; [|by rewrite fn_lookup_insert_ne]. rewrite fn_lookup_insert. unfold put_message. by destruct (put_words _ _ _ _).
  - pose proof (total_insert M e (M e ++ [m]) L (ring_nodup _ _ _ H2)) as Ht. rewrite used_snoc in Ht. cbn [words m] in Ht. pose proof (total_nonneg (<[e:=M e ++ [m]]> M) L). lia.
  - rewrite H7. unfold LMP_RECV_HEADER_LENGTH, u32, wrap. rewrite <- Z.add_assoc, Zplus_mod_idemp_l. f_equal. lia.
Qed.

Lemma register_head e p L : ring (el p) (lmp_poll_list p) L -> e ∉ L -> e <> 0 -> exists k,
  ring k e (e :: L) /\ (if lmp_poll_list p =? 0 then Done (SYS_ERR_OK, set_list e (set_nxt e e (set_prv e e (el p))) p) else
      let k := set_nxt e (lmp_poll_list p) (el p) in
      let k := set_prv e (prv k (nxt k e)) k in
      let k := set_prv (nxt k e) e k in
      _ ← nonnull (prv k e);
      Done (SYS_ERR_OK, set_list e (set_nxt (prv k e) e k) p)) = Done (SYS_ERR_OK, set_list e k p).
Proof.
  intros Hr He H0. destruct (enqueue_ring _ _ _ e Hr He H0) as (q & k & E & Hr' & _). exists k. apply ring_rotate in Hr'. split; [exact Hr'|].
  unfold enqueue in E. cbv zeta. destruct (lmp_poll_list p =? 0); [by injection E as _ <-|]. cbn [set_nxt set_prv nxt prv] in E |- *. rewrite !fn_lookup_insert in E |- *.
  destruct (nonnull _); [|done]. cbn [mbind outcome_bind] in E |- *. by injection E as _ <-.
Qed.

Lemma ep_register_inv e f p p' : einv p -> e ∈ eps -> state (chan (ews p) e) = CHAN_UNREGISTERED -> handler f <> 0 ->
  lmp_endpoint_register handle e (home e) f p = Done (SYS_ERR_OK, p') -> einv p'.
Proof.
  intros [(R & Q & C & P & M & L & D & [H1 H2 H3 H4 H5 H6 H7 H8]) Hh] He Hun Hf E. pose proof (Heps _ He) as Hc. pose proof (H4 e He) as Hb.
  assert (HeL : e ∉ L) by (rewrite H3; intros [_ ?]; congruence).
  unfold lmp_endpoint_register in E. cbn [set_seen ek ews] in E. rewrite (can_recv_spec _ _ _ Hb) in E. destruct (bool_decide_reflect (M e = [])) as [Em|Em]; cbn [negb] in E.
  - destruct (register_ok all Hbound handle chans Hnull fuel Hfuel home R Q C P _ e f H1 Hc Hf Hun) as (s & Es & Hw & _ & _ & _ & Hch & Ec). rewrite Es in E. cbn [mbind outcome_bind] in E.
    change (err_is_ok SYS_ERR_OK) with true in E. cbn iota in E. destruct (register_head e (with_ews s (set_seen e (delivered (ek p e)) p)) L H2 HeL ltac:(by apply (chans_nonnull chans Hnull))) as (k & Hr & Ek).
    pose proof (eq_trans (eq_sym Ek) E) as E'. injection E' as <-. clear E. split; [|exact Hh]. exists R, Q, (upd2 C (home e) CHAN_IDLE (C (home e) CHAN_IDLE ++ [e])), P, M, (e :: L), D.
    constructor; cbn [set_list with_ews set_seen ews el lmp_poll_list ek ebuflen seen disp_delivered disp_seen]; try done.
    + intros x. rewrite elem_of_cons. destruct (decide (x = e)) as [->|Hne]; [rewrite Ec; cbn; tauto|]. rewrite Hch, <- H3 by done. tauto.
    + intros x [->|Hx]%elem_of_cons; [rewrite fn_lookup_insert|rewrite fn_lookup_insert_ne by congruence; auto]. destruct Hb as [? ? _ Hd _ _]. rewrite Em in Hd. cbn in Hd. rewrite Z.add_0_r, Z.mod_small in Hd; done.
    + unfold total. cbn [foldr fmap list_fmap]. rewrite Em. exact H6.
  - destruct (trigger_closure_ok all Hbound Hpage handle chans Hnull fuel Hfuel home Hhome R Q C P _ e f H1 Hc Hun) as (s & R' & Q' & Es & Hw & _ & _ & Hk & _). rewrite Es in E. cbn [mbind outcome_bind] in E.
    injection E as <-. split; [|exact Hh]. eexists R', Q', _, P, M, L, D. constructor; cbn [with_ews set_seen ews el lmp_poll_list ek ebuflen seen disp_delivered disp_seen]; try done.
    + intros x. destruct (decide (x = e)) as [->|Hne]; [|by rewrite (kp_chan _ _ _ Hk)]. split; [done|]. intros [_ Hi].
      assert (Hin : e ∈ upd2 C (home e) CHAN_PENDING (C (home e) CHAN_PENDING ++ [e]) (home e) CHAN_PENDING) by (rewrite upd2_eq; apply elem_of_app; right; left).
      apply (wr_in _ _ _ _ _ _ _ _ _ Hw) in Hin as (_ & _ & Hst & _). congruence.
    + intros x Hx. rewrite fn_lookup_insert_ne by congruence. auto.
Qed.

Lemma ep_deregister_inv e p p' : einv p -> e ∈ eps -> idle e p -> lmp_endpoint_deregister e p = Done (SYS_ERR_OK, p') -> einv p'.
Proof.
  intros [(R & Q & C & P & M & L & D & [H1 H2 H3 H4 H5 H6 H7 H8]) Hh] He Hi E. pose proof (Heps _ He) as Hc. assert (HeL : e ∈ L) by (by apply H3). unfold idle in Hi.
  apply list_elem_of_split in HeL as (l1 & l2 & ->). unfold lmp_endpoint_deregister in E.
  destruct (deregister_ok all Hbound handle chans Hnull fuel Hfuel home Hhome R Q C P _ e H1 Hc ltac:(by rewrite Hi)) as (s & Es & Hw & Hch & Est & _). rewrite Es in E. cbn [mbind outcome_bind] in E.
  change (err_is_ok SYS_ERR_OK) with true in E. cbn iota in E. destruct (remove_ring e p l1 l2 H2) as (h & k & Er & Hr). rewrite Er in E by done. cbn [mbind outcome_bind] in E. injection E as <-. split; [|exact Hh].
  pose proof (nodup_middle _ _ _ (ring_nodup _ _ _ H2)) as Hn. eexists R, Q, _, _, M, (l1 ++ l2), D. constructor; cbn [set_list with_ews ews el lmp_poll_list ek ebuflen seen disp_delivered disp_seen]; try done.
  - intros x. destruct (decide (x = e)) as [->|Hne]; [rewrite Est; split; [intros Hx; by destruct (Hn Hx)|by intros [_ ?]]|]. rewrite Hch, <- H3, !elem_of_app, elem_of_cons by done. tauto.
  - intros x Hx. apply H5. rewrite elem_of_app in *. rewrite elem_of_cons. tauto.
  - rewrite total_app in *. unfold total in H6 at 2. cbn in H6. fold (total M l2) in H6. pose proof (used_nonneg (M e)). lia.
Qed.

(** The buffer of an endpoint that is not on the list changes. *)
Lemma ep_buffer_inv e k p : einv p -> (forall q, holds (ebuflen p e) (ek p e) q -> exists q', holds (ebuflen p e) k q' /\ (q' = q /\ consumed k = consumed (ek p e) \/ ~ idle e p)) -> einv (set_ek e k p).
Proof.
  intros [(R & Q & C & P & M & L & D & [H1 H2 H3 H4 H5 H6 H7 H8]) Hh] Hk. split; [|exact Hh]. destruct (decide (e ∈ eps)) as [He|He].
  - destruct (Hk _ (H4 e He)) as (q' & Hq' & Hor). exists R, Q, C, P, (<[e := q']> M), L, D. constructor; cbn [set_ek ews el lmp_poll_list ek ebuflen seen disp_delivered disp_seen]; try done.
    + intros x Hx. destruct (decide (x = e)) as [->|Hne]; [by rewrite !fn_lookup_insert|by rewrite !fn_lookup_insert_ne; auto].
    + intros x Hx. rewrite (H5 x Hx). destruct (decide (x = e)) as [->|Hne]; [|by rewrite fn_lookup_insert_ne]. rewrite fn_lookup_insert. destruct Hor as [[_ ->]|Hni]; [done|]. destruct Hni. by apply H3.
    + assert (Et : total (<[e := q']> M) L = total M L); [|by rewrite Et]. unfold total. f_equal. apply list_fmap_ext. intros i x Hx. destruct (decide (x = e)) as [->|Hne]; [|by rewrite fn_lookup_insert_ne].
      rewrite fn_lookup_insert. destruct Hor as [[-> _]|Hni]; [done|]. destruct Hni. apply list_elem_of_lookup_2, H3 in Hx. apply Hx.
  - exists R, Q, C, P, M, L, D. constructor; cbn [set_ek ews el lmp_poll_list ek ebuflen seen disp_delivered disp_seen]; try done.
    + intros x Hx. rewrite fn_lookup_insert_ne by congruence. auto.
    + intros x Hx. rewrite fn_lookup_insert_ne by (intros ->; by apply H3 in Hx as [? _]). auto.
Qed.

Lemma recv_holds n u k q ev r k' : holds n k q -> (header_captransfer (buf k (consumed k)) = true -> recv_cptr k <> 0) -> lmp_endpoint_recv n u k = Done (ev, r, k') -> exists q', holds n k' q'.
Proof.
  intros Hq Hcap E. destruct q as [|m q].
  - rewrite recv_empty in E by done. injection E as _ _ <-. by exists [].
  - assert (Hm : has_cap m = true -> recv_cptr k <> 0).
    { intros Hm. apply Hcap. pose proof (ho_words _ _ _ Hq 0%nat _ eq_refl) as Hb. rewrite Z.add_0_r, Z.mod_small in Hb by apply (ho_consumed _ _ _ Hq). by rewrite Hb, header_captransfer_spec. }
    pose proof (recv_queue n k m q u Hq Hm) as Hr. destruct (u <? _); [rewrite Hr in E; injection E as _ _ <-; by exists (m :: q)|]. destruct Hr as (e' & Hr & He'). rewrite Hr in E. injection E as _ _ <-. by exists q.
Qed.

Lemma estep_inv p p' : einv p -> estep p p' -> einv p'.
Proof.
  intros Hi Hs. destruct Hs as [e off payload cap p He Hoff Ha Hlen Hcan Hwrap|e f p p' He Hun Hf E|e p p' He Hid E|e u p ev r k He Hid E Hcap|e cspc cptr p He|s' p (R' & Q' & C' & P' & Hw) Hid|p p' E].
  - by apply ep_deliver_inv.
  - by eapply ep_register_inv.
  - by eapply ep_deregister_inv.
  - apply ep_buffer_inv; [done|]. intros q Hq. destruct (recv_holds _ _ _ _ _ _ _ Hq Hcap E) as (q' & Hq'). exists q'. auto.
  - apply ep_buffer_inv; [done|]. intros q Hq. exists q. split; [|by left]. by destruct Hq.
  - destruct Hi as [(R & Q & C & P & M & L & D & [H1 H2 H3 H4 H5 H6 H7 H8]) Hh]. split; [|done]. exists R', Q', C', P', M, L, D. constructor; try done.
    intros x. rewrite H3. cbn [with_ews ews]. split; intros [Hx ?]; (split; [done|]); by apply Hid.
  - destruct Hi as [(R & Q & C & P & M & L & D & Hp) Hh]. destruct (poll_spec _ _ _ _ _ _ _ _ Hp Hh) as (p1 & R' & Q' & C' & P' & E1 & Hp1 & _ & _ & Eh). rewrite E in E1. injection E1 as <-.
    split; [|by left]. by eexists R', Q', C', P', M, _, 0.
Qed.

Lemma ereach_inv p0 p : einitial p0 -> rtc estep p0 p -> einv p.
Proof. intros H0%einitial_inv Hs. induction Hs as [|p1 p2 p3 H12 _ IH]; [done|]. by eapply IH, estep_inv. Qed.

(** C10: in every run of deliveries, registrations and receptions in which
    messages are received only from endpoints that do not wait for one, only
    waiting endpoints are deregistered, fewer than 2^32 words arrive between
    two polls and a message with a capability is received only with a
    receive slot, a poll of the dispatcher returns, gives an event to
    exactly the endpoints that wait for a message and have one, wakes a
    thread of each of their waitsets that has blocked threads, and leaves
    the buffers and all other channels as they are. Receiving from an
    endpoint that waits can hide the message of another one
    (received_early_overlooks_other). *)
Theorem lmp_poll_finds_messages p0 p : einitial p0 -> rtc estep p0 p ->
  exists p', lmp_endpoints_poll_disabled handle offsetof_k fuel p = Done p' /\ ek p' = ek p /\
    (forall e, e ∈ eps -> idle e p -> lmp_endpoint_can_recv (ek p e) = true ->
      chan (ews p') e = with_chan_state CHAN_PENDING (chan (ews p) e) /\
      exists B R', ring (tlinks (wt (ews p))) (queues (wt (ews p)) (home e)) B /\ ring (tlinks (wt (ews p'))) (runq (wt (ews p'))) R' /\ (B <> [] -> exists t, t ∈ B /\ t ∈ R')) /\
    (forall c, (c ∈ eps -> idle c p -> lmp_endpoint_can_recv (ek p c) = false) -> chan (ews p') c = chan (ews p) c).
Proof.
  intros H0 Hs. destruct (ereach_inv _ _ H0 Hs) as [(R & Q & C & P & M & L & D & Hp) Hh]. destruct (poll_spec _ _ _ _ _ _ _ _ Hp Hh) as (p' & R' & Q' & C' & P' & E & Hp' & Hf & (Ek & _) & _).
  exists p'. assert (Hin : forall e, e ∈ with_msgs M L <-> e ∈ eps /\ idle e p /\ lmp_endpoint_can_recv (ek p e) = true).
  { intros e. unfold with_msgs. rewrite list_elem_of_filter. split.
    - intros [Hm He]. rewrite (see_recv _ _ _ _ _ _ _ _ e Hp He). apply (pr_idle _ _ _ _ _ _ _ _ Hp) in He as [? ?]. by rewrite bool_decide_false by done.
    - intros (He & Hid & Hr). assert (HL : e ∈ L) by (by apply (pr_idle _ _ _ _ _ _ _ _ Hp)). rewrite (see_recv _ _ _ _ _ _ _ _ e Hp HL) in Hr. by apply negb_true_iff, bool_decide_eq_false in Hr. }
  split_and!; [done|done| |].
  - intros e He Hid Hr. assert (HT : e ∈ with_msgs M L) by (by apply Hin). split; [by rewrite (fi_chan _ _ _ _ _ _ _ _ Hf), decide_True|]. exists (Q (home e)), R'.
    split_and!; [apply (tr_queue _ _ _ _ _ (wr_threads _ _ _ _ _ _ _ _ _ (pr_wait _ _ _ _ _ _ _ _ Hp)))|apply (tr_run _ _ _ _ _ (wr_threads _ _ _ _ _ _ _ _ _ (pr_wait _ _ _ _ _ _ _ _ Hp')))|].
    by apply (fi_wake _ _ _ _ _ _ _ _ Hf).
  - intros c Hc. rewrite (fi_chan _ _ _ _ _ _ _ _ Hf), decide_False; [done|]. intros (He & Hid & Hr)%Hin. rewrite Hc in Hr; done.
Qed.

(** ** Deliveries by the kernel *)

(** The dispatcher [recv] of the kernel's state, seen by its own code. *)
Definition agrees (s : lmp) (recv : Z) (p : eps_state) : Prop :=
  disp_of s recv = handle /\ disp_delivered p = lmp_delivered s recv /\ disp_hint p = lmp_hint s recv /\ forall e, e ∈ eps -> ek p e = ep_mem s (u32 (e + offsetof_k)).

Lemma deliver_agrees s ep payload cap now ev s' p : let e := u32 (handle + epoffset s ep - offsetof_k) in
  agrees s (listener s ep) p -> e ∈ eps -> (forall x, x ∈ eps -> u32 x = x) -> ebuflen p e = epbuflen_of s ep -> lmp_deliver_payload ep payload cap now s = Done (ev, s') -> err_is_ok ev = true ->
  agrees s' (listener s ep) (arrive e (epoffset s ep) payload cap p) /\ can_deliver (ebuflen p e) (Z.of_nat (length payload)) (ek p e) = SYS_ERR_OK.
Proof.
  intros e (A1 & A2 & A3 & A4) He Hsmall Hbl E Hok. unfold lmp_deliver_payload in E.
  assert (Ea : u32 (e + offsetof_k) = recv_ep s ep). { unfold e, recv_ep. rewrite A1. unfold u32, wrap. rewrite Zplus_mod_idemp_l. f_equal. lia. }
  destruct (type_at (kd s) ep =? _); [|done]. cbn [assert mbind outcome_bind] in E. destruct (negb (listener s ep =? 0)) eqn:El; [|done]. cbn [assert mbind outcome_bind] in E.
  destruct (lmp_can_deliver_payload _ _ s) as [ec|] eqn:Ec; [|done]. cbn [mbind outcome_bind] in E. destruct (err_is_fail ec) eqn:Ef.
  { injection E as <- <-. by destruct ec. }
  injection E as <- <-. split.
  - split; [done|]. cbn. split_and!; [by rewrite fn_lookup_insert, A2|by rewrite fn_lookup_insert|]. intros x Hx. destruct (decide (x = e)) as [->|Hne].
    + by rewrite fn_lookup_insert, Ea, fn_lookup_insert, (A4 e He), Ea, Hbl.
    + rewrite fn_lookup_insert_ne, (A4 x Hx) by done. rewrite fn_lookup_insert_ne; [done|]. rewrite <- Ea. intros E. apply Hne. rewrite <- (Hsmall x Hx), <- (Hsmall e He).
      unfold u32, wrap in E |- *. apply (f_equal (fun z => (z - offsetof_k) `mod` 2 ^ 32)) in E. rewrite !Zminus_mod_idemp_l in E.
      by replace (x + offsetof_k - offsetof_k) with x in E by lia; replace (e + offsetof_k - offsetof_k) with e in E by lia.
  - unfold lmp_can_deliver_payload in Ec. destruct (type_at (kd s) ep =? _); [|done]. cbn [assert mbind outcome_bind] in Ec. rewrite El in Ec. cbn [assert mbind outcome_bind] in Ec.
    destruct (_ || _); injection Ec as <-; [done|]. rewrite Hbl, (A4 e He), Ea. revert Ef. unfold can_deliver. by repeat case_match.
Qed.
End Poll.

Module PollSample.
Import WaitSample.

(** Two endpoints in the frame of the dispatcher. *)
Definition ofs_k : Z := 64.
Definition epA : Z := dispatcher + 4096.
Definition epB : Z := dispatcher + 8192.
Definition both : list Z := [epA; epB].
Definition p0 : eps_state := EpsState w0 (Links (fun _ => 0) (fun _ => 0)) 0 (fun _ => EpKern 5 9 0 0 (fun _ => 0)) (fun _ => 16) (fun _ => 0) 0 0 0.

Lemma both_nonnull : 0 ∉ both.
Proof. vm_decide. Qed.
Lemma both_fuel : (length both < 3)%nat.
Proof. vm_decide. Qed.
Lemma both_home : forall c, c ∈ both -> home_ws c <> 0.
Proof. done. Qed.

Lemma p0_initial : einitial two dispatcher both home_ws both p0.
Proof.
  constructor; [|done|done| |by vm_compute].
  - destruct g0_winitial as [[R Hr] _ _ _ _]. exists R, (fun _ => []), (fun _ _ => []), []. constructor; [exact Hr| | |done|done|by apply ring_empty|].
    + constructor; [intros ws st; by apply ring_empty|by intros ws st ws' st' c ?%elem_of_nil].
    + intros ws st c. split; [by intros ?%elem_of_nil|]. by intros (_ & _ & <- & ?).
    + intros c. split; [by intros ?%elem_of_nil|]. by intros [_ ?].
  - intros e _. constructor; [vm_decide|vm_decide|vm_decide|done|done|constructor].
Qed.

Inductive pact := ADeliver (e : Z) (payload : list Z) | ARegister (e : Z) | ADeregister (e : Z) | ARecv (e : Z) | APoll.

Definition offset_of (e : Z) : Z := e - dispatcher + ofs_k.
(** The receiver may not receive from an endpoint that is on the list, when [strict]. *)
Definition pact_step (strict : bool) (a : pact) (p : eps_state) : option eps_state :=
  match a with
  | ADeliver e payload =>
    if bool_decide (e ∈ both /\ Z.of_nat (length payload) < 256 /\ can_deliver (ebuflen p e) (Z.of_nat (length payload)) (ek p e) = SYS_ERR_OK /\
        u32 (disp_delivered p - disp_seen p) + Z.of_nat (length payload) + LMP_RECV_HEADER_LENGTH < 2 ^ 32 /\ u32 (dispatcher + offset_of e - ofs_k) = e)
    then Some (arrive e (offset_of e) payload false p) else None
  | ARegister e =>
    if bool_decide (e ∈ both /\ state (chan (ews p) e) = CHAN_UNREGISTERED) then
      match lmp_endpoint_register dispatcher e (home_ws e) (Closure 7 e) p with Done ([], p') => Some p' | _ => None end
    else None
  | ADeregister e => if bool_decide (e ∈ both /\ state (chan (ews p) e) = CHAN_IDLE) then match lmp_endpoint_deregister e p with Done ([], p') => Some p' | _ => None end else None
  | ARecv e =>
    if bool_decide (e ∈ both /\ recv_cptr (ek p e) <> 0 /\ (strict = true -> state (chan (ews p) e) <> CHAN_IDLE))
    then match lmp_endpoint_recv (ebuflen p e) 9 (ek p e) with Done (_, _, k) => Some (set_ek e k p) | _ => None end else None
  | APoll => match lmp_endpoints_poll_disabled dispatcher ofs_k 3 p with Done p' => Some p' | Fault _ => None end
  end.

#[local] Notation sample_step := (estep two dispatcher ofs_k both 3 home_ws both).

Lemma pact_sound a p p' : pact_step true a p = Some p' -> sample_step p p'.
Proof.
  destruct a as [e payload|e|e|e|]; cbn [pact_step].
  - case_bool_decide as H; [|done]. intros [= <-]. destruct H as (H1 & H2 & H3 & H4 & H5). constructor; try done. apply list_elem_of_In in H1 as [<-|[<-|[]]]; vm_decide.
  - case_bool_decide as H; [|done]. destruct (lmp_endpoint_register _ _ _ _ p) as [[[|] p1]|] eqn:E; [|done..]. intros [= <-]. destruct H as [H1 H2]. by apply (estep_register _ _ _ _ _ _ _ e (Closure 7 e)).
  - case_bool_decide as H; [|done]. destruct (lmp_endpoint_deregister e p) as [[[|] p1]|] eqn:E; [|done..]. intros [= <-]. destruct H as [H1 H2]. by apply (estep_deregister _ _ _ _ _ _ _ e).
  - case_bool_decide as H; [|done]. destruct (lmp_endpoint_recv _ _ _) as [[[ev r] k]|] eqn:E; [|done]. intros [= <-]. eapply (estep_recv _ _ _ _ _ _ _ e 9); try done; [apply H|by apply H|]. intros _. apply H.
  - destruct (lmp_endpoints_poll_disabled _ _ _ p) as [p1|] eqn:E; [|done]. intros [= <-]. by constructor.
Qed.

Fixpoint pacts (strict : bool) (l : list pact) (p : eps_state) : option eps_state := match l with [] => Some p | a :: l => match pact_step strict a p with Some p' => pacts strict l p' | None => None end end.
Definition preached (strict : bool) (l : list pact) : eps_state := default p0 (pacts strict l p0).

Lemma preached_rtc l : bool_decide (is_Some (pacts true l p0)) = true -> rtc sample_step p0 (preached true l).
Proof.
  intros [p E]%bool_decide_eq_true. unfold preached. rewrite E. cbn [default from_option id]. revert E. generalize p0. induction l as [|a l IH]; intros q E; cbn [pacts] in E; [by injection E as <-|].
  destruct (pact_step true a q) as [q1|] eqn:E1; [|done]. apply (rtc_l _ _ q1); [by apply (pact_sound a)|by apply IH].
Qed.

Definition states (p : eps_state) : list ws_chanstate := (fun e => state (chan (ews p) e)) <$> both.
Definition polled_states (p : eps_state) : list ws_chanstate := match lmp_endpoints_poll_disabled dispatcher ofs_k 3 p with Done p' => states p' | Fault _ => [] end.

(** Messages for both endpoints, only the last of which is in the hint. *)
Definition two_messages : list pact := [ARegister epA; ADeliver epA [1]; ARegister epB; APoll; ARecv epA; ADeliver epA [4]; ADeliver epB [2; 3]; ADeliver epA [5]].

Lemma lmp_poll_finds_messages_witness : exists p', lmp_endpoints_poll_disabled dispatcher ofs_k 3 (preached true two_messages) = Done p' /\
  chan (ews p') epB = with_chan_state CHAN_PENDING (chan (ews (preached true two_messages)) epB).
Proof.
  destruct (lmp_poll_finds_messages two two_bound two_page dispatcher ofs_k both both_nonnull 3 both_fuel home_ws both_home both ltac:(done) p0 (preached true two_messages) p0_initial
    (preached_rtc two_messages ltac:(by vm_compute))) as (p' & E & _ & H & _).
  exists p'. split; [exact E|]. apply (H epB); [vm_decide|unfold idle; vm_eq|vm_eq].
Defined.

(** ** What goes wrong *)

(** An endpoint with a pending event is off the list with its old links:
    cancelling its registration fails. *)
Lemma deregister_pending_fails :
  lmp_endpoint_deregister epA (preached true [ARegister epA; ADeliver epA [1]; APoll; ARegister epB]) = Fault AssertionFailed.
Proof. vm_eq. Qed.

(** A message that is received while its endpoint is on the list makes a
    later poll count it for the message of another endpoint, which gets no
    event. *)
Lemma received_early_overlooks_other :
  let p := preached false [ARegister epA; ARegister epB; ADeliver epA [1]; ARecv epA; APoll; ADeliver epB [2]; ADeliver epA [3]] in
  lmp_endpoint_can_recv (ek p epB) = true /\ polled_states p = [CHAN_PENDING; CHAN_IDLE].
Proof. split; vm_eq. Qed.
End PollSample.
