(* ===== verification/Deferred.v ===== *)
(** Timers (lib/aos/deferred.c): events that a waitset gets at a given time.

    A timer and the channel state inside of it have the same name.  The
    system time, in milliseconds, is an argument: the dispatcher holds the
    time at which it was dispatched last. *)
From S2P Require Import Prelude Ring Threads Waitset.

Definition SYSTIME_MULTIPLIER : Z := 1000.

Record timers := Timers {
  dl : links;                     (** [next] and [prev] *)
  dtime : Z -> Z;
  deferred_events : Z;
  wakeup : Z                      (** what the dispatcher asks of the kernel *)
}.

Definition set_deferred (h : Z) (k : links) (t : timers) : timers := Timers k (dtime t) h (wakeup t).
Definition set_time (e x : Z) (t : timers) : timers := Timers (dl t) (<[e := x]> (dtime t)) (deferred_events t) (wakeup t).

Definition update_wakeup_disabled (t : timers) : timers :=
  Timers (dl t) (dtime t) (deferred_events t)
    (if deferred_events t =? 0 then 0 else dtime t (deferred_events t) / SYSTIME_MULTIPLIER).

Definition get_system_time (systime : Z) : Z := u64 (systime * SYSTIME_MULTIPLIER).

Definition deferred_event_init (e : Z) (t : timers) (s : wstate) : timers * wstate :=
  (set_time e 0 (set_deferred (deferred_events t) (set_nxt e 0 (set_prv e 0 (dl t))) t), waitset_chanstate_init e CHANTYPE_DEFERRED s).

(** The search for the place of [ev], with [p] before [e]. *)
Fixpoint insert_event (fuel : nat) (ev e p : Z) (t : timers) : outcome timers :=
  match fuel with
  | O => Fault OutOfFuel
  | S fuel =>
    if (e =? 0) || (dtime t ev <? dtime t e) then
      if p =? 0 then
        ASSERT e =? deferred_events t;
        let k := set_nxt ev e (set_prv ev 0 (dl t)) in
        let k := if negb (e =? 0) then set_prv e ev k else k in
        Done (set_deferred ev k t)
      else
        let k := set_prv ev p (set_nxt ev e (dl t)) in
        let k := set_nxt p ev k in
        let k := if negb (e =? 0) then set_prv e ev k else k in
        Done (set_deferred (deferred_events t) k t)
    else insert_event fuel ev (nxt (dl t) e) e t
  end.

Definition deferred_event_register (fuel : nat) (systime e ws delay : Z) (f : event_closure) (t : timers) (s : wstate)
  : outcome (errval * timers * wstate) :=
  '(ev, s) ← waitset_chan_register_disabled ws e f s;
  t ← (if err_is_ok ev then
         let t := set_time e (u64 (get_system_time systime + delay)) t in
         insert_event fuel e (deferred_events t) 0 t
       else Done t);
  Done (ev, update_wakeup_disabled t, s).

(** An event that is pending is not in the list any more. *)
Definition deferred_event_cancel (e : Z) (t : timers) (s : wstate) : outcome (errval * timers * wstate) :=
  let chanstate := state (chan s e) in
  '(ev, s) ← waitset_chan_deregister_disabled e s;
  if err_is_ok ev && negb (bool_decide (chanstate = CHAN_PENDING)) then
    let k := dl t in
    let h := if prv k e =? 0 then nxt k e else deferred_events t in
    let k := if prv k e =? 0 then k else set_nxt (prv k e) (nxt k e) k in
    let k := if negb (nxt k e =? 0) then set_prv (nxt k e) (prv k e) k else k in
    Done (ev, update_wakeup_disabled (set_deferred h k t), s)
  else Done (ev, t, s).

Section Trigger.
Context (handle : Z).

(** The loop over the events that are due: the first event that is not. *)
Fixpoint trigger_due (fuel : nat) (e now : Z) (t : timers) (s : wstate) : outcome (Z * wstate) :=
  match fuel with
  | O => Fault OutOfFuel
  | S fuel =>
    if negb (e =? 0) && (dtime t e <=? now) then
      '(ev, s) ← waitset_chan_trigger_disabled handle e s;
      ASSERT err_is_ok ev;
      trigger_due fuel (nxt (dl t) e) now t s
    else Done (e, s)
  end.

Definition trigger_deferred_events_disabled (fuel : nat) (now : Z) (t : timers) (s : wstate) : outcome (timers * wstate) :=
  let now := u64 (now * SYSTIME_MULTIPLIER) in
  '(e, s) ← trigger_due fuel (deferred_events t) now t s;
  let t := set_deferred e (if negb (e =? 0) then set_prv e 0 (dl t) else dl t) t in
  Done (update_wakeup_disabled t, s).
End Trigger.

(** * Periodic events *)

Record periodic_event := Periodic { p_cl : event_closure; p_waitset : Z; p_period : Z }.

Section Periodic.
(** The address of the handler's code. *)
Context (periodic_event_handler_code : Z).

Definition periodic_event_create (fuel : nat) (systime e ws period : Z) (f : event_closure) (t : timers) (s : wstate)
  : outcome (errval * periodic_event * timers * wstate) :=
  ASSERT negb (e =? 0);
  let '(t, s) := deferred_event_init e t s in
  '(ev, t, s) ← deferred_event_register fuel systime e ws period (Closure periodic_event_handler_code e) t s;
  Done (ev, Periodic f ws period, t, s).

(** The event is registered again, and the closure to run is returned. *)
Definition periodic_event_handler (fuel : nat) (systime e : Z) (p : periodic_event) (t : timers) (s : wstate)
  : outcome (event_closure * timers * wstate) :=
  ASSERT negb (e =? 0);
  '(ev, t, s) ← deferred_event_register fuel systime e (p_waitset p) (p_period p) (Closure periodic_event_handler_code e) t s;
  ASSERT err_is_ok ev;
  Done (p_cl p, t, s).

Definition periodic_event_cancel (e : Z) (t : timers) (s : wstate) : outcome (errval * timers * wstate) :=
  deferred_event_cancel e t s.
End Periodic.
