(* ===== verification/DeferredCorrect.v ===== *)
(** Correctness of Deferred.v: the list of timers is sorted by time, and the
    timers that are due get their event, in this order. *)
From S2P Require Import Prelude Ring Chain Threads ThreadsCorrect Waitset WaitsetQueues WaitsetCorrect WaitsetFire Deferred.

(** * The list *)

Record timed (L : list Z) (t : timers) : Prop := {
  td_list : dlist (dl t) (deferred_events t) L;
  td_sorted : StronglySorted (fun a b => dtime t a <= dtime t b) L;
  td_wakeup : wakeup t = match L with [] => 0 | e :: _ => dtime t e / SYSTIME_MULTIPLIER end
}.

Lemma update_wakeup_timed L t : dlist (dl t) (deferred_events t) L -> StronglySorted (fun a b => dtime t a <= dtime t b) L -> timed L (update_wakeup_disabled t).
Proof.
  intros Hl Hs. constructor; [done|done|]. cbn. rewrite (dlist_head _ _ _ Hl). destruct L as [|e L]; [done|]. cbn [head default from_option id].
  assert (e <> 0) by (intros ->; apply (dlist_nonnull _ _ _ Hl); left). by zdecide.
Qed.

Lemma sorted_app t l1 l2 : StronglySorted (fun a b => dtime t a <= dtime t b) (l1 ++ l2) <->
  StronglySorted (fun a b => dtime t a <= dtime t b) l1 /\ StronglySorted (fun a b => dtime t a <= dtime t b) l2 /\ (forall a b, a ∈ l1 -> b ∈ l2 -> dtime t a <= dtime t b).
Proof.
  induction l1 as [|x l1 IH]; cbn [app].
  - split; [intros H; split_and!; [constructor|done|by intros a b ?%elem_of_nil]|tauto].
  - split.
    + intros [H1 H2]%StronglySorted_inv. apply IH in H1 as (H1 & H3 & H4). rewrite Forall_app in H2. destruct H2 as [H2 H5]. split_and!; [by constructor|done|].
      intros a b [->|Ha]%elem_of_cons Hb; [|by apply H4]. rewrite Forall_forall in H5. by apply H5.
    + intros ([H1 H2]%StronglySorted_inv & H3 & H4). constructor; [apply IH; split_and!; [done|done|]; intros a b Ha Hb; apply H4; [by right|done]|].
      apply Forall_app. split; [done|]. apply Forall_forall. intros b Hb. apply H4; [left|done].
Qed.

(** ** Insertion *)

Lemma insert_links k l1 ev l2 k' : NoDup (l1 ++ l2) -> 0 ∉ l1 ++ l2 -> ev ∉ l1 ++ l2 ->
  k' = (let e := default 0 (head l2) in let p := last_or 0 l1 in
        let k0 := set_nxt ev e (set_prv ev p k) in
        let k1 := if p =? 0 then k0 else set_nxt p ev k0 in if e =? 0 then k1 else set_prv e ev k1) ->
  linked_in k l1 ev l2 k'.
Proof.
  intros Hn H0 Hev ->. cbv zeta.
  assert (Hp : l1 <> [] -> last_or 0 l1 ∈ l1 ++ l2 /\ last_or 0 l1 <> 0 /\ last_or 0 l1 <> ev).
  { intros Hne. assert (Hin : last_or 0 l1 ∈ l1 ++ l2) by (apply elem_of_app; left; by apply last_or_in). split_and!; [done|congruence|congruence]. }
  assert (He : l2 <> [] -> default 0 (head l2) ∈ l1 ++ l2 /\ default 0 (head l2) <> 0 /\ default 0 (head l2) <> ev).
  { intros Hne. assert (Hin : default 0 (head l2) ∈ l1 ++ l2) by (apply elem_of_app; right; by apply head_in). split_and!; [done|congruence|congruence]. }
  set (p := last_or 0 l1) in *. set (e := default 0 (head l2)) in *.
  destruct (decide (l1 = [])) as [E1|E1], (decide (l2 = [])) as [E2|E2]; try (destruct (Hp E1) as (? & ? & ?)); try (destruct (He E2) as (? & ? & ?));
    try (assert (Ep : p = 0) by (unfold p; by subst l1)); try (assert (Ee : e = 0) by (unfold e; by subst l2)); zdecide;
    constructor; cbn [set_nxt set_prv nxt prv]; rewrite ?fn_lookup_insert, ?fn_lookup_insert_ne by congruence; rewrite ?fn_lookup_insert; try done;
    try (intros a Ha Hne; try fold p in Hne; try fold e in Hne; rewrite !fn_lookup_insert_ne by congruence; done).
Qed.

Lemma insert_event_spec ev t : forall l2 fuel l1, dlist (dl t) (deferred_events t) (l1 ++ l2) -> StronglySorted (fun a b => dtime t a <= dtime t b) (l1 ++ l2) ->
  ev ∉ l1 ++ l2 -> ev <> 0 -> Forall (fun a => dtime t a <= dtime t ev) l1 -> (length l2 < fuel)%nat ->
  exists m1 m2 h k, insert_event fuel ev (default 0 (head l2)) (last_or 0 l1) t = Done (set_deferred h k t) /\ l1 ++ l2 = m1 ++ m2 /\ dlist k h (m1 ++ ev :: m2) /\
    Forall (fun a => dtime t a <= dtime t ev) m1 /\ Forall (fun a => dtime t ev < dtime t a) m2.
Proof.
  intros l2. induction l2 as [|e l2 IH]; intros [|fuel] l1 Hl Hs Hev H0 Hle Hf; try (cbn in Hf; lia); cbn [insert_event head default from_option id].
  - cbn [Z.eqb orb]. rewrite app_nil_r in *. exists l1, [].
    assert (Hk : linked_in (dl t) l1 ev [] (if last_or 0 l1 =? 0 then set_nxt ev 0 (set_prv ev 0 (dl t)) else set_nxt (last_or 0 l1) ev (set_prv ev (last_or 0 l1) (set_nxt ev 0 (dl t))))).
    { apply insert_links; rewrite ?app_nil_r; [apply (dl_nodup _ _ _ Hl)|by apply (dlist_nonnull _ _ _ Hl)|done|]. cbn. by destruct (Z.eqb_spec (last_or 0 l1) 0) as [->|]. }
    pose proof (dlist_link _ _ l1 ev [] _ ltac:(by rewrite app_nil_r) ltac:(by rewrite app_nil_r) H0 Hk) as Hl'.
    destruct (Z.eqb_spec (last_or 0 l1) 0) as [E|E].
    + assert (El : l1 = []). { destruct (decide (l1 = [])); [done|]. exfalso. apply (dlist_nonnull _ _ _ Hl). rewrite <- E. by apply last_or_in. }
      subst l1. apply dlist_empty in Hl. rewrite Hl. cbn [Z.eqb assert mbind outcome_bind negb]. eexists _, _. split_and!; [done|done|exact Hl'|constructor|constructor].
    + cbn [negb Z.eqb]. eexists _, _. split_and!; [done|by rewrite app_nil_r| |done|constructor]. rewrite (dlist_head _ _ _ Hl). by destruct l1.
  - assert (He0 : e <> 0) by (intros ->; apply (dlist_nonnull _ _ _ Hl), elem_of_app; right; left). destruct (Z.eqb_spec e 0); [done|]. cbn [orb]. destruct (Z.ltb_spec (dtime t ev) (dtime t e)) as [Hlt|Hge].
    + exists l1, (e :: l2). assert (Hgt : Forall (fun a => dtime t ev < dtime t a) (e :: l2)).
      { apply sorted_app in Hs as (_ & Hs & _). apply StronglySorted_inv in Hs as [_ Hs]. constructor; [done|]. eapply Forall_impl; [exact Hs|]. cbn. lia. }
      assert (Hk : linked_in (dl t) l1 ev (e :: l2) (if last_or 0 l1 =? 0 then set_prv e ev (set_nxt ev e (set_prv ev 0 (dl t))) else set_prv e ev (set_nxt (last_or 0 l1) ev (set_prv ev (last_or 0 l1) (set_nxt ev e (dl t)))))).
      { apply insert_links; [apply (dl_nodup _ _ _ Hl)|by apply (dlist_nonnull _ _ _ Hl)|done|]. cbn. destruct (Z.eqb_spec e 0); [done|]. by destruct (Z.eqb_spec (last_or 0 l1) 0) as [->|]. }
      pose proof (dlist_link _ _ l1 ev (e :: l2) _ Hl Hev H0 Hk) as Hl'. destruct (Z.eqb_spec (last_or 0 l1) 0) as [E|E].
      * assert (El : l1 = []). { destruct (decide (l1 = [])); [done|]. exfalso. apply (dlist_nonnull _ _ _ Hl). rewrite <- E. apply elem_of_app. left. by apply last_or_in. }
        subst l1. pose proof (dlist_head _ _ _ Hl) as Hh. cbn in Hh. rewrite Hh, Z.eqb_refl. cbn [assert mbind outcome_bind negb]. eexists _, _. split_and!; [done|done|exact Hl'|constructor|done].
      * cbn [negb]. eexists _, _. split_and!; [done|done| |done|done]. rewrite (dlist_head _ _ _ Hl). destruct l1; [done|]. exact Hl'.
    + destruct (dlist_middle _ _ _ _ _ Hl) as (_ & _ & En & _). rewrite En. replace (l1 ++ e :: l2) with ((l1 ++ [e]) ++ l2) in Hl, Hs, Hev |- * by (by rewrite <- app_assoc).
      destruct (IH fuel (l1 ++ [e]) Hl Hs Hev H0 ltac:(apply Forall_app; by split; [|constructor]) ltac:(cbn in Hf; lia)) as (m1 & m2 & h & k & E & Hm). rewrite last_or_snoc in E. by exists m1, m2, h, k.
Qed.

Lemma sorted_time t ev x L : ev ∉ L -> StronglySorted (fun a b => dtime t a <= dtime t b) L -> StronglySorted (fun a b => dtime (set_time ev x t) a <= dtime (set_time ev x t) b) L.
Proof.
  intros Hev Hs. induction Hs as [|a L Hs IH Ha]; constructor; [apply IH; by intros ?; apply Hev; right|]. rewrite Forall_forall in *. intros b Hb. cbn [set_time dtime].
  rewrite !fn_lookup_insert_ne by (intros ->; apply Hev; (by left) || (by right)). by apply Ha.
Qed.

Lemma enqueue_timed fuel L t ev x : timed L t -> ev ∉ L -> ev <> 0 -> (length L < fuel)%nat -> let t1 := set_time ev x t in
  exists m1 m2 t2, insert_event fuel ev (deferred_events t1) 0 t1 = Done t2 /\ L = m1 ++ m2 /\ timed (m1 ++ ev :: m2) (update_wakeup_disabled t2) /\ dtime t2 = <[ev := x]> (dtime t) /\
    Forall (fun a => dtime t a <= x) m1 /\ Forall (fun a => x < dtime t a) m2.
Proof.
  intros [H1 H2 _] Hev H0 Hf t1. pose proof (sorted_time t ev x L Hev H2) as Hs. fold t1 in Hs.
  destruct (insert_event_spec ev t1 L fuel [] H1 Hs Hev H0 ltac:(constructor) Hf) as (m1 & m2 & h & k & E & Em & Hl & Hm1 & Hm2). cbn [app] in Em. subst L.
  assert (Ehd : deferred_events t1 = default 0 (head (m1 ++ m2))) by apply (dlist_head _ _ _ H1). rewrite Ehd. cbn [last_or last default from_option id] in E. unfold last_or in E. cbn in E.
  exists m1, m2, (set_deferred h k t1). assert (Ht : dtime t1 ev = x) by apply fn_lookup_insert. rewrite Ht in Hm1, Hm2.
  assert (Hold : forall a, a ∈ m1 ++ m2 -> dtime t1 a = dtime t a) by (intros a Ha; unfold t1; cbn; rewrite fn_lookup_insert_ne; [done|congruence]).
  split_and!; [done|done| |done| |].
  - apply update_wakeup_timed; [exact Hl|]. apply sorted_app in Hs as (S1 & S2 & S3). apply (sorted_app t1 m1 (ev :: m2)). split_and!; [done| |].
    + constructor; [done|]. rewrite Ht. eapply Forall_impl; [exact Hm2|]. cbn. lia.
    + intros a b Ha [->|Hb]%elem_of_cons; [|by apply S3]. rewrite Ht. rewrite Forall_forall in Hm1. by apply Hm1.
  - apply Forall_forall. intros a Ha. rewrite Forall_forall in Hm1. rewrite <- (Hold a) by (apply elem_of_app; by left). by apply Hm1.
  - apply Forall_forall. intros a Ha. rewrite Forall_forall in Hm2. rewrite <- (Hold a) by (apply elem_of_app; by right). by apply Hm2.
Qed.

(** ** Removal *)
Lemma unlink_timed l1 e l2 t : timed (l1 ++ e :: l2) t ->
  timed (l1 ++ l2) (update_wakeup_disabled
    (let k := dl t in
     let h := if prv k e =? 0 then nxt k e else deferred_events t in
     let k := if prv k e =? 0 then k else set_nxt (prv k e) (nxt k e) k in
     let k := if negb (nxt k e =? 0) then set_prv (nxt k e) (prv k e) k else k in
     set_deferred h k t)).
Proof.
  intros [H1 H2 _]. destruct (dlist_middle _ _ _ _ _ H1) as (He & Ep & En & Eh). pose proof (dl_nodup _ _ _ H1) as Hn. destruct (nodup_parts _ _ _ Hn) as (N1 & N2 & N3 & N4 & N5 & N6).
  assert (H0 : 0 ∉ l1 ++ e :: l2) by (by apply (dlist_nonnull _ _ _ H1)). cbv zeta. rewrite Ep.
  assert (Hp : l1 <> [] -> last_or 0 l1 ∈ l1 /\ last_or 0 l1 <> 0 /\ last_or 0 l1 <> e) by (intros Hne; pose proof (last_or_in 0 l1 Hne); split_and!; [done|intros E; apply H0; rewrite <- E; apply elem_of_app; by left|congruence]).
  assert (Hh : l2 <> [] -> default 0 (head l2) ∈ l2 /\ default 0 (head l2) <> 0 /\ default 0 (head l2) <> e) by (intros Hne; pose proof (head_in l2 0 Hne); split_and!; [done|intros E; apply H0; rewrite <- E; apply elem_of_app; right; by right|congruence]).
  assert (Hsort : StronglySorted (fun a b => dtime t a <= dtime t b) (l1 ++ l2)).
  { apply sorted_app in H2 as (S1 & [S2 _]%StronglySorted_inv & S3). apply sorted_app. split_and!; [done|done|]. intros a b Ha Hb. apply S3; [done|by right]. }
  apply update_wakeup_timed; [|exact Hsort]. cbn [set_deferred dl deferred_events].
  assert (Ehd : (if last_or 0 l1 =? 0 then nxt (dl t) e else deferred_events t) = default 0 (head (l1 ++ l2))).
  { rewrite En, Eh. destruct l1 as [|a l1]; [done|]. destruct (Hp ltac:(done)) as (_ & Hnz & _). by zdecide. }
  rewrite Ehd. eapply dlist_unlink; [exact H1|]. set (p := last_or 0 l1) in *. set (h := default 0 (head l2)) in *.
  destruct (decide (l1 = [])) as [E1|E1], (decide (l2 = [])) as [E2|E2]; try (destruct (Hp E1) as (? & ? & ?)); try (destruct (Hh E2) as (? & ? & ?));
    try (assert (Ep0 : p = 0) by (unfold p; by subst l1)); try (assert (Eh0 : h = 0) by (unfold h; by subst l2)); zdecide; cbn [set_nxt nxt prv]; rewrite ?fn_lookup_insert_ne by congruence; rewrite En; zdecide; cbn [negb];
    constructor; fold p; fold h; cbn [set_nxt set_prv nxt prv]; rewrite ?fn_lookup_insert, ?fn_lookup_insert_ne by congruence; rewrite ?fn_lookup_insert, ?Ep; try done;
    try (intros a Ha Hne; rewrite ?fn_lookup_insert_ne by congruence; done).
Qed.

(** ** The timers that are due *)
Lemma suffix_timed l1 l2 t : timed (l1 ++ l2) t -> let e := default 0 (head l2) in
  timed l2 (update_wakeup_disabled (set_deferred e (if negb (e =? 0) then set_prv e 0 (dl t) else dl t) t)).
Proof.
  intros [[Hs Hn] H2 _] e. apply seg_app in Hs as (m & _ & Hs). apply NoDup_app in Hn as (_ & _ & Hn). apply sorted_app in H2 as (_ & H2 & _). apply update_wakeup_timed; [|exact H2]. cbn [set_deferred dl deferred_events].
  pose proof (seg_head _ _ _ _ _ Hs) as Hm. rewrite Hm in Hs. fold e in Hs. destruct l2 as [|x l2]; [split; [done|constructor]|]. cbn in e. subst e.
  assert (x <> 0) by (destruct Hs as (_ & ? & _); done). zdecide. cbn [negb]. split; [|done]. eapply seg_start; [exact Hs|done| |intros _; apply fn_lookup_insert].
  intros a Ha. split; [done|]. intros Hne. cbn. by rewrite fn_lookup_insert_ne.
Qed.

Section Timers.
Context (all : list Z) (Hbound : (length all < MAX_THREADS)%nat) (Hpage : Forall (fun t => BASE_PAGE_SIZE < t) all) (handle : Z).
Context (chans : list Z) (Hnull : 0 ∉ chans) (fuel : nat) (Hfuel : (length chans < fuel)%nat).
Context (home : Z -> Z) (Hhome : forall c, c ∈ chans -> home c <> 0).

#[local] Notation wrep := (wrep all handle chans home).

(** All channels of a list are triggered. *)
Lemma trigger_due_spec now t : forall l2 n l1 R Q C P s, dlist (dl t) (deferred_events t) (l1 ++ l2) -> StronglySorted (fun a b => dtime t a <= dtime t b) (l1 ++ l2) -> wrep R Q C P s ->
  (forall e, e ∈ l2 -> e ∈ chans /\ state (chan s e) = CHAN_IDLE) -> (length l2 < n)%nat ->
  exists m1 m2 s' R' Q' C' P', trigger_due handle n (default 0 (head l2)) now t s = Done (default 0 (head m2), s') /\ l2 = m1 ++ m2 /\ wrep R' Q' C' P' s' /\ fired home m1 R Q s R' Q' s' /\
    Forall (fun e => dtime t e <= now) m1 /\ Forall (fun e => now < dtime t e) m2.
Proof.
  induction l2 as [|e l2 IH]; intros [|n] l1 R Q C P s Hl Hs Hw Hid Hn; try (cbn in Hn; lia); cbn [trigger_due head default from_option id].
  - cbn [Z.eqb negb andb]. exists [], [], s, R, Q, C, P. split_and!; [done|done|done|apply fired_none|constructor|constructor].
  - assert (He0 : e <> 0) by (intros ->; apply (dlist_nonnull _ _ _ Hl), elem_of_app; right; left). zdecide. cbn [negb andb]. destruct (Z.leb_spec (dtime t e) now) as [Hle|Hgt].
    + destruct (Hid e ltac:(left)) as [Hc Hi]. destruct (fire_one all Hbound Hpage handle chans Hnull fuel Hfuel home Hhome R Q C P s e Hw Hc Hi) as (s1 & R1 & Q1 & C1 & P1 & -> & Hw1 & Hf1). cbn [mbind outcome_bind].
      change (assert (err_is_ok SYS_ERR_OK)) with (Done tt). cbn [mbind outcome_bind]. destruct (dlist_middle _ _ _ _ _ Hl) as (_ & _ & En & _). rewrite En. pose proof (dl_nodup _ _ _ Hl) as Hnd.
      replace (l1 ++ e :: l2) with ((l1 ++ [e]) ++ l2) in Hl, Hs by (by rewrite <- app_assoc).
      destruct (IH n (l1 ++ [e]) R1 Q1 C1 P1 s1 Hl Hs Hw1) as (m1 & m2 & s' & R' & Q' & C' & P' & E & -> & Hw' & Hf & Hm1 & Hm2); [|cbn in Hn; lia|].
      * intros x Hx. destruct (Hid x ltac:(by right)) as [Hxc Hxi]. split; [done|]. rewrite (fi_chan _ _ _ _ _ _ _ _ Hf1), decide_False; [done|]. rewrite list_elem_of_singleton. intros ->.
        destruct (nodup_parts _ _ _ Hnd) as (_ & _ & _ & _ & Hx' & _). done.
      * exists (e :: m1), m2, s', R', Q', C', P'. split_and!; [done|done|done|by apply (fired_trans home [e] m1 _ _ _ _ _ _ _ _ _ Hf1 Hf)|by constructor|done].
    + exists [], (e :: l2), s, R, Q, C, P. split_and!; [done|done|done|apply fired_none|constructor|]. apply sorted_app in Hs as (_ & [_ Hs]%StronglySorted_inv & _). constructor; [done|]. eapply Forall_impl; [exact Hs|]. cbn. lia.
Qed.

(** A list that is cut at a time. *)
Lemma split_due t now m1 m2 : Forall (fun e => dtime t e <= now) m1 -> Forall (fun e => now < dtime t e) m2 ->
  m1 = filter (fun e => dtime t e <= now) (m1 ++ m2) /\ m2 = filter (fun e => now < dtime t e) (m1 ++ m2).
Proof.
  intros H1 H2. rewrite !filter_app. assert (A : forall (P : Z -> Prop) `{!forall x, Decision (P x)} l, Forall P l -> filter P l = l).
  { intros P ? l. induction 1 as [|x l Hx _ IH]; [done|]. by rewrite filter_cons_True, IH. }
  assert (B : forall (P : Z -> Prop) `{!forall x, Decision (P x)} l, Forall (fun x => ~ P x) l -> filter P l = []).
  { intros P ? l. induction 1 as [|x l Hx _ IH]; [done|]. by rewrite filter_cons_False. }
  rewrite (A (fun e => dtime t e <= now) _ m1 H1), (A (fun e => now < dtime t e) _ m2 H2).
  rewrite (B (fun e => dtime t e <= now) _ m2), (B (fun e => now < dtime t e) _ m1); [by rewrite app_nil_r| |]; (eapply Forall_impl; [eassumption|]; cbn; lia).
Qed.

Lemma trigger_deferred_spec now L t R Q C P s : timed L t -> wrep R Q C P s -> (forall e, e ∈ L -> e ∈ chans /\ state (chan s e) = CHAN_IDLE) ->
  exists t' s' R' Q' C' P', trigger_deferred_events_disabled handle fuel now t s = Done (t', s') /\ wrep R' Q' C' P' s' /\ dtime t' = dtime t /\
    fired home (filter (fun e => dtime t e <= u64 (now * SYSTIME_MULTIPLIER)) L) R Q s R' Q' s' /\ timed (filter (fun e => u64 (now * SYSTIME_MULTIPLIER) < dtime t e) L) t'.
Proof.
  intros Ht Hw Hid. pose proof Ht as [H1 H2 _]. assert (Hlen : (length L < fuel)%nat).
  { assert (Hsub : L ⊆ chans) by (intros x Hx; by apply Hid). pose proof (submseteq_length _ _ (NoDup_submseteq _ _ (dl_nodup _ _ _ H1) Hsub)). lia. }
  unfold trigger_deferred_events_disabled. rewrite (dlist_head _ _ _ H1).
  destruct (trigger_due_spec (u64 (now * SYSTIME_MULTIPLIER)) t L fuel [] R Q C P s H1 H2 Hw Hid Hlen) as (m1 & m2 & s' & R' & Q' & C' & P' & -> & -> & Hw' & Hf & Hm1 & Hm2). cbn [mbind outcome_bind].
  destruct (split_due t _ m1 m2 Hm1 Hm2) as [<- <-]. eexists _, s', R', Q', C', P'. split; [done|]. split_and!; [done|done|done|]. by apply (suffix_timed m1 m2).
Qed.
End Timers.
