(* ===== verification/LmpChan.v ===== *)
(** Channels of local messages that wait to send (lib/aos/lmp_chan.c): the
    dispatcher keeps them in a list and triggers all of them each time it is
    dispatched.

    A channel and the state of its send event have the same name.  The first
    channel of the list is a field of the dispatcher. *)
From S2P Require Import Prelude Ring Threads Waitset.

(** The list: its links are in the channels. *)
Definition set_sends (h : Z) (s : wstate) : wstate :=
  let t := wt s in
  with_wt (Threads (tlinks t) (thr t) (queues t) (runq t) (current t) h (polled_channels t) (timeslice t) (haswork t)) s.
Definition sends_list (s : wstate) : Z := lmp_send_events_list (wt s).

(** The part of [lmp_chan_init] that concerns sending. *)
Definition lmp_chan_init (c : Z) (k : links) (s : wstate) : links * wstate :=
  (set_nxt c 0 (set_prv c 0 k), waitset_chanstate_init c CHANTYPE_LMP_OUT s).

Definition lmp_chan_register_send (c ws : Z) (f : event_closure) (k : links) (s : wstate) : outcome (errval * links * wstate) :=
  ASSERT negb (c =? 0);
  ASSERT negb (ws =? 0);
  '(ev, s) ← waitset_chan_register_disabled ws c f s;
  if err_is_fail ev then Done (ev, k, s) else
  ASSERT (nxt k c =? 0) && (prv k c =? 0);
  if sends_list s =? 0 then Done (ev, set_nxt c c (set_prv c c k), set_sends c s) else
  let k := set_prv c (prv k (sends_list s)) k in
  let k := set_nxt c (sends_list s) k in
  _ ← nonnull (prv k c);
  let k := set_nxt (prv k c) c k in
  let k := set_prv (nxt k c) c k in
  Done (ev, k, s).

Definition lmp_chan_deregister_send (c : Z) (k : links) (s : wstate) : outcome (errval * links * wstate) :=
  ASSERT negb (c =? 0);
  '(ev, s) ← waitset_chan_deregister_disabled c s;
  if err_is_fail ev then Done (ev, k, s) else
  ASSERT negb (nxt k c =? 0) && negb (prv k c =? 0);
  if nxt k c =? prv k c then
    ASSERT sends_list s =? c;
    Done (ev, set_nxt c 0 (set_prv c 0 k), set_sends 0 s)
  else
    let k := set_nxt (prv k c) (nxt k c) k in
    let k := set_prv (nxt k c) (prv k c) k in
    let s := if sends_list s =? c then set_sends (nxt k c) s else s in
    Done (ev, set_nxt c 0 (set_prv c 0 k), s).

Definition lmp_chan_migrate_send (c ws : Z) (s : wstate) : outcome wstate :=
  ASSERT negb (c =? 0);
  waitset_chan_migrate c ws s.

(** The part of [lmp_chan_destroy] that concerns sending. *)
Definition lmp_chan_destroy (c : Z) (k : links) (s : wstate) : outcome (links * wstate) :=
  '(k, s) ← (if waitset_chan_is_registered c s then
    ASSERT negb (prv k c =? 0) && negb (nxt k c =? 0);
    if nxt k c =? prv k c then
      ASSERT nxt k c =? c;
      ASSERT sends_list s =? c;
      Done (set_nxt c 0 (set_prv c 0 k), set_sends 0 s)
    else
      let k := set_nxt (prv k c) (nxt k c) k in
      let k := set_prv (nxt k c) (prv k c) k in
      Done (set_nxt c 0 (set_prv c 0 k), s)
  else Done (k, s));
  s ← waitset_chanstate_destroy c s;
  Done (k, s).

Section Retry.
Context (handle : Z).

Fixpoint retry_loop (fuel : nat) (first c : Z) (k : links) (s : wstate) : outcome (links * wstate) :=
  match fuel with
  | O => Fault OutOfFuel
  | S fuel =>
    if c =? 0 then Done (k, s) else
    let next := nxt k c in
    ASSERT negb (next =? 0);
    '(ev, s) ← waitset_chan_trigger_disabled handle c s;
    ASSERT err_is_ok ev;
    let k := set_nxt c 0 (set_prv c 0 k) in
    if next =? first then Done (k, s) else retry_loop fuel first next k s
  end.

Definition lmp_channels_retry_send_disabled (fuel : nat) (k : links) (s : wstate) : outcome (links * wstate) :=
  '(k, s) ← retry_loop fuel (sends_list s) (sends_list s) k s;
  Done (k, set_sends 0 s).
End Retry.
