(* ===== verification/LmpChanCorrect.v ===== *)
(** Correctness of LmpChan.v: all channels that wait to send get their event
    when the dispatcher runs. *)
From S2P Require Import Prelude Ring Threads ThreadsCorrect Waitset WaitsetQueues WaitsetCorrect WaitsetEvents WaitsetFire LmpChan.

(** * The list *)

Section Sends.
Context (all : list Z) (Hbound : (length all < MAX_THREADS)%nat) (Hpage : Forall (fun t => BASE_PAGE_SIZE < t) all) (handle : Z).
Context (chans : list Z) (Hnull : 0 ∉ chans) (fuel : nat) (Hfuel : (length chans < fuel)%nat).
Context (home : Z -> Z) (Hhome : forall c, c ∈ chans -> home c <> 0).

#[local] Notation wrep := (wrep all handle chans home).

Lemma wrep_threads R Q C P s x : wrep R Q C P s -> trep all handle R Q x -> polled_channels x = polled_channels (wt s) -> wrep R Q C P (with_wt x s).
Proof. intros [W1 [W2 W2'] W3 W4 W5 W6 W7] Hx Hp. constructor; try done. cbn [with_wt wt pl]. by rewrite Hp. Qed.

Lemma set_sends_wrep R Q C P s h : wrep R Q C P s -> wrep R Q C P (set_sends h s).
Proof. intros Hw. apply wrep_threads; [done| |done]. destruct (wr_threads _ _ _ _ _ _ _ _ _ Hw). by constructor. Qed.

(** [S] are the channels that wait to send. *)
Record sending (snds : list Z) (S : list Z) (k : links) (s : wstate) : Prop := {
  sg_list : ring k (sends_list s) S;
  sg_idle : forall c, c ∈ S <-> c ∈ snds /\ state (chan s c) = CHAN_IDLE;
  sg_out : forall c, c ∈ snds -> c ∉ S -> nxt k c = 0 /\ prv k c = 0
}.

(** The walk: [l1] is done. *)
Lemma retry_loop_spec k0 q S : ring k0 q S -> forall l2 n l1 c k R Q C P s, S = l1 ++ c :: l2 -> wrep R Q C P s ->
  (forall x, x ∈ c :: l2 -> x ∈ chans /\ state (chan s x) = CHAN_IDLE) -> (forall x, x ∈ c :: l2 -> nxt k x = nxt k0 x) -> (length l2 < n)%nat ->
  exists k' s' R' Q' C' P', retry_loop handle n q c k s = Done (k', s') /\ wrep R' Q' C' P' s' /\ fired home (c :: l2) R Q s R' Q' s' /\
    (forall x, x ∈ c :: l2 -> nxt k' x = 0 /\ prv k' x = 0) /\ (forall x, x ∉ c :: l2 -> nxt k' x = nxt k x /\ prv k' x = prv k x).
Proof.
  intros Hr. induction l2 as [|y l2 IH]; intros [|n] l1 c k R Q C P s ES Hw Hid Hk Hn; try (cbn in Hn; lia); cbn [retry_loop].
  all: assert (HcS : c ∈ S) by (rewrite ES; apply elem_of_app; right; left); assert (Hc0 : c <> 0) by (intros ->; by apply (ring_nonnull _ _ _ Hr)); zdecide.
  all: destruct (ring_neighbours _ _ _ _ Hr HcS) as (Hnx & _); assert (Hn0 : nxt k0 c <> 0) by (intros E; apply (ring_nonnull _ _ _ Hr); congruence).
  all: rewrite (Hk c) by left; zdecide; cbn [negb assert mbind outcome_bind].
  all: destruct (Hid c ltac:(left)) as [Hcc Hci]; destruct (fire_one all Hbound Hpage handle chans Hnull fuel Hfuel home Hhome R Q C P s c Hw Hcc Hci) as (s1 & R1 & Q1 & C1 & P1 & E1 & Hw1 & Hf1).
  all: rewrite E1; cbn [mbind outcome_bind]; change (assert (err_is_ok SYS_ERR_OK)) with (Done tt); cbn [mbind outcome_bind].
  all: rewrite ES in Hr; pose proof (ring_nodup _ _ _ Hr) as Hnd; rewrite (ring_next _ _ _ _ _ Hr); cbn [head default from_option id].
  - rewrite Z.eqb_refl. eexists _, s1, R1, Q1, C1, P1. split_and!; [done|done|done| |].
    + intros x Hx%list_elem_of_singleton. subst x. by flookup.
    + intros x Hx. assert (x <> c) by (intros ->; apply Hx; left). by flookup.
  - pose proof (next_not_first _ _ _ _ _ _ Hr). zdecide. assert (Hcl : c ∉ y :: l2) by (apply NoDup_app in Hnd as (_ & _ & Hnd); by apply NoDup_cons in Hnd as [? _]).
    destruct (IH n (l1 ++ [c]) y (set_nxt c 0 (set_prv c 0 k)) R1 Q1 C1 P1 s1) as (k' & s' & R' & Q' & C' & P' & E & Hw' & Hf & A1 & A2);
      [by rewrite ES, <- app_assoc|done| | |cbn in Hn; lia|].
    + intros x Hx. destruct (Hid x ltac:(by right)) as [? ?]. split; [done|]. rewrite (fi_chan _ _ _ _ _ _ _ _ Hf1), decide_False; [done|]. rewrite list_elem_of_singleton. congruence.
    + intros x Hx. assert (x <> c) by congruence. flookup. apply Hk. by right.
    + exists k', s', R', Q', C', P'. split_and!; [done|done|by apply (fired_trans home [c] (y :: l2) _ _ _ _ _ _ _ _ _ Hf1 Hf)| |].
      * intros x [->|Hx]%elem_of_cons; [|by apply A1]. destruct (A2 c Hcl) as [-> ->]. by flookup.
      * intros x Hx. apply not_elem_of_cons in Hx as [Hx1 Hx2]. destruct (A2 x Hx2) as [-> ->]. by flookup.
Qed.

Lemma retry_spec snds S k R Q C P s : snds ⊆ chans -> sending snds S k s -> wrep R Q C P s ->
  exists k' s' R' Q' C' P', lmp_channels_retry_send_disabled handle fuel k s = Done (k', set_sends 0 s') /\ wrep R' Q' C' P' (set_sends 0 s') /\ fired home S R Q s R' Q' s' /\ sending snds [] k' (set_sends 0 s').
Proof.
  intros Hsub [H1 H2 H3] Hw. unfold lmp_channels_retry_send_disabled. assert (Hlen : (length S < fuel)%nat).
  { assert (HS : S ⊆ chans) by (intros x Hx; by apply H2 in Hx as [?%Hsub _]). pose proof (submseteq_length _ _ (NoDup_submseteq _ _ (ring_nodup _ _ _ H1) HS)). lia. }
  assert (Hloop : exists k' s' R' Q' C' P', retry_loop handle fuel (sends_list s) (sends_list s) k s = Done (k', s') /\ wrep R' Q' C' P' s' /\ fired home S R Q s R' Q' s' /\
    (forall x, x ∈ snds -> nxt k' x = 0 /\ prv k' x = 0)).
  { destruct S as [|c l].
    - apply ring_empty in H1. rewrite H1. exists k, s, R, Q, C, P. destruct fuel; [lia|]. split_and!; [done|done|apply fired_none|]. intros x Hx. apply H3; [done|by apply not_elem_of_nil].
    - pose proof (ring_head _ _ _ H1) as Hh. cbn in Hh. rewrite Hh in H1 |- *. assert (Hids : forall x, x ∈ c :: l -> x ∈ chans /\ state (chan s x) = CHAN_IDLE) by (intros x Hx; apply H2 in Hx as [? ?]; auto).
      destruct (retry_loop_spec k c (c :: l) H1 l fuel [] c k R Q C P s eq_refl Hw Hids ltac:(done) ltac:(cbn in Hlen; lia)) as (k' & s' & R' & Q' & C' & P' & -> & Hw' & Hf & A1 & A2).
      exists k', s', R', Q', C', P'. split_and!; [done|done|done|]. intros x Hx. destruct (decide (x ∈ c :: l)) as [Hi|Hi]; [by apply A1|]. destruct (A2 x Hi) as [-> ->]. by apply H3. }
  destruct Hloop as (k' & s' & R' & Q' & C' & P' & -> & Hw' & Hf & A). cbn [mbind outcome_bind]. exists k', s', R', Q', C', P'. split_and!; [done|by apply set_sends_wrep|done|].
  constructor; [by apply ring_empty| |]; [|intros c Hc _; by apply A]. intros c. split; [by intros ?%elem_of_nil|]. intros [Hc Hi]. exfalso. change (chan (set_sends 0 s') c) with (chan s' c) in Hi.
    rewrite (fi_chan _ _ _ _ _ _ _ _ Hf) in Hi. destruct (decide (c ∈ S)) as [|Hn]; [done|]. apply Hn. by apply H2.
Qed.

Lemma register_send_spec snds S k R Q C P s c f : snds ⊆ chans -> sending snds S k s -> wrep R Q C P s -> c ∈ snds -> state (chan s c) = CHAN_UNREGISTERED -> handler f <> 0 ->
  exists k' s' C', lmp_chan_register_send c (home c) f k s = Done (SYS_ERR_OK, k', s') /\ wrep R Q C' P s' /\ sending snds (S ++ [c]) k' s' /\ (forall x, x <> c -> chan s' x = chan s x) /\ state (chan s' c) = CHAN_IDLE.
Proof.
  intros Hsub [H1 H2 H3] Hw Hc Hun Hf. pose proof (Hsub _ Hc) as Hcc. assert (Hc0 : c <> 0) by congruence. pose proof (Hhome c Hcc) as Hh. assert (HcS : c ∉ S) by (rewrite H2; intros [_ ?]; congruence).
  unfold lmp_chan_register_send. zdecide. cbn [negb assert mbind outcome_bind].
  destruct (register_ok all Hbound handle chans Hnull fuel Hfuel home R Q C P s c f Hw Hcc Hf Hun) as (s1 & -> & Hw1 & Et & _ & _ & Hch & Ec). cbn [mbind outcome_bind err_is_fail SYS_ERR_OK].
  destruct (H3 c Hc HcS) as [En Ep]. rewrite En, Ep. cbn [Z.eqb andb assert mbind outcome_bind]. assert (Es : sends_list s1 = sends_list s) by (unfold sends_list; by rewrite Et). rewrite Es.
  assert (Hidle : forall s', chan s' = chan s1 -> forall x, x ∈ S ++ [c] <-> x ∈ snds /\ state (chan s' x) = CHAN_IDLE).
  { intros s' E x. rewrite E, elem_of_app, list_elem_of_singleton. destruct (decide (x = c)) as [->|Hne]; [rewrite Ec; cbn; tauto|]. rewrite Hch, <- H2 by done. tauto. }
  assert (Hst : state (chan s1 c) = CHAN_IDLE) by (by rewrite Ec).
  destruct (enqueue_ring _ _ _ c H1 HcS Hc0) as (q & k1 & Eq & Hr & Hu). unfold enqueue in Eq. destruct (Z.eqb_spec (sends_list s) 0) as [E0|E0].
  - injection Eq as <- <-. eexists _, _, _. split; [done|]. split_and!; [by apply set_sends_wrep, Hw1| |done|done]. constructor; [done|by apply Hidle|].
    intros x Hx Hn. rewrite elem_of_app, list_elem_of_singleton in Hn. destruct (Hu x) as [-> ->]; [rewrite elem_of_cons; tauto|]. apply H3; tauto.
  - cbn [set_nxt set_prv nxt prv] in Eq |- *. rewrite !fn_lookup_insert in *. assert (Hpr : prv k (sends_list s) <> 0).
    { assert (Hin : sends_list s ∈ S) by (rewrite (ring_head _ _ _ H1) in *; by destruct S; [|left]). destruct (ring_neighbours _ _ _ _ H1 Hin) as (_ & ? & _). intros E. apply (ring_nonnull _ _ _ H1). congruence. }
    assert (Hsc : sends_list s <> c) by (intros E; apply HcS; rewrite <- E, (ring_head _ _ _ H1) in *; by destruct S; [|left]).
    rewrite fn_lookup_insert_ne in Eq by congruence. rewrite fn_lookup_insert in Eq. unfold nonnull in *. zdecide. destruct (Z.eqb_spec (prv k (sends_list s)) 0); [done|]. cbn [mbind outcome_bind] in *. injection Eq as <- <-.
    eexists _, _, _. split; [done|]. rewrite ?fn_lookup_insert, ?fn_lookup_insert_ne by congruence.
    split_and!; [exact Hw1| |done|done].
    assert (Epc : prv k (sends_list s) <> c).
    { assert (Hin : sends_list s ∈ S) by (rewrite (ring_head _ _ _ H1) in *; by destruct S; [|left]). destruct (ring_neighbours _ _ _ _ H1 Hin) as (_ & ? & _). congruence. }
    rewrite fn_lookup_insert_ne, fn_lookup_insert by done. constructor; [rewrite Es; exact Hr|by apply Hidle|].
    intros x Hx Hn. rewrite elem_of_app, list_elem_of_singleton in Hn. destruct (Hu x) as [U1 U2]; [rewrite elem_of_cons; tauto|]. destruct (H3 x Hx ltac:(tauto)) as [V1 V2].
    split; [exact (eq_trans U1 V1)|exact (eq_trans U2 V2)].
Qed.
End Sends.
