(* ===== verification/Dispatch.v ===== *)
(** The upcall of the kernel that runs a dispatcher (lib/aos/dispatch.c):
    timers, messages, channels that wait to send, polled channels, and the
    choice of a thread. *)
From S2P Require Import Prelude Ring Threads Waitset Lmp LmpPoll LmpChan Deferred.

Record dispatcher := Dispatcher {
  d_eps : eps_state;             (** with the waitsets *)
  d_timers : timers;
  d_sends : links;               (** of the channels that wait to send *)
  d_systime : Z;
  run_counter : Z
}.

Definition d_ws (d : dispatcher) : wstate := ews (d_eps d).

Definition set_timeslice (x : Z) (s : wstate) : wstate :=
  let t := wt s in
  with_wt (Threads (tlinks t) (thr t) (queues t) (runq t) (current t) (lmp_send_events_list t) (polled_channels t) x (haswork t)) s.

(** Zero is never the number of a timeslice. *)
Definition next_timeslice (x : Z) : Z := let x := u32 (x + 1) in if x =? 0 then u32 (x + 1) else x.

Section Run.
Context (handle offsetof_k : Z) (fuel : nat).

Definition disp_run (d : dispatcher) : outcome dispatcher :=
  let s := set_timeslice (next_timeslice (timeslice (wt (d_ws d)))) (d_ws d) in
  '(t, s) ← trigger_deferred_events_disabled handle fuel (d_systime d) (d_timers d) s;
  let p := with_ews s (d_eps d) in
  p ← (if negb (disp_delivered p =? disp_seen p) then lmp_endpoints_poll_disabled handle offsetof_k fuel p else Done p);
  '(k, s) ← lmp_channels_retry_send_disabled handle fuel (d_sends d) (ews p);
  s ← poll_channels_disabled handle fuel s;
  x ← thread_run_disabled (wt s);
  Done (Dispatcher (with_ews (with_wt x s) p) t k (d_systime d) (u64 (run_counter d + 1))).

(** The message is stored, and its endpoint becomes the hint. *)
Definition disp_lrpc (e bufpos arg1 arg2 arg3 arg4 : Z) (d : dispatcher) : outcome dispatcher :=
  let p := d_eps d in
  k ← lmp_endpoint_store_lrpc_disabled (ebuflen p e) bufpos arg1 arg2 arg3 arg4 (ek p e);
  let p := EpsState (ews p) (el p) (lmp_poll_list p) (<[e := k]> (ek p)) (ebuflen p) (seen p) (disp_delivered p) (disp_seen p) (u32 (e + offsetof_k - handle)) in
  disp_run (Dispatcher p (d_timers d) (d_sends d) (d_systime d) (run_counter d)).
End Run.
