(* ===== verification/DispatchCorrect.v ===== *)
(** Correctness of Dispatch.v: when the kernel runs a dispatcher, everything
    that threads wait for and that happened gives them an event. *)
From S2P Require Import Prelude MdbTree Hamlet MdbRel Caps CapDelete Lmp LmpCorrect Ring Chain Threads ThreadsCorrect Waitset WaitsetQueues WaitsetCorrect WaitsetEvents WaitsetFire LmpPoll LmpPollCorrect Deferred DeferredCorrect LmpChan LmpChanCorrect Dispatch.

Section Dispatch.
Context (all : list Z) (Hbound : (length all < MAX_THREADS)%nat) (Hpage : Forall (fun t => BASE_PAGE_SIZE < t) all) (handle offsetof_k : Z).
Context (chans : list Z) (Hnull : 0 ∉ chans) (fuel : nat) (Hfuel : (length chans < fuel)%nat).
Context (home : Z -> Z) (Hhome : forall c, c ∈ chans -> home c <> 0).
(** The channels of endpoints, of timers, and of channels that send. *)
Context (eps devs snds : list Z) (Heps : eps ⊆ chans) (Hdevs : devs ⊆ chans) (Hsnds : snds ⊆ chans).
Context (Hed : forall c, c ∈ eps -> c ∉ devs) (Hes : forall c, c ∈ eps -> c ∉ snds) (Hds : forall c, c ∈ devs -> c ∉ snds).

#[local] Notation wrep := (wrep all handle chans home).
#[local] Notation prep := (prep all handle chans home eps).

Record drep (R : list Z) (Q : Z -> list Z) (C : Z -> ws_chanstate -> list Z) (P : list Z) (M : Z -> list lmp_recv_msg) (L : list Z) (D : Z) (T S : list Z) (d : dispatcher) : Prop := {
  dr_eps : prep R Q C P M L D (d_eps d);
  dr_hint : hint_ok handle offsetof_k eps (d_eps d);
  dr_timed : timed T (d_timers d);
  dr_timers : forall e, e ∈ T <-> e ∈ devs /\ state (chan (d_ws d) e) = CHAN_IDLE;
  dr_sends : sending snds S (d_sends d) (d_ws d);
  dr_polled : forall c, c ∈ chans -> state (chan (d_ws d) c) <> CHAN_POLLED
}.

Definition dinv (d : dispatcher) : Prop := exists R Q C P M L D T S, drep R Q C P M L D T S d.

(** ** Events of one kind leave the other kinds alone *)

Lemma prep_other R Q C P M L D p R' Q' C' P' s' : prep R Q C P M L D p -> wrep R' Q' C' P' s' -> (forall e, e ∈ eps -> state (chan s' e) = state (chan (ews p) e)) -> prep R' Q' C' P' M L D (with_ews s' p).
Proof. intros [H1 H2 H3 H4 H5 H6 H7 H8] Hw He. constructor; try done. intros e. rewrite H3. cbn [with_ews ews]. split; intros [Hx ?]; (split; [done|]); by rewrite He in *. Qed.

Lemma sending_other S k s s' : sending snds S k s -> sends_list s' = sends_list s -> (forall c, c ∈ snds -> state (chan s' c) = state (chan s c)) -> sending snds S k s'.
Proof. intros [H1 H2 H3] Es Hc. constructor; [by rewrite Es| |done]. intros c. rewrite H2. split; intros [Hx ?]; (split; [done|]); by rewrite Hc in *. Qed.

Lemma fired_out (X : list Z) T R Q s R' Q' s' c : fired home T R Q s R' Q' s' -> (forall x, x ∈ T -> x ∈ X) -> c ∉ X -> state (chan s' c) = state (chan s c).
Proof. intros Hf HT Hc. rewrite (fi_chan _ _ _ _ _ _ _ _ Hf), decide_False; [done|]. intros Hin. by apply Hc, HT. Qed.

Lemma fired_polled T R Q s R' Q' s' : fired home T R Q s R' Q' s' -> (forall c, c ∈ chans -> state (chan s c) <> CHAN_POLLED) -> forall c, c ∈ chans -> state (chan s' c) <> CHAN_POLLED.
Proof. intros Hf Hp c Hc. rewrite (fi_chan _ _ _ _ _ _ _ _ Hf). destruct (decide (c ∈ T)); [done|by apply Hp]. Qed.

Lemma not_polled R Q C P s : wrep R Q C P s -> (forall c, c ∈ chans -> state (chan s c) <> CHAN_POLLED) -> polled_channels (wt s) = 0.
Proof.
  intros Hw Hp. pose proof (wr_polled _ _ _ _ _ _ _ _ _ Hw) as Hr. destruct P as [|c P]; [by apply ring_empty in Hr|].
  destruct (proj1 (wr_polled_in _ _ _ _ _ _ _ _ _ Hw c) ltac:(left)) as [Hc E]. by destruct (Hp c Hc).
Qed.

(** ** One run *)

(** The channels that a run gives an event to. *)
Definition due (d : dispatcher) (e : Z) : Prop := dtime (d_timers d) e <= u64 (d_systime d * SYSTIME_MULTIPLIER).
#[global] Instance due_dec d e : Decision (due d e).
Proof. unfold due. apply _. Defined.

Lemma poll_if_any R Q C P M L D p : prep R Q C P M L D p -> hint_ok handle offsetof_k eps p ->
  exists p' R' Q' C' P' D', (if negb (disp_delivered p =? disp_seen p) then lmp_endpoints_poll_disabled handle offsetof_k fuel p else Done p) = Done p' /\
    prep R' Q' C' P' M (without_msgs M L) D' p' /\ hint_ok handle offsetof_k eps p' /\ fired home (with_msgs M L) R Q (ews p) R' Q' (ews p') /\ same_buffers p p'.
Proof.
  intros Hp Hh. destruct (Z.eqb_spec (disp_delivered p) (disp_seen p)) as [E|E]; cbn [negb].
  - pose proof Hp as [_ _ _ _ _ Ht Hd Hr]. pose proof (total_nonneg M L). assert (D = 0).
    { apply (counts_agree (disp_seen p)); [done|lia|congruence]. }
    destruct (without_all M L (total_zero M L ltac:(lia))) as [-> ->]. exists p, R, Q, C, P, D. split_and!; try done. apply fired_none.
  - destruct (poll_spec all Hbound Hpage handle offsetof_k chans Hnull fuel Hfuel home Hhome eps Heps R Q C P M L D p Hp Hh) as (p' & R' & Q' & C' & P' & -> & Hp' & Hf & Hs & Eh).
    exists p', R', Q', C', P', 0. split_and!; try done. by left.
Qed.

Lemma disp_run_spec R Q C P M L D T S d : drep R Q C P M L D T S d ->
  exists d' R' Q' C' P' D', disp_run handle offsetof_k fuel d = Done d' /\ drep R' Q' C' P' M (without_msgs M L) D' (filter (fun e => ~ due d e) T) [] d' /\
    fired home (filter (due d) T ++ with_msgs M L ++ S) R Q (set_sends (sends_list (d_ws d')) (d_ws d)) R' Q' (d_ws d') /\ same_buffers (d_eps d) (d_eps d') /\ (R' <> [] -> current (wt (d_ws d')) ∈ R').
Proof.
  intros [H1 H2 H3 H4 H5 H6]. unfold disp_run. set (s0 := set_timeslice _ _). pose proof (pr_wait _ _ _ _ _ _ _ _ _ _ _ _ _ H1) as Hw0. fold (d_ws d) in Hw0.
  assert (Hw : wrep R Q C P s0). { apply wrep_threads; [done| |done]. destruct (wr_threads _ _ _ _ _ _ _ _ _ Hw0). by constructor. }
  destruct (trigger_deferred_spec all Hbound Hpage handle chans Hnull fuel Hfuel home Hhome (d_systime d) T (d_timers d) R Q C P s0 H3 Hw) as (t1 & s1 & R1 & Q1 & C1 & P1 & -> & Hw1 & Et & Hf1 & Ht1);
    [by intros e [?%Hdevs ?]%H4|]. cbn [mbind outcome_bind]. set (T1 := filter _ T) in Hf1. fold (due d) in T1.
  assert (HT1 : forall x, x ∈ T1 -> x ∈ devs) by (intros x [_ Hx]%list_elem_of_filter; by apply H4).
  destruct (poll_if_any R1 Q1 C1 P1 M L D (with_ews s1 (d_eps d))) as (p2 & R2 & Q2 & C2 & P2 & D2 & -> & Hp2 & Hh2 & Hf2 & Hs2);
    [eapply prep_other; [exact H1|exact Hw1|]; intros e He; by apply (fired_out devs T1 R Q s0 R1 Q1 s1 e Hf1 HT1 (Hed e He))|exact H2|]. cbn [mbind outcome_bind].
  assert (HT2 : forall x, x ∈ with_msgs M L -> x ∈ eps) by (intros x [_ Hx]%list_elem_of_filter; by apply (pr_idle _ _ _ _ _ _ _ _ _ _ _ _ _ H1)).
  assert (H5' : sending snds S (d_sends d) (ews p2)).
  { apply (sending_other S _ (d_ws d)); [done|rewrite (fi_sends _ _ _ _ _ _ _ _ Hf2 : sends_list (ews p2) = _); apply (fi_sends _ _ _ _ _ _ _ _ Hf1)|].
    intros c Hc. rewrite (fired_out eps _ _ _ _ _ _ _ c Hf2 HT2) by (intros He; by apply (Hes c)). apply (fired_out devs _ _ _ _ _ _ _ c Hf1 HT1). intros He. by apply (Hds c). }
  destruct (retry_spec all Hbound Hpage handle chans Hnull fuel Hfuel home Hhome snds S _ R2 Q2 C2 P2 _ Hsnds H5' (pr_wait _ _ _ _ _ _ _ _ _ _ _ _ _ Hp2)) as (k3 & s3 & R3 & Q3 & C3 & P3 & -> & Hw3 & Hf3 & Hs3). cbn [mbind outcome_bind].
  assert (HT3 : forall x, x ∈ S -> x ∈ snds) by (intros x Hx; by apply H5).
  assert (Hpo : forall c, c ∈ chans -> state (chan s3 c) <> CHAN_POLLED) by (apply (fired_polled _ _ _ _ _ _ _ Hf3), (fired_polled _ _ _ _ _ _ _ Hf2), (fired_polled _ _ _ _ _ _ _ Hf1); exact H6).
  unfold poll_channels_disabled. rewrite (not_polled _ _ _ _ _ Hw3 Hpo). cbn [Z.eqb mbind outcome_bind].
  destruct (run_rep all Hbound Hpage handle R3 Q3 _ (wr_threads _ _ _ _ _ _ _ _ _ Hw3)) as (x & Ex & Hx & Hcur & Hpx). rewrite Ex. cbn [mbind outcome_bind].
  assert (Esx : lmp_send_events_list x = 0). { unfold thread_run_disabled in Ex. cbn in Ex. returned Ex; injection Ex as <-; done. }
  assert (Hw4 : wrep R3 Q3 C3 P3 (with_wt x (set_sends 0 s3))) by (by apply wrep_threads).
  eexists _, R3, Q3, C3, P3, D2. split; [done|]. split; [|split; [|split; [exact Hs2|exact Hcur]]].
  - constructor; cbn [d_eps d_timers d_sends d_ws with_ews ews].
    + eapply (prep_other _ _ _ _ _ _ _ _ _ _ _ _ (with_wt x (set_sends 0 s3)) Hp2 Hw4). intros e He. apply (fired_out snds _ _ _ _ _ _ _ e Hf3 HT3). by apply Hes.
    + exact Hh2.
    + replace (filter (fun e => ~ due d e) T) with (filter (fun e => u64 (d_systime d * SYSTIME_MULTIPLIER) < dtime (d_timers d) e) T); [done|]. apply list_filter_iff. intros e. unfold due. lia.
    + intros e. change (chan (with_wt x (set_sends 0 s3)) e) with (chan s3 e). rewrite list_elem_of_filter, H4. split.
      * intros (Hd & He & Hi). split; [done|]. rewrite (fired_out snds _ _ _ _ _ _ _ e Hf3 HT3), (fired_out eps _ _ _ _ _ _ _ e Hf2 HT2) by (first [by apply Hds|intros X; by apply (Hed e)]).
        cbn [with_ews ews]. rewrite (fi_chan _ _ _ _ _ _ _ _ Hf1), decide_False; [done|]. intros [? _]%list_elem_of_filter. done.
      * intros [He Hi]. rewrite (fired_out snds _ _ _ _ _ _ _ e Hf3 HT3), (fired_out eps _ _ _ _ _ _ _ e Hf2 HT2) in Hi by (first [by apply Hds|intros X; by apply (Hed e)]).
        cbn [with_ews ews] in Hi. rewrite (fi_chan _ _ _ _ _ _ _ _ Hf1) in Hi. destruct (decide (e ∈ T1)) as [|Hn]; [done|]. split; [|done]. intros Hdue. apply Hn. apply list_elem_of_filter. split; [done|by apply H4].
    + eapply sending_other; [exact Hs3| |done]. exact Esx.
    + exact Hpo.
  - cbn [d_ws d_eps with_ews ews]. unfold sends_list. cbn [with_wt wt]. rewrite Esx. pose proof (fired_trans home _ _ _ _ _ _ _ _ _ _ _ Hf2 Hf3) as Hf23. cbn [with_ews ews] in Hf23. pose proof (fired_trans home _ _ _ _ _ _ _ _ _ _ _ Hf1 Hf23) as [F1 F2 F3 F4 F5 F6 F7]. by constructor.
Qed.

(** ** The system *)

Definition with_eps (p : eps_state) (d : dispatcher) : dispatcher := Dispatcher p (d_timers d) (d_sends d) (d_systime d) (run_counter d).
Definition idle_chan (c : Z) (s : wstate) : Prop := state (chan s c) = CHAN_IDLE.
Definition no_polled (s : wstate) : Prop := forall c, c ∈ chans -> state (chan s c) <> CHAN_POLLED.

Inductive dstep : dispatcher -> dispatcher -> Prop :=
(** messages, endpoints, and anything else that happens to them *)
| dstep_endpoint p' d : estep all handle offsetof_k chans fuel home eps (d_eps d) p' -> (forall c, c ∈ devs ++ snds -> idle_chan c (ews p') <-> idle_chan c (d_ws d)) ->
    no_polled (ews p') -> sends_list (ews p') = sends_list (d_ws d) -> dstep d (with_eps p' d)
| dstep_timer e delay f ev t' s' d : e ∈ devs -> state (chan (d_ws d) e) = CHAN_UNREGISTERED -> handler f <> 0 ->
    deferred_event_register fuel (d_systime d) e (home e) delay f (d_timers d) (d_ws d) = Done (ev, t', s') ->
    dstep d (Dispatcher (with_ews s' (d_eps d)) t' (d_sends d) (d_systime d) (run_counter d))
| dstep_cancel e ev t' s' d : e ∈ devs -> idle_chan e (d_ws d) -> deferred_event_cancel e (d_timers d) (d_ws d) = Done (ev, t', s') ->
    dstep d (Dispatcher (with_ews s' (d_eps d)) t' (d_sends d) (d_systime d) (run_counter d))
| dstep_send c f ev k' s' d : c ∈ snds -> state (chan (d_ws d) c) = CHAN_UNREGISTERED -> handler f <> 0 ->
    lmp_chan_register_send c (home c) f (d_sends d) (d_ws d) = Done (ev, k', s') ->
    dstep d (Dispatcher (with_ews s' (d_eps d)) (d_timers d) k' (d_systime d) (run_counter d))
(** threads that take events, and everything else that is not about idle channels *)
| dstep_other s' d : well_formed all handle chans home s' -> (forall c, c ∈ eps ++ devs ++ snds -> idle_chan c s' <-> idle_chan c (d_ws d)) -> no_polled s' -> sends_list s' = sends_list (d_ws d) ->
    dstep d (with_eps (with_ews s' (d_eps d)) d)
| dstep_time x d : dstep d (Dispatcher (d_eps d) (d_timers d) (d_sends d) x (run_counter d))
| dstep_run d d' : disp_run handle offsetof_k fuel d = Done d' -> dstep d d'.

Record dinitial (d : dispatcher) : Prop := {
  di_eps : einitial all handle chans home eps (d_eps d);
  di_timers : deferred_events (d_timers d) = 0 /\ wakeup (d_timers d) = 0;
  di_sends : sends_list (d_ws d) = 0 /\ (forall c, c ∈ snds -> nxt (d_sends d) c = 0 /\ prv (d_sends d) c = 0);
  di_idle : forall c, c ∈ chans -> state (chan (d_ws d) c) = CHAN_UNREGISTERED
}.

Lemma dinitial_inv d : dinitial d -> dinv d.
Proof.
  intros [H1 [H2 H2'] [H3 H3'] H4]. destruct (einitial_inv all handle offsetof_k chans home eps _ H1) as [(R & Q & C & P & M & L & D & Hp) Hh].
  exists R, Q, C, P, M, L, D, [], []. constructor; [done|done| | |constructor|].
  - constructor; [by apply dlist_empty|constructor|done].
  - intros e. split; [by intros ?%elem_of_nil|]. intros [?%Hdevs%H4 ?]. congruence.
  - by apply ring_empty.
  - intros e. split; [by intros ?%elem_of_nil|]. intros [?%Hsnds%H4 ?]. congruence.
  - by intros c Hc _; apply H3'.
  - intros c Hc. by rewrite H4.
Qed.

(** The states that matter of all channels, after one was changed. *)
Lemma drep_change R Q C P M L D T S d R' Q' C' P' T' S' t' k' s' : drep R Q C P M L D T S d -> wrep R' Q' C' P' s' ->
  (forall c, c ∈ eps -> idle_chan c s' <-> idle_chan c (d_ws d)) -> no_polled s' -> timed T' t' -> (forall e, e ∈ T' <-> e ∈ devs /\ idle_chan e s') -> sending snds S' k' s' ->
  forall x y, drep R' Q' C' P' M L D T' S' (Dispatcher (with_ews s' (d_eps d)) t' k' x y).
Proof.
  intros [[P1 P2 P3 P4 P5 P6 P7 P8] H2 H3 H4 H5 H6] Hw He Hp Ht HT Hs x y. constructor; [|done|done|done|done|done]. constructor; try done. intros e. rewrite P3. cbn [d_eps with_ews ews].
  split; intros [Hx ?]; (split; [done|]); by apply He.
Qed.

Lemma timer_inv e delay f ev t' s' d : dinv d -> e ∈ devs -> state (chan (d_ws d) e) = CHAN_UNREGISTERED -> handler f <> 0 ->
  deferred_event_register fuel (d_systime d) e (home e) delay f (d_timers d) (d_ws d) = Done (ev, t', s') ->
  dinv (Dispatcher (with_ews s' (d_eps d)) t' (d_sends d) (d_systime d) (run_counter d)).
Proof.
  intros (R & Q & C & P & M & L & D & T & S & Hd) He Hun Hf E. pose proof Hd as [H1 H2 H3 H4 H5 H6]. pose proof (pr_wait _ _ _ _ _ _ _ _ _ _ _ _ _ H1) as Hw. fold (d_ws d) in Hw.
  pose proof (Hdevs _ He) as Hec. assert (He0 : e <> 0) by congruence. unfold deferred_event_register in E.
  destruct (register_ok all Hbound handle chans Hnull fuel Hfuel home R Q C P _ e f Hw Hec Hf Hun) as (s1 & Es & Hw1 & Et & _ & _ & Hch & Ec). rewrite Es in E. cbn [mbind outcome_bind] in E.
  change (err_is_ok SYS_ERR_OK) with true in E. cbn iota in E. assert (HeT : e ∉ T) by (rewrite H4; intros [_ ?]; congruence).
  assert (Hlen : (length T < fuel)%nat).
  { assert (Hsub : T ⊆ chans) by (intros y Hy; by apply H4 in Hy as [?%Hdevs _]). pose proof (submseteq_length _ _ (NoDup_submseteq _ _ (dl_nodup _ _ _ (td_list _ _ H3)) Hsub)). lia. }
  destruct (enqueue_timed fuel T (d_timers d) e (u64 (get_system_time (d_systime d) + delay)) H3 HeT He0 Hlen) as (m1 & m2 & t2 & Ei & ET & Ht2 & _). cbv zeta in E. rewrite Ei in E. cbn [mbind outcome_bind] in E. injection E as <- <- <-.
  eexists R, Q, _, P, M, L, D, (m1 ++ e :: m2), S. eapply drep_change; [done|exact Hw1| | |exact Ht2| |].
  - intros c Hc. unfold idle_chan. rewrite Hch; [done|]. intros ->. by apply (Hed e).
  - intros c Hc. destruct (decide (c = e)) as [->|]; [by rewrite Ec|]. rewrite Hch by done. by apply H6.
  - intros y. subst T. specialize (H4 y). rewrite elem_of_app in H4. rewrite elem_of_app, elem_of_cons. unfold idle_chan. destruct (decide (y = e)) as [->|]; [rewrite Ec; cbn; tauto|]. rewrite Hch by done. tauto.
  - apply (sending_other S _ (d_ws d)); [done|unfold sends_list; by rewrite Et|]. intros c Hc. rewrite Hch; [done|]. intros ->. by apply (Hds e).
Qed.

Lemma cancel_inv e ev t' s' d : dinv d -> e ∈ devs -> idle_chan e (d_ws d) -> deferred_event_cancel e (d_timers d) (d_ws d) = Done (ev, t', s') ->
  dinv (Dispatcher (with_ews s' (d_eps d)) t' (d_sends d) (d_systime d) (run_counter d)).
Proof.
  intros (R & Q & C & P & M & L & D & T & S & Hd) He Hid E. pose proof Hd as [H1 H2 H3 H4 H5 H6]. pose proof (pr_wait _ _ _ _ _ _ _ _ _ _ _ _ _ H1) as Hw. fold (d_ws d) in Hw.
  pose proof (Hdevs _ He) as Hec. unfold idle_chan in Hid. unfold deferred_event_cancel in E.
  destruct (deregister_ok all Hbound handle chans Hnull fuel Hfuel home Hhome R Q C P _ e Hw Hec ltac:(by rewrite Hid)) as (s1 & Es & Hw1 & Hch & Est & _). pose proof (deregister_sends _ _ _ _ Es) as Esn. rewrite Es in E. cbn [mbind outcome_bind] in E.
  rewrite Hid in E. change (err_is_ok SYS_ERR_OK && negb (bool_decide (CHAN_IDLE = CHAN_PENDING))) with true in E. cbn iota in E.
  assert (HeT : e ∈ T) by (by apply H4). apply list_elem_of_split in HeT as (m1 & m2 & ->). pose proof (unlink_timed _ _ _ _ H3) as Ht. destruct (nodup_parts _ _ _ (dl_nodup _ _ _ (td_list _ _ H3))) as (_ & _ & _ & N1 & N2 & _).
  injection E as <- <- <-. eexists R, Q, _, _, M, L, D, (m1 ++ m2), S. eapply drep_change; [done|exact Hw1| | |exact Ht| |].
  - intros c Hc. unfold idle_chan. rewrite Hch; [done|]. intros ->. by apply (Hed e).
  - intros c Hc. destruct (decide (c = e)) as [->|]; [by rewrite Est|]. rewrite Hch by done. by apply H6.
  - intros y. specialize (H4 y). rewrite elem_of_app, elem_of_cons in H4. rewrite elem_of_app. unfold idle_chan. destruct (decide (y = e)) as [->|]; [rewrite Est; split; [tauto|by intros [_ ?]]|]. rewrite Hch by done. tauto.
  - apply (sending_other S _ (d_ws d)); [done|exact Esn|]. intros c Hc. rewrite Hch; [done|]. intros ->. by apply (Hds e).
Qed.

Lemma send_inv c f ev k' s' d : dinv d -> c ∈ snds -> state (chan (d_ws d) c) = CHAN_UNREGISTERED -> handler f <> 0 ->
  lmp_chan_register_send c (home c) f (d_sends d) (d_ws d) = Done (ev, k', s') -> dinv (Dispatcher (with_ews s' (d_eps d)) (d_timers d) k' (d_systime d) (run_counter d)).
Proof.
  intros (R & Q & C & P & M & L & D & T & S & Hd) Hc Hun Hf E. pose proof Hd as [H1 H2 H3 H4 H5 H6]. pose proof (pr_wait _ _ _ _ _ _ _ _ _ _ _ _ _ H1) as Hw. fold (d_ws d) in Hw.
  destruct (register_send_spec all Hbound handle chans Hnull fuel Hfuel home Hhome snds S (d_sends d) R Q C P (d_ws d) c f Hsnds H5 Hw Hc Hun Hf) as (k1 & s1 & C1 & E1 & Hw1 & Hs1 & Hch & Hst). rewrite E in E1. injection E1 as -> -> ->.
  exists R, Q, C1, P, M, L, D, T, (S ++ [c]). eapply drep_change; [done|exact Hw1| | |done| |done].
  - intros x Hx. unfold idle_chan. rewrite Hch; [done|]. intros ->. by apply (Hes c).
  - intros x Hx. destruct (decide (x = c)) as [->|]; [by rewrite Hst|]. rewrite Hch by done. by apply H6.
  - intros y. rewrite H4. unfold idle_chan. destruct (decide (y = c)) as [->|]; [|by rewrite Hch]. split; intros [Hy _]; by destruct (Hds c).
Qed.

Lemma dstep_inv d d' : dinv d -> dstep d d' -> dinv d'.
Proof.
  intros Hi0 Hs. pose proof Hi0 as (R & Q & C & P & M & L & D & T & S & Hd). pose proof Hd as [H1 H2 H3 H4 H5 H6]. destruct Hs as [p' d Hs Hi Hp Es|e delay f ev t' s' d He Hun Hf E|e ev t' s' d He Hid E|c f ev k' s' d Hc Hun Hf E|s' d (R' & Q' & C' & P' & Hw') Hi Hp Es|x d|d d' E].
  - assert (Hinv : einv all handle offsetof_k chans home eps p') by (eapply (estep_inv all Hbound Hpage handle offsetof_k chans Hnull fuel Hfuel home Hhome eps Heps); [|exact Hs]; split; [by exists R, Q, C, P, M, L, D|done]).
    destruct Hinv as [(R' & Q' & C' & P' & M' & L' & D' & Hp') Hh']. exists R', Q', C', P', M', L', D', T, S. constructor; [done|done|done| | |done].
    + intros e. rewrite H4. cbn [with_eps d_ws d_eps]. split; intros [He ?]; (split; [done|]); apply Hi; try done; apply elem_of_app; tauto.
    + destruct H5 as [S1 S2 S3]. constructor; [change (ring (d_sends d) (sends_list (ews p')) S); by rewrite Es| |done]. intros c. rewrite S2. cbn [with_eps d_ws d_eps]. split; intros [Hx ?]; (split; [done|]); apply Hi; try done; apply elem_of_app; tauto.
  - by eapply timer_inv.
  - by eapply cancel_inv.
  - by eapply send_inv.
  - exists R', Q', C', P', M, L, D, T, S. eapply drep_change; [done|exact Hw'| |done|done| |].
    + intros c Hc. apply Hi. apply elem_of_app. by left.
    + intros e. rewrite H4. split; intros [He ?]; (split; [done|]); apply Hi; try done; rewrite !elem_of_app; tauto.
    + destruct H5 as [S1 S2 S3]. constructor; [by rewrite Es| |done]. intros c. rewrite S2. split; intros [Hx ?]; (split; [done|]); apply Hi; try done; rewrite !elem_of_app; tauto.
  - exists R, Q, C, P, M, L, D, T, S. by constructor.
  - destruct (disp_run_spec _ _ _ _ _ _ _ _ _ _ Hd) as (d1 & R' & Q' & C' & P' & D' & E1 & Hd1 & _). rewrite E in E1. injection E1 as <-. by eexists R', Q', C', P', M, _, D', _, _.
Qed.

Lemma dreach_inv d0 d : dinitial d0 -> rtc dstep d0 d -> dinv d.
Proof. intros H0%dinitial_inv Hs. induction Hs as [|d1 d2 d3 H12 _ IH]; [done|]. by eapply IH, dstep_inv. Qed.

(** What a thread may wait for has happened. *)
Definition happened (d : dispatcher) (c : Z) : Prop :=
  idle_chan c (d_ws d) /\ ((c ∈ devs /\ due d c) \/ (c ∈ eps /\ lmp_endpoint_can_recv (ek (d_eps d) c) = true) \/ c ∈ snds).

End Dispatch.

Module DispSample.
Import WaitSample PollSample.

(** An endpoint, two timers and two channels that send. *)
Definition tm1 : Z := 2000.
Definition tm2 : Z := 2100.
Definition sn1 : Z := 2200.
Definition sn2 : Z := 2300.
Definition five : list Z := [epA; tm1; tm2; sn1; sn2].
Definition no_links : links := Links (fun _ => 0) (fun _ => 0).
Definition d0 : Dispatch.dispatcher := Dispatcher p0 (Timers no_links (fun _ => 0) 0 0) no_links 0 0.
Definition hd : Z := WaitSample.dispatcher.

Lemma five_nonnull : 0 ∉ five.
Proof. vm_decide. Qed.
Lemma five_fuel : (length five < 6)%nat.
Proof. vm_decide. Qed.
Lemma five_home : forall c, c ∈ five -> home_ws c <> 0.
Proof. done. Qed.

Lemma disjoint_dec (l1 l2 : list Z) : forallb (fun c => negb (bool_decide (c ∈ l2))) l1 = true -> forall c, c ∈ l1 -> c ∉ l2.
Proof. intros H c Hc. rewrite forallb_forall in H. apply list_elem_of_In, H in Hc. by apply negb_true_iff, bool_decide_eq_false in Hc. Qed.

Lemma d0_initial : dinitial two hd five home_ws [epA] [sn1; sn2] d0.
Proof.
  destruct g0_winitial as [[R Hr] _ _ _ _]. constructor; [|done|done|done]. constructor; [|done|done| |by vm_compute].
  - exists R, (fun _ => []), (fun _ _ => []), []. constructor; [exact Hr| | |done|done|by apply ring_empty|].
    + constructor; [intros ws st; by apply ring_empty|by intros ws st ws' st' c ?%elem_of_nil].
    + intros ws st c. split; [by intros ?%elem_of_nil|]. by intros (_ & _ & <- & ?).
    + intros c. split; [by intros ?%elem_of_nil|]. by intros [_ ?].
  - intros e _. constructor; [vm_decide|vm_decide|vm_decide|done|done|constructor].
Qed.

#[local] Notation sample_dstep := (dstep two hd ofs_k five 6 home_ws [epA] [tm1; tm2] [sn1; sn2]).

Definition rest_ok (s s' : wstate) : bool :=
  forallb (fun c => bool_decide (state (chan s' c) = CHAN_IDLE <-> state (chan s c) = CHAN_IDLE)) [tm1; tm2; sn1; sn2] &&
  forallb (fun c => negb (bool_decide (state (chan s' c) = CHAN_POLLED))) five && (sends_list s' =? sends_list s).

Inductive dact := DRegister | DDeliver (payload : list Z) | DTimer (e delay : Z) | DCancel (e : Z) | DSend (c : Z) | DTime (x : Z) | DRun.

Definition dact_step (a : dact) (d : Dispatch.dispatcher) : option Dispatch.dispatcher :=
  match a with
  | DRegister =>
    if bool_decide (state (chan (d_ws d) epA) = CHAN_UNREGISTERED) then
      match lmp_endpoint_register hd epA 1000 (Closure 7 epA) (d_eps d) with Done ([], p) => if rest_ok (d_ws d) (ews p) then Some (with_eps p d) else None | _ => None end
    else None
  | DDeliver payload =>
    let p := d_eps d in
    if bool_decide (Z.of_nat (length payload) < 256 /\ can_deliver (ebuflen p epA) (Z.of_nat (length payload)) (ek p epA) = SYS_ERR_OK /\
        u32 (disp_delivered p - disp_seen p) + Z.of_nat (length payload) + LMP_RECV_HEADER_LENGTH < 2 ^ 32) && rest_ok (d_ws d) (d_ws d)
    then Some (with_eps (arrive epA (offset_of epA) payload false p) d) else None
  | DTimer e delay =>
    if bool_decide (e ∈ [tm1; tm2] /\ state (chan (d_ws d) e) = CHAN_UNREGISTERED) then
      match deferred_event_register 6 (d_systime d) e 1000 delay (Closure 7 e) (d_timers d) (d_ws d) with
      | Done (_, t, s) => Some (Dispatcher (with_ews s (d_eps d)) t (d_sends d) (d_systime d) (run_counter d)) | _ => None end
    else None
  | DCancel e =>
    if bool_decide (e ∈ [tm1; tm2] /\ state (chan (d_ws d) e) = CHAN_IDLE) then
      match deferred_event_cancel e (d_timers d) (d_ws d) with
      | Done (_, t, s) => Some (Dispatcher (with_ews s (d_eps d)) t (d_sends d) (d_systime d) (run_counter d)) | _ => None end
    else None
  | DSend c =>
    if bool_decide (c ∈ [sn1; sn2] /\ state (chan (d_ws d) c) = CHAN_UNREGISTERED) then
      match lmp_chan_register_send c 1000 (Closure 7 c) (d_sends d) (d_ws d) with
      | Done (_, k, s) => Some (Dispatcher (with_ews s (d_eps d)) (d_timers d) k (d_systime d) (run_counter d)) | _ => None end
    else None
  | DTime x => Some (Dispatcher (d_eps d) (d_timers d) (d_sends d) x (run_counter d))
  | DRun => match disp_run hd ofs_k 6 d with Done d' => Some d' | Fault _ => None end
  end.

Lemma rest_ok_spec s s' : rest_ok s s' = true -> (forall c, c ∈ [tm1; tm2] ++ [sn1; sn2] -> idle_chan c s' <-> idle_chan c s) /\ no_polled five s' /\ sends_list s' = sends_list s.
Proof.
  unfold rest_ok. rewrite !andb_true_iff, !forallb_forall, Z.eqb_eq. intros [[H1 H2] H3]. split_and!; [| |done].
  - intros c Hc%list_elem_of_In%H1. by apply bool_decide_eq_true in Hc.
  - intros c Hc%list_elem_of_In%H2. by apply negb_true_iff, bool_decide_eq_false in Hc.
Qed.

Lemma dact_sound a d d' : dact_step a d = Some d' -> sample_dstep d d'.
Proof.
  destruct a as [|payload|e delay|e|c|x|]; cbn [dact_step].
  - case_bool_decide as Hu; [|done]. destruct (lmp_endpoint_register _ _ _ _ _) as [[[|] p]|] eqn:E; [|done..]. destruct (rest_ok _ _) eqn:Er; [|done]. intros [= <-]. apply rest_ok_spec in Er as (R1 & R2 & R3).
    constructor; [|done..]. by apply (estep_register _ _ _ _ _ _ _ epA (Closure 7 epA)); [left|..].
  - destruct (bool_decide _ && rest_ok _ _) eqn:E; [|done]. intros [= <-]. apply andb_true_iff in E as [(H1 & H2 & H3)%bool_decide_eq_true Er]. apply rest_ok_spec in Er as (R1 & R2 & R3).
    constructor; [|done..]. apply estep_deliver; [left|vm_decide|vm_eq|done..].
  - case_bool_decide as H; [|done]. destruct (deferred_event_register _ _ _ _ _ _ _ _) as [[[ev t] s]|] eqn:E; [|done]. intros [= <-]. destruct H as [H1 H2]. by apply (dstep_timer _ _ _ _ _ _ _ _ _ e delay (Closure 7 e) ev).
  - case_bool_decide as H; [|done]. destruct (deferred_event_cancel _ _ _) as [[[ev t] s]|] eqn:E; [|done]. intros [= <-]. destruct H as [H1 H2]. by apply (dstep_cancel _ _ _ _ _ _ _ _ _ e ev).
  - case_bool_decide as H; [|done]. destruct (lmp_chan_register_send _ _ _ _ _) as [[[ev k] s]|] eqn:E; [|done]. intros [= <-]. destruct H as [H1 H2]. by apply (dstep_send _ _ _ _ _ _ _ _ _ c (Closure 7 c) ev).
  - intros [= <-]. constructor.
  - destruct (disp_run _ _ _ d) as [d1|] eqn:E; [|done]. intros [= <-]. by constructor.
Qed.

Fixpoint dacts (l : list dact) (d : Dispatch.dispatcher) : option Dispatch.dispatcher := match l with [] => Some d | a :: l => match dact_step a d with Some d' => dacts l d' | None => None end end.
Definition dreached (l : list dact) : Dispatch.dispatcher := default d0 (dacts l d0).

Lemma dreached_rtc l : bool_decide (is_Some (dacts l d0)) = true -> rtc sample_dstep d0 (dreached l).
Proof.
  intros [d E]%bool_decide_eq_true. unfold dreached. rewrite E. cbn [default from_option id]. revert E. generalize d0. induction l as [|a l IH]; intros q E; cbn [dacts] in E; [by injection E as <-|].
  destruct (dact_step a q) as [q1|] eqn:E1; [|done]. apply (rtc_l _ _ q1); [by apply (dact_sound a)|by apply IH].
Qed.

(** One timer is due, the other is not. *)
Definition morning : list dact := [DRegister; DTimer tm1 1500; DTimer tm2 500; DRun; DSend sn1; DSend sn2; DDeliver [1; 2]; DTime 1].

Definition dstates (d : Dispatch.dispatcher) : list ws_chanstate := (fun c => state (chan (d_ws d) c)) <$> five.


(** The states of all channels and the wakeup after the run. *)
Lemma morning_run : match disp_run hd ofs_k 6 (dreached morning) with Done d => (dstates d, wakeup (d_timers d)) | _ => ([], 0) end =
  ([CHAN_PENDING; CHAN_IDLE; CHAN_PENDING; CHAN_PENDING; CHAN_PENDING], 1).
Proof. vm_eq. Qed.

(** ** What goes wrong *)

(** Two channels wait to send, and the first one is cancelled: the second is
    registered and idle, but in no list. *)
Lemma deregister_send_loses_other :
  let d := dreached [DSend sn1; DSend sn2] in
  match lmp_chan_deregister_send sn1 (d_sends d) (d_ws d) with
  | Done (_, k, s) => (state (chan s sn2), sends_list s)
  | Fault _ => (CHAN_UNREGISTERED, 1)
  end = (CHAN_IDLE, 0).
Proof. cbv zeta. vm_eq. Qed.

(** The second one cannot be cancelled. *)
Lemma deregister_send_second_fails :
  let d := dreached [DSend sn1; DSend sn2] in lmp_chan_deregister_send sn2 (d_sends d) (d_ws d) = Fault AssertionFailed.
Proof. cbv zeta. vm_eq. Qed.

(** A timer whose event was set aside is not in the list any more;
    cancelling it puts the timer that was behind it in the list again,
    although that one is pending. *)
Lemma cancel_set_aside_revives :
  let d := dreached [DTimer tm1 100; DTimer tm2 200; DTime 1; DRun] in
  match set_aside 1000 tm1 (d_ws d) with
  | Done s => match deferred_event_cancel tm1 (d_timers d) s with
              | Done (_, t, s) => (deferred_events (d_timers d), deferred_events t, state (chan s tm2))
              | Fault _ => (0, 0, CHAN_IDLE) end
  | Fault _ => (0, 0, CHAN_IDLE)
  end = (0, tm2, CHAN_PENDING).
Proof. cbv zeta. vm_eq. Qed.
End DispSample.
