(* ===== verification/Procman.v ===== *)
(** The process manager of init (usr/init/lib_procman.c).

    An entry of the process table is the address of its [process_info]; the
    entries form a list through [next] and [prev].  Names are lists of bytes
    without the terminating zero.  A new entry is memory that [malloc]
    returned, at the address that is an argument: the fields that the code
    does not set keep what was there.  The core that runs, the answers of the
    other core and of the channel are arguments too. *)
From S2P Require Import Prelude Ring Chain.

Record process_info := ProcessInfo {
  p_id : Z;
  p_core : Z;
  p_name : list Z;
  p_si : Z;                  (** the spawn information, or null *)
  p_chan : Z;
  p_init : bool
}.

(** [pt_head] is null before [procman_init]. *)
Record procs := Procs {
  plinks : links;
  pinfo : Z -> process_info;
  pt_head : Z;
  destroyed : list Z;        (** spawn informations whose dispatcher was deleted *)
  killed : list Z            (** channels on which the kill message was sent *)
}.
Definition set_plinks (k : links) (s : procs) : procs := Procs k (pinfo s) (pt_head s) (destroyed s) (killed s).
Definition set_pinfo (a : Z) (x : process_info) (s : procs) : procs := Procs (plinks s) (<[a := x]> (pinfo s)) (pt_head s) (destroyed s) (killed s).
Definition log_kill (si chan : Z) (s : procs) : procs := Procs (plinks s) (pinfo s) (pt_head s) (destroyed s ++ [si]) (killed s ++ [chan]).

Definition INIT_NAME : list Z := [105; 110; 105; 116].

(** The walks have as fuel the number of entries and one. *)
Fixpoint find_loop (fuel : nat) (proc_id pi : Z) (s : procs) : outcome (errval * Z) :=
  match fuel with
  | O => Fault OutOfFuel
  | S fuel =>
    if pi =? 0 then Done (err PROCMAN_ERR_PID_NOT_FOUND, 0)
    else if p_id (pinfo s pi) =? proc_id then Done (SYS_ERR_OK, pi)
    else find_loop fuel proc_id (nxt (plinks s) pi) s
  end.

Fixpoint last_loop (fuel : nat) (pi : Z) (s : procs) : outcome Z :=
  match fuel with
  | O => Fault OutOfFuel
  | S fuel => if negb (nxt (plinks s) pi =? 0) then last_loop fuel (nxt (plinks s) pi) s else Done pi
  end.

(** The first entry with the name that is not initialised, or null. *)
Fixpoint waiting_loop (fuel : nat) (name : list Z) (pi : Z) (s : procs) : outcome Z :=
  match fuel with
  | O => Fault OutOfFuel
  | S fuel =>
    if pi =? 0 then Done 0
    else if negb (p_init (pinfo s pi)) && bool_decide (p_name (pinfo s pi) = name) then Done pi
    else waiting_loop fuel name (nxt (plinks s) pi) s
  end.

Section Procman.
Context (fuel : nat) (core : Z).

Definition find_process_by_id (proc_id : Z) (s : procs) : outcome (errval * Z) :=
  ASSERT negb (pt_head s =? 0);
  find_loop fuel proc_id (pt_head s) s.

(** [a] is the memory for the entry of init. *)
Definition procman_init (a : Z) (s : procs) : outcome procs :=
  ASSERT pt_head s =? 0;
  if a =? 0 then Fault Panicked else
  let x := pinfo s a in
  let s := set_pinfo a (ProcessInfo 0 0 INIT_NAME (p_si x) (p_chan x) (p_init x)) s in
  Done (Procs (set_nxt a 0 (set_prv a 0 (plinks s))) (pinfo s) a (destroyed s) (killed s)).

(** The end of the list, and the new entry behind it. *)
Definition append_process (a pi pid : Z) (name : list Z) (core_id si : Z) (s : procs) : procs :=
  let s := set_pinfo a (ProcessInfo pid core_id name si (p_chan (pinfo s a)) false) s in
  set_plinks (set_nxt pi a (set_nxt a 0 (set_prv a pi (plinks s)))) s.

(** [urpc_pid] is the answer of core 0. *)
Definition procman_register_process (a urpc_pid : Z) (name : list Z) (core_id si : Z) (s : procs) : outcome (Z * procs) :=
  ASSERT negb (pt_head s =? 0);
  pi ← last_loop fuel (pt_head s) s;
  let pid := if negb (core =? 0) then urpc_pid else u32 (p_id (pinfo s pi) + 1) in
  if a =? 0 then Fault Panicked else
  Done (pid, append_process a pi pid name core_id si s).

Definition procman_foreign_preregister (a pid : Z) (name : list Z) (core_id si : Z) (s : procs) : outcome procs :=
  ASSERT negb (pt_head s =? 0);
  pi ← last_loop fuel (pt_head s) s;
  if a =? 0 then Fault Panicked else
  Done (append_process a pi pid name core_id si s).

(** Calls itself after it registered the process. *)
Fixpoint procman_finish_process_register (calls : nat) (a urpc_pid : Z) (name : list Z) (chan : Z) (s : procs) : outcome (Z * procs) :=
  match calls with
  | O => Fault OutOfFuel
  | S calls =>
    ASSERT negb (pt_head s =? 0);
    pi ← waiting_loop fuel name (pt_head s) s;
    if negb (pi =? 0) then
      let x := pinfo s pi in
      Done (p_id x, set_pinfo pi (ProcessInfo (p_id x) (p_core x) (p_name x) (p_si x) chan true) s)
    else
      '(_, s) ← procman_register_process a urpc_pid name core 0 s;
      procman_finish_process_register calls a urpc_pid name chan s
  end.

Definition procman_deregister (proc_id : Z) (s : procs) : outcome (errval * procs) :=
  ASSERT negb (pt_head s =? 0);
  '(e, pi) ← find_process_by_id proc_id s;
  if err_is_fail e then Done (e, s) else
  ASSERT negb (prv (plinks s) pi =? 0);
  ASSERT negb (proc_id =? 0);
  let k := set_nxt (prv (plinks s) pi) (nxt (plinks s) pi) (plinks s) in
  let k := if negb (nxt k pi =? 0) then set_prv (nxt k pi) (prv k pi) k else k in
  Done (SYS_ERR_OK, set_plinks k s).

(** [sent] is the result of sending the message. *)
Definition procman_kill_process (sent : errval) (proc_id : Z) (s : procs) : outcome (errval * procs) :=
  ASSERT negb (pt_head s =? 0);
  '(e, pi) ← find_process_by_id proc_id s;
  if err_is_fail e then Done (if negb (core =? 0) then err PROCMAN_ERR_PROCESS_ON_OTHER_CORE else err PROCMAN_ERR_PID_NOT_FOUND, s) else
  let x := pinfo s pi in
  if negb (core =? p_core x) then Done (err PROCMAN_ERR_PROCESS_ON_OTHER_CORE, s) else
  if negb (p_init x) then Done (err PROCMAN_ERR_PROCESS_NOT_YET_STARTED, s) else
  _ ← nonnull (p_si x);
  if err_is_fail sent then Fault CheckAborted else
  '(_, s) ← procman_deregister proc_id (log_kill (p_si x) (p_chan x) s);
  Done (SYS_ERR_OK, s).

(** [None] is the null pointer. *)
Definition procman_lookup_name_by_id (proc_id : Z) (s : procs) : outcome (option (list Z)) :=
  ASSERT negb (pt_head s =? 0);
  '(e, pi) ← find_process_by_id proc_id s;
  Done (if bool_decide (err_no e = Some PROCMAN_ERR_PID_NOT_FOUND) then None else Some (p_name (pinfo s pi))).

Definition procman_get_channel_by_id (proc_id : Z) (s : procs) : outcome Z :=
  ASSERT negb (pt_head s =? 0);
  '(e, pi) ← find_process_by_id proc_id s;
  Done (if bool_decide (err_no e = Some PROCMAN_ERR_PID_NOT_FOUND) then 0 else p_chan (pinfo s pi)).
End Procman.
