(* ===== verification/ProcmanCorrect.v ===== *)
(** Correctness of Procman.v on core 0, which keeps the table of all
    processes: the table is a finite map from identifiers to processes, no
    identifier is given to two processes at the same time. *)
From S2P Require Import Prelude Ring Chain Procman.

(** * The walks *)

Definition ids (s : procs) (A : list Z) : list Z := (fun a => p_id (pinfo s a)) <$> A.

Lemma find_loop_spec id s l : forall fuel p h, seg (plinks s) p h l 0 -> (length l < fuel)%nat ->
  find_loop fuel id h s = Done (match head (filter (fun a => p_id (pinfo s a) = id) l) with Some a => (SYS_ERR_OK, a) | None => (err PROCMAN_ERR_PID_NOT_FOUND, 0) end).
Proof.
  induction l as [|a l IH]; intros [|fuel] p h Hs Hf; try (cbn in Hf; lia); cbn [find_loop].
  - by rewrite Hs.
  - destruct Hs as (-> & Ha & _ & Hs). destruct (Z.eqb_spec a 0); [done|]. destruct (Z.eqb_spec (p_id (pinfo s a)) id) as [E|E].
    + by rewrite filter_cons_True.
    + rewrite filter_cons_False by done. eapply IH; [done|]. cbn in Hf. lia.
Qed.

Lemma last_loop_spec s l : forall fuel p h, l <> [] -> seg (plinks s) p h l 0 -> (length l < fuel)%nat -> last_loop fuel h s = Done (last_or 0 l).
Proof.
  induction l as [|a l IH]; intros [|fuel] p h Hne Hs Hf; try done; try (cbn in Hf; lia); cbn [last_loop]. destruct Hs as (-> & Ha & _ & Hs). destruct l as [|b l].
  - cbn in Hs. by rewrite Hs.
  - pose proof Hs as (Eb & Hb & _). rewrite Eb in *. destruct (Z.eqb_spec b 0); [done|]. cbn [negb]. rewrite last_or_cons, (last_or_cons a), <- (last_or_cons 0). eapply IH; [done|exact Hs|]. cbn in Hf |- *. lia.
Qed.

(** A process that waits for its registration to finish. *)
Definition waiting (name : list Z) (x : process_info) : Prop := p_init x = false /\ p_name x = name.

Lemma waiting_loop_spec name s l : forall fuel p h, seg (plinks s) p h l 0 -> (length l < fuel)%nat ->
  waiting_loop fuel name h s = Done (default 0 (head (filter (fun a => waiting name (pinfo s a)) l))).
Proof.
  induction l as [|a l IH]; intros [|fuel] p h Hs Hf; try (cbn in Hf; lia); cbn [waiting_loop].
  - by rewrite Hs.
  - destruct Hs as (-> & Ha & _ & Hs). destruct (Z.eqb_spec a 0); [done|]. destruct (negb (p_init (pinfo s a)) && bool_decide (p_name (pinfo s a) = name)) eqn:E.
    + apply andb_true_iff in E as [E1%negb_true_iff E2%bool_decide_eq_true]. by rewrite filter_cons_True.
    + rewrite filter_cons_False. { eapply IH; [done|]. cbn in Hf. lia. } intros [E1 E2]. rewrite E1, E2, bool_decide_true in E by done. done.
Qed.

Lemma NoDup_fmap_inj {A B} (f : A -> B) l a b : NoDup (f <$> l) -> a ∈ l -> b ∈ l -> f a = f b -> a = b.
Proof.
  induction l as [|x l IH]; [by intros _ ?%elem_of_nil|]. cbn [fmap list_fmap]. intros [Hx Hn]%NoDup_cons [->|Ha]%elem_of_cons [->|Hb]%elem_of_cons E; [done| | |by apply IH].
  - destruct Hx. rewrite E. by apply list_elem_of_fmap_2.
  - destruct Hx. rewrite <- E. by apply list_elem_of_fmap_2.
Qed.

Lemma sorted_nodup l : StronglySorted Z.lt l -> NoDup l.
Proof. induction 1 as [|a l Hs IH Ha]; constructor; [|done]. intros Hin. rewrite Forall_forall in Ha. specialize (Ha a Hin). lia. Qed.

(** * The table as a finite map *)

Record tabled (A : list Z) (m : gmap Z process_info) (s : procs) : Prop := {
  tb_list : dlist (plinks s) (pt_head s) A;
  tb_first : exists l, ids s A = 0 :: l;
  tb_sorted : StronglySorted Z.lt (ids s A);
  tb_width : Forall (fun i => i < 2 ^ 32) (ids s A);
  tb_map : forall id x, m !! id = Some x <-> exists a, a ∈ A /\ pinfo s a = x /\ p_id x = id
}.

Section Table.
Context (A : list Z) (m : gmap Z process_info) (s : procs) (Ht : tabled A m s).

Lemma tabled_nonempty : A <> [] /\ pt_head s <> 0.
Proof.
  destruct Ht as [Hl [l E] _ _ _]. destruct A as [|a A']; [done|]. split; [done|]. rewrite (dlist_head _ _ _ Hl). cbn. intros ->. apply (dlist_nonnull _ _ _ Hl). left.
Qed.

Lemma tabled_inj a b : a ∈ A -> b ∈ A -> p_id (pinfo s a) = p_id (pinfo s b) -> a = b.
Proof. intros Ha Hb. apply (NoDup_fmap_inj (fun a => p_id (pinfo s a)) A); [apply sorted_nodup, Ht|done|done]. Qed.

Lemma tabled_at a : a ∈ A -> m !! p_id (pinfo s a) = Some (pinfo s a).
Proof. intros Ha. apply (tb_map _ _ _ Ht). by exists a. Qed.

Lemma find_none fuel id : (length A < fuel)%nat -> m !! id = None -> find_process_by_id fuel id s = Done (err PROCMAN_ERR_PID_NOT_FOUND, 0).
Proof.
  intros Hf Hm. unfold find_process_by_id. destruct tabled_nonempty as [_ H0]. zdecide. cbn [negb assert mbind outcome_bind]. rewrite (find_loop_spec _ _ _ _ _ _ (dl_seg _ _ _ (tb_list _ _ _ Ht)) Hf).
  destruct (filter _ A) as [|a l] eqn:E; [done|]. assert (Ha : a ∈ a :: l) by left. rewrite <- E in Ha. apply list_elem_of_filter in Ha as [<- Ha]. by rewrite tabled_at in Hm.
Qed.

Lemma find_some id x : m !! id = Some x -> exists a, a ∈ A /\ pinfo s a = x /\ p_id x = id /\ forall fuel, (length A < fuel)%nat -> find_process_by_id fuel id s = Done (SYS_ERR_OK, a).
Proof.
  intros Hm. apply (tb_map _ _ _ Ht) in Hm as (a & Ha & <- & <-). exists a. split_and!; [done..|]. intros fuel Hf. unfold find_process_by_id. destruct tabled_nonempty as [_ H0]. zdecide. cbn [negb assert mbind outcome_bind].
  rewrite (find_loop_spec _ _ _ _ _ _ (dl_seg _ _ _ (tb_list _ _ _ Ht)) Hf). destruct (filter _ A) as [|b l] eqn:E.
  - assert (Hin : a ∈ filter (fun b => p_id (pinfo s b) = p_id (pinfo s a)) A) by (by apply list_elem_of_filter). rewrite E in Hin. by apply elem_of_nil in Hin.
  - assert (Hb : b ∈ b :: l) by left. rewrite <- E in Hb. apply list_elem_of_filter in Hb as [Eb Hb]. cbn. by rewrite (tabled_inj b a).
Qed.

(** The last entry has the greatest identifier. *)
Lemma tabled_last : last_or 0 A ∈ A /\ forall id x, m !! id = Some x -> 0 <= id <= p_id (pinfo s (last_or 0 A)).
Proof.
  destruct tabled_nonempty as [Hne _]. split; [by apply last_or_in|]. intros id x (a & Ha & <- & <-)%(tb_map _ _ _ Ht). destruct (tb_first _ _ _ Ht) as [l0 E0]. pose proof (tb_sorted _ _ _ Ht) as Hs. split.
  - assert (Hin : p_id (pinfo s a) ∈ ids s A) by (by apply (list_elem_of_fmap_2 (fun a => p_id (pinfo s a)))). rewrite E0 in Hin, Hs. apply StronglySorted_inv in Hs as [_ Hs]. rewrite Forall_forall in Hs.
    apply elem_of_cons in Hin as [->|Hin]; [done|]. specialize (Hs _ Hin). lia.
  - destruct (exists_last Hne) as (l & z & E). rewrite E, last_or_snoc. rewrite E in Ha, Hs. unfold ids in Hs. rewrite fmap_app in Hs. apply elem_of_app in Ha as [Ha| ->%list_elem_of_singleton]; [|lia].
    pose proof (StronglySorted_app_1_elem_of _ _ _ (p_id (pinfo s a)) (p_id (pinfo s z)) Hs ltac:(by apply (list_elem_of_fmap_2 (fun a => p_id (pinfo s a)))) ltac:(left)). lia.
Qed.
End Table.

(** ** The changes of the table *)

Lemma ids_ext s s' A : (forall a, a ∈ A -> p_id (pinfo s' a) = p_id (pinfo s a)) -> ids s' A = ids s A.
Proof. intros H. unfold ids. induction A as [|a A IH]; [done|]. cbn [fmap list_fmap]. rewrite H by left. f_equal. apply IH. intros b Hb. apply H. by right. Qed.

(** A new process behind the last one. *)
Lemma append_tabled A m s a name core si : tabled A m s -> a ∉ A -> a <> 0 -> let pid := p_id (pinfo s (last_or 0 A)) + 1 in pid < 2 ^ 32 ->
  m !! pid = None /\ tabled (A ++ [a]) (<[pid := ProcessInfo pid core name si (p_chan (pinfo s a)) false]> m) (append_process a (last_or 0 A) pid name core si s).
Proof.
  intros Ht Ha H0 pid Hw. destruct (tabled_last A m s Ht) as [Hz Hmax]. destruct (tabled_nonempty A m s Ht) as [Hne _].
  assert (Hnone : m !! pid = None) by (destruct (m !! pid) as [x|] eqn:E; [|done]; destruct (Hmax _ _ E); subst pid; lia). split; [done|]. destruct Ht as [H1 [l H2] H3 H4 H5].
  set (s' := append_process _ _ _ _ _ _ _). set (x := ProcessInfo pid core name si (p_chan (pinfo s a)) false). assert (Ep : pinfo s' = <[a := x]> (pinfo s)) by done.
  assert (Hold : forall b, b ∈ A -> pinfo s' b = pinfo s b) by (intros b Hb; rewrite Ep; apply fn_lookup_insert_ne; congruence). assert (Hnew : pinfo s' a = x) by (rewrite Ep; apply fn_lookup_insert).
  assert (Eids : ids s' (A ++ [a]) = ids s A ++ [pid]). { unfold ids at 1. rewrite fmap_app. cbn [fmap list_fmap]. rewrite Hnew. f_equal. apply ids_ext. intros b Hb. by rewrite Hold. }
  assert (Hza : last_or 0 A <> a) by congruence. assert (Hz0 : last_or 0 A <> 0) by (intros E; apply (dlist_nonnull _ _ _ H1); congruence).
  assert (Hk : linked_in (plinks s) A a [] (plinks s')).
  { unfold s', append_process. cbn [set_plinks plinks set_pinfo]. constructor; flookup; try done.
    - intros b Hb Hbz. rewrite app_nil_r in Hb. by flookup.
    - intros b Hb _. rewrite app_nil_r in Hb. by flookup. }
  constructor.
  - pose proof (dlist_link _ _ A a [] _ ltac:(by rewrite app_nil_r) ltac:(by rewrite app_nil_r) H0 Hk) as Hl. change (pt_head s') with (pt_head s). rewrite (dlist_head _ _ _ H1). by destruct A.
  - exists (l ++ [pid]). by rewrite Eids, H2.
  - rewrite Eids. apply StronglySorted_app_2; [|done|by repeat constructor]. intros i j (b & -> & Hb)%list_elem_of_fmap ->%list_elem_of_singleton. destruct (Hmax (p_id (pinfo s b)) (pinfo s b)); [by apply H5; exists b|]. subst pid. lia.
  - rewrite Eids. apply Forall_app. split; [done|]. by constructor.
  - intros id y. destruct (decide (id = pid)) as [->|Hid].
    + rewrite lookup_insert_eq. split; [intros [= <-]; exists a; rewrite elem_of_app, list_elem_of_singleton; tauto|]. intros (b & [Hb| ->%list_elem_of_singleton]%elem_of_app & <- & E); [|by rewrite Hnew].
      rewrite Hold in E by done. assert (Hsome : m !! pid = Some (pinfo s b)) by (apply H5; by exists b). congruence.
    + rewrite lookup_insert_ne by done. rewrite H5. split.
      * intros (b & Hb & <- & E). exists b. rewrite elem_of_app, Hold by done. tauto.
      * intros (b & [Hb| ->%list_elem_of_singleton]%elem_of_app & <- & E); [exists b; by rewrite Hold in * by done|]. rewrite Hnew in E. by destruct Hid.
Qed.

(** A process changes, with the same identifier. *)
Lemma update_tabled A m s a x : tabled A m s -> a ∈ A -> p_id x = p_id (pinfo s a) -> tabled A (<[p_id x := x]> m) (set_pinfo a x s).
Proof.
  intros Ht Ha Ex. pose proof Ht as [H1 H2 H3 H4 H5].
  assert (Hin : forall b, pinfo (set_pinfo a x s) b = if decide (b = a) then x else pinfo s b) by (intros b; cbn; destruct (decide (b = a)) as [->|]; [by rewrite fn_lookup_insert|by rewrite fn_lookup_insert_ne]).
  assert (Eids : ids (set_pinfo a x s) A = ids s A) by (apply ids_ext; intros b Hb; rewrite Hin; destruct (decide (b = a)) as [->|]; done).
  constructor; rewrite ?Eids; try done. intros id y. destruct (decide (id = p_id x)) as [->|Hid].
  - rewrite lookup_insert_eq. split; [intros [= <-]; exists a; rewrite Hin, decide_True by done; done|]. intros (b & Hb & <- & E). rewrite Hin in *. destruct (decide (b = a)) as [->|Hne]; [done|]. destruct Hne. apply (tabled_inj A m s Ht); [done|done|congruence].
  - rewrite lookup_insert_ne by done. rewrite H5. split; intros (b & Hb & <- & E); exists b; rewrite Hin in *; destruct (decide (b = a)) as [->|Hne]; try done; congruence.
Qed.

(** A process other than the first one leaves. *)
Lemma remove_tabled A1 a A2 m s : A1 <> [] -> tabled (A1 ++ a :: A2) m s ->
  let k := set_nxt (prv (plinks s) a) (nxt (plinks s) a) (plinks s) in
  prv (plinks s) a <> 0 /\ tabled (A1 ++ A2) (delete (p_id (pinfo s a)) m) (set_plinks (if negb (nxt k a =? 0) then set_prv (nxt k a) (prv k a) k else k) s).
Proof.
  intros Hne Ht k. pose proof Ht as [H1 [l H2] H3 H4 H5]. destruct (dlist_middle _ _ _ _ _ H1) as (Ha & Ep & En & Eh). pose proof (dl_nodup _ _ _ H1) as Hn. pose proof (dlist_nonnull _ _ _ H1) as Hnull.
  destruct (nodup_parts _ _ _ Hn) as (N1 & N2 & N3 & N4 & N5 & N6). pose proof (last_or_in 0 A1 Hne) as Hp. assert (Hp0 : last_or 0 A1 <> 0) by (intros E; apply Hnull, elem_of_app; left; congruence). assert (Hpa : last_or 0 A1 <> a) by congruence.
  split; [by rewrite Ep|]. set (k' := if negb _ then _ else _). assert (Hk : nxt k a = nxt (plinks s) a /\ prv k a = prv (plinks s) a) by (unfold k; rewrite Ep; by flookup).
  assert (Hk' : k' = if negb (nxt (plinks s) a =? 0) then set_prv (nxt (plinks s) a) (prv (plinks s) a) k else k) by (unfold k'; destruct Hk as [-> ->]; done).
  assert (Hu : unlinked (plinks s) A1 a A2 k').
  { rewrite Hk'. unfold k. rewrite Ep, En. destruct A2 as [|b A2]; cbn [head default from_option id negb].
    - constructor; try done; cbn [Z.eqb negb].
      + intros _. by flookup.
      + intros c Hc Hcz. by flookup.
    - assert (Hb : b <> 0) by (intros ->; apply Hnull, elem_of_app; do 2 right; left). zdecide. cbn [negb]. constructor; cbn [head default from_option id].
      + intros _. by flookup.
      + intros _. by flookup.
      + intros c Hc Hcz. by flookup.
      + intros c Hc Hcb. by flookup. }
  assert (Eids : ids s (A1 ++ a :: A2) = ids s A1 ++ p_id (pinfo s a) :: ids s A2) by (unfold ids; by rewrite fmap_app). assert (Eids' : ids (set_plinks k' s) (A1 ++ A2) = ids s A1 ++ ids s A2) by (unfold ids; by rewrite fmap_app).
  constructor; rewrite ?Eids'.
  - pose proof (dlist_unlink _ _ _ _ _ _ H1 Hu) as Hl. cbn [set_plinks plinks pt_head]. rewrite Eh. by destruct A1.
  - rewrite Eids in H2. destruct A1 as [|b A1]; [done|]. cbn [ids fmap list_fmap app] in *. injection H2 as E _. unfold ids. cbn [fmap list_fmap app]. rewrite E. by eexists.
  - rewrite Eids in H3. apply StronglySorted_app in H3 as (S1 & S2 & S3). apply StronglySorted_inv in S3 as [S3 S4]. apply StronglySorted_app_2; [|done|done]. intros i j Hi Hj. apply S1; [done|by right].
  - rewrite Eids in H4. apply Forall_app in H4 as [W1 W2]. apply Forall_app. split; [done|]. by inversion W2.
  - intros id y. rewrite lookup_delete_Some, H5. cbn [set_plinks pinfo]. split.
    + intros (Hid & b & Hb & <- & E). exists b. split; [|done]. apply elem_of_app in Hb as [Hb|[->|Hb]%elem_of_cons]; [apply elem_of_app; by left|by destruct Hid|apply elem_of_app; by right].
    + intros (b & Hb & <- & E). assert (HbA : b ∈ A1 ++ a :: A2) by (rewrite elem_of_app, elem_of_cons; apply elem_of_app in Hb; tauto). split; [|by exists b]. intros E'. assert (b = a) by (apply (tabled_inj _ _ _ Ht); [done|apply elem_of_app; right; left|congruence]).
      subst b. apply elem_of_app in Hb as [|]; done.
Qed.

(** * The specification *)

Inductive pcall :=
| PRegister (a : Z) (name : list Z) (core si : Z)
| PFinish (a : Z) (name : list Z) (chan : Z)
| PDeregister (id : Z)
| PKill (id : Z).

(** An identifier above all that are in use, and not more than needed. *)
Definition next_id (m : gmap Z process_info) (pid : Z) : Prop := (forall id, is_Some (m !! id) -> id < pid) /\ is_Some (m !! (pid - 1)).

(** What the calls do to the map of processes. *)
Inductive pspec (m : gmap Z process_info) : pcall -> errval * Z -> gmap Z process_info -> Prop :=
| spec_register a name core si pid ch : next_id m pid -> pspec m (PRegister a name core si) (SYS_ERR_OK, pid) (<[pid := ProcessInfo pid core name si ch false]> m)
| spec_finish a name chan pid x : m !! pid = Some x -> waiting name x -> (forall id y, m !! id = Some y -> waiting name y -> pid <= id) ->
    pspec m (PFinish a name chan) (SYS_ERR_OK, pid) (<[pid := ProcessInfo pid (p_core x) name (p_si x) chan true]> m)
| spec_finish_new a name chan pid : (forall id y, m !! id = Some y -> ~ waiting name y) -> next_id m pid ->
    pspec m (PFinish a name chan) (SYS_ERR_OK, pid) (<[pid := ProcessInfo pid 0 name 0 chan true]> m)
| spec_deregister id : is_Some (m !! id) -> pspec m (PDeregister id) (SYS_ERR_OK, 0) (delete id m)
| spec_deregister_none id : m !! id = None -> pspec m (PDeregister id) (err PROCMAN_ERR_PID_NOT_FOUND, 0) m
| spec_kill id x : m !! id = Some x -> p_core x = 0 -> p_init x = true -> pspec m (PKill id) (SYS_ERR_OK, 0) (delete id m)
| spec_kill_other id x : m !! id = Some x -> p_core x <> 0 -> pspec m (PKill id) (err PROCMAN_ERR_PROCESS_ON_OTHER_CORE, 0) m
| spec_kill_early id x : m !! id = Some x -> p_core x = 0 -> p_init x = false -> pspec m (PKill id) (err PROCMAN_ERR_PROCESS_NOT_YET_STARTED, 0) m
| spec_kill_none id : m !! id = None -> pspec m (PKill id) (err PROCMAN_ERR_PID_NOT_FOUND, 0) m.

Definition pexec (fuel : nat) (x : pcall) (s : procs) : outcome (errval * Z * procs) :=
  match x with
  | PRegister a name core si => '(pid, s) ← procman_register_process fuel 0 a 0 name core si s; Done (SYS_ERR_OK, pid, s)
  | PFinish a name chan => '(pid, s) ← procman_finish_process_register fuel 0 2 a 0 name chan s; Done (SYS_ERR_OK, pid, s)
  | PDeregister id => '(e, s) ← procman_deregister fuel id s; Done (e, 0, s)
  | PKill id => '(e, s) ← procman_kill_process fuel 0 SYS_ERR_OK id s; Done (e, 0, s)
  end.

(** With enough fuel, that is, after finitely many rounds of its loops. *)
Definition returns (x : pcall) (s : procs) (r : errval * Z) (s' : procs) : Prop := exists n, forall fuel, (n <= fuel)%nat -> pexec fuel x s = Done (r, s').

Definition table (m : gmap Z process_info) (s : procs) : Prop := exists A, tabled A m s.

(** The entries in memory. *)
Definition entry (s : procs) (a : Z) : Prop := exists A, dlist (plinks s) (pt_head s) A /\ a ∈ A.

(** [malloc] returns memory that is not in use, and identifiers are left; init
    itself is neither deregistered nor killed; a process that is killed was
    registered with its spawn information. *)
Definition allowed (m : gmap Z process_info) (x : pcall) (s : procs) : Prop :=
  match x with
  | PRegister a _ _ _ | PFinish a _ _ => a <> 0 /\ ~ entry s a /\ m !! (2 ^ 32 - 1) = None
  | PDeregister id => id <> 0
  | PKill id => id <> 0 /\ (forall x, m !! id = Some x -> p_core x = 0 -> p_init x = true -> p_si x <> 0)
  end.

Lemma entry_tabled A m s a : tabled A m s -> ~ entry s a -> a ∉ A.
Proof. intros Ht Hn Ha. apply Hn. exists A. split; [apply Ht|done]. Qed.

(** The greatest identifier in use is not the greatest one of its type. *)
Lemma tabled_room A m s : tabled A m s -> m !! (2 ^ 32 - 1) = None -> let pid := p_id (pinfo s (last_or 0 A)) + 1 in pid < 2 ^ 32 /\ u32 pid = pid /\ next_id m pid.
Proof.
  intros Ht Hm pid. destruct (tabled_last A m s Ht) as [Hz Hmax]. pose proof (tabled_at A m s Ht _ Hz) as Hat. destruct (Hmax _ _ Hat) as [H0 _].
  assert (Hw : p_id (pinfo s (last_or 0 A)) < 2 ^ 32) by (pose proof (tb_width _ _ _ Ht) as Hw; rewrite Forall_forall in Hw; apply Hw; by apply (list_elem_of_fmap_2 (fun a => p_id (pinfo s a)))).
  assert (p_id (pinfo s (last_or 0 A)) <> 2 ^ 32 - 1) by congruence. subst pid. split_and!; [lia|apply u32_small; split; lia|]. split.
  - intros id [x Hx]. destruct (Hmax _ _ Hx). lia.
  - rewrite Z.add_simpl_r. by eexists.
Qed.

Section Calls.
Context (A : list Z) (m : gmap Z process_info) (s : procs) (Ht : tabled A m s).

Lemma register_run fuel a name core si : (length A < fuel)%nat -> a <> 0 -> m !! (2 ^ 32 - 1) = None -> let pid := p_id (pinfo s (last_or 0 A)) + 1 in
  procman_register_process fuel 0 a 0 name core si s = Done (pid, append_process a (last_or 0 A) pid name core si s).
Proof.
  intros Hf Ha Hm pid. destruct (tabled_nonempty A m s Ht) as [Hne H0]. destruct (tabled_room A m s Ht Hm) as (_ & Eu & _). unfold procman_register_process. zdecide. cbn [negb assert mbind outcome_bind].
  rewrite (last_loop_spec s A fuel 0 _ Hne (dl_seg _ _ _ (tb_list _ _ _ Ht)) Hf). cbn [mbind outcome_bind Z.eqb negb]. by rewrite Eu.
Qed.

Lemma finish_run fuel calls a name chan : (length A < fuel)%nat -> procman_finish_process_register fuel 0 (S calls) a 0 name chan s =
  match filter (fun a => waiting name (pinfo s a)) A with
  | b :: _ => let x := pinfo s b in Done (p_id x, set_pinfo b (ProcessInfo (p_id x) (p_core x) (p_name x) (p_si x) chan true) s)
  | [] => '(_, s) ← procman_register_process fuel 0 a 0 name 0 0 s; procman_finish_process_register fuel 0 calls a 0 name chan s
  end.
Proof.
  intros Hf. destruct (tabled_nonempty A m s Ht) as [_ H0]. cbn [procman_finish_process_register]. zdecide. cbn [negb assert mbind outcome_bind]. rewrite (waiting_loop_spec name s A fuel 0 _ (dl_seg _ _ _ (tb_list _ _ _ Ht)) Hf). cbn [mbind outcome_bind].
  destruct (filter _ A) as [|b l] eqn:E; [done|]. assert (Hb : b ∈ b :: l) by left. rewrite <- E in Hb. apply list_elem_of_filter in Hb as [_ Hb]. cbn [head default from_option id].
  assert (b <> 0) by (intros ->; by apply (dlist_nonnull _ _ _ (tb_list _ _ _ Ht))). by zdecide.
Qed.

Lemma deregister_some id x : id <> 0 -> m !! id = Some x -> exists s', table (delete id m) s' /\ forall fuel, (length A < fuel)%nat -> procman_deregister fuel id s = Done (SYS_ERR_OK, s').
Proof.
  intros Hid Hm. destruct (find_some A m s Ht id x Hm) as (a & Ha & <- & <- & E). destruct (tabled_nonempty A m s Ht) as [_ H0].
  apply list_elem_of_split in Ha as (A1 & A2 & EA). assert (Hne : A1 <> []). { intros ->. destruct (tb_first _ _ _ Ht) as [l El]. rewrite EA in El. cbn in El. by injection El as ? _. }
  pose proof Ht as Ht'. rewrite EA in Ht'. destruct (remove_tabled A1 a A2 m s Hne Ht') as [Hp Hr]. cbv zeta in Hr. eexists. split; [by eexists|]. intros fuel Hf.
  unfold procman_deregister. zdecide. cbn [negb assert mbind outcome_bind]. rewrite (E fuel Hf). cbn [mbind outcome_bind err_is_fail SYS_ERR_OK]. zdecide. cbn [negb assert mbind outcome_bind]. done.
Qed.

Lemma deregister_none fuel id : (length A < fuel)%nat -> m !! id = None -> procman_deregister fuel id s = Done (err PROCMAN_ERR_PID_NOT_FOUND, s).
Proof. intros Hf Hm. destruct (tabled_nonempty A m s Ht) as [_ H0]. unfold procman_deregister. zdecide. cbn [negb assert mbind outcome_bind]. by rewrite (find_none A m s Ht fuel id Hf Hm). Qed.
End Calls.

Lemma log_kill_tabled A m s si ch : tabled A m s -> tabled A m (log_kill si ch s).
Proof. intros [H1 H2 H3 H4 H5]. by constructor. Qed.

(** ** Every call refines the specification *)

Lemma register_refines A m s a name core si : tabled A m s -> allowed m (PRegister a name core si) s ->
  exists r s' m', returns (PRegister a name core si) s r s' /\ pspec m (PRegister a name core si) r m' /\ table m' s'.
Proof.
  intros Ht (Ha & Hn & Hm). destruct (tabled_room A m s Ht Hm) as (Hw & _ & Hid). destruct (append_tabled A m s a name core si Ht (entry_tabled _ _ _ _ Ht Hn) Ha Hw) as [_ Ht'].
  eexists _, _, _. split; [|split; [by constructor|by eexists]]. exists (S (length A)). intros fuel Hf. cbn [pexec]. by rewrite (register_run A m s Ht) by (done || lia).
Qed.

Lemma filter_first A s P `{forall a, Decision (P a)} b l : StronglySorted Z.lt (ids s A) -> filter P A = b :: l -> b ∈ A /\ P b /\ forall a, a ∈ A -> P a -> p_id (pinfo s b) <= p_id (pinfo s a).
Proof.
  intros Hs. induction A as [|x A IH]; [done|]. cbn [ids fmap list_fmap] in Hs. apply StronglySorted_inv in Hs as [Hs Hx]. rewrite filter_cons. destruct (decide (P x)) as [Hp|Hp].
  - intros [= <- _]. split_and!; [left|done|]. intros a [->|Ha]%elem_of_cons _; [lia|]. rewrite Forall_forall in Hx. specialize (Hx (p_id (pinfo s a)) ltac:(by apply (list_elem_of_fmap_2 (fun a => p_id (pinfo s a))))). lia.
  - intros E. destruct (IH Hs E) as (H1 & H2 & H3). split_and!; [by right|done|]. intros a [->|Ha]%elem_of_cons Hpa; [done|by apply H3].
Qed.

Lemma filter_ext_in {X} (P Q : X -> Prop) `{forall x, Decision (P x)} `{forall x, Decision (Q x)} (l : list X) : (forall x, x ∈ l -> P x <-> Q x) -> filter P l = filter Q l.
Proof.
  induction l as [|x l IH]; [done|]. intros Hx. rewrite !filter_cons, IH by (intros y Hy; apply Hx; by right). pose proof (Hx x ltac:(left)) as E. by destruct (decide (P x)), (decide (Q x)); try tauto.
Qed.

Lemma finish_refines A m s a name chan : tabled A m s -> allowed m (PFinish a name chan) s ->
  exists r s' m', returns (PFinish a name chan) s r s' /\ pspec m (PFinish a name chan) r m' /\ table m' s'.
Proof.
  intros Ht (Ha & Hn & Hm). destruct (filter (fun a => waiting name (pinfo s a)) A) as [|b l] eqn:E.
  - destruct (tabled_room A m s Ht Hm) as (Hw & _ & Hid). pose proof (entry_tabled _ _ _ _ Ht Hn) as HaA. destruct (append_tabled A m s a name 0 0 Ht HaA Ha Hw) as [Hnone Ht'].
    set (pid := p_id (pinfo s (last_or 0 A)) + 1) in *. set (s1 := append_process a (last_or 0 A) pid name 0 0 s) in *. assert (Hp : pinfo s1 a = ProcessInfo pid 0 name 0 (p_chan (pinfo s a)) false) by apply fn_lookup_insert.
    assert (Hfil : filter (fun a => waiting name (pinfo s1 a)) (A ++ [a]) = [a]).
    { rewrite filter_app. rewrite (filter_ext_in _ (fun b => waiting name (pinfo s b)) A), E; [cbn [app]; rewrite filter_cons_True, filter_nil; [done|by rewrite Hp]|].
      intros b Hb. unfold s1. cbn. by rewrite fn_lookup_insert_ne by congruence. }
    assert (Hup := update_tabled (A ++ [a]) _ s1 a (ProcessInfo pid 0 name 0 chan true) Ht' ltac:(apply elem_of_app; right; left) ltac:(by rewrite Hp)). cbn [p_id] in Hup. rewrite insert_insert_eq in Hup.
    eexists (SYS_ERR_OK, pid), (set_pinfo a (ProcessInfo pid 0 name 0 chan true) s1), _. split; [|split; [apply spec_finish_new; [|exact Hid]|by eexists]].
    + exists (S (S (length A))). intros fuel Hf. cbn [pexec]. rewrite (finish_run A m s Ht) by lia. rewrite E. rewrite (register_run A m s Ht) by (done || lia). cbn [mbind outcome_bind]. fold pid s1.
      rewrite (finish_run _ _ s1 Ht') by (rewrite length_app; cbn; lia). rewrite Hfil. by rewrite Hp.
    + intros id y (b & Hb & <- & <-)%(tb_map _ _ _ Ht) Hwt. assert (Hin : b ∈ filter (fun a => waiting name (pinfo s a)) A) by (by apply list_elem_of_filter). rewrite E in Hin. by apply elem_of_nil in Hin.
  - destruct (filter_first A s _ b l (tb_sorted _ _ _ Ht) E) as (Hb & [Hw1 Hw2] & Hmin). pose proof (tabled_at A m s Ht b Hb) as Hat.
    pose proof (update_tabled A m s b (ProcessInfo (p_id (pinfo s b)) (p_core (pinfo s b)) name (p_si (pinfo s b)) chan true) Ht Hb eq_refl) as Hup. cbn [p_id] in Hup.
    eexists (SYS_ERR_OK, p_id (pinfo s b)), _, _. split; [|split; [eapply spec_finish; [exact Hat|done|]|by eexists]].
    + exists (S (length A)). intros fuel Hf. cbn [pexec]. rewrite (finish_run A m s Ht) by lia. rewrite E. cbn [mbind outcome_bind]. by rewrite Hw2.
    + intros id y (c & Hc & <- & <-)%(tb_map _ _ _ Ht) Hwt. by apply Hmin.
Qed.

Lemma deregister_refines A m s id : tabled A m s -> allowed m (PDeregister id) s ->
  exists r s' m', returns (PDeregister id) s r s' /\ pspec m (PDeregister id) r m' /\ table m' s'.
Proof.
  intros Ht Hid. cbn in Hid. destruct (m !! id) as [x|] eqn:E.
  - destruct (deregister_some A m s Ht id x Hid E) as (s' & Ht' & Hr). eexists _, s', _. split; [|split; [by apply spec_deregister; eexists|done]]. exists (S (length A)). intros fuel Hf. cbn [pexec]. by rewrite Hr by lia.
  - eexists _, s, m. split; [|split; [by apply spec_deregister_none|by eexists]]. exists (S (length A)). intros fuel Hf. cbn [pexec]. by rewrite (deregister_none A m s Ht) by (done || lia).
Qed.

Lemma kill_refines A m s id : tabled A m s -> allowed m (PKill id) s -> exists r s' m', returns (PKill id) s r s' /\ pspec m (PKill id) r m' /\ table m' s'.
Proof.
  intros Ht [Hid Hsi]. destruct (tabled_nonempty A m s Ht) as [_ H0]. destruct (m !! id) as [x|] eqn:E.
  - destruct (find_some A m s Ht id x E) as (a & Ha & Ex & <- & Hf). assert (Hrun : forall fuel, (length A < fuel)%nat -> procman_kill_process fuel 0 SYS_ERR_OK (p_id x) s =
      if negb (0 =? p_core x) then Done (err PROCMAN_ERR_PROCESS_ON_OTHER_CORE, s) else if negb (p_init x) then Done (err PROCMAN_ERR_PROCESS_NOT_YET_STARTED, s) else
      _ ← nonnull (p_si x); '(_, s) ← procman_deregister fuel (p_id x) (log_kill (p_si x) (p_chan x) s); Done (SYS_ERR_OK, s)).
    { intros fuel Hfu. unfold procman_kill_process. zdecide. cbn [negb assert mbind outcome_bind]. rewrite (Hf fuel Hfu). cbn [mbind outcome_bind err_is_fail SYS_ERR_OK]. by rewrite Ex. }
    destruct (Z.eqb_spec 0 (p_core x)) as [Ec|Ec]; cbn [negb] in Hrun.
    + destruct (p_init x) eqn:Ei; cbn [negb] in Hrun.
      * assert (Hs : p_si x <> 0) by (by apply (Hsi x)). destruct (deregister_some A m _ (log_kill_tabled A m s (p_si x) (p_chan x) Ht) (p_id x) x Hid E) as (s' & Ht' & Hr). eexists _, s', _. split; [|split; [by apply (spec_kill m _ x)|done]].
        exists (S (length A)). intros fuel Hfu. cbn [pexec]. rewrite Hrun by lia. unfold nonnull. zdecide. cbn [mbind outcome_bind]. by rewrite Hr by lia.
      * eexists _, s, m. split; [|split; [by apply (spec_kill_early m _ x)|by eexists]]. exists (S (length A)). intros fuel Hfu. cbn [pexec]. by rewrite Hrun by lia.
    + eexists _, s, m. split; [|split; [by apply (spec_kill_other m _ x)|by eexists]]. exists (S (length A)). intros fuel Hfu. cbn [pexec]. by rewrite Hrun by lia.
  - eexists _, s, m. split; [|split; [by apply spec_kill_none|by eexists]]. exists (S (length A)). intros fuel Hfu. cbn [pexec]. unfold procman_kill_process. zdecide. cbn [negb assert mbind outcome_bind].
    by rewrite (find_none A m s Ht) by (done || lia).
Qed.

(** A process that is killed without spawn information. *)
Lemma kill_faults A m s id x : tabled A m s -> m !! id = Some x -> p_core x = 0 -> p_init x = true -> p_si x = 0 -> forall fuel, (length A < fuel)%nat -> pexec fuel (PKill id) s = Fault NullDereference.
Proof.
  intros Ht E Ec Ei Es fuel Hfu. destruct (tabled_nonempty A m s Ht) as [_ H0]. destruct (find_some A m s Ht id x E) as (a & _ & Ex & <- & Hf). cbn [pexec]. unfold procman_kill_process. zdecide. cbn [negb assert mbind outcome_bind]. rewrite (Hf fuel Hfu). cbn [mbind outcome_bind err_is_fail SYS_ERR_OK]. by rewrite Ex, Ec, Ei, Es.
Qed.

Lemma call_refines m s x : table m s -> allowed m x s -> exists r s' m', returns x s r s' /\ pspec m x r m' /\ table m' s'.
Proof. intros [A Ht] Hx. destruct x; [by eapply register_refines|by eapply finish_refines|by eapply deregister_refines|by eapply kill_refines]. Qed.

(** * The system *)

Inductive pstep : procs -> procs -> Prop :=
| pstep_call m x r s s' : table m s -> allowed m x s -> returns x s r s' -> pstep s s'.

Definition pinitial (s : procs) : Prop := exists a s0, procman_init a s0 = Done s.

Lemma init_tabled a s0 s : procman_init a s0 = Done s -> tabled [a] {[0 := pinfo s a]} s.
Proof.
  intros E. unfold procman_init in E. destruct (assert _); [|done]. cbn [mbind outcome_bind] in E. destruct (Z.eqb_spec a 0) as [|Ha]; [done|]. injection E as <-.
  set (x := ProcessInfo 0 0 INIT_NAME _ _ _). assert (Ex : <[a := x]> (pinfo s0) a = x) by apply fn_lookup_insert. cbn [pinfo set_pinfo]. rewrite Ex.
  constructor; cbn [plinks pt_head pinfo set_pinfo ids fmap list_fmap]; rewrite ?Ex; [|by eexists|by repeat constructor|by repeat constructor|].
  - split; [|apply NoDup_singleton]. cbn [seg]. by flookup.
  - intros id y. rewrite lookup_singleton_Some. split.
    + intros [<- <-]. exists a. rewrite Ex. split_and!; [left|done|done].
    + intros (b & ->%list_elem_of_singleton & <- & <-). by rewrite Ex.
Qed.

Lemma returns_fun x s r1 s1 r2 s2 : returns x s r1 s1 -> returns x s r2 s2 -> r1 = r2 /\ s1 = s2.
Proof. intros [n1 H1] [n2 H2]. specialize (H1 (n1 + n2)%nat ltac:(lia)). specialize (H2 (n1 + n2)%nat ltac:(lia)). rewrite H1 in H2. by injection H2. Qed.

Lemma preach_table s0 s : pinitial s0 -> rtc pstep s0 s -> exists m, table m s.
Proof.
  intros (a & s00 & H0) Hs. apply init_tabled in H0. assert (Hm : exists m, table m s0) by (by eexists _, _). clear H0. induction Hs as [|s1 s2 s3 H12 _ IH]; [done|]. apply IH. destruct H12 as [m x r s s' Ht Hx Hr]. destruct (call_refines m s x Ht Hx) as (r1 & s1 & m' & Hr1 & _ & Ht').
  destruct (returns_fun _ _ _ _ _ _ Hr Hr1) as [_ ->]. by exists m'.
Qed.

(** C12: on the core that keeps the table of all processes, the table is a
    finite map from identifiers to processes in every state that can be
    reached: lookups agree with it, new processes get a free identifier, and
    registration, its completion, exit and kill return and change it as
    specified, as long as malloc returns new memory, the greatest identifier
    is not in use, init itself (identifier 0) is neither deregistered nor
    killed, a started process of this core that is killed has spawn
    information, and the message that stops it is sent; killing such a
    process without spawn information, which one that registered itself has
    not, dereferences a null pointer. *)
Theorem procman_refines_map s0 s : pinitial s0 -> rtc pstep s0 s ->
  exists m, table m s /\
    (exists n, forall fuel id, (n <= fuel)%nat -> procman_lookup_name_by_id fuel id s = Done (p_name <$> m !! id) /\ procman_get_channel_by_id fuel id s = Done (default 0 (p_chan <$> m !! id))) /\
    (forall x, allowed m x s -> exists r s' m', returns x s r s' /\ pspec m x r m' /\ table m' s') /\
    (forall id x, m !! id = Some x -> p_core x = 0 -> p_init x = true -> p_si x = 0 -> exists n, forall fuel, (n <= fuel)%nat -> pexec fuel (PKill id) s = Fault NullDereference).
Proof.
  intros H0 Hs. destruct (preach_table _ _ H0 Hs) as [m Ht]. exists m. split; [done|]. split; [|split; [intros x Hx; by apply call_refines|intros id x Hx E1 E2 E3; destruct Ht as [A Ht]; exists (S (length A)); intros fuel Hf; apply (kill_faults A m s id x); [done|done|done|done|done|lia]]]. destruct Ht as [A Ht]. exists (S (length A)). intros fuel id Hf.
  destruct (tabled_nonempty A m s Ht) as [_ Hh]. unfold procman_lookup_name_by_id, procman_get_channel_by_id. zdecide. cbn [negb assert mbind outcome_bind]. destruct (m !! id) as [x|] eqn:E.
  - destruct (find_some A m s Ht id x E) as (a & _ & <- & _ & Hr). rewrite Hr by lia. done.
  - by rewrite (find_none A m s Ht) by (done || lia).
Qed.

Module ProcSample.

(** Two processes with the same name. *)
Definition blank : procs := Procs (Links (fun _ => 0) (fun _ => 0)) (fun _ => ProcessInfo 99 99 [] 0 777 false) 0 [] [].
Definition s0 : procs := match procman_init 4096 blank with Done s => s | Fault _ => blank end.
Definition after (x : pcall) (s : procs) : procs := match pexec 9 x s with Done (_, s) => s | Fault _ => blank end.
Definition shell : list Z := [115; 104].
Definition s1 : procs := after (PRegister 8192 shell 0 50) s0.

Lemma s0_tabled : tabled [4096] {[0 := pinfo s0 4096]} s0.
Proof. by apply (init_tabled 4096 blank). Qed.

Lemma s0_step : pstep s0 s1.
Proof.
  apply (pstep_call {[0 := pinfo s0 4096]} (PRegister 8192 shell 0 50) (SYS_ERR_OK, 1)); [by eexists; apply s0_tabled| |].
  - split_and!; [done| |by rewrite lookup_singleton_ne]. intros (A & Hl & Ha). rewrite (dlist_fun _ _ _ _ Hl (tb_list _ _ _ s0_tabled)) in Ha. by apply list_elem_of_singleton in Ha.
  - exists 2%nat. intros [|[|fuel]] Hf; [lia|lia|]. reflexivity.
Qed.

Lemma procman_refines_map_witness : exists m n, table m s1 /\ procman_lookup_name_by_id n 1 s1 = Done (Some shell) /\ m !! 1 = Some (ProcessInfo 1 0 shell 50 777 false).
Proof.
  destruct (procman_refines_map s0 s1 (ex_intro _ 4096 (ex_intro _ blank eq_refl)) (rtc_once _ _ s0_step)) as (m & Ht & [n Hn] & _). exists m, n. split; [done|].
  assert (Hm : m !! 1 = Some (ProcessInfo 1 0 shell 50 777 false)).
  { destruct Ht as [A Ht]. apply (tb_map _ _ _ Ht). exists 8192. split; [|done]. assert (Hl : dlist (plinks s1) (pt_head s1) [4096; 8192]) by (split; [by vm_compute|vm_decide]). rewrite (dlist_fun _ _ _ _ (tb_list _ _ _ Ht) Hl). right. left. }
  split; [|done]. destruct (Hn n 1 ltac:(lia)) as [-> _]. by rewrite Hm.
Defined.

(** The identifiers of two processes with the same name, and of the first and
    second one to finish. *)
Lemma same_name_run :
  let s := after (PRegister 12288 shell 0 51) s1 in
  match pexec 9 (PFinish 16384 shell 500) s with
  | Done (_, p1, s) => match pexec 9 (PFinish 16384 shell 501) s with Done (_, p2, s) => Some (p1, p2, p_chan (pinfo s 8192), p_chan (pinfo s 12288)) | _ => None end
  | _ => None
  end = Some (1, 2, 500, 501).
Proof. cbv zeta. vm_eq. Qed.

(** ** What goes wrong *)

(** When the youngest process exits, the next one gets its identifier. *)
Lemma identifier_reused :
  match pexec 9 (PDeregister 1) s1 with
  | Done (_, _, s) => match pexec 9 (PRegister 12288 [120] 0 51) s with Done (_, pid, s) => Some (pid, procman_lookup_name_by_id 9 1 s) | _ => None end
  | _ => None
  end = Some (1, Done (Some [120])).
Proof. vm_eq. Qed.

(** A process that init did not register has no spawn information; killing it
    dereferences a null pointer. *)
Lemma kill_unregistered_faults :
  match pexec 9 (PFinish 8192 shell 500) s0 with Done (_, pid, s) => pexec 9 (PKill pid) s | Fault f => Fault f end = Fault NullDereference.
Proof. vm_eq. Qed.

(** The channel of a process that did not finish its registration is whatever
    its memory held. *)
Lemma channel_uninitialised : procman_get_channel_by_id 9 1 s1 = Done 777.
Proof. vm_eq. Qed.

(** The flag of init's own entry is not set either: another process with its
    name may take it. *)
Lemma init_entry_taken : match pexec 9 (PFinish 8192 INIT_NAME 500) s0 with Done (_, pid, s) => Some (pid, p_chan (pinfo s 4096)) | _ => None end = Some (0, 500).
Proof. vm_eq. Qed.
End ProcSample.
