(* ===== verification/Terminal.v ===== *)
(** The terminal of init (usr/init/lib_terminal.c): characters that are typed
    go into a ring of keys (direct mode) or into a line (line mode), from
    where processes read them.

    Buffers are lists of bytes of the size that was allocated; an access
    outside of them is a fault.  A read that has to wait returns [None].
    What is printed and the messages to the other core are kept as lists; a
    message holds the character that its pointer points to when it is
    enqueued. *)
From S2P Require Import Prelude.

Definition FIFO_CIRC_QUEUE_SIZE : Z := 100.
Definition LINE_BUFF_LINE_SIZE : Z := 500.

Definition ASCII_CODE_EOT : Z := 4.
Definition ASCII_CODE_LF : Z := 10.
Definition ASCII_CODE_CR : Z := 13.
Definition ASCII_CODE_ESC : Z := 27.
Definition ASCII_CODE_A : Z := 65.
Definition ASCII_CODE_B : Z := 66.
Definition ASCII_CODE_C : Z := 67.
Definition ASCII_CODE_D : Z := 68.
Definition ASCII_CODE_OPENING_SQUARE_BRACKET : Z := 91.
Definition ASCII_CODE_DEL : Z := 127.
Definition ASCII_CODE_ARROW_L : Z := 128.
Definition ASCII_CODE_ARROW_R : Z := 129.
Definition ASCII_CODE_ARROW_U : Z := 130.
Definition ASCII_CODE_ARROW_D : Z := 131.

Definition is_endl (c : Z) : bool := (c =? ASCII_CODE_EOT) || (c =? ASCII_CODE_LF) || (c =? ASCII_CODE_CR).

Inductive input_feed_mode := FEED_MODE_DIRECT | FEED_MODE_LINE.

Inductive term_msg := TermChar (c : Z) | TermConsume | TermLineMode | TermDirectMode.

Record fifo_input_queue := Fifo { f_buff : list Z; f_head : Z; f_tail : Z; f_size : Z }.
Record line_input_queue := Line { write_buff : list Z; read_buff : list Z; write_pos : Z; read_pos : Z; line_capacity : Z }.

Record terminal := Terminal {
  is_master : bool;
  input_buff : fifo_input_queue;
  line_buff : line_input_queue;
  feed_mode : input_feed_mode;
  direct_esc_init : bool; direct_ctrl_init : bool;
  escape_sequence_initializer : bool; escape_sequence_finalizer : bool;
  printed : list Z;
  msgs : list term_msg
}.
Definition set_fifo (b : fifo_input_queue) (t : terminal) : terminal :=
  Terminal (is_master t) b (line_buff t) (feed_mode t) (direct_esc_init t) (direct_ctrl_init t) (escape_sequence_initializer t) (escape_sequence_finalizer t) (printed t) (msgs t).
Definition set_line (b : line_input_queue) (t : terminal) : terminal :=
  Terminal (is_master t) (input_buff t) b (feed_mode t) (direct_esc_init t) (direct_ctrl_init t) (escape_sequence_initializer t) (escape_sequence_finalizer t) (printed t) (msgs t).
Definition set_mode (m : input_feed_mode) (t : terminal) : terminal :=
  Terminal (is_master t) (input_buff t) (line_buff t) m (direct_esc_init t) (direct_ctrl_init t) (escape_sequence_initializer t) (escape_sequence_finalizer t) (printed t) (msgs t).
Definition set_direct (e c : bool) (t : terminal) : terminal :=
  Terminal (is_master t) (input_buff t) (line_buff t) (feed_mode t) e c (escape_sequence_initializer t) (escape_sequence_finalizer t) (printed t) (msgs t).
Definition set_escape (i f : bool) (t : terminal) : terminal :=
  Terminal (is_master t) (input_buff t) (line_buff t) (feed_mode t) (direct_esc_init t) (direct_ctrl_init t) i f (printed t) (msgs t).
Definition terminal_write (s : list Z) (t : terminal) : terminal :=
  Terminal (is_master t) (input_buff t) (line_buff t) (feed_mode t) (direct_esc_init t) (direct_ctrl_init t) (escape_sequence_initializer t) (escape_sequence_finalizer t) (printed t ++ s) (msgs t).
Definition urpc_term (m : term_msg) (t : terminal) : terminal :=
  Terminal (is_master t) (input_buff t) (line_buff t) (feed_mode t) (direct_esc_init t) (direct_ctrl_init t) (escape_sequence_initializer t) (escape_sequence_finalizer t) (printed t) (msgs t ++ [m]).

Definition terminal_write_c (c : Z) : terminal -> terminal := terminal_write [c].

(** Access to a buffer. *)
Definition load (b : list Z) (i : Z) : outcome Z :=
  if (0 <=? i) && (i <? Z.of_nat (length b)) then Done (default 0 (b !! Z.to_nat i)) else Fault OutOfBounds.
Definition store (b : list Z) (i c : Z) : outcome (list Z) :=
  if (0 <=? i) && (i <? Z.of_nat (length b)) then Done (<[Z.to_nat i := c]> b) else Fault OutOfBounds.

(** * Direct mode *)

Definition input_buff_capacity (b : fifo_input_queue) : Z := f_size b - 1.
Definition input_buff_free_count (b : fifo_input_queue) : Z :=
  if f_tail b <=? f_head b then input_buff_capacity b - (f_head b - f_tail b) else (f_tail b - f_head b) - 1.
Definition input_buff_is_full (b : fifo_input_queue) : bool := input_buff_free_count b =? 0.
Definition input_buff_is_empty (b : fifo_input_queue) : bool := input_buff_free_count b =? input_buff_capacity b.
Definition input_buff_advance_head (b : fifo_input_queue) : fifo_input_queue := Fifo (f_buff b) (Z.rem (f_head b + 1) (f_size b)) (f_tail b) (f_size b).
Definition input_buff_advance_tail (b : fifo_input_queue) : fifo_input_queue := Fifo (f_buff b) (f_head b) (Z.rem (f_tail b + 1) (f_size b)) (f_size b).

Definition do_feeding_input_buff (c : Z) (t : terminal) : outcome terminal :=
  let b := input_buff t in
  buff ← store (f_buff b) (f_head b) c;
  let b := Fifo buff (f_head b) (f_tail b) (f_size b) in
  let t := set_fifo b t in
  t ← (if is_master t then c ← load (f_buff b) (f_head b); Done (urpc_term (TermChar c) t) else Done t);
  Done (set_fifo (input_buff_advance_head b) t).

Definition feed_input_buff (c : Z) (t : terminal) : outcome terminal :=
  if input_buff_is_full (input_buff t) then Done t else
  if direct_esc_init t && (c =? ASCII_CODE_OPENING_SQUARE_BRACKET) then Done (set_direct false true t) else
  if direct_ctrl_init t then
    t ← (if c =? ASCII_CODE_A then do_feeding_input_buff ASCII_CODE_ARROW_U t
         else if c =? ASCII_CODE_B then do_feeding_input_buff ASCII_CODE_ARROW_D t
         else if c =? ASCII_CODE_C then do_feeding_input_buff ASCII_CODE_ARROW_R t
         else if c =? ASCII_CODE_D then do_feeding_input_buff ASCII_CODE_ARROW_L t
         else Done t);
    Done (set_direct (direct_esc_init t) false t)
  else if c =? ASCII_CODE_ESC then Done (set_direct true (direct_ctrl_init t) t)
  else do_feeding_input_buff c t.

(** [None]: the caller waits. *)
Definition feed_mode_direct_getchar (t : terminal) : outcome (option Z * terminal) :=
  let b := input_buff t in
  if input_buff_is_empty b then Done (None, t) else
  c ← load (f_buff b) (f_tail b);
  Done (Some c, set_fifo (input_buff_advance_tail b) t).

(** * Line mode *)

Definition line_buff_is_empty (b : line_input_queue) : bool := read_pos b =? -1.
Definition line_buff_is_full (b : line_input_queue) : bool := write_pos b =? line_capacity b - 1.

(** The lines are swapped; both positions are reset by the caller. *)
Definition line_buff_switch_lines (b : line_input_queue) : line_input_queue := Line (read_buff b) (write_buff b) (write_pos b) (read_pos b) (line_capacity b).

Definition line_send (t : terminal) : outcome terminal :=
  if is_master t then c ← load (write_buff (line_buff t)) (write_pos (line_buff t)); Done (urpc_term (TermChar c) t) else Done t.

Definition feed_line_buff (c : Z) (t : terminal) : outcome terminal :=
  let b := line_buff t in
  if line_buff_is_full b then Done t else
  if escape_sequence_initializer t && (c =? ASCII_CODE_OPENING_SQUARE_BRACKET) then Done (set_escape false true t) else
  if escape_sequence_finalizer t then Done (set_escape (escape_sequence_initializer t) false t) else
  if is_endl c then
    if negb (line_buff_is_empty b) then Done t else
    buff ← store (write_buff b) (write_pos b) 0;
    let b := line_buff_switch_lines (Line buff (read_buff b) (write_pos b) (read_pos b) (line_capacity b)) in
    line_send (terminal_write_c ASCII_CODE_LF (set_line (Line (write_buff b) (read_buff b) 0 0 (line_capacity b)) t))
  else if c =? ASCII_CODE_DEL then
    if write_pos b =? 0 then Done t else
    buff ← store (write_buff b) (write_pos b) 0;
    line_send (terminal_write [8; 32; 8] (set_line (Line buff (read_buff b) (write_pos b - 1) (read_pos b) (line_capacity b)) t))
  else if c =? ASCII_CODE_ESC then Done (set_escape true (escape_sequence_finalizer t) t)
  else
    buff ← store (write_buff b) (write_pos b) c;
    buff ← store buff (write_pos b + 1) 0;
    line_send (terminal_write_c c (set_line (Line buff (read_buff b) (write_pos b + 1) (read_pos b) (line_capacity b)) t)).

Definition feed_mode_line_getchar (t : terminal) : outcome (option Z * terminal) :=
  let b := line_buff t in
  if line_buff_is_empty b then Done (None, t) else
  c ← load (read_buff b) (read_pos b);
  Done (Some c, set_line (Line (write_buff b) (read_buff b) (write_pos b) (if c =? 0 then -1 else read_pos b + 1) (line_capacity b)) t).

(** * Both modes *)

Definition terminal_feed_buffer (c : Z) (t : terminal) : outcome terminal :=
  match feed_mode t with FEED_MODE_DIRECT => feed_input_buff c t | FEED_MODE_LINE => feed_line_buff c t end.

Definition terminal_getchar (t : terminal) : outcome (option Z * terminal) :=
  '(c, t) ← (match feed_mode t with FEED_MODE_DIRECT => feed_mode_direct_getchar t | FEED_MODE_LINE => feed_mode_line_getchar t end);
  Done (c, if c is Some _ then urpc_term TermConsume t else t).

Definition set_feed_mode_line (t : terminal) : outcome terminal :=
  let b := line_buff t in
  w ← store (write_buff b) 0 0;
  r ← store (read_buff b) 0 0;
  Done (urpc_term TermLineMode (set_line (Line w r 0 (-1) (line_capacity b)) (set_mode FEED_MODE_LINE t))).

Definition set_feed_mode_direct (t : terminal) : outcome terminal :=
  let b := input_buff t in
  buff ← store (f_buff b) 0 0;
  Done (urpc_term TermDirectMode (set_fifo (Fifo buff 0 0 (f_size b)) (set_mode FEED_MODE_DIRECT t))).

(** The other core read a character. *)
Definition terminal_buffer_consume_char (t : terminal) : outcome terminal :=
  match feed_mode t with
  | FEED_MODE_DIRECT => Done (set_fifo (input_buff_advance_tail (input_buff t)) t)
  | FEED_MODE_LINE =>
    let b := line_buff t in
    c ← load (read_buff b) (read_pos b);
    Done (set_line (Line (write_buff b) (read_buff b) (write_pos b) (if c =? 0 then 0 else read_pos b + 1) (line_capacity b)) t)
  end.

(** The memory of the three buffers is an argument. *)
Definition terminal_init (core : Z) (fifo w r : list Z) : terminal :=
  Terminal (core =? 0) (Fifo fifo 0 0 (FIFO_CIRC_QUEUE_SIZE + 1)) (Line w r 0 (-1) LINE_BUFF_LINE_SIZE) FEED_MODE_DIRECT false false false false [] [].
