(* ===== verification/TerminalCorrect.v ===== *)
(** Correctness of Terminal.v: in direct mode, processes read the keys that
    were typed, in order; in line mode, they read the line that was edited;
    and no access is outside of a buffer. *)
From S2P Require Import Prelude Terminal.

(** * Buffers *)

Lemma load_ok b i : 0 <= i < Z.of_nat (length b) -> exists c, load b i = Done c /\ b !! Z.to_nat i = Some c.
Proof.
  intros H. unfold load. zdecide. cbn [andb]. destruct (lookup_lt_is_Some_2 b (Z.to_nat i)) as [c E]; [lia|]. exists c. by rewrite E.
Qed.

Lemma store_ok b i c : 0 <= i < Z.of_nat (length b) -> store b i c = Done (<[Z.to_nat i := c]> b).
Proof. intros H. unfold store. by zdecide. Qed.

(** * Direct mode *)

Definition SIZE : Z := FIFO_CIRC_QUEUE_SIZE + 1.

(** The ring holds the keys [q], the oldest first. *)
Record holds (q : list Z) (b : fifo_input_queue) : Prop := {
  ho_size : f_size b = SIZE;
  ho_length : length (f_buff b) = Z.to_nat SIZE;
  ho_tail : 0 <= f_tail b < SIZE;
  ho_fits : Z.of_nat (length q) <= FIFO_CIRC_QUEUE_SIZE;
  ho_head : f_head b = (f_tail b + Z.of_nat (length q)) `mod` SIZE;
  ho_keys : forall i c, q !! i = Some c -> f_buff b !! Z.to_nat ((f_tail b + Z.of_nat i) `mod` SIZE) = Some c
}.

(** A position of the ring, without the remainder. *)
Lemma position_cases x n : 0 <= x < SIZE -> 0 <= n < SIZE -> (x + n) `mod` SIZE = if x + n <? SIZE then x + n else x + n - SIZE.
Proof.
  unfold SIZE, FIFO_CIRC_QUEUE_SIZE. intros Hx Hn. destruct (Z.ltb_spec (x + n) (100 + 1)); [apply Z.mod_small; lia|]. symmetry. apply (Z.mod_unique_pos _ _ 1); lia.
Qed.

Lemma holds_free q b : holds q b -> input_buff_free_count b = FIFO_CIRC_QUEUE_SIZE - Z.of_nat (length q).
Proof.
  intros [H1 H2 H3 H4 H5 _]. unfold input_buff_free_count, input_buff_capacity. rewrite H1, H5, position_cases by (unfold SIZE in *; lia). unfold SIZE, FIFO_CIRC_QUEUE_SIZE in *.
  destruct (Z.ltb_spec (f_tail b + Z.of_nat (length q)) (100 + 1)); zdecide; lia.
Qed.

Lemma holds_full q b : holds q b -> input_buff_is_full b = (Z.of_nat (length q) =? FIFO_CIRC_QUEUE_SIZE).
Proof. intros H. unfold input_buff_is_full. rewrite (holds_free q b H). pose proof (ho_fits _ _ H). destruct (Z.eqb_spec (Z.of_nat (length q)) FIFO_CIRC_QUEUE_SIZE); zdecide; done. Qed.

Lemma holds_empty q b : holds q b -> input_buff_is_empty b = bool_decide (q = []).
Proof.
  intros H. unfold input_buff_is_empty, input_buff_capacity. rewrite (holds_free q b H), (ho_size _ _ H). unfold SIZE. destruct q as [|c q]; [done|]. rewrite bool_decide_false by done. cbn [length]. zdecide. done.
Qed.

Lemma head_range q b : holds q b -> 0 <= f_head b < Z.of_nat (length (f_buff b)).
Proof. intros [H1 H2 H3 H4 H5 _]. rewrite H2, H5. unfold SIZE, FIFO_CIRC_QUEUE_SIZE. rewrite Z2Nat.id by lia. apply Z.mod_pos_bound. lia. Qed.

Lemma next_position x : 0 <= x < SIZE -> Z.rem (x + 1) SIZE = (x + 1) `mod` SIZE.
Proof. intros H. apply Z.rem_mod_nonneg; unfold SIZE, FIFO_CIRC_QUEUE_SIZE in *; lia. Qed.

Lemma holds_push q b c : holds q b -> Z.of_nat (length q) < FIFO_CIRC_QUEUE_SIZE ->
  holds (q ++ [c]) (input_buff_advance_head (Fifo (<[Z.to_nat (f_head b) := c]> (f_buff b)) (f_head b) (f_tail b) (f_size b))).
Proof.
  intros H Hlt. pose proof (head_range q b H) as Hh. destruct H as [H1 H2 H3 H4 H5 H6]. unfold input_buff_advance_head. constructor; cbn [f_size f_buff f_tail f_head].
  - done.
  - by rewrite length_insert.
  - done.
  - rewrite length_app. cbn. lia.
  - rewrite H1, next_position by (rewrite H2 in Hh; unfold SIZE, FIFO_CIRC_QUEUE_SIZE in *; lia). rewrite H5, length_app, Zplus_mod_idemp_l. f_equal. cbn. lia.
  - intros i x Hi. assert (Hil : (i <= length q)%nat) by (apply lookup_lt_Some in Hi; rewrite length_app in Hi; cbn in Hi; lia). destruct (decide (i = length q)) as [->|Hne].
    + rewrite lookup_app_r, Nat.sub_diag in Hi by lia. injection Hi as <-. rewrite <- H5. apply list_lookup_insert_eq. lia.
    + rewrite lookup_app_l in Hi by lia. rewrite list_lookup_insert_ne; [by apply H6|]. intros E. apply Z2Nat.inj in E; [|lia|apply Z.mod_pos_bound; unfold SIZE, FIFO_CIRC_QUEUE_SIZE; lia].
      rewrite H5 in E. revert E. rewrite !position_cases by (unfold SIZE in *; lia). unfold SIZE, FIFO_CIRC_QUEUE_SIZE in *. do 2 destruct (_ <? _); lia.
Qed.

Lemma holds_pop q b c : holds (c :: q) b -> load (f_buff b) (f_tail b) = Done c /\ holds q (input_buff_advance_tail b).
Proof.
  intros [H1 H2 H3 H4 H5 H6]. split.
  - destruct (load_ok (f_buff b) (f_tail b)) as (x & E & Hx); [rewrite H2; unfold SIZE, FIFO_CIRC_QUEUE_SIZE in *; lia|]. pose proof (H6 0%nat c eq_refl) as Hc. rewrite Z.add_0_r, Z.mod_small in Hc by done. rewrite Hx in Hc. congruence.
  - unfold input_buff_advance_tail. constructor; cbn [f_size f_buff f_tail f_head]; try done.
    + rewrite H1. rewrite next_position by done. apply Z.mod_pos_bound. unfold SIZE, FIFO_CIRC_QUEUE_SIZE. lia.
    + cbn [length] in H4. lia.
    + rewrite H1, H5, next_position, Zplus_mod_idemp_l by done. f_equal. cbn [length]. lia.
    + intros i x Hi. rewrite H1, next_position, Zplus_mod_idemp_l by done. rewrite <- (H6 (S i) x Hi). do 3 f_equal. lia.
Qed.

(** ** The specification: the keys of a sequence of characters *)

(** After an escape character, and inside of an escape sequence. *)
Definition escape : Type := bool * bool.

Definition key (c : Z) (x : escape) : option Z * escape :=
  let '(e, k) := x in
  if e && (c =? ASCII_CODE_OPENING_SQUARE_BRACKET) then (None, (false, true))
  else if k then
    (if c =? ASCII_CODE_A then Some ASCII_CODE_ARROW_U else if c =? ASCII_CODE_B then Some ASCII_CODE_ARROW_D
     else if c =? ASCII_CODE_C then Some ASCII_CODE_ARROW_R else if c =? ASCII_CODE_D then Some ASCII_CODE_ARROW_L else None, (e, false))
  else if c =? ASCII_CODE_ESC then (None, (true, k))
  else (Some c, x).

Fixpoint keys (l : list Z) (x : escape) : list Z :=
  match l with [] => [] | c :: l => let '(o, x) := key c x in option_list o ++ keys l x end.

(** A terminal as a bounded queue of keys. *)
Inductive tact := Typed (c : Z) | Read.

Definition spec_act (a : tact) (y : list Z * escape) : list Z * (list Z * escape) :=
  let '(q, x) := y in
  match a with
  | Typed c => ([], if Z.of_nat (length q) =? FIFO_CIRC_QUEUE_SIZE then y else let '(o, x) := key c x in (q ++ option_list o, x))
  | Read => match q with [] => ([], y) | c :: q => ([c], (q, x)) end
  end.

Fixpoint spec_run (l : list tact) (y : list Z * escape) : list Z * (list Z * escape) :=
  match l with [] => ([], y) | a :: l => let '(o, y) := spec_act a y in let '(os, y) := spec_run l y in (o ++ os, y) end.

(** The code. *)
Definition exec_act (a : tact) (t : terminal) : outcome (list Z * terminal) :=
  match a with
  | Typed c => t ← terminal_feed_buffer c t; Done ([], t)
  | Read => '(o, t) ← terminal_getchar t; Done (option_list o, t)
  end.

Fixpoint exec_run (l : list tact) (t : terminal) : outcome (list Z * terminal) :=
  match l with [] => Done ([], t) | a :: l => '(o, t) ← exec_act a t; '(os, t) ← exec_run l t; Done (o ++ os, t) end.

Definition direct_rep (y : list Z * escape) (t : terminal) : Prop :=
  feed_mode t = FEED_MODE_DIRECT /\ holds y.1 (input_buff t) /\ direct_esc_init t = y.2.1 /\ direct_ctrl_init t = y.2.2.

Lemma feeding_ok q x c t : direct_rep (q, x) t -> Z.of_nat (length q) < FIFO_CIRC_QUEUE_SIZE -> exists t', do_feeding_input_buff c t = Done t' /\ direct_rep (q ++ [c], x) t'.
Proof.
  intros (H1 & H2 & H3 & H4) Hlt. pose proof (head_range q _ H2) as Hh. unfold do_feeding_input_buff. rewrite store_ok by done. cbn [mbind outcome_bind set_fifo is_master f_buff f_head].
  pose proof (holds_push q _ c H2 Hlt) as Hp. destruct (is_master t).
  - destruct (load_ok (<[Z.to_nat (f_head (input_buff t)) := c]> (f_buff (input_buff t))) (f_head (input_buff t))) as (d & -> & _); [by rewrite length_insert|]. cbn [mbind outcome_bind]. eexists. split; [done|]. by split_and!.
  - cbn [mbind outcome_bind]. eexists. split; [done|]. by split_and!.
Qed.

Lemma feed_ok q x c t : direct_rep (q, x) t -> exists t', feed_input_buff c t = Done t' /\ direct_rep (spec_act (Typed c) (q, x)).2 t'.
Proof.
  intros Ht. pose proof Ht as (H1 & H2 & H3 & H4). unfold feed_input_buff, spec_act. cbn [snd]. rewrite (holds_full q _ H2). destruct (Z.eqb_spec (Z.of_nat (length q)) FIFO_CIRC_QUEUE_SIZE) as [E|E]; [by eexists|].
  assert (Hlt : Z.of_nat (length q) < FIFO_CIRC_QUEUE_SIZE) by (pose proof (ho_fits _ _ H2); cbn [fst] in *; lia). destruct x as [e k]. cbn [fst snd] in *. rewrite H3, H4. unfold key.
  destruct (e && (c =? ASCII_CODE_OPENING_SQUARE_BRACKET)); [eexists; split; [done|]; cbn [option_list]; rewrite app_nil_r; by split_and!|]. destruct k.
  - assert (Hfed : forall d, exists t', (t0 ← do_feeding_input_buff d t; Done (set_direct (direct_esc_init t0) false t0)) = Done t' /\ direct_rep (q ++ [d], (e, false)) t').
    { intros d. destruct (feeding_ok q (e, true) d t Ht Hlt) as (t1 & -> & G1 & G2 & G3 & G4). cbn [mbind outcome_bind]. eexists. split; [done|]. by split_and!. }
    repeat match goal with |- context [if ?b then _ else _] => destruct b; [by apply Hfed|] end. cbn [mbind outcome_bind option_list]. eexists. split; [done|]. rewrite app_nil_r. by split_and!.
  - destruct (c =? ASCII_CODE_ESC); [|by apply feeding_ok]. eexists. split; [done|]. cbn [option_list]. rewrite app_nil_r. by split_and!.
Qed.

Lemma act_ok a y t : direct_rep y t -> exists t', exec_act a t = Done ((spec_act a y).1, t') /\ direct_rep (spec_act a y).2 t'.
Proof.
  intros Ht. pose proof Ht as (H1 & H2 & H3 & H4). destruct y as [q x], a as [c|]; cbn [exec_act].
  - unfold terminal_feed_buffer. rewrite H1. destruct (feed_ok q x c t Ht) as (t' & -> & Ht'). cbn [mbind outcome_bind]. by exists t'.
  - unfold terminal_getchar, feed_mode_direct_getchar. rewrite H1, (holds_empty q _ H2). destruct q as [|c q]; cbn [bool_decide decide_rel]; [by exists t|]. rewrite bool_decide_false by done.
    destruct (holds_pop q _ c H2) as [-> Hp]. cbn [mbind outcome_bind]. eexists. split; [done|]. by split_and!.
Qed.

Lemma run_spec l : forall y t, direct_rep y t -> exists t', exec_run l t = Done ((spec_run l y).1, t') /\ direct_rep (spec_run l y).2 t'.
Proof.
  induction l as [|a l IH]; intros y t Ht; cbn [exec_run spec_run]; [by exists t|]. destruct (act_ok a y t Ht) as (t1 & -> & Ht1). cbn [mbind outcome_bind]. destruct (spec_act a y) as [o y1]. cbn [fst snd] in *.
  destruct (IH y1 t1 Ht1) as (t' & -> & Ht'). cbn [mbind outcome_bind]. destruct (spec_run l y1) as [os y2]. by exists t'.
Qed.

(** The characters that are typed; the queue never gets too long for them. *)
Definition typed (l : list tact) : list Z := omap (fun a => if a is Typed c then Some c else None) l.

Fixpoint fits (l : list tact) (y : list Z * escape) : Prop :=
  match l with [] => True | a :: l => (if a is Typed _ then Z.of_nat (length y.1) < FIFO_CIRC_QUEUE_SIZE else True) /\ fits l (spec_act a y).2 end.

Lemma spec_keys l : forall q x, fits l (q, x) -> exists x', (spec_run l (q, x)).1 ++ (spec_run l (q, x)).2.1 = q ++ keys (typed l) x /\ (spec_run l (q, x)).2.2 = x'.
Proof.
  induction l as [|a l IH]; intros q x Hf; cbn [spec_run fits typed omap list_omap keys] in *; [exists x; by rewrite app_nil_r|]. destruct Hf as [Hlt Hf]. destruct a as [c|]; cbn [spec_act fst snd] in *.
  - destruct (Z.eqb_spec (Z.of_nat (length q)) FIFO_CIRC_QUEUE_SIZE); [lia|]. cbn [keys]. destruct (key c x) as [o x1]. destruct (IH (q ++ option_list o) x1 Hf) as (x' & E & E'). fold (typed l). destruct (spec_run l _) as [os [q' x'']]. cbn [fst snd app] in *.
    exists x'. split; [|done]. by rewrite E, app_assoc.
  - fold (typed l). destruct q as [|c q]; cbn [snd] in *.
    + destruct (IH [] x Hf) as (x' & E & E'). destruct (spec_run l _) as [os [q' x'']]. cbn [fst snd app] in *. by exists x'.
    + destruct (IH q x Hf) as (x' & E & E'). destruct (spec_run l _) as [os [q' x'']]. cbn [fst snd app] in *. exists x'. split; [|done]. by rewrite E.
Qed.

(** The state after [terminal_init]. *)
Definition tinitial (t : terminal) : Prop := exists core fifo w r, length fifo = Z.to_nat SIZE /\ t = terminal_init core fifo w r.

Lemma tinitial_rep t : tinitial t -> direct_rep ([], (false, false)) t.
Proof. intros (core & fifo & w & r & Hl & ->). split_and!; [done| |done|done]. by constructor. Qed.

(** C38: in direct mode, the terminal is a queue of at most
    [FIFO_CIRC_QUEUE_SIZE] keys: for every sequence of characters that are
    typed and of reads, the code returns, without an access outside of the
    buffer, and the reads return what the queue of keys gives; as long as no
    character is typed when the queue is full, what was read and what is still
    in the queue are the keys of all characters that were typed, in order. *)
Theorem terminal_reads_keys t0 l : tinitial t0 ->
  exists t q x, exec_run l t0 = Done ((spec_run l ([], (false, false))).1, t) /\ (spec_run l ([], (false, false))).2 = (q, x) /\ holds q (input_buff t) /\
    (fits l ([], (false, false)) -> (spec_run l ([], (false, false))).1 ++ q = keys (typed l) (false, false)).
Proof.
  intros Ht%tinitial_rep. destruct (run_spec l _ _ Ht) as (t & E & _ & Hh & _). destruct (spec_run l _) as [os [q x]] eqn:Es. exists t, q, x. split_and!; [done|done|done|].
  intros Hf. destruct (spec_keys l [] (false, false) Hf) as (_ & Ek & _). unfold escape in *. by rewrite Es in Ek.
Qed.

(** * Line mode *)

(** The line [w] is being edited; [r] is what is left of a line to read. *)
Record lined (w : list Z) (r : option (list Z)) (t : terminal) : Prop := {
  ln_mode : feed_mode t = FEED_MODE_LINE;
  ln_sizes : line_capacity (line_buff t) = LINE_BUFF_LINE_SIZE /\ Z.of_nat (length (write_buff (line_buff t))) = LINE_BUFF_LINE_SIZE /\ Z.of_nat (length (read_buff (line_buff t))) = LINE_BUFF_LINE_SIZE;
  ln_pos : write_pos (line_buff t) = Z.of_nat (length w) /\ Z.of_nat (length w) <= LINE_BUFF_LINE_SIZE - 1;
  ln_write : take (length w) (write_buff (line_buff t)) = w;
  ln_zero : Forall (fun c => c <> 0) w;
  ln_read : match r with
            | None => read_pos (line_buff t) = -1
            | Some r => Forall (fun c => c <> 0) r /\ exists p, read_pos (line_buff t) = Z.of_nat p /\ take (length r + 1) (drop p (read_buff (line_buff t))) = r ++ [0]
            end;
  ln_plain : escape_sequence_initializer t = false /\ escape_sequence_finalizer t = false
}.

(** A character that stands for itself. *)
Definition plain (c : Z) : Prop := c <> 0 /\ is_endl c = false /\ c <> ASCII_CODE_DEL /\ c <> ASCII_CODE_ESC.

Lemma line_send_ok t : 0 <= write_pos (line_buff t) < Z.of_nat (length (write_buff (line_buff t))) -> exists t', line_send t = Done t' /\ forall w r, lined w r t -> lined w r t'.
Proof.
  intros Hp. unfold line_send. destruct (is_master t); [|by exists t]. destruct (load_ok _ _ Hp) as (c & -> & _). cbn [mbind outcome_bind]. eexists. split; [done|]. intros w r [H1 H2 H3 H4 H5 H6 H7]. by constructor.
Qed.

Lemma plain_ok w r t c : lined w r t -> plain c -> Z.of_nat (length w) < LINE_BUFF_LINE_SIZE - 1 -> exists t', terminal_feed_buffer c t = Done t' /\ lined (w ++ [c]) r t'.
Proof.
  intros [H1 (S1 & S2 & S3) [P1 P2] H4 H5 H6 [E1 E2]] (C1 & C2 & C3 & C4) Hlt. unfold terminal_feed_buffer. rewrite H1. unfold feed_line_buff, line_buff_is_full. rewrite S1, P1, E1, E2, C2. zdecide. cbn [andb].
  rewrite store_ok by lia. cbn [mbind outcome_bind]. rewrite store_ok by (rewrite length_insert; lia). cbn [mbind outcome_bind]. set (b := <[Z.to_nat (Z.of_nat (length w) + 1) := 0]> (<[Z.to_nat (Z.of_nat (length w)) := c]> (write_buff (line_buff t)))).
  assert (Hb : Z.of_nat (length b) = LINE_BUFF_LINE_SIZE) by (unfold b; by rewrite !length_insert). assert (Htake : take (length (w ++ [c])) b = w ++ [c]).
  { unfold b. rewrite length_app. cbn [length]. replace (Z.to_nat (Z.of_nat (length w) + 1)) with (length w + 1)%nat by lia. rewrite take_insert_ge by lia. rewrite Nat2Z.id.
    rewrite Nat.add_1_r, (take_S_r _ _ c) by (apply list_lookup_insert_eq; lia). rewrite take_insert_ge by lia. by rewrite H4. }
  match goal with |- exists t', line_send ?x = _ /\ _ => destruct (line_send_ok x) as (t' & -> & Hl) end; [cbn; rewrite Hb; unfold LINE_BUFF_LINE_SIZE in *; lia|]. exists t'. split; [done|]. apply Hl.
  constructor; cbn [terminal_write_c terminal_write set_line feed_mode line_buff line_capacity write_buff read_buff write_pos read_pos escape_sequence_initializer escape_sequence_finalizer]; try done.
  - rewrite length_app. cbn [length]. lia.
  - apply Forall_app. split; [done|]. by constructor.
Qed.

Lemma del_ok w r t : lined w r t -> Z.of_nat (length w) < LINE_BUFF_LINE_SIZE - 1 -> exists t', terminal_feed_buffer ASCII_CODE_DEL t = Done t' /\ lined (removelast w) r t'.
Proof.
  intros Ht Hlt. pose proof Ht as [H1 (S1 & S2 & S3) [P1 P2] H4 H5 H6 [E1 E2]]. unfold terminal_feed_buffer. rewrite H1. unfold feed_line_buff, line_buff_is_full. rewrite S1, P1, E1, E2. zdecide. cbn [andb]. change (is_endl ASCII_CODE_DEL) with false.
  destruct (decide (w = [])) as [->|Hne]; [by exists t|]. destruct (exists_last Hne) as (w' & x & ->). rewrite removelast_last. rewrite length_app in *. cbn [length] in *. zdecide. rewrite store_ok by lia. cbn [mbind outcome_bind].
  match goal with |- exists t', line_send ?y = _ /\ _ => destruct (line_send_ok y) as (t' & -> & Hl) end; [cbn; rewrite length_insert; unfold LINE_BUFF_LINE_SIZE in *; lia|]. exists t'. split; [done|]. apply Hl.
  constructor; cbn [terminal_write set_line feed_mode line_buff line_capacity write_buff read_buff write_pos read_pos escape_sequence_initializer escape_sequence_finalizer]; try done.
  - by rewrite length_insert.
  - lia.
  - rewrite take_insert_ge by lia. rewrite <- (take_app_length w' [x]) at 2. rewrite <- H4, take_take. f_equal. lia.
  - by apply Forall_app in H5 as [? _].
Qed.

Lemma enter_ok w t c : lined w None t -> is_endl c = true -> Z.of_nat (length w) < LINE_BUFF_LINE_SIZE - 1 -> exists t', terminal_feed_buffer c t = Done t' /\ lined [] (Some w) t'.
Proof.
  intros [H1 (S1 & S2 & S3) [P1 P2] H4 H5 H6 [E1 E2]] Hc Hlt. unfold terminal_feed_buffer. rewrite H1. unfold feed_line_buff, line_buff_is_full, line_buff_is_empty. rewrite S1, P1, E1, E2, Hc, H6. zdecide. cbn [andb negb Z.eqb Pos.eqb].
  rewrite store_ok by lia. cbn [mbind outcome_bind line_buff_switch_lines write_buff read_buff line_capacity].
  match goal with |- exists t', line_send ?y = _ /\ _ => destruct (line_send_ok y) as (t' & -> & Hl) end; [cbn; unfold LINE_BUFF_LINE_SIZE in *; lia|]. exists t'. split; [done|]. apply Hl.
  constructor; cbn [terminal_write_c terminal_write set_line feed_mode line_buff line_capacity write_buff read_buff write_pos read_pos escape_sequence_initializer escape_sequence_finalizer]; try done.
  - by rewrite length_insert.
  - split; [done|]. exists 0%nat. split; [done|]. rewrite drop_0, Nat2Z.id, Nat.add_1_r, (take_S_r _ _ 0) by (apply list_lookup_insert_eq; lia). rewrite take_insert_ge by lia. by rewrite H4.
Qed.

Lemma line_read_ok w r t : lined w (Some r) t -> exists t', exec_act Read t = Done ([default 0 (head r)], t') /\ lined w (match r with [] => None | _ :: r => Some r end) t'.
Proof.
  intros [H1 (S1 & S2 & S3) [P1 P2] H4 H5 (H6 & p & Hp & Hr) [E1 E2]]. assert (Hin : forall i c, (r ++ [0]) !! i = Some c -> read_buff (line_buff t) !! (p + i)%nat = Some c).
  { intros i c Hi. rewrite <- Hr in Hi. rewrite lookup_take_Some, lookup_drop in Hi. tauto. }
  assert (Hc : read_buff (line_buff t) !! p = Some (default 0 (head r))) by (rewrite <- (Nat.add_0_r p); apply Hin; by destruct r). pose proof (lookup_lt_Some _ _ _ Hc) as Hlen.
  cbn [exec_act]. unfold terminal_getchar, feed_mode_line_getchar, line_buff_is_empty. rewrite H1, Hp. zdecide. destruct (load_ok (read_buff (line_buff t)) (Z.of_nat p)) as (c & -> & Hc'); [lia|]. rewrite Nat2Z.id, Hc in Hc'. injection Hc' as <-. cbn [mbind outcome_bind option_list].
  eexists. split; [done|]. constructor; cbn [urpc_term set_line feed_mode line_buff line_capacity write_buff read_buff write_pos read_pos escape_sequence_initializer escape_sequence_finalizer]; try done.
  destruct r as [|c r]; cbn [head default from_option id]; [done|]. apply Forall_cons in H6 as [Hc0 H6]. zdecide. split; [done|]. exists (S p). split; [lia|]. replace (S p) with (p + 1)%nat by lia. rewrite <- drop_drop.
  cbn [length app] in Hr. replace (S (length r) + 1)%nat with (S (length r + 1)) in Hr by lia. destruct (drop p _) as [|y l]; [done|]. cbn in Hr. injection Hr as _ Hr. cbn. by rewrite drop_0.
Qed.

(** What is left of the keys of a line. *)
Definition edit (w : list Z) (c : Z) : list Z := if c =? ASCII_CODE_DEL then removelast w else w ++ [c].

Lemma length_removelast_le {X} (l : list X) : (length (removelast l) <= length l)%nat.
Proof. induction l as [|x l IH]; [done|]. cbn. destruct l; cbn in *; lia. Qed.

Lemma type_run l : forall w r t rest, lined w r t -> Forall (fun c => plain c \/ c = ASCII_CODE_DEL) l -> Z.of_nat (length w + length l) < LINE_BUFF_LINE_SIZE - 1 ->
  exists t', exec_run ((Typed <$> l) ++ rest) t = exec_run rest t' /\ lined (foldl edit w l) r t' /\ Z.of_nat (length (foldl edit w l)) < LINE_BUFF_LINE_SIZE - 1.
Proof.
  induction l as [|c l IH]; intros w r t rest Ht Hl Hlen; [exists t; split_and!; [done|done|cbn in *; lia]|]. apply Forall_cons in Hl as [Hc Hl]. cbn [fmap list_fmap app exec_run exec_act foldl length] in *.
  assert (Hstep : exists t1, terminal_feed_buffer c t = Done t1 /\ lined (edit w c) r t1 /\ (length (edit w c) <= length w + 1)%nat).
  { unfold edit. destruct Hc as [Hc| ->].
    - destruct (plain_ok w r t c Ht Hc ltac:(lia)) as (t1 & E & Ht1). destruct Hc as (_ & _ & Hd & _). destruct (Z.eqb_spec c ASCII_CODE_DEL); [done|]. exists t1. split_and!; [done|done|by rewrite length_app].
    - destruct (del_ok w r t Ht ltac:(lia)) as (t1 & E & Ht1). rewrite Z.eqb_refl. exists t1. split_and!; [done|done|]. pose proof (length_removelast_le w). lia. }
  destruct Hstep as (t1 & -> & Ht1 & Hle). cbn [mbind outcome_bind]. destruct (IH _ _ _ rest Ht1 Hl ltac:(lia)) as (t' & E & Ht' & Hlt). exists t'. split_and!; [|done|done]. rewrite E. cbn [mbind outcome_bind]. by destruct (exec_run rest t') as [[os t2]|].
Qed.

Lemma read_run r : forall w t, lined w (Some r) t -> exists t', exec_run (replicate (length r + 1) Read) t = Done (r ++ [0], t') /\ lined w None t'.
Proof.
  induction r as [|c r IH]; intros w t Ht; destruct (line_read_ok _ _ _ Ht) as (t1 & E & Ht1); cbn [length Nat.add replicate exec_run]; rewrite E; cbn [mbind outcome_bind exec_run].
  - by exists t1.
  - destruct (IH w t1 Ht1) as (t' & -> & Ht'). by exists t'.
Qed.

(** The state after the terminal was switched to lines. *)
Definition line_initial (t : terminal) : Prop := exists core fifo w r t0,
  Z.of_nat (length w) = LINE_BUFF_LINE_SIZE /\ Z.of_nat (length r) = LINE_BUFF_LINE_SIZE /\ t0 = terminal_init core fifo w r /\ set_feed_mode_line t0 = Done t.

Lemma line_initial_lined t : line_initial t -> lined [] None t.
Proof.
  intros (core & fifo & w & r & t0 & Hw & Hr & -> & E). unfold set_feed_mode_line in E. cbn [terminal_init line_buff write_buff read_buff] in E. rewrite !store_ok in E by (unfold LINE_BUFF_LINE_SIZE in *; lia). cbn [mbind outcome_bind] in E. injection E as <-.
  constructor; cbn; rewrite ?length_insert; try done.
Qed.

(** C39: in line mode, what is typed is what is read: for every line of plain
    characters and deletions that fits into the buffer, the reads after the
    end of the line return the edited line and a zero, and the terminal is
    ready for the next line. *)
Theorem terminal_line_roundtrip t0 l c : line_initial t0 -> Forall (fun c => plain c \/ c = ASCII_CODE_DEL) l -> Z.of_nat (length l) < LINE_BUFF_LINE_SIZE - 1 -> is_endl c = true ->
  exists t, exec_run ((Typed <$> l) ++ Typed c :: replicate (length (foldl edit [] l) + 1) Read) t0 = Done (foldl edit [] l ++ [0], t) /\ lined [] None t.
Proof.
  intros Ht%line_initial_lined Hl Hlen Hc. destruct (type_run l [] None t0 (Typed c :: replicate (length (foldl edit [] l) + 1) Read) Ht Hl Hlen) as (t1 & -> & Ht1 & Hlt).
  cbn [exec_run exec_act]. destruct (enter_ok _ _ c Ht1 Hc Hlt) as (t2 & -> & Ht2). cbn [mbind outcome_bind]. destruct (read_run _ _ _ Ht2) as (t & -> & Ht'). by exists t.
Qed.

(** A line that is full stays as it is, whatever is typed: it can neither be
    ended nor shortened. *)
Lemma full_line_stuck w r t c : lined w r t -> Z.of_nat (length w) = LINE_BUFF_LINE_SIZE - 1 -> terminal_feed_buffer c t = Done t.
Proof. intros [H1 (S1 & _ & _) [P1 _] _ _ _ _] E. unfold terminal_feed_buffer. rewrite H1. unfold feed_line_buff, line_buff_is_full. rewrite S1, P1. zdecide. done. Qed.

Module TermSample.

Definition tm0 : terminal := terminal_init 0 (replicate 101 0) (replicate 500 0) (replicate 500 0).
Definition tl0 : terminal := match set_feed_mode_line tm0 with Done t => t | Fault _ => tm0 end.

Lemma tm0_initial : tinitial tm0.
Proof. exists 0, (replicate 101 0), (replicate 500 0), (replicate 500 0). split; [by rewrite length_replicate|done]. Qed.

Lemma tl0_initial : line_initial tl0.
Proof. exists 0, (replicate 101 0), (replicate 500 0), (replicate 500 0), tm0. split_and!; [done|done|done|]. unfold tl0. by vm_compute. Qed.

(** The keys a, up and b; one is left. *)
Definition some_keys : list tact := [Typed 97; Typed 27; Read; Typed 91; Typed 65; Typed 98; Read].

Lemma terminal_reads_keys_witness : exists t, exec_run some_keys tm0 = Done ([97; ASCII_CODE_ARROW_U], t) /\ holds [98] (input_buff t).
Proof.
  destruct (terminal_reads_keys tm0 some_keys tm0_initial) as (t & q & x & E & Eq & Hq & _). exists t. vm_compute in Eq. injection Eq as <- _. split; [|done]. rewrite E. by vm_compute.
Defined.

(** A line with a correction. *)
Definition some_line : list Z := [108; 122; ASCII_CODE_DEL; 115].

Lemma terminal_line_roundtrip_witness : exists t, exec_run ((Typed <$> some_line) ++ Typed ASCII_CODE_CR :: replicate 3 Read) tl0 = Done ([108; 115; 0], t) /\ lined [] None t.
Proof.
  apply (terminal_line_roundtrip tl0 some_line ASCII_CODE_CR tl0_initial); [|done|done].
  constructor; [by left|]. constructor; [by left|]. constructor; [by right|]. constructor; [by left|]. constructor.
Defined.

(** ** What goes wrong *)

(** An escape character is remembered until the next bracket: the bracket that
    was typed later is lost and the letter after it is an arrow. *)
Lemma escape_remembered : keys [27; 120; 91; 65] (false, false) = [120; ASCII_CODE_ARROW_U].
Proof. vm_eq. Qed.

(** In line mode, the other core gets a zero for each character. *)
Lemma line_mode_sends_zero : match terminal_feed_buffer 97 tl0 with Done t => msgs t | Fault _ => [] end = [TermLineMode; TermChar 0].
Proof. vm_eq. Qed.

(** A line that the other core reads to its end never becomes empty here: the
    next line cannot be ended. *)
Lemma consumed_line_blocks :
  match exec_run [Typed 97; Typed 10] tl0 with
  | Done (_, t) =>
    match t ← terminal_buffer_consume_char t; t ← terminal_buffer_consume_char t; exec_run [Typed 98; Typed 10] t with
    | Done (_, t) => Some (read_pos (line_buff t), write_pos (line_buff t)) | _ => None end
  | _ => None
  end = Some (0, 1).
Proof. vm_eq. Qed.

(** Each core answers the other's change of the mode with the same message. *)
Lemma mode_change_answered : match set_feed_mode_line tm0 with Done t => msgs t | Fault _ => [] end = [TermLineMode].
Proof. vm_eq. Qed.
End TermSample.
