(* ===== verification/AosRpc.v ===== *)
(** The calls of a domain to init (lib/aos/aos_rpc.c), on top of the message
    layer: the list of calls that wait for their answer, the handler that
    gives an answer to its call, and the requests.

    A call that returns first waits, handling events, until its flag is set;
    the flags and variables of the callers have addresses.  What lies in
    memory behind the payload of a message is an argument of the handlers. *)
From S2P Require Import Prelude Rpc.

Definition RPC_MESSAGE (message_type : Z) : Z := Z.shiftl message_type 1.
Definition RPC_ACK_MESSAGE (message_type : Z) : Z := Z.shiftl message_type 1 + 1.

Definition RPC_TYPE_NUMBER : Z := 2.
Definition RPC_TYPE_STRING : Z := 3.
Definition RPC_TYPE_RUN_TESTSUITE : Z := 4.
Definition RPC_TYPE_RAM : Z := 5.
Definition RPC_TYPE_PUTCHAR : Z := 6.
Definition RPC_TYPE_GETCHAR : Z := 7.
Definition RPC_TYPE_HANDSHAKE : Z := 8.
Definition RPC_TYPE_PROCESS_SPAWN : Z := 9.
Definition RPC_TYPE_PROCESS_GET_NAME : Z := 10.
Definition RPC_TYPE_PROCESS_GET_PIDS : Z := 11.
Definition RPC_TYPE_PROCESS_KILL_ME : Z := 12.
Definition RPC_TYPE_PROCESS_REGISTER : Z := 13.
Definition RPC_TYPE_PROCESS_KILL : Z := 14.
Definition RPC_TYPE_IRQ_CAP : Z := 15.
Definition RPC_TYPE_DEV_CAP : Z := 16.
Definition RPC_TYPE_PRINT_PROC_LIST : Z := 17.
Definition RPC_TYPE_LED_TOGGLE : Z := 18.
Definition RPC_TYPE_PROCESS_AWAIT_COMPL : Z := 19.
Definition RPC_TYPE_GET_MEM_SERVER : Z := 20.
Definition RPC_TYPE_REGISTER_AS_NAMESERVER : Z := 21.
Definition RPC_TYPE_GET_NAME_SERVER : Z := 22.
Definition RPC_TYPE_DOMAIN_TO_DOMAIN_COM : Z := 23.

(** * Memory *)

(** The bytes from the payload of a message on: the payload; the rest of the
    buffer of nine words, which is zero at first, for a message that fits
    into it; and what follows. *)
Definition payload_memory (behind : list Z) (rl : recv_list) : list Z :=
  bytes_of_words (rl_payload rl) ++ (if rl_size rl <? 9 then replicate (Z.to_nat (4 * (8 - rl_size rl))) 0 else []) ++ behind.

Definition load_word (m : list Z) (i : Z) : outcome Z :=
  match words_of_bytes (take 4 (drop (Z.to_nat (4 * i)) m)) with [w] => Done w | _ => Fault OutOfBounds end.

Definition strlen (m : list Z) : outcome Z :=
  match list_find (fun b => b = 0) m with Some (i, _) => Done (Z.of_nat i) | None => Fault OutOfBounds end.

(** The string at the start of [m]. *)
Definition string_at (m : list Z) : outcome (list Z) := n ← strlen m; Done (take (Z.to_nat n) m).

(** [%d] of a number that is not negative. *)
Fixpoint digits (fuel : nat) (n : Z) : list Z :=
  match fuel with
  | O => []
  | S fuel => if n <? 10 then [48 + n] else digits fuel (n / 10) ++ [48 + n `mod` 10]
  end.
Definition decimal (n : Z) : list Z := digits 10 n.

(** * The state of a domain *)

(** The handlers of the answers with their arguments. *)
Inductive receiver :=
| serial_getchar_recv (retc : Z)
| aos_rpc_process_spawn_recv (newpid : Z)
| aos_rpc_process_kill_recv (success : Z)
| aos_rpc_process_register_recv
| aos_rpc_process_get_name_recv (ret_name : Z)
| device_cap_recv (retcap : Z) | irq_cap_recv (retcap : Z) | get_mem_server_recv_handler (retcap : Z)
| handshake_recv (rpc : Z).

(** [c_slot] is the position in [rpc_type_ram_call_buffer], or [None] for a
    call that was allocated. *)
Record rpc_call := RpcCall { c_id : Z; c_type : Z; c_done : Z; c_recv : option receiver; c_slot : option nat }.

Inductive value := VWord (w : Z) | VName (s : list Z) | VCap (c : Z).

Record domain_state := DomainState {
  rpc_call_buffer : list rpc_call;
  ram_call_buffer_in_use : list bool;
  flag : Z -> bool;
  vars : Z -> value;
  disp_core_id : Z; disp_domain_id : Z;
  remote_cap : Z -> Z;
  rpc_is_init : Z -> bool;
  p_to_p_receive_handler : bool;
  p_to_p_received : list (Z * list Z);   (** sizes and memory that were passed to it *)
  exited : bool;
  d_rpc : rpc
}.
Definition set_calls (l : list rpc_call) (d : domain_state) : domain_state :=
  DomainState l (ram_call_buffer_in_use d) (flag d) (vars d) (disp_core_id d) (disp_domain_id d) (remote_cap d) (rpc_is_init d) (p_to_p_receive_handler d) (p_to_p_received d) (exited d) (d_rpc d).
Definition set_in_use (l : list bool) (d : domain_state) : domain_state :=
  DomainState (rpc_call_buffer d) l (flag d) (vars d) (disp_core_id d) (disp_domain_id d) (remote_cap d) (rpc_is_init d) (p_to_p_receive_handler d) (p_to_p_received d) (exited d) (d_rpc d).
Definition set_flag (a : Z) (b : bool) (d : domain_state) : domain_state :=
  DomainState (rpc_call_buffer d) (ram_call_buffer_in_use d) (<[a := b]> (flag d)) (vars d) (disp_core_id d) (disp_domain_id d) (remote_cap d) (rpc_is_init d) (p_to_p_receive_handler d) (p_to_p_received d) (exited d) (d_rpc d).
Definition set_var (a : Z) (v : value) (d : domain_state) : domain_state :=
  DomainState (rpc_call_buffer d) (ram_call_buffer_in_use d) (flag d) (<[a := v]> (vars d)) (disp_core_id d) (disp_domain_id d) (remote_cap d) (rpc_is_init d) (p_to_p_receive_handler d) (p_to_p_received d) (exited d) (d_rpc d).
Definition set_disp_ids (core pid : Z) (d : domain_state) : domain_state :=
  DomainState (rpc_call_buffer d) (ram_call_buffer_in_use d) (flag d) (vars d) core pid (remote_cap d) (rpc_is_init d) (p_to_p_receive_handler d) (p_to_p_received d) (exited d) (d_rpc d).
Definition set_remote (chan cap rpc : Z) (d : domain_state) : domain_state :=
  DomainState (rpc_call_buffer d) (ram_call_buffer_in_use d) (flag d) (vars d) (disp_core_id d) (disp_domain_id d) (<[chan := cap]> (remote_cap d)) (<[rpc := true]> (rpc_is_init d)) (p_to_p_receive_handler d) (p_to_p_received d) (exited d) (d_rpc d).
Definition rpc_register_process_message_handler (d : domain_state) : domain_state :=
  DomainState (rpc_call_buffer d) (ram_call_buffer_in_use d) (flag d) (vars d) (disp_core_id d) (disp_domain_id d) (remote_cap d) (rpc_is_init d) true (p_to_p_received d) (exited d) (d_rpc d).
Definition pass_message (n : Z) (m : list Z) (d : domain_state) : domain_state :=
  DomainState (rpc_call_buffer d) (ram_call_buffer_in_use d) (flag d) (vars d) (disp_core_id d) (disp_domain_id d) (remote_cap d) (rpc_is_init d) (p_to_p_receive_handler d) (p_to_p_received d ++ [(n, m)]) (exited d) (d_rpc d).
Definition set_exited (d : domain_state) : domain_state :=
  DomainState (rpc_call_buffer d) (ram_call_buffer_in_use d) (flag d) (vars d) (disp_core_id d) (disp_domain_id d) (remote_cap d) (rpc_is_init d) (p_to_p_receive_handler d) (p_to_p_received d) true (d_rpc d).
Definition set_rpc (s : rpc) (d : domain_state) : domain_state :=
  DomainState (rpc_call_buffer d) (ram_call_buffer_in_use d) (flag d) (vars d) (disp_core_id d) (disp_domain_id d) (remote_cap d) (rpc_is_init d) (p_to_p_receive_handler d) (p_to_p_received d) (exited d) s.

(** * Waiting calls *)

(** The first free call of the static buffer. *)
Fixpoint free_slot (l : list bool) : option nat :=
  match l with
  | [] => None
  | used :: l => if (used : bool) then S <$> free_slot l else Some O
  end.

Definition register_recv (id type done : Z) (recv : option receiver) (d : domain_state) : outcome domain_state :=
  if type =? RPC_ACK_MESSAGE RPC_TYPE_RAM then
    match free_slot (ram_call_buffer_in_use d) with
    | None => Fault NullDereference
    | Some i => Done (set_calls (RpcCall id type done recv (Some i) :: rpc_call_buffer d) (set_in_use (<[i := true]> (ram_call_buffer_in_use d)) d))
    end
  else Done (set_calls (RpcCall id type done recv None :: rpc_call_buffer d) d).

(** Take the first call with the type and the identifier off the list. *)
Fixpoint take_call (type id : Z) (l : list rpc_call) : option (rpc_call * list rpc_call) :=
  match l with
  | [] => None
  | c :: l =>
    if (c_type c =? type) && (c_id c =? id) then Some (c, l)
    else '(x, l) ← take_call type id l; Some (x, c :: l)
  end.

Definition run_receiver (m : list Z) (data : recv_list) (r : receiver) (d : domain_state) : outcome domain_state :=
  match r with
  | serial_getchar_recv retc => w ← load_word m 1; Done (set_var retc (VWord (u8 w)) d)
  | aos_rpc_process_spawn_recv newpid => w ← load_word m 1; Done (set_var newpid (VWord w) d)
  | aos_rpc_process_kill_recv success => w ← load_word m 1; Done (set_var success (VWord w) d)
  | aos_rpc_process_register_recv => pid ← load_word m 1; coreid ← load_word m 2; Done (set_disp_ids (u8 coreid) pid d)
  | aos_rpc_process_get_name_recv ret_name => name ← string_at (drop 4 m); Done (set_var ret_name (VName name) d)
  | device_cap_recv retcap | irq_cap_recv retcap | get_mem_server_recv_handler retcap => Done (set_var retcap (VCap (rl_cap data)) d)
  | handshake_recv rpc => Done (set_remote (rl_chan data) (rl_cap data) rpc d)
  end.

(** The call is given back after its flag is set. *)
Definition release_call (c : rpc_call) (d : domain_state) : outcome domain_state :=
  if c_type c =? RPC_ACK_MESSAGE RPC_TYPE_RAM then
    match c_slot c with
    | Some i =>
      ASSERT default false (ram_call_buffer_in_use d !! i);
      Done (set_in_use (<[i := false]> (ram_call_buffer_in_use d)) d)
    | None => Fault AssertionFailed
    end
  else Done d.

Definition aos_rpc_recv_handler (behind : list Z) (data : recv_list) (d : domain_state) : outcome domain_state :=
  let m := payload_memory behind data in
  if Z.land (rl_type data) 1 =? 1 then
    id ← load_word m 0;
    match take_call (rl_type data) id (rpc_call_buffer d) with
    | None => Done d
    | Some (c, l) =>
      let d := set_calls l d in
      d ← match c_recv c with Some r => run_receiver m data r d | None => Done d end;
      release_call c (set_flag (c_done c) true d)
    end
  else if rl_type data =? RPC_MESSAGE RPC_TYPE_PROCESS_KILL then Done (set_exited d)
  else if rl_type data =? RPC_MESSAGE RPC_TYPE_DOMAIN_TO_DOMAIN_COM then
    Done (if p_to_p_receive_handler d then pass_message (u32 ((rl_size data - 1) * 4)) (drop 4 m) d else d)
  else Done d.

(** * Requests *)

Section Calls.
(** The channel and its local endpoint, the flag of the caller and the event
    that is handled when the message is sent. *)
Context (chan local_cap done : Z) (ev : option (Z * errval)).

(** Up to the loop that waits for the flag. *)
Definition rpc_framework (recv : option receiver) (type cap payloadsize : Z) (payload : list Z) (callback : option Z) (d : domain_state) : outcome domain_state :=
  '(id, s) ← request_fresh_id (RPC_MESSAGE type) (d_rpc d);
  d ← register_recv id (RPC_ACK_MESSAGE type) done recv (set_flag done false (set_rpc s d));
  s ← send chan cap (RPC_MESSAGE type) payloadsize payload callback id ev (d_rpc d);
  Done (set_rpc s d).

Definition aos_rpc_send_number (val free : Z) : domain_state -> outcome domain_state :=
  rpc_framework None RPC_TYPE_NUMBER NULL_CAP 1 [val] (Some free).

Definition aos_rpc_send_string (string : list Z) (d : domain_state) : outcome domain_state :=
  '(payload2, payloadsize2) ← convert_charptr_to_uintptr_with_padding_and_copy (string ++ [0]) (Z.of_nat (length string) + 1);
  rpc_framework None RPC_TYPE_STRING NULL_CAP payloadsize2 payload2 None d.

Definition aos_rpc_serial_getchar (retc : Z) : domain_state -> outcome domain_state :=
  rpc_framework (Some (serial_getchar_recv retc)) RPC_TYPE_GETCHAR NULL_CAP 0 [] None.

Definition aos_rpc_serial_putchar (c : Z) : domain_state -> outcome domain_state :=
  rpc_framework None RPC_TYPE_PUTCHAR NULL_CAP 1 [c] None.

Definition aos_rpc_kill_me : domain_state -> outcome domain_state :=
  rpc_framework None RPC_TYPE_PROCESS_KILL_ME local_cap 0 [] None.

(** Name, underscore and core. *)
Definition spawn_name (name : list Z) (core : Z) : list Z := name ++ [95] ++ decimal core.

Definition aos_rpc_process_spawn (name : list Z) (core newpid : Z) (d : domain_state) : outcome domain_state :=
  let new_name := spawn_name name core in
  '(payload2, payloadsize2) ← convert_charptr_to_uintptr_with_padding_and_copy new_name (Z.of_nat (length new_name));
  rpc_framework (Some (aos_rpc_process_spawn_recv newpid)) RPC_TYPE_PROCESS_SPAWN NULL_CAP payloadsize2 payload2 None d.

Definition aos_rpc_process_kill (pid success : Z) : domain_state -> outcome domain_state :=
  rpc_framework (Some (aos_rpc_process_kill_recv success)) RPC_TYPE_PROCESS_KILL NULL_CAP 1 [pid] None.

(** [done] is set when the message was sent. *)
Definition aos_rpc_send_message_to_process (pid core : Z) (payload : list Z) (d : domain_state) : outcome domain_state :=
  let payload_size := Z.of_nat (length payload) in
  let bytes := payload_size + trailing payload_size + 8 in
  let message := pid :: core :: words_of_bytes (payload ++ replicate (Z.to_nat (trailing payload_size)) 0) in
  '(id, s) ← request_fresh_id (RPC_MESSAGE RPC_TYPE_DOMAIN_TO_DOMAIN_COM) (d_rpc d);
  s ← send chan NULL_CAP (RPC_MESSAGE RPC_TYPE_DOMAIN_TO_DOMAIN_COM) (bytes / 4) message (Some done) id ev s;
  Done (set_rpc s d).

Definition aos_rpc_process_register (name : list Z) (d : domain_state) : outcome domain_state :=
  '(payload2, payloadsize2) ← convert_charptr_to_uintptr_with_padding_and_copy name (Z.of_nat (length name));
  rpc_framework (Some aos_rpc_process_register_recv) RPC_TYPE_PROCESS_REGISTER local_cap payloadsize2 payload2 None d.

Definition aos_rpc_process_get_name (pid name : Z) : domain_state -> outcome domain_state :=
  rpc_framework (Some (aos_rpc_process_get_name_recv name)) RPC_TYPE_PROCESS_GET_NAME NULL_CAP 1 [pid] None.

Definition aos_rpc_process_await_completion (pid : Z) : domain_state -> outcome domain_state :=
  rpc_framework None RPC_TYPE_PROCESS_AWAIT_COMPL NULL_CAP 1 [pid] None.

Definition aos_rpc_print_process_list : domain_state -> outcome domain_state :=
  rpc_framework None RPC_TYPE_PRINT_PROC_LIST NULL_CAP 0 [] None.

Definition aos_rpc_run_testsuite : domain_state -> outcome domain_state :=
  rpc_framework None RPC_TYPE_RUN_TESTSUITE NULL_CAP 0 [] None.

Definition aos_rpc_led_toggle : domain_state -> outcome domain_state :=
  rpc_framework None RPC_TYPE_LED_TOGGLE NULL_CAP 0 [] None.

Definition aos_rpc_get_device_cap (paddr bytes retcap : Z) : domain_state -> outcome domain_state :=
  rpc_framework (Some (device_cap_recv retcap)) RPC_TYPE_DEV_CAP NULL_CAP 2 [paddr; bytes] None.

Definition aos_rpc_get_irq_cap (retcap : Z) : domain_state -> outcome domain_state :=
  rpc_framework (Some (irq_cap_recv retcap)) RPC_TYPE_IRQ_CAP NULL_CAP 0 [] None.

(** For a domain of the initial set; the others ask the nameserver. *)
Definition aos_rpc_get_mem_server (retcap : Z) : domain_state -> outcome domain_state :=
  rpc_framework (Some (get_mem_server_recv_handler retcap)) RPC_TYPE_GET_MEM_SERVER NULL_CAP 0 [] None.

Definition aos_rpc_register_as_nameserver (newchancap : Z) : domain_state -> outcome domain_state :=
  rpc_framework None RPC_TYPE_REGISTER_AS_NAMESERVER newchancap 0 [] None.

Definition aos_rpc_get_nameserver (retcap : Z) : domain_state -> outcome domain_state :=
  rpc_framework (Some (get_mem_server_recv_handler retcap)) RPC_TYPE_GET_NAME_SERVER NULL_CAP 0 [] None.

(** The handshake, after the channel was opened. *)
Definition aos_rpc_handshake (rpc : Z) : domain_state -> outcome domain_state :=
  rpc_framework (Some (handshake_recv rpc)) RPC_TYPE_HANDSHAKE local_cap 0 [] None.
End Calls.

(** The request for memory does not use the queue: the words that are sent,
    and what is taken from the answer, the capability and the size. *)
Definition ram_request (size align : Z) : list Z := [u32 (Z.shiftl (RPC_MESSAGE RPC_TYPE_RAM) 24 + 2); size; align].
Definition ram_answer (m : lmp_msg) : outcome (Z * Z) :=
  let r := lmp_chan_recv (replicate 9 0) m in Done (lmp_cap m, word r 2).
