(* ===== verification/AosRpcCorrect.v ===== *)
(** Correctness of AosRpc.v: what a call of a domain sends, how the memory of
    a message reads, and that an answer completes the call that waits for
    it. *)
From S2P Require Import Prelude Rpc RpcCorrect AosRpc.

(** * Memory of messages *)

Definition word32 (w : Z) : Prop := 0 <= w < 2 ^ 32.
Definition byte8 (b : Z) : Prop := 0 <= b < 256.

Lemma bytes_of_word_roundtrip w : word32 w -> words_of_bytes (bytes_of_word w) = [w].
Proof.
  intros Hw. unfold word32 in Hw. cbn. f_equal. pose proof (Z.div_mod w 256). pose proof (Z.div_mod (w / 256) 256). pose proof (Z.div_mod (w / 65536) 256). assert (w / 65536 = w / 256 / 256) by (by rewrite Z.div_div). assert (w / 16777216 = w / 65536 / 256) by (by rewrite Z.div_div).
  assert ((w / 16777216) `mod` 256 = w / 16777216) by (apply Z.mod_small; split; [apply Z.div_pos; lia|apply Z.div_lt_upper_bound; lia]). lia.
Qed.

Lemma length_bytes_of_words l : length (bytes_of_words l) = (4 * length l)%nat.
Proof. induction l as [|w l IH]; [done|]. unfold bytes_of_words in *. rewrite bind_cons, length_app, IH. cbn. lia. Qed.

Lemma load_word_at l rest i w : l !! i = Some w -> word32 w -> load_word (bytes_of_words l ++ rest) (Z.of_nat i) = Done w.
Proof.
  intros Hi Hw. apply list_elem_of_split_length in Hi as (l1 & l2 & -> & ->). unfold load_word.
  replace (Z.to_nat (4 * Z.of_nat (length l1))) with (length (bytes_of_words l1)) by (rewrite length_bytes_of_words; lia).
  unfold bytes_of_words at 2. rewrite bind_app, bind_cons, <- !app_assoc. fold (bytes_of_words l1). rewrite drop_app_length.
  rewrite take_app_le, take_ge by done. by rewrite bytes_of_word_roundtrip.
Qed.

Lemma string_at_zero l rest : Forall (fun b => b <> 0) l -> string_at (l ++ 0 :: rest) = Done l.
Proof.
  intros Hl. unfold string_at, strlen. assert (list_find (fun b => b = 0) (l ++ 0 :: rest) = Some (length l, 0)) as ->.
  { apply list_find_Some. split; [by rewrite list_lookup_middle|]. split; [done|]. intros j y Hj Hlt. rewrite lookup_app_l in Hj by done. rewrite Forall_forall in Hl. apply Hl. by eapply list_elem_of_lookup_2. }
  cbn. by rewrite Nat2Z.id, take_app_length.
Qed.

Lemma strlen_zero l rest : Forall (fun b => b <> 0) l -> strlen (l ++ 0 :: rest) = Done (Z.of_nat (length l)).
Proof.
  intros Hl. unfold strlen. assert (list_find (fun b => b = 0) (l ++ 0 :: rest) = Some (length l, 0)) as ->; [|done].
  apply list_find_Some. split; [by rewrite list_lookup_middle|]. split; [done|]. intros j y Hj Hlt. rewrite lookup_app_l in Hj by done. rewrite Forall_forall in Hl. apply Hl. by eapply list_elem_of_lookup_2.
Qed.

(** The characters of a string that is sent. *)
Definition chars (l : list Z) : Prop := Forall (fun b => 0 < b < 256) l.

Lemma chars_nonzero l : chars l -> Forall (fun b => b <> 0) l.
Proof. intros H. eapply Forall_impl; [exact H|]. cbn. lia. Qed.
Lemma chars_bytes l : chars l -> Forall (fun x => 0 <= x < 256) l.
Proof. intros H. eapply Forall_impl; [exact H|]. cbn. lia. Qed.

Lemma replicate_head n (x : Z) : (0 < n)%nat -> replicate n x = x :: replicate (n - 1) x.
Proof. destruct n; [lia|]. intros _. cbn. by rewrite Nat.sub_0_r. Qed.

(** A string that was sent without its zero is followed by one in memory, if
    it does not fill its last word, or the buffer is larger than the
    message. *)
Lemma string_terminated ws l k behind : bytes_of_words ws = l ++ replicate (Z.to_nat (trailing (Z.of_nat (length l)))) 0 ->
  Z.of_nat (length l) `mod` 4 <> 0 \/ k < 8 ->
  exists rest, bytes_of_words ws ++ (if k <? 9 then replicate (Z.to_nat (4 * (8 - k))) 0 else []) ++ behind = l ++ 0 :: rest.
Proof.
  intros -> H. destruct (trailing_spec (Z.of_nat (length l))) as [Ht Hm]; [lia|].
  destruct (Z.eq_dec (trailing (Z.of_nat (length l))) 0) as [E|E].
  - rewrite E in *. destruct H as [H|H]; [rewrite Z.add_0_r in Hm; lia|]. zdecide. rewrite (replicate_head (Z.to_nat (4 * (8 - k)))) by lia. cbn. rewrite app_nil_r. by eexists.
  - rewrite (replicate_head (Z.to_nat (trailing _))) by lia. rewrite <- app_assoc. cbn. by eexists.
Qed.

(** * Identifiers and sending *)

(** An identifier of the type is free. *)
Definition id_free (t : Z) (s : rpc) : Prop := (u8 (rpc_type_max_id s t) + 1) `mod` 256 <> u8 (rpc_type_min_id s t).

Lemma fresh_id t s : id_free t s -> rpc_inv s -> exists id s', request_fresh_id t s = Done (id, s') /\ byte8 id /\ rpc_inv s' /\ forall ch, traffic ch s' = traffic ch s.
Proof.
  intros Hf Hi. unfold request_fresh_id. destruct (Z.eqb_spec ((u8 (rpc_type_max_id s t) + 1) `mod` 256) (u8 (rpc_type_min_id s t))); [done|].
  eexists _, _. split; [done|]. split; [apply u8_range|]. by split.
Qed.

(** A call sends its request, and waits at the head of the list. *)
Lemma framework_run chan done ev recv type cap ws callback d : chan <> 0 -> event_ok ev -> 0 <= type < 128 -> type <> RPC_TYPE_RAM -> Z.of_nat (length ws) < 65536 ->
  rpc_inv (d_rpc d) -> id_free (RPC_MESSAGE type) (d_rpc d) ->
  exists id r, rpc_framework chan done ev recv type cap (Z.of_nat (length ws)) ws callback d =
      Done (set_rpc r (set_calls (RpcCall id (RPC_ACK_MESSAGE type) done recv None :: rpc_call_buffer d) (set_flag done false d))) /\ byte8 id /\
    rpc_inv r /\ forall ch, traffic ch r = traffic ch (d_rpc d) ++ (if decide (ch = chan) then fragments (Message (RPC_MESSAGE type) id cap ws callback) else []).
Proof.
  intros Hc Hev Ht Hr Hl Hi Hf. unfold rpc_framework. destruct (fresh_id _ _ Hf Hi) as (id & s1 & -> & Hid & Hi1 & Htr). cbn [mbind outcome_bind].
  unfold register_recv, RPC_ACK_MESSAGE, RPC_TYPE_RAM in *. rewrite !Z.shiftl_mul_pow2 by lia. zdecide. cbn [mbind outcome_bind set_calls set_flag set_rpc d_rpc].
  destruct (send_spec chan (Message (RPC_MESSAGE type) id cap ws callback) ev s1) as (r & E & Hi2 & Htr2); try done.
  { unfold message_ok, m_size, RPC_MESSAGE. cbn. rewrite Z.shiftl_mul_pow2 by lia. unfold byte8 in Hid. lia. }
  unfold send_message, m_size in E. cbn [m_cap m_type m_payload m_callback m_id] in E. rewrite E. cbn [mbind outcome_bind]. eexists id, r. split; [done|]. split; [done|]. split; [done|].
  intros ch. by rewrite Htr2, Htr.
Qed.

(** * Answers *)

Definition is_key (type id : Z) (c : rpc_call) : Prop := c_type c = type /\ c_id c = id.

Lemma take_call_at type id l1 c l2 : Forall (fun x => ~ is_key type id x) l1 -> is_key type id c -> take_call type id (l1 ++ c :: l2) = Some (c, l1 ++ l2).
Proof.
  intros Hl [Ht Hi]. induction Hl as [|x l1 Hx Hl IH]; cbn [take_call app].
  - rewrite Ht, Hi, !Z.eqb_refl. done.
  - destruct ((c_type x =? type) && (c_id x =? id)) eqn:E; [|by rewrite IH].
    apply andb_true_iff in E as [E1%Z.eqb_eq E2%Z.eqb_eq]. by destruct Hx.
Qed.

(** The memory that the handler of an answer sees. *)
Definition answer_memory (behind : list Z) (id cap : Z) (ws : list Z) : list Z := payload_memory behind (RecvList 0 0 cap 0 (Z.of_nat (S (length ws))) 0 (id :: ws)).

Lemma answer_run behind chan type id id2 cap ws callback recv done l1 l2 d : 0 <= type < 128 -> type <> RPC_TYPE_RAM -> byte8 id ->
  rpc_call_buffer d = l1 ++ RpcCall id (RPC_ACK_MESSAGE type) done recv None :: l2 -> Forall (fun x => ~ is_key (RPC_ACK_MESSAGE type) id x) l1 ->
  aos_rpc_recv_handler behind (received chan (Message (RPC_ACK_MESSAGE type) id2 cap (id :: ws) callback)) d =
    (d ← match recv with Some r => run_receiver (answer_memory behind id cap ws) (received chan (Message (RPC_ACK_MESSAGE type) id2 cap (id :: ws) callback)) r (set_calls (l1 ++ l2) d) | None => Done (set_calls (l1 ++ l2) d) end;
     Done (set_flag done true d)).
Proof.
  intros Ht Hr Hid Hb Hl. unfold aos_rpc_recv_handler, received, m_size. cbn [rl_type m_type m_id m_cap m_payload].
  assert (Z.land (RPC_ACK_MESSAGE type) 1 = 1) as ->. { unfold RPC_ACK_MESSAGE. rewrite Z.shiftl_mul_pow2 by lia. change 1 with (Z.ones 1) at 3. rewrite Z.land_ones by lia. change (2 ^ 1) with 2. rewrite Z.add_comm, Z.mod_add by lia. done. }
  cbn [Z.eqb Pos.eqb].
  assert (payload_memory behind (RecvList (RPC_ACK_MESSAGE type) id2 cap (Z.of_nat (length (id :: ws))) (Z.of_nat (length (id :: ws))) chan (id :: ws)) = answer_memory behind id cap ws) as -> by done.
  assert (load_word (answer_memory behind id cap ws) 0 = Done id) as ->. { unfold answer_memory, payload_memory. cbn [rl_payload]. apply (load_word_at (id :: ws) _ 0); [done|]. unfold word32, byte8 in *. lia. }
  cbn [mbind outcome_bind]. rewrite Hb, take_call_at by done. cbn [c_recv c_done].
  assert (forall x, release_call (RpcCall id (RPC_ACK_MESSAGE type) done recv None) x = Done x) as Hrel.
  { intros x. unfold release_call, RPC_ACK_MESSAGE, RPC_TYPE_RAM in *. cbn [c_type]. rewrite !Z.shiftl_mul_pow2 by lia. zdecide. done. }
  destruct recv as [r|]; cbn [mbind outcome_bind]; [|by rewrite Hrel]. destruct (run_receiver _ _ _ _); cbn; [apply Hrel|done].
Qed.
