(* ===== verification/InitRpc.v ===== *)
(** The requests that init serves (usr/init/lib_rpc.c), on top of the process
    manager, the terminal, the message layer and the channel to the other
    core.

    A request is what is read of a message: its memory are the bytes from the
    payload on.  The services below init (memory, capabilities, loading of
    programs, the answers of the other core) are the class [InitSys].  A
    handler returns whether it finished; otherwise it waits, and runs again
    after other events. *)
From Stdlib Require Import String Ascii.
From S2P Require Import Prelude Ring Chain Procman Terminal Urpc Rpc AosRpc.

Record request := Request { q_type : Z; q_id : Z; q_cap : Z; q_size : Z; q_chan : Z; q_mem : list Z }.

(** A message of a domain, and one of the other core, which has no channel;
    [behind] is the memory behind the payload, [cap] what the field holds. *)
Definition lmp_request (behind : list Z) (rl : Rpc.recv_list) : request :=
  Request (Rpc.rl_type rl) (Rpc.rl_id rl) (rl_cap rl) (Rpc.rl_size rl) (rl_chan rl) (payload_memory behind rl).
Definition urpc_request (cap : Z) (rl : Urpc.recv_list) : request :=
  Request (Urpc.rl_type rl) (Urpc.rl_id rl) cap (Urpc.rl_size rl) 0 (Urpc.rl_payload rl).

(** The identification of a domain is the listener and the offset of its
    endpoint. *)
Record domain := Domain { identification : Z * Z; dom_chan : Z; dom_local_cap : Z; dom_id : Z; dom_name : list Z }.

Class InitSys := {
  isys : Type;
  (** [aos_ram_alloc_aligned], [slot_alloc], [cap_copy], the base of
      [frame_identify] and [cap_retype] of the device capability *)
  sys_ram_alloc : Z -> Z -> isys -> isys * errval * Z;
  sys_slot_alloc : isys -> isys * errval * Z;
  sys_cap_copy_irq : Z -> isys -> isys * errval;
  sys_device_base : isys -> errval * Z;
  sys_retype_device : Z -> Z -> Z -> isys -> isys * errval;
  (** [spawn_load_by_name], with the address of the spawn information *)
  sys_spawn : list Z -> isys -> isys * errval * Z;
  (** [debug_cap_identify] of an endpoint *)
  sys_identify : Z -> isys -> errval * (Z * Z);
  (** [lmp_chan_accept] and the registration of the receive handler: the
      channel and its local endpoint *)
  sys_accept : Z -> isys -> isys * errval * (Z * Z);
  (** [malloc] of an entry of the process table *)
  sys_malloc : isys -> isys * Z;
  (** A call of the other core: its answer, if there is one *)
  sys_other_core : urpc2_data -> isys -> isys * option urpc2_data;
  (** [urpc_register_process] *)
  sys_register_process : list Z -> isys -> isys * Z;
  (** The message of [procman_kill_process] to the process *)
  sys_send_kill : isys -> errval;
  sys_led_toggle : isys -> outcome isys;
  sys_run_testsuite : isys -> isys;
  (** [register_service] with name and type *)
  sys_register_service : list Z -> list Z -> isys -> isys
}.

Section InitRpc.
Context `{InitSys}.

Record init_state := InitState {
  i_procs : procs;
  i_term : terminal;
  active_domains : list domain;
  nameserver_cap : Z; nameserver_cap_set : bool;
  i_rpc : rpc;
  i_urpc : list urpc2_data;      (** queued for the other core *)
  i_sys : isys
}.
Definition with_procs (p : procs) (s : init_state) : init_state := InitState p (i_term s) (active_domains s) (nameserver_cap s) (nameserver_cap_set s) (i_rpc s) (i_urpc s) (i_sys s).
Definition with_term (t : terminal) (s : init_state) : init_state := InitState (i_procs s) t (active_domains s) (nameserver_cap s) (nameserver_cap_set s) (i_rpc s) (i_urpc s) (i_sys s).
Definition with_domains (l : list domain) (s : init_state) : init_state := InitState (i_procs s) (i_term s) l (nameserver_cap s) (nameserver_cap_set s) (i_rpc s) (i_urpc s) (i_sys s).
Definition with_nameserver (c : Z) (s : init_state) : init_state := InitState (i_procs s) (i_term s) (active_domains s) c true (i_rpc s) (i_urpc s) (i_sys s).
Definition with_rpc (r : rpc) (s : init_state) : init_state := InitState (i_procs s) (i_term s) (active_domains s) (nameserver_cap s) (nameserver_cap_set s) r (i_urpc s) (i_sys s).
Definition with_urpc (d : urpc2_data) (s : init_state) : init_state := InitState (i_procs s) (i_term s) (active_domains s) (nameserver_cap s) (nameserver_cap_set s) (i_rpc s) (i_urpc s ++ [d]) (i_sys s).
Definition with_sys (x : isys) (s : init_state) : init_state := InitState (i_procs s) (i_term s) (active_domains s) (nameserver_cap s) (nameserver_cap_set s) (i_rpc s) (i_urpc s) x.

(** The fuel of the process table, the core, the address of the clean-up
    record of an answer, the event that is handled when it is sent, what the
    heap and the stack hold behind the blocks that are read and in a field
    that is not set, and the local endpoint of [init_chan]. *)
Context (fuel : nat) (core scs : Z) (ev : option (Z * errval)) (heap : list Z) (stack : Z) (init_cap : Z).

(** * Answers *)

Definition send_response_to (q : request) (chan cap payloadsize : Z) (payload : list Z) (s : init_state) : outcome init_state :=
  if chan =? 0 then Fault NullDereference else
  r ← send_response (RecvList (q_type q) (q_id q) (q_cap q) (q_size q) (q_size q) chan []) chan cap payloadsize payload scs ev (i_rpc s);
  Done (with_rpc r s).

(** The number of bytes, and the memory of the answer. *)
Definition urpc_response (q : request) (payloadsize : Z) (payload : list Z) (s : init_state) : outcome init_state :=
  d ← urpc2_send_response (Urpc.RecvList (q_type q) (q_id q) (q_size q) []) payloadsize payload;
  Done (with_urpc d s).

(** To the core or to the domain that asked. *)
Definition acknowledge (q : request) (s : init_state) : outcome init_state :=
  if q_chan q =? 0 then urpc_response q 0 [] s else send_response_to q (q_chan q) NULL_CAP 0 [] s.

(** [urpc2_rpc_over_urpc]: the payload of the answer, or [None] if there is
    none.  A request of the other core is handled by the thread that would
    receive the answer, which then waits for ever; the handlers below return
    [false]. *)
Definition urpc2_rpc_over_urpc (q : request) (size : Z) (mem : list Z) (s : init_state) : outcome (option (list Z) * init_state) :=
  t ← urpc2_rpc_send_helper1 (q_type q) (q_id q) (u32 (size * 4)) mem;
  d ← urpc2_rpc_send_helper2 t;
  let '(x, a) := sys_other_core d (i_sys s) in
  match a with
  | None => Done (None, with_sys x s)
  | Some a => rl ← recv_rpc_over_urpc a; Done (Some (Urpc.rl_payload rl), with_sys x s)
  end.

(** * Domains *)

Fixpoint domain_at (key : Z * Z) (l : list domain) : option nat :=
  match l with
  | [] => None
  | d :: l => if decide (identification d = key) then Some O else S <$> domain_at key l
  end.

Definition find_domain (cap : Z) (s : init_state) : outcome (option nat) :=
  let '(e, key) := sys_identify cap (i_sys s) in
  _ ← CHECK e;
  Done (domain_at key (active_domains s)).

(** * Handlers *)

Definition round_up_page (size : Z) : Z := if size `mod` 4096 =? 0 then size else u32 (size + (4096 - size `mod` 4096)).

Definition ram_recv_handler (q : request) (s : init_state) : outcome init_state :=
  ASSERT q_size q =? 2;
  size ← load_word (q_mem q) 0;
  align ← load_word (q_mem q) 1;
  let '(x, e, ram_cap) := sys_ram_alloc size align (i_sys s) in
  _ ← CHECK e;
  if q_chan q =? 0 then Fault Panicked else
  send_response_to q (q_chan q) ram_cap 1 [round_up_page size] (with_sys x s).

(** The last position before [i] that holds an underscore, or -1. *)
Fixpoint last_underscore (mem : list Z) (i : nat) : Z :=
  match i with
  | O => -1
  | S i => if bool_decide (mem !! i = Some 95) then Z.of_nat i else last_underscore mem i
  end.

Definition is_space (c : Z) : bool := ((9 <=? c) && (c <=? 13)) || (c =? 32).
Definition is_digit (c : Z) : bool := (48 <=? c) && (c <=? 57).
Fixpoint skip_space (l : list Z) : list Z := match l with c :: l' => if is_space c then skip_space l' else l | [] => [] end.
Fixpoint digits_value (acc : Z) (l : list Z) : Z :=
  match l with c :: l' => if is_digit c then digits_value (10 * acc + (c - 48)) l' else acc | [] => acc end.
Definition clamp (x : Z) : Z := Z.max (- 2 ^ 31) (Z.min (2 ^ 31 - 1) x).
Definition atoi (l : list Z) : Z :=
  match skip_space l with
  | 45 :: l' => clamp (- digits_value 0 l')
  | 43 :: l' => clamp (digits_value 0 l')
  | l' => clamp (digits_value 0 l')
  end.

(** The part of a name before the first blank. *)
Definition bin_name (name : list Z) : list Z := take (default (length name) (fst <$> list_find (fun c => c = 32) name)) name.

Definition register_process (name : list Z) (core_id si : Z) (s : init_state) : outcome (Z * init_state) :=
  let '(x, urpc_pid) := if negb (core =? 0) then sys_register_process name (i_sys s) else (i_sys s, 0) in
  let '(x, a) := sys_malloc x in
  '(pid, p) ← procman_register_process fuel core a urpc_pid name core_id si (i_procs s);
  Done (pid, with_procs p (with_sys x s)).

(** The request for the other core: the name and, behind it, the identifier
    that core 0 gave. *)
Definition spawn_on_other_core (q : request) (bin : list Z) (core_id : Z) (s : init_state) : outcome (bool * init_state) :=
  '(pid, s) ← (if core =? 0 then register_process bin core_id 0 s else Done (0, s));
  length ← strlen (q_mem q);
  let bytesize := u32 (length * 4 + 4) in
  b ← read (q_mem q) 0 (bytesize - 4);
  newpayload ← write bytesize (b ++ take 4 heap) (length + 1) (le_split 4 pid);
  if q_chan q =? 0 then Done (false, s) else
  '(a, s) ← urpc2_rpc_over_urpc q bytesize (newpayload ++ drop 4 heap) s;
  match a with
  | None => Done (false, s)
  | Some payload => w ← load_word payload 0; s ← send_response_to q (q_chan q) NULL_CAP 1 [w] s; Done (true, s)
  end.

Definition spawn_recv_handler (q : request) (s : init_state) : outcome (bool * init_state) :=
  length ← strlen (q_mem q);
  let last_occurence := last_underscore (q_mem q) (Z.to_nat length) in
  let core_id := u8 (atoi (take (Z.to_nat (length - (last_occurence + 1))) (drop (Z.to_nat (last_occurence + 1)) (q_mem q)))) in
  recv_name ← store (q_mem q) last_occurence 0;
  name ← string_at recv_name;
  let bin := bin_name name in
  if negb (core =? core_id) then spawn_on_other_core q bin core_id s else
  let '(x, e, si) := sys_spawn name (i_sys s) in
  let s := with_sys x s in
  '(pid, s) ← (if bool_decide (e = err SPAWN_ERR_FIND_MODULE) then Done (2 ^ 32 - 1, s)
               else if (q_chan q =? 0) && negb (core =? 0) then
                 pid ← read recv_name (Z.of_nat (List.length name) + 3) 4;
                 let '(x, a) := sys_malloc (i_sys s) in
                 p ← procman_foreign_preregister fuel a (le_combine pid) bin core_id si (i_procs s);
                 Done (le_combine pid, with_procs p (with_sys x s))
               else register_process bin core_id si s);
  s ← (if q_chan q =? 0 then urpc_response q 1 (le_split 4 pid) s else send_response_to q (q_chan q) NULL_CAP 1 [pid] s);
  Done (true, s).

Definition process_get_name_recv_handler (q : request) (s : init_state) : outcome init_state :=
  id ← load_word (q_mem q) 0;
  n ← procman_lookup_name_by_id fuel id (i_procs s);
  match n with
  | None => Fault NullDereference
  | Some name =>
    '(payload2, payloadsize2) ← convert_charptr_to_uintptr_with_padding_and_copy name (Z.of_nat (List.length name));
    if q_chan q =? 0 then urpc_response q (payloadsize2 * 4) (bytes_of_words payload2) s
    else send_response_to q (q_chan q) NULL_CAP payloadsize2 payload2 s
  end.

Definition process_await_completion_recv_handler (q : request) (s : init_state) : outcome (bool * init_state) :=
  pid ← load_word (q_mem q) 0;
  n ← procman_lookup_name_by_id fuel pid (i_procs s);
  match n with
  | Some _ => Done (false, s)
  | None => s ← acknowledge q s; Done (true, s)
  end.

(** The word that is sent starts with the character. *)
Definition getchar_recv_handler (q : request) (s : init_state) : outcome (bool * init_state) :=
  '(c, t) ← terminal_getchar (i_term s);
  match c with
  | None => Done (false, with_term t s)
  | Some c => s ← send_response_to q (q_chan q) NULL_CAP 1 [u32 (c + 256 * stack)] (with_term t s); Done (true, s)
  end.

Definition irq_cap_recv_handler (q : request) (s : init_state) : outcome init_state :=
  let '(x, e, irq_cap) := sys_slot_alloc (i_sys s) in
  _ ← CHECK e;
  let '(x, e) := sys_cap_copy_irq irq_cap x in
  _ ← CHECK e;
  send_response_to q (q_chan q) irq_cap 0 [] (with_sys x s).

Definition dev_cap_recv_handler (q : request) (s : init_state) : outcome init_state :=
  paddr ← load_word (q_mem q) 0;
  bytes ← load_word (q_mem q) 1;
  let '(x, e, dev_cap) := sys_slot_alloc (i_sys s) in
  _ ← CHECK e;
  let '(e, base) := sys_device_base x in
  _ ← CHECK e;
  let '(x, e) := sys_retype_device dev_cap (u64 (paddr - base)) bytes x in
  _ ← CHECK e;
  send_response_to q (q_chan q) dev_cap 0 [] (with_sys x s).

Definition process_register_recv_handler (q : request) (s : init_state) : outcome init_state :=
  proc_name ← string_at (q_mem q);
  if u32 (4 * q_size q) <=? Z.of_nat (List.length proc_name) then Fault OutOfBounds else
  pi ← waiting_loop fuel proc_name (pt_head (i_procs s)) (i_procs s);
  let '(x, urpc_pid) := if (pi =? 0) && negb (core =? 0) then sys_register_process proc_name (i_sys s) else (i_sys s, 0) in
  let '(x, a) := if pi =? 0 then sys_malloc x else (x, 0) in
  '(proc_id, p) ← procman_finish_process_register fuel core 2 a urpc_pid proc_name (q_chan q) (i_procs s);
  let s := with_procs p (with_sys x s) in
  d ← find_domain (q_cap q) s;
  match d with
  | None => Fault AssertionFailed
  | Some i =>
    let s := with_domains (alter (fun d => Domain (identification d) (dom_chan d) (dom_local_cap d) proc_id proc_name) i (active_domains s)) s in
    if q_chan q =? 0 then urpc_response q 8 (le_split 4 proc_id ++ le_split 4 core) s
    else send_response_to q (q_chan q) NULL_CAP 2 [proc_id; core] s
  end.

Definition str (s : string) : list Z := (fun a => Z.of_nat (nat_of_ascii a)) <$> list_ascii_of_string s.

Definition register_things_with_nameserver (s : init_state) : init_state :=
  with_sys (sys_register_service (str "proxyserv") (str "Proxy")
           (sys_register_service (str "serialman") (str "Serial Console")
           (sys_register_service (str "procman") (str "Processes")
           (sys_register_service (str "memserv") (str "Memory") (i_sys s))))) s.

Definition process_kill_handler (q : request) (s : init_state) : outcome (bool * init_state) :=
  pid ← load_word (q_mem q) 0;
  '(e, p) ← procman_kill_process fuel core (sys_send_kill (i_sys s)) pid (i_procs s);
  let s := with_procs p s in
  let answer := fun success s =>
    s ← (if q_chan q =? 0 then urpc_response q 1 (le_split 4 success) s else send_response_to q (q_chan q) NULL_CAP 1 [success] s); Done (true, s) in
  if bool_decide (e = err PROCMAN_ERR_PROCESS_ON_OTHER_CORE) then
    if q_chan q =? 0 then Done (false, s) else
    '(a, s) ← urpc2_rpc_over_urpc q (q_size q) (q_mem q) s;
    match a with
    | None => Done (false, s)
    | Some payload => success ← load_word payload 0; answer success s
    end
  else answer (if err_is_ok e then 1 else 0) s.

Definition process_kill_me_handler (q : request) (s : init_state) : outcome (bool * init_state) :=
  ASSERT negb (q_chan q =? 0) || (core =? 0);
  if q_chan q =? 0 then
    pid ← load_word (q_mem q) 0;
    '(_, p) ← procman_deregister fuel pid (i_procs s);
    s ← urpc_response q 0 [] (with_procs p s); Done (true, s)
  else
    d ← find_domain (q_cap q) s;
    match d ≫= (fun i => active_domains s !! i) with
    | None => Fault NullDereference
    | Some d =>
      '(_, p) ← procman_deregister fuel (dom_id d) (i_procs s);
      let s := with_procs p s in
      if core =? 0 then Done (true, s) else
      '(a, s) ← urpc2_rpc_over_urpc q 4 (le_split 4 (dom_id d) ++ heap) s;
      Done (bool_decide (is_Some a), s)
    end.

(** The message goes to a process of this core or to the other core. *)
Definition domain_to_domain_handler (q : request) (s : init_state) : outcome (bool * init_state) :=
  c ← load_word (q_mem q) 1;
  if c =? core then
    pid ← load_word (q_mem q) 0;
    chan ← procman_get_channel_by_id fuel pid (i_procs s);
    if chan =? 0 then Done (true, s) else
    if Z.of_nat (List.length (q_mem q)) <? 4 * q_size q then Fault OutOfBounds else
    r ← forward_message (RecvList (q_type q) (q_id q) (q_cap q) (q_size q) (q_size q) (q_chan q) []) chan NULL_CAP (u32 (q_size q - 2)) (words_of_bytes (drop 8 (q_mem q))) scs ev (i_rpc s);
    Done (true, with_rpc r s)
  else if q_chan q =? 0 then Done (false, s) else
    '(a, s) ← urpc2_rpc_over_urpc q (q_size q) (q_mem q) s;
    Done (bool_decide (is_Some a), s).

Definition finished (x : outcome init_state) : outcome (bool * init_state) := s ← x; Done (true, s).

Definition recv_deal_with_msg (q : request) (s : init_state) : outcome (bool * init_state) :=
  let t := q_type q in
  if t =? RPC_MESSAGE RPC_TYPE_NUMBER then finished (acknowledge q s)
  else if t =? RPC_MESSAGE RPC_TYPE_STRING then
    l ← string_at (q_mem q);
    finished (acknowledge q (with_term (terminal_write l (i_term s)) s))
  else if t =? RPC_MESSAGE RPC_TYPE_RUN_TESTSUITE then finished (acknowledge q (with_sys (sys_run_testsuite (i_sys s)) s))
  else if t =? RPC_MESSAGE RPC_TYPE_RAM then
    ASSERT negb (q_chan q =? 0);
    finished (ram_recv_handler q s)
  else if t =? RPC_MESSAGE RPC_TYPE_GET_MEM_SERVER then finished (send_response_to q (q_chan q) init_cap 0 [] s)
  else if t =? RPC_MESSAGE RPC_TYPE_PUTCHAR then
    c ← load (q_mem q) 0;
    finished (acknowledge q (with_term (terminal_write_c c (i_term s)) s))
  else if t =? RPC_MESSAGE RPC_TYPE_DOMAIN_TO_DOMAIN_COM then domain_to_domain_handler q s
  else if t =? RPC_MESSAGE RPC_TYPE_GETCHAR then getchar_recv_handler q s
  else if t =? RPC_MESSAGE RPC_TYPE_IRQ_CAP then finished (irq_cap_recv_handler q s)
  else if t =? RPC_MESSAGE RPC_TYPE_DEV_CAP then finished (dev_cap_recv_handler q s)
  else if t =? RPC_MESSAGE RPC_TYPE_HANDSHAKE then Done (true, s)
  else if t =? RPC_MESSAGE RPC_TYPE_PROCESS_GET_NAME then finished (process_get_name_recv_handler q s)
  else if t =? RPC_MESSAGE RPC_TYPE_PROCESS_SPAWN then spawn_recv_handler q s
  else if t =? RPC_MESSAGE RPC_TYPE_PROCESS_KILL then process_kill_handler q s
  else if t =? RPC_MESSAGE RPC_TYPE_PROCESS_KILL_ME then process_kill_me_handler q s
  else if t =? RPC_MESSAGE RPC_TYPE_PROCESS_REGISTER then finished (process_register_recv_handler q s)
  else if t =? RPC_MESSAGE RPC_TYPE_PROCESS_GET_PIDS then Done (true, s)
  else if t =? RPC_MESSAGE RPC_TYPE_LED_TOGGLE then
    x ← sys_led_toggle (i_sys s);
    finished (send_response_to q (q_chan q) NULL_CAP 0 [] (with_sys x s))
  else if t =? RPC_MESSAGE RPC_TYPE_PRINT_PROC_LIST then finished (send_response_to q (q_chan q) NULL_CAP 0 [] s)
  else if t =? RPC_MESSAGE RPC_TYPE_PROCESS_AWAIT_COMPL then process_await_completion_recv_handler q s
  else if t =? RPC_MESSAGE RPC_TYPE_REGISTER_AS_NAMESERVER then
    s ← send_response_to q (q_chan q) NULL_CAP 0 [] (with_nameserver (q_cap q) s);
    Done (true, register_things_with_nameserver s)
  else if t =? RPC_MESSAGE RPC_TYPE_GET_NAME_SERVER then finished (send_response_to q (q_chan q) (nameserver_cap s) 0 [] s)
  else Done (true, s).

(** * Handshake *)

Definition handshake_recv_handler (id child_cap : Z) (s : init_state) : outcome init_state :=
  d ← find_domain child_cap s;
  '(d, s) ← match d ≫= (fun i => active_domains s !! i) with
            | Some d => Done (d, s)
            | None =>
              let '(e, key) := sys_identify child_cap (i_sys s) in
              _ ← CHECK e;
              let '(x, e, (chan, local_cap)) := sys_accept child_cap (i_sys s) in
              _ ← CHECK e;
              let d := Domain key chan local_cap stack [] in
              Done (d, with_domains (d :: active_domains s) (with_sys x s))
            end;
  r ← send (dom_chan d) (dom_local_cap d) (RPC_ACK_MESSAGE RPC_TYPE_HANDSHAKE) 1 [id] None 0 ev (i_rpc s);
  Done (with_rpc r s).

Definition recv_handshake_handler (q : request) (s : init_state) : outcome init_state :=
  if q_type q =? RPC_MESSAGE RPC_TYPE_HANDSHAKE then handshake_recv_handler (q_id q) (q_cap q) s else Done s.
End InitRpc.
Arguments init_state {_}.
