(* ===== verification/InitRpcCorrect.v ===== *)
(** Correctness of InitRpc.v together with AosRpc.v, on the core that keeps
    the table of all processes: the way of a call from a domain to init and
    back. *)
From Stdlib Require Import String Ascii.
From S2P Require Import Prelude Ring Chain Procman ProcmanCorrect Terminal Urpc Rpc RpcCorrect AosRpc AosRpcCorrect InitRpc.

(** * The name and the core of a new process *)

Lemma decimal_core : forallb (fun c => (u8 (atoi (decimal c)) =? c) && forallb is_digit (decimal c)) (seqZ 0 256) = true.
Proof. by vm_compute. Qed.

Lemma decimal_spec c : byte8 c -> u8 (atoi (decimal c)) = c /\ Forall (fun b => 48 <= b <= 57) (decimal c).
Proof.
  intros Hc. unfold byte8 in Hc. pose proof decimal_core as H. rewrite forallb_forall in H. specialize (H c).
  rewrite <- list_elem_of_In, elem_of_seqZ in H. specialize (H ltac:(lia)). apply andb_true_iff in H as [H1%Z.eqb_eq H2]. split; [done|].
  rewrite forallb_forall in H2. apply Forall_forall. intros b Hb%list_elem_of_In. specialize (H2 b Hb). unfold is_digit in H2. lia.
Qed.

Lemma last_underscore_at l1 l2 : Forall (fun b => 48 <= b <= 57) l2 -> forall rest, last_underscore (l1 ++ 95 :: l2 ++ rest) (length l1 + 1 + length l2) = Z.of_nat (length l1).
Proof.
  intros H. induction l2 as [|b l2 IH] using rev_ind; intros rest.
  - rewrite Nat.add_0_r, Nat.add_comm. cbn [last_underscore Nat.add]. by rewrite list_lookup_middle, bool_decide_true.
  - apply Forall_app in H as [H Hb]. rewrite Forall_singleton in Hb. rewrite length_app. cbn [length]. replace (length l1 + 1 + (length l2 + 1))%nat with (S (length l1 + 1 + length l2)) by lia. cbn [last_underscore].
    rewrite <- app_assoc. cbn [app]. rewrite bool_decide_false; [by apply IH|].
    rewrite lookup_app_r by lia. replace (length l1 + 1 + length l2 - length l1)%nat with (S (length l2)) by lia. change ((95 :: l2 ++ b :: rest) !! S (length l2)) with ((l2 ++ b :: rest) !! length l2). rewrite list_lookup_middle by done. intros [= ->]. cbn in Hb. lia.
Qed.

(** The name of a new process and the core are read back as they were sent. *)
Lemma spawn_parse name c rest : chars name -> byte8 c -> let l := spawn_name name c in let m := l ++ 0 :: rest in
  strlen m = Done (Z.of_nat (length l)) /\ last_underscore m (length l) = Z.of_nat (length name) /\
  u8 (atoi (take (Z.to_nat (Z.of_nat (length l) - (Z.of_nat (length name) + 1))) (drop (Z.to_nat (Z.of_nat (length name) + 1)) m))) = c /\
  exists m', store m (Z.of_nat (length name)) 0 = Done m' /\ string_at m' = Done name.
Proof.
  intros Hn Hc l m. destruct (decimal_spec c Hc) as [Ha Hd]. split_and!.
  - apply strlen_zero. unfold l, spawn_name. rewrite !Forall_app, Forall_singleton. split_and!; [by apply chars_nonzero|done|]. eapply Forall_impl; [exact Hd|]. cbn. lia.
  - unfold m, l, spawn_name. rewrite <- app_assoc. cbn [app]. rewrite length_app. cbn [length]. replace (length name + S (length (decimal c)))%nat with (length name + 1 + length (decimal c))%nat by lia. by apply last_underscore_at.
  - unfold m, l, spawn_name. rewrite <- app_assoc, length_app. cbn [app length]. rewrite cons_middle, app_assoc, drop_app_length' by (rewrite length_app; cbn; lia). rewrite take_app_length' by lia. done.
  - exists (name ++ 0 :: decimal c ++ 0 :: rest). split; [|by apply string_at_zero, chars_nonzero]. unfold store, m, l, spawn_name. rewrite <- app_assoc. cbn [app]. rewrite length_app. cbn [length]. zdecide. cbn [andb]. rewrite Nat2Z.id, insert_app_r_alt, Nat.sub_diag by lia. done.
Qed.

(** * Calls *)

(** The calls of a domain; the numbers are the addresses of the results. *)
Inductive icall :=
| CPrint (string : list Z)
| CPutchar (c : Z)
| CSpawn (name : list Z) (newpid : Z)
| CGetName (pid name : Z)
| CKill (pid success : Z)
| CRegister (name : list Z).

Definition call (chan local_cap done : Z) (ev : option (Z * errval)) (x : icall) : domain_state -> outcome domain_state :=
  match x with
  | CPrint string => aos_rpc_send_string chan done ev string
  | CPutchar c => aos_rpc_serial_putchar chan done ev c
  | CSpawn name newpid => aos_rpc_process_spawn chan done ev name 0 newpid
  | CGetName pid name => aos_rpc_process_get_name chan done ev pid name
  | CKill pid success => aos_rpc_process_kill chan done ev pid success
  | CRegister name => aos_rpc_process_register chan local_cap done ev name
  end.

Definition call_type (x : icall) : Z :=
  match x with
  | CPrint _ => RPC_TYPE_STRING | CPutchar _ => RPC_TYPE_PUTCHAR | CSpawn _ _ => RPC_TYPE_PROCESS_SPAWN
  | CGetName _ _ => RPC_TYPE_PROCESS_GET_NAME | CKill _ _ => RPC_TYPE_PROCESS_KILL | CRegister _ => RPC_TYPE_PROCESS_REGISTER
  end.
Definition call_recv (x : icall) : option receiver :=
  match x with
  | CPrint _ | CPutchar _ => None | CSpawn _ v => Some (aos_rpc_process_spawn_recv v)
  | CGetName _ v => Some (aos_rpc_process_get_name_recv v) | CKill _ v => Some (aos_rpc_process_kill_recv v) | CRegister _ => Some aos_rpc_process_register_recv
  end.
Definition call_cap (local_cap : Z) (x : icall) : Z := match x with CRegister _ => local_cap | _ => NULL_CAP end.

(** The string that a call sends, if it sends one. *)
Definition call_string (x : icall) : option (list Z) :=
  match x with CPrint s => Some s | CSpawn name _ => Some (spawn_name name 0) | CRegister name => Some name | _ => None end.

(** A string that can be read back: its characters, its size, and that a zero
    follows it.  [aos_rpc_send_string] sends the zero; [room] is the number of
    bytes of the buffer of a short message. *)
Definition sendable (room : Z) (s : list Z) : Prop :=
  chars s /\ Z.of_nat (length s) < 200000 /\ (Z.of_nat (length s) `mod` 4 <> 0 \/ Z.of_nat (length s) < room).

(** The words of a request. *)
Definition request_words (x : icall) (ws : list Z) : Prop :=
  match x with
  | CPrint s => bytes_of_words ws = (s ++ [0]) ++ replicate (Z.to_nat (trailing (Z.of_nat (length (s ++ [0]))))) 0
  | CPutchar c => ws = [c]
  | CSpawn name _ => bytes_of_words ws = spawn_name name 0 ++ replicate (Z.to_nat (trailing (Z.of_nat (length (spawn_name name 0))))) 0
  | CGetName pid _ | CKill pid _ => ws = [pid]
  | CRegister name => bytes_of_words ws = name ++ replicate (Z.to_nat (trailing (Z.of_nat (length name)))) 0
  end.

Definition sends (x : icall) : Prop :=
  match x with
  | CPrint s => chars s /\ Z.of_nat (length s) < 200000
  | CPutchar c => byte8 c
  | CSpawn name _ => chars name /\ sendable 32 (spawn_name name 0)
  | CGetName pid _ | CKill pid _ => word32 pid
  | CRegister name => sendable 0 name
  end.

(** Every call is a message with its type and words. *)
Lemma call_message chan local_cap done ev x d : sends x -> exists ws, request_words x ws /\ Z.of_nat (length ws) < 65536 /\
  call chan local_cap done ev x d = rpc_framework chan done ev (call_recv x) (call_type x) (call_cap local_cap x) (Z.of_nat (length ws)) ws None d.
Proof.
  assert (forall l, chars l -> Forall (fun y => 0 <= y < 256) (l ++ [0])) as Hz by (intros l Hl; apply Forall_app; split; [by apply chars_bytes|by repeat constructor]).
  destruct x as [s|c|name v|pid v|pid v|name]; cbn [sends request_words call call_type call_recv call_cap]; try (intros Hs; exists [c] || exists [pid]; done).
  - intros [Hs Hl]. destruct (convert_spec (s ++ [0]) (Hz s Hs)) as (ws & n & E & Hb & -> & Hn). exists ws. rewrite length_app in Hn. cbn [length] in Hn. split; [done|]. split; [lia|]. unfold aos_rpc_send_string. rewrite length_app in E. cbn [length] in E. rewrite Nat2Z.inj_add in E. change (Z.of_nat 1) with 1 in E. by rewrite E.
  - intros (_ & Hs & Hl & _). destruct (convert_spec _ (chars_bytes _ Hs)) as (ws & n & E & Hb & -> & Hn). exists ws. split; [done|]. split; [lia|]. unfold aos_rpc_process_spawn. by rewrite E.
  - intros (Hs & Hl & _). destruct (convert_spec _ (chars_bytes _ Hs)) as (ws & n & E & Hb & -> & Hn). exists ws. split; [done|]. split; [lia|]. unfold aos_rpc_process_register. by rewrite E.
Qed.

(** * Init *)

Lemma tabled_word A m s id x : tabled A m s -> m !! id = Some x -> word32 id.
Proof.
  intros HA Hx. destruct (tabled_last A m s HA) as [Hl Hb]. specialize (Hb id x Hx). apply (tb_map _ _ _ HA) in Hx as (a & Ha & Ex & E). pose proof (tb_width _ _ _ HA) as Hw. rewrite Forall_forall in Hw.
  specialize (Hw id). unfold word32. split; [lia|]. apply Hw. unfold ids. apply list_elem_of_fmap. exists a. split; [by rewrite Ex|done].
Qed.

Lemma register_word a name c si pid m m' p : table m' p -> pspec m (PRegister a name c si) (SYS_ERR_OK, pid) m' -> word32 pid.
Proof.
  intros (A & HA) Hs. inversion Hs; subst. assert (is_Some (<[pid := ProcessInfo pid c name si ch false]> m !! pid)) as [x Hx] by (rewrite lookup_insert_eq; by eexists).
  by eapply tabled_word.
Qed.

Section Serve.
Context `{InitSys} (scs : Z) (ev : option (Z * errval)) (heap : list Z) (stack init_cap : Z).
Hypothesis Hev : event_ok ev.

(** An answer with the capability and the words is queued for the domain that
    asked, and nothing else is sent. *)
Definition answered (q : request) (cap : Z) (ws : list Z) (s s' : init_state) : Prop :=
  rpc_inv (i_rpc s') /\ exists id2, byte8 id2 /\
    forall ch, traffic ch (i_rpc s') = traffic ch (i_rpc s) ++ (if decide (ch = q_chan q) then fragments (Message (q_type q + 1) id2 cap (q_id q :: ws) (Some scs)) else []).

(** A request of a domain that init can answer. *)
Record asks (q : request) (s : init_state) : Prop := {
  as_chan : q_chan q <> 0;
  as_type : exists t, 0 <= t < 127 /\ q_type q = RPC_MESSAGE t;
  as_id : byte8 (q_id q);
  as_inv : rpc_inv (i_rpc s);
  as_free : id_free (q_type q + 1) (i_rpc s)
}.

Lemma message_even t : 0 <= t < 127 -> Z.land (RPC_MESSAGE t) 1 = 0 /\ 0 <= RPC_MESSAGE t < 254 /\ RPC_MESSAGE t + 1 = RPC_ACK_MESSAGE t.
Proof.
  intros Ht. unfold RPC_MESSAGE, RPC_ACK_MESSAGE. rewrite Z.shiftl_mul_pow2 by lia. change (2 ^ 1) with 2. split; [|lia].
  change 1 with (Z.ones 1). rewrite Z.land_ones by lia. change (2 ^ 1) with 2. by rewrite Z.mod_mul.
Qed.

Lemma respond_run q cap ws s : asks q s -> Z.of_nat (length ws) < 65535 ->
  exists r, send_response_to scs ev q (q_chan q) cap (Z.of_nat (length ws)) ws s = Done (with_rpc r s) /\ answered q cap ws s (with_rpc r s).
Proof.
  intros [Hc (t & Ht & Et) Hid Hi Hf] Hl. destruct (message_even t Ht) as (He & Hr & Ha). unfold send_response_to, send_response. destruct (Z.eqb_spec (q_chan q) 0); [done|]. cbn [Rpc.rl_type Rpc.rl_id].
  rewrite Et, He. cbn [Z.eqb]. rewrite assert_true by done. cbn [mbind outcome_bind]. zdecide. rewrite u8_small by lia. rewrite Et in Hf. destruct (fresh_id _ _ Hf Hi) as (id2 & s1 & -> & Hid2 & Hi1 & Htr). cbn [mbind outcome_bind].
  rewrite Nat2Z.id, take_ge by lia.
  destruct (send_spec (q_chan q) (Message (RPC_MESSAGE t + 1) id2 cap (q_id q :: ws) (Some scs)) ev s1) as (r & E & Hi2 & Htr2); try done.
  { unfold message_ok, m_size. cbn [m_type m_id m_payload length]. unfold byte8 in Hid2. lia. }
  unfold send_message, m_size in E. cbn [m_cap m_type m_payload m_callback m_id length] in E. replace (Z.of_nat (length ws) + 1) with (Z.of_nat (S (length ws))) by lia. rewrite E. cbn [mbind outcome_bind].
  exists r. split; [done|]. split; [done|]. exists id2. split; [done|]. intros ch. cbn [i_rpc with_rpc]. rewrite Htr2, Htr, Et. done.
Qed.

Lemma respond_one q cap w s : asks q s -> exists r, send_response_to scs ev q (q_chan q) cap 1 [w] s = Done (with_rpc r s) /\ answered q cap [w] s (with_rpc r s).
Proof. intros Ha. by apply (respond_run q cap [w] s Ha). Qed.

(** Choose the handler of a known type. *)
Local Ltac dispatch Et := unfold recv_deal_with_msg; rewrite Et;
  repeat match goal with |- context [RPC_MESSAGE ?a =? RPC_MESSAGE ?b] => let v := eval vm_compute in (RPC_MESSAGE a =? RPC_MESSAGE b) in change (RPC_MESSAGE a =? RPC_MESSAGE b) with v; cbv iota end.

(** The processes, the text on the terminal and the answer after a request. *)
Definition serves (q : request) (s : init_state) (m' : gmap Z process_info) (pr ws : list Z) : Prop :=
  exists n s', (forall fuel, (n <= fuel)%nat -> recv_deal_with_msg fuel 0 scs ev heap stack init_cap q s = Done (true, s')) /\
    table m' (i_procs s') /\ printed (i_term s') = printed (i_term s) ++ pr /\ answered q NULL_CAP ws s s'.

Lemma acknowledge_run q r s' : forall s, asks q s -> send_response_to scs ev q (q_chan q) NULL_CAP (Z.of_nat (@length Z [])) [] s' = Done r -> acknowledge scs ev q s' = Done r.
Proof. intros s Ha E. unfold acknowledge. destruct (Z.eqb_spec (q_chan q) 0) as [E0|_]; [by destruct Ha|]. exact E. Qed.

Lemma serve_print q s m l rest : asks q s -> table m (i_procs s) -> q_type q = RPC_MESSAGE RPC_TYPE_STRING -> chars l -> q_mem q = l ++ 0 :: rest ->
  serves q s m l [].
Proof.
  intros Ha Ht Et Hl Em. destruct (respond_run q NULL_CAP [] (with_term (terminal_write l (i_term s)) s)) as (r & E & Hr); [by destruct Ha|done|].
  exists 0%nat. eexists. split; [intros fuel _|split; [|split; [|exact Hr]]; done]. dispatch Et. rewrite Em, string_at_zero by (by apply chars_nonzero). cbn [mbind outcome_bind]. unfold finished. by rewrite (acknowledge_run q _ _ s Ha E).
Qed.

Lemma serve_putchar q s m c : asks q s -> table m (i_procs s) -> q_type q = RPC_MESSAGE RPC_TYPE_PUTCHAR -> head (q_mem q) = Some c -> serves q s m [c] [].
Proof.
  intros Ha Ht Et Em. destruct (respond_run q NULL_CAP [] (with_term (terminal_write_c c (i_term s)) s)) as (r & E & Hr); [by destruct Ha|done|].
  exists 0%nat. eexists. split; [intros fuel _|split; [|split; [|exact Hr]]; done]. dispatch Et. assert (load (q_mem q) 0 = Done c) as ->. { destruct (q_mem q); [done|]. injection Em as ->. unfold load. cbn [length]. by zdecide. }
  cbn [mbind outcome_bind]. unfold finished. by rewrite (acknowledge_run q _ _ s Ha E).
Qed.

Lemma serve_get_name q s m pid x : asks q s -> table m (i_procs s) -> q_type q = RPC_MESSAGE RPC_TYPE_PROCESS_GET_NAME -> load_word (q_mem q) 0 = Done pid ->
  m !! pid = Some x -> chars (p_name x) -> Z.of_nat (length (p_name x)) < 200000 ->
  exists ws, serves q s m [] ws /\ bytes_of_words ws = p_name x ++ replicate (Z.to_nat (trailing (Z.of_nat (length (p_name x))))) 0 /\ Z.of_nat (length (p_name x)) <= 4 * Z.of_nat (length ws) < Z.of_nat (length (p_name x)) + 4.
Proof.
  intros Ha Ht Et Em Hx Hc Hl. destruct (convert_spec _ (chars_bytes _ Hc)) as (ws & n & Ec & Hb & -> & Hn). exists ws. split; [|done].
  destruct (respond_run q NULL_CAP ws s) as (r & E & Hr); [done|lia|]. destruct Ht as (A & HA). destruct (find_some A m (i_procs s) HA pid x Hx) as (a & Hin & Ea & _ & Hf).
  exists (S (length A)). eexists. split; [intros fuel Hfuel|split; [|split; [|exact Hr]]; [by exists A|cbn; by rewrite app_nil_r]]. dispatch Et. unfold process_get_name_recv_handler, procman_lookup_name_by_id. rewrite Em. cbn [mbind outcome_bind].
  destruct (tabled_nonempty A m (i_procs s) HA) as [_ Hh]. destruct (Z.eqb_spec (pt_head (i_procs s)) 0); [done|]. rewrite assert_true by done. cbn [mbind outcome_bind]. rewrite Hf by lia. cbn [mbind outcome_bind]. rewrite bool_decide_false by done. rewrite Ea, Ec. cbn [mbind outcome_bind]. destruct (Z.eqb_spec (q_chan q) 0) as [E0|_]; [by destruct Ha|]. unfold finished. by rewrite E.
Qed.
(** The calls of the process manager that return. *)
Lemma returns_register a name c si p r p' : returns (PRegister a name c si) p r p' -> exists n, forall fuel, (n <= fuel)%nat -> procman_register_process fuel 0 a 0 name c si p = Done (r.2, p').
Proof. intros (n & Hn). exists n. intros fuel Hf. specialize (Hn fuel Hf). cbn [pexec] in Hn. destruct (procman_register_process _ _ _ _ _ _ _ _) as [[pid p1]|]; [|done]. cbn in Hn. by injection Hn as <- <-. Qed.
Lemma returns_finish a name chan p r p' : returns (PFinish a name chan) p r p' -> exists n, forall fuel, (n <= fuel)%nat -> procman_finish_process_register fuel 0 2 a 0 name chan p = Done (r.2, p').
Proof. intros (n & Hn). exists n. intros fuel Hf. specialize (Hn fuel Hf). cbn [pexec] in Hn. destruct (procman_finish_process_register _ _ _ _ _ _ _ _) as [[pid p1]|]; [|done]. cbn in Hn. by injection Hn as <- <-. Qed.
Lemma returns_kill id p r p' : returns (PKill id) p r p' -> exists n, forall fuel, (n <= fuel)%nat -> procman_kill_process fuel 0 SYS_ERR_OK id p = Done (r.1, p').
Proof. intros (n & Hn). exists n. intros fuel Hf. specialize (Hn fuel Hf). cbn [pexec] in Hn. destruct (procman_kill_process _ _ _ _ _) as [[e p1]|]; [|done]. cbn in Hn. by injection Hn as <- <-. Qed.

(** A request for a new process, up to the loading of the program. *)
Lemma spawn_run q s name rest fuel : asks q s -> q_type q = RPC_MESSAGE RPC_TYPE_PROCESS_SPAWN -> chars name -> q_mem q = spawn_name name 0 ++ 0 :: rest ->
  recv_deal_with_msg fuel 0 scs ev heap stack init_cap q s =
  (let '(x, e, si) := sys_spawn name (i_sys s) in
   '(pid, s) ← (if bool_decide (e = err SPAWN_ERR_FIND_MODULE) then Done (2 ^ 32 - 1, with_sys x s) else register_process fuel 0 (bin_name name) 0 si (with_sys x s));
   s ← send_response_to scs ev q (q_chan q) NULL_CAP 1 [pid] s; Done (true, s)).
Proof.
  intros Ha Et Hn Em. dispatch Et. unfold spawn_recv_handler. destruct (spawn_parse name 0 rest Hn ltac:(done)) as (E1 & E2 & E3 & m' & E4 & E5). rewrite Em, E1. cbn [mbind outcome_bind]. rewrite Nat2Z.id, E2, E3, E4. cbn [mbind outcome_bind]. rewrite E5. cbn [mbind outcome_bind Z.eqb negb].
  destruct (sys_spawn name (i_sys s)) as [[x e] si]. destruct (Z.eqb_spec (q_chan q) 0) as [E0|_]; [by destruct Ha|]. cbn [andb]. done.
Qed.

Lemma serve_spawn q s m name rest : asks q s -> table m (i_procs s) -> q_type q = RPC_MESSAGE RPC_TYPE_PROCESS_SPAWN -> chars name -> q_mem q = spawn_name name 0 ++ 0 :: rest ->
  let '(x, e, si) := sys_spawn name (i_sys s) in let '(_, a) := sys_malloc x in
  e = SYS_ERR_OK -> allowed m (PRegister a (bin_name name) 0 si) (i_procs s) ->
  exists pid m', pspec m (PRegister a (bin_name name) 0 si) (SYS_ERR_OK, pid) m' /\ word32 pid /\ serves q s m' [] [pid].
Proof.
  intros Ha Ht Et Hn Em. pose proof (fun fuel => spawn_run q s name rest fuel Ha Et Hn Em) as Hrun. destruct (sys_spawn name (i_sys s)) as [[x e] si]. destruct (sys_malloc x) as [x' a] eqn:Ea. intros -> Hal.
  destruct (call_refines m _ _ Ht Hal) as ([e pid] & p' & m' & (n & Hret)%returns_register & Hs & Ht'). cbn [snd] in Hret. assert (e = SYS_ERR_OK) as -> by (by inversion Hs). exists pid, m'. split; [done|].
  assert (word32 pid) as Hw by (by apply (register_word _ _ _ _ _ _ _ _ Ht' Hs)).
  destruct (respond_one q NULL_CAP pid (with_procs p' (with_sys x' (with_sys x s)))) as (r & E & Hr); [by destruct Ha|]. split; [done|].
  exists n. eexists. split; [intros fuel Hfuel|split; [|split; [|exact Hr]]; [done|cbn; by rewrite app_nil_r]]. rewrite Hrun, bool_decide_false by done. unfold register_process. cbn [Z.eqb negb]. cbn [i_sys with_sys]. rewrite Ea, Hret by done. cbn [mbind outcome_bind]. by rewrite E.
Qed.

Lemma serve_spawn_unknown q s m name rest : asks q s -> table m (i_procs s) -> q_type q = RPC_MESSAGE RPC_TYPE_PROCESS_SPAWN -> chars name -> q_mem q = spawn_name name 0 ++ 0 :: rest ->
  (sys_spawn name (i_sys s)).1.2 = err SPAWN_ERR_FIND_MODULE -> serves q s m [] [2 ^ 32 - 1].
Proof.
  intros Ha Ht Et Hn Em He. pose proof (fun fuel => spawn_run q s name rest fuel Ha Et Hn Em) as Hrun. destruct (sys_spawn name (i_sys s)) as [[x e] si]. cbn in He. subst e.
  destruct (respond_one q NULL_CAP (2 ^ 32 - 1) (with_sys x s)) as (r & E & Hr); [by destruct Ha|].
  exists 0%nat. eexists. split; [intros fuel Hfuel|split; [|split; [|exact Hr]]; [done|cbn; by rewrite app_nil_r]]. rewrite Hrun, bool_decide_true by done. cbn [mbind outcome_bind]. by rewrite E.
Qed.
Definition success (e : errval) : Z := if err_is_ok e then 1 else 0.

Lemma serve_kill q s m pid : asks q s -> table m (i_procs s) -> q_type q = RPC_MESSAGE RPC_TYPE_PROCESS_KILL -> load_word (q_mem q) 0 = Done pid ->
  allowed m (PKill pid) (i_procs s) -> sys_send_kill (i_sys s) = SYS_ERR_OK -> (forall x, m !! pid = Some x -> p_core x = 0) ->
  exists e m', pspec m (PKill pid) (e, 0) m' /\ serves q s m' [] [success e].
Proof.
  intros Ha Ht Et Em Hal Hk Hc. destruct (call_refines m _ _ Ht Hal) as ([e z] & p' & m' & (n & Hret)%returns_kill & Hs & Ht'). cbn [fst] in Hret. assert (z = 0) as -> by (by inversion Hs). exists e, m'. split; [done|].
  destruct (respond_one q NULL_CAP (success e) (with_procs p' s)) as (r & E & Hr); [by destruct Ha|].
  exists n. eexists. split; [intros fuel Hfuel|split; [|split; [|exact Hr]]; [done|cbn; by rewrite app_nil_r]]. dispatch Et. unfold process_kill_handler. rewrite Em. cbn [mbind outcome_bind]. rewrite Hk, Hret by done. cbn [mbind outcome_bind].
  rewrite bool_decide_false. { destruct (Z.eqb_spec (q_chan q) 0) as [E0|_]; [by destruct Ha|]. unfold success in E. by rewrite E. }
  inversion Hs as [| | | | |k x Hx _ _|k x Hx Hne|k x Hx _ _|k Hx]; subst; try done. by destruct Hne; apply Hc.
Qed.

(** The memory for a new entry is not used when the process is known. *)
Lemma finish_memory fuel a b u name chan p pi : waiting_loop fuel name (pt_head p) p = Done pi -> pi <> 0 ->
  procman_finish_process_register fuel 0 2 a u name chan p = procman_finish_process_register fuel 0 2 b u name chan p.
Proof. intros E Hpi. cbn [procman_finish_process_register]. rewrite E. cbn [mbind outcome_bind]. destruct (Z.eqb_spec pi 0); done. Qed.

Lemma serve_register q s m name rest key i : asks q s -> table m (i_procs s) -> q_type q = RPC_MESSAGE RPC_TYPE_PROCESS_REGISTER -> chars name -> q_mem q = name ++ 0 :: rest -> Z.of_nat (length name) < 4 * q_size q < 2 ^ 32 ->
  allowed m (PFinish (sys_malloc (i_sys s)).2 name (q_chan q)) (i_procs s) -> (forall x, sys_identify (q_cap q) x = (SYS_ERR_OK, key)) -> domain_at key (active_domains s) = Some i ->
  exists pid m', pspec m (PFinish (sys_malloc (i_sys s)).2 name (q_chan q)) (SYS_ERR_OK, pid) m' /\ word32 pid /\ serves q s m' [] [pid; 0].
Proof.
  intros Ha Ht Et Hn Em Hsz Hal Hid Hd. destruct (call_refines m _ _ Ht Hal) as ([e pid] & p' & m' & (n & Hret)%returns_finish & Hs & Ht'). cbn [snd] in Hret. assert (e = SYS_ERR_OK) as -> by (by inversion Hs). exists pid, m'. split; [done|].
  assert (word32 pid) as Hw. { destruct Ht' as (A & HA). inversion Hs; subst; (eapply tabled_word; [exact HA|apply lookup_insert_eq]). } split; [done|].
  destruct Ht as (A & HA). set (pi := default 0 (head (filter (fun a => ProcmanCorrect.waiting name (pinfo (i_procs s) a)) A))).
  assert (forall fuel, (S (length A) <= fuel)%nat -> waiting_loop fuel name (pt_head (i_procs s)) (i_procs s) = Done pi) as Hwait by (intros fuel Hf; by apply (waiting_loop_spec name _ A _ 0 _ (dl_seg _ _ _ (tb_list _ _ _ HA)))).
  set (x := if pi =? 0 then (sys_malloc (i_sys s)).1 else i_sys s). set (s1 := with_domains (alter (fun d => Domain (identification d) (dom_chan d) (dom_local_cap d) pid name) i (active_domains s)) (with_procs p' (with_sys x s))).
  destruct (respond_run q NULL_CAP [pid; 0] s1) as (r & E & Hr); [by destruct Ha|done|].
  exists (Nat.max n (S (length A))). eexists. split; [intros fuel Hfuel|split; [|split; [|exact Hr]]; [done|cbn; by rewrite app_nil_r]]. dispatch Et. unfold process_register_recv_handler. rewrite Em, string_at_zero by (by apply chars_nonzero). cbn [mbind outcome_bind]. rewrite u32_small by lia. zdecide. rewrite Hwait by lia. cbn [mbind outcome_bind Z.eqb negb]. rewrite andb_false_r.
  assert ((let '(x, a) := if pi =? 0 then sys_malloc (i_sys s) else (i_sys s, 0) in '(pid, p) ← procman_finish_process_register fuel 0 2 a 0 name (q_chan q) (i_procs s); Done (pid, p, x)) = Done (pid, p', x)) as Hfin.
  { unfold x. destruct (Z.eqb_spec pi 0) as [_|Hpi]; [destruct (sys_malloc (i_sys s)) as [y a]; cbn [snd] in Hret; by rewrite Hret by lia|]. rewrite (finish_memory fuel 0 (sys_malloc (i_sys s)).2 0 name (q_chan q) (i_procs s) pi) by (done || (apply Hwait; lia)). by rewrite Hret by lia. }
  destruct (if pi =? 0 then sys_malloc (i_sys s) else (i_sys s, 0)) as [y a]. destruct (procman_finish_process_register _ _ _ _ _ _ _ _) as [[pid1 p1]|]; [|done]. cbn [mbind outcome_bind] in Hfin |- *. injection Hfin as -> -> ->.
  unfold find_domain. rewrite Hid. change (CHECK SYS_ERR_OK) with (Done tt). cbn [mbind outcome_bind]. cbn [active_domains with_procs with_sys]. rewrite Hd. cbn [mbind outcome_bind]. destruct (Z.eqb_spec (q_chan q) 0) as [E0|_]; [by destruct Ha|]. unfold finished. match goal with |- context [send_response_to _ _ _ _ _ _ _ ?t] => change t with s1 end. change (Z.of_nat (length [pid; 0])) with 2 in E. by rewrite E.
Qed.
(** * The way back *)

(** What a call does: to the state of the caller, to the processes, and the
    text that is printed. *)
Inductive ispec (s : init_state) (m : gmap Z process_info) (chan : Z) : icall -> (domain_state -> domain_state) -> gmap Z process_info -> list Z -> Prop :=
| i_print string : ispec s m chan (CPrint string) (fun d => d) m string
| i_putchar c : ispec s m chan (CPutchar c) (fun d => d) m [c]
| i_spawn name v a si pid m' : (sys_spawn name (i_sys s)).1.2 = SYS_ERR_OK -> (sys_spawn name (i_sys s)).2 = si -> pspec m (PRegister a (bin_name name) 0 si) (SYS_ERR_OK, pid) m' ->
    ispec s m chan (CSpawn name v) (set_var v (VWord pid)) m' []
| i_spawn_unknown name v : (sys_spawn name (i_sys s)).1.2 = err SPAWN_ERR_FIND_MODULE -> ispec s m chan (CSpawn name v) (set_var v (VWord (2 ^ 32 - 1))) m []
| i_get_name pid v x : m !! pid = Some x -> ispec s m chan (CGetName pid v) (set_var v (VName (p_name x))) m []
| i_kill pid v e m' : pspec m (PKill pid) (e, 0) m' -> ispec s m chan (CKill pid v) (set_var v (VWord (success e))) m' []
| i_register name a pid m' : pspec m (PFinish a name chan) (SYS_ERR_OK, pid) m' -> ispec s m chan (CRegister name) (set_disp_ids 0 pid) m' [].

(** What a call needs: strings that can be sent; a process to ask for, whose
    name can be sent back; a process to kill that is on this core; for a
    registration, the handshake of the domain. *)
Definition ready (s : init_state) (m : gmap Z process_info) (chan local_cap : Z) (x : icall) : Prop :=
  sends x /\ match x with
  | CPrint _ | CPutchar _ => True
  | CSpawn name _ =>
    let '(y, e, si) := sys_spawn name (i_sys s) in
    e = err SPAWN_ERR_FIND_MODULE \/ (e = SYS_ERR_OK /\ allowed m (PRegister (sys_malloc y).2 (bin_name name) 0 si) (i_procs s))
  | CGetName pid _ => exists p, m !! pid = Some p /\ sendable 28 (p_name p)
  | CKill pid _ => allowed m (PKill pid) (i_procs s) /\ sys_send_kill (i_sys s) = SYS_ERR_OK /\ forall p, m !! pid = Some p -> p_core p = 0
  | CRegister name => allowed m (PFinish (sys_malloc (i_sys s)).2 name chan) (i_procs s) /\ exists key i, (forall y, sys_identify local_cap y = (SYS_ERR_OK, key)) /\ domain_at key (active_domains s) = Some i
  end.

(** The handler of the answer makes the effect. *)
Definition receives (x : icall) (ws : list Z) (effect : domain_state -> domain_state) : Prop :=
  forall behind id data d, match call_recv x with Some r => run_receiver (answer_memory behind id NULL_CAP ws) data r d = Done (effect d) | None => effect d = d end.

Lemma answer_word behind id ws i w : ws !! i = Some w -> word32 w -> load_word (answer_memory behind id NULL_CAP ws) (Z.of_nat (S i)) = Done w.
Proof. intros Hi Hw. unfold answer_memory, payload_memory. cbn [Rpc.rl_payload]. by apply load_word_at. Qed.

Lemma answer_string behind id ws l : bytes_of_words ws = l ++ replicate (Z.to_nat (trailing (Z.of_nat (length l)))) 0 -> sendable 28 l -> Z.of_nat (length l) <= 4 * Z.of_nat (length ws) < Z.of_nat (length l) + 4 ->
  string_at (drop 4 (answer_memory behind id NULL_CAP ws)) = Done l.
Proof.
  intros Hb (Hc & _ & Hr) Hl. unfold answer_memory, payload_memory. cbn [Rpc.rl_payload Rpc.rl_size]. unfold bytes_of_words. rewrite bind_cons, <- app_assoc. cbn [bytes_of_word app drop]. fold (bytes_of_words ws).
  destruct (string_terminated ws l (Z.of_nat (S (length ws))) behind Hb) as (rest & ->); [|by apply string_at_zero, chars_nonzero]. destruct (Z.eq_dec (Z.of_nat (length l) `mod` 4) 0) as [E|E]; [right|by left].
  destruct Hr as [Hr|Hr]; [done|]. apply Z.mod_divide in E as [k E]; [|done]. lia.
Qed.

(** The memory of a request with a string. *)
Lemma request_string behind schan t rid cap ws l : bytes_of_words ws = l ++ replicate (Z.to_nat (trailing (Z.of_nat (length l)))) 0 -> sendable 32 l ->
  exists rest, q_mem (lmp_request behind (received schan (Message t rid cap ws None))) = l ++ 0 :: rest.
Proof.
  intros Hb (Hc & Hlt & Hr). unfold lmp_request, received, m_size, payload_memory. cbn [q_mem Rpc.rl_payload Rpc.rl_size m_payload].
  apply (string_terminated ws l (Z.of_nat (length ws)) behind Hb). destruct (Z.eq_dec (Z.of_nat (length l) `mod` 4) 0) as [E|E]; [right|by left].
  destruct Hr as [Hr|Hr]; [done|]. pose proof (f_equal length Hb) as El. rewrite length_bytes_of_words, length_app, length_replicate in El. unfold trailing in El. rewrite E in El. cbn in El. lia.
Qed.
Lemma serve_call behind schan local_cap rid ws s m x : ready s m schan local_cap x -> request_words x ws -> Z.of_nat (length ws) < 65536 -> table m (i_procs s) ->
  let q := lmp_request behind (received schan (Message (RPC_MESSAGE (call_type x)) rid (call_cap local_cap x) ws None)) in asks q s ->
  exists effect m' pr aws, ispec s m schan x effect m' pr /\ serves q s m' pr aws /\ receives x aws effect.
Proof.
  intros [Hsend Hx] Hw Hlw Ht q Ha. destruct x as [l|c|name v|pid v|pid v|name]; cbn [sends request_words call_type call_cap] in *.
  - destruct Hsend as [Hc _]. rewrite <- app_assoc in Hw. exists (fun d => d), m, l, []. split; [constructor|]. split; [|by intros ? ? ?].
    eapply serve_print; [done|done|done|exact Hc|]. unfold q, lmp_request, received, payload_memory. cbn [q_mem Rpc.rl_payload m_payload]. rewrite Hw, <- app_assoc. done.
  - subst ws. exists (fun d => d), m, [c], []. split; [constructor|]. split; [|by intros ? ? ?]. apply serve_putchar; [done|done|done|]. cbn. f_equal. by apply Z.mod_small.
  - destruct Hsend as [Hc Hs]. destruct (request_string behind schan (RPC_MESSAGE RPC_TYPE_PROCESS_SPAWN) rid NULL_CAP ws _ Hw Hs) as (rest & Em).
    pose proof (serve_spawn q s m name rest Ha Ht eq_refl Hc Em) as H1. pose proof (serve_spawn_unknown q s m name rest Ha Ht eq_refl Hc Em) as H2. pose proof (i_spawn s m schan name v) as I1. pose proof (i_spawn_unknown s m schan name v) as I2. destruct (sys_spawn name (i_sys s)) as [[y e] si]. cbn [fst snd] in *. destruct Hx as [->|[-> Hal]].
    + eexists _, _, _, _. split; [by apply I2|]. split; [by apply H2|]. intros bh id data d. cbn [call_recv run_receiver]. by rewrite (answer_word bh id _ 0 (2 ^ 32 - 1)).
    + destruct (sys_malloc y) as [y' a]. cbn [snd] in Hal. destruct (H1 eq_refl Hal) as (pid & m' & Hp & Hw32 & Hsv). eexists _, _, _, _. split; [by eapply I1|]. split; [exact Hsv|]. intros bh id data d. cbn [call_recv run_receiver]. by rewrite (answer_word bh id _ 0 pid).
  - subst ws. destruct Hx as (p & Hp & Hs). pose proof Hs as (Hc & Hl & _). destruct (serve_get_name q s m pid p) as (aws & Hsv & Hb & Hn); try done. { by apply (load_word_at [pid] _ 0). }
    eexists _, _, _, _. split; [by eapply i_get_name|]. split; [exact Hsv|]. intros bh id data d. cbn [call_recv run_receiver]. by rewrite (answer_string bh id aws (p_name p)).
  - subst ws. destruct Hx as (Hal & Hk & Hcore). destruct (serve_kill q s m pid) as (e & m' & Hp & Hsv); try done. { by apply (load_word_at [pid] _ 0). }
    eexists _, _, _, _. split; [by eapply i_kill|]. split; [exact Hsv|]. intros bh id data d. cbn [call_recv run_receiver]. rewrite (answer_word bh id _ 0 (success e)); [done|done|]. unfold success, word32. destruct (err_is_ok e); lia.
  - destruct Hx as (Hal & key & i & Hid & Hd). pose proof Hsend as (Hc & Hl & [Hm|]); [|lia]. destruct (request_string behind schan (RPC_MESSAGE RPC_TYPE_PROCESS_REGISTER) rid local_cap ws name Hw) as (rest & Em). { split_and!; [done|done|by left]. }
    destruct (serve_register q s m name rest key i) as (pid & m' & Hp & Hw32 & Hsv); try done.
    { unfold q, lmp_request, received, m_size. cbn [q_size Rpc.rl_size m_payload]. pose proof (f_equal length Hw) as El. rewrite length_bytes_of_words, length_app, length_replicate in El. unfold trailing in El. destruct (Z.eqb_spec (Z.of_nat (length name) `mod` 4) 0); [done|]. pose proof (Z.mod_pos_bound (Z.of_nat (length name)) 4). lia. }
    eexists _, _, _, _. split; [by eapply i_register|]. split; [exact Hsv|]. intros bh id data d. cbn [call_recv run_receiver]. rewrite (answer_word bh id _ 0 pid) by done. cbn [mbind outcome_bind]. by rewrite (answer_word bh id _ 1 0).
Qed.
End Serve.

Module InitSample.

(** Services below init: the next free address is the state, one program can
    be loaded, the other core does not answer. *)
#[local] Instance sample_sys : InitSys := {|
  isys := Z;
  sys_ram_alloc := fun _ _ x => (x, SYS_ERR_OK, 900);
  sys_slot_alloc := fun x => (x, SYS_ERR_OK, 901);
  sys_cap_copy_irq := fun _ x => (x, SYS_ERR_OK);
  sys_device_base := fun _ => (SYS_ERR_OK, 0);
  sys_retype_device := fun _ _ _ x => (x, SYS_ERR_OK);
  sys_spawn := fun name x => if decide (bin_name name = str "hello") then (x, SYS_ERR_OK, 50) else (x, err SPAWN_ERR_FIND_MODULE, 50);
  sys_identify := fun cap _ => (SYS_ERR_OK, (cap, 0));
  sys_accept := fun _ x => (x, SYS_ERR_OK, (700, 701));
  sys_malloc := fun x => (x + 64, x);
  sys_other_core := fun _ x => (x, None);
  sys_register_process := fun _ x => (x, 5);
  sys_send_kill := fun _ => SYS_ERR_OK;
  sys_led_toggle := fun x => Done x;
  sys_run_testsuite := fun x => x;
  sys_register_service := fun _ _ x => x
|}.

Definition sinit : init_state := InitState ProcSample.s0 (terminal_init 0 (replicate 101 0) (replicate 500 0) (replicate 500 0)) [] 0 false rpc_init [] 8192.
Definition dom : domain_state := DomainState [] (replicate 10 false) (fun _ => true) (fun _ => VWord 0) 0 0 (fun _ => 0) (fun _ => true) false [] false rpc_init.

(** The program hello with an argument. *)
Definition spawn_hello : icall := CSpawn (str "hello world") 100.

Lemma spawn_ready : ready sinit {[0 := pinfo ProcSample.s0 4096]} 300 301 spawn_hello.
Proof.
  split.
  - cbn [sends spawn_hello]. split; [|split; [|split]]; [by repeat constructor..|by vm_compute|by left].
  - assert (sys_spawn (str "hello world") (i_sys sinit) = (8192, SYS_ERR_OK, 50)) as E by (by vm_compute). cbn [spawn_hello]. rewrite E. right. split; [done|].
    split_and!; [done| |by rewrite lookup_singleton_ne]. intros (A & Hl & Ha). rewrite (dlist_fun _ _ _ _ Hl (tb_list _ _ _ ProcSample.s0_tabled)) in Ha. by apply list_elem_of_singleton in Ha.
Qed.


(** ** What goes wrong *)

Definition request_of (t : Z) (size chan : Z) (mem : list Z) : request := Request (RPC_MESSAGE t) 7 301 size chan mem.
Definition fault_of {A} (x : outcome A) : option fault := match x with Done _ => None | Fault f => Some f end.

(** A request for a new process without an underscore writes before its
    buffer. *)
Lemma spawn_without_core : fault_of (recv_deal_with_msg 9 0 0 None [] 0 0 (request_of RPC_TYPE_PROCESS_SPAWN 2 300 (str "hello" ++ replicate 27 0)) sinit) = Some OutOfBounds.
Proof. vm_eq. Qed.

(** A string of 32 characters fills the buffer of a short message, and is
    read beyond its end. *)
Lemma long_name_unterminated : fault_of (recv_deal_with_msg 9 0 0 None [] 0 0 (request_of RPC_TYPE_PROCESS_SPAWN 8 300 (str "a-program-with-a-long-name-123_0")) sinit) = Some OutOfBounds.
Proof. vm_eq. Qed.

(** Asking for the name of a process that does not exist stops init. *)
Lemma get_name_unknown : fault_of (recv_deal_with_msg 9 0 0 None [] 0 0 (request_of RPC_TYPE_PROCESS_GET_NAME 1 300 (le_split 4 7 ++ replicate 28 0)) sinit) = Some NullDereference.
Proof. vm_eq. Qed.

(** A name whose length is a multiple of four is copied into a block that is
    one byte too small. *)
Lemma register_overruns : fault_of (recv_deal_with_msg 9 0 0 None [] 0 0 (request_of RPC_TYPE_PROCESS_REGISTER 1 300 (str "echo" ++ replicate 28 0)) sinit) = Some OutOfBounds.
Proof. vm_eq. Qed.

(** The request for a process on the other core is sent with four times the
    size of its block. *)
Lemma spawn_elsewhere_overreads : fault_of (recv_deal_with_msg 9 0 0 None [1; 2; 3; 4] 0 0 (request_of RPC_TYPE_PROCESS_SPAWN 2 300 (str "hello_1" ++ replicate 25 0)) sinit) = Some OutOfBounds /\
  fault_of (recv_deal_with_msg 9 0 0 None (replicate 100 0) 0 0 (request_of RPC_TYPE_PROCESS_SPAWN 2 300 (str "hello_1" ++ replicate 25 0)) sinit) = None.
Proof. split; vm_eq. Qed.

(** The other core answers with one byte of the identifier: 300 becomes 44. *)
Lemma answer_of_one_byte : match recv_deal_with_msg 9 1 0 None [] 0 0 (request_of RPC_TYPE_PROCESS_SPAWN 128 0 (str "hello_1" ++ [0] ++ le_split 4 300 ++ replicate 116 0)) sinit with
  | Done (_, s) => (data <$> i_urpc s, procman_lookup_name_by_id 9 300 (i_procs s)) | Fault _ => ([], Fault Unmodelled) end = ([[0; 7; 44]], Done (Some (str "hello"))).
Proof. vm_eq. Qed.

(** A core that is asked to kill a process it does not know asks back, and
    waits for ever. *)
Lemma kill_waits : match recv_deal_with_msg 9 1 0 None [] 0 0 (request_of RPC_TYPE_PROCESS_KILL 1 0 (le_split 4 7 ++ replicate 28 0)) sinit with Done (b, _) => Some b | Fault _ => None end = Some false.
Proof. vm_eq. Qed.
End InitSample.
