(* ===== verification/Ramfs.v ===== *)
(** The file system in memory (lib/fs/ramfs.c).

    Entries and handles have addresses; the entries of a directory form a
    list through [next] and [prev].  Memory that is allocated comes from the
    caller of the model: the address is an argument, null if there is none.
    Names and paths are lists of bytes without the terminating zero; the data
    of a file is the block that its pointer points to, and an access outside
    of it is a fault. *)
From S2P Require Import Prelude Ring Chain.

Definition FS_PATH_SEP : Z := 47.

Record ramfs_dirent := Dirent {
  de_name : list Z;
  de_size : Z;
  de_refcount : Z;
  de_parent : Z;
  de_is_dir : bool;
  de_data : option (list Z);   (** of a file *)
  de_dir : Z                   (** of a directory *)
}.

(** [h_pos] is the position in a file, or the next entry of a directory. *)
Record ramfs_handle := Handle { h_isdir : bool; h_dirent : Z; h_pos : Z }.

Record ramfs := Ramfs { elinks : links; ent : Z -> ramfs_dirent; hnd : Z -> ramfs_handle; fs_root : Z }.
Definition set_elinks (k : links) (s : ramfs) : ramfs := Ramfs k (ent s) (hnd s) (fs_root s).
Definition set_ent (a : Z) (d : ramfs_dirent) (s : ramfs) : ramfs := Ramfs (elinks s) (<[a := d]> (ent s)) (hnd s) (fs_root s).
Definition set_hnd (h : Z) (x : ramfs_handle) (s : ramfs) : ramfs := Ramfs (elinks s) (ent s) (<[h := x]> (hnd s)) (fs_root s).

Definition with_refcount (r : Z) (d : ramfs_dirent) : ramfs_dirent := Dirent (de_name d) (de_size d) r (de_parent d) (de_is_dir d) (de_data d) (de_dir d).
Definition with_parent (p : Z) (d : ramfs_dirent) : ramfs_dirent := Dirent (de_name d) (de_size d) (de_refcount d) p (de_is_dir d) (de_data d) (de_dir d).
Definition with_dir (x : Z) (d : ramfs_dirent) : ramfs_dirent := Dirent (de_name d) (de_size d) (de_refcount d) (de_parent d) (de_is_dir d) (de_data d) x.
Definition with_data (l : list Z) (n : Z) (d : ramfs_dirent) : ramfs_dirent := Dirent (de_name d) n (de_refcount d) (de_parent d) (de_is_dir d) (Some l) (de_dir d).
Definition with_pos (x : Z) (h : ramfs_handle) : ramfs_handle := Handle (h_isdir h) (h_dirent h) x.

Definition no_dirent : ramfs_dirent := Dirent [] 0 0 0 false None 0.

(** * Handles and entries *)

(** The handle, or null. *)
Definition handle_open (h d : Z) (s : ramfs) : Z * ramfs :=
  if h =? 0 then (0, s) else
  let s := set_ent d (with_refcount (u32 (de_refcount (ent s d) + 1)) (ent s d)) s in
  (h, set_hnd h (Handle (de_is_dir (ent s d)) d 0) s).

Definition handle_close (h : Z) (s : ramfs) : outcome ramfs :=
  _ ← nonnull h;
  let d := h_dirent (hnd s h) in
  ASSERT 0 <? de_refcount (ent s d);
  Done (set_ent d (with_refcount (de_refcount (ent s d) - 1) (ent s d)) s).

Definition dirent_remove (e : Z) (s : ramfs) : outcome ramfs :=
  let k := elinks s in
  s ← (if prv k e =? 0 then
         let p := de_parent (ent s e) in
         if p =? 0 then Done s else
         ASSERT de_is_dir (ent s p);
         Done (set_ent p (with_dir (nxt k e) (ent s p)) s)
       else Done (set_elinks (set_nxt (prv k e) (nxt k e) k) s));
  let k := elinks s in
  Done (if nxt k e =? 0 then s else set_elinks (set_prv (nxt k e) (prv k e) k) s).

(** The memory of the entry is cleared. *)
Definition dirent_remove_and_free (e : Z) (s : ramfs) : outcome ramfs :=
  s ← dirent_remove e s;
  Done (set_ent e no_dirent (set_elinks (set_nxt e 0 (set_prv e 0 (elinks s))) s)).

Definition dirent_insert (parent e : Z) (s : ramfs) : outcome ramfs :=
  ASSERT negb (parent =? 0);
  ASSERT de_is_dir (ent s parent);
  let s := set_elinks (set_nxt e 0 (set_prv e 0 (elinks s))) s in
  let s := set_ent e (with_parent parent (ent s e)) s in
  let h := de_dir (ent s parent) in
  let s := if h =? 0 then s else set_elinks (set_prv h e (set_nxt e h (elinks s))) s in
  Done (set_ent parent (with_dir e (ent s parent)) s).

Definition dirent_create (a : Z) (name : list Z) (is_dir : bool) (s : ramfs) : ramfs :=
  set_ent a (Dirent name 0 0 0 is_dir None 0) (set_elinks (set_nxt a 0 (set_prv a 0 (elinks s))) s).

(** * Paths *)

Fixpoint find_loop (fuel : nat) (name : list Z) (d : Z) (s : ramfs) : outcome (errval * Z) :=
  match fuel with
  | O => Fault OutOfFuel
  | S fuel =>
    if d =? 0 then Done (err FS_ERR_NOTFOUND, 0)
    else if bool_decide (de_name (ent s d) = name) then Done (SYS_ERR_OK, d)
    else find_loop fuel name (nxt (elinks s) d) s
  end.

(** The name before the first separator, and what is behind it. *)
Fixpoint split_sep (l : list Z) : list Z * option (list Z) :=
  match l with
  | [] => ([], None)
  | c :: l => if c =? FS_PATH_SEP then ([], Some l) else let '(n, r) := split_sep l in (c :: n, r)
  end.

(** What is before the last separator, and behind it. *)
Fixpoint split_last (l : list Z) : option (list Z * list Z) :=
  match l with
  | [] => None
  | c :: l =>
    match split_last l with
    | Some (p, n) => Some (c :: p, n)
    | None => if c =? FS_PATH_SEP then Some ([], l) else None
    end
  end.

Section Ramfs.
Context (fuel : nat).

Definition find_dirent (root : Z) (name : list Z) (s : ramfs) : outcome (errval * Z) :=
  if negb (de_is_dir (ent s root)) then Done (err FS_ERR_NOTDIR, 0) else
  find_loop fuel name (de_dir (ent s root)) s.

Fixpoint resolve_loop (n : nat) (root : Z) (path : list Z) (s : ramfs) : outcome (errval * Z) :=
  match n with
  | O => Fault OutOfFuel
  | S n =>
    if bool_decide (path = []) then Done (SYS_ERR_OK, root) else
    let '(name, rest) := split_sep path in
    '(e, d) ← find_dirent root name s;
    if err_is_fail e then Done (e, 0) else
    match rest with
    | None => Done (SYS_ERR_OK, d)
    | Some rest => if negb (de_is_dir (ent s d)) then Done (err FS_ERR_NOTDIR, 0) else resolve_loop n d rest s
    end
  end.

(** [ret] is the memory for the handle, if one is asked for. *)
Definition resolve_path (root : Z) (path : list Z) (ret : option Z) (s : ramfs) : outcome (errval * Z * ramfs) :=
  let path := match path with c :: l => if c =? FS_PATH_SEP then l else path | [] => path end in
  '(e, d) ← resolve_loop (S (length path)) root path s;
  if err_is_fail e then Done (e, 0, s) else
  match ret with
  | None => Done (SYS_ERR_OK, 0, s)
  | Some h =>
    let '(fh, s) := handle_open h d s in
    Done (if fh =? 0 then err LIB_ERR_MALLOC_FAIL else SYS_ERR_OK, fh, s)
  end.

(** * Operations *)

Definition ramfs_open (h : Z) (path : list Z) (s : ramfs) : outcome (errval * Z * ramfs) :=
  '(e, h, s) ← resolve_path (fs_root s) path (Some h) s;
  if err_is_fail e then Done (e, 0, s) else
  if h_isdir (hnd s h) then s ← handle_close h s; Done (err FS_ERR_NOTFILE, 0, s) else
  Done (SYS_ERR_OK, h, s).

(** The directory of a new entry: [None] stands for the root, without a
    handle. *)
Definition find_parent (hp : Z) (path : list Z) (s : ramfs) : outcome (errval * option Z * list Z * ramfs) :=
  match split_last path with
  | Some (pathbuf, childname) =>
    '(e, parent, s) ← resolve_path (fs_root s) pathbuf (Some hp) s;
    Done (e, Some parent, childname, s)
  | None => Done (SYS_ERR_OK, None, path, s)
  end.

Definition insert_child (parent : option Z) (a : Z) (s : ramfs) : outcome ramfs :=
  match parent with
  | Some p => s ← dirent_insert (h_dirent (hnd s p)) a s; handle_close p s
  | None => dirent_insert (fs_root s) a s
  end.

(** [hp] and [a] are the memory of the handle of the parent and of the entry,
    [ret] that of the handle, if one is asked for. *)
Definition ramfs_create (hp a : Z) (ret : option Z) (path : list Z) (s : ramfs) : outcome (errval * Z * ramfs) :=
  '(e, _, s) ← resolve_path (fs_root s) path None s;
  if err_is_ok e then Done (err FS_ERR_EXISTS, 0, s) else
  '(e, parent, childname, s) ← find_parent hp path s;
  if err_is_fail e then Done (e, 0, s) else
  if match parent with Some p => negb (h_isdir (hnd s p)) | None => false end then Done (err FS_ERR_NOTDIR, 0, s) else
  if a =? 0 then Done (err LIB_ERR_MALLOC_FAIL, 0, s) else
  s ← insert_child parent a (dirent_create a childname false s);
  match ret with
  | None => Done (SYS_ERR_OK, 0, s)
  | Some h =>
    let '(fh, s) := handle_open h a s in
    Done (if fh =? 0 then err LIB_ERR_MALLOC_FAIL else SYS_ERR_OK, fh, s)
  end.

Definition ramfs_remove (h : Z) (path : list Z) (s : ramfs) : outcome (errval * ramfs) :=
  '(e, h, s) ← resolve_path (fs_root s) path (Some h) s;
  if err_is_fail e then Done (e, s) else
  if h_isdir (hnd s h) then Done (err FS_ERR_NOTFILE, s) else
  let d := h_dirent (hnd s h) in
  if negb (de_refcount (ent s d) =? 1) then s ← handle_close h s; Done (err FS_ERR_BUSY, s) else
  s ← dirent_remove_and_free d s;
  Done (SYS_ERR_OK, s).

(** The number of bytes that are read, and the bytes. *)
Definition ramfs_read (h bytes : Z) (s : ramfs) : outcome (errval * list Z * ramfs) :=
  let x := hnd s h in
  let d := ent s (h_dirent x) in
  if h_isdir x then Done (err FS_ERR_NOTFILE, [], s) else
  ASSERT 0 <=? h_pos x;
  let n := if bool_decide (de_data d = None) then 0
           else if de_size d <? h_pos x then 0
           else if de_size d <? h_pos x + bytes then de_size d - h_pos x else bytes in
  let l := default [] (de_data d) in
  if (0 <? n) && (Z.of_nat (length l) <? h_pos x + n) then Fault OutOfBounds else
  Done (SYS_ERR_OK, take (Z.to_nat n) (drop (Z.to_nat (h_pos x)) l), set_hnd h (with_pos (h_pos x + n) x) s).

(** [realloc] to [n] bytes; what is new holds [junk]. *)
Definition realloc (junk : Z -> Z) (l : option (list Z)) (n : Z) : list Z :=
  let l := take (Z.to_nat n) (default [] l) in l ++ (junk <$> seqZ (Z.of_nat (length l)) (n - Z.of_nat (length l))).

(** [room] says whether [realloc] finds memory. *)
Definition ramfs_write (junk : Z -> Z) (room : bool) (h : Z) (buffer : list Z) (s : ramfs) : outcome (errval * Z * ramfs) :=
  let x := hnd s h in
  let d := ent s (h_dirent x) in
  ASSERT 0 <=? h_pos x;
  let offset := u32 (h_pos x) in
  let bytes := Z.of_nat (length buffer) in
  if h_isdir x then Done (err FS_ERR_NOTFILE, 0, s) else
  let grow := de_size d <? u32 (offset + bytes) in
  if grow && negb room then Done (err LIB_ERR_MALLOC_FAIL, 0, s) else
  let l := if grow then realloc junk (de_data d) (u32 (offset + bytes)) else default [] (de_data d) in
  if (0 <? bytes) && (Z.of_nat (length l) <? offset + bytes) then Fault OutOfBounds else
  let l := take (Z.to_nat offset) l ++ buffer ++ drop (Z.to_nat (offset + bytes)) l in
  let s := if grow || bool_decide (is_Some (de_data d)) then set_ent (h_dirent x) (with_data l (u32 (de_size d + bytes)) d) s else s in
  Done (SYS_ERR_OK, bytes, set_hnd h (with_pos (h_pos x + bytes) x) s).

Definition ramfs_truncate (junk : Z -> Z) (room : bool) (h bytes : Z) (s : ramfs) : outcome (errval * ramfs) :=
  let x := hnd s h in
  let d := ent s (h_dirent x) in
  if h_isdir x then Done (err FS_ERR_NOTFILE, s) else
  if negb room then Done (err LIB_ERR_MALLOC_FAIL, s) else
  Done (SYS_ERR_OK, set_ent (h_dirent x) (with_data (realloc junk (de_data d) bytes) bytes d) s).

(** The result is a [size_t]. *)
Definition ramfs_tell (h : Z) (s : ramfs) : Z := if h_isdir (hnd s h) then 0 else u32 (h_pos (hnd s h)).

(** The type and the size. *)
Definition ramfs_stat (h : Z) (s : ramfs) : bool * Z := (h_isdir (hnd s h), de_size (ent s (h_dirent (hnd s h)))).

Inductive fs_seekpos := FS_SEEK_SET | FS_SEEK_CUR | FS_SEEK_END.

Fixpoint seek_dir (n : nat) (d : Z) (s : ramfs) : Z :=
  match n with O => d | S n => if d =? 0 then d else seek_dir n (nxt (elinks s) d) s end.

(** A directory is positioned in the list of its parent. *)
Definition ramfs_seek (h : Z) (whence : fs_seekpos) (offset : Z) (s : ramfs) : outcome ramfs :=
  let x := hnd s h in
  match whence with
  | FS_SEEK_SET =>
    ASSERT 0 <=? offset;
    if h_isdir x then
      _ ← nonnull (de_parent (ent s (h_dirent x)));
      Done (set_hnd h (with_pos (seek_dir (Z.to_nat offset) (de_dir (ent s (de_parent (ent s (h_dirent x))))) s) x) s)
    else Done (set_hnd h (with_pos offset x) s)
  | FS_SEEK_CUR =>
    if h_isdir x then Fault AssertionFailed else
    ASSERT (0 <=? offset) || (- offset <=? h_pos x);
    Done (set_hnd h (with_pos (h_pos x + offset) x) s)
  | FS_SEEK_END =>
    if h_isdir x then Fault AssertionFailed else
    let '(_, size) := ramfs_stat h s in
    ASSERT (0 <=? offset) || (- offset <=? size);
    Done (set_hnd h (with_pos (size + offset) x) s)
  end.

Definition ramfs_close (h : Z) (s : ramfs) : outcome (errval * ramfs) :=
  if h_isdir (hnd s h) then Done (err FS_ERR_NOTFILE, s) else
  s ← handle_close h s; Done (SYS_ERR_OK, s).

Definition ramfs_opendir (h : Z) (path : list Z) (s : ramfs) : outcome (errval * Z * ramfs) :=
  '(e, h, s) ← resolve_path (fs_root s) path (Some h) s;
  if err_is_fail e then Done (e, 0, s) else
  if negb (h_isdir (hnd s h)) then s ← handle_close h s; Done (err FS_ERR_NOTDIR, 0, s) else
  Done (SYS_ERR_OK, h, set_hnd h (with_pos (de_dir (ent s (h_dirent (hnd s h)))) (hnd s h)) s).

(** The name, the type and the size of the next entry. *)
Definition ramfs_dir_read_next (h : Z) (s : ramfs) : errval * option (list Z * bool * Z) * ramfs :=
  let x := hnd s h in
  if negb (h_isdir x) then (err FS_ERR_NOTDIR, None, s) else
  if h_pos x =? 0 then (err FS_ERR_INDEX_BOUNDS, None, s) else
  let d := ent s (h_pos x) in
  (SYS_ERR_OK, Some (de_name d, de_is_dir d, de_size d), set_hnd h (with_pos (nxt (elinks s) (h_pos x)) x) s).

(** The handle is freed, and the count of the entry stays as it is. *)
Definition ramfs_closedir (h : Z) (s : ramfs) : errval := if negb (h_isdir (hnd s h)) then err FS_ERR_NOTDIR else SYS_ERR_OK.

Definition ramfs_mkdir (hp a : Z) (path : list Z) (s : ramfs) : outcome (errval * ramfs) :=
  '(e, _, s) ← resolve_path (fs_root s) path None s;
  if err_is_ok e then Done (err FS_ERR_EXISTS, s) else
  '(e, parent, childname, s) ← find_parent hp path s;
  if err_is_fail e then s ← handle_close (default 0 parent) s; Done (e, s) else
  if match parent with Some p => negb (h_isdir (hnd s p)) | None => false end then
    s ← handle_close (default 0 parent) s; Done (err FS_ERR_NOTDIR, s)
  else
  if a =? 0 then Done (err LIB_ERR_MALLOC_FAIL, s) else
  s ← insert_child parent a (dirent_create a childname true s);
  Done (SYS_ERR_OK, s).

Definition ramfs_rmdir (h : Z) (path : list Z) (s : ramfs) : outcome (errval * ramfs) :=
  '(e, h, s) ← resolve_path (fs_root s) path (Some h) s;
  if err_is_fail e then Done (e, s) else
  if negb (h_isdir (hnd s h)) then Done (e, s) else
  let d := h_dirent (hnd s h) in
  if negb (de_refcount (ent s d) =? 1) then s ← handle_close h s; Done (err FS_ERR_BUSY, s) else
  ASSERT de_is_dir (ent s d);
  if negb (de_dir (ent s d) =? 0) then Done (err FS_ERR_NOTEMPTY, s) else
  s ← dirent_remove_and_free d s;
  Done (e, s).
End Ramfs.

(** [a] is the memory of the root. *)
Definition ramfs_mount (a : Z) (s : ramfs) : errval * ramfs :=
  if a =? 0 then (err LIB_ERR_MALLOC_FAIL, s) else
  let s := set_ent a (Dirent [FS_PATH_SEP] 0 0 0 true None 0) (set_elinks (set_nxt a 0 (set_prv a 0 (elinks s))) s) in
  (SYS_ERR_OK, Ramfs (elinks s) (ent s) (hnd s) a).
