(* ===== verification/RamfsTree.v ===== *)
(** The entries of Ramfs.v in memory are a tree of names: paths, lookup, and
    what a new and a removed entry do to the finite map from paths that the
    tree stands for. *)
From S2P Require Import Prelude Ring Chain Ramfs.

(** * The tree in memory *)

(** [D] gives the entries of each directory. *)
Record tree (D : gmap Z (list Z)) (s : ramfs) : Prop := {
  t_root : is_Some (D !! fs_root s);
  t_top : de_parent (ent s (fs_root s)) = 0;
  t_dir : forall a l, D !! a = Some l -> a <> 0 /\ de_is_dir (ent s a) = true /\ dlist (elinks s) (de_dir (ent s a)) l /\ NoDup ((fun c => de_name (ent s c)) <$> l);
  t_kid : forall a l c, D !! a = Some l -> c ∈ l -> de_parent (ent s c) = a /\ (de_is_dir (ent s c) = true <-> is_Some (D !! c))
}.

(** The entry with a name in a directory, and at a path. *)
Definition child (D : gmap Z (list Z)) (s : ramfs) (a : Z) (n : list Z) : option Z :=
  l ← D !! a; head (filter (fun c => de_name (ent s c) = n) l).
Definition walk (D : gmap Z (list Z)) (s : ramfs) (p : list (list Z)) : option Z :=
  foldl (fun o n => a ← o; child D s a n) (Some (fs_root s)) p.

Lemma walk_snoc D s p n : walk D s (p ++ [n]) = a ← walk D s p; child D s a n.
Proof. unfold walk. by rewrite foldl_app. Qed.
Lemma walk_none D s p q : walk D s p = None -> walk D s (p ++ q) = None.
Proof. unfold walk. rewrite foldl_app. intros ->. by induction q. Qed.

Lemma head_filter_elem {A} (P : A -> Prop) `{forall x, Decision (P x)} l x : head (filter P l) = Some x -> x ∈ l /\ P x.
Proof. intros Hh. assert (x ∈ filter P l) as [? ?]%list_elem_of_filter by (destruct (filter P l); [done|injection Hh as ->; left]). done. Qed.

Lemma child_elem D s a n c : child D s a n = Some c -> exists l, D !! a = Some l /\ c ∈ l /\ de_name (ent s c) = n.
Proof. unfold child. destruct (D !! a) as [l|] eqn:E; [|done]. cbn. intros [Hc Hn]%head_filter_elem. by exists l. Qed.

Section Tree.
Context (D : gmap Z (list Z)) (s : ramfs) (HT : tree D s).

Lemma child_parent a n c : child D s a n = Some c -> de_parent (ent s c) = a /\ a <> 0 /\ c <> 0 /\ de_name (ent s c) = n.
Proof.
  intros (l & Hl & Hc & Hn)%child_elem. destruct (t_dir _ _ HT a l Hl) as (Ha & _ & Hd & _). destruct (t_kid _ _ HT a l c Hl Hc) as [Hp _]. split_and!; [done|done| |done].
  intros ->. by apply (dlist_nonnull _ _ _ Hd).
Qed.

(** A child of a directory is found by its name. *)
Lemma child_of a l c : D !! a = Some l -> c ∈ l -> child D s a (de_name (ent s c)) = Some c.
Proof.
  intros Hl Hc. unfold child. rewrite Hl. cbn. destruct (t_dir _ _ HT a l Hl) as (_ & _ & _ & Hn). clear Hl. induction l as [|b l IH]; [by apply elem_of_nil in Hc|].
  apply NoDup_cons in Hn as [Hb Hn]. destruct (decide (de_name (ent s b) = de_name (ent s c))) as [E|E].
  - rewrite filter_cons_True by done. apply elem_of_cons in Hc as [->|Hc]; [done|]. destruct Hb. rewrite E. by apply (list_elem_of_fmap_2 (fun c => de_name (ent s c))).
  - rewrite filter_cons_False by done. apply elem_of_cons in Hc as [->|Hc]; [done|]. by apply IH.
Qed.

(** An entry has one path. *)
Lemma walk_inj p q a : walk D s p = Some a -> walk D s q = Some a -> p = q.
Proof.
  revert q a. induction p as [|n p IH] using rev_ind; intros q a Hp Hq.
  - cbn in Hp. injection Hp as <-. destruct q as [|m q _] using rev_ind; [done|]. rewrite walk_snoc in Hq. destruct (walk D s q) as [b|]; [|done]. apply child_parent in Hq as (Hb & Hz & _). by rewrite (t_top _ _ HT) in Hb.
  - rewrite walk_snoc in Hp. destruct (walk D s p) as [b|] eqn:Eb; [|done]. cbn in Hp. destruct (child_parent _ _ _ Hp) as (Hpb & Hb0 & _ & Hn).
    destruct q as [|m q _] using rev_ind; [cbn in Hq; injection Hq as <-; by rewrite (t_top _ _ HT) in Hpb|].
    rewrite walk_snoc in Hq. destruct (walk D s q) as [b'|] eqn:Eb'; [|done]. cbn in Hq. destruct (child_parent _ _ _ Hq) as (Hpb' & _ & _ & Hm). assert (b' = b) as -> by congruence. rewrite (IH q b eq_refl Eb'). congruence.
Qed.

Lemma walk_dir p a : walk D s p = Some a -> de_is_dir (ent s a) = true <-> is_Some (D !! a).
Proof.
  destruct p as [|n p _] using rev_ind; cbn.
  - intros [= <-]. pose proof (t_root _ _ HT) as Hr. split; [done|]. intros [l Hl]. by apply (t_dir _ _ HT _ _ Hl).
  - rewrite walk_snoc. destruct (walk D s p) as [b|]; [|done]. intros (l & Hl & Hc & _)%child_elem. by apply (t_kid _ _ HT b l).
Qed.

Lemma walk_nonnull p a : walk D s p = Some a -> a <> 0.
Proof.
  destruct p as [|n p _] using rev_ind; cbn.
  - intros [= <-]. destruct (t_root _ _ HT) as [l Hl]. by apply (t_dir _ _ HT _ _ Hl).
  - rewrite walk_snoc. destruct (walk D s p) as [b|]; [|done]. intros Hc%child_parent. by destruct_and!.
Qed.

(** Below a file there is nothing. *)
Lemma child_file p a n : walk D s p = Some a -> de_is_dir (ent s a) = false -> child D s a n = None.
Proof. intros Hp Hd. unfold child. destruct (D !! a) eqn:E; [|done]. assert (de_is_dir (ent s a) = true) by (apply (walk_dir p a Hp); by eexists). congruence. Qed.
End Tree.

(** * Paths *)

Definition wfn (n : list Z) : Prop := n <> [] /\ FS_PATH_SEP ∉ n.

Fixpoint join (p : list (list Z)) : list Z :=
  match p with [] => [] | [n] => n | n :: p => n ++ FS_PATH_SEP :: join p end.

(** The path of names, from the root if it starts with a separator. *)
Definition path_str (slash : bool) (p : list (list Z)) : list Z := (if slash then [FS_PATH_SEP] else []) ++ join p.

Lemma split_sep_name n : FS_PATH_SEP ∉ n -> split_sep n = (n, None).
Proof. induction n as [|c n IH]; [done|]. intros [Hc Hn]%not_elem_of_cons. cbn. destruct (Z.eqb_spec c FS_PATH_SEP); [congruence|]. by rewrite IH. Qed.
Lemma split_sep_app n r : FS_PATH_SEP ∉ n -> split_sep (n ++ FS_PATH_SEP :: r) = (n, Some r).
Proof. induction n as [|c n IH]; [done|]. intros [Hc Hn]%not_elem_of_cons. cbn [app split_sep]. destruct (Z.eqb_spec c FS_PATH_SEP); [congruence|]. by rewrite IH. Qed.
Lemma split_last_none n : FS_PATH_SEP ∉ n -> split_last n = None.
Proof. induction n as [|c n IH]; [done|]. intros [Hc Hn]%not_elem_of_cons. cbn. rewrite IH by done. destruct (Z.eqb_spec c FS_PATH_SEP); congruence. Qed.
Lemma split_last_app l n : FS_PATH_SEP ∉ n -> split_last (l ++ FS_PATH_SEP :: n) = Some (l, n).
Proof. intros Hn. induction l as [|c l IH]; cbn [app split_last]; [by rewrite split_last_none|]. by rewrite IH. Qed.

Lemma join_cons n m p : join (n :: m :: p) = n ++ FS_PATH_SEP :: join (m :: p).
Proof. done. Qed.
Lemma join_snoc n p : p <> [] -> join (p ++ [n]) = join p ++ FS_PATH_SEP :: n.
Proof.
  induction p as [|m p IH]; [done|]. intros _. destruct p as [|k p]; [done|]. change (join ((m :: k :: p) ++ [n])) with (m ++ FS_PATH_SEP :: join ((k :: p) ++ [n])). rewrite IH by done. rewrite join_cons, <- app_assoc. done.
Qed.
Lemma join_head p : Forall wfn p -> p <> [] -> exists c l, join p = c :: l /\ c <> FS_PATH_SEP.
Proof.
  destruct p as [|n p]; [done|]. intros [[Hn Hs] _]%Forall_cons _. destruct n as [|c n]; [done|]. apply not_elem_of_cons in Hs as [Hc _]. destruct p as [|m p]; [by exists c, n|]. rewrite join_cons. cbn. by eexists _, _.
Qed.

(** The leading separator is skipped. *)
Lemma skip_sep slash p : Forall wfn p -> match path_str slash p with c :: l => if c =? FS_PATH_SEP then l else path_str slash p | [] => path_str slash p end = join p.
Proof.
  intros Hp. unfold path_str. destruct slash; cbn [app]; [done|]. destruct (decide (p = [])) as [->|Hne]; [done|]. destruct (join_head p Hp Hne) as (c & l & -> & Hc). by destruct (Z.eqb_spec c FS_PATH_SEP).
Qed.

(** * Lookup *)

Section Lookup.
Context (D : gmap Z (list Z)) (s : ramfs) (HT : tree D s) (fuel : nat).
Hypothesis Hfuel : map_Forall (fun _ l => (length l < fuel)%nat) D.

Lemma find_loop_kids n l : forall f p h, seg (elinks s) p h l 0 -> (length l < f)%nat ->
  find_loop f n h s = Done (match head (filter (fun c => de_name (ent s c) = n) l) with Some c => (SYS_ERR_OK, c) | None => (err FS_ERR_NOTFOUND, 0) end).
Proof.
  induction l as [|a l IH]; intros [|f] p h Hs Hf; try (cbn in Hf; lia); cbn [find_loop].
  - by rewrite Hs.
  - destruct Hs as (-> & Ha & _ & Hs). destruct (Z.eqb_spec a 0); [done|]. case_bool_decide as E.
    + by rewrite filter_cons_True.
    + rewrite filter_cons_False by done. eapply IH; [done|]. cbn in Hf. lia.
Qed.

Lemma find_dirent_spec a n : is_Some (D !! a) -> find_dirent fuel a n s = Done (match child D s a n with Some c => (SYS_ERR_OK, c) | None => (err FS_ERR_NOTFOUND, 0) end).
Proof.
  intros [l Hl]. destruct (t_dir _ _ HT a l Hl) as (_ & Hd & Hk & _). unfold find_dirent, child. rewrite Hd, Hl. cbn [negb mbind option_bind]. apply (find_loop_kids n l fuel 0); [apply Hk|]. by apply (Hfuel a).
Qed.

(** What the walk along a path gives. *)
Fixpoint resolve (a : Z) (p : list (list Z)) : errval * Z :=
  match p with
  | [] => (SYS_ERR_OK, a)
  | n :: p =>
    match child D s a n with
    | None => (err FS_ERR_NOTFOUND, 0)
    | Some c => if bool_decide (p = []) then (SYS_ERR_OK, c) else if de_is_dir (ent s c) then resolve c p else (err FS_ERR_NOTDIR, 0)
    end
  end.

Lemma resolve_loop_spec p : Forall wfn p -> forall k a, is_Some (D !! a) -> (length (join p) < k)%nat -> resolve_loop fuel k a (join p) s = Done (resolve a p).
Proof.
  induction p as [|n p IH]; intros Hp [|k] a Ha Hk; try lia; cbn [resolve_loop]; [by rewrite bool_decide_true|].
  pose proof (join_head (n :: p) Hp ltac:(done)) as (c & l & Ej & _). rewrite bool_decide_false by (by rewrite Ej). apply Forall_cons in Hp as [[Hn Hs] Hp].
  destruct p as [|m p].
  - cbn [join]. rewrite split_sep_name by done. rewrite find_dirent_spec by done. cbn [mbind outcome_bind resolve]. destruct (child D s a n) as [c'|]; [|done]. by rewrite bool_decide_true.
  - rewrite join_cons, split_sep_app by done. rewrite find_dirent_spec by done. cbn [mbind outcome_bind]. change (resolve a (n :: m :: p)) with (match child D s a n with None => (err FS_ERR_NOTFOUND, 0) | Some c => if bool_decide (m :: p = []) then (SYS_ERR_OK, c) else if de_is_dir (ent s c) then resolve c (m :: p) else (err FS_ERR_NOTDIR, 0) end).
    destruct (child D s a n) as [c'|] eqn:Ec; [|done]. rewrite bool_decide_false by done. cbn [err_is_fail]. destruct (de_is_dir (ent s c')) eqn:Ed; cbn [negb]; [|done].
    apply IH; [done| |rewrite join_cons, length_app in Hk; cbn in Hk |- *; lia]. apply child_elem in Ec as (l' & Hl' & Hc' & _). by apply (t_kid _ _ HT a l').
Qed.
End Lookup.

(** * The tree as a finite map *)

(** Whether the entry at a path is a directory, and its count. *)
Abbreviation fsmap := (gmap (list (list Z)) (bool * Z)).

Definition abs (D : gmap Z (list Z)) (s : ramfs) (f : fsmap) : Prop :=
  forall p, f !! p = (fun a => (de_is_dir (ent s a), de_refcount (ent s a))) <$> walk D s p.

(** The error for a path that does not exist. *)
Fixpoint lookup_err (f : fsmap) (pre p : list (list Z)) : errval :=
  match p with
  | [] => err FS_ERR_NOTFOUND
  | n :: p =>
    match f !! (pre ++ [n]) with
    | None => err FS_ERR_NOTFOUND
    | Some (true, _) => lookup_err f (pre ++ [n]) p
    | Some (false, _) => err FS_ERR_NOTDIR
    end
  end.

Lemma lookup_err_fail f p : forall pre, err_is_fail (lookup_err f pre p) = true.
Proof. induction p as [|n p IH]; intros pre; [done|]. cbn. destruct (f !! _) as [[[] ?]|]; [apply IH|done|done]. Qed.

Lemma resolve_abs D s f p : tree D s -> abs D s f -> forall pre a, walk D s pre = Some a -> is_Some (D !! a) ->
  resolve D s a p = match walk D s (pre ++ p) with Some c => (SYS_ERR_OK, c) | None => (lookup_err f pre p, 0) end.
Proof.
  intros HT Hf. induction p as [|n p IH]; intros pre a Hw Ha; cbn [resolve lookup_err]; [by rewrite app_nil_r, Hw|].
  pose proof (walk_snoc D s pre n) as Es. rewrite Hw in Es. cbn in Es. rewrite (Hf (pre ++ [n])), Es. rewrite cons_middle, app_assoc. destruct (child D s a n) as [c|] eqn:Ec; [|by rewrite walk_none].
  cbn [fmap option_fmap option_map]. destruct (decide (p = [])) as [->|Hp]; [rewrite bool_decide_true by done; by rewrite app_nil_r, Es|]. rewrite bool_decide_false by done.
  destruct (de_is_dir (ent s c)) eqn:Ed; [apply IH; [done|]; by apply (walk_dir D s HT (pre ++ [n]))|].
  assert (walk D s ((pre ++ [n]) ++ p) = None) as ->; [|done]. destruct p as [|m p]; [done|]. rewrite (cons_middle m), app_assoc. apply walk_none. rewrite walk_snoc, Es. cbn. by apply (child_file D s HT (pre ++ [n])).
Qed.

(** Looking up a path, with a handle if one is asked for. *)
Lemma resolve_path_run D s f fuel slash p ret : tree D s -> abs D s f -> map_Forall (fun _ l => (length l < fuel)%nat) D -> Forall wfn p ->
  resolve_path fuel (fs_root s) (path_str slash p) ret s =
  Done match walk D s p with
       | None => (lookup_err f [] p, 0, s)
       | Some a => match ret with
                   | None => (SYS_ERR_OK, 0, s)
                   | Some h => let '(fh, s) := handle_open h a s in (if fh =? 0 then err LIB_ERR_MALLOC_FAIL else SYS_ERR_OK, fh, s)
                   end
       end.
Proof.
  intros HT Hf Hfu Hp. unfold resolve_path. rewrite skip_sep by done. rewrite (resolve_loop_spec D s HT fuel Hfu p Hp) by (lia || apply (t_root _ _ HT)). cbn [mbind outcome_bind].
  rewrite (resolve_abs D s f p HT Hf [] (fs_root s)) by (done || apply (t_root _ _ HT)). cbn [app]. destruct (walk D s p) as [a|]; [|by rewrite lookup_err_fail]. cbn [err_is_fail]. destruct ret as [h|]; [|done]. by destruct (handle_open h a s).
Qed.

(** ** Changes that keep the shape *)

Definition same_shape (s s' : ramfs) : Prop := elinks s' = elinks s /\ fs_root s' = fs_root s /\
  forall a, de_name (ent s' a) = de_name (ent s a) /\ de_parent (ent s' a) = de_parent (ent s a) /\ de_is_dir (ent s' a) = de_is_dir (ent s a) /\ de_dir (ent s' a) = de_dir (ent s a).

Lemma fmap_names s s' (l : list Z) : (forall a, a ∈ l -> de_name (ent s' a) = de_name (ent s a)) -> (fun c => de_name (ent s' c)) <$> l = (fun c => de_name (ent s c)) <$> l.
Proof. intros Hx. apply list_fmap_ext. intros i a Ha. apply Hx. by eapply list_elem_of_lookup_2. Qed.

Lemma filter_names s s' n (l : list Z) : (forall a, a ∈ l -> de_name (ent s' a) = de_name (ent s a)) -> filter (fun c => de_name (ent s' c) = n) l = filter (fun c => de_name (ent s c) = n) l.
Proof.
  induction l as [|a l IH]; [done|]. intros Hx. rewrite !filter_cons, (Hx a ltac:(left)), IH; [done|]. intros b Hb. apply Hx. by right.
Qed.

Lemma shape_tree D s s' : same_shape s s' -> tree D s -> tree D s'.
Proof.
  intros (Ek & Er & Ea) [T1 T2 T3 T4]. constructor.
  - by rewrite Er.
  - destruct (Ea (fs_root s)) as (_ & E & _). by rewrite Er, E.
  - intros a l Hl. destruct (T3 a l Hl) as (H1 & H2 & H3 & H4), (Ea a) as (_ & _ & E3 & E4). rewrite E3, E4, Ek. split_and!; [done..|]. rewrite (fmap_names s); [done|]. intros b _. by destruct (Ea b).
  - intros a l c Hl Hc. destruct (Ea c) as (_ & -> & -> & _). by apply (T4 a l).
Qed.

Lemma shape_walk D s s' p : same_shape s s' -> walk D s' p = walk D s p.
Proof.
  intros (Ek & Er & Ea). induction p as [|n p IH] using rev_ind; [cbn; by rewrite Er|]. rewrite !walk_snoc, IH. destruct (walk D s p) as [a|]; [|done]. cbn. unfold child. destruct (D !! a) as [l|]; [|done]. cbn. rewrite (filter_names s s'); [done|]. intros b _. by destruct (Ea b).
Qed.

Lemma shape_refcount a r s : same_shape s (set_ent a (with_refcount r (ent s a)) s).
Proof. split; [done|]. split; [done|]. intros b. cbn. destruct (decide (b = a)) as [->|Hb]; [by rewrite fn_lookup_insert|by rewrite fn_lookup_insert_ne]. Qed.

(** Another count for the entry at a path. *)
Definition recount (r : Z) (p : list (list Z)) (f : fsmap) : fsmap := alter (fun x : bool * Z => (x.1, r)) p f.

Lemma refcount_abs D s f p a r : tree D s -> abs D s f -> walk D s p = Some a -> tree D (set_ent a (with_refcount r (ent s a)) s) /\ abs D (set_ent a (with_refcount r (ent s a)) s) (recount r p f).
Proof.
  intros HT Hf Hp. pose proof (shape_refcount a r s) as Hs. split; [by eapply shape_tree|]. intros q. rewrite (shape_walk _ _ _ q Hs). unfold recount. destruct (decide (q = p)) as [->|Hq].
  - rewrite lookup_alter_eq, (Hf p), Hp. cbn. by rewrite fn_lookup_insert.
  - rewrite lookup_alter_ne by done. rewrite (Hf q). destruct (walk D s q) as [b|] eqn:Eq; [|done]. cbn. rewrite fn_lookup_insert_ne; [done|]. intros ->. apply Hq. by eapply walk_inj.
Qed.

(** ** A new entry *)

Definition fresh (D : gmap Z (list Z)) (a : Z) : Prop := a <> 0 /\ D !! a = None /\ forall b l, D !! b = Some l -> a ∉ l.

Lemma fresh_walk D s a q x : tree D s -> fresh D a -> walk D s q = Some x -> x <> a.
Proof.
  intros HT (_ & HD & Hf) Ex ->. destruct q as [|k q _] using rev_ind; [cbn in Ex; injection Ex as Ex; destruct (t_root _ _ HT); congruence|].
  rewrite walk_snoc in Ex. destruct (walk D s q) as [y|]; [|done]. apply child_elem in Ex as (z & Hz & Hc & _). by apply (Hf y z).
Qed.

(** The state after the entry [a] was put into the directory [b], which held
    [l]. *)
Record inserted (a b : Z) (n : list Z) (d : bool) (l : list Z) (s s' : ramfs) : Prop := {
  in_root : fs_root s' = fs_root s;
  in_hnd : hnd s' = hnd s;
  in_new : ent s' a = Dirent n 0 0 b d None 0;
  in_dir : ent s' b = with_dir a (ent s b);
  in_ent : forall c, c <> a -> c <> b -> ent s' c = ent s c;
  in_list : dlist (elinks s') a (a :: l);
  in_links : forall c, c <> a -> c ∉ l -> nxt (elinks s') c = nxt (elinks s) c /\ prv (elinks s') c = prv (elinks s) c
}.

Lemma insert_run D s a b n d l : tree D s -> fresh D a -> D !! b = Some l -> exists s', dirent_insert b a (dirent_create a n d s) = Done s' /\ inserted a b n d l s s'.
Proof.
  intros HT (Ha0 & HaD & Hal) Hb. destruct (t_dir _ _ HT b l Hb) as (Hb0 & Hd & Hk & _). assert (a <> b) as Hab by congruence. specialize (Hal b l Hb).
  unfold dirent_insert, dirent_create. cbn [ent set_ent elinks set_elinks]. rewrite !(fn_lookup_insert_ne _ a b) by done. rewrite Hd. destruct (Z.eqb_spec b 0); [done|]. cbn [negb assert mbind outcome_bind]. rewrite !fn_lookup_insert. cbn [with_parent de_name de_size de_refcount de_is_dir de_data de_dir].
  eexists. split; [done|]. set (h := de_dir (ent s b)) in *. pose proof (dlist_head _ _ _ Hk) as Hh.
  assert (forall c, c <> a -> c <> h -> prv (set_prv h a (set_nxt a h (set_nxt a 0 (set_prv a 0 (set_nxt a 0 (set_prv a 0 (elinks s))))))) c = prv (elinks s) c) as Hprv by (intros c H1 H2; cbn; by rewrite !fn_lookup_insert_ne).
  assert (forall c, c <> a -> nxt (set_prv h a (set_nxt a h (set_nxt a 0 (set_prv a 0 (set_nxt a 0 (set_prv a 0 (elinks s))))))) c = nxt (elinks s) c) as Hnxt by (intros c H1; cbn; by rewrite !fn_lookup_insert_ne).
  destruct (Z.eqb_spec h 0) as [Hz|Hz]; constructor; cbn [fs_root hnd ent elinks set_ent set_elinks]; try done.
  - rewrite fn_lookup_insert_ne, fn_lookup_insert by done. done.
  - rewrite fn_lookup_insert, !fn_lookup_insert_ne by done. done.
  - intros c H1 H2. by rewrite !fn_lookup_insert_ne.
  - destruct l as [|x l]; [|cbn in Hh; subst x; destruct (dlist_nonnull _ _ _ Hk); rewrite <- Hz; left]. split; [|apply NoDup_singleton]. cbn. rewrite !fn_lookup_insert. done.
  - intros c H1 _. cbn. by rewrite !fn_lookup_insert_ne.
  - rewrite fn_lookup_insert_ne, fn_lookup_insert by done. done.
  - rewrite fn_lookup_insert, !fn_lookup_insert_ne by done. done.
  - intros c H1 H2. by rewrite !fn_lookup_insert_ne.
  - destruct l as [|x l]; [done|]. cbn in Hh. assert (h <> a) as Hha. { intros E. apply Hal. rewrite <- E, Hh. left. }
    apply (dlist_link (elinks s) h [] a (x :: l)); [done|done|done|]. constructor; cbn [app last_or last default head].
    + cbn. rewrite fn_lookup_insert. done.
    + cbn. rewrite fn_lookup_insert_ne, !fn_lookup_insert by done. done.
    + done.
    + intros _. cbn. rewrite <- Hh. by rewrite fn_lookup_insert.
    + intros c Hc _. apply Hnxt. congruence.
    + intros c Hc Hch. apply Hprv; [congruence|]. cbn in Hch. congruence.
  - intros c H1 H2. split; [by apply Hnxt|]. apply Hprv; [done|]. intros ->. apply H2. rewrite Hh. apply head_in. intros ->. cbn in Hh. done.
Qed.

Definition add_entry (a b : Z) (d : bool) (l : list Z) (D : gmap Z (list Z)) : gmap Z (list Z) := let D := <[b := a :: l]> D in if d then <[a := []]> D else D.

Lemma add_lookup a b d l D x : a <> b -> add_entry a b d l D !! x = if decide (x = a) then (if d then Some [] else D !! a) else if decide (x = b) then Some (a :: l) else D !! x.
Proof.
  intros Hab. unfold add_entry. destruct d.
  - destruct (decide (x = a)) as [->|Hx]; [by rewrite lookup_insert_eq|]. rewrite lookup_insert_ne by done. destruct (decide (x = b)) as [->|]; [by rewrite lookup_insert_eq|by rewrite lookup_insert_ne].
  - destruct (decide (x = a)) as [->|Hx]; [by rewrite lookup_insert_ne|]. destruct (decide (x = b)) as [->|]; [by rewrite lookup_insert_eq|by rewrite lookup_insert_ne].
Qed.

Section Insert.
Context (D : gmap Z (list Z)) (s s' : ramfs) (a b : Z) (n : list Z) (d : bool) (l : list Z) (p : list (list Z)).
Hypothesis (HT : tree D s) (Hfr : fresh D a) (Hb : D !! b = Some l) (Hin : inserted a b n d l s s') (Hno : child D s b n = None).

Lemma insert_ne : a <> b.
Proof. destruct Hfr as (_ & Hx & _). congruence. Qed.

(** Entries of a directory other than [a] keep their fields. *)
Lemma insert_old x k c : D !! x = Some k -> c ∈ k -> c <> a /\ de_name (ent s' c) = de_name (ent s c) /\ de_parent (ent s' c) = de_parent (ent s c) /\ de_is_dir (ent s' c) = de_is_dir (ent s c).
Proof.
  intros Hx Hc. destruct Hfr as (_ & _ & Hf). assert (c <> a) as Hca by (intros ->; by apply (Hf x k)). split; [done|]. destruct (decide (c = b)) as [->|Hcb]; [by rewrite (in_dir _ _ _ _ _ _ _ Hin)|by rewrite (in_ent _ _ _ _ _ _ _ Hin)].
Qed.

Lemma insert_name_new : n ∉ ((fun c => de_name (ent s c)) <$> l).
Proof.
  intros (c & -> & Hc)%list_elem_of_fmap. rewrite (child_of D s HT b l c Hb Hc) in Hno. done.
Qed.

Lemma insert_tree : tree (add_entry a b d l D) s'.
Proof.
  pose proof insert_ne as Hab. destruct Hfr as (Ha0 & HaD & Hf). constructor.
  - rewrite (in_root _ _ _ _ _ _ _ Hin), add_lookup by done. destruct (t_root _ _ HT) as [k Hk]. rewrite decide_False by congruence. destruct (decide _); [by eexists|by rewrite Hk].
  - rewrite (in_root _ _ _ _ _ _ _ Hin). destruct (t_root _ _ HT) as [k Hk]. destruct (decide (fs_root s = b)) as [E|E]; [rewrite E, (in_dir _ _ _ _ _ _ _ Hin); cbn; rewrite <- E; apply (t_top _ _ HT)|]. rewrite (in_ent _ _ _ _ _ _ _ Hin) by congruence. apply (t_top _ _ HT).
  - intros x k. rewrite add_lookup by done. destruct (decide (x = a)) as [->|Hxa]; [|destruct (decide (x = b)) as [->|Hxb]].
    + destruct d; [|congruence]. intros [= <-]. rewrite (in_new _ _ _ _ _ _ _ Hin). split_and!; [done|done|by apply dlist_empty|constructor].
    + intros [= <-]. destruct (t_dir _ _ HT b l Hb) as (Hb0 & Hd & _ & Hnd). rewrite (in_dir _ _ _ _ _ _ _ Hin). cbn [de_is_dir de_dir with_dir]. split_and!; [done|done|apply Hin|]. cbn [fmap list_fmap]. rewrite (fmap_names s) by (intros c Hc; by apply (insert_old b l)). rewrite (in_new _ _ _ _ _ _ _ Hin). constructor; [apply insert_name_new|done].
    + intros Hk. destruct (t_dir _ _ HT x k Hk) as (Hx0 & Hd & Hdl & Hnd). rewrite (in_ent _ _ _ _ _ _ _ Hin) by done. split_and!; [done|done| |rewrite (fmap_names s) by (intros c Hc; by apply (insert_old x k)); done].
      eapply dlist_frame; [exact Hdl|]. intros c Hc. apply (in_links _ _ _ _ _ _ _ Hin); [by intros ->; apply (Hf x k)|]. intros Hcl. apply Hxb. destruct (t_kid _ _ HT x k c Hk Hc) as [<- _], (t_kid _ _ HT b l c Hb Hcl) as [<- _]. done.
  - intros x k c. rewrite add_lookup by done. destruct (decide (x = a)) as [->|Hxa]; [destruct d; [|congruence]; intros [= <-] ?%elem_of_nil; done|].
    assert (c <> a -> is_Some (add_entry a b d l D !! c) <-> is_Some (D !! c)) as Hdom. { intros Hca. rewrite add_lookup, decide_False by done. destruct (decide (c = b)) as [->|]; [|done]. rewrite Hb. split; intros _; by eexists. }
    destruct (decide (x = b)) as [->|Hxb].
    + intros [= <-] [->|Hc]%elem_of_cons.
      * rewrite (in_new _ _ _ _ _ _ _ Hin). cbn. split; [done|]. rewrite add_lookup, decide_True by done. destruct d; split; [by eexists|done|done|]. rewrite HaD. by intros [? ?].
      * destruct (insert_old b l c Hb Hc) as (Hca & _ & -> & ->). rewrite (Hdom Hca). by apply (t_kid _ _ HT b l).
    + intros Hk Hc. destruct (insert_old x k c Hk Hc) as (Hca & _ & -> & ->). rewrite (Hdom Hca). by apply (t_kid _ _ HT x k).
Qed.

Lemma insert_child_eq x m : x <> a -> child (add_entry a b d l D) s' x m = if decide (x = b /\ m = n) then Some a else child D s x m.
Proof.
  intros Hxa. pose proof insert_ne as Hab. unfold child. rewrite add_lookup, decide_False by done. destruct (decide (x = b)) as [->|Hxb].
  - rewrite Hb. cbn [mbind option_bind]. destruct (decide (m = n)) as [->|Hm].
    + rewrite decide_True by done. by rewrite filter_cons_True by (by rewrite (in_new _ _ _ _ _ _ _ Hin)).
    + rewrite decide_False by tauto. rewrite filter_cons_False by (rewrite (in_new _ _ _ _ _ _ _ Hin); cbn; congruence). by rewrite (filter_names s) by (intros c Hc; by apply (insert_old b l)).
  - rewrite decide_False by tauto. destruct (D !! x) as [k|] eqn:Hk; [|done]. cbn. by rewrite (filter_names s) by (intros c Hc; by apply (insert_old x k)).
Qed.

Lemma insert_child_new m : child (add_entry a b d l D) s' a m = None.
Proof. unfold child. rewrite add_lookup, decide_True by (done || apply insert_ne). destruct Hfr as (_ & -> & _). by destruct d. Qed.

Lemma insert_walk q : walk D s p = Some b -> walk (add_entry a b d l D) s' q = if decide (q = p ++ [n]) then Some a else walk D s q.
Proof.
  intros Hp. induction q as [|m q IH] using rev_ind.
  - rewrite decide_False by (intros E; by apply app_cons_not_nil in E). cbn. by rewrite (in_root _ _ _ _ _ _ _ Hin).
  - rewrite !walk_snoc, IH. destruct (decide (q = p ++ [n])) as [->|Hq].
    + cbn. rewrite insert_child_new. rewrite decide_False by (intros E%(f_equal length); rewrite !length_app in E; cbn in E; lia). rewrite walk_snoc, Hp. cbn. by rewrite Hno.
    + destruct (walk D s q) as [x|] eqn:Ex; cbn.
      * pose proof (fresh_walk D s a q x HT Hfr Ex) as Hxa.
        rewrite insert_child_eq by done. destruct (decide (q ++ [m] = p ++ [n])) as [E|E].
        -- apply app_inj_tail in E as [-> ->]. rewrite Hp in Ex. injection Ex as ->. by rewrite decide_True.
        -- rewrite decide_False; [done|]. intros [-> ->]. apply E. by rewrite (walk_inj D s HT _ _ _ Hp Ex).
      * rewrite decide_False; [done|]. intros [-> _]%app_inj_tail. congruence.
Qed.

Lemma insert_abs f : walk D s p = Some b -> abs D s f -> abs (add_entry a b d l D) s' (<[p ++ [n] := (d, 0)]> f).
Proof.
  intros Hp Hf q. rewrite (insert_walk q Hp). destruct (decide (q = p ++ [n])) as [->|Hq]; [rewrite lookup_insert_eq; cbn; by rewrite (in_new _ _ _ _ _ _ _ Hin)|]. rewrite lookup_insert_ne by done. rewrite (Hf q). destruct (walk D s q) as [x|] eqn:Ex; [|done]. cbn.
  destruct (decide (x = b)) as [->|Hxb]; [by rewrite (in_dir _ _ _ _ _ _ _ Hin)|]. rewrite (in_ent _ _ _ _ _ _ _ Hin) by (done || by eapply fresh_walk). done.
Qed.
End Insert.

(** ** An entry that is removed *)

Record removed (c b : Z) (l1 l2 : list Z) (s s' : ramfs) : Prop := {
  rm_root : fs_root s' = fs_root s;
  rm_hnd : hnd s' = hnd s;
  rm_dir : ent s' b = with_dir (default 0 (head (l1 ++ l2))) (ent s b);
  rm_ent : forall x, x <> c -> x <> b -> ent s' x = ent s x;
  rm_list : dlist (elinks s') (default 0 (head (l1 ++ l2))) (l1 ++ l2);
  rm_links : forall x, x ∉ l1 ++ c :: l2 -> nxt (elinks s') x = nxt (elinks s) x /\ prv (elinks s') x = prv (elinks s) x
}.

Lemma with_dir_id d : with_dir (de_dir d) d = d.
Proof. by destruct d. Qed.

Lemma remove_run D s c b l1 l2 : tree D s -> D !! b = Some (l1 ++ c :: l2) -> c <> b -> exists s', dirent_remove_and_free c s = Done s' /\ removed c b l1 l2 s s'.
Proof.
  intros HT Hb Hcb. destruct (t_dir _ _ HT b _ Hb) as (Hb0 & Hd & Hk & _). destruct (dlist_middle _ _ _ _ _ Hk) as (Hc0 & Hp & Hn & Hh). destruct (t_kid _ _ HT b _ c Hb) as [Hpar _]; [apply elem_of_app; right; left|].
  destruct (nodup_parts _ _ _ (dl_nodup _ _ _ Hk)) as (_ & _ & _ & N4 & N5 & N6). pose proof (dlist_nonnull _ _ _ Hk) as Hnz. rewrite elem_of_app, elem_of_cons in Hnz.
  assert (l1 <> [] -> last_or 0 l1 <> 0 /\ last_or 0 l1 <> c) as Hl1. { intros Hne. pose proof (last_or_in 0 l1 Hne) as Hin. split; intros E; rewrite E in Hin; tauto. }
  assert (l2 <> [] -> default 0 (head l2) <> 0 /\ default 0 (head l2) <> c) as Hl2. { intros Hne. pose proof (head_in l2 0 Hne) as Hin. split; intros E; rewrite E in Hin; tauto. }
  set (k1 := if prv (elinks s) c =? 0 then elinks s else set_nxt (prv (elinks s) c) (nxt (elinks s) c) (elinks s)).
  set (s1 := if prv (elinks s) c =? 0 then set_ent b (with_dir (nxt (elinks s) c) (ent s b)) s else set_elinks k1 s).
  set (k2 := if nxt k1 c =? 0 then k1 else set_prv (nxt k1 c) (prv k1 c) k1).
  set (s' := set_ent c no_dirent (set_elinks (set_nxt c 0 (set_prv c 0 k2)) s1)).
  assert (dirent_remove_and_free c s = Done s') as E.
  { unfold dirent_remove_and_free, dirent_remove. rewrite Hpar. unfold s', s1, k2, k1. destruct (Z.eqb_spec (prv (elinks s) c) 0) as [E0|E0]; [destruct (Z.eqb_spec b 0); [done|]; rewrite Hd|]; cbn [assert mbind outcome_bind elinks set_ent set_elinks]; by destruct (_ =? 0). }
  exists s'. split; [done|].
  assert (nxt k1 c = nxt (elinks s) c /\ prv k1 c = prv (elinks s) c) as [En1 Ep1]. { unfold k1. destruct (Z.eqb_spec (prv (elinks s) c) 0) as [E0|E0]; [done|]. split; [|done]. cbn. rewrite fn_lookup_insert_ne; [done|]. rewrite Hp in *. destruct (decide (l1 = [])) as [->|Hne]; [done|]. by apply Hl1. }
  assert (unlinked (elinks s) l1 c l2 (set_nxt c 0 (set_prv c 0 k2))) as Hu.
  { unfold k2. rewrite En1, Ep1. unfold k1. rewrite Hp, Hn. constructor.
    - intros Hne. destruct (Hl1 Hne) as [H1 H2]. destruct (Z.eqb_spec (last_or 0 l1) 0); [done|]. destruct (default 0 (head l2) =? 0); cbn [prv nxt set_prv set_nxt]; rewrite fn_lookup_insert_ne by done; by rewrite fn_lookup_insert.
    - intros Hne. destruct (Hl2 Hne) as [H1 H2]. destruct (Z.eqb_spec (default 0 (head l2)) 0); [done|]. cbn [prv nxt set_prv set_nxt]. rewrite fn_lookup_insert_ne by done. by rewrite fn_lookup_insert.
    - intros x Hx Hxl. assert (x <> c) by (intros ->; apply elem_of_app in Hx; tauto). destruct (last_or 0 l1 =? 0), (default 0 (head l2) =? 0); cbn [prv nxt set_prv set_nxt]; by rewrite !fn_lookup_insert_ne.
    - intros x Hx Hxl. assert (x <> c) by (intros ->; apply elem_of_app in Hx; tauto). destruct (last_or 0 l1 =? 0), (default 0 (head l2) =? 0); cbn [prv nxt set_prv set_nxt]; by rewrite !fn_lookup_insert_ne. }
  assert (elinks s' = set_nxt c 0 (set_prv c 0 k2)) as Ek by done.
  constructor; try rewrite Ek.
  - unfold s', s1. by destruct (_ =? 0).
  - unfold s', s1. by destruct (_ =? 0).
  - unfold s', s1. cbn [ent set_ent set_elinks]. rewrite fn_lookup_insert_ne by done. rewrite Hp, Hn. destruct (decide (l1 = [])) as [->|Hne].
    + change (last_or 0 []) with 0. cbn [Z.eqb app]. cbn. by rewrite fn_lookup_insert.
    + destruct (Hl1 Hne) as [H1 _]. destruct (Z.eqb_spec (last_or 0 l1) 0); [done|]. cbn. replace (default 0 (head (l1 ++ l2))) with (de_dir (ent s b)) by (rewrite Hh; by destruct l1). by rewrite with_dir_id.
  - intros x H1 H2. unfold s', s1. destruct (_ =? 0); cbn; by rewrite !fn_lookup_insert_ne.
  - by eapply dlist_unlink.
  - intros x Hx. rewrite elem_of_app, elem_of_cons in Hx. assert (x <> c) by (intros ->; tauto). unfold k2. rewrite En1, Ep1. unfold k1. rewrite Hp, Hn.
    assert (last_or 0 l1 <> 0 -> x <> last_or 0 l1) as X1 by (intros Hz ->; destruct (decide (l1 = [])) as [->|Hne]; [done|]; pose proof (last_or_in 0 l1 Hne); tauto).
    assert (default 0 (head l2) <> 0 -> x <> default 0 (head l2)) as X2 by (intros Hz ->; destruct (decide (l2 = [])) as [->|Hne]; [done|]; pose proof (head_in l2 0 Hne); tauto).
    destruct (Z.eqb_spec (last_or 0 l1) 0) as [Z1|Z1], (Z.eqb_spec (default 0 (head l2)) 0) as [Z2|Z2]; cbn [prv nxt set_prv set_nxt]; split; rewrite ?fn_lookup_insert_ne by (apply not_eq_sym; auto); done.
Qed.

Definition drop_entry (c b : Z) (l : list Z) (D : gmap Z (list Z)) : gmap Z (list Z) := delete c (<[b := l]> D).

Section Remove.
Context (D : gmap Z (list Z)) (s s' : ramfs) (c b : Z) (n : list Z) (l1 l2 : list Z) (p : list (list Z)).
Hypothesis (HT : tree D s) (Hb : D !! b = Some (l1 ++ c :: l2)) (Hrm : removed c b l1 l2 s s') (Hp : walk D s p = Some b) (Hn : de_name (ent s c) = n) (Hleaf : D !! c = None \/ D !! c = Some []).

Lemma remove_in : c ∈ l1 ++ c :: l2.
Proof. apply elem_of_app. right. left. Qed.
Lemma remove_walk_at : walk D s (p ++ [n]) = Some c.
Proof. rewrite walk_snoc, Hp. cbn. rewrite <- Hn. by apply (child_of D s HT b (l1 ++ c :: l2)), remove_in. Qed.
Lemma remove_ne : c <> b.
Proof. intros E0. pose proof remove_walk_at as E1. rewrite E0 in E1. pose proof (walk_inj D s HT _ _ _ Hp E1) as E%(f_equal length). rewrite length_app in E. cbn in E. lia. Qed.
Lemma remove_not_root : c <> fs_root s.
Proof. intros E0. destruct (t_kid _ _ HT b _ _ Hb remove_in) as [E _]. rewrite E0, (t_top _ _ HT) in E. destruct (t_dir _ _ HT b _ Hb) as (Hb0 & _). congruence. Qed.

Lemma drop_lookup x : x <> c -> drop_entry c b (l1 ++ l2) D !! x = if decide (x = b) then Some (l1 ++ l2) else D !! x.
Proof. intros Hx. unfold drop_entry. rewrite lookup_delete_ne by done. destruct (decide (x = b)) as [->|]; [by rewrite lookup_insert_eq|by rewrite lookup_insert_ne]. Qed.

Lemma remove_only x k : D !! x = Some k -> c ∈ k -> x = b.
Proof. intros Hx Hc. destruct (t_kid _ _ HT x k c Hx Hc) as [<- _]. by destruct (t_kid _ _ HT b _ c Hb remove_in) as [<- _]. Qed.

Lemma remove_old x : x <> c -> de_name (ent s' x) = de_name (ent s x) /\ de_parent (ent s' x) = de_parent (ent s x) /\ de_is_dir (ent s' x) = de_is_dir (ent s x) /\ de_refcount (ent s' x) = de_refcount (ent s x).
Proof. intros Hx. destruct (decide (x = b)) as [->|Hxb]; [by rewrite (rm_dir _ _ _ _ _ _ Hrm)|by rewrite (rm_ent _ _ _ _ _ _ Hrm)]. Qed.

Lemma remove_parts : NoDup (l1 ++ l2) /\ c ∉ l1 ++ l2.
Proof. destruct (t_dir _ _ HT b _ Hb) as (_ & _ & Hk & _). destruct (nodup_parts _ _ _ (dl_nodup _ _ _ Hk)) as (N1 & _ & _ & N4 & N5 & _). split; [done|]. rewrite elem_of_app. tauto. Qed.

Lemma remove_tree : tree (drop_entry c b (l1 ++ l2) D) s'.
Proof.
  pose proof remove_ne as Hcb. pose proof remove_not_root as Hcr. destruct remove_parts as [_ Hcl]. constructor.
  - rewrite (rm_root _ _ _ _ _ _ Hrm), drop_lookup by congruence. destruct (decide _); [by eexists|apply (t_root _ _ HT)].
  - rewrite (rm_root _ _ _ _ _ _ Hrm). destruct (remove_old (fs_root s)) as (_ & -> & _); [congruence|]. apply (t_top _ _ HT).
  - intros x k. destruct (decide (x = c)) as [->|Hx]; [unfold drop_entry; by rewrite lookup_delete_eq|]. rewrite drop_lookup by done. destruct (remove_old x Hx) as (_ & _ & Ed & _). rewrite Ed. destruct (decide (x = b)) as [->|Hxb].
    + intros [= <-]. destruct (t_dir _ _ HT b _ Hb) as (Hb0 & Hd & _ & Hnd). split_and!; [done|done|rewrite (rm_dir _ _ _ _ _ _ Hrm); apply Hrm|]. rewrite (fmap_names s) by (intros y Hy; apply remove_old; congruence).
      rewrite fmap_app, fmap_cons in Hnd. rewrite fmap_app. eapply sublist_NoDup; [exact Hnd|]. apply sublist_app; [done|]. by constructor.
    + intros Hk. destruct (t_dir _ _ HT x k Hk) as (Hx0 & Hd & Hdl & Hnd). assert (c ∉ k) as Hck by (intros Hc; by apply Hxb, (remove_only x k)). split_and!; [done|done| |rewrite (fmap_names s) by (intros y Hy; apply remove_old; congruence); done].
      rewrite (rm_ent _ _ _ _ _ _ Hrm) by done. eapply dlist_frame; [exact Hdl|]. intros y Hy. apply (rm_links _ _ _ _ _ _ Hrm). intros Hyl. apply Hxb. destruct (t_kid _ _ HT x k y Hk Hy) as [<- _]. by destruct (t_kid _ _ HT b _ y Hb Hyl) as [<- _].
  - intros x k y. destruct (decide (x = c)) as [->|Hx]; [unfold drop_entry; by rewrite lookup_delete_eq|]. rewrite drop_lookup by done. intros Hk Hy.
    assert (exists k', D !! x = Some k' /\ y ∈ k' /\ y <> c) as (k' & Hk' & Hy' & Hyc).
    { destruct (decide (x = b)) as [->|Hxb]; [injection Hk as <-; exists (l1 ++ c :: l2); split_and!; [done| |congruence]; apply elem_of_app in Hy as [Hy|Hy]; apply elem_of_app; [by left|right; by right]|]. exists k. split_and!; [done|done|]. intros ->. by apply Hxb, (remove_only x k). }
    destruct (remove_old y Hyc) as (_ & -> & -> & _). rewrite drop_lookup by done. destruct (t_kid _ _ HT x k' y Hk' Hy') as [-> ->]. split; [done|]. destruct (decide (y = b)) as [->|]; [|done]. rewrite Hb. split; intros _; by eexists.
Qed.

Lemma remove_child x m : x <> c -> child (drop_entry c b (l1 ++ l2) D) s' x m = if decide (x = b /\ m = n) then None else child D s x m.
Proof.
  intros Hx. destruct remove_parts as [_ Hcl]. unfold child. rewrite drop_lookup by done. destruct (decide (x = b)) as [->|Hxb].
  - cbn [mbind option_bind]. rewrite Hb. cbn [mbind option_bind]. rewrite (filter_names s) by (intros y Hy; apply remove_old; congruence). rewrite !filter_app. destruct (decide (m = n)) as [->|Hm].
    + rewrite decide_True by done. rewrite <- filter_app. destruct (head (filter _ (l1 ++ l2))) as [y|] eqn:E; [|done]. apply head_filter_elem in E as [Hy En].
      assert (y ∈ l1 ++ c :: l2) as Hy' by (apply elem_of_app in Hy as [Hy|Hy]; apply elem_of_app; [by left|right; by right]). pose proof (child_of D s HT b _ y Hb Hy') as E1. pose proof (child_of D s HT b _ c Hb remove_in) as E2. rewrite En, <- Hn in E1. congruence.
    + rewrite decide_False by tauto. rewrite filter_cons_False by congruence. done.
  - rewrite decide_False by tauto. destruct (D !! x) as [k|] eqn:Hk; [|done]. cbn. rewrite (filter_names s); [done|]. intros y Hy. apply remove_old. intros ->. by apply Hxb, (remove_only x k).
Qed.

Lemma remove_walk q : walk (drop_entry c b (l1 ++ l2) D) s' q = if decide (q = p ++ [n]) then None else walk D s q.
Proof.
  induction q as [|m q IH] using rev_ind.
  - rewrite decide_False by (intros E; by apply app_cons_not_nil in E). cbn. by rewrite (rm_root _ _ _ _ _ _ Hrm).
  - rewrite !walk_snoc, IH. destruct (decide (q = p ++ [n])) as [->|Hq].
    + cbn. rewrite decide_False by (intros E%(f_equal length); rewrite !length_app in E; cbn in E; lia). rewrite remove_walk_at. cbn. unfold child. by destruct Hleaf as [->| ->].
    + destruct (walk D s q) as [x|] eqn:Ex; cbn; [|by destruct (decide _)].
      assert (x <> c) as Hxc by (intros ->; by apply Hq, (walk_inj D s HT _ _ c Ex remove_walk_at)). rewrite remove_child by done. destruct (decide (q ++ [m] = p ++ [n])) as [E|E].
      * apply app_inj_tail in E as [-> ->]. rewrite Hp in Ex. injection Ex as ->. by rewrite decide_True.
      * rewrite decide_False; [done|]. intros [-> ->]. apply E. by rewrite (walk_inj D s HT _ _ _ Hp Ex).
Qed.

Lemma remove_abs f : abs D s f -> abs (drop_entry c b (l1 ++ l2) D) s' (delete (p ++ [n]) f).
Proof.
  intros Hf q. rewrite remove_walk. destruct (decide (q = p ++ [n])) as [->|Hq]; [by rewrite lookup_delete_eq|]. rewrite lookup_delete_ne by done. rewrite (Hf q). destruct (walk D s q) as [x|] eqn:Ex; [|done]. cbn.
  assert (x <> c) as Hxc by (intros ->; by apply Hq, (walk_inj D s HT _ _ c Ex remove_walk_at)). by destruct (remove_old x Hxc) as (_ & _ & -> & ->).
Qed.
End Remove.
