(* ===== verification/RamfsCorrect.v ===== *)
(** Correctness of Ramfs.v: the operations on paths do to the tree in memory
    what they do to a finite map from paths, and what is written to a file is
    read back. *)
From S2P Require Import Prelude Ring Chain Ramfs RamfsTree.

(** * The operations on paths *)

(** A path is a list of names, from the root if the flag is set; the other
    arguments are the memory that is allocated. *)
Inductive fcall :=
| FOpen (h : Z) (slash : bool) (p : list (list Z))
| FOpendir (h : Z) (slash : bool) (p : list (list Z))
| FCreate (hp a : Z) (ret : option Z) (slash : bool) (p : list (list Z))
| FMkdir (hp a : Z) (slash : bool) (p : list (list Z))
| FRemove (h : Z) (slash : bool) (p : list (list Z))
| FRmdir (h : Z) (slash : bool) (p : list (list Z))
| FClose (h : Z).

Definition fexec (fuel : nat) (x : fcall) (s : ramfs) : outcome (errval * ramfs) :=
  match x with
  | FOpen h slash p => '(e, _, s) ← ramfs_open fuel h (path_str slash p) s; Done (e, s)
  | FOpendir h slash p => '(e, _, s) ← ramfs_opendir fuel h (path_str slash p) s; Done (e, s)
  | FCreate hp a ret slash p => '(e, _, s) ← ramfs_create fuel hp a ret (path_str slash p) s; Done (e, s)
  | FMkdir hp a slash p => ramfs_mkdir fuel hp a (path_str slash p) s
  | FRemove h slash p => ramfs_remove fuel h (path_str slash p) s
  | FRmdir h slash p => ramfs_rmdir fuel h (path_str slash p) s
  | FClose h => ramfs_close h s
  end.

(** The directory of a path. *)
Definition above (p : list (list Z)) : list (list Z) := take (length p - 1) p.
Definition has_child (p : list (list Z)) (f : fsmap) : bool := bool_decide (Exists (fun q => q <> [] /\ above q = p) (map_to_list f).*1).

Abbreviation handles := (gmap Z (list (list Z))).

(** The reference: [f] holds for each path whether it is a directory, and the
    count of its handles; [g] the files of the open handles.  The errors are
    those that include/fs/dirent.h documents; there is no result where the
    code does something else: a directory without a parent is made, a file is
    removed as a directory, the root is removed, or a handle is closed that is
    not open. *)
Definition fs_spec (x : fcall) (f : fsmap) (g : handles) : option (errval * fsmap * handles) :=
  match x with
  | FOpen h _ p =>
    match f !! p with
    | None => Some (lookup_err f [] p, f, g)
    | Some (true, _) => Some (err FS_ERR_NOTFILE, f, g)
    | Some (false, r) => Some (SYS_ERR_OK, recount (r + 1) p f, <[h := p]> g)
    end
  | FOpendir _ _ p =>
    match f !! p with
    | None => Some (lookup_err f [] p, f, g)
    | Some (false, _) => Some (err FS_ERR_NOTDIR, f, g)
    | Some (true, r) => Some (SYS_ERR_OK, recount (r + 1) p f, g)
    end
  | FCreate _ _ ret _ p =>
    match f !! p, f !! above p with
    | Some _, _ => Some (err FS_ERR_EXISTS, f, g)
    | None, None => Some (lookup_err f [] (above p), f, g)
    | None, Some (false, r) => Some (err FS_ERR_NOTDIR, recount (r + 1) (above p) f, g)
    | None, Some (true, _) =>
      match ret with
      | Some h => Some (SYS_ERR_OK, <[p := (false, 1)]> f, <[h := p]> g)
      | None => Some (SYS_ERR_OK, <[p := (false, 0)]> f, g)
      end
    end
  | FMkdir _ _ _ p =>
    match f !! p, f !! above p with
    | Some _, _ => Some (err FS_ERR_EXISTS, f, g)
    | None, None => None
    | None, Some (false, _) => Some (err FS_ERR_NOTDIR, f, g)
    | None, Some (true, _) => Some (SYS_ERR_OK, <[p := (true, 0)]> f, g)
    end
  | FRemove _ _ p =>
    match f !! p with
    | None => Some (lookup_err f [] p, f, g)
    | Some (true, r) => Some (err FS_ERR_NOTFILE, recount (r + 1) p f, g)
    | Some (false, r) => if r =? 0 then Some (SYS_ERR_OK, delete p f, g) else Some (err FS_ERR_BUSY, f, g)
    end
  | FRmdir _ _ p =>
    match f !! p with
    | None => Some (lookup_err f [] p, f, g)
    | Some (false, _) => None
    | Some (true, r) =>
      if negb (r =? 0) then Some (err FS_ERR_BUSY, f, g)
      else if has_child p f then Some (err FS_ERR_NOTEMPTY, recount (r + 1) p f, g)
      else if bool_decide (p = []) then None
      else Some (SYS_ERR_OK, delete p f, g)
    end
  | FClose h =>
    match g !! h with
    | None => None
    | Some p => match f !! p with None => None | Some (_, r) => Some (SYS_ERR_OK, recount (r - 1) p f, delete h g) end
    end
  end.

(** * The state in memory *)

Definition users (p : list (list Z)) (g : handles) : Z := Z.of_nat (size (filter (fun x : Z * list (list Z) => x.2 = p) g)).

Record fs_rep (D : gmap Z (list Z)) (f : fsmap) (g : handles) (s : ramfs) : Prop := {
  r_tree : tree D s;
  r_abs : abs D s f;
  r_hnd : forall h p, g !! h = Some p -> exists a, walk D s p = Some a /\ h_isdir (hnd s h) = false /\ h_dirent (hnd s h) = a /\ h <> 0;
  r_count : forall p b r, f !! p = Some (b, r) -> users p g <= r
}.

(** The memory of the entries. *)
Definition used (D : gmap Z (list Z)) (a : Z) : Prop := is_Some (D !! a) \/ exists b l, D !! b = Some l /\ a ∈ l.

(** The paths are well-formed, memory is new, and counts do not overflow. *)
Definition new_handle (g : handles) (h : Z) : Prop := h <> 0 /\ g !! h = None.
Definition allowed (D : gmap Z (list Z)) (f : fsmap) (g : handles) (x : fcall) : Prop :=
  map_Forall (fun _ (y : bool * Z) => y.2 + 1 < 2 ^ 32) f /\
  match x with
  | FOpen h _ p | FOpendir h _ p | FRemove h _ p | FRmdir h _ p => Forall wfn p /\ new_handle g h
  | FCreate hp a ret _ p => Forall wfn p /\ new_handle g hp /\ a <> 0 /\ ~ used D a /\ (forall h, ret = Some h -> new_handle g h)
  | FMkdir hp a _ p => Forall wfn p /\ new_handle g hp /\ a <> 0 /\ ~ used D a
  | FClose _ => True
  end.

(** The memory that a call adds. *)
Definition made (x : fcall) (a : Z) : Prop := match x with FCreate _ b _ _ _ | FMkdir _ b _ _ => a = b | _ => False end.

Lemma used_fresh D a : a <> 0 -> ~ used D a -> fresh D a.
Proof. intros Ha Hu. split_and!; [done| |]; [destruct (D !! a) eqn:E; [|done]; destruct Hu; left; by eexists|]. intros b l Hb Hin. apply Hu. right. by exists b, l. Qed.

Lemma used_add a b d l D c : D !! b = Some l -> used (add_entry a b d l D) c -> used D c \/ c = a.
Proof.
  intros Hb. destruct (decide (c = a)) as [->|Hca]; [by right|]. unfold used, add_entry. intros Hu. left. assert (forall x k, (if d then <[a := []]> (<[b := a :: l]> D) else <[b := a :: l]> D) !! x = Some k -> x <> a -> is_Some (D !! x) /\ (c ∈ k -> exists y k', D !! y = Some k' /\ c ∈ k')) as Hx.
  { intros x k Hk Hxa. assert (<[b := a :: l]> D !! x = Some k) as Hk' by (destruct d; [by rewrite lookup_insert_ne in Hk|done]). apply lookup_insert_Some in Hk' as [[<- <-]|[_ Hk']]; [|split; [by eexists|intros Hck; by exists x, k]]. split; [by eexists|]. intros [->|Hcl]%elem_of_cons; [done|]. by exists b, l. }
  destruct Hu as [[k Hk]|(x & k & Hk & Hck)]; [left; by eapply Hx|]. destruct (decide (x = a)) as [->|Hxa]; [|right; by eapply (Hx x k)]. right. destruct d; [rewrite lookup_insert_eq in Hk; injection Hk as <-; by apply elem_of_nil in Hck|].
  apply lookup_insert_Some in Hk as [[-> <-]|[_ Hk]]; [apply elem_of_cons in Hck as [->|Hck]; [done|]; by exists a, l|by exists a, k].
Qed.

Lemma used_drop c b l1 l2 D y : D !! b = Some (l1 ++ c :: l2) -> used (drop_entry c b (l1 ++ l2) D) y -> used D y.
Proof.
  intros Hb. unfold used, drop_entry. intros [[k [_ Hk]%lookup_delete_Some]|(x & k & [_ Hk]%lookup_delete_Some & Hy)]; apply lookup_insert_Some in Hk as [[<- <-]|[_ Hk]].
  - left. by eexists.
  - left. by eexists.
  - right. exists b, (l1 ++ c :: l2). split; [done|]. apply elem_of_app in Hy as [Hy|Hy]; apply elem_of_app; [by left|right; by right].
  - right. by exists x, k.
Qed.

(** Enough fuel for the directories. *)
Lemma enough_fuel (D : gmap Z (list Z)) : exists n, forall fuel, (n <= fuel)%nat -> map_Forall (fun _ l => (length l < fuel)%nat) D.
Proof.
  induction D as [|a l D HD (n & IH)] using map_ind; [exists 0%nat; intros; apply map_Forall_empty|]. exists (Nat.max n (S (length l))). intros fuel Hf. apply map_Forall_insert_2; [lia|]. apply IH. lia.
Qed.

Lemma recount_id f p b r r' : f !! p = Some (b, r) -> recount r p (recount r' p f) = f.
Proof.
  intros E. apply map_eq. intros q. unfold recount. destruct (decide (q = p)) as [->|Hq]; [by rewrite !lookup_alter_eq, E|by rewrite !lookup_alter_ne].
Qed.

Lemma users_nonneg p g : 0 <= users p g.
Proof. unfold users. lia. Qed.
Lemma users_insert p q h g : g !! h = None -> users q (<[h := p]> g) = users q g + (if decide (q = p) then 1 else 0).
Proof.
  intros Hh. unfold users. destruct (decide (q = p)) as [->|Hq].
  - rewrite map_filter_insert_True by done. rewrite map_size_insert_None; [lia|]. apply map_lookup_filter_None. by left.
  - rewrite map_filter_insert_False by (cbn; congruence). rewrite delete_id by done. lia.
Qed.
Lemma users_delete p q h g : g !! h = Some p -> users q (delete h g) = users q g - (if decide (q = p) then 1 else 0).
Proof. intros Hh. rewrite <- (insert_delete_id g h p Hh) at 2. rewrite users_insert by apply lookup_delete_eq. destruct (decide (q = p)); lia. Qed.
Lemma users_pos p h g : g !! h = Some p -> 1 <= users p g.
Proof. intros Hh. pose proof (users_delete p p h g Hh) as E. rewrite decide_True in E by done. pose proof (users_nonneg p (delete h g)). lia. Qed.

Lemma users_zero p g : (forall h, g !! h <> Some p) -> users p g = 0.
Proof.
  intros Hg. unfold users. assert (filter (fun x : Z * list (list Z) => x.2 = p) g = ∅) as ->; [|done]. apply map_empty. intros h. apply map_lookup_filter_None. right. intros q Hq E. cbn in E. subst q. by apply (Hg h).
Qed.

(** ** Small steps *)

Lemma rep_at D f g s p b r : fs_rep D f g s -> f !! p = Some (b, r) -> exists a, walk D s p = Some a /\ de_is_dir (ent s a) = b /\ de_refcount (ent s a) = r.
Proof. intros HR Hp. rewrite (r_abs _ _ _ _ HR p) in Hp. destruct (walk D s p) as [a|]; [|done]. injection Hp as <- <-. by exists a. Qed.
Lemma rep_none D f g s p : fs_rep D f g s -> f !! p = None -> walk D s p = None.
Proof. intros HR Hp. rewrite (r_abs _ _ _ _ HR p) in Hp. by destruct (walk D s p). Qed.

Lemma rep_recount D f g s p a r : fs_rep D f g s -> walk D s p = Some a -> users p g <= r -> fs_rep D (recount r p f) g (set_ent a (with_refcount r (ent s a)) s).
Proof.
  intros HR Hp Hu. destruct (refcount_abs D s f p a r (r_tree _ _ _ _ HR) (r_abs _ _ _ _ HR) Hp) as [HT Hf]. constructor; [done|done| |].
  - intros h q Hq. destruct (r_hnd _ _ _ _ HR h q Hq) as (c & Hc & H1 & H2). exists c. rewrite (shape_walk _ _ _ q (shape_refcount a r s)). done.
  - intros q b r' Hq. unfold recount in Hq. destruct (decide (q = p)) as [->|Hne]; [|rewrite lookup_alter_ne in Hq by done; by apply (r_count _ _ _ _ HR _ _ _ Hq)].
    rewrite lookup_alter_eq in Hq. destruct (f !! p); [|done]. cbn in Hq. by injection Hq as _ <-.
Qed.

Lemma rep_hnd D f g s h x : fs_rep D f g s -> g !! h = None -> fs_rep D f g (set_hnd h x s).
Proof.
  intros [H1 H2 H3 H4] Hh. constructor; [by destruct H1|exact H2| |exact H4]. intros h' q Hq. destruct (H3 h' q Hq) as (c & Hc & Hd). exists c. split; [exact Hc|]. cbn. rewrite fn_lookup_insert_ne by congruence. done.
Qed.

Lemma rep_add D f g s h p a b r : fs_rep D f g s -> new_handle g h -> walk D s p = Some a -> h_isdir (hnd s h) = false -> h_dirent (hnd s h) = a -> f !! p = Some (b, r) -> users p g + 1 <= r -> fs_rep D f (<[h := p]> g) s.
Proof.
  intros [H1 H2 H3 H4] [Hh0 Hh] Hp Hi Hd Hf Hu. constructor; [done|done| |].
  - intros h' q. destruct (decide (h' = h)) as [->|Hne]; [rewrite lookup_insert_eq; intros [= <-]; by exists a|rewrite lookup_insert_ne by done; apply H3].
  - intros q b' r' Hq. rewrite users_insert by done. specialize (H4 q b' r' Hq). destruct (decide (q = p)) as [->|]; [|lia]. rewrite Hf in Hq. injection Hq as _ <-. lia.
Qed.

Lemma rep_del D f g s h p : fs_rep D f g s -> g !! h = Some p -> fs_rep D f (delete h g) s.
Proof.
  intros [H1 H2 H3 H4] Hh. constructor; [done|done| |].
  - intros h' q Hq. apply lookup_delete_Some in Hq as [_ Hq]. by apply H3.
  - intros q b r Hq. rewrite (users_delete p) by done. specialize (H4 q b r Hq). destruct (decide _); lia.
Qed.

Lemma rep_insert D f g s s' a b n d l p : fs_rep D f g s -> fresh D a -> D !! b = Some l -> walk D s p = Some b -> f !! (p ++ [n]) = None -> inserted a b n d l s s' ->
  fs_rep (add_entry a b d l D) (<[p ++ [n] := (d, 0)]> f) g s' /\ walk (add_entry a b d l D) s' (p ++ [n]) = Some a.
Proof.
  intros HR Hfr Hb Hp Hno Hin. assert (child D s b n = None) as Hch. { pose proof (rep_none _ _ _ _ _ HR Hno) as E. rewrite walk_snoc, Hp in E. exact E. } pose proof (fun q => insert_walk D s s' a b n d l p (r_tree _ _ _ _ HR) Hfr Hb Hin Hch q Hp) as Hw.
  split; [|by rewrite Hw, decide_True]. constructor.
  - by eapply insert_tree; try apply HR.
  - by eapply insert_abs; try apply HR.
  - intros h q Hq. destruct (r_hnd _ _ _ _ HR h q Hq) as (c & Hc & Hd). exists c. rewrite (in_hnd _ _ _ _ _ _ _ Hin), Hw. rewrite decide_False; [done|]. intros ->. by rewrite (rep_none _ _ _ _ _ HR Hno) in Hc.
  - intros q b' r' Hq. destruct (decide (q = p ++ [n])) as [->|Hne]; [|rewrite lookup_insert_ne in Hq by done; by apply (r_count _ _ _ _ HR _ _ _ Hq)].
    rewrite lookup_insert_eq in Hq. injection Hq as _ <-. rewrite users_zero; [done|]. intros h Hh. destruct (r_hnd _ _ _ _ HR h _ Hh) as (c & Hc & _). by rewrite (rep_none _ _ _ _ _ HR Hno) in Hc.
Qed.

(** The directory that holds the entry at a path. *)
Lemma rep_above D f g s p n c : fs_rep D f g s -> walk D s (p ++ [n]) = Some c -> exists b l1 l2, walk D s p = Some b /\ D !! b = Some (l1 ++ c :: l2) /\ de_name (ent s c) = n /\ c <> b.
Proof.
  intros HR Hc. pose proof Hc as Hc'. rewrite walk_snoc in Hc. destruct (walk D s p) as [b|] eqn:Eb; [|done]. cbn in Hc. apply child_elem in Hc as (l & Hl & Hin & Hn). apply list_elem_of_split in Hin as (l1 & l2 & ->). exists b, l1, l2. split_and!; [done..|].
  intros ->. pose proof (walk_inj D s (r_tree _ _ _ _ HR) _ _ _ Eb Hc') as E%(f_equal length). rewrite length_app in E. cbn in E. lia.
Qed.

Lemma rep_remove D f g s p n c : fs_rep D f g s -> walk D s (p ++ [n]) = Some c -> D !! c = None \/ D !! c = Some [] -> users (p ++ [n]) g = 0 ->
  exists D' s', dirent_remove_and_free c s = Done s' /\ fs_rep D' (delete (p ++ [n]) f) g s' /\ forall y, used D' y -> used D y.
Proof.
  intros HR Hc Hleaf Hu. destruct (rep_above _ _ _ _ _ _ _ HR Hc) as (b & l1 & l2 & Hp & Hb & Hn & Hcb). pose proof (r_tree _ _ _ _ HR) as HT. destruct (remove_run D s c b l1 l2 HT Hb Hcb) as (s' & E & Hrm).
  exists (drop_entry c b (l1 ++ l2) D), s'. split; [done|]. split; [|intros y; by apply used_drop]. constructor.
  - by eapply remove_tree.
  - eapply remove_abs; try done. apply HR.
  - intros h q Hq. destruct (r_hnd _ _ _ _ HR h q Hq) as (y & Hy & Hd). exists y. rewrite (rm_hnd _ _ _ _ _ _ Hrm). rewrite (remove_walk D s s' c b n l1 l2 p HT Hb Hrm Hp Hn Hleaf q). rewrite decide_False; [done|]. intros ->. pose proof (users_pos _ _ _ Hq). lia.
  - intros q b' r' Hq. apply lookup_delete_Some in Hq as [_ Hq]. by apply (r_count _ _ _ _ HR _ _ _ Hq).
Qed.

(** ** Handles *)

(** The state after the entry [a] at [p] got the handle [h]. *)
Record opened (D : gmap Z (list Z)) (f : fsmap) (g : handles) (a h : Z) (p : list (list Z)) (b : bool) (r : Z) (s : ramfs) : Prop := {
  o_rep : fs_rep D (recount (r + 1) p f) g s;
  o_hnd : hnd s h = Handle b a 0;
  o_walk : walk D s p = Some a;
  o_ref : de_refcount (ent s a) = r + 1;
  o_dir : de_is_dir (ent s a) = b;
  o_users : 0 <= users p g <= r
}.

Section Handles.
Context (D : gmap Z (list Z)) (f : fsmap) (g : handles) (p : list (list Z)) (b : bool) (r : Z) (h : Z).
Hypothesis (Hp : f !! p = Some (b, r)) (Hh : new_handle g h).

Lemma open_run s a : fs_rep D f g s -> walk D s p = Some a -> r + 1 < 2 ^ 32 -> exists s', handle_open h a s = (h, s') /\ opened D f g a h p b r s'.
Proof using Hp Hh.
  intros HR Ha Hr. destruct Hh as [Hh0 Hg]. pose proof (r_count _ _ _ _ HR p b r Hp) as Hu. pose proof (users_nonneg p g) as Hn. destruct (rep_at _ _ _ _ _ _ _ HR Hp) as (a' & Ha' & Hb & Hc). rewrite Ha in Ha'. injection Ha' as <-.
  unfold handle_open. destruct (Z.eqb_spec h 0); [done|]. rewrite Hc, u32_small by lia. eexists. split; [done|]. constructor.
  - apply rep_hnd; [|done]. apply rep_recount; [done..|lia].
  - cbn. rewrite !fn_lookup_insert. by rewrite <- Hb.
  - rewrite <- Ha. by apply (shape_walk D s (set_ent a (with_refcount (r + 1) (ent s a)) s) p), shape_refcount.
  - cbn. by rewrite fn_lookup_insert.
  - cbn. by rewrite fn_lookup_insert.
  - done.
Qed.

Lemma close_run s a : opened D f g a h p b r s -> exists s', handle_close h s = Done s' /\ fs_rep D f g s' /\ forall q, walk D s' q = walk D s q.
Proof using Hp Hh.
  intros [HR Hd Ha Hc Hb Hu]. destruct Hh as [Hh0 _].
  unfold handle_close, nonnull. destruct (Z.eqb_spec h 0); [done|]. cbn [mbind outcome_bind]. rewrite Hd. cbn [h_dirent]. rewrite Hc. destruct (Z.ltb_spec 0 (r + 1)); [|lia]. cbn [assert mbind outcome_bind]. replace (r + 1 - 1) with r by lia. eexists. split; [done|]. split; [|intros q; by apply shape_walk, shape_refcount].
  rewrite <- (recount_id f p b r (r + 1) Hp). apply rep_recount; [done..|lia].
Qed.
End Handles.

(** ** Lookup *)

Definition deep_enough (D : gmap Z (list Z)) (fuel : nat) : Prop := map_Forall (fun _ l => (length l < fuel)%nat) D.

Section Calls.
Context (D : gmap Z (list Z)) (f : fsmap) (g : handles) (s : ramfs).
Hypothesis (HR : fs_rep D f g s) (Hc : map_Forall (fun _ (y : bool * Z) => y.2 + 1 < 2 ^ 32) f).

Lemma lookup_open h p b r : Forall wfn p -> new_handle g h -> f !! p = Some (b, r) ->
  exists a s', opened D f g a h p b r s' /\ forall fuel slash, deep_enough D fuel -> resolve_path fuel (fs_root s) (path_str slash p) (Some h) s = Done (SYS_ERR_OK, h, s').
Proof using HR Hc.
  intros Hp Hh Hf. destruct (rep_at _ _ _ _ _ _ _ HR Hf) as (a & Ha & _). destruct (open_run D f g p b r h Hf Hh s a HR Ha (Hc p _ Hf)) as (s' & E & Ho). exists a, s'. split; [done|]. intros fuel slash Hfu.
  rewrite (resolve_path_run D s f) by (done || apply HR). rewrite Ha, E. destruct (Z.eqb_spec h 0); [|done]. by destruct Hh.
Qed.

Lemma lookup_fail fuel slash p ret : Forall wfn p -> f !! p = None -> deep_enough D fuel -> resolve_path fuel (fs_root s) (path_str slash p) ret s = Done (lookup_err f [] p, 0, s).
Proof using HR. intros Hp Hf Hfu. rewrite (resolve_path_run D s f) by (done || apply HR). by rewrite (rep_none _ _ _ _ _ HR Hf). Qed.

Lemma lookup_only fuel slash p b r : Forall wfn p -> f !! p = Some (b, r) -> deep_enough D fuel -> resolve_path fuel (fs_root s) (path_str slash p) None s = Done (SYS_ERR_OK, 0, s).
Proof using HR. intros Hp Hf Hfu. rewrite (resolve_path_run D s f) by (done || apply HR). by destruct (rep_at _ _ _ _ _ _ _ HR Hf) as (a & -> & _). Qed.

(** The directory of a new entry. *)
Lemma split_path slash q n : wfn n -> q = [] /\ split_last (path_str slash (q ++ [n])) = None /\ path_str slash (q ++ [n]) = n \/ exists sl, split_last (path_str slash (q ++ [n])) = Some (path_str sl q, n).
Proof using.
  intros [_ Hn]. destruct (decide (q = [])) as [->|Hq].
  - destruct slash; [right; exists false; by apply (split_last_app [])|left]. split_and!; [done|by apply split_last_none|done].
  - right. exists slash. unfold path_str. rewrite join_snoc, app_assoc by done. by apply split_last_app.
Qed.

Lemma rep_root : exists r, f !! [] = Some (true, r).
Proof using HR. pose proof (r_abs _ _ _ _ HR []) as E. cbn in E. destruct (t_root _ _ (r_tree _ _ _ _ HR)) as [l Hl]. destruct (t_dir _ _ (r_tree _ _ _ _ HR) _ _ Hl) as (_ & Hd & _). rewrite Hd in E. by eexists. Qed.

Lemma above_snoc q (n : list Z) : above (q ++ [n]) = q.
Proof using. unfold above. rewrite length_app. cbn. replace (length q + 1 - 1)%nat with (length q) by lia. by rewrite take_app_length. Qed.

(** The entry is put into the root or into the directory with a handle. *)
Lemma insert_child_root x n d : fresh D x -> f !! [n] = None -> exists D' s', insert_child None x (dirent_create x n d s) = Done s' /\ fs_rep D' (<[[n] := (d, 0)]> f) g s' /\ walk D' s' [n] = Some x /\ forall y, used D' y -> used D y \/ y = x.
Proof using HR.
  intros Hx Hn. destruct (t_root _ _ (r_tree _ _ _ _ HR)) as [l Hl]. destruct (insert_run D s x (fs_root s) n d l (r_tree _ _ _ _ HR) Hx Hl) as (s' & E & Hin). exists (add_entry x (fs_root s) d l D), s'. split; [exact E|]. pose proof (rep_insert D f g s s' x (fs_root s) n d l [] HR Hx Hl eq_refl Hn Hin) as [H1 H2]. split_and!; [done|done|]. intros y. by apply used_add.
Qed.
End Calls.

Lemma insert_child_handle D f g s a h q r x n d : opened D f g a h q true r s -> new_handle g h -> f !! q = Some (true, r) -> fresh D x -> f !! (q ++ [n]) = None ->
  exists D' s', insert_child (Some h) x (dirent_create x n d s) = Done s' /\ fs_rep D' (<[q ++ [n] := (d, 0)]> f) g s' /\ walk D' s' (q ++ [n]) = Some x /\ forall y, used D' y -> used D y \/ y = x.
Proof.
  intros Ho Hh Hq Hx Hn. pose proof (o_rep _ _ _ _ _ _ _ _ _ Ho) as HR. assert (q <> q ++ [n]) as Hqn by (intros E%(f_equal length); rewrite length_app in E; cbn in E; lia).
  assert (is_Some (D !! a)) as [l Hl] by (apply (walk_dir D s (r_tree _ _ _ _ HR) q); apply Ho). destruct (insert_run D s x a n d l (r_tree _ _ _ _ HR) Hx Hl) as (s1 & E & Hin).
  destruct (rep_insert D (recount (r + 1) q f) g s s1 x a n d l q HR Hx Hl (o_walk _ _ _ _ _ _ _ _ _ Ho)) as [HR1 Hw1]; [unfold recount; by rewrite lookup_alter_ne|done|].
  assert (opened (add_entry x a d l D) (<[q ++ [n] := (d, 0)]> f) g a h q true r s1) as Ho1.
  { constructor; try apply Ho.
    - unfold recount. rewrite alter_insert_ne by done. exact HR1.
    - rewrite (in_hnd _ _ _ _ _ _ _ Hin). apply Ho.
    - rewrite (insert_walk D s s1 x a n d l q (r_tree _ _ _ _ HR) Hx Hl Hin); [by rewrite decide_False, (o_walk _ _ _ _ _ _ _ _ _ Ho)| |apply Ho].
      pose proof (rep_none D (recount (r + 1) q f) g s (q ++ [n]) HR) as Hz. rewrite walk_snoc, (o_walk _ _ _ _ _ _ _ _ _ Ho) in Hz. apply Hz. unfold recount. by rewrite lookup_alter_ne.
    - rewrite (in_dir _ _ _ _ _ _ _ Hin). cbn. apply Ho.
    - rewrite (in_dir _ _ _ _ _ _ _ Hin). cbn. apply Ho. }
  destruct (close_run (add_entry x a d l D) (<[q ++ [n] := (d, 0)]> f) g q true r h) with (s := s1) (a := a) as (s2 & E2 & HR2 & Hw2); [by rewrite lookup_insert_ne|done|done|].
  exists (add_entry x a d l D), s2. split_and!; [|done|by rewrite Hw2|intros y; by apply used_add]. unfold insert_child. cbn [hnd dirent_create set_ent set_elinks]. rewrite (o_hnd _ _ _ _ _ _ _ _ _ Ho). cbn [h_dirent]. rewrite E. exact E2.
Qed.

(** ** The calls *)

Definition served (x : fcall) (D : gmap Z (list Z)) (s : ramfs) (e : errval) (f : fsmap) (g : handles) : Prop :=
  exists n D' s', (forall fuel, (n <= fuel)%nat -> fexec fuel x s = Done (e, s')) /\ fs_rep D' f g s' /\ forall a, used D' a -> used D a \/ made x a.

Lemma served_change x D s e f g D' s' : (forall fuel, deep_enough D fuel -> fexec fuel x s = Done (e, s')) -> fs_rep D' f g s' -> (forall a, used D' a -> used D a \/ made x a) -> served x D s e f g.
Proof. intros Hx HR Hu. destruct (enough_fuel D) as [n Hn]. exists n, D', s'. split_and!; [|done|done]. intros fuel Hf. by apply Hx, Hn. Qed.
Lemma served_intro x D s e f g s' : (forall fuel, deep_enough D fuel -> fexec fuel x s = Done (e, s')) -> fs_rep D f g s' -> served x D s e f g.
Proof. intros Hx HR. eapply served_change; [done..|]. by left. Qed.

(** An entry that was looked up, or not. *)
Ltac looked_up HR Hc Ho E := match goal with Hp : Forall wfn ?p, Hh : new_handle _ ?h, Hf : _ !! ?p = Some _ |- _ => destruct (lookup_open _ _ _ _ HR Hc h p _ _ Hp Hh Hf) as (a & s1 & Ho & E) end.
Ltac handle_fields Ho := rewrite (o_hnd _ _ _ _ _ _ _ _ _ Ho); cbn [h_isdir h_dirent h_pos negb].

Section Serve.
Context (D : gmap Z (list Z)) (f : fsmap) (g : handles) (s : ramfs).
Hypothesis (HR : fs_rep D f g s) (Hc : map_Forall (fun _ (y : bool * Z) => y.2 + 1 < 2 ^ 32) f).

Lemma serve_open h slash p e f' g' : Forall wfn p -> new_handle g h -> fs_spec (FOpen h slash p) f g = Some (e, f', g') -> served (FOpen h slash p) D s e f' g'.
Proof using HR Hc.
  intros Hp Hh. cbn [fs_spec]. destruct (f !! p) as [[[] r]|] eqn:Hf; intros [= <- <- <-].
  - looked_up HR Hc Ho E. destruct (close_run D f g p true r h Hf Hh s1 a Ho) as (s2 & E2 & HR2 & _). eapply served_intro; [|exact HR2]. intros fuel Hfu. cbn [fexec]. unfold ramfs_open. rewrite E by done. cbn [mbind outcome_bind err_is_fail]. handle_fields Ho. by rewrite E2.
  - looked_up HR Hc Ho E. eapply served_intro.
    + intros fuel Hfu. cbn [fexec]. unfold ramfs_open. rewrite E by done. cbn [mbind outcome_bind err_is_fail]. handle_fields Ho. done.
    + eapply (rep_add _ _ _ _ _ _ a false (r + 1)); try apply Ho; [done|by rewrite (o_hnd _ _ _ _ _ _ _ _ _ Ho)..| |].
      * unfold recount. by rewrite lookup_alter_eq, Hf.
      * pose proof (o_users _ _ _ _ _ _ _ _ _ Ho). lia.
  - eapply served_intro; [|exact HR]. intros fuel Hfu. cbn [fexec]. unfold ramfs_open. rewrite (lookup_fail D f g s HR) by done. cbn [mbind outcome_bind]. by rewrite lookup_err_fail.
Qed.

Lemma serve_opendir h slash p e f' g' : Forall wfn p -> new_handle g h -> fs_spec (FOpendir h slash p) f g = Some (e, f', g') -> served (FOpendir h slash p) D s e f' g'.
Proof using HR Hc.
  intros Hp Hh. cbn [fs_spec]. destruct (f !! p) as [[[] r]|] eqn:Hf; intros [= <- <- <-].
  - looked_up HR Hc Ho E. eapply served_intro.
    + intros fuel Hfu. cbn [fexec]. unfold ramfs_opendir. rewrite E by done. cbn [mbind outcome_bind err_is_fail]. rewrite (o_hnd _ _ _ _ _ _ _ _ _ Ho) at 1. cbn [h_isdir negb]. done.
    + apply rep_hnd; [apply Ho|apply Hh].
  - looked_up HR Hc Ho E. destruct (close_run D f g p false r h Hf Hh s1 a Ho) as (s2 & E2 & HR2 & _). eapply served_intro; [|exact HR2]. intros fuel Hfu. cbn [fexec]. unfold ramfs_opendir. rewrite E by done. cbn [mbind outcome_bind err_is_fail]. rewrite (o_hnd _ _ _ _ _ _ _ _ _ Ho) at 1. cbn [h_isdir negb]. by rewrite E2.
  - eapply served_intro; [|exact HR]. intros fuel Hfu. cbn [fexec]. unfold ramfs_opendir. rewrite (lookup_fail D f g s HR) by done. cbn [mbind outcome_bind]. by rewrite lookup_err_fail.
Qed.

Lemma serve_close h e f' g' : fs_spec (FClose h) f g = Some (e, f', g') -> served (FClose h) D s e f' g'.
Proof using HR.
  cbn [fs_spec]. destruct (g !! h) as [p|] eqn:Hg; [|done]. destruct (f !! p) as [[b r]|] eqn:Hf; [|done]. intros [= <- <- <-]. destruct (r_hnd _ _ _ _ HR h p Hg) as (a & Ha & Hi & Hd & Hh0). pose proof (users_pos p h g Hg) as Hu. pose proof (r_count _ _ _ _ HR p b r Hf) as Hr.
  destruct (rep_at _ _ _ _ _ _ _ HR Hf) as (a' & Ha' & _ & Hcr). rewrite Ha in Ha'. injection Ha' as <-. eapply served_intro.
  - intros fuel _. cbn [fexec]. unfold ramfs_close. rewrite Hi. unfold handle_close, nonnull. destruct (Z.eqb_spec h 0); [done|]. cbn [mbind outcome_bind]. rewrite Hd, Hcr. destruct (Z.ltb_spec 0 r); [|lia]. done.
  - apply rep_recount; [by eapply rep_del|done|]. rewrite (users_delete p) by done. rewrite decide_True by done. lia.
Qed.

Lemma delete_recount r p : delete p (recount r p f) = delete p f.
Proof using. apply map_eq. intros q. unfold recount. destruct (decide (q = p)) as [->|Hq]; [by rewrite !lookup_delete_eq|rewrite !lookup_delete_ne by done; by rewrite lookup_alter_ne]. Qed.

Lemma serve_remove h slash p e f' g' : Forall wfn p -> new_handle g h -> fs_spec (FRemove h slash p) f g = Some (e, f', g') -> served (FRemove h slash p) D s e f' g'.
Proof using HR Hc.
  intros Hp Hh. cbn [fs_spec]. destruct (f !! p) as [[[] r]|] eqn:Hf.
  - intros [= <- <- <-]. looked_up HR Hc Ho E. eapply served_intro; [|apply Ho]. intros fuel Hfu. cbn [fexec]. unfold ramfs_remove. rewrite E by done. cbn [mbind outcome_bind err_is_fail]. handle_fields Ho. done.
  - looked_up HR Hc Ho E. destruct (Z.eqb_spec r 0) as [->|Hr]; intros [= <- <- <-].
    + destruct p as [|n q _] using rev_ind; [destruct (rep_root D f g s HR); congruence|].
      destruct (rep_remove D _ g s1 q n a (o_rep _ _ _ _ _ _ _ _ _ Ho) (o_walk _ _ _ _ _ _ _ _ _ Ho)) as (D' & s2 & E2 & HR2 & Hus).
      * left. destruct (D !! a) eqn:Ea; [|done]. assert (de_is_dir (ent s1 a) = true) as Ed by (apply (walk_dir D s1 (r_tree _ _ _ _ (o_rep _ _ _ _ _ _ _ _ _ Ho)) (q ++ [n])); [apply Ho|by eexists]). rewrite (o_dir _ _ _ _ _ _ _ _ _ Ho) in Ed. done.
      * pose proof (o_users _ _ _ _ _ _ _ _ _ Ho). lia.
      * rewrite delete_recount in HR2. eapply served_change; [|exact HR2|left; by apply Hus]. intros fuel Hfu. cbn [fexec]. unfold ramfs_remove. rewrite E by done. cbn [mbind outcome_bind err_is_fail]. handle_fields Ho. rewrite (o_ref _ _ _ _ _ _ _ _ _ Ho). cbn [Z.add Z.eqb negb Pos.eqb]. by rewrite E2.
    + destruct (close_run D f g p false r h Hf Hh s1 a Ho) as (s2 & E2 & HR2 & _). eapply served_intro; [|exact HR2]. intros fuel Hfu. cbn [fexec]. unfold ramfs_remove. rewrite E by done. cbn [mbind outcome_bind err_is_fail]. handle_fields Ho. rewrite (o_ref _ _ _ _ _ _ _ _ _ Ho). destruct (Z.eqb_spec (r + 1) 1); [lia|]. cbn [negb]. by rewrite E2.
  - intros [= <- <- <-]. eapply served_intro; [|exact HR]. intros fuel Hfu. cbn [fexec]. unfold ramfs_remove. rewrite (lookup_fail D f g s HR) by done. cbn [mbind outcome_bind]. by rewrite lookup_err_fail.
Qed.

(** A directory has entries in memory if there are paths below it. *)
Lemma has_child_list p a : walk D s p = Some a -> de_is_dir (ent s a) = true -> exists l, D !! a = Some l /\ has_child p f = negb (de_dir (ent s a) =? 0) /\ (has_child p f = false -> l = []).
Proof using HR.
  intros Ha Hd. pose proof (r_tree _ _ _ _ HR) as HT. destruct (proj1 (walk_dir D s HT p a Ha) Hd) as [l Hl]. exists l. split; [done|]. destruct (t_dir _ _ HT a l Hl) as (_ & _ & Hk & _).
  assert (has_child p f = true <-> l <> []) as Hi.
  { unfold has_child. rewrite bool_decide_eq_true, Exists_exists. split.
    - intros (q & Hq & Hne & Hab) ->. apply list_elem_of_fmap in Hq as ([q' [b r]] & -> & Hq). apply elem_of_map_to_list in Hq. cbn [fst] in Hne, Hab. destruct (rep_at _ _ _ _ _ _ _ HR Hq) as (c & Hw & _).
      destruct q' as [|n q' _] using rev_ind; [done|]. rewrite above_snoc in Hab. subst q'. destruct (rep_above _ _ _ _ _ _ _ HR Hw) as (b' & l1 & l2 & Hb & Hbl & _). rewrite Ha in Hb. injection Hb as <-. rewrite Hl in Hbl. by destruct l1.
    - intros Hne. destruct l as [|c l]; [done|]. exists (p ++ [de_name (ent s c)]). split_and!; [|by destruct p|apply above_snoc].
      apply list_elem_of_fmap. exists (p ++ [de_name (ent s c)], (de_is_dir (ent s c), de_refcount (ent s c))). split; [done|]. apply elem_of_map_to_list. rewrite (r_abs _ _ _ _ HR), walk_snoc, Ha. cbn [mbind option_bind]. rewrite (child_of D s HT a (c :: l) c Hl ltac:(left)). done. }
  pose proof (dlist_head _ _ _ Hk) as Hh. pose proof (dlist_nonnull _ _ _ Hk) as Hz. destruct l as [|c l].
  - destruct (has_child p f); [exfalso; by apply Hi|]. by rewrite Hh.
  - destruct (has_child p f); [|exfalso; assert (false = true) by (by apply Hi); done]. rewrite Hh. cbn. destruct (Z.eqb_spec c 0) as [->|]; [destruct Hz; left|done].
Qed.
End Serve.

Section Directories.
Context (D : gmap Z (list Z)) (f : fsmap) (g : handles) (s : ramfs).
Hypothesis (HR : fs_rep D f g s) (Hc : map_Forall (fun _ (y : bool * Z) => y.2 + 1 < 2 ^ 32) f).

Lemma has_child_recount r p q : has_child q (recount r p f) = has_child q f.
Proof using.
  unfold has_child. apply bool_decide_ext. rewrite !Exists_exists. split; intros (x & Hx & H12); exists x; (split; [|done]); apply list_elem_of_fmap in Hx as ([x' y] & -> & Hx); apply elem_of_map_to_list in Hx; unfold recount in Hx.
  - destruct (f !! x') as [z|] eqn:E; [apply list_elem_of_fmap; exists (x', z); split; [done|by apply elem_of_map_to_list]|]. destruct (decide (x' = p)) as [->|Hne]; [by rewrite lookup_alter_eq, E in Hx|by rewrite lookup_alter_ne, E in Hx].
  - apply list_elem_of_fmap. destruct (decide (x' = p)) as [->|Hne]; [exists (p, (y.1, r))|exists (x', y)]; (split; [done|]); apply elem_of_map_to_list; unfold recount; [by rewrite lookup_alter_eq, Hx|by rewrite lookup_alter_ne].
Qed.

Lemma serve_rmdir h slash p e f' g' : Forall wfn p -> new_handle g h -> fs_spec (FRmdir h slash p) f g = Some (e, f', g') -> served (FRmdir h slash p) D s e f' g'.
Proof using HR Hc.
  intros Hp Hh. cbn [fs_spec]. destruct (f !! p) as [[[] r]|] eqn:Hf.
  - looked_up HR Hc Ho E. pose proof (o_rep _ _ _ _ _ _ _ _ _ Ho) as HR1. destruct (Z.eqb_spec r 0) as [->|Hr]; cbn [negb].
    + destruct (has_child_list D _ g s1 HR1 p a (o_walk _ _ _ _ _ _ _ _ _ Ho) (o_dir _ _ _ _ _ _ _ _ _ Ho)) as (l & Hl & Hk & Hnil). rewrite has_child_recount in Hk, Hnil.
      assert (forall fuel, deep_enough D fuel -> fexec fuel (FRmdir h slash p) s = if has_child p f then Done (err FS_ERR_NOTEMPTY, s1) else '(s) ← dirent_remove_and_free a s1; Done (SYS_ERR_OK, s)) as Hrun.
      { intros fuel Hfu. cbn [fexec]. unfold ramfs_rmdir. rewrite E by done. cbn [mbind outcome_bind err_is_fail]. handle_fields Ho. rewrite (o_ref _ _ _ _ _ _ _ _ _ Ho). cbn [Z.add Z.eqb negb Pos.eqb]. rewrite (o_dir _ _ _ _ _ _ _ _ _ Ho). cbn [assert mbind outcome_bind]. by rewrite <- Hk. }
      destruct (has_child p f) eqn:Hch; [intros [= <- <- <-]; by eapply served_intro; [exact Hrun|]|]. case_bool_decide as Hne; intros [= <- <- <-]. destruct p as [|n q _] using rev_ind; [done|].
      destruct (rep_remove D _ g s1 q n a HR1 (o_walk _ _ _ _ _ _ _ _ _ Ho)) as (D' & s2 & E2 & HR2 & Hus); [right; rewrite Hl; f_equal; by apply Hnil|pose proof (o_users _ _ _ _ _ _ _ _ _ Ho); lia|].
      rewrite delete_recount in HR2. eapply served_change; [|exact HR2|left; by apply Hus]. intros fuel Hfu. rewrite Hrun by done. by rewrite E2.
    + intros [= <- <- <-]. destruct (close_run D f g p true r h Hf Hh s1 a Ho) as (s2 & E2 & HR2 & _). eapply served_intro; [|exact HR2]. intros fuel Hfu. cbn [fexec]. unfold ramfs_rmdir. rewrite E by done. cbn [mbind outcome_bind err_is_fail]. handle_fields Ho. rewrite (o_ref _ _ _ _ _ _ _ _ _ Ho). destruct (Z.eqb_spec (r + 1) 1); [lia|]. cbn [negb]. by rewrite E2.
  - done.
  - intros [= <- <- <-]. eapply served_intro; [|exact HR]. intros fuel Hfu. cbn [fexec]. unfold ramfs_rmdir. rewrite (lookup_fail D f g s HR) by done. cbn [mbind outcome_bind]. by rewrite lookup_err_fail.
Qed.

(** A file that is removed as a directory. *)
Lemma serve_rmdir_file h slash p r : Forall wfn p -> new_handle g h -> f !! p = Some (false, r) -> served (FRmdir h slash p) D s SYS_ERR_OK (recount (r + 1) p f) g.
Proof using HR Hc.
  intros Hp Hh Hf. looked_up HR Hc Ho E. eapply served_intro; [|apply Ho]. intros fuel Hfu. cbn [fexec]. unfold ramfs_rmdir. rewrite E by done. cbn [mbind outcome_bind err_is_fail]. handle_fields Ho. done.
Qed.
End Directories.

(** ** New entries *)

Section Create.
Context (D : gmap Z (list Z)) (f : fsmap) (g : handles) (s : ramfs).
Hypothesis (HR : fs_rep D f g s) (Hc : map_Forall (fun _ (y : bool * Z) => y.2 + 1 < 2 ^ 32) f).
Context (hp : Z) (slash : bool) (q : list (list Z)) (n : list Z).
Hypothesis (Hq : Forall wfn (q ++ [n])) (Hhp : new_handle g hp) (Hno : f !! (q ++ [n]) = None).

(** Nothing is there yet. *)
Lemma create_absent fuel : deep_enough D fuel -> resolve_path fuel (fs_root s) (path_str slash (q ++ [n])) None s = Done (lookup_err f [] (q ++ [n]), 0, s) /\ err_is_ok (lookup_err f [] (q ++ [n])) = false.
Proof. intros Hfu. split; [by apply (lookup_fail D f g)|]. unfold err_is_ok. by rewrite lookup_err_fail. Qed.

Lemma parent_missing fuel : f !! q = None -> deep_enough D fuel -> find_parent fuel hp (path_str slash (q ++ [n])) s = Done (lookup_err f [] q, Some 0, n, s).
Proof.
  intros Hf Hfu. apply Forall_app in Hq as [Hq' [Hn _]%Forall_cons]. unfold find_parent. destruct (split_path slash q n Hn) as [(-> & _)|(sl & ->)]; [destruct (rep_root D f g s HR); congruence|]. by rewrite (lookup_fail D f g s HR).
Qed.

Lemma parent_file r : f !! q = Some (false, r) -> exists a s', opened D f g a hp q false r s' /\ forall fuel, deep_enough D fuel -> find_parent fuel hp (path_str slash (q ++ [n])) s = Done (SYS_ERR_OK, Some hp, n, s').
Proof.
  intros Hf. apply Forall_app in Hq as [Hq' [Hn _]%Forall_cons]. destruct (lookup_open D f g s HR Hc hp q false r Hq' Hhp Hf) as (a & s' & Ho & E). exists a, s'. split; [done|]. intros fuel Hfu. unfold find_parent.
  destruct (split_path slash q n Hn) as [(-> & _)|(sl & ->)]; [destruct (rep_root D f g s HR); congruence|]. by rewrite E.
Qed.

Lemma parent_dir r x d : f !! q = Some (true, r) -> fresh D x -> exists parent s1 D' s2, (forall fuel, deep_enough D fuel -> find_parent fuel hp (path_str slash (q ++ [n])) s = Done (SYS_ERR_OK, parent, n, s1)) /\
  match parent with Some p => negb (h_isdir (hnd s1 p)) | None => false end = false /\ insert_child parent x (dirent_create x n d s1) = Done s2 /\ fs_rep D' (<[q ++ [n] := (d, 0)]> f) g s2 /\ walk D' s2 (q ++ [n]) = Some x /\ forall y, used D' y -> used D y \/ y = x.
Proof.
  intros Hf Hx. pose proof Hq as [Hq' [Hn _]%Forall_cons]%Forall_app. unfold find_parent. destruct (split_path slash q n Hn) as [(Eq & Hs & Ep)|(sl & Hs)].
  - rewrite Hs, Ep. subst q. destruct (insert_child_root D f g s HR x n d Hx Hno) as (D' & s' & E & HR' & Hw & Hus). by exists None, s, D', s'.
  - rewrite Hs. destruct (lookup_open D f g s HR Hc hp q true r Hq' Hhp Hf) as (a & s1 & Ho & E). destruct (insert_child_handle D f g s1 a hp q r x n d Ho Hhp Hf Hx Hno) as (D' & s2 & E2 & HR2 & Hw & Hus). exists (Some hp), s1, D', s2. split_and!; [|by handle_fields Ho|done..]. intros fuel Hfu. by rewrite E.
Qed.

Lemma serve_mkdir x e f' g' : fresh D x -> fs_spec (FMkdir hp x slash (q ++ [n])) f g = Some (e, f', g') -> served (FMkdir hp x slash (q ++ [n])) D s e f' g'.
Proof.
  intros Hx. cbn [fs_spec]. rewrite Hno, above_snoc. destruct (f !! q) as [[[] r]|] eqn:Hf; intros [= <- <- <-].
  - destruct (parent_dir r x true Hf Hx) as (parent & s1 & D' & s2 & E & Ed & E2 & HR2 & _ & Hus). eapply served_change; [|exact HR2|exact Hus]. intros fuel Hfu. destruct (create_absent fuel Hfu) as [E0 E1]. cbn [fexec]. unfold ramfs_mkdir. rewrite E0. cbn [mbind outcome_bind]. rewrite E1, E by done. cbn [mbind outcome_bind err_is_fail]. rewrite Ed. destruct (Z.eqb_spec x 0); [by destruct Hx|]. by rewrite E2.
  - destruct (parent_file r Hf) as (a & s1 & Ho & E). destruct (close_run D f g q false r hp Hf Hhp s1 a Ho) as (s2 & E2 & HR2 & _). eapply served_intro; [|exact HR2]. intros fuel Hfu. destruct (create_absent fuel Hfu) as [E0 E1]. cbn [fexec]. unfold ramfs_mkdir. rewrite E0. cbn [mbind outcome_bind]. rewrite E1, E by done. cbn [mbind outcome_bind err_is_fail]. handle_fields Ho. change (default 0 (Some hp)) with hp. by rewrite E2.
Qed.

(** A directory below one that does not exist. *)
Lemma mkdir_orphan x fuel : f !! q = None -> deep_enough D fuel -> fexec fuel (FMkdir hp x slash (q ++ [n])) s = Fault NullDereference.
Proof.
  intros Hf Hfu. destruct (create_absent fuel Hfu) as [E0 E1]. cbn [fexec]. unfold ramfs_mkdir. rewrite E0. cbn [mbind outcome_bind]. rewrite E1, parent_missing by done. cbn [mbind outcome_bind]. by rewrite lookup_err_fail.
Qed.

Lemma serve_create x ret e f' g' : fresh D x -> (forall h, ret = Some h -> new_handle g h) -> fs_spec (FCreate hp x ret slash (q ++ [n])) f g = Some (e, f', g') -> served (FCreate hp x ret slash (q ++ [n])) D s e f' g'.
Proof.
  intros Hx Hret. cbn [fs_spec]. rewrite Hno, above_snoc. destruct (f !! q) as [[[] r]|] eqn:Hf.
  - destruct (parent_dir r x false Hf Hx) as (parent & s1 & D' & s2 & E & Ed & E2 & HR2 & Hw & Hus). destruct ret as [h|]; intros [= <- <- <-].
    + specialize (Hret h eq_refl). destruct (open_run D' _ g (q ++ [n]) false 0 h (lookup_insert_eq _ _ _) Hret s2 x HR2 Hw ltac:(lia)) as (s3 & E3 & Ho). eapply served_change; [| |exact Hus].
      * intros fuel Hfu. destruct (create_absent fuel Hfu) as [E0 E1]. cbn [fexec]. unfold ramfs_create. rewrite E0. cbn [mbind outcome_bind]. rewrite E1, E by done. cbn [mbind outcome_bind err_is_fail]. rewrite Ed. destruct (Z.eqb_spec x 0); [by destruct Hx|]. rewrite E2. cbn [mbind outcome_bind]. rewrite E3. destruct (Z.eqb_spec h 0); [by destruct Hret|]. done.
      * assert (recount (0 + 1) (q ++ [n]) (<[q ++ [n] := (false, 0)]> f) = <[q ++ [n] := (false, 1)]> f) as Ef by (unfold recount; by rewrite alter_insert_eq).
        pose proof (o_rep _ _ _ _ _ _ _ _ _ Ho) as HR3. rewrite Ef in HR3. eapply (rep_add _ _ _ _ _ _ x false 1); try apply Ho; [done|done|by rewrite (o_hnd _ _ _ _ _ _ _ _ _ Ho)..|by rewrite lookup_insert_eq|]. pose proof (o_users _ _ _ _ _ _ _ _ _ Ho). lia.
    + eapply served_change; [|exact HR2|exact Hus]. intros fuel Hfu. destruct (create_absent fuel Hfu) as [E0 E1]. cbn [fexec]. unfold ramfs_create. rewrite E0. cbn [mbind outcome_bind]. rewrite E1, E by done. cbn [mbind outcome_bind err_is_fail]. rewrite Ed. destruct (Z.eqb_spec x 0); [by destruct Hx|]. by rewrite E2.
  - intros [= <- <- <-]. destruct (parent_file r Hf) as (a & s1 & Ho & E). eapply served_intro; [|apply Ho]. intros fuel Hfu. destruct (create_absent fuel Hfu) as [E0 E1]. cbn [fexec]. unfold ramfs_create. rewrite E0. cbn [mbind outcome_bind]. rewrite E1, E by done. cbn [mbind outcome_bind err_is_fail]. handle_fields Ho. done.
  - intros [= <- <- <-]. eapply served_intro; [|exact HR]. intros fuel Hfu. destruct (create_absent fuel Hfu) as [E0 E1]. cbn [fexec]. unfold ramfs_create. rewrite E0. cbn [mbind outcome_bind]. rewrite E1, parent_missing by done. cbn [mbind outcome_bind]. by rewrite lookup_err_fail.
Qed.
End Create.

(** A path that exists is not created again. *)
Lemma serve_exists D f g s x slash p y : fs_rep D f g s -> Forall wfn p -> f !! p = Some y -> (exists hp a, x = FMkdir hp a slash p \/ exists ret, x = FCreate hp a ret slash p) -> served x D s (err FS_ERR_EXISTS) f g.
Proof.
  intros HR Hp Hf (hp & a & Hx). destruct y as [b r]. eapply served_intro; [|exact HR]. intros fuel Hfu. destruct Hx as [->|[ret ->]]; cbn [fexec]; unfold ramfs_mkdir, ramfs_create; by rewrite (lookup_only D f g s HR fuel slash p b r).
Qed.

(** A new file system is one empty directory. *)
Lemma rep_mount a s : a <> 0 -> exists s', ramfs_mount a s = (SYS_ERR_OK, s') /\ fs_rep {[a := []]} {[[] := (true, 0)]} ∅ s'.
Proof.
  intros Ha. unfold ramfs_mount. destruct (Z.eqb_spec a 0); [done|]. eexists. split; [done|]. constructor.
  - constructor; cbn; rewrite ?fn_lookup_insert.
    + rewrite lookup_singleton_eq. by eexists.
    + done.
    + intros b l [<- <-]%lookup_singleton_Some. rewrite fn_lookup_insert. split_and!; [done|done|by apply dlist_empty|constructor].
    + intros b l c [<- <-]%lookup_singleton_Some ?%elem_of_nil. done.
  - intros p. destruct p as [|m p]; cbn.
    + by rewrite lookup_singleton_eq, fn_lookup_insert.
    + rewrite lookup_singleton_ne by done. unfold child. rewrite lookup_singleton_eq. cbn. by induction p.
  - intros h p. by rewrite lookup_empty.
  - intros p b r [_ [= <- <-]]%lookup_singleton_Some. done.
Qed.

(** * Data *)

(** The file at [a] holds [l]. *)
Definition holds (l : list Z) (d : ramfs_dirent) : Prop := default [] (de_data d) = l /\ de_size d = Z.of_nat (length l).

Fixpoint write_all (junk : Z -> Z) (h : Z) (bs : list (list Z)) (s : ramfs) : outcome ramfs :=
  match bs with
  | [] => Done s
  | b :: bs => '(e, n, s) ← ramfs_write junk true h b s; ASSERT err_is_ok e && (n =? Z.of_nat (length b)); write_all junk h bs s
  end.
Fixpoint read_all (h : Z) (ns : list Z) (s : ramfs) : outcome (list Z * ramfs) :=
  match ns with
  | [] => Done ([], s)
  | n :: ns => '(e, l, s) ← ramfs_read h n s; ASSERT err_is_ok e; '(l', s) ← read_all h ns s; Done (l ++ l', s)
  end.

(** A file with the handle [h] at [pos]. *)
Definition file_at (h a pos : Z) (l : list Z) (s : ramfs) : Prop := hnd s h = Handle false a pos /\ holds l (ent s a).

Lemma write_append junk h a l b s : file_at h a (Z.of_nat (length l)) l s -> Z.of_nat (length (l ++ b)) < 2 ^ 32 ->
  exists s', ramfs_write junk true h b s = Done (SYS_ERR_OK, Z.of_nat (length b), s') /\ file_at h a (Z.of_nat (length (l ++ b))) (l ++ b) s'.
Proof.
  intros [Hh [Hd Hz]] Hb. rewrite length_app in *. unfold ramfs_write. rewrite Hh. cbn [h_pos h_dirent h_isdir]. destruct (Z.leb_spec 0 (Z.of_nat (length l))); [|lia]. cbn [assert mbind outcome_bind negb andb]. rewrite andb_false_r, Hz.
  assert (u32 (Z.of_nat (length l)) = Z.of_nat (length l)) as -> by (apply u32_small; lia). assert (u32 (Z.of_nat (length l) + Z.of_nat (length b)) = Z.of_nat (length l) + Z.of_nat (length b)) as -> by (apply u32_small; lia).
  destruct (Z.ltb_spec (Z.of_nat (length l)) (Z.of_nat (length l) + Z.of_nat (length b))) as [Hlt|Hge].
  - set (r := realloc _ _ _). assert (exists k, r = l ++ k /\ length k = length b) as (k & -> & Hk).
    { unfold r, realloc. rewrite Hd. rewrite take_ge by lia. eexists. split; [done|]. rewrite length_fmap, length_seqZ. lia. }
    rewrite length_app. destruct (Z.ltb_spec (Z.of_nat (length l + length k)) (Z.of_nat (length l) + Z.of_nat (length b))); [lia|]. rewrite andb_false_r. cbn [orb]. eexists. split; [done|]. split; [cbn; rewrite fn_lookup_insert; unfold with_pos; cbn; f_equal; lia|]. cbn. rewrite fn_lookup_insert. split; cbn.
    + rewrite Nat2Z.id, take_app_length, drop_ge by (rewrite length_app; lia). by rewrite app_nil_r.
    + rewrite length_app. lia.
  - destruct b as [|? ?]; [|cbn in Hge; lia]. cbn [length Z.of_nat Z.ltb Z.compare andb orb]. rewrite Z.add_0_r, app_nil_r, Nat.add_0_r. eexists. split; [done|]. cbn [app]. rewrite take_drop. split; [by destruct (bool_decide _); cbn; rewrite fn_lookup_insert|]. rewrite Hd. case_bool_decide as Hs; cbn; [|done]. rewrite fn_lookup_insert. split; [done|]. done.
Qed.

Lemma write_appends junk h a bs : forall l s, file_at h a (Z.of_nat (length l)) l s -> Z.of_nat (length (l ++ concat bs)) < 2 ^ 32 ->
  exists s', write_all junk h bs s = Done s' /\ file_at h a (Z.of_nat (length (l ++ concat bs))) (l ++ concat bs) s'.
Proof.
  induction bs as [|b bs IH]; intros l s Hf Hlen; cbn [write_all concat]; [exists s; by rewrite app_nil_r|]. cbn [concat] in Hlen. rewrite app_assoc in Hlen |- *.
  destruct (write_append junk h a l b s Hf) as (s1 & -> & Hf1); [rewrite length_app in Hlen; lia|]. cbn [mbind outcome_bind]. rewrite Z.eqb_refl. cbn [assert err_is_ok err_is_fail negb andb mbind outcome_bind]. by apply IH.
Qed.

Lemma read_at h a pos l n s : file_at h a pos l s -> 0 <= pos <= Z.of_nat (length l) -> 0 <= n ->
  exists s', ramfs_read h n s = Done (SYS_ERR_OK, take (Z.to_nat n) (drop (Z.to_nat pos) l), s') /\ file_at h a (Z.min (pos + n) (Z.of_nat (length l))) l s'.
Proof.
  intros [Hh [Hd Hz]] Hp Hn. unfold ramfs_read. rewrite Hh. cbn [h_pos h_dirent h_isdir]. destruct (Z.leb_spec 0 pos); [|lia]. cbn [assert mbind outcome_bind]. rewrite Hd, Hz. set (k := if bool_decide _ then _ else _).
  assert (k = Z.min n (Z.of_nat (length l) - pos)) as Ek.
  { unfold k. case_bool_decide as E; [rewrite E in Hd; cbn in Hd; subst l; cbn in *; lia|]. destruct (Z.ltb_spec (Z.of_nat (length l)) pos); [lia|]. destruct (Z.ltb_spec (Z.of_nat (length l)) (pos + n)); lia. }
  destruct (Z.ltb_spec (Z.of_nat (length l)) (pos + k)); [lia|]. rewrite andb_false_r. eexists. split.
  - do 3 f_equal. rewrite Ek. destruct (Z.le_gt_cases n (Z.of_nat (length l) - pos)); [f_equal; lia|]. rewrite !take_ge by (rewrite length_drop; lia). done.
  - split; [|done]. cbn. rewrite fn_lookup_insert. unfold with_pos. cbn. f_equal. lia.
Qed.

Lemma read_chunks h a l ns : Forall (Z.le 0) ns -> forall pos s, file_at h a pos l s -> 0 <= pos <= Z.of_nat (length l) -> exists s', read_all h ns s = Done (take (Z.to_nat (foldr Z.add 0 ns)) (drop (Z.to_nat pos) l), s').
Proof.
  induction 1 as [|n ns Hn Hns IH]; intros pos s Hf Hp; cbn [read_all foldr]; [by exists s|]. assert (0 <= foldr Z.add 0 ns) as Hsum by (clear IH; induction Hns; cbn; lia).
  destruct (read_at h a pos l n s Hf Hp Hn) as (s1 & -> & Hf1). cbn [mbind outcome_bind err_is_ok err_is_fail negb assert]. destruct (IH _ s1 Hf1 ltac:(lia)) as [s2 ->]. exists s2. cbn. do 2 f_equal.
  rewrite Z2Nat.inj_add by lia. rewrite <- take_take_drop, drop_drop. destruct (Z.le_gt_cases (pos + n) (Z.of_nat (length l))).
  - do 3 f_equal. lia.
  - f_equal. by rewrite !drop_ge by lia.
Qed.

(** C40: What is written to the end of a file, in any number of writes, is
    behind what the file held: the size is the sum, and after a seek to any
    place of the file any reads give the bytes from there, up to the end. *)
Theorem ramfs_data_roundtrip junk h a l s bs pos ns : file_at h a (Z.of_nat (length l)) l s -> Z.of_nat (length (l ++ concat bs)) < 2 ^ 32 -> 0 <= pos <= Z.of_nat (length (l ++ concat bs)) -> Forall (Z.le 0) ns ->
  exists s1 s2 s3, write_all junk h bs s = Done s1 /\ ramfs_stat h s1 = (false, Z.of_nat (length (l ++ concat bs))) /\ ramfs_seek h FS_SEEK_SET pos s1 = Done s2 /\
  read_all h ns s2 = Done (take (Z.to_nat (foldr Z.add 0 ns)) (drop (Z.to_nat pos) (l ++ concat bs)), s3).
Proof.
  intros Hf Hlen Hpos Hns. destruct (write_appends junk h a bs l s Hf Hlen) as (s1 & E1 & [Hh Hd]). eexists s1, _.
  assert (file_at h a pos (l ++ concat bs) (set_hnd h (with_pos pos (hnd s1 h)) s1)) as Hf2 by (split; [cbn; by rewrite fn_lookup_insert, Hh|done]). destruct (read_chunks h a _ ns Hns pos _ Hf2 Hpos) as [s3 E3]. exists s3. split_and!; [done| | |exact E3].
  - unfold ramfs_stat. rewrite Hh. cbn. f_equal. apply Hd.
  - unfold ramfs_seek. rewrite Hh. cbn [h_isdir]. destruct (Z.leb_spec 0 pos); [done|lia].
Qed.

(** * The refinement *)

Lemma ramfs_step D f g s x e f' g' : fs_rep D f g s -> allowed D f g x -> fs_spec x f g = Some (e, f', g') -> served x D s e f' g'.
Proof.
  intros HR [Hc Ha] Hx. destruct x as [h sl p|h sl p|hp a ret sl p|hp a sl p|h sl p|h sl p|h]; [destruct Ha as [Hp Ha]..|].
  - by apply (serve_open D f g).
  - by apply (serve_opendir D f g).
  - destruct Ha as (Hhp & Ha0 & Hus & Hret). pose proof (used_fresh D a Ha0 Hus) as Hfr. destruct (f !! p) eqn:Hf; [cbn in Hx; rewrite Hf in Hx; injection Hx as <- <- <-; eapply serve_exists; eauto|].
    destruct p as [|n q _] using rev_ind; [destruct (rep_root D f g s HR); congruence|]. by apply (serve_create D f g).
  - destruct Ha as (Hhp & Ha0 & Hus). pose proof (used_fresh D a Ha0 Hus) as Hfr. destruct (f !! p) eqn:Hf; [cbn in Hx; rewrite Hf in Hx; injection Hx as <- <- <-; eapply serve_exists; eauto|].
    destruct p as [|n q _] using rev_ind; [destruct (rep_root D f g s HR); congruence|]. by apply (serve_mkdir D f g).
  - by apply (serve_remove D f g).
  - by apply (serve_rmdir D f g).
  - by apply (serve_close D f g).
Qed.

(** C14: the tree of entries in memory, with its linked lists and counts of
    handles, refines a finite map from paths, for paths of well-formed
    names, new memory and counts that do not overflow: mount gives the map
    with the root, and every open, opendir, create, mkdir, remove, rmdir and
    close for which the reference has a result ends with its error and map.
    The reference includes the counts that failed calls leave behind (create
    below a file, remove of a directory, rmdir of a directory that is not
    empty), and has no result for mkdir without a parent, which is shown to
    dereference a null pointer where dirent.h documents FS_ERR_NOTFOUND;
    rmdir of a file, which is shown to return success and to leave the file
    with one handle more where dirent.h documents FS_ERR_NOTDIR; and, left
    out of the property, for rmdir of an empty root and close of a handle
    that is not open. *)
Theorem ramfs_refines_map :
  (forall a s, a <> 0 -> exists s', ramfs_mount a s = (SYS_ERR_OK, s') /\ fs_rep {[a := []]} {[[] := (true, 0)]} ∅ s') /\
  forall D f g s, fs_rep D f g s ->
    (forall x e f' g', allowed D f g x -> fs_spec x f g = Some (e, f', g') ->
     exists n D' s', (forall fuel, (n <= fuel)%nat -> fexec fuel x s = Done (e, s')) /\ fs_rep D' f' g' s' /\ forall a, used D' a -> used D a \/ made x a) /\
    (forall hp a sl p, allowed D f g (FMkdir hp a sl p) -> f !! p = None -> f !! above p = None -> exists n, forall fuel, (n <= fuel)%nat -> fexec fuel (FMkdir hp a sl p) s = Fault NullDereference) /\
    (forall h sl p r, allowed D f g (FRmdir h sl p) -> f !! p = Some (false, r) ->
     exists n D' s', (forall fuel, (n <= fuel)%nat -> fexec fuel (FRmdir h sl p) s = Done (SYS_ERR_OK, s')) /\ fs_rep D' (recount (r + 1) p f) g s').
Proof.
  split; [apply rep_mount|]. intros D f g s HR. split; [intros; by eapply ramfs_step|]. split.
  - intros hp a sl p (Hc & Hp & _) Hf Ha. destruct (enough_fuel D) as [n Hn]. exists n. intros fuel Hfu. destruct p as [|m q _] using rev_ind; [destruct (rep_root D f g s HR); congruence|]. rewrite above_snoc in Ha. apply (mkdir_orphan D f g s HR hp sl q m); [done|done|done|]. by apply Hn.
  - intros h sl p r (Hc & Hp & Hh) Hf. destruct (serve_rmdir_file D f g s HR Hc h sl p r Hp Hh Hf) as (n & D' & s' & E & HR' & _). by exists n, D', s'.
Qed.

(** * Reading a directory *)

Fixpoint list_all (n : nat) (h : Z) (s : ramfs) : list (list Z * bool * Z) :=
  match n with
  | O => []
  | S n => match ramfs_dir_read_next h s with (_, Some x, s) => x :: list_all n h s | (_, None, _) => [] end
  end.

Lemma list_all_seg h a l : forall n p pos s, seg (elinks s) p pos l 0 -> hnd s h = Handle true a pos -> (length l < n)%nat -> list_all n h s = (fun c => (de_name (ent s c), de_is_dir (ent s c), de_size (ent s c))) <$> l.
Proof.
  induction l as [|c l IH]; intros [|n] p pos s Hs Hh Hn; try (cbn in Hn; lia); cbn [list_all]; unfold ramfs_dir_read_next; rewrite Hh; cbn [h_isdir h_pos negb].
  - by rewrite Hs.
  - destruct Hs as (-> & Hc & _ & Hs). destruct (Z.eqb_spec c 0); [done|]. cbn [fmap list_fmap]. f_equal. set (s' := set_hnd _ _ s). apply (IH n c (nxt (elinks s) c) s'); [exact Hs|unfold s'; cbn; by rewrite fn_lookup_insert|]. cbn in Hn. lia.
Qed.

(** A directory that is opened lists the names below it, each once. *)
Theorem ramfs_lists_dir D f g s h slash p r : fs_rep D f g s -> allowed D f g (FOpendir h slash p) -> f !! p = Some (true, r) ->
  exists n s', (forall fuel, (n <= fuel)%nat -> fexec fuel (FOpendir h slash p) s = Done (SYS_ERR_OK, s')) /\
  forall k, (n <= k)%nat -> NoDup (list_all k h s').*1.*1 /\ forall m, m ∈ (list_all k h s').*1.*1 <-> is_Some (f !! (p ++ [m])).
Proof.
  intros HR [Hc [Hp Hh]] Hf. looked_up HR Hc Ho E. pose proof (o_rep _ _ _ _ _ _ _ _ _ Ho) as HR1. pose proof (r_tree _ _ _ _ HR1) as HT. destruct (proj1 (walk_dir D s1 HT p a (o_walk _ _ _ _ _ _ _ _ _ Ho)) (o_dir _ _ _ _ _ _ _ _ _ Ho)) as [l Hl]. destruct (t_dir _ _ HT a l Hl) as (_ & _ & Hk & Hnd). destruct (enough_fuel D) as [n Hn].
  exists n. eexists. split.
  - intros fuel Hfu. cbn [fexec]. unfold ramfs_opendir. rewrite E by (by apply Hn). cbn [mbind outcome_bind err_is_fail]. rewrite (o_hnd _ _ _ _ _ _ _ _ _ Ho). cbn [h_isdir h_dirent negb]. done.
  - intros k Hkn. rewrite (list_all_seg h a l k 0 (de_dir (ent s1 a))) by (apply Hk || (cbn; by rewrite fn_lookup_insert) || by apply (Hn k Hkn a)). rewrite <- !list_fmap_compose. split; [exact Hnd|]. intros m.
    pose proof (r_abs _ _ _ _ HR1 (p ++ [m])) as Ef. rewrite walk_snoc, (o_walk _ _ _ _ _ _ _ _ _ Ho) in Ef. cbn [mbind option_bind] in Ef. unfold recount in Ef. rewrite lookup_alter_ne in Ef by (intros E'%(f_equal length); rewrite length_app in E'; cbn in E'; lia). rewrite Ef, fmap_is_Some. split.
    + intros (c & -> & Hin)%list_elem_of_fmap. cbn. rewrite (child_of D s1 HT a l c Hl Hin). by eexists.
    + intros [c (l' & Hl' & Hin & <-)%child_elem]. rewrite Hl in Hl'. injection Hl' as <-. by apply (list_elem_of_fmap_2 (fun c => de_name (ent s1 c))).
Qed.

(** * Samples *)

Module RamfsSample.

Definition s0 : ramfs := Ramfs (Links (fun _ => 0) (fun _ => 0)) (fun _ => no_dirent) (fun _ => Handle false 0 0) 0.
Definition mounted : ramfs := (ramfs_mount 1 s0).2.
Definition run (xs : list fcall) (s : ramfs) : outcome (list errval * ramfs) :=
  foldl (fun o x => '(es, s) ← o; '(e, s) ← fexec 9 x s; Done (es ++ [e], s)) (Done ([], s)) xs.
Definition errs {A} (o : outcome (list errval * A)) : option (list errval) := match o with Done (es, _) => Some es | Fault _ => None end.

(** "d" and "f" *)
Definition d : list Z := [100].
Definition f : list Z := [102].

(** A directory and a file in it. *)
Lemma ramfs_refines_map_witness : exists s1 n1 D1 s2 n2 D2 s3, ramfs_mount 1 s0 = (SYS_ERR_OK, s1) /\
  (forall fuel, (n1 <= fuel)%nat -> fexec fuel (FMkdir 11 2 true [d]) s1 = Done (SYS_ERR_OK, s2)) /\ fs_rep D1 (<[[d] := (true, 0)]> {[[] := (true, 0)]}) ∅ s2 /\
  (forall fuel, (n2 <= fuel)%nat -> fexec fuel (FCreate 12 3 (Some 13) true [d; f]) s2 = Done (SYS_ERR_OK, s3)) /\ fs_rep D2 (<[[d; f] := (false, 1)]> (<[[d] := (true, 0)]> {[[] := (true, 0)]})) (<[13 := [d; f]]> ∅) s3.
Proof.
  destruct ramfs_refines_map as [Hm Hx]. destruct (Hm 1 s0 ltac:(lia)) as (s1 & E1 & HR1).
  assert (wfn d /\ wfn f) as [Wd Wf] by (split; (split; [done|]); apply (bool_decide_unpack _); by vm_compute).
  destruct (Hx _ _ _ _ HR1) as [Hx1 _]. destruct (Hx1 (FMkdir 11 2 true [d]) SYS_ERR_OK (<[[d] := (true, 0)]> {[[] := (true, 0)]}) ∅) as (n1 & D1 & s2 & E2 & HR2 & Hu2).
  - split; [by apply (bool_decide_unpack _); vm_compute|]. split; [by rewrite !Forall_cons, Forall_nil|]. split; [done|]. split; [done|]. intros [[l [? _]%lookup_singleton_Some]|(b & l & [_ <-]%lookup_singleton_Some & ?%elem_of_nil)]; done.
  - by vm_compute.
  - assert (~ used D1 3) as H3. { intros [[[l [? _]%lookup_singleton_Some]|(b & l & [_ <-]%lookup_singleton_Some & ?%elem_of_nil)]|?]%Hu2; done. }
    destruct (Hx _ _ _ _ HR2) as [Hx2 _]. destruct (Hx2 (FCreate 12 3 (Some 13) true [d; f]) SYS_ERR_OK (<[[d; f] := (false, 1)]> (<[[d] := (true, 0)]> {[[] := (true, 0)]})) (<[13 := [d; f]]> ∅)) as (n2 & D2 & s3 & E3 & HR3 & _).
    + split; [by apply (bool_decide_unpack _); vm_compute|]. split; [by rewrite !Forall_cons, Forall_nil|]. split; [done|]. split; [done|]. split; [done|]. by intros h [= <-].
    + by vm_compute.
    + by exists s1, n1, D1, s2, n2, D2, s3.
Defined.

(** A file with a handle. *)
Definition with_file : ramfs := match fexec 9 (FCreate 12 3 (Some 13) true [f]) mounted with Done (_, s) => s | Fault _ => s0 end.
Definition zeros (_ : Z) : Z := 0.

Lemma ramfs_data_roundtrip_witness : file_at 13 3 0 [] with_file /\ exists s1 s2 s3, write_all zeros 13 [[1; 2]; [3]] with_file = Done s1 /\ ramfs_stat 13 s1 = (false, 3) /\ ramfs_seek 13 FS_SEEK_SET 1 s1 = Done s2 /\ read_all 13 [1; 5] s2 = Done ([2; 3], s3).
Proof.
  assert (file_at 13 3 0 [] with_file) as Hf by (by vm_compute). split; [done|]. apply (ramfs_data_roundtrip zeros 13 3 [] with_file [[1; 2]; [3]] 1 [1; 5]); [done|by vm_compute|by vm_compute|by rewrite !Forall_cons, Forall_nil].
Defined.

(** How a call ends. *)
Definition fault_of {A} (o : outcome A) : option fault := match o with Done _ => None | Fault x => Some x end.

(** A write over bytes that a file has adds to its size: the file that holds
    two bytes has the size three after one of them is replaced, and to read
    the file is an access behind its block. *)
Example ramfs_overwrite_grows :
  (s ← write_all zeros 13 [[1; 2]] with_file; s ← ramfs_seek 13 FS_SEEK_SET 0 s; s ← write_all zeros 13 [[7]] s; s' ← ramfs_seek 13 FS_SEEK_SET 0 s;
   Done (de_data (ent s 3), ramfs_stat 13 s, fault_of (ramfs_read 13 8 s'))) = Done (Some [7; 2], (false, 3), Some OutOfBounds).
Proof. by vm_compute. Qed.

(** A directory that was opened and closed stays busy. *)
Example ramfs_closedir_busy :
  ('(es, s) ← run [FMkdir 11 2 true [d]; FOpendir 12 true [d]] mounted; Done (es, ramfs_closedir 12 s, errs (run [FRmdir 14 true [d]] s))) = Done ([SYS_ERR_OK; SYS_ERR_OK], SYS_ERR_OK, Some [err FS_ERR_BUSY]).
Proof. by vm_compute. Qed.

(** To remove a directory as a file is refused, and then the directory can not
    be removed either. *)
Example ramfs_remove_leaks : errs (run [FMkdir 11 2 true [d]; FRemove 12 true [d]; FRmdir 13 true [d]] mounted) = Some [SYS_ERR_OK; err FS_ERR_NOTFILE; err FS_ERR_BUSY].
Proof. by vm_compute. Qed.

(** To remove a file as a directory succeeds, and the file stays, busy for
    ever. *)
Example ramfs_rmdir_file : errs (run [FCreate 11 2 None true [f]; FRmdir 12 true [f]; FRemove 13 true [f]] mounted) = Some [SYS_ERR_OK; SYS_ERR_OK; err FS_ERR_BUSY].
Proof. by vm_compute. Qed.

(** A directory that is not empty is busy after it was not removed. *)
Example ramfs_rmdir_leaks : errs (run [FMkdir 11 2 true [d]; FCreate 12 3 None true [d; f]; FRmdir 13 true [d]; FRemove 14 true [d; f]; FRmdir 15 true [d]] mounted) = Some [SYS_ERR_OK; SYS_ERR_OK; err FS_ERR_NOTEMPTY; SYS_ERR_OK; err FS_ERR_BUSY].
Proof. by vm_compute. Qed.

(** A file below a file is refused, and then the upper file can not be
    removed. *)
Example ramfs_create_leaks : errs (run [FCreate 11 2 None true [f]; FCreate 12 3 None true [f; d]; FRemove 13 true [f]] mounted) = Some [SYS_ERR_OK; err FS_ERR_NOTDIR; err FS_ERR_BUSY].
Proof. by vm_compute. Qed.

(** A directory in one that does not exist is a null dereference. *)
Example ramfs_mkdir_no_parent : fault_of (fexec 9 (FMkdir 11 2 true [d; f]) mounted) = Some NullDereference.
Proof. by vm_compute. Qed.

(** The root can be removed. *)
Example ramfs_rmdir_root : ('(e, s) ← fexec 9 (FRmdir 11 true []) mounted; Done (e, ent s (fs_root s))) = Done (SYS_ERR_OK, no_dirent).
Proof. by vm_compute. Qed.

(** A seek in a directory goes to the entries of its parent: the first entry
    of [d] after it is [d]; in the root it is a null dereference. *)
Example ramfs_seek_dir_parent :
  ('(_, s) ← run [FMkdir 11 2 true [d]; FCreate 12 3 None true [d; f]; FOpendir 13 true [d]; FOpendir 14 true []] mounted; s' ← ramfs_seek 13 FS_SEEK_SET 0 s;
   Done ((ramfs_dir_read_next 13 s).1, (ramfs_dir_read_next 13 s').1, fault_of (ramfs_seek 14 FS_SEEK_SET 0 s))) =
  Done ((SYS_ERR_OK, Some (f, false, 0)), (SYS_ERR_OK, Some (d, true, 0)), Some NullDereference).
Proof. by vm_compute. Qed.

(** A path that ends with two separators makes an entry without a name in the
    directory. *)
Example ramfs_create_no_name :
  ('(_, s) ← run [FMkdir 11 2 true [d]] mounted; '(e, _, s) ← ramfs_create 9 12 3 None (path_str true [d] ++ [FS_PATH_SEP; FS_PATH_SEP]) s; Done (e, de_parent (ent s 3), de_name (ent s 3))) = Done (SYS_ERR_OK, 2, []).
Proof. by vm_compute. Qed.
End RamfsSample.
