(* ===== verification/Fopen.v ===== *)
(** The file descriptors of a domain (lib/fs/fopen.c): the table, and the
    calls that the C library makes for open, read, write, close and lseek on
    the file system of Ramfs.v, with its start (lib/fs/fs.c). *)
From S2P Require Import Prelude Ring Chain Ramfs.

Definition MIN_FD : Z := 0.
Definition MAX_FD : Z := 4096.

Inductive fdtab_type := FDTAB_TYPE_AVAILABLE | FDTAB_TYPE_FILE | FDTAB_TYPE_UNIX_SOCKET | FDTAB_TYPE_STDIN | FDTAB_TYPE_STDOUT | FDTAB_TYPE_STDERR.
#[global] Instance fdtab_type_eq_dec : EqDecision fdtab_type.
Proof. solve_decision. Defined.

Record fdtab_entry := FdEntry { fd_type : fdtab_type; fd_handle : Z; fd_fd : Z; fd_inherited : Z; fd_epoll : Z }.

(** The static state of fopen.c, and the variable [errno]; [mount] is what the
    pointer of that name points to. *)
Record fsops := Fsops { fdtab : list fdtab_entry; errno : Z; mount : ramfs }.
Definition set_fdtab (t : list fdtab_entry) (s : fsops) : fsops := Fsops t (errno s) (mount s).
Definition set_errno (e : Z) (s : fsops) : fsops := Fsops (fdtab s) e (mount s).
Definition set_mount (r : ramfs) (s : fsops) : fsops := Fsops (fdtab s) (errno s) r.

Definition fd_invalid : fdtab_entry := FdEntry FDTAB_TYPE_AVAILABLE 0 0 0 0.
Definition fd_std (t : fdtab_type) : fdtab_entry := FdEntry t 0 0 0 0.

(** The table at the start. *)
Definition fdtab_init : list fdtab_entry := [fd_std FDTAB_TYPE_STDIN; fd_std FDTAB_TYPE_STDOUT; fd_std FDTAB_TYPE_STDERR] ++ replicate (Z.to_nat MAX_FD - 3) fd_invalid.

Definition ENOENT : Z := 2.
Definition EEXIST : Z := 17.
Definition EMFILE : Z := 24.
Definition O_CREAT : Z := 512.
Definition O_EXCL : Z := 2048.

Definition fdtab_alloc (h : fdtab_entry) (s : fsops) : Z * fsops :=
  match list_find (fun e => fd_type e = FDTAB_TYPE_AVAILABLE) (fdtab s) with
  | Some (fd, _) => (Z.of_nat fd, set_fdtab (<[fd := h]> (fdtab s)) s)
  | None => (-1, set_errno EMFILE s)
  end.

Definition fdtab_get (fd : Z) (s : fsops) : fdtab_entry :=
  if (fd <? MIN_FD) || (MAX_FD <=? fd) then fd_invalid else default fd_invalid (fdtab s !! Z.to_nat fd).

Definition fdtab_free (fd : Z) (s : fsops) : outcome fsops :=
  ASSERT (MIN_FD <=? fd) && (fd <? MAX_FD);
  let e := fdtab_get fd s in
  ASSERT negb (bool_decide (fd_type e = FDTAB_TYPE_AVAILABLE));
  Done (set_fdtab (<[Z.to_nat fd := FdEntry FDTAB_TYPE_AVAILABLE 0 0 0 (fd_epoll e)]> (fdtab s)) s).

(** A [size_t] that is returned as an [int]. *)
Definition to_int (n : Z) : Z := if n <? 2 ^ 31 then n else n - 2 ^ 32.

(** The memory that a call of open gets: for the handle of the first attempt,
    for the handle of the parent, the new entry and its handle, and for the
    handle of an existing file. *)
Record open_mem := OpenMem { m_excl : Z; m_parent : Z; m_entry : Z; m_create : Z; m_open : Z }.

Section Fopen.
Context (fuel : nat).

(** Entering the handle into the table. *)
Definition open_done (e : errval) (vh : Z) (s : fsops) : outcome (Z * fsops) :=
  if err_is_fail e then Done (-1, if bool_decide (err_no e = Some FS_ERR_NOTFOUND) then set_errno ENOENT s else s) else
  let '(fd, s) := fdtab_alloc (FdEntry FDTAB_TYPE_FILE vh 0 0 (-1)) s in
  if fd <? 0 then '(_, r) ← ramfs_close vh (mount s); Done (-1, set_mount r s) else Done (fd, s).

(** Whether the path can be opened already. *)
Definition open_excl (m : open_mem) (path : list Z) (s : fsops) : outcome (bool * fsops) :=
  '(e, vh, r) ← ramfs_open fuel (m_excl m) path (mount s);
  if err_is_ok e then
    '(_, r) ← ramfs_close vh r;
    Done (true, set_errno EEXIST (set_mount r s))
  else
    ASSERT bool_decide (err_no e = Some FS_ERR_NOTFOUND);
    Done (false, set_mount r s).

Definition fs_libc_open (m : open_mem) (path : list Z) (flags : Z) (s : fsops) : outcome (Z * fsops) :=
  if negb (Z.land flags O_CREAT =? 0) then
    '(exists_already, s) ← (if negb (Z.land flags O_EXCL =? 0) then open_excl m path s else Done (false, s));
    if (exists_already : bool) then Done (-1, s) else
    '(e, vh, r) ← ramfs_create fuel (m_parent m) (m_entry m) (Some (m_create m)) path (mount s);
    '(e, vh, r) ← (if err_is_fail e && bool_decide (e = err FS_ERR_EXISTS) then ramfs_open fuel (m_open m) path r else Done (e, vh, r));
    open_done e vh (set_mount r s)
  else
    '(e, vh, r) ← ramfs_open fuel (m_open m) path (mount s);
    open_done e vh (set_mount r s).
End Fopen.

Definition fs_libc_read (fd len : Z) (s : fsops) : outcome (Z * list Z * fsops) :=
  let e := fdtab_get fd s in
  match fd_type e with
  | FDTAB_TYPE_FILE =>
    ASSERT negb (fd_handle e =? 0);
    '(er, l, r) ← ramfs_read (fd_handle e) len (mount s);
    Done (if err_is_fail er then -1 else to_int (Z.of_nat (length l)), l, set_mount r s)
  | _ => Done (-1, [], s)
  end.

Definition fs_libc_write (junk : Z -> Z) (room : bool) (fd : Z) (buf : list Z) (s : fsops) : outcome (Z * fsops) :=
  let e := fdtab_get fd s in
  match fd_type e with
  | FDTAB_TYPE_FILE =>
    '(er, n, r) ← ramfs_write junk room (fd_handle e) buf (mount s);
    Done (if err_is_fail er then -1 else to_int n, set_mount r s)
  | _ => Done (-1, s)
  end.

Definition fs_libc_close (fd : Z) (s : fsops) : outcome (Z * fsops) :=
  let e := fdtab_get fd s in
  match fd_type e with
  | FDTAB_TYPE_FILE =>
    '(er, r) ← ramfs_close (fd_handle e) (mount s);
    if err_is_fail er then Done (-1, set_mount r s) else
    s ← fdtab_free fd (set_mount r s);
    Done (0, s)
  | _ => Done (-1, s)
  end.

Definition fs_whence (whence : Z) : option fs_seekpos :=
  if whence =? 0 then Some FS_SEEK_SET else if whence =? 1 then Some FS_SEEK_CUR else if whence =? 2 then Some FS_SEEK_END else None.

Definition fs_libc_lseek (fd offset whence : Z) (s : fsops) : outcome (Z * fsops) :=
  let e := fdtab_get fd s in
  match fd_type e with
  | FDTAB_TYPE_FILE =>
    match fs_whence whence with
    | None => Done (-1, s)
    | Some w => r ← ramfs_seek (fd_handle e) w offset (mount s); Done (ramfs_tell (fd_handle e) r, set_mount r s)
    end
  | _ => Done (-1, s)
  end.

(** [a] is the memory of the root, [r] the memory before. *)
Definition filesystem_init (a : Z) (r : ramfs) (s : fsops) : errval * fsops :=
  let '(e, r) := ramfs_mount a r in
  if err_is_fail e then (e, s) else (SYS_ERR_OK, set_mount r s).
