(* ===== verification/FopenCorrect.v ===== *)
(** Correctness of Fopen.v: the table of descriptors, over the file system,
    refines a finite map from descriptors to paths beside the map from paths
    of RamfsCorrect.v. *)
From S2P Require Import Prelude Ring Chain Ramfs RamfsTree RamfsCorrect Fopen.

(** * The reference *)

Abbreviation fdmap := (gmap Z (list (list Z))).

(** The smallest descriptor that is not in use. *)
Definition lowest (t : fdmap) : option Z := snd <$> list_find (fun fd => 3 <= fd /\ t !! fd = None) (seqZ 0 MAX_FD).

Definition has_flag (flags x : Z) : bool := negb (Z.land flags x =? 0).

(** [f] with the new handle, [f0] without. *)
Definition enter_spec (p : list (list Z)) (en : Z) (f f0 : fsmap) (t : fdmap) : option (Z * Z * fsmap * fdmap) :=
  match lowest t with Some fd => Some (fd, en, f, <[fd := p]> t) | None => Some (-1, EMFILE, f0, t) end.

(** The result, [errno], the paths and the descriptors after an open, or
    nothing for a failed assertion. *)
Definition open_spec (p : list (list Z)) (flags en : Z) (f : fsmap) (t : fdmap) : option (Z * Z * fsmap * fdmap) :=
  let creat := has_flag flags O_CREAT in
  let excl := creat && has_flag flags O_EXCL in
  match f !! p with
  | Some (false, r) => if excl then Some (-1, EEXIST, f, t) else enter_spec p en (recount (r + 1) p f) f t
  | Some (true, _) => if excl then None else Some (-1, en, f, t)
  | None =>
    let no_entry := bool_decide (lookup_err f [] p = err FS_ERR_NOTFOUND) in
    if excl && negb no_entry then None
    else if negb creat then Some (-1, if no_entry then ENOENT else en, f, t)
    else
      match f !! above p with
      | None => Some (-1, if bool_decide (lookup_err f [] (above p) = err FS_ERR_NOTFOUND) then ENOENT else en, f, t)
      | Some (false, r) => Some (-1, en, recount (r + 1) (above p) f, t)
      | Some (true, _) => enter_spec p en (<[p := (false, 1)]> f) (<[p := (false, 0)]> f) t
      end
  end.

Definition close_spec (fd : Z) (f : fsmap) (t : fdmap) : option (Z * fsmap * fdmap) :=
  match t !! fd with
  | None => Some (-1, f, t)
  | Some p => match f !! p with Some (_, r) => Some (0, recount (r - 1) p f, delete fd t) | None => None end
  end.

(** * The state in memory *)

Definition entry_ok (t : fdmap) (g : handles) (i : Z) (e : fdtab_entry) : Prop :=
  match t !! i with
  | Some p => fd_type e = FDTAB_TYPE_FILE /\ g !! fd_handle e = Some p
  | None => fd_type e <> FDTAB_TYPE_FILE /\ (fd_type e = FDTAB_TYPE_AVAILABLE <-> 3 <= i)
  end.

Record tab_rep (g : handles) (t : fdmap) (l : list fdtab_entry) : Prop := {
  tr_len : Z.of_nat (length l) = MAX_FD;
  tr_ent : forall i e, l !! i = Some e -> entry_ok t g (Z.of_nat i) e;
  tr_dom : forall fd p, t !! fd = Some p -> 3 <= fd < MAX_FD;
  tr_inj : forall i j e e', l !! i = Some e -> l !! j = Some e' -> fd_type e = FDTAB_TYPE_FILE -> fd_type e' = FDTAB_TYPE_FILE -> fd_handle e = fd_handle e' -> i = j
}.
Definition fd_rep (D : gmap Z (list Z)) (f : fsmap) (g : handles) (t : fdmap) (s : fsops) : Prop := fs_rep D f g (mount s) /\ tab_rep g t (fdtab s).

Definition open_allowed (D : gmap Z (list Z)) (f : fsmap) (g : handles) (m : open_mem) (p : list (list Z)) : Prop :=
  map_Forall (fun _ (y : bool * Z) => y.2 + 1 < 2 ^ 32) f /\ Forall wfn p /\ new_handle g (m_excl m) /\ new_handle g (m_parent m) /\ new_handle g (m_create m) /\ new_handle g (m_open m) /\ m_entry m <> 0 /\ ~ used D (m_entry m).

(** * The table *)

Section Table.
Context (g : handles) (t : fdmap) (l : list fdtab_entry).
Hypothesis HT : tab_rep g t l.

Lemma avail_free i e : l !! i = Some e -> fd_type e = FDTAB_TYPE_AVAILABLE <-> 3 <= Z.of_nat i /\ t !! Z.of_nat i = None.
Proof using HT. intros Hi. pose proof (tr_ent _ _ _ HT i e Hi) as He. unfold entry_ok in He. destruct (t !! Z.of_nat i); [destruct He as [-> _]; split; [done|by intros [_ ?]]|]. tauto. Qed.

Lemma lowest_find : match list_find (fun e => fd_type e = FDTAB_TYPE_AVAILABLE) l with Some (i, _) => lowest t = Some (Z.of_nat i) | None => lowest t = None end.
Proof using HT.
  assert (forall i e, l !! i = Some e -> seqZ 0 MAX_FD !! i = Some (Z.of_nat i)) as Hs. { intros i e Hi. apply lookup_lt_Some in Hi. pose proof (tr_len _ _ _ HT). apply lookup_seqZ. lia. }
  assert (forall i x, seqZ 0 MAX_FD !! i = Some x -> x = Z.of_nat i /\ exists e, l !! i = Some e) as Hl. { intros i x [-> Hi]%lookup_seqZ. split; [lia|]. apply lookup_lt_is_Some. pose proof (tr_len _ _ _ HT). lia. }
  unfold lowest. destruct (list_find _ l) as [[i e]|] eqn:E.
  - apply list_find_Some in E as (Hi & He & Hmin). assert (list_find (fun fd => 3 <= fd /\ t !! fd = None) (seqZ 0 MAX_FD) = Some (i, Z.of_nat i)) as ->; [|done]. apply list_find_Some. split; [by eapply Hs|]. split; [by apply (avail_free i e)|]. intros j y Hj Hji HQ. destruct (Hl j y Hj) as (-> & e' & He'). by apply (Hmin j e' He' Hji), (avail_free j).
  - assert (list_find (fun fd => 3 <= fd /\ t !! fd = None) (seqZ 0 MAX_FD) = None) as ->; [|done]. apply list_find_None in E. apply list_find_None, Forall_lookup. intros i x Hi HQ. destruct (Hl i x Hi) as (-> & e & He). rewrite Forall_lookup in E. by apply (E i e He), (avail_free i).
Qed.

(** A new handle in a free place. *)
Lemma tab_insert i e h p x : l !! i = Some e -> fd_type e = FDTAB_TYPE_AVAILABLE -> g !! h = None -> tab_rep (<[h := p]> g) (<[Z.of_nat i := p]> t) (<[i := FdEntry FDTAB_TYPE_FILE h 0 0 x]> l).
Proof using HT.
  intros Hi He Hh. assert (forall j e', l !! j = Some e' -> fd_type e' = FDTAB_TYPE_FILE -> fd_handle e' <> h) as Hne. { intros j e' Hj He' E. pose proof (tr_ent _ _ _ HT j e' Hj) as Ho. unfold entry_ok in Ho. destruct (t !! Z.of_nat j); [|by destruct Ho]. destruct Ho as [_ Ho]. congruence. }
  constructor.
  - rewrite length_insert. apply HT.
  - intros j e'. rewrite list_lookup_insert_Some. intros [(<- & <- & _)|[Hj He']]; unfold entry_ok; [by rewrite !lookup_insert_eq|]. rewrite lookup_insert_ne by lia. pose proof (tr_ent _ _ _ HT j e' He') as Ho. unfold entry_ok in Ho. destruct (t !! Z.of_nat j); [|done]. destruct Ho as [Hf Ho]. split; [done|]. rewrite lookup_insert_ne; [done|]. intros E. by apply (Hne j e').
  - intros fd q. rewrite lookup_insert_Some. intros [[<- <-]|[_ Hq]]; [|by apply (tr_dom _ _ _ HT fd q)]. destruct (proj1 (avail_free i e Hi) He). pose proof (tr_len _ _ _ HT). apply lookup_lt_Some in Hi. lia.
  - intros j k e1 e2. rewrite !list_lookup_insert_Some. intros [(<- & <- & _)|[Hj H1]] [(<- & <- & _)|[Hk H2]] F1 F2 E; [done| | |by eapply (tr_inj _ _ _ HT)].
    + cbn in E. symmetry in E. by destruct (Hne k e2 H2 F2).
    + cbn in E. by destruct (Hne j e1 H1 F1).
Qed.

(** The entry of a descriptor. *)
Lemma tab_get fd p s : fdtab s = l -> t !! fd = Some p -> exists e, l !! Z.to_nat fd = Some e /\ Z.of_nat (Z.to_nat fd) = fd /\ 3 <= fd < MAX_FD /\ fdtab_get fd s = e /\ fd_type e = FDTAB_TYPE_FILE /\ g !! fd_handle e = Some p.
Proof using HT.
  intros Es Hp. pose proof (tr_dom _ _ _ HT fd p Hp) as Hd. destruct (lookup_lt_is_Some_2 l (Z.to_nat fd)) as [e He]; [pose proof (tr_len _ _ _ HT); lia|]. assert (Z.of_nat (Z.to_nat fd) = fd) as Ez by lia. pose proof (tr_ent _ _ _ HT _ _ He) as Ho. unfold entry_ok in Ho. rewrite Ez, Hp in Ho. exists e. split_and!; try (done || apply Ho || lia).
  unfold fdtab_get. rewrite Es, He. unfold MIN_FD in *. destruct (Z.ltb_spec fd 0); [lia|]. by destruct (Z.leb_spec MAX_FD fd); [lia|].
Qed.

Lemma tab_get_none fd s : fdtab s = l -> t !! fd = None -> fd_type (fdtab_get fd s) <> FDTAB_TYPE_FILE.
Proof using HT.
  intros Es Hp. unfold fdtab_get. destruct (Z.ltb_spec fd MIN_FD) as [|Hf]; [done|]. destruct (Z.leb_spec MAX_FD fd); [done|]. cbn [orb]. rewrite Es. destruct (l !! Z.to_nat fd) as [e|] eqn:He; [|done]. pose proof (tr_ent _ _ _ HT _ _ He) as Ho. unfold entry_ok, MIN_FD in *. rewrite Z2Nat.id, Hp in Ho by lia. apply Ho.
Qed.

Lemma tab_delete i e p x : l !! i = Some e -> t !! Z.of_nat i = Some p -> tab_rep (delete (fd_handle e) g) (delete (Z.of_nat i) t) (<[i := FdEntry FDTAB_TYPE_AVAILABLE 0 0 0 x]> l).
Proof using HT.
  intros Hi Hp. pose proof (tr_dom _ _ _ HT _ _ Hp) as Hd. pose proof (tr_ent _ _ _ HT i e Hi) as Hei. unfold entry_ok in Hei. rewrite Hp in Hei. constructor.
  - rewrite length_insert. apply HT.
  - intros j e'. rewrite list_lookup_insert_Some. intros [(<- & <- & _)|[Hj He']]; unfold entry_ok; [rewrite lookup_delete_eq; cbn; split; [done|]; split; [lia|done]|]. rewrite lookup_delete_ne by lia. pose proof (tr_ent _ _ _ HT j e' He') as Ho. unfold entry_ok in Ho. destruct (t !! Z.of_nat j); [|done]. destruct Ho as [Hf Ho]. split; [done|]. rewrite lookup_delete_ne; [done|]. intros E. apply Hj. apply (tr_inj _ _ _ HT i j e e'); try done. apply Hei.
  - intros fd q [_ Hq]%lookup_delete_Some. by apply (tr_dom _ _ _ HT fd q).
  - intros j k e1 e2. rewrite !list_lookup_insert_Some. intros [(<- & <- & _)|[Hj H1]] [(<- & <- & _)|[Hk H2]] F1 F2 E; [done..|by eapply (tr_inj _ _ _ HT)].
Qed.
End Table.

(** * The calls *)

#[local] Opaque lowest.

Lemma open_handle fuel h path s e vh s' : ramfs_open fuel h path s = Done (e, vh, s') -> vh = if err_is_fail e then 0 else h.
Proof.
  unfold ramfs_open, resolve_path. destruct (resolve_loop _ _ _ _ _) as [[e1 d]|]; cbn [mbind outcome_bind]; [|done]. destruct (err_is_fail e1) eqn:E1; cbn [mbind outcome_bind]; [rewrite E1; intros [= <- <- <-]; by rewrite E1|]. unfold handle_open. destruct (Z.eqb_spec h 0) as [->|Hh]; cbn [Z.eqb mbind outcome_bind].
  - cbn. by intros [= <- <- <-].
  - destruct (Z.eqb_spec h 0); [done|]. cbn [mbind outcome_bind err_is_fail SYS_ERR_OK]. destruct (h_isdir (hnd _ _)); [destruct (handle_close _ _); cbn; [|done]; by intros [= <- <- <-]|]. by intros [= <- <- <-].
Qed.

Lemma create_handle fuel hp a h path s e vh s' : ramfs_create fuel hp a (Some h) path s = Done (e, vh, s') -> vh = if err_is_fail e then 0 else h.
Proof.
  unfold ramfs_create. destruct (resolve_path _ _ _ _ _) as [[[e1 ?] s1]|]; cbn [mbind outcome_bind]; [|done]. destruct (err_is_ok e1); [by intros [= <- <- <-]|]. destruct (find_parent _ _ _ _) as [[[[e2 par] nm] s2]|]; cbn [mbind outcome_bind]; [|done]. destruct (err_is_fail e2) eqn:E2; [intros [= <- <- <-]; by rewrite E2|].
  destruct (match par with Some p => _ | None => false end); [by intros [= <- <- <-]|]. destruct (a =? 0); [by intros [= <- <- <-]|]. destruct (insert_child _ _ _) as [s3|]; cbn [mbind outcome_bind]; [|done]. unfold handle_open. destruct (Z.eqb_spec h 0) as [->|Hh]; [by intros [= <- <- <-]|]. destruct (Z.eqb_spec h 0); [done|]. by intros [= <- <- <-].
Qed.

Lemma open_step D f g s h sl p e f' g' : fs_rep D f g s -> allowed D f g (FOpen h sl p) -> fs_spec (FOpen h sl p) f g = Some (e, f', g') ->
  exists n D' s', (forall fuel, (n <= fuel)%nat -> ramfs_open fuel h (path_str sl p) s = Done (e, if err_is_fail e then 0 else h, s')) /\ fs_rep D' f' g' s' /\ forall a, used D' a -> used D a.
Proof.
  intros HR Ha Hx. destruct (ramfs_step D f g s (FOpen h sl p) e f' g' HR Ha Hx) as (n & D' & s' & E & HR' & Hu). exists n, D', s'. split_and!; [|done|intros a Ha'; by destruct (Hu a Ha')]. intros fuel Hf. specialize (E fuel Hf). cbn [fexec] in E.
  destruct (ramfs_open fuel h (path_str sl p) s) as [[[e1 vh] s1]|] eqn:Eo; cbn [mbind outcome_bind] in E; [|done]. injection E as -> ->. apply open_handle in Eo. by subst vh.
Qed.

Lemma create_step D f g s hp a h sl p e f' g' : fs_rep D f g s -> allowed D f g (FCreate hp a (Some h) sl p) -> fs_spec (FCreate hp a (Some h) sl p) f g = Some (e, f', g') ->
  exists n D' s', (forall fuel, (n <= fuel)%nat -> ramfs_create fuel hp a (Some h) (path_str sl p) s = Done (e, if err_is_fail e then 0 else h, s')) /\ fs_rep D' f' g' s' /\ forall b, used D' b -> used D b \/ b = a.
Proof.
  intros HR Ha Hx. destruct (ramfs_step D f g s _ e f' g' HR Ha Hx) as (n & D' & s' & E & HR' & Hu). exists n, D', s'. split_and!; [|done|done]. intros fuel Hf. specialize (E fuel Hf). cbn [fexec] in E.
  destruct (ramfs_create fuel hp a (Some h) (path_str sl p) s) as [[[e1 vh] s1]|] eqn:Eo; cbn [mbind outcome_bind] in E; [|done]. injection E as -> ->. apply create_handle in Eo. by subst vh.
Qed.

(** A handle that was just made is closed. *)
Lemma close_new D f g s h p b c : fs_rep D f (<[h := p]> g) s -> g !! h = None -> f !! p = Some (b, c) -> exists D' s', ramfs_close h s = Done (SYS_ERR_OK, s') /\ fs_rep D' (recount (c - 1) p f) g s' /\ forall a, used D' a -> used D a.
Proof.
  intros HR Hh Hf. destruct (serve_close D f (<[h := p]> g) s HR h SYS_ERR_OK (recount (c - 1) p f) g) as (n & D' & s' & E & HR' & Hu).
  - cbn. rewrite lookup_insert_eq, Hf. by rewrite delete_insert_eq, delete_id.
  - exists D', s'. split_and!; [by apply (E n)|done|]. intros a Ha. by destruct (Hu a Ha).
Qed.

Lemma lookup_err_no f p : forall pre, bool_decide (err_no (lookup_err f pre p) = Some FS_ERR_NOTFOUND) = bool_decide (lookup_err f pre p = err FS_ERR_NOTFOUND).
Proof. induction p as [|n p IH]; intros pre; [done|]. cbn. destruct (f !! (pre ++ [n])) as [[[] ?]|]; [apply IH|done|done]. Qed.

(** What an open leaves behind. *)
Definition opened_fd (D : gmap Z (list Z)) (g : handles) (m : open_mem) (en : Z) (f : fsmap) (t : fdmap) (s : fsops) : Prop :=
  errno s = en /\ exists D' g', fd_rep D' f g' t s /\ (forall a, used D' a -> used D a \/ a = m_entry m) /\ forall h, is_Some (g' !! h) -> is_Some (g !! h) \/ h = m_create m \/ h = m_open m.

Lemma enter_run D g m s D' f f0 r t h p c fd en f' t' : tab_rep g t (fdtab s) -> h = m_create m \/ h = m_open m -> new_handle g h -> fs_rep D' f (<[h := p]> g) r -> (forall a, used D' a -> used D a \/ a = m_entry m) -> f !! p = Some (false, c) -> recount (c - 1) p f = f0 ->
  enter_spec p (errno s) f f0 t = Some (fd, en, f', t') -> exists s', open_done SYS_ERR_OK h (set_mount r s) = Done (fd, s') /\ opened_fd D g m en f' t' s'.
Proof.
  intros HT Hm Hh HR Hu Hf H0 Hx. unfold open_done. cbn [err_is_fail]. unfold fdtab_alloc. cbn [fdtab set_mount]. pose proof (lowest_find g t (fdtab s) HT) as Hl. unfold enter_spec in Hx. destruct (list_find _ (fdtab s)) as [[i e]|] eqn:Ei; rewrite Hl in Hx; injection Hx as <- <- <- <-.
  - destruct (Z.ltb_spec (Z.of_nat i) 0); [lia|]. eexists. split; [done|]. split; [done|]. apply list_find_Some in Ei as (Hi & He & _). exists D', (<[h := p]> g). split_and!; [split; [done|]|done|]; [eapply tab_insert; [done|done|done|apply Hh]|].
    intros h' [q Hq]. apply lookup_insert_Some in Hq as [[<- _]|[_ Hq]]; [by right|left; by eexists].
  - cbn [Z.ltb Z.compare]. destruct (close_new D' f g r h p false c HR) as (D2 & s2 & E2 & HR2 & Hu2); [apply Hh|done|]. cbn [mount set_errno set_mount]. rewrite E2. eexists. split; [done|]. split; [done|]. exists D2, g. rewrite H0 in HR2. split_and!; [by split|auto|]. by left.
Qed.

Lemma fail_run D g m s D' f t r e : tab_rep g t (fdtab s) -> fs_rep D' f g r -> (forall a, used D' a -> used D a \/ a = m_entry m) -> err_is_fail e = true ->
  exists s', open_done e 0 (set_mount r s) = Done (-1, s') /\ opened_fd D g m (if bool_decide (err_no e = Some FS_ERR_NOTFOUND) then ENOENT else errno s) f t s'.
Proof.
  intros HT HR Hu He. unfold open_done. rewrite He. eexists. split; [done|]. split; [by destruct (bool_decide _)|]. exists D', g. split_and!; [by destruct (bool_decide _); split|done|by left].
Qed.

Section Open.
Context (D : gmap Z (list Z)) (f : fsmap) (g : handles) (t : fdmap) (s : fsops) (m : open_mem) (sl : bool) (p : list (list Z)).
Hypothesis (HR : fd_rep D f g t s) (Ha : open_allowed D f g m p).

Lemma allowed_open h : new_handle g h -> allowed D f g (FOpen h sl p).
Proof using Ha. intros Hh. destruct Ha as (Hc & Hp & _). by split. Qed.

(** Without O_CREAT, or if the path exists. *)
Definition existing_spec : option (Z * Z * fsmap * fdmap) :=
  match f !! p with
  | Some (false, r) => enter_spec p (errno s) (recount (r + 1) p f) f t
  | Some (true, _) => Some (-1, errno s, f, t)
  | None => Some (-1, if bool_decide (lookup_err f [] p = err FS_ERR_NOTFOUND) then ENOENT else errno s, f, t)
  end.

Lemma open_existing fd en f' t' : existing_spec = Some (fd, en, f', t') ->
  exists n s', (forall fuel, (n <= fuel)%nat -> ('(e, vh, r) ← ramfs_open fuel (m_open m) (path_str sl p) (mount s); open_done e vh (set_mount r s)) = Done (fd, s')) /\ opened_fd D g m en f' t' s'.
Proof using HR Ha.
  intros Hx. destruct HR as [HF HT]. assert (new_handle g (m_open m)) as Hh by (destruct Ha as (_ & _ & _ & _ & _ & Hh & _); done). unfold existing_spec in Hx.
  destruct (fs_spec (FOpen (m_open m) sl p) f g) as [[[e f1] g1]|] eqn:Es; [|cbn in Es; by destruct (f !! p) as [[[] ?]|]].
  destruct (open_step D f g (mount s) (m_open m) sl p e f1 g1 HF (allowed_open _ Hh) Es) as (n & D1 & r & E & HR1 & Hu1). cbn [fs_spec] in Es. destruct (f !! p) as [[[] c]|] eqn:Hf; injection Es as <- <- <-; cbn [err_is_fail] in E.
  - injection Hx as <- <- <- <-. destruct (fail_run D g m s D1 f t r (err FS_ERR_NOTFILE) HT HR1) as (s' & E' & Ho); [auto|done|]. exists n, s'. split; [|done]. intros fuel Hfu. by rewrite E.
  - assert (recount (c + 1 - 1) p (recount (c + 1) p f) = f) as H0 by (replace (c + 1 - 1) with c by lia; by eapply recount_id). destruct (enter_run D g m s D1 (recount (c + 1) p f) f r t (m_open m) p (c + 1) fd en f' t' HT) as (s' & E' & Ho); [by right|done|done|auto|unfold recount; by rewrite lookup_alter_eq, Hf|done|done|]. exists n, s'. split; [|done]. intros fuel Hfu. by rewrite E.
  - injection Hx as <- <- <- <-. destruct (fail_run D g m s D1 f t r (lookup_err f [] p) HT HR1) as (s' & E' & Ho); [auto|apply lookup_err_fail|]. rewrite lookup_err_no in Ho. exists n, s'. split; [|done]. intros fuel Hfu. rewrite E by done. by rewrite lookup_err_fail.
Qed.

(** With O_CREAT, after the check for O_EXCL. *)
Definition create_then (fuel : nat) : outcome (Z * fsops) :=
  '(e, vh, r) ← ramfs_create fuel (m_parent m) (m_entry m) (Some (m_create m)) (path_str sl p) (mount s);
  '(e, vh, r) ← (if err_is_fail e && bool_decide (e = err FS_ERR_EXISTS) then ramfs_open fuel (m_open m) (path_str sl p) r else Done (e, vh, r));
  open_done e vh (set_mount r s).

Definition create_spec : option (Z * Z * fsmap * fdmap) :=
  match f !! p, f !! above p with
  | Some _, _ => existing_spec
  | None, None => Some (-1, if bool_decide (lookup_err f [] (above p) = err FS_ERR_NOTFOUND) then ENOENT else errno s, f, t)
  | None, Some (false, r) => Some (-1, errno s, recount (r + 1) (above p) f, t)
  | None, Some (true, _) => enter_spec p (errno s) (<[p := (false, 1)]> f) (<[p := (false, 0)]> f) t
  end.

Lemma not_exists_err q pre : bool_decide (lookup_err f pre q = err FS_ERR_EXISTS) = false.
Proof using. revert pre. induction q as [|n q IH]; intros pre; [done|]. cbn. destruct (f !! (pre ++ [n])) as [[[] ?]|]; [apply IH|done|done]. Qed.

Lemma create_runs fd en f' t' : create_spec = Some (fd, en, f', t') -> exists n s', (forall fuel, (n <= fuel)%nat -> create_then fuel = Done (fd, s')) /\ opened_fd D g m en f' t' s'.
Proof using HR Ha.
  intros Hx. destruct HR as [HF HT]. pose proof Ha as (Hc & Hp & _ & Hhp & Hh & _ & Hm0 & Hmu). unfold create_spec in Hx. unfold create_then.
  destruct (f !! p) as [y|] eqn:Hf.
  - destruct (open_existing fd en f' t' Hx) as (n & s' & E & Ho). destruct (enough_fuel D) as [k Hk]. exists (n `max` k)%nat, s'. split; [|done]. intros fuel Hfu. unfold ramfs_create at 1. destruct y as [b r]. rewrite (lookup_only D f g (mount s) HF fuel sl p b r Hp Hf) by (apply Hk; lia). cbn. apply E. lia.
  - assert (allowed D f g (FCreate (m_parent m) (m_entry m) (Some (m_create m)) sl p)) as Hal by (split; [done|]; split_and!; try done; by intros h [= <-]).
    destruct (fs_spec (FCreate (m_parent m) (m_entry m) (Some (m_create m)) sl p) f g) as [[[e f1] g1]|] eqn:Es; [|cbn in Es; rewrite Hf in Es; by destruct (f !! above p) as [[[] ?]|]].
    destruct (create_step D f g (mount s) _ _ _ sl p e f1 g1 HF Hal Es) as (n & D1 & r & E & HR1 & Hu1). cbn [fs_spec] in Es. rewrite Hf in Es. destruct (f !! above p) as [[[] c]|] eqn:Hab; injection Es as <- <- <-; cbn [err_is_fail] in E.
    + destruct (enter_run D g m s D1 (<[p := (false, 1)]> f) (<[p := (false, 0)]> f) r t (m_create m) p 1 fd en f' t' HT) as (s' & E' & Ho); [by left|done|done|auto|by rewrite lookup_insert_eq|unfold recount; by rewrite alter_insert_eq|done|]. exists n, s'. split; [|done]. intros fuel Hfu. by rewrite E.
    + injection Hx as <- <- <- <-. destruct (fail_run D g m s D1 _ t r (err FS_ERR_NOTDIR) HT HR1) as (s' & E' & Ho); [auto|done|]. exists n, s'. split; [|done]. intros fuel Hfu. by rewrite E.
    + injection Hx as <- <- <- <-. destruct (fail_run D g m s D1 f t r (lookup_err f [] (above p)) HT HR1) as (s' & E' & Ho); [auto|apply lookup_err_fail|]. rewrite lookup_err_no in Ho. exists n, s'. split; [|done]. intros fuel Hfu. rewrite E by done. cbn [mbind outcome_bind]. rewrite lookup_err_fail, not_exists_err. done.
Qed.

(** The check for O_EXCL. *)
Lemma excl_exists r : f !! p = Some (false, r) -> exists n s', (forall fuel, (n <= fuel)%nat -> open_excl fuel m (path_str sl p) s = Done (true, s')) /\ opened_fd D g m EEXIST f t s'.
Proof using HR Ha.
  intros Hf. destruct HR as [HF HT]. pose proof Ha as (_ & _ & Hh & _). destruct (open_step D f g (mount s) (m_excl m) sl p SYS_ERR_OK (recount (r + 1) p f) (<[m_excl m := p]> g) HF (allowed_open _ Hh)) as (n & D1 & s1 & E & HR1 & Hu1); [cbn; by rewrite Hf|].
  destruct (close_new D1 (recount (r + 1) p f) g s1 (m_excl m) p false (r + 1) HR1) as (D2 & s2 & E2 & HR2 & Hu2); [apply Hh|unfold recount; by rewrite lookup_alter_eq, Hf|]. replace (r + 1 - 1) with r in HR2 by lia. rewrite (recount_id f p false r (r + 1) Hf) in HR2.
  exists n, (set_errno EEXIST (set_mount s2 s)). split.
  - intros fuel Hfu. unfold open_excl. rewrite E by done. cbn [mbind outcome_bind err_is_ok err_is_fail SYS_ERR_OK negb]. by rewrite E2.
  - split; [done|]. exists D2, g. split_and!; [by split|auto|by left].
Qed.

Lemma excl_absent : f !! p = None -> lookup_err f [] p = err FS_ERR_NOTFOUND -> exists n D' r, (forall fuel, (n <= fuel)%nat -> open_excl fuel m (path_str sl p) s = Done (false, set_mount r s)) /\ fd_rep D' f g t (set_mount r s) /\ forall a, used D' a -> used D a.
Proof using HR Ha.
  intros Hf He. destruct HR as [HF HT]. pose proof Ha as (_ & _ & Hh & _). destruct (open_step D f g (mount s) (m_excl m) sl p (err FS_ERR_NOTFOUND) f g HF (allowed_open _ Hh)) as (n & D1 & s1 & E & HR1 & Hu1); [cbn; by rewrite Hf, He|].
  exists n, D1, s1. split_and!; [|by split|done]. intros fuel Hfu. unfold open_excl. by rewrite E.
Qed.
End Open.

Lemma fd_open D f g t s m sl p flags fd en f' t' : fd_rep D f g t s -> open_allowed D f g m p -> open_spec p flags (errno s) f t = Some (fd, en, f', t') ->
  exists n s', (forall fuel, (n <= fuel)%nat -> fs_libc_open fuel m (path_str sl p) flags s = Done (fd, s')) /\ opened_fd D g m en f' t' s'.
Proof.
  intros HR Ha Hx. unfold open_spec in Hx. unfold fs_libc_open. fold (has_flag flags O_CREAT) (has_flag flags O_EXCL). destruct (has_flag flags O_CREAT); cbn [andb negb] in Hx.
  - destruct (has_flag flags O_EXCL); cbn [andb negb] in Hx.
    + destruct (f !! p) as [[[] r]|] eqn:Hf; [done| |].
      * injection Hx as <- <- <- <-. destruct (excl_exists D f g t s m sl p HR Ha r Hf) as (n & s' & E & Ho). exists n, s'. split; [|done]. intros fuel Hfu. by rewrite E.
      * case_bool_decide as He; cbn [negb] in Hx; [|done]. destruct (excl_absent D f g t s m sl p HR Ha Hf He) as (n1 & D1 & r & E1 & HR1 & Hu1).
        assert (open_allowed D1 f g m p) as Ha1 by (destruct Ha as (?&?&?&?&?&?&?&Hnu); split_and!; [done..|]; intros Hu; by apply Hnu, Hu1).
        destruct (create_runs D1 f g t (set_mount r s) m sl p HR1 Ha1 fd en f' t') as (n & s' & E & Ho & D' & g' & HR' & Hu & Hg); [unfold create_spec; by rewrite Hf|]. exists (n1 `max` n)%nat, s'. split.
        -- intros fuel Hfu. rewrite E1 by lia. apply E. lia.
        -- split; [done|]. exists D', g'. split_and!; [done| |done]. intros a Hua. destruct (Hu a Hua); [left; auto|by right].
    + destruct (create_runs D f g t s m sl p HR Ha fd en f' t') as (n & s' & E & Ho); [unfold create_spec, existing_spec; destruct (f !! p) as [[[] ?]|]; exact Hx|]. exists n, s'. split; [|done]. intros fuel Hfu. by apply E.
  - destruct (open_existing D f g t s m sl p HR Ha fd en f' t') as (n & s' & E & Ho); [unfold existing_spec; destruct (f !! p) as [[[] ?]|]; exact Hx|]. exists n, s'. split; [|done]. intros fuel Hfu. by apply E.
Qed.

(** Where the reference has no result, the assertion after the check for O_EXCL
    fails. *)
Lemma fd_open_fails D f g t s m sl p flags : fd_rep D f g t s -> open_allowed D f g m p -> open_spec p flags (errno s) f t = None ->
  exists n, forall fuel, (n <= fuel)%nat -> fs_libc_open fuel m (path_str sl p) flags s = Fault AssertionFailed.
Proof.
  intros HR Ha Hx. unfold open_spec in Hx. unfold fs_libc_open. fold (has_flag flags O_CREAT) (has_flag flags O_EXCL). pose proof HR as [HF HT]. pose proof Ha as (_ & _ & Hh & _).
  assert (exists e, fs_spec (FOpen (m_excl m) sl p) f g = Some (e, f, g) /\ err_is_fail e = true /\ err_no e <> Some FS_ERR_NOTFOUND /\ has_flag flags O_CREAT = true /\ has_flag flags O_EXCL = true) as (e & Es & Ef & Ee & -> & ->).
  { cbn [fs_spec]. unfold enter_spec in Hx. destruct (has_flag flags O_CREAT), (has_flag flags O_EXCL), (f !! p) as [[[] r]|]; cbn [andb negb] in Hx; try done; try (by destruct (lowest t)); try (by destruct (f !! above p) as [[[] ?]|]; destruct (lowest t)); [by exists (err FS_ERR_NOTFILE)|].
    case_bool_decide as He; cbn [negb] in Hx; [by destruct (f !! above p) as [[[] ?]|]; destruct (lowest t)|]. exists (lookup_err f [] p). split_and!; [done|apply lookup_err_fail| |done|done]. intros E. apply He. pose proof (lookup_err_no f p []) as Hb. rewrite bool_decide_true in Hb by done. symmetry in Hb. by apply bool_decide_eq_true in Hb. }
  destruct (open_step D f g (mount s) (m_excl m) sl p e f g HF (allowed_open D f g m sl p Ha _ Hh) Es) as (n & D1 & r & E & _). exists n. intros fuel Hfu. unfold open_excl. rewrite E by done. cbn [mbind outcome_bind negb]. unfold err_is_ok. rewrite Ef. cbn [negb]. by rewrite bool_decide_false.
Qed.

Lemma fd_close D f g t s fd x f' t' : fd_rep D f g t s -> close_spec fd f t = Some (x, f', t') ->
  exists s', fs_libc_close fd s = Done (x, s') /\ errno s' = errno s /\ exists D' g', fd_rep D' f' g' t' s' /\ (forall a, used D' a -> used D a) /\ forall h, is_Some (g' !! h) -> is_Some (g !! h).
Proof.
  intros [HF HT] Hx. unfold close_spec in Hx. unfold fs_libc_close. destruct (t !! fd) as [p|] eqn:Hp.
  - destruct (f !! p) as [[b r]|] eqn:Hf; [|done]. injection Hx as <- <- <-. destruct (tab_get g t (fdtab s) HT fd p s eq_refl Hp) as (e & He & Ez & Hd & Eg & Ht & Hg). rewrite Eg, Ht.
    destruct (serve_close D f g (mount s) HF (fd_handle e) SYS_ERR_OK (recount (r - 1) p f) (delete (fd_handle e) g)) as (n & D' & r' & E & HR' & Hu); [cbn; by rewrite Hg, Hf|]. specialize (E n ltac:(lia)). cbn [fexec] in E. rewrite E. cbn [mbind outcome_bind err_is_fail].
    unfold fdtab_free. assert (fdtab_get fd (set_mount r' s) = e) as -> by exact Eg. destruct (Z.leb_spec MIN_FD fd); [|unfold MIN_FD in *; lia]. destruct (Z.ltb_spec fd MAX_FD); [|lia]. rewrite Ht. eexists. split; [done|]. split; [done|].
    exists D', (delete (fd_handle e) g). split_and!; [split; [done|]| |].
    + cbn. pose proof (tab_delete g t (fdtab s) HT (Z.to_nat fd) e p (fd_epoll e) He) as Hdel. rewrite Ez in Hdel. by apply Hdel.
    + intros a Hua. by destruct (Hu a Hua).
    + intros h [q [_ Hq]%lookup_delete_Some]. by eexists.
  - injection Hx as <- <- <-. pose proof (tab_get_none g t (fdtab s) HT fd s eq_refl Hp) as Ht. exists s. split; [by destruct (fd_type (fdtab_get fd s))|]. split; [done|]. exists D, g. by split_and!.
Qed.

(** The table and the file system at the start. *)
Lemma fd_init a r en r0 : a <> 0 -> exists s, filesystem_init a r (Fsops fdtab_init en r0) = (SYS_ERR_OK, s) /\ errno s = en /\ fd_rep {[a := []]} {[[] := (true, 0)]} ∅ ∅ s.
Proof.
  intros Ha. unfold filesystem_init. destruct (rep_mount a r Ha) as (r' & -> & HR). eexists. split; [done|]. split; [done|]. split; [done|]. cbn [fdtab set_mount]. unfold fdtab_init. constructor.
  - done.
  - intros i e Hi. unfold entry_ok. rewrite lookup_empty. apply lookup_app_Some in Hi as [Hi|[Hl Hi]].
    + destruct i as [|[|[|i]]]; cbn in Hi; try (injection Hi as <-; cbn; split; [done|]; split; [done|lia]). done.
    + apply lookup_replicate in Hi as [-> _]. cbn in *. split; [done|]. split; [lia|done].
  - intros fd p. by rewrite lookup_empty.
  - intros i j e e' Hi _ Hf. assert (fd_type e <> FDTAB_TYPE_FILE); [|done]. apply lookup_app_Some in Hi as [Hi|[_ Hi]]; [|apply lookup_replicate in Hi as [-> _]; done]. destruct i as [|[|[|i]]]; cbn in Hi; try (injection Hi as <-; done). done.
Qed.

(** ** Data does not change the tree *)

Lemma rep_pos D f g s h x : fs_rep D f g s -> fs_rep D f g (set_hnd h (with_pos x (hnd s h)) s).
Proof.
  intros [H1 H2 H3 H4]. constructor; [by destruct H1|exact H2| |exact H4]. intros h' q Hq. destruct (H3 h' q Hq) as (c & Hc & Hd). exists c. split; [exact Hc|]. cbn. destruct (decide (h' = h)) as [->|Hne]; [by rewrite fn_lookup_insert|by rewrite fn_lookup_insert_ne].
Qed.

Lemma rep_data D f g s a l n : fs_rep D f g s -> fs_rep D f g (set_ent a (with_data l n (ent s a)) s).
Proof.
  intros [H1 H2 H3 H4]. set (s' := set_ent _ _ s). assert (forall b, de_name (ent s' b) = de_name (ent s b) /\ de_parent (ent s' b) = de_parent (ent s b) /\ de_is_dir (ent s' b) = de_is_dir (ent s b) /\ de_dir (ent s' b) = de_dir (ent s b) /\ de_refcount (ent s' b) = de_refcount (ent s b)) as Hb.
  { intros b. unfold s'. cbn. destruct (decide (b = a)) as [->|Hb]; [by rewrite fn_lookup_insert|by rewrite fn_lookup_insert_ne]. }
  assert (same_shape s s') as Hs. { split; [done|]. split; [done|]. intros b. destruct (Hb b) as (?&?&?&?&_). done. }
  constructor; [by eapply shape_tree| | |exact H4].
  - intros p. rewrite (H2 p), (shape_walk _ _ _ p Hs). destruct (walk D s p) as [b|]; [|done]. cbn [fmap option_fmap option_map]. by destruct (Hb b) as (_ & _ & -> & _ & ->).
  - intros h p Hp. destruct (H3 h p Hp) as (c & Hc & Hd). exists c. by rewrite (shape_walk _ _ _ p Hs).
Qed.

Lemma read_keeps D f g s h n e l s' : fs_rep D f g s -> ramfs_read h n s = Done (e, l, s') -> fs_rep D f g s'.
Proof. intros HR. unfold ramfs_read. destruct (h_isdir _); [by intros [= <- <- <-]|]. destruct (assert _) as [[]|]; cbn [mbind outcome_bind]; [|done]. destruct (_ && _); [done|]. intros [= <- <- <-]. by apply rep_pos. Qed.

Lemma write_keeps D f g s junk room h b e n s' : fs_rep D f g s -> ramfs_write junk room h b s = Done (e, n, s') -> fs_rep D f g s'.
Proof.
  intros HR. unfold ramfs_write. destruct (assert _) as [[]|]; cbn [mbind outcome_bind]; [|done]. destruct (h_isdir _); [by intros [= <- <- <-]|]. destruct (_ && negb room); [by intros [= <- <- <-]|]. destruct (_ && _); [done|]. intros [= <- <- <-]. destruct (_ || _); [|by apply rep_pos].
  set (s1 := set_ent _ _ s). change (hnd s h) with (hnd s1 h). apply rep_pos. by apply rep_data.
Qed.

Lemma seek_keeps D f g s h w x s' : fs_rep D f g s -> ramfs_seek h w x s = Done s' -> fs_rep D f g s'.
Proof.
  intros HR. unfold ramfs_seek, ramfs_stat. destruct w; repeat (match goal with |- context [assert ?b] => destruct (assert b) as [[]|] | |- context [nonnull ?a] => destruct (nonnull a) as [[]|] | |- context [if h_isdir ?x then _ else _] => destruct (h_isdir x) end; cbn [mbind outcome_bind]; try done); intros [= <-]; by apply rep_pos.
Qed.

(** Reading, writing and seeking leave the paths and the descriptors. *)
Lemma fd_data_keeps D f g t s : fd_rep D f g t s ->
  (forall fd n x l s', fs_libc_read fd n s = Done (x, l, s') -> fd_rep D f g t s') /\ (forall junk room fd b x s', fs_libc_write junk room fd b s = Done (x, s') -> fd_rep D f g t s') /\ (forall fd o w x s', fs_libc_lseek fd o w s = Done (x, s') -> fd_rep D f g t s').
Proof.
  intros [HF HT]. split_and!.
  - intros fd n x l s'. unfold fs_libc_read. destruct (fd_type _); try (intros [= <- <- <-]; by split). destruct (assert _) as [[]|]; cbn [mbind outcome_bind]; [|done]. destruct (ramfs_read _ _ _) as [[[e k] r]|] eqn:E; cbn [mbind outcome_bind]; [|done]. intros [= <- <- <-]. split; [by eapply read_keeps|done].
  - intros junk room fd b x s'. unfold fs_libc_write. destruct (fd_type _); try (intros [= <- <-]; by split). destruct (ramfs_write _ _ _ _ _) as [[[e k] r]|] eqn:E; cbn [mbind outcome_bind]; [|done]. intros [= <- <-]. split; [by eapply write_keeps|done].
  - intros fd o w x s'. unfold fs_libc_lseek. destruct (fd_type _); try (intros [= <- <-]; by split). destruct (fs_whence w) as [k|]; [|intros [= <- <-]; by split]. destruct (ramfs_seek _ _ _ _) as [r|] eqn:E; cbn [mbind outcome_bind]; [|done]. intros [= <- <-]. split; [by eapply seek_keeps|done].
Qed.

(** ** Data calls that return *)

(** The block of the file holds its size, and the position is not negative. *)
Definition sound_at (h : Z) (s : ramfs) : Prop :=
  let x := hnd s h in let d := ent s (h_dirent x) in 0 <= h_pos x /\ 0 <= de_size d <= Z.of_nat (length (default [] (de_data d))).

Lemma read_returns h n s : h_isdir (hnd s h) = false -> sound_at h s -> 0 <= n -> exists l s', ramfs_read h n s = Done (SYS_ERR_OK, l, s').
Proof.
  intros Hd [Hp Hz] Hn. unfold ramfs_read. rewrite Hd. destruct (Z.leb_spec 0 (h_pos (hnd s h))); [|lia]. cbn [assert mbind outcome_bind]. set (k := if bool_decide _ then _ else _).
  assert (k <= 0 \/ h_pos (hnd s h) + k <= de_size (ent s (h_dirent (hnd s h)))) as Hk. { unfold k. case_bool_decide; [by left|]. zcases; lia. }
  destruct (Z.ltb_spec 0 k); cbn [andb]; [|by eexists _, _]. destruct (Z.ltb_spec (Z.of_nat (length (default [] (de_data (ent s (h_dirent (hnd s h))))))) (h_pos (hnd s h) + k)); [lia|]. by eexists _, _.
Qed.

Lemma write_returns junk h b s : h_isdir (hnd s h) = false -> sound_at h s -> h_pos (hnd s h) + Z.of_nat (length b) < 2 ^ 32 -> exists s', ramfs_write junk true h b s = Done (SYS_ERR_OK, Z.of_nat (length b), s').
Proof.
  intros Hd [Hp Hz] Hn. unfold ramfs_write. rewrite Hd. destruct (Z.leb_spec 0 (h_pos (hnd s h))); [|lia]. cbn [assert mbind outcome_bind negb]. rewrite andb_false_r. assert (u32 (h_pos (hnd s h)) = h_pos (hnd s h)) as -> by (apply u32_small; lia). assert (u32 (h_pos (hnd s h) + Z.of_nat (length b)) = h_pos (hnd s h) + Z.of_nat (length b)) as -> by (apply u32_small; lia). set (l := if _ <? _ then _ else _).
  assert (h_pos (hnd s h) + Z.of_nat (length b) <= Z.of_nat (length l)) as Hl.
  { unfold l. destruct (Z.ltb_spec (de_size (ent s (h_dirent (hnd s h)))) (h_pos (hnd s h) + Z.of_nat (length b))); [|lia]. unfold realloc. rewrite length_app, length_fmap, length_seqZ, length_take. lia. }
  destruct (Z.ltb_spec (Z.of_nat (length l)) (h_pos (hnd s h) + Z.of_nat (length b))); [lia|]. rewrite andb_false_r. by eexists.
Qed.

Lemma seek_returns h w x s : h_isdir (hnd s h) = false -> 0 <= (match w with FS_SEEK_SET => 0 | FS_SEEK_CUR => h_pos (hnd s h) | FS_SEEK_END => de_size (ent s (h_dirent (hnd s h))) end) + x -> exists s', ramfs_seek h w x s = Done s'.
Proof.
  intros Hd Hx. unfold ramfs_seek, ramfs_stat. rewrite Hd. destruct w.
  - destruct (Z.leb_spec 0 x); [|lia]. by eexists.
  - destruct (Z.leb_spec 0 x); cbn [orb]; [by eexists|]. destruct (Z.leb_spec (- x) (h_pos (hnd s h))); [|lia]. by eexists.
  - destruct (Z.leb_spec 0 x); cbn [orb]; [by eexists|]. destruct (Z.leb_spec (- x) (de_size (ent s (h_dirent (hnd s h))))); [|lia]. by eexists.
Qed.

(** On an open descriptor. *)
Lemma fd_data_returns D f g t s fd p : fd_rep D f g t s -> t !! fd = Some p -> let h := fd_handle (fdtab_get fd s) in sound_at h (mount s) ->
  (forall n, 0 <= n -> exists x l s', fs_libc_read fd n s = Done (x, l, s')) /\
  (forall junk b, h_pos (hnd (mount s) h) + Z.of_nat (length b) < 2 ^ 32 -> exists s', fs_libc_write junk true fd b s = Done (to_int (Z.of_nat (length b)), s')) /\
  (forall o, 0 <= o -> exists x s', fs_libc_lseek fd o 0 s = Done (x, s')).
Proof.
  intros [HF HT] Hp h Hs. destruct (tab_get g t (fdtab s) HT fd p s eq_refl Hp) as (e & _ & _ & _ & Eg & Ht & Hg). unfold h in *. clear h. destruct (r_hnd _ _ _ _ HF _ _ Hg) as (a & _ & Hd & _ & Hh0). unfold fs_libc_read, fs_libc_write, fs_libc_lseek. rewrite Eg in *. rewrite Ht. split_and!.
  - intros n Hn. destruct (Z.eqb_spec (fd_handle e) 0); [done|]. cbn [negb assert mbind outcome_bind]. destruct (read_returns _ n _ Hd Hs Hn) as (l & r & ->). by eexists _, _, _.
  - intros junk b Hb. destruct (write_returns junk _ b _ Hd Hs Hb) as (r & ->). by eexists.
  - intros o Ho. destruct (seek_returns (fd_handle e) FS_SEEK_SET o _ Hd Ho) as (r & Er). cbn [fs_whence Z.eqb]. rewrite Er. by eexists _, _.
Qed.

(** * The refinement *)

(** C15: the table of descriptors over the file system refines finite maps
    from descriptors and from paths, for well-formed names, new memory and
    counts that do not overflow: open returns the smallest free descriptor
    or -1 with the errno of the reference, or fails an assertion where the
    reference has no result, which is O_CREAT with O_EXCL on a directory or
    below a file; close frees exactly its descriptor; reads, writes and
    seeks that return keep both maps. On an open descriptor whose position
    is not negative and whose block of data holds the size of the file,
    every read, every write that ends below 4 GB and gets its memory, and
    every seek to an offset from the start returns. *)
Theorem fd_refines_map :
  (forall a r en r0, a <> 0 -> exists s, filesystem_init a r (Fsops fdtab_init en r0) = (SYS_ERR_OK, s) /\ errno s = en /\ fd_rep {[a := []]} {[[] := (true, 0)]} ∅ ∅ s) /\
  forall D f g t s, fd_rep D f g t s ->
    (forall m sl p flags, open_allowed D f g m p -> exists n,
     match open_spec p flags (errno s) f t with
     | Some (fd, en, f', t') => exists s', (forall fuel, (n <= fuel)%nat -> fs_libc_open fuel m (path_str sl p) flags s = Done (fd, s')) /\ opened_fd D g m en f' t' s'
     | None => forall fuel, (n <= fuel)%nat -> fs_libc_open fuel m (path_str sl p) flags s = Fault AssertionFailed
     end) /\
    (forall fd x f' t', close_spec fd f t = Some (x, f', t') ->
     exists s', fs_libc_close fd s = Done (x, s') /\ errno s' = errno s /\ exists D' g', fd_rep D' f' g' t' s' /\ (forall a, used D' a -> used D a) /\ forall h, is_Some (g' !! h) -> is_Some (g !! h)) /\
    ((forall fd n x l s', fs_libc_read fd n s = Done (x, l, s') -> fd_rep D f g t s') /\ (forall junk room fd b x s', fs_libc_write junk room fd b s = Done (x, s') -> fd_rep D f g t s') /\ (forall fd o w x s', fs_libc_lseek fd o w s = Done (x, s') -> fd_rep D f g t s')) /\
    (forall fd p, t !! fd = Some p -> let h := fd_handle (fdtab_get fd s) in sound_at h (mount s) ->
     (forall n, 0 <= n -> exists x l s', fs_libc_read fd n s = Done (x, l, s')) /\
     (forall junk b, h_pos (hnd (mount s) h) + Z.of_nat (length b) < 2 ^ 32 -> exists s', fs_libc_write junk true fd b s = Done (to_int (Z.of_nat (length b)), s')) /\
     (forall o, 0 <= o -> exists x s', fs_libc_lseek fd o 0 s = Done (x, s'))).
Proof.
  split; [apply fd_init|]. intros D f g t s HR. split_and!; [|intros; by eapply fd_close|by apply (fd_data_keeps D f g)..|intros; by eapply fd_data_returns].
  intros m sl p flags Ha. destruct (open_spec p flags (errno s) f t) as [[[[fd en] f'] t']|] eqn:E; [|by eapply fd_open_fails]. destruct (fd_open D f g t s m sl p flags fd en f' t' HR Ha E) as (n & s' & H1 & H2). exists n, s'. by split.
Qed.

#[local] Transparent lowest.

Module FopenSample.
Import RamfsSample.

Definition started : fsops := (filesystem_init 1 s0 (Fsops fdtab_init 0 s0)).2.
Definition mem : open_mem := OpenMem 11 12 2 13 14.

(** A file is created, and its descriptor closed. *)
Lemma fd_refines_map_witness : exists s1 n s2 s3 D2 g2 D3 g3, filesystem_init 1 s0 (Fsops fdtab_init 0 s0) = (SYS_ERR_OK, s1) /\
  (forall fuel, (n <= fuel)%nat -> fs_libc_open fuel mem (path_str true [f]) O_CREAT s1 = Done (3, s2)) /\ fd_rep D2 (<[[f] := (false, 1)]> {[[] := (true, 0)]}) g2 (<[3 := [f]]> ∅) s2 /\
  fs_libc_close 3 s2 = Done (0, s3) /\ fd_rep D3 (<[[f] := (false, 0)]> {[[] := (true, 0)]}) g3 ∅ s3.
Proof.
  destruct fd_refines_map as [Hi Hx]. destruct (Hi 1 s0 0 s0 ltac:(lia)) as (s1 & E1 & En & HR1). destruct (Hx _ _ _ _ _ HR1) as [Ho _].
  assert (open_allowed {[1 := []]} {[[] := (true, 0)]} ∅ mem [f]) as Hal.
  { split; [by apply (bool_decide_unpack _); vm_compute|]. split; [rewrite !Forall_cons, Forall_nil; split; [|done]; split; [done|]; apply (bool_decide_unpack _); by vm_compute|]. split_and!; try done. intros [[l [? _]%lookup_singleton_Some]|(b & l & [_ <-]%lookup_singleton_Some & ?%elem_of_nil)]; done. }
  assert (open_spec [f] O_CREAT 0 {[[] := (true, 0)]} ∅ = Some (3, 0, <[[f] := (false, 1)]> {[[] := (true, 0)]}, <[3 := [f]]> ∅)) as Es by (by vm_compute).
  destruct (Ho mem true [f] O_CREAT Hal) as [n Hn]. rewrite En, Es in Hn. destruct Hn as (s2 & E2 & En2 & D2 & g2 & HR2 & _).
  destruct (Hx _ _ _ _ _ HR2) as [_ [Hc _]]. destruct (Hc 3 0 (<[[f] := (false, 0)]> {[[] := (true, 0)]}) ∅) as (s3 & E3 & _ & D3 & g3 & HR3 & _); [by vm_compute|]. by exists s1, n, s2, s3, D2, g2, D3, g3.
Defined.

(** With O_CREAT and O_EXCL, a path that is a directory fails the assertion. *)
Example fopen_excl_directory : fault_of (fs_libc_open 9 mem (path_str true []) (Z.lor O_CREAT O_EXCL) started) = Some AssertionFailed.
Proof. by vm_compute. Qed.

(** Without it, a directory can not be opened, and errno is left as it was. *)
Example fopen_directory_no_errno : ('(fd, s) ← fs_libc_open 9 mem (path_str true []) O_CREAT started; Done (fd, errno s)) = Done (-1, 0).
Proof. by vm_compute. Qed.
End FopenSample.
